(* ===== verification/_CoqProject ===== *)
-Q . S2P
Prelude.v
GoStrings.v
GoRegexp.v
GoValue.v
GoTime.v
Crypto.v
NetIP.v
Security.v
Rbac.v
RateLimiter.v
Totp.v
KeyStore.v
AuditLog.v
Middleware.v
ConnLimit.v
HA.v
Nodes.v
Backend.v
Scaling.v
Health.v
Jobs.v
Alerts.v
Rollout.v
Discovery.v
Networking.v
Routes.v
LcmRegistry.v
LcmProxy.v
LcmSweeper.v
LcmResumer.v
MasterConfig.v
MasterLabels.v
MasterNodes.v
MasterVersions.v
MasterTemplates.v
MasterMeta.v
MasterSched.v
MasterQueue.v
MasterCreate.v
MasterTask.v
TcRefs.v
TcStore.v
TcArtifact.v
TcDelete.v
TcSnapshot.v
CletAlloc.v
CletStore.v
CletCgroup.v
CletSem.v
CletLocks.v
CletFlow.v
CletEgress.v
CletNet.v
