(* ===== verification/Prelude.v ===== *)
(** * Cube Container: a verification development

    Cube Container runs and manages containers and sandboxes on small clusters.
    Parts of four of its programs are modelled here: the MCP server under
    src/mcp-server-go, one Go process that offers some two hundred tools over HTTP
    and drives a container runtime; CubeMaster (src/CubeMaster), the control plane
    that places and creates sandboxes on nodes; the Cubelet (src/Cubelet), which
    runs them on a node; and the lifecycle manager (src/cube-lifecycle-manager),
    which pauses, resumes and kills idle sandboxes together with the proxies in
    front of them (src/CubeProxy).

    ** The programs and the files

    MCP server.  A request goes through the HTTP gate (auth.go), which
    authenticates the key, applies the rate limits and the roles, runs the tool and
    writes the audit log.  The tools change the state of managers: nodes, replicas,
    health checks, service discovery, networking, routes of the reverse proxy,
    roll-outs, scheduled jobs, alert rules.  Several servers form an active-passive
    group (ha.go).

    - Prelude: errors as values ([res], [let!], [reject]), 64-bit integers,
      time, generic lemmas.
    - GoStrings, GoRegexp, GoValue, GoTime, NetIP, Crypto: what the sources use of Go's
      standard library, executable: strings as bytes (package strings, white space in
      UTF-8), anchored regular expressions, dynamic values and float64 with the
      argument helpers of tools_helpers.go, durations and their texts (package time), IP literals and host:port pairs
      (package net), SHA-1, SHA-256, HMAC, hex and base32.  Three classes are parameters:
      [GoRuntime] (printing of floats, quoting, lower case outside ASCII,
      out-of-range conversions), [TimeText] (time stamps as text) and [Crypto],
      which has an executable instance.
    - Security: the validators of security.go (names, commands, paths, mounts,
      Git URLs, hosts).
    - Rbac: roles and toolPermissions (auth.go), every registration of
      tools_registration.go and metal_tools_registration.go.
    - RateLimiter: rateLimiter (auth.go).   Totp: totp.go.
    - KeyStore: KeyStore (auth.go), auth_tokens.go, totp_handlers.go.
    - AuditLog: AuditLogger and VerifyAuditChain (auth.go).
    - Middleware: Wrap, RequireRole and the key administration API (auth.go),
      extractToolFromRequest (server.go).
    - ConnLimit: maxConnsListener (auth.go).   HA: ha.go.   Nodes: nodes.go.
    - Backend: the interface ContainerBackend (backend.go) as a class, the laws
      clients rely on, and a runtime in memory that keeps them.  The laws are what
      DockerClient and CubeClient keep even when they fail half way: a creation that
      errs may leave one container running, a removal that errs may have removed it.
    - Scaling: scaling.go, proved against the laws of Backend.
    - Health: health.go.   Discovery: discovery.go.   Networking: networking.go.
    - Rollout: deploy_rollout.go, over Scaling, Health and Backend.
    - Routes: routing.go.   Jobs: jobs.go.   Alerts: alerting.go.  (Their tools are in
      handlers_phase2.go and in these files.)

    Lifecycle manager.  Events of a Redis stream and a snapshot keep a registry of
    sandboxes; the proxies report activity, which is polled; a sweeper pauses or
    kills what is idle and a resumer brings paused sandboxes back on demand.
    Several managers coordinate through a state key in Redis.

    - LcmRegistry: registry.go, schema.go, stream.go and the event loop of main.go.
    - LcmProxy: proxypush, discovery, the poll of main.go, and the Lua side
      (admin_phase.lua, log_phase.lua, the gate of sandbox_state.lua).
    - LcmSweeper: sweeper.go, the resume of resumer.go, the client of CubeMaster:
      programs over Redis, CubeMaster, the proxies and the registry ([prog], a free
      monad), run by one handler or interleaved in a pool.
    - LcmResumer: the single-flight table of resumer.go and the handler of
      httpapi/server.go.

    CubeMaster.  A cache of nodes is fed by the database, by events and by reports;
    a view of which node holds which template is kept beside it.  Creations wait in
    a queue per product under a semaphore; each is placed by the scheduler, sent to
    the node's Cubelet, retried, published to the proxies or undone.  Nodes register
    and send heartbeats, which a service keeps in the database and hands to the
    cache; slow work on the Cubelets (destructions, images, updates) is a task in a
    bounded queue.

    - MasterConfig: the scheduler block of base/config/config.go.
    - MasterNodes: base/node, base/nodehealth, localcache (nodes), the paging of
      sandbox_list.go and of the command line.  Nodes are shared objects: the cache
      and its sorted lists hold pointers into a heap.
    - MasterTemplates: localcache (templates, snapshot storage), base/framework.
    - MasterSched: scheduler/schedule.go, selctx, affinity, all of selector.
    - MasterQueue: base/semaphore, base/bufferqueue, the limit of scheduler/local.go.
    - MasterCreate: service/sandbox/sandbox_run.go, errorcode.
    - MasterLabels, MasterVersions, MasterMeta: nodemeta (the rules on labels, the
      version matrix, registration, heartbeats, the administration of nodes and the
      reload of replicas), the node metrics of localcache/redis_cache.go.
    - MasterTask: task, base/queueworker, base/wrapconcurrent, base/retry,
      base/rediskey.

    The template center of CubeMaster (pkg/templatecenter) keeps templates made from
    images and snapshots taken of sandboxes.  An artifact, the file system built from an
    image, can serve several templates and has copies on nodes; a reference says which
    sandbox runs on which snapshot; jobs record the work.

    - TcRefs: snapshot_runtime_ref.go.
    - TcStore: the tables, with the queries and updates of store.go and job_repo.go.
    - TcArtifact: artifact_build.go, artifact_lifecycle.go, artifact_gc.go,
      artifact_placement.go, distribution.go and the file handling of redo.go: builds,
      clean-ups, collection and redo as processes whose transactions and calls interleave.
    - TcDelete: delete.go.
    - TcSnapshot: snapshot_ops.go: creation, roll-back and deletion as threads that take
      locks, insert jobs, call nodes and record the outcome.

    Cubelet.  A request to create or destroy a sandbox runs a workflow: steps in
    order, the actions of a step at the same time, undone as a whole when one fails.
    The actions take a control group, a network and other resources, and record
    them in key-value files from which they are restored when the Cubelet starts.

    - CletFlow: plugins/workflow (the engine and its configuration).
    - CletAlloc: pkg/allocator.   CletStore: pkg/utils/localstorage.go.
    - CletCgroup: plugins/cube/internals/cgroup (both pools, the plugin).
    - CletNet: network (plugin.go, plugin_tap.go, proto), pkg/store/network,
      services/server/tap_provider.go.
    - CletEgress: the egress policy of network/plugin_tap.go,
      pkg/container/netfile/netfile.go.
    - CletSem: pkg/semaphore.   CletLocks: internal/kmutex, pkg/multilock.

    A struct is a [Record], a method that changes it returns the new one, an
    error is [Err] with the message of the source.  What the environment decides
    (clock readings, random bytes, the outcome of a write, a peer's answer) is an
    argument, so that a theorem holds for every choice.  Where locks are released
    in the middle of an operation the model has the interleavings: health checks
    live in a heap because the watcher holds pointers to them, the first half
    of AddPortMapping runs without the lock, sweepers and resumers are programs
    whose calls interleave, the semaphores, the locks by key, the tasks and the
    single-flight table are step relations over their clients.

    Code outside the repository is a class with the laws that its documentation
    gives: the lock object [Sem1] of golang.org/x/sync, the JSON of stored
    allocations [AllocCodec] and of node records, the identifier range [Range]
    that [SimpleLinearRanger] meets.  The actions of the workflow are behind the
    interface [Flow]: they are functions on a state that return, fail or panic.
    What the network agent, the database and Redis answer, and the order in which
    concurrent actions end, are arguments.

    ** What the theorems show

    - Authentication: over any history of its operations the key store answers as a
      register of grants does (who holds which secret and role, is revoked, has a
      second factor, and up to which time step its codes are spent); a new
      key authenticates, a revoked one does not, credentials survive a restart,
      no plain secret reaches the disk, and a TOTP code is accepted once.
    - The gate: over any history of requests and changes of the keys, which of them
      reach a tool, by what the register and the two windows of readings say, with
      the requests that pass without a role check named; every request leaves one audit
      entry; the registered tools and the permission table agree.
    - Rate limiting: the limiter refines the abstract window (a request is
      granted when fewer than the limit were granted within the window).
    - Audit: a log written by the logger verifies; a file that the verifier accepts and
      that ends in the same hash has the same entries, or exhibits a hash collision.
    - Failover: a standby takes over exactly when no heartbeat that counts came for the
      timeout, and which count; of the active nodes that exchange heartbeats one remains.
    - Registries: nodes, services and discovery keep their invariants and survive
      a restart; port mappings do not conflict when requests do not overlap.
    - Scaling: the replicas of a service are distinct and running, and their
      number is the one asked for, or the error says why not.
    - Roll-outs: at every moment as many containers of the service run as it has
      replicas; a blue-green roll-out does all or nothing.
    - Routes: the configuration has exactly the stored routes, and no text of a user
      adds a line, a block or a directive to it.
    - Jobs and alerts: jobs call permitted tools only, on schedule; rules fire only
      outside their cooldown; notifications go to accepted addresses only.
    - Health: a container is restarted only after as many failed probes in a row
      as its threshold says, and at the threshold it is; every stored check is
      well formed.
    - Validators: accepted commands, contained paths, blocked addresses.
    - Lifecycle: the registry refines the feed of events and never moves activity
      back; polls miss nothing as long as every replica answers; two sweepers never
      act on a sandbox at once, act only on idle ones, and each attempt leaves
      Redis, CubeMaster, the proxies and the registry in the state its branch says;
      a resume is driven once per sandbox, and all who wait get its result.
    - Node cache: after any history of loads, events and refreshes (nodes keep
      their label, deletions name nodes of the default product) each list has
      exactly the healthy cached nodes of its product, sorted and without
      duplicates; listing all pages ends and returns every node.
    - Templates: the two caches refine a relation between templates and nodes.
    - Placement: a node that is returned is healthy, has room and passed every
      filter (or comes from the request's backoff selector, when that applies); a
      node is found when a candidate fits; a template request stays on nodes that
      hold the template.
    - Admission: the semaphore counts exactly its holders, keeps nobody waiting
      beside a free permit and serves in order; the queue starts the oldest job
      below the limit, loses none and drains.
    - Creation: no sandbox is lost (answered, or queued for destruction), the counts
      of creations per node are restored, retries are bounded when Cubelets answer.

    - Node metadata: the labels kept for a node refine the history of registrations
      and label requests; a heartbeat reaches the scheduler's view of its node; a
      restart restores the nodes; memory and database agree while reloads are current; the version matrix
      counts every node under its components and versions, once.
    - Template center: the bindings of sandboxes to snapshots refine a map that attaching,
      detaching and reports of nodes update; an artifact that a build has claimed is not
      cleaned up; a deletion removes a template exactly when its guards allow it and
      leaves the artifacts of others (as long as one master works on a template);
      operations on snapshots exclude each other by sandbox
      and by snapshot, never deadlock and end; generations of roll-backs grow.
    - Tasks: each is queued, running, waiting or finished, at one place; with
      answering Cubelets the queue empties and every task is reported.
    - Allocation: an identifier is free when it is handed out, and an error means
      that none was; the spread key-value files refine one map with nested buckets; two sandboxes never
      share a control group (within the numbers that a restart reserves).
    - Workflow: the steps run in order and stop at a failure; a failed creation is
      undone; the counts of requests in flight are exact; an engine that was
      configured without an error has what its flows need.
    - Network of a sandbox: the file of a tap device is served to the sandbox it
      was made for; a network the agent granted is recorded until it is released
      or the plugin restarts;
      allocations survive a restart of the Cubelet; a policy with rules on names
      lets the sandbox reach its name servers, and adds nothing else.
    - Locks: at most one holder per key; the semaphore and the request limiter
      never give out more than they have.

    Other theorems state behaviour that differs from what the comments or the
    design ask for (names such as [restart_breaks_chain], [limit_stops_server],
    [retry_picks_bad_node], [resize_leaks_unit], [restart_forgets_networks]); each is exact about the code.

    ** Bounds and fuel

    Loops are structural recursion on the data they traverse, or on a number of
    iterations computed beforehand ([scaleUp_loop], [scaleDown_loop]).  Functions
    that take fuel: the blocks of a hashed message (one unit per word, and
    each round consumes sixteen), the groups of an IPv6 literal (nine units;
    eight groups fill the address), the pages of a listing (a theorem gives a
    number that suffices), the search for a free identifier (the laws of [Range]
    say that its iterator ends within [steps] moves), the steps of an artifact's
    clean-up ([cleanup_fuel]: its phases and one step per placement;
    [cleanup_fuel_enough]).  The wait for a peer's resume takes the number of ticks
    before its context ends, and the creation loop takes the rounds the environment
    grants: the code has no other bound.  Integers are [Z] with [wrap64] where the
    code can overflow.  Maps are [gmap]; an order that Go leaves open is an
    argument.

    ** Simplifications

    Some operations are one step of the model where the code lets others in between:
    the events of the node cache (dealEvent and the refresh from the database take and
    release the locks of the cache several times), the creation and the destruction of
    a sandbox's network, the handlers of node metadata and their reload, the
    transactions on references to snapshots (the database runs them under REPEATABLE
    READ; two that attach at the same time are not represented), the retry counters of
    a task that ran without a permit.  The theorems on these parts speak of histories
    in which such operations follow each other; those on semaphores, locks, tasks,
    sweepers, builds and snapshots interleave their steps.  The threads of TcSnapshot
    belong to one master process, because its locks do, and building the list of
    requests after a job is claimed does not fail there.  The lock object of
    golang.org/x/sync grants or refuses; that a caller whose context ends while it is
    granted may be told either is not distinguished.  The priority queue of
    bufferqueue serves equal priorities in their order of arrival; container/heap
    promises no order among them, and no theorem rests on it.

    ** Not modelled

    Transport (HTTP, gRPC, TLS, Docker's, Proxmox's and Redis' protocols) and encodings
    (JSON, YAML: parameters with their round trip) belong to libraries; external
    commands, start-up, metrics and logs hold no state of the program's own.  Of
    CubeMaster: the HTTP services and the command line, which convert requests.  Of the
    Cubelet: storage, containers, images and the services that offer them over gRPC,
    which call containerd, the shim and the file system.  Of the MCP server: its
    scheduler, configuration maps and secrets, virtual machines, bare metal, backups and
    roll-back, and the queries of logs and metrics, which wrap calls to other programs.
    CubeAPI, CubeEgress, the web console and the rest of CubeProxy are written in other
    languages. *)
From stdpp Require Export base list strings gmap pretty numbers sorting.
From Stdlib Require Export ZArith Lia.

Declare Scope go_scope.
Delimit Scope go_scope with go.

(** ** Errors as values

    A Go function returning [(T, error)] is a Rocq function into [res T]: the
    message of a failing call is the text its [fmt.Errorf] produces. *)
Inductive res (A : Type) : Type :=
  | Ok (a : A)
  | Err (msg : string).

Arguments Ok {A} a.
Arguments Err {A} msg.

Definition rbind {A B : Type} (r : res A) (k : A -> res B) : res B :=
  match r with
  | Ok a => k a
  | Err m => Err m
  end.

Definition is_ok {A : Type} (r : res A) : bool :=
  match r with Ok _ => true | Err _ => false end.

(** [let! x := e in k]: call [e], return its error at once.
    [reject c with m ;; k]: the early return [if c { return m }]. *)
Notation "'let!' x := e 'in' k" := (rbind e (fun x => k))
  (at level 10, x pattern, e at level 100, k at level 200) : go_scope.
Notation "'reject' c 'with' m ;; k" := (if c then Err m else k)
  (at level 10, c at level 99, m at level 99, k at level 200) : go_scope.

Open Scope go_scope.

(** Boolean equality of strings, the code's [==] on strings. *)
Notation "s =s t" := (bool_decide (s = t)) (at level 70, no associativity) : go_scope.
Notation "s <>s t" := (negb (bool_decide (s = t))) (at level 70, no associativity) : go_scope.

(** ** Machine integers: Go's [int] on the 64-bit platforms the project ships for *)
Definition int_min : Z := - 2 ^ 63.
Definition int_max : Z := 2 ^ 63 - 1.
Definition wrap64 (z : Z) : Z := (z + 2 ^ 63) `mod` 2 ^ 64 - 2 ^ 63.

(** ** Time: nanoseconds since Go's zero instant (January 1, year 1, UTC)

    [time.Time{}] is [0]; [IsZero] tests for it.  [Sub] saturates at the
    bounds of [time.Duration]; [After] is strict; [Unix] counts seconds from
    1970, 62135596800 seconds after the zero instant. *)
Definition time_zero : Z := 0.
Definition time_is_zero (t : Z) : bool := (t =? 0)%Z.
Definition time_after (t u : Z) : bool := (u <? t)%Z.
Definition time_sub (t u : Z) : Z := Z.max int_min (Z.min int_max (t - u)).
Definition second : Z := 1000000000.
Definition minute : Z := 60 * second.
Definition time_unix (t : Z) : Z := t `div` second - 62135596800.

(** ** Generic lemmas *)

Lemma wrap64_id (z : Z) : (int_min <= z <= int_max)%Z -> wrap64 z = z.
Proof.
  unfold wrap64, int_min, int_max. intros H.
  rewrite Z.mod_small; lia.
Qed.

Lemma wrap64_range (z : Z) : (int_min <= wrap64 z <= int_max)%Z.
Proof.
  unfold wrap64, int_min, int_max.
  pose proof (Z.mod_pos_bound (z + 2 ^ 63) (2 ^ 64)). lia.
Qed.

Lemma rbind_ok {A B} (r : res A) (k : A -> res B) b :
  rbind r k = Ok b <-> exists a, r = Ok a /\ k a = Ok b.
Proof. destruct r as [a|m]; simpl; split; [eauto|intros (a' & [= <-] & Hk); done|done|intros (? & ? & _); done]. Qed.

Lemma Forall_filter_keep {A} (P Q : A -> Prop) `{!forall x, Decision (P x)} (l : list A) :
  Forall Q l -> Forall Q (filter P l).
Proof.
  rewrite !Forall_forall. intros HQ x Hx. apply HQ.
  by apply list_elem_of_filter in Hx as [_ ?].
Qed.

Lemma filter_ext_Forall {A} (P Q : A -> Prop)
  `{!forall x, Decision (P x), !forall x, Decision (Q x)} (l : list A) :
  Forall (fun x => P x <-> Q x) l -> filter P l = filter Q l.
Proof.
  induction 1 as [|x l HPQ _ IH]; [done|].
  rewrite (filter_cons P), (filter_cons Q).
  destruct (decide (P x)), (decide (Q x)); rewrite ?IH; tauto.
Qed.

Lemma length_filter_mono {A} (P Q : A -> Prop)
  `{!forall x, Decision (P x), !forall x, Decision (Q x)} (l : list A) :
  Forall (fun x => P x -> Q x) l -> (length (filter P l) <= length (filter Q l))%nat.
Proof.
  induction 1 as [|x l HPQ _ IH]; [done|].
  rewrite (filter_cons P), (filter_cons Q).
  destruct (decide (P x)), (decide (Q x)); simpl; (lia || tauto).
Qed.

Lemma filter_all {A} (P : A -> Prop) `{!forall x, Decision (P x)} (l : list A) :
  Forall P l -> filter P l = l.
Proof.
  induction 1 as [|x l HP _ IH]; [done|]. rewrite filter_cons_True by done. by rewrite IH.
Qed.

Lemma filter_none {A} (P : A -> Prop) `{!forall x, Decision (P x)} (l : list A) :
  Forall (fun x => ~ P x) l -> filter P l = [].
Proof.
  induction 1 as [|x l HP _ IH]; [done|]. by rewrite filter_cons_False.
Qed.

Lemma NoDup_omap_on {A B} (f : A -> option B) (l : list A) :
  (forall a b y, a ∈ l -> b ∈ l -> f a = Some y -> f b = Some y -> a = b) -> NoDup l -> NoDup (omap f l).
Proof.
  intros Hinj. induction 1 as [|a l Ha Hl IH]; [constructor|]. cbn. specialize (IH (fun x y z Hx Hy => Hinj x y z (list_elem_of_further _ _ _ Hx) (list_elem_of_further _ _ _ Hy))).
  destruct (f a) as [y|] eqn:E; [|done]. constructor; [|done]. intros (b & Hb & Hfb)%list_elem_of_omap.
  assert (a = b) as -> by (eapply Hinj; [apply list_elem_of_here|by apply list_elem_of_further|done..]). done.
Qed.

(** Filling a map from a list whose keys are distinct: the order is immaterial. *)
Lemma foldl_insert_lookup `{Countable K} {A V} (key : A -> K) (val : A -> V) (l : list A) :
  forall m : gmap K V, NoDup (key <$> l) ->
  (forall x, x ∈ l -> foldl (fun m x => <[key x := val x]> m) m l !! key x = Some (val x)) /\
  (forall n, n ∉ (key <$> l) -> foldl (fun m x => <[key x := val x]> m) m l !! n = m !! n).
Proof.
  induction l as [|u l IH]; intros m Hnd; [by split; [intros ? []%not_elem_of_nil|]|].
  cbn [fmap list_fmap] in *. apply NoDup_cons in Hnd as [Hu Hnd].
  destruct (IH (<[key u := val u]> m) Hnd) as [H1 H2]. cbn [foldl]. split.
  - intros x [->|Hx]%elem_of_cons; [|by apply H1]. rewrite H2 by done. apply lookup_insert_eq.
  - intros n [Hn Hl]%not_elem_of_cons. rewrite H2 by done. by apply lookup_insert_ne.
Qed.

(** A history that keeps an invariant step by step keeps it as a whole. *)
Lemma foldl_inv {S O} (f : S -> O -> S) (I : S -> Prop) (Q : O -> Prop) l : forall s,
  (forall s o, I s -> Q o -> I (f s o)) -> I s -> Forall Q l -> I (foldl f s l).
Proof.
  induction l as [|o l IH]; intros s Hstep HI HQ; [done|].
  apply Forall_cons in HQ as [Ho Hl]. simpl. apply IH; auto.
Qed.

(** So does a run of a step relation. *)
Lemma rtc_preserves {S} (R : S -> S -> Prop) (I : S -> Prop) :
  (forall s s', R s s' -> I s -> I s') -> forall s s', rtc R s s' -> I s -> I s'.
Proof. intros Hstep s s'. induction 1; eauto. Qed.

(** ** Automation

    [go_cases] splits the booleans and decisions of a handler's guards and
    simplifies; [go_solve] closes the branches that are contradictory. *)
Ltac go_bool :=
  repeat match goal with
  | H : context [bool_decide ?P] |- _ => let E := fresh "E" in destruct (bool_decide_reflect P) as [E|E]
  | |- context [bool_decide ?P] => let E := fresh "E" in destruct (bool_decide_reflect P) as [E|E]
  end.

Ltac go_cases :=
  repeat (simplify_eq/=; try case_match; try case_bool_decide).

Ltac go_solve := go_cases; try done; try lia; try naive_solver.

Create HintDb go discriminated.
#[export] Hint Resolve wrap64_range : go.
