(* ===== verification/GoStrings.v ===== *)
(** * Go strings: the part of package strings the server uses

    Go strings are byte sequences: [string] with [ascii] bytes.  Each function
    is written for the arguments the code passes (separators and cut sets are
    ASCII), bytes of multi-byte UTF-8 white space included where the library
    function looks for them.  [GoRuntime] packages what depends on tables or
    algorithms outside the repository: lower-casing of non-ASCII text, the
    text of a [float64] under [%v], quoting under [%q], and the platform's
    result of an out-of-range float-to-int conversion. *)
From S2P Require Import Prelude.
From Stdlib Require Import Ascii Floats.SpecFloat.

Abbreviation float64 := spec_float.

Class GoRuntime : Type := {
  fmt_float : float64 -> string;
  fmt_float32 : float64 -> string;
  fmt_quote : string -> string;
  lower_utf8 : string -> string;
  conv_out_of_range : float64 -> Z;
}.

(** [time.RFC3339Nano] of an instant in UTC and back, and the printing of
    instants and durations for people. *)
Class TimeText : Type := {
  format_nano : Z -> string;
  parse_nano : string -> option Z;
  format_rfc3339 : Z -> string;
  duration_string : Z -> string;
  parse_format : forall t, (0 <= t)%Z -> parse_nano (format_nano t) = Some t;
}.

(** ** Bytes *)

Definition code (a : ascii) : Z := Z.of_N (N_of_ascii a).
Definition is_digit (a : ascii) : bool := (48 <=? code a)%Z && (code a <=? 57)%Z.
Definition is_upper (a : ascii) : bool := (65 <=? code a)%Z && (code a <=? 90)%Z.
Definition is_lower (a : ascii) : bool := (97 <=? code a)%Z && (code a <=? 122)%Z.
Definition is_alnum (a : ascii) : bool := is_digit a || is_upper a || is_lower a.
Definition is_7bit (a : ascii) : bool := (code a <? 128)%Z.
Definition lower_byte (a : ascii) : ascii :=
  if is_upper a then ascii_of_N (N_of_ascii a + 32) else a.
Definition digit_val (a : ascii) : Z := code a - 48.

(** ** Strings as lists of bytes *)

Fixpoint str_all (p : ascii -> bool) (s : string) : bool :=
  match s with
  | EmptyString => true
  | String a s => p a && str_all p s
  end.

Fixpoint str_map (f : ascii -> ascii) (s : string) : string :=
  match s with
  | EmptyString => EmptyString
  | String a s => String (f a) (str_map f s)
  end.

Definition str_any (p : ascii -> bool) (s : string) : bool :=
  negb (str_all (fun a => negb (p a)) s).

Definition char_in (cs : string) (a : ascii) : bool :=
  str_any (fun b => bool_decide (a = b)) cs.

(** [strings.ContainsAny] with an ASCII cut set. *)
Definition ContainsAny (s cs : string) : bool := str_any (char_in cs) s.

Definition HasPrefix (s p : string) : bool := String.prefix p s.

Definition HasSuffix (s p : string) : bool := String.prefix (String.rev p) (String.rev s).

Fixpoint str_drop (n : nat) (s : string) : string :=
  match n, s with
  | S n, String _ s => str_drop n s
  | _, _ => s
  end.

Fixpoint str_take (n : nat) (s : string) : string :=
  match n, s with
  | S n, String a s => String a (str_take n s)
  | _, _ => EmptyString
  end.

Definition TrimPrefix (s p : string) : string :=
  if HasPrefix s p then str_drop (String.length p) s else s.

Definition TrimSuffix (s p : string) : string :=
  if HasSuffix s p then str_take (String.length s - String.length p) s else s.

Fixpoint Contains (s sub : string) : bool :=
  String.prefix sub s ||
  match s with
  | EmptyString => false
  | String _ s => Contains s sub
  end.

(** The text before and after the first occurrence of [sep]. *)
Fixpoint Cut (s sep : string) : option (string * string) :=
  if String.prefix sep s then Some (EmptyString, str_drop (String.length sep) s) else
  match s with
  | EmptyString => None
  | String a s =>
      match Cut s sep with
      | Some (l, r) => Some (String a l, r)
      | None => None
      end
  end.

(** [strings.SplitN(s, sep, 2)] *)
Definition SplitN2 (s sep : string) : list string :=
  match Cut s sep with
  | Some (l, r) => [l; r]
  | None => [s]
  end.

(** Its first element, which always exists. *)
Definition before (s sep : string) : string :=
  match Cut s sep with
  | Some (l, _) => l
  | None => s
  end.

(** [strings.Split(s, sep)] for a one-byte separator. *)
Fixpoint split_go (sep : ascii) (cur s : string) : list string :=
  match s with
  | EmptyString => [String.rev cur]
  | String a s =>
      if bool_decide (a = sep) then String.rev cur :: split_go sep EmptyString s
      else split_go sep (String a cur) s
  end.
Definition Split (s : string) (sep : ascii) : list string := split_go sep EmptyString s.

(** [strings.Join(l, sep)] *)
Fixpoint Join (l : list string) (sep : string) : string :=
  match l with
  | [] => EmptyString
  | [s] => s
  | s :: l => s +:+ sep +:+ Join l sep
  end.

(** [s[idx+1:]] and [s[:idx]] for [idx] the last occurrence of a byte. *)
Fixpoint after_last_go (c : ascii) (acc s : string) : string :=
  match s with
  | EmptyString => acc
  | String a s => if bool_decide (a = c) then after_last_go c s s else after_last_go c acc s
  end.
Definition after_last (s : string) (c : ascii) : string := after_last_go c s s.

Definition index_any (s : string) (c : ascii) : bool := str_any (fun a => bool_decide (a = c)) s.

Fixpoint before_last (s : string) (c : ascii) : string :=
  match s with
  | EmptyString => EmptyString
  | String a s =>
      if index_any s c then String a (before_last s c)
      else if bool_decide (a = c) then EmptyString
      else String a (before_last s c)
  end.

(** ** White space

    [unicode.IsSpace] in UTF-8: the six ASCII characters, U+0085 and U+00A0
    (two bytes), U+1680, U+2000 to U+200A, U+2028, U+2029, U+202F, U+205F and
    U+3000 (three bytes). *)
Definition space1 (a : ascii) : bool :=
  ((9 <=? code a)%Z && (code a <=? 13)%Z) || (code a =? 32)%Z.
Definition space2 (a b : ascii) : bool :=
  (code a =? 194)%Z && ((code b =? 133)%Z || (code b =? 160)%Z).
Definition space3 (a b c : ascii) : bool :=
  ((code a =? 225)%Z && (code b =? 154)%Z && (code c =? 128)%Z) ||
  ((code a =? 226)%Z && (code b =? 128)%Z &&
     (((128 <=? code c)%Z && (code c <=? 138)%Z) ||
      (code c =? 168)%Z || (code c =? 169)%Z || (code c =? 175)%Z)) ||
  ((code a =? 226)%Z && (code b =? 129)%Z && (code c =? 159)%Z) ||
  ((code a =? 227)%Z && (code b =? 128)%Z && (code c =? 128)%Z).

Fixpoint trim_left (s : string) : string :=
  match s with
  | String a s1 =>
      if space1 a then trim_left s1 else
      match s1 with
      | String b s2 =>
          if space2 a b then trim_left s2 else
          match s2 with
          | String c s3 => if space3 a b c then trim_left s3 else s
          | EmptyString => s
          end
      | EmptyString => s
      end
  | EmptyString => EmptyString
  end.

(** The same on a reversed string. *)
Fixpoint trim_right_rev (s : string) : string :=
  match s with
  | String a s1 =>
      if space1 a then trim_right_rev s1 else
      match s1 with
      | String b s2 =>
          if space2 b a then trim_right_rev s2 else
          match s2 with
          | String c s3 => if space3 c b a then trim_right_rev s3 else s
          | EmptyString => s
          end
      | EmptyString => s
      end
  | EmptyString => EmptyString
  end.

Definition TrimSpace (s : string) : string :=
  String.rev (trim_right_rev (String.rev (trim_left s))).

(** Close the word being read, if it has a byte. *)
Definition flush (cur : string) (rest : list string) : list string :=
  match cur with
  | EmptyString => rest
  | _ => String.rev cur :: rest
  end.

Fixpoint fields_go (cur s : string) : list string :=
  match s with
  | EmptyString => flush cur []
  | String a s1 =>
      if space1 a then flush cur (fields_go EmptyString s1) else
      match s1 with
      | String b s2 =>
          if space2 a b then flush cur (fields_go EmptyString s2) else
          match s2 with
          | String c s3 =>
              if space3 a b c then flush cur (fields_go EmptyString s3)
              else fields_go (String a cur) s1
          | EmptyString => fields_go (String a cur) s1
          end
      | EmptyString => fields_go (String a cur) s1
      end
  end.
Definition Fields (s : string) : list string := fields_go EmptyString s.

(** ** Case *)

Definition lower_ascii (s : string) : string := str_map lower_byte s.

(** [strings.ToLower] takes its fast path on ASCII text. *)
Definition ToLower `{GoRuntime} (s : string) : string :=
  if str_all is_7bit s then lower_ascii s else lower_utf8 s.

(** [strings.EqualFold(s, t)] for [t] an ASCII word without [k] and [s]: no
    other character folds to one of its letters. *)
Definition EqualFold (s t : string) : bool := lower_ascii s =s lower_ascii t.

(** A concrete runtime for evaluation: an amd64 conversion result and plain
    texts.  No theorem depends on it; the examples do. *)
Definition demo_runtime : GoRuntime :=
  {| fmt_float := fun _ => "0";
     fmt_float32 := fun _ => "0";
     fmt_quote := fun s => "'" +:+ s +:+ "'";
     lower_utf8 := lower_ascii;
     conv_out_of_range := fun _ => int_min |}.

(** ** Regular expressions of the shape [^[first][rest]{0,n}$] *)
Definition match_ident (first rest : ascii -> bool) (n : Z) (s : string) : bool :=
  match s with
  | EmptyString => false
  | String a s => first a && str_all rest s && (Z.of_nat (String.length s) <=? n)%Z
  end.

(** ** Lemmas *)

Lemma app_nil_l_str s : EmptyString +:+ s = s.
Proof. done. Qed.

Lemma app_cons_str a s t : String a s +:+ t = String a (s +:+ t).
Proof. done. Qed.

Lemma app_nil_r_str s : s +:+ EmptyString = s.
Proof. induction s as [|a s IH]; [done|]. by rewrite app_cons_str, IH. Qed.

Lemma app_assoc_str s t u : (s +:+ t) +:+ u = s +:+ (t +:+ u).
Proof. induction s as [|a s IH]; [done|]. by rewrite !app_cons_str, IH. Qed.

Lemma length_app_str s t : String.length (s +:+ t) = (String.length s + String.length t)%nat.
Proof. induction s as [|a s IH]; [done|]. rewrite app_cons_str. simpl. by rewrite IH. Qed.

Lemma prefix_cons a p b s :
  String.prefix (String a p) (String b s) = bool_decide (a = b) && String.prefix p s.
Proof. cbn [String.prefix]. destruct (ascii_dec a b); by case_bool_decide. Qed.

Lemma prefix_spec p s : String.prefix p s = true <-> exists t, s = p +:+ t.
Proof.
  revert s. induction p as [|a p IH]; intros s; simpl.
  - split; [by exists s|]. by destruct s.
  - destruct s as [|b s]; [split; [done|by intros [? ?]]|].
    simpl. destruct (ascii_dec a b) as [->|Hne].
    + rewrite IH. split; intros [t Ht]; exists t; [by rewrite Ht|].
      rewrite app_cons_str in Ht. congruence.
    + split; [done|]. intros [t Ht]. rewrite app_cons_str in Ht. congruence.
Qed.

Lemma prefix_app p t : String.prefix p (p +:+ t) = true.
Proof. apply prefix_spec. by exists t. Qed.

Lemma prefix_nil s : String.prefix EmptyString s = true.
Proof. by destruct s. Qed.

Lemma str_drop_app p t : str_drop (String.length p) (p +:+ t) = t.
Proof. induction p as [|a p IH]; [done|]. by rewrite app_cons_str. Qed.

Lemma str_all_app p s t : str_all p (s +:+ t) = str_all p s && str_all p t.
Proof. induction s as [|a s IH]; [done|]. rewrite app_cons_str. simpl. by rewrite IH, andb_assoc. Qed.

Lemma str_all_impl (p q : ascii -> bool) s :
  (forall a, p a = true -> q a = true) -> str_all p s = true -> str_all q s = true.
Proof.
  intros Hpq. induction s as [|a s IH]; simpl; [done|].
  rewrite !andb_true_iff. naive_solver.
Qed.

(** Containing a word is a decomposition of the text around it. *)
Lemma Contains_spec s sub : Contains s sub = true <-> exists l r, s = l +:+ (sub +:+ r).
Proof.
  induction s as [|a s IH].
  - cbn [Contains]. rewrite orb_false_r, prefix_spec. split.
    + intros [t Ht]. by exists EmptyString, t.
    + intros (l & r & Hlr). destruct l; [by exists r|done].
  - cbn [Contains]. rewrite orb_true_iff, prefix_spec, IH. split.
    + intros [[t Ht]|(l & r & ->)]; [by exists EmptyString, t|by exists (String a l), r].
    + intros (l & r & Hlr). destruct l as [|b l]; [left; by exists r|].
      rewrite app_cons_str in Hlr. right. exists l, r. congruence.
Qed.

(** [Cut] splits at an occurrence, and at the first one for a one-byte separator. *)
Lemma Cut_spec s sep l r : Cut s sep = Some (l, r) -> s = l +:+ (sep +:+ r).
Proof.
  revert l. induction s as [|a s IH]; intros l; cbn [Cut].
  - destruct (String.prefix sep EmptyString) eqn:Hp; [|done].
    intros [= <- <-]. apply prefix_spec in Hp as [t Ht].
    destruct sep; [done|]. by rewrite app_cons_str in Ht.
  - destruct (String.prefix sep (String a s)) eqn:Hp.
    + intros [= <- <-]. apply prefix_spec in Hp as [t ->].
      by rewrite str_drop_app.
    + destruct (Cut s sep) as [[l' r']|] eqn:Hc; [|done].
      intros [= <- <-]. by rewrite (IH l' eq_refl), app_cons_str.
Qed.

Lemma Cut_none s sep : Cut s sep = None <-> Contains s sep = false.
Proof.
  induction s as [|a s IH]; cbn [Cut Contains].
  - destruct (String.prefix _ _); naive_solver.
  - destruct (String.prefix sep (String a s)); simpl; [naive_solver|].
    rewrite <- IH. destruct (Cut s sep) as [[? ?]|]; naive_solver.
Qed.

(** *** Reversal *)

Lemma rev_app_acc s t : String.rev_app s t = String.rev s +:+ t.
Proof.
  unfold String.rev. revert t. induction s as [|a s IH]; intros t; simpl; [done|].
  by rewrite IH, (IH (String a "")), app_assoc_str.
Qed.

Lemma rev_cons_str a s : String.rev (String a s) = String.rev s +:+ String a "".
Proof. unfold String.rev at 1. simpl. apply rev_app_acc. Qed.

Lemma rev_app_str s t : String.rev (s +:+ t) = String.rev t +:+ String.rev s.
Proof.
  induction s as [|a s IH]; [by rewrite app_nil_r_str|].
  by rewrite app_cons_str, !rev_cons_str, IH, app_assoc_str.
Qed.

Lemma rev_rev_str s : String.rev (String.rev s) = s.
Proof. induction s as [|a s IH]; [done|]. by rewrite rev_cons_str, rev_app_str, IH. Qed.

Lemma str_all_rev p s : str_all p (String.rev s) = str_all p s.
Proof.
  induction s as [|a s IH]; [done|].
  rewrite rev_cons_str, str_all_app, IH. simpl. by rewrite andb_true_r, andb_comm.
Qed.

(** *** Trimming *)

(** A byte that starts and ends no white space. *)
Definition plain (a : ascii) : bool := is_7bit a && negb (space1 a).

Lemma plain_not_space a b c : plain a = true ->
  space1 a = false /\ space2 a b = false /\ space3 a b c = false /\
  space2 b a = false /\ space3 c b a = false.
Proof.
  unfold plain, is_7bit, space1, space2, space3.
  rewrite andb_true_iff, negb_true_iff, Z.ltb_lt. intros [H7 Hs].
  assert (code a <> 194 /\ code a <> 225 /\ code a <> 226 /\ code a <> 227 /\
          code a <> 133 /\ code a <> 160 /\ code a <> 128 /\ code a < 128)%Z as (?&?&?&?&?&?&?&?) by lia.
  rewrite Hs. repeat split;
    repeat rewrite (proj2 (Z.eqb_neq (code a) _)) by lia;
    rewrite ?(proj2 (Z.leb_gt 128 (code a))) by lia; cbn [andb orb];
    rewrite ?andb_false_r; done.
Qed.

Lemma trim_left_plain a s : plain a = true -> trim_left (String a s) = String a s.
Proof.
  intros Ha. cbn [trim_left].
  destruct (plain_not_space a a a Ha) as (-> & _).
  destruct s as [|b [|c s]]; try done.
  - by destruct (plain_not_space a b b Ha) as (_ & -> & _).
  - by destruct (plain_not_space a b c Ha) as (_ & -> & -> & _).
Qed.

Lemma trim_right_rev_plain a s : plain a = true -> trim_right_rev (String a s) = String a s.
Proof.
  intros Ha. cbn [trim_right_rev].
  destruct (plain_not_space a a a Ha) as (-> & _).
  destruct s as [|b [|c s]]; try done.
  - by destruct (plain_not_space a b b Ha) as (_ & _ & _ & -> & _).
  - by destruct (plain_not_space a b c Ha) as (_ & _ & _ & -> & ->).
Qed.

(** Text without white space and multi-byte characters is left alone. *)
Lemma TrimSpace_plain s : str_all plain s = true -> TrimSpace s = s.
Proof.
  intros Hs. unfold TrimSpace.
  assert (trim_left s = s) as ->.
  { destruct s as [|a s]; [done|]. simpl in Hs. apply andb_true_iff in Hs as [Ha _].
    by apply trim_left_plain. }
  assert (trim_right_rev (String.rev s) = String.rev s) as ->.
  { pose proof (str_all_rev plain s) as Hr. rewrite Hs in Hr.
    destruct (String.rev s) as [|a t]; [done|]. simpl in Hr. apply andb_true_iff in Hr as [Ha _].
    by apply trim_right_rev_plain. }
  apply rev_rev_str.
Qed.

(** *** Splitting *)

Lemma split_go_app sep cur s t :
  split_go sep cur (s +:+ String sep t) = split_go sep cur s ++ Split t sep.
Proof.
  revert cur. induction s as [|a s IH]; intros cur.
  - rewrite app_nil_l_str. cbn [split_go]. by rewrite bool_decide_true.
  - rewrite app_cons_str. cbn [split_go]. case_bool_decide; by rewrite IH.
Qed.

Lemma Split_app sep s t : Split (s +:+ String sep t) sep = Split s sep ++ Split t sep.
Proof. apply split_go_app. Qed.

Lemma split_go_none sep cur s :
  index_any s sep = false -> split_go sep cur s = [String.rev cur +:+ s].
Proof.
  unfold index_any, str_any. revert cur. induction s as [|a s IH]; intros cur.
  - intros _. by rewrite app_nil_r_str.
  - cbn [split_go str_all]. rewrite negb_andb, negb_involutive. intros [Ha Hs]%orb_false_iff.
    rewrite Ha, IH by done. by rewrite rev_cons_str, app_assoc_str.
Qed.

Lemma Split_none sep s : index_any s sep = false -> Split s sep = [s].
Proof. intros Hs. unfold Split. by rewrite split_go_none. Qed.

Lemma Split_ne sep s : Split s sep <> [].
Proof.
  unfold Split. generalize EmptyString. induction s as [|a s IH]; intros cur; cbn [split_go]; [done|].
  by case_bool_decide.
Qed.

Lemma Split_fields sep s : Forall (fun l => index_any l sep = false) (Split s sep).
Proof.
  unfold Split. assert (forall cur, index_any cur sep = false ->
    Forall (fun l => index_any l sep = false) (split_go sep cur s)) as Hgo; [|by apply Hgo].
  induction s as [|a s IH]; intros cur Hc; cbn [split_go].
  - constructor; [|done]. unfold index_any, str_any in *. by rewrite str_all_rev.
  - case_bool_decide as Ha; [constructor; [|by apply IH]|].
    + unfold index_any, str_any in *. by rewrite str_all_rev.
    + apply IH. unfold index_any, str_any in *. cbn [str_all].
      rewrite (bool_decide_false (a = sep)) by done. cbn [negb andb]. done.
Qed.

Lemma Join_cons sep l ls : ls <> [] -> Join (l :: ls) (String sep "") = l +:+ String sep (Join ls (String sep "")).
Proof. by destruct ls. Qed.

Lemma Split_Join sep ls : ls <> [] -> Forall (fun l => index_any l sep = false) ls ->
  Split (Join ls (String sep "")) sep = ls.
Proof.
  induction ls as [|l [|l2 ls] IH]; [done| |].
  - intros _ [Hl _]%Forall_cons. by apply Split_none.
  - intros _ [Hl Hls]%Forall_cons. rewrite Join_cons, Split_app, Split_none, IH by done. done.
Qed.

Lemma Join_Split sep s : Join (Split s sep) (String sep "") = s.
Proof.
  unfold Split. assert (forall cur, Join (split_go sep cur s) (String sep "") = String.rev cur +:+ s) as Hgo.
  { induction s as [|a s IH]; intros cur; cbn [split_go]; [by rewrite app_nil_r_str|].
    case_bool_decide as Ha; [subst a|].
    - rewrite Join_cons; [by rewrite IH|]. apply Split_ne.
    - rewrite IH, rev_cons_str, app_assoc_str. done. }
  apply Hgo.
Qed.

(** *** Cutting at a byte *)

Lemma Cut_byte_app s c t :
  index_any s c = false -> Cut (s +:+ String c t) (String c "") = Some (s, t).
Proof.
  unfold index_any, str_any. induction s as [|a s IH].
  - intros _. rewrite app_nil_l_str. cbn [Cut]. simpl. destruct (ascii_dec c c) as [_|]; [|done].
    by rewrite prefix_nil.
  - rewrite app_cons_str. cbn [Cut str_all]. rewrite negb_andb, negb_involutive.
    intros [Ha Hs]%orb_false_iff. apply bool_decide_eq_false in Ha.
    simpl. destruct (ascii_dec c a) as [->|_]; [done|]. by rewrite IH.
Qed.

Lemma before_app s c t : index_any s c = false -> before (s +:+ String c t) (String c "") = s.
Proof. intros Hs. unfold before. by rewrite Cut_byte_app. Qed.

Lemma Contains_byte s c : Contains s (String c "") = index_any s c.
Proof.
  unfold index_any, str_any. induction s as [|a s IH]; [done|].
  cbn [Contains str_all]. rewrite IH, negb_andb, negb_involutive. simpl.
  destruct (ascii_dec c a) as [->|Hne].
  - by rewrite prefix_nil, bool_decide_true.
  - by rewrite bool_decide_false.
Qed.

Lemma before_none s c : index_any s c = false -> before s (String c "") = s.
Proof.
  intros Hs. unfold before. assert (Cut s (String c "") = None) as ->; [|done].
  apply Cut_none. by rewrite Contains_byte.
Qed.

Lemma index_any_app s t c : index_any (s +:+ t) c = index_any s c || index_any t c.
Proof. unfold index_any, str_any. by rewrite str_all_app, negb_andb. Qed.

Lemma index_any_all p s c : str_all p s = true -> p c = false -> index_any s c = false.
Proof.
  intros Hs Hc. unfold index_any, str_any. rewrite negb_false_iff.
  eapply str_all_impl; [|exact Hs]. intros a Ha. simpl. rewrite negb_true_iff.
  apply bool_decide_eq_false. congruence.
Qed.

(** *** Decimal text *)

Fixpoint dec_value (s : string) (acc : Z) : Z :=
  match s with
  | EmptyString => acc
  | String a s => dec_value s (acc * 10 + digit_val a)
  end.

Lemma dec_value_app s t acc : dec_value (s +:+ t) acc = dec_value t (dec_value s acc).
Proof. revert acc. induction s as [|a s IH]; intros acc; [done|]. rewrite app_cons_str. simpl. apply IH. Qed.

Lemma digit_char n : (n < 10)%N ->
  is_digit (pretty_N_char n) = true /\ digit_val (pretty_N_char n) = Z.of_N n.
Proof.
  intros Hn. do 10 (destruct n as [|n] using N.peano_ind; [done|]; clear IHn).
  lia.
Qed.

Lemma pretty_N_go_spec x s :
  dec_value (pretty_N_go x s) 0 = dec_value s (Z.of_N x) /\
  str_all is_digit (pretty_N_go x s) = str_all is_digit s.
Proof.
  revert s. induction x as [x IH] using (well_founded_ind N.lt_wf_0); intros s.
  destruct (decide (x = 0%N)) as [->|Hx]; [done|].
  rewrite pretty_N_go_step by lia.
  assert (x `mod` 10 < 10)%N as Hm by (apply N.mod_lt; lia).
  destruct (digit_char (x `mod` 10) Hm) as [Hd Hv].
  destruct (IH (x `div` 10)%N ltac:(apply N.div_lt; lia) (String (pretty_N_char (x `mod` 10)) s)) as [IH1 IH2].
  rewrite IH1, IH2. cbn [dec_value str_all]. rewrite Hd, Hv. split; [|done].
  f_equal. pose proof (N.div_mod x 10 ltac:(lia)). lia.
Qed.

Lemma length_pretty_N_go k : forall x s, (x < 10 ^ N.of_nat k)%N ->
  (String.length (pretty_N_go x s) <= k + String.length s)%nat.
Proof.
  induction k as [|k IH]; intros x s Hx.
  - assert (x = 0%N) as -> by (simpl in Hx; lia). done.
  - destruct (decide (x = 0%N)) as [->|Hx0]; [rewrite pretty_N_go_0; lia|].
    rewrite pretty_N_go_step by lia.
    specialize (IH (x `div` 10)%N (String (pretty_N_char (x `mod` 10)) s)). cbn [String.length] in IH.
    assert (x `div` 10 < 10 ^ N.of_nat k)%N; [|specialize (IH H); lia].
    apply N.Div0.div_lt_upper_bound. rewrite Nat2N.inj_succ, N.pow_succ_r' in Hx. lia.
Qed.

(** The decimal text of a non-negative number is digits and denotes it. *)
Lemma pretty_nonneg n : (0 <= n)%Z ->
  dec_value (pretty n) 0 = n /\ str_all is_digit (pretty n) = true /\ pretty n <> EmptyString.
Proof.
  intros Hn. destruct n as [|p|p]; [by repeat split| |lia].
  assert (pretty (Z.pos p) = pretty_N_go (N.pos p) EmptyString) as ->.
  { unfold pretty, pretty_Z, pretty, pretty_positive, pretty, pretty_N. by rewrite decide_False. }
  destruct (pretty_N_go_spec (N.pos p) EmptyString) as [H1 H2].
  rewrite H1, H2. split_and!; try done. intros He. rewrite He in H1. done.
Qed.

Lemma length_pretty_lt n k : (0 < k)%nat -> (0 <= n < 10 ^ Z.of_nat k)%Z ->
  (String.length (pretty n) <= k)%nat.
Proof.
  intros Hk Hn. destruct n as [|p|p]; [done| |lia].
  assert (pretty (Z.pos p) = pretty_N_go (N.pos p) EmptyString) as ->.
  { unfold pretty, pretty_Z, pretty, pretty_positive, pretty, pretty_N. by rewrite decide_False. }
  etrans; [apply (length_pretty_N_go k)|simpl; lia].
  apply N2Z.inj_lt. rewrite N2Z.inj_pow, nat_N_Z. simpl. lia.
Qed.

(** [strconv.Atoi]: an optional sign, then digits, of a number of 64 bits. *)
Definition Atoi (s : string) : option Z :=
  let '(neg, digits) :=
    match s with
    | String a t => if Ascii.eqb a "-" then (true, t) else if Ascii.eqb a "+" then (false, t) else (false, s)
    | EmptyString => (false, s)
    end in
  if bool_decide (digits = EmptyString) || negb (str_all is_digit digits) then None
  else
    let z := if neg : bool then (- dec_value digits 0)%Z else dec_value digits 0 in
    if (int_min <=? z)%Z && (z <=? int_max)%Z then Some z else None.

Lemma Atoi_pretty z : (0 <= z <= int_max)%Z -> Atoi (pretty z) = Some z.
Proof.
  intros Hz. destruct (pretty_nonneg z) as (Hv & Hd & Hne); [lia|]. unfold Atoi.
  destruct (pretty z) as [|a t] eqn:E; [done|]. cbn [str_all] in Hd. apply andb_true_iff in Hd as [Ha Ht].
  destruct (Ascii.eqb_spec a "-") as [->|_]; [done|]. destruct (Ascii.eqb_spec a "+") as [->|_]; [done|].
  rewrite bool_decide_false by done. cbn [str_all]. rewrite Ha, Ht. cbn [orb andb negb]. rewrite Hv.
  destruct (Z.leb_spec int_min z); [|unfold int_min in *; lia]. destruct (Z.leb_spec z int_max); [done|lia].
Qed.

(** *** Trimming only removes from the ends *)

Lemma trim_left_suffix s : exists l, s = l +:+ trim_left s.
Proof.
  remember (String.length s) as n eqn:Hn. revert s Hn.
  induction n as [n IH] using (well_founded_ind Nat.lt_wf_0). intros s ->.
  destruct s as [|a s1]; [by exists EmptyString|]. cbn [trim_left].
  destruct (space1 a).
  { destruct (IH (String.length s1) ltac:(simpl; lia) s1 eq_refl) as [l Hl]. exists (String a l).
    by rewrite app_cons_str, <- Hl. }
  destruct s1 as [|b s2]; [by exists EmptyString|]. destruct (space2 a b).
  { destruct (IH (String.length s2) ltac:(simpl; lia) s2 eq_refl) as [l Hl]. exists (String a (String b l)).
    by rewrite !app_cons_str, <- Hl. }
  destruct s2 as [|c s3]; [by exists EmptyString|]. destruct (space3 a b c); [|by exists EmptyString].
  destruct (IH (String.length s3) ltac:(simpl; lia) s3 eq_refl) as [l Hl]. exists (String a (String b (String c l))).
  by rewrite !app_cons_str, <- Hl.
Qed.

Lemma trim_right_rev_suffix s : exists l, s = l +:+ trim_right_rev s.
Proof.
  remember (String.length s) as n eqn:Hn. revert s Hn.
  induction n as [n IH] using (well_founded_ind Nat.lt_wf_0). intros s ->.
  destruct s as [|a s1]; [by exists EmptyString|]. cbn [trim_right_rev].
  destruct (space1 a).
  { destruct (IH (String.length s1) ltac:(simpl; lia) s1 eq_refl) as [l Hl]. exists (String a l).
    by rewrite app_cons_str, <- Hl. }
  destruct s1 as [|b s2]; [by exists EmptyString|]. destruct (space2 b a).
  { destruct (IH (String.length s2) ltac:(simpl; lia) s2 eq_refl) as [l Hl]. exists (String a (String b l)).
    by rewrite !app_cons_str, <- Hl. }
  destruct s2 as [|c s3]; [by exists EmptyString|]. destruct (space3 c b a); [|by exists EmptyString].
  destruct (IH (String.length s3) ltac:(simpl; lia) s3 eq_refl) as [l Hl]. exists (String a (String b (String c l))).
  by rewrite !app_cons_str, <- Hl.
Qed.

Lemma TrimSpace_infix s : exists l r, s = l +:+ (TrimSpace s +:+ r).
Proof.
  destruct (trim_left_suffix s) as [l Hl].
  destruct (trim_right_rev_suffix (String.rev (trim_left s))) as [r Hr].
  exists l, (String.rev r). unfold TrimSpace.
  rewrite <- rev_app_str, <- Hr, rev_rev_str. done.
Qed.

Lemma str_all_TrimSpace p s : str_all p s = true -> str_all p (TrimSpace s) = true.
Proof.
  intros Hs. destruct (TrimSpace_infix s) as (l & r & Heq). rewrite Heq, !str_all_app in Hs.
  by apply andb_true_iff in Hs as [_ [? _]%andb_true_iff].
Qed.

(** *** Trimming twice is trimming once *)

Lemma trim_left_eq s : trim_left s =
  match s with
  | String a s1 =>
      if space1 a then trim_left s1 else
      match s1 with
      | String b s2 =>
          if space2 a b then trim_left s2 else
          match s2 with
          | String c s3 => if space3 a b c then trim_left s3 else s
          | EmptyString => s
          end
      | EmptyString => s
      end
  | EmptyString => EmptyString
  end.
Proof. by destruct s. Qed.

(** Texts that start with no white space. *)
Lemma trim_left_head s : trim_left s = s <->
  match s with
  | String a t =>
      space1 a = false /\
      match t with
      | String b u => space2 a b = false /\ match u with String c _ => space3 a b c = false | EmptyString => True end
      | EmptyString => True
      end
  | EmptyString => True
  end.
Proof.
  assert (Hlen : forall s, (String.length (trim_left s) <= String.length s)%nat).
  { intros t. destruct (trim_left_suffix t) as [l Hl]. rewrite Hl at 2. rewrite length_app_str. lia. }
  assert (Hne : forall s t, (String.length t < String.length s)%nat -> trim_left t <> s).
  { intros u t Ht E. specialize (Hlen t). rewrite E in Hlen. lia. }
  rewrite trim_left_eq. destruct s as [|a [|b [|c s]]]; cbv beta iota.
  - done.
  - destruct (space1 a); [|naive_solver]. split; [intros E; apply Hne in E; [done|simpl; lia]|naive_solver].
  - destruct (space1 a); [split; [intros E; apply Hne in E; [done|simpl; lia]|naive_solver]|].
    destruct (space2 a b); [split; [intros E; apply Hne in E; [done|simpl; lia]|naive_solver]|naive_solver].
  - destruct (space1 a); [split; [intros E; apply Hne in E; [done|simpl; lia]|naive_solver]|].
    destruct (space2 a b); [split; [intros E; apply Hne in E; [done|simpl; lia]|naive_solver]|].
    destruct (space3 a b c); [split; [intros E; apply Hne in E; [done|simpl; lia]|naive_solver]|naive_solver].
Qed.

Lemma trim_right_rev_eq s : trim_right_rev s =
  match s with
  | String a s1 =>
      if space1 a then trim_right_rev s1 else
      match s1 with
      | String b s2 =>
          if space2 b a then trim_right_rev s2 else
          match s2 with
          | String c s3 => if space3 c b a then trim_right_rev s3 else s
          | EmptyString => s
          end
      | EmptyString => s
      end
  | EmptyString => EmptyString
  end.
Proof. by destruct s. Qed.

Lemma trim_right_rev_head s : trim_right_rev s = s <->
  match s with
  | String a t =>
      space1 a = false /\
      match t with
      | String b u => space2 b a = false /\ match u with String c _ => space3 c b a = false | EmptyString => True end
      | EmptyString => True
      end
  | EmptyString => True
  end.
Proof.
  assert (Hlen : forall s, (String.length (trim_right_rev s) <= String.length s)%nat).
  { intros t. destruct (trim_right_rev_suffix t) as [l Hl]. rewrite Hl at 2. rewrite length_app_str. lia. }
  assert (Hne : forall s t, (String.length t < String.length s)%nat -> trim_right_rev t <> s).
  { intros u t Ht E. specialize (Hlen t). rewrite E in Hlen. lia. }
  rewrite trim_right_rev_eq. destruct s as [|a [|b [|c s]]]; cbv beta iota.
  - done.
  - destruct (space1 a); [|naive_solver]. split; [intros E; apply Hne in E; [done|simpl; lia]|naive_solver].
  - destruct (space1 a); [split; [intros E; apply Hne in E; [done|simpl; lia]|naive_solver]|].
    destruct (space2 b a); [split; [intros E; apply Hne in E; [done|simpl; lia]|naive_solver]|naive_solver].
  - destruct (space1 a); [split; [intros E; apply Hne in E; [done|simpl; lia]|naive_solver]|].
    destruct (space2 b a); [split; [intros E; apply Hne in E; [done|simpl; lia]|naive_solver]|].
    destruct (space3 c b a); [split; [intros E; apply Hne in E; [done|simpl; lia]|naive_solver]|naive_solver].
Qed.

Lemma trim_left_idem s : trim_left (trim_left s) = trim_left s.
Proof.
  remember (String.length s) as n eqn:Hn. revert s Hn.
  induction n as [n IH] using (well_founded_ind Nat.lt_wf_0). intros s ->.
  destruct s as [|a s1]; [done|]. destruct (space1 a) eqn:E1.
  { replace (trim_left (String a s1)) with (trim_left s1) by (cbn [trim_left]; by rewrite E1). apply (IH (String.length s1)); [simpl; lia|done]. }
  destruct s1 as [|b s2]; [apply trim_left_head; cbn [trim_left]; rewrite E1; naive_solver|].
  destruct (space2 a b) eqn:E2.
  { replace (trim_left (String a (String b s2))) with (trim_left s2) by (cbn [trim_left]; by rewrite E1, E2).
    apply (IH (String.length s2)); [simpl; lia|done]. }
  destruct s2 as [|c s3]; [apply trim_left_head; cbn [trim_left]; rewrite E1, E2; naive_solver|].
  destruct (space3 a b c) eqn:E3.
  { replace (trim_left (String a (String b (String c s3)))) with (trim_left s3) by (cbn [trim_left]; by rewrite E1, E2, E3).
    apply (IH (String.length s3)); [simpl; lia|done]. }
  apply trim_left_head. cbn [trim_left]. by rewrite E1, E2, E3.
Qed.

Lemma trim_right_rev_idem s : trim_right_rev (trim_right_rev s) = trim_right_rev s.
Proof.
  remember (String.length s) as n eqn:Hn. revert s Hn.
  induction n as [n IH] using (well_founded_ind Nat.lt_wf_0). intros s ->.
  destruct s as [|a s1]; [done|]. destruct (space1 a) eqn:E1.
  { replace (trim_right_rev (String a s1)) with (trim_right_rev s1) by (cbn [trim_right_rev]; by rewrite E1).
    apply (IH (String.length s1)); [simpl; lia|done]. }
  destruct s1 as [|b s2]; [apply trim_right_rev_head; cbn [trim_right_rev]; rewrite E1; naive_solver|].
  destruct (space2 b a) eqn:E2.
  { replace (trim_right_rev (String a (String b s2))) with (trim_right_rev s2) by (cbn [trim_right_rev]; by rewrite E1, E2).
    apply (IH (String.length s2)); [simpl; lia|done]. }
  destruct s2 as [|c s3]; [apply trim_right_rev_head; cbn [trim_right_rev]; rewrite E1, E2; naive_solver|].
  destruct (space3 c b a) eqn:E3.
  { replace (trim_right_rev (String a (String b (String c s3)))) with (trim_right_rev s3) by (cbn [trim_right_rev]; by rewrite E1, E2, E3).
    apply (IH (String.length s3)); [simpl; lia|done]. }
  apply trim_right_rev_head. cbn [trim_right_rev]. by rewrite E1, E2, E3.
Qed.

(** What is left after cutting at the right still starts with no white space. *)
Lemma trim_left_prefix p r : trim_left (p +:+ r) = p +:+ r -> trim_left p = p.
Proof.
  rewrite !trim_left_head. destruct p as [|a [|b [|c p]]]; rewrite ?app_cons_str, ?app_nil_l_str; [done|naive_solver|naive_solver|naive_solver].
Qed.

Lemma TrimSpace_idem s : TrimSpace (TrimSpace s) = TrimSpace s.
Proof.
  unfold TrimSpace.
  destruct (trim_right_rev_suffix (String.rev (trim_left s))) as [r Hr].
  assert (Hl : trim_left (String.rev (trim_right_rev (String.rev (trim_left s)))) = String.rev (trim_right_rev (String.rev (trim_left s)))).
  { apply (trim_left_prefix _ (String.rev r)). rewrite <- rev_app_str, <- Hr, rev_rev_str. apply trim_left_idem. }
  rewrite Hl, rev_rev_str, trim_right_rev_idem. done.
Qed.
#[export] Hint Rewrite TrimSpace_idem : go.
