(* ===== verification/GoRegexp.v ===== *)
(** * Anchored regular expressions (package regexp)

    The expressions the sources compile are anchored and use classes of ASCII
    characters only, so that matching runes and matching bytes agree.  [lang] is
    the language of an expression, [MatchString] an executable matcher by
    derivatives, and [MatchString_spec] says that they are the same. *)
From Stdlib Require Import Ascii.
From S2P Require Import Prelude GoStrings.

Open Scope string_scope.

Inductive regex : Type :=
  | RNone
  | REps
  | RChars (p : ascii -> bool)
  | RCat (r s : regex)
  | RAlt (r s : regex)
  | RStar (r : regex).

(** [r?] *)
Definition ROpt (r : regex) : regex := RAlt r REps.
(** One given character. *)
Definition RLit (c : ascii) : regex := RChars (fun a => bool_decide (a = c)).

Inductive lang : regex -> string -> Prop :=
  | lang_eps : lang REps ""
  | lang_chars p a : p a = true -> lang (RChars p) (String a "")
  | lang_cat r s x y : lang r x -> lang s y -> lang (RCat r s) (x +:+ y)
  | lang_alt_l r s x : lang r x -> lang (RAlt r s) x
  | lang_alt_r r s x : lang s x -> lang (RAlt r s) x
  | lang_star_nil r : lang (RStar r) ""
  | lang_star_app r x y : x <> "" -> lang r x -> lang (RStar r) y -> lang (RStar r) (x +:+ y).

Create HintDb lang discriminated.
#[export] Hint Constructors lang : lang.

Fixpoint nullable (r : regex) : bool :=
  match r with
  | RNone | RChars _ => false
  | REps | RStar _ => true
  | RCat r s => nullable r && nullable s
  | RAlt r s => nullable r || nullable s
  end.

(** Constructors that drop what matches nothing, to keep derivatives small. *)
Definition cat (r s : regex) : regex :=
  match r, s with
  | RNone, _ | _, RNone => RNone
  | REps, _ => s
  | _, _ => RCat r s
  end.
Definition alt (r s : regex) : regex :=
  match r, s with
  | RNone, _ => s
  | _, RNone => r
  | _, _ => RAlt r s
  end.

Fixpoint deriv (a : ascii) (r : regex) : regex :=
  match r with
  | RNone | REps => RNone
  | RChars p => if p a then REps else RNone
  | RCat r s => if nullable r then alt (cat (deriv a r) s) (deriv a s) else cat (deriv a r) s
  | RAlt r s => alt (deriv a r) (deriv a s)
  | RStar r => cat (deriv a r) (RStar r)
  end.

(** [MatchString] of an expression between [^] and [$]. *)
Fixpoint MatchString (r : regex) (s : string) : bool :=
  match s with
  | EmptyString => nullable r
  | String a s => MatchString (deriv a r) s
  end.

(** ** The matcher decides the language *)

Lemma app_eq_nil_str s t : s +:+ t = "" <-> s = "" /\ t = "".
Proof. destruct s; [naive_solver|]. rewrite app_cons_str. naive_solver. Qed.

Lemma app_eq_cons_str a s x y :
  x +:+ y = String a s <-> (x = "" /\ y = String a s) \/ exists x', x = String a x' /\ s = x' +:+ y.
Proof.
  destruct x as [|b x]; [naive_solver|]. rewrite app_cons_str. split.
  - intros [= -> <-]. right. by exists x.
  - intros [[? _]|(x' & [= -> ->] & ->)]; [done|by rewrite ?app_cons_str].
Qed.

Lemma nullable_spec r : nullable r = true <-> lang r "".
Proof.
  induction r as [| |p|r IHr s IHs|r IHr s IHs|r IHr]; simpl; rewrite ?andb_true_iff, ?orb_true_iff.
  - split; [done|inversion 1].
  - split; auto with lang.
  - split; [done|inversion 1].
  - rewrite IHr, IHs. split.
    + intros [Hr Hs]. by apply (lang_cat _ _ "" "").
    + inversion 1 as [| |? ? x y Hx Hy E1 E2| | | |]; subst. by apply app_eq_nil_str in E2 as [-> ->].
  - rewrite IHr, IHs. split; [intros [?|?]; auto with lang|inversion 1; auto].
  - split; auto with lang.
Qed.

Lemma lang_none s : ~ lang RNone s.
Proof. inversion 1. Qed.

Lemma lang_cat_iff r s w : lang (RCat r s) w <-> exists x y, w = x +:+ y /\ lang r x /\ lang s y.
Proof. split; [inversion 1; subst; eauto|intros (x & y & -> & ? & ?); auto with lang]. Qed.

Lemma lang_alt_iff r s w : lang (RAlt r s) w <-> lang r w \/ lang s w.
Proof. split; [inversion 1; subst; auto|intros [?|?]; auto with lang]. Qed.

Lemma lang_eps_iff w : lang REps w <-> w = "".
Proof. split; [by inversion 1|intros ->; auto with lang]. Qed.

Lemma lang_chars_iff p w : lang (RChars p) w <-> exists a, w = String a "" /\ p a = true.
Proof. split; [inversion 1; subst; eauto|intros (a & -> & ?); auto with lang]. Qed.

Lemma lang_opt r w : lang (ROpt r) w <-> lang r w \/ w = "".
Proof. unfold ROpt. by rewrite lang_alt_iff, lang_eps_iff. Qed.

Lemma lang_lit c w : lang (RLit c) w <-> w = String c "".
Proof.
  unfold RLit. rewrite lang_chars_iff. split.
  - intros (a & -> & ->%bool_decide_eq_true). done.
  - intros ->. exists c. by rewrite bool_decide_true.
Qed.

Lemma cat_lang r s w : lang (cat r s) w <-> lang (RCat r s) w.
Proof.
  rewrite lang_cat_iff. split.
  - destruct r, s; simpl; intros H; try (by apply lang_none in H); try (by apply lang_cat_iff);
      eexists "", w; split; auto with lang.
  - intros (x & y & -> & Hx & Hy). destruct r, s; simpl; try (by apply lang_none in Hx); try (by apply lang_none in Hy);
      try (apply lang_eps_iff in Hx as ->; done); auto with lang.
Qed.

Lemma alt_lang r s w : lang (alt r s) w <-> lang (RAlt r s) w.
Proof.
  rewrite lang_alt_iff. destruct r, s; simpl; rewrite ?lang_alt_iff;
    (split; [auto|intros [H|H]; [|]; try (by apply lang_none in H); auto]).
Qed.

Lemma star_cons r a w :
  lang (RStar r) (String a w) <-> exists x y, w = x +:+ y /\ lang r (String a x) /\ lang (RStar r) y.
Proof.
  split.
  - inversion 1 as [| | | | | |? x y Hne Hx Hy E1 E2]; subst.
    apply app_eq_cons_str in E2 as [[-> _]|(x' & -> & ->)]; [done|]. eauto.
  - intros (x & y & -> & Hx & Hy). rewrite <- app_cons_str. by constructor.
Qed.

Lemma deriv_spec r : forall a w, lang (deriv a r) w <-> lang r (String a w).
Proof.
  induction r as [| |p|r IHr s IHs|r IHr s IHs|r IHr]; intros a w; simpl.
  - split; intros H; by apply lang_none in H.
  - split; intros H; [by apply lang_none in H|by apply lang_eps_iff in H].
  - rewrite lang_chars_iff. destruct (p a) eqn:Hp.
    + rewrite lang_eps_iff. split; [intros ->; eauto|by intros (b & [= _ ->] & _)].
    + split; [intros H; by apply lang_none in H|intros (b & [= <- _] & ?); congruence].
  - assert (Hcat : lang (cat (deriv a r) s) w <-> exists x y, w = x +:+ y /\ lang r (String a x) /\ lang s y).
    { rewrite cat_lang, lang_cat_iff. by setoid_rewrite IHr. }
    rewrite lang_cat_iff. transitivity ((lang r "" /\ lang s (String a w)) \/
      exists x y, w = x +:+ y /\ lang r (String a x) /\ lang s y).
    + rewrite <- nullable_spec. destruct (nullable r); [rewrite alt_lang, lang_alt_iff, IHs|]; rewrite Hcat; naive_solver.
    + split.
      * intros [[Hr Hs]|(x & y & -> & Hx & Hy)]; [by exists "", (String a w)|].
        exists (String a x), y. by rewrite app_cons_str.
      * intros (x & y & E & Hx & Hy). symmetry in E. apply app_eq_cons_str in E as [[-> ->]|(x' & -> & ->)]; [by left|].
        right. eauto.
  - by rewrite alt_lang, !lang_alt_iff, IHr, IHs.
  - rewrite cat_lang, lang_cat_iff, star_cons. by setoid_rewrite IHr.
Qed.

Lemma MatchString_spec r s : MatchString r s = true <-> lang r s.
Proof.
  revert r. induction s as [|a s IH]; intros r; simpl; [apply nullable_spec|].
  by rewrite IH, deriv_spec.
Qed.

(** ** Common shapes *)

(** A run of characters of one class. *)
Lemma lang_star_chars p s : lang (RStar (RChars p)) s <-> str_all p s = true.
Proof.
  induction s as [|a s IH]; [split; auto with lang|].
  rewrite star_cons. simpl. rewrite andb_true_iff, <- IH. split.
  - intros (x & y & -> & Hx & Hy). apply lang_chars_iff in Hx as (b & [= -> ->] & Hb). done.
  - intros [Ha Hs]. exists "", s. split_and!; auto with lang.
Qed.

(** The first and the last character. *)
Definition starts (p : ascii -> bool) (s : string) : bool :=
  match s with String a _ => p a | EmptyString => false end.
Fixpoint ends (p : ascii -> bool) (s : string) : bool :=
  match s with
  | EmptyString => false
  | String a EmptyString => p a
  | String _ s => ends p s
  end.

Lemma ends_app p s a : ends p (s +:+ String a "") = p a.
Proof.
  induction s as [|b s IH]; [done|]. rewrite app_cons_str. simpl. rewrite <- IH.
  destruct s; [done|]. by rewrite app_cons_str.
Qed.

Lemma snoc_cases s : s = "" \/ exists t a, s = t +:+ String a "".
Proof.
  induction s as [|b s IH]; [by left|right]. destruct IH as [->|(t & a & ->)].
  - by exists "", b.
  - exists (String b t), a. by rewrite app_cons_str.
Qed.

(** [(A B* )? A] with the class [A] inside the class [B]: words over [B] that begin and
    end in [A]. *)
Lemma lang_bracketed (p q : ascii -> bool) s :
  (forall a, p a = true -> q a = true) ->
  lang (RCat (ROpt (RCat (RChars p) (RStar (RChars q)))) (RChars p)) s <->
  str_all q s && starts p s && ends p s = true.
Proof.
  intros Hpq. rewrite lang_cat_iff, !andb_true_iff. setoid_rewrite lang_opt. setoid_rewrite lang_cat_iff.
  setoid_rewrite lang_chars_iff. setoid_rewrite lang_star_chars. split.
  - intros (x & y & -> & [(x1 & x2 & -> & (a & -> & Ha) & Hx)| ->] & (b & -> & Hb)).
    + rewrite app_cons_str, ?app_nil_l_str, app_cons_str. change (String a (x2 +:+ String b "")) with (String a x2 +:+ String b "").
      rewrite ends_app, str_all_app. simpl. rewrite Hx, (Hpq a Ha), (Hpq b Hb). by split_and!.
    + rewrite app_nil_l_str. simpl. rewrite (Hpq b Hb). by split_and!.
  - intros [[Hq Hs] He]. destruct (snoc_cases s) as [->|(t & b & ->)]; [done|].
    rewrite ends_app in He. exists t, (String b ""). split_and!; [done| |by exists b].
    destruct t as [|a t]; [by right|left]. exists (String a ""), t. split_and!; [done|by exists a|].
    rewrite app_cons_str in Hq. simpl in Hq. rewrite str_all_app in Hq.
    by apply andb_true_iff in Hq as [_ [Hq _]%andb_true_iff].
Qed.
