(* ===== verification/GoValue.v ===== *)
(** * Dynamic values and tool arguments (mcp-server-go/tools_helpers.go and the
    converters of docker_client.go, backup.go and scheduler.go)

    Arguments of an MCP call and answers of the container backend are
    [interface{}] values: [nil], booleans, numbers, strings, slices and maps.
    A [float32] is kept as the [float64] it converts to.
    Type assertions become pattern matching.  A [map[string]interface{}] is an
    association list with distinct keys; a missing key and a key bound to
    [nil] are different, which several helpers rely on and some overlook. *)
From S2P Require Import Prelude GoStrings.
From Stdlib Require Import Floats.SpecFloat.

(** ** float64 *)

Definition f64_of_Z (z : Z) : float64 := binary_normalize 53 1024 z 0 false.
Definition f64_mul : float64 -> float64 -> float64 := SFmul 53 1024.
Definition f64_div : float64 -> float64 -> float64 := SFdiv 53 1024.
Definition f64_add : float64 -> float64 -> float64 := SFadd 53 1024.
Definition f64_sub : float64 -> float64 -> float64 := SFsub 53 1024.
Definition f64_lt : float64 -> float64 -> bool := SFltb.
Definition f64_le : float64 -> float64 -> bool := SFleb.
Definition f64_eq : float64 -> float64 -> bool := SFeqb.
Definition f64_zero : float64 := S754_zero false.

(** The integer part, towards zero. *)
Definition f64_trunc (s : bool) (m : positive) (e : Z) : Z :=
  let a := if (0 <=? e)%Z then (Z.pos m * 2 ^ e)%Z else (Z.pos m / 2 ^ (- e))%Z in
  if s then (- a)%Z else a.

(** [int(f)]: out of range (infinities and NaN included) the result is the
    platform's. *)
Definition f64_to_int `{GoRuntime} (f : float64) : Z :=
  match f with
  | S754_zero _ => 0
  | S754_finite s m e =>
      let z := f64_trunc s m e in
      if (int_min <=? z)%Z && (z <=? int_max)%Z then z else conv_out_of_range f
  | _ => conv_out_of_range f
  end.

(** ** Values *)

Inductive value : Type :=
  | VNil
  | VBool (b : bool)
  | VFloat (f : float64)
  | VFloat32 (f : float64)
  | VInt (n : Z)
  | VInt64 (n : Z)
  | VStr (s : string)
  | VArr (l : list value)
  | VObj (l : list (string * value)).

Abbreviation object := (list (string * value)).

Fixpoint obj_get (k : string) (o : object) : option value :=
  match o with
  | [] => None
  | (k', v) :: o => if k =s k' then Some v else obj_get k o
  end.

(** [m[k]] as an [interface{}]: [nil] when the key is missing. *)
Definition obj_index (o : object) (k : string) : value := default VNil (obj_get k o).

Definition str_le_key (p q : string * string) : Prop := String.le p.1 q.1.

#[global] Instance str_le_key_dec p q : Decision (str_le_key p q).
Proof. unfold str_le_key. apply _. Defined.

(** [fmt.Sprintf("%v", v)]: maps print with their keys in order. *)
Fixpoint fmt_v `{GoRuntime} (v : value) : string :=
  match v with
  | VNil => "<nil>"
  | VBool b => if b then "true" else "false"
  | VFloat f => fmt_float f
  | VFloat32 f => fmt_float32 f
  | VInt n | VInt64 n => pretty n
  | VStr s => s
  | VArr l => "[" +:+ Join (List.map fmt_v l) " " +:+ "]"
  | VObj l =>
      "map[" +:+
      Join (snd <$> merge_sort str_le_key
                      (List.map (fun p => (p.1, p.1 +:+ ":" +:+ fmt_v p.2)) l)) " " +:+ "]"
  end.

(** ** tools_helpers.go: argument extraction *)

Definition argString `{GoRuntime} (args : object) (key : string) : string :=
  match obj_get key args with
  | Some v => fmt_v v
  | None => ""
  end.

Definition argInt `{GoRuntime} (args : object) (key : string) (def : Z) : Z :=
  match obj_get key args with
  | Some (VFloat n) => f64_to_int n
  | Some (VInt n) => n
  | _ => def
  end.

Definition argFloat (args : object) (key : string) (def : float64) : float64 :=
  match obj_get key args with
  | Some (VFloat n) => n
  | _ => def
  end.

(** [nil] is the absent map. *)
Definition argMap (args : object) (key : string) : option object :=
  match obj_index args key with
  | VObj m => Some m
  | _ => None
  end.

Definition argStringSlice `{GoRuntime} (args : object) (key : string) : option (list string) :=
  match obj_index args key with
  | VArr l => Some (fmt_v <$> l)
  | _ => None
  end.

Definition argBool (args : object) (key : string) : bool :=
  match obj_get key args with
  | Some (VBool b) => b
  | Some (VStr b) => (b =s "true") || (b =s "1")
  | Some (VFloat b) => negb (f64_eq b f64_zero)
  | _ => false
  end.

Definition argIntSlice `{GoRuntime} (args : object) (key : string) : option (list Z) :=
  match obj_index args key with
  | VArr l => Some (omap (fun v => match v with
                                   | VFloat n => Some (f64_to_int n)
                                   | VInt n => Some n
                                   | _ => None
                                   end) l)
  | _ => None
  end.

(** ** Results of a tool handler *)

Inductive tool_result (A : Type) : Type :=
  | ROk (data : A)
  | RErr (msg : string).
Arguments ROk {A} data.
Arguments RErr {A} msg.

Definition okResult {A} (data : A) : tool_result A := ROk data.
Definition errResult {A} (msg : string) : tool_result A := RErr ("Error: " +:+ msg).

(** [if err != nil { return errResult(err.Error()), nil }; return okResult(..)] *)
Definition of_res {A B} (r : res A) (view : A -> B) : tool_result B :=
  match r with
  | Ok a => okResult (view a)
  | Err m => errResult m
  end.

(** ** Converters of docker_client.go, backup.go and scheduler.go *)

Definition asMap (v : value) : object :=
  match v with
  | VObj m => m
  | _ => []
  end.

Definition mapGetAny (m : object) (key : string) : value :=
  match obj_get key m with
  | Some v => v
  | None => VNil
  end.

Definition toString `{GoRuntime} (v : value) : string :=
  match v with
  | VStr s => s
  | _ => fmt_v v
  end.

Definition toInt `{GoRuntime} (v : value) : Z :=
  match v with
  | VFloat n => f64_to_int n
  | VInt n => n
  | _ => 0
  end.

Definition nodeFloat (m : object) (key : string) : float64 :=
  match obj_get key m with
  | Some (VFloat n) | Some (VFloat32 n) => n
  | Some (VInt n) | Some (VInt64 n) => f64_of_Z n
  | _ => f64_zero
  end.

Definition nodeInt `{GoRuntime} (m : object) (key : string) : Z := f64_to_int (nodeFloat m key).

Definition nodeStr `{GoRuntime} (m : object) (key : string) : string :=
  match obj_get key m with
  | None | Some VNil => ""
  | Some v => fmt_v v
  end.

Fixpoint firstNonEmpty (vals : list string) : string :=
  match vals with
  | [] => ""
  | v :: vals => if v <>s "" then v else firstNonEmpty vals
  end.

(** ** Lemmas *)

Lemma obj_get_None_index o k : obj_get k o = None -> obj_index o k = VNil.
Proof. unfold obj_index. by intros ->. Qed.

(** A missing key, looked up through [m[k]], prints as the text [<nil>]: never
    the empty string. *)
Lemma toString_missing `{GoRuntime} o k : obj_get k o = None -> toString (obj_index o k) = "<nil>".
Proof. intros Hk. by rewrite obj_get_None_index. Qed.
