(* ===== verification/GoTime.v ===== *)
(** * Durations as text (package time)

    [ParseDuration] as Go has it: signs, decimal fractions through [float64], units, and
    the overflow checks on 64 bits without a sign. *)
From S2P Require Import Prelude GoStrings GoValue.
From Stdlib Require Import Ascii Floats.SpecFloat.

Open Scope string_scope.
Open Scope Z_scope.

Definition hour : Z := 60 * minute.

(** ** Text of errors *)

Definition hex_char (n : Z) : ascii := if n <? 10 then ascii_of_N (Z.to_N (48 + n)) else ascii_of_N (Z.to_N (87 + n)).

(** The package's own [quote]. *)
Fixpoint quote_body (s : string) : string :=
  match s with
  | EmptyString => ""
  | String a s =>
      if (128 <=? code a) || (code a <? 32) then "\x" +:+ String (hex_char (code a / 16)) (String (hex_char (code a mod 16)) (quote_body s))
      else if char_in (String "034"%char "\") a then "\" +:+ String a (quote_body s)
      else String a (quote_body s)
  end.
Definition time_quote (s : string) : string := String "034"%char (quote_body s +:+ String "034"%char "").

(** ** Numbers *)

Definition two63 : Z := 2 ^ 63.

Fixpoint leadingInt (s : string) (x : Z) : option (Z * string) :=
  match s with
  | String a t =>
      if is_digit a then
        if two63 / 10 <? x then None
        else let x := x * 10 + digit_val a in if two63 <? x then None else leadingInt t x
      else Some (x, s)
  | EmptyString => Some (x, s)
  end.

Definition ten : float64 := f64_of_Z 10.

Fixpoint leadingFraction (s : string) (x : Z) (scale : float64) (overflow : bool) : Z * float64 * string :=
  match s with
  | String a t =>
      if is_digit a then
        if overflow then leadingFraction t x scale overflow
        else if (two63 - 1) / 10 <? x then leadingFraction t x scale true
        else let y := x * 10 + digit_val a in
             if two63 <? y then leadingFraction t x scale true else leadingFraction t y (f64_mul scale ten) false
      else (x, scale, s)
  | EmptyString => (x, scale, s)
  end.

(** [uint64(f)] of a number that is not negative. *)
Definition f64_to_uint (f : float64) : Z := match f with S754_finite s m e => f64_trunc s m e | _ => 0 end.

(** ** Units *)

Definition unitMap (u : string) : option Z :=
  if u =s "ns" then Some 1
  else if u =s "us" then Some 1000
  else if u =s "µs" then Some 1000
  else if u =s "μs" then Some 1000
  else if u =s "ms" then Some 1000000
  else if u =s "s" then Some second
  else if u =s "m" then Some minute
  else if u =s "h" then Some hour
  else None.

(** The bytes up to a digit or a period, and the rest. *)
Fixpoint unit_text (s : string) : string * string :=
  match s with
  | String a t => if is_digit a || (code a =? 46) then ("", s) else let '(u, r) := unit_text t in (String a u, r)
  | EmptyString => ("", "")
  end.

(** ** One number with its unit: its value in nanoseconds, and what follows it. *)
Definition parse_term (invalid : string) (orig s : string) : res (Z * string) :=
  match s with
  | EmptyString => Err invalid
  | String a _ =>
      if negb (is_digit a || (code a =? 46)) then Err invalid
      else
        match leadingInt s 0 with
        | None => Err invalid
        | Some (v, s1) =>
            let pre := negb (String.length s1 =? String.length s)%nat in
            let '(f, scale, s2, post) :=
              match s1 with
              | String "."%char t => let '(f, scale, r) := leadingFraction t 0 (f64_of_Z 1) false in (f, scale, r, negb (String.length r =? String.length t)%nat)
              | _ => (0, f64_of_Z 1, s1, false)
              end in
            if negb pre && negb post then Err invalid
            else
              let '(u, s3) := unit_text s2 in
              if u =s "" then Err ("time: missing unit in duration " +:+ time_quote orig)
              else match unitMap u with
                   | None => Err ("time: unknown unit " +:+ time_quote u +:+ " in duration " +:+ time_quote orig)
                   | Some unit =>
                       if two63 / unit <? v then Err invalid
                       else
                         let v := v * unit in
                         if 0 <? f then
                           let v := (v + f64_to_uint (f64_mul (f64_of_Z f) (f64_div (f64_of_Z unit) scale))) mod 2 ^ 64 in
                           if two63 <? v then Err invalid else Ok (v, s3)
                         else Ok (v, s3)
                   end
        end
  end.

(** Every term takes a byte, so the length of the text is enough fuel. *)
Fixpoint parse_terms (fuel : nat) (invalid orig s : string) (d : Z) : res Z :=
  if s =s "" then Ok d
  else match fuel with
       | O => Err invalid
       | S fuel =>
           let! (v, s) := parse_term invalid orig s in
           let d := (d + v) mod 2 ^ 64 in
           if two63 <? d then Err invalid else parse_terms fuel invalid orig s d
       end.

Definition sign_text (s : string) : bool * string :=
  match s with
  | String a t => if code a =? 45 then (true, t) else if code a =? 43 then (false, t) else (false, s)
  | EmptyString => (false, s)
  end.

Definition ParseDuration (orig : string) : res Z :=
  let invalid := "time: invalid duration " +:+ time_quote orig in
  let '(neg, s) := sign_text orig in
  if s =s "0" then Ok 0
  else if s =s "" then Err invalid
  else
    let! d := parse_terms (String.length s) invalid orig s 0 in
    if (neg : bool) then Ok (- d) else if two63 - 1 <? d then Err invalid else Ok d.

(** ** Lemmas *)

Lemma leadingInt_length s : forall x v r, leadingInt s x = Some (v, r) -> (String.length r <= String.length s)%nat.
Proof.
  induction s as [|a s IH]; intros x v r; cbn [leadingInt]; [by intros [= _ <-]|]. destruct (is_digit a); [|by intros [= _ <-]].
  destruct (_ <? x); [done|]. destruct (_ <? _); [done|]. intros H%IH. cbn. lia.
Qed.

Lemma leadingFraction_length s : forall x sc o f sc' r, leadingFraction s x sc o = (f, sc', r) -> (String.length r <= String.length s)%nat.
Proof.
  induction s as [|a s IH]; intros x sc o f sc' r; cbn [leadingFraction]; [by intros [= _ _ <-]|]. destruct (is_digit a); [|by intros [= _ _ <-]].
  destruct o; [intros H%IH; cbn; lia|]. destruct (_ <? x); [intros H%IH; cbn; lia|]. destruct (_ <? _); intros H%IH; cbn; lia.
Qed.

Lemma unit_text_length s : forall u r, unit_text s = (u, r) -> (String.length u + String.length r = String.length s)%nat.
Proof.
  induction s as [|a s IH]; intros u r; cbn [unit_text]; [by intros [= <- <-]|]. destruct (_ || _); [by intros [= <- <-]|].
  destruct (unit_text s) as [u' r']. intros [= <- <-]. cbn. by rewrite (IH u' r').
Qed.

(** A term takes at least the byte of its unit. *)
Lemma parse_term_length invalid orig s v r : parse_term invalid orig s = Ok (v, r) -> (String.length r < String.length s)%nat.
Proof.
  unfold parse_term. destruct s as [|a s0]; [done|]. destruct (negb _); [done|]. set (s := String a s0).
  destruct (leadingInt s 0) as [[v1 s1]|] eqn:E1; [|done]. apply leadingInt_length in E1.
  destruct (match s1 with String _ _ => _ | _ => _ end) as [[[f sc] s2] post] eqn:E2.
  assert (H2 : (String.length s2 <= String.length s1)%nat).
  { revert E2. destruct s1 as [|c t]; [by intros [= _ _ <- _]|].
    destruct c as [[] [] [] [] [] [] [] []]; try (by intros [= _ _ <- _]).
    destruct (leadingFraction t 0 _ false) as [[f' sc'] r'] eqn:E3. intros [= _ _ <- _]. apply leadingFraction_length in E3. cbn. lia. }
  destruct (negb _ && negb post); [done|]. destruct (unit_text s2) as [u s3] eqn:E3. apply unit_text_length in E3.
  case_bool_decide as Hu; [done|]. assert (H1 : (1 <= String.length u)%nat) by (destruct u; [done|cbn; lia]).
  destruct (unitMap u); [|done]. destruct (_ <? v1); [done|].
  destruct (0 <? f); [destruct (two63 <? _); [done|]|]; intros [= _ <-]; lia.
Qed.

(** More fuel than bytes changes nothing. *)
Lemma parse_terms_fuel invalid orig n : forall m s d, (String.length s <= n)%nat -> (String.length s <= m)%nat ->
  parse_terms n invalid orig s d = parse_terms m invalid orig s d.
Proof.
  induction n as [|n IH]; intros m s d Hn Hm.
  - destruct s; [|cbn in Hn; lia]. by destruct m.
  - destruct m as [|m]; [destruct s; [done|cbn in Hm; lia]|]. cbn [parse_terms]. case_bool_decide; [done|].
    destruct (parse_term invalid orig s) as [[v r]|] eqn:E; [|done]. apply parse_term_length in E. cbn [rbind].
    destruct (_ <? _); [done|]. apply IH; lia.
Qed.

Lemma parse_terms_range fuel invalid orig : forall s d v, 0 <= d <= two63 -> parse_terms fuel invalid orig s d = Ok v -> 0 <= v <= two63.
Proof.
  induction fuel as [|fuel IH]; intros s d v Hd; cbn [parse_terms]; (case_bool_decide; [by intros [= <-]|]); [done|].
  destruct (parse_term invalid orig s) as [[w r]|]; [|done]. cbn [rbind]. destruct (Z.ltb_spec two63 ((d + w) mod 2 ^ 64)); [done|].
  apply IH. split; [by apply Z.mod_pos_bound|done].
Qed.

(** What is parsed is a duration: 64 bits. *)
Lemma ParseDuration_range s d : ParseDuration s = Ok d -> int_min <= d <= int_max.
Proof.
  unfold ParseDuration. destruct (sign_text s) as [neg t]. case_bool_decide; [intros [= <-]; done|]. case_bool_decide; [done|].
  destruct (parse_terms _ _ _ t 0) as [v|] eqn:E; [|done]. cbn [rbind]. apply parse_terms_range in E; [|done].
  unfold two63, int_min, int_max in *. destruct neg; [intros [= <-]; lia|]. destruct (Z.ltb_spec (2 ^ 63 - 1) v); [done|]. intros [= <-]. lia.
Qed.

Example durations :
  ParseDuration "5m" = Ok (5 * minute) /\ ParseDuration "1h30m" = Ok (90 * minute) /\ ParseDuration "1.5h" = Ok (90 * minute) /\
  ParseDuration "-.5s" = Ok (- 500000000) /\ ParseDuration "0" = Ok 0 /\ ParseDuration "2562047h47m16.854775807s" = Ok int_max.
Proof. split_and!; vm_compute; reflexivity. Qed.

Example no_durations :
  is_ok (ParseDuration "2562047h47m16.854775808s") = false /\ is_ok (ParseDuration "2d") = false /\ is_ok (ParseDuration "5 m") = false /\
  is_ok (ParseDuration ".s") = false /\ is_ok (ParseDuration "3") = false /\ is_ok (ParseDuration "") = false.
Proof. split_and!; vm_compute; reflexivity. Qed.
