(* ===== verification/Crypto.v ===== *)
(** * Hashes and encodings of the standard library

    The server hashes secrets with SHA-256, chains the audit log and signs
    heartbeats with HMAC-SHA-256 and computes TOTP codes with HMAC-SHA-1.
    [Crypto] is the interface the other files are proved against: the three
    functions and that their results are so many bytes, which is all the code
    relies on.  [std_crypto] discharges it with executable definitions (FIPS 180-4,
    RFC 2104), checked against published test vectors. *)
From S2P Require Import Prelude GoStrings.
From Stdlib Require Import Ascii.

Open Scope Z_scope.

Abbreviation bytes := (list Z).

(** ** The interface *)

Class Crypto : Type := {
  sha256 : bytes -> bytes;
  hmac_sha256 : bytes -> bytes -> bytes;
  hmac_sha1 : bytes -> bytes -> bytes;
  sha256_length : forall m, length (sha256 m) = 32%nat;
  hmac_sha256_length : forall k m, length (hmac_sha256 k m) = 32%nat;
  hmac_sha1_length : forall k m, length (hmac_sha1 k m) = 20%nat;
  sha256_bytes : forall m, Forall (fun x => 0 <= x < 256) (sha256 m);
  hmac_sha256_bytes : forall k m, Forall (fun x => 0 <= x < 256) (hmac_sha256 k m);
}.

(** ** Encodings *)

Fixpoint bytes_of_string (s : string) : bytes :=
  match s with
  | EmptyString => []
  | String a s => code a :: bytes_of_string s
  end.

Definition hex_digit (n : Z) : ascii :=
  ascii_of_N (Z.to_N (if n <? 10 then 48 + n else 87 + n)).

(** [hex.EncodeToString] *)
Fixpoint hex_encode (b : bytes) : string :=
  match b with
  | [] => EmptyString
  | x :: b => String (hex_digit (x / 16)) (String (hex_digit (x mod 16)) (hex_encode b))
  end.

(** [base32.StdEncoding] without padding: five bits per character. *)
Definition base32_digit (n : Z) : ascii :=
  ascii_of_N (Z.to_N (if n <? 26 then 65 + n else 24 + n)).

Fixpoint base32_go (b : bytes) (acc : Z) (nbits : nat) : string :=
  match b with
  | [] =>
      match nbits with
      | O => EmptyString
      | _ => String (base32_digit (Z.shiftl acc (5 - Z.of_nat nbits) mod 32)) EmptyString
      end
  | x :: b =>
      let acc := acc * 256 + x in
      let n := (nbits + 8)%nat in
      if (n <? 10)%nat then
        String (base32_digit (Z.shiftr acc (Z.of_nat n - 5) mod 32)) (base32_go b (acc mod 2 ^ (Z.of_nat n - 5)) (n - 5))
      else
        String (base32_digit (Z.shiftr acc (Z.of_nat n - 5) mod 32))
          (String (base32_digit (Z.shiftr acc (Z.of_nat n - 10) mod 32))
             (base32_go b (acc mod 2 ^ (Z.of_nat n - 10)) (n - 10)))
  end.
Definition base32_encode (b : bytes) : string := base32_go b 0 0.

(** [binary.BigEndian] on 8 bytes. *)
Definition be64 (n : Z) : bytes :=
  (fun i => Z.shiftr n (8 * i) mod 256) <$> [7; 6; 5; 4; 3; 2; 1; 0].

(** ** Words and blocks *)

Definition add32 (a b : Z) : Z := (a + b) mod 2 ^ 32.
Definition not32 (a : Z) : Z := 2 ^ 32 - 1 - a.
Definition rotl32 (n a : Z) : Z := Z.lor (Z.shiftl a n mod 2 ^ 32) (Z.shiftr a (32 - n)).
Definition rotr32 (n a : Z) : Z := rotl32 (32 - n) a.

Definition be32 (n : Z) : bytes := (fun i => Z.shiftr n (8 * i) mod 256) <$> [3; 2; 1; 0].

Fixpoint words (b : bytes) : list Z :=
  match b with
  | a :: b :: c :: d :: r => (a * 2 ^ 24 + b * 2 ^ 16 + c * 2 ^ 8 + d) :: words r
  | _ => []
  end.

(** A one bit, zeros and the length in bits, to a multiple of 64 bytes. *)
Definition pad (m : bytes) : bytes :=
  let n := Z.of_nat (length m) in
  m ++ [128] ++ replicate (Z.to_nat ((55 - n) mod 64)) 0 ++ be64 (8 * n).

(** The 16-word blocks of a padded message; a block needs one round of fuel
    and there are at most as many as words. *)
Fixpoint blocks_go (fuel : nat) (ws : list Z) : list (list Z) :=
  match fuel, ws with
  | S fuel, _ :: _ => take 16 ws :: blocks_go fuel (drop 16 ws)
  | _, _ => []
  end.
Definition blocks (m : bytes) : list (list Z) :=
  let ws := words (pad m) in blocks_go (length ws) ws.

(** ** SHA-1 *)

(** The message schedule, last word first. *)
Fixpoint sha1_schedule (n : nat) (w : list Z) : list Z :=
  match n with
  | O => w
  | S n =>
      let x := rotl32 1 (Z.lxor (Z.lxor (w !!! 2%nat) (w !!! 7%nat)) (Z.lxor (w !!! 13%nat) (w !!! 15%nat))) in
      sha1_schedule n (x :: w)
  end.

Definition sha1_fk (t b c d : Z) : Z * Z :=
  if t <? 20 then (Z.lor (Z.land b c) (Z.land (not32 b) d), 0x5A827999)
  else if t <? 40 then (Z.lxor (Z.lxor b c) d, 0x6ED9EBA1)
  else if t <? 60 then (Z.lor (Z.lor (Z.land b c) (Z.land b d)) (Z.land c d), 0x8F1BBCDC)
  else (Z.lxor (Z.lxor b c) d, 0xCA62C1D6).

Definition sha1_round (st : Z * (Z * Z * Z * Z * Z)) (w : Z) : Z * (Z * Z * Z * Z * Z) :=
  let '(t, (a, b, c, d, e)) := st in
  let '(f, k) := sha1_fk t b c d in
  let tmp := add32 (add32 (add32 (add32 (rotl32 5 a) f) e) w) k in
  (t + 1, (tmp, a, rotl32 30 b, c, d)).

Definition sha1_block (h : Z * Z * Z * Z * Z) (blk : list Z) : Z * Z * Z * Z * Z :=
  let w := rev (sha1_schedule 64 (rev blk)) in
  let '(h0, h1, h2, h3, h4) := h in
  let '(_, (a, b, c, d, e)) := foldl sha1_round (0, h) w in
  (add32 h0 a, add32 h1 b, add32 h2 c, add32 h3 d, add32 h4 e).

Definition sha1_def (m : bytes) : bytes :=
  let '(a, b, c, d, e) :=
    foldl sha1_block (0x67452301, 0xEFCDAB89, 0x98BADCFE, 0x10325476, 0xC3D2E1F0) (blocks m) in
  be32 a ++ be32 b ++ be32 c ++ be32 d ++ be32 e.

(** ** SHA-256 *)

(** The constants of FIPS 180-4: the first 32 bits of the fractional parts of
    the cube roots of the first 64 primes, and of the square roots of the first
    eight for the initial state. *)
Definition is_prime (n : Z) : bool := forallb (fun d => negb (n `mod` d =? 0)) (seqZ 2 (n - 2)).
Definition primes : list Z := filter (fun n => is_prime n = true) (seqZ 2 310).

(** The largest [r] below [2 ^ (bit + 1)] above [acc] with [r ^ k <= n], bit by bit. *)
Fixpoint root_bits (k n acc : Z) (bit : nat) : Z :=
  let r := acc + 2 ^ Z.of_nat bit in
  let acc := if r ^ k <=? n then r else acc in
  match bit with
  | O => acc
  | S bit => root_bits k n acc bit
  end.

Definition frac_root (k p : Z) : Z := root_bits k (p * 2 ^ (32 * k)) 0 40 `mod` 2 ^ 32.

Definition sha256_k : list Z := Eval vm_compute in frac_root 3 <$> primes.
Definition sha256_h0 : list Z := Eval vm_compute in frac_root 2 <$> take 8 primes.

Fixpoint sha256_schedule (n : nat) (w : list Z) : list Z :=
  match n with
  | O => w
  | S n =>
      let w2 := w !!! 1%nat in
      let w15 := w !!! 14%nat in
      let s0 := Z.lxor (Z.lxor (rotr32 7 w15) (rotr32 18 w15)) (Z.shiftr w15 3) in
      let s1 := Z.lxor (Z.lxor (rotr32 17 w2) (rotr32 19 w2)) (Z.shiftr w2 10) in
      sha256_schedule n (add32 (add32 (add32 (w !!! 15%nat) s0) (w !!! 6%nat)) s1 :: w)
  end.

Record sha256_state := S256 { s_a : Z; s_b : Z; s_c : Z; s_d : Z; s_e : Z; s_f : Z; s_g : Z; s_h : Z }.

Definition sha256_round (s : sha256_state) (kw : Z * Z) : sha256_state :=
  let e1 := Z.lxor (Z.lxor (rotr32 6 (s_e s)) (rotr32 11 (s_e s))) (rotr32 25 (s_e s)) in
  let ch := Z.lxor (Z.land (s_e s) (s_f s)) (Z.land (not32 (s_e s)) (s_g s)) in
  let t1 := add32 (add32 (add32 (add32 (s_h s) e1) ch) kw.1) kw.2 in
  let e0 := Z.lxor (Z.lxor (rotr32 2 (s_a s)) (rotr32 13 (s_a s))) (rotr32 22 (s_a s)) in
  let maj := Z.lxor (Z.lxor (Z.land (s_a s) (s_b s)) (Z.land (s_a s) (s_c s))) (Z.land (s_b s) (s_c s)) in
  S256 (add32 t1 (add32 e0 maj)) (s_a s) (s_b s) (s_c s) (add32 (s_d s) t1) (s_e s) (s_f s) (s_g s).

Definition sha256_block (h : sha256_state) (blk : list Z) : sha256_state :=
  let w := rev (sha256_schedule 48 (rev blk)) in
  let s := foldl sha256_round h (zip sha256_k w) in
  S256 (add32 (s_a h) (s_a s)) (add32 (s_b h) (s_b s)) (add32 (s_c h) (s_c s)) (add32 (s_d h) (s_d s))
       (add32 (s_e h) (s_e s)) (add32 (s_f h) (s_f s)) (add32 (s_g h) (s_g s)) (add32 (s_h h) (s_h s)).

Definition sha256_def (m : bytes) : bytes :=
  let s := foldl sha256_block
    (S256 (sha256_h0 !!! 0%nat) (sha256_h0 !!! 1%nat) (sha256_h0 !!! 2%nat) (sha256_h0 !!! 3%nat)
          (sha256_h0 !!! 4%nat) (sha256_h0 !!! 5%nat) (sha256_h0 !!! 6%nat) (sha256_h0 !!! 7%nat))
    (blocks m) in
  be32 (s_a s) ++ be32 (s_b s) ++ be32 (s_c s) ++ be32 (s_d s) ++
  be32 (s_e s) ++ be32 (s_f s) ++ be32 (s_g s) ++ be32 (s_h s).

(** ** HMAC with 64-byte blocks *)

Definition hmac (h : bytes -> bytes) (key msg : bytes) : bytes :=
  let key := if (64 <? length key)%nat then h key else key in
  let key := key ++ replicate (64 - length key) 0 in
  h ((Z.lxor 92 <$> key) ++ h ((Z.lxor 54 <$> key) ++ msg)).

(** ** The instance *)

Lemma sha1_def_length m : length (sha1_def m) = 20%nat.
Proof. unfold sha1_def. by destruct (foldl _ _ _) as [[[[??]?]?]?]. Qed.

Lemma sha256_def_length m : length (sha256_def m) = 32%nat.
Proof. done. Qed.

Lemma be32_bytes n : Forall (fun x => 0 <= x < 256) (be32 n).
Proof. apply Forall_fmap, Forall_true. intros x. apply Z.mod_pos_bound. lia. Qed.

Lemma sha256_def_bytes m : Forall (fun x => 0 <= x < 256) (sha256_def m).
Proof. unfold sha256_def. rewrite !Forall_app. by split_and!; apply be32_bytes. Qed.

Definition std_crypto : Crypto :=
  {| sha256 := sha256_def;
     hmac_sha256 := hmac sha256_def;
     hmac_sha1 := hmac sha1_def;
     sha256_length := sha256_def_length;
     hmac_sha256_length := fun k m => sha256_def_length _;
     hmac_sha1_length := fun k m => sha1_def_length _;
     sha256_bytes := sha256_def_bytes;
     hmac_sha256_bytes := fun k m => sha256_def_bytes _ |}.

(** Hexadecimal text is ASCII. *)
Lemma hex_digit_7bit n : 0 <= n < 16 -> is_7bit (hex_digit n) = true.
Proof.
  intros Hn. assert (n ∈ seqZ 0 16) as Hin by (apply elem_of_seqZ; lia).
  clear Hn. revert n Hin. apply Forall_forall. by repeat constructor.
Qed.

Lemma hex_encode_7bit b : Forall (fun x => 0 <= x < 256) b -> str_all is_7bit (hex_encode b) = true.
Proof.
  induction 1 as [|x b Hx _ IH]; [done|]. cbn [hex_encode str_all].
  rewrite !hex_digit_7bit, IH; [done| |].
  - apply Z.mod_pos_bound. lia.
  - split; [apply Z.div_pos; lia|apply Z.div_lt_upper_bound; lia].
Qed.

(** ** Test vectors: FIPS 180-4, RFC 2202, RFC 4231, RFC 4648 *)

Example sha1_abc :
  hex_encode (sha1_def (bytes_of_string "abc")) = "a9993e364706816aba3e25717850c26c9cd0d89d".
Proof. vm_compute. reflexivity. Qed.

Example sha256_constants : length sha256_k = 64%nat /\ length sha256_h0 = 8%nat.
Proof. done. Qed.

Example sha256_abc :
  hex_encode (sha256_def (bytes_of_string "abc")) =
  "ba7816bf8f01cfea414140de5dae2223b00361a396177a9cb410ff61f20015ad".
Proof. vm_compute. reflexivity. Qed.

Example sha256_two_blocks :
  hex_encode (sha256_def (bytes_of_string "abcdbcdecdefdefgefghfghighijhijkijkljklmklmnlmnomnopnopq")) =
  "248d6a61d20638b8e5c026930c3e6039a33ce45964ff2167f6ecedd419db06c1".
Proof. vm_compute. reflexivity. Qed.

Example hmac_sha1_jefe :
  hex_encode (hmac sha1_def (bytes_of_string "Jefe") (bytes_of_string "what do ya want for nothing?")) =
  "effcdf6ae5eb2fa2d27416d5f184df9c259a7c79".
Proof. vm_compute. reflexivity. Qed.

Example hmac_sha256_jefe :
  hex_encode (hmac sha256_def (bytes_of_string "Jefe") (bytes_of_string "what do ya want for nothing?")) =
  "5bdcc146bf60754e6a042426089575c75a003f089d2739839dec58b964ec3843".
Proof. vm_compute. reflexivity. Qed.

Example base32_foobar : base32_encode (bytes_of_string "foobar") = "MZXW6YTBOI".
Proof. vm_compute. reflexivity. Qed.
