(* ===== verification/NetIP.v ===== *)
(** * IP literals: the part of package net the validators rely on

    [net.ParseIP] and the classification methods of [net.IP], byte by byte.
    An address is the list of its 16 bytes; an IPv4 address is kept in its
    IPv4-mapped form, as [net.ParseIP] returns it. *)
From S2P Require Import Prelude GoStrings.
From Stdlib Require Import Ascii.

Open Scope Z_scope.

Abbreviation IP := (list Z).

(** ** Host and port *)

(** [net.SplitHostPort], keeping the host. *)
Definition SplitHostPort (hostport : string) : option string :=
  if negb (index_any hostport ":"%char) then None
  else
    match hostport with
    | String "["%char rest =>
        match Cut rest "]"%string with
        | None => None
        | Some (host, String ":"%char port) =>
            if index_any port ":"%char || index_any host "["%char || index_any port "["%char || index_any port "]"%char
            then None else Some host
        | Some (_, _) => None
        end
    | _ =>
        let host := before_last hostport ":"%char in
        if index_any host ":"%char || index_any hostport "["%char || index_any hostport "]"%char
        then None else Some host
    end.

(** [net.JoinHostPort] *)
Definition JoinHostPort (host port : string) : string :=
  if index_any host ":"%char then "[" +:+ host +:+ "]:" +:+ port else host +:+ ":" +:+ port.

Definition no_brackets (s : string) : Prop := index_any s "["%char = false /\ index_any s "]"%char = false.

Lemma before_last_app s c t : index_any t c = false -> before_last (s +:+ String c t) c = s.
Proof.
  intros Ht. induction s as [|a s IH].
  - rewrite app_nil_l_str. cbn [before_last]. by rewrite Ht, bool_decide_true.
  - rewrite app_cons_str. cbn [before_last]. rewrite index_any_app.
    assert (index_any (String c t) c = true) as -> by (unfold index_any, str_any; cbn; by rewrite bool_decide_true).
    rewrite orb_true_r. by rewrite IH.
Qed.

(** What [JoinHostPort] writes, [SplitHostPort] reads, IPv6 hosts included. *)
Lemma split_join host port :
  no_brackets host -> str_all is_digit port = true -> SplitHostPort (JoinHostPort host port) = Some host.
Proof.
  intros [Ho Hc] Hp. assert (forall c, is_digit c = false -> index_any port c = false) as Hport.
  { intros c. by apply index_any_all. }
  unfold JoinHostPort. destruct (index_any host ":"%char) eqn:Hcol.
  - unfold SplitHostPort. rewrite !index_any_app. rewrite Hcol. cbn [negb orb].
    change ("[" +:+ host +:+ "]:" +:+ port) with (String "["%char (host +:+ String "]"%char (String ":"%char port))).
    rewrite orb_true_r. cbn [negb]. rewrite (Cut_byte_app host "]"%char) by done. cbn [app].
    by rewrite Ho, !Hport.
  - assert (SplitHostPort (host +:+ ":" +:+ port) =
            (let host' := before_last (host +:+ ":" +:+ port) ":"%char in
             if index_any host' ":"%char || index_any (host +:+ ":" +:+ port) "["%char || index_any (host +:+ ":" +:+ port) "]"%char
             then None else Some host')) as ->.
    { unfold SplitHostPort. rewrite !index_any_app. cbn -[index_any before_last]. rewrite orb_true_r. cbn [negb].
      destruct host as [|a host]; [done|]. rewrite app_cons_str.
      destruct a as [[] [] [] [] [] [] [] []]; try done. }
    change (":" +:+ port) with (String ":"%char port). rewrite before_last_app by by apply Hport.
    cbv zeta. rewrite !index_any_app, Ho, Hc, Hcol. cbn -[index_any].
    change (String ":"%char port) with (":" +:+ port). rewrite !index_any_app. by rewrite !Hport.
Qed.

(** ** Parsing *)

(** The loop of [parseIPv4Fields]: value and number of digits of the current
    field, fields already read (last first). *)
Fixpoint v4_fields (s : string) (val : Z) (digLen : nat) (fields : list Z) : option (list Z) :=
  match s with
  | EmptyString =>
      if (length fields <? 3)%nat then None else Some (rev (val :: fields))
  | String c rest =>
      if is_digit c then
        if (digLen =? 1)%nat && (val =? 0) then None else
        let val := val * 10 + digit_val c in
        if 255 <? val then None else v4_fields rest val (S digLen) fields
      else if code c =? 46 then
        if (digLen =? 0)%nat || bool_decide (rest = EmptyString) then None else
        if (length fields =? 3)%nat then None else v4_fields rest 0 0%nat (val :: fields)
      else None
  end.

Definition v4_mapped (v4 : list Z) : IP := replicate 10 0 ++ [255; 255] ++ v4.

Definition hex_val (c : ascii) : option Z :=
  if is_digit c then Some (digit_val c)
  else if (97 <=? code c) && (code c <=? 102) then Some (code c - 87)
  else if (65 <=? code c) && (code c <=? 70) then Some (code c - 55)
  else None.

(** A hexadecimal group: its value, its number of digits and what follows;
    [None] when it has more than four digits. *)
Fixpoint hex_group (s : string) (off : nat) (acc : Z) : option (Z * nat * string) :=
  match s with
  | String c rest =>
      match hex_val c with
      | Some d => if (3 <? off)%nat then None else hex_group rest (S off) (acc * 16 + d)
      | None => Some (acc, off, s)
      end
  | EmptyString => Some (acc, off, EmptyString)
  end.

(** The group loop of [parseIPv6]: bytes read so far, position of the ellipsis.
    The result keeps the unread text; eight groups are the most there can be,
    so nine rounds of fuel are enough. *)
Fixpoint v6_groups (fuel : nat) (s : string) (ip : list Z) (ellipsis : option nat)
  : option (list Z * option nat * string) :=
  match fuel with
  | O => None
  | S fuel =>
      if (16 <=? length ip)%nat then Some (ip, ellipsis, s) else
      match hex_group s 0 0 with
      | None | Some (_, O, _) => None
      | Some (acc, _, rest) =>
          match rest with
          | String c rest' =>
              if code c =? 46 then
                if match ellipsis with None => negb (length ip =? 12)%nat | Some _ => false end
                then None
                else if (16 <? length ip + 4)%nat then None
                else match v4_fields s 0 0 [] with
                     | Some v4 => Some (ip ++ v4, ellipsis, EmptyString)
                     | None => None
                     end
              else
                let ip := ip ++ [acc / 256; acc mod 256] in
                if negb (code c =? 58) then None else
                match rest' with
                | EmptyString => None
                | String d rest'' =>
                    if code d =? 58 then
                      match ellipsis with
                      | Some _ => None
                      | None =>
                          if bool_decide (rest'' = EmptyString)
                          then Some (ip, Some (length ip), EmptyString)
                          else v6_groups fuel rest'' ip (Some (length ip))
                      end
                    else v6_groups fuel rest' ip ellipsis
                end
          | EmptyString => Some (ip ++ [acc / 256; acc mod 256], ellipsis, EmptyString)
          end
      end
  end.

(** The last step of [parseIPv6]: nothing unread, the ellipsis expanded. *)
Definition v6_finish (r : list Z * option nat * string) : option IP :=
  let '(ip, ellipsis, rest) := r in
  if negb (bool_decide (rest = EmptyString)) then None else
  if (length ip <? 16)%nat then
    match ellipsis with
    | None => None
    | Some e => Some (take e ip ++ replicate (16 - length ip) 0 ++ drop e ip)
    end
  else match ellipsis with
       | Some _ => None
       | None => Some ip
       end.

(** A zone ([%eth0]) makes [net.ParseIP] fail, whatever the address. *)
Definition parseIPv6 (s : string) : option IP :=
  if index_any s "%"%char then None else
  match s with
  | String a (String b rest) =>
      if (code a =? 58) && (code b =? 58) then
        if bool_decide (rest = EmptyString) then Some (replicate 16 0)
        else match v6_groups 9 rest [] (Some 0%nat) with
             | Some r => v6_finish r
             | None => None
             end
      else match v6_groups 9 s [] None with
           | Some r => v6_finish r
           | None => None
           end
  | _ => match v6_groups 9 s [] None with
         | Some r => v6_finish r
         | None => None
         end
  end.

(** The first [.] or [:] tells the family. *)
Fixpoint ParseIP_scan (whole s : string) : option IP :=
  match s with
  | EmptyString => None
  | String c rest =>
      if code c =? 46 then v4_mapped <$> v4_fields whole 0 0 []
      else if code c =? 58 then parseIPv6 whole
      else if code c =? 37 then None
      else ParseIP_scan whole rest
  end.

Definition ParseIP (s : string) : option IP := ParseIP_scan s s.

(** ** Classification *)

Definition byte_at (ip : IP) (i : nat) : Z := default 0 (ip !! i).

Definition To4 (ip : IP) : option (list Z) :=
  if bool_decide (take 12 ip = replicate 10 0 ++ [255; 255]) then Some (drop 12 ip) else None.

Definition IsLoopback (ip : IP) : bool :=
  match To4 ip with
  | Some ip4 => byte_at ip4 0 =? 127
  | None => bool_decide (ip = replicate 15 0 ++ [1])
  end.

Definition IsPrivate (ip : IP) : bool :=
  match To4 ip with
  | Some ip4 =>
      (byte_at ip4 0 =? 10) ||
      ((byte_at ip4 0 =? 172) && (Z.land (byte_at ip4 1) 240 =? 16)) ||
      ((byte_at ip4 0 =? 192) && (byte_at ip4 1 =? 168))
  | None => Z.land (byte_at ip 0) 254 =? 252
  end.

Definition IsLinkLocalUnicast (ip : IP) : bool :=
  match To4 ip with
  | Some ip4 => (byte_at ip4 0 =? 169) && (byte_at ip4 1 =? 254)
  | None => (byte_at ip 0 =? 254) && (Z.land (byte_at ip 1) 192 =? 128)
  end.

Definition IsLinkLocalMulticast (ip : IP) : bool :=
  match To4 ip with
  | Some ip4 => (byte_at ip4 0 =? 224) && (byte_at ip4 1 =? 0) && (byte_at ip4 2 =? 0)
  | None => (byte_at ip 0 =? 255) && (Z.land (byte_at ip 1) 15 =? 2)
  end.

Definition IsUnspecified (ip : IP) : bool :=
  bool_decide (ip = v4_mapped [0; 0; 0; 0]) || bool_decide (ip = replicate 16 0).

Definition IsMulticast (ip : IP) : bool :=
  match To4 ip with
  | Some ip4 => Z.land (byte_at ip4 0) 240 =? 224
  | None => byte_at ip 0 =? 255
  end.

(** The text of an IPv4 address, fields in decimal. *)
Definition dotted (a b c d : Z) : string :=
  pretty a +:+ String "."%char (pretty b +:+ String "."%char
    (pretty c +:+ String "."%char (pretty d))).

Definition octet (n : Z) : Prop := 0 <= n <= 255.

(** ** Lemmas *)

Lemma octets_ind (P : Z -> Prop) : Forall P (seqZ 0 256) -> forall n, octet n -> P n.
Proof.
  intros HP n Hn. rewrite Forall_forall in HP. apply HP, elem_of_seqZ. unfold octet in Hn. lia.
Qed.

Ltac all_octets :=
  match goal with |- forall n, octet n -> @?P n => apply (octets_ind P) end;
  let l := eval vm_compute in (seqZ 0 256) in change (seqZ 0 256) with l;
  repeat (constructor; [cbv beta; intros; reflexivity|]); constructor.

(** Reading the decimal text of an octet. *)
Lemma v4_fields_octet : forall n, octet n -> forall rest fs,
  v4_fields (pretty n +:+ rest) 0 0 fs = v4_fields rest n (String.length (pretty n)) fs.
Proof. all_octets. Qed.

Lemma octet_text_digits : forall n, octet n -> str_all is_digit (pretty n) = true.
Proof. all_octets. Qed.

Lemma octet_text_nonempty : forall n, octet n -> (String.length (pretty n) =? 0)%nat = false.
Proof. all_octets. Qed.

Lemma octet_text_scan : forall n, octet n -> forall whole rest,
  ParseIP_scan whole (pretty n +:+ rest) = ParseIP_scan whole rest.
Proof. all_octets. Qed.

Lemma v4_fields_dot rest val digLen fs :
  (digLen =? 0)%nat = false -> rest <> EmptyString -> (length fs =? 3)%nat = false ->
  v4_fields (String "."%char rest) val digLen fs = v4_fields rest 0 0 (val :: fs).
Proof.
  intros Hd Hr Hf. cbn [v4_fields]. change (is_digit "."%char) with false.
  change (code "."%char =? 46) with true. cbv iota.
  by rewrite Hd, bool_decide_false, Hf by done.
Qed.

Lemma octet_text_ne : forall n, octet n -> forall rest, pretty n +:+ rest <> EmptyString.
Proof.
  intros n Hn rest Heq. pose proof (octet_text_nonempty n Hn) as Hl.
  by destruct (pretty n).
Qed.

(** Every dotted quad of octets is read back as the address it denotes. *)
Lemma ParseIP_dotted a b c d : octet a -> octet b -> octet c -> octet d ->
  ParseIP (dotted a b c d) = Some (v4_mapped [a; b; c; d]).
Proof.
  intros Ha Hb Hc Hd. unfold ParseIP, dotted at 2. rewrite octet_text_scan by done.
  cbn [ParseIP_scan]. change (code "."%char =? 46) with true. cbv iota.
  unfold dotted.
  rewrite v4_fields_octet, v4_fields_dot by (try apply octet_text_nonempty; try apply octet_text_ne; done).
  rewrite v4_fields_octet, v4_fields_dot by (try apply octet_text_nonempty; try apply octet_text_ne; done).
  rewrite v4_fields_octet, v4_fields_dot by
    (try apply octet_text_nonempty; try (rewrite <- (app_nil_r_str (pretty d)); apply octet_text_ne); done).
  rewrite <- (app_nil_r_str (pretty d)), v4_fields_octet by done. done.
Qed.

Lemma To4_mapped a b c d : To4 (v4_mapped [a; b; c; d]) = Some [a; b; c; d].
Proof. done. Qed.

Lemma dotted_chars a b c d : octet a -> octet b -> octet c -> octet d ->
  str_all (fun x => is_digit x || (code x =? 46)) (dotted a b c d) = true.
Proof.
  intros Ha Hb Hc Hd. unfold dotted.
  assert (forall n, octet n -> str_all (fun x => is_digit x || (code x =? 46)) (pretty n) = true) as Ho.
  { intros n Hn. eapply str_all_impl; [|by apply octet_text_digits].
    intros x Hx. by rewrite Hx. }
  rewrite !str_all_app. cbn [str_all]. rewrite !str_all_app. cbn [str_all].
  rewrite !str_all_app. cbn [str_all]. by rewrite !Ho by done.
Qed.
