(* ===== verification/Security.v ===== *)
(** * Input validation (mcp-server-go/security.go)

    Names, commands, paths, addresses and URLs that reach the file system, a
    container or the network pass through these functions.  File system and
    network (symbolic links, DNS) are parameters. *)
From S2P Require Import Prelude GoStrings NetIP.
From Stdlib Require Import Ascii.

(** The double quote, kept out of string literals. *)
Definition dquote : ascii := "034"%char.
(** Shell metacharacters refused in addresses and mount paths. *)

Definition shell_meta : string :=
  "`$\" +:+ String dquote "'{};|&<>()".

(** ** Names *)

Definition safe_first (a : ascii) : bool := is_alnum a.
Definition safe_rest (a : ascii) : bool := is_alnum a || char_in "._-" a.
Definition safeNameRe (s : string) : bool := match_ident safe_first safe_rest 63 s.

Definition validateSafeName (name : string) : res string :=
  reject name =s "" with "name cannot be empty" ;;
  reject negb (safeNameRe name) with
    "invalid name '" +:+ name +:+ "': must be alphanumeric with dots, dashes, or underscores, 1-64 chars, cannot start with dot" ;;
  Ok name.

Definition containerIDRe (s : string) : bool := match_ident safe_first safe_rest 127 s.

Definition validateContainerID (id : string) : res unit :=
  reject id =s "" with "container_id cannot be empty" ;;
  reject HasPrefix id "-" with
    "container_id starts with '-' — possible argument injection attempt" ;;
  reject negb (containerIDRe id) with
    "invalid container_id '" +:+ id +:+ "': must be alphanumeric with dots, dashes, or underscores (max 128 chars)" ;;
  Ok tt.

(** ** Commands *)

Definition execAllowlist : list string :=
  ["ls"; "cat"; "head"; "tail"; "grep"; "find"; "wc"; "sort"; "uniq";
   "ps"; "top"; "env"; "printenv"; "whoami"; "hostname"; "date"; "uname";
   "df"; "du"; "free"; "uptime"; "id"; "pwd"; "stat"; "file"; "diff";
   "echo"; "printf"; "test"; "true"; "false";
   "pgrep";
   "mkdir"; "touch"; "cp"; "mv";
   "tar"; "zip"; "unzip"; "gzip"; "gunzip";
   "sed"; "awk"; "cut"; "tr";
   "redis-cli"; "psql"; "mysql";
   "ss"; "netstat";
   "git"].

Definition execDenylist : list string :=
  ["rm -rf /"; "rm -rf /*"; "mkfs"; "dd if=/dev/zero"; "dd if=/dev/random";
   ":(){ :|:& };:"; "chmod 777 /"; "shutdown"; "reboot"; "halt"; "poweroff";
   "| sh"; "| bash"; "|/bin/sh"; "|/bin/bash";
   "| python"; "| python3"; "| node"; "| perl"; "| ruby"; "| php";
   "| curl"; "| wget"; "| nc"; "| ncat"; "| ssh"; "| scp";
   "| telnet"; "| socat"; "| openssl"; "| awk "; "| tee ";
   "$(sh"; "$(bash"; "$(python"; "$(curl"; "$(wget"; "$(nc"; "$(ssh";
   "`sh"; "`bash"; "`python"; "`curl"; "`wget";
   ">/dev/sd"; ">/dev/vd"; ">/dev/nvm";
   "eval "; "exec ";
   "/dev/tcp/"; "/dev/udp/";
   "& sh"; "& bash"; "; sh"; "; bash"; "&& sh"; "&& bash"; "|| sh"; "|| bash"].

Definition splitAndTrim (s : string) : list string :=
  filter (fun part => part <> EmptyString) (TrimSpace <$> Split s ","%char).

(** The allowlist after [init], given the value of CUBE_EXEC_ALLOWLIST. *)
Definition allowlist_with (extra : string) : list string :=
  if extra =s "" then execAllowlist else execAllowlist ++ splitAndTrim extra.

Definition is_assignment (tok : string) : bool :=
  Contains tok "=" && negb (HasPrefix tok "-").

(** The index of the first token that is not an environment assignment. *)
Fixpoint bin_start (tokens : list string) : nat :=
  match tokens with
  | [] => 0
  | t :: tokens => if is_assignment t then S (bin_start tokens) else 0
  end.

(** [/usr/bin/ls] is [ls]. *)
Definition base_command `{GoRuntime} (tok : string) : string :=
  ToLower (if index_any tok "/"%char then after_last tok "/"%char else tok).

Definition validateCommand `{GoRuntime} (extra cmd : string) : res string :=
  let cmd := TrimSpace cmd in
  reject cmd =s "" with "command cannot be empty" ;;
  match list_find (fun pattern => Contains (ToLower cmd) pattern = true) execDenylist with
  | Some (_, pattern) => Err ("command contains blocked pattern: " +:+ pattern)
  | None =>
      let tokens := Fields cmd in
      match tokens !! bin_start tokens with
      | None => Err "no command found (only env var assignments)"
      | Some tok =>
          let baseCmd := base_command tok in
          if bool_decide (baseCmd ∈ allowlist_with extra) then Ok cmd
          else Err ("command '" +:+ baseCmd +:+
                    "' is not in the allowlist (extend via CUBE_EXEC_ALLOWLIST env var)")
      end
  end.

(** ** Paths *)

(** One component of [filepath.Clean], on the stack of components kept so
    far (last first). *)
Definition clean_step (rooted : bool) (stack : list string) (c : string) : list string :=
  if (c =s "") || (c =s ".") then stack
  else if c =s ".." then
    match stack with
    | [] => if rooted then [] else [".."]
    | top :: rest => if top =s ".." then ".." :: stack else rest
    end
  else c :: stack.

Definition Clean (path : string) : string :=
  if path =s "" then "." else
  let rooted := HasPrefix path "/" in
  let body := Join (rev (foldl (clean_step rooted) [] (Split path "/"%char))) "/" in
  if rooted then "/" +:+ body else if body =s "" then "." else body.

Definition IsAbs (path : string) : bool := HasPrefix path "/".

(** [filepath.Join] of two elements. *)
Definition path_join (a b : string) : string :=
  if a =s "" then (if b =s "" then "" else Clean b)
  else if b =s "" then Clean a else Clean (a +:+ "/" +:+ b).

Section FileSystem.
  Context (Getwd : option string) (EvalSymlinks : string -> option string).

Definition Abs (path : string) : option string :=
  if IsAbs path then Some (Clean path)
  else match Getwd with
       | Some wd => Some (path_join wd path)
       | None => None
       end.

Definition resolvePath (path : string) : string :=
  match Abs path with
  | None => path
  | Some abs => default abs (EvalSymlinks abs)
  end.

Definition validatePathSafe (path root : string) : res string :=
  let resolved := resolvePath path in
  let rootResolved := resolvePath root in
  reject negb (HasPrefix (resolved +:+ "/") (rootResolved +:+ "/")) && (resolved <>s rootResolved)
    with "path '" +:+ path +:+ "' escapes allowed root '" +:+ root +:+ "'" ;;
  Ok resolved.

End FileSystem.

Definition sensitiveMountPaths : list string :=
  ["/etc"; "/etc/"; "/var/run"; "/var/run/"; "/run"; "/run/";
   "/proc"; "/proc/"; "/sys"; "/sys/"; "/dev"; "/dev/"; "/root"; "/root/";
   "/boot"; "/boot/"; "/usr/lib"; "/usr/lib64"; "/usr/bin"; "/.dockerenv";
   "/var/lib/docker"; "/var/lib/docker/"].

Definition validateMountPath (path : string) : res unit :=
  reject path =s "" with "mount_path cannot be empty" ;;
  reject Contains path ".." with "mount_path contains '..' — path traversal not allowed" ;;
  let cleaned := Clean path in
  reject existsb (fun sensitive => (cleaned =s sensitive) || HasPrefix cleaned sensitive)
           sensitiveMountPaths
    with "mount_path '" +:+ path +:+ "' is a sensitive system path — not allowed" ;;
  reject negb (IsAbs path) with "mount_path must be an absolute path" ;;
  reject ContainsAny path shell_meta with "mount_path contains forbidden characters" ;;
  Ok tt.

(** ** Hosts and URLs *)

Definition isPrivateIP (ip : IP) : bool :=
  IsLoopback ip || IsPrivate ip || (IsLinkLocalUnicast ip || IsLinkLocalMulticast ip) ||
  IsUnspecified ip || IsMulticast ip.

Definition metadata_host (host : string) : bool :=
  (host =s "169.254.169.254") || (host =s "metadata.google.internal") || (host =s "metadata").

(** [host[1 : len(host)-1]] *)
Definition strip_ends (s : string) : string := str_take (String.length s - 2) (str_drop 1 s).

Definition isPrivateHost `{GoRuntime} (host : string) : bool :=
  if metadata_host host then true else
  let lower := ToLower host in
  if (lower =s "localhost") || HasSuffix lower ".localhost" then true else
  match ParseIP host with
  | Some ip => isPrivateIP ip
  | None =>
      match (if HasPrefix host "[" && HasSuffix host "]" then ParseIP (strip_ends host) else None) with
      | Some ip => isPrivateIP ip
      | None =>
          match (if index_any host "%"%char && negb (before_last host "%"%char =s "")
                 then ParseIP (before_last host "%"%char) else None) with
          | Some ip => isPrivateIP ip
          | None => false
          end
      end
  end.

Definition allowedGitProtocols : list string := ["https://"; "ssh://"].
Definition allowedGitProtocolsInsecure : list string := ["http://"; "git://"].

(** [insecure] is the value of CUBE_ALLOW_INSECURE_GIT. *)
Definition git_protocol_allowed (insecure url : string) : bool :=
  existsb (HasPrefix url) allowedGitProtocols ||
  (EqualFold insecure "true" && existsb (HasPrefix url) allowedGitProtocolsInsecure).

Definition validateGitURL `{GoRuntime} (insecure url : string) : res string :=
  let url := TrimSpace url in
  reject url =s "" with "git URL cannot be empty" ;;
  reject negb (git_protocol_allowed insecure url) with
    "invalid git URL '" +:+ url +:+ "': only " +:+ Join allowedGitProtocols ", " +:+
    " are allowed (http:// and git:// require CUBE_ALLOW_INSECURE_GIT=true)" ;;
  match Cut url "://" with
  | Some (_, rest) =>
      let hostPart := before rest "/" in
      let hostOnly := before hostPart ":" in
      reject Contains hostPart "@" && Contains (before_last hostPart "@"%char) ":" with
        "git URL with embedded credentials is not allowed" ;;
      reject isPrivateHost hostOnly with
        "git URL points to a private/internal host '" +:+ hostOnly +:+ "' — SSRF protection blocks this" ;;
      Ok url
  | None => Ok url
  end.

(** The digits loop of one dotted part; the accumulator is an [int]. *)
Fixpoint part_value (p : string) (n : Z) : option Z :=
  match p with
  | EmptyString => Some n
  | String c p =>
      if negb (is_digit c) then None else part_value p (wrap64 (wrap64 (n * 10) + digit_val c))
  end.

Definition valid_part (p : string) : option Z :=
  match part_value p 0 with
  | Some n => if (255 <? n)%Z then None else Some n
  | None => None
  end.

Definition isCloudMetadataHost (host : string) : bool :=
  let host := TrimSpace host in
  let host := if Contains host ":" then before host ":" else host in
  if metadata_host host then true else
  match mapM valid_part (Split host "."%char) with
  | Some [o0; o1; _; _] => (o0 =? 169)%Z && (o1 =? 254)%Z
  | _ => false
  end.

Definition validateHostPort (addr : string) : res unit :=
  let addr := TrimSpace addr in
  reject addr =s "" with "address cannot be empty" ;;
  reject negb (Contains addr ":") with "address must be in host:port format" ;;
  let host := before addr ":" in
  reject host =s "" with "host part cannot be empty" ;;
  reject isCloudMetadataHost host with
    "address points to cloud metadata endpoint '" +:+ host +:+ "' — blocked for security" ;;
  reject ContainsAny addr shell_meta with "address contains forbidden characters" ;;
  Ok tt.

(** [url_hostname] is [url.Parse] followed by [Hostname]; [LookupIP] the
    resolver, [None] when resolution fails; [ip_string] prints an address. *)
Definition validateWebhookURL `{GoRuntime} (url_hostname : string -> res string)
    (LookupIP : string -> option (list IP)) (ip_string : IP -> string) (rawURL : string) : res unit :=
  let rawURL := TrimSpace rawURL in
  reject rawURL =s "" with "webhook URL cannot be empty" ;;
  reject negb (HasPrefix rawURL "https://") && negb (HasPrefix rawURL "http://") with
    "webhook URL must start with http:// or https://" ;;
  match url_hostname rawURL with
  | Err e => Err ("invalid webhook URL: " +:+ e)
  | Ok host =>
      reject isPrivateHost host with
        "webhook URL points to private/internal host '" +:+ host +:+ "' — SSRF protection blocks this" ;;
      match LookupIP host with
      | None => Ok tt
      | Some ips =>
          match list_find (fun ip => isPrivateIP ip = true) ips with
          | Some (_, ip) =>
              Err ("webhook URL host '" +:+ host +:+ "' resolves to private IP '" +:+ ip_string ip +:+
                   "' — SSRF protection blocks this")
          | None => Ok tt
          end
      end
  end.

(** ** Directory names from git URLs *)

Definition cont (a : ascii) : bool := (128 <=? code a)%Z && (code a <=? 191)%Z.

(** The number of bytes of the first rune; an invalid byte counts alone. *)
Definition rune_width (s : string) : nat :=
  match s with
  | String a s1 =>
      let x := code a in
      match s1 with
      | String b s2 =>
          let y := code b in
          if ((194 <=? x) && (x <=? 223))%Z && cont b then 2 else
          match s2 with
          | String c s3 =>
              if (((x =? 224) && (160 <=? y) && (y <=? 191)) ||
                  ((225 <=? x) && (x <=? 239) && negb (x =? 237) && (128 <=? y) && (y <=? 191)) ||
                  ((x =? 237) && (128 <=? y) && (y <=? 159)))%Z && cont c then 3 else
              match s3 with
              | String d _ =>
                  if (((x =? 240) && (144 <=? y) && (y <=? 191)) ||
                      ((241 <=? x) && (x <=? 243) && (128 <=? y) && (y <=? 191)) ||
                      ((x =? 244) && (128 <=? y) && (y <=? 143)))%Z && cont c && cont d
                  then 4 else 1
              | EmptyString => 1
              end
          | EmptyString => 1
          end
      | EmptyString => 1
      end
  | EmptyString => 0
  end.

(** Replace every rune outside [a-zA-Z0-9._-] by one dash. *)
Fixpoint replace_unsafe (skip : nat) (s : string) : string :=
  match s with
  | EmptyString => EmptyString
  | String a s1 =>
      match skip with
      | S k => replace_unsafe k s1
      | O => if safe_rest a then String a (replace_unsafe 0 s1)
             else String "-"%char (replace_unsafe (rune_width s - 1) s1)
      end
  end.

Fixpoint trim_right_slash_rev (s : string) : string :=
  match s with
  | String a s1 => if bool_decide (a = "/"%char) then trim_right_slash_rev s1 else s
  | EmptyString => EmptyString
  end.

Definition sanitizeGitURLForName (url : string) : string :=
  let url := String.rev (trim_right_slash_rev (String.rev url)) in
  let parts := Split url "/"%char in
  let name := TrimSuffix (default EmptyString (last parts)) ".git" in
  let name := replace_unsafe 0 name in
  let name := if HasPrefix name "." || HasPrefix name "-" then "app-" +:+ name else name in
  if name =s "" then "unnamed-app" else name.

(** ** Lemmas *)

Lemma bin_start_spec tokens tok :
  tokens !! bin_start tokens = Some tok <->
  exists pre post, tokens = pre ++ tok :: post /\
    Forall (fun t => is_assignment t = true) pre /\ is_assignment tok = false.
Proof.
  induction tokens as [|t tokens IH]; simpl.
  - split; [done|]. intros (pre & post & Heq & _). by destruct pre.
  - destruct (is_assignment t) eqn:Ht; simpl.
    + rewrite IH. split.
      * intros (pre & post & -> & Hpre & Htok). exists (t :: pre), post. auto.
      * intros (pre & post & Heq & Hpre & Htok). destruct pre as [|t' pre]; simplify_eq/=; [congruence|].
        exists pre, post. split; [done|]. split; [|done]. by inversion Hpre.
    + split.
      * intros [= ->]. by exists [], tokens.
      * intros (pre & post & Heq & Hpre & Htok). destruct pre as [|t' pre]; simplify_eq/=; [done|].
        inversion Hpre. congruence.
Qed.

(** Private, loopback, link-local, unspecified and multicast IPv4 ranges. *)
Definition private_v4 (a b c d : Z) : bool :=
  (a =? 127)%Z || (a =? 10)%Z || ((a =? 172) && (16 <=? b) && (b <=? 31))%Z ||
  ((a =? 192) && (b =? 168))%Z || ((a =? 169) && (b =? 254))%Z ||
  ((a =? 0) && (b =? 0) && (c =? 0) && (d =? 0))%Z || ((224 <=? a) && (a <=? 239))%Z.

Lemma land240_16 : forall b, octet b -> (Z.land b 240 =? 16)%Z = ((16 <=? b) && (b <=? 31))%Z.
Proof. all_octets. Qed.

Lemma land240_224 : forall a, octet a -> (Z.land a 240 =? 224)%Z = ((224 <=? a) && (a <=? 239))%Z.
Proof. all_octets. Qed.

Lemma unspecified_v4 a b c d :
  IsUnspecified (v4_mapped [a; b; c; d]) = ((a =? 0) && (b =? 0) && (c =? 0) && (d =? 0))%Z.
Proof.
  unfold IsUnspecified. rewrite (bool_decide_false (v4_mapped _ = replicate 16 0%Z)) by done.
  rewrite orb_false_r. apply eq_iff_eq_true.
  rewrite bool_decide_eq_true, !andb_true_iff, !Z.eqb_eq. split.
  - by intros [= -> -> -> ->].
  - by intros [[[-> ->] ->] ->].
Qed.

Lemma isPrivateIP_v4 a b c d : octet a -> octet b ->
  isPrivateIP (v4_mapped [a; b; c; d]) = private_v4 a b c d.
Proof.
  intros Ha Hb. unfold isPrivateIP.
  rewrite unspecified_v4. unfold IsLoopback, IsPrivate, IsLinkLocalUnicast, IsLinkLocalMulticast, IsMulticast.
  rewrite To4_mapped. cbn [byte_at lookup list_lookup default from_option].
  unfold byte_at. cbn. rewrite land240_16, land240_224 by done. unfold private_v4.
  destruct (a =? 127)%Z, (a =? 10)%Z, (a =? 172)%Z, (16 <=? b)%Z, (b <=? 31)%Z, (a =? 192)%Z,
    (b =? 168)%Z, (a =? 169)%Z, (b =? 254)%Z; cbn; try done;
  destruct (a =? 0)%Z, (b =? 0)%Z, (c =? 0)%Z, (d =? 0)%Z; cbn; try done;
  destruct (Z.eqb_spec a 224) as [->|]; cbn; rewrite ?andb_false_r; try done.
Qed.

Definition quad_char (x : ascii) : bool := is_digit x || (code x =? 46)%Z.

Lemma quad_char_plain x : quad_char x = true -> plain x = true.
Proof.
  unfold quad_char, plain, is_digit, is_7bit, space1.
  rewrite orb_true_iff, !andb_true_iff, negb_true_iff, orb_false_iff, andb_false_iff, !Z.leb_le, !Z.eqb_eq, Z.ltb_lt, Z.eqb_neq, !Z.leb_gt.
  lia.
Qed.

Lemma quad_char_lower x : quad_char x = true -> lower_byte x = x.
Proof.
  unfold quad_char, lower_byte, is_upper, is_digit.
  rewrite orb_true_iff, !andb_true_iff, !Z.leb_le, Z.eqb_eq. intros Hx.
  destruct (65 <=? code x)%Z eqn:H; [|done]. apply Z.leb_le in H. lia.
Qed.

Lemma lower_quad s : str_all quad_char s = true -> lower_ascii s = s.
Proof.
  induction s as [|a s IH]; simpl; [done|]. rewrite andb_true_iff. intros [Ha Hs].
  unfold lower_ascii. simpl. rewrite quad_char_lower by done. f_equal. by apply IH.
Qed.

Lemma ToLower_quad `{GoRuntime} s : str_all quad_char s = true -> ToLower s = s.
Proof.
  intros Hs. unfold ToLower.
  rewrite (str_all_impl quad_char is_7bit s); [by apply lower_quad| |done].
  intros a Ha%quad_char_plain. unfold plain in Ha. by apply andb_true_iff in Ha as [? _].
Qed.

(** No text of digits and dots ends in a letter. *)
Lemma quad_no_suffix s p :
  str_all quad_char s = true -> str_all quad_char p = false -> HasSuffix s p = false.
Proof.
  intros Hs Hp. destruct (HasSuffix s p) eqn:Hsuf; [|done].
  unfold HasSuffix in Hsuf. apply prefix_spec in Hsuf as [t Ht].
  rewrite <- (str_all_rev quad_char s), Ht, str_all_app, str_all_rev, Hp in Hs. done.
Qed.

Lemma quad_ne s p : str_all quad_char s = true -> str_all quad_char p = false -> (s =s p) = false.
Proof. intros Hs Hp. apply bool_decide_eq_false. congruence. Qed.

Lemma isPrivateHost_dotted `{GoRuntime} a b c d : octet a -> octet b -> octet c -> octet d ->
  isPrivateHost (dotted a b c d) = private_v4 a b c d.
Proof.
  intros Ha Hb Hc Hd. pose proof (dotted_chars a b c d Ha Hb Hc Hd) as Hq.
  fold quad_char in Hq. unfold isPrivateHost, metadata_host.
  rewrite (quad_ne _ "metadata.google.internal"), (quad_ne _ "metadata"), !orb_false_r by done.
  rewrite ParseIP_dotted, isPrivateIP_v4 by done.
  case_bool_decide as Hmeta.
  - pose proof (ParseIP_dotted a b c d Ha Hb Hc Hd) as Hp. rewrite Hmeta in Hp.
    vm_compute in Hp. by inversion Hp.
  - rewrite ToLower_quad by done.
    by rewrite quad_ne, quad_no_suffix by done.
Qed.

Lemma dotted_no_byte a b c d x : octet a -> octet b -> octet c -> octet d ->
  quad_char x = false -> index_any (dotted a b c d) x = false.
Proof.
  intros Ha Hb Hc Hd Hx. eapply index_any_all; [|exact Hx]. by apply dotted_chars.
Qed.

Definition git_protocol (proto : string) : Prop :=
  proto ∈ allowedGitProtocols ++ allowedGitProtocolsInsecure.

Lemma Cut_protocol proto rest : git_protocol proto ->
  exists p, Cut (proto +:+ rest) "://" = Some (p, rest).
Proof.
  unfold git_protocol, allowedGitProtocols, allowedGitProtocolsInsecure. cbn [app].
  rewrite !elem_of_cons. intros [->|[->|[->|[->|Hnil]]]]; [..|by apply not_elem_of_nil in Hnil];
    eexists; rewrite !app_cons_str, app_nil_l_str; simpl; by rewrite prefix_nil.
Qed.

(** What follows the address: nothing, a path, or a port and maybe a path. *)
Definition url_tail (tail : string) : Prop :=
  tail = "" \/ (exists p, tail = String "/"%char p) \/ (exists p, tail = String ":"%char p).

Lemma before_cons_other c d p : c <> d ->
  before (String d p) (String c "") = String d (before p (String c "")).
Proof.
  intros Hne. unfold before. cbn [Cut]. simpl.
  destruct (ascii_dec c d) as [->|_]; [done|]. by destruct (Cut p (String c "")) as [[??]|].
Qed.

Lemma before_app_none s c t : index_any s c = false ->
  before (s +:+ t) (String c "") = s +:+ before t (String c "").
Proof.
  unfold index_any, str_any. induction s as [|a s IH]; [done|].
  cbn [str_all]. rewrite negb_andb, negb_involutive. intros [Ha Hs]%orb_false_iff.
  apply bool_decide_eq_false in Ha. rewrite app_cons_str, before_cons_other by done.
  by rewrite IH.
Qed.

Lemma quad_host a b c d tail : octet a -> octet b -> octet c -> octet d -> url_tail tail ->
  before (before (dotted a b c d +:+ tail) "/") ":" = dotted a b c d.
Proof.
  intros Ha Hb Hc Hd Ht.
  assert (index_any (dotted a b c d) "/"%char = false) as H1 by by apply dotted_no_byte.
  assert (index_any (dotted a b c d) ":"%char = false) as H2 by by apply dotted_no_byte.
  rewrite before_app_none by done.
  destruct Ht as [->|[[p ->]|[p ->]]].
  - change (before "" "/") with "". by rewrite app_nil_r_str, before_none.
  - change (String "/"%char p) with (EmptyString +:+ String "/"%char p).
    rewrite (before_app EmptyString "/"%char p) by done. by rewrite app_nil_r_str, before_none.
  - rewrite before_cons_other by done. by rewrite before_app.
Qed.

(** *** Metadata addresses *)

Lemma valid_part_octet : forall n, octet n -> valid_part (pretty n) = Some n.
Proof. all_octets. Qed.

Lemma octet_no_dot n : octet n -> index_any (pretty n) "."%char = false.
Proof. intros Hn. eapply index_any_all; [by apply octet_text_digits|done]. Qed.

Lemma Split_dotted a b c d : octet a -> octet b -> octet c -> octet d ->
  Split (dotted a b c d) "."%char = [pretty a; pretty b; pretty c; pretty d].
Proof.
  intros Ha Hb Hc Hd. unfold dotted. rewrite !Split_app.
  by rewrite !Split_none by (by apply octet_no_dot).
Qed.

Lemma isCloudMetadataHost_link_local c d : octet c -> octet d ->
  isCloudMetadataHost (dotted 169 254 c d) = true.
Proof.
  intros Hc Hd. assert (octet 169 /\ octet 254) as [H1 H2] by (unfold octet; lia).
  assert (str_all plain (dotted 169 254 c d) = true) as Hpl.
  { eapply str_all_impl; [apply quad_char_plain|by apply dotted_chars]. }
  unfold isCloudMetadataHost. rewrite TrimSpace_plain by done.
  rewrite Contains_byte, dotted_no_byte by done. destruct (metadata_host _); [done|].
  rewrite Split_dotted by done. cbn [mapM]. by rewrite !valid_part_octet.
Qed.

(** *** Directory names *)

Lemma replace_unsafe_safe s : forall skip, str_all safe_rest (replace_unsafe skip s) = true.
Proof.
  induction s as [|a s IH]; intros skip; [done|]. cbn [replace_unsafe].
  destruct skip as [|k]; [|apply IH].
  destruct (safe_rest a) eqn:Ha; cbn [str_all]; by rewrite ?Ha, IH.
Qed.

(** *** Paths *)

Lemma foldl_clean_safe rooted stack name :
  name <> "" -> name <> "." -> name <> ".." -> clean_step rooted stack name = name :: stack.
Proof.
  intros H1 H2 H3. unfold clean_step.
  by rewrite !bool_decide_false by done.
Qed.

Lemma Join_snoc l x sep : l <> [] -> Join (l ++ [x]) sep = Join l sep +:+ sep +:+ x.
Proof.
  induction l as [|a l IH]; [done|]. intros _. destruct l as [|b l]; [done|].
  change ((a :: b :: l) ++ [x]) with (a :: ((b :: l) ++ [x])).
  change (Join (a :: (b :: l)) sep) with (a +:+ sep +:+ Join (b :: l) sep).
  change (Join (a :: ((b :: l) ++ [x])) sep) with (a +:+ sep +:+ Join ((b :: l) ++ [x]) sep).
  rewrite IH by done. by rewrite !app_assoc_str.
Qed.

Lemma safe_name_chars name : safeNameRe name = true ->
  str_all safe_rest name = true /\ name <> "" /\ HasPrefix name "." = false /\
  (String.length name <= 64)%nat.
Proof.
  unfold safeNameRe, match_ident. destruct name as [|a s]; [done|].
  rewrite !andb_true_iff, Z.leb_le. intros [[Ha Hs] Hl]. cbn [str_all]. split_and!.
  - apply andb_true_iff. split; [|done]. unfold safe_rest, safe_first in *. by rewrite Ha.
  - done.
  - unfold HasPrefix. rewrite prefix_cons. case_bool_decide as Hd; [|done].
    rewrite <- Hd in Ha. by vm_compute in Ha.
  - simpl. lia.
Qed.

Lemma safe_rest_not_slash : safe_rest "/"%char = false.
Proof. done. Qed.

(** Joining a directory with a safe name stays directly below the directory. *)
Lemma path_join_safe root name : HasPrefix root "/" = true -> Clean root = root -> root <> "/" ->
  safeNameRe name = true -> path_join root name = root +:+ "/" +:+ name.
Proof.
  intros Habs Hclean Hroot Hname.
  destruct (safe_name_chars name Hname) as (Hch & Hne & Hdot & _).
  assert (root <> "") as Hrne by by intros ->.
  unfold path_join. rewrite !bool_decide_false by done.
  assert (index_any name "/"%char = false) as Hnos by by eapply index_any_all.
  assert (HasPrefix (root +:+ "/" +:+ name) "/" = true) as Habs'.
  { unfold HasPrefix in *. apply prefix_spec in Habs as [t ->]. rewrite app_assoc_str. apply prefix_app. }
  unfold Clean in *. rewrite (bool_decide_false (root = "")) in Hclean by done.
  rewrite bool_decide_false by (by destruct root). rewrite Habs, Habs' in *.
  change ("/" +:+ name) with (String "/"%char name).
  rewrite Split_app, (Split_none _ name), foldl_app by done. cbn [foldl].
  rewrite foldl_clean_safe; [|done|by intros ->|by intros ->].
  cbn [rev]. set (st := foldl (clean_step true) [] (Split root "/"%char)) in *.
  assert (rev st <> []) as Hst.
  { intros Hnil. rewrite Hnil in Hclean. cbn [Join] in Hclean. rewrite app_nil_r_str in Hclean. done. }
  rewrite Join_snoc by done. rewrite <- app_assoc_str, Hclean. done.
Qed.

Lemma HasPrefix_slash_split resolved root :
  HasPrefix (resolved +:+ "/") (root +:+ "/") = true ->
  Split root "/"%char `prefix_of` Split resolved "/"%char.
Proof.
  unfold HasPrefix. rewrite prefix_spec. intros [t Ht].
  change (resolved +:+ "/") with (resolved +:+ String "/"%char "") in Ht.
  rewrite app_assoc_str in Ht. change ("/" +:+ t) with (String "/"%char t) in Ht.
  apply (f_equal (fun s => Split s "/"%char)) in Ht. rewrite !Split_app in Ht.
  change (Split "" "/"%char) with [""] in Ht.
  destruct (Split t "/"%char) as [|y l] eqn:Hl using rev_ind; [by apply Split_ne in Hl|].
  rewrite app_assoc in Ht. apply app_inj_tail in Ht as [-> _]. by exists l.
Qed.

(** ** Properties *)

(** [validateCommand] accepts exactly the commands that, after trimming,
    are not empty, contain no denylisted pattern in their lower-cased text,
    and whose first word after leading environment assignments names (by the
    last component of its path, lower-cased) an allowlisted program. *)
Theorem validateCommand_iff `{GoRuntime} extra cmd c :
  validateCommand extra cmd = Ok c <->
  c = TrimSpace cmd /\ c <> "" /\
  (forall pat, pat ∈ execDenylist -> Contains (ToLower c) pat = false) /\
  exists pre tok post, Fields c = pre ++ tok :: post /\
    Forall (fun t => is_assignment t = true) pre /\ is_assignment tok = false /\
    base_command tok ∈ allowlist_with extra.
Proof.
  unfold validateCommand. set (c0 := TrimSpace cmd).
  destruct (bool_decide_reflect (c0 = "")) as [He|Hne].
  { split; [done|]. intros (-> & ? & _). done. }
  destruct (list_find _ execDenylist) as [[i pat]|] eqn:Hfind.
  { apply list_find_Some in Hfind as (Hin & Hpat & _). split; [done|].
    intros (-> & _ & Hno & _). rewrite Hno in Hpat; [done|]. by eapply list_elem_of_lookup_2. }
  apply list_find_None in Hfind. rewrite Forall_forall in Hfind.
  assert (forall pat, pat ∈ execDenylist -> Contains (ToLower c0) pat = false) as Hdeny.
  { intros pat Hpat. apply not_true_is_false. by apply Hfind. }
  destruct (Fields c0 !! bin_start (Fields c0)) as [tok|] eqn:Htok.
  - case_bool_decide as Hin.
    + apply bin_start_spec in Htok as (pre & post & HF & Hpre & Htok).
      split; [intros [= <-]|intros (-> & _); done].
      split_and!; try done. by exists pre, tok, post.
    + split; [done|]. intros (-> & _ & _ & pre & tok' & post & HF & Hpre & Hna & Hin').
      assert (Fields c0 !! bin_start (Fields c0) = Some tok') as Htok'
        by (apply bin_start_spec; eauto). rewrite Htok in Htok'. by simplify_eq.
  - split; [done|]. intros (-> & _ & _ & pre & tok' & post & HF & Hpre & Hna & Hin').
    assert (Fields c0 !! bin_start (Fields c0) = Some tok') as Htok'
      by (apply bin_start_spec; eauto). by rewrite Htok in Htok'.
Qed.

(** For every IPv4 literal the private-host test agrees with the ranges it
    is documented to cover: loopback, RFC 1918, link-local (the metadata
    address included), unspecified and multicast, and nothing else. *)
Theorem isPrivateHost_ipv4 `{GoRuntime} a b c d
  (Ha : octet a) (Hb : octet b) (Hc : octet c) (Hd : octet d) :
  isPrivateHost (dotted a b c d) = private_v4 a b c d.
Proof. by apply isPrivateHost_dotted. Qed.

Lemma isPrivateHost_ipv4_witness :
  dotted 172 20 0 5 = "172.20.0.5" /\
  @isPrivateHost demo_runtime (dotted 172 20 0 5) = private_v4 172 20 0 5.
Proof.
  split; [vm_compute; reflexivity|].
  apply (@isPrivateHost_ipv4 demo_runtime); unfold octet; lia.
Defined.

(** A git URL whose host is a private IPv4 literal, with or without a port
    and whatever the path, is refused under every protocol the server knows. *)
Theorem validateGitURL_blocks_private_ipv4 `{GoRuntime} insecure proto a b c d tail
  (Hproto : git_protocol proto)
  (Ha : octet a) (Hb : octet b) (Hc : octet c) (Hd : octet d)
  (Hpriv : private_v4 a b c d = true) (Htail : url_tail tail)
  (Htrim : TrimSpace (proto +:+ dotted a b c d +:+ tail) = proto +:+ dotted a b c d +:+ tail) :
  is_ok (validateGitURL insecure (proto +:+ dotted a b c d +:+ tail)) = false.
Proof.
  unfold validateGitURL. rewrite Htrim.
  destruct (bool_decide_reflect (proto +:+ dotted a b c d +:+ tail = "")); [done|].
  destruct (git_protocol_allowed _ _); [|done]. cbn [negb].
  destruct (Cut_protocol proto (dotted a b c d +:+ tail) Hproto) as [p ->].
  destruct (Contains _ "@" && _); [done|].
  rewrite quad_host by done. by rewrite isPrivateHost_dotted, Hpriv.
Qed.

Lemma validateGitURL_blocks_private_ipv4_witness :
  is_ok (@validateGitURL demo_runtime "" ("https://" +:+ dotted 10 0 0 5 +:+ ":3000/repo.git")) = false.
Proof.
  apply (@validateGitURL_blocks_private_ipv4 demo_runtime "" "https://" 10 0 0 5 ":3000/repo.git");
    try (unfold octet; lia); try (vm_compute; reflexivity).
  - unfold git_protocol. apply elem_of_app. left. by left.
  - right. right. by exists "3000/repo.git".
Defined.

(** The same test is bypassed by an IPv6 literal in brackets and by a user
    name in front of the host: the host is cut at the first colon, or keeps
    the user, and is then no IP literal any more. *)
Theorem validateGitURL_bypass `{GoRuntime} insecure :
  validateGitURL insecure "https://[::1]/repo" = Ok "https://[::1]/repo" /\
  isPrivateHost "[::1]" = true /\
  validateGitURL insecure "ssh://git@10.0.0.5/repo" = Ok "ssh://git@10.0.0.5/repo" /\
  isPrivateHost "10.0.0.5" = true.
Proof. split_and!; reflexivity. Qed.

(** The encodings the comment on [isPrivateHost] lists as handled, decimal
    and hexadecimal spellings of 127.0.0.1, are not recognised. *)
Theorem isPrivateHost_misses_encodings `{GoRuntime} :
  isPrivateHost "2130706433" = false /\ isPrivateHost "0x7f000001" = false.
Proof. split; reflexivity. Qed.

(** With the default allowlist, which is meant to exclude every shell, a
    shell is still started through [env]. *)
Theorem validateCommand_env_shell `{GoRuntime} :
  validateCommand "" "env sh -c id" = Ok "env sh -c id" /\
  "sh" ∉ execAllowlist /\ "bash" ∉ execAllowlist.
Proof.
  split; [reflexivity|]. split; apply (bool_decide_eq_false_1 _); reflexivity.
Qed.

(** A name accepted by [validateSafeName], joined to a clean absolute
    directory, gives the path directly below that directory: no traversal. *)
Theorem validateSafeName_no_traversal root name n
  (Habs : HasPrefix root "/" = true) (Hclean : Clean root = root) (Hroot : root <> "/")
  (Hname : validateSafeName name = Ok n) :
  n = name /\ path_join root n = root +:+ "/" +:+ name.
Proof.
  unfold validateSafeName in Hname. case_bool_decide; [done|].
  destruct (safeNameRe name) eqn:Hre; [|done]. cbn in Hname. simplify_eq.
  split; [done|]. by apply path_join_safe.
Qed.

Lemma validateSafeName_no_traversal_witness :
  "my.vol-1" = "my.vol-1" /\ path_join "/var/lib/cube-container/volumes" "my.vol-1"
    = "/var/lib/cube-container/volumes" +:+ "/" +:+ "my.vol-1".
Proof.
  apply (validateSafeName_no_traversal "/var/lib/cube-container/volumes" "my.vol-1" "my.vol-1");
    vm_compute; try reflexivity. discriminate.
Defined.

(** A path accepted by [validatePathSafe] resolves to the root or below
    it, component by component: a sibling whose name merely starts like the
    root is refused. *)
Theorem validatePathSafe_contained getwd links path root p
  (Hok : validatePathSafe getwd links path root = Ok p) :
  p = resolvePath getwd links path /\
  Split (resolvePath getwd links root) "/"%char `prefix_of` Split p "/"%char.
Proof.
  unfold validatePathSafe in Hok. destruct (_ && _) eqn:Hc; [done|]. simplify_eq.
  split; [done|]. apply andb_false_iff in Hc as [Hc|Hc]; rewrite negb_false_iff in Hc.
  - by apply HasPrefix_slash_split.
  - apply bool_decide_eq_true in Hc. by rewrite Hc.
Qed.

Lemma validatePathSafe_contained_witness :
  validatePathSafe None (fun _ => None) "/data/app/../vol/x" "/data/vol" = Ok "/data/vol/x" /\
  is_ok (validatePathSafe None (fun _ => None) "/data/vol2" "/data/vol") = false /\
  ("/data/vol/x" = resolvePath None (fun _ => None) "/data/app/../vol/x" /\
   Split (resolvePath None (fun _ => None) "/data/vol") "/"%char
     `prefix_of` Split "/data/vol/x" "/"%char).
Proof.
  split; [vm_compute; reflexivity|]. split; [vm_compute; reflexivity|].
  apply (validatePathSafe_contained None (fun _ => None) "/data/app/../vol/x" "/data/vol").
  vm_compute. reflexivity.
Defined.

(** A directory name derived from a git URL is never empty, contains only
    letters, digits, dots, underscores and dashes (so no separator), and does
    not start with a dot or a dash. *)
Theorem sanitizeGitURLForName_safe url :
  let name := sanitizeGitURLForName url in
  name <> "" /\ str_all safe_rest name = true /\
  HasPrefix name "." = false /\ HasPrefix name "-" = false.
Proof.
  unfold sanitizeGitURLForName. set (n := replace_unsafe 0 _).
  assert (str_all safe_rest n = true) as Hn by apply replace_unsafe_safe.
  clearbody n. cbv zeta. destruct (HasPrefix n "." || HasPrefix n "-") eqn:Hp.
  - by rewrite bool_decide_false by done.
  - apply orb_false_iff in Hp as [Hp1 Hp2]. case_bool_decide; [done|]. done.
Qed.

(** An address in 169.254.0.0/16, the range of the cloud metadata
    services, is refused whatever the port. *)
Theorem validateHostPort_blocks_metadata c d port
  (Hc : octet c) (Hd : octet d)
  (Htrim : TrimSpace (dotted 169 254 c d +:+ ":" +:+ port) = dotted 169 254 c d +:+ ":" +:+ port) :
  is_ok (validateHostPort (dotted 169 254 c d +:+ ":" +:+ port)) = false.
Proof.
  assert (octet 169 /\ octet 254) as [H1 H2] by (unfold octet; lia).
  unfold validateHostPort. rewrite Htrim.
  change (":" +:+ port) with (String ":"%char port).
  case_bool_decide; [done|]. destruct (Contains _ ":"); [|done]. cbn [negb].
  rewrite before_app by (by apply dotted_no_byte).
  case_bool_decide; [done|]. by rewrite isCloudMetadataHost_link_local.
Qed.

Lemma validateHostPort_blocks_metadata_witness :
  is_ok (validateHostPort (dotted 169 254 169 254 +:+ ":" +:+ "80")) = false.
Proof.
  apply (validateHostPort_blocks_metadata 169 254 "80");
    [unfold octet; lia | unfold octet; lia | vm_compute; reflexivity].
Defined.
