(* ===== verification/Rbac.v ===== *)
(** * Roles, permissions and the tool registry (the head of mcp-server-go/auth.go,
    tools_registration.go, metal_tools_registration.go and the registry of
    tools_helpers.go)

    The permission table, the ordering of the roles, the tools the server
    registers with their handlers and parameters (descriptions left out), and
    the map from names to handlers the job scheduler calls through. *)
From S2P Require Import Prelude.

Open Scope string_scope.

(** ** Roles *)

(** [type Role string]: any text can be a role, three have a meaning. *)
Abbreviation Role := string.
Definition RoleViewer : Role := "viewer".
Definition RoleOperator : Role := "operator".
Definition RoleAdmin : Role := "admin".

Definition toolPermissions : list (string * Role) :=
  [("cluster_health", RoleViewer); ("cluster_overview", RoleViewer);
   ("cluster_versions", RoleViewer); ("list_nodes", RoleViewer); ("get_node", RoleViewer);
   ("suggest_node", RoleViewer); ("list_containers", RoleViewer); ("get_container", RoleViewer);
   ("get_container_logs", RoleViewer); ("tail_container_logs", RoleViewer);
   ("list_templates", RoleViewer); ("get_template", RoleViewer); ("list_volumes", RoleViewer);
   ("create_container", RoleOperator); ("create_template", RoleOperator);
   ("pause_container", RoleOperator); ("resume_container", RoleOperator);
   ("kill_container", RoleOperator); ("exec_in_container", RoleOperator);
   ("create_volume", RoleOperator); ("deploy_from_git", RoleOperator);
   ("deploy_from_code", RoleOperator); ("update_code", RoleOperator); ("delete_volume", RoleAdmin);
   ("volume_attach", RoleOperator); ("volume_detach", RoleOperator); ("volume_migrate", RoleAdmin);
   ("volume_info", RoleViewer); ("resource_set_limits", RoleOperator);
   ("resource_get_usage", RoleViewer); ("resource_list_usage", RoleViewer);
   ("resource_quota_summary", RoleViewer); ("gc_prune_images", RoleOperator);
   ("gc_prune_volumes", RoleOperator); ("gc_disk_usage", RoleViewer);
   ("backup_volume", RoleOperator); ("backup_container", RoleOperator);
   ("list_backups", RoleViewer); ("restore_backup", RoleAdmin); ("delete_backup", RoleAdmin);
   ("rollback_deploy", RoleAdmin); ("list_deploy_versions", RoleViewer);
   ("create_route", RoleAdmin); ("delete_route", RoleAdmin); ("list_routes", RoleViewer);
   ("reload_routes", RoleAdmin); ("add_port_mapping", RoleOperator);
   ("remove_port_mapping", RoleAdmin); ("list_port_mappings", RoleViewer);
   ("add_dns_alias", RoleOperator); ("remove_dns_alias", RoleAdmin);
   ("list_dns_aliases", RoleViewer); ("add_network_policy", RoleAdmin);
   ("list_network_policies", RoleViewer); ("remove_network_policy", RoleAdmin);
   ("backend_info", RoleViewer); ("ha_state", RoleViewer); ("node_add", RoleAdmin);
   ("node_update", RoleAdmin); ("node_remove", RoleAdmin); ("node_list", RoleViewer);
   ("node_get", RoleViewer); ("deploy_to_node", RoleOperator); ("service_create", RoleAdmin);
   ("service_remove", RoleAdmin); ("scale_set", RoleOperator); ("service_list", RoleViewer);
   ("service_get", RoleViewer); ("service_register", RoleOperator);
   ("service_deregister", RoleOperator); ("service_resolve", RoleViewer);
   ("service_entries", RoleViewer); ("health_check_set", RoleOperator);
   ("health_check_remove", RoleOperator); ("health_check_list", RoleViewer);
   ("health_check_status", RoleViewer); ("secret_set", RoleAdmin); ("secret_get", RoleOperator);
   ("secret_list", RoleAdmin); ("secret_delete", RoleAdmin); ("alert_rule_add", RoleAdmin);
   ("alert_rule_remove", RoleAdmin); ("alert_list", RoleViewer); ("alert_test", RoleOperator);
   ("configmap_create", RoleAdmin); ("configmap_update", RoleOperator);
   ("configmap_get", RoleViewer); ("configmap_list", RoleViewer); ("configmap_remove", RoleAdmin);
   ("image_build", RoleOperator); ("image_push", RoleAdmin); ("image_pull", RoleOperator);
   ("image_list", RoleViewer); ("image_tag", RoleOperator); ("deploy_rollout", RoleOperator);
   ("logs_search", RoleViewer); ("logs_aggregate", RoleViewer); ("audit_query", RoleViewer);
   ("env_create", RoleAdmin); ("env_list", RoleViewer); ("env_get", RoleViewer);
   ("env_promote", RoleOperator); ("notify_channel_add", RoleAdmin);
   ("notify_channel_list", RoleViewer); ("notify_channel_remove", RoleAdmin);
   ("notify_send", RoleOperator); ("auth_create_token", RoleAdmin);
   ("auth_list_tokens", RoleAdmin); ("auth_revoke_token", RoleAdmin); ("job_create", RoleAdmin);
   ("job_list", RoleViewer); ("job_remove", RoleAdmin); ("job_run", RoleOperator);
   ("metrics_query", RoleViewer); ("database_create", RoleAdmin);
   ("database_backup", RoleOperator); ("database_restore", RoleAdmin); ("cert_list", RoleViewer);
   ("cert_renew", RoleAdmin); ("events_list", RoleViewer); ("events_recent", RoleViewer);
   ("secure_sandbox_create", RoleAdmin); ("secure_sandbox_exec", RoleOperator);
   ("secure_sandbox_egress_add", RoleAdmin); ("secure_sandbox_egress_list", RoleViewer);
   ("secure_sandbox_egress_remove", RoleAdmin); ("secure_sandbox_snapshot", RoleOperator);
   ("secure_sandbox_restore", RoleAdmin); ("secure_sandbox_list", RoleViewer);
   ("vm_list", RoleViewer); ("vm_get", RoleViewer); ("vm_create", RoleAdmin);
   ("vm_start", RoleOperator); ("vm_stop", RoleOperator); ("vm_pause", RoleOperator);
   ("vm_resume", RoleOperator); ("vm_delete", RoleAdmin); ("vm_snapshot_create", RoleOperator);
   ("vm_snapshot_list", RoleViewer); ("vm_snapshot_restore", RoleAdmin);
   ("vm_snapshot_delete", RoleAdmin); ("vm_migrate", RoleAdmin); ("zpool_list", RoleViewer);
   ("zpool_create", RoleAdmin); ("zpool_status", RoleViewer); ("zpool_destroy", RoleAdmin);
   ("zdataset_list", RoleViewer); ("zdataset_create", RoleAdmin); ("zdataset_destroy", RoleAdmin);
   ("zsnapshot_create", RoleOperator); ("zsnapshot_list", RoleViewer);
   ("zsnapshot_destroy", RoleAdmin); ("zsnapshot_clone", RoleOperator);
   ("zsnapshot_rollback", RoleAdmin); ("gpu_list", RoleViewer); ("gpu_stats", RoleViewer);
   ("gpu_assign", RoleAdmin); ("gpu_release", RoleAdmin); ("vm_cloudinit_create", RoleOperator);
   ("vm_template_list", RoleViewer); ("vm_create_from_template", RoleOperator);
   ("totp_enroll", RoleAdmin); ("totp_confirm", RoleAdmin); ("totp_disable", RoleAdmin);
   ("totp_status", RoleAdmin); ("pve_list_vms", RoleViewer); ("pve_get_vm", RoleViewer);
   ("pve_create_vm", RoleAdmin); ("pve_start_vm", RoleOperator); ("pve_stop_vm", RoleOperator);
   ("pve_delete_vm", RoleAdmin); ("pve_migrate_vm", RoleAdmin); ("pve_list_snapshots", RoleViewer);
   ("pve_create_snapshot", RoleOperator); ("pve_restore_snapshot", RoleAdmin);
   ("pve_delete_snapshot", RoleAdmin); ("pve_list_storage", RoleViewer);
   ("pve_list_nodes", RoleViewer); ("node_info", RoleViewer); ("service_status", RoleViewer);
   ("firewall_list", RoleViewer); ("sysctl_get", RoleViewer); ("wireguard_status", RoleViewer);
   ("network_interfaces", RoleViewer); ("file_read", RoleViewer);
   ("service_restart", RoleOperator); ("service_start", RoleOperator);
   ("service_stop", RoleOperator); ("package_install", RoleOperator);
   ("package_update", RoleOperator); ("file_write", RoleOperator);
   ("firewall_add_rule", RoleOperator); ("exec_on_node", RoleOperator);
   ("firewall_delete_rule", RoleAdmin); ("sysctl_set", RoleAdmin)].

(** Indexing the table. *)
Fixpoint assoc {A} (k : string) (l : list (string * A)) : option A :=
  match l with
  | [] => None
  | (k', v) :: l => if k =s k' then Some v else assoc k l
  end.

Definition roleLevel (r : Role) : Z :=
  if r =s RoleAdmin then 3
  else if r =s RoleOperator then 2
  else if r =s RoleViewer then 1
  else 0.

Definition canExecute (role : Role) (toolName : string) : bool :=
  match assoc toolName toolPermissions with
  | None => false
  | Some required => (roleLevel required <=? roleLevel role)%Z
  end.

(** ** Registered tools *)

Inductive param_kind : Type := PString | PNumber | PBoolean | PArray.

Record param : Type := Param { p_name : string; p_kind : param_kind; p_required : bool }.
Definition req (n : string) (k : param_kind) : param := Param n k true.
Definition opt (n : string) (k : param_kind) : param := Param n k false.

Record tool : Type := Tool { t_name : string; t_handler : string; t_params : list param }.

Definition clusterTools : list tool :=
  [Tool "cluster_health" "handleClusterHealth" [];
   Tool "cluster_overview" "handleClusterOverview" [];
   Tool "cluster_versions" "handleClusterVersions" [];
   Tool "list_nodes" "handleListNodes" [];
   Tool "get_node" "handleGetNode" [req "node_id" PString];
   Tool "suggest_node" "handleSuggestNode" [opt "memory_mb" PNumber; opt "cpu_count" PNumber];
   Tool "list_containers" "handleListContainers" [opt "state" PString; opt "limit" PNumber];
   Tool "get_container" "handleGetContainer" [req "container_id" PString];
   Tool "create_container" "handleCreateContainer"
      [req "template_id" PString; opt "memory_mb" PNumber; opt "cpu_count" PNumber;
       opt "configmap" PString];
   Tool "kill_container" "handleKillContainer" [req "container_id" PString];
   Tool "pause_container" "handlePauseContainer" [req "container_id" PString];
   Tool "resume_container" "handleResumeContainer" [req "container_id" PString];
   Tool "get_container_logs" "handleGetContainerLogs"
      [req "container_id" PString; opt "limit" PNumber];
   Tool "tail_container_logs" "handleTailLogs" [req "container_id" PString; opt "limit" PNumber];
   Tool "list_templates" "handleListTemplates" [];
   Tool "create_template" "handleCreateTemplate" [req "image" PString];
   Tool "get_template" "handleGetTemplate" [req "template_id" PString]].

Definition storageTools : list tool :=
  [Tool "deploy_from_git" "handleDeployFromGit"
      [req "git_url" PString; opt "branch" PString; opt "image" PString; opt "start_cmd" PString;
       opt "volume_name" PString; opt "memory_mb" PNumber];
   Tool "deploy_from_code" "handleDeployFromCode" [req "app_name" PString];
   Tool "update_code" "handleUpdateCode"
      [req "container_id" PString; req "git_url" PString; opt "branch" PString];
   Tool "exec_in_container" "handleExecInContainer"
      [req "container_id" PString; req "command" PString; opt "timeout" PNumber];
   Tool "list_volumes" "handleListVolumes" [];
   Tool "create_volume" "handleCreateVolume" [req "name" PString];
   Tool "delete_volume" "handleDeleteVolume" [req "name" PString];
   Tool "volume_attach" "handleVolumeAttach"
      [req "container_id" PString; req "volume_name" PString; req "mount_path" PString];
   Tool "volume_detach" "handleVolumeDetach" [req "container_id" PString; req "volume_name" PString];
   Tool "volume_migrate" "handleVolumeMigrate"
      [req "volume_name" PString; opt "from_node" PString; req "to_node" PString];
   Tool "volume_info" "handleVolumeInfo" [req "volume_name" PString];
   Tool "resource_set_limits" "handleResourceSetLimits"
      [req "container_id" PString; opt "memory_mb" PNumber; opt "cpu_count" PNumber];
   Tool "resource_get_usage" "handleResourceGetUsage" [req "container_id" PString];
   Tool "resource_list_usage" "handleResourceListUsage" [];
   Tool "resource_quota_summary" "handleResourceQuotaSummary" [];
   Tool "gc_prune_images" "handleGCPruneImages" [];
   Tool "gc_prune_volumes" "handleGCPruneVolumes" [];
   Tool "gc_disk_usage" "handleGCDiskUsage" [];
   Tool "backup_volume" "handleBackupVolume" [req "volume_name" PString];
   Tool "backup_container" "handleBackupContainer" [req "container_id" PString];
   Tool "list_backups" "handleListBackups" [];
   Tool "restore_backup" "handleRestoreBackup" [req "backup_id" PString];
   Tool "delete_backup" "handleDeleteBackup" [req "backup_id" PString]].

Definition routingTools : list tool :=
  [Tool "rollback_deploy" "handleRollbackDeploy" [req "app_name" PString];
   Tool "list_deploy_versions" "handleListVersions" [req "app_name" PString];
   Tool "create_route" "handleCreateRoute"
      [req "domain" PString; req "container_id" PString; req "target_port" PNumber;
       opt "path_prefix" PString];
   Tool "delete_route" "handleDeleteRoute" [req "domain" PString];
   Tool "list_routes" "handleListRoutes" [];
   Tool "reload_routes" "handleReloadRoutes" [];
   Tool "add_port_mapping" "handleAddPortMapping"
      [req "container_id" PString; req "host_port" PNumber; req "container_port" PNumber;
       opt "protocol" PString; opt "host_ip" PString];
   Tool "remove_port_mapping" "handleRemovePortMapping" [req "mapping_id" PString];
   Tool "list_port_mappings" "handleListPortMappings" [];
   Tool "add_dns_alias" "handleAddDNSAlias"
      [req "alias" PString; req "container_id" PString; req "target" PString];
   Tool "remove_dns_alias" "handleRemoveDNSAlias" [req "alias" PString];
   Tool "list_dns_aliases" "handleListDNSAliases" [];
   Tool "add_network_policy" "handleAddNetworkPolicy"
      [req "name" PString; opt "source_container" PString; opt "dest_container" PString;
       req "action" PString; opt "protocol" PString; opt "port" PNumber];
   Tool "list_network_policies" "handleListNetworkPolicies" [];
   Tool "remove_network_policy" "handleRemoveNetworkPolicy" [req "policy_id" PString];
   Tool "backend_info" "handleBackendInfo" []].

Definition nodeTools : list tool :=
  [Tool "node_add" "handleNodeAdd"
      [req "id" PString; req "address" PString; opt "backend" PString; opt "hostname" PString;
       opt "memory_mb" PNumber; opt "cpu_cores" PNumber; opt "disk_gb" PNumber];
   Tool "node_update" "handleNodeUpdate" [req "id" PString];
   Tool "node_remove" "handleNodeRemove" [req "id" PString];
   Tool "node_list" "handleNodeList" [];
   Tool "node_get" "handleNodeGet" [req "id" PString];
   Tool "deploy_to_node" "handleDeployToNode"
      [req "node_id" PString; req "template_id" PString; opt "memory_mb" PNumber;
       opt "cpu_count" PNumber];
   Tool "service_create" "handleServiceCreate"
      [req "name" PString; req "template_id" PString; opt "port" PNumber; opt "memory_mb" PNumber;
       opt "cpu_count" PNumber; opt "domain" PString];
   Tool "scale_set" "handleScaleSet" [req "name" PString; req "replicas" PNumber];
   Tool "service_list" "handleServiceList" [];
   Tool "service_get" "handleServiceGet" [req "name" PString];
   Tool "service_remove" "handleServiceRemove" [req "name" PString];
   Tool "service_register" "handleDiscoveryRegister"
      [req "name" PString; req "container_id" PString; opt "host" PString; req "port" PNumber];
   Tool "service_deregister" "handleDiscoveryDeregister" [req "name" PString];
   Tool "service_resolve" "handleDiscoveryResolve" [req "name" PString];
   Tool "service_entries" "handleServiceListEntries" [opt "sync" PString];
   Tool "ha_state" "handleHAState" []].

Definition healthTools : list tool :=
  [Tool "health_check_set" "handleHealthCheckSet"
      [req "container_id" PString; req "type" PString; opt "interval_seconds" PNumber;
       opt "timeout_seconds" PNumber; opt "failure_threshold" PNumber; opt "host" PString;
       opt "http_path" PString; opt "http_port" PNumber; opt "http_scheme" PString;
       opt "tcp_port" PNumber; opt "exec_command" PString];
   Tool "health_check_remove" "handleHealthCheckRemove" [req "container_id" PString];
   Tool "health_check_list" "handleHealthCheckList" [];
   Tool "health_check_status" "handleHealthCheckStatus" [req "container_id" PString];
   Tool "secret_set" "handleSecretSet" [req "name" PString; req "value" PString];
   Tool "secret_get" "handleSecretGet" [req "name" PString];
   Tool "secret_list" "handleSecretList" [];
   Tool "secret_delete" "handleSecretDelete" [req "name" PString];
   Tool "alert_rule_add" "handleAlertRuleAdd"
      [req "id" PString; req "name" PString; req "type" PString; opt "severity" PString;
       opt "threshold" PNumber; opt "container_id" PString; opt "node_id" PString;
       opt "webhook_url" PString; opt "cooldown_sec" PNumber];
   Tool "alert_rule_remove" "handleAlertRuleRemove" [req "id" PString];
   Tool "alert_list" "handleAlertList" [];
   Tool "alert_test" "handleAlertTest" [req "id" PString];
   Tool "configmap_create" "handleConfigMapCreate" [req "name" PString];
   Tool "configmap_update" "handleConfigMapUpdate" [req "name" PString; opt "mode" PString];
   Tool "configmap_get" "handleConfigMapGet" [req "name" PString];
   Tool "configmap_list" "handleConfigMapList" [];
   Tool "configmap_remove" "handleConfigMapRemove" [req "name" PString]].

Definition pipelineTools : list tool :=
  [Tool "image_build" "handleImageBuild"
      [req "context_dir" PString; req "tag" PString; opt "dockerfile" PString];
   Tool "image_push" "handleImagePush" [req "tag" PString; opt "registry" PString];
   Tool "image_pull" "handleImagePull" [req "tag" PString];
   Tool "image_list" "handleImageList" [opt "filter" PString];
   Tool "image_tag" "handleImageTag" [req "source_tag" PString; req "target_tag" PString];
   Tool "deploy_rollout" "handleDeployRollout"
      [req "service_name" PString; req "new_image" PString; opt "strategy" PString;
       opt "health_wait_seconds" PNumber];
   Tool "logs_search" "handleLogsSearch"
      [opt "pattern" PString; opt "level" PString; opt "since_minutes" PNumber;
       opt "max_results" PNumber];
   Tool "logs_aggregate" "handleLogsAggregate" [opt "level" PString];
   Tool "audit_query" "handleAuditQuery"
      [opt "since_hours" PNumber; opt "tool_name" PString; opt "role" PString; opt "limit" PNumber];
   Tool "env_create" "handleEnvCreate" [req "name" PString; opt "description" PString];
   Tool "env_list" "handleEnvList" [];
   Tool "env_get" "handleEnvGet" [req "name" PString];
   Tool "env_promote" "handleEnvPromote"
      [req "source_env" PString; req "target_env" PString; req "container_id" PString]].

Definition operationsTools : list tool :=
  [Tool "notify_channel_add" "handleNotifyChannelAdd"
      [req "name" PString; req "type" PString; opt "webhook_url" PString; opt "bot_token" PString;
       opt "chat_id" PString];
   Tool "notify_channel_list" "handleNotifyChannelList" [];
   Tool "notify_channel_remove" "handleNotifyChannelRemove" [req "channel_id" PString];
   Tool "notify_send" "handleNotifySend"
      [req "channel_id" PString; req "title" PString; req "body" PString; opt "level" PString];
   Tool "auth_create_token" "handleAuthCreateToken" [req "role" PString; opt "label" PString];
   Tool "auth_list_tokens" "handleAuthListTokens" [];
   Tool "auth_revoke_token" "handleAuthRevokeToken" [req "key" PString];
   Tool "job_create" "handleJobCreate"
      [req "name" PString; req "schedule" PString; req "tool" PString];
   Tool "job_list" "handleJobList" [];
   Tool "job_remove" "handleJobRemove" [req "job_id" PString];
   Tool "job_run" "handleJobRun" [req "job_id" PString];
   Tool "metrics_query" "handleMetricsQuery"
      [opt "metric" PString; opt "container" PString; opt "limit" PNumber];
   Tool "database_create" "handleDatabaseCreate"
      [req "name" PString; req "type" PString; opt "version" PString; opt "memory_mb" PNumber];
   Tool "database_backup" "handleDatabaseBackup" [req "database_id" PString];
   Tool "database_restore" "handleDatabaseRestore"
      [req "database_id" PString; req "backup_id" PString];
   Tool "cert_list" "handleCertList" [];
   Tool "cert_renew" "handleCertRenew" [req "domain" PString];
   Tool "events_list" "handleEventsList"
      [opt "event_type" PString; opt "severity" PString; opt "since_minutes" PNumber;
       opt "limit" PNumber];
   Tool "events_recent" "handleEventsRecent" []].

Definition sandboxTools : list tool :=
  [Tool "secure_sandbox_create" "handleSecureSandboxCreate"
      [req "template_id" PString; opt "memory_mb" PNumber; opt "cpu_count" PNumber];
   Tool "secure_sandbox_exec" "handleSecureSandboxExec"
      [req "sandbox_id" PString; req "command" PString; opt "timeout_seconds" PNumber];
   Tool "secure_sandbox_egress_add" "handleSecureSandboxEgressAdd"
      [req "sandbox_id" PString; req "domain" PString; req "action" PString];
   Tool "secure_sandbox_egress_list" "handleSecureSandboxEgressList" [req "sandbox_id" PString];
   Tool "secure_sandbox_egress_remove" "handleSecureSandboxEgressRemove" [req "rule_id" PString];
   Tool "secure_sandbox_snapshot" "handleSecureSandboxSnapshot" [req "sandbox_id" PString];
   Tool "secure_sandbox_restore" "handleSecureSandboxRestore"
      [req "sandbox_id" PString; req "snapshot_id" PString];
   Tool "secure_sandbox_list" "handleSecureSandboxList" [opt "state" PString]].

Definition vmTools : list tool :=
  [Tool "vm_list" "handleVMList" [opt "state" PString];
   Tool "vm_get" "handleVMGet" [req "name" PString];
   Tool "vm_create" "handleVMCreate"
      [req "name" PString; opt "vcpu" PNumber; opt "memory_mb" PNumber; opt "disk_gb" PNumber;
       opt "disk_path" PString; opt "iso_path" PString; opt "network" PString];
   Tool "vm_start" "handleVMStart" [req "name" PString];
   Tool "vm_stop" "handleVMStop" [req "name" PString; opt "force" PString];
   Tool "vm_pause" "handleVMPause" [req "name" PString];
   Tool "vm_resume" "handleVMResume" [req "name" PString];
   Tool "vm_delete" "handleVMDelete" [req "name" PString; opt "remove_disk" PString];
   Tool "vm_snapshot_create" "handleVMSnapshot" [req "name" PString; req "snapshot_name" PString];
   Tool "vm_snapshot_list" "handleVMSnapshotList" [req "name" PString];
   Tool "vm_snapshot_restore" "handleVMSnapshotRestore"
      [req "name" PString; req "snapshot_name" PString];
   Tool "vm_snapshot_delete" "handleVMSnapshotDelete"
      [req "name" PString; req "snapshot_name" PString];
   Tool "vm_migrate" "handleVMMigrate"
      [req "name" PString; req "dest_host" PString; opt "live" PString]].

Definition zfsGpuTools : list tool :=
  [Tool "zpool_list" "handleZPoolList" [];
   Tool "zpool_create" "handleZPoolCreate" [req "name" PString; req "devices" PString];
   Tool "zpool_status" "handleZPoolStatus" [opt "name" PString];
   Tool "zpool_destroy" "handleZPoolDestroy" [req "name" PString];
   Tool "zdataset_list" "handleZDatasetList" [opt "pool" PString];
   Tool "zdataset_create" "handleZDatasetCreate"
      [req "name" PString; opt "compression" PString; opt "recordsize" PString];
   Tool "zdataset_destroy" "handleZDatasetDestroy" [req "name" PString];
   Tool "zsnapshot_create" "handleZSnapshotCreate" [req "dataset" PString; req "name" PString];
   Tool "zsnapshot_list" "handleZSnapshotList" [opt "dataset" PString];
   Tool "zsnapshot_destroy" "handleZSnapshotDestroy" [req "name" PString];
   Tool "zsnapshot_clone" "handleZSnapshotClone" [req "snapshot" PString; req "clone_name" PString];
   Tool "zsnapshot_rollback" "handleZSnapshotRollback" [req "name" PString];
   Tool "gpu_list" "handleGPUList" [];
   Tool "gpu_stats" "handleGPUStats" [opt "pci_address" PString];
   Tool "gpu_assign" "handleGPUAssign" [req "pci_address" PString; req "vm_name" PString];
   Tool "gpu_release" "handleGPURelease" [req "pci_address" PString; req "vm_name" PString];
   Tool "vm_cloudinit_create" "handleVMCloudInitCreate"
      [req "hostname" PString; opt "ssh_keys" PArray; opt "username" PString;
       opt "password" PString; opt "packages" PArray; opt "user_data" PString];
   Tool "vm_template_list" "handleVMTemplateList" [];
   Tool "vm_create_from_template" "handleVMCreateFromTemplate"
      [req "name" PString; req "template_path" PString; opt "seed_iso" PString; opt "vcpu" PNumber;
       opt "memory_mb" PNumber; opt "disk_gb" PNumber]].

Definition totpTools : list tool :=
  [Tool "totp_enroll" "handleTOTPEnroll" [req "key_id" PString; opt "account_name" PString];
   Tool "totp_confirm" "handleTOTPConfirm" [req "key_id" PString; req "code" PString];
   Tool "totp_disable" "handleTOTPDisable" [req "key_id" PString];
   Tool "totp_status" "handleTOTPStatus" [req "key_id" PString]].

Definition proxmoxTools : list tool :=
  [Tool "pve_list_vms" "handlePVEListVMs" [];
   Tool "pve_get_vm" "handlePVEGetVM" [req "vmid" PNumber; opt "node" PString];
   Tool "pve_create_vm" "handlePVECreateVM"
      [req "name" PString; opt "vmid" PNumber; opt "node" PString; opt "memory_mb" PNumber;
       opt "cores" PNumber; opt "disk_gb" PNumber; opt "storage" PString];
   Tool "pve_start_vm" "handlePVEStartVM" [req "vmid" PNumber; opt "node" PString];
   Tool "pve_stop_vm" "handlePVEStopVM" [req "vmid" PNumber; opt "node" PString];
   Tool "pve_delete_vm" "handlePVEDeleteVM" [req "vmid" PNumber; opt "node" PString];
   Tool "pve_migrate_vm" "handlePVEMigrateVM"
      [req "vmid" PNumber; req "node" PString; req "target_node" PString; opt "online" PBoolean];
   Tool "pve_list_snapshots" "handlePVEListSnapshots" [req "vmid" PNumber; opt "node" PString];
   Tool "pve_create_snapshot" "handlePVECreateSnapshot"
      [req "vmid" PNumber; req "name" PString; opt "description" PString; opt "node" PString;
       opt "include_ram" PBoolean];
   Tool "pve_restore_snapshot" "handlePVERestoreSnapshot"
      [req "vmid" PNumber; req "snapshot" PString; opt "node" PString];
   Tool "pve_delete_snapshot" "handlePVEDeleteSnapshot"
      [req "vmid" PNumber; req "snapshot" PString; opt "node" PString];
   Tool "pve_list_storage" "handlePVEListStorage" [];
   Tool "pve_list_nodes" "handlePVEListNodes" []].

Definition registerMetalTools : list tool :=
  [Tool "service_status" "handleServiceStatus" [opt "service" PString];
   Tool "service_restart" "handleServiceRestart" [req "service" PString];
   Tool "service_start" "handleServiceStart" [req "service" PString];
   Tool "service_stop" "handleServiceStop" [req "service" PString];
   Tool "firewall_list" "handleFirewallList" [];
   Tool "firewall_add_rule" "handleFirewallAddRule"
      [req "port" PString; opt "protocol" PString; opt "action" PString; opt "interface" PString;
       opt "chain" PString; opt "table" PString; opt "family" PString];
   Tool "firewall_delete_rule" "handleFirewallDeleteRule" [req "handle" PString];
   Tool "sysctl_get" "handleSysctlGet" [req "key" PString];
   Tool "sysctl_set" "handleSysctlSet" [req "key" PString; req "value" PString];
   Tool "node_info" "handleNodeInfo" [];
   Tool "package_install" "handlePackageInstall" [req "package" PString];
   Tool "package_update" "handlePackageUpdate" [];
   Tool "file_read" "handleFileRead" [req "path" PString; opt "limit" PNumber];
   Tool "file_write" "handleFileWrite" [req "path" PString; req "content" PString];
   Tool "wireguard_status" "handleWireguardStatus" [];
   Tool "network_interfaces" "handleNetworkInterfaces" [];
   Tool "exec_on_node" "handleExecOnNode" [req "node" PString; req "command" PString]].

Definition registerAllTools : list tool :=
  clusterTools ++ storageTools ++ routingTools ++ nodeTools ++ healthTools ++ pipelineTools ++ operationsTools ++
  sandboxTools ++ vmTools ++ zfsGpuTools ++ totpTools ++ proxmoxTools ++ registerMetalTools.

(** [registerTool]: the last handler registered under a name is the one called. *)
Definition registerTool (reg : gmap string string) (t : tool) : gmap string string :=
  <[t_name t := t_handler t]> reg.

Definition toolHandlerRegistry : gmap string string := foldl registerTool ∅ registerAllTools.

(** ** Lemmas *)

Lemma assoc_In {A} k v (l : list (string * A)) : assoc k l = Some v -> (k, v) ∈ l.
Proof.
  induction l as [|[k' v'] l IH]; cbn [assoc]; [done|].
  case_bool_decide as Hk; [intros [= ->]; subst; by constructor|intros H; constructor; auto].
Qed.

Lemma assoc_is_Some {A} k (l : list (string * A)) : is_Some (assoc k l) <-> k ∈ l.*1.
Proof.
  induction l as [|[k' v'] l IH]; cbn [assoc fmap list_fmap fst].
  - split; [by intros [? ?]|by rewrite elem_of_nil].
  - rewrite elem_of_cons. case_bool_decide as Hk; [subst; split; [by left|eauto]|].
    rewrite IH. tauto.
Qed.

Lemma roleLevel_range r : (0 <= roleLevel r <= 3)%Z.
Proof. unfold roleLevel. repeat case_bool_decide; lia. Qed.

Lemma canExecute_mono r1 r2 t :
  (roleLevel r1 <= roleLevel r2)%Z -> canExecute r1 t = true -> canExecute r2 t = true.
Proof.
  unfold canExecute. destruct (assoc t toolPermissions); [|done].
  rewrite !Z.leb_le. lia.
Qed.

(** The required roles of the table are the three roles that exist. *)
Lemma toolPermissions_roles :
  Forall (fun p => (1 <= roleLevel p.2)%Z) toolPermissions.
Proof. apply (bool_decide_unpack _). vm_compute. exact I. Qed.

Lemma required_level t r : assoc t toolPermissions = Some r -> (1 <= roleLevel r)%Z.
Proof.
  intros Hr%assoc_In. pose proof toolPermissions_roles as Hall.
  rewrite Forall_forall in Hall. by apply Hall in Hr.
Qed.

Lemma registered_NoDup : NoDup (t_name <$> registerAllTools).
Proof. apply (bool_decide_unpack _). vm_compute. exact I. Qed.

Lemma registered_iff n : n ∈ (t_name <$> registerAllTools) <-> is_Some (assoc n toolPermissions).
Proof.
  rewrite assoc_is_Some.
  assert (t_name <$> registerAllTools ⊆ toolPermissions.*1) as H1
    by (apply (bool_decide_unpack _); vm_compute; exact I).
  assert (toolPermissions.*1 ⊆ t_name <$> registerAllTools) as H2
    by (apply (bool_decide_unpack _); vm_compute; exact I).
  split; [apply H1|apply H2].
Qed.

(** ** Properties *)

(** The permission table and the registry agree: the tools the server
    registers are distinct and are exactly the tools that have a permission
    entry, so that no registered tool is unreachable for want of an entry and
    no entry names a tool that does not exist; and each name leads to the
    handler it was registered with. *)
Theorem registry_matches_permissions :
  NoDup (t_name <$> registerAllTools) /\
  (forall n, n ∈ (t_name <$> registerAllTools) <-> is_Some (assoc n toolPermissions)) /\
  (forall t, t ∈ registerAllTools -> toolHandlerRegistry !! t_name t = Some (t_handler t)) /\
  length registerAllTools = 195%nat.
Proof.
  split; [apply registered_NoDup|]. split; [apply registered_iff|]. split; [|reflexivity].
  by apply (foldl_insert_lookup t_name t_handler), registered_NoDup.
Qed.

(** Access control is exactly a comparison of levels: a role may run a tool
    iff the tool has an entry and the role ranks at least as high as the entry
    requires; unknown tools are refused to everyone, unknown roles are refused
    everything, and an administrator may run every registered tool. *)
Theorem canExecute_spec role t :
  (canExecute role t = true <->
     exists required, assoc t toolPermissions = Some required /\ (roleLevel required <= roleLevel role)%Z) /\
  (t ∉ (t_name <$> registerAllTools) -> canExecute role t = false) /\
  (role ∉ [RoleViewer; RoleOperator; RoleAdmin] -> canExecute role t = false) /\
  (t ∈ (t_name <$> registerAllTools) -> canExecute RoleAdmin t = true).
Proof.
  rewrite registered_iff. unfold canExecute.
  destruct (assoc t toolPermissions) as [required|] eqn:Hr.
  - apply required_level in Hr. split_and!.
    + rewrite Z.leb_le. naive_solver.
    + intros []. eauto.
    + rewrite !not_elem_of_cons. intros (Hv & Ho & Ha & _). apply Z.leb_gt.
      unfold roleLevel at 1. rewrite !bool_decide_false by done. lia.
    + intros _. apply Z.leb_le. pose proof (roleLevel_range required).
      change (roleLevel RoleAdmin) with 3%Z. lia.
  - split_and!; [naive_solver|done|done|by intros [? ?]].
Qed.
