(* ===== verification/RateLimiter.v ===== *)
(** * Sliding-window rate limiter (mcp-server-go/auth.go, [rateLimiter])

    The limiter keeps, per key, the instants of the requests it let through
    and drops the ones that left the window.  The specification keeps the
    whole history of accepted requests and counts the ones in the window; the
    refinement theorem says the limiter, with its pruning and its periodic
    sweep, takes the same decisions.  From the specification follows the bound
    that makes the limiter worth having: no window ever holds more than
    [limit] accepted requests of one key. *)
From S2P Require Import Prelude.

Open Scope Z_scope.

(** ** The limiter *)

Record rateLimiter : Type := RateLimiter {
  requests : gmap string (list Z);
  limit : Z;
  window : Z;
  lastCleanup : Z;
}.

Definition newRateLimiter (lim win : Z) : rateLimiter :=
  {| requests := ∅; limit := lim; window := win; lastCleanup := time_zero |}.

Definition rateLimiterCleanupInterval : Z := 5 * minute.

(** The loop that keeps the instants after [cutoff], in order. *)
Definition recent (cutoff : Z) (ts : list Z) : list Z :=
  filter (fun t => time_after t cutoff = true) ts.

(** The first call only records the time; it never sweeps. *)
Definition cleanupDue (rl : rateLimiter) (now : Z) : bool * rateLimiter :=
  if time_is_zero (lastCleanup rl) then
    (false, {| requests := requests rl; limit := limit rl; window := window rl;
               lastCleanup := now |})
  else (rateLimiterCleanupInterval <=? time_sub now (lastCleanup rl), rl).

(** [now2] is the second clock reading, the one [cleanupLocked] takes itself. *)
Definition cleanupLocked (rl : rateLimiter) (cutoff now2 : Z) : rateLimiter :=
  {| requests := omap (fun ts => match recent cutoff ts with
                                 | [] => None
                                 | r => Some r
                                 end) (requests rl);
     limit := limit rl;
     window := window rl;
     lastCleanup := now2 |}.

Definition set_requests (rl : rateLimiter) (key : string) (ts : list Z) : rateLimiter :=
  {| requests := <[key := ts]> (requests rl); limit := limit rl; window := window rl;
     lastCleanup := lastCleanup rl |}.

Definition Allow (rl : rateLimiter) (key : string) (now now2 : Z) : bool * rateLimiter :=
  let cutoff := now - window rl in
  let '(due, rl) := cleanupDue rl now in
  let rl := if due then cleanupLocked rl cutoff now2 else rl in
  let r := recent cutoff (default [] (requests rl !! key)) in
  if limit rl <=? Z.of_nat (length r)
  then (false, set_requests rl key r)
  else (true, set_requests rl key (r ++ [now])).

(** A sequence of calls: key, first and second clock reading. *)
Record call : Type := Call { c_key : string; c_now : Z; c_now2 : Z }.

Fixpoint run (rl : rateLimiter) (cs : list call) : list bool * rateLimiter :=
  match cs with
  | [] => ([], rl)
  | c :: cs =>
      let '(ok, rl) := Allow rl (c_key c) (c_now c) (c_now2 c) in
      let '(oks, rl) := run rl cs in
      (ok :: oks, rl)
  end.

(** ** The specification: a history of accepted requests *)

Definition accepted (key : string) (h : list (string * Z)) : list Z :=
  snd <$> filter (fun p => p.1 = key) h.

(** Instants of [key] in the half-open window [(hi - win, hi]]. *)
Definition in_window (win hi t : Z) : Prop := hi - win < t /\ t <= hi.

#[global] Instance in_window_dec win hi t : Decision (in_window win hi t).
Proof. unfold in_window. apply _. Defined.

Definition window_count (win hi : Z) (key : string) (h : list (string * Z)) : Z :=
  Z.of_nat (length (filter (in_window win hi) (accepted key h))).

Definition spec_allow (lim win : Z) (h : list (string * Z)) (key : string) (now : Z)
  : bool * list (string * Z) :=
  if window_count win now key h <? lim then (true, h ++ [(key, now)]) else (false, h).

Fixpoint spec_run (lim win : Z) (h : list (string * Z)) (cs : list call)
  : list bool * list (string * Z) :=
  match cs with
  | [] => ([], h)
  | c :: cs =>
      let '(ok, h) := spec_allow lim win h (c_key c) (c_now c) in
      let '(oks, h) := spec_run lim win h cs in
      (ok :: oks, h)
  end.

(** The requests a run let through, as key and instant. *)
Fixpoint granted (cs : list call) (oks : list bool) : list (string * Z) :=
  match cs, oks with
  | c :: cs, ok :: oks =>
      if ok then (c_key c, c_now c) :: granted cs oks else granted cs oks
  | _, _ => []
  end.

(** The clock does not run backwards from one call to the next. *)
Definition monotone (t0 : Z) (cs : list call) : Prop :=
  StronglySorted Z.le (t0 :: (c_now <$> cs)).

(** ** The simulation relation: from the last clock reading on, limiter and
    history hold the same instants of every key that a window can still see. *)
Definition simulates (rl : rateLimiter) (h : list (string * Z)) (t : Z) : Prop :=
  (forall key c, t - window rl <= c ->
     recent c (default [] (requests rl !! key)) = recent c (accepted key h)) /\
  Forall (fun p => p.2 <= t) h.

(** ** Lemmas *)

Lemma recent_recent c c' ts : c' <= c -> recent c (recent c' ts) = recent c ts.
Proof.
  intros Hc. unfold recent. apply list_filter_filter_l.
  unfold time_after. intros t. rewrite !Z.ltb_lt. lia.
Qed.

Lemma recent_app c ts us : recent c (ts ++ us) = recent c ts ++ recent c us.
Proof. apply filter_app. Qed.

Lemma accepted_app key h h' : accepted key (h ++ h') = accepted key h ++ accepted key h'.
Proof. unfold accepted. by rewrite filter_app, fmap_app. Qed.

Lemma accepted_snoc_eq key t h : accepted key (h ++ [(key, t)]) = accepted key h ++ [t].
Proof. rewrite accepted_app. unfold accepted at 2. by rewrite filter_cons_True by done. Qed.

Lemma accepted_snoc_ne key key' t h :
  key' <> key -> accepted key (h ++ [(key', t)]) = accepted key h.
Proof.
  intros Hne. rewrite accepted_app. unfold accepted at 2.
  rewrite filter_cons_False by done. by rewrite app_nil_r.
Qed.

Lemma accepted_le key h t : Forall (fun p => p.2 <= t) h -> Forall (fun u => u <= t) (accepted key h).
Proof.
  intros Hh. unfold accepted. by apply Forall_fmap, Forall_filter_keep.
Qed.

Lemma recent_window c ts t win :
  c = t - win -> Forall (fun u => u <= t) ts -> recent c ts = filter (in_window win t) ts.
Proof.
  intros -> Hle. unfold recent.
  apply filter_ext_Forall. eapply Forall_impl; [exact Hle|].
  intros u. cbv beta. unfold time_after, in_window. rewrite Z.ltb_lt. lia.
Qed.

Lemma default_omap_recent cutoff (m : gmap string (list Z)) key :
  default [] (omap (fun ts => match recent cutoff ts with
                              | [] => None
                              | r => Some r
                              end) m !! key) = recent cutoff (default [] (m !! key)).
Proof.
  rewrite lookup_omap. destruct (m !! key) as [ts|]; simpl; [|done].
  by destruct (recent cutoff ts).
Qed.

(** Sweeping and the due test do not lose an instant a later window can see. *)
Lemma cleanup_simulates rl h t now due rl' now2 :
  simulates rl h t -> t <= now -> cleanupDue rl now = (due, rl') ->
  let rl'' := if due then cleanupLocked rl' (now - window rl) now2 else rl' in
  simulates rl'' h now /\ window rl'' = window rl /\ limit rl'' = limit rl.
Proof.
  intros [Hsim Hh] Ht Hdue.
  assert (requests rl' = requests rl /\ window rl' = window rl /\ limit rl' = limit rl)
    as (Hr & Hw & Hl) by (unfold cleanupDue in Hdue; case_match; by simplify_eq).
  assert (Forall (fun p => p.2 <= now) h) as Hh'.
  { eapply Forall_impl; [exact Hh|]. simpl. lia. }
  split; [|by destruct due].
  split; [|done]. intros key c Hc.
  destruct due; simpl in Hc |- *; rewrite Hw in Hc.
  - rewrite default_omap_recent, recent_recent, Hr by lia. apply Hsim. lia.
  - rewrite Hr. apply Hsim. lia.
Qed.

Lemma Allow_spec rl h t key now now2 ok rl' :
  simulates rl h t -> t <= now -> Allow rl key now now2 = (ok, rl') ->
  exists h', spec_allow (limit rl) (window rl) h key now = (ok, h') /\
    simulates rl' h' now /\ window rl' = window rl /\ limit rl' = limit rl.
Proof.
  intros Hsim Ht. unfold Allow.
  destruct (cleanupDue rl now) as [due rl0] eqn:Hdue.
  destruct (cleanup_simulates _ _ _ _ _ _ now2 Hsim Ht Hdue) as ([Hs Hh] & Hw & Hl).
  set (rl1 := if due then cleanupLocked rl0 (now - window rl) now2 else rl0) in *.
  assert (recent (now - window rl) (default [] (requests rl1 !! key))
          = filter (in_window (window rl) now) (accepted key h)) as Hrec.
  { rewrite Hs by (rewrite Hw; lia). apply recent_window; [done|]. by apply accepted_le. }
  unfold spec_allow, window_count. rewrite Hrec, Hl, Z.leb_antisym.
  destruct (Z.of_nat _ <? limit rl) eqn:Hlt; simpl; intros [= <- <-]; eexists; (split; [done|]);
    simpl; rewrite Hw, Hl; (split; [|done]); split; simpl.
  - intros k c Hc. rewrite Hw in Hc. destruct (decide (k = key)) as [->|Hne].
    + rewrite lookup_insert_eq. simpl. rewrite accepted_snoc_eq, !recent_app. f_equal.
      rewrite <- Hrec, recent_recent by lia. apply Hs. rewrite Hw. lia.
    + rewrite lookup_insert_ne, accepted_snoc_ne by done. apply Hs. rewrite Hw. lia.
  - apply Forall_app. split; [done|]. by constructor.
  - intros k c Hc. rewrite Hw in Hc. destruct (decide (k = key)) as [->|Hne].
    + rewrite lookup_insert_eq. simpl. rewrite <- Hrec, recent_recent by lia.
      apply Hs. rewrite Hw. lia.
    + rewrite lookup_insert_ne by done. apply Hs. rewrite Hw. lia.
  - done.
Qed.

Lemma run_spec cs : forall rl h t,
  simulates rl h t -> monotone t cs ->
  (run rl cs).1 = (spec_run (limit rl) (window rl) h cs).1.
Proof.
  induction cs as [|c cs IH]; intros rl h t Hsim Hmono; simpl; [done|].
  unfold monotone in Hmono. simpl in Hmono.
  apply StronglySorted_inv in Hmono as [Hmono Hle]. apply Forall_cons in Hle as [Hle _].
  destruct (Allow rl (c_key c) (c_now c) (c_now2 c)) as [ok rl'] eqn:Hallow.
  destruct (Allow_spec _ _ _ _ _ _ _ _ Hsim Hle Hallow) as (h' & Hspec & Hsim' & Hw & Hl).
  rewrite Hspec. specialize (IH _ _ _ Hsim' Hmono). rewrite Hw, Hl in IH.
  destruct (run rl' cs), (spec_run (limit rl) (window rl) h' cs). simpl in *. by rewrite IH.
Qed.

Lemma simulates_new lim win t : simulates (newRateLimiter lim win) [] t.
Proof. split; [|done]. intros key c _. simpl. by rewrite lookup_empty. Qed.

(** One more accepted request keeps every window within the limit. *)
Lemma window_count_snoc lim win h key now x key' :
  Forall (fun p => p.2 <= now) h ->
  (forall y k, window_count win y k h <= lim) ->
  window_count win now key h < lim ->
  window_count win x key' (h ++ [(key, now)]) <= lim.
Proof.
  intros Hh Hall Hlt. unfold window_count. destruct (decide (key' = key)) as [->|Hne].
  - rewrite accepted_snoc_eq, filter_app, length_app.
    destruct (decide (in_window win x now)) as [Hin|Hout].
    + assert (length (filter (in_window win x) (accepted key h))
              <= length (filter (in_window win now) (accepted key h)))%nat.
      { apply length_filter_mono. eapply Forall_impl; [by apply accepted_le|].
        unfold in_window in *. simpl. lia. }
      rewrite filter_cons_True by done. simpl. unfold window_count in Hlt. lia.
    + rewrite filter_cons_False by done. simpl. specialize (Hall x key). unfold window_count in Hall. lia.
  - rewrite accepted_snoc_ne by done. apply Hall.
Qed.

Lemma spec_run_window lim win cs : forall h t,
  Forall (fun p => p.2 <= t) h -> monotone t cs ->
  (forall y k, window_count win y k h <= lim) ->
  forall y k, window_count win y k (spec_run lim win h cs).2 <= lim.
Proof.
  induction cs as [|c cs IH]; intros h t Hh Hmono Hall y k; simpl; [done|].
  unfold monotone in Hmono. simpl in Hmono.
  apply StronglySorted_inv in Hmono as [Hmono Hle]. apply Forall_cons in Hle as [Hle _].
  assert (Forall (fun p => p.2 <= c_now c) h) as Hh'.
  { eapply Forall_impl; [exact Hh|]. simpl. lia. }
  unfold spec_allow. destruct (window_count win (c_now c) (c_key c) h <? lim) eqn:Hlt.
  - apply Z.ltb_lt in Hlt.
    specialize (IH (h ++ [(c_key c, c_now c)]) (c_now c)).
    destruct (spec_run lim win (h ++ [(c_key c, c_now c)]) cs). apply IH; [|done|].
    + apply Forall_app. split; [done|]. by constructor.
    + intros y' k'. by apply window_count_snoc.
  - specialize (IH h (c_now c) Hh' Hmono Hall y k).
    destruct (spec_run lim win h cs). done.
Qed.

Lemma spec_run_granted lim win cs : forall h,
  (spec_run lim win h cs).2 = h ++ granted cs (spec_run lim win h cs).1.
Proof.
  induction cs as [|c cs IH]; intros h; simpl; [by rewrite app_nil_r|].
  unfold spec_allow. destruct (_ <? lim).
  - specialize (IH (h ++ [(c_key c, c_now c)])).
    destruct (spec_run lim win (h ++ [(c_key c, c_now c)]) cs). simpl in *.
    by rewrite IH, <- app_assoc.
  - specialize (IH h). by destruct (spec_run lim win h cs).
Qed.

Lemma length_recent_le c ts : (length (recent c ts) <= length ts)%nat.
Proof. apply length_filter. Qed.

(** Slices stay within the limit: the limiter's memory per key is bounded. *)
Definition slices_bounded (rl : rateLimiter) : Prop :=
  map_Forall (fun _ ts => Z.of_nat (length ts) <= Z.max 0 (limit rl)) (requests rl).

Lemma Allow_slices rl key now now2 :
  slices_bounded rl -> slices_bounded (Allow rl key now now2).2.
Proof.
  intros Hb. unfold Allow. destruct (cleanupDue rl now) as [due rl0] eqn:Hdue.
  assert (requests rl0 = requests rl /\ limit rl0 = limit rl) as [Hr Hl]
    by (unfold cleanupDue in Hdue; case_match; by simplify_eq).
  set (rl1 := if due then _ else _).
  assert (slices_bounded rl1 /\ limit rl1 = limit rl) as [Hb1 Hl1].
  { unfold slices_bounded, rl1. destruct due; simpl.
    - split; [|done]. intros k ts. simpl. rewrite lookup_omap, Hr.
      destruct (requests rl !! k) as [us|] eqn:Hk; simpl; [|done].
      specialize (Hb _ _ Hk). simpl in Hb.
      pose proof (length_recent_le (now - window rl) us).
      destruct (recent _ us) eqn:Hrec; [done|]. intros [= <-]. rewrite Hl. lia.
    - by rewrite Hr, Hl. }
  set (r := recent (now - window rl) (default [] (requests rl1 !! key))).
  assert (Z.of_nat (length r) <= Z.max 0 (limit rl1)) as Hlen.
  { assert (length r <= length (default [] (requests rl1 !! key)))%nat as Hlr
      by apply length_recent_le. clearbody r.
    destruct (requests rl1 !! key) as [us|] eqn:Hk; simpl in Hlr; [|lia].
    specialize (Hb1 _ _ Hk). simpl in Hb1. lia. }
  destruct (limit rl1 <=? Z.of_nat (length r)) eqn:Hle; simpl;
    apply map_Forall_insert_2; simpl; try done.
  apply Z.leb_gt in Hle. rewrite length_app. simpl. lia.
Qed.

(** ** Properties *)

(** C13: on every sequence of calls with a clock that does not run backwards,
    a fresh limiter answers exactly as the sliding-window specification: it
    lets a request through if and only if fewer than [limit] requests of the
    same key were let through in the half-open window that ends now. *)
Theorem allow_refines_window lim win t0 cs (Hmono : monotone t0 cs) :
  (run (newRateLimiter lim win) cs).1 = (spec_run lim win [] cs).1.
Proof. by apply (run_spec cs _ [] t0 (simulates_new lim win t0)). Qed.

Definition demo_calls : list call :=
  [Call "k" 10 10; Call "k" 11 11; Call "k" 12 12; Call "j" 12 12; Call "k" 21 21].

Lemma allow_refines_window_witness :
  (run (newRateLimiter 2 10) demo_calls).1 = [true; true; false; true; true] /\
  (run (newRateLimiter 2 10) demo_calls).1 = (spec_run 2 10 [] demo_calls).1.
Proof.
  split; [vm_compute; reflexivity|].
  apply (allow_refines_window 2 10 0 demo_calls).
  unfold monotone. repeat constructor; simpl; lia.
Defined.

(** The bound the limiter promises.  Whatever the calls, no window of
    length [win], wherever it is placed, contains more than [lim] requests of
    one key that the limiter let through. *)
Theorem allow_window_bound lim win t0 cs hi key
  (Hlim : 0 <= lim) (Hmono : monotone t0 cs) :
  window_count win hi key (granted cs (run (newRateLimiter lim win) cs).1) <= lim.
Proof.
  rewrite (run_spec cs _ [] t0 (simulates_new lim win t0)) by done. simpl.
  pose proof (spec_run_granted lim win cs []) as Hg. simpl in Hg. rewrite <- Hg.
  apply (spec_run_window lim win cs [] t0); [done|done|].
  intros y k. unfold window_count. simpl. lia.
Qed.

Lemma allow_window_bound_witness :
  window_count 10 12 "k" (granted demo_calls (run (newRateLimiter 2 10) demo_calls).1) = 2 /\
  window_count 10 12 "k" (granted demo_calls (run (newRateLimiter 2 10) demo_calls).1) <= 2.
Proof.
  split; [vm_compute; reflexivity|].
  apply (allow_window_bound 2 10 0 demo_calls 12 "k"); [lia|].
  unfold monotone. repeat constructor; simpl; lia.
Defined.

(** The limiter's memory per key is bounded on every reachable state: no
    slice it stores is longer than the limit. *)
Theorem run_slices_bounded lim win cs :
  slices_bounded (run (newRateLimiter lim win) cs).2.
Proof.
  assert (forall rl, slices_bounded rl -> slices_bounded (run rl cs).2) as Hrun.
  { induction cs as [|c cs IH]; intros rl Hb; simpl; [done|].
    pose proof (Allow_slices rl (c_key c) (c_now c) (c_now2 c) Hb) as Hb'.
    destruct (Allow rl _ _ _) as [ok rl']. specialize (IH rl' Hb').
    by destruct (run rl' cs). }
  apply Hrun, map_Forall_empty.
Qed.
