(* ===== verification/Totp.v ===== *)
(** * TOTP second factor (mcp-server-go/totp.go)

    The store of secrets and of the last accepted counter per key, code
    generation (RFC 4226 and 6238) and verification with clock skew and
    replay prevention.  The clock and the random bytes are arguments. *)
From S2P Require Import Prelude GoStrings Crypto.
From Stdlib Require Import Ascii.

Open Scope Z_scope.

Definition totpPeriod : Z := 30.
Definition totpDigits : Z := 6.
Definition totpSkew : Z := 1.
Definition totpIssuer : string := "CubeContainer".

Record TOTPStore : Type := TotpStore {
  secrets : gmap string bytes;
  lastCounter : gmap string Z;
}.

Definition newTOTPStore : TOTPStore := {| secrets := ∅; lastCounter := ∅ |}.

(** [%06d] of a non-negative number. *)
Definition fmt06 (n : Z) : string :=
  let s := pretty n in
  String.string_of_list_ascii (replicate (6 - String.length s) "0"%char) +:+ s.

(** ** Code generation *)

(** Dynamic truncation of an HMAC value. *)
Definition truncate_at (hash : bytes) (offset : nat) : Z :=
  Z.lor (Z.lor (Z.lor (Z.shiftl (Z.land (hash !!! offset) 127) 24)
                      (Z.shiftl (Z.land (hash !!! (offset + 1)%nat) 255) 16))
               (Z.shiftl (Z.land (hash !!! (offset + 2)%nat) 255) 8))
        (Z.land (hash !!! (offset + 3)%nat) 255).

Definition truncate_offset (hash : bytes) : nat :=
  Z.to_nat (Z.land (hash !!! (length hash - 1)%nat) 15).

Definition generateTOTP `{Crypto} (secret : bytes) (counter : Z) : Z :=
  let buf := be64 (counter mod 2 ^ 64) in
  let hash := hmac_sha1 secret buf in
  let offset := truncate_offset hash in
  truncate_at hash offset mod 1000000.

Definition currentTOTPCode `{Crypto} (secret : bytes) (now : Z) : string :=
  fmt06 (generateTOTP secret (Z.quot (time_unix now) totpPeriod)).

(** ** Scanning a code: [fmt.Sscanf(code, "%06d", &codeInt)]

    Leading blanks are skipped (a newline is an error), then at most six
    characters are read: an optional sign and digits.  What follows is not
    looked at. *)
Fixpoint scan_skip (s : string) : option string :=
  match s with
  | EmptyString => None
  | String a s1 =>
      if code a =? 10 then None else
      match s1 with
      | String b s2 =>
          if (code a =? 13) && (code b =? 10) then None else
          if space1 a then scan_skip s1 else
          if space2 a b then scan_skip s2 else
          match s2 with
          | String c s3 => if space3 a b c then scan_skip s3 else Some s
          | EmptyString => Some s
          end
      | EmptyString => if space1 a then None else Some s
      end
  end.

Fixpoint scan_digits (width : nat) (s : string) (acc : Z) : Z :=
  match width, s with
  | S width, String a s => if is_digit a then scan_digits width s (acc * 10 + digit_val a) else acc
  | _, _ => acc
  end.

(** At least one digit, the sign counting towards the width. *)
Definition scan_unsigned (width : nat) (s : string) : option Z :=
  match s with
  | String a _ => if is_digit a then Some (scan_digits width s 0) else None
  | EmptyString => None
  end.

Definition scan_code (code_ : string) : option Z :=
  match scan_skip code_ with
  | Some (String a s) =>
      if code a =? 45 then Z.opp <$> scan_unsigned 5 s
      else if code a =? 43 then scan_unsigned 5 s
      else scan_unsigned 6 (String a s)
  | _ => None
  end.

(** ** Store operations *)

Definition Enroll (ts : TOTPStore) (keyID accountName : string) (raw : bytes)
  : (string * string) * TOTPStore :=
  let secretB32 := base32_encode raw in
  let label := totpIssuer +:+ ":" +:+ accountName in
  let otpauthURL :=
    "otpauth://totp/" +:+ label +:+ "?secret=" +:+ secretB32 +:+ "&issuer=" +:+ totpIssuer +:+
    "&algorithm=SHA1&digits=" +:+ pretty totpDigits +:+ "&period=" +:+ pretty totpPeriod in
  ((secretB32, otpauthURL),
   {| secrets := <[keyID := raw]> (secrets ts); lastCounter := lastCounter ts |}).

(** The loop over the skews that are left. *)
Fixpoint verify_loop `{Crypto} (ts : TOTPStore) (keyID : string) (secret : bytes)
    (codeInt base : Z) (skews : list Z) : bool * TOTPStore :=
  match skews with
  | [] => (false, ts)
  | skew :: skews =>
      let counter := base + skew in
      if fmt06 (generateTOTP secret counter) =s fmt06 codeInt then
        if counter <=? default 0 (lastCounter ts !! keyID) then (false, ts)
        else (true, {| secrets := secrets ts;
                       lastCounter := <[keyID := counter]> (lastCounter ts) |})
      else verify_loop ts keyID secret codeInt base skews
  end.

Definition Verify `{Crypto} (ts : TOTPStore) (keyID code_ : string) (now : Z) : bool * TOTPStore :=
  match secrets ts !! keyID with
  | None => (false, ts)
  | Some secret =>
      match scan_code code_ with
      | None => (false, ts)
      | Some codeInt =>
          if (codeInt <? 0) || (1000000 <=? codeInt) then (false, ts)
          else verify_loop ts keyID secret codeInt (Z.quot (time_unix now) totpPeriod)
                 [- totpSkew; 0; totpSkew]
      end
  end.

Definition Remove (ts : TOTPStore) (keyID : string) : TOTPStore :=
  {| secrets := delete keyID (secrets ts); lastCounter := delete keyID (lastCounter ts) |}.

Definition HasTOTP (ts : TOTPStore) (keyID : string) : bool :=
  match secrets ts !! keyID with Some _ => true | None => false end.

(** ** Tools that ask for a confirmation *)

Definition totpRequiredTools : list string :=
  ["delete_volume"; "vm_delete"; "restore_backup"; "delete_backup"; "zpool_destroy";
   "zdataset_destroy"; "zsnapshot_rollback"; "rollback_deploy"; "secure_sandbox_restore";
   "remove_network_policy"; "node_remove"; "service_remove"].

Definition IsTOTPRequired (toolName : string) : bool := bool_decide (toolName ∈ totpRequiredTools).

(** ** Account names in the enrolment URL *)

Fixpoint str_filter (p : ascii -> bool) (s : string) : string :=
  match s with
  | EmptyString => EmptyString
  | String a s => if p a then String a (str_filter p s) else str_filter p s
  end.

(** [strings.ReplaceAll(s, c, "")] *)
Definition remove_byte (c : ascii) (s : string) : string := str_filter (fun a => negb (bool_decide (a = c))) s.

Definition sanitizeAccountName (name : string) : string :=
  let name := remove_byte ":"%char name in
  let name := remove_byte "?"%char name in
  let name := remove_byte "&"%char name in
  let name := remove_byte "="%char name in
  let name := TrimSpace name in
  if name =s "" then "admin" else name.

(** A history of verification attempts against one store. *)
Record attempt : Type := Attempt { at_key : string; at_code : string; at_now : Z }.

Fixpoint verify_all `{Crypto} (ts : TOTPStore) (l : list attempt) : list bool * TOTPStore :=
  match l with
  | [] => ([], ts)
  | a :: l =>
      let '(ok, ts) := Verify ts (at_key a) (at_code a) (at_now a) in
      let '(oks, ts) := verify_all ts l in
      (ok :: oks, ts)
  end.

(** ** Lemmas *)

Definition code_range (n : Z) : Prop := 0 <= n < 1000000.

Lemma zeros_digits k s acc :
  str_all is_digit (String.string_of_list_ascii (replicate k "0"%char) +:+ s) = str_all is_digit s /\
  (acc = 0 -> dec_value (String.string_of_list_ascii (replicate k "0"%char) +:+ s) acc = dec_value s acc) /\
  String.length (String.string_of_list_ascii (replicate k "0"%char) +:+ s) = (k + String.length s)%nat.
Proof.
  induction k as [|k (IH1 & IH2 & IH3)]; [done|].
  cbn [replicate String.string_of_list_ascii]. rewrite app_cons_str. cbn [str_all dec_value String.length].
  rewrite IH1, IH3. split_and!; try done. intros ->. by apply IH2.
Qed.

Lemma fmt06_spec n : code_range n ->
  str_all is_digit (fmt06 n) = true /\ dec_value (fmt06 n) 0 = n /\ String.length (fmt06 n) = 6%nat.
Proof.
  unfold code_range. intros Hn. destruct (pretty_nonneg n) as (Hv & Hd & Hne); [lia|].
  assert (String.length (pretty n) <= 6)%nat as Hl by (apply length_pretty_lt; lia).
  destruct (zeros_digits (6 - String.length (pretty n)) (pretty n) 0) as (H1 & H2 & H3).
  unfold fmt06. rewrite H1, H2, H3 by done. split_and!; [done|done|lia].
Qed.

Lemma fmt06_inj n m : code_range n -> code_range m -> fmt06 n = fmt06 m -> n = m.
Proof.
  intros Hn Hm Heq. destruct (fmt06_spec n Hn) as (_ & <- & _), (fmt06_spec m Hm) as (_ & <- & _).
  by rewrite Heq.
Qed.

Lemma scan_digits_exact s rest acc : str_all is_digit s = true ->
  scan_digits (String.length s) (s +:+ rest) acc = dec_value s acc.
Proof.
  revert acc. induction s as [|a s IH]; intros acc; [by destruct rest|].
  cbn [str_all]. rewrite andb_true_iff. intros [Ha Hs]. rewrite app_cons_str. cbn [String.length scan_digits dec_value].
  by rewrite Ha, IH.
Qed.

Lemma digit_bounds a : is_digit a = true -> 48 <= code a <= 57.
Proof. unfold is_digit. rewrite andb_true_iff, !Z.leb_le. lia. Qed.

Lemma scan_skip_digit a s : is_digit a = true -> scan_skip (String a s) = Some (String a s).
Proof.
  intros Ha%digit_bounds.
  assert (plain a = true) as Hp.
  { unfold plain, is_7bit, space1. rewrite andb_true_iff, negb_true_iff, orb_false_iff, andb_false_iff,
      Z.ltb_lt, !Z.leb_gt, Z.eqb_neq. lia. }
  cbn [scan_skip]. rewrite (proj2 (Z.eqb_neq (code a) 10)) by lia.
  destruct (plain_not_space a a a Hp) as (-> & _).
  destruct s as [|b [|c s]]; [done| |]; rewrite (proj2 (Z.eqb_neq (code a) 13)) by lia; cbn [andb].
  - by destruct (plain_not_space a b b Hp) as (_ & -> & _).
  - by destruct (plain_not_space a b c Hp) as (_ & -> & -> & _).
Qed.

(** A six-digit code is read as the number it shows, whatever follows. *)
Lemma scan_code_fmt06 n rest : code_range n -> scan_code (fmt06 n +:+ rest) = Some n.
Proof.
  intros Hn. destruct (fmt06_spec n Hn) as (Hd & Hv & Hl).
  destruct (fmt06 n) as [|a s]; [done|].
  pose proof (scan_digits_exact (String a s) rest 0 Hd) as Hsc. rewrite Hv, Hl in Hsc.
  rewrite app_cons_str in *. cbn [str_all] in Hd. apply andb_true_iff in Hd as [Ha _].
  unfold scan_code. rewrite scan_skip_digit by done.
  pose proof (digit_bounds a Ha).
  rewrite (proj2 (Z.eqb_neq (code a) 45)), (proj2 (Z.eqb_neq (code a) 43)) by lia.
  unfold scan_unsigned. by rewrite Ha, Hsc.
Qed.

Lemma generateTOTP_range `{Crypto} secret counter : code_range (generateTOTP secret counter).
Proof. unfold code_range, generateTOTP. apply Z.mod_pos_bound. lia. Qed.

Lemma verify_loop_sound `{Crypto} ts k secret n base skews ts' :
  code_range n -> verify_loop ts k secret n base skews = (true, ts') ->
  exists skew, skew ∈ skews /\ generateTOTP secret (base + skew) = n /\
    default 0 (lastCounter ts !! k) < base + skew /\
    secrets ts' = secrets ts /\ lastCounter ts' = <[k := base + skew]> (lastCounter ts).
Proof.
  intros Hn. induction skews as [|skew skews IH]; cbn [verify_loop]; [done|].
  case_bool_decide as Heq.
  - destruct (_ <=? _) eqn:Hle; [done|]. apply Z.leb_gt in Hle. intros [= <-].
    exists skew. split; [constructor|]. split_and!; try done.
    apply fmt06_inj; [apply generateTOTP_range|done|done].
  - intros (skew' & Hin & Hrest)%IH. exists skew'. split; [by constructor|done].
Qed.

Lemma verify_loop_false `{Crypto} ts k secret n base skews ts' :
  verify_loop ts k secret n base skews = (false, ts') -> ts' = ts.
Proof.
  induction skews as [|skew skews IH]; cbn [verify_loop]; [by intros [= <-]|].
  case_bool_decide; [|done]. destruct (_ <=? _); [by intros [= <-]|done].
Qed.

Lemma Verify_false `{Crypto} ts k c now ts' : Verify ts k c now = (false, ts') -> ts' = ts.
Proof.
  unfold Verify. destruct (secrets ts !! k); [|by intros [= <-]].
  destruct (scan_code c); [|by intros [= <-]].
  destruct (_ || _); [by intros [= <-]|]. apply verify_loop_false.
Qed.

(** What an accepted code proves. *)
Definition accepts `{Crypto} (ts : TOTPStore) (k c : string) (now counter : Z) (ts' : TOTPStore) : Prop :=
  exists secret, secrets ts !! k = Some secret /\
    scan_code c = Some (generateTOTP secret counter) /\
    Z.abs (counter - Z.quot (time_unix now) totpPeriod) <= totpSkew /\
    default 0 (lastCounter ts !! k) < counter /\
    secrets ts' = secrets ts /\ lastCounter ts' = <[k := counter]> (lastCounter ts).

Lemma Verify_accepts `{Crypto} ts k c now ts' :
  Verify ts k c now = (true, ts') -> exists counter, accepts ts k c now counter ts'.
Proof.
  unfold Verify. destruct (secrets ts !! k) as [secret|] eqn:Hs; [|done].
  destruct (scan_code c) as [n|] eqn:Hc; [|done].
  destruct (_ || _) eqn:Hr; [done|]. apply orb_false_iff in Hr as [H1 H2].
  apply Z.ltb_ge in H1. apply Z.leb_gt in H2. intros Hv.
  apply verify_loop_sound in Hv as (skew & Hin & Hg & Hlt & Hs' & Hl'); [|unfold code_range; lia].
  eexists. exists secret. split_and!; try done; [by rewrite Hg|].
  unfold totpSkew in *. rewrite !elem_of_cons, elem_of_nil in Hin. lia.
Qed.

(** The last accepted counter of a key never decreases. *)
Lemma Verify_counter_mono `{Crypto} ts k c now k' :
  default 0 (lastCounter ts !! k') <= default 0 (lastCounter (Verify ts k c now).2 !! k').
Proof.
  destruct (Verify ts k c now) as [[] ts'] eqn:Hv; simpl.
  - apply Verify_accepts in Hv as (counter & secret & _ & _ & _ & Hlt & _ & ->).
    destruct (decide (k = k')) as [->|]; [rewrite lookup_insert_eq; simpl; lia|].
    by rewrite lookup_insert_ne.
  - by apply Verify_false in Hv as ->.
Qed.

Lemma verify_all_counter_mono `{Crypto} l : forall ts k,
  default 0 (lastCounter ts !! k) <= default 0 (lastCounter (verify_all ts l).2 !! k).
Proof.
  induction l as [|a l IH]; intros ts k; simpl; [done|].
  pose proof (Verify_counter_mono ts (at_key a) (at_code a) (at_now a) k) as Hm.
  destruct (Verify ts (at_key a) (at_code a) (at_now a)) as [ok ts']. specialize (IH ts' k).
  destruct (verify_all ts' l). simpl in *. lia.
Qed.

Lemma str_filter_all p s : str_all p (str_filter p s) = true.
Proof. induction s as [|a s IH]; simpl; [done|]. destruct (p a) eqn:Ha; simpl; by rewrite ?Ha. Qed.

Lemma str_filter_keeps p q s : str_all q s = true -> str_all q (str_filter p s) = true.
Proof.
  induction s as [|a s IH]; simpl; [done|]. rewrite andb_true_iff. intros [Ha Hs].
  destruct (p a); simpl; rewrite ?Ha; auto.
Qed.

Lemma lor_range n a b : 0 <= n -> 0 <= a < 2 ^ n -> 0 <= b < 2 ^ n -> 0 <= Z.lor a b < 2 ^ n.
Proof.
  intros Hn Ha Hb. split; [apply Z.lor_nonneg; lia|].
  destruct (Z.eq_dec (Z.lor a b) 0) as [->|Hne]; [apply Z.pow_pos_nonneg; lia|].
  assert (0 < Z.lor a b) by (pose proof (proj2 (Z.lor_nonneg a b)); lia).
  apply Z.log2_lt_pow2; [done|]. rewrite Z.log2_lor by lia.
  destruct (decide (n = 0)) as [->|]; [|].
  - assert (a = 0) as -> by lia. assert (b = 0) as -> by lia. done.
  - apply Z.max_lub_lt.
    + destruct (decide (a = 0)) as [->|]; [simpl; lia|apply Z.log2_lt_pow2; lia].
    + destruct (decide (b = 0)) as [->|]; [simpl; lia|apply Z.log2_lt_pow2; lia].
Qed.

Lemma land_ones_range x k : 0 <= k -> 0 <= Z.land x (Z.ones k) < 2 ^ k.
Proof. intros Hk. rewrite Z.land_ones by done. apply Z.mod_pos_bound, Z.pow_pos_nonneg; lia. Qed.

Lemma shifted_range x m k s : 0 <= k -> 0 <= s -> m = Z.ones k ->
  0 <= Z.shiftl (Z.land x m) s < 2 ^ (k + s).
Proof.
  intros Hk Hs ->. pose proof (land_ones_range x k Hk).
  rewrite Z.shiftl_mul_pow2, Z.pow_add_r by done.
  assert (0 < 2 ^ s) by (apply Z.pow_pos_nonneg; lia). nia.
Qed.

Lemma truncate_at_range hash off : 0 <= truncate_at hash off < 2 ^ 31.
Proof.
  unfold truncate_at. repeat apply lor_range; try lia.
  - apply (shifted_range _ 127 7 24); done || lia.
  - pose proof (shifted_range (hash !!! (off + 1)%nat) 255 8 16 ltac:(lia) ltac:(lia) eq_refl). lia.
  - pose proof (shifted_range (hash !!! (off + 2)%nat) 255 8 8 ltac:(lia) ltac:(lia) eq_refl). lia.
  - pose proof (land_ones_range (hash !!! (off + 3)%nat) 8 ltac:(lia)). change (Z.ones 8) with 255 in *. lia.
Qed.

(** ** Properties *)

(** A TOTP counter is accepted at most once per key.  After an accepted
    code, whatever verification attempts (for any key) come in between, the
    next code accepted for the same key belongs to a strictly larger counter;
    every accepted code is the code of a counter within one period of the
    clock. *)
Theorem totp_no_replay `{Crypto} ts k code1 now1 ts1 mid code2 now2 ts3
  (H1 : Verify ts k code1 now1 = (true, ts1))
  (H2 : Verify (verify_all ts1 mid).2 k code2 now2 = (true, ts3)) :
  exists c1 c2, accepts ts k code1 now1 c1 ts1 /\
    accepts (verify_all ts1 mid).2 k code2 now2 c2 ts3 /\ c1 < c2.
Proof.
  apply Verify_accepts in H1 as (c1 & Hacc1). apply Verify_accepts in H2 as (c2 & Hacc2).
  exists c1, c2. split; [done|]. split; [done|].
  destruct Hacc1 as (s1 & _ & _ & _ & _ & _ & Hl1), Hacc2 as (s2 & _ & _ & _ & Hlt & _).
  pose proof (verify_all_counter_mono mid ts1 k) as Hm. rewrite Hl1, lookup_insert_eq in Hm.
  simpl in Hm. lia.
Qed.

Definition demo_secret : bytes := bytes_of_string "12345678901234567890".
Definition demo_store : TOTPStore := {| secrets := {["k" := demo_secret]}; lastCounter := ∅ |}.
(** The instant [t] seconds after 1970. *)
Definition unix_time (t : Z) : Z := (62135596800 + t) * second.

#[local] Existing Instance std_crypto.

Lemma totp_no_replay_witness :
  exists c1 c2,
    accepts demo_store "k" "287082" (unix_time 59) c1 (Verify demo_store "k" "287082" (unix_time 59)).2 /\
    accepts (verify_all (Verify demo_store "k" "287082" (unix_time 59)).2
               [Attempt "k" "287082" (unix_time 60)]).2 "k" "359152" (unix_time 61) c2
      (Verify (verify_all (Verify demo_store "k" "287082" (unix_time 59)).2
               [Attempt "k" "287082" (unix_time 60)]).2 "k" "359152" (unix_time 61)).2 /\ c1 < c2.
Proof.
  apply (totp_no_replay demo_store "k" "287082" (unix_time 59) _
           [Attempt "k" "287082" (unix_time 60)] "359152" (unix_time 61));
    vm_compute; reflexivity.
Defined.

(** The code an authenticator shows now is accepted, provided no counter of
    the current skew window was used before: no valid user is locked out. *)
Theorem totp_current_accepted `{Crypto} ts k secret now
  (Hs : secrets ts !! k = Some secret)
  (Hfresh : default 0 (lastCounter ts !! k) < Z.quot (time_unix now) totpPeriod - totpSkew) :
  (Verify ts k (currentTOTPCode secret now) now).1 = true.
Proof.
  unfold Verify, currentTOTPCode. rewrite Hs.
  set (base := Z.quot (time_unix now) totpPeriod) in *.
  pose proof (generateTOTP_range secret base) as Hr.
  rewrite <- (app_nil_r_str (fmt06 (generateTOTP secret base))), scan_code_fmt06 by done.
  assert (forall c, base - totpSkew <= c -> (c <=? default 0 (lastCounter ts !! k)) = false) as Hle.
  { intros c Hc. apply Z.leb_gt. lia. }
  unfold code_range in Hr. rewrite (proj2 (Z.ltb_ge _ 0)), (proj2 (Z.leb_gt 1000000 _)) by lia.
  cbn [orb verify_loop]. unfold totpSkew in *. case_bool_decide; [by rewrite Hle by lia|].
  rewrite Z.add_0_r, bool_decide_true by done. by rewrite Hle by lia.
Qed.

Lemma totp_current_accepted_witness :
  currentTOTPCode demo_secret (unix_time 1111111109) = "081804" /\
  (Verify demo_store "k" (currentTOTPCode demo_secret (unix_time 1111111109)) (unix_time 1111111109)).1 = true.
Proof.
  split; [vm_compute; reflexivity|].
  apply (totp_current_accepted demo_store "k" demo_secret); vm_compute; reflexivity.
Defined.

(** Code generation stays in bounds: the four bytes of the dynamic
    truncation exist in the 20-byte HMAC, the 31-bit value they form fits an
    [int], and the code has at most six digits. *)
Theorem generateTOTP_bounds `{Crypto} secret counter :
  let hash := hmac_sha1 secret (be64 (counter mod 2 ^ 64)) in
  (truncate_offset hash + 3 < length hash)%nat /\
  0 <= truncate_at hash (truncate_offset hash) < 2 ^ 31 /\
  0 <= generateTOTP secret counter < 1000000.
Proof.
  intros hash. split_and!.
  - unfold hash at 2. rewrite hmac_sha1_length. unfold truncate_offset.
    pose proof (land_ones_range (hash !!! (length hash - 1)%nat) 4 ltac:(lia)) as Hr.
    change (Z.ones 4) with 15 in Hr. lia.
  - apply truncate_at_range.
  - apply truncate_at_range.
  - apply generateTOTP_range.
  - apply generateTOTP_range.
Qed.

(** Text after the six digits is not looked at: a code with anything
    appended verifies like the code itself. *)
Theorem verify_ignores_trailing `{Crypto} ts k n rest now (Hn : code_range n) :
  Verify ts k (fmt06 n +:+ rest) now = Verify ts k (fmt06 n) now.
Proof.
  pose proof (scan_code_fmt06 n EmptyString Hn) as Hc. rewrite app_nil_r_str in Hc.
  unfold Verify. by rewrite scan_code_fmt06, Hc.
Qed.

Lemma verify_ignores_trailing_witness :
  Verify demo_store "k" (fmt06 287082 +:+ "; anything") (unix_time 59) =
  Verify demo_store "k" (fmt06 287082) (unix_time 59) /\
  (Verify demo_store "k" "287082; anything" (unix_time 59)).1 = true.
Proof.
  split; [|vm_compute; reflexivity].
  apply (verify_ignores_trailing demo_store "k" 287082 "; anything" (unix_time 59)).
  unfold code_range. lia.
Defined.

(** An account name placed in the enrolment URL contains none of the
    characters that delimit its parts, and is not empty. *)
Theorem sanitizeAccountName_safe name :
  let n := sanitizeAccountName name in
  n <> "" /\ ContainsAny n ":?&=" = false.
Proof.
  unfold sanitizeAccountName. set (s := remove_byte "="%char _).
  assert (str_all (fun a => negb (char_in ":?&=" a)) s = true) as Hs.
  { assert (forall c t, str_all (fun a => negb (bool_decide (a = c))) (remove_byte c t) = true) as Hf
      by (intros; apply str_filter_all).
    assert (str_all (fun a => negb (bool_decide (a = ":"%char))) s = true) as H1
      by (unfold s; do 3 apply str_filter_keeps; apply Hf).
    assert (str_all (fun a => negb (bool_decide (a = "?"%char))) s = true) as H2
      by (unfold s; do 2 apply str_filter_keeps; apply Hf).
    assert (str_all (fun a => negb (bool_decide (a = "&"%char))) s = true) as H3
      by (unfold s; do 1 apply str_filter_keeps; apply Hf).
    assert (str_all (fun a => negb (bool_decide (a = "="%char))) s = true) as H4 by (unfold s; apply Hf).
    clearbody s. induction s as [|a s IH]; [done|]. cbn [str_all] in *.
    rewrite !andb_true_iff in *. split; [|apply IH; tauto].
    unfold char_in, str_any. cbn [str_all]. rewrite negb_involutive.
    destruct H1 as [-> _], H2 as [-> _], H3 as [-> _], H4 as [-> _]. done. }
  apply (str_all_TrimSpace _ s) in Hs. case_bool_decide; [done|]. split; [done|].
  unfold ContainsAny, str_any. by rewrite Hs.
Qed.
