(* ===== verification/KeyStore.v ===== *)
(** * API keys (KeyStore of mcp-server-go/auth.go, auth_tokens.go, totp_handlers.go)

    The key store with its second factor and its file, every operation that
    changes it, and the MCP tools that call it.  Random bytes, the clock and
    the outcome of writing the file are arguments of the operations.  The file
    is kept as what reading and decoding it gives; a key is written without
    its [Secret] field (tag [json:"-"]). *)
From S2P Require Import Prelude GoStrings Crypto Totp Rbac.

Open Scope Z_scope.
Open Scope string_scope.

(** ** Data *)

Record APIKey : Type := MkKey {
  Key : string;
  Secret : string;
  SecretHash : string;
  KRole : Role;
  Label : string;
  CreatedAt : Z;
  LastUsed : Z;
  Disabled : bool;
  TOTPEnabled : bool;
}.

(** What [os.ReadFile] and [json.Unmarshal] find at [filePath]. *)
Inductive keyfile : Type :=
  | NoFile
  | Unreadable
  | Malformed
  | KeysFile (l : list APIKey).

Record KeyStore : Type := MkStore {
  keys : gmap string APIKey;
  file : keyfile;
  totp : TOTPStore;
}.

(** How persisting ends: the file is written; the directory cannot be made or
    the file not be opened, and the old file stays; or writing stops after
    [os.WriteFile] has truncated the file. *)
Inductive write_outcome : Type := Written | NotOpened | CutShort.

Definition set_keys (ks : KeyStore) (m : gmap string APIKey) : KeyStore :=
  {| keys := m; file := file ks; totp := totp ks |}.
Definition set_totp (ks : KeyStore) (ts : TOTPStore) : KeyStore :=
  {| keys := keys ks; file := file ks; totp := ts |}.

Definition set_LastUsed (k : APIKey) (t : Z) : APIKey :=
  MkKey (Key k) (Secret k) (SecretHash k) (KRole k) (Label k) (CreatedAt k) t (Disabled k) (TOTPEnabled k).
Definition set_Disabled (k : APIKey) (b : bool) : APIKey :=
  MkKey (Key k) (Secret k) (SecretHash k) (KRole k) (Label k) (CreatedAt k) (LastUsed k) b (TOTPEnabled k).
Definition set_TOTPEnabled (k : APIKey) (b : bool) : APIKey :=
  MkKey (Key k) (Secret k) (SecretHash k) (KRole k) (Label k) (CreatedAt k) (LastUsed k) (Disabled k) b.

(** A key as the file has it. *)
Definition persisted (k : APIKey) : APIKey :=
  MkKey (Key k) "" (SecretHash k) (KRole k) (Label k) (CreatedAt k) (LastUsed k) (Disabled k) (TOTPEnabled k).

(** ** Loading and saving *)

(** The loop [for _, k := range keys { ks.keys[k.Key] = k }]. *)
Definition index_keys (m : gmap string APIKey) (l : list APIKey) : gmap string APIKey :=
  foldl (fun m k => <[Key k := k]> m) m l.

Definition load (f : keyfile) : gmap string APIKey :=
  match f with
  | KeysFile l => index_keys ∅ l
  | NoFile | Unreadable | Malformed => ∅
  end.

Definition newKeyStore (f : keyfile) : KeyStore :=
  {| keys := load f; file := f; totp := newTOTPStore |}.

Definition saveLocked (ks : KeyStore) (w : write_outcome) : KeyStore :=
  let f := match w with
           | Written => KeysFile (persisted <$> (map_to_list (keys ks)).*2)
           | NotOpened => file ks
           | CutShort => Malformed
           end in
  {| keys := keys ks; file := f; totp := totp ks |}.

Section WithCrypto.
Context `{Crypto}.

Definition hashSecret (secret : string) : string := hex_encode (sha256 (bytes_of_string secret)).

(** ** Operations *)

(** [randomHex(16)] and [randomHex(24)] encode the bytes [rk] and [rs]. *)
Definition GenerateKey (ks : KeyStore) (role : Role) (label : string) (rk rs : bytes) (now : Z)
    (w : write_outcome) : res APIKey * KeyStore :=
  let key := "cc_live_" +:+ hex_encode rk in
  let secret := "sec_" +:+ hex_encode rs in
  let apiKey := {| Key := key; Secret := secret; SecretHash := hashSecret secret; KRole := role;
                   Label := label; CreatedAt := now; LastUsed := time_zero;
                   Disabled := false; TOTPEnabled := false |} in
  (Ok apiKey, saveLocked (set_keys ks (<[key := apiKey]> (keys ks))) w).

Definition Validate (ks : KeyStore) (key secret : string) (now : Z) : res APIKey * KeyStore :=
  match keys ks !! key with
  | None => (Err "invalid API key", ks)
  | Some k =>
      if Disabled k then (Err "invalid API key", ks)
      else if SecretHash k <>s hashSecret secret then (Err "invalid secret", ks)
      else let k' := set_LastUsed k now in (Ok k', set_keys ks (<[key := k']> (keys ks)))
  end.

Definition ValidateWithTOTP (ks : KeyStore) (key secret totpCode toolName : string) (now : Z)
  : res APIKey * KeyStore :=
  match Validate ks key secret now with
  | (Err m, ks) => (Err m, ks)
  | (Ok apiKey, ks) =>
      let needTOTP := TOTPEnabled apiKey || (IsTOTPRequired toolName && HasTOTP (totp ks) (Key apiKey)) in
      if needTOTP then
        if totpCode =s "" then (Err "TOTP code required for this operation", ks)
        else
          let '(ok, ts) := Verify (totp ks) (Key apiKey) totpCode now in
          let ks := set_totp ks ts in
          if negb ok then (Err "invalid TOTP code", ks) else (Ok apiKey, ks)
      else (Ok apiKey, ks)
  end.

Definition EnableTOTP (ks : KeyStore) (keyID accountName : string) (raw : bytes)
  : res (string * string) * KeyStore :=
  match keys ks !! keyID with
  | None => (Err "key not found", ks)
  | Some k =>
      if TOTPEnabled k then (Err "TOTP already enabled for this key", ks)
      else let '(r, ts) := Enroll (totp ks) keyID (sanitizeAccountName accountName) raw in
           (Ok r, set_totp ks ts)
  end.

Definition ConfirmTOTPEnrollment (ks : KeyStore) (keyID code_ : string) (now : Z) (w : write_outcome)
  : res unit * KeyStore :=
  let '(ok, ts) := Verify (totp ks) keyID code_ now in
  let ks := set_totp ks ts in
  if negb ok then (Err "invalid TOTP code — enrollment not confirmed", ks)
  else
    match keys ks !! keyID with
    | None => (Err "key not found", ks)
    | Some k => (Ok tt, saveLocked (set_keys ks (<[keyID := set_TOTPEnabled k true]> (keys ks))) w)
    end.

Definition DisableTOTP (ks : KeyStore) (keyID : string) (w : write_outcome) : res unit * KeyStore :=
  match keys ks !! keyID with
  | None => (Err "key not found", ks)
  | Some k =>
      let ks := set_keys ks (<[keyID := set_TOTPEnabled k false]> (keys ks)) in
      (Ok tt, saveLocked (set_totp ks (Remove (totp ks) keyID)) w)
  end.

Definition Revoke (ks : KeyStore) (key : string) (w : write_outcome) : res unit * KeyStore :=
  match keys ks !! key with
  | None => (Err "key not found", ks)
  | Some k => (Ok tt, saveLocked (set_keys ks (<[key := set_Disabled k true]> (keys ks))) w)
  end.

Definition redact (k : APIKey) : APIKey :=
  MkKey (Key k) "[redacted]" "[redacted]" (KRole k) (Label k) (CreatedAt k) (LastUsed k)
    (Disabled k) (TOTPEnabled k).

(** In the order the map is iterated. *)
Definition List (ks : KeyStore) : list APIKey := redact <$> (map_to_list (keys ks)).*2.

(** The process stops and starts again: the keys are read back, the second
    factor's secrets were only in memory. *)
Definition restart (ks : KeyStore) : KeyStore := newKeyStore (file ks).

(** ** auth_tokens.go: the tools that manage tokens

    [None] is the key store that was never initialised. *)

Record CreateTokenResult : Type := MkCreate {
  ct_key : string; ct_secret : string; ct_role : string; ct_label : string; ct_created : Z;
}.
Record TokenInfo : Type := MkToken {
  ti_key : string; ti_role : string; ti_label : string; ti_created : Z; ti_used : Z; ti_disabled : bool;
}.

Definition uninitialised {A} : res A * option KeyStore := (Err "auth key store is not initialized", None).

(** [fmt.Errorf(msg + "%w", err)] *)
Definition wrap_err {A} (msg : string) (r : res A) : res A :=
  match r with Ok a => Ok a | Err m => Err (msg +:+ m) end.

Definition res_map {A B} (f : A -> B) (r : res A) : res B :=
  match r with Ok a => Ok (f a) | Err m => Err m end.

Definition createToken (st : option KeyStore) (role label : string) (rk rs : bytes) (now : Z)
    (w : write_outcome) : res CreateTokenResult * option KeyStore :=
  match st with
  | None => uninitialised
  | Some ks =>
      if (role <>s RoleViewer) && (role <>s RoleOperator) && (role <>s RoleAdmin) then
        (Err ("invalid role: " +:+ role +:+ " (must be viewer, operator, or admin)"), st)
      else
        let label := if label =s "" then "mcp-created" else label in
        let '(r, ks) := GenerateKey ks role label rk rs now w in
        (res_map (fun key => MkCreate (Key key) (Secret key) (KRole key) (Label key) (CreatedAt key))
           (wrap_err "failed to generate key: " r), Some ks)
  end.

Definition listTokens (st : option KeyStore) : res (list TokenInfo * Z) :=
  match st with
  | None => Err "auth key store is not initialized"
  | Some ks =>
      let tokens := (fun k => MkToken (Key k) (KRole k) (Label k) (CreatedAt k) (LastUsed k) (Disabled k))
                      <$> List ks in
      Ok (tokens, Z.of_nat (length tokens))
  end.

Definition revokeToken (st : option KeyStore) (keyID : string) (w : write_outcome)
  : res (string * string) * option KeyStore :=
  match st with
  | None => uninitialised
  | Some ks =>
      if keyID =s "" then (Err "key is required", st)
      else
        let '(r, ks) := Revoke ks keyID w in
        (res_map (fun _ => (keyID, "revoked")) (wrap_err "failed to revoke key: " r), Some ks)
  end.

(** ** totp_handlers.go *)

Record TOTPEnrollResult : Type := MkEnrolled {
  te_key : string; te_secret : string; te_url : string; te_message : string; te_status : string;
}.

Definition totpEnroll (st : option KeyStore) (keyID accountName : string) (raw : bytes)
  : res TOTPEnrollResult * option KeyStore :=
  match st with
  | None => uninitialised
  | Some ks =>
      if keyID =s "" then (Err "key_id is required", st)
      else
        let accountName := if accountName =s "" then "admin" else accountName in
        let '(r, ks) := EnableTOTP ks keyID accountName raw in
        (res_map (fun p => MkEnrolled keyID p.1 p.2
           "Scan this QR code with Google Authenticator or Microsoft Authenticator, then call totp_confirm with your first 6-digit code."
           "pending_confirmation") (wrap_err "TOTP enrollment failed: " r), Some ks)
  end.

Definition totpConfirm (st : option KeyStore) (keyID code_ : string) (now : Z) (w : write_outcome)
  : res (string * string) * option KeyStore :=
  match st with
  | None => uninitialised
  | Some ks =>
      if keyID =s "" then (Err "key_id is required", st)
      else if code_ =s "" then (Err "code is required", st)
      else
        let '(r, ks) := ConfirmTOTPEnrollment ks keyID code_ now w in
        (res_map (fun _ => (keyID, "totp_enabled")) (wrap_err "TOTP confirmation failed: " r), Some ks)
  end.

Definition totpDisable (st : option KeyStore) (keyID : string) (w : write_outcome)
  : res (string * string) * option KeyStore :=
  match st with
  | None => uninitialised
  | Some ks =>
      if keyID =s "" then (Err "key_id is required", st)
      else
        let '(r, ks) := DisableTOTP ks keyID w in
        (res_map (fun _ => (keyID, "totp_disabled")) (wrap_err "failed to disable TOTP: " r), Some ks)
  end.

(** The key, whether the factor is active, whether a secret is enrolled. *)
Definition totpStatus (st : option KeyStore) (keyID : string) : res (string * bool * bool) :=
  match st with
  | None => Err "auth key store is not initialized"
  | Some ks =>
      if keyID =s "" then Err "key_id is required"
      else match keys ks !! keyID with
           | None => Err "key not found"
           | Some k => Ok (keyID, TOTPEnabled k, HasTOTP (totp ks) keyID)
           end
  end.

(** ** Histories *)

Inductive op : Type :=
  | OGenerate (role : Role) (label : string) (rk rs : bytes) (now : Z) (w : write_outcome)
  | OValidate (key secret code_ tool : string) (now : Z)
  | OEnable (keyID account : string) (raw : bytes)
  | OConfirm (keyID code_ : string) (now : Z) (w : write_outcome)
  | ODisable (keyID : string) (w : write_outcome)
  | ORevoke (key : string) (w : write_outcome)
  | ORestart.

Definition step (ks : KeyStore) (o : op) : KeyStore :=
  match o with
  | OGenerate role label rk rs now w => (GenerateKey ks role label rk rs now w).2
  | OValidate key secret c tool now => (ValidateWithTOTP ks key secret c tool now).2
  | OEnable keyID account raw => (EnableTOTP ks keyID account raw).2
  | OConfirm keyID c now w => (ConfirmTOTPEnrollment ks keyID c now w).2
  | ODisable keyID w => (DisableTOTP ks keyID w).2
  | ORevoke key w => (Revoke ks key w).2
  | ORestart => restart ks
  end.

Definition steps (ks : KeyStore) (l : list op) : KeyStore := foldl step ks l.

(** Every write of the operation succeeds. *)
Definition written (o : op) : Prop :=
  match o with
  | OGenerate _ _ _ _ _ w | OConfirm _ _ _ w | ODisable _ w | ORevoke _ w => w = Written
  | _ => True
  end.

(** The operation does not draw the identifier [id] for a new key. *)
Definition avoids (id : string) (o : op) : Prop :=
  match o with
  | OGenerate _ _ rk _ _ _ => "cc_live_" +:+ hex_encode rk <> id
  | _ => True
  end.

(** ** Well-formedness *)

(** A key is filed under its own identifier, and a secret kept in memory is
    the one its hash was computed from. *)
Definition key_wf (id : string) (k : APIKey) : Prop :=
  Key k = id /\ (Secret k = "" \/ SecretHash k = hashSecret (Secret k)).

(** No plaintext on disk. *)
Definition file_wf (f : keyfile) : Prop :=
  match f with
  | KeysFile l => Forall (fun k => Secret k = "") l
  | _ => True
  end.

Definition store_wf (ks : KeyStore) : Prop :=
  map_Forall key_wf (keys ks) /\ file_wf (file ks).

(** What authentication depends on: everything but the plaintext and the time
    of the last use. *)
Definition credential (k : APIKey) : APIKey := set_LastUsed (persisted k) time_zero.

Definition synced (ks : KeyStore) : Prop :=
  credential <$> keys ks = credential <$> load (file ks).

(** ** Lemmas *)

Lemma saved_NoDup (m : gmap string APIKey) :
  map_Forall key_wf m -> NoDup (Key <$> (persisted <$> (map_to_list m).*2)).
Proof.
  intros Hm.
  assert (Key <$> (persisted <$> (map_to_list m).*2) = (map_to_list m).*1) as ->.
  { rewrite <- !list_fmap_compose. apply list_fmap_ext. intros i [id k] Hik. simpl.
    apply list_elem_of_lookup_2, elem_of_map_to_list in Hik. by destruct (Hm id k Hik). }
  apply NoDup_fst_map_to_list.
Qed.

(** Loading what was saved, in whatever order the map was iterated. *)
Lemma load_saved (m : gmap string APIKey) l : map_Forall key_wf m ->
  l ≡ₚ persisted <$> (map_to_list m).*2 -> load (KeysFile l) = persisted <$> m.
Proof.
  intros Hm Hl. assert (NoDup (Key <$> l)) as Hnd by (rewrite Hl; by apply saved_NoDup).
  destruct (foldl_insert_lookup Key id l ∅ Hnd) as [H1 H2].
  apply map_eq. intros i. rewrite lookup_fmap. unfold load, index_keys.
  destruct (m !! i) as [k|] eqn:Hi; simpl.
  - destruct (Hm i k Hi) as [Hk _].
    assert (persisted k ∈ l) as Hin.
    { rewrite Hl. apply list_elem_of_fmap. exists k. split; [done|].
      apply list_elem_of_fmap. exists (i, k). split; [done|]. by apply elem_of_map_to_list. }
    specialize (H1 _ Hin). change (Key (persisted k)) with (Key k) in H1. by rewrite Hk in H1.
  - rewrite H2; [done|]. rewrite Hl. intros Hin.
    rewrite !list_elem_of_fmap in Hin. destruct Hin as (k & -> & Hk). setoid_rewrite list_elem_of_fmap in Hk.
    destruct Hk as (k' & -> & Hk). apply list_elem_of_fmap in Hk as ([j k''] & -> & Hj).
    apply elem_of_map_to_list in Hj. destruct (Hm j k'' Hj) as [Hkj _]. simpl in *. congruence.
Qed.

Lemma index_keys_wf l : forall m, map_Forall key_wf m -> Forall (fun k => Secret k = "") l ->
  map_Forall key_wf (index_keys m l).
Proof.
  induction l as [|k l IH]; intros m Hm Hl; [done|]. apply Forall_cons in Hl as [Hk Hl].
  apply IH; [|done]. apply map_Forall_insert_2; [|done]. by split; [|left].
Qed.

Lemma load_wf f : file_wf f -> map_Forall key_wf (load f).
Proof. destruct f; simpl; intros Hf; try apply map_Forall_empty. by apply index_keys_wf. Qed.

Lemma newKeyStore_wf f : file_wf f -> store_wf (newKeyStore f).
Proof. split; [by apply load_wf|done]. Qed.

Lemma saveLocked_wf ks w : store_wf ks -> store_wf (saveLocked ks w).
Proof.
  intros [Hk Hf]. split; [done|]. destruct w; [|done|done].
  apply Forall_fmap, Forall_forall. done.
Qed.

Lemma saveLocked_synced ks : map_Forall key_wf (keys ks) -> synced (saveLocked ks Written).
Proof.
  intros Hk. unfold synced, saveLocked. cbn [keys file]. rewrite (load_saved (keys ks)) by done.
  rewrite <- map_fmap_compose. by apply map_fmap_ext.
Qed.

Lemma credential_idemp k : credential (credential k) = credential k.
Proof. done. Qed.

(** *** What each operation does to the keys and to the file *)

(** Either nothing but the last use of one key and the second factor changed,
    or the keys were replaced and saved. *)
Inductive key_change (ks ks' : KeyStore) : Prop :=
  | kc_used id k t : keys ks !! id = Some k -> keys ks' = <[id := set_LastUsed k t]> (keys ks) ->
      file ks' = file ks -> key_change ks ks'
  | kc_none : keys ks' = keys ks -> file ks' = file ks -> key_change ks ks'.

Lemma Validate_change ks key secret now : key_change ks (Validate ks key secret now).2.
Proof.
  unfold Validate. destruct (keys ks !! key) eqn:Hk; [|by apply kc_none].
  case_match; [by apply kc_none|]. case_match; [by apply kc_none|]. by eapply kc_used.
Qed.

Lemma ValidateWithTOTP_change ks key secret c tool now :
  key_change ks (ValidateWithTOTP ks key secret c tool now).2.
Proof.
  unfold ValidateWithTOTP. pose proof (Validate_change ks key secret now) as Hc.
  destruct (Validate ks key secret now) as [[k|m] ks1]; [|done]. simpl in *.
  case_match; [|done]. case_match; [done|]. case_match.
  case_match; destruct Hc; first [by eapply kc_used|by apply kc_none].
Qed.

Lemma key_change_wf ks ks' : key_change ks ks' -> store_wf ks -> store_wf ks'.
Proof.
  intros [id k t Hk Hks Hf|Hks Hf] [Hwf Hfw]; split; rewrite ?Hks, ?Hf; try done.
  apply map_Forall_insert_2; [apply (Hwf id k Hk)|done].
Qed.

Lemma key_change_synced ks ks' : key_change ks ks' -> synced ks -> synced ks'.
Proof.
  unfold synced. intros [id k t Hk Hks Hf|Hks Hf] Hs; rewrite Hks, Hf; [|done].
  rewrite fmap_insert, <- Hs. apply insert_id. by rewrite lookup_fmap, Hk.
Qed.

Lemma map_wf_insert (m : gmap string APIKey) id k k' :
  map_Forall key_wf m -> m !! id = Some k -> (key_wf id k -> key_wf id k') ->
  map_Forall key_wf (<[id := k']> m).
Proof. intros Hm Hk Himp. apply map_Forall_insert_2; [|done]. apply Himp, (Hm id k Hk). Qed.

Lemma step_wf ks o : store_wf ks -> store_wf (step ks o).
Proof.
  intros Hwf. pose proof Hwf as [Hk Hf]. destruct o; cbn [step].
  - apply saveLocked_wf. split; [|done]. apply map_Forall_insert_2; [by split; [|right]|done].
  - eapply key_change_wf; [apply ValidateWithTOTP_change|done].
  - unfold EnableTOTP. repeat case_match; done.
  - unfold ConfirmTOTPEnrollment. destruct (Verify _ _ _ _). repeat case_match; try done.
    apply saveLocked_wf. split; [|done]. by eapply map_wf_insert.
  - unfold DisableTOTP. case_match; [|done]. apply saveLocked_wf. split; [|done]. by eapply map_wf_insert.
  - unfold Revoke. case_match; [|done]. apply saveLocked_wf. split; [|done]. by eapply map_wf_insert.
  - by apply newKeyStore_wf.
Qed.

Lemma step_synced ks o : store_wf ks -> synced ks -> written o -> synced (step ks o).
Proof.
  intros Hwf Hs Hw. pose proof (step_wf ks o Hwf) as [Hk' _]. destruct o; cbn [step written] in *; subst.
  - by apply saveLocked_synced.
  - eapply key_change_synced; [apply ValidateWithTOTP_change|done].
  - unfold EnableTOTP. repeat case_match; done.
  - revert Hk'. unfold ConfirmTOTPEnrollment. destruct (Verify _ _ _ _). repeat case_match; intros; try done.
    by apply saveLocked_synced.
  - revert Hk'. unfold DisableTOTP. case_match; intros; [|done]. by apply saveLocked_synced.
  - revert Hk'. unfold Revoke. case_match; intros; [|done]. by apply saveLocked_synced.
  - done.
Qed.

Lemma steps_wf ks l : store_wf ks -> store_wf (steps ks l).
Proof. intros. eapply (foldl_inv step store_wf (fun _ => True)); auto using step_wf. by apply Forall_true. Qed.

Lemma steps_synced ks l : store_wf ks -> synced ks -> Forall written l ->
  store_wf (steps ks l) /\ synced (steps ks l).
Proof.
  intros. eapply (foldl_inv step (fun ks => store_wf ks /\ synced ks) written); [|done|done].
  intros s o [? ?] ?. auto using step_wf, step_synced.
Qed.

(** *** Facts about one key that survive histories *)

Definition at_key (id : string) (P : APIKey -> Prop) (ks : KeyStore) : Prop :=
  exists k, keys ks !! id = Some k /\ P k.

(** [P] depends on the credential only. *)
Definition of_credential (P : APIKey -> Prop) : Prop :=
  forall k k', credential k = credential k' -> P k -> P k'.

(** The operation keeps [P] of the key [id]. *)
Definition keeps (id : string) (P : APIKey -> Prop) (o : op) : Prop :=
  avoids id o /\ written o /\
  match o with
  | OConfirm _ _ _ _ => forall k, P k -> P (set_TOTPEnabled k true)
  | ODisable keyID _ => keyID = id -> forall k, P k -> P (set_TOTPEnabled k false)
  | ORevoke key _ => key = id -> forall k, P k -> P (set_Disabled k true)
  | _ => True
  end.

Lemma at_key_update id P ks ks' id' k' k0 :
  at_key id P ks -> keys ks !! id' = Some k0 -> keys ks' = <[id' := k']> (keys ks) ->
  (id' = id -> P k0 -> P k') -> at_key id P ks'.
Proof.
  intros (k & Hk & HP) Hk0 Hks Himp. unfold at_key. rewrite Hks.
  destruct (decide (id' = id)) as [->|Hne].
  - rewrite lookup_insert_eq. exists k'. split; [done|]. naive_solver.
  - rewrite lookup_insert_ne by done. eauto.
Qed.

Lemma at_key_change id P ks ks' :
  of_credential P -> key_change ks ks' -> at_key id P ks -> at_key id P ks'.
Proof.
  intros HP [id' k t Hk Hks Hf|Hks Hf] Hat; [|unfold at_key in *; by rewrite Hks].
  eapply at_key_update; [done..|]. intros _. by apply HP.
Qed.

Lemma at_key_restart id P ks :
  of_credential P -> synced ks -> at_key id P ks -> at_key id P (restart ks).
Proof.
  unfold synced. intros HP Hs (k & Hk & Hkp).
  assert ((credential <$> keys ks) !! id = Some (credential k)) as Hc by (by rewrite lookup_fmap, Hk).
  rewrite Hs, lookup_fmap in Hc. unfold at_key. simpl.
  destruct (load (file ks) !! id) as [k'|]; [|done]. injection Hc as Hc. exists k'. split; [done|].
  eapply HP; [|done]. unfold credential, set_LastUsed, persisted. by f_equal.
Qed.

Lemma step_at_key id P ks o :
  of_credential P -> synced ks -> keeps id P o -> at_key id P ks -> at_key id P (step ks o).
Proof.
  intros HP Hs (Hav & _ & Hop) Hat. destruct o; cbn [step avoids] in *.
  - destruct Hat as (k & Hk & Hkp). exists k. split; [|done]. simpl. by rewrite lookup_insert_ne.
  - eapply at_key_change; [done|apply ValidateWithTOTP_change|done].
  - unfold EnableTOTP. repeat case_match; done.
  - unfold ConfirmTOTPEnrollment. destruct (Verify _ _ _ _). repeat case_match; try done.
    eapply at_key_update; [done..|]. auto.
  - unfold DisableTOTP. case_match; [|done]. eapply at_key_update; [done..|]. auto.
  - unfold Revoke. case_match; [|done]. eapply at_key_update; [done..|]. auto.
  - by apply at_key_restart.
Qed.

Lemma steps_at_key id P ks l :
  of_credential P -> store_wf ks -> synced ks -> Forall (keeps id P) l ->
  at_key id P ks -> at_key id P (steps ks l).
Proof.
  intros HP Hwf Hs Hl Hat.
  apply (foldl_inv step (fun ks => store_wf ks /\ synced ks /\ at_key id P ks) (keeps id P)); [|done|done].
  intros ks' o (? & ? & ?) Ho. pose proof Ho as (_ & ? & _).
  split_and!; [by apply step_wf|by apply step_synced|by apply step_at_key].
Qed.

Lemma Validate_ok ks key secret now :
  is_ok (Validate ks key secret now).1 = true <->
  exists k, keys ks !! key = Some k /\ Disabled k = false /\ SecretHash k = hashSecret secret.
Proof.
  unfold Validate. destruct (keys ks !! key) as [k|]; [|split; [done|naive_solver]].
  destruct (Disabled k) eqn:Hd; [split; [done|naive_solver]|].
  case_bool_decide as Hh; simpl; [split; [eauto|done]|split; [done|naive_solver]].
Qed.

Lemma Validate_at_key id P ks secret now :
  of_credential P -> at_key id P ks -> at_key id P (Validate ks id secret now).2.
Proof. intros HP Hat. eapply at_key_change; [done|apply Validate_change|done]. Qed.

(** A store that a history of operations whose writes succeeded leads to. *)
Definition reachable (ks : KeyStore) : Prop :=
  exists f l, file_wf f /\ Forall written l /\ ks = steps (newKeyStore f) l.

Lemma reachable_inv ks : reachable ks -> store_wf ks /\ synced ks.
Proof. intros (f & l & Hf & Hl & ->). apply steps_synced; [by apply newKeyStore_wf|done|done]. Qed.

Lemma map_loaded m id : credential <$> (m : gmap string APIKey) !! id = (credential <$> m) !! id.
Proof. by rewrite lookup_fmap. Qed.

Lemma Validate_credential ks ks' key secret now :
  credential <$> keys ks = credential <$> keys ks' ->
  res_map credential (Validate ks key secret now).1 = res_map credential (Validate ks' key secret now).1.
Proof.
  intros Heq. pose proof (map_loaded (keys ks) key) as H1. rewrite Heq, <- map_loaded in H1.
  unfold Validate.
  destruct (keys ks !! key) as [[]|], (keys ks' !! key) as [[]|]; try done.
  injection H1 as -> -> -> -> -> -> ->. cbn [Disabled SecretHash].
  destruct Disabled1; [done|]. by destruct (_ <>s _).
Qed.

(** *** The second factor over histories *)

(** The operation does not forget the counters of [id]. *)
Definition keeps_counter (id : string) (o : op) : Prop :=
  match o with
  | ODisable keyID _ => keyID <> id
  | ORestart => False
  | _ => True
  end.

Definition counter (ks : KeyStore) (id : string) : Z := default 0 (lastCounter (totp ks) !! id).

Lemma Validate_totp ks key secret now : totp (Validate ks key secret now).2 = totp ks.
Proof.
  unfold Validate. destruct (keys ks !! key) as [k|]; [|done]. destruct (Disabled k); [done|].
  by destruct (_ <>s _).
Qed.

(** The store of the second factor after an authentication. *)
Lemma ValidateWithTOTP_totp ks key secret c tool now :
  let ks' := (ValidateWithTOTP ks key secret c tool now).2 in
  totp ks' = totp ks \/ exists id, totp ks' = (Verify (totp ks) id c now).2.
Proof.
  unfold ValidateWithTOTP. pose proof (Validate_totp ks key secret now) as Ht.
  destruct (Validate ks key secret now) as [[k|m] ks1]; simpl in *; [|by left].
  case_match; [|by left]. case_match; [by left|]. rewrite Ht. right. exists (Key k).
  destruct (Verify _ _ _ _) as [[] ts]; done.
Qed.

Lemma step_counter ks o id : keeps_counter id o -> counter ks id <= counter (step ks o) id.
Proof.
  unfold counter. destruct o; cbn [step keeps_counter]; intros Hk; try done.
  - destruct (ValidateWithTOTP_totp ks key secret code_ tool now) as [->|[k ->]]; [done|apply Verify_counter_mono].
  - unfold EnableTOTP. destruct (keys ks !! keyID) as [k|]; [|done]. by destruct (TOTPEnabled k).
  - pose proof (Verify_counter_mono (totp ks) keyID code_ now id) as Hv.
    unfold ConfirmTOTPEnrollment. destruct (Verify _ _ _ _) as [[] ts]; [|done]. cbn [negb].
    by destruct (keys _ !! keyID).
  - unfold DisableTOTP. case_match; [|done]. simpl. by rewrite lookup_delete_ne.
  - unfold Revoke. by case_match.
Qed.

Lemma steps_counter l : forall ks id, Forall (keeps_counter id) l -> counter ks id <= counter (steps ks l) id.
Proof.
  induction l as [|o l IH]; intros ks id Hl; [done|]. apply Forall_cons in Hl as [Ho Hl].
  transitivity (counter (step ks o) id); [by apply step_counter|by apply IH].
Qed.

(** A successful authentication of a key whose second factor is on. *)
Lemma ValidateWithTOTP_enabled ks key secret c tool now k ks' :
  ValidateWithTOTP ks key secret c tool now = (Ok k, ks') ->
  map_Forall key_wf (keys ks) -> TOTPEnabled k = true ->
  Verify (totp ks) key c now = (true, totp ks').
Proof.
  unfold ValidateWithTOTP, Validate. intros Hv Hwf Hen.
  destruct (keys ks !! key) as [k0|] eqn:Hk0; [|done]. destruct (Hwf _ _ Hk0) as [Hkey _].
  destruct (Disabled k0); [done|]. destruct (_ <>s _); [done|].
  cbn [TOTPEnabled Key set_LastUsed] in Hv. rewrite Hkey in Hv. case_match eqn:Hneed.
  - destruct (c =s ""); [done|]. simpl in Hv. destruct (Verify _ _ _ _) as [[] ts]; [|done]. by injection Hv as <- <-.
  - injection Hv as <- <-. simpl in Hen. by rewrite Hen in Hneed.
Qed.

(** The second factor is on and its secret is gone. *)
Definition locked (id : string) (ks : KeyStore) : Prop :=
  at_key id (fun k => TOTPEnabled k = true) ks /\ secrets (totp ks) !! id = None.

Lemma enabled_of_credential : of_credential (fun k => TOTPEnabled k = true).
Proof. intros k k' Hc Hk. change (TOTPEnabled (credential k') = true). by rewrite <- Hc. Qed.

Definition no_disable (id : string) (o : op) : Prop :=
  avoids id o /\ written o /\ match o with ODisable keyID _ => keyID <> id | _ => True end.

Lemma no_disable_keeps id o : no_disable id o -> keeps id (fun k => TOTPEnabled k = true) o.
Proof. intros (Ha & Hw & Ho). split; [done|]. split; [done|]. by destruct o. Qed.

Lemma Verify_secrets ts k c now : secrets (Verify ts k c now).2 = secrets ts.
Proof.
  destruct (Verify ts k c now) as [[] ts'] eqn:Hv; simpl.
  - by apply Verify_accepts in Hv as (? & ? & _ & _ & _ & _ & -> & _).
  - by apply Verify_false in Hv as ->.
Qed.

Lemma step_locked id ks o : synced ks -> no_disable id o -> locked id ks -> locked id (step ks o).
Proof.
  intros Hs Ho [Hat Hsec]. split.
  - apply step_at_key; auto using enabled_of_credential, no_disable_keeps.
  - destruct Hat as (k & Hk & Hen). destruct Ho as (_ & _ & Ho). destruct o; cbn [step]; try done.
    + destruct (ValidateWithTOTP_totp ks key secret code_ tool now) as [->|[k' ->]]; [done|by rewrite Verify_secrets].
    + unfold EnableTOTP. case_match eqn:Hk'; [|done]. case_match eqn:Hen'; [done|]. simpl.
      rewrite lookup_insert_ne; [done|]. intros ->. simplify_eq. congruence.
    + pose proof (Verify_secrets (totp ks) keyID code_ now) as Hv.
      unfold ConfirmTOTPEnrollment. destruct (Verify _ _ _ _) as [b ts]. simpl in Hv.
      repeat case_match; simpl; by rewrite Hv.
    + unfold DisableTOTP. case_match; [|done]. simpl. by rewrite lookup_delete_ne.
    + unfold Revoke. by case_match.
Qed.

Lemma locked_refused id ks secret c tool now :
  map_Forall key_wf (keys ks) -> locked id ks -> is_ok (ValidateWithTOTP ks id secret c tool now).1 = false.
Proof.
  intros Hwf [(k0 & Hk0 & Hen) Hsec].
  destruct (ValidateWithTOTP ks id secret c tool now) as [[k|m] ks'] eqn:Hv; [|done].
  assert (TOTPEnabled k = true) as Hen'.
  { revert Hv. unfold ValidateWithTOTP, Validate. rewrite Hk0. clear - Hen. intros Hv.
    repeat case_match; simplify_eq/=; congruence. }
  apply ValidateWithTOTP_enabled in Hv; [|done|done].
  unfold Verify in Hv. by rewrite Hsec in Hv.
Qed.

(** *** The store as a register of grants

    The specification has no file, no plaintext and no times: a key is a grant
    (the hash of its secret, its role and label, whether it was revoked and
    whether its second factor is on), and a restart forgets the second factor's
    secrets and nothing else. *)
Record grant : Type := MkGrant { gr_hash : string; gr_role : Role; gr_label : string; gr_revoked : bool; gr_second : bool }.

Definition grant_of (k : APIKey) : grant := MkGrant (SecretHash k) (KRole k) (Label k) (Disabled k) (TOTPEnabled k).

(** What an operation answers. *)
Inductive reply : Type :=
  | RGenerated (key secret : string)
  | RAuth (r : res (string * Role * string))
  | REnrolled (r : res (string * string))
  | RDone (r : res unit).

Definition identity (k : APIKey) : string * Role * string := (Key k, KRole k, Label k).

Definition answer_of (ks : KeyStore) (o : op) : option reply :=
  match o with
  | OGenerate role label rk rs now w => match (GenerateKey ks role label rk rs now w).1 with Ok k => Some (RGenerated (Key k) (Secret k)) | Err _ => None end
  | OValidate key secret c tool now => Some (RAuth (res_map identity (ValidateWithTOTP ks key secret c tool now).1))
  | OEnable keyID account raw => Some (REnrolled (EnableTOTP ks keyID account raw).1)
  | OConfirm keyID c now w => Some (RDone (ConfirmTOTPEnrollment ks keyID c now w).1)
  | ODisable keyID w => Some (RDone (DisableTOTP ks keyID w).1)
  | ORevoke key w => Some (RDone (Revoke ks key w).1)
  | ORestart => None
  end.

Definition register : Type := (gmap string grant * TOTPStore)%type.

Definition set_second (b : bool) (g : grant) : grant := MkGrant (gr_hash g) (gr_role g) (gr_label g) (gr_revoked g) b.
Definition set_revoked (g : grant) : grant := MkGrant (gr_hash g) (gr_role g) (gr_label g) true (gr_second g).

(** Who calls, and what the second factor remembers of the attempt. *)
Definition spec_auth (x : register) (key secret c tool : string) (now : Z) : res (string * Role * string) * TOTPStore :=
  match x.1 !! key with
  | None => (Err "invalid API key", x.2)
  | Some g =>
      if gr_revoked g then (Err "invalid API key", x.2)
      else if gr_hash g <>s hashSecret secret then (Err "invalid secret", x.2)
      else if gr_second g || (IsTOTPRequired tool && HasTOTP x.2 key)
      then if c =s "" then (Err "TOTP code required for this operation", x.2)
           else let '(ok, ts) := Verify x.2 key c now in
                (if ok : bool then Ok (key, gr_role g, gr_label g) else Err "invalid TOTP code", ts)
      else (Ok (key, gr_role g, gr_label g), x.2)
  end.

Definition spec_step (x : register) (o : op) : option reply * register :=
  let '(m, ts) := x in
  match o with
  | OGenerate role label rk rs _ _ =>
      let key := "cc_live_" +:+ hex_encode rk in
      let secret := "sec_" +:+ hex_encode rs in
      (Some (RGenerated key secret), (<[key := MkGrant (hashSecret secret) role label false false]> m, ts))
  | OValidate key secret c tool now => let '(r, ts) := spec_auth x key secret c tool now in (Some (RAuth r), (m, ts))
  | OEnable keyID account raw =>
      match m !! keyID with
      | None => (Some (REnrolled (Err "key not found")), x)
      | Some g => if gr_second g then (Some (REnrolled (Err "TOTP already enabled for this key")), x)
                  else let '(r, ts) := Enroll ts keyID (sanitizeAccountName account) raw in (Some (REnrolled (Ok r)), (m, ts))
      end
  | OConfirm keyID c now _ =>
      match Verify ts keyID c now with
      | (false, ts) => (Some (RDone (Err "invalid TOTP code — enrollment not confirmed")), (m, ts))
      | (true, ts) => match m !! keyID with
                      | None => (Some (RDone (Err "key not found")), (m, ts))
                      | Some g => (Some (RDone (Ok tt)), (<[keyID := set_second true g]> m, ts))
                      end
      end
  | ODisable keyID _ =>
      match m !! keyID with
      | None => (Some (RDone (Err "key not found")), x)
      | Some g => (Some (RDone (Ok tt)), (<[keyID := set_second false g]> m, Remove ts keyID))
      end
  | ORevoke key _ =>
      match m !! key with
      | None => (Some (RDone (Err "key not found")), x)
      | Some g => (Some (RDone (Ok tt)), (<[key := set_revoked g]> m, ts))
      end
  | ORestart => (None, (m, newTOTPStore))
  end.

(** The answers of a history. *)
Fixpoint answers (ks : KeyStore) (l : list op) : list (option reply) :=
  match l with [] => [] | o :: l => answer_of ks o :: answers (step ks o) l end.
Fixpoint spec_answers (x : register) (l : list op) : list (option reply) :=
  match l with [] => [] | o :: l => (spec_step x o).1 :: spec_answers (spec_step x o).2 l end.

Definition register_of (ks : KeyStore) : register := (grant_of <$> keys ks, totp ks).

Lemma grant_credential k : grant_of (credential k) = grant_of k.
Proof. done. Qed.

Lemma restart_register ks : synced ks -> register_of (restart ks) = (grant_of <$> keys ks, newTOTPStore).
Proof.
  intros Hs. unfold register_of. f_equal. cbn [keys restart newKeyStore].
  transitivity (grant_of <$> (credential <$> keys ks)); [rewrite Hs|]; rewrite <- map_fmap_compose; by apply map_fmap_ext.
Qed.

Lemma same_grant (m : gmap string APIKey) id k k' : m !! id = Some k -> grant_of k' = grant_of k -> grant_of <$> <[id := k']> m = grant_of <$> m.
Proof. intros Hk Hg. rewrite fmap_insert, Hg. apply insert_id. by rewrite lookup_fmap, Hk. Qed.

(** Authentication, as the register says. *)
Lemma auth_refines ks key secret c tool now : map_Forall key_wf (keys ks) ->
  let '(r, ks') := ValidateWithTOTP ks key secret c tool now in
  spec_auth (register_of ks) key secret c tool now = (res_map identity r, totp ks') /\ grant_of <$> keys ks' = grant_of <$> keys ks.
Proof.
  intros Hwf. unfold ValidateWithTOTP, Validate, spec_auth, register_of. cbn [fst snd]. rewrite lookup_fmap.
  destruct (keys ks !! key) as [k|] eqn:Hk; [|done]. destruct (Hwf _ _ Hk) as [Ekey _]. subst key. cbn [fmap option_fmap option_map gr_revoked gr_hash grant_of].
  destruct (Disabled k); [done|]. destruct (_ <>s _); [done|].
  pose proof (same_grant _ _ _ (set_LastUsed k now) Hk eq_refl) as Hg.
  cbn [TOTPEnabled Key set_LastUsed totp set_keys gr_second]. destruct (_ || _); [|done]. destruct (c =s ""); [done|].
  destruct (Verify _ _ _ _) as [[] ts]; done.
Qed.

(** One operation. *)
Lemma step_refines ks o : store_wf ks -> synced ks -> spec_step (register_of ks) o = (answer_of ks o, register_of (step ks o)).
Proof.
  intros [Hwf _] Hs. destruct o; cbn [step answer_of].
  - cbn. f_equal. unfold register_of. cbn. by rewrite fmap_insert.
  - pose proof (auth_refines ks key secret code_ tool now Hwf) as Ha. destruct (ValidateWithTOTP _ _ _ _ _ _) as [r ks'].
    destruct Ha as [Ha Hg]. change (spec_step ?x (OValidate ?k ?s ?c ?t ?n)) with (let '(r, ts) := spec_auth x k s c t n in (Some (RAuth r), (x.1, ts))).
    rewrite Ha. cbn. unfold register_of. by rewrite Hg.
  - cbn. unfold EnableTOTP. rewrite lookup_fmap. destruct (keys ks !! keyID) as [k|]; [|done]. cbn. by destruct (TOTPEnabled k).
  - cbn. unfold ConfirmTOTPEnrollment. destruct (Verify _ _ _ _) as [[] ts]; [|done]. cbn [negb]. rewrite lookup_fmap.
    cbn [keys set_totp]. destruct (keys ks !! keyID) as [k|]; [|done]. unfold register_of. cbn. by rewrite fmap_insert.
  - cbn. unfold DisableTOTP. rewrite lookup_fmap. destruct (keys ks !! keyID) as [k|]; [|done]. unfold register_of. cbn. by rewrite fmap_insert.
  - cbn. unfold Revoke. rewrite lookup_fmap. destruct (keys ks !! key) as [k|]; [|done]. unfold register_of. cbn. by rewrite fmap_insert.
  - by rewrite (restart_register ks Hs).
Qed.

(** ** Properties *)


(** A tool that asks for confirmation runs without a code when the key has no second
    factor: nothing is enrolled, and no code is asked for. *)
Theorem totp_tool_without_secret ks key secret tool now k :
  keys ks !! key = Some k -> Key k = key -> Disabled k = false -> SecretHash k = hashSecret secret -> TOTPEnabled k = false ->
  secrets (totp ks) !! key = None -> IsTOTPRequired tool = true -> is_ok (ValidateWithTOTP ks key secret "" tool now).1 = true.
Proof.
  intros Hk Ekey Hd Hh Hen Hsec Ht. unfold ValidateWithTOTP, Validate. rewrite Hk, Hd, Hh, bool_decide_true by done.
  cbn. rewrite Hen, Ht, Ekey. unfold HasTOTP. cbn. by rewrite Hsec.
Qed.

(** A new key works: from any reachable store, the key and secret that
    [GenerateKey] returns are accepted with the role and label asked for, after
    any further operations and restarts that neither revoke it nor draw its
    identifier again. *)
Theorem generated_key_authenticates ks role label rk rs now l
  (Hr : reachable ks)
  (Hl : Forall (fun o => avoids ("cc_live_" +:+ hex_encode rk) o /\ written o /\
                  match o with ORevoke key _ => key <> "cc_live_" +:+ hex_encode rk | _ => True end) l) :
  let '(r, ks1) := GenerateKey ks role label rk rs now Written in
  exists k, r = Ok k /\ Key k = "cc_live_" +:+ hex_encode rk /\
    forall t, exists k', (Validate (steps ks1 l) (Key k) (Secret k) t).1 = Ok k' /\
      KRole k' = role /\ Label k' = label.
Proof.
  destruct (reachable_inv ks Hr) as [Hwf Hs].
  set (key := "cc_live_" +:+ hex_encode rk) in *.
  pose proof (step_wf ks (OGenerate role label rk rs now Written) Hwf) as Hwf1.
  pose proof (step_synced ks (OGenerate role label rk rs now Written) Hwf Hs eq_refl) as Hs1.
  cbn [step] in *. destruct (GenerateKey ks role label rk rs now Written) as [r ks1] eqn:Hg.
  injection Hg as <- Hks1. eexists. split; [done|]. split; [done|]. intros t. cbn [Key Secret snd] in *.
  set (secret := "sec_" +:+ hex_encode rs) in *.
  pose (P := fun k => Disabled k = false /\ SecretHash k = hashSecret secret /\ KRole k = role /\ Label k = label).
  assert (at_key key P (steps ks1 l)) as (k & Hk & Hd & Hh & Hrole & Hlab).
  { apply steps_at_key; [|done|done| |].
    - intros k k' Hc HP. change (P (credential k')). by rewrite <- Hc.
    - eapply Forall_impl; [exact Hl|]. intros o (Ha & Hw & Ho). split; [done|]. split; [done|].
      destruct o; try done; by intros ->.
    - eexists. split; [rewrite <- Hks1; apply lookup_insert_eq|done]. }
  unfold Validate. fold key in Hk |- *. rewrite Hk, Hd, bool_decide_true by done. cbn [negb fst].
  eexists. done.
Qed.

(** Revocation is final: once a key is revoked it is refused whatever the
    secret, after any further operations and restarts, as long as the file can
    be written and its identifier is not drawn again. *)
Theorem revoked_key_refused ks key ks1 l secret now
  (Hr : reachable ks)
  (Hrev : Revoke ks key Written = (Ok tt, ks1))
  (Hl : Forall (fun o => avoids key o /\ written o) l) :
  (Validate (steps ks1 l) key secret now).1 = Err "invalid API key".
Proof.
  destruct (reachable_inv ks Hr) as [Hwf Hs].
  pose proof (step_wf ks (ORevoke key Written) Hwf) as Hwf1.
  pose proof (step_synced ks (ORevoke key Written) Hwf Hs eq_refl) as Hs1.
  cbn [step] in *. rewrite Hrev in Hwf1, Hs1. cbn [snd] in *.
  assert (at_key key (fun k => Disabled k = true) (steps ks1 l)) as (k & Hk & Hd).
  { apply steps_at_key; [|done|done| |].
    - intros k k' Hc Hk. change (Disabled (credential k') = true). by rewrite <- Hc.
    - eapply Forall_impl; [exact Hl|]. intros o [Ha Hw]. split; [done|]. split; [done|]. by destruct o.
    - unfold Revoke in Hrev. destruct (keys ks !! key); [|done]. injection Hrev as <-.
      eexists. split; [apply lookup_insert_eq|done]. }
  unfold Validate. by rewrite Hk, Hd.
Qed.

(** A restart changes no answer: in every reachable store, reading the file
    back accepts and refuses exactly the same credentials, with the same
    messages and the same role, label and flags. *)
Theorem restart_keeps_credentials ks key secret now (Hr : reachable ks) :
  res_map credential (Validate (restart ks) key secret now).1 =
  res_map credential (Validate ks key secret now).1.
Proof. apply Validate_credential. symmetry. by apply reachable_inv. Qed.

(** Saving and loading is a round trip up to the plaintext secret, whatever
    the order in which the map is written out. *)
Theorem save_load_roundtrip ks l
  (Hwf : store_wf ks) (Hl : l ≡ₚ persisted <$> (map_to_list (keys ks)).*2) :
  load (KeysFile l) = persisted <$> keys ks.
Proof. destruct Hwf. by apply load_saved. Qed.

(** No history of operations, with writes that succeed, fail or stop half
    way, puts a plaintext secret on disk; in memory every key is filed under
    its own identifier and its hash is the hash of its secret. *)
Theorem no_plaintext_on_disk f l (Hf : file_wf f) : store_wf (steps (newKeyStore f) l).
Proof. by apply steps_wf, newKeyStore_wf. Qed.

(** C35: codes cannot be replayed across logins: between two successful logins of
    a key whose second factor is on, whatever happens in between short of
    disabling the factor or restarting, the second login used a later counter
    than the first. *)
Theorem login_codes_not_replayed ks key secret1 c1 tool1 now1 k1 ks1 l secret2 c2 tool2 now2 k2 ks2
  (Hwf : store_wf ks)
  (H1 : ValidateWithTOTP ks key secret1 c1 tool1 now1 = (Ok k1, ks1)) (He1 : TOTPEnabled k1 = true)
  (Hl : Forall (keeps_counter key) l)
  (H2 : ValidateWithTOTP (steps ks1 l) key secret2 c2 tool2 now2 = (Ok k2, ks2)) (He2 : TOTPEnabled k2 = true) :
  exists n1 n2, accepts (totp ks) key c1 now1 n1 (totp ks1) /\
    accepts (totp (steps ks1 l)) key c2 now2 n2 (totp ks2) /\ n1 < n2.
Proof.
  assert (store_wf (steps ks1 l)) as [Hwf2 _].
  { apply steps_wf. pose proof (step_wf ks (OValidate key secret1 c1 tool1 now1) Hwf) as Hw.
    cbn [step] in Hw. by rewrite H1 in Hw. }
  destruct Hwf as [Hwf _].
  apply ValidateWithTOTP_enabled in H1; [|done|done]. apply ValidateWithTOTP_enabled in H2; [|done|done].
  apply Verify_accepts in H1 as (n1 & A1). apply Verify_accepts in H2 as (n2 & A2).
  exists n1, n2. split; [done|]. split; [done|].
  pose proof (steps_counter l ks1 key Hl) as Hm. unfold counter in Hm.
  destruct A1 as (? & _ & _ & _ & _ & _ & Hc1), A2 as (? & _ & _ & _ & Hlt & _).
  rewrite Hc1, lookup_insert_eq in Hm. simpl in Hm. lia.
Qed.

(** A restart locks out every key whose second factor is on: the secrets of
    the second factor are only in memory, re-enrolment is refused because the
    flag was persisted, and so no credentials and no code are accepted until an
    administrator disables the factor. *)
Theorem restart_locks_out_totp_keys ks id l secret c tool now
  (Hr : reachable ks)
  (Hen : at_key id (fun k => TOTPEnabled k = true) ks)
  (Hl : Forall (no_disable id) l) :
  is_ok (ValidateWithTOTP (steps (restart ks) l) id secret c tool now).1 = false.
Proof.
  destruct (reachable_inv ks Hr) as [Hwf Hs].
  assert (store_wf (steps (restart ks) l) /\ synced (steps (restart ks) l) /\
          locked id (steps (restart ks) l)) as (Hw & _ & Hlk).
  { apply (foldl_inv step (fun ks => store_wf ks /\ synced ks /\ locked id ks) (no_disable id)); [| |done].
    - intros s o (? & ? & ?) Ho. pose proof Ho as (_ & ? & _).
      split_and!; [by apply step_wf|by apply step_synced|by apply step_locked].
    - split_and!; [by apply newKeyStore_wf, Hwf|done|]. split; [|done].
      apply at_key_restart; auto using enabled_of_credential. }
  apply locked_refused; [apply Hw|done].
Qed.

(** Listing shows every key once and neither secrets nor hashes. *)
Theorem List_redacted ks (Hwf : store_wf ks) :
  Forall (fun k => Secret k = "[redacted]" /\ SecretHash k = "[redacted]") (List ks) /\
  NoDup (Key <$> List ks) /\
  (forall id, id ∈ (Key <$> List ks) <-> is_Some (keys ks !! id)).
Proof.
  assert (Key <$> List ks = (map_to_list (keys ks)).*1) as HK.
  { unfold List. rewrite <- !list_fmap_compose. apply list_fmap_ext. intros i [id k] Hik. simpl.
    apply list_elem_of_lookup_2, elem_of_map_to_list in Hik. by destruct (proj1 Hwf id k Hik). }
  split; [|split].
  - apply Forall_fmap, Forall_forall. done.
  - rewrite HK. apply NoDup_fst_map_to_list.
  - intros id. rewrite HK, list_elem_of_fmap. split.
    + intros ([id' k] & -> & Hin%elem_of_map_to_list). eauto.
    + intros [k Hk]. exists (id, k). split; [done|]. by apply elem_of_map_to_list.
Qed.

End WithCrypto.

(** ** Witnesses: one administrator key, with and without its second factor *)

#[local] Existing Instance std_crypto.

Definition demo_id : string := "cc_live_" +:+ hex_encode (replicate 16 7).
Definition demo_key_secret : string := "sec_" +:+ hex_encode (replicate 24 9).
Definition demo_generate : op := OGenerate RoleAdmin "ops" (replicate 16 7) (replicate 24 9) (unix_time 1) Written.
Definition demo_ks : KeyStore := steps (newKeyStore NoFile) [demo_generate].
(** The second factor enrolled and confirmed with the code of counter 1. *)
Definition demo_totp_history : list op :=
  [demo_generate; OEnable demo_id "ops" demo_secret; OConfirm demo_id "287082" (unix_time 59) Written].
Definition demo_totp_ks : KeyStore := steps (newKeyStore NoFile) demo_totp_history.
Definition demo_other : op := OGenerate RoleViewer "web" (replicate 16 8) (replicate 24 1) (unix_time 2) Written.

Lemma demo_reachable : reachable demo_ks.
Proof. exists NoFile, [demo_generate]. split_and!; [done|by repeat constructor|done]. Qed.

Lemma demo_totp_reachable : reachable demo_totp_ks.
Proof. exists NoFile, demo_totp_history. split_and!; [done|by repeat constructor|done]. Qed.


Lemma totp_tool_without_secret_witness : is_ok (ValidateWithTOTP demo_ks demo_id demo_key_secret "" "delete_volume" (unix_time 2)).1 = true.
Proof.
  destruct (keys demo_ks !! demo_id) as [k|] eqn:E; [|vm_compute in E; discriminate E].
  pose proof E as E'. vm_compute in E'. injection E' as E'.
  apply (totp_tool_without_secret demo_ks demo_id demo_key_secret "delete_volume" (unix_time 2) k E); try rewrite <- E'; vm_compute; reflexivity.
Defined.

Lemma generated_key_authenticates_witness :
  let '(r, ks1) := GenerateKey demo_ks RoleViewer "web" (replicate 16 8) (replicate 24 1) (unix_time 2) Written in
  exists k, r = Ok k /\ Key k = "cc_live_" +:+ hex_encode (replicate 16 8) /\
    forall t, exists k', (Validate (steps ks1 [ORevoke demo_id Written; ORestart]) (Key k) (Secret k) t).1 = Ok k' /\
      KRole k' = RoleViewer /\ Label k' = "web".
Proof.
  apply (generated_key_authenticates demo_ks RoleViewer "web" (replicate 16 8) (replicate 24 1) (unix_time 2)
           [ORevoke demo_id Written; ORestart]); [apply demo_reachable|].
  repeat constructor; vm_compute; discriminate.
Defined.

Lemma revoked_key_refused_witness :
  is_ok (Validate demo_ks demo_id demo_key_secret (unix_time 3)).1 = true /\
  (Validate (steps (Revoke demo_ks demo_id Written).2 [demo_other; ORestart]) demo_id demo_key_secret (unix_time 4)).1
  = Err "invalid API key".
Proof.
  split; [vm_compute; reflexivity|].
  apply (revoked_key_refused demo_ks demo_id); [apply demo_reachable|reflexivity|].
  repeat constructor; vm_compute; discriminate.
Defined.

Lemma restart_keeps_credentials_witness :
  res_map credential (Validate (restart demo_ks) demo_id demo_key_secret (unix_time 5)).1 =
  res_map credential (Validate demo_ks demo_id demo_key_secret (unix_time 5)).1.
Proof. apply (restart_keeps_credentials demo_ks), demo_reachable. Defined.

Lemma save_load_roundtrip_witness :
  load (KeysFile (reverse (persisted <$> (map_to_list (keys (step demo_ks demo_other))).*2))) =
  persisted <$> keys (step demo_ks demo_other).
Proof.
  apply (save_load_roundtrip (step demo_ks demo_other)); [|apply reverse_Permutation].
  apply step_wf, (reachable_inv demo_ks demo_reachable).
Defined.

Lemma no_plaintext_on_disk_witness :
  store_wf (steps (newKeyStore NoFile) [demo_generate; ORevoke demo_id CutShort; ORestart; demo_other]).
Proof. apply (no_plaintext_on_disk NoFile). exact I. Defined.

(** The key that a successful call returned. *)
Definition returned (r : res APIKey * KeyStore) : APIKey :=
  match r.1 with Ok k => k | Err _ => MkKey "" "" "" "" "" 0 0 false false end.

Definition demo_login1 : res APIKey * KeyStore :=
  ValidateWithTOTP demo_totp_ks demo_id demo_key_secret "359152" "vm_delete" (unix_time 61).
Definition demo_between : list op :=
  [OValidate demo_id demo_key_secret "359152" "vm_delete" (unix_time 62); demo_other].
Definition demo_login2 : res APIKey * KeyStore :=
  ValidateWithTOTP (steps demo_login1.2 demo_between) demo_id demo_key_secret "969429" "vm_delete" (unix_time 91).

Lemma login_codes_not_replayed_witness :
  exists n1 n2, accepts (totp demo_totp_ks) demo_id "359152" (unix_time 61) n1 (totp demo_login1.2) /\
    accepts (totp (steps demo_login1.2 demo_between)) demo_id "969429" (unix_time 91) n2 (totp demo_login2.2) /\
    n1 < n2.
Proof.
  apply (login_codes_not_replayed demo_totp_ks demo_id demo_key_secret "359152" "vm_delete" (unix_time 61)
           (returned demo_login1) demo_login1.2 demo_between demo_key_secret "969429" "vm_delete" (unix_time 91)
           (returned demo_login2) demo_login2.2).
  - apply (reachable_inv demo_totp_ks demo_totp_reachable).
  - vm_compute. reflexivity.
  - vm_compute. reflexivity.
  - repeat constructor.
  - vm_compute. reflexivity.
  - vm_compute. reflexivity.
Defined.

Lemma restart_locks_out_totp_keys_witness :
  is_ok (ValidateWithTOTP (steps (restart demo_totp_ks) [OEnable demo_id "ops" demo_secret; demo_other]) demo_id
           demo_key_secret "359152" "" (unix_time 61)).1 = false /\
  is_ok demo_login1.1 = true.
Proof.
  split; [|vm_compute; reflexivity].
  apply (restart_locks_out_totp_keys demo_totp_ks demo_id [OEnable demo_id "ops" demo_secret; demo_other]).
  - apply demo_totp_reachable.
  - exists (default (returned demo_login1) (keys demo_totp_ks !! demo_id)). split; vm_compute; reflexivity.
  - repeat constructor; vm_compute; discriminate.
Defined.

Lemma List_redacted_witness :
  Forall (fun k => Secret k = "[redacted]" /\ SecretHash k = "[redacted]") (List (step demo_ks demo_other)) /\
  NoDup (Key <$> List (step demo_ks demo_other)) /\
  (forall id, id ∈ (Key <$> List (step demo_ks demo_other)) <-> is_Some (keys (step demo_ks demo_other) !! id)).
Proof. apply (List_redacted (step demo_ks demo_other)), step_wf, (reachable_inv demo_ks demo_reachable). Defined.

(** A revocation whose write fails is reported as a success, and a restart
    accepts the key again. *)
Example revocation_lost_when_not_written :
  let '(r, ks1) := Revoke demo_ks demo_id NotOpened in
  r = Ok tt /\ is_ok (Validate ks1 demo_id demo_key_secret (unix_time 3)).1 = false /\
  is_ok (Validate (restart ks1) demo_id demo_key_secret (unix_time 3)).1 = true.
Proof. vm_compute. done. Qed.
