(* ===== verification/AuditLog.v ===== *)
(** * The audit log (AuditLogger and VerifyAuditChain of mcp-server-go/auth.go)

    Entries are appended to a file, one JSON object per line, each carrying
    the hash of the entry before it.  The file is its text; [AuditJSON] is
    what the code relies on of [encoding/json] for this struct.  Strings that
    are not UTF-8 do not survive encoding: each invalid byte becomes U+FFFD. *)
From S2P Require Import Prelude GoStrings Crypto.
From Stdlib Require Import Ascii.

Open Scope string_scope.
Open Scope Z_scope.

(** ** Data *)

Record AuditEntry : Type := MkEntry {
  Timestamp : string;
  EKey : string;
  ERole : string;
  Method : string;
  Path : string;
  Tool_ : string;
  StatusCode : Z;
  Duration : string;
  Allowed : bool;
  Reason : string;
  PrevHash : string;
  Hash : string;
}.

(** [logger_open] is [file != nil]. *)
Record AuditLogger : Type := MkLogger { logger_open : bool; prevHash : string }.

(** ** UTF-8 as [encoding/json] reads it *)

Definition cont (a : ascii) : bool := (128 <=? code a) && (code a <=? 191).
Definition replacement (s : string) : string :=
  String (ascii_of_N 239) (String (ascii_of_N 191) (String (ascii_of_N 189) s)).

Definition utf8_2 (a b : ascii) : bool := (194 <=? code a) && (code a <=? 223) && cont b.
Definition utf8_3 (a b c : ascii) : bool :=
  (224 <=? code a) && (code a <=? 239) && cont b && cont c &&
  (negb (code a =? 224) || (160 <=? code b)) && (negb (code a =? 237) || (code b <=? 159)).
Definition utf8_4 (a b c d : ascii) : bool :=
  (240 <=? code a) && (code a <=? 244) && cont b && cont c && cont d &&
  (negb (code a =? 240) || (144 <=? code b)) && (negb (code a =? 244) || (code b <=? 143)).

Fixpoint coerce_utf8 (s : string) : string :=
  match s with
  | EmptyString => EmptyString
  | String a s1 =>
      if is_7bit a then String a (coerce_utf8 s1) else
      match s1 with
      | String b s2 =>
          if utf8_2 a b then String a (String b (coerce_utf8 s2)) else
          match s2 with
          | String c s3 =>
              if utf8_3 a b c then String a (String b (String c (coerce_utf8 s3))) else
              match s3 with
              | String d s4 =>
                  if utf8_4 a b c d then String a (String b (String c (String d (coerce_utf8 s4))))
                  else replacement (coerce_utf8 s1)
              | EmptyString => replacement (coerce_utf8 s1)
              end
          | EmptyString => replacement (coerce_utf8 s1)
          end
      | EmptyString => replacement (coerce_utf8 s1)
      end
  end.

(** The entry that decoding its encoding gives. *)
Definition json_entry (e : AuditEntry) : AuditEntry :=
  MkEntry (coerce_utf8 (Timestamp e)) (coerce_utf8 (EKey e)) (coerce_utf8 (ERole e))
    (coerce_utf8 (Method e)) (coerce_utf8 (Path e)) (coerce_utf8 (Tool_ e)) (StatusCode e)
    (coerce_utf8 (Duration e)) (Allowed e) (coerce_utf8 (Reason e)) (coerce_utf8 (PrevHash e))
    (coerce_utf8 (Hash e)).

(** A line of text: no newline inside, no white space at either end. *)
Definition newline : ascii := "010"%char.
Definition is_line (s : string) : Prop :=
  index_any s newline = false /\
  (exists a t, s = String a t /\ plain a = true) /\ (exists b t, String.rev s = String b t /\ plain b = true).

Class AuditJSON : Type := {
  marshalEntry : AuditEntry -> string;
  unmarshalEntry : string -> res AuditEntry;
  marshal_roundtrip : forall e, unmarshalEntry (marshalEntry e) = Ok (json_entry e);
  marshal_is_line : forall e, is_line (marshalEntry e);
}.

(** ** Operations *)

(** The file opens in append mode, the chain starts afresh. *)
Definition newAuditLogger (opened : bool) : AuditLogger := {| logger_open := opened; prevHash := "" |}.

Section Chain.
Context `{Crypto, AuditJSON, GoRuntime}.
(** [auditMACKey]; [None] is [nil]. *)
Context (auditMACKey : option bytes).

Definition payload (e : AuditEntry) : string :=
  Timestamp e +:+ "|" +:+ EKey e +:+ "|" +:+ ERole e +:+ "|" +:+ Method e +:+ "|" +:+ Path e +:+ "|" +:+
  pretty (StatusCode e) +:+ "|" +:+ Duration e +:+ "|" +:+ (if Allowed e then "true" else "false") +:+ "|" +:+
  PrevHash e +:+ "|" +:+ Tool_ e +:+ "|" +:+ Reason e.

Definition computeAuditHash (e : AuditEntry) : string :=
  match auditMACKey with
  | Some key => hex_encode (hmac_sha256 key (bytes_of_string (payload e)))
  | None => hex_encode (sha256 (bytes_of_string (payload e)))
  end.

Definition set_prev (e : AuditEntry) (p : string) : AuditEntry :=
  MkEntry (Timestamp e) (EKey e) (ERole e) (Method e) (Path e) (Tool_ e) (StatusCode e) (Duration e)
    (Allowed e) (Reason e) p (Hash e).
Definition set_hash (e : AuditEntry) (h : string) : AuditEntry :=
  MkEntry (Timestamp e) (EKey e) (ERole e) (Method e) (Path e) (Tool_ e) (StatusCode e) (Duration e)
    (Allowed e) (Reason e) (PrevHash e) h.

(** [wrote_line] and [wrote_newline]: whether the two writes succeed, which
    the code does not look at. *)
Definition Log (al : AuditLogger) (file : string) (e : AuditEntry) (wrote_line wrote_newline : bool)
  : AuditLogger * string :=
  if negb (logger_open al) then (al, file)
  else
    let e := set_prev e (prevHash al) in
    let e := set_hash e (computeAuditHash e) in
    let line := marshalEntry e in
    let file := if wrote_line then file +:+ line else file in
    let file := if wrote_newline then file +:+ String newline "" else file in
    ({| logger_open := true; prevHash := Hash e |}, file).

Fixpoint verify_lines (i : Z) (prev : string) (count : Z) (lines : list string) : Z * option string :=
  match lines with
  | [] => (count, None)
  | line :: lines =>
      if line =s "" then verify_lines (i + 1) prev count lines
      else
        match unmarshalEntry line with
        | Err m => (i, Some ("line " +:+ pretty (i + 1) +:+ ": malformed JSON: " +:+ m))
        | Ok e =>
            if PrevHash e <>s prev then
              (i, Some ("line " +:+ pretty (i + 1) +:+ ": hash chain broken (expected prev " +:+
                        fmt_quote prev +:+ ", got " +:+ fmt_quote (PrevHash e) +:+ ")"))
            else
              let expected := computeAuditHash e in
              if Hash e <>s expected then
                (i, Some ("line " +:+ pretty (i + 1) +:+ ": hash mismatch (expected " +:+ expected +:+
                          ", got " +:+ Hash e +:+ ")"))
              else verify_lines (i + 1) (Hash e) (count + 1) lines
        end
  end.

(** The data, or the error of [os.ReadFile]. *)
Definition VerifyAuditChain (read : res string) : Z * option string :=
  match read with
  | Err m => (0, Some m)
  | Ok data => verify_lines 0 "" 0 (Split (TrimSpace data) newline)
  end.

(** Logging a sequence, every write succeeding. *)
Definition log_all (al : AuditLogger) (file : string) (es : list AuditEntry) : AuditLogger * string :=
  foldl (fun st e => Log st.1 st.2 e true true) (al, file) es.

(** ** Lemmas *)

(** The entries as written when the chain continues from [p]. *)
Fixpoint seal (p : string) (es : list AuditEntry) : list AuditEntry :=
  match es with
  | [] => []
  | e :: es =>
      let e := set_prev e p in
      let e := set_hash e (computeAuditHash e) in
      e :: seal (Hash e) es
  end.

Definition unlines (ls : list string) : string := foldr (fun l acc => l +:+ String newline acc) "" ls.

(** The hash the chain ends in. *)
Definition last_hash (p : string) (es : list AuditEntry) : string :=
  match last (seal p es) with Some e => Hash e | None => p end.

Lemma last_hash_cons p e es :
  last_hash p (e :: es) = last_hash (computeAuditHash (set_prev e p)) es.
Proof.
  unfold last_hash. cbn [seal set_hash Hash]. destruct (seal (computeAuditHash (set_prev e p)) es) as [|x l] eqn:Hs.
  - done.
  - rewrite last_cons_cons. destruct (last (x :: l)) eqn:Hl; [done|by apply last_None in Hl].
Qed.

Lemma log_all_spec es : forall p file,
  log_all {| logger_open := true; prevHash := p |} file es =
  ({| logger_open := true; prevHash := last_hash p es |}, file +:+ unlines (marshalEntry <$> seal p es)).
Proof.
  induction es as [|e es IH]; intros p file.
  - cbn. by rewrite app_nil_r_str.
  - change (log_all ?a ?f (e :: es)) with (log_all (Log a f e true true).1 (Log a f e true true).2 es).
    unfold Log. cbn [logger_open negb fst snd prevHash Hash set_hash]. rewrite IH, last_hash_cons.
    cbn [seal fmap list_fmap unlines foldr Hash set_hash]. f_equal.
    rewrite !app_assoc_str. by rewrite app_cons_str.
Qed.

Lemma unlines_app l1 l2 : unlines (l1 ++ l2) = unlines l1 +:+ unlines l2.
Proof. induction l1 as [|l l1 IH]; [done|]. cbn [app unlines foldr]. fold (unlines (l1 ++ l2)) (unlines l1). rewrite IH. by rewrite app_assoc_str, app_cons_str. Qed.


(** The text of a file of lines, read the way the verifier reads it. *)
Lemma unlines_last ls : ls <> [] -> Forall is_line ls ->
  exists body, unlines ls = body +:+ String newline "" /\
    (exists a t, body = String a t /\ plain a = true) /\
    (exists b t, String.rev body = String b t /\ plain b = true) /\
    Split body newline = ls.
Proof.
  induction ls as [|l ls IH]; [done|]. intros _ [Hl Hls]%Forall_cons.
  destruct ls as [|l2 ls].
  - exists l. destruct Hl as (Hn & Hh & Ht). split_and!; [done|done|done|by apply Split_none].
  - destruct IH as (body & Hu & Hb1 & (b & t & Hb & Hpb) & Hsp); [done|done|].
    exists (l +:+ String newline body). destruct Hl as (Hn & (a & t' & -> & Hpa) & _). split_and!.
    + change (unlines (?x :: l2 :: ls)) with (x +:+ String newline (unlines (l2 :: ls))).
      rewrite Hu. by rewrite !app_assoc_str, app_cons_str.
    + by eexists _, _.
    + rewrite rev_app_str, rev_cons_str, Hb. by eexists _, _.
    + rewrite Split_app, Hsp, Split_none by done. done.
Qed.

Lemma Split_unlines ls : ls <> [] -> Forall is_line ls -> Split (TrimSpace (unlines ls)) newline = ls.
Proof.
  intros Hne Hls.
  destruct (unlines_last ls Hne Hls) as (body & -> & (a & t & Ha & Hpa) & (b & u & Hb & Hpb) & <-).
  unfold TrimSpace. rewrite Ha, app_cons_str, trim_left_plain by done. rewrite <- app_cons_str, <- Ha.
  rewrite rev_app_str, Hb. change (String.rev (String newline "")) with (String newline "").
  rewrite app_cons_str, app_nil_l_str.
  change (trim_right_rev (String newline ?t)) with (trim_right_rev t). rewrite trim_right_rev_plain by done.
  rewrite <- Hb. by rewrite rev_rev_str.
Qed.

Lemma is_line_ne l : is_line l -> l <> "".
Proof. by intros (_ & (a & t & -> & _) & _). Qed.

Lemma marshal_lines es : Forall is_line (marshalEntry <$> es).
Proof. apply Forall_fmap, Forall_true. intros. apply marshal_is_line. Qed.

(** Entries whose text survives encoding. *)
Definition utf8_entry (e : AuditEntry) : Prop := json_entry e = e.

Lemma coerce_7bit s : str_all is_7bit s = true -> coerce_utf8 s = s.
Proof.
  induction s as [|a s IH]; [done|]. cbn [str_all coerce_utf8]. intros [Ha Hs]%andb_true_iff.
  rewrite Ha. by rewrite IH.
Qed.

Lemma computeAuditHash_7bit e : str_all is_7bit (computeAuditHash e) = true.
Proof. unfold computeAuditHash. destruct auditMACKey; apply hex_encode_7bit; [apply hmac_sha256_bytes|apply sha256_bytes]. Qed.

Lemma computeAuditHash_length e : String.length (computeAuditHash e) = 64%nat.
Proof.
  assert (forall b, String.length (hex_encode b) = (2 * length b)%nat) as Hh.
  { induction b as [|x b IH]; [done|]. cbn [hex_encode String.length length]. lia. }
  unfold computeAuditHash. destruct auditMACKey; rewrite Hh, ?hmac_sha256_length, ?sha256_length; done.
Qed.

(** Reading back what was logged. *)
Lemma json_sealed e p : utf8_entry e -> str_all is_7bit p = true ->
  let e' := set_hash (set_prev e p) (computeAuditHash (set_prev e p)) in json_entry e' = e'.
Proof.
  intros He Hp. unfold utf8_entry in He. destruct e. unfold json_entry in *. simpl in *.
  injection He as -> -> -> -> -> -> -> -> _ _.
  by rewrite (coerce_7bit p), (coerce_7bit (computeAuditHash _)) by (done || apply computeAuditHash_7bit).
Qed.

Lemma verify_sealed es : forall i p n rest, Forall utf8_entry es -> str_all is_7bit p = true ->
  verify_lines i p n ((marshalEntry <$> seal p es) ++ rest) =
  verify_lines (i + Z.of_nat (length es)) (last_hash p es) (n + Z.of_nat (length es)) rest.
Proof.
  induction es as [|e es IH]; intros i p n rest Hes Hp.
  - cbn. by rewrite !Z.add_0_r.
  - apply Forall_cons in Hes as [He Hes]. rewrite last_hash_cons.
    cbn [seal fmap list_fmap app verify_lines].
    rewrite bool_decide_false by (apply is_line_ne, marshal_is_line).
    rewrite marshal_roundtrip, json_sealed by done. cbn [PrevHash set_hash set_prev Hash].
    rewrite (bool_decide_true (p = p)) by done. cbn [negb].
    change (computeAuditHash (set_hash (set_prev e p) ?h)) with (computeAuditHash (set_prev e p)).
    rewrite bool_decide_true by done. cbn [negb].
    rewrite IH by (done || apply computeAuditHash_7bit). cbn [length]. f_equal; lia.
Qed.

(** The entries of a file that verifies. *)
Fixpoint chain (p : string) (es : list AuditEntry) : Prop :=
  match es with
  | [] => True
  | e :: es => PrevHash e = p /\ Hash e = computeAuditHash e /\ chain (Hash e) es
  end.

Fixpoint end_hash (p : string) (es : list AuditEntry) : string :=
  match es with
  | [] => p
  | e :: es => end_hash (Hash e) es
  end.

(** Two payloads of the two files with the same digest. *)
Definition collision (es es' : list AuditEntry) : Prop :=
  exists e e', e ∈ es /\ e' ∈ es' /\ payload e <> payload e' /\ computeAuditHash e = computeAuditHash e'.

Lemma chain_snoc es : forall p e, chain p (es ++ [e]) <->
  chain p es /\ PrevHash e = end_hash p es /\ Hash e = computeAuditHash e.
Proof.
  induction es as [|x es IH]; intros p e; cbn [app chain end_hash]; [tauto|]. rewrite IH. tauto.
Qed.

Lemma end_hash_snoc es : forall p e, end_hash p (es ++ [e]) = Hash e.
Proof. induction es as [|x es IH]; intros p e; [done|]. apply IH. Qed.

(** What the verifier accepts is a chain. *)
Lemma verify_lines_chain ls : forall i p n n',
  verify_lines i p n ls = (n', None) ->
  exists es, omap (fun l => match unmarshalEntry l with Ok e => if l =s "" then None else Some e | Err _ => None end) ls = es /\
    chain p es /\ n' = n + Z.of_nat (length es).
Proof.
  induction ls as [|l ls IH]; intros i p n n' Hv; cbn [verify_lines] in Hv.
  - injection Hv as <-. exists []. split_and!; [done|done|simpl; lia].
  - cbn [omap list_omap]. case_bool_decide as Hl.
    + apply IH in Hv as (es & He & Hc & Hn). exists es. split_and!; [|done|done].
      subst l. by destruct (unmarshalEntry ""); [|].
    + destruct (unmarshalEntry l) as [e|m]; [|done].
      case_bool_decide as Hp; [|done]. cbn [negb] in Hv. case_bool_decide as Hh; [|done]. cbn [negb] in Hv.
      apply IH in Hv as (es & He & Hc & Hn). exists (e :: es).
      rewrite He. split_and!; [done|done|simpl; lia].
Qed.

(** *** Payloads *)

Definition bar : ascii := "|"%char.

Fixpoint count_bars (s : string) : nat :=
  match s with
  | EmptyString => 0
  | String a s => (if bool_decide (a = bar) then 1 else 0) + count_bars s
  end%nat.

Definition payload_fields (e : AuditEntry) : list string :=
  [Timestamp e; EKey e; ERole e; Method e; Path e; pretty (StatusCode e); Duration e;
   (if Allowed e then "true" else "false"); PrevHash e; Tool_ e; Reason e].

(** No field contains the separator. *)
Definition sep_free (e : AuditEntry) : Prop := Forall (fun f => count_bars f = 0%nat) (payload_fields e).

Fixpoint join_bars (l : list string) : string :=
  match l with
  | [] => ""
  | [f] => f
  | f :: l => f +:+ String bar (join_bars l)
  end.

Lemma payload_join e : payload e = join_bars (payload_fields e).
Proof. done. Qed.

Lemma count_bars_app s t : count_bars (s +:+ t) = (count_bars s + count_bars t)%nat.
Proof. induction s as [|a s IH]; [done|]. rewrite app_cons_str. cbn [count_bars]. rewrite IH. lia. Qed.

Lemma count_bars_index s : count_bars s = 0%nat -> index_any s bar = false.
Proof.
  unfold index_any, str_any. induction s as [|a s IH]; [done|]. cbn [count_bars str_all].
  case_bool_decide; [done|]. simpl. auto.
Qed.

Lemma count_join l : l <> [] -> count_bars (join_bars l) = (sum_list (count_bars <$> l) + (length l - 1))%nat.
Proof.
  induction l as [|f [|g l] IH]; [done|intros _; simpl; lia|]. intros _. specialize (IH ltac:(done)).
  cbn [join_bars] in *. rewrite count_bars_app. cbn [count_bars]. rewrite IH.
  rewrite bool_decide_true by done. simpl. lia.
Qed.

Lemma Split_join l : l <> [] -> Forall (fun f => count_bars f = 0%nat) l -> Split (join_bars l) bar = l.
Proof.
  induction l as [|f [|g l] IH]; [done| |].
  - intros _ [Hf _]%Forall_cons. by apply Split_none, count_bars_index.
  - intros _ [Hf Hl]%Forall_cons. change (join_bars (f :: g :: l)) with (f +:+ String bar (join_bars (g :: l))).
    rewrite Split_app, IH, Split_none by (done || by apply count_bars_index). done.
Qed.

Lemma sum_list_0 l : sum_list l = 0%nat -> Forall (fun n => n = 0%nat) l.
Proof. induction l as [|n l IH]; simpl; [done|]. intros. constructor; [lia|apply IH; lia]. Qed.

Lemma sum_counts_0 l : Forall (fun f => count_bars f = 0%nat) l -> sum_list (count_bars <$> l) = 0%nat.
Proof. induction 1 as [|f l Hf _ IH]; [done|]. simpl. rewrite Hf. exact IH. Qed.

(** The payload determines an entry without separators in its fields. *)
Lemma payload_inj e e' : sep_free e -> payload e = payload e' -> Hash e = Hash e' -> e = e'.
Proof.
  unfold sep_free. rewrite !payload_join. intros He Heq Hh.
  assert (Forall (fun f => count_bars f = 0%nat) (payload_fields e')) as He'.
  { pose proof (f_equal count_bars Heq) as Hn. rewrite !count_join in Hn by done.
    rewrite (sum_counts_0 _ He) in Hn. change (length (payload_fields _) - 1)%nat with 10%nat in Hn.
    assert (Forall (fun n => n = 0%nat) (count_bars <$> payload_fields e')) as Hz by (apply sum_list_0; lia).
    by rewrite Forall_fmap in Hz. }
  apply (f_equal (fun s => Split s bar)) in Heq. rewrite !Split_join in Heq by done.
  destruct e, e'. simpl in *. unfold payload_fields in Heq. simpl in Heq.
  injection Heq as -> -> -> -> -> Hst -> Hal -> -> ->. apply (inj pretty) in Hst as ->. subst.
  f_equal. destruct Allowed0, Allowed1; done.
Qed.

(** ** Properties *)

(** C37: what the logger writes verifies: after any sequence of entries on an
    empty log, all of them UTF-8 and all writes successful, the verifier
    reports every entry and no error. *)
Theorem log_then_verify es (Hes : Forall utf8_entry es) :
  VerifyAuditChain (Ok (log_all (newAuditLogger true) "" es).2) = (Z.of_nat (length es), None).
Proof.
  unfold newAuditLogger, VerifyAuditChain. rewrite log_all_spec. cbn [snd]. rewrite app_nil_l_str.
  destruct es as [|e es]; [done|].
  rewrite Split_unlines by (done || apply marshal_lines).
  rewrite <- (app_nil_r (marshalEntry <$> _)), verify_sealed by done. done.
Qed.

(** A restart breaks the chain: the file is appended to but the new logger
    starts again from the empty hash, so a log with entries before and after a
    restart never verifies; the first entry after the restart is reported. *)
Theorem restart_breaks_chain es e es' (Hes : Forall utf8_entry es) (Hne : es <> []) :
  let before := (log_all (newAuditLogger true) "" es).2 in
  let after := (log_all (newAuditLogger true) before (e :: es')).2 in
  exists msg, VerifyAuditChain (Ok after) = (Z.of_nat (length es), Some msg).
Proof.
  unfold newAuditLogger, VerifyAuditChain. rewrite !log_all_spec. cbn [snd].
  rewrite app_nil_l_str, <- unlines_app, <- fmap_app.
  rewrite Split_unlines; [|by destruct es|apply marshal_lines].
  rewrite fmap_app, verify_sealed by done. cbn [seal fmap list_fmap verify_lines].
  rewrite bool_decide_false by (apply is_line_ne, marshal_is_line). rewrite marshal_roundtrip.
  cbn [PrevHash json_entry set_hash set_prev coerce_utf8].
  rewrite bool_decide_false; [by eexists|].
  destruct es as [|e0 es]; [done|]. rewrite last_hash_cons. intros Heq.
  assert (forall l p, String.length p = 64%nat -> String.length (last_hash p l) = 64%nat) as Hlen.
  { clear. intros l. induction l as [|x l IH]; intros p Hp; [done|]. rewrite last_hash_cons. apply IH, computeAuditHash_length. }
  specialize (Hlen es (computeAuditHash (set_prev e0 "")) (computeAuditHash_length _)).
  by rewrite <- Heq in Hlen.
Qed.

(** Two chains of the same length that end in the same hash. *)
Lemma chains_agree es es'
  (Hfree : Forall sep_free es)
  (Hc : chain "" es) (Hc' : chain "" es') (Hlen : length es = length es')
  (Hend : end_hash "" es = end_hash "" es') :
  es = es' \/ collision es es'.
Proof.
  revert es' Hc' Hlen Hend. induction es as [|e es IH] using rev_ind; intros es' Hc' Hlen Hend.
  - destruct es'; [by left|done].
  - destruct es' as [|e' es' _] using rev_ind; [rewrite length_app in Hlen; simpl in Hlen; lia|].
    rewrite !length_app in Hlen. simpl in Hlen. rewrite !end_hash_snoc in Hend.
    apply Forall_app in Hfree as [Hfree [Hfe _]%Forall_cons].
    apply chain_snoc in Hc as (Hc & Hp & Hh). apply chain_snoc in Hc' as (Hc' & Hp' & Hh').
    destruct (decide (payload e = payload e')) as [Heq|Hne].
    + assert (e = e') as <- by (apply payload_inj; [done|done|congruence]).
      destruct (IH Hfree Hc es') as [->|(x & x' & Hx & Hx' & Hcol)]; [done|lia|congruence|by left|].
      right. exists x, x'. rewrite !elem_of_app. tauto.
    + right. exists e, e'. rewrite !elem_of_app, !list_elem_of_singleton. split_and!; [by right|by right|done|congruence].
Qed.

(** The entries of a file, as the verifier decodes them line by line. *)
Definition entries_of (data : string) : list AuditEntry :=
  omap (fun l => match unmarshalEntry l with Ok e => if l =s "" then None else Some e | Err _ => None end)
    (Split (TrimSpace data) newline).

Lemma seal_chain es : forall p, chain p (seal p es) /\ length (seal p es) = length es /\ end_hash p (seal p es) = last_hash p es.
Proof.
  induction es as [|e es IH]; intros p; [done|]. rewrite last_hash_cons. cbn [seal chain length end_hash].
  destruct (IH (computeAuditHash (set_prev e p))) as (Q1 & Q2 & Q3). split_and!; [done|done|exact Q1|by rewrite <- Q2|exact Q3].
Qed.

Lemma hex_encode_bars b : Forall (fun x => 0 <= x < 256) b -> count_bars (hex_encode b) = 0%nat.
Proof.
  assert (Hd : forall n, 0 <= n < 16 -> bool_decide (hex_digit n = bar) = false).
  { intros n Hn. assert (n ∈ seqZ 0 16) as Hin by (apply elem_of_seqZ; lia). clear Hn. revert n Hin. apply Forall_forall.
    repeat constructor. }
  induction 1 as [|x b Hx _ IH]; [done|]. cbn [hex_encode count_bars].
  rewrite !Hd, IH; [done| |].
  - apply Z.mod_pos_bound. lia.
  - split; [apply Z.div_pos; lia|apply Z.div_lt_upper_bound; lia].
Qed.

Lemma seal_sep_free es : Forall sep_free es -> forall p, count_bars p = 0%nat -> Forall sep_free (seal p es).
Proof.
  induction 1 as [|e es He _ IH]; intros p Hp; [constructor|]. cbn [seal]. constructor.
  - unfold sep_free, payload_fields in *. cbn [set_hash set_prev Timestamp EKey ERole Method Path StatusCode Duration Allowed PrevHash Tool_ Reason].
    rewrite !Forall_cons in *. tauto.
  - apply IH. unfold computeAuditHash. cbn [Hash set_hash]. destruct auditMACKey; apply hex_encode_bars; [apply hmac_sha256_bytes|apply sha256_bytes].
Qed.

(** C36: the verifier shows tampering.  Let a logger that starts on an empty log
    write a sequence of entries whose fields do not contain the separator.
    Whatever file VerifyAuditChain is then given: if it accepts the file, counts
    as many entries as were logged, and the last entry carries the hash that
    the logger ended with (which has to be known from elsewhere: the verifier
    does not compare it), then the file decodes, entry by entry and field by
    field, to exactly what was logged, or two different payloads of the two
    logs have the same hash. *)
Theorem audit_tamper_evident es data
  (Hfree : Forall sep_free es)
  (Hok : VerifyAuditChain (Ok data) = (Z.of_nat (length es), None))
  (Hend : end_hash "" (entries_of data) = prevHash (log_all (newAuditLogger true) "" es).1) :
  entries_of data = seal "" es \/ collision (seal "" es) (entries_of data).
Proof.
  destruct (seal_chain es "") as (Hc & Hlen & He). apply verify_lines_chain in Hok as (es' & Hes & Hc' & Hn).
  fold (entries_of data) in Hes. subst es'. unfold newAuditLogger in Hend. rewrite log_all_spec in Hend. cbn [fst prevHash] in Hend.
  destruct (chains_agree (seal "" es) (entries_of data)) as [->|?]; [by apply seal_sep_free|done|done|lia|congruence|by left|by right].
Qed.

(** The separator is not escaped: an entry can be rewritten into another
    with a different key, role and method and the same hash, and the log still
    verifies. *)
Theorem payload_ambiguous :
  exists e e', EKey e <> EKey e' /\ ERole e <> ERole e' /\ Method e <> Method e' /\
    PrevHash e = PrevHash e' /\ computeAuditHash e = computeAuditHash e' /\
    (chain "" [set_hash e (computeAuditHash e)] /\ chain "" [set_hash e' (computeAuditHash e)]).
Proof.
  exists (MkEntry "t" "mallory" "viewer" "|POST" "/mcp" "vm_delete" 200 "1ms" true "" "" ""),
         (MkEntry "t" "mallory|viewer" "" "POST" "/mcp" "vm_delete" 200 "1ms" true "" "" "").
  repeat split; discriminate.
Qed.
End Chain.

(** ** A concrete codec

    Entries as one number between braces: enough to evaluate the log. *)

Definition entry_tuple (e : AuditEntry) :=
  (Timestamp e, EKey e, ERole e, Method e, Path e, Tool_ e, (StatusCode e, Duration e, Allowed e, Reason e, PrevHash e, Hash e)).

Definition tuple_entry t : AuditEntry :=
  let '(ts, k, r, m, p, t, (sc, d, al, re, ph, h)) := t in MkEntry ts k r m p t sc d al re ph h.

Definition demo_marshal (e : AuditEntry) : string :=
  "{" +:+ pretty (Z.pos (encode (entry_tuple (json_entry e)))) +:+ "}".

Definition demo_unmarshal (s : string) : res AuditEntry :=
  match s with
  | String _ t =>
      match decode (Z.to_pos (dec_value (before t "}") 0)) with
      | Some x => Ok (tuple_entry x)
      | None => Err "malformed"
      end
  | EmptyString => Err "unexpected end of JSON input"
  end.

Lemma digits_index s c : str_all is_digit s = true -> is_digit c = false -> index_any s c = false.
Proof. apply index_any_all. Qed.

Lemma demo_roundtrip e : demo_unmarshal (demo_marshal e) = Ok (json_entry e).
Proof.
  unfold demo_marshal, demo_unmarshal. set (x := entry_tuple (json_entry e)).
  destruct (pretty_nonneg (Z.pos (encode x))) as (Hv & Hd & _); [lia|].
  change ("{" +:+ ?s) with (String "{"%char s). cbn iota. change "}" with (String "}"%char "").
  rewrite before_app by (by apply digits_index).
  rewrite Hv. simpl Z.to_pos. rewrite decode_encode. by destruct e.
Qed.

Lemma demo_is_line e : is_line (demo_marshal e).
Proof.
  unfold demo_marshal, is_line. set (x := encode (entry_tuple (json_entry e))).
  destruct (pretty_nonneg (Z.pos x)) as (_ & Hd & _); [lia|]. split_and!.
  - rewrite !index_any_app. by rewrite (digits_index (pretty (Z.pos x))).
  - by eexists _, _.
  - rewrite !rev_app_str. by eexists _, _.
Qed.

Definition demo_json : AuditJSON :=
  {| marshalEntry := demo_marshal; unmarshalEntry := demo_unmarshal;
     marshal_roundtrip := demo_roundtrip; marshal_is_line := demo_is_line |}.

Section Witnesses.
#[local] Existing Instance std_crypto.
#[local] Existing Instance demo_json.
#[local] Existing Instance demo_runtime.

Definition demo_entry (key tool : string) : AuditEntry :=
  MkEntry "2026-01-02T03:04:05Z" key "admin" "POST" "/mcp" tool 200 "1ms" true "" "" "".
Definition demo_entries : list AuditEntry := [demo_entry "cc_live_0707***" "vm_delete"; demo_entry "cc_live_0808***" ""].
Definition demo_mac : option bytes := Some (bytes_of_string "key").

Lemma demo_entries_utf8 : Forall utf8_entry demo_entries.
Proof. repeat constructor. Qed.

Lemma log_then_verify_witness :
  VerifyAuditChain demo_mac (Ok (log_all demo_mac (newAuditLogger true) "" demo_entries).2) = (2, None).
Proof. apply (log_then_verify demo_mac demo_entries demo_entries_utf8). Defined.

Lemma restart_breaks_chain_witness :
  let before := (log_all demo_mac (newAuditLogger true) "" demo_entries).2 in
  let after := (log_all demo_mac (newAuditLogger true) before [demo_entry "k" "vm_list"]).2 in
  exists msg, VerifyAuditChain demo_mac (Ok after) = (2, Some msg).
Proof.
  apply (restart_breaks_chain demo_mac demo_entries (demo_entry "k" "vm_list") []); [apply demo_entries_utf8|done].
Defined.

(** The same entries in a file with an empty line between them. *)
Definition spaced : string :=
  match seal demo_mac "" demo_entries with
  | [e1; e2] => marshalEntry e1 +:+ String newline (String newline (marshalEntry e2))
  | _ => ""
  end.

Lemma spaced_lines e1 e2 : Split (TrimSpace (marshalEntry e1 +:+ String newline (String newline (marshalEntry e2)))) newline =
  [marshalEntry e1; ""; marshalEntry e2].
Proof.
  destruct (marshal_is_line e1) as (N1 & (a & t & E1 & P1) & _), (marshal_is_line e2) as (N2 & _ & (b & u & E2 & P2)).
  assert (TrimSpace (marshalEntry e1 +:+ String newline (String newline (marshalEntry e2))) =
    marshalEntry e1 +:+ String newline (String newline (marshalEntry e2))) as ->.
  { unfold TrimSpace. rewrite E1, app_cons_str, trim_left_plain by done. rewrite <- app_cons_str, <- E1.
    rewrite rev_app_str, !rev_cons_str, E2, !app_cons_str, trim_right_rev_plain by done.
    rewrite <- !app_cons_str, <- E2, <- !rev_cons_str, <- rev_app_str. by rewrite rev_rev_str. }
  rewrite Split_app. rewrite (Split_none _ _ N1). change (String newline (marshalEntry e2)) with ("" +:+ String newline (marshalEntry e2)).
  rewrite Split_app. rewrite (Split_none _ _ N2). done.
Qed.

(** Two chained entries with an empty line between them: decoded and accepted. *)
Lemma spaced_verified mac e1 e2 : json_entry e1 = e1 -> json_entry e2 = e2 -> chain mac "" [e1; e2] ->
  let data := marshalEntry e1 +:+ String newline (String newline (marshalEntry e2)) in
  entries_of data = [e1; e2] /\ VerifyAuditChain mac (Ok data) = (2, None).
Proof.
  intros J1 J2 (P1 & H1 & P2 & H2 & _) data. unfold entries_of, VerifyAuditChain, data. rewrite spaced_lines.
  cbn [omap list_omap verify_lines]. rewrite !(bool_decide_false (marshalEntry _ = "")) by apply is_line_ne, marshal_is_line.
  rewrite !marshal_roundtrip, J1, J2. rewrite (bool_decide_true (PrevHash e1 = "")), (bool_decide_true (Hash e1 = _)), (bool_decide_true ("" = "")) by done.
  cbn [negb]. by rewrite (bool_decide_true (PrevHash e2 = _)), (bool_decide_true (Hash e2 = _)) by done.
Qed.

Lemma audit_tamper_evident_witness :
  spaced <> (log_all demo_mac (newAuditLogger true) "" demo_entries).2 /\
  (entries_of spaced = seal demo_mac "" demo_entries \/ collision demo_mac (seal demo_mac "" demo_entries) (entries_of spaced)).
Proof.
  assert (json_entry <$> seal demo_mac "" demo_entries = seal demo_mac "" demo_entries) as Hj by (vm_compute; reflexivity).
  destruct (seal_chain demo_mac demo_entries "") as (Hc & _ & Hend).
  pose proof (log_all_spec demo_mac demo_entries "" "") as Hlog.
  assert (exists e1 e2, seal demo_mac "" demo_entries = [e1; e2]) as (e1 & e2 & Hs) by (by eexists _, _).
  assert (spaced = marshalEntry e1 +:+ String newline (String newline (marshalEntry e2))) as Hsp by (unfold spaced; by rewrite Hs).
  rewrite Hs in Hj, Hc, Hend. pose proof (f_equal head Hj) as J1. pose proof (f_equal last Hj) as J2. injection J1 as J1. injection J2 as J2.
  destruct (spaced_verified demo_mac e1 e2 J1 J2 Hc) as [Hent Hok]. rewrite <- Hsp in Hent, Hok. split.
  - unfold newAuditLogger. rewrite Hlog. cbn [snd]. rewrite app_nil_l_str, Hs. intros E.
    apply (f_equal (fun d => length (Split (TrimSpace d) newline))) in E. rewrite Hsp, spaced_lines, Split_unlines in E; [discriminate E|done|apply marshal_lines].
  - apply (audit_tamper_evident demo_mac demo_entries spaced); [repeat constructor|exact Hok|].
    rewrite Hent, Hend. unfold newAuditLogger. by rewrite Hlog.
Defined.

End Witnesses.

(** A key that is not UTF-8 breaks the log: the hash is computed over the
    bytes received but the line carries the replacement character, so the
    verifier reports a mismatch for the entry.  The key comes from a request
    header, before authentication. *)
Theorem invalid_utf8_breaks_log `{AuditJSON, GoRuntime} :
  let bad := demo_entry (String (ascii_of_N 255) "") "" in
  exists msg, @VerifyAuditChain std_crypto _ _ None
    (Ok (@log_all std_crypto _ None (newAuditLogger true) "" [bad]).2) = (0, Some msg).
Proof.
  intros bad. unfold newAuditLogger, VerifyAuditChain.
  rewrite log_all_spec. cbn [snd]. rewrite app_nil_l_str.
  rewrite Split_unlines by (done || apply marshal_lines). cbn [seal fmap list_fmap verify_lines].
  rewrite bool_decide_false by (apply is_line_ne, marshal_is_line). rewrite marshal_roundtrip.
  eexists. vm_compute. reflexivity.
Qed.
