(* ===== verification/Middleware.v ===== *)
(** * The HTTP gate (AuthMiddleware, AuthAdminAPI and their helpers in
    mcp-server-go/auth.go; extractToolFromRequest and the routes of server.go)

    Every request to [/mcp] goes through [Wrap]: authentication with the second
    factor, rate limits per address and per key, the permission of the tool
    named in the body, an audit entry.  The other protected routes go through
    [RequireRole].  Clock readings, the texts of the time stamp and of the
    duration, and the outcome of the audit writes come from [env]; the handler
    behind the gate is the list of calls it makes on its ResponseWriter;
    decoding of JSON bodies is a parameter. *)
From S2P Require Import Prelude GoStrings NetIP Crypto Rbac Totp KeyStore RateLimiter AuditLog.
From Stdlib Require Import Ascii.

Open Scope string_scope.
Open Scope Z_scope.

(** ** Requests and responses *)

(** [r.Body]: nil, failing to read, or text (reading it leaves it in place). *)
Inductive body : Type := BodyNil | BodyErr | BodyText (s : string).

Record request : Type := MkRequest {
  r_method : string;
  r_path : string;
  r_remote : string;
  r_header : string -> string;
  r_body : body;
}.

(** Calls on a [http.ResponseWriter]. *)
Inductive wcall : Type := WriteHeader (code : Z) | Write.

Record statusCaptureWriter : Type := MkCapture { status : Z; wroteHead : bool }.

Definition capture (w : statusCaptureWriter) (c : wcall) : statusCaptureWriter :=
  match c with
  | WriteHeader code => if negb (wroteHead w) then {| status := code; wroteHead := true |} else w
  | Write => if negb (wroteHead w) then {| status := 200; wroteHead := true |} else w
  end.

(** [Answer] is [writeJSONError], with or without a [Retry-After] header;
    [Served] is the answer of the next handler. *)
Inductive response : Type :=
  | Answer (code : Z) (msg : string) (retry_after : bool)
  | Served (calls : list wcall).

Definition response_status (r : response) : Z :=
  match r with
  | Answer code _ _ => code
  | Served calls => status (foldl capture {| status := 200; wroteHead := false |} calls)
  end.

Definition served (r : response) : bool := match r with Served _ => true | Answer _ _ _ => false end.

(** ** Helpers *)

Definition ipFromAddr (addr : string) : string :=
  match SplitHostPort addr with
  | Some host => host
  | None => addr
  end.

Definition extractAuth (r : request) : string * string * string :=
  let key := r_header r "X-API-Key" in
  let secret := r_header r "X-API-Secret" in
  let totpCode := r_header r "X-TOTP" in
  if (key <>s "") && (secret <>s "") then (key, secret, totpCode)
  else
    let auth := r_header r "Authorization" in
    if HasPrefix auth "Bearer " then
      match SplitN2 (TrimPrefix auth "Bearer ") ":" with
      | [k; s] => (k, s, totpCode)
      | _ => ("", "", "")
      end
    else ("", "", "").

Definition maskKey (key : string) : string :=
  if (String.length key <=? 12)%nat then key else str_take 12 key +:+ "***".

(** The text looked for, with its quotes. *)
Definition quoted_tools_call : string := String "034"%char ("tools/call" +:+ String "034"%char "").

Definition isToolsCallRequest (r : request) : bool :=
  if r_method r <>s "POST" then false
  else match r_body r with
       | BodyText s => Contains s quoted_tools_call
       | BodyNil | BodyErr => false
       end.

(** [parse] decodes the JSON-RPC method and the tool name; the count of tool
    calls kept for the metrics is left out. *)
Definition extractToolFromRequest (parse : string -> option (string * string)) (r : request) : string :=
  match r_body r with
  | BodyNil | BodyErr => ""
  | BodyText s =>
      match parse s with
      | None => ""
      | Some (method, name) => if method =s "tools/call" then name else ""
      end
  end.

(** ** The middleware *)

Record AuthMiddleware : Type := MkMiddleware {
  am_keys : KeyStore;
  am_limiter : rateLimiter;
  am_ipLimiter : rateLimiter;
  am_authFailLimit : rateLimiter;
  am_audit : option AuditLogger;
  am_file : string;
}.

Definition newAuthMiddleware (ks : KeyStore) (lim : rateLimiter) (audit : option AuditLogger) (file : string)
  : AuthMiddleware :=
  {| am_keys := ks; am_limiter := lim;
     am_ipLimiter := newRateLimiter 600 minute;
     am_authFailLimit := newRateLimiter 10 minute;
     am_audit := audit; am_file := file |}.

Definition set_am_keys (am : AuthMiddleware) (ks : KeyStore) : AuthMiddleware :=
  MkMiddleware ks (am_limiter am) (am_ipLimiter am) (am_authFailLimit am) (am_audit am) (am_file am).
Definition set_am_limiter (am : AuthMiddleware) (rl : rateLimiter) : AuthMiddleware :=
  MkMiddleware (am_keys am) rl (am_ipLimiter am) (am_authFailLimit am) (am_audit am) (am_file am).
Definition set_am_ipLimiter (am : AuthMiddleware) (rl : rateLimiter) : AuthMiddleware :=
  MkMiddleware (am_keys am) (am_limiter am) rl (am_authFailLimit am) (am_audit am) (am_file am).
Definition set_am_authFail (am : AuthMiddleware) (rl : rateLimiter) : AuthMiddleware :=
  MkMiddleware (am_keys am) (am_limiter am) (am_ipLimiter am) rl (am_audit am) (am_file am).

(** What a request reads from its surroundings. *)
Record env : Type := MkEnv {
  e_stamp : string;
  e_took : string;
  e_auth : Z;
  e_fail : Z; e_fail2 : Z;
  e_ip : Z; e_ip2 : Z;
  e_key : Z; e_key2 : Z;
  e_line : bool; e_newline : bool;
}.

Section Gate.
Context `{Crypto, AuditJSON}.
Context (auditMACKey : option bytes).

Definition audit_entry (e : env) (key role : string) (r : request) (code : Z) (allowed : bool)
    (reason tool : string) : AuditEntry :=
  MkEntry (e_stamp e) (maskKey key) role (r_method r) (r_path r) tool code (e_took e) allowed reason "" "".

Definition logAudit (am : AuthMiddleware) (e : env) (key role : string) (r : request) (code : Z)
    (allowed : bool) (reason tool : string) : AuthMiddleware :=
  match am_audit am with
  | None => am
  | Some al =>
      let '(al, file) := Log auditMACKey al (am_file am) (audit_entry e key role r code allowed reason tool)
                           (e_line e) (e_newline e) in
      MkMiddleware (am_keys am) (am_limiter am) (am_ipLimiter am) (am_authFailLimit am) (Some al) file
  end.

(** An error answer and its audit entry. *)
Definition deny (am : AuthMiddleware) (e : env) (key role : string) (r : request) (code : Z)
    (msg reason tool : string) (retry : bool) : response * AuthMiddleware :=
  (Answer code msg retry, logAudit am e key role r code false reason tool).

(** The reason a role may not run a tool, if it may not. *)
Definition rbac_reason (role : Role) (toolName : string) : option string :=
  match assoc toolName toolPermissions with
  | None => Some ("role '" +:+ role +:+ "' cannot execute '" +:+ toolName +:+
                  "' (tool not registered in RBAC permissions)")
  | Some required =>
      if negb (canExecute role toolName) then
        Some ("role '" +:+ role +:+ "' cannot execute '" +:+ toolName +:+ "' (requires " +:+ required +:+ ")")
      else None
  end.

Definition Wrap (next : request -> list wcall) (toolExtractor : option (request -> string))
    (am : AuthMiddleware) (r : request) (e : env) : response * AuthMiddleware :=
  let '(key, secret, totpCode) := extractAuth r in
  let toolName := match toolExtractor with Some f => f r | None => "" end in
  let clientIP := ipFromAddr (r_remote r) in
  match ValidateWithTOTP (am_keys am) key secret totpCode toolName (e_auth e) with
  | (Err err, ks) =>
      let am := set_am_keys am ks in
      let '(ok, rl) := Allow (am_authFailLimit am) clientIP (e_fail e) (e_fail2 e) in
      let am := set_am_authFail am rl in
      if negb ok then
        deny am e key "" r 429 "too many authentication failures" "auth fail rate limited" "" true
      else deny am e key "" r 401 err err "" false
  | (Ok apiKey, ks) =>
      let am := set_am_keys am ks in
      let role := KRole apiKey in
      let '(ok, rl) := Allow (am_ipLimiter am) clientIP (e_ip e) (e_ip2 e) in
      let am := set_am_ipLimiter am rl in
      if negb ok then
        deny am e key "" r 429 "rate limit exceeded (per-IP)" "rate limit exceeded (per-IP)" "" false
      else
        let '(ok, rl) := Allow (am_limiter am) key (e_key e) (e_key2 e) in
        let am := set_am_limiter am rl in
        if negb ok then deny am e key role r 429 "rate limit exceeded" "rate limit exceeded" "" false
        else if match toolExtractor with Some _ => true | None => false end &&
                (toolName =s "") && isToolsCallRequest r then
          let reason := "failed to extract tool name from request — RBAC check cannot be skipped" in
          deny am e key role r 403 reason reason "" false
        else
          match (if toolName <>s "" then rbac_reason role toolName else None) with
          | Some reason => deny am e key role r 403 reason reason toolName false
          | None =>
              let resp := Served (next r) in
              (resp, logAudit am e key role r (response_status resp) true "" toolName)
          end
  end.

Definition RequireRole (next : request -> list wcall) (required : Role)
    (am : AuthMiddleware) (r : request) (now : Z) : response * AuthMiddleware :=
  let '(key, secret, totpCode) := extractAuth r in
  match ValidateWithTOTP (am_keys am) key secret totpCode "" now with
  | (Err err, ks) => (Answer 401 err false, set_am_keys am ks)
  | (Ok apiKey, ks) =>
      let am := set_am_keys am ks in
      if roleLevel (KRole apiKey) <? roleLevel required then
        (Answer 403 ("role '" +:+ KRole apiKey +:+ "' requires '" +:+ required +:+ "'") false, am)
      else (Served (next r), am)
  end.

Definition RequireAdmin (next : request -> list wcall) : AuthMiddleware -> request -> Z -> response * AuthMiddleware :=
  RequireRole next RoleAdmin.

(** ** Key management over HTTP *)

Inductive admin_answer : Type :=
  | AError (code : Z) (msg : string)
  | ACreated (key secret role label : string) (created : Z)
  | AKeys (l : list APIKey)
  | ANoContent.

(** [parse_req] decodes what it can of the body into role and label. *)
Definition handleCreateKey (parse_req : body -> string * string) (ks : KeyStore) (r : request)
    (rk rs : bytes) (now : Z) (w : write_outcome) : admin_answer * KeyStore :=
  let '(role, label) := parse_req (r_body r) in
  if (role <>s RoleViewer) && (role <>s RoleOperator) && (role <>s RoleAdmin) then
    (AError 400 "invalid role (must be viewer, operator, or admin)", ks)
  else
    match GenerateKey ks role label rk rs now w with
    | (Err m, ks) => (AError 500 m, ks)
    | (Ok k, ks) => (ACreated (Key k) (Secret k) (KRole k) (Label k) (CreatedAt k), ks)
    end.

Definition handleListKeys (ks : KeyStore) : admin_answer := AKeys (List ks).

Definition handleRevokeKey (ks : KeyStore) (r : request) (w : write_outcome) : admin_answer * KeyStore :=
  let keyID := TrimPrefix (r_path r) "/auth/keys/" in
  if keyID =s "" then (AError 400 "key id required", ks)
  else
    match Revoke ks keyID w with
    | (Err m, ks) => (AError 404 m, ks)
    | (Ok _, ks) => (ANoContent, ks)
    end.

Definition admin_ServeHTTP (parse_req : body -> string * string) (ks : KeyStore) (r : request)
    (rk rs : bytes) (now : Z) (w : write_outcome) : admin_answer * KeyStore :=
  if (r_method r =s "POST") && HasSuffix (r_path r) "/auth/keys" then handleCreateKey parse_req ks r rk rs now w
  else if (r_method r =s "GET") && HasSuffix (r_path r) "/auth/keys" then (handleListKeys ks, ks)
  else if (r_method r =s "DELETE") && Contains (r_path r) "/auth/keys/" then handleRevokeKey ks r w
  else (AError 404 "not found", ks).

(** ** The gate over time

    Requests come one after another, between operations on the keys.  What the
    gate owes is told with the register of grants of KeyStore.v and with the
    requests that were let through. *)
Inductive gate_event : Type := GRequest (r : request) (e : env) | GKeys (o : op).

Section History.
Context (next : request -> list wcall) (extractor : option (request -> string)).

Definition tool_of (r : request) : string := match extractor with Some f => f r | None => "" end.

Definition gate_op (ev : gate_event) : op :=
  match ev with
  | GRequest r e => let '(key, secret, code_) := extractAuth r in OValidate key secret code_ (tool_of r) (e_auth e)
  | GKeys o => o
  end.

Definition gate_step (am : AuthMiddleware) (ev : gate_event) : AuthMiddleware :=
  match ev with
  | GRequest r e => (Wrap next extractor am r e).2
  | GKeys o => set_am_keys am (step (am_keys am) o)
  end.

(** The requests that reached the handler. *)
Fixpoint passed (am : AuthMiddleware) (evs : list gate_event) : list (request * env) :=
  match evs with
  | [] => []
  | GRequest r e :: evs =>
      (if served (Wrap next extractor am r e).1 then [(r, e)] else []) ++ passed (gate_step am (GRequest r e)) evs
  | GKeys o :: evs => passed (gate_step am (GKeys o)) evs
  end.

Definition by_address (p : request * env) : string * Z := (ipFromAddr (r_remote p.1), e_ip p.2).
Definition by_key (p : request * env) : string * Z := ((extractAuth p.1).1.1, e_key p.2).

(** The register of grants when the events have happened. *)
Definition register_after (x : register) (evs : list gate_event) : register := foldl (fun x ev => (spec_step x (gate_op ev)).2) x evs.

(** The credentials are those of a grant that is in force, and its role may run the tool
    the request names; a request without a tool name is not the text of a tool call. *)
Definition admitted (x : register) (r : request) (e : env) : Prop :=
  exists role label, (let '(key, secret, code_) := extractAuth r in
    (spec_auth x key secret code_ (tool_of r) (e_auth e)).1 = Ok (key, role, label)) /\
    if tool_of r =s "" then extractor = None \/ isToolsCallRequest r = false else canExecute role (tool_of r) = true.

(** A process: its key operations write the file, and it does not restart. *)
Definition in_process (ev : gate_event) : Prop := match ev with GRequest _ _ => True | GKeys o => written o /\ o <> ORestart end.

(** A clock read by the requests of a history. *)
Definition readings (clock : env -> Z) (evs : list gate_event) : list Z := omap (fun ev => match ev with GRequest _ e => Some (clock e) | GKeys _ => None end) evs.

End History.

(** ** Lemmas *)

Lemma deny_not_served am e key role r code msg reason tool retry :
  served (deny am e key role r code msg reason tool retry).1 = false.
Proof. done. Qed.

Lemma rbac_reason_None role tool : rbac_reason role tool = None <-> canExecute role tool = true.
Proof.
  unfold rbac_reason. destruct (assoc tool toolPermissions) eqn:Ht.
  - by destruct (canExecute role tool).
  - unfold canExecute. by rewrite Ht.
Qed.

(** The answer to a request and the entry it leaves in the log. *)
Definition logs (am : AuthMiddleware) (e : env) (key : string) (out : response * AuthMiddleware) : Prop :=
  forall al, am_audit am = Some al ->
  exists entry,
    (am_audit out.2, am_file out.2) =
      (let '(al', f) := Log auditMACKey al (am_file am) entry (e_line e) (e_newline e) in (Some al', f)) /\
    StatusCode entry = response_status out.1 /\ Allowed entry = served out.1 /\ EKey entry = maskKey key.

Lemma logAudit_entry am e key role r code allowed reason tool resp :
  code = response_status resp -> allowed = served resp ->
  logs am e key (resp, logAudit am e key role r code allowed reason tool).
Proof.
  intros -> -> al Hal. exists (audit_entry e key role r (response_status resp) (served resp) reason tool).
  split; [|done]. unfold logAudit. cbn [snd]. rewrite Hal. by destruct (Log _ _ _ _ _ _).
Qed.

Lemma deny_logs am e key role r code msg reason tool retry :
  logs am e key (deny am e key role r code msg reason tool retry).
Proof. by apply logAudit_entry. Qed.

Lemma logs_same am am' e key out :
  am_audit am = am_audit am' -> am_file am = am_file am' -> logs am e key out -> logs am' e key out.
Proof. unfold logs. by intros -> ->. Qed.

(** ** Properties *)

Lemma logAudit_same am e key role r code allowed reason tool : let am' := logAudit am e key role r code allowed reason tool in
  am_keys am' = am_keys am /\ am_ipLimiter am' = am_ipLimiter am /\ am_limiter am' = am_limiter am.
Proof. unfold logAudit. destruct (am_audit am); [|done]. by destruct (Log _ _ _ _ _ _). Qed.

#[local] Ltac logged :=
  match goal with |- context [logAudit ?a ?b ?c ?d ?e ?f ?g ?h ?i] => destruct (logAudit_same a b c d e f g h i) as (-> & -> & ->) end;
  cbn; split_and!; auto; done.

(** What a request does to the keys and the limiters, and what it met if it was let through. *)
Lemma Wrap_effect next extractor am r e : let out := Wrap next extractor am r e in
  am_keys out.2 = step (am_keys am) (gate_op extractor (GRequest r e)) /\
  (am_ipLimiter out.2 = am_ipLimiter am \/ am_ipLimiter out.2 = (Allow (am_ipLimiter am) (ipFromAddr (r_remote r)) (e_ip e) (e_ip2 e)).2) /\
  (am_limiter out.2 = am_limiter am \/ am_limiter out.2 = (Allow (am_limiter am) (extractAuth r).1.1 (e_key e) (e_key2 e)).2) /\
  (served out.1 = true ->
     Allow (am_ipLimiter am) (ipFromAddr (r_remote r)) (e_ip e) (e_ip2 e) = (true, am_ipLimiter out.2) /\
     Allow (am_limiter am) (extractAuth r).1.1 (e_key e) (e_key2 e) = (true, am_limiter out.2) /\
     exists k, (let '(key, secret, code_) := extractAuth r in
       (ValidateWithTOTP (am_keys am) key secret code_ (tool_of extractor r) (e_auth e)).1 = Ok k) /\
       if tool_of extractor r =s "" then extractor = None \/ isToolsCallRequest r = false else canExecute (KRole k) (tool_of extractor r) = true).
Proof.
  cbv zeta. unfold Wrap, gate_op. destruct (extractAuth r) as [[key secret] code_]. fold (tool_of extractor r). cbn [step fst].
  destruct (ValidateWithTOTP _ _ _ _ _ _) as [[k|m] ks]; cbn [snd]; cbn [set_am_keys am_authFailLimit am_ipLimiter].
  2: { destruct (Allow _ _ _ _) as [[] rl]; cbn [negb]; unfold deny; cbn [fst snd served]; logged. }
  destruct (Allow (am_ipLimiter am) _ _ _) as [[] rl1]; cbn [negb set_am_ipLimiter am_limiter].
  2: { unfold deny; cbn [fst snd served]; logged. }
  change (am_limiter (set_am_keys am ks)) with (am_limiter am).
  destruct (Allow (am_limiter am) _ _ _) as [[] rl2]; cbn [negb].
  2: { unfold deny; cbn [fst snd served]; logged. }
  destruct (_ && isToolsCallRequest r) eqn:Hcall; [unfold deny; cbn [fst snd served]; logged|].
  destruct (if tool_of extractor r <>s "" then _ else _) eqn:Hr; [unfold deny; cbn [fst snd served]; logged|].
  cbn [fst snd served]. match goal with |- context [logAudit ?a ?b ?c ?d ?e ?f ?g ?h ?i] => destruct (logAudit_same a b c d e f g h i) as (-> & -> & ->) end.
  split_and!; [done|by right|by right|]. intros _. split_and!; [done|done|]. exists k. split; [done|].
  case_bool_decide as Ht; cbn [negb] in *.
  - destruct extractor; [right|by left]. exact Hcall.
  - by apply rbac_reason_None.
Qed.

(** What holds of the gate between two events: [ip] and [key] are the clock readings so
    far, [log] the requests that passed. *)
Record gate_inv (n win : Z) (x : register) (ip key : Z) (log : list (request * env)) (am : AuthMiddleware) : Prop := {
  gi_keys : store_wf (am_keys am) /\ synced (am_keys am);
  gi_register : register_of (am_keys am) = x;
  gi_ip : exists h, simulates (am_ipLimiter am) h ip /\ limit (am_ipLimiter am) = 600 /\ window (am_ipLimiter am) = minute /\
    (forall hi k, window_count minute hi k h <= 600) /\ sublist (by_address <$> log) h;
  gi_key : exists h, simulates (am_limiter am) h key /\ limit (am_limiter am) = n /\ window (am_limiter am) = win /\
    (forall hi k, window_count win hi k h <= n) /\ sublist (by_key <$> log) h;
}.

(** One use of a limiter: its history stays within the limit and holds what passed. *)
Lemma limiter_step {A} (f : A -> string * Z) rl rl' lim win t h (log : list A) (x : A) (pass : bool) now2 :
  simulates rl h t -> limit rl = lim -> window rl = win -> (forall hi k, window_count win hi k h <= lim) -> sublist (f <$> log) h ->
  t <= (f x).2 -> rl' = rl \/ rl' = (Allow rl (f x).1 (f x).2 now2).2 -> (pass = true -> Allow rl (f x).1 (f x).2 now2 = (true, rl')) ->
  exists h', simulates rl' h' (f x).2 /\ limit rl' = lim /\ window rl' = win /\ (forall hi k, window_count win hi k h' <= lim) /\
    sublist (f <$> (log ++ (if pass then [x] else []))%list) h'.
Proof.
  intros Hs <- <- Hw Hl Ht Hor Hp.
  destruct (Allow rl (f x).1 (f x).2 now2) as [ok rl1] eqn:E. cbn [snd] in Hor.
  destruct (Allow_spec _ _ _ _ _ _ _ _ Hs Ht E) as (h' & Hspec & Hs' & Hw' & Hl').
  assert (Hle : Forall (fun p => p.2 <= (f x).2) h) by (eapply Forall_impl; [apply Hs|]; simpl; lia).
  assert (Hb : (forall hi k, window_count (window rl) hi k h' <= limit rl) /\ sublist (f <$> (log ++ (if ok then [x] else []))%list) h').
  { unfold spec_allow in Hspec. destruct (_ <? limit rl) eqn:El; injection Hspec as <- <-.
    - split; [intros; apply window_count_snoc; [done..|by apply Z.ltb_lt]|]. rewrite fmap_app. cbn. apply sublist_app; [done|]. by destruct (f x).
    - by rewrite app_nil_r. }
  destruct pass.
  - specialize (Hp eq_refl). injection Hp as -> ->. exists h'. by destruct Hb.
  - rewrite app_nil_r. destruct Hor as [->| ->].
    + exists h. split_and!; [|done..]. destruct Hs as [Hs _]. split; [|done]. intros k c Hc. apply Hs. lia.
    + exists h'. split_and!; [done..|apply Hb|]. etransitivity; [|apply Hb]. rewrite fmap_app. by apply sublist_inserts_r.
Qed.

Lemma gate_request next ex n win x ip key log am r e : gate_inv n win x ip key log am -> ip <= e_ip e -> key <= e_key e ->
  (served (Wrap next ex am r e).1 = true -> admitted ex x r e) /\
  gate_inv n win (spec_step x (gate_op ex (GRequest r e))).2 (e_ip e) (e_key e)
    (log ++ (if served (Wrap next ex am r e).1 then [(r, e)] else []))%list (gate_step next ex am (GRequest r e)).
Proof.
  intros [[Hwf Hs] <- (hi & I1 & I2 & I3 & I4 & I5) (hk & K1 & K2 & K3 & K4 & K5)] Hip Hkey. cbn [gate_step].
  destruct (Wrap_effect next ex am r e) as (Ek & Ei & El & Hp). set (out := Wrap next ex am r e) in *.
  pose proof (step_refines (am_keys am) (gate_op ex (GRequest r e)) Hwf Hs) as Hr. split; [|constructor].
  - intros Hsv. destruct (Hp Hsv) as (_ & _ & k & Ha & Ht). unfold admitted. cbn [gate_op] in Ha. destruct (extractAuth r) as [[kid secret] code_].
    pose proof (auth_refines (am_keys am) kid secret code_ (tool_of ex r) (e_auth e) (proj1 Hwf)) as Hx.
    destruct (ValidateWithTOTP _ _ _ _ _ _) as [rr ks'] eqn:Ev. cbn [fst] in Ha. subst rr. destruct Hx as [Hx _].
    exists (KRole k), (Label k). split; [|done]. rewrite Hx. cbn. do 3 f_equal.
    clear -Ev Hwf. revert Ev. unfold ValidateWithTOTP, Validate. destruct (keys (am_keys am) !! kid) as [k0|] eqn:Ek; [|done].
    destruct (proj1 Hwf _ _ Ek) as [<- _]. intros Ev. repeat case_match; simplify_eq/=; done.
  - rewrite Ek. split; [by apply step_wf|]. apply step_synced; [done..|]. unfold gate_op. by destruct (extractAuth r) as [[? ?] ?].
  - rewrite Ek, Hr. done.
  - eapply (limiter_step by_address _ _ 600 minute ip hi log (r, e)); try done. intros Hsv. by destruct (Hp Hsv).
  - eapply (limiter_step by_key _ _ n win key hk log (r, e)); try done. intros Hsv. by destruct (Hp Hsv) as (_ & ? & _).
Qed.

Lemma gate_keys next ex n win x ip key log am o : gate_inv n win x ip key log am -> written o ->
  gate_inv n win (spec_step x o).2 ip key log (gate_step next ex am (GKeys o)).
Proof.
  intros [[Hwf Hs] <- Hi Hk] Ho. constructor; [|by rewrite (step_refines (am_keys am) o Hwf Hs)|done|done].
  cbn. split; [by apply step_wf|by apply step_synced].
Qed.

Lemma gate_history next ex n win evs : forall x ip key log am, gate_inv n win x ip key log am -> Forall in_process evs ->
  StronglySorted Z.le (ip :: readings e_ip evs) -> StronglySorted Z.le (key :: readings e_key evs) ->
  (forall pre r e post, evs = (pre ++ GRequest r e :: post)%list -> served (Wrap next ex (foldl (gate_step next ex) am pre) r e).1 = true ->
     admitted ex (register_after ex x pre) r e) /\
  exists x' ip' key', gate_inv n win x' ip' key' (log ++ passed next ex am evs)%list (foldl (gate_step next ex) am evs).
Proof.
  induction evs as [|[r e|o] evs IH]; intros x ip key log am Hinv Hl Hi Hk.
  - split; [by intros [|??]|]. cbn. rewrite app_nil_r. eauto.
  - apply Forall_cons in Hl as [_ Hl]. cbn [readings omap list_omap] in Hi, Hk.
    apply StronglySorted_inv in Hi as [Hi Hi']. apply StronglySorted_inv in Hk as [Hk Hk'].
    apply Forall_cons in Hi' as [Hi' _]. apply Forall_cons in Hk' as [Hk' _].
    destruct (gate_request next ex n win x ip key log am r e Hinv Hi' Hk') as [Ha Hinv'].
    destruct (IH _ _ _ _ _ Hinv' Hl Hi Hk) as [IH1 IH2]. split.
    + intros [|ev pre] r' e' post [= <- E]; [simplify_eq; exact Ha|]. cbn [foldl register_after]. by apply (IH1 _ _ _ _ E).
    + cbn [passed foldl]. by rewrite app_assoc.
  - apply Forall_cons in Hl as [[Ho _] Hl]. cbn [readings omap list_omap] in Hi, Hk.
    destruct (IH _ _ _ _ _ (gate_keys next ex n win x ip key log am o Hinv Ho) Hl Hi Hk) as [IH1 IH2]. split; [|exact IH2].
    intros [|ev pre] r' e' post [= <- E]. cbn [foldl register_after]. by apply (IH1 _ _ _ _ E).
Qed.

Lemma filter_sublist_mono {A} (P : A -> Prop) `{!forall x, Decision (P x)} (l l' : list A) : sublist l l' -> sublist (filter P l) (filter P l').
Proof.
  intros Hll. induction Hll; [constructor| |]; rewrite ?filter_cons; destruct (decide (P x)); try done; by constructor.
Qed.

Lemma window_count_sublist win hi k h h' : sublist h h' -> window_count win hi k h <= window_count win hi k h'.
Proof.
  intros Hs. unfold window_count. apply inj_le, sublist_length, filter_sublist_mono, fmap_sublist, filter_sublist_mono, Hs.
Qed.

(** C2: the gate over the life of a process.  From any key file and with
    fresh limiters, over any sequence of requests to Wrap and of operations on
    the keys (every write succeeds, no restart, the limiters' clock readings do
    not run backwards, and one request is handled after another): a request
    reaches the handler only with the credentials of a key that was generated
    and not revoked before it (with a code that verifies when the key's second
    factor is on, or the tool asks for confirmation and a secret is enrolled),
    and only if the role of that key may run the tool that the extractor finds
    in the request; in every window at most 600 requests per address and n per
    key reach the handler.  A request in which the extractor finds no tool
    name passes without a test of the role, unless it is a POST with the
    literal text of a tool call (the finding of unreadable_body_skips_rbac). *)
Theorem gate_over_history next extractor f n win audit log evs
  (Hf : file_wf f) (Hn : 0 <= n) (Hevs : Forall in_process evs)
  (Hip : Sorted Z.le (readings e_ip evs)) (Hkey : Sorted Z.le (readings e_key evs)) :
  let am := newAuthMiddleware (newKeyStore f) (newRateLimiter n win) audit log in
  (forall pre r e post, evs = (pre ++ GRequest r e :: post)%list ->
     served (Wrap next extractor (foldl (gate_step next extractor) am pre) r e).1 = true ->
     admitted extractor (register_after extractor (grant_of <$> load f, newTOTPStore) pre) r e) /\
  (forall hi ip, window_count minute hi ip (by_address <$> passed next extractor am evs) <= 600) /\
  (forall hi key, window_count win hi key (by_key <$> passed next extractor am evs) <= n).
Proof.
  intros am. assert (exists lo, forall l, Sorted Z.le l -> l = readings e_ip evs \/ l = readings e_key evs -> StronglySorted Z.le (lo :: l)) as [lo Hlo].
  { exists (foldr Z.min 0 (readings e_ip evs ++ readings e_key evs)%list). intros l Hl Hor. constructor; [by apply Sorted_StronglySorted; [intros ?; lia|]|].
    apply Forall_forall. intros t Ht. assert (t ∈ (readings e_ip evs ++ readings e_key evs)%list) as Hin by (apply elem_of_app; destruct Hor as [<-|<-]; auto).
    clear -Hin. induction Hin; cbn; lia. }
  destruct (gate_history next extractor n win evs (grant_of <$> load f, newTOTPStore) lo lo [] am) as [Ha (x' & ip' & key' & Hinv)]; [|done|by apply Hlo; auto..|].
  - constructor; [split; [by apply newKeyStore_wf|done]|done| |];
      (exists []; split_and!; [apply simulates_new|done|done| |constructor]; intros; unfold window_count; cbn; lia).
  - split; [exact Ha|]. destruct Hinv as [_ _ (h & _ & _ & _ & H4 & H5) (h' & _ & _ & _ & K4 & K5)].
    split; intros hi k; (etransitivity; [apply window_count_sublist; eassumption|]); auto.
Qed.

(** Every request leaves exactly one entry in the audit log, whichever
    branch it takes: the entry carries the masked key, the status that is sent
    and whether the request was let through. *)
Theorem wrap_audits_once next extractor am r e :
  logs am e (extractAuth r).1.1 (Wrap next extractor am r e).
Proof.
  unfold Wrap. destruct (extractAuth r) as [[key secret] code_]. cbn [fst].
  destruct (ValidateWithTOTP _ _ _ _ _ _) as [[k|m] ks].
  2: { destruct (Allow _ _ _ _) as [[] rl]; cbn [negb]; by eapply logs_same, deny_logs. }
  destruct (Allow _ _ _ _) as [[] rl1]; cbn [negb]; [|by eapply logs_same, deny_logs].
  destruct (Allow _ _ _ _) as [[] rl2]; cbn [negb]; [|by eapply logs_same, deny_logs].
  destruct (_ && _); [by eapply logs_same, deny_logs|].
  destruct (if (_ : bool) then rbac_reason _ _ else None); [by eapply logs_same, deny_logs|].
  eapply logs_same; [| |by apply logAudit_entry]; done.
Qed.

(** The limit on failed authentications does not stop guessing: for
    credentials that are right, the answer does not depend on how many failures
    the address has behind it. *)
Theorem failure_limit_does_not_block next extractor am r e rl
  (Hok : let '(key, secret, code_) := extractAuth r in
         is_ok (ValidateWithTOTP (am_keys am) key secret code_
                  (match extractor with Some f => f r | None => "" end) (e_auth e)).1 = true) :
  (Wrap next extractor (set_am_authFail am rl) r e).1 = (Wrap next extractor am r e).1.
Proof.
  unfold Wrap. destruct (extractAuth r) as [[key secret] code_]. cbn [set_am_authFail am_keys].
  destruct (ValidateWithTOTP _ _ _ _ _ _) as [[k|m] ks]; [|done].
  cbn [set_am_keys am_ipLimiter]. destruct (Allow _ _ _ _) as [[] rl1]; cbn [negb]; [|done].
  cbn [set_am_keys set_am_ipLimiter am_limiter]. destruct (Allow _ _ _ _) as [[] rl2]; cbn [negb]; [|done].
  destruct (_ && _); [done|]. by destruct (if (_ : bool) then rbac_reason _ _ else None).
Qed.

(** A body that cannot be read is let past the permission check: neither
    the extractor nor the fail-closed test sees a tool, so any accepted
    credentials within the rate limits reach the handler. *)
Theorem unreadable_body_skips_rbac next parse am r e
  (Hbody : r_body r = BodyErr)
  (Hauth : let '(key, secret, code_) := extractAuth r in
           is_ok (ValidateWithTOTP (am_keys am) key secret code_ "" (e_auth e)).1 = true)
  (Hip : (Allow (am_ipLimiter am) (ipFromAddr (r_remote r)) (e_ip e) (e_ip2 e)).1 = true)
  (Hkey : (Allow (am_limiter am) (extractAuth r).1.1 (e_key e) (e_key2 e)).1 = true) :
  served (Wrap next (Some (extractToolFromRequest parse)) am r e).1 = true.
Proof.
  unfold Wrap. destruct (extractAuth r) as [[key secret] code_]. cbn [fst] in Hkey.
  assert (extractToolFromRequest parse r = "") as -> by (unfold extractToolFromRequest; by rewrite Hbody).
  destruct (ValidateWithTOTP _ _ _ _ _ _) as [[k|m] ks]; [|done].
  cbn [set_am_keys am_ipLimiter]. destruct (Allow _ _ _ _) as [[] rl1]; [|done]. cbn [negb].
  cbn [set_am_keys set_am_ipLimiter am_limiter]. destruct (Allow _ _ _ _) as [[] rl2]; [|done]. cbn [negb].
  assert (isToolsCallRequest r = false) as ->.
  { unfold isToolsCallRequest. rewrite Hbody. by destruct (_ <>s _). }
  done.
Qed.

(** The guard of the other routes, exactly: the handler runs iff the
    credentials are accepted and the key's role ranks high enough; without
    credentials the answer is 401, with too low a role 403. *)
Theorem requireRole_iff next required am r now :
  let '(key, secret, code_) := extractAuth r in
  let resp := (RequireRole next required am r now).1 in
  (served resp = true <->
     exists k, (ValidateWithTOTP (am_keys am) key secret code_ "" now).1 = Ok k /\
       roleLevel required <= roleLevel (KRole k)) /\
  (served resp = false -> response_status resp =
     if is_ok (ValidateWithTOTP (am_keys am) key secret code_ "" now).1 then 403 else 401).
Proof.
  unfold RequireRole. destruct (extractAuth r) as [[key secret] code_].
  destruct (ValidateWithTOTP _ _ _ _ _ _) as [[k|m] ks]; cbn [fst is_ok].
  - destruct (_ <? _) eqn:Hlt; cbn [fst served response_status].
    + apply Z.ltb_lt in Hlt. split; [|done]. split; [done|]. intros (k' & [= <-] & ?). lia.
    + apply Z.ltb_ge in Hlt. split; [|done]. split; [|done]. eauto.
  - split; [|done]. split; [done|naive_solver].
Qed.

End Gate.

(** ** Witnesses *)

#[local] Existing Instance std_crypto.
#[local] Existing Instance demo_json.

Definition demo_request (b : body) : request :=
  MkRequest "POST" "/mcp" "10.0.0.7:5123"
    (fun h => if h =s "X-API-Key" then demo_id else if h =s "X-API-Secret" then demo_key_secret else "") b.
Definition demo_am : AuthMiddleware :=
  newAuthMiddleware demo_ks (newRateLimiter 120 minute) None "".
Definition demo_env : env :=
  MkEnv "2026-01-02T03:04:05Z" "1ms" (unix_time 9) (unix_time 9) (unix_time 9) (unix_time 9) (unix_time 9)
    (unix_time 9) (unix_time 9) true true.
Definition demo_parse (s : string) : option (string * string) := Some ("tools/call", s).
Definition demo_next (r : request) : list wcall := [WriteHeader 202; Write].

(** A viewer's key: one tool its role may run, one it may not, and a request after the key
    was revoked. *)
Definition demo_gate : list gate_event :=
  [GKeys (OGenerate RoleViewer "web" (replicate 16 7) (replicate 24 9) (unix_time 1) Written);
   GRequest (demo_request (BodyText "vm_list")) demo_env; GRequest (demo_request (BodyText "vm_delete")) demo_env;
   GKeys (ORevoke demo_id Written); GRequest (demo_request (BodyText "vm_list")) demo_env].

Lemma gate_over_history_witness :
  let extractor := Some (extractToolFromRequest demo_parse) in
  let am := newAuthMiddleware (newKeyStore NoFile) (newRateLimiter 120 minute) None "" in
  length (passed None demo_next extractor am demo_gate) = 1%nat /\
  (forall hi ip, window_count minute hi ip (by_address <$> passed None demo_next extractor am demo_gate) <= 600).
Proof.
  split; [vm_compute; reflexivity|].
  destruct (gate_over_history None demo_next (Some (extractToolFromRequest demo_parse)) NoFile 120 minute None "" demo_gate)
    as (_ & Hip & _); [exact I|discriminate| | | |exact Hip].
  - repeat constructor; discriminate.
  - repeat constructor; apply Z.le_refl.
  - repeat constructor; apply Z.le_refl.
Defined.

(** The address has used up its failures. *)
Definition demo_exhausted : rateLimiter :=
  RateLimiter {["10.0.0.7" := replicate 10 (unix_time 9)]} 10 minute (unix_time 9).

Lemma failure_limit_does_not_block_witness :
  (Allow demo_exhausted "10.0.0.7" (unix_time 9) (unix_time 9)).1 = false /\
  (Wrap None demo_next (Some (extractToolFromRequest demo_parse)) (set_am_authFail demo_am demo_exhausted)
     (demo_request (BodyText "vm_delete")) demo_env).1 =
  (Wrap None demo_next (Some (extractToolFromRequest demo_parse)) demo_am
     (demo_request (BodyText "vm_delete")) demo_env).1 /\
  (Wrap None demo_next (Some (extractToolFromRequest demo_parse)) demo_am
     (demo_request (BodyText "vm_delete")) demo_env).1 = Served [WriteHeader 202; Write].
Proof.
  split; [vm_compute; reflexivity|]. split; [|vm_compute; reflexivity].
  apply (failure_limit_does_not_block None demo_next (Some (extractToolFromRequest demo_parse)) demo_am
           (demo_request (BodyText "vm_delete")) demo_env demo_exhausted).
  vm_compute. reflexivity.
Defined.

Lemma unreadable_body_skips_rbac_witness :
  served (Wrap None demo_next (Some (extractToolFromRequest demo_parse)) demo_am (demo_request BodyErr) demo_env).1 = true.
Proof.
  apply (unreadable_body_skips_rbac None demo_next demo_parse demo_am (demo_request BodyErr) demo_env);
    vm_compute; reflexivity.
Defined.

(** Each branch of the gate on concrete requests: a tool above the key's role,
    an unknown tool, wrong credentials, and a call without a name. *)
Example wrap_branches :
  let ks := steps (newKeyStore NoFile)
              [OGenerate RoleViewer "web" (replicate 16 7) (replicate 24 9) (unix_time 1) Written] in
  let am := newAuthMiddleware ks (newRateLimiter 120 minute) None "" in
  let call b := response_status (Wrap None demo_next (Some (extractToolFromRequest demo_parse)) am (demo_request b) demo_env).1 in
  call (BodyText "vm_delete") = 403 /\ call (BodyText "no_such_tool") = 403 /\ call (BodyText "vm_list") = 202 /\
  call BodyNil = 202 /\
  response_status (Wrap None demo_next (Some (fun _ => "")) am
    (demo_request (BodyText ("{" +:+ quoted_tools_call +:+ "}"))) demo_env).1 = 403 /\
  response_status (Wrap None demo_next None am
    (MkRequest "POST" "/mcp" "[::1]:80" (fun _ => "") BodyNil) demo_env).1 = 401.
Proof. vm_compute. repeat split. Qed.

Example ipFromAddr_examples :
  ipFromAddr "10.0.0.7:5123" = "10.0.0.7" /\ ipFromAddr "[::1]:8080" = "::1" /\ ipFromAddr "::1" = "::1".
Proof. vm_compute. done. Qed.
