(* ===== verification/ConnLimit.v ===== *)
(** * Connections per address (maxConnsListener and trackedConn of
    mcp-server-go/auth.go, served by main of server.go)

    The listener counts open connections per remote address.  [serve_step] is
    the accept loop of [http.Server.Serve] around it: an accepted connection is
    handed to a goroutine that closes it later, and an error of [Accept] that
    is not a temporary [net.Error] makes [Serve] return, upon which [main]
    exits. *)
From S2P Require Import Prelude GoStrings RateLimiter Middleware.

Open Scope string_scope.
Open Scope Z_scope.

Definition maxConnsPerIP : Z := 64.

Record maxConnsListener : Type := MkListener { l_limit : Z; connPool : gmap string Z }.

(** A [trackedConn]: its address, and whether it is still open. *)
Record trackedConn : Type := MkConn { tc_ip : string; tc_open : bool }.

(** The part of [Accept] after the inner listener returned a connection. *)
Definition Accept (l : maxConnsListener) (remoteAddr : string) : res trackedConn * maxConnsListener :=
  let remoteIP := ipFromAddr remoteAddr in
  let count := default 0 (connPool l !! remoteIP) in
  if l_limit l <=? count then (Err ("max connections per IP exceeded for " +:+ remoteIP), l)
  else (Ok {| tc_ip := remoteIP; tc_open := true |},
        {| l_limit := l_limit l; connPool := <[remoteIP := count + 1]> (connPool l) |}).

Definition release (l : maxConnsListener) (ip : string) : maxConnsListener :=
  match connPool l !! ip with
  | None => l
  | Some count =>
      let count := count - 1 in
      {| l_limit := l_limit l;
         connPool := if count <=? 0 then delete ip (connPool l) else <[ip := count]> (connPool l) |}
  end.

(** [Close] releases whether or not the connection was closed before. *)
Definition Close (l : maxConnsListener) (c : trackedConn) : trackedConn * maxConnsListener :=
  ({| tc_ip := tc_ip c; tc_open := false |}, release l (tc_ip c)).

(** ** The accept loop *)

Record server : Type := MkServer { sv_listener : maxConnsListener; sv_conns : list trackedConn; sv_running : bool }.

Definition newServer (lim : Z) : server :=
  {| sv_listener := {| l_limit := lim; connPool := ∅ |}; sv_conns := []; sv_running := true |}.

Inductive event : Type :=
  | Incoming (remoteAddr : string)
  | ListenErr (msg : string)
  | CloseConn (i : nat).

Definition stop (s : server) : server :=
  {| sv_listener := sv_listener s; sv_conns := sv_conns s; sv_running := false |}.

Definition serve_step (s : server) (ev : event) : server :=
  match ev with
  | Incoming addr =>
      if negb (sv_running s) then s
      else match Accept (sv_listener s) addr with
           | (Ok c, l) => {| sv_listener := l; sv_conns := sv_conns s ++ [c]; sv_running := true |}
           | (Err _, l) => stop s
           end
  | ListenErr _ => stop s
  | CloseConn i =>
      match sv_conns s !! i with
      | None => s
      | Some c =>
          let '(c, l) := Close (sv_listener s) c in
          {| sv_listener := l; sv_conns := <[i := c]> (sv_conns s); sv_running := sv_running s |}
      end
  end.

Definition serve (s : server) (evs : list event) : server := foldl serve_step s evs.

(** The open connections of an address. *)
Definition is_open (ip : string) (c : trackedConn) : Prop := tc_ip c = ip /\ tc_open c = true.

#[global] Instance is_open_dec ip c : Decision (is_open ip c).
Proof. unfold is_open. apply _. Defined.

Definition open_count (ip : string) (cs : list trackedConn) : Z := Z.of_nat (length (filter (is_open ip) cs)).

(** No connection is closed twice along the history. *)
Fixpoint closes_once (s : server) (evs : list event) : Prop :=
  match evs with
  | [] => True
  | ev :: evs =>
      match ev with
      | CloseConn i => forall c, sv_conns s !! i = Some c -> tc_open c = true
      | _ => True
      end /\ closes_once (serve_step s ev) evs
  end.

(** ** Lemmas *)

(** The counters are the numbers of open connections, none above the limit. *)
Definition counted (s : server) : Prop :=
  forall ip, default 0 (connPool (sv_listener s) !! ip) = open_count ip (sv_conns s) /\
             open_count ip (sv_conns s) <= Z.max 0 (l_limit (sv_listener s)).

Lemma open_count_app ip cs cs' : open_count ip (cs ++ cs') = open_count ip cs + open_count ip cs'.
Proof. unfold open_count. rewrite filter_app, length_app. lia. Qed.

Lemma open_count_one ip c : open_count ip [c] = if bool_decide (is_open ip c) then 1 else 0.
Proof. unfold open_count. rewrite filter_cons, filter_nil. by case_bool_decide; case_decide. Qed.

Lemma open_count_nonneg ip cs : 0 <= open_count ip cs.
Proof. unfold open_count. lia. Qed.

Lemma open_count_close ip cs i c : cs !! i = Some c -> tc_open c = true ->
  open_count ip (<[i := {| tc_ip := tc_ip c; tc_open := false |}]> cs) =
  open_count ip cs - (if bool_decide (tc_ip c = ip) then 1 else 0).
Proof.
  intros Hi Ho. pose proof (lookup_lt_Some _ _ _ Hi) as Hlt.
  rewrite <- (take_drop_middle cs i c Hi) at 2.
  rewrite insert_take_drop by done. rewrite !(cons_middle _ (take i cs)), !open_count_app, !open_count_one.
  rewrite (bool_decide_false (is_open ip {| tc_ip := _; tc_open := false |})) by (by intros []).
  rewrite (bool_decide_ext (is_open ip c) (tc_ip c = ip)) by (unfold is_open; rewrite Ho; tauto). lia.
Qed.

Lemma release_count l ip ip' :
  (forall ip, 0 <= default 0 (connPool l !! ip)) -> 0 < default 0 (connPool l !! ip) ->
  default 0 (connPool (release l ip) !! ip') =
  default 0 (connPool l !! ip') - (if bool_decide (ip = ip') then 1 else 0).
Proof.
  intros Hnn Hpos. unfold release. destruct (connPool l !! ip) as [n|] eqn:Hn; [|simpl in Hpos; lia].
  simpl in Hpos. cbn [connPool]. destruct (n - 1 <=? 0) eqn:Hle.
  - apply Z.leb_le in Hle. case_bool_decide as Heq; [subst|by rewrite lookup_delete_ne, Z.sub_0_r].
    rewrite lookup_delete_eq, Hn. simpl. lia.
  - case_bool_decide as Heq; [subst|by rewrite lookup_insert_ne, Z.sub_0_r].
    rewrite lookup_insert_eq, Hn. simpl. lia.
Qed.

Lemma release_limit l ip : l_limit (release l ip) = l_limit l.
Proof. unfold release. by destruct (connPool l !! ip). Qed.

Lemma serve_step_counted s ev :
  counted s -> (forall i c, ev = CloseConn i -> sv_conns s !! i = Some c -> tc_open c = true) ->
  counted (serve_step s ev).
Proof.
  intros Hc Hone. destruct ev as [addr|m|i]; cbn [serve_step]; [|done|].
  - destruct (sv_running s); [|done]. cbn [negb]. unfold Accept.
    destruct (_ <=? _) eqn:Hle; [done|]. apply Z.leb_gt in Hle. intros ip.
    destruct (Hc ip) as [Hn Hlim]. cbn [sv_listener sv_conns connPool l_limit].
    rewrite open_count_app, open_count_one.
    destruct (decide (ipFromAddr addr = ip)) as [Heq|Hne].
    + rewrite bool_decide_true by done. subst ip. rewrite lookup_insert_eq.
      change (default 0 (Some ?x)) with x. lia.
    + rewrite bool_decide_false by (by intros []). rewrite lookup_insert_ne by done. lia.
  - destruct (sv_conns s !! i) as [c|] eqn:Hi; [|done]. cbn [Close]. intros ip.
    specialize (Hone i c eq_refl Hi). cbn [sv_listener sv_conns].
    assert (0 < default 0 (connPool (sv_listener s) !! tc_ip c)) as Hpos.
    { destruct (Hc (tc_ip c)) as [-> _].
      pose proof (open_count_close (tc_ip c) (sv_conns s) i c Hi Hone) as Ho.
      rewrite bool_decide_true in Ho by done.
      pose proof (open_count_nonneg (tc_ip c) (<[i := {| tc_ip := tc_ip c; tc_open := false |}]> (sv_conns s))). lia. }
    rewrite release_count, release_limit; [|intros ip'; destruct (Hc ip') as [-> _]; apply open_count_nonneg|done].
    rewrite open_count_close by done. destruct (Hc ip) as [-> Hlim].
    case_bool_decide; lia.
Qed.

Lemma serve_counted evs : forall s, counted s -> closes_once s evs -> counted (serve s evs).
Proof.
  induction evs as [|ev evs IH]; intros s Hc Ho; [done|]. destruct Ho as [Hev Ho].
  change (serve s (ev :: evs)) with (serve (serve_step s ev) evs). apply IH; [|done].
  apply serve_step_counted; [done|]. intros i c ->. apply Hev.
Qed.

(** ** Properties *)

(** As long as every connection is closed at most once, the listener's
    counter of an address is the number of its open connections, and no
    address ever has more than the limit open. *)
Theorem connections_bounded lim evs ip (Hlim : 0 <= lim) (Ho : closes_once (newServer lim) evs) :
  let s := serve (newServer lim) evs in
  default 0 (connPool (sv_listener s) !! ip) = open_count ip (sv_conns s) /\ open_count ip (sv_conns s) <= lim.
Proof.
  intros s.
  assert (l_limit (sv_listener s) = lim) as Hl.
  { unfold s, serve. apply (foldl_inv serve_step (fun s => l_limit (sv_listener s) = lim) (fun _ => True));
      [|done|by apply Forall_true].
    intros s' ev Hs' _. destruct ev as [addr|m|i]; cbn [serve_step]; [|done|].
    - destruct (sv_running s'); [|done]. cbn [negb]. unfold Accept. by destruct (_ <=? _).
    - destruct (sv_conns s' !! i); [|done]. cbn. by rewrite release_limit. }
  destruct (serve_counted evs (newServer lim)) with (ip := ip) as [H1 H2]; [|done|].
  - intros ip'. cbn [newServer sv_listener sv_conns connPool l_limit]. rewrite lookup_empty. split; [done|].
    change (open_count ip' []) with 0. lia.
  - split; [done|]. fold s in H2. rewrite Hl in H2. lia.
Qed.

Lemma connections_bounded_witness :
  let s := serve (newServer 2) [Incoming "10.0.0.7:1"; Incoming "10.0.0.7:2"; CloseConn 0; Incoming "10.0.0.7:3"] in
  default 0 (connPool (sv_listener s) !! "10.0.0.7") = open_count "10.0.0.7" (sv_conns s) /\
  open_count "10.0.0.7" (sv_conns s) <= 2.
Proof.
  apply (connections_bounded 2 [Incoming "10.0.0.7:1"; Incoming "10.0.0.7:2"; CloseConn 0; Incoming "10.0.0.7:3"] "10.0.0.7");
    [lia|]. simpl. repeat split. by intros c [= <-].
Defined.

(** Closing a connection twice undercounts: the address can then hold more
    open connections than the limit. *)
Theorem double_close_exceeds_limit :
  let evs := [Incoming "10.0.0.7:1"; Incoming "10.0.0.7:2"; CloseConn 0; CloseConn 0;
              Incoming "10.0.0.7:3"; Incoming "10.0.0.7:4"] in
  let s := serve (newServer 2) evs in
  open_count "10.0.0.7" (sv_conns s) = 3 /\ sv_running s = true.
Proof. vm_compute. done. Qed.

(** One address can stop the server: with the limit reached, its next
    connection makes [Accept] return an error, the accept loop ends, and no
    client at any address is accepted any more. *)
Theorem limit_stops_server s addr evs
  (Hrun : sv_running s = true)
  (Hfull : l_limit (sv_listener s) <= default 0 (connPool (sv_listener s) !! ipFromAddr addr)) :
  let s' := serve (serve_step s (Incoming addr)) evs in
  sv_running s' = false /\ length (sv_conns s') = length (sv_conns s).
Proof.
  cbn [serve_step]. rewrite Hrun. cbn [negb]. unfold Accept. rewrite (proj2 (Z.leb_le _ _) Hfull).
  unfold serve. apply (foldl_inv serve_step
    (fun s' => sv_running s' = false /\ length (sv_conns s') = length (sv_conns s)) (fun _ => True));
    [|done|by apply Forall_true].
  intros s' ev [Hr Hlen] _. destruct ev as [a|m|i]; cbn [serve_step]; [by rewrite Hr|done|].
  destruct (sv_conns s' !! i); [|done]. cbn. by rewrite length_insert.
Qed.

Lemma limit_stops_server_witness :
  let s := serve (newServer maxConnsPerIP) (replicate 64 (Incoming "10.0.0.7:5")) in
  let s' := serve (serve_step s (Incoming "10.0.0.7:5")) [Incoming "192.0.2.1:80"] in
  sv_running s' = false /\ length (sv_conns s') = length (sv_conns s).
Proof.
  apply (limit_stops_server (serve (newServer maxConnsPerIP) (replicate 64 (Incoming "10.0.0.7:5"))) "10.0.0.7:5"
           [Incoming "192.0.2.1:80"]); vm_compute; [reflexivity|discriminate].
Defined.
