(* ===== verification/HA.v ===== *)
(** * Active-passive failover (mcp-server-go/ha.go)

    One node's manager: its peers, role and timers; the heartbeat handler with
    its authentication and split-brain rule, the heartbeats an active node
    sends, the failover check, and promotion.  The HTTP exchange is its decoded
    body on the way in and, on the way out, the status each peer answers.  Time
    stamps on the wire are text: [TimeText] is the part of package time that
    writes and reads them. *)
From S2P Require Import Prelude GoStrings NetIP Crypto RateLimiter Middleware.
From Stdlib Require Import Ascii.

Open Scope string_scope.
Open Scope Z_scope.

(** ** Data *)

Inductive HARole : Type := RoleActive | RoleStandby | RoleUnjoined.

#[global] Instance HARole_eq_dec : EqDecision HARole.
Proof. solve_decision. Defined.

Definition HARole_string (r : HARole) : string :=
  match r with RoleActive => "active" | RoleStandby => "standby" | RoleUnjoined => "unjoined" end.

Record HAPeer : Type := MkPeer { hp_ID : string; hp_Address : string; hp_LastSeen : Z; hp_Healthy : bool }.

Record heartbeatPayload : Type := MkBeat {
  hb_FromID : string;
  hb_Role : string;
  hb_Priority : Z;
  hb_Timestamp : string;
  hb_HMAC : string;
}.

Record HAManager : Type := MkHA {
  peers : list HAPeer;
  selfID : string;
  role : HARole;
  activeID : string;
  priority : Z;
  heartbeatInterval : Z;
  failoverTimeout : Z;
  lastHeartbeat : Z;
  startedAt : Z;
  sharedSecret : string;
  heartbeatRate : option rateLimiter;
}.

(** ** Construction *)

(** [n*10 + int(c-'0')] on a 64-bit [int]. *)
Fixpoint parse_digits (n : Z) (s : string) : option Z :=
  match s with
  | EmptyString => Some n
  | String c s => if is_digit c then parse_digits (wrap64 (wrap64 (n * 10) + digit_val c)) s else None
  end.

Definition parsePositiveInt (s : string) : res Z :=
  match parse_digits 0 s with
  | Some n => Ok n
  | None => Err "invalid integer"
  end.

(** The peers of [CUBE_HA_PEERS]: the identifier is the address for now. *)
Definition parse_peers (raw : string) : list HAPeer :=
  let raw := TrimSpace raw in
  if raw =s "" then []
  else omap (fun addr => let addr := TrimSpace addr in
                         if addr =s "" then None else Some (MkPeer addr addr time_zero true))
            (Split raw ","%char).

(** [getenv] is the environment, [hostname] what [os.Hostname] returns. *)
Definition newHAManager `{GoRuntime} (getenv : string -> string) (hostname : res string) (now : Z) : HAManager :=
  let self := getenv "CUBE_HA_SELF_ID" in
  let self :=
    if self =s "" then
      match hostname with
      | Ok host => if host <>s "" then host else "cube-master"
      | Err _ => "cube-master"
      end
    else self in
  let p := getenv "CUBE_HA_PRIORITY" in
  let prio := if p <>s "" then match parsePositiveInt p with Ok n => n | Err _ => 100 end else 100 in
  let ps := parse_peers (getenv "CUBE_HA_PEERS") in
  let r := ToLower (TrimSpace (getenv "CUBE_HA_ROLE")) in
  let rl :=
    if r =s "active" then RoleActive
    else if r =s "standby" then RoleStandby
    else if (length ps =? 0)%nat then RoleActive else RoleStandby in
  {| peers := ps; selfID := self; role := rl;
     activeID := if bool_decide (rl = RoleActive) then self else "";
     priority := prio; heartbeatInterval := 2 * second; failoverTimeout := 10 * second;
     lastHeartbeat := now; startedAt := now; sharedSecret := getenv "CUBE_HA_SECRET";
     heartbeatRate := Some (newRateLimiter 60 minute) |}.

(** ** Updates *)

Definition set_peers (m : HAManager) (ps : list HAPeer) : HAManager :=
  MkHA ps (selfID m) (role m) (activeID m) (priority m) (heartbeatInterval m) (failoverTimeout m)
    (lastHeartbeat m) (startedAt m) (sharedSecret m) (heartbeatRate m).
Definition set_role (m : HAManager) (r : HARole) : HAManager :=
  MkHA (peers m) (selfID m) r (activeID m) (priority m) (heartbeatInterval m) (failoverTimeout m)
    (lastHeartbeat m) (startedAt m) (sharedSecret m) (heartbeatRate m).
Definition set_activeID (m : HAManager) (a : string) : HAManager :=
  MkHA (peers m) (selfID m) (role m) a (priority m) (heartbeatInterval m) (failoverTimeout m)
    (lastHeartbeat m) (startedAt m) (sharedSecret m) (heartbeatRate m).
Definition set_lastHeartbeat (m : HAManager) (t : Z) : HAManager :=
  MkHA (peers m) (selfID m) (role m) (activeID m) (priority m) (heartbeatInterval m) (failoverTimeout m)
    t (startedAt m) (sharedSecret m) (heartbeatRate m).
Definition set_rate (m : HAManager) (rl : option rateLimiter) : HAManager :=
  MkHA (peers m) (selfID m) (role m) (activeID m) (priority m) (heartbeatInterval m) (failoverTimeout m)
    (lastHeartbeat m) (startedAt m) (sharedSecret m) rl.

(** ** Role transitions and failover *)

Definition Promote (m : HAManager) (now : Z) : HAManager :=
  set_lastHeartbeat (set_activeID (set_role m RoleActive) (selfID m)) now.

Definition Demote (m : HAManager) (now : Z) : HAManager :=
  set_lastHeartbeat (set_role m RoleStandby) now.

Definition CheckFailover (m : HAManager) (now : Z) : bool :=
  bool_decide (role m = RoleStandby) && (failoverTimeout m <=? time_sub now (lastHeartbeat m)).

(** One tick of [watchFailover]: the check and the promotion read the clock. *)
Definition watchFailover_tick (m : HAManager) (now now2 : Z) : HAManager :=
  if CheckFailover m now then Promote m now2 else m.

Section Heartbeats.
Context `{Crypto, TimeText}.

(** ** Receiving *)

Definition computeHeartbeatHMAC (secret fromID timestamp : string) : string :=
  hex_encode (hmac_sha256 (bytes_of_string secret) (bytes_of_string (fromID +:+ ":" +:+ timestamp))).

(** The loop over the peers: the first match is updated. *)
Fixpoint touch_peer (ps : list HAPeer) (id : string) (ts : Z) : option (list HAPeer) :=
  match ps with
  | [] => None
  | p :: ps =>
      if (hp_ID p =s id) || (hp_Address p =s id) then Some (MkPeer id (hp_Address p) ts true :: ps)
      else (cons p) <$> touch_peer ps id ts
  end.

Definition record_peer (ps : list HAPeer) (id : string) (ts : Z) : list HAPeer :=
  match touch_peer ps id ts with
  | Some ps => ps
  | None => ps ++ [MkPeer id id ts true]
  end.

(** The sender takes precedence over this node. *)
Definition peerWins (m : HAManager) (hb : heartbeatPayload) : bool :=
  (hb_Priority hb <? priority m) || ((hb_Priority hb =? priority m) && String.ltb (selfID m) (hb_FromID hb)).

(** What an accepted heartbeat does. *)
Definition record_heartbeat (m : HAManager) (hb : heartbeatPayload) (now : Z) : HAManager :=
  let m := set_lastHeartbeat m now in
  let m := set_peers m (record_peer (peers m) (hb_FromID hb) now) in
  if EqualFold (hb_Role hb) "active" then
    let m := set_activeID m (hb_FromID hb) in
    if bool_decide (role m = RoleActive) && (hb_FromID hb <>s selfID m) && peerWins m hb
    then set_role m RoleStandby else m
  else m.

(** A request: method, remote address, and what decoding its body gives. *)
Record hb_request : Type := MkHbRequest { hr_method : string; hr_remote : string; hr_body : res heartbeatPayload }.

(** [ip, _, _ := net.SplitHostPort(..)], empty on error. *)
Definition heartbeat_ip (remote : string) : string :=
  let ip := default "" (SplitHostPort remote) in if ip =s "" then remote else ip.

(** Clock readings: the rate limiter's two, the one of the replay check, and
    the one recorded. *)
Record hb_times : Type := MkHbTimes { ht_rate : Z; ht_rate2 : Z; ht_since : Z; ht_now : Z }.

(** The status and text of the answer, and the new state. *)
Definition HandleHeartbeat (om : option HAManager) (r : hb_request) (t : hb_times)
  : (Z * string) * option HAManager :=
  match om with
  | None => ((503, "HA manager not initialized"), None)
  | Some m =>
      if hr_method r <>s "POST" then ((405, "method not allowed"), om)
      else
        let '(ok, rate) :=
          match heartbeatRate m with
          | None => (true, None)
          | Some rl => let '(ok, rl) := Allow rl (heartbeat_ip (hr_remote r)) (ht_rate t) (ht_rate2 t) in (ok, Some rl)
          end in
        let m := set_rate m rate in
        if negb ok then ((429, "heartbeat rate limit exceeded"), Some m)
        else
          match hr_body r with
          | Err e => ((400, "invalid heartbeat body: " +:+ e), Some m)
          | Ok hb =>
              if hb_FromID hb =s "" then ((400, "missing from_id"), Some m)
              else if sharedSecret m =s "" then
                ((403, "HA heartbeat disabled — set CUBE_HA_SECRET to enable"), Some m)
              else if hb_HMAC hb =s "" then ((401, "missing heartbeat HMAC"), Some m)
              else if hb_HMAC hb <>s computeHeartbeatHMAC (sharedSecret m) (hb_FromID hb) (hb_Timestamp hb) then
                ((401, "invalid heartbeat HMAC"), Some m)
              else
                match parse_nano (hb_Timestamp hb) with
                | None => ((401, "invalid heartbeat timestamp format"), Some m)
                | Some parsedTs =>
                    let abs := time_sub (ht_since t) parsedTs in
                    if 10 * second <? abs then
                      ((401, "stale heartbeat (timestamp skew: " +:+ duration_string abs +:+ ")"), Some m)
                    else ((200, "ok"), Some (record_heartbeat m hb (ht_now t)))
                end
          end
  end.

(** ** Sending *)

Definition heartbeat_of (m : HAManager) (now : Z) : heartbeatPayload :=
  let ts := format_nano now in
  {| hb_FromID := selfID m; hb_Role := HARole_string (role m); hb_Priority := priority m; hb_Timestamp := ts;
     hb_HMAC := if sharedSecret m <>s "" then computeHeartbeatHMAC (sharedSecret m) (selfID m) ts else "" |}.

(** [answer addr] is the status a peer answers with, [None] without an answer. *)
Definition apply_health (answer : string -> option Z) (now : Z) (p : HAPeer) : HAPeer :=
  match answer (hp_Address p) with
  | Some code =>
      let ok := (200 <=? code) && (code <? 300) in
      MkPeer (hp_ID p) (hp_Address p) (if ok then now else hp_LastSeen p) ok
  | None => MkPeer (hp_ID p) (hp_Address p) (hp_LastSeen p) false
  end.

(** The heartbeat and the addresses it goes to, and the state afterwards. *)
Definition dispatchHeartbeats (m : HAManager) (now now2 : Z) (answer : string -> option Z)
  : list (string * heartbeatPayload) * HAManager :=
  let hb := heartbeat_of m now in
  match peers m with
  | [] => ([], m)
  | ps => ((fun p => (hp_Address p, hb)) <$> ps, set_peers m (apply_health answer now2 <$> ps))
  end.

(** One tick of [sendHeartbeats]. *)
Definition sendHeartbeats_tick (m : HAManager) (now now2 : Z) (answer : string -> option Z)
  : list (string * heartbeatPayload) * HAManager :=
  if bool_decide (role m = RoleActive) then dispatchHeartbeats m now now2 answer else ([], m).

(** ** State for people *)

(** [Duration.Round] *)
Definition duration_round (d u : Z) : Z :=
  let r := Z.rem d u in
  if d <? 0 then
    let r := - r in
    if 2 * r <? u then d + r else if d - u + r <? d then Z.max int_min (d - u + r) else int_min
  else if 2 * r <? u then d - r else Z.min int_max (d + u - r).

Record HAState : Type := MkHAState {
  st_SelfID : string; st_Role : string; st_ActiveID : string;
  st_Peers : list (string * string * string * bool);
  st_Uptime : string; st_HeartbeatAge : string;
}.

Definition State (om : option HAManager) (now now2 : Z) : HAState :=
  match om with
  | None => MkHAState "" "unjoined" "" [] "" ""
  | Some m =>
      MkHAState (selfID m) (HARole_string (role m)) (activeID m)
        ((fun p => (hp_ID p, hp_Address p,
                    if negb (time_is_zero (hp_LastSeen p)) then format_rfc3339 (hp_LastSeen p) else "",
                    hp_Healthy p)) <$> peers m)
        (duration_string (duration_round (time_sub now2 (startedAt m)) second))
        (duration_string (duration_round (time_sub now (lastHeartbeat m)) 1000000))
  end.

(** ** Histories of one node *)

(** Heartbeats that passed authentication, and failover ticks. *)
Inductive ha_event : Type :=
  | EBeat (hb : heartbeatPayload) (now : Z)
  | ETick (now now2 : Z).

Definition ha_step (m : HAManager) (ev : ha_event) : HAManager :=
  match ev with
  | EBeat hb now => record_heartbeat m hb now
  | ETick now now2 => watchFailover_tick m now now2
  end.

Definition ha_run (m : HAManager) (evs : list ha_event) : HAManager := foldl ha_step m evs.

(** No tick finds the last heartbeat older than the timeout. *)
Fixpoint fresh (timeout last : Z) (evs : list ha_event) : Prop :=
  match evs with
  | [] => True
  | EBeat _ now :: evs => fresh timeout now evs
  | ETick now _ :: evs => time_sub now last < timeout /\ fresh timeout last evs
  end.

(** ** A cluster that lost its way: every node active *)

Definition receive_all (m : HAManager) (hbs : list heartbeatPayload) (now : Z) : HAManager :=
  foldl (fun m hb => record_heartbeat m hb now) m hbs.

(** [a] takes precedence over [b]. *)
Definition outranks (a b : HAManager) : bool :=
  (priority a <? priority b) || ((priority a =? priority b) && String.ltb (selfID b) (selfID a)).

(** ** Lemmas *)

Lemma ltb_irrefl s : String.ltb s s = false.
Proof.
  unfold String.ltb. destruct (String.compare s s) eqn:Hc; try done.
  pose proof (String.compare_antisym s s) as Ha. by rewrite Hc in Ha.
Qed.

Lemma ltb_total s t : s <> t -> String.ltb s t = negb (String.ltb t s).
Proof.
  intros Hne. unfold String.ltb. rewrite (String.compare_antisym s t).
  destruct (String.compare t s) eqn:Hc; try done. by apply String.compare_eq_iff in Hc.
Qed.

Lemma ltb_trans s : forall t u, String.ltb s t = true -> String.ltb t u = true -> String.ltb s u = true.
Proof.
  unfold String.ltb. induction s as [|a s IH]; intros [|b t] [|c u]; cbn [String.compare]; try done.
  unfold Ascii.compare.
  destruct (N.compare_spec (N_of_ascii a) (N_of_ascii b)) as [H1|H1|H1], (N.compare_spec (N_of_ascii b) (N_of_ascii c)) as [H2|H2|H2],
    (N.compare_spec (N_of_ascii a) (N_of_ascii c)) as [H3|H3|H3]; try done; try lia.
  apply IH.
Qed.

Lemma outranks_trans a b c : outranks a b = true -> outranks b c = true -> outranks a c = true.
Proof.
  unfold outranks. rewrite !orb_true_iff, !andb_true_iff, !Z.ltb_lt, !Z.eqb_eq.
  intros [?|[? ?]] [?|[? ?]]; [left; lia|left; lia|left; lia|right; split; [lia|]]. by eapply ltb_trans.
Qed.

Lemma outranks_total a b : selfID a <> selfID b -> outranks a b = negb (outranks b a).
Proof.
  intros Hne. unfold outranks. rewrite (ltb_total (selfID b) (selfID a)) by done.
  destruct (Z.ltb_spec (priority a) (priority b)), (Z.ltb_spec (priority b) (priority a)); try lia.
  assert (priority a = priority b) as -> by lia. by rewrite Z.eqb_refl.
Qed.

Lemma record_heartbeat_self m hb now :
  selfID (record_heartbeat m hb now) = selfID m /\ priority (record_heartbeat m hb now) = priority m /\
  failoverTimeout (record_heartbeat m hb now) = failoverTimeout m /\
  lastHeartbeat (record_heartbeat m hb now) = now.
Proof. unfold record_heartbeat. destruct (EqualFold _ _); [|done]. by destruct (_ && _). Qed.

(** The only way a heartbeat changes the role. *)
Lemma record_heartbeat_role m hb now :
  role (record_heartbeat m hb now) =
  if EqualFold (hb_Role hb) "active" && bool_decide (role m = RoleActive) && (hb_FromID hb <>s selfID m) && peerWins m hb
  then RoleStandby else role m.
Proof.
  unfold record_heartbeat. destruct (EqualFold _ _); [|done]. cbn [andb].
  change (role (set_activeID _ _)) with (role m). change (selfID (set_activeID _ _)) with (selfID m).
  change (peerWins (set_activeID _ _) hb) with (peerWins m hb). by destruct (_ && _).
Qed.

Lemma heartbeat_of_active m now : role m = RoleActive -> EqualFold (hb_Role (heartbeat_of m now)) "active" = true.
Proof. intros Hr. cbn [heartbeat_of hb_Role]. by rewrite Hr. Qed.

Lemma peerWins_outranks m n now : peerWins m (heartbeat_of n now) = outranks n m.
Proof. done. Qed.

(** After hearing from a set of active nodes, a node is still active iff it was
    and none of them outranks it. *)
Lemma receive_all_role ns : forall m now sent,
  Forall (fun n => role n = RoleActive) ns ->
  role (receive_all m ((fun n => heartbeat_of n sent) <$> ns) now) = RoleActive <->
  role m = RoleActive /\ Forall (fun n => selfID n = selfID m \/ outranks n m = false) ns.
Proof.
  induction ns as [|n ns IH]; intros m now sent Hact; [cbn; rewrite Forall_nil; tauto|].
  apply Forall_cons in Hact as [Hn Hact].
  change (receive_all m (_ <$> n :: ns) now) with
    (receive_all (record_heartbeat m (heartbeat_of n sent) now) ((fun n => heartbeat_of n sent) <$> ns) now).
  rewrite IH by done.
  destruct (record_heartbeat_self m (heartbeat_of n sent) now) as (Hs & Hp & _).
  rewrite record_heartbeat_role, heartbeat_of_active, peerWins_outranks, Hs, Forall_cons by done.
  assert (forall x, outranks x (record_heartbeat m (heartbeat_of n sent) now) = outranks x m) as Ho
    by (intros x; unfold outranks; by rewrite Hs, Hp).
  setoid_rewrite Ho. change (hb_FromID (heartbeat_of n sent)) with (selfID n).
  case_bool_decide as Hr; [|rewrite andb_false_l; tauto].
  case_bool_decide as Hid; cbn [andb negb]; [naive_solver|].
  destruct (outranks n m); [|naive_solver]. split; [by intros [? ?]|naive_solver].
Qed.

Lemma outranks_irrefl m : outranks m m = false.
Proof. unfold outranks. by rewrite Z.ltb_irrefl, ltb_irrefl, andb_false_r. Qed.

(** Some node of a cluster is outranked by none. *)
Lemma unbeaten_exists ms : ms <> [] -> exists w, w ∈ ms /\ Forall (fun n => outranks n w = false) ms.
Proof.
  induction ms as [|m [|m2 ms] IH]; [done| |]; intros _.
  - exists m. split; [by constructor|]. apply Forall_singleton, outranks_irrefl.
  - destruct IH as (w & Hw & Hall); [done|]. destruct (outranks m w) eqn:Hmw.
    + exists m. split; [by constructor|]. constructor; [apply outranks_irrefl|].
      eapply Forall_impl; [exact Hall|]. intros n Hn. cbn beta in *.
      destruct (outranks n m) eqn:Hnm; [|done]. by rewrite (outranks_trans n m w Hnm Hmw) in Hn.
    + exists w. split; [by constructor|]. by constructor.
Qed.

(** *** The handler *)

Definition rate_ok (m : HAManager) (r : hb_request) (t : hb_times) : bool :=
  match heartbeatRate m with
  | None => true
  | Some rl => (Allow rl (heartbeat_ip (hr_remote r)) (ht_rate t) (ht_rate2 t)).1
  end.

(** What authentication asks of a heartbeat. *)
Definition authentic (m : HAManager) (hb : heartbeatPayload) (now : Z) : Prop :=
  hb_FromID hb <> "" /\ sharedSecret m <> "" /\ hb_HMAC hb <> "" /\
  hb_HMAC hb = computeHeartbeatHMAC (sharedSecret m) (hb_FromID hb) (hb_Timestamp hb) /\
  exists ts, parse_nano (hb_Timestamp hb) = Some ts /\ time_sub now ts <= 10 * second.

(** A branch of the handler that refuses: some condition of acceptance fails. *)
Ltac refused :=
  left; split; [done|split; [first [by left | by right]|
    intros (? & ? & ? & ? & A1 & A2 & A3 & A4 & ts' & A5 & A6); simplify_eq; try congruence]].

(** The handler after the rate limiter, on a decoded body. *)
Lemma HandleHeartbeat_spec m r t :
  exists rate, let out := HandleHeartbeat (Some m) r t in
  (out.1.1 <> 200 /\ (out.2 = Some m \/ out.2 = Some (set_rate m rate)) /\
     ~ (hr_method r = "POST" /\ rate_ok m r t = true /\
        exists hb, hr_body r = Ok hb /\ authentic m hb (ht_since t))) \/
  (exists hb, hr_method r = "POST" /\ rate_ok m r t = true /\ hr_body r = Ok hb /\ authentic m hb (ht_since t) /\
     out.1.1 = 200 /\ out.2 = Some (record_heartbeat (set_rate m rate) hb (ht_now t))).
Proof.
  unfold HandleHeartbeat, rate_ok.
  set (q := match heartbeatRate m with None => _ | Some _ => _ end). set (ok := match heartbeatRate m with None => true | Some _ => _ end).
  assert (q.1 = ok) as Hok.
  { unfold q, ok. destruct (heartbeatRate m); [|done]. by destruct (Allow _ _ _ _). }
  destruct q as [b rate]. simpl in Hok. subst b. exists rate.
  unfold authentic.
  case_bool_decide as Hm; cbn [negb]; [|refused].
  destruct ok; cbn [negb]; [|refused].
  destruct (hr_body r) as [hb|e]; [|refused].
  change (sharedSecret (set_rate m rate)) with (sharedSecret m).
  case_bool_decide as E1; [refused|].
  case_bool_decide as E2; [refused|].
  case_bool_decide as E3; [refused|].
  case_bool_decide as E4; cbn [negb]; [|refused].
  destruct (parse_nano _) as [ts|] eqn:Ets; [|refused].
  destruct (Z.ltb_spec (10 * second) (time_sub (ht_since t) ts)); [refused; lia|].
  right. exists hb. split_and!; try done. exists ts. split; [done|lia].
Qed.

(** ** Properties *)

(** Split brain heals, by priority: let every node of a cluster with distinct identifiers
    believe it is active, and let each hear a heartbeat of every node.  Then
    exactly one of them is still active: the one with the smallest priority
    number, ties going to the greatest identifier. *)
Theorem split_brain_one_active ms sent now
  (Hne : ms <> []) (Hact : Forall (fun m => role m = RoleActive) ms)
  (Hids : forall a b, a ∈ ms -> b ∈ ms -> selfID a = selfID b -> a = b) :
  exists w, w ∈ ms /\ Forall (fun n => outranks n w = false) ms /\
    forall m, m ∈ ms ->
      (role (receive_all m ((fun n => heartbeat_of n sent) <$> ms) now) = RoleActive <-> m = w).
Proof.
  destruct (unbeaten_exists ms Hne) as (w & Hw & Hun). exists w. split; [done|]. split; [done|].
  intros m Hm. rewrite receive_all_role by done.
  rewrite Forall_forall in Hact, Hun. split.
  - intros [_ Hall]. rewrite Forall_forall in Hall. specialize (Hall w Hw) as [Hid|Hwm]; [by apply Hids|].
    destruct (decide (selfID m = selfID w)) as [Hid|Hid]; [by apply Hids|].
    pose proof (outranks_total w m ltac:(congruence)) as Ht. rewrite Hwm, (Hun m Hm) in Ht. done.
  - intros ->. split; [by apply Hact|]. apply Forall_forall. intros n Hn. right. by apply Hun.
Qed.

(** *** What a node has heard

    The specification of the failover timer: the requests that the limiter let
    through, and when the last one was recorded that authenticates. *)
Record monitor : Type := MkMonitor { mo_last : Z; mo_log : list (string * Z) }.

Inductive wire_event : Type := WBeat (r : hb_request) (t : hb_times) | WTick (now now2 : Z).

(** The body names a sender and carries the HMAC of sender and time stamp under the
    secret; the stamp is not more than ten seconds old. *)
Definition beat_ok (secret : string) (r : hb_request) (t : hb_times) : bool :=
  match hr_body r with
  | Err _ => false
  | Ok hb =>
      (hb_FromID hb <>s "") && (secret <>s "") && (hb_HMAC hb <>s "") &&
      (hb_HMAC hb =s computeHeartbeatHMAC secret (hb_FromID hb) (hb_Timestamp hb)) &&
      match parse_nano (hb_Timestamp hb) with Some ts => time_sub (ht_since t) ts <=? 10 * second | None => false end
  end.

Definition hear (secret : string) (mo : monitor) (ev : wire_event) : monitor :=
  match ev with
  | WTick _ _ => mo
  | WBeat r t =>
      if hr_method r <>s "POST" then mo
      else let '(ok, log) := spec_allow 60 minute (mo_log mo) (heartbeat_ip (hr_remote r)) (ht_rate t) in
           MkMonitor (if ok && beat_ok secret r t then ht_now t else mo_last mo) log
  end.

Definition wire_step (m : HAManager) (ev : wire_event) : HAManager :=
  match ev with
  | WBeat r t => default m (HandleHeartbeat (Some m) r t).2
  | WTick now now2 => watchFailover_tick m now now2
  end.

(** The limiter's clock. *)
Definition rate_readings (evs : list wire_event) : list Z := omap (fun ev => match ev with WBeat r t => Some (ht_rate t) | WTick _ _ => None end) evs.

(** The handler on a node with a limiter: refused, or recorded. *)
Lemma HandleHeartbeat_step m r t rl : heartbeatRate m = Some rl ->
  let '(ok, rl') := Allow rl (heartbeat_ip (hr_remote r)) (ht_rate t) (ht_rate2 t) in
  (HandleHeartbeat (Some m) r t).2 =
  if hr_method r <>s "POST" then Some m
  else if ok && beat_ok (sharedSecret m) r t
       then match hr_body r with Ok hb => Some (record_heartbeat (set_rate m (Some rl')) hb (ht_now t)) | Err _ => None end
       else Some (set_rate m (Some rl')).
Proof.
  intros Hrl. unfold HandleHeartbeat. rewrite Hrl. destruct (Allow _ _ _ _) as [ok rl']. destruct (hr_method r <>s "POST"); [done|].
  destruct ok; [|done]. cbn [negb andb]. unfold beat_ok. destruct (hr_body r) as [hb|e]; [|done].
  change (sharedSecret (set_rate m (Some rl'))) with (sharedSecret m).
  destruct (hb_FromID hb =s ""); [done|]. destruct (sharedSecret m =s ""); [done|]. destruct (hb_HMAC hb =s ""); [done|].
  destruct (hb_HMAC hb =s computeHeartbeatHMAC _ _ _); [|done]. cbn [negb andb].
  destruct (parse_nano _) as [ts|]; [|done]. rewrite Z.leb_antisym. by destruct (10 * second <? _).
Qed.

(** What stays true of a node next to its monitor. *)
Record heard (m0 m : HAManager) (mo : monitor) (clock : Z) : Prop := {
  he_rate : exists rl, heartbeatRate m = Some rl /\ limit rl = 60 /\ window rl = minute /\ simulates rl (mo_log mo) clock;
  he_fixed : sharedSecret m = sharedSecret m0 /\ failoverTimeout m = failoverTimeout m0 /\ selfID m = selfID m0;
  he_role : role m = RoleActive \/ role m = RoleStandby /\ lastHeartbeat m = mo_last mo;
}.

Lemma record_fixed m hb now : let m' := record_heartbeat m hb now in
  sharedSecret m' = sharedSecret m /\ heartbeatRate m' = heartbeatRate m.
Proof. cbv zeta. unfold record_heartbeat. destruct (EqualFold _ _); [|done]. by destruct (_ && _). Qed.

Lemma heard_beat m0 m mo clock r t : heard m0 m mo clock -> clock <= ht_rate t ->
  heard m0 (wire_step m (WBeat r t)) (hear (sharedSecret m0) mo (WBeat r t)) (ht_rate t) /\
  (role m = RoleStandby -> role (wire_step m (WBeat r t)) = RoleStandby).
Proof.
  intros [(rl & Hrl & Hl & Hw & Hs) (Hsec & Hto & Hid) Hrole] Hc. cbn [wire_step hear].
  pose proof (HandleHeartbeat_step m r t rl Hrl) as Hh.
  destruct (Allow rl (heartbeat_ip (hr_remote r)) (ht_rate t) (ht_rate2 t)) as [ok rl'] eqn:Ea.
  destruct (Allow_spec _ _ _ _ _ _ _ _ Hs Hc Ea) as (log & Hspec & Hs' & Hw' & Hl'). rewrite Hl, Hw in *. rewrite Hh, Hsec, Hspec. cbv beta iota zeta.
  assert (Hmono : simulates rl (mo_log mo) (ht_rate t)).
  { destruct Hs as [Hs Hle]. split; [intros; apply Hs; lia|]. eapply Forall_impl; [exact Hle|]. simpl. lia. }
  destruct (hr_method r <>s "POST"); cbn [from_option id].
  { split; [|done]. constructor; [by exists rl|done|done]. }
  destruct (ok && beat_ok (sharedSecret m0) r t) eqn:Eb; cbn [from_option id].
  - apply andb_true_iff in Eb as [_ Eb]. unfold beat_ok in Eb. destruct (hr_body r) as [hb|]; [|done]. cbn [from_option id].
    destruct (record_heartbeat_self (set_rate m (Some rl')) hb (ht_now t)) as (R1 & _ & R3 & R4).
    destruct (record_fixed (set_rate m (Some rl')) hb (ht_now t)) as (R5 & R6).
    pose proof (record_heartbeat_role (set_rate m (Some rl')) hb (ht_now t)) as Hr. cbn [set_rate role] in Hr. split; [constructor|].
    + exists rl'. cbn [mo_log]. by rewrite R6.
    + by rewrite R1, R3, R5.
    + rewrite R4. cbn [mo_last]. rewrite Hr. destruct (_ && peerWins _ _); [by right|].
      destruct Hrole as [?|[? _]]; [by left|by right].
    + intros Hst. rewrite Hr, Hst. match goal with |- context [if ?b then _ else _] => destruct b; reflexivity end.
  - split; [|done]. constructor; cbn [mo_log mo_last]; [by exists rl'|done|done].
Qed.

Lemma heard_tick m0 m mo clock now now2 : heard m0 m mo clock -> heard m0 (wire_step m (WTick now now2)) mo clock.
Proof.
  intros [Hr Hf Hrole]. cbn [wire_step]. unfold watchFailover_tick. destruct (CheckFailover m now); [|by constructor].
  constructor; [exact Hr|exact Hf|by left].
Qed.

Lemma heard_history m0 evs : forall m mo clock, heard m0 m mo clock -> StronglySorted Z.le (clock :: rate_readings evs) ->
  exists clock', heard m0 (foldl wire_step m evs) (foldl (hear (sharedSecret m0)) mo evs) clock'.
Proof.
  induction evs as [|[r t|now now2] evs IH]; intros m mo clock Hh Hc; [by exists clock| |].
  - cbn [rate_readings omap list_omap] in Hc. apply StronglySorted_inv in Hc as [Hc Hle]. apply Forall_cons in Hle as [Hle _].
    cbn [foldl]. eapply IH; [by apply (heard_beat m0 m mo clock)|done].
  - cbn [foldl]. eapply IH; [by apply heard_tick|exact Hc].
Qed.


(** The heartbeat handler, exactly: the state changes beyond the rate
    limiter iff the answer is 200, iff the request is a POST within the rate
    limit whose body names a sender and carries the HMAC of sender and time
    stamp under the shared secret, and whose time stamp is not more than ten
    seconds old.  The bound is one-sided: a time stamp ahead of the clock, by
    however much, is accepted. *)
Theorem heartbeat_accepted_iff m r t :
  let out := HandleHeartbeat (Some m) r t in
  (out.1.1 = 200 <->
     hr_method r = "POST" /\ rate_ok m r t = true /\
     exists hb, hr_body r = Ok hb /\ authentic m hb (ht_since t)) /\
  (out.1.1 <> 200 -> exists rate, out.2 = Some m \/ out.2 = Some (set_rate m rate)) /\
  (out.1.1 = 200 -> exists rate hb, hr_body r = Ok hb /\
     out.2 = Some (record_heartbeat (set_rate m rate) hb (ht_now t))).
Proof.
  destruct (HandleHeartbeat_spec m r t) as (rate & [(Hc & Hs & Hn)|(hb & Hp & Hr & Hb & Ha & Hc & Hs)]); cbn zeta.
  - split_and!; [|by exists rate|done]. split; [done|]. by intros Hy%Hn.
  - split_and!; [|done|intros _; by exists rate, hb]. split; [|done]. intros _. split_and!; [done|done|by exists hb].
Qed.

(** The signature does not cover role and priority: whoever sees a valid
    heartbeat can change both, and the handler still accepts it. *)
Theorem heartbeat_role_not_signed m r hb t role' priority'
  (Hb : hr_body r = Ok hb) (Hacc : (HandleHeartbeat (Some m) r t).1.1 = 200) :
  (HandleHeartbeat (Some m)
     (MkHbRequest (hr_method r) (hr_remote r)
        (Ok (MkBeat (hb_FromID hb) role' priority' (hb_Timestamp hb) (hb_HMAC hb)))) t).1.1 = 200.
Proof.
  set (r' := MkHbRequest _ _ _).
  destruct (HandleHeartbeat_spec m r t) as (rate & [(Hc & _)|(hb' & Hp & Hr & Hb' & Ha & _)]); [done|].
  assert (hb' = hb) as -> by congruence.
  destruct (HandleHeartbeat_spec m r' t) as (rate' & [(_ & _ & Hn)|(hb2 & _ & _ & _ & _ & Hc & _)]); [|done].
  destruct Hn. split_and!; [done|done|]. by eexists.
Qed.

(** An honest heartbeat is accepted: what an active node with the same
    secret sends is answered with 200 by a peer within its rate limit, provided
    the message is not more than ten seconds on the way. *)
Theorem honest_heartbeat_accepted a m remote sent t
  (Hsent : 0 <= sent) (Hid : selfID a <> "") (Hsec : sharedSecret a <> "")
  (Hshared : sharedSecret m = sharedSecret a)
  (Hrate : rate_ok m (MkHbRequest "POST" remote (Ok (heartbeat_of a sent))) t = true)
  (Hdelay : time_sub (ht_since t) sent <= 10 * second) :
  (HandleHeartbeat (Some m) (MkHbRequest "POST" remote (Ok (heartbeat_of a sent))) t).1.1 = 200.
Proof.
  set (r := MkHbRequest _ _ _).
  destruct (HandleHeartbeat_spec m r t) as (rate & [(_ & _ & Hn)|(hb & _ & _ & _ & _ & Hc & _)]); [|done].
  destruct Hn. split_and!; [done|done|]. exists (heartbeat_of a sent). split; [done|].
  unfold authentic, heartbeat_of. cbn [hb_FromID hb_HMAC hb_Timestamp].
  rewrite bool_decide_false, Hshared by done. cbn [negb].
  split_and!; [done|done| |done|].
  - intros Hh. apply (f_equal String.length) in Hh. revert Hh. unfold computeHeartbeatHMAC.
    destruct (hmac_sha256 _ _) as [|x l] eqn:Hl; [|done].
    pose proof (hmac_sha256_length (bytes_of_string (sharedSecret a)) (bytes_of_string (selfID a +:+ ":" +:+ format_nano sent))) as Hlen.
    by rewrite Hl in Hlen.
  - exists sent. split; [by apply parse_format|done].
Qed.

(** No failover while the active node is heard: a standby node stays standby
    through any sequence of heartbeats and ticks in which no tick finds the last
    heartbeat as old as the timeout. *)
Theorem no_failover_while_heartbeats m evs
  (Hr : role m = RoleStandby) (Hf : fresh (failoverTimeout m) (lastHeartbeat m) evs) :
  role (ha_run m evs) = RoleStandby.
Proof.
  revert m Hr Hf. induction evs as [|ev evs IH]; intros m Hr Hf; [done|].
  change (ha_run m (ev :: evs)) with (ha_run (ha_step m ev) evs). destruct ev as [hb now|now now2]; cbn [ha_step fresh] in *.
  - destruct (record_heartbeat_self m hb now) as (_ & _ & Ht & Hl). apply IH; [|by rewrite Ht, Hl].
    rewrite record_heartbeat_role, Hr. by destruct (_ && _).
  - destruct Hf as [Hlt Hf]. unfold watchFailover_tick, CheckFailover.
    rewrite (proj2 (Z.leb_gt _ _) Hlt), andb_false_r. by apply IH.
Qed.

(** A dead active node is replaced: if no heartbeat arrives, a standby node
    is active after any ticks of which one comes at least the timeout after the
    last heartbeat, and names itself as the active node. *)
Theorem silence_promotes m before now now2 after
  (Hr : role m = RoleStandby)
  (Htick : failoverTimeout m <= time_sub now (lastHeartbeat m)) :
  let tick := fun p : Z * Z => ETick p.1 p.2 in
  let m' := ha_run m ((tick <$> before) ++ ETick now now2 :: (tick <$> after))%list in
  role m' = RoleActive /\ activeID m' = selfID m.
Proof.
  intros tick m'.
  assert (forall l m, role m = RoleActive -> ha_run m (tick <$> l) = m) as Hact.
  { clear. induction l as [|p l IH]; intros m Hr; [done|].
    change (ha_run m (tick <$> p :: l)) with (ha_run (watchFailover_tick m p.1 p.2) (tick <$> l)).
    unfold watchFailover_tick, CheckFailover. rewrite Hr. by apply IH. }
  assert (forall l m, role m = RoleStandby ->
            ha_run m (tick <$> l) = m \/
            (role (ha_run m (tick <$> l)) = RoleActive /\ activeID (ha_run m (tick <$> l)) = selfID m)) as Hst.
  { clear - Hact. induction l as [|p l IH]; intros m Hr; [by left|].
    change (ha_run m (tick <$> p :: l)) with (ha_run (watchFailover_tick m p.1 p.2) (tick <$> l)).
    unfold watchFailover_tick. destruct (CheckFailover m p.1); [|by apply IH].
    right. by rewrite Hact. }
  unfold m', ha_run in *. rewrite foldl_app. cbn [foldl ha_step].
  destruct (Hst before m Hr) as [->|[Ha Hid]].
  - unfold watchFailover_tick, CheckFailover. rewrite Hr, (proj2 (Z.leb_le _ _) Htick). cbn. by rewrite Hact.
  - unfold watchFailover_tick, CheckFailover. rewrite Ha. cbn. by rewrite Hact.
Qed.

(** The winner of a split brain names the loser as active: a node that keeps
    its active role on hearing another active node records the other's
    identifier as the active one. *)
Theorem split_brain_winner_misreports m n sent now
  (Hm : role m = RoleActive) (Hn : role n = RoleActive) (Hids : selfID n <> selfID m)
  (Hwin : outranks m n = true) :
  let m' := record_heartbeat m (heartbeat_of n sent) now in
  role m' = RoleActive /\ activeID m' = selfID n /\ activeID m' <> selfID m'.
Proof.
  cbn zeta. destruct (record_heartbeat_self m (heartbeat_of n sent) now) as (Hs & _).
  assert (outranks n m = false) as Hno by (rewrite outranks_total by done; by rewrite Hwin).
  split; [|rewrite Hs].
  - by rewrite record_heartbeat_role, heartbeat_of_active, peerWins_outranks, Hno, andb_false_r by done.
  - unfold record_heartbeat. rewrite heartbeat_of_active by done.
    change (peerWins _ (heartbeat_of n sent)) with (outranks n m). rewrite Hno, andb_false_r. done.
Qed.

(** The provisional identifier of a configured peer is never replaced: a
    heartbeat whose sender is not already known by that very text adds a second
    peer, with the identifier as its address, and leaves the configured one as
    it was. *)
Theorem provisional_peer_stays ps id ts
  (Hnew : Forall (fun p => hp_ID p <> id /\ hp_Address p <> id) ps) :
  record_peer ps id ts = (ps ++ [MkPeer id id ts true])%list.
Proof.
  assert (touch_peer ps id ts = None) as Ht.
  { induction Hnew as [|p ps [H1 H2] _ IH]; [done|]. cbn [touch_peer].
    rewrite !bool_decide_false by done. cbn [orb]. by rewrite IH. }
  unfold record_peer. by rewrite Ht.
Qed.

End Heartbeats.

(** The priority is read exactly when it fits an [int], and wraps when it
    does not: 2^64 is read as 0, the highest precedence. *)
Theorem parsePositiveInt_bounds :
  (forall s, str_all is_digit s = true -> dec_value s 0 <= int_max -> parsePositiveInt s = Ok (dec_value s 0)) /\
  (forall s, str_all is_digit s = false -> parsePositiveInt s = Err "invalid integer") /\
  parsePositiveInt "18446744073709551616" = Ok 0.
Proof.
  split_and!; [| |reflexivity].
  - assert (forall s acc, str_all is_digit s = true -> 0 <= acc -> acc <= dec_value s acc) as Hmono.
    { induction s as [|a s IH]; intros acc; [cbn; lia|]. cbn [str_all dec_value]. intros [Ha Hs]%andb_true_iff Hacc.
      unfold is_digit in Ha. rewrite andb_true_iff, !Z.leb_le in Ha.
      specialize (IH (acc * 10 + digit_val a) Hs). unfold digit_val in *. lia. }
    assert (forall s acc, str_all is_digit s = true -> 0 <= acc -> dec_value s acc <= int_max ->
              parse_digits acc s = Some (dec_value s acc)) as Hp.
    { induction s as [|a s IH]; intros acc; [done|]. cbn [str_all dec_value parse_digits].
      intros [Ha Hs]%andb_true_iff Hacc Hmax. rewrite Ha. unfold is_digit in Ha. rewrite andb_true_iff, !Z.leb_le in Ha.
      pose proof (Hmono s (acc * 10 + digit_val a) Hs) as Hm. unfold digit_val, int_max in *.
      rewrite (wrap64_id (acc * 10)), wrap64_id by (unfold int_min, int_max; lia). apply IH; [done|lia|done]. }
    intros s Hd Hmax. unfold parsePositiveInt. by rewrite Hp by (done || lia).
  - assert (forall s acc, str_all is_digit s = false -> parse_digits acc s = None) as Hp.
    { induction s as [|a s IH]; intros acc; [done|]. cbn [str_all parse_digits].
      destruct (is_digit a); [|done]. simpl. auto. }
    intros s Hd. unfold parsePositiveInt. by rewrite Hp.
Qed.

(** ** Witnesses: three nodes that share a secret *)

#[local] Existing Instance std_crypto.

(** Time stamps as decimal numbers. *)
Definition demo_parse_nano (s : string) : option Z :=
  if str_all is_digit s then Some (dec_value s 0) else None.

Lemma demo_parse_format t : 0 <= t -> demo_parse_nano (pretty t) = Some t.
Proof.
  intros Ht. destruct (pretty_nonneg t Ht) as (Hv & Hd & _). unfold demo_parse_nano. by rewrite Hd, Hv.
Qed.

Definition demo_time : TimeText :=
  {| format_nano := pretty; parse_nano := demo_parse_nano; format_rfc3339 := pretty; duration_string := pretty;
     parse_format := demo_parse_format |}.
#[local] Existing Instance demo_time.

Definition demo_node (id : string) (p : Z) (r : HARole) : HAManager :=
  {| peers := [MkPeer "10.0.0.1:8080" "10.0.0.1:8080" 0 true]; selfID := id; role := r;
     activeID := if bool_decide (r = RoleActive) then id else ""; priority := p;
     heartbeatInterval := 2 * second; failoverTimeout := 10 * second; lastHeartbeat := 100 * second;
     startedAt := 90 * second; sharedSecret := "s3cret"; heartbeatRate := Some (newRateLimiter 60 minute) |}.
Definition node_a : HAManager := demo_node "a" 100 RoleActive.
Definition node_b : HAManager := demo_node "b" 100 RoleActive.
Definition node_c : HAManager := demo_node "c" 200 RoleActive.
Definition demo_times (t : Z) : hb_times := MkHbTimes t t t t.

Lemma split_brain_one_active_witness :
  exists w, w ∈ [node_a; node_b; node_c] /\ Forall (fun n => outranks n w = false) [node_a; node_b; node_c] /\
    forall m, m ∈ [node_a; node_b; node_c] ->
      (role (receive_all m ((fun n => heartbeat_of n (101 * second)) <$> [node_a; node_b; node_c]) (102 * second)) =
       RoleActive <-> m = w).
Proof.
  apply (split_brain_one_active [node_a; node_b; node_c] (101 * second) (102 * second)).
  - done.
  - repeat constructor.
  - intros x y Hx Hy. rewrite !elem_of_cons, elem_of_nil in Hx, Hy.
    destruct Hx as [->|[->|[->|[]]]], Hy as [->|[->|[->|[]]]]; done.
Defined.

(** An active node is heard at 105 seconds; a forged request at 112 does not count. *)
Definition demo_forged : hb_request := MkHbRequest "POST" "10.0.0.2:4711" (Ok (MkBeat "a" "active" 0 "112000000000" "00")).


Definition demo_hb_request : hb_request :=
  MkHbRequest "POST" "10.0.0.2:4711" (Ok (heartbeat_of node_a (101 * second))).

Lemma heartbeat_role_not_signed_witness :
  let hb := heartbeat_of node_a (101 * second) in
  (HandleHeartbeat (Some node_b) demo_hb_request (demo_times (102 * second))).1.1 = 200 /\
  (HandleHeartbeat (Some node_b)
     (MkHbRequest (hr_method demo_hb_request) (hr_remote demo_hb_request)
        (Ok (MkBeat (hb_FromID hb) "active" 0 (hb_Timestamp hb) (hb_HMAC hb))))
     (demo_times (102 * second))).1.1 = 200.
Proof.
  intros hb. split; [vm_compute; reflexivity|].
  apply (heartbeat_role_not_signed node_b demo_hb_request hb (demo_times (102 * second)) "active" 0).
  - reflexivity.
  - vm_compute. reflexivity.
Defined.

Lemma honest_heartbeat_accepted_witness :
  (HandleHeartbeat (Some node_b) demo_hb_request (demo_times (102 * second))).1.1 = 200.
Proof.
  unfold demo_hb_request.
  apply (honest_heartbeat_accepted node_a node_b "10.0.0.2:4711" (101 * second) (demo_times (102 * second))).
  - vm_compute. discriminate.
  - discriminate.
  - discriminate.
  - reflexivity.
  - vm_compute. reflexivity.
  - vm_compute. discriminate.
Defined.

Definition standby_d : HAManager := demo_node "d" 100 RoleStandby.

Lemma no_failover_while_heartbeats_witness :
  role (ha_run standby_d [ETick (109 * second) (109 * second); EBeat (heartbeat_of node_a (109 * second)) (110 * second);
                          ETick (119 * second) (119 * second)]) = RoleStandby.
Proof.
  apply (no_failover_while_heartbeats standby_d
    [ETick (109 * second) (109 * second); EBeat (heartbeat_of node_a (109 * second)) (110 * second);
     ETick (119 * second) (119 * second)]); [reflexivity|]. vm_compute. done.
Defined.

Lemma silence_promotes_witness :
  let m' := ha_run standby_d [ETick (109 * second) (109 * second); ETick (110 * second) (110 * second);
                              ETick (111 * second) (111 * second)] in
  role m' = RoleActive /\ activeID m' = "d".
Proof.
  apply (silence_promotes standby_d [(109 * second, 109 * second)] (110 * second) (110 * second)
           [(111 * second, 111 * second)]); [reflexivity|]. vm_compute. discriminate.
Defined.

Lemma split_brain_winner_misreports_witness :
  let m' := record_heartbeat node_b (heartbeat_of node_a (101 * second)) (102 * second) in
  role m' = RoleActive /\ activeID m' = "a" /\ activeID m' <> selfID m'.
Proof.
  apply (split_brain_winner_misreports node_b node_a (101 * second) (102 * second));
    vm_compute; first [reflexivity|discriminate].
Defined.

Lemma provisional_peer_stays_witness :
  record_peer (peers node_b) "a" (102 * second) =
  [MkPeer "10.0.0.1:8080" "10.0.0.1:8080" 0 true; MkPeer "a" "a" (102 * second) true].
Proof. apply (provisional_peer_stays (peers node_b) "a" (102 * second)). by repeat constructor. Defined.

(** A time stamp a year ahead of the clock is accepted. *)
Example future_heartbeat_accepted :
  (HandleHeartbeat (Some node_b)
     (MkHbRequest "POST" "10.0.0.2:4711" (Ok (heartbeat_of node_a ((100 + 31536000) * second))))
     (demo_times (102 * second))).1.1 = 200.
Proof. vm_compute. reflexivity. Qed.

(** Without a secret every heartbeat is refused. *)
Example heartbeat_without_secret :
  let m := {| peers := []; selfID := "x"; role := RoleStandby; activeID := ""; priority := 100;
              heartbeatInterval := 2 * second; failoverTimeout := 10 * second; lastHeartbeat := 0; startedAt := 0;
              sharedSecret := ""; heartbeatRate := None |} in
  (HandleHeartbeat (Some m) demo_hb_request (demo_times (102 * second))).1.1 = 403.
Proof. vm_compute. reflexivity. Qed.
