(* ===== verification/Nodes.v ===== *)
(** * The node registry (mcp-server-go/nodes.go)

    The catalogue of machines, in memory and on disk (one file per node), its
    operations and tool handlers, and the path that deploys to a remote node.
    The directory is a map from file names to what decoding the file gives;
    whether saving succeeds is an argument.  A node record is shared between
    the map and the callers: an update that fails half way has happened. *)
From S2P Require Import Prelude GoStrings GoValue Security.
From Stdlib Require Import Ascii.

Open Scope string_scope.
Open Scope Z_scope.

(** ** Data *)

(** [type NodeState string], [type NodeType string]. *)
Definition NodeActive : string := "active".
Definition NodeDraining : string := "draining".
Definition NodeOffline : string := "offline".
Definition NodeDocker : string := "docker".
Definition NodeCube : string := "cube".

Record Node : Type := MkNode {
  n_ID : string;
  n_Hostname : string;
  n_Address : string;
  n_Backend : string;
  n_State : string;
  n_MemoryMB : Z;
  n_CPUCores : float64;
  n_DiskGB : Z;
  n_Labels : list (string * string);
  n_LastSeen : Z;
  n_CreatedAt : Z;
}.

Record NodeSummary : Type := MkSummary {
  s_ID : string; s_Hostname : string; s_Address : string; s_Backend : string; s_State : string;
  s_MemoryMB : Z; s_CPUCores : float64; s_DiskGB : Z;
}.

(** A file of the directory: a node, or something that does not decode. *)
Inductive node_file : Type := NodeFile (n : Node) | OtherFile.

Record NodeRegistry : Type := MkRegistry { nodes : gmap string Node; disk : gmap string node_file }.

(** How saving ends: written; refused before the file is touched; or cut short
    after the file was truncated. *)
Inductive save_outcome : Type := Saved | SaveRefused (msg : string) | SaveCut (msg : string).

(** ** Persistence *)

Definition sanitize_byte (a : ascii) : ascii :=
  if bool_decide (a = "/"%char) || bool_decide (a = "\"%char) then "_"%char else a.

Definition nodeFilePath (id : string) : string := str_map sanitize_byte id +:+ ".json".

Definition key_le (p q : string * node_file) : Prop := String.le p.1 q.1.

#[global] Instance key_le_dec p q : Decision (key_le p q).
Proof. unfold key_le. apply _. Defined.

(** [os.ReadDir] lists by name. *)
Definition loadFromDisk (d : gmap string node_file) : gmap string Node :=
  foldl (fun m p => match p.2 with
                    | NodeFile n => if HasSuffix p.1 ".json" then <[n_ID n := n]> m else m
                    | OtherFile => m
                    end) ∅ (merge_sort key_le (map_to_list d)).

Definition newNodeRegistry (d : gmap string node_file) : NodeRegistry :=
  {| nodes := loadFromDisk d; disk := d |}.

Definition saveNode (nr : NodeRegistry) (n : Node) (w : save_outcome) : res unit * NodeRegistry :=
  match w with
  | Saved => (Ok tt, {| nodes := nodes nr; disk := <[nodeFilePath (n_ID n) := NodeFile n]> (disk nr) |})
  | SaveRefused m => (Err m, nr)
  | SaveCut m => (Err m, {| nodes := nodes nr; disk := <[nodeFilePath (n_ID n) := OtherFile]> (disk nr) |})
  end.

Definition deleteNodeFile (nr : NodeRegistry) (id : string) : NodeRegistry :=
  {| nodes := nodes nr; disk := delete (nodeFilePath id) (disk nr) |}.

Definition set_nodes (nr : NodeRegistry) (m : gmap string Node) : NodeRegistry :=
  {| nodes := m; disk := disk nr |}.

(** ** Operations *)

Definition with_state (n : Node) (st : string) : Node :=
  MkNode (n_ID n) (n_Hostname n) (n_Address n) (n_Backend n) st (n_MemoryMB n) (n_CPUCores n) (n_DiskGB n)
    (n_Labels n) (n_LastSeen n) (n_CreatedAt n).
Definition with_created (n : Node) (t : Z) : Node :=
  MkNode (n_ID n) (n_Hostname n) (n_Address n) (n_Backend n) (n_State n) (n_MemoryMB n) (n_CPUCores n) (n_DiskGB n)
    (n_Labels n) (n_LastSeen n) t.
Definition with_seen (n : Node) (t : Z) : Node :=
  MkNode (n_ID n) (n_Hostname n) (n_Address n) (n_Backend n) (n_State n) (n_MemoryMB n) (n_CPUCores n) (n_DiskGB n)
    (n_Labels n) t (n_CreatedAt n).

(** The checks before the lock; the node comes back with its state filled in. *)
Definition check_node (n : Node) : res Node :=
  reject n_ID n =s "" with "id is required" ;;
  reject n_Address n =s "" with "address is required (host:port)" ;;
  reject (n_Backend n <>s NodeDocker) && (n_Backend n <>s NodeCube) with "backend must be 'docker' or 'cube'" ;;
  let! _ := validateHostPort (n_Address n) in
  let n := if n_State n =s "" then with_state n NodeActive else n in
  reject (n_MemoryMB n <? 0) || f64_lt (n_CPUCores n) f64_zero || (n_DiskGB n <? 0)
    with "resource values cannot be negative" ;;
  Ok n.

(** The node as the caller sees it afterwards, or the error. *)
Definition addNode (nr : NodeRegistry) (n : Node) (now : Z) (w : save_outcome) : res Node * NodeRegistry :=
  match check_node n with
  | Err m => (Err m, nr)
  | Ok n =>
      match nodes nr !! n_ID n with
      | Some _ => (Err ("node " +:+ n_ID n +:+ " already exists (use update_node)"), nr)
      | None =>
          let n := with_created n now in
          let '(r, nr) := saveNode (set_nodes nr (<[n_ID n := n]> (nodes nr))) n w in
          (let! _ := r in Ok n, nr)
      end
  end.

(** [updates[k].(string)] that is not empty. *)
Definition upd_str (o : object) (k : string) : option string :=
  match obj_index o k with
  | VStr s => if s <>s "" then Some s else None
  | _ => None
  end.

(** [updates[k].(float64)] *)
Definition upd_float (o : object) (k : string) : option float64 :=
  match obj_index o k with
  | VFloat f => Some f
  | _ => None
  end.

(** The fields after the address. *)
Definition update_rest `{GoRuntime} (n : Node) (o : object) : Node :=
  MkNode (n_ID n) (n_Hostname n) (n_Address n)
    (default (n_Backend n) (upd_str o "backend"))
    (default (n_State n) (upd_str o "state"))
    (match upd_float o "memory_mb" with Some v => f64_to_int v | None => n_MemoryMB n end)
    (default (n_CPUCores n) (upd_float o "cpu_cores"))
    (match upd_float o "disk_gb" with Some v => f64_to_int v | None => n_DiskGB n end)
    (n_Labels n) (n_LastSeen n) (n_CreatedAt n).

Definition with_hostname (n : Node) (h : string) : Node :=
  MkNode (n_ID n) h (n_Address n) (n_Backend n) (n_State n) (n_MemoryMB n) (n_CPUCores n) (n_DiskGB n)
    (n_Labels n) (n_LastSeen n) (n_CreatedAt n).
Definition with_address (n : Node) (a : string) : Node :=
  MkNode (n_ID n) (n_Hostname n) a (n_Backend n) (n_State n) (n_MemoryMB n) (n_CPUCores n) (n_DiskGB n)
    (n_Labels n) (n_LastSeen n) (n_CreatedAt n).

Definition updateNode `{GoRuntime} (nr : NodeRegistry) (id : string) (updates : object) (w : save_outcome)
  : res Node * NodeRegistry :=
  match nodes nr !! id with
  | None => (Err ("node " +:+ id +:+ " not found"), nr)
  | Some n =>
      let n := with_hostname n (default (n_Hostname n) (upd_str updates "hostname")) in
      match match upd_str updates "address" with
            | None => Ok n
            | Some v => match validateHostPort v with
                        | Err m => Err ("invalid address: " +:+ m)
                        | Ok _ => Ok (with_address n v)
                        end
            end with
      | Err m => (Err m, set_nodes nr (<[id := n]> (nodes nr)))
      | Ok n =>
          let n := update_rest n updates in
          let '(r, nr) := saveNode (set_nodes nr (<[id := n]> (nodes nr))) n w in
          (let! _ := r in Ok n, nr)
      end
  end.

Definition removeNode (nr : NodeRegistry) (id : string) : res unit * NodeRegistry :=
  match nodes nr !! id with
  | None => (Err ("node " +:+ id +:+ " not found"), nr)
  | Some _ => (Ok tt, deleteNodeFile (set_nodes nr (delete id (nodes nr))) id)
  end.

Definition getNode (nr : NodeRegistry) (id : string) : res Node :=
  match nodes nr !! id with
  | None => Err ("node " +:+ id +:+ " not found")
  | Some n => Ok n
  end.

Definition summary (n : Node) : NodeSummary :=
  MkSummary (n_ID n) (n_Hostname n) (n_Address n) (n_Backend n) (n_State n) (n_MemoryMB n) (n_CPUCores n) (n_DiskGB n).

Definition summary_le (a b : NodeSummary) : Prop := String.le (s_ID a) (s_ID b).

#[global] Instance summary_le_dec a b : Decision (summary_le a b).
Proof. unfold summary_le. apply _. Defined.

#[global] Instance summary_le_trans : Transitive summary_le.
Proof. intros a b c. unfold summary_le. apply transitivity. Qed.

#[global] Instance summary_le_total : Total summary_le.
Proof. intros a b. unfold summary_le. apply total, _. Qed.

Definition listNodes (nr : NodeRegistry) : list NodeSummary :=
  merge_sort summary_le (summary <$> (map_to_list (nodes nr)).*2).

Definition markSeen (nr : NodeRegistry) (id : string) (now : Z) (w : save_outcome) : NodeRegistry :=
  match nodes nr !! id with
  | None => nr
  | Some n =>
      let n := with_seen n now in
      (saveNode (set_nodes nr (<[id := n]> (nodes nr))) n w).2
  end.

(** ** Remote backends *)

(** A Docker client for an address and transport, or a Cube client for a URL. *)
Inductive remote : Type := RemoteDocker (addr transport : string) | RemoteCube (baseURL : string).

Definition envOr (getenv : string -> string) (key fallback : string) : string :=
  if getenv key <>s "" then getenv key else fallback.

Definition newRemoteCubeClient (getenv : string -> string) (address : string) : remote :=
  let tlsEnabled := (envOr getenv "CUBE_CUBE_TLS" "false" =s "true") || HasPrefix address "https://" in
  if tlsEnabled then
    if negb (HasPrefix address "https://") && negb (HasPrefix address "http://")
    then RemoteCube ("https://" +:+ address) else RemoteCube address
  else RemoteCube ("http://" +:+ address).

Definition newRemoteDockerClient (getenv : string -> string) (address : string) : remote :=
  let addr := TrimPrefix (TrimPrefix address "tcp://") "tcp+tls://" in
  RemoteDocker addr (if envOr getenv "CUBE_DOCKER_TLS" "false" =s "true" then "tls" else "tcp").

Definition remoteBackendForNode (getenv : string -> string) (n : option Node) : res remote :=
  match n with
  | None => Err "node is nil"
  | Some n =>
      if n_Backend n =s NodeDocker then Ok (newRemoteDockerClient getenv (n_Address n))
      else if n_Backend n =s NodeCube then Ok (newRemoteCubeClient getenv (n_Address n))
      else Err ("unknown backend type for node " +:+ n_ID n +:+ ": " +:+ n_Backend n)
  end.

(** ** Tool handlers *)

Definition handleNodeAdd `{GoRuntime} (nr : NodeRegistry) (args : object) (now : Z) (w : save_outcome)
  : tool_result object * NodeRegistry :=
  let id := argString args "id" in
  let hostname := argString args "hostname" in
  let n := {| n_ID := id; n_Hostname := if hostname =s "" then id else hostname;
              n_Address := argString args "address"; n_Backend := argString args "backend";
              n_State := argString args "state"; n_MemoryMB := argInt args "memory_mb" 0;
              n_CPUCores := argFloat args "cpu_cores" f64_zero; n_DiskGB := argInt args "disk_gb" 0;
              n_Labels := []; n_LastSeen := time_zero; n_CreatedAt := time_zero |} in
  let '(r, nr) := addNode nr n now w in
  (of_res r (fun n => [("id", VStr (n_ID n)); ("address", VStr (n_Address n)); ("backend", VStr (n_Backend n));
                       ("state", VStr (n_State n)); ("status", VStr "registered")]), nr).

Definition minus_one : float64 := f64_of_Z (-1).

(** The map the handler builds for [updateNode]: the numbers that [argInt]
    returned are put in as [int]. *)
Definition node_updates `{GoRuntime} (args : object) : object :=
  omap (fun k => let v := argString args k in if v <>s "" then Some (k, VStr v) else None)
    ["hostname"; "address"; "backend"; "state"] ++
  (let v := argInt args "memory_mb" (-1) in if 0 <=? v then [("memory_mb", VInt v)] else []) ++
  (let v := argFloat args "cpu_cores" minus_one in if f64_le f64_zero v then [("cpu_cores", VFloat v)] else []) ++
  (let v := argInt args "disk_gb" (-1) in if 0 <=? v then [("disk_gb", VInt v)] else []).

Definition handleNodeUpdate `{GoRuntime} (nr : NodeRegistry) (args : object) (w : save_outcome)
  : tool_result Node * NodeRegistry :=
  let id := argString args "id" in
  if id =s "" then (errResult "id is required", nr)
  else
    let '(r, nr) := updateNode nr id (node_updates args) w in
    (of_res r (fun n => n), nr).

Definition handleNodeRemove `{GoRuntime} (nr : NodeRegistry) (args : object) : tool_result object * NodeRegistry :=
  let id := argString args "id" in
  if id =s "" then (errResult "id is required", nr)
  else
    let '(r, nr) := removeNode nr id in
    (of_res r (fun _ => [("id", VStr id); ("status", VStr "removed")]), nr).

Definition handleNodeList (nr : NodeRegistry) : tool_result (list NodeSummary) := okResult (listNodes nr).

Definition handleNodeGet `{GoRuntime} (nr : NodeRegistry) (args : object) : tool_result Node :=
  let id := argString args "id" in
  if id =s "" then errResult "id is required"
  else of_res (getNode nr id) (fun n => n).

(** [create] is [CreateSandbox] of the remote backend: template, memory, CPUs,
    environment and metadata; its error is the text [unwrapError] shows. *)
Definition handleDeployToNode `{GoRuntime} (getenv : string -> string)
    (create : remote -> string -> Z -> float64 -> option object -> object -> res value)
    (nr : NodeRegistry) (args : object) (now : Z) (w : save_outcome)
  : tool_result (string * string * value * string) * NodeRegistry :=
  let nodeID := argString args "node_id" in
  if nodeID =s "" then (errResult "node_id is required", nr)
  else
    match getNode nr nodeID with
    | Err m => (errResult m, nr)
    | Ok n =>
        if n_State n =s NodeOffline then (errResult ("node " +:+ nodeID +:+ " is offline"), nr)
        else
          match remoteBackendForNode getenv (Some n) with
          | Err m => (errResult ("failed to create remote backend: " +:+ m), nr)
          | Ok b =>
              let templateID := argString args "template_id" in
              if templateID =s "" then (errResult "template_id is required", nr)
              else
                match create b templateID (argInt args "memory_mb" 512) (argFloat args "cpu_count" (f64_of_Z 1))
                        (argMap args "env_vars")
                        [("deployed_to_node", VStr nodeID); ("node_hostname", VStr (n_Hostname n))] with
                | Err m => (errResult m, nr)
                | Ok result =>
                    (okResult (nodeID, n_Hostname n, result, n_Backend n), markSeen nr nodeID now w)
                end
          end
    end.

(** ** Histories *)

Inductive node_op : Type :=
  | NAdd (n : Node) (now : Z) (w : save_outcome)
  | NUpdate (id : string) (updates : object) (w : save_outcome)
  | NRemove (id : string)
  | NSeen (id : string) (now : Z) (w : save_outcome)
  | NRestart.

Definition node_step `{GoRuntime} (nr : NodeRegistry) (o : node_op) : NodeRegistry :=
  match o with
  | NAdd n now w => (addNode nr n now w).2
  | NUpdate id updates w => (updateNode nr id updates w).2
  | NRemove id => (removeNode nr id).2
  | NSeen id now w => markSeen nr id now w
  | NRestart => newNodeRegistry (disk nr)
  end.

Definition node_steps `{GoRuntime} (nr : NodeRegistry) (l : list node_op) : NodeRegistry := foldl node_step nr l.

(** Without path separators. *)
Definition clean_id (id : string) : Prop := str_map sanitize_byte id = id.

Definition op_saved (o : node_op) : Prop :=
  match o with
  | NAdd n _ w => w = Saved /\ clean_id (n_ID n)
  | NUpdate _ o w => w = Saved /\
      match upd_str o "address" with Some v => is_ok (validateHostPort v) = true | None => True end
  | NSeen _ _ w => w = Saved
  | _ => True
  end.

(** ** Invariants *)

(** A node under its own identifier, with an address that passes the check. *)
Definition node_ok (n : Node) : Prop := n_ID n <> "" /\ is_ok (validateHostPort (n_Address n)) = true.

Definition registry_ok (nr : NodeRegistry) : Prop :=
  map_Forall (fun id n => n_ID n = id /\ node_ok n) (nodes nr) /\
  map_Forall (fun _ f => match f with NodeFile n => node_ok n | OtherFile => True end) (disk nr).

(** The directory holds exactly the nodes in memory, each in its own file. *)
Definition disk_synced (nr : NodeRegistry) : Prop :=
  map_Forall (fun id n => n_ID n = id /\ clean_id id /\ disk nr !! nodeFilePath id = Some (NodeFile n)) (nodes nr) /\
  map_Forall (fun p f => exists n, f = NodeFile n /\ p = nodeFilePath (n_ID n) /\ nodes nr !! n_ID n = Some n) (disk nr).

(** ** Lemmas *)

Lemma app_inj_r_str s s' t : s +:+ t = s' +:+ t -> s = s'.
Proof.
  intros Heq. apply (f_equal String.rev) in Heq. rewrite !rev_app_str in Heq.
  apply (inj (String.append (String.rev t))) in Heq. by rewrite <- (rev_rev_str s), Heq, rev_rev_str.
Qed.

Lemma nodeFilePath_inj id id' : clean_id id -> clean_id id' -> nodeFilePath id = nodeFilePath id' -> id = id'.
Proof. unfold nodeFilePath. intros H1 H2 Heq%app_inj_r_str. congruence. Qed.

Lemma nodeFilePath_suffix id : HasSuffix (nodeFilePath id) ".json" = true.
Proof. unfold HasSuffix, nodeFilePath. rewrite rev_app_str. apply prefix_app. Qed.

Lemma load_fold_ok (P : Node -> Prop) l : forall m : gmap string Node,
  map_Forall (fun id n => n_ID n = id /\ P n) m ->
  Forall (fun p => match p.2 with NodeFile n => P n | OtherFile => True end) l ->
  map_Forall (fun id n => n_ID n = id /\ P n)
    (foldl (fun m p => match p.2 with
                       | NodeFile n => if HasSuffix p.1 ".json" then <[n_ID n := n]> m else m
                       | OtherFile => m
                       end) m l).
Proof.
  induction l as [|[p f] l IH]; intros m Hm Hl; [done|]. apply Forall_cons in Hl as [Hf Hl].
  cbn [foldl snd fst] in *. apply IH; [|done]. destruct f as [n|]; [|done].
  destruct (HasSuffix p ".json"); [|done]. by apply map_Forall_insert_2.
Qed.

Lemma load_ok (P : Node -> Prop) d :
  map_Forall (fun _ f => match f with NodeFile n => P n | OtherFile => True end) d ->
  map_Forall (fun id n => n_ID n = id /\ P n) (loadFromDisk d).
Proof.
  intros Hd. apply load_fold_ok; [apply map_Forall_empty|].
  apply Forall_forall. intros [p f] Hin. rewrite merge_sort_Permutation in Hin.
  apply elem_of_map_to_list in Hin. by apply (Hd p f).
Qed.

Lemma saveNode_nodes nr n w : nodes (saveNode nr n w).2 = nodes nr.
Proof. by destruct w. Qed.

Lemma saveNode_ok nr n w : registry_ok nr -> node_ok n -> registry_ok (saveNode nr n w).2.
Proof. intros [Hn Hd] Hok. destruct w; (split; [done|]); try done; by apply map_Forall_insert_2. Qed.

Lemma check_node_ok n n' : check_node n = Ok n' -> n_ID n' = n_ID n /\ node_ok n'.
Proof.
  unfold check_node. case_bool_decide as Hid; [done|]. case_bool_decide; [done|].
  destruct (_ && _); [done|]. destruct (validateHostPort (n_Address n)) as [[]|] eqn:Hv; [|done].
  cbn [rbind]. destruct (_ || _); [done|]. intros [= <-].
  by case_bool_decide; (split; [done|split; [done|]]; cbn; rewrite Hv).
Qed.

Lemma registry_update nr id n : registry_ok nr -> n_ID n = id -> node_ok n ->
  registry_ok (set_nodes nr (<[id := n]> (nodes nr))).
Proof. intros [Hn Hd] Hid Hok. split; [|done]. by apply map_Forall_insert_2. Qed.

Section Runtime.
Context `{GoRuntime}.


Lemma step_registry_ok nr o : registry_ok nr -> registry_ok (node_step nr o).
Proof.
  intros Hok. pose proof Hok as [Hn Hd]. destruct o as [n now w|id o w|id|id now w|]; cbn [node_step].
  - unfold addNode. destruct (check_node n) as [n'|] eqn:Hc; [|done]. apply check_node_ok in Hc as [Hid Hn'].
    destruct (nodes nr !! n_ID n'); [done|].
    pose proof (saveNode_ok (set_nodes nr (<[n_ID n' := with_created n' now]> (nodes nr))) (with_created n' now) w) as Hs.
    cbn [n_ID with_created]. destruct (saveNode _ _ _) as [r nr']. cbn [snd] in *. apply Hs; [|done].
    by apply registry_update.
  - unfold updateNode. destruct (nodes nr !! id) as [n|] eqn:Hid; [|done].
    destruct (Hn id n Hid) as [Hnid [Hne Ha]].
    set (n1 := with_hostname n _).
    set (r := match upd_str o "address" with None => _ | Some _ => _ end).
    assert (forall n2, r = Ok n2 -> n_ID n2 = id /\ node_ok n2) as Hr.
    { unfold r, n1. intros n2. destruct (upd_str o "address") as [v|]; [|by intros [= <-]].
      destruct (validateHostPort v) eqn:Hv; [|done]. intros [= <-]. split; [done|]. split; [done|]. cbn. by rewrite Hv. }
    destruct r as [n2|m]; [|by apply registry_update].
    destruct (Hr n2 eq_refl) as [Hid2 [Hne2 Ha2]].
    pose proof (saveNode_ok (set_nodes nr (<[id := update_rest n2 o]> (nodes nr))) (update_rest n2 o) w) as Hs.
    destruct (saveNode _ _ _) as [r' nr']. cbn [snd] in *. apply Hs; [|done]. by apply registry_update.
  - unfold removeNode. destruct (nodes nr !! id); [|done]. split; cbn.
    + by apply map_Forall_delete.
    + by apply map_Forall_delete.
  - unfold markSeen. destruct (nodes nr !! id) as [n|] eqn:Hid; [|done]. destruct (Hn id n Hid) as [Hnid Hno].
    apply saveNode_ok; [|done]. by apply registry_update.
  - split; [|done]. by apply load_ok.
Qed.

(** Putting a node in memory and in its file keeps the two in step. *)
Lemma synced_put nr id n : disk_synced nr -> n_ID n = id -> clean_id id ->
  disk_synced {| nodes := <[id := n]> (nodes nr); disk := <[nodeFilePath id := NodeFile n]> (disk nr) |}.
Proof.
  intros [Hn Hd] Hid Hc. split; cbn.
  - intros id' n' Hl. destruct (decide (id' = id)) as [->|Hne].
    + rewrite lookup_insert_eq in Hl. injection Hl as <-. by rewrite lookup_insert_eq.
    + rewrite lookup_insert_ne in Hl by done. destruct (Hn id' n' Hl) as (H1 & H2 & H3).
      split; [done|]. split; [done|]. rewrite lookup_insert_ne; [done|].
      intros Heq. apply nodeFilePath_inj in Heq; [congruence|done|done].
  - intros p f Hl. destruct (decide (p = nodeFilePath id)) as [->|Hne].
    + rewrite lookup_insert_eq in Hl. injection Hl as <-. exists n. rewrite Hid, lookup_insert_eq. done.
    + rewrite lookup_insert_ne in Hl by done. destruct (Hd p f Hl) as (n' & -> & -> & Hn').
      exists n'. split; [done|]. split; [done|]. rewrite lookup_insert_ne; [done|]. intros ->. done.
Qed.

Definition file_node (p : string * node_file) : option Node :=
  match p.2 with NodeFile n => Some n | OtherFile => None end.

(** The files of a directory in step: every one is the file of its node. *)
Definition own_files (l : list (string * node_file)) : Prop :=
  Forall (fun p => exists n, p.2 = NodeFile n /\ p.1 = nodeFilePath (n_ID n)) l.

Lemma load_fold_nodes l : forall m : gmap string Node, own_files l ->
  foldl (fun m p => match p.2 with
                    | NodeFile n => if HasSuffix p.1 ".json" then <[n_ID n := n]> m else m
                    | OtherFile => m
                    end) m l =
  foldl (fun m n => <[n_ID n := n]> m) m (omap file_node l).
Proof.
  induction l as [|[p f] l IH]; intros m Hl; [done|]. apply Forall_cons in Hl as [(n & Hf & Hp) Hl].
  cbn [fst snd] in *. subst p f.
  change (omap file_node (_ :: l)) with (n :: omap file_node l). cbn [foldl fst snd].
  rewrite nodeFilePath_suffix. by apply IH.
Qed.

Lemma own_files_NoDup l : own_files l -> NoDup l.*1 -> NoDup (n_ID <$> omap file_node l).
Proof.
  induction l as [|[p f] l IH]; intros Hl Hnd; [constructor|].
  apply Forall_cons in Hl as [(n & Hf & Hp) Hl]. cbn [fst snd] in *. subst p f.
  apply NoDup_cons in Hnd as [Hnin Hnd]. cbn. constructor; [|by apply IH].
  intros Hin. apply list_elem_of_fmap in Hin as (n' & Hid & Hin).
  apply list_elem_of_omap in Hin as ([p f] & Hin & Heq). destruct f as [n2|]; [|done]. injection Heq as ->.
  apply Hnin. unfold own_files in Hl. rewrite Forall_forall in Hl. destruct (Hl _ Hin) as (n3 & [= <-] & Hp).
  cbn [fst] in Hp. rewrite Hid, <- Hp. apply list_elem_of_fmap. by exists (p, NodeFile n').
Qed.

Lemma loadFromDisk_synced nr : disk_synced nr -> loadFromDisk (disk nr) = nodes nr.
Proof.
  intros [Hn Hd]. unfold loadFromDisk. set (l := merge_sort key_le (map_to_list (disk nr))).
  assert (forall p f, (p, f) ∈ l <-> disk nr !! p = Some f) as Hl.
  { intros p f. unfold l. by rewrite merge_sort_Permutation, elem_of_map_to_list. }
  assert (own_files l) as Hown.
  { apply Forall_forall. intros [p f] Hin%Hl. destruct (Hd p f Hin) as (n & -> & -> & _). by exists n. }
  rewrite load_fold_nodes by done.
  assert (NoDup (n_ID <$> omap file_node l)) as Hids.
  { apply own_files_NoDup; [done|]. unfold l. rewrite merge_sort_Permutation. apply NoDup_fst_map_to_list. }
  destruct (foldl_insert_lookup n_ID (fun n => n) (omap file_node l) ∅ Hids) as [H1 H2].
  assert (forall n, n ∈ omap file_node l <-> nodes nr !! n_ID n = Some n) as Hns.
  { intros n. rewrite list_elem_of_omap. split.
    - intros ([p [n'|]] & Hin & Heq); [|done]. injection Heq as ->. apply Hl in Hin.
      by destruct (Hd _ _ Hin) as (n' & [= <-] & -> & Hn').
    - intros Hid. exists (nodeFilePath (n_ID n), NodeFile n). rewrite Hl. by destruct (Hn _ _ Hid) as (_ & _ & ->). }
  apply map_eq. intros id. destruct (nodes nr !! id) as [n|] eqn:Hid.
  - destruct (Hn id n Hid) as (<- & _). apply H1. by apply Hns.
  - rewrite H2; [done|]. intros Hin. apply list_elem_of_fmap in Hin as (n & -> & Hin). apply Hns in Hin. congruence.
Qed.

Lemma step_disk_synced nr o : disk_synced nr -> op_saved o -> disk_synced (node_step nr o).
Proof.
  intros Hs Ho. pose proof Hs as [Hn Hd]. destruct o as [n now w|id o w|id|id now w|]; cbn [node_step op_saved] in *.
  - destruct Ho as [-> Hc]. unfold addNode. destruct (check_node n) as [n'|] eqn:Hcn; [|done].
    apply check_node_ok in Hcn as [Hid _]. destruct (nodes nr !! n_ID n'); [done|].
    cbn. apply synced_put; [done|done|congruence].
  - destruct Ho as [-> Ho]. unfold updateNode. destruct (nodes nr !! id) as [n|] eqn:Hid; [|done].
    destruct (Hn id n Hid) as (Hnid & Hc & _).
    destruct (upd_str o "address") as [v|].
    + destruct (validateHostPort v); [|done]. cbn. rewrite Hnid. by apply synced_put.
    + cbn. rewrite Hnid. by apply synced_put.
  - unfold removeNode. destruct (nodes nr !! id) as [n|] eqn:Hid; [|done].
    destruct (Hn id n Hid) as (Hnid & Hc & _). split; cbn.
    + intros id' n' Hl. apply lookup_delete_Some in Hl as [Hne Hl]. destruct (Hn id' n' Hl) as (H1 & H2 & H3).
      split; [done|]. split; [done|]. rewrite lookup_delete_ne; [done|].
      intros Heq. apply nodeFilePath_inj in Heq; done.
    + intros p f Hl. apply lookup_delete_Some in Hl as [Hne Hl]. destruct (Hd p f Hl) as (n' & -> & -> & Hn').
      exists n'. split; [done|]. split; [done|]. rewrite lookup_delete_ne; [done|]. intros ->. done.
  - subst w. unfold markSeen. destruct (nodes nr !! id) as [n|] eqn:Hid; [|done].
    destruct (Hn id n Hid) as (Hnid & Hc & _). cbn. rewrite Hnid. by apply synced_put.
  - unfold newNodeRegistry. rewrite loadFromDisk_synced by done. by destruct nr.
Qed.

Lemma upd_float_none o k : Forall (fun p => p.1 = k -> forall f, p.2 <> VFloat f) o -> upd_float o k = None.
Proof.
  unfold upd_float, obj_index. induction 1 as [|[k' v] o Hv _ IH]; [done|]. cbn [obj_get].
  case_bool_decide as Hk; [|done]. cbn [fst snd] in Hv. specialize (Hv (eq_sym Hk)). cbn. by destruct v as [| |f| | | | | |]; try done; destruct (Hv f).
Qed.

(** The only [float64] among the updates of the handler is the number of CPUs. *)
Lemma node_updates_no_float args k : k <> "cpu_cores" ->
  Forall (fun p => p.1 = k -> forall f, p.2 <> VFloat f) (node_updates args).
Proof.
  intros Hk. unfold node_updates. rewrite !Forall_app. split_and!.
  - apply Forall_forall. intros [k' v] Hin. apply list_elem_of_omap in Hin as (x & _ & Heq).
    case_bool_decide; [done|]. by injection Heq as _ <-.
  - destruct (0 <=? _); by repeat constructor.
  - destruct (f64_le _ _); repeat constructor. by intros <-.
  - destruct (0 <=? _); by repeat constructor.
Qed.

(** ** Properties *)

(** Whatever is registered or updated, saved or not, and across restarts,
    every node is filed under its own identifier, which is not empty, and its
    address passes the check that keeps cloud metadata services out; the same
    holds of every node on disk. *)
Theorem registry_addresses_checked l : registry_ok (node_steps (newNodeRegistry ∅) l).
Proof.
  apply (foldl_inv node_step registry_ok (fun _ => True)); [by auto using step_registry_ok| |by apply Forall_true].
  by split; [apply load_ok|apply map_Forall_empty].
Qed.

(** The registry survives restarts: if every save succeeds, identifiers
    contain no path separators and updates carry acceptable addresses, reading
    the directory back gives exactly the nodes that were in memory. *)
Theorem registry_survives_restart l (Hl : Forall op_saved l) :
  nodes (newNodeRegistry (disk (node_steps (newNodeRegistry ∅) l))) = nodes (node_steps (newNodeRegistry ∅) l).
Proof.
  apply loadFromDisk_synced.
  apply (foldl_inv node_step disk_synced op_saved); [by auto using step_disk_synced| |done].
  by split; [apply map_Forall_empty|apply map_Forall_empty].
Qed.

(** Node_update never changes the memory or disk size: the handler stores
    the numbers as [int] and [updateNode] looks for [float64]. *)
Theorem node_update_ignores_capacity nr args w id :
  (fun n => (n_MemoryMB n, n_DiskGB n)) <$> nodes (handleNodeUpdate nr args w).2 !! id =
  (fun n => (n_MemoryMB n, n_DiskGB n)) <$> nodes nr !! id.
Proof.
  unfold handleNodeUpdate. case_bool_decide; [done|].
  set (key := argString args "id"). set (o := node_updates args).
  assert (upd_float o "memory_mb" = None /\ upd_float o "disk_gb" = None) as [Hm Hg].
  { split; apply upd_float_none, node_updates_no_float; done. }
  unfold updateNode. destruct (nodes nr !! key) as [n|] eqn:Hn; [|done].
  set (r := match upd_str o "address" with None => _ | Some _ => _ end).
  assert (forall n2, r = Ok n2 -> n_MemoryMB n2 = n_MemoryMB n /\ n_DiskGB n2 = n_DiskGB n) as Hr.
  { unfold r. intros n2. destruct (upd_str o "address") as [v|]; [|by intros [= <-]].
    destruct (validateHostPort v); [|done]. by intros [= <-]. }
  destruct r as [n2|m].
  - destruct (Hr n2 eq_refl) as [H1 H2].
    pose proof (saveNode_nodes (set_nodes nr (<[key := update_rest n2 o]> (nodes nr))) (update_rest n2 o) w) as Hs.
    destruct (saveNode _ _ _) as [r' nr']. cbn [snd] in *. rewrite Hs. cbn [set_nodes nodes].
    destruct (decide (key = id)) as [<-|Hne]; [|by rewrite lookup_insert_ne].
    rewrite lookup_insert_eq, Hn. cbn [fmap option_fmap option_map update_rest n_MemoryMB n_DiskGB].
    by rewrite Hm, Hg, H1, H2.
  - cbn [snd set_nodes nodes]. destruct (decide (key = id)) as [<-|Hne]; [|by rewrite lookup_insert_ne].
    by rewrite lookup_insert_eq, Hn.
Qed.

(** An update that is refused has already happened in part: with an address
    that fails the check the caller gets an error, the host name is changed in
    memory all the same, and the file keeps the old one. *)
Theorem refused_update_changes_hostname nr id n h bad w
  (Hn : nodes nr !! id = Some n) (Hh : h <> "") (Hb : bad <> "") (Hbad : is_ok (validateHostPort bad) = false) :
  let '(r, nr') := updateNode nr id [("hostname", VStr h); ("address", VStr bad)] w in
  is_ok r = false /\ nodes nr' !! id = Some (with_hostname n h) /\ disk nr' = disk nr.
Proof.
  assert (upd_str [("hostname", VStr h); ("address", VStr bad)] "hostname" = Some h) as E1
    by (unfold upd_str; change (obj_index _ _) with (VStr h); lazy beta iota; by rewrite bool_decide_false).
  assert (upd_str [("hostname", VStr h); ("address", VStr bad)] "address" = Some bad) as E2
    by (unfold upd_str; change (obj_index _ _) with (VStr bad); lazy beta iota; by rewrite bool_decide_false).
  unfold updateNode. rewrite Hn, E1, E2. destruct (validateHostPort bad); [done|]. split; [done|]. split; [|done]. apply lookup_insert_eq.
Qed.

(** A draining node is deployed to like an active one; only an offline node
    is refused. *)
Theorem draining_node_accepts_deploys getenv create nr args now w n
  (Hn : nodes nr !! argString args "node_id" = Some n) (Hst : n_State n = NodeDraining) :
  (handleDeployToNode getenv create nr args now w).1 =
  (handleDeployToNode getenv create
     (set_nodes nr (<[argString args "node_id" := with_state n NodeActive]> (nodes nr))) args now w).1.
Proof.
  unfold handleDeployToNode, getNode. case_bool_decide; [done|]. cbn [set_nodes nodes].
  rewrite Hn, lookup_insert_eq. cbn [n_State with_state]. rewrite Hst.
  change (NodeDraining =s NodeOffline) with false. change (NodeActive =s NodeOffline) with false. cbn iota.
  unfold remoteBackendForNode. cbn [with_state n_Backend n_Address n_ID n_Hostname].
  destruct (n_Backend n =s NodeDocker); [|destruct (n_Backend n =s NodeCube); [|done]];
    (destruct (argString args "template_id" =s ""); [done|]); by destruct (create _ _ _ _ _ _).
Qed.

(** The listing is sorted by identifier and shows every node exactly once. *)
Theorem listNodes_spec nr (Hok : registry_ok nr) :
  StronglySorted summary_le (listNodes nr) /\ listNodes nr ≡ₚ summary <$> (map_to_list (nodes nr)).*2 /\
  (forall id, id ∈ (s_ID <$> listNodes nr) <-> is_Some (nodes nr !! id)).
Proof.
  split; [|split].
  - apply (StronglySorted_merge_sort summary_le).
  - apply merge_sort_Permutation.
  - intros id. unfold listNodes. rewrite merge_sort_Permutation, <- !list_fmap_compose, list_elem_of_fmap. split.
    + intros ([id' n] & -> & Hin%elem_of_map_to_list). destruct (proj1 Hok id' n Hin) as [<- _]. eauto.
    + intros [n Hn]. exists (id, n). split; [|by apply elem_of_map_to_list].
      by destruct (proj1 Hok id n Hn) as [<- _].
Qed.

End Runtime.

(** ** Witnesses *)

Section Witnesses.
#[local] Existing Instance demo_runtime.

Definition demo_node (id : string) : Node :=
  {| n_ID := id; n_Hostname := "edge1"; n_Address := "10.0.0.5:3000"; n_Backend := NodeCube; n_State := "";
     n_MemoryMB := 4096; n_CPUCores := f64_of_Z 4; n_DiskGB := 64; n_Labels := []; n_LastSeen := 0; n_CreatedAt := 0 |}.
Definition demo_registry : NodeRegistry := node_steps (newNodeRegistry ∅) [NAdd (demo_node "n1") 7 Saved].

Lemma registry_survives_restart_witness :
  let l := [NAdd (demo_node "n1") 7 Saved; NAdd (demo_node "n2") 8 Saved; NSeen "n1" 9 Saved; NRemove "n2"] in
  nodes (newNodeRegistry (disk (node_steps (newNodeRegistry ∅) l))) = nodes (node_steps (newNodeRegistry ∅) l).
Proof.
  apply (registry_survives_restart
    [NAdd (demo_node "n1") 7 Saved; NAdd (demo_node "n2") 8 Saved; NSeen "n1" 9 Saved; NRemove "n2"]).
  repeat constructor.
Defined.

Lemma refused_update_changes_hostname_witness :
  let '(r, nr') := updateNode demo_registry "n1"
                     [("hostname", VStr "evil"); ("address", VStr "169.254.169.254:80")] Saved in
  is_ok r = false /\
  nodes nr' !! "n1" = Some (with_hostname (with_created (with_state (demo_node "n1") NodeActive) 7) "evil") /\
  disk nr' = disk demo_registry.
Proof.
  apply (refused_update_changes_hostname demo_registry "n1" (with_created (with_state (demo_node "n1") NodeActive) 7)
           "evil" "169.254.169.254:80" Saved); [vm_compute; reflexivity|done|done|vm_compute; reflexivity].
Defined.

Definition demo_args : object := [("node_id", VStr "n1"); ("template_id", VStr "t1")].
Definition demo_draining : NodeRegistry := (updateNode demo_registry "n1" [("state", VStr "draining")] Saved).2.
Definition demo_create (b : remote) (t : string) (m : Z) (c : float64) (e : option object) (md : object) : res value :=
  Ok (VObj [("sandboxID", VStr "sb1")]).

Lemma draining_node_accepts_deploys_witness :
  (handleDeployToNode (fun _ => "") demo_create demo_draining demo_args 9 Saved).1 =
  (handleDeployToNode (fun _ => "") demo_create
     (set_nodes demo_draining (<[argString demo_args "node_id" :=
        with_state (with_created (with_state (demo_node "n1") NodeDraining) 7) NodeActive]> (nodes demo_draining)))
     demo_args 9 Saved).1.
Proof.
  apply (draining_node_accepts_deploys (fun _ => "") demo_create demo_draining demo_args 9 Saved
           (with_created (with_state (demo_node "n1") NodeDraining) 7)); vm_compute; reflexivity.
Defined.

Lemma demo_registry_ok : registry_ok demo_registry.
Proof. apply step_registry_ok. by split; [apply load_ok|]; apply map_Forall_empty. Qed.

Lemma listNodes_spec_witness :
  StronglySorted summary_le (listNodes demo_registry) /\
  listNodes demo_registry ≡ₚ summary <$> (map_to_list (nodes demo_registry)).*2 /\
  (forall id, id ∈ (s_ID <$> listNodes demo_registry) <-> is_Some (nodes demo_registry !! id)).
Proof. apply (listNodes_spec demo_registry demo_registry_ok). Defined.

(** Two identifiers that differ only in a separator share a file: removing one
    node loses the other at the next restart. *)
Example node_file_collision :
  let nr := node_steps (newNodeRegistry ∅)
              [NAdd (demo_node "rack/1") 7 Saved; NAdd (demo_node "rack_1") 8 Saved; NRemove "rack_1"] in
  is_ok (getNode nr "rack/1") = true /\ is_ok (getNode (node_step nr NRestart) "rack/1") = false.
Proof. vm_compute. done. Qed.

(** An update is not checked like a registration: any text is a backend. *)
Example update_backend_unchecked :
  let '(r, nr) := updateNode demo_registry "n1" [("backend", VStr "podman")] Saved in
  is_ok r = true /\ n_Backend <$> nodes nr !! "n1" = Some "podman".
Proof. vm_compute. done. Qed.

End Witnesses.
