(* ===== verification/Backend.v ===== *)
(** * The container backend as its clients see it (ContainerBackend of
    mcp-server-go/backend.go)

    [ContainerBackend] has the operations the managers call, on a state of the
    container runtime.  [BackendLaws] is what they rely on, and no more than
    DockerClient (docker_client.go 484-605) keeps: a created container is new
    and its identifier is in the answer; a creation that fails may have started
    a container whose identifier nobody learns (the inspection that follows the
    start failed); a kill that succeeds stops the container it names and no
    other; a kill that fails may have stopped it (the removal failed after the
    stop).  [running] are the containers that a call started and no call has
    stopped: a container that exits by itself counts as running.  Docker also
    resolves names and prefixes of identifiers, so the laws of a kill are for
    whole identifiers ([is_id]).  [demo_backend] is a runtime in memory that
    keeps the laws. *)
From S2P Require Import Prelude GoStrings GoValue.

Open Scope string_scope.
Open Scope Z_scope.

Class ContainerBackend (S : Type) : Type := {
  CreateSandbox : S -> string -> Z -> float64 -> object -> object -> res value * S;
  KillSandbox : S -> string -> res value * S;
  RestartSandbox : S -> string -> res value * S;
  ListSandboxes : S -> string -> Z -> res value * S;
  ExecInSandbox : S -> string -> string -> Z -> res value * S;
}.

Class BackendLaws (S : Type) `{!ContainerBackend S} : Type := {
  running : S -> gset string;
  is_id : string -> Prop;
  running_id : forall s id, id ∈ running s -> is_id id;
  create_ok : forall s t m c e md v s', CreateSandbox s t m c e md = (Ok v, s') ->
    exists id o, v = VObj o /\ obj_get "sandboxID" o = Some (VStr id) /\ id <> "" /\
      id ∉ running s /\ running s' = running s ∪ {[id]};
  create_err : forall s t m c e md msg s', CreateSandbox s t m c e md = (Err msg, s') ->
    exists stray : gset string, (size stray <= 1)%nat /\ running s' = running s ∪ stray;
  kill_ok : forall s id v s', is_id id -> KillSandbox s id = (Ok v, s') -> running s' = running s ∖ {[id]};
  kill_err : forall s id msg s', is_id id -> KillSandbox s id = (Err msg, s') ->
    running s ∖ {[id]} ⊆ running s' /\ running s' ⊆ running s;
}.

(** What a kill does whether it succeeds or not. *)
Lemma kill_bounds {S : Type} `{!ContainerBackend S, !BackendLaws S} (s : S) id : is_id id ->
  let s' := (KillSandbox s id).2 in running s ∖ {[id]} ⊆ running s' /\ running s' ⊆ running s.
Proof.
  intros Hid. cbn. destruct (KillSandbox s id) as [[v|e] s'] eqn:E; cbn; [|by eapply kill_err].
  rewrite (kill_ok _ _ _ _ Hid E). set_solver.
Qed.

(** ** A runtime in memory

    At most [db_room] more containers can be created, and an attempt beyond that
    starts a container it cannot report when [db_next] is odd; the container
    [db_stuck] holds cannot be stopped. *)
Record demo_state : Type := MkDemo { db_next : N; db_room : nat; db_live : gset string; db_stuck : gset string }.

Definition demo_name (n : N) : string := "sb-" +:+ pretty n.

Definition demo_create (s : demo_state) (t : string) (m : Z) (c : float64) (e md : object) : res value * demo_state :=
  let id := demo_name (db_next s) in
  match db_room s with
  | O => if N.odd (db_next s) then (Err "inspect failed", MkDemo (N.succ (db_next s)) O (db_live s ∪ {[id]}) (db_stuck s))
         else (Err "no capacity", s)
  | S room =>
      if bool_decide (id ∈ db_live s) then (Err "name in use", s)
      else (Ok (VObj [("sandboxID", VStr id); ("state", VStr "running")]),
            MkDemo (N.succ (db_next s)) room (db_live s ∪ {[id]}) (db_stuck s))
  end.

Definition demo_kill (s : demo_state) (id : string) : res value * demo_state :=
  if bool_decide (id ∈ db_stuck s) then (Err "cannot stop", s)
  else (Ok (VObj [("sandboxID", VStr id); ("killed", VBool true)]),
        MkDemo (db_next s) (db_room s) (db_live s ∖ {[id]}) (db_stuck s)).

Definition demo_restart (s : demo_state) (id : string) : res value * demo_state :=
  if bool_decide (id ∈ db_live s) then (Ok VNil, s) else (Err "no such container", s).

Definition demo_list (s : demo_state) (st : string) (limit : Z) : res value * demo_state :=
  (Ok (VArr ((fun id => VObj [("sandboxID", VStr id)]) <$> elements (db_live s))), s).

(** Every command of a running container succeeds except [false]. *)
Definition demo_exec (s : demo_state) (id cmd : string) (timeout : Z) : res value * demo_state :=
  if bool_decide (id ∈ db_live s) then (Ok (VObj [("exitCode", VInt (if cmd =s "false" then 1 else 0))]), s)
  else (Err "no such container", s).

#[global] Instance demo_backend : ContainerBackend demo_state :=
  {| CreateSandbox := demo_create; KillSandbox := demo_kill; RestartSandbox := demo_restart;
     ListSandboxes := demo_list; ExecInSandbox := demo_exec |}.

#[global] Instance demo_laws : BackendLaws demo_state.
Proof.
  refine {| running := db_live; is_id _ := True |}.
  - done.
  - intros s t m c e md v s'. cbn. unfold demo_create. destruct (db_room s); [by destruct (N.odd _)|].
    case_bool_decide as Hin; [done|]. intros [= <- <-]. eexists _, _. split; [done|]. split; [done|]. done.
  - intros s t m c e md msg s'. cbn. unfold demo_create. destruct (db_room s).
    + destruct (N.odd _); intros [= _ <-]; [exists {[demo_name (db_next s)]}|exists ∅]; cbn; rewrite ?size_singleton, ?size_empty; split; [lia|done|lia|set_solver].
    + case_bool_decide; [intros [= _ <-]; exists ∅; rewrite size_empty; split; [lia|set_solver]|done].
  - intros s id v s' _. cbn. unfold demo_kill. case_bool_decide; [done|]. by intros [= _ <-].
  - intros s id msg s' _. cbn. unfold demo_kill. case_bool_decide; [intros [= _ <-]; set_solver|done].
Defined.
