(* ===== verification/Scaling.v ===== *)
(** * Replica groups (mcp-server-go/scaling.go)

    Services, their containers, and the operations that bring the number of
    replicas to a target through the backend; persistence of the definitions
    and the reverse-proxy fragment written for a service with a domain.  The
    manager is proved against the interface [BackendLaws]. *)
From S2P Require Import Prelude GoStrings GoValue Security Nodes Backend.
From Stdlib Require Import Ascii.

Open Scope string_scope.
Open Scope Z_scope.

(** ** Data *)

Record Service : Type := MkService {
  sv_Name : string;
  sv_TemplateID : string;
  sv_Replicas : Z;
  sv_MemoryMB : Z;
  sv_CPUCount : float64;
  sv_EnvVars : list (string * string);
  sv_ContainerIDs : list string;
  sv_Port : Z;
  sv_Domain : string;
  sv_CreatedAt : Z;
  sv_UpdatedAt : Z;
}.

Record ServiceSummary : Type := MkServiceSummary {
  ss_Name : string; ss_Replicas : Z; ss_Desired : Z; ss_ContainerIDs : list string; ss_Domain : string; ss_Port : Z;
}.

(** [fragments] are the proxy's service files by path; [reloads] counts the
    reloads asked of the proxy. *)
Record ScaleManager : Type := MkScale {
  services : gmap string Service;
  svc_files : gmap string Service;
  fragments : gmap string string;
  reloads : Z;
}.

Definition set_services (sm : ScaleManager) (m : gmap string Service) : ScaleManager :=
  MkScale m (svc_files sm) (fragments sm) (reloads sm).

Definition put_service (sm : ScaleManager) (svc : Service) : ScaleManager :=
  set_services sm (<[sv_Name svc := svc]> (services sm)).

(** ** Persistence *)

Definition serviceFilePath (name : string) : string := str_map sanitize_byte name +:+ ".json".

(** A write that fails leaves the old file or none that decodes. *)
Definition saveService (sm : ScaleManager) (svc : Service) (w : save_outcome) : res unit * ScaleManager :=
  let path := serviceFilePath (sv_Name svc) in
  match w with
  | Saved => (Ok tt, MkScale (services sm) (<[path := svc]> (svc_files sm)) (fragments sm) (reloads sm))
  | SaveRefused m => (Err m, sm)
  | SaveCut m => (Err m, MkScale (services sm) (delete path (svc_files sm)) (fragments sm) (reloads sm))
  end.

Definition deleteServiceFile (sm : ScaleManager) (name : string) : ScaleManager :=
  MkScale (services sm) (delete (serviceFilePath name) (svc_files sm)) (fragments sm) (reloads sm).

Definition file_le (p q : string * Service) : Prop := String.le p.1 q.1.

#[global] Instance file_le_dec p q : Decision (file_le p q).
Proof. unfold file_le. apply _. Defined.

(** [os.ReadDir] lists by name: of two files that name one service the later is kept. *)
Definition loadFromDisk (d : gmap string Service) : gmap string Service :=
  foldl (fun m p => if HasSuffix p.1 ".json" then <[sv_Name p.2 := p.2]> m else m) ∅
    (merge_sort file_le (map_to_list d)).

Definition newScaleManager (d : gmap string Service) (frags : gmap string string) : ScaleManager :=
  MkScale (loadFromDisk d) d frags 0.

(** ** The proxy fragment *)

(** What keeps the first of equal upstreams. *)
Fixpoint dedup (seen : list string) (l : list string) : list string :=
  match l with
  | [] => []
  | u :: l => if bool_decide (u ∈ seen) then dedup seen l else u :: dedup (u :: seen) l
  end.

Definition upstreams (svc : Service) : list string :=
  dedup [] ((fun _ => "localhost:" +:+ pretty (sv_Port svc)) <$> sv_ContainerIDs svc).

Definition quoted (s : string) : string := String dquote (s +:+ String dquote "").
Definition endl : string := String "010"%char "".

Definition fragment (svc : Service) : string :=
  sv_Domain svc +:+ " {" +:+ endl +:+
  "    header {" +:+ endl +:+
  "        Strict-Transport-Security " +:+ quoted "max-age=63072000; includeSubDomains; preload" +:+ endl +:+
  "        X-Content-Type-Options " +:+ quoted "nosniff" +:+ endl +:+
  "        X-Frame-Options " +:+ quoted "DENY" +:+ endl +:+
  "        Referrer-Policy " +:+ quoted "no-referrer" +:+ endl +:+
  "    }" +:+ endl +:+
  "    encode zstd gzip" +:+ endl +:+
  "    reverse_proxy {" +:+ endl +:+
  foldr (fun u acc => "        to " +:+ u +:+ endl +:+ acc) "" (upstreams svc) +:+
  "        lb_policy round_robin" +:+ endl +:+
  "        health_uri /health" +:+ endl +:+
  "        health_interval 10s" +:+ endl +:+
  "        health_timeout 2s" +:+ endl +:+
  "    }" +:+ endl +:+
  "}" +:+ endl +:+ endl.

Section Scaling.
Context `{GoRuntime}.
Context {St : Type} `{!ContainerBackend St}.
(** The directory of the proxy's configuration and whether it is reloaded. *)
Context (caddyDir : string) (caddyReload : bool).

Definition fragmentPath (name : string) : string := path_join caddyDir ("cube-service-" +:+ name +:+ ".caddy").

Definition updateLoadBalancedRoute (sm : ScaleManager) (svc : Service) : ScaleManager :=
  if (sv_Domain svc =s "") || (length (sv_ContainerIDs svc) =? 0)%nat then sm
  else MkScale (services sm) (svc_files sm) (<[fragmentPath (sv_Name svc) := fragment svc]> (fragments sm))
         (if caddyReload then reloads sm + 1 else reloads sm).

(** ** Scaling *)

Definition extractSandboxID (result : value) : string :=
  let m := asMap result in
  let id1 := toString (obj_index m "sandboxID") in
  let id2 := toString (obj_index m "Id") in
  let id3 := toString (obj_index m "id") in
  if id1 <>s "" then id1 else if id2 <>s "" then id2 else if id3 <>s "" then id3 else "".

Definition with_containers (svc : Service) (ids : list string) : Service :=
  MkService (sv_Name svc) (sv_TemplateID svc) (sv_Replicas svc) (sv_MemoryMB svc) (sv_CPUCount svc) (sv_EnvVars svc)
    ids (sv_Port svc) (sv_Domain svc) (sv_CreatedAt svc) (sv_UpdatedAt svc).
Definition with_updated (svc : Service) (t : Z) : Service :=
  MkService (sv_Name svc) (sv_TemplateID svc) (sv_Replicas svc) (sv_MemoryMB svc) (sv_CPUCount svc) (sv_EnvVars svc)
    (sv_ContainerIDs svc) (sv_Port svc) (sv_Domain svc) (sv_CreatedAt svc) t.
Definition with_counted (svc : Service) : Service :=
  MkService (sv_Name svc) (sv_TemplateID svc) (Z.of_nat (length (sv_ContainerIDs svc))) (sv_MemoryMB svc)
    (sv_CPUCount svc) (sv_EnvVars svc) (sv_ContainerIDs svc) (sv_Port svc) (sv_Domain svc) (sv_CreatedAt svc)
    (sv_UpdatedAt svc).

(** The loop of [scaleUp], with [todo] iterations to go after [i]: the replicas
    created so far, and the error that ended it, if one did. *)
Fixpoint scaleUp_loop (s : St) (svc : Service) (current needed i : Z) (todo : nat)
  : option string * Service * St :=
  match todo with
  | O => (None, svc, s)
  | S todo =>
      let replicaNum := current + i + 1 in
      let metadata := [("service", VStr (sv_Name svc)); ("replica", VStr (pretty replicaNum))] in
      let env := (fun p : string * string => (p.1, VStr p.2)) <$> sv_EnvVars svc in
      match CreateSandbox s (sv_TemplateID svc) (sv_MemoryMB svc) (sv_CPUCount svc) env metadata with
      | (Err e, s) =>
          (Some ("created " +:+ pretty i +:+ "/" +:+ pretty needed +:+ " replicas (failed at replica " +:+
                 pretty replicaNum +:+ "): " +:+ e), svc, s)
      | (Ok result, s) =>
          let id := extractSandboxID result in
          let svc := if id <>s "" then with_containers svc (sv_ContainerIDs svc ++ [id]) else svc in
          scaleUp_loop s svc current needed (i + 1) todo
      end
  end.

(** The result, the manager and the backend afterwards. *)
Definition scaleUp (sm : ScaleManager) (s : St) (svc : Service) (target : Z) (now : Z) (w : save_outcome)
  : res Service * ScaleManager * St :=
  let current := Z.of_nat (length (sv_ContainerIDs svc)) in
  let needed := target - current in
  match scaleUp_loop s svc current needed 0 (Z.to_nat needed) with
  | (Some err, svc, s) =>
      let svc := with_updated svc now in
      (Err err, (saveService (put_service sm svc) svc w).2, s)
  | (None, svc, s) =>
      let svc := with_updated (with_counted svc) now in
      let sm := (saveService (put_service sm svc) svc w).2 in
      (Ok svc, if sv_Domain svc <>s "" then updateLoadBalancedRoute sm svc else sm, s)
  end.

(** The loop of [scaleDown]: the last container goes first, and goes from the
    list whether or not it could be killed. *)
Fixpoint scaleDown_loop (s : St) (ids : list string) (todo : nat) : list string * St :=
  match todo with
  | O => (ids, s)
  | S todo =>
      match last ids with
      | None => (ids, s)
      | Some id =>
          let '(_, s) := KillSandbox s id in
          scaleDown_loop s (take (length ids - 1) ids) todo
      end
  end.

Definition scaleDown (sm : ScaleManager) (s : St) (svc : Service) (target : Z) (now : Z) (w : save_outcome)
  : res Service * ScaleManager * St :=
  let toRemove := Z.of_nat (length (sv_ContainerIDs svc)) - target in
  let '(ids, s) := scaleDown_loop s (sv_ContainerIDs svc) (Z.to_nat toRemove) in
  let svc := with_updated (with_counted (with_containers svc ids)) now in
  let sm := (saveService (put_service sm svc) svc w).2 in
  (Ok svc, if sv_Domain svc <>s "" then updateLoadBalancedRoute sm svc else sm, s).

Definition scaleSet (sm : ScaleManager) (s : St) (name : string) (n : Z) (now : Z) (w : save_outcome)
  : res Service * ScaleManager * St :=
  if n <? 0 then (Err "replica count cannot be negative", sm, s)
  else if 20 <? n then (Err "replica count capped at 20 for edge nodes", sm, s)
  else
    match services sm !! name with
    | None => (Err ("service " +:+ name +:+ " not found — use service_create first"), sm, s)
    | Some svc =>
        let current := Z.of_nat (length (sv_ContainerIDs svc)) in
        if n =? current then (Ok svc, sm, s)
        else if current <? n then scaleUp sm s svc n now w
        else scaleDown sm s svc n now w
    end.

(** ** Services *)

(** The service as the caller sees it afterwards, or the error. *)
Definition createService (sm : ScaleManager) (svc : Service) (now : Z) (w : save_outcome) : res Service * ScaleManager :=
  if sv_Name svc =s "" then (Err "name is required", sm)
  else if sv_TemplateID svc =s "" then (Err "template_id is required", sm)
  else
    let svc := MkService (sv_Name svc) (sv_TemplateID svc) (sv_Replicas svc)
                 (if sv_MemoryMB svc <=? 0 then 256 else sv_MemoryMB svc)
                 (if f64_le (sv_CPUCount svc) f64_zero then f64_of_Z 1 else sv_CPUCount svc)
                 (sv_EnvVars svc) (sv_ContainerIDs svc)
                 (if sv_Port svc <=? 0 then 8000 else sv_Port svc)
                 (sv_Domain svc) (sv_CreatedAt svc) (sv_UpdatedAt svc) in
    match services sm !! sv_Name svc with
    | Some _ => (Err ("service " +:+ sv_Name svc +:+ " already exists"), sm)
    | None =>
        let svc := MkService (sv_Name svc) (sv_TemplateID svc) (sv_Replicas svc) (sv_MemoryMB svc) (sv_CPUCount svc)
                     (sv_EnvVars svc) (sv_ContainerIDs svc) (sv_Port svc) (sv_Domain svc) now now in
        let '(r, sm) := saveService (put_service sm svc) svc w in
        (let! _ := r in Ok svc, sm)
    end.

Definition removeService (sm : ScaleManager) (name : string) : res unit * ScaleManager :=
  match services sm !! name with
  | None => (Err ("service " +:+ name +:+ " not found"), sm)
  | Some _ => (Ok tt, deleteServiceFile (set_services sm (delete name (services sm))) name)
  end.

Definition service_summary (svc : Service) : ServiceSummary :=
  MkServiceSummary (sv_Name svc) (Z.of_nat (length (sv_ContainerIDs svc))) (sv_Replicas svc) (sv_ContainerIDs svc)
    (sv_Domain svc) (sv_Port svc).

Definition service_le (a b : ServiceSummary) : Prop := String.le (ss_Name a) (ss_Name b).

#[global] Instance service_le_dec a b : Decision (service_le a b).
Proof. unfold service_le. apply _. Defined.

Definition listServices (sm : ScaleManager) : list ServiceSummary :=
  merge_sort service_le (service_summary <$> (map_to_list (services sm)).*2).

Definition getService (sm : ScaleManager) (name : string) : res Service :=
  match services sm !! name with
  | None => Err ("service " +:+ name +:+ " not found")
  | Some svc => Ok svc
  end.

(** ** Tool handlers *)

Definition handleServiceCreate (sm : ScaleManager) (args : object) (now : Z) (w : save_outcome)
  : tool_result object * ScaleManager :=
  let envVars := match argMap args "env_vars" with
                 | Some ev => (fun p : string * value => (p.1, fmt_v p.2)) <$> ev
                 | None => []
                 end in
  let svc := MkService (argString args "name") (argString args "template_id") 0 (argInt args "memory_mb" 256)
               (argFloat args "cpu_count" (f64_of_Z 1)) envVars [] (argInt args "port" 8000)
               (argString args "domain") time_zero time_zero in
  let '(r, sm) := createService sm svc now w in
  (of_res r (fun svc => [("name", VStr (sv_Name svc)); ("template_id", VStr (sv_TemplateID svc));
                         ("port", VInt (sv_Port svc)); ("domain", VStr (sv_Domain svc));
                         ("status", VStr "created (0 replicas — use scale_set to add replicas)")]), sm).

Definition handleScaleSet (sm : ScaleManager) (s : St) (args : object) (now : Z) (w : save_outcome)
  : tool_result object * ScaleManager * St :=
  let name := argString args "name" in
  if name =s "" then (errResult "name is required", sm, s)
  else
    let replicas := argInt args "replicas" (-1) in
    if replicas <? 0 then (errResult "replicas is required (0-20)", sm, s)
    else
      let '(r, sm, s) := scaleSet sm s name replicas now w in
      (of_res r (fun svc => [("name", VStr (sv_Name svc)); ("replicas", VInt (Z.of_nat (length (sv_ContainerIDs svc))));
                             ("container_ids", VArr (VStr <$> sv_ContainerIDs svc)); ("domain", VStr (sv_Domain svc))]), sm, s).

Definition handleServiceList (sm : ScaleManager) : tool_result (list ServiceSummary) := okResult (listServices sm).

Definition handleServiceGet (sm : ScaleManager) (args : object) : tool_result Service :=
  let name := argString args "name" in
  if name =s "" then errResult "name is required" else of_res (getService sm name) (fun svc => svc).

Definition handleServiceRemove (sm : ScaleManager) (args : object) : tool_result object * ScaleManager :=
  let name := argString args "name" in
  if name =s "" then (errResult "name is required", sm)
  else
    let '(r, sm) := removeService sm name in
    (of_res r (fun _ => [("name", VStr name);
       ("status", VStr "removed (containers NOT killed — use kill_container manually if needed)")]), sm).

(** ** Lemmas *)

(** The replicas of a service: all different, all running. *)
Definition live (ids : list string) (run : gset string) : Prop := NoDup ids /\ Forall (fun id => id ∈ run) ids.

Lemma extractSandboxID_created o id :
  obj_get "sandboxID" o = Some (VStr id) -> id <> "" -> extractSandboxID (VObj o) = id.
Proof.
  intros Ho Hid. unfold extractSandboxID, obj_index. cbn [asMap]. rewrite Ho.
  change (toString (default VNil (Some (VStr id)))) with id. by rewrite bool_decide_false.
Qed.

Context `{!BackendLaws St}.

Lemma scaleUp_loop_spec todo : forall s svc current needed i err svc' s',
  scaleUp_loop s svc current needed i todo = (err, svc', s') ->
  live (sv_ContainerIDs svc) (running s) ->
  exists new, svc' = with_containers svc (sv_ContainerIDs svc ++ new) /\ (length new <= todo)%nat /\
    (err = None -> length new = todo) /\
    live (sv_ContainerIDs svc') (running s') /\ running s ⊆ running s'.
Proof.
  induction todo as [|todo IH]; intros s svc current needed i err svc' s' Hl Hlive; cbn [scaleUp_loop] in Hl.
  - injection Hl as <- <- <-. exists []. rewrite app_nil_r. by destruct svc.
  - destruct (CreateSandbox _ _ _ _ _ _) as [[result|e] s1] eqn:Hc.
    + apply create_ok in Hc as (id & o & -> & Ho & Hid & Hnew & Hrun).
      rewrite (extractSandboxID_created o id Ho Hid), (bool_decide_false (id = "")) in Hl by done. cbn [negb] in Hl.
      apply IH in Hl as (new & -> & Hlen & Hall & Hlive' & Hsub).
      * exists (id :: new). cbn [sv_ContainerIDs with_containers] in *. rewrite <- app_assoc in *. cbn [app] in *.
        split; [done|]. split; [simpl; lia|]. split; [intros; simpl; rewrite Hall; done|]. split; [done|set_solver].
      * cbn [sv_ContainerIDs with_containers]. destruct Hlive as [Hnd Hin]. rewrite Forall_forall in Hin. split.
        -- apply NoDup_app. split; [done|]. split; [|apply NoDup_singleton].
           intros x Hx ->%list_elem_of_singleton. by apply Hnew, Hin.
        -- apply Forall_app. split; [|apply Forall_singleton; set_solver].
           apply Forall_forall. intros x Hx. specialize (Hin x Hx). set_solver.
    + apply create_err in Hc as (stray & _ & Hc). injection Hl as <- <- <-. exists []. rewrite app_nil_r.
      split; [by destruct svc|]. split; [simpl; lia|]. split; [done|]. rewrite Hc. split; [|set_solver].
      destruct Hlive as [Hnd Hin]. split; [done|]. eapply Forall_impl; [exact Hin|]. set_solver.
Qed.

Lemma scaleDown_loop_spec todo : forall s ids ids' s',
  scaleDown_loop s ids todo = (ids', s') -> NoDup ids -> Forall is_id ids ->
  ids' = take (length ids - todo) ids /\ running s' ⊆ running s /\
  (forall id, id ∈ running s -> id ∈ ids' \/ id ∉ ids -> id ∈ running s').
Proof.
  induction todo as [|todo IH]; intros s ids ids' s' Hl Hnd Hids; cbn [scaleDown_loop] in Hl.
  - injection Hl as <- <-. rewrite Nat.sub_0_r, take_ge by lia. done.
  - destruct ids as [|x ids _] using rev_ind.
    + injection Hl as <- <-. done.
    + rewrite last_snoc in Hl. destruct (KillSandbox s x) as [r s1] eqn:Hk.
      apply Forall_app in Hids as [Hids Hx0]. apply Forall_inv in Hx0.
      assert (running s1 ⊆ running s /\ forall id, id ∈ running s -> id <> x -> id ∈ running s1) as [Hsub Hkeep].
      { pose proof (kill_bounds s x Hx0) as Hb. cbv zeta in Hb. rewrite Hk in Hb. cbn in Hb. destruct Hb. set_solver. }
      assert (length (ids ++ [x]) - 1 = length ids)%nat as Hlen by (rewrite length_app; simpl; lia).
      rewrite Hlen, take_app_length in Hl. apply NoDup_app in Hnd as (Hnd & Hx & _).
      apply IH in Hl as (-> & Hsub' & Hkeep'); [|done..].
      rewrite length_app. cbn [length]. rewrite (take_app_le ids) by lia.
      replace (length ids + 1 - S todo)%nat with (length ids - todo)%nat by lia.
      split; [done|]. split; [set_solver|]. intros id Hid Hor. apply Hkeep'.
      * apply Hkeep; [done|]. intros ->. destruct Hor as [Hin|Hnin]; [|set_solver].
        apply elem_of_take in Hin as (j & Hj & _). apply list_elem_of_lookup_2 in Hj.
        apply (Hx x); [done|]. by constructor.
      * destruct Hor as [?|Hnin]; [by left|right]. set_solver.
Qed.

Lemma saveService_services sm svc w : services (saveService sm svc w).2 = services sm.
Proof. by destruct w. Qed.

Lemma route_services sm svc : services (updateLoadBalancedRoute sm svc) = services sm.
Proof. unfold updateLoadBalancedRoute. by destruct (_ || _). Qed.

Lemma put_lookup sm svc : services (put_service sm svc) !! sv_Name svc = Some svc.
Proof. apply lookup_insert_eq. Qed.

(** What scaling a service to [n] may do: from [svc] to [svc'], from the backend
    [s] to [s'], with the result [r]. *)
Definition scaled (s s' : St) (svc : Service) (n : Z) (r : res Service) (svc' : Service) : Prop :=
  live (sv_ContainerIDs svc') (running s') /\
  (forall v, r = Ok v -> sv_ContainerIDs v = sv_ContainerIDs svc' /\ Z.of_nat (length (sv_ContainerIDs svc')) = n) /\
  (sv_ContainerIDs svc `prefix_of` sv_ContainerIDs svc' \/ sv_ContainerIDs svc' `prefix_of` sv_ContainerIDs svc) /\
  (forall id, id ∈ running s -> id ∉ sv_ContainerIDs svc -> id ∈ running s').

Lemma scaled_refl s svc n r : live (sv_ContainerIDs svc) (running s) ->
  (forall v, r = Ok v -> sv_ContainerIDs v = sv_ContainerIDs svc /\ Z.of_nat (length (sv_ContainerIDs svc)) = n) ->
  scaled s s svc n r svc.
Proof. intros Hl Hr. split; [done|]. split; [done|]. split; [by left|done]. Qed.

(** ** Properties *)

(** C34: scaling does what it says.  For a service whose replicas are distinct
    and running (started and not stopped by a call), and any backend that keeps
    the laws of BackendLaws, where a failed creation may have started a
    container and a failed kill may have stopped one, as with DockerClient:
    setting the count succeeds only with exactly that many replicas on the list;
    whether it succeeds or fails half way, the listed replicas are again
    distinct and running, the list was only extended or only cut at its end, and
    no container outside the service was stopped. *)
Theorem scaleSet_spec sm s name n now w svc r sm' s'
  (Hsvc : services sm !! name = Some svc) (Hname : sv_Name svc = name)
  (Hlive : live (sv_ContainerIDs svc) (running s))
  (Hset : scaleSet sm s name n now w = (r, sm', s')) :
  exists svc', services sm' !! name = Some svc' /\ scaled s s' svc n r svc'.
Proof.
  unfold scaleSet in Hset.
  destruct (n <? 0) eqn:Hneg; [injection Hset as <- <- <-; exists svc; split; [done|by apply scaled_refl]|].
  destruct (20 <? n); [injection Hset as <- <- <-; exists svc; split; [done|by apply scaled_refl]|].
  rewrite Hsvc in Hset. apply Z.ltb_ge in Hneg.
  destruct (Z.eqb_spec n (Z.of_nat (length (sv_ContainerIDs svc)))) as [Heq|Hne].
  { injection Hset as <- <- <-. exists svc. split; [done|]. apply scaled_refl; [done|]. intros v [= <-]. done. }
  destruct (Z.ltb_spec (Z.of_nat (length (sv_ContainerIDs svc))) n) as [Hlt|Hge].
  - unfold scaleUp in Hset. destruct (scaleUp_loop _ _ _ _ _ _) as [[err svc1] s1] eqn:Hl.
    apply scaleUp_loop_spec in Hl as (new & -> & Hlen & Hall & Hlive' & Hsub); [|done].
    set (svc1 := with_containers svc (sv_ContainerIDs svc ++ new)) in *.
    destruct err as [e|]; injection Hset as <- <- <-.
    + exists (with_updated svc1 now). rewrite saveService_services, <- Hname. split; [exact (put_lookup sm (with_updated svc1 now))|].
      split; [exact Hlive'|]. split; [done|]. split; [left; by exists new|]. intros id Hid _. by apply Hsub.
    + exists (with_updated (with_counted svc1) now). rewrite <- Hname. split.
      { destruct (_ <>s _); rewrite ?route_services, saveService_services;
          exact (put_lookup sm (with_updated (with_counted svc1) now)). }
      split; [exact Hlive'|]. split; [|split; [left; by exists new|intros id Hid _; by apply Hsub]].
      intros v [= <-]. split; [done|]. cbn. rewrite length_app, Hall by done. lia.
  - unfold scaleDown in Hset. destruct (scaleDown_loop _ _ _) as [ids s1] eqn:Hl.
    destruct Hlive as [Hnd Hin]. apply scaleDown_loop_spec in Hl as (-> & Hsub & Hkeep); [|done|].
    2: { eapply Forall_impl; [exact Hin|]. intros id. apply running_id. }
    set (svc1 := with_containers svc (take _ _)) in *.
    injection Hset as <- <- <-. exists (with_updated (with_counted svc1) now). split; [|split; [|split]].
    + rewrite <- Hname. destruct (_ <>s _); rewrite ?route_services, saveService_services;
        exact (put_lookup sm (with_updated (with_counted svc1) now)).
    + cbn. split; [eapply sublist_NoDup; [done|apply sublist_take]|]. apply Forall_forall. intros id Hid. apply Hkeep; [|by left].
      rewrite Forall_forall in Hin. apply Hin. apply elem_of_take in Hid as (k & Hk & _). by eapply list_elem_of_lookup_2.
    + intros v [= <-]. split; [done|]. cbn. rewrite length_take. lia.
    + split; [right; apply prefix_take|]. intros id Hid Hnin. apply Hkeep; [done|by right].
Qed.

(** A replica that cannot be killed is forgotten: it goes from the service's
    list, and runs on if the failed kill has left it running. *)
Theorem scaleDown_forgets_running sm s svc now w ids id msg s1
  (Hids : sv_ContainerIDs svc = (ids ++ [id])%list) (Hnd : NoDup (ids ++ [id])%list) (Hrun : id ∈ running s1)
  (Hkill : KillSandbox s id = (Err msg, s1)) :
  let '(r, sm', s') := scaleDown sm s svc (Z.of_nat (length ids)) now w in
  exists svc', r = Ok svc' /\ id ∉ sv_ContainerIDs svc' /\ id ∈ running s'.
Proof.
  unfold scaleDown. rewrite Hids.
  replace (Z.to_nat _) with 1%nat by (rewrite length_app; simpl; lia). cbn [scaleDown_loop].
  rewrite last_snoc, Hkill.
  replace (length (ids ++ [id]) - 1)%nat with (length ids) by (rewrite length_app; simpl; lia).
  rewrite take_app_length. eexists. split; [done|]. cbn. split; [|done].
  apply NoDup_app in Hnd as (_ & Hx & _). intros Hin. apply (Hx id Hin). by constructor.
Qed.

End Scaling.

(** The proxy never balances: whatever the number of replicas, the fragment
    written for a service names a single upstream. *)
Theorem fragment_single_upstream svc (Hne : sv_ContainerIDs svc <> []) :
  upstreams svc = ["localhost:" +:+ pretty (sv_Port svc)].
Proof.
  unfold upstreams. set (u := "localhost:" +:+ pretty (sv_Port svc)).
  assert (forall (l : list string), dedup [u] ((fun _ => u) <$> l) = []) as Hd.
  { induction l as [|x l IH]; [done|]. cbn. rewrite bool_decide_true by (by constructor). exact IH. }
  destruct (sv_ContainerIDs svc) as [|x l]; [done|]. cbn [fmap list_fmap dedup].
  rewrite bool_decide_false by apply not_elem_of_nil. by rewrite Hd.
Qed.

(** An answer without a sandboxID is taken for a container named <nil>: the
    other spellings of the key are never tried. *)
Theorem extractSandboxID_missing `{GoRuntime} o (Ho : obj_get "sandboxID" o = None) :
  extractSandboxID (VObj o) = "<nil>".
Proof. unfold extractSandboxID. cbn [asMap]. by rewrite (toString_missing o "sandboxID" Ho). Qed.

(** ** Witnesses *)

Section Witnesses.
#[local] Existing Instance demo_runtime.

Definition demo_service : Service :=
  MkService "web" "python" 0 256 (f64_of_Z 1) [("A", "1")] ["sb-1"; "sb-2"] 8000 "web.example" 0 0.
Definition demo_manager : ScaleManager := put_service (MkScale ∅ ∅ ∅ 0) demo_service.
Definition demo_rt : demo_state := MkDemo 10 1 {["sb-1"; "sb-2"; "other"]} {["sb-2"]}.

Lemma demo_live : live (sv_ContainerIDs demo_service) (running demo_rt).
Proof.
  split; [apply (bool_decide_unpack _); vm_compute; exact I|].
  apply (bool_decide_unpack _). vm_compute. exact I.
Qed.

(** Room for one more of the two that are asked for. *)
Lemma scaleSet_spec_witness :
  let '(r, sm', s') := scaleSet "/etc/caddy" true demo_manager demo_rt "web" 4 9 Saved in
  is_ok r = false /\
  exists svc', services sm' !! "web" = Some svc' /\ scaled demo_rt s' demo_service 4 r svc'.
Proof.
  destruct (scaleSet "/etc/caddy" true demo_manager demo_rt "web" 4 9 Saved) as [[r sm'] s'] eqn:Hs. split.
  - vm_compute in Hs. by injection Hs as <- _ _.
  - apply (scaleSet_spec "/etc/caddy" true demo_manager demo_rt "web" 4 9 Saved demo_service r sm' s');
      [reflexivity|reflexivity|apply demo_live|exact Hs].
Defined.

Lemma scaleDown_forgets_running_witness :
  let '(r, sm', s') := scaleDown "/etc/caddy" true demo_manager demo_rt demo_service 1 9 Saved in
  exists svc', r = Ok svc' /\ "sb-2" ∉ sv_ContainerIDs svc' /\ "sb-2" ∈ running s'.
Proof.
  apply (scaleDown_forgets_running "/etc/caddy" true demo_manager demo_rt demo_service 9 Saved ["sb-1"] "sb-2"
           "cannot stop" demo_rt); [reflexivity|apply demo_live|apply (bool_decide_unpack _); vm_compute; exact I|].
  vm_compute. reflexivity.
Defined.

Lemma fragment_single_upstream_witness : upstreams demo_service = ["localhost:8000"].
Proof. apply (fragment_single_upstream demo_service). done. Defined.

Lemma extractSandboxID_missing_witness : extractSandboxID (VObj [("id", VStr "c1")]) = "<nil>".
Proof. apply (extractSandboxID_missing [("id", VStr "c1")]). reflexivity. Defined.

(** A service name is not checked before it becomes part of a path. *)
Example fragment_path_escapes :
  fragmentPath "/etc/caddy" "/../../cron.d/x" = "/etc/cron.d/x.caddy".
Proof. vm_compute. reflexivity. Qed.

End Witnesses.
