(* ===== verification/Jobs.v ===== *)
(** * Scheduled jobs (mcp-server-go/jobs.go, the job tools of handlers_phase2.go)

    A job is a shared object: the map holds pointers, the watcher keeps pointers to the
    jobs that are due while it runs them one after the other, and a call to run a job works
    on the same object.  Tools run outside the lock.  [act] cuts an execution at the points
    where it does not hold the lock; executions of the watcher and of callers, and the
    other tools, come in any order.  What a tool answers is an argument. *)
From S2P Require Import Prelude GoStrings GoTime GoValue Rbac Totp HA Nodes.
From Stdlib Require Import Ascii.

Open Scope string_scope.
Open Scope Z_scope.

(** ** Schedules *)

Section Schedule.
Context `{!GoRuntime, !TimeText}.

Definition parseSchedule (s : string) : res Z :=
  let s := TrimSpace (ToLower s) in
  if s =s "hourly" then Ok hour
  else if s =s "daily" then Ok (24 * hour)
  else if s =s "weekly" then Ok (7 * 24 * hour)
  else if HasPrefix s "every " then
    let rest := TrimPrefix s "every " in
    match ParseDuration rest with
    | Err e => Err ("cannot parse duration '" +:+ rest +:+ "': " +:+ e)
    | Ok d => if d <? 30 * second then Err ("minimum interval is 30 seconds, got " +:+ duration_string d) else Ok d
    end
  else Err ("unsupported schedule format: '" +:+ s +:+ "' (use 'every 5m', 'hourly', 'daily', or 'weekly')").

End Schedule.

(** ** Data *)

Record Job : Type := MkJob {
  jb_ID : string; jb_Name : string; jb_Schedule : string; jb_Tool : string; jb_Args : option object; jb_Enabled : bool; jb_CreatedAt : Z;
  jb_LastRun : Z; jb_NextRun : Z; jb_RunCount : Z; jb_LastStatus : string; jb_LastError : string;
}.

(** A pointer to a job is its address in [heap].  [None] for the file: there is none, or
    it does not decode. *)
Record JobManager : Type := MkJobs {
  jobs : gmap string nat; heap : gmap nat Job; next_addr : nat; job_file : option (list Job); jm_running : bool;
}.

(** The fields an execution writes. *)
Definition with_run (j : Job) (last next count : Z) (status err : string) : Job :=
  MkJob (jb_ID j) (jb_Name j) (jb_Schedule j) (jb_Tool j) (jb_Args j) (jb_Enabled j) (jb_CreatedAt j) last next count status err.

Definition put_job (l : nat) (j : Job) (jm : JobManager) : JobManager :=
  MkJobs (jobs jm) (<[l := j]> (heap jm)) (next_addr jm) (job_file jm) (jm_running jm).
Definition set_jobs (m : gmap string nat) (jm : JobManager) : JobManager := MkJobs m (heap jm) (next_addr jm) (job_file jm) (jm_running jm).
Definition set_job_file (f : option (list Job)) (jm : JobManager) : JobManager := MkJobs (jobs jm) (heap jm) (next_addr jm) f (jm_running jm).

(** [jm.jobs[j.ID] = j] for a new object. *)
Definition add_job (jm : JobManager) (j : Job) : JobManager :=
  MkJobs (<[jb_ID j := next_addr jm]> (jobs jm)) (<[next_addr jm := j]> (heap jm)) (S (next_addr jm)) (job_file jm) (jm_running jm).

Definition get_job (jm : JobManager) (id : string) : option Job := jobs jm !! id ≫= fun l => heap jm !! l.

(** The jobs in an order of the map's iteration, which nothing depends on. *)
Definition all_jobs (jm : JobManager) : list Job := omap (fun p => heap jm !! p.2) (map_to_list (jobs jm)).

(** ** Persistence *)

Definition loadFromDisk (jm : JobManager) : JobManager := foldl add_job jm (default [] (job_file jm)).
Definition newJobManager (file : option (list Job)) : JobManager := loadFromDisk (MkJobs ∅ ∅ 0 file false).

Definition saveToDisk (w : save_outcome) (jm : JobManager) : res unit * JobManager :=
  match w with
  | Saved => (Ok tt, set_job_file (Some (all_jobs jm)) jm)
  | SaveRefused e => (Err e, jm)
  | SaveCut e => (Err e, set_job_file None jm)
  end.

Definition generateID (prefix : string) (now : Z) : string := prefix +:+ "-" +:+ pretty (wrap64 (now - 62135596800 * second)).

(** ** Operations *)

Section Jobs.
Context `{!GoRuntime, !TimeText}.

Definition forbidden_tool (t : string) : bool := HasPrefix t "auth_" || (t =s "job_create") || (t =s "job_remove").

(** The readings of the clock: for the identifier, the creation and the next run. *)
Definition Create (name schedule toolName : string) (args : option object) (t1 t2 t3 : Z) (w : save_outcome) (jm : JobManager) : res Job * JobManager :=
  let checked :=
    reject name =s "" with "job name is required" ;;
    reject schedule =s "" with "schedule is required" ;;
    reject toolName =s "" with "tool name is required" ;;
    match parseSchedule schedule with
    | Err e => Err ("invalid schedule: " +:+ e)
    | Ok interval =>
        reject bool_decide (assoc toolName toolPermissions = None) with "unknown tool: " +:+ toolName ;;
        reject forbidden_tool toolName with "tool '" +:+ toolName +:+ "' cannot be scheduled as a job for security reasons" ;;
        Ok interval
    end in
  match checked with
  | Err e => (Err e, jm)
  | Ok interval =>
      let id := generateID "job" t1 in
      let job := MkJob id name schedule toolName args true t2 time_zero (t3 + interval) 0 "" "" in
      match saveToDisk w (add_job jm job) with
      | (Err e, jm) => (Err ("failed to persist job: " +:+ e), set_jobs (delete id (jobs jm)) jm)
      | (Ok _, jm) => (Ok job, jm)
      end
  end.

Definition job_le (a b : Job) : Prop := jb_NextRun a <= jb_NextRun b.
#[global] Instance job_le_dec a b : Decision (job_le a b).
Proof. unfold job_le. apply _. Defined.

Record JobListResult : Type := MkJobList { jl_Jobs : list Job; jl_Total : Z }.
Definition List (jm : JobManager) : JobListResult :=
  let l := merge_sort job_le (all_jobs jm) in MkJobList l (Z.of_nat (length l)).

Definition Remove (id : string) (w : save_outcome) (jm : JobManager) : res unit * JobManager :=
  match jobs jm !! id with
  | None => (Err ("job '" +:+ id +:+ "' not found"), jm)
  | Some _ => saveToDisk w (set_jobs (delete id (jobs jm)) jm)
  end.

Definition due_jobs (now : Z) (jm : JobManager) : list nat :=
  omap (fun p => heap jm !! p.2 ≫= fun j =>
    if jb_Enabled j && negb (time_is_zero (jb_NextRun j)) && time_after now (jb_NextRun j) then Some p.2 else None) (map_to_list (jobs jm)).

(** *** An execution *)

(** What the handler of a tool answers: an error, or a result with its texts. *)
Inductive answer : Type := AFail (e : string) | AResult (is_error : bool) (texts : list string).
Definition answer_error (a : answer) : string :=
  match a with
  | AFail e => e
  | AResult false _ => ""
  | AResult true texts => foldl (fun acc t => if acc =s "" then t else acc +:+ "; " +:+ t) "" texts
  end.

(** Where an execution of the job at [l] is when it does not hold the lock; [d] is the
    interval of its schedule. *)
Inductive exec : Type :=
  | XBegin (l : nat)
  | XBad (l : nat) (e : string)
  | XNoTool (l : nat) (d : Z)
  | XCall (l : nat) (d : Z)
  | XAnswered (l : nat) (d : Z) (e : string).

(** What the world gives a step: the time, the tool's answer and the outcome of a write. *)
Record obs : Type := MkObs { ob_now : Z; ob_answer : answer; ob_save : save_outcome }.

Inductive event : Type :=
  | EStart (by_watcher : bool) (l : nat) (at_ d : Z)
  | ECall (job tool : string) (args : object).

(** When an execution sets the next run: after the interval, or an hour when the schedule
    cannot be read. *)
Definition interval_of (j : Job) : Z := match parseSchedule (jb_Schedule j) with Ok d => d | Err _ => hour end.

(** One section of [executeJob]: what is left of it, and what happened. *)
Definition exec_step (by_watcher : bool) (o : obs) (x : exec) (jm : JobManager) : option (option exec * JobManager * list event) :=
  match x with
  | XBegin l =>
      heap jm !! l ≫= fun j =>
      let jm := put_job l (with_run j (ob_now o) (jb_NextRun j) (jb_RunCount j) (jb_LastStatus j) (jb_LastError j)) jm in
      let next := match parseSchedule (jb_Schedule j) with
                  | Err e => XBad l e
                  | Ok d => match toolHandlerRegistry !! jb_Tool j with None => XNoTool l d | Some _ => XCall l d end
                  end in
      Some (Some next, jm, [EStart by_watcher l (ob_now o) (interval_of j)])
  | XBad l e =>
      heap jm !! l ≫= fun j =>
      Some (None, put_job l (with_run j (jb_LastRun j) (ob_now o + hour) (jb_RunCount j) "error" ("invalid schedule: " +:+ e)) jm, [])
  | XNoTool l d =>
      heap jm !! l ≫= fun j =>
      let j := with_run j (jb_LastRun j) (ob_now o + d) (jb_RunCount j) "error" ("tool '" +:+ jb_Tool j +:+ "' not found in handler registry") in
      Some (None, (saveToDisk (ob_save o) (put_job l j jm)).2, [])
  | XCall l d =>
      heap jm !! l ≫= fun j =>
      Some (Some (XAnswered l d (answer_error (ob_answer o))), jm, [ECall (jb_ID j) (jb_Tool j) (default [] (jb_Args j))])
  | XAnswered l d e =>
      heap jm !! l ≫= fun j =>
      let j := with_run j (jb_LastRun j) (ob_now o + d) (wrap64 (jb_RunCount j + 1))
                 (if e <>s "" then "error" else "success") (if e <>s "" then e else "") in
      Some (None, (saveToDisk (ob_save o) (put_job l j jm)).2, [])
  end.

(** *** Tools *)

Definition handleJobCreate (args : object) (t1 t2 t3 : Z) (w : save_outcome) (jm : JobManager) : tool_result Job * JobManager :=
  let name := argString args "name" in
  let schedule := argString args "schedule" in
  let toolName := argString args "tool" in
  if name =s "" then (errResult "name is required", jm)
  else if schedule =s "" then (errResult "schedule is required", jm)
  else if toolName =s "" then (errResult "tool is required", jm)
  else let '(r, jm) := Create name schedule toolName (Some (default [] (argMap args "args"))) t1 t2 t3 w jm in (of_res r (fun j => j), jm).

Definition handleJobList (jm : JobManager) : tool_result JobListResult := okResult (List jm).

Definition handleJobRemove (args : object) (w : save_outcome) (jm : JobManager) : tool_result object * JobManager :=
  let id := argString args "job_id" in
  if id =s "" then (errResult "job_id is required", jm)
  else let '(r, jm) := Remove id w jm in (of_res r (fun _ => [("job_id", VStr id); ("status", VStr "removed")]), jm).

(** [RunNow] up to its execution. *)
Definition RunNow (id : string) (jm : JobManager) : res exec :=
  match jobs jm !! id with
  | None => Err ("job '" +:+ id +:+ "' not found")
  | Some l => Ok (XBegin l)
  end.
Definition handleJobRun (args : object) (jm : JobManager) : tool_result exec :=
  let id := argString args "job_id" in
  if id =s "" then errResult "job_id is required" else of_res (RunNow id jm) (fun x => x).

(** *** The watcher, the callers and the tools *)

(** The executions the watcher has left, the first one begun or not; the executions of
    callers; what happened, newest first; the latest reading of the clock. *)
Record world : Type := MkWorld { w_jm : JobManager; w_queue : list exec; w_callers : list exec; w_log : list event; w_clock : Z }.

Inductive action : Type :=
  | AStart
  | ATick (now : Z)
  | AWatcher (o : obs)
  | ARun (args : object)
  | ACaller (i : nat) (o : obs)
  | ACreate (args : object) (t1 t2 t3 : Z) (w : save_outcome)
  | ARemove (args : object) (w : save_outcome).

Definition Start (jm : JobManager) : JobManager := MkJobs (jobs jm) (heap jm) (next_addr jm) (job_file jm) true.

(** Times do not go back: a step at an earlier time than the last is not possible. *)
Definition act (a : action) (x : world) : option world :=
  let jm := w_jm x in
  match a with
  | AStart => Some (MkWorld (Start jm) (w_queue x) (w_callers x) (w_log x) (w_clock x))
  | ATick now =>
      match w_queue x with
      | [] => if jm_running jm && (w_clock x <=? now) then Some (MkWorld jm (XBegin <$> due_jobs now jm) (w_callers x) (w_log x) now) else None
      | _ => None
      end
  | AWatcher o =>
      match w_queue x with
      | [] => None
      | e :: q =>
          if w_clock x <=? ob_now o then
            match exec_step true o e jm with
            | Some (e', jm, ev) => Some (MkWorld jm (option_list e' ++ q) (w_callers x) (ev ++ w_log x) (ob_now o))
            | None => None
            end
          else None
      end
  | ARun args =>
      match handleJobRun args jm with
      | ROk e => Some (MkWorld jm (w_queue x) (w_callers x ++ [e]) (w_log x) (w_clock x))
      | RErr _ => Some x
      end
  | ACaller i o =>
      match w_callers x !! i with
      | None => None
      | Some e =>
          if w_clock x <=? ob_now o then
            match exec_step false o e jm with
            | Some (e', jm, ev) => Some (MkWorld jm (w_queue x) (take i (w_callers x) ++ option_list e' ++ drop (S i) (w_callers x)) (ev ++ w_log x) (ob_now o))
            | None => None
            end
          else None
      end
  | ACreate args t1 t2 t3 w =>
      if (w_clock x <=? t1) && (t1 <=? t2) && (t2 <=? t3)
      then Some (MkWorld (handleJobCreate args t1 t2 t3 w jm).2 (w_queue x) (w_callers x) (w_log x) t3)
      else None
  | ARemove args w => Some (MkWorld (handleJobRemove args w jm).2 (w_queue x) (w_callers x) (w_log x) (w_clock x))
  end.

Fixpoint run (acts : list action) (x : world) : option world :=
  match acts with [] => Some x | a :: acts => act a x ≫= run acts end.

Definition boot (file : option (list Job)) (now : Z) : world := MkWorld (newJobManager file) [] [] [] now.

End Jobs.

(** ** What stays true *)

#[local] Opaque toolHandlerRegistry toolPermissions parseSchedule.

Section Invariant.
Context `{!GoRuntime, !TimeText}.

Definition loc (x : exec) : nat := match x with XBegin l | XBad l _ | XNoTool l _ | XCall l _ | XAnswered l _ _ => l end.
Definition begun (x : exec) : Prop := match x with XBegin _ => False | _ => True end.
Definition pause (x : exec) : Z := match x with XBegin _ => 0 | XBad _ _ => hour | XNoTool _ d | XCall _ d | XAnswered _ d _ => d end.

(** The tools a job may call. *)
Definition schedulable (t : string) : Prop :=
  is_Some (assoc t toolPermissions) /\ HasPrefix t "auth_" = false /\ t <> "job_create" /\ t <> "job_remove".
Definition allowed (j : Job) : Prop := schedulable (jb_Tool j).

Lemma schedulable_iff t : schedulable t <-> assoc t toolPermissions <> None /\ forbidden_tool t = false.
Proof.
  unfold schedulable, forbidden_tool. rewrite not_eq_None_Some, !orb_false_iff, !bool_decide_eq_false. tauto.
Qed.

Definition same_job (j j' : Job) : Prop :=
  jb_ID j' = jb_ID j /\ jb_Schedule j' = jb_Schedule j /\ jb_Tool j' = jb_Tool j /\ jb_Args j' = jb_Args j.

Definition exec_ok (hp : gmap nat Job) (x : exec) : Prop :=
  exists j, hp !! loc x = Some j /\ (begun x -> pause x = interval_of j) /\
  match x with XCall _ _ => is_Some (toolHandlerRegistry !! jb_Tool j) | _ => True end.

(** The watcher began no job again before the interval had passed since it began it. *)
Fixpoint spaced (log : list event) : Prop :=
  match log with
  | [] => True
  | EStart true l t _ :: log => (forall t' d', EStart true l t' d' ∈ log -> t' + d' < t) /\ spaced log
  | _ :: log => spaced log
  end.

(** A start that the watcher made is in progress, or over with the next run set. *)
Definition start_ok (x : world) (l : nat) (t d : Z) : Prop :=
  t <= w_clock x /\ (XBegin l ∈ w_queue x -> t + d < w_clock x) /\
  exists j, heap (w_jm x) !! l = Some j /\ d = interval_of j /\
    (t + d <= jb_NextRun j \/ exists e q, w_queue x = e :: q /\ begun e /\ loc e = l).

Record steady (x : world) : Prop := {
  st_jobs : forall id l, jobs (w_jm x) !! id = Some l -> exists j, heap (w_jm x) !! l = Some j /\ jb_ID j = id;
  st_fresh : forall l, is_Some (heap (w_jm x) !! l) -> (l < next_addr (w_jm x))%nat;
  st_heap : map_Forall (fun _ => allowed) (heap (w_jm x));
  st_file : Forall allowed (default [] (job_file (w_jm x)));
  st_execs : Forall (exec_ok (heap (w_jm x))) (w_queue x ++ w_callers x);
  st_waiting : Forall (fun e => ~ begun e) (tail (w_queue x));
  st_distinct : NoDup (loc <$> w_queue x);
  st_starts : forall l t d, EStart true l t d ∈ w_log x -> start_ok x l t d;
  st_calls : forall id t a, ECall id t a ∈ w_log x -> schedulable t /\ is_Some (toolHandlerRegistry !! t);
  st_spaced : spaced (w_log x);
}.

Lemma same_job_refl j : same_job j j.
Proof. done. Qed.

Lemma same_interval j j' : same_job j j' -> interval_of j' = interval_of j.
Proof. intros (_ & Hs & _). unfold interval_of. by rewrite Hs. Qed.

Lemma all_jobs_elem j jm : j ∈ all_jobs jm -> exists l, heap jm !! l = Some j.
Proof. intros (p & _ & Hj)%list_elem_of_omap. eauto. Qed.

Lemma interval_min j : 30 * second <= interval_of j.
Proof.
  with_strategy transparent [parseSchedule] unfold interval_of, parseSchedule. cbv zeta. repeat (case_bool_decide; [done|]). destruct (HasPrefix _ "every "); [|done].
  destruct (ParseDuration _) as [d|]; [|done]. by destruct (Z.ltb_spec d (30 * second)).
Qed.

(** *** One section of an execution *)

(** The manager after it: one job has changed, in the fields of an execution. *)
Definition touched (l : nat) (j j' : Job) (jm jm' : JobManager) : Prop :=
  heap jm !! l = Some j /\ same_job j j' /\ heap jm' = <[l := j']> (heap jm) /\ jobs jm' = jobs jm /\ next_addr jm' = next_addr jm /\
  (job_file jm' = job_file jm \/ job_file jm' = None \/ job_file jm' = Some (all_jobs jm')).

Lemma touched_save l j j' w jm : heap jm !! l = Some j -> same_job j j' -> touched l j j' jm (saveToDisk w (put_job l j' jm)).2.
Proof. intros Hl Hs. destruct w; split_and!; try done; cbn; auto. Qed.

Lemma touched_put l j j' jm : heap jm !! l = Some j -> same_job j j' -> touched l j j' jm (put_job l j' jm).
Proof. intros Hl Hs. split_and!; try done. by left. Qed.

Lemma exec_step_touches b o e jm e' jm' ev : exec_step b o e jm = Some (e', jm', ev) -> exec_ok (heap jm) e ->
  exists j j', touched (loc e) j j' jm jm' /\
  match e' with
  | Some e2 => loc e2 = loc e /\ begun e2 /\ jb_NextRun j' = jb_NextRun j /\ exec_ok (heap jm') e2
  | None => begun e /\ jb_NextRun j' = ob_now o + interval_of j
  end /\
  ((~ begun e /\ ev = [EStart b (loc e) (ob_now o) (interval_of j)] /\ is_Some e') \/
   (begun e /\ (ev = [] \/ ev = [ECall (jb_ID j) (jb_Tool j) (default [] (jb_Args j))] /\ is_Some (toolHandlerRegistry !! jb_Tool j)))).
Proof.
  intros Hx (j & Hj & Hd & Hreg). destruct e as [l|l m|l d|l d|l d m]; cbn [exec_step loc begun pause] in *; rewrite Hj in Hx; cbn [mbind option_bind] in Hx; injection Hx as <- <- <-.
  - eexists j, _. split; [by apply touched_put|]. split; [|left; by eauto].
    assert (Hi : forall j', same_job j j' -> interval_of j' = interval_of j) by apply same_interval.
    destruct (parseSchedule (jb_Schedule j)) as [d|m] eqn:Es; [destruct (toolHandlerRegistry !! jb_Tool j) as [h|] eqn:Et|].
    + refine (conj eq_refl (conj I (conj eq_refl _))). eexists. split; [apply lookup_insert_eq|]. split; [|exists h; exact Et].
      intros _. rewrite Hi by (clear; repeat split). unfold interval_of. by rewrite Es.
    + refine (conj eq_refl (conj I (conj eq_refl _))). eexists. split; [apply lookup_insert_eq|]. split; [|exact I].
      intros _. rewrite Hi by (clear; repeat split). unfold interval_of. by rewrite Es.
    + refine (conj eq_refl (conj I (conj eq_refl _))). eexists. split; [apply lookup_insert_eq|]. split; [|exact I].
      intros _. rewrite Hi by (clear; repeat split). unfold interval_of. by rewrite Es.
  - eexists j, _. split; [by apply touched_put|]. split; [|right; by eauto]. rewrite <- Hd by done. done.
  - eexists j, _. split; [by apply touched_save|]. split; [|right; by eauto]. rewrite <- Hd by done. done.
  - exists j, j. split; [|split; [|right; by eauto]].
    + split_and!; try done; [by rewrite insert_id|by left].
    + split_and!; try done. exists j. by auto.
  - eexists j, _. split; [by apply touched_save|]. split; [|right; by eauto]. rewrite <- Hd by done. done.
Qed.

(** *** Every action keeps the invariant *)

Lemma touched_exec l j j' jm jm' x : touched l j j' jm jm' -> exec_ok (heap jm) x -> exec_ok (heap jm') x.
Proof.
  intros (Hl & Hs & Hh & _) (k & Hk & Hd & Hreg). rewrite Hh. destruct (decide (loc x = l)) as [<-|Hne].
  - rewrite Hl in Hk. injection Hk as <-. exists j'. split; [apply lookup_insert_eq|]. split.
    + intros Hb. rewrite (same_interval j j') by exact Hs. by apply Hd.
    + destruct Hs as (_ & _ & -> & _). exact Hreg.
  - exists k. split; [by rewrite lookup_insert_ne|]. by split.
Qed.

(** The parts of the invariant that do not speak of executions. *)
Definition steady_jobs (jm : JobManager) : Prop :=
  (forall id l, jobs jm !! id = Some l -> exists j, heap jm !! l = Some j /\ jb_ID j = id) /\
  (forall l, is_Some (heap jm !! l) -> (l < next_addr jm)%nat) /\
  map_Forall (fun _ => allowed) (heap jm) /\ Forall allowed (default [] (job_file jm)).

Lemma all_jobs_allowed jm : map_Forall (fun _ => allowed) (heap jm) -> Forall allowed (all_jobs jm).
Proof. intros Ha. apply Forall_forall. intros j [l Hl]%all_jobs_elem. exact (Ha l j Hl). Qed.

Lemma touched_jobs l j j' jm jm' : touched l j j' jm jm' -> steady_jobs jm -> steady_jobs jm'.
Proof.
  intros (Hl & Hs & Hh & Hj & Hn & Hf) (H1 & H2 & H3 & H4). unfold steady_jobs. rewrite Hj, Hn.
  assert (Ha : map_Forall (fun _ => allowed) (heap jm')).
  { rewrite Hh. apply map_Forall_insert_2; [|done]. unfold allowed. destruct Hs as (_ & _ & -> & _). exact (H3 l j Hl). }
  split_and!.
  - intros id k (i & Hi & Hid)%H1. rewrite Hh. destruct (decide (k = l)) as [->|Hne].
    + rewrite lookup_insert_eq. exists j'. split; [done|]. rewrite Hl in Hi. injection Hi as <-. destruct Hs as (-> & _). done.
    + rewrite lookup_insert_ne by done. eauto.
  - intros k. rewrite Hh. destruct (decide (k = l)) as [->|Hne]; [intros _; apply H2; eauto|]. rewrite lookup_insert_ne by done. apply H2.
  - done.
  - destruct Hf as [-> | [-> | ->]]; [done|constructor|by apply all_jobs_allowed].
Qed.

Lemma steady_jobs_of x : steady x -> steady_jobs (w_jm x).
Proof. intros []. by split_and!. Qed.

Lemma save_jobs w jm : steady_jobs jm -> steady_jobs (saveToDisk w jm).2.
Proof.
  intros (H1 & H2 & H3 & H4). destruct w; refine (conj H1 (conj H2 (conj H3 _))); [by apply all_jobs_allowed|done|constructor].
Qed.

Lemma delete_jobs id jm : steady_jobs jm -> steady_jobs (set_jobs (delete id (jobs jm)) jm).
Proof. intros (H1 & H2 & H3 & H4). split_and!; try done. intros k l. cbn. rewrite lookup_delete_Some. intros [_ Hk]. by apply H1. Qed.

Lemma add_jobs jm j : allowed j -> steady_jobs jm -> steady_jobs (add_job jm j).
Proof.
  intros Ha (H1 & H2 & H3 & H4). assert (Hfresh : heap jm !! next_addr jm = None).
  { destruct (heap jm !! next_addr jm) eqn:E; [|done]. specialize (H2 (next_addr jm) (mk_is_Some _ _ E)). lia. }
  split_and!; cbn.
  - intros id l. destruct (decide (id = jb_ID j)) as [->|Hne].
    + rewrite lookup_insert_eq. intros [= <-]. exists j. by rewrite lookup_insert_eq.
    + rewrite lookup_insert_ne by done. intros (i & Hi & Hid)%H1. exists i. rewrite lookup_insert_ne; [done|]. intros <-. by rewrite Hfresh in Hi.
  - intros l. destruct (decide (l = next_addr jm)) as [->|Hne]; [lia|]. rewrite lookup_insert_ne by done. intros Hl%H2. lia.
  - by apply map_Forall_insert_2.
  - done.
Qed.

Lemma empty_jobs file b : Forall allowed (default [] file) -> steady_jobs (MkJobs ∅ ∅ 0 file b).
Proof.
  intros Hf. refine (conj _ (conj _ (conj (map_Forall_empty _) Hf))); cbn; [intros id l Hl; by rewrite lookup_empty in Hl|intros l [? Hl]; by rewrite lookup_empty in Hl].
Qed.

Lemma boot_jobs file : Forall allowed (default [] file) -> steady_jobs (newJobManager file).
Proof.
  intros Hf. unfold newJobManager, loadFromDisk. cbn [job_file].
  assert (Hg : forall l jm, Forall allowed l -> steady_jobs jm -> steady_jobs (foldl add_job jm l)).
  { induction l as [|j l IH]; intros jm Hl Hok; [done|]. apply Forall_cons in Hl as [Hj Hl]. cbn. apply IH; [done|]. by apply add_jobs. }
  apply Hg; [done|]. by apply empty_jobs.
Qed.

(** What changes the map of jobs changes no job. *)
Definition grown (jm jm' : JobManager) : Prop :=
  steady_jobs jm' /\ forall l j, heap jm !! l = Some j -> heap jm' !! l = Some j.

Lemma grown_refl jm : steady_jobs jm -> grown jm jm.
Proof. by split. Qed.

Lemma Create_grown name schedule tool args t1 t2 t3 w jm : steady_jobs jm -> grown jm (Create name schedule tool args t1 t2 t3 w jm).2.
Proof.
  intros Hok. unfold Create. cbv zeta. lazymatch goal with |- context [match ?c with Ok _ => _ | Err m => (Err m, jm) end] => destruct c as [d|] eqn:Hc end; [|by apply grown_refl].
  set (j := MkJob _ _ _ _ _ _ _ _ _ _ _ _).
  assert (Ha : allowed j).
  { unfold allowed. cbn [jb_Tool j]. do 3 (case_bool_decide; [done|]). destruct (parseSchedule schedule); [|done].
    case_bool_decide as Hp; [done|]. destruct (forbidden_tool tool) eqn:Hf; [done|]. by apply schedulable_iff. }
  pose proof (add_jobs jm j Ha Hok) as H1. pose proof (save_jobs w _ H1) as H2.
  assert (Hh : forall w0 l i, heap jm !! l = Some i -> heap (saveToDisk w0 (add_job jm j)).2 !! l = Some i).
  { intros w0 l i Hi. assert (l <> next_addr jm) by (pose proof (proj1 (proj2 Hok) l ltac:(eauto)); lia). destruct w0; cbn; by rewrite lookup_insert_ne. }
  specialize (Hh w). destruct (saveToDisk w (add_job jm j)) as [[[]|e] jm'] eqn:E; cbn [snd] in *; split; try done. by apply delete_jobs.
Qed.

Lemma Remove_grown id w jm : steady_jobs jm -> grown jm (Remove id w jm).2.
Proof.
  intros Hok. unfold Remove. destruct (jobs jm !! id); [|by apply grown_refl]. split; [by apply save_jobs, delete_jobs|]. intros l j Hl. by destruct w.
Qed.

Lemma grown_steady x jm' c : steady x -> grown (w_jm x) jm' -> w_clock x <= c -> steady (MkWorld jm' (w_queue x) (w_callers x) (w_log x) c).
Proof.
  intros Hx [(H1 & H2 & H3 & H4) Hh] Hc. destruct Hx. split; cbn; try done.
  - eapply Forall_impl; [exact st_execs0|]. intros e (j & Hj & Hr). exists j. auto.
  - intros l t d Hin. destruct (st_starts0 l t d Hin) as (Ht & Hq & j & Hj & Hr). split; [cbn; lia|]. split; [intros Hb; specialize (Hq Hb); cbn; lia|].
    exists j. auto.
Qed.

Lemma start_touched x l0 j j' jm' q' c l t d : start_ok x l t d -> touched l0 j j' (w_jm x) jm' -> w_clock x <= c ->
  (XBegin l ∈ q' -> XBegin l ∈ w_queue x) ->
  (jb_NextRun j <= jb_NextRun j' \/ jb_NextRun j' = c + interval_of j) ->
  (forall e q, w_queue x = e :: q -> begun e -> loc e = l ->
     (exists e2, head q' = Some e2 /\ begun e2 /\ loc e2 = l) \/ (l = l0 /\ jb_NextRun j' = c + interval_of j)) ->
  forall callers log, start_ok (MkWorld jm' q' callers log c) l t d.
Proof.
  intros (Ht & Hq & k & Hk & Hd & Hr) (Hl & Hs & Hh & _) Hc Hsub Hnext Hhead callers log. split; [cbn; lia|]. split; [intros Hb; cbn in *; specialize (Hq (Hsub Hb)); lia|].
  cbn. rewrite Hh.
  assert (Hend : l = l0 -> jb_NextRun j' = c + interval_of j -> t + d <= jb_NextRun j').
  { intros -> ->. rewrite Hl in Hk. injection Hk as <-. rewrite Hd. lia. }
  assert (Hrun : t + d <= jb_NextRun k \/ (exists e2, head q' = Some e2 /\ begun e2 /\ loc e2 = l) \/ (l = l0 /\ jb_NextRun j' = c + interval_of j)).
  { destruct Hr as [Hr|(e & q & Hx & Hb & He)]; [by left|right]. by eapply Hhead. }
  destruct (decide (l = l0)) as [->|Hne].
  - rewrite lookup_insert_eq. exists j'. rewrite Hl in Hk. injection Hk as <-. split; [done|]. split; [by rewrite (same_interval j j')|].
    destruct Hrun as [Hr1|[(e2 & Hh2 & Hb & He)|[_ Hn]]].
    + left. destruct Hnext as [Hn|Hn]; [lia|by apply Hend].
    + right. destruct q' as [|e3 q']; [done|]. injection Hh2 as ->. eauto.
    + left. by apply Hend.
  - rewrite lookup_insert_ne by done. exists k. split; [done|]. split; [done|].
    destruct Hrun as [Hr1|[(e2 & Hh2 & Hb & He)|[? _]]]; [by left| |done].
    right. destruct q' as [|e3 q']; [done|]. injection Hh2 as ->. eauto.
Qed.

Lemma watcher_steady o x y : act (AWatcher o) x = Some y -> steady x -> steady y.
Proof.
  cbn [act]. destruct (w_queue x) as [|e q] eqn:Hq; [done|]. destruct (Z.leb_spec (w_clock x) (ob_now o)) as [Hc|]; [|done].
  destruct (exec_step true o e (w_jm x)) as [[[e' jm'] ev]|] eqn:Hx; [|done]. intros [= <-] Hs.
  pose proof (steady_jobs_of x Hs) as Hjobs. destruct Hs as [_ _ _ _ Hex Hwait Hdist Hst Hcall Hsp].
  rewrite Hq in Hex, Hwait, Hdist. cbn [tail fmap list_fmap app] in *. apply Forall_cons in Hex as [He Hex]. apply NoDup_cons in Hdist as [Hnew Hdist].
  destruct (exec_step_touches _ _ _ _ _ _ _ Hx He) as (j & j' & Ht & He' & Hev).
  destruct (touched_jobs _ _ _ _ _ Ht Hjobs) as (H1 & H2 & H3 & H4).
  assert (Hold : forall l t d, EStart true l t d ∈ w_log x -> start_ok (MkWorld jm' (option_list e' ++ q) (w_callers x) (ev ++ w_log x) (ob_now o)) l t d).
  { intros l t d Hin. eapply start_touched; [by apply Hst|exact Ht|done| | |].
    - rewrite Hq. destruct e' as [e2|]; [|by intros ?; right]. destruct He' as (_ & Hb & _). intros [Heq|?]%elem_of_cons; [by subst e2|by right].
    - destruct e' as [e2|]; [left; destruct He' as (_ & _ & -> & _); lia|by right; apply He'].
    - intros e0 q0 Heq Hb Hl. rewrite Hq in Heq. injection Heq as <- <-. destruct e' as [e2|]; [left|right].
      + destruct He' as (Hl2 & Hb2 & _). exists e2. split; [done|]. by rewrite Hl2.
      + destruct He' as [_ Hn]. by rewrite Hl. }
  split; try done.
  - cbn. destruct e' as [e2|]; cbn.
    + constructor; [apply He'|]. eapply Forall_impl; [exact Hex|]. intros ?. by apply (touched_exec _ _ _ _ _ _ Ht).
    + eapply Forall_impl; [exact Hex|]. intros ?. by apply (touched_exec _ _ _ _ _ _ Ht).
  - cbn. destruct e'; [done|]. destruct q as [|e1 q]; [done|]. by apply Forall_cons in Hwait as [_ ?].
  - cbn. destruct e' as [e2|]; [|done]. cbn. constructor; [|done]. destruct He' as (-> & _). done.
  - cbn. intros l t d [Hin|Hin]%elem_of_app; [|by apply Hold].
    destruct Hev as [(Hnb & -> & [e2 ->])|(Hb & [-> |[-> _]])]; [|by apply not_elem_of_nil in Hin|by apply list_elem_of_singleton in Hin].
    apply list_elem_of_singleton in Hin. injection Hin as -> -> ->. destruct He' as (Hl2 & Hb2 & _). split; [cbn; lia|]. split.
    + intros [Heq|Hin]%elem_of_cons; [by subst e2|]. exfalso. apply Hnew. apply list_elem_of_fmap. by exists (XBegin (loc e)).
    + destruct Ht as (_ & Hsame & Hh & _). exists j'. cbn. rewrite Hh, lookup_insert_eq. split; [done|]. split; [by rewrite (same_interval j j')|]. right. eauto.
  - intros id t a [Hin|Hin]%elem_of_app; [|by eapply Hcall].
    destruct Hev as [(Hnb & -> & [e2 ->])|(Hb & [-> |[-> Hreg]])]; [by apply list_elem_of_singleton in Hin|by apply not_elem_of_nil in Hin|].
    apply list_elem_of_singleton in Hin. injection Hin as -> -> ->. split; [|done]. destruct Ht as (Hl & _). destruct Hjobs as (_ & _ & Ha & _). exact (Ha _ j Hl).
  - cbn. destruct Hev as [(Hnb & -> & [e2 ->])|(Hb & [-> |[-> _]])]; [|done..]. cbn. split; [|done].
    intros t' d' Hin. destruct (Hst _ _ _ Hin) as (_ & Hbefore & _). assert (He0 : XBegin (loc e) = e) by (by destruct e).
    rewrite Hq, He0 in Hbefore. specialize (Hbefore (list_elem_of_here _ _)). lia.
Qed.

Lemma caller_steady i o x y : act (ACaller i o) x = Some y -> steady x -> steady y.
Proof.
  cbn [act]. destruct (w_callers x !! i) as [e|] eqn:Hi; [|done]. destruct (Z.leb_spec (w_clock x) (ob_now o)) as [Hc|]; [|done].
  destruct (exec_step false o e (w_jm x)) as [[[e' jm'] ev]|] eqn:Hx; [|done]. intros [= <-] Hs.
  pose proof (steady_jobs_of x Hs) as Hjobs. destruct Hs as [_ _ _ _ Hex Hwait Hdist Hst Hcall Hsp].
  apply Forall_app in Hex as [Hexq Hexc]. pose proof (proj1 (Forall_lookup _ _) Hexc i e Hi) as He.
  destruct (exec_step_touches _ _ _ _ _ _ _ Hx He) as (j & j' & Ht & He' & Hev).
  destruct (touched_jobs _ _ _ _ _ Ht Hjobs) as (H1 & H2 & H3 & H4).
  assert (Himp : forall l, Forall (exec_ok (heap (w_jm x))) l -> Forall (exec_ok (heap jm')) l).
  { intros l Hl. eapply Forall_impl; [exact Hl|]. intros ?. by apply (touched_exec _ _ _ _ _ _ Ht). }
  split; try done.
  - cbn. rewrite !Forall_app. split; [by apply Himp|]. split; [by apply Himp, Forall_take|]. split; [|by apply Himp, Forall_drop].
    destruct e' as [e2|]; [|constructor]. constructor; [apply He'|constructor].
  - cbn. intros l t d [Hin|Hin]%elem_of_app.
    { destruct Hev as [(Hnb & -> & _)|(Hb & [-> |[-> _]])]; [|by apply not_elem_of_nil in Hin|]; by apply list_elem_of_singleton in Hin. }
    eapply start_touched; [by apply Hst|exact Ht|done|done| |].
    + destruct e' as [e2|]; [left; destruct He' as (_ & _ & -> & _); lia|by right; apply He'].
    + intros e0 q0 Heq Hb Hl. left. rewrite Heq. exists e0. split; [done|]. by split.
  - intros id t a [Hin|Hin]%elem_of_app; [|by eapply Hcall].
    destruct Hev as [(Hnb & -> & _)|(Hb & [-> |[-> Hreg]])]; [by apply list_elem_of_singleton in Hin|by apply not_elem_of_nil in Hin|].
    apply list_elem_of_singleton in Hin. injection Hin as -> -> ->. split; [|done]. destruct Ht as (Hl & _). destruct Hjobs as (_ & _ & Ha & _). exact (Ha _ j Hl).
  - cbn. destruct Hev as [(Hnb & -> & _)|(Hb & [-> |[-> _]])]; done.
Qed.

Lemma due_elem now jm l : l ∈ due_jobs now jm <->
  exists id j, jobs jm !! id = Some l /\ heap jm !! l = Some j /\ jb_Enabled j = true /\ jb_NextRun j <> 0 /\ jb_NextRun j < now.
Proof.
  unfold due_jobs. rewrite list_elem_of_omap. split.
  - intros ([id k] & Hin & Hk). apply elem_of_map_to_list in Hin. cbn [snd] in Hk. destruct (heap jm !! k) as [j|] eqn:Hj; [|done]. cbn [mbind option_bind] in Hk.
    unfold time_is_zero, time_after in Hk. destruct (jb_Enabled j) eqn:En; [|done]. destruct (Z.eqb_spec (jb_NextRun j) 0); [done|].
    destruct (Z.ltb_spec (jb_NextRun j) now); [|done]. injection Hk as <-. eauto 10.
  - intros (id & j & Hid & Hj & He & Hz & Hn). exists (id, l). split; [by apply elem_of_map_to_list|]. cbn [snd]. rewrite Hj. cbn [mbind option_bind].
    unfold time_is_zero, time_after. rewrite He. destruct (Z.eqb_spec (jb_NextRun j) 0); [done|]. by destruct (Z.ltb_spec (jb_NextRun j) now); [|lia].
Qed.

Lemma due_distinct now jm : steady_jobs jm -> NoDup (due_jobs now jm).
Proof.
  intros (H1 & _). apply NoDup_omap_on; [|apply NoDup_map_to_list]. intros [id k] [id' k'] l Hin Hin' He He'.
  apply elem_of_map_to_list in Hin, Hin'. cbn [snd] in *.
  assert (Hk : forall m, (heap jm !! m ≫= fun j => if jb_Enabled j && negb (time_is_zero (jb_NextRun j)) && time_after now (jb_NextRun j) then Some m else None) = Some l -> m = l).
  { intros m Hm. destruct (heap jm !! m); [|done]. cbn [mbind option_bind] in Hm. destruct (_ && _ && _); [|done]. by injection Hm. }
  apply Hk in He as ->. apply Hk in He' as ->. destruct (H1 _ _ Hin) as (j & Hj & <-), (H1 _ _ Hin') as (j' & Hj' & <-). rewrite Hj in Hj'. by injection Hj' as <-.
Qed.

Lemma tick_steady now x y : act (ATick now) x = Some y -> steady x -> steady y.
Proof.
  cbn [act]. destruct (w_queue x) eqn:Hq; [|done]. destruct (jm_running (w_jm x)); [|done]. destruct (Z.leb_spec (w_clock x) now) as [Hc|]; [|done].
  intros [= <-] Hs. pose proof (steady_jobs_of x Hs) as Hjobs. destruct Hs as [H1 H2 H3 H4 Hex _ _ Hst Hcall Hsp]. rewrite Hq in Hex. cbn [app] in Hex.
  split; try done; cbn [w_jm w_queue w_callers w_log w_clock].
  - apply Forall_app. split; [|done]. apply Forall_fmap, Forall_forall. intros l (id & j & Hid & Hj & _)%due_elem. exists j. split_and!; done.
  - apply Forall_tail. apply Forall_fmap, Forall_forall. by intros l _ [].
  - rewrite <- list_fmap_compose. change (loc ∘ XBegin) with (@id nat). rewrite list_fmap_id. by apply due_distinct.
  - intros l t d Hin. destruct (Hst l t d Hin) as (Ht & _ & j & Hj & Hd & Hr). split; [cbn; lia|].
    assert (Hn : t + d <= jb_NextRun j) by (destruct Hr as [?|(e & q & He & _)]; [done|by rewrite Hq in He]).
    split; [|exists j; by auto]. cbn. intros (l' & [= <-] & (id & j' & _ & Hj' & _ & _ & Hlt)%due_elem)%list_elem_of_fmap.
    rewrite Hj in Hj'. injection Hj' as <-. lia.
Qed.

Lemma act_steady a x y : act a x = Some y -> steady x -> steady y.
Proof.
  intros Ha Hs. pose proof (steady_jobs_of x Hs) as Hjobs. destruct a.
  - injection Ha as <-. destruct Hs. by split.
  - by eapply tick_steady.
  - by eapply watcher_steady.
  - cbn [act] in Ha. unfold handleJobRun in Ha. case_bool_decide; [by injection Ha as <-|]. unfold RunNow in Ha.
    destruct (jobs (w_jm x) !! argString args "job_id") as [l|] eqn:Hl; cbn in Ha; injection Ha as <-; [|done].
    pose proof (st_jobs x Hs _ _ Hl) as (j & Hj & _). destruct Hs. split; try done. cbn. rewrite app_assoc. apply Forall_app. split; [done|].
    constructor; [|constructor]. exists j. split_and!; done.
  - by eapply caller_steady.
  - cbn [act] in Ha. destruct (_ && _ && _) eqn:Ht; [|done]. injection Ha as <-. unfold handleJobCreate. cbv zeta.
    assert (Hc : w_clock x <= t3) by lia. repeat (case_bool_decide; [apply grown_steady; [done|by apply grown_refl|done]|]).
    pose proof (Create_grown (argString args "name") (argString args "schedule") (argString args "tool") (Some (default [] (argMap args "args"))) t1 t2 t3 w _ Hjobs) as Hg.
    destruct (Create _ _ _ _ _ _ _ _ _) as [r jm']. by apply grown_steady.
  - cbn [act] in Ha. injection Ha as <-. unfold handleJobRemove. case_bool_decide; [apply grown_steady; [done|by apply grown_refl|lia]|].
    pose proof (Remove_grown (argString args "job_id") w _ Hjobs) as Hg. destruct (Remove _ _ _) as [r jm']. apply grown_steady; [done..|lia].
Qed.

Lemma run_steady acts : forall x y, run acts x = Some y -> steady x -> steady y.
Proof.
  induction acts as [|a acts IH]; intros x y; cbn [run]; [by intros [= <-]|]. destruct (act a x) as [x'|] eqn:Ha; [|done]. cbn. intros Hr Hs.
  by eapply IH, act_steady.
Qed.

Lemma boot_steady file now : Forall allowed (default [] file) -> steady (boot file now).
Proof.
  intros Hf. destruct (boot_jobs file Hf) as (H1 & H2 & H3 & H4). split; try done; cbn; first [by intros ? ? ? ?%not_elem_of_nil|constructor].
Qed.

End Invariant.

(** ** Restarts *)

Section Restart.
Context `{!GoRuntime, !TimeText}.

Lemma get_add jm j id : steady_jobs jm -> get_job (add_job jm j) id = if decide (id = jb_ID j) then Some j else get_job jm id.
Proof.
  intros (H1 & H2 & _). unfold get_job. cbn. destruct (decide (id = jb_ID j)) as [->|Hne].
  - rewrite lookup_insert_eq. cbn. by rewrite lookup_insert_eq.
  - rewrite lookup_insert_ne by done. destruct (jobs jm !! id) as [l|] eqn:Hl; [|done]. cbn. destruct (H1 _ _ Hl) as (i & Hi & _).
    rewrite lookup_insert_ne; [done|]. intros <-. pose proof (H2 _ (mk_is_Some _ _ Hi)). lia.
Qed.

Lemma load_get l : forall jm id, steady_jobs jm -> Forall allowed l -> NoDup (jb_ID <$> l) ->
  get_job (foldl add_job jm l) id = match list_find (fun j => jb_ID j = id) l with Some (_, j) => Some j | None => get_job jm id end.
Proof.
  induction l as [|j l IH]; intros jm id Hjm Hl Hnd; [done|]. apply Forall_cons in Hl as [Hj Hl]. cbn [fmap list_fmap] in Hnd. apply NoDup_cons in Hnd as [Hnew Hnd].
  cbn [foldl]. rewrite IH by (try done; by apply add_jobs). rewrite list_find_cons || cbn [list_find]. rewrite get_add by done.
  destruct (decide (jb_ID j = id)) as [<-|Hne].
  - rewrite decide_True by done. destruct (list_find _ l) as [[n i]|] eqn:E; [|done]. apply list_find_Some in E as (Hi & Hid & _).
    exfalso. apply Hnew. rewrite <- Hid. apply list_elem_of_fmap. exists i. split; [done|]. by eapply list_elem_of_lookup_2.
  - rewrite decide_False by done. by destruct (list_find _ l) as [[n i]|].
Qed.

Lemma all_jobs_ids jm : steady_jobs jm -> NoDup (jb_ID <$> all_jobs jm).
Proof.
  intros (H1 & _). unfold all_jobs. pose proof (NoDup_fst_map_to_list (jobs jm)) as Hnd.
  assert (Hall : forall p, p ∈ map_to_list (jobs jm) -> exists j, heap jm !! p.2 = Some j /\ jb_ID j = p.1).
  { intros [id l] Hin. apply elem_of_map_to_list in Hin. exact (H1 id l Hin). }
  assert (Heq : jb_ID <$> omap (fun p => heap jm !! p.2) (map_to_list (jobs jm)) = (map_to_list (jobs jm)).*1).
  { clear Hnd. induction (map_to_list (jobs jm)) as [|p l IH]; [done|]. destruct (Hall p (list_elem_of_here _ _)) as (j & Hj & Hid).
    cbn. rewrite Hj. cbn. rewrite Hid. f_equal. apply IH. intros q Hq. apply Hall. by apply list_elem_of_further. }
  by rewrite Heq.
Qed.

Lemma all_jobs_get jm id : steady_jobs jm ->
  match list_find (fun j => jb_ID j = id) (all_jobs jm) with Some (_, j) => Some j | None => None end = get_job jm id.
Proof.
  intros (H1 & _). destruct (list_find _ _) as [[n j]|] eqn:E.
  - apply list_find_Some in E as (Hj & Hid & _). apply list_elem_of_lookup_2 in Hj. unfold all_jobs in Hj. apply list_elem_of_omap in Hj as ([k l] & Hin & Hl).
    apply elem_of_map_to_list in Hin. cbn in Hl. destruct (H1 k l Hin) as (i & Hi & Hk). rewrite Hl in Hi. injection Hi as <-. subst k. rewrite Hid in Hin.
    unfold get_job. by rewrite Hin.
  - apply list_find_None in E. unfold get_job. destruct (jobs jm !! id) as [l|] eqn:Hl; [|done]. cbn. destruct (H1 _ _ Hl) as (j & Hj & Hid). exfalso.
    rewrite Forall_forall in E. apply (E j); [|done]. apply list_elem_of_omap. exists (id, l). split; [by apply elem_of_map_to_list|done].
Qed.

Lemma restart_get jm id : steady_jobs jm -> get_job (newJobManager (Some (all_jobs jm))) id = get_job jm id.
Proof.
  intros Hok. unfold newJobManager, loadFromDisk. cbn [job_file default]. rewrite load_get.
  - rewrite <- (all_jobs_get jm id Hok). by destruct (list_find _ _) as [[n j]|].
  - by apply empty_jobs, all_jobs_allowed, Hok.
  - apply all_jobs_allowed, Hok.
  - by apply all_jobs_ids.
Qed.

End Restart.

(** ** Theorems *)


(** After any history, a creation that succeeds is on the disk: a server started from the
    file has the same jobs, the new one among them. *)
Theorem jobs_survive_restart `{!GoRuntime, !TimeText} (file : option (list Job)) (now : Z) (acts : list action) (y : world)
    (name schedule tool : string) (args : option object) (t1 t2 t3 : Z) (w : save_outcome) (j : Job) (jm' : JobManager)
    (Hfile : Forall allowed (default [] file)) (Hrun : run acts (boot file now) = Some y)
    (Hcreate : Create name schedule tool args t1 t2 t3 w (w_jm y) = (Ok j, jm')) :
  get_job jm' (jb_ID j) = Some j /\ forall id, get_job (newJobManager (job_file jm')) id = get_job jm' id.
Proof.
  pose proof (steady_jobs_of _ (run_steady _ _ _ Hrun (boot_steady file now Hfile))) as Hok.
  pose proof (Create_grown name schedule tool args t1 t2 t3 w _ Hok) as [Hok' _]. rewrite Hcreate in Hok'. cbn [snd] in Hok'.
  revert Hcreate. unfold Create. cbv zeta. lazymatch goal with |- context [match ?c with Ok _ => _ | Err m => (Err m, w_jm y) end] => destruct c as [d|] end; [|intros [=]].
  set (j0 := MkJob _ _ _ _ _ _ _ _ _ _ _ _). destruct w; cbn [saveToDisk]; intros [= <- <-]. split.
  - unfold get_job. cbn. rewrite lookup_insert_eq. cbn. by rewrite lookup_insert_eq.
  - intros id. exact (restart_get _ id Hok').
Qed.

#[local] Existing Instance demo_runtime.
#[local] Existing Instance demo_time.

Definition demo_obs (now : Z) (a : answer) : obs := MkObs now a Saved.

Definition demo_args (schedule tool : string) : object := [("name", VStr "j"); ("schedule", VStr schedule); ("tool", VStr tool)].

(** A job that is due is run by the watcher; meanwhile a caller runs it too. *)
Definition demo_actions : list action :=
  [AStart; ACreate (demo_args "every 1m" "list_containers") 100 101 102 Saved; ATick (102 + minute); ATick (103 + minute);
   AWatcher (demo_obs (104 + minute) (AResult false [])); ARun [("job_id", VStr (generateID "job" 100))];
   ACaller 0 (demo_obs (105 + minute) (AResult false [])); AWatcher (demo_obs (106 + minute) (AResult false []));
   ACaller 0 (demo_obs (107 + minute) (AResult false [])); AWatcher (demo_obs (108 + minute) (AResult true ["no"; "nodes"]))].


(** A job that a caller runs while the watcher runs it is called twice at the same time. *)
Example job_runs_twice_at_once :
  (fun y => rev (w_log y)) <$> run demo_actions (boot None 1) =
  Some [EStart true 0 (104 + minute) minute; EStart false 0 (105 + minute) minute;
        ECall (generateID "job" 100) "list_containers" []; ECall (generateID "job" 100) "list_containers" []].
Proof. vm_compute. reflexivity. Qed.

(** The tools that ask for a fresh code whenever they are called can be scheduled, and
    neither the creation of a job nor running it asks for one. *)
Example jobs_bypass_confirmation :
  IsTOTPRequired "delete_volume" = true /\ IsTOTPRequired "job_create" = false /\ IsTOTPRequired "job_run" = false /\
  is_ok (Create "j" "hourly" "delete_volume" (Some [("name", VStr "db")]) 100 101 102 Saved (newJobManager None)).1 = true.
Proof. split_and!; vm_compute; reflexivity. Qed.

(** The schedules of cron and of days that the comments name are refused. *)
Example schedules_refused :
  is_ok (parseSchedule "* * * * *") = false /\ is_ok (parseSchedule "every 2d") = false /\ parseSchedule " Every 90s" = Ok (90 * second).
Proof. split_and!; vm_compute; reflexivity. Qed.

(** A job whose removal cannot be written is gone and the answer is an error; it is back
    after a restart. *)
Example removed_job_comes_back :
  let jm := (Create "j" "hourly" "list_containers" None 100 101 102 Saved (newJobManager None)).2 in
  let id := generateID "job" 100 in
  let '(r, jm') := Remove id (SaveRefused "disk full") jm in
  r = Err "disk full" /\ get_job jm' id = None /\ bool_decide (is_Some (get_job (newJobManager (job_file jm')) id)) = true.
Proof. vm_compute. split_and!; reflexivity. Qed.
