(* ===== verification/Alerts.v ===== *)
(** * Alert rules (mcp-server-go/alerting.go)

    Rules are shared objects, as the checks of Health.v: the watcher collects pointers to
    the rules whose cooldown has passed and evaluates, notifies and records without the
    lock in between, so rules can be added, removed and tested meanwhile.  The health of
    containers is read from the manager of Health.v.  The network is an argument of each
    notification. *)
From S2P Require Import Prelude GoStrings GoValue NetIP Security HA Nodes Backend Health.
From Stdlib Require Import Ascii.

Open Scope string_scope.
Open Scope Z_scope.

(** ** Data *)

Definition AlertWarning : string := "warning".
Definition AlertContainerDown : string := "container_down".

Record AlertRule : Type := MkRule {
  ar_ID : string; ar_Name : string; ar_Type : string; ar_Severity : string; ar_Threshold : float64; ar_ContainerID : string;
  ar_NodeID : string; ar_WebhookURL : string; ar_CooldownSec : Z; ar_Enabled : bool; ar_CreatedAt : Z; ar_LastFired : Z; ar_FireCount : Z;
}.

Record AlertEvent : Type := MkAlert {
  al_RuleID : string; al_RuleName : string; al_Type : string; al_Severity : string; al_Message : string; al_Value : float64;
  al_Threshold : float64; al_Node : string; al_FiredAt : string;
}.

Record AlertSummary : Type := MkAlertSummary {
  as_ID : string; as_Name : string; as_Type : string; as_Severity : string; as_Enabled : bool; as_FireCount : Z; as_LastFired : string;
}.

(** A pointer to a rule is its address in [ar_heap]. *)
Record AlertManager : Type := MkAlerts {
  rules : gmap string nat; ar_heap : gmap nat AlertRule; ar_next : nat; ar_files : gmap string AlertRule; webhookURL : string; am_running : bool;
}.

Definition with_fired (r : AlertRule) (last count : Z) : AlertRule :=
  MkRule (ar_ID r) (ar_Name r) (ar_Type r) (ar_Severity r) (ar_Threshold r) (ar_ContainerID r) (ar_NodeID r) (ar_WebhookURL r)
    (ar_CooldownSec r) (ar_Enabled r) (ar_CreatedAt r) last count.
Definition with_defaults (r : AlertRule) (severity : string) (cooldown created : Z) : AlertRule :=
  MkRule (ar_ID r) (ar_Name r) (ar_Type r) severity (ar_Threshold r) (ar_ContainerID r) (ar_NodeID r) (ar_WebhookURL r)
    cooldown true created (ar_LastFired r) (ar_FireCount r).

Definition put_rule (l : nat) (r : AlertRule) (am : AlertManager) : AlertManager :=
  MkAlerts (rules am) (<[l := r]> (ar_heap am)) (ar_next am) (ar_files am) (webhookURL am) (am_running am).
Definition set_rules (m : gmap string nat) (am : AlertManager) : AlertManager :=
  MkAlerts m (ar_heap am) (ar_next am) (ar_files am) (webhookURL am) (am_running am).
Definition set_rule_files (f : gmap string AlertRule) (am : AlertManager) : AlertManager :=
  MkAlerts (rules am) (ar_heap am) (ar_next am) f (webhookURL am) (am_running am).

(** [am.rules[r.ID] = r] for a new object. *)
Definition insert_rule (am : AlertManager) (r : AlertRule) : AlertManager :=
  MkAlerts (<[ar_ID r := ar_next am]> (rules am)) (<[ar_next am := r]> (ar_heap am)) (S (ar_next am)) (ar_files am) (webhookURL am) (am_running am).
Definition get_rule (am : AlertManager) (id : string) : option AlertRule := rules am !! id ≫= fun l => ar_heap am !! l.

(** ** Persistence *)

Definition ruleFilePath (id : string) : string := str_map sanitize_byte id +:+ ".json".

Definition rule_file_le (p q : string * AlertRule) : Prop := String.le p.1 q.1.
#[global] Instance rule_file_le_dec p q : Decision (rule_file_le p q).
Proof. unfold rule_file_le. apply _. Defined.

(** The files that decode, by name. *)
Definition loadFromDisk (am : AlertManager) : AlertManager :=
  foldl (fun am p => if HasSuffix p.1 ".json" then insert_rule am p.2 else am) am (merge_sort rule_file_le (map_to_list (ar_files am))).
Definition newAlertManager (files : gmap string AlertRule) (webhook : string) : AlertManager :=
  loadFromDisk (MkAlerts ∅ ∅ 0 files webhook false).

Definition saveRule (r : AlertRule) (w : save_outcome) (am : AlertManager) : res unit * AlertManager :=
  let path := ruleFilePath (ar_ID r) in
  match w with
  | Saved => (Ok tt, set_rule_files (<[path := r]> (ar_files am)) am)
  | SaveRefused m => (Err m, am)
  | SaveCut m => (Err m, set_rule_files (delete path (ar_files am)) am)
  end.
Definition deleteRuleFile (id : string) (am : AlertManager) : AlertManager :=
  set_rule_files (delete (ruleFilePath id) (ar_files am)) am.

(** ** Rules *)

Definition addRule (r : AlertRule) (now : Z) (w : save_outcome) (am : AlertManager) : res AlertRule * AlertManager :=
  if ar_ID r =s "" then (Err "id is required", am)
  else if ar_Name r =s "" then (Err "name is required", am)
  else
    let r := with_defaults r (if ar_Severity r =s "" then AlertWarning else ar_Severity r) (if ar_CooldownSec r <? 30 then 300 else ar_CooldownSec r) now in
    match rules am !! ar_ID r with
    | Some _ => (Err ("rule " +:+ ar_ID r +:+ " already exists"), am)
    | None => let '(e, am) := saveRule r w (insert_rule am r) in (let! _ := e in Ok r, am)
    end.

Definition removeRule (id : string) (am : AlertManager) : res unit * AlertManager :=
  match rules am !! id with
  | None => (Err ("rule " +:+ id +:+ " not found"), am)
  | Some _ => (Ok tt, deleteRuleFile id (set_rules (delete id (rules am)) am))
  end.

Section Alerts.
Context `{!GoRuntime, !TimeText}.

(** In an order of the map's iteration. *)
Definition listRules (am : AlertManager) : list AlertSummary :=
  (fun r => MkAlertSummary (ar_ID r) (ar_Name r) (ar_Type r) (ar_Severity r) (ar_Enabled r) (ar_FireCount r)
              (if time_is_zero (ar_LastFired r) then "" else format_rfc3339 (ar_LastFired r)))
    <$> omap (fun p => ar_heap am !! p.2) (map_to_list (rules am)).

(** ** Notifications *)

(** The network: the host of a URL, the resolver, and the status of a POST. *)
Record Wire : Type := MkWire {
  url_hostname : string -> res string; LookupIP : string -> option (list IP); ip_string : IP -> string; post : string -> AlertEvent -> res Z;
}.
Definition accepts (n : Wire) (url : string) : res unit := validateWebhookURL (url_hostname n) (LookupIP n) (ip_string n) url.

(** The answer, and the POSTs that were made. *)
Definition dispatch (n : Wire) (event : AlertEvent) (rule : AlertRule) (am : AlertManager) : res unit * list (string * AlertEvent) :=
  let url := if ar_WebhookURL rule =s "" then webhookURL am else ar_WebhookURL rule in
  if url =s "" then (Ok tt, [])
  else match accepts n url with
       | Err e => (Err ("webhook URL rejected: " +:+ e), [])
       | Ok _ =>
           (match post n url event with
            | Err e => Err ("webhook POST: " +:+ e)
            | Ok status => if 400 <=? status then Err ("webhook returned " +:+ pretty status) else Ok tt
            end, [(url, event)])
       end.

Definition test_event (rule : AlertRule) (now : Z) : AlertEvent :=
  MkAlert (ar_ID rule) (ar_Name rule) (ar_Type rule) (ar_Severity rule) ("TEST ALERT: rule '" +:+ ar_Name rule +:+ "' fired manually")
    f64_zero f64_zero "" (format_rfc3339 now).

Definition testRule (id : string) (now : Z) (n : Wire) (am : AlertManager) : res AlertEvent * list (string * AlertEvent) :=
  match get_rule am id with
  | None => (Err ("rule " +:+ id +:+ " not found"), [])
  | Some rule =>
      let event := test_event rule now in
      let '(r, posts) := dispatch n event rule am in
      (match r with Err e => Err ("dispatch failed: " +:+ e) | Ok _ => Ok event end, posts)
  end.

(** ** The watcher *)

Definition in_cooldown (r : AlertRule) (now : Z) : bool :=
  negb (time_is_zero (ar_LastFired r)) && (time_sub now (ar_LastFired r) <? wrap64 (ar_CooldownSec r * second)).
Definition due_rules (now : Z) (am : AlertManager) : list nat :=
  omap (fun p => ar_heap am !! p.2 ≫= fun r => if negb (ar_Enabled r) || in_cooldown r now then None else Some p.2) (map_to_list (rules am)).

(** What [evaluateRule] fires: a message and a value.  [None] for the manager: there is none. *)
Definition evaluateRule (r : AlertRule) (hm : option HealthManager) : option (string * float64) :=
  if (ar_Type r =s AlertContainerDown) && (ar_ContainerID r <>s "") then
    match hm with
    | None => None
    | Some hm =>
        match getHealthStatus hm (ar_ContainerID r) with
        | Err _ => Some ("container not found or no health check", f64_of_Z 1)
        | Ok hc =>
            if hc_LastStatus hc =s "unhealthy"
            then Some ("container " +:+ ar_ContainerID r +:+ " is unhealthy: " +:+ hc_LastError hc, f64_of_Z (hc_ConsecutiveFailures hc))
            else None
        end
    end
  else None.

Definition alert_event (r : AlertRule) (message : string) (value : float64) (now : Z) : AlertEvent :=
  MkAlert (ar_ID r) (ar_Name r) (ar_Type r) (ar_Severity r) message value (ar_Threshold r) (ar_NodeID r) (format_rfc3339 now).

(** What [fireAlert] does under the lock, after the notification. *)
Definition fired (l : nat) (r : AlertRule) (now : Z) (w : save_outcome) (am : AlertManager) : AlertManager :=
  let r := with_fired r now (wrap64 (ar_FireCount r + 1)) in (saveRule r w (put_rule l r am)).2.

(** ** Tools *)

Definition rule_of_args (args : object) : AlertRule :=
  MkRule (argString args "id") (argString args "name") (argString args "type") (argString args "severity") (argFloat args "threshold" f64_zero)
    (argString args "container_id") (argString args "node_id") (argString args "webhook_url") (argInt args "cooldown_sec" 300) false time_zero time_zero 0.

Definition handleAlertRuleAdd (args : object) (now : Z) (w : save_outcome) (am : AlertManager) : tool_result object * AlertManager :=
  let '(r, am) := addRule (rule_of_args args) now w am in
  (of_res r (fun r => [("id", VStr (ar_ID r)); ("name", VStr (ar_Name r)); ("type", VStr (ar_Type r)); ("status", VStr "configured")]), am).

Definition handleAlertRuleRemove (args : object) (am : AlertManager) : tool_result object * AlertManager :=
  let id := argString args "id" in
  if id =s "" then (errResult "id is required", am)
  else let '(r, am) := removeRule id am in (of_res r (fun _ => [("id", VStr id); ("status", VStr "removed")]), am).

Definition handleAlertList (am : AlertManager) : tool_result (list AlertSummary) := okResult (listRules am).

Definition handleAlertTest (args : object) (now : Z) (n : Wire) (am : AlertManager) : tool_result AlertEvent * list (string * AlertEvent) :=
  let id := argString args "id" in
  if id =s "" then (errResult "id is required", [])
  else let '(r, posts) := testRule id now n am in (of_res r (fun e => e), posts).

(** ** The watcher and the tools, interleaved *)

(** What the watcher has left to do with a rule: evaluate it, notify, record. *)
Inductive turn : Type :=
  | TEval (l : nat)
  | TNotify (l : nat) (message : string) (value : float64)
  | TRecord (l : nat).

Inductive event : Type :=
  | EFired (l : nat) (r : AlertRule) (at_ : Z)
  | EPost (n : Wire) (url : string) (e : AlertEvent).

(** The log is newest first. *)
Record world : Type := MkWorld { w_am : AlertManager; w_queue : list turn; w_log : list event; w_clock : Z }.

Inductive action : Type :=
  | AStart
  | ATick (now : Z)
  | AEval (hm : option HealthManager)
  | ANotify (now : Z) (n : Wire)
  | ARecord (now : Z) (w : save_outcome)
  | AAdd (args : object) (now : Z) (w : save_outcome)
  | ARemove (args : object)
  | ATest (args : object) (now : Z) (n : Wire).

Definition StartWatcher (am : AlertManager) : AlertManager := MkAlerts (rules am) (ar_heap am) (ar_next am) (ar_files am) (webhookURL am) true.

Definition posted (n : Wire) (posts : list (string * AlertEvent)) : list event := (fun p => EPost n p.1 p.2) <$> posts.

Definition act (a : action) (x : world) : option world :=
  let am := w_am x in
  match a, w_queue x with
  | AStart, q => Some (MkWorld (StartWatcher am) q (w_log x) (w_clock x))
  | ATick now, [] =>
      if am_running am && (w_clock x <=? now) then Some (MkWorld am (TEval <$> due_rules now am) (w_log x) now) else None
  | AEval hm, TEval l :: q =>
      ar_heap am !! l ≫= fun r =>
      Some (MkWorld am (match evaluateRule r hm with Some (m, v) => TNotify l m v :: q | None => q end) (w_log x) (w_clock x))
  | ANotify now n, TNotify l m v :: q =>
      ar_heap am !! l ≫= fun r =>
      if w_clock x <=? now
      then Some (MkWorld am (TRecord l :: q) (posted n (dispatch n (alert_event r m v now) r am).2 ++ w_log x) now)
      else None
  | ARecord now w, TRecord l :: q =>
      ar_heap am !! l ≫= fun r =>
      if w_clock x <=? now then Some (MkWorld (fired l r now w am) q (EFired l r now :: w_log x) now) else None
  | AAdd args now w, q =>
      if w_clock x <=? now then Some (MkWorld (handleAlertRuleAdd args now w am).2 q (w_log x) now) else None
  | ARemove args, q => Some (MkWorld (handleAlertRuleRemove args am).2 q (w_log x) (w_clock x))
  | ATest args now n, q =>
      if w_clock x <=? now then Some (MkWorld am q (posted n (handleAlertTest args now n am).2 ++ w_log x) now) else None
  | _, _ => None
  end.

Fixpoint run (acts : list action) (x : world) : option world :=
  match acts with [] => Some x | a :: acts => act a x ≫= run acts end.

Definition boot (files : gmap string AlertRule) (webhook : string) (now : Z) : world := MkWorld (newAlertManager files webhook) [] [] now.

End Alerts.

(** ** What stays true *)

Section Invariant.
Context `{!GoRuntime, !TimeText}.

Definition at_rule (t : turn) : nat := match t with TEval l | TNotify l _ _ | TRecord l => l end.

Definition same_rule (r r' : AlertRule) : Prop := r' = with_fired r (ar_LastFired r') (ar_FireCount r').

(** A rule that can fire. *)
Definition watched (r : AlertRule) : Prop := ar_Type r = AlertContainerDown /\ ar_ContainerID r <> "".

Definition turn_ok (hp : gmap nat AlertRule) (t : turn) : Prop :=
  exists r, hp !! at_rule t = Some r /\ ar_Enabled r = true /\ match t with TEval _ => True | _ => watched r end.

(** The cooldown of the rule fits into 64 bits as a number of nanoseconds. *)
Definition bounded (r : AlertRule) : Prop := 0 <= ar_CooldownSec r <= 9223372036.

(** A rule fires again only when its cooldown is over. *)
Fixpoint spaced (log : list event) : Prop :=
  match log with
  | [] => True
  | EFired l r t :: log =>
      (forall r' t', EFired l r' t' ∈ log -> bounded r -> t' + ar_CooldownSec r * second <= t) /\ spaced log
  | _ :: log => spaced log
  end.

Definition steady_rules (am : AlertManager) : Prop :=
  (forall id l, rules am !! id = Some l -> exists r, ar_heap am !! l = Some r /\ ar_ID r = id) /\
  (forall l, is_Some (ar_heap am !! l) -> (l < ar_next am)%nat) /\
  map_Forall (fun _ (r : AlertRule) => 30 <= ar_CooldownSec r) (ar_heap am) /\ map_Forall (fun _ (r : AlertRule) => 30 <= ar_CooldownSec r) (ar_files am).

Definition fired_ok (x : world) (l : nat) (r : AlertRule) (t : Z) : Prop :=
  0 < t <= w_clock x /\ ar_Enabled r = true /\ watched r /\
  (l ∈ (at_rule <$> w_queue x) -> bounded r -> t + ar_CooldownSec r * second <= w_clock x) /\
  exists r2, ar_heap (w_am x) !! l = Some r2 /\ same_rule r r2 /\ t <= ar_LastFired r2.

Record steady (x : world) : Prop := {
  st_rules : steady_rules (w_am x);
  st_turns : Forall (turn_ok (ar_heap (w_am x))) (w_queue x);
  st_distinct : NoDup (at_rule <$> w_queue x);
  st_fired : forall l r t, EFired l r t ∈ w_log x -> fired_ok x l r t;
  st_posts : forall n url e, EPost n url e ∈ w_log x -> accepts n url = Ok tt;
  st_spaced : spaced (w_log x);
  st_clock : 0 < w_clock x;
}.

(** *** Steps of the manager *)

(** No rule changes but at [l], where only the state of firing does. *)
Definition grown (am am' : AlertManager) : Prop :=
  steady_rules am' /\ forall l r, ar_heap am !! l = Some r -> ar_heap am' !! l = Some r.

Lemma rules_grown_refl am : steady_rules am -> grown am am.
Proof. by split. Qed.

Lemma save_rules r w am : 30 <= ar_CooldownSec r -> steady_rules am -> steady_rules (saveRule r w am).2.
Proof.
  intros Hr (H1 & H2 & H3 & H4). destruct w; refine (conj H1 (conj H2 (conj H3 _))); [by apply map_Forall_insert_2|done|by apply map_Forall_delete].
Qed.

Lemma save_heap r w am : ar_heap (saveRule r w am).2 = ar_heap am.
Proof. by destruct w. Qed.

Lemma insert_rules am r : 30 <= ar_CooldownSec r -> steady_rules am -> steady_rules (insert_rule am r).
Proof.
  intros Hr (H1 & H2 & H3 & H4). assert (Hfresh : ar_heap am !! ar_next am = None).
  { destruct (ar_heap am !! ar_next am) eqn:E; [|done]. specialize (H2 (ar_next am) (mk_is_Some _ _ E)). lia. }
  refine (conj _ (conj _ (conj _ H4))); cbn.
  - intros id l. destruct (decide (id = ar_ID r)) as [->|Hne].
    + rewrite lookup_insert_eq. intros [= <-]. exists r. by rewrite lookup_insert_eq.
    + rewrite lookup_insert_ne by done. intros (i & Hi & Hid)%H1. exists i. rewrite lookup_insert_ne; [done|]. intros <-. by rewrite Hfresh in Hi.
  - intros l. destruct (decide (l = ar_next am)) as [->|Hne]; [lia|]. rewrite lookup_insert_ne by done. intros Hl%H2. lia.
  - by apply map_Forall_insert_2.
Qed.

Lemma insert_grown am r : 30 <= ar_CooldownSec r -> steady_rules am -> grown am (insert_rule am r).
Proof.
  intros Hr Hok. split; [by apply insert_rules|]. intros l i Hi. cbn. destruct Hok as (_ & H2 & _).
  rewrite lookup_insert_ne; [done|]. pose proof (H2 l (mk_is_Some _ _ Hi)). lia.
Qed.

Lemma add_grown r now w am : steady_rules am -> grown am (addRule r now w am).2.
Proof.
  intros Hok. unfold addRule. do 2 (case_bool_decide; [by apply rules_grown_refl|]). cbv zeta. set (r' := with_defaults _ _ _ _).
  assert (Hr : 30 <= ar_CooldownSec r') by (cbn; destruct (Z.ltb_spec (ar_CooldownSec r) 30); lia).
  destruct (rules am !! ar_ID r'); [by apply rules_grown_refl|]. destruct (insert_grown am r' Hr Hok) as [Hok' Hg].
  pose proof (save_rules r' w _ Hr Hok') as Hs. pose proof (save_heap r' w (insert_rule am r')) as Hh.
  destruct (saveRule r' w (insert_rule am r')) as [e am']. cbn [snd] in *. split; [done|]. rewrite Hh. exact Hg.
Qed.

Lemma remove_grown id am : steady_rules am -> grown am (removeRule id am).2.
Proof.
  intros Hok. unfold removeRule. destruct (rules am !! id); [|by apply rules_grown_refl]. split; [|done]. destruct Hok as (H1 & H2 & H3 & H4).
  refine (conj _ (conj H2 (conj H3 _))); cbn; [|by apply map_Forall_delete]. intros k l. rewrite lookup_delete_Some. intros [_ Hk]. by apply H1.
Qed.

Lemma boot_rules files webhook : map_Forall (fun _ (r : AlertRule) => 30 <= ar_CooldownSec r) files -> steady_rules (newAlertManager files webhook).
Proof.
  intros Hf. unfold newAlertManager, loadFromDisk. cbn [ar_files].
  assert (Hl : Forall (fun p : string * AlertRule => 30 <= ar_CooldownSec p.2) (merge_sort rule_file_le (map_to_list files))).
  { rewrite merge_sort_Permutation. apply Forall_forall. intros [k r] Hin%elem_of_map_to_list. exact (Hf k r Hin). }
  assert (Hg : forall l am, Forall (fun p : string * AlertRule => 30 <= ar_CooldownSec p.2) l -> steady_rules am ->
    steady_rules (foldl (fun am p => if HasSuffix p.1 ".json" then insert_rule am p.2 else am) am l)).
  { clear. induction l as [|p l IH]; intros am Hl Hok; [done|]. apply Forall_cons in Hl as [Hp Hl]. cbn. apply IH; [done|].
    destruct (HasSuffix p.1 ".json"); [by apply insert_rules|done]. }
  apply Hg; [done|]. refine (conj _ (conj _ (conj (map_Forall_empty _) Hf))); cbn; [intros id l Hid; by rewrite lookup_empty in Hid|intros l [? Hx]; by rewrite lookup_empty in Hx].
Qed.

Lemma posts_accepted n e r am url e' : (url, e') ∈ (dispatch n e r am).2 -> accepts n url = Ok tt.
Proof.
  unfold dispatch. cbv zeta. set (u := if ar_WebhookURL r =s "" then webhookURL am else ar_WebhookURL r). case_bool_decide; [by intros ?%not_elem_of_nil|].
  destruct (accepts n u) as [[]|] eqn:E; [|by intros ?%not_elem_of_nil]. by intros [= -> ->]%list_elem_of_singleton.
Qed.

(** Only containers are watched: rules of the other types fire nothing. *)
Lemma evaluate_watched r hm m v : evaluateRule r hm = Some (m, v) -> watched r.
Proof. unfold evaluateRule. case_bool_decide; [|done]. case_bool_decide; [done|]. by split. Qed.

Lemma evaluate_exact r hm : watched r ->
  is_Some (evaluateRule r (Some hm)) <-> (get_check hm (ar_ContainerID r) = None \/ exists hc, get_check hm (ar_ContainerID r) = Some hc /\ hc_LastStatus hc = "unhealthy").
Proof.
  intros [Ht Hc]. unfold evaluateRule, getHealthStatus. rewrite bool_decide_true, bool_decide_false by done. cbn [andb negb].
  destruct (get_check hm (ar_ContainerID r)) as [hc|].
  - case_bool_decide as Hs; [split; [eauto|by intros; eexists]|]. split; [by intros [? ?]|]. intros [?|(i & [= <-] & Hi)]; done.
  - split; [by left|eauto].
Qed.

Lemma same_rule_fields r r' : same_rule r r' ->
  ar_ID r' = ar_ID r /\ ar_Enabled r' = ar_Enabled r /\ ar_Type r' = ar_Type r /\ ar_ContainerID r' = ar_ContainerID r /\ ar_CooldownSec r' = ar_CooldownSec r.
Proof. unfold same_rule. intros H'. rewrite H'. done. Qed.

(** *** Every action keeps the invariant *)

Lemma posted_event n posts l r t : EFired l r t ∉ posted n posts.
Proof. by intros (p & [=] & _)%list_elem_of_fmap. Qed.

Lemma posted_posts n posts n' url e : EPost n' url e ∈ posted n posts -> n' = n /\ (url, e) ∈ posts.
Proof. intros ([u v] & [= -> -> ->] & Hin)%list_elem_of_fmap. done. Qed.

Lemma spaced_posted n posts log : spaced (posted n posts ++ log) <-> spaced log.
Proof. by induction posts as [|p posts IH]. Qed.

(** The queue loses turns or replaces its first one by another of the same rule, the log
    gets posts, time passes, rules are added. *)
Lemma steady_later x am' q' n posts c : steady x -> grown (w_am x) am' -> w_clock x <= c ->
  Forall (turn_ok (ar_heap (w_am x))) q' -> NoDup (at_rule <$> q') -> (forall l, l ∈ (at_rule <$> q') -> l ∈ (at_rule <$> w_queue x)) ->
  (forall url e, (url, e) ∈ posts -> accepts n url = Ok tt) ->
  steady (MkWorld am' q' (posted n posts ++ w_log x) c).
Proof.
  intros Hx [Hok Hh] Hc Hq Hnd Hsub Hp. destruct Hx. split; cbn; try done.
  - eapply Forall_impl; [exact Hq|]. intros t (r & Hr & Hrest). exists r. by split; [apply Hh|].
  - intros l r t [Hin|Hin]%elem_of_app; [by apply posted_event in Hin|]. destruct (st_fired0 l r t Hin) as (Ht & He & Hw & Hcool & r2 & Hr2 & Hs & Hl).
    split; [cbn; lia|]. split; [done|]. split; [done|]. split; [|exists r2; split; [by apply Hh|done]].
    cbn. intros Hl0 Hb. specialize (Hcool (Hsub _ Hl0) Hb). lia.
  - intros n' url e [Hin|Hin]%elem_of_app; [|by eapply st_posts0]. apply posted_posts in Hin as [-> Hin]. by eapply Hp.
  - by apply spaced_posted.
  - lia.
Qed.

Definition no_wire : Wire := MkWire (fun _ => Err "") (fun _ => None) (fun _ => "") (fun _ _ => Err "").

Lemma steady_quiet x am' q' c : steady x -> grown (w_am x) am' -> w_clock x <= c ->
  Forall (turn_ok (ar_heap (w_am x))) q' -> NoDup (at_rule <$> q') -> (forall l, l ∈ (at_rule <$> q') -> l ∈ (at_rule <$> w_queue x)) ->
  steady (MkWorld am' q' (w_log x) c).
Proof. intros. apply (steady_later x am' q' no_wire [] c); try done. by intros ? ? ?%not_elem_of_nil. Qed.

Lemma due_rule_elem now am l : l ∈ due_rules now am <->
  exists id r, rules am !! id = Some l /\ ar_heap am !! l = Some r /\ ar_Enabled r = true /\ in_cooldown r now = false.
Proof.
  unfold due_rules. rewrite list_elem_of_omap. split.
  - intros ([id k] & Hin%elem_of_map_to_list & Hk). cbn [snd] in Hk. destruct (ar_heap am !! k) as [r|] eqn:Hr; [|done]. cbn [mbind option_bind] in Hk.
    destruct (ar_Enabled r) eqn:He; [|done]. destruct (in_cooldown r now) eqn:Hc; [done|]. injection Hk as <-. eauto 10.
  - intros (id & r & Hid & Hr & He & Hc). exists (id, l). split; [by apply elem_of_map_to_list|]. cbn [snd]. rewrite Hr. cbn [mbind option_bind]. by rewrite He, Hc.
Qed.

Lemma due_rules_distinct now am : steady_rules am -> NoDup (due_rules now am).
Proof.
  intros (H1 & _). apply NoDup_omap_on; [|apply NoDup_map_to_list]. intros [id k] [id' k'] l Hin%elem_of_map_to_list Hin'%elem_of_map_to_list He He'. cbn [snd] in *.
  assert (Hk : forall m, (ar_heap am !! m ≫= fun r => if negb (ar_Enabled r) || in_cooldown r now then None else Some m) = Some l -> m = l).
  { intros m Hm. destruct (ar_heap am !! m); [|done]. cbn [mbind option_bind] in Hm. destruct (_ || _); [done|]. by injection Hm. }
  apply Hk in He as ->. apply Hk in He' as ->. destruct (H1 _ _ Hin) as (r & Hr & <-), (H1 _ _ Hin') as (r' & Hr' & <-). rewrite Hr in Hr'. by injection Hr' as <-.
Qed.

(** The cooldown is over at [now] when the rule fired last at [ar_LastFired r]. *)
Lemma cooldown_over r now t : bounded r -> 0 < t <= ar_LastFired r -> in_cooldown r now = false -> t + ar_CooldownSec r * second <= now.
Proof.
  unfold bounded, in_cooldown, time_is_zero, time_sub, int_min, int_max, second. intros Hb Ht. destruct (Z.eqb_spec (ar_LastFired r) 0); [lia|]. cbn [negb andb].
  rewrite wrap64_id by (unfold int_min, int_max; lia). intros Hlt%Z.ltb_ge. lia.
Qed.

Lemma alert_tick_steady now x y : act (ATick now) x = Some y -> steady x -> steady y.
Proof.
  cbn [act]. destruct (w_queue x) eqn:Hq; [|done]. destruct (am_running (w_am x)); [|done]. destruct (Z.leb_spec (w_clock x) now) as [Hc|]; [|done].
  intros [= <-] Hs. destruct Hs as [Hr _ _ Hf Hp Hsp Hcl]. split; try done; cbn [w_am w_queue w_log w_clock]; [..|lia].
  - apply Forall_fmap, Forall_forall. intros l (id & r & _ & Hl & He & _)%due_rule_elem. by exists r.
  - rewrite <- list_fmap_compose. change (at_rule ∘ TEval) with (@id nat). rewrite list_fmap_id. by apply due_rules_distinct.
  - intros l r t Hin. destruct (Hf l r t Hin) as (Ht & He & Hw & _ & r2 & Hr2 & Hsame & Hl). split; [cbn; lia|]. split; [done|]. split; [done|].
    split; [|by exists r2]. cbn. rewrite <- list_fmap_compose. change (at_rule ∘ TEval) with (@id nat). rewrite list_fmap_id.
    intros (id & r3 & _ & Hr3 & _ & Hcool)%due_rule_elem Hb. rewrite Hr2 in Hr3. injection Hr3 as <-.
    destruct (same_rule_fields _ _ Hsame) as (_ & _ & _ & _ & Hsec). rewrite <- Hsec. apply cooldown_over; [|lia|done]. unfold bounded. by rewrite Hsec.
Qed.

Lemma record_steady now w x y : act (ARecord now w) x = Some y -> steady x -> steady y.
Proof.
  cbn [act]. destruct (w_queue x) as [|[l|l m v|l] q] eqn:Hq; try done. destruct (ar_heap (w_am x) !! l) as [r|] eqn:Hl; [|done]. cbn [mbind option_bind].
  destruct (Z.leb_spec (w_clock x) now) as [Hc|]; [|done]. intros [= <-] Hs. destruct Hs as [Hr Ht Hd Hf Hp Hsp Hcl]. rewrite Hq in Ht, Hd.
  apply Forall_cons in Ht as [(r0 & Hr0 & Hen & Hw) Ht]. cbn [at_rule] in Hr0. rewrite Hl in Hr0. injection Hr0 as <-. cbn [fmap list_fmap at_rule] in Hd. apply NoDup_cons in Hd as [Hnew Hd].
  unfold fired. set (r1 := with_fired r now (wrap64 (ar_FireCount r + 1))). set (am1 := put_rule l r1 (w_am x)).
  pose proof Hr as (H1 & H2 & H3 & H4). assert (Hr1 : 30 <= ar_CooldownSec r1) by exact (H3 l r Hl).
  assert (Hput : steady_rules am1).
  { refine (conj _ (conj _ (conj _ H4))); cbn.
    - intros id k (i & Hi & Hid)%H1. destruct (decide (k = l)) as [->|Hne]; [|rewrite lookup_insert_ne by done; eauto].
      rewrite lookup_insert_eq. exists r1. split; [done|]. rewrite Hl in Hi. injection Hi as <-. exact Hid.
    - intros k. destruct (decide (k = l)) as [->|Hne]; [intros _; apply H2; eauto|]. rewrite lookup_insert_ne by done. apply H2.
    - by apply map_Forall_insert_2. }
  split; cbn [w_am w_queue w_log w_clock]; [by apply save_rules|..|lia].
  - rewrite save_heap. eapply Forall_impl; [exact Ht|]. intros t (i & Hi & Hrest). cbn. destruct (decide (at_rule t = l)) as [He|Hne].
    + exists r1. rewrite He, lookup_insert_eq. split; [done|]. rewrite He, Hl in Hi. by injection Hi as <-.
    + exists i. by rewrite lookup_insert_ne.
  - done.
  - intros k r2 t [[= -> -> ->]|Hin]%elem_of_cons.
    + split; [cbn; lia|]. split; [done|]. split; [done|]. split; [by intros ?|]. exists r1. cbn. rewrite save_heap. cbn. by rewrite lookup_insert_eq.
    + destruct (Hf k r2 t Hin) as (Hlt & He & Hwa & Hcool & r3 & Hr3 & Hsame & Hlast). split; [cbn; lia|]. split; [done|]. split; [done|]. split.
      { cbn. intros Hk Hb. rewrite Hq in Hcool. specialize (Hcool (list_elem_of_further _ _ _ Hk) Hb). lia. }
      cbn. rewrite save_heap. cbn. destruct (decide (k = l)) as [->|Hne].
      * exists r1. rewrite lookup_insert_eq. rewrite Hl in Hr3. injection Hr3 as <-. split; [done|]. split; [|cbn; lia]. unfold same_rule, r1 in *. rewrite Hsame. reflexivity.
      * exists r3. by rewrite lookup_insert_ne.
  - intros n url e [Hin|Hin]%elem_of_cons; [done|by eapply Hp].
  - cbn. split; [|done]. intros r2 t Hin Hb. destruct (Hf l r2 t Hin) as (_ & _ & _ & Hcool & r3 & Hr3 & Hsame & _). rewrite Hl in Hr3. injection Hr3 as <-.
    rewrite Hq in Hcool. destruct (same_rule_fields _ _ Hsame) as (_ & _ & _ & _ & Hsec). rewrite Hsec.
    specialize (Hcool (list_elem_of_here _ _)). unfold bounded in *. rewrite Hsec in Hb. specialize (Hcool Hb). lia.
Qed.

Lemma alert_act_steady a x y : act a x = Some y -> steady x -> steady y.
Proof.
  intros Ha Hs. pose proof (st_rules x Hs) as Hrules. pose proof (st_turns x Hs) as Hturns. pose proof (st_distinct x Hs) as Hdist. destruct a.
  - assert (y = MkWorld (StartWatcher (w_am x)) (w_queue x) (w_log x) (w_clock x)) as -> by (cbn [act] in Ha; by destruct (w_queue x); injection Ha as <-).
    destruct Hs. by split.
  - by eapply alert_tick_steady.
  - cbn [act] in Ha. destruct (w_queue x) as [|[l|l m v|l] q] eqn:Hq; try done. destruct (ar_heap (w_am x) !! l) as [r|] eqn:Hl; [|done]. injection Ha as <-.
    apply Forall_cons in Hturns as [(r0 & Hr0 & Hen & _) Ht]. cbn [at_rule] in Hr0. rewrite Hl in Hr0. injection Hr0 as <-.
    destruct (evaluateRule r hm) as [[m v]|] eqn:He; apply steady_quiet; rewrite ?Hq; try done; try by apply rules_grown_refl.
    + constructor; [|done]. exists r. split; [done|]. split; [done|]. by eapply evaluate_watched.
    + by apply NoDup_cons in Hdist as [_ ?].
    + intros k Hk. by apply list_elem_of_further.
  - cbn [act] in Ha. destruct (w_queue x) as [|[l|l m v|l] q] eqn:Hq; try done. destruct (ar_heap (w_am x) !! l) as [r|] eqn:Hl; [|done]. cbn [mbind option_bind] in Ha.
    destruct (Z.leb_spec (w_clock x) now); [|done]. injection Ha as <-. apply Forall_cons in Hturns as [(r0 & Hr0 & Hen & Hw) Ht].
    apply steady_later; rewrite ?Hq; try done; [|by intros ? ? ?%posts_accepted]. constructor; [|done]. by exists r0.
  - by eapply record_steady.
  - assert (Hy : w_clock x <= now /\ y = MkWorld (handleAlertRuleAdd args now w (w_am x)).2 (w_queue x) (w_log x) now).
    { cbn [act] in Ha. by destruct (w_queue x), (Z.leb_spec (w_clock x) now); try done; injection Ha as <-. }
    destruct Hy as [Hc ->]. apply steady_quiet; try done. unfold handleAlertRuleAdd. pose proof (add_grown (rule_of_args args) now w _ Hrules) as Hg. by destruct (addRule _ _ _ _).
  - assert (y = MkWorld (handleAlertRuleRemove args (w_am x)).2 (w_queue x) (w_log x) (w_clock x)) as -> by (cbn [act] in Ha; by destruct (w_queue x); injection Ha as <-).
    apply steady_quiet; try done. unfold handleAlertRuleRemove. cbv zeta. case_bool_decide; [by apply rules_grown_refl|].
    pose proof (remove_grown (argString args "id") _ Hrules) as Hg. by destruct (removeRule _ _).
  - assert (Hy : w_clock x <= now /\ y = MkWorld (w_am x) (w_queue x) (posted n (handleAlertTest args now n (w_am x)).2 ++ w_log x) now).
    { cbn [act] in Ha. by destruct (w_queue x), (Z.leb_spec (w_clock x) now); try done; injection Ha as <-. }
    destruct Hy as [Hc ->]. apply steady_later; try done. intros url e. unfold handleAlertTest. cbv zeta. case_bool_decide; [by intros ?%not_elem_of_nil|].
    unfold testRule. destruct (get_rule _ _) as [r|]; [|by intros ?%not_elem_of_nil]. pose proof (posts_accepted n (test_event r now) r (w_am x) url e) as Hacc.
    cbv zeta. destruct (dispatch n (test_event r now) r (w_am x)) as [a posts]. exact Hacc.
Qed.

Lemma alert_run_steady acts : forall x y, run acts x = Some y -> steady x -> steady y.
Proof.
  induction acts as [|a acts IH]; intros x y; cbn [run]; [by intros [= <-]|]. destruct (act a x) as [x'|] eqn:Ha; [|done]. cbn. intros Hr Hs.
  by eapply IH, alert_act_steady.
Qed.

Lemma alert_boot_steady files webhook now : 0 < now -> map_Forall (fun _ (r : AlertRule) => 30 <= ar_CooldownSec r) files -> steady (boot files webhook now).
Proof.
  intros Hn Hf. split; try done; cbn; first [by apply boot_rules|by intros ? ? ? ?%not_elem_of_nil|constructor].
Qed.

End Invariant.

(** ** Theorems *)

(** However the watcher and the tools interleave, whatever the containers' health, the
    network and the disk do: a rule fires only when it is enabled and watches a container,
    and not again before its cooldown of at least thirty seconds is over (unless the
    cooldown does not fit into 64 bits as nanoseconds); notifications, those of tests too, go
    only to addresses that the webhook validator accepts at that time. *)
Theorem alerts_respect_cooldown `{!GoRuntime, !TimeText} (files : gmap string AlertRule) (webhook : string) (now : Z) (acts : list action) (y : world)
    (Hnow : 0 < now) (Hfiles : map_Forall (fun _ (r : AlertRule) => 30 <= ar_CooldownSec r) files)
    (Hrun : run acts (boot files webhook now) = Some y) :
  (forall l r t, EFired l r t ∈ w_log y -> ar_Enabled r = true /\ watched r /\ exists r2, ar_heap (w_am y) !! l = Some r2 /\ same_rule r r2 /\ 30 <= ar_CooldownSec r) /\
  spaced (w_log y) /\
  (forall n url e, EPost n url e ∈ w_log y -> accepts n url = Ok tt) /\
  map_Forall (fun _ (r : AlertRule) => 30 <= ar_CooldownSec r) (ar_files (w_am y)).
Proof.
  pose proof (alert_run_steady _ _ _ Hrun (alert_boot_steady files webhook now Hnow Hfiles)) as Hs. pose proof (st_rules y Hs) as (_ & _ & Hcool & Hf).
  split; [|split; [exact (st_spaced y Hs)|split; [exact (st_posts y Hs)|exact Hf]]].
  intros l r t Hin. destruct (st_fired y Hs l r t Hin) as (_ & He & Hw & _ & r2 & Hr2 & Hsame & _). split; [done|]. split; [done|]. exists r2. split; [done|]. split; [done|].
  destruct (same_rule_fields _ _ Hsame) as (_ & _ & _ & _ & <-). exact (Hcool l r2 Hr2).
Qed.

#[local] Existing Instance demo_runtime.
#[local] Existing Instance demo_time.

Definition rule_args (id type container url : string) (cooldown : Z) : object :=
  [("id", VStr id); ("name", VStr "web down"); ("type", VStr type); ("container_id", VStr container); ("webhook_url", VStr url); ("cooldown_sec", VInt cooldown)].

Definition demo_wire (status : Z) : Wire :=
  MkWire (fun url => Ok (TrimPrefix url "https://")) (fun _ => None) (fun _ => "") (fun _ _ => Ok status).

(** The container is not watched by any health check. *)
Definition nothing_checked : option HealthManager := Some (newHealthManager ∅).

Definition demo_actions (cooldown : Z) : list action :=
  [AStart; AAdd (rule_args "r1" "container_down" "c1" "https://hooks.example" cooldown) 5 Saved; ATick 10; AEval nothing_checked;
   ANotify 11 (demo_wire 200); ARecord 12 Saved; ATick 13].

Lemma alerts_respect_cooldown_witness :
  match run (demo_actions 60) (boot ∅ "" 1) with
  | Some y =>
      (forall l r t, EFired l r t ∈ w_log y -> ar_Enabled r = true /\ watched r /\ exists r2, ar_heap (w_am y) !! l = Some r2 /\ same_rule r r2 /\ 30 <= ar_CooldownSec r) /\
      spaced (w_log y) /\
      (forall n url e, EPost n url e ∈ w_log y -> accepts n url = Ok tt) /\
      map_Forall (fun _ (r : AlertRule) => 30 <= ar_CooldownSec r) (ar_files (w_am y))
  | None => False
  end.
Proof.
  assert (Hrun : bool_decide (is_Some (run (demo_actions 60) (boot ∅ "" 1))) = true) by (vm_compute; reflexivity).
  destruct (run (demo_actions 60) (boot ∅ "" 1)) as [y|] eqn:E; [|discriminate Hrun].
  exact (alerts_respect_cooldown ∅ "" 1 (demo_actions 60) y (eq_refl : 0 < 1) (map_Forall_empty _) E).
Defined.

Definition fire_times (log : list event) : list Z := rev (omap (fun e => match e with EFired _ _ t => Some t | _ => None end) log).

(** A cooldown of 9223372037 seconds overflows: the rule fires at every tick. *)
Example long_cooldown_is_none :
  fire_times ∘ w_log <$> run (demo_actions 9223372037 ++ [AEval nothing_checked; ANotify 14 (demo_wire 200); ARecord 15 Saved]) (boot ∅ "" 1) = Some [12; 15].
Proof. vm_compute. reflexivity. Qed.

(** A rule that is removed while it fires is written to its file again, and is back after a
    restart. *)
Example removed_rule_comes_back :
  (fun y => (rules (w_am y) !! "r1", bool_decide (is_Some (rules (newAlertManager (ar_files (w_am y)) "") !! "r1")))) <$>
    run [AStart; AAdd (rule_args "r1" "container_down" "c1" "" 60) 5 Saved; ATick 10; AEval nothing_checked; ARemove [("id", VStr "r1")];
         ANotify 11 (demo_wire 200); ARecord 12 Saved] (boot ∅ "" 1) = Some (None, true).
Proof. vm_compute. reflexivity. Qed.

(** A notification that is not delivered counts as fired: it is not tried again before the
    cooldown is over. *)
Example undelivered_alert_counts :
  (fun y => (fire_times (w_log y), w_queue y)) <$>
    run [AStart; AAdd (rule_args "r1" "container_down" "c1" "https://hooks.example" 60) 5 Saved; ATick 10; AEval nothing_checked;
         ANotify 11 (demo_wire 503); ARecord 12 Saved; ATick 13] (boot ∅ "" 1) = Some ([12], []).
Proof. vm_compute. reflexivity. Qed.

(** Rules on processors, memory and disks, and of types that do not exist, are accepted and
    never fire, whatever the state of the cluster. *)
Example only_containers_fire :
  (forall hm r, ar_Type r <> AlertContainerDown -> evaluateRule r hm = None) /\
  is_ok (addRule (rule_of_args (rule_args "r" "cpu_high" "" "" 60)) 1 Saved (newAlertManager ∅ "")).1 = true /\
  is_ok (addRule (rule_of_args (rule_args "r" "container_dwon" "c1" "" 60)) 1 Saved (newAlertManager ∅ "")).1 = true.
Proof.
  split; [|split; vm_compute; reflexivity]. intros hm r Hr. destruct (evaluateRule r hm) as [[m v]|] eqn:E; [|done]. by apply evaluate_watched in E as [? _].
Qed.

(** A rule whose file cannot be written is reported as an error and is in force. *)
Example unsaved_rule_in_force :
  let '(r, am) := addRule (rule_of_args (rule_args "r1" "container_down" "c1" "" 60)) 1 (SaveRefused "disk full") (newAlertManager ∅ "") in
  is_ok r = false /\ length (due_rules 10 am) = 1%nat.
Proof. vm_compute. split; reflexivity. Qed.
