(* ===== verification/Rollout.v ===== *)
(** * Rolling deployment (mcp-server-go/deploy_rollout.go, validateImageRef of images.go)

    A rollout replaces the replicas of a service by containers of a new image, one by one
    or all at once, waiting for each new one to be healthy.  It works on the service that
    Scaling's manager holds and reads the checks of Health's; the backend also makes
    templates ([TemplateBackend]).

    The clock and the order of events while a replica is waited for are [wait_obs]: what
    each turn of the waiting loop finds, up to its deadline.  How long things took, which
    the result reports for people, is left out. *)
From S2P Require Import Prelude GoStrings GoValue Security Nodes Backend Scaling Health.
From Stdlib Require Import Ascii.

Open Scope string_scope.
Open Scope Z_scope.

(** ** Validation *)

Definition ref_rest (a : ascii) : bool := is_alnum a || char_in "._/:-@" a.
Definition imageRefPattern (s : string) : bool := match_ident is_alnum ref_rest 256 s.

Definition validateImageRef (ref : string) : res unit :=
  reject ref =s "" with "image reference is required" ;;
  reject 256 <? Z.of_nat (String.length ref) with "image reference too long (max 256 chars)" ;;
  reject negb (imageRefPattern ref) with "invalid image reference: only alphanumeric, '.', '_', '/', ':', '-', '@' allowed" ;;
  reject Contains ref ".." with "invalid image reference: '..' is not allowed" ;;
  Ok tt.

(** ** The backend *)

(** Making a template starts and stops nothing. *)
Class TemplateBackend (S : Type) `{!ContainerBackend S} : Type := { CreateTemplateFromImage : S -> string -> list Z -> res value * S }.
Class TemplateLaws (S : Type) `{!ContainerBackend S, !TemplateBackend S, !BackendLaws S} : Prop :=
  template_running : forall s image ports, running (CreateTemplateFromImage s image ports).2 = running s.

(** ** Data *)

Record RolloutStep : Type := MkStep { rs_Replica : Z; rs_Old : string; rs_New : string; rs_Status : string }.
Record RolloutResult : Type := MkRollout {
  rr_ServiceName : string; rr_NewImage : string; rr_Strategy : string; rr_TotalReplicas : Z;
  rr_Succeeded : Z; rr_Failed : Z; rr_Aborted : bool; rr_AbortReason : string; rr_History : list RolloutStep;
}.

Definition with_step (ok : bool) (st : RolloutStep) (r : RolloutResult) : RolloutResult :=
  MkRollout (rr_ServiceName r) (rr_NewImage r) (rr_Strategy r) (rr_TotalReplicas r)
    (if ok then rr_Succeeded r + 1 else rr_Succeeded r) (if ok then rr_Failed r else rr_Failed r + 1)
    (rr_Aborted r) (rr_AbortReason r) (rr_History r ++ [st]).
Definition aborted (reason : string) (r : RolloutResult) : RolloutResult :=
  MkRollout (rr_ServiceName r) (rr_NewImage r) (rr_Strategy r) (rr_TotalReplicas r) (rr_Succeeded r) (rr_Failed r)
    true reason (rr_History r).

(** A turn of the waiting loop: the context has ended, or the tick finds this manager. *)
Inductive wait_obs : Type := WCancelled | WTick (hm : HealthManager).

(** What happens around replica [i]: whether the context has ended before it, and the
    turns of the loop that waits for it. *)
Record replica_env : Type := MkReplicaEnv { e_cancelled : bool; e_wait : list wait_obs }.

(** [hm = nil] is [false]; the end of the list is the deadline. *)
Fixpoint wait_loop (id : string) (l : list wait_obs) : bool :=
  match l with
  | [] => false
  | WCancelled :: _ => false
  | WTick hm :: l =>
      match get_check hm id with
      | None => true
      | Some hc => if (hc_LastStatus hc =s "healthy") && (hc_ConsecutiveFailures hc =? 0) then true else wait_loop id l
      end
  end.
Definition waitForHealth (has_manager : bool) (id : string) (l : list wait_obs) : bool := if has_manager then wait_loop id l else true.

Definition as_string (v : value) : string := match v with VStr s => s | _ => "" end.
Definition two_keys (o : object) (k1 k2 : string) : string :=
  let s := as_string (obj_index o k1) in if s =s "" then as_string (obj_index o k2) else s.

Section Rollout.
Context {St : Type} `{!ContainerBackend St, !TemplateBackend St}.

Definition createReplacement (s : St) (svc : Service) (newImage : string) : res string * St :=
  let ports := if 0 <? sv_Port svc then [sv_Port svc] else [] in
  match CreateTemplateFromImage s newImage ports with
  | (Err e, s) => (Err ("failed to create template from new image: " +:+ e), s)
  | (Ok (VObj t), s) =>
      let tID := two_keys t "templateID" "id" in
      if tID =s "" then (Err "template creation did not return an ID", s)
      else match CreateSandbox s tID (sv_MemoryMB svc) (sv_CPUCount svc) [] [("service", VStr (sv_Name svc))] with
           | (Err e, s) => (Err ("failed to create new container: " +:+ e), s)
           | (Ok (VObj c), s) =>
               let cID := two_keys c "sandboxID" "id" in
               if cID =s "" then (Err "container creation did not return an ID", s) else (Ok cID, s)
           | (Ok _, s) => (Err "unexpected container creation response", s)
           end
  | (Ok _, s) => (Err "unexpected template creation response", s)
  end.

Context (has_manager : bool) (env : nat -> replica_env) (newImage : string) (abortOnFailure : bool) (waitSeconds : Z).

Definition step_of (i : nat) (old new status : string) : RolloutStep := MkStep (Z.of_nat i + 1) old new status.

(** The loop over the replicas from [i] on; [None] for the service when the context ended,
    and nothing is saved.  The list of containers is shared with the manager's service. *)
Fixpoint rolling (olds : list string) (i : nat) (svc : Service) (r : RolloutResult) (s : St) : bool * Service * RolloutResult * St :=
  match olds with
  | [] => (true, svc, r, s)
  | old :: olds =>
      if e_cancelled (env i) then (false, svc, aborted "context cancelled" r, s)
      else
        match createReplacement s svc newImage with
        | (Err e, s) =>
            let r := with_step false (step_of i old "" "failed") r in
            if abortOnFailure
            then (true, svc, aborted ("failed to create replacement for replica " +:+ pretty (Z.of_nat i + 1) +:+ ": " +:+ e) r, s)
            else rolling olds (S i) svc r s
        | (Ok new, s) =>
            if waitForHealth has_manager new (e_wait (env i))
            then let '(_, s) := KillSandbox s old in
                 rolling olds (S i) (with_containers svc (<[i := new]> (sv_ContainerIDs svc))) (with_step true (step_of i old new "healthy") r) s
            else
              let r := with_step false (step_of i old new "failed") r in
              let '(_, s) := KillSandbox s new in
              if abortOnFailure
              then (true, svc, aborted ("replica " +:+ pretty (Z.of_nat i + 1) +:+ " failed health check within " +:+ pretty waitSeconds +:+ "s") r, s)
              else rolling olds (S i) svc r s
        end
  end.

Fixpoint kill_all (ids : list string) (s : St) : St :=
  match ids with [] => s | id :: ids => kill_all ids (KillSandbox s id).2 end.

(** The first loop of the other strategy: the new containers, and whether all are healthy. *)
Fixpoint create_all (svc : Service) (olds : list string) (i : nat) (news : list string) (r : RolloutResult) (s : St)
  : bool * list string * RolloutResult * St :=
  match olds with
  | [] => (true, news, r, s)
  | old :: olds =>
      match createReplacement s svc newImage with
      | (Err e, s) => (false, news, aborted ("failed to create blue-green replica " +:+ pretty (Z.of_nat i + 1) +:+ ": " +:+ e) r, s)
      | (Ok new, s) =>
          let news := (news ++ [new])%list in
          if waitForHealth has_manager new (e_wait (env i))
          then create_all svc olds (S i) news (with_step true (step_of i old new "healthy") r) s
          else (false, news, with_step false (step_of i old new "failed") r, (KillSandbox s new).2)
      end
  end.

Definition blue_green (svc : Service) (r : RolloutResult) (s : St) : Service * RolloutResult * St :=
  let olds := sv_ContainerIDs svc in
  let '(allHealthy, news, r, s) := create_all svc olds 0 [] r s in
  if (allHealthy : bool) && (length news =? length olds)%nat
  then (with_containers svc news, r, kill_all olds s)
  else (svc, aborted (if rr_AbortReason r =s "" then "blue-green: not all replicas became healthy" else rr_AbortReason r) r, kill_all news s).

End Rollout.

Section Tool.
Context {St : Type} `{!GoRuntime, !ContainerBackend St, !TemplateBackend St}.

(** The checks: the strategy, the time to wait and the service. *)
Definition rollout_request (serviceName newImage strategy : string) (healthWaitSeconds : Z) (sm : ScaleManager) : res (string * Z * Service) :=
  reject serviceName =s "" with "service_name is required" ;;
  reject newImage =s "" with "new_image is required" ;;
  let! _ := match validateImageRef newImage with Err e => Err ("invalid new_image: " +:+ e) | Ok u => Ok u end in
  let strategy := if strategy =s "" then "rolling" else strategy in
  reject (strategy <>s "rolling") && (strategy <>s "blue-green") with "strategy must be 'rolling' or 'blue-green', got: " +:+ strategy ;;
  let wait := if healthWaitSeconds <=? 0 then 60 else healthWaitSeconds in
  reject 600 <? wait with "health_wait_seconds must be <= 600 (10 min)" ;;
  match getService sm serviceName with
  | Err e => Err ("cannot find service '" +:+ serviceName +:+ "': " +:+ e)
  | Ok svc => Ok (strategy, wait, svc)
  end.

(** [w] is the outcome of the last save, whose error is ignored. *)
Definition Rollout (has_manager : bool) (env : nat -> replica_env) (serviceName newImage strategy : string) (healthWaitSeconds : Z)
    (abortOnFailure : bool) (w : save_outcome) (sm : ScaleManager) (s : St) : res RolloutResult * ScaleManager * St :=
  match rollout_request serviceName newImage strategy healthWaitSeconds sm with
  | Err e => (Err e, sm, s)
  | Ok (strategy, wait, svc) =>
      let r := MkRollout serviceName newImage strategy (sv_Replicas svc) 0 0 false "" [] in
      if bool_decide (sv_ContainerIDs svc = []) then (Ok (aborted "no running replicas to roll" r), sm, s)
      else if strategy =s "rolling"
      then
        let '(complete, svc', r, s) := rolling has_manager env newImage abortOnFailure wait (sv_ContainerIDs svc) 0 svc r s in
        let sm := set_services sm (<[serviceName := svc']> (services sm)) in
        (Ok r, if complete : bool then (saveService sm svc' w).2 else sm, s)
      else
        let '(svc', r, s) := blue_green has_manager env newImage svc r s in
        let sm := set_services sm (<[serviceName := svc']> (services sm)) in
        (Ok r, (saveService sm svc' w).2, s)
  end.

Definition handleDeployRollout (has_manager : bool) (env : nat -> replica_env) (args : object) (w : save_outcome) (sm : ScaleManager) (s : St)
  : tool_result RolloutResult * ScaleManager * St :=
  let serviceName := argString args "service_name" in
  let newImage := argString args "new_image" in
  if serviceName =s "" then (errResult "service_name is required", sm, s)
  else if newImage =s "" then (errResult "new_image is required", sm, s)
  else
    let abortOnFailure := match obj_get "abort_on_failure" args with Some v => fmt_v v <>s "false" | None => true end in
    let '(r, sm, s) := Rollout has_manager env serviceName newImage (argString args "strategy") (argInt args "health_wait_seconds" 60) abortOnFailure w sm s in
    (of_res r (fun x => x), sm, s).

End Tool.

(** ** A backend that remembers

    Every operation adds the state it leads to: a theorem about all backends then speaks
    of every moment of a rollout. *)
Section Recorded.
Context {St : Type} `{!ContainerBackend St, !TemplateBackend St}.

Definition recorded {A} (r : A * St) (h : list St) : A * (St * list St) := (r.1, (r.2, h ++ [r.2]))%list.

#[local] Instance recorded_backend : ContainerBackend (St * list St) := {|
  CreateSandbox s t m c e md := recorded (CreateSandbox s.1 t m c e md) s.2;
  KillSandbox s id := recorded (KillSandbox s.1 id) s.2;
  RestartSandbox s id := recorded (RestartSandbox s.1 id) s.2;
  ListSandboxes s st n := recorded (ListSandboxes s.1 st n) s.2;
  ExecInSandbox s id c t := recorded (ExecInSandbox s.1 id c t) s.2;
|}.
#[local] Instance recorded_templates : TemplateBackend (St * list St) := {|
  CreateTemplateFromImage s image ports := recorded (CreateTemplateFromImage s.1 image ports) s.2;
|}.

Context `{!BackendLaws St, !TemplateLaws St}.

Lemma two_keys_first o id : obj_get "sandboxID" o = Some (VStr id) -> id <> "" -> two_keys o "sandboxID" "id" = id.
Proof. intros Ho Hid. unfold two_keys, obj_index. rewrite Ho. cbn. by rewrite bool_decide_false. Qed.

(** A replacement that was made is new and runs; a failed one leaves at most one
    container running that nobody knows of. *)
Lemma createReplacement_spec (s : St * list St) svc image r s' : createReplacement s svc image = (r, s') ->
  (exists l, s'.2 = s.2 ++ l /\ Forall (fun x => running s.1 ⊆ running x) l)%list /\
  match r with Ok id => id ∉ running s.1 /\ running s'.1 = running s.1 ∪ {[id]} 
  | Err _ => exists stray : gset string, (size stray <= 1)%nat /\ running s'.1 = running s.1 ∪ stray end.
Proof.
  assert (H0 : forall a b : gset string, a = b -> exists stray : gset string, (size stray <= 1)%nat /\ a = b ∪ stray)
    by (intros a b ->; exists ∅; rewrite size_empty; split; [lia|set_solver]).
  unfold createReplacement. cbn. pose proof (template_running s.1 image (if 0 <? sv_Port svc then [sv_Port svc] else [])) as Ht.
  destruct (CreateTemplateFromImage _ _ _) as [[t|e] s1]; cbn in *.
  - destruct t; try (intros [= <- <-]; cbn; split; [|by apply H0]; eexists; split; [done|]; by rewrite Forall_singleton, Ht).
    destruct (two_keys l "templateID" "id" =s ""); [intros [= <- <-]; cbn; split; [|by apply H0]; eexists; split; [done|]; by rewrite Forall_singleton, Ht|].
    destruct (CreateSandbox _ _ _ _ _ _) as [[c|e] s2] eqn:Ec; cbn.
    + apply create_ok in Ec as (id & o & -> & Ho & Hid & Hnew & Hrun). rewrite (two_keys_first _ _ Ho Hid), bool_decide_false by done.
      intros [= <- <-]. cbn. rewrite Ht in Hnew, Hrun. split; [|done]. exists [s1; s2]. split; [by rewrite <- app_assoc|].
      rewrite !Forall_cons, Ht, Hrun. split_and!; [done|set_solver|by apply Forall_nil].
    + apply create_err in Ec as (stray & Hsz & Ec). intros [= <- <-]. cbn. rewrite Ht in Ec. split; [|by exists stray]. exists [s1; s2]. split; [by rewrite <- app_assoc|].
      rewrite !Forall_cons, Ht, Ec. split_and!; [done|set_solver|by apply Forall_nil].
  - intros [= <- <-]. cbn. split; [|by apply H0]. exists [s1]. split; [done|]. by rewrite Forall_singleton, Ht.
Qed.

Lemma kill_spec (s : St * list St) id : is_id id -> let s' := (KillSandbox s id).2 in
  s'.2 = (s.2 ++ [s'.1])%list /\ running s.1 ∖ {[id]} ⊆ running s'.1 /\ running s'.1 ⊆ running s.1.
Proof.
  intros Hid. cbn. split; [done|]. by apply kill_bounds.
Qed.

(** *** The replicas of a service during a rollout *)

(** The report says that the container [id] replaced [o] and was healthy. *)
Definition replaced (r : RolloutResult) (o id : string) : Prop :=
  exists st, st ∈ rr_History r /\ rs_Old st = o /\ rs_New st = id /\ rs_Status st = "healthy".
Definition stands_for (r : RolloutResult) (o id : string) : Prop := id = o \/ replaced r o id.

(** As many containers run as the service has replicas, each the old replica or the one
    that replaced it. *)
Definition served (r : RolloutResult) (olds : list string) (run : gset string) : Prop :=
  exists ids, Forall2 (stands_for r) olds ids /\ live ids run.

Definition grows (r r' : RolloutResult) : Prop := forall st, st ∈ rr_History r -> st ∈ rr_History r'.

Lemma stands_grows r r' o id : grows r r' -> stands_for r o id -> stands_for r' o id.
Proof. intros Hg [->|(st & Hin & H)]; [by left|right; exists st; split; [by apply Hg|done]]. Qed.

Lemma served_grows r r' olds run run' : grows r r' -> run ⊆ run' -> served r olds run -> served r' olds run'.
Proof.
  intros Hg Hr (ids & Hf & Hnd & Hin). exists ids. split; [|split; [done|]].
  - eapply Forall2_impl; [done|]. intros o id. by apply stands_grows.
  - eapply Forall_impl; [done|]. intros x Hx. by apply Hr.
Qed.

Lemma served_all r r' olds l : grows r r' -> Forall (fun x : St => served r olds (running x)) l -> Forall (fun x => served r' olds (running x)) l.
Proof. intros Hg Hl. eapply Forall_impl; [exact Hl|]. intros x. apply served_grows; [exact Hg|done]. Qed.

Lemma grows_step b st r : grows r (with_step b st r).
Proof. intros x Hx. cbn. apply elem_of_app. by left. Qed.
Lemma grows_trans r1 r2 r3 : grows r1 r2 -> grows r2 r3 -> grows r1 r3.
Proof. unfold grows. auto. Qed.
Lemma grows_refl r : grows r r.
Proof. intros st. auto. Qed.
Lemma grows_aborted m r : grows r (aborted m r).
Proof. intros st. auto. Qed.
#[local] Hint Resolve grows_step grows_refl grows_aborted : core.

Lemma NoDup_insert_new {A} (l : list A) i x : NoDup l -> x ∉ l -> NoDup (<[i := x]> l).
Proof.
  intros Hnd Hx. apply NoDup_alt. intros a b y Ha Hb. apply list_lookup_insert_Some in Ha, Hb.
  destruct Ha as [(Ea & Exa & La)|(Na & Ha)], Hb as [(Eb & Exb & Lb)|(Nb & Hb)]; [congruence| | |].
  - exfalso. apply Hx. rewrite Exa. by eapply list_elem_of_lookup_2.
  - exfalso. apply Hx. rewrite Exb. by eapply list_elem_of_lookup_2.
  - by apply (NoDup_lookup l a b y).
Qed.

Lemma live_mono ids run run' : run ⊆ run' -> live ids run -> live ids run'.
Proof. intros Hr [Hnd Hin]. split; [done|]. eapply Forall_impl; [done|]. intros x Hx. by apply Hr. Qed.

Lemma live_without ids run id : live ids run -> id ∉ run -> live ids (run ∖ {[id]}).
Proof.
  intros [Hnd Hin] Hid. split; [done|]. rewrite Forall_forall in Hin |- *. intros x Hx. specialize (Hin x Hx).
  apply elem_of_difference. split; [done|]. intros ->%elem_of_singleton. done.
Qed.

Lemma live_ids ids (s : St) : live ids (running s) -> Forall is_id ids.
Proof. intros [_ H]. eapply Forall_impl; [exact H|]. intros id. apply running_id. Qed.

(** The state of a loop at index [i]. *)
Record turn (s0 : St * list St) (olds0 olds : list string) (i : nat) (svc : Service) (r : RolloutResult) (s : St * list St) : Prop := {
  tn_rest : drop i (sv_ContainerIDs svc) = olds /\ drop i olds0 = olds;
  tn_for : Forall2 (stands_for r) olds0 (sv_ContainerIDs svc);
  tn_live : live (sv_ContainerIDs svc) (running s.1);
  tn_served : Forall (fun x => served r olds0 (running x)) s.2;
  tn_others : forall id, id ∈ running s0.1 -> id ∉ olds0 -> id ∈ running s.1;
}.

Lemma turn_served s0 olds0 olds i svc r s l run : turn s0 olds0 olds i svc r s -> running s.1 ⊆ run ->
  Forall (fun x => running s.1 ⊆ running x) l -> Forall (fun x => served r olds0 (running x)) (s.2 ++ l)%list /\ served r olds0 run.
Proof.
  intros [_ Hf Hl Hs _] Hr Hsub. assert (Hx : forall run, running s.1 ⊆ run -> served r olds0 run).
  { intros run' Hrun. exists (sv_ContainerIDs svc). split; [done|]. by eapply live_mono. }
  split; [|by apply Hx]. apply Forall_app. split; [done|]. eapply Forall_impl; [done|]. intros x. apply Hx.
Qed.

Lemma turn_more s0 olds0 olds i svc r s r' s' l : turn s0 olds0 olds i svc r s -> grows r r' -> s'.2 = (s.2 ++ l)%list ->
  Forall (fun x => running s.1 ⊆ running x) l -> running s.1 ⊆ running s'.1 -> turn s0 olds0 olds i svc r' s'.
Proof.
  intros Ht Hg El Hl Hr. destruct (turn_served _ _ _ _ _ _ _ _ _ Ht Hr Hl) as [Hs _]. destruct Ht as [H1 H2 H3 H4 H5]. constructor.
  - done.
  - eapply Forall2_impl; [done|]. intros o id. by apply stands_grows.
  - by eapply live_mono.
  - rewrite El. by eapply served_all.
  - intros id Hid Hn. apply Hr. auto.
Qed.

(** A failed replacement is killed; what stands for the replicas runs on. *)
Lemma turn_kill_new s0 olds0 olds i svc r s s' new : is_id new -> turn s0 olds0 olds i svc r s -> new ∉ running s0.1 \/ new ∈ olds0 -> new ∉ sv_ContainerIDs svc ->
  s' = (KillSandbox s new).2 -> turn s0 olds0 olds i svc r s'.
Proof.
  intros Hid [H1 H2 H3 H4 H5] Hnew Hnot ->. pose proof (kill_spec s new Hid) as (Eh & Hsub & _). cbv zeta in *. set (s' := (KillSandbox s new).2) in *.
  assert (Hl : live (sv_ContainerIDs svc) (running s'.1)).
  { destruct H3 as [Hnd Hin]. split; [done|]. rewrite Forall_forall in Hin |- *. intros x Hx. apply Hsub. specialize (Hin x Hx).
    apply elem_of_difference. split; [done|]. by intros ->%elem_of_singleton. }
  constructor; try done.
  - rewrite Eh. apply Forall_app. split; [done|]. apply Forall_singleton. by exists (sv_ContainerIDs svc).
  - intros id Hin Hn. apply Hsub. apply elem_of_difference. split; [by apply H5|]. intros ->%elem_of_singleton. by destruct Hnew.
Qed.

Section Loops.
Context (has_manager : bool) (env : nat -> replica_env) (newImage : string) (abortOnFailure : bool) (waitSeconds : Z).

Lemma drop_cons_lookup {A} i (l : list A) x rest : drop i l = x :: rest -> l !! i = Some x /\ drop (S i) l = rest.
Proof.
  intros E. split.
  - rewrite <- (Nat.add_0_r i), <- lookup_drop, E. done.
  - replace (S i) with (i + 1)%nat by lia. by rewrite <- drop_drop, E.
Qed.

(** The old replica goes once its replacement is healthy. *)
Lemma turn_replace s0 olds0 old olds i svc r s new : turn s0 olds0 (old :: olds) i svc r s -> NoDup olds0 ->
  new ∈ running s.1 -> new ∉ sv_ContainerIDs svc ->
  turn s0 olds0 olds (S i) (with_containers svc (<[i := new]> (sv_ContainerIDs svc))) (with_step true (step_of i old new "healthy") r) (KillSandbox s old).2.
Proof.
  intros [[D1 D2] H2 H3 H4 H5] Hnd0 Hrun Hnot. apply drop_cons_lookup in D1 as [L1 D1]. apply drop_cons_lookup in D2 as [L2 D2].
  pose proof (live_ids _ _ H3) as Hold. rewrite Forall_forall in Hold. specialize (Hold old (list_elem_of_lookup_2 _ _ _ L1)).
  pose proof (kill_spec s old Hold) as (Eh & Hsub & _). cbv zeta in *. set (s' := (KillSandbox s old).2) in *.
  set (r' := with_step true _ r). set (ids := <[i := new]> (sv_ContainerIDs svc)).
  assert (Hf : Forall2 (stands_for r') olds0 ids).
  { rewrite <- (list_insert_id olds0 i old) by done. apply Forall2_insert.
    - eapply Forall2_impl; [done|]. intros o id. apply stands_grows, grows_step.
    - right. exists (step_of i old new "healthy"). split; [|done]. cbn. apply elem_of_app. right. by apply list_elem_of_singleton. }
  assert (Hl : live ids (running s'.1)).
  { destruct H3 as [Hnd Hin]. rewrite Forall_forall in Hin. split.
    - by apply NoDup_insert_new.
    - apply Forall_forall. intros x Hx. apply Hsub. apply list_elem_of_lookup in Hx as [k Hk]. unfold ids in Hk.
      apply list_lookup_insert_Some in Hk as [(<- & <- & _)|(Hne & Hk)].
      + apply elem_of_difference. split; [done|]. intros ->%elem_of_singleton. apply Hnot. by eapply list_elem_of_lookup_2.
      + apply elem_of_difference. split; [apply Hin; by eapply list_elem_of_lookup_2|]. intros ->%elem_of_singleton.
        apply Hne. by apply (NoDup_lookup (sv_ContainerIDs svc) i k old). }
  constructor.
  - split; [|done]. cbn. unfold ids. rewrite drop_insert_lt by lia. done.
  - done.
  - done.
  - rewrite Eh. apply Forall_app. split; [by eapply served_all; [apply grows_step|]|]. apply Forall_singleton. by exists ids.
  - intros id Hid Hn. apply Hsub. apply elem_of_difference. split; [by apply H5|]. intros ->%elem_of_singleton.
    apply Hn. by eapply list_elem_of_lookup_2.
Qed.

Lemma turn_next s0 olds0 old olds i svc r s : turn s0 olds0 (old :: olds) i svc r s -> turn s0 olds0 olds (S i) svc r s.
Proof.
  intros [[D1 D2] H2 H3 H4 H5]. apply drop_cons_lookup in D1 as [_ D1]. apply drop_cons_lookup in D2 as [_ D2]. by constructor.
Qed.

Lemma rolling_spec s0 olds0 olds : forall i svc r s c svc' r' s',
  rolling has_manager env newImage abortOnFailure waitSeconds olds i svc r s = (c, svc', r', s') ->
  turn s0 olds0 olds i svc r s -> NoDup olds0 ->
  (exists ids, svc' = with_containers svc ids) /\ exists k rest, turn s0 olds0 rest k svc' r' s'.
Proof.
  assert (Hsame : forall svc, svc = with_containers svc (sv_ContainerIDs svc)) by (by intros []).
  induction olds as [|old olds IH]; intros i svc r s c svc' r' s' H Ht Hnd; cbn [rolling] in H.
  - injection H as <- <- <- <-. split; [by eexists|]. by exists i, [].
  - destruct (e_cancelled (env i)).
    { injection H as <- <- <- <-. split; [by eexists|]. exists i, (old :: olds). destruct Ht. by constructor. }
    destruct (createReplacement s svc newImage) as [[new|e] s1] eqn:Ec; apply createReplacement_spec in Ec as [(l & El & Hl) Hr].
    + destruct Hr as [Hnew Hr]. assert (Hnot : new ∉ sv_ContainerIDs svc).
      { intros Hin. apply Hnew. pose proof (tn_live _ _ _ _ _ _ _ Ht) as [_ Hf]. rewrite Forall_forall in Hf. auto. }
      assert (Ht1 : forall r1, grows r r1 -> turn s0 olds0 (old :: olds) i svc r1 s1) by (intros; eapply turn_more; try done; set_solver).
      destruct (waitForHealth has_manager new _); [destruct (KillSandbox s1 old) as [v s2] eqn:Ek|destruct (KillSandbox s1 new) as [v s2] eqn:Ek].
      * apply IH in H as [(ids & ->) H]; [|replace s2 with (KillSandbox s1 old).2 by (by rewrite Ek); apply turn_replace; auto; set_solver|done].
        split; [|done]. by eexists.
      * assert (Ht2 : forall r1, grows r r1 -> turn s0 olds0 (old :: olds) i svc r1 s2).
        { intros r1 Hg. eapply (turn_kill_new _ _ _ _ _ _ s1 s2 new); [apply (running_id s1.1); rewrite Hr; set_solver|by apply Ht1| |exact Hnot|by rewrite Ek].
          destruct (decide (new ∈ olds0)); [by right|left]. intros Hin. apply Hnew. by eapply tn_others. }
        destruct abortOnFailure; [injection H as <- <- <- <-|].
        -- split; [by eexists|]. exists i, (old :: olds). apply Ht2. eapply grows_trans; [apply grows_step|apply grows_aborted].
        -- eapply IH; [exact H| |done]. eapply turn_next, Ht2, grows_step.
    + destruct Hr as (stray & _ & Hr).
      assert (Ht1 : forall r1, grows r r1 -> turn s0 olds0 (old :: olds) i svc r1 s1) by (intros; eapply turn_more; try done; rewrite Hr; set_solver).
      destruct abortOnFailure; [injection H as <- <- <- <-|].
      * split; [by eexists|]. exists i, (old :: olds). apply Ht1. eapply grows_trans; [apply grows_step|apply grows_aborted].
      * eapply IH; [exact H| |done]. eapply turn_next, Ht1, grows_step.
Qed.

(** *** All at once *)

Lemma kill_all_spec ids : Forall is_id ids -> forall s : St * list St, exists l, (kill_all ids s).2 = (s.2 ++ l)%list /\
  Forall (fun x => running s.1 ∖ list_to_set ids ⊆ running x) l /\ running s.1 ∖ list_to_set ids ⊆ running (kill_all ids s).1.
Proof.
  induction 1 as [|id ids Hid _ IH]; intros s; cbn [kill_all list_to_set].
  - exists []. rewrite app_nil_r. split_and!; [done|by apply Forall_nil|set_solver].
  - destruct (IH (KillSandbox s id).2) as (l & El & Hl & Hr). pose proof (kill_spec s id Hid) as (Eh & Hsub & _). cbv zeta in *.
    set (s' := (KillSandbox s id).2) in *. exists (s'.1 :: l). rewrite El, Eh, <- app_assoc. split_and!; [done| |set_solver].
    constructor; [set_solver|]. eapply Forall_impl; [exact Hl|]. cbn. set_solver.
Qed.

Lemma kill_all_exact (Hkill : forall (y : St) id, is_ok (KillSandbox y id).1 = true) ids : Forall is_id ids -> forall s : St * list St,
  running (kill_all ids s).1 = running s.1 ∖ list_to_set ids.
Proof.
  induction 1 as [|id ids Hid _ IH]; intros s; cbn [kill_all list_to_set]; [set_solver|]. rewrite IH. cbn.
  specialize (Hkill s.1 id). destruct (KillSandbox s.1 id) as [[v|e] s1] eqn:E; [|done]. apply kill_ok in E; [|done]. cbn. rewrite E. set_solver.
Qed.

(** The first loop: the old replicas run on, the new containers are all new. *)
Record built (s0 : St * list St) (olds0 olds : list string) (i : nat) (svc : Service) (news : list string) (r : RolloutResult) (s : St * list St) : Prop := {
  bt_turn : turn s0 olds0 olds i svc r s;
  bt_old : sv_ContainerIDs svc = olds0;
  bt_new : Forall (fun id => is_id id /\ id ∉ running s0.1 /\ id ∉ olds0) news;
}.

Lemma create_all_spec s0 olds0 svc olds : forall i news r s ok news' r' s',
  create_all has_manager env newImage svc olds i news r s = (ok, news', r', s') ->
  built s0 olds0 olds i svc news r s -> live news (running s.1) -> Forall2 (replaced r) (take i olds0) news ->
  exists k rest, built s0 olds0 rest k svc news' r' s' /\
    (ok = true -> live news' (running s'.1) /\ Forall2 (replaced r') olds0 news').
Proof.
  induction olds as [|old olds IH]; intros i news r s ok news' r' s' H [Ht Eo Hn] Hl Hf; cbn [create_all] in H.
  - injection H as <- <- <- <-. exists i, []. split; [by constructor|]. intros _. split; [done|].
    destruct Ht as [[_ D] _ _ _ _]. rewrite <- (take_drop i olds0), D, app_nil_r. done.
  - destruct (createReplacement s svc newImage) as [[new|e] s1] eqn:Ec; apply createReplacement_spec in Ec as [(l & El & Hlh) Hr].
    + destruct Hr as [Hnew Hr].
      assert (Hnot : new ∉ olds0) by (intros Hin; apply Hnew; pose proof (tn_live _ _ _ _ _ _ _ Ht) as [_ Hfl]; rewrite Eo, Forall_forall in Hfl; auto).
      assert (Hnot0 : new ∉ running s0.1) by (intros Hin; apply Hnew; by eapply tn_others).
      assert (Hnn : new ∉ news) by (intros Hin; apply Hnew; destruct Hl as [_ Hfl]; rewrite Forall_forall in Hfl; auto).
      assert (Ht1 : forall r1, grows r r1 -> turn s0 olds0 (old :: olds) i svc r1 s1) by (intros; eapply turn_more; try done; set_solver).
      assert (Hidn : is_id new) by (apply (running_id s1.1); rewrite Hr; set_solver).
      assert (Hn1 : Forall (fun id => is_id id /\ id ∉ running s0.1 /\ id ∉ olds0) (news ++ [new])%list) by (apply Forall_app; split; [done|by apply Forall_singleton]).
      destruct (waitForHealth has_manager new _).
      * eapply IH in H; [exact H| | |].
        -- constructor; [|done|done]. eapply turn_next, Ht1, grows_step.
        -- destruct Hl as [Hnd Hin]. split.
           ++ apply NoDup_app. split_and!; [done| |apply NoDup_singleton]. by intros x Hx ->%list_elem_of_singleton.
           ++ rewrite Hr. apply Forall_app. split; [|apply Forall_singleton; set_solver]. eapply Forall_impl; [done|]. set_solver.
        -- destruct (tn_rest _ _ _ _ _ _ _ Ht) as [_ D]. apply drop_cons_lookup in D as [L _]. rewrite (take_S_r _ _ _ L). apply Forall2_app.
           ++ eapply Forall2_impl; [done|]. intros o id (st & Hin & Hst). exists st. split; [by apply grows_step|done].
           ++ constructor; [|constructor]. eexists. split; [cbn; apply elem_of_app; right; by apply list_elem_of_singleton|done].
      * injection H as <- <- <- <-. exists i, (old :: olds). split; [|done]. constructor; [|done|done].
        eapply turn_kill_new; [done|apply Ht1, grows_step|by left|by rewrite Eo|done].
    + injection H as <- <- <- <-. exists i, (old :: olds). split; [|done]. constructor; [|done|done].
      destruct Hr as (stray & _ & Hr). eapply turn_more; try done. rewrite Hr. set_solver.
Qed.

(** Nothing else starts, but for what a failed creation may leave. *)
Lemma create_all_runs svc olds : forall i news r (s : St * list St) ok news' r' s',
  create_all has_manager env newImage svc olds i news r s = (ok, news', r', s') -> list_to_set news ⊆ running s.1 ->
  exists stray : gset string, (size stray <= 1)%nat /\ (ok = true -> stray = ∅ /\ rr_Aborted r' = rr_Aborted r) /\
    list_to_set news ⊆@{gset string} list_to_set news' /\ running s'.1 ⊆ running s.1 ∪ list_to_set news' ∪ stray.
Proof.
  induction olds as [|old olds IH]; intros i news r s ok news' r' s' H Hn; cbn [create_all] in H.
  { injection H as <- <- <- <-. exists ∅. rewrite size_empty. split_and!; [lia|done|done|set_solver]. }
  destruct (createReplacement s svc newImage) as [[new|e] s1] eqn:Ec; apply createReplacement_spec in Ec as [_ Hr].
  - destruct Hr as [_ Hr]. destruct (waitForHealth _ _ _).
    + assert (Hsub : list_to_set (news ++ [new]) ⊆ running s1.1) by (rewrite list_to_set_app_L, Hr; set_solver).
      destruct (IH _ _ _ _ _ _ _ _ H Hsub) as (stray & Hz & H2 & H0 & H1). rewrite Hr in H1. rewrite list_to_set_app_L in H0.
      exists stray. split_and!; [done|done|set_solver|set_solver].
    + injection H as <- <- <- <-. pose proof (kill_spec s1 new) as (_ & _ & Hk); [apply (running_id s1.1); rewrite Hr; set_solver|]. cbv zeta in Hk.
      exists ∅. rewrite list_to_set_app_L, size_empty. split_and!; [lia|done|set_solver|set_solver].
  - destruct Hr as (stray & Hz & Hr). injection H as <- <- <- <-. rewrite Hr. exists stray. split_and!; [done|done|done|set_solver].
Qed.

(** What a rollout of either kind leads to. *)
Record kept (s0 : St * list St) (olds0 : list string) (svc : Service) (r : RolloutResult) (s : St * list St) : Prop := {
  kp_for : Forall2 (stands_for r) olds0 (sv_ContainerIDs svc);
  kp_live : live (sv_ContainerIDs svc) (running s.1);
  kp_served : Forall (fun x => served r olds0 (running x)) s.2;
  kp_others : forall id, id ∈ running s0.1 -> id ∉ olds0 -> id ∈ running s.1;
}.

Lemma turn_kept s0 olds0 olds i svc r s : turn s0 olds0 olds i svc r s -> kept s0 olds0 svc r s.
Proof. intros []. by constructor. Qed.

(** Killing containers other than those that stand for the replicas. *)
Lemma kept_kill s0 olds0 svc r s ids : kept s0 olds0 svc r s -> Forall is_id ids -> Forall (fun id => id ∉ sv_ContainerIDs svc) ids ->
  (forall id, id ∈ ids -> id ∈ running s0.1 -> id ∈ olds0) -> kept s0 olds0 svc r (kill_all ids s).
Proof.
  intros [H1 H2 H3 H4] His Hids Ho. destruct (kill_all_spec ids His s) as (l & El & Hl & Hr).
  assert (Hlive : forall run, running s.1 ∖ list_to_set ids ⊆ run -> live (sv_ContainerIDs svc) run).
  { intros run Hrun. destruct H2 as [Hnd Hin]. split; [done|]. rewrite Forall_forall in Hin, Hids |- *. intros x Hx. apply Hrun.
    apply elem_of_difference. split; [auto|]. intros Hx2%elem_of_list_to_set. by eapply Hids. }
  constructor; [done|by apply Hlive| |].
  - rewrite El. apply Forall_app. split; [done|]. eapply Forall_impl; [exact Hl|]. intros x Hx. exists (sv_ContainerIDs svc). split; [done|]. by apply Hlive.
  - intros id Hid Hn. apply Hr. apply elem_of_difference. split; [auto|]. intros Hin%elem_of_list_to_set. auto.
Qed.

Lemma kept_grows s0 olds0 svc r r' s : kept s0 olds0 svc r s -> grows r r' -> kept s0 olds0 svc r' s.
Proof.
  intros [H1 H2 H3 H4] Hg. constructor; [|done| |done]; [|by eapply served_all]. eapply Forall2_impl; [done|]. intros o id. by apply stands_grows.
Qed.

Lemma blue_green_spec s0 olds0 svc r s svc' r' s' : blue_green has_manager env newImage svc r s = (svc', r', s') ->
  turn s0 olds0 olds0 0 svc r s -> sv_ContainerIDs svc = olds0 ->
  (exists ids, svc' = with_containers svc ids) /\ kept s0 olds0 svc' r' s'.
Proof.
  intros H Ht Eo. unfold blue_green in H. rewrite Eo in H. destruct (create_all _ _ _ _ _ _ _ _ _) as [[[ok news] r1] s1] eqn:Ec.
  apply (create_all_spec s0 olds0) in Ec as (k & rest & [Ht1 _ Hn1] & Hok).
  - destruct (ok && _) eqn:Eb; injection H as <- <- <-.
    + apply andb_true_iff in Eb as [-> _]. destruct (Hok eq_refl) as [Hl Hf]. split; [by eexists|].
      apply kept_kill; cbn; [|by eapply live_ids; rewrite <- Eo; apply (tn_live _ _ _ _ _ _ _ Ht)| |].
      * destruct Ht1 as [_ _ _ H4 H5]. constructor; cbn; [|done|done|done]. eapply Forall2_impl; [done|]. by right.
      * apply Forall_forall. intros id Hid Hin. rewrite Forall_forall in Hn1. by apply (Hn1 id).
      * done.
    + split; [exists (sv_ContainerIDs svc); by destruct svc|]. apply kept_kill; cbn.
      * eapply kept_grows; [by eapply turn_kept|]. apply grows_aborted.
      * eapply Forall_impl; [exact Hn1|]. by intros x [].
      * rewrite Eo. eapply Forall_impl; [exact Hn1|]. by intros x (_ & _ & ?).
      * intros id Hid Hin. rewrite Forall_forall in Hn1. by apply Hn1 in Hid as (_ & ? & _).
  - constructor; [done|done|by apply Forall_nil].
  - split; [apply NoDup_nil; done|by apply Forall_nil].
  - by rewrite take_0.
Qed.

End Loops.

(** *** The tool *)

Section Result.
Context `{!GoRuntime}.
Context (has_manager : bool) (env : nat -> replica_env) (name newImage strategy : string) (wait : Z) (abortOnFailure : bool) (w : save_outcome).

Lemma request_ok sm strat wt svc : rollout_request name newImage strategy wait sm = Ok (strat, wt, svc) ->
  services sm !! name = Some svc /\ strat = (if strategy =s "" then "rolling" else strategy).
Proof.
  unfold rollout_request, getService. destruct (name =s ""), (newImage =s ""); try done. destruct (validateImageRef newImage); [cbn|done].
  destruct (_ && _); [done|]. destruct (600 <? _); [done|]. destruct (services sm !! name); [|done]. by intros [= <- _ <-].
Qed.

(** What an accepted rollout runs. *)
Definition rollout_runs (svc svc' : Service) (s s' : St * list St) (r0 r : RolloutResult) : Prop :=
  rr_Aborted r0 = false /\ rr_History r0 = [] /\
  ((exists c wt, rolling has_manager env newImage abortOnFailure wt (sv_ContainerIDs svc) 0 svc r0 s = (c, svc', r, s')) \/
   blue_green has_manager env newImage svc r0 s = (svc', r, s')).

Lemma Rollout_ok sm svc (s : St * list St) r sm' s' : services sm !! name = Some svc ->
  Rollout has_manager env name newImage strategy wait abortOnFailure w sm s = (Ok r, sm', s') ->
  (sv_ContainerIDs svc = [] /\ sm' = sm /\ s' = s /\ rr_Aborted r = true) \/
  (exists svc' r0, services sm' = <[name := svc']> (services sm) /\ rollout_runs svc svc' s s' r0 r /\
     (strategy = "blue-green" -> blue_green has_manager env newImage svc r0 s = (svc', r, s'))).
Proof.
  intros Hsvc HR. unfold Rollout in HR. destruct (rollout_request _ _ _ _ _) as [[[strat wt] svc0]|e] eqn:Er; [|done].
  apply request_ok in Er as [Hsvc0 Es]. rewrite Hsvc in Hsvc0. injection Hsvc0 as <-.
  case_bool_decide as He; [left; by injection HR as <- <- <-|right].
  case_bool_decide as Hs.
  - destruct (rolling _ _ _ _ _ _ _ _ _ _) as [[[c svc'] r1] s1] eqn:E. injection HR as <- <- <-. exists svc'. eexists. split; [|split; [split; [|split; [|left; eauto]]|]]; [|done..|].
    + destruct c; [|done]. by rewrite saveService_services.
    + intros Hbg. rewrite Hbg, bool_decide_false in Es by done. congruence.
  - destruct (blue_green _ _ _ _ _ _) as [[svc' r1] s1] eqn:E. injection HR as <- <- <-. exists svc'. eexists. split; [|split; [split; [|split; [|right; done]]|done]]; [|done..].
    by rewrite saveService_services.
Qed.
Lemma start_turn (x : St) r0 svc : rr_History r0 = [] -> live (sv_ContainerIDs svc) (running x) ->
  turn (x, []) (sv_ContainerIDs svc) (sv_ContainerIDs svc) 0 svc r0 (x, []).
Proof.
  intros Hh Hl. constructor; cbn.
  - done.
  - apply Forall2_same_length_lookup_2; [done|]. intros i a b Ha Hb. left. congruence.
  - done.
  - by apply Forall_nil.
  - auto.
Qed.

(** Whatever a rollout of either kind meets (templates and containers that cannot be
    made, replicas that do not become healthy, containers that cannot be stopped, the end
    of its context), at every moment of it as many containers of the service run as it has
    replicas: for each replica the old container, or one that the report names as its
    healthy replacement.  Afterwards the service lists such containers, all different and
    running, and no container outside the service was stopped. *)
Theorem rollout_keeps_service sm svc x r sm' x' h : services sm !! name = Some svc -> live (sv_ContainerIDs svc) (running x) ->
  Rollout has_manager env name newImage strategy wait abortOnFailure w sm (x, []) = (Ok r, sm', (x', h)) ->
  exists svc', services sm' !! name = Some svc' /\ Forall2 (stands_for r) (sv_ContainerIDs svc) (sv_ContainerIDs svc') /\
    live (sv_ContainerIDs svc') (running x') /\
    (forall y, y ∈ h -> served r (sv_ContainerIDs svc) (running y)) /\
    (forall id, id ∈ running x -> id ∉ sv_ContainerIDs svc -> id ∈ running x').
Proof.
  intros Hsvc Hl Hrun. destruct (Rollout_ok _ _ _ _ _ _ Hsvc Hrun) as [(E0 & -> & [= -> ->] & _)|(svc' & r0 & Hs & (_ & Hh & Hr) & _)].
  - exists svc. split_and!; [done| |done| |auto]; [|by intros y ?%not_elem_of_nil]. rewrite E0. constructor.
  - pose proof (start_turn x r0 svc Hh Hl) as Ht.
    assert (Hk : kept (x, []) (sv_ContainerIDs svc) svc' r (x', h)).
    { destruct Hr as [(c & wt & Hr)|Hr].
      - eapply rolling_spec in Hr as (_ & k & rest & Hr); [by eapply turn_kept|exact Ht|apply Hl].
      - by eapply blue_green_spec in Hr as (_ & Hr); [|exact Ht|]. }
    destruct Hk as [H1 H2 H3 H4]. exists svc'. rewrite Hs, lookup_insert_eq. split_and!; [done..| |done]. intros y Hy. rewrite Forall_forall in H3. by apply H3.
Qed.

(** When every kill succeeds, an accepted rollout that replaces all replicas at once does
    all or nothing for a service whose replicas are distinct and running: either it reports
    that it was aborted, the service lists what it listed, and the containers run that ran
    before, with at most one more that a failed creation started and could not report; or the service lists healthy
    new containers in place of all its replicas, and those run instead of the old ones. *)
Theorem blue_green_all_or_nothing sm svc x r sm' x' h : services sm !! name = Some svc -> live (sv_ContainerIDs svc) (running x) ->
  strategy = "blue-green" -> (forall (y : St) id, is_ok (KillSandbox y id).1 = true) ->
  Rollout has_manager env name newImage strategy wait abortOnFailure w sm (x, []) = (Ok r, sm', (x', h)) ->
  if rr_Aborted r
  then services sm' !! name = Some svc /\ exists stray : gset string, (size stray <= 1)%nat /\ running x' = running x ∪ stray
  else exists news, services sm' !! name = Some (with_containers svc news) /\ Forall2 (replaced r) (sv_ContainerIDs svc) news /\
    live news (running x') /\ Forall (fun id => id ∉ running x) news /\
    running x' = running x ∖ list_to_set (sv_ContainerIDs svc) ∪ list_to_set news.
Proof.
  intros Hsvc Hl Hbg Hkill Hrun. destruct (Rollout_ok _ _ _ _ _ _ Hsvc Hrun) as [(E0 & -> & [= -> ->] & ->)|(svc' & r0 & Hs & (Ha & Hh & _) & Hr)].
  { split; [done|]. exists ∅. rewrite size_empty. split; [lia|set_solver]. }
  specialize (Hr Hbg). pose proof (start_turn x r0 svc Hh Hl) as Ht. unfold blue_green in Hr.
  destruct (create_all _ _ _ _ _ _ _ _ _) as [[[ok news] r1] s1] eqn:Ec. rewrite Hs, lookup_insert_eq.
  destruct (create_all_runs _ _ _ _ _ _ _ _ _ _ _ _ _ Ec) as (stray & Hz & Hab & _ & Hup); [set_solver|].
  eapply create_all_spec in Ec as (k & rest & [Ht1 _ Hn1] & Hok); [|constructor; [exact Ht|done|by apply Forall_nil]|split; [by apply NoDup_nil|by apply Forall_nil]|by rewrite take_0].
  rewrite Forall_forall in Hn1. cbn in Hup, Hn1.
  destruct Ht1 as [_ _ [_ Hold] _ Hoth]. cbn in Hoth. rewrite Forall_forall in Hold.
  assert (Hlow : running x ⊆ running s1.1) by (intros id Hid; destruct (decide (id ∈ sv_ContainerIDs svc)); auto).
  destruct ok; cbn in Hr; [destruct (Hok eq_refl) as [[Hnd Hin] Hf]; rewrite (proj2 (Nat.eqb_eq _ _)) in Hr by (symmetry; by eapply Forall2_length)|];
    injection Hr as <- <- Es; [destruct (Hab eq_refl) as [-> ->]; rewrite Ha|cbn].
  - pose proof (kill_all_exact Hkill (sv_ContainerIDs svc) (live_ids _ _ Hl) s1) as Ek. rewrite Es in Ek. cbn in Ek. exists news.
    assert (Ex : running x' = running x ∖ list_to_set (sv_ContainerIDs svc) ∪ list_to_set news).
    { rewrite Ek. rewrite Forall_forall in Hin. apply set_eq. intros id. rewrite elem_of_difference, elem_of_union, elem_of_difference, !elem_of_list_to_set.
      specialize (Hn1 id). specialize (Hin id). specialize (Hup id). rewrite !elem_of_union, elem_of_list_to_set in Hup. specialize (Hlow id).
      pose proof (not_elem_of_empty (C := gset string) id). tauto. }
    split_and!; [done|done| | |done].
    + split; [done|]. rewrite Ex. apply Forall_forall. intros id Hid. apply elem_of_union. right. by apply elem_of_list_to_set.
    + apply Forall_forall. intros id Hid. by apply Hn1.
  - assert (Hids : Forall is_id news) by (apply Forall_forall; intros id Hid; by apply Hn1).
    pose proof (kill_all_exact Hkill news Hids s1) as Ek. rewrite Es in Ek. cbn in Ek. split; [by destruct svc|]. exists (running x' ∖ running x).
    split; [transitivity (size stray); [apply subseteq_size|done]|apply set_eq]; [|intros id]; rewrite Ek; [intros id|];
      rewrite ?elem_of_union, ?elem_of_difference, elem_of_list_to_set; specialize (Hn1 id); specialize (Hup id);
      rewrite !elem_of_union, elem_of_list_to_set in Hup; specialize (Hlow id); destruct (decide (id ∈ running x)); tauto.
Qed.

End Result.

End Recorded.

(** ** What a replacement is like *)

Definition with_env (svc : Service) (vars : list (string * string)) : Service :=
  MkService (sv_Name svc) (sv_TemplateID svc) (sv_Replicas svc) (sv_MemoryMB svc) (sv_CPUCount svc) vars (sv_ContainerIDs svc)
    (sv_Port svc) (sv_Domain svc) (sv_CreatedAt svc) (sv_UpdatedAt svc).

(** A replacement does not get the environment variables of the service. *)
Theorem replacement_ignores_env {St : Type} `{!ContainerBackend St, !TemplateBackend St} (s : St) svc vars image :
  createReplacement s (with_env svc vars) image = createReplacement s svc image.
Proof. reflexivity. Qed.

(** A new container has no health check yet: the first tick lets it pass. *)
Theorem health_never_gates id hm l : get_check hm id = None -> waitForHealth true id (WTick hm :: l) = true.
Proof. intros E. cbn. by rewrite E. Qed.

(** ** Examples *)

Section Witnesses.
#[local] Existing Instance demo_runtime.
#[local] Existing Instance recorded_backend.
#[local] Existing Instance recorded_templates.

#[local] Instance demo_templates : TemplateBackend demo_state :=
  {| CreateTemplateFromImage s image ports := (Ok (VObj [("templateID", VStr ("tpl-" +:+ image))]), s) |}.
#[local] Instance demo_template_laws : TemplateLaws demo_state.
Proof. by intros s image ports. Defined.

(** Nothing has a health check; the context does not end. *)
Definition no_checks : nat -> replica_env := fun _ => MkReplicaEnv false [WTick (newHealthManager ∅)].
(** The second replacement never becomes healthy. *)
Definition second_fails : nat -> replica_env := fun i => MkReplicaEnv false (if (i =? 1)%nat then [] else [WTick (newHealthManager ∅)]).

Definition roomy : demo_state := MkDemo 10 5 {["sb-1"; "sb-2"; "other"]} ∅.

Lemma roomy_live : live (sv_ContainerIDs demo_service) (running roomy).
Proof. apply demo_live. Qed.

Lemma rollout_keeps_service_witness :
  exists r sm' x' h svc', Rollout true no_checks "web" "nginx:2" "rolling" 60 true Saved demo_manager (roomy, []) = (Ok r, sm', (x', h)) /\
    rr_Succeeded r = 2 /\ services sm' !! "web" = Some svc' /\ live (sv_ContainerIDs svc') (running x').
Proof.
  assert (Hc : match (Rollout true no_checks "web" "nginx:2" "rolling" 60 true Saved demo_manager (roomy, [])).1.1 with
               | Ok r => rr_Succeeded r = 2 | Err _ => False end) by (vm_compute; reflexivity).
  destruct (Rollout true no_checks "web" "nginx:2" "rolling" 60 true Saved demo_manager (roomy, [])) as [[[r|e] sm'] [x' h]] eqn:E; [|destruct Hc].
  destruct (rollout_keeps_service true no_checks "web" "nginx:2" "rolling" 60 true Saved demo_manager demo_service roomy r sm' x' h
    eq_refl roomy_live E) as (svc' & Hs & _ & Hl & _). exists r, sm', x', h, svc'. split; [reflexivity|]. split; [exact Hc|]. split; [exact Hs|exact Hl].
Defined.

(** A runtime whose containers can all be stopped. *)
Record calm : Type := Calm { calm_state : demo_state }.
Definition calmly {A} (r : A * demo_state) : A * calm := (r.1, Calm r.2).
#[local] Instance calm_backend : ContainerBackend calm := {|
  CreateSandbox s t m c e md := calmly (demo_create (calm_state s) t m c e md);
  KillSandbox s id := (Ok VNil, Calm (MkDemo (db_next (calm_state s)) (db_room (calm_state s)) (db_live (calm_state s) ∖ {[id]}) ∅));
  RestartSandbox s id := calmly (demo_restart (calm_state s) id);
  ListSandboxes s st n := calmly (demo_list (calm_state s) st n);
  ExecInSandbox s id c t := calmly (demo_exec (calm_state s) id c t);
|}.
#[local] Instance calm_laws : BackendLaws calm.
Proof.
  refine {| running s := db_live (calm_state s); is_id _ := True |}.
  - done.
  - intros s t m c e md v s' E. destruct (demo_create (calm_state s) t m c e md) as [r x] eqn:Ed. cbn in E. rewrite Ed in E.
    injection E as -> <-. exact (create_ok _ _ _ _ _ _ _ _ Ed).
  - intros s t m c e md msg s' E. destruct (demo_create (calm_state s) t m c e md) as [r x] eqn:Ed. cbn in E. rewrite Ed in E.
    injection E as -> <-. exact (create_err _ _ _ _ _ _ _ _ Ed).
  - by intros s id v s' _ [= _ <-].
  - done.
Defined.
#[local] Instance calm_templates : TemplateBackend calm := {| CreateTemplateFromImage s image ports := (Ok (VObj [("templateID", VStr image)]), s) |}.
#[local] Instance calm_template_laws : TemplateLaws calm.
Proof. by intros s image ports. Defined.

Lemma blue_green_all_or_nothing_witness :
  exists r sm' x' h, Rollout true second_fails "web" "nginx:2" "blue-green" 60 true Saved demo_manager (Calm roomy, []) = (Ok r, sm', (x', h)) /\
    rr_Failed r = 1 /\ services sm' !! "web" = Some demo_service.
Proof.
  assert (Hc : match (Rollout true second_fails "web" "nginx:2" "blue-green" 60 true Saved demo_manager (Calm roomy, [])).1.1 with
               | Ok r => rr_Aborted r = true /\ rr_Failed r = 1 | Err _ => False end) by (vm_compute; split; reflexivity).
  destruct (Rollout true second_fails "web" "nginx:2" "blue-green" 60 true Saved demo_manager (Calm roomy, [])) as [[[r|e] sm'] [x' h]] eqn:E; [|destruct Hc].
  destruct Hc as [Ha Hf].
  pose proof (blue_green_all_or_nothing true second_fails "web" "nginx:2" "blue-green" 60 true Saved demo_manager demo_service (Calm roomy) r sm' x' h
    eq_refl roomy_live eq_refl (fun _ _ => eq_refl) E) as H. rewrite Ha in H. exists r, sm', x', h. split; [reflexivity|]. split; [exact Hf|exact (proj1 H)].
Defined.

(** "sb-2" cannot be stopped: the report counts it as replaced, the service no longer
    lists it, and it runs on. *)
Theorem stuck_replica_unlisted :
  let '(r, sm', s') := Rollout true no_checks "web" "nginx:2" "rolling" 60 true Saved demo_manager (MkDemo 10 5 {["sb-1"; "sb-2"; "other"]} {["sb-2"]}) in
  match r with Ok r => rr_Succeeded r = 2 /\ rr_Failed r = 0 | Err _ => False end /\
  (sv_ContainerIDs <$> services sm' !! "web") = Some ["sb-10"; "sb-11"] /\ "sb-2" ∈ running s'.
Proof. vm_compute. done. Qed.

(** The service keeps the template it had: replicas added later run the old image. *)
Theorem rollout_keeps_old_template :
  let '(_, sm', _) := Rollout true no_checks "web" "nginx:2" "blue-green" 60 true Saved demo_manager roomy in
  (sv_TemplateID <$> services sm' !! "web") = Some "python".
Proof. vm_compute. done. Qed.

End Witnesses.
