(* ===== verification/Discovery.v ===== *)
(** * Service discovery (mcp-server-go/discovery.go)

    The registry of named endpoints, its file, and the refresh from the labels
    of the running containers.  Every mutation takes the write lock and saves
    under the read lock, so no other mutation comes between the snapshot of a
    save and its write: operations are atomic here. *)
From S2P Require Import Prelude GoStrings GoValue NetIP Nodes Backend.
From Stdlib Require Import Ascii.

Open Scope string_scope.
Open Scope Z_scope.

(** ** Data *)

Definition discoveryLabelName : string := "discovery.name".
Definition discoveryLabelHost : string := "discovery.host".
Definition discoveryLabelPort : string := "discovery.port".
Definition defaultSyncHost : string := "127.0.0.1".

Record ServiceEntry : Type := MkEntry {
  se_Name : string; se_ContainerID : string; se_Host : string; se_Port : Z; se_LastUpdated : Z;
}.

(** What is at [storePath]: nothing, the entries of a [discoveryFile], or
    something that cannot be read or decoded. *)
Inductive store : Type := NoStore | Stored (entries : list ServiceEntry) | BadStore (msg : string).

Record DiscoveryManager : Type := MkDisc { entries : gmap string ServiceEntry; dm_store : store }.

Definition entry_le (a b : ServiceEntry) : Prop := String.le (se_Name a) (se_Name b).

#[global] Instance entry_le_dec a b : Decision (entry_le a b).
Proof. unfold entry_le. apply _. Defined.

(** ** Persistence *)

Definition add_entry (m : gmap string ServiceEntry) (e : ServiceEntry) : gmap string ServiceEntry := <[se_Name e := e]> m.

(** The entries after the load; an error leaves them as they are. *)
Definition load (dm : DiscoveryManager) : res unit * DiscoveryManager :=
  match dm_store dm with
  | NoStore => (Ok tt, dm)
  | BadStore m => (Err m, dm)
  | Stored l => (Ok tt, MkDisc (foldl add_entry (entries dm) l) (dm_store dm))
  end.

Definition ListServices (dm : DiscoveryManager) : list ServiceEntry := merge_sort entry_le (map_to_list (entries dm)).*2.

Definition save (dm : DiscoveryManager) (w : save_outcome) : res unit * DiscoveryManager :=
  match w with
  | Saved => (Ok tt, MkDisc (entries dm) (Stored (ListServices dm)))
  | SaveRefused m => (Err m, dm)
  | SaveCut m => (Err m, MkDisc (entries dm) (BadStore m))
  end.

Definition newDiscoveryManager (st : store) : DiscoveryManager := (load (MkDisc ∅ st)).2.

(** ** Operations *)

Definition Register (dm : DiscoveryManager) (name containerID host : string) (port now : Z) (w : save_outcome)
  : res unit * DiscoveryManager :=
  if name =s "" then (Err "service name cannot be empty", dm)
  else if host =s "" then (Err "host cannot be empty", dm)
  else if (port <? 0) || (65535 <? port) then (Err ("port must be in 0..65535, got " +:+ pretty port), dm)
  else save (MkDisc (add_entry (entries dm) (MkEntry name containerID host port now)) (dm_store dm)) w.

Definition Deregister (dm : DiscoveryManager) (name : string) (w : save_outcome) : res unit * DiscoveryManager :=
  match entries dm !! name with
  | None => (Ok tt, dm)
  | Some _ => save (MkDisc (delete name (entries dm)) (dm_store dm)) w
  end.

Section Discovery.
Context `{GoRuntime}.

Definition Resolve (dm : DiscoveryManager) (name : string) : res (string * ServiceEntry) :=
  match entries dm !! name with
  | None => Err ("service " +:+ fmt_quote name +:+ " not registered")
  | Some e => Ok (JoinHostPort (se_Host e) (pretty (se_Port e)), e)
  end.

(** The entry a listed container is registered with, if it is. *)
Definition container_entry (now : Z) (item : value) : option ServiceEntry :=
  let cm := asMap item in
  let labels := asMap (obj_index cm "labels") in
  let name := toString (obj_index labels discoveryLabelName) in
  if name =s "" then None
  else
    let host := toString (obj_index labels discoveryLabelHost) in
    let host := if host =s "" then defaultSyncHost else host in
    Some (MkEntry name (toString (obj_index cm "sandboxID")) host (toInt (obj_index labels discoveryLabelPort)) now).

Definition updates (now : Z) (arr : list value) : gmap string ServiceEntry :=
  foldl add_entry ∅ (omap (container_entry now) arr).

Context {St : Type} `{!ContainerBackend St}.

(** [None] is the missing client. *)
Definition SyncFromContainers (dm : DiscoveryManager) (client : option St) (now : Z) (w : save_outcome)
  : (Z * option string) * DiscoveryManager * option St :=
  match client with
  | None => ((0, Some "container backend not initialized"), dm, None)
  | Some s =>
      let '(raw, s) := ListSandboxes s "running" 100 in
      match raw with
      | Err e => ((0, Some ("list running sandboxes: " +:+ e)), dm, Some s)
      | Ok (VArr arr) =>
          let ups := updates now arr in
          if (size ups =? 0)%nat then ((0, None), dm, Some s)
          else
            let '(r, dm) := save (MkDisc (ups ∪ entries dm) (dm_store dm)) w in
            ((Z.of_nat (size ups), match r with Ok _ => None | Err e => Some ("persist after sync: " +:+ e) end), dm, Some s)
      | Ok _ => ((0, None), dm, Some s)
      end
  end.

(** ** Tool handlers *)

(** [None] is the manager before main has made it. *)
Definition no_manager {A} : tool_result A := errResult "discovery manager not initialized".

Definition handleDiscoveryRegister (mgr : option DiscoveryManager) (args : object) (now : Z) (w : save_outcome)
  : tool_result object * option DiscoveryManager :=
  match mgr with
  | None => (no_manager, None)
  | Some dm =>
      let name := argString args "name" in
      let host := argString args "host" in
      let port := argInt args "port" 0 in
      if name =s "" then (errResult "name is required", mgr)
      else if host =s "" then (errResult "host is required", mgr)
      else
        let '(r, dm) := Register dm name (argString args "container_id") host port now w in
        (of_res r (fun _ => [("status", VStr "registered"); ("name", VStr name);
                             ("endpoint", VStr (JoinHostPort host (pretty port)))]), Some dm)
  end.

Definition handleDiscoveryDeregister (mgr : option DiscoveryManager) (args : object) (w : save_outcome)
  : tool_result object * option DiscoveryManager :=
  match mgr with
  | None => (no_manager, None)
  | Some dm =>
      let name := argString args "name" in
      if name =s "" then (errResult "name is required", mgr)
      else
        let '(r, dm) := Deregister dm name w in
        (of_res r (fun _ => [("status", VStr "deregistered"); ("name", VStr name)]), Some dm)
  end.

Definition handleDiscoveryResolve (mgr : option DiscoveryManager) (args : object)
  : tool_result (string * string * ServiceEntry) :=
  match mgr with
  | None => no_manager
  | Some dm =>
      let name := argString args "name" in
      if name =s "" then errResult "name is required"
      else of_res (Resolve dm name) (fun p => (name, p.1, p.2))
  end.

Definition handleServiceListEntries (mgr : option DiscoveryManager) (client : option St) (args : object) (now : Z)
  (w : save_outcome) : tool_result (Z * list ServiceEntry) * option DiscoveryManager * option St :=
  match mgr with
  | None => (no_manager, None, client)
  | Some dm =>
      let '((err, dm), client) :=
        (if argString args "sync" =s "true" then
           let '((_, err), dm, client) := SyncFromContainers dm client now w in ((err, dm), client)
         else ((None, dm), client)) in
      match err with
      | Some e => (errResult ("sync failed: " +:+ e), Some dm, client)
      | None => (okResult (Z.of_nat (length (ListServices dm)), ListServices dm), Some dm, client)
      end
  end.

End Discovery.

(** ** Lemmas *)

Definition keyed (m : gmap string ServiceEntry) : Prop := map_Forall (fun n e => se_Name e = n) m.

Lemma keyed_add m e : keyed m -> keyed (add_entry m e).
Proof. intros Hm. by apply map_Forall_insert_2. Qed.

Lemma keyed_foldl l : forall m, keyed m -> keyed (foldl add_entry m l).
Proof. induction l as [|e l IH]; intros m Hm; [done|]. by apply IH, keyed_add. Qed.

Lemma keyed_union m m' : keyed m -> keyed m' -> keyed (m ∪ m').
Proof. intros Hm Hm' n e [He|[_ He]]%lookup_union_Some_raw; [by apply Hm|by apply Hm']. Qed.

(** Sorting the values of a keyed map and adding them back gives the map. *)
Lemma reload_sorted m : keyed m -> foldl add_entry ∅ (merge_sort entry_le (map_to_list m).*2) = m.
Proof.
  intros Hm. set (l := merge_sort entry_le _).
  assert (se_Name <$> l ≡ₚ (map_to_list m).*1) as Hnames.
  { unfold l. rewrite merge_sort_Permutation, <- list_fmap_compose. apply reflexive_eq, list_fmap_ext.
    intros i [n e] Hin%list_elem_of_lookup_2. apply elem_of_map_to_list in Hin. by apply Hm. }
  assert (forall e, e ∈ l <-> m !! se_Name e = Some e) as Hl.
  { intros e. unfold l. rewrite merge_sort_Permutation, list_elem_of_fmap. split.
    - intros ([n e'] & -> & Hin). apply elem_of_map_to_list in Hin. cbn [snd]. by rewrite (Hm n e' Hin : se_Name e' = n).
    - intros He. exists (se_Name e, e). by rewrite elem_of_map_to_list. }
  destruct (foldl_insert_lookup se_Name (fun e => e) l ∅) as [H1 H2].
  { rewrite Hnames. apply NoDup_fst_map_to_list. }
  apply map_eq. intros n. destruct (m !! n) as [e|] eqn:Hn.
  - pose proof (Hm n e Hn : se_Name e = n) as <-. apply H1. by apply Hl.
  - rewrite H2; [done|]. intros (e & -> & He%Hl)%list_elem_of_fmap. congruence.
Qed.

Definition disc_synced (dm : DiscoveryManager) : Prop :=
  keyed (entries dm) /\ (dm_store dm = Stored (ListServices dm) \/ dm_store dm = NoStore /\ entries dm = ∅).

Lemma synced_save m st : keyed m -> disc_synced (save (MkDisc m st) Saved).2.
Proof. intros Hm. split; [done|by left]. Qed.

Lemma synced_reload dm : disc_synced dm -> entries (newDiscoveryManager (dm_store dm)) = entries dm.
Proof.
  intros [Hk [Hs|[Hs He]]]; rewrite Hs; cbn; [|by rewrite He]. by apply reload_sorted.
Qed.

(** *** Histories *)

Section DiscoveryLemmas.
Context `{GoRuntime} {St : Type} `{!ContainerBackend St}.

Inductive disc_op : Type :=
  | ORegister (args : object) (now : Z)
  | ODeregister (args : object)
  | OSync (client : option St) (now : Z).

(** Operations whose writes succeed. *)
Definition disc_step (dm : DiscoveryManager) (o : disc_op) : DiscoveryManager :=
  match o with
  | ORegister args now => default dm (handleDiscoveryRegister (Some dm) args now Saved).2
  | ODeregister args => default dm (handleDiscoveryDeregister (Some dm) args Saved).2
  | OSync client now => (SyncFromContainers dm client now Saved).1.2
  end.

Lemma synced_step dm o : disc_synced dm -> disc_synced (disc_step dm o).
Proof.
  intros Hs. pose proof Hs as [Hk _]. destruct o as [args now|args|client now]; cbn [disc_step].
  - unfold handleDiscoveryRegister, Register. repeat (case_bool_decide; [done|]).
    destruct (_ || _); [done|]. cbn. apply synced_save. by apply keyed_add.
  - unfold handleDiscoveryDeregister, Deregister. case_bool_decide; [done|].
    destruct (entries dm !! _); [|done]. cbn. apply synced_save. by apply map_Forall_delete.
  - unfold SyncFromContainers. destruct client as [s|]; [|done]. destruct (ListSandboxes s "running" 100) as [[v|e] s']; [|done].
    destruct v; try done. destruct (_ =? _)%nat; [done|]. cbn. apply synced_save, keyed_union; [|done].
    apply keyed_foldl. apply map_Forall_empty.
Qed.

(** ** Theorems *)

(** After any history of registrations, removals and refreshes whose writes
    succeed, a restarted server finds the registry it had. *)
Theorem discovery_survives_restart (ops : list disc_op) :
  let dm := foldl disc_step (newDiscoveryManager NoStore) ops in
  entries (newDiscoveryManager (dm_store dm)) = entries dm.
Proof.
  intros dm. apply synced_reload. apply (foldl_inv disc_step disc_synced (fun _ => True)).
  - intros s o Hs _. by apply synced_step.
  - split; [apply map_Forall_empty|by right].
  - by apply Forall_forall.
Qed.

(** A registered service resolves to an endpoint from which the host is read
    back, IPv6 literals included, and no other name is affected. *)
Theorem registered_resolves dm name id host port now w dm'
  (Hreg : Register dm name id host port now w = (Ok tt, dm'))
  (Hhost : no_brackets host) :
  (exists endpoint, Resolve dm' name = Ok (endpoint, MkEntry name id host port now) /\ SplitHostPort endpoint = Some host) /\
  (0 <= port <= 65535) /\
  (forall other, other <> name -> Resolve dm' other = Resolve dm other).
Proof.
  revert Hreg. unfold Register. repeat (case_bool_decide; [done|]). destruct (_ || _) eqn:Hp; [done|].
  apply orb_false_iff in Hp as [Hp1%Z.ltb_ge Hp2%Z.ltb_ge]. destruct w; [|done|done]. intros [= <-].
  unfold Resolve. cbn [entries]. unfold add_entry. cbn [se_Name]. split; [|split; [lia|]].
  - rewrite lookup_insert_eq. eexists. split; [done|]. cbn [se_Host se_Port]. apply split_join; [done|].
    by apply pretty_nonneg.
  - intros other Hne. by rewrite lookup_insert_ne.
Qed.

(** A container without labels is registered by the refresh all the same: it
    takes the service name <nil>, with host <nil> and port 0, where the comment
    says that containers without the label are skipped. *)
Theorem sync_registers_unlabelled now o
  (Hlabels : asMap (obj_index o "labels") = []) :
  exists e, container_entry now (VObj o) = Some e /\ se_Name e = "<nil>" /\ se_Host e = "<nil>" /\ se_Port e = 0.
Proof.
  unfold container_entry. cbn [asMap]. rewrite Hlabels. by eexists.
Qed.

(** A port given as a label, which is text, is registered as port 0. *)
Theorem sync_port_label_ignored now o name port
  (Hname : obj_get discoveryLabelName (asMap (obj_index o "labels")) = Some (VStr name))
  (Hne : name <> "")
  (Hport : obj_get discoveryLabelPort (asMap (obj_index o "labels")) = Some (VStr port)) :
  exists e, container_entry now (VObj o) = Some e /\ se_Name e = name /\ se_Port e = 0.
Proof.
  unfold container_entry. cbn [asMap]. set (labels := asMap (obj_index o "labels")) in *.
  assert (toString (obj_index labels discoveryLabelName) = name) as En by (unfold obj_index; by rewrite Hname).
  assert (toInt (obj_index labels discoveryLabelPort) = 0) as Ep by (unfold obj_index; by rewrite Hport).
  rewrite bool_decide_false by (by rewrite En). eexists. split; [done|]. by split.
Qed.

End DiscoveryLemmas.

(** ** Concrete runs *)

#[local] Existing Instance demo_runtime.

Lemma registered_resolves_witness :
  let dm := newDiscoveryManager NoStore in
  let dm' := (Register dm "db" "c1" "fd00::7" 5432 9 Saved).2 in
  (exists endpoint, Resolve dm' "db" = Ok (endpoint, MkEntry "db" "c1" "fd00::7" 5432 9) /\ SplitHostPort endpoint = Some "fd00::7") /\
  (0 <= 5432 <= 65535) /\
  (forall other, other <> "db" -> Resolve dm' other = Resolve dm other).
Proof.
  apply (registered_resolves (newDiscoveryManager NoStore) "db" "c1" "fd00::7" 5432 9 Saved); [reflexivity|by split].
Defined.

Lemma sync_registers_unlabelled_witness :
  exists e, container_entry 5 (VObj [("sandboxID", VStr "c9"); ("labels", VNil)]) = Some e /\
    se_Name e = "<nil>" /\ se_Host e = "<nil>" /\ se_Port e = 0.
Proof. apply (sync_registers_unlabelled 5 [("sandboxID", VStr "c9"); ("labels", VNil)]). reflexivity. Defined.

Lemma sync_port_label_ignored_witness :
  exists e, container_entry 5 (VObj [("labels", VObj [("discovery.name", VStr "web"); ("discovery.port", VStr "8080")])]) = Some e /\
    se_Name e = "web" /\ se_Port e = 0.
Proof.
  apply (sync_port_label_ignored 5 [("labels", VObj [("discovery.name", VStr "web"); ("discovery.port", VStr "8080")])] "web" "8080");
    [reflexivity|discriminate|reflexivity].
Defined.
