(* ===== verification/Networking.v ===== *)
(** * Port mappings, DNS aliases and network policies (mcp-server-go/networking.go)

    The manager keeps one JSON file per object in three directories and edits
    the hosts file.  A directory is a map from identifiers (the file name
    without its extension) to the decoded object; whether a write succeeds,
    which the code does not look at, is an argument.  The random identifiers
    and the time stamp are arguments too. *)
From S2P Require Import Prelude GoStrings GoValue NetIP Security.
From Stdlib Require Import Ascii.

Open Scope string_scope.
Open Scope Z_scope.

(** ** Data *)

Record PortMapping : Type := MkPM {
  pm_ID : string; pm_ContainerID : string; pm_HostPort : Z; pm_ContainerPort : Z;
  pm_Protocol : string; pm_HostIP : string; pm_CreatedAt : string;
}.

Record DNSAlias : Type := MkDNS {
  da_ID : string; da_Alias : string; da_ContainerID : string; da_Target : string; da_CreatedAt : string;
}.

Record NetworkPolicy : Type := MkNP {
  np_ID : string; np_Name : string; np_Source : string; np_Dest : string; np_Action : string;
  np_Protocol : string; np_Port : Z; np_CreatedAt : string;
}.

(** [hosts] is the hosts file, [None] when it cannot be read. *)
Record NetworkManager : Type := MkNet {
  ports : gmap string PortMapping;
  dns : gmap string DNSAlias;
  policies : gmap string NetworkPolicy;
  hosts : option string;
}.

Definition set_ports (nm : NetworkManager) (m : gmap string PortMapping) : NetworkManager :=
  MkNet m (dns nm) (policies nm) (hosts nm).
Definition set_dns (nm : NetworkManager) (m : gmap string DNSAlias) : NetworkManager :=
  MkNet (ports nm) m (policies nm) (hosts nm).
Definition set_policies (nm : NetworkManager) (m : gmap string NetworkPolicy) : NetworkManager :=
  MkNet (ports nm) (dns nm) m (hosts nm).
Definition set_hosts (nm : NetworkManager) (h : option string) : NetworkManager :=
  MkNet (ports nm) (dns nm) (policies nm) h.

(** ** Persistence *)

Definition port_le (a b : PortMapping) : Prop := pm_HostPort a <= pm_HostPort b.
Definition alias_le (a b : DNSAlias) : Prop := String.le (da_Alias a) (da_Alias b).
Definition policy_le (a b : NetworkPolicy) : Prop := String.le (np_Name a) (np_Name b).

#[global] Instance port_le_dec a b : Decision (port_le a b).
Proof. unfold port_le. apply _. Defined.
#[global] Instance alias_le_dec a b : Decision (alias_le a b).
Proof. unfold alias_le. apply _. Defined.
#[global] Instance policy_le_dec a b : Decision (policy_le a b).
Proof. unfold policy_le. apply _. Defined.

(** A write that fails leaves no decodable file behind. *)
Definition savePortMapping (nm : NetworkManager) (pm : PortMapping) (wrote : bool) : NetworkManager :=
  set_ports nm (if wrote then <[pm_ID pm := pm]> (ports nm) else delete (pm_ID pm) (ports nm)).
Definition saveDNSAlias (nm : NetworkManager) (d : DNSAlias) (wrote : bool) : NetworkManager :=
  set_dns nm (if wrote then <[da_ID d := d]> (dns nm) else delete (da_ID d) (dns nm)).
Definition saveNetworkPolicy (nm : NetworkManager) (p : NetworkPolicy) (wrote : bool) : NetworkManager :=
  set_policies nm (if wrote then <[np_ID p := p]> (policies nm) else delete (np_ID p) (policies nm)).

Definition listPortMappingsLocked (nm : NetworkManager) : list PortMapping :=
  merge_sort port_le (map_to_list (ports nm)).*2.
Definition listDNSAliasesLocked (nm : NetworkManager) : list DNSAlias :=
  merge_sort alias_le (map_to_list (dns nm)).*2.
Definition listNetworkPoliciesLocked (nm : NetworkManager) : list NetworkPolicy :=
  merge_sort policy_le (map_to_list (policies nm)).*2.

Definition removePortMappingFile (nm : NetworkManager) (pm : PortMapping) : NetworkManager :=
  set_ports nm (delete (pm_ID pm) (ports nm)).
Definition removeDNSAliasFile (nm : NetworkManager) (d : DNSAlias) : NetworkManager :=
  set_dns nm (delete (da_ID d) (dns nm)).
Definition removeNetworkPolicyFile (nm : NetworkManager) (p : NetworkPolicy) : NetworkManager :=
  set_policies nm (delete (np_ID p) (policies nm)).

(** ** Port mappings *)

(** The checks of a request; protocol and address come back with defaults. *)
Definition check_port_request (containerID : string) (hostPort containerPort : Z) (protocol hostIP : string)
  : res (string * string) :=
  reject negb (is_ok (validateSafeName containerID)) && (containerID =s "") with "container_id is required" ;;
  reject (hostPort <? 1) || (65535 <? hostPort) with "host_port must be 1-65535" ;;
  reject (containerPort <? 1) || (65535 <? containerPort) with "container_port must be 1-65535" ;;
  let protocol := if protocol =s "" then "tcp" else protocol in
  reject (protocol <>s "tcp") && (protocol <>s "udp") with "protocol must be tcp or udp" ;;
  Ok (protocol, if hostIP =s "" then "0.0.0.0" else hostIP).

(** The same host port, protocol and listen address. *)
Definition conflicts (hostPort : Z) (protocol hostIP : string) (pm : PortMapping) : Prop :=
  pm_HostPort pm = hostPort /\ pm_Protocol pm = protocol /\ pm_HostIP pm = hostIP.

#[global] Instance conflicts_dec hp pr ip pm : Decision (conflicts hp pr ip pm).
Proof. unfold conflicts. apply _. Defined.

(** The first half of [AddPortMapping], before the lock is taken. *)
Definition prepare_mapping (nm : NetworkManager) (containerID : string) (hostPort containerPort : Z)
    (protocol hostIP rid now : string) : res PortMapping :=
  match check_port_request containerID hostPort containerPort protocol hostIP with
  | Err m => Err m
  | Ok (protocol, hostIP) =>
      match list_find (conflicts hostPort protocol hostIP) (listPortMappingsLocked nm) with
      | Some (_, pm) =>
          Err ("port " +:+ pretty hostPort +:+ "/" +:+ protocol +:+ " on " +:+ hostIP +:+
               " is already mapped to container " +:+ pm_ContainerID pm)
      | None => Ok (MkPM ("pm_" +:+ rid) containerID hostPort containerPort protocol hostIP now)
      end
  end.

(** Both halves without interruption; applying the mapping only logs. *)
Definition AddPortMapping (nm : NetworkManager) (containerID : string) (hostPort containerPort : Z)
    (protocol hostIP rid now : string) (wrote : bool) : res PortMapping * NetworkManager :=
  match prepare_mapping nm containerID hostPort containerPort protocol hostIP rid now with
  | Err m => (Err m, nm)
  | Ok pm => (Ok pm, savePortMapping nm pm wrote)
  end.

Definition RemovePortMapping (nm : NetworkManager) (mappingID : string) : res unit * NetworkManager :=
  match list_find (fun pm => pm_ID pm = mappingID) (listPortMappingsLocked nm) with
  | Some (_, pm) => (Ok tt, removePortMappingFile nm pm)
  | None => (Err ("port mapping " +:+ mappingID +:+ " not found"), nm)
  end.

Definition ListPortMappings (nm : NetworkManager) : res (list PortMapping) := Ok (listPortMappingsLocked nm).

(** ** DNS aliases and the hosts file *)

Definition nl : ascii := "010"%char.
Definition blanks : string := String nl (String "013"%char (String "009"%char " ")).

(** What becomes of a write to the hosts file: done, the file not opened, or
    [n] bytes written before an error. *)
Inductive host_write : Type := HostsWritten | HostsRefused | HostsCut (n : nat).

(** A file that cannot be read stays unreadable. *)
Definition addToHosts (h : option string) (alias target : string) (w : host_write) : option string :=
  match h with
  | None => None
  | Some data =>
      if Contains data alias then h
      else
        let entry := String nl "" +:+ target +:+ " " +:+ alias +:+ "  # cube-container" +:+ String nl "" in
        match w with
        | HostsWritten => Some (data +:+ entry)
        | HostsRefused => h
        | HostsCut n => Some (data +:+ str_take n entry)
        end
  end.

Definition removeFromHosts (h : option string) (alias : string) (w : host_write) : option string :=
  match h with
  | None => None
  | Some data =>
      let kept := filter (fun line => Contains line alias = false) (Split data nl) in
      match w with
      | HostsWritten => Some (Join kept (String nl ""))
      | HostsRefused => h
      | HostsCut n => Some (str_take n (Join kept (String nl "")))
      end
  end.

Definition AddDNSAlias (nm : NetworkManager) (alias containerID target rid now : string) (wrote : bool) (w : host_write)
  : res DNSAlias * NetworkManager :=
  match
    (reject alias =s "" with "alias is required" ;;
     reject negb (Contains alias ".") with "alias must be a FQDN (e.g. myapp.cube.local)" ;;
     reject ContainsAny alias blanks with "alias contains invalid characters (whitespace/newlines forbidden)" ;;
     reject containerID =s "" with "container_id is required" ;;
     reject target =s "" with "target is required (container IP)" ;;
     reject bool_decide (ParseIP target = None) with
       "target must be a valid IP address (got '" +:+ target +:+ "')" ;;
     Ok (MkDNS ("dns_" +:+ rid) alias containerID target now))
  with
  | Err m => (Err m, nm)
  | Ok d =>
      let nm := saveDNSAlias nm d wrote in
      (Ok d, set_hosts nm (addToHosts (hosts nm) alias target w))
  end.

Definition RemoveDNSAlias (nm : NetworkManager) (alias : string) (w : host_write) : res unit * NetworkManager :=
  match list_find (fun a => da_Alias a = alias) (listDNSAliasesLocked nm) with
  | Some (_, a) =>
      let nm := removeDNSAliasFile nm a in
      (Ok tt, set_hosts nm (removeFromHosts (hosts nm) (da_Alias a) w))
  | None => (Err ("DNS alias " +:+ alias +:+ " not found"), nm)
  end.

Definition ListDNSAliases (nm : NetworkManager) : res (list DNSAlias) := Ok (listDNSAliasesLocked nm).

(** ** Network policies: recorded, not applied *)

Definition AddNetworkPolicy (nm : NetworkManager) (name source dest action protocol : string) (port : Z)
    (rid now : string) (wrote : bool) : res NetworkPolicy * NetworkManager :=
  if name =s "" then (Err "policy name is required", nm)
  else if (action <>s "allow") && (action <>s "deny") then (Err "action must be 'allow' or 'deny'", nm)
  else
    let protocol := if protocol =s "" then "tcp" else protocol in
    let p := MkNP ("np_" +:+ rid) name source dest action protocol port now in
    (Ok p, saveNetworkPolicy nm p wrote).

Definition RemoveNetworkPolicy (nm : NetworkManager) (policyID : string) : res unit * NetworkManager :=
  match list_find (fun p => np_ID p = policyID) (listNetworkPoliciesLocked nm) with
  | Some (_, p) => (Ok tt, removeNetworkPolicyFile nm p)
  | None => (Err ("network policy " +:+ policyID +:+ " not found"), nm)
  end.

Definition ListNetworkPolicies (nm : NetworkManager) : res (list NetworkPolicy) := Ok (listNetworkPoliciesLocked nm).

(** ** Tool handlers *)

Section Handlers.
Context `{GoRuntime}.

Definition handleAddPortMapping (nm : NetworkManager) (args : object) (rid now : string) (wrote : bool)
  : tool_result PortMapping * NetworkManager :=
  let containerID := argString args "container_id" in
  if containerID =s "" then (errResult "container_id is required", nm)
  else
    let '(r, nm) := AddPortMapping nm containerID (argInt args "host_port" 0) (argInt args "container_port" 0)
                      (argString args "protocol") (argString args "host_ip") rid now wrote in
    (of_res r (fun pm => pm), nm).

Definition handleRemovePortMapping (nm : NetworkManager) (args : object) : tool_result object * NetworkManager :=
  let mappingID := argString args "mapping_id" in
  if mappingID =s "" then (errResult "mapping_id is required", nm)
  else
    let '(r, nm) := RemovePortMapping nm mappingID in
    (of_res r (fun _ => [("mapping_id", VStr mappingID); ("status", VStr "removed")]), nm).

Definition handleListPortMappings (nm : NetworkManager) : tool_result (list PortMapping) :=
  of_res (ListPortMappings nm) (fun l => l).

Definition handleAddDNSAlias (nm : NetworkManager) (args : object) (rid now : string) (wrote : bool) (w : host_write)
  : tool_result DNSAlias * NetworkManager :=
  let '(r, nm) := AddDNSAlias nm (argString args "alias") (argString args "container_id") (argString args "target")
                    rid now wrote w in
  (of_res r (fun d => d), nm).

Definition handleRemoveDNSAlias (nm : NetworkManager) (args : object) (w : host_write)
  : tool_result object * NetworkManager :=
  let alias := argString args "alias" in
  let '(r, nm) := RemoveDNSAlias nm alias w in
  (of_res r (fun _ => [("alias", VStr alias); ("status", VStr "removed")]), nm).

Definition handleListDNSAliases (nm : NetworkManager) : tool_result (list DNSAlias) :=
  of_res (ListDNSAliases nm) (fun l => l).

Definition handleAddNetworkPolicy (nm : NetworkManager) (args : object) (rid now : string) (wrote : bool)
  : tool_result NetworkPolicy * NetworkManager :=
  let '(r, nm) := AddNetworkPolicy nm (argString args "name") (argString args "source_container")
                    (argString args "dest_container") (argString args "action") (argString args "protocol")
                    (argInt args "port" 0) rid now wrote in
  (of_res r (fun p => p), nm).

Definition handleListNetworkPolicies (nm : NetworkManager) : tool_result (list NetworkPolicy) :=
  of_res (ListNetworkPolicies nm) (fun l => l).

Definition handleRemoveNetworkPolicy (nm : NetworkManager) (args : object) : tool_result object * NetworkManager :=
  let policyID := argString args "policy_id" in
  let '(r, nm) := RemoveNetworkPolicy nm policyID in
  (of_res r (fun _ => [("policy_id", VStr policyID); ("status", VStr "removed")]), nm).

End Handlers.

(** ** Histories of port mappings *)

Inductive port_op : Type :=
  | PAdd (containerID : string) (hostPort containerPort : Z) (protocol hostIP rid now : string) (wrote : bool)
  | PRemove (mappingID : string).

Definition port_step (nm : NetworkManager) (o : port_op) : NetworkManager :=
  match o with
  | PAdd c hp cp pr ip rid now w => (AddPortMapping nm c hp cp pr ip rid now w).2
  | PRemove id => (RemovePortMapping nm id).2
  end.

Definition emptyNet (h : option string) : NetworkManager := MkNet ∅ ∅ ∅ h.

(** Concurrent requests: the check runs before the lock is taken, so a request
    is begun in one step and committed in another. *)
Inductive port_conc : NetworkManager * list PortMapping -> NetworkManager * list PortMapping -> Prop :=
  | conc_begin nm pending c hp cp pr ip rid now pm :
      prepare_mapping nm c hp cp pr ip rid now = Ok pm ->
      port_conc (nm, pending) (nm, pm :: pending)
  | conc_commit nm before pm after wrote :
      port_conc (nm, before ++ pm :: after)%list (savePortMapping nm pm wrote, before ++ after)%list
  | conc_remove nm pending id :
      port_conc (nm, pending) ((RemovePortMapping nm id).2, pending).

(** ** Invariant *)

Definition mapping_ok (pm : PortMapping) : Prop :=
  1 <= pm_HostPort pm <= 65535 /\ 1 <= pm_ContainerPort pm <= 65535 /\
  (pm_Protocol pm = "tcp" \/ pm_Protocol pm = "udp") /\ pm_HostIP pm <> "".

Definition same_port (a b : PortMapping) : Prop := conflicts (pm_HostPort a) (pm_Protocol a) (pm_HostIP a) b.

Definition ports_ok (nm : NetworkManager) : Prop :=
  map_Forall (fun id pm => pm_ID pm = id /\ mapping_ok pm) (ports nm) /\
  forall i j a b, ports nm !! i = Some a -> ports nm !! j = Some b -> same_port a b -> i = j.

(** ** Lemmas *)

Lemma elem_listPortMappings nm pm : pm ∈ listPortMappingsLocked nm <-> exists id, ports nm !! id = Some pm.
Proof.
  unfold listPortMappingsLocked. rewrite merge_sort_Permutation, list_elem_of_fmap. split.
  - intros ([id pm'] & -> & Hin%elem_of_map_to_list). eauto.
  - intros [id Hid]. exists (id, pm). split; [done|]. by apply elem_of_map_to_list.
Qed.

Lemma prepare_ok nm c hp cp pr ip rid now pm : prepare_mapping nm c hp cp pr ip rid now = Ok pm ->
  mapping_ok pm /\ forall id pm', ports nm !! id = Some pm' -> ~ same_port pm pm'.
Proof.
  unfold prepare_mapping, check_port_request. destruct (_ && _); [done|].
  destruct ((hp <? 1) || _) eqn:H1; [done|]. destruct ((cp <? 1) || _) eqn:H2; [done|].
  set (pr' := if pr =s "" then "tcp" else pr). destruct (_ && _) eqn:H3; [done|].
  set (ip' := if ip =s "" then "0.0.0.0" else ip). cbn iota beta.
  assert (ip' <> "") as Hip by (unfold ip'; by destruct (bool_decide_reflect (ip = ""))).
  destruct (list_find _ _) as [[? ?]|] eqn:Hf; [done|]. intros [= <-].
  rewrite orb_false_iff, !Z.ltb_ge in H1, H2. split.
  - split_and!; cbn; try lia.
    + rewrite andb_false_iff, !negb_false_iff, !bool_decide_eq_true in H3. done.
    + exact Hip.
  - intros id pm' Hid Hsame. rewrite list_find_None, Forall_forall in Hf.
    apply (Hf pm'); [|done]. apply elem_listPortMappings. eauto.
Qed.

Lemma ports_ok_save nm pm w : ports_ok nm -> mapping_ok pm ->
  (forall id pm', ports nm !! id = Some pm' -> ~ same_port pm pm') ->
  ports_ok (savePortMapping nm pm w).
Proof.
  intros [Hk Hu] Hok Hnew. unfold savePortMapping. destruct w; split; cbn.
  - by apply map_Forall_insert_2.
  - intros i j a b. rewrite !lookup_insert_Some. intros [[<- <-]|[Hi Ha]] [[<- <-]|[Hj Hb]] Hs; [done| | |by eapply Hu].
    + by destruct (Hnew j b Hb).
    + destruct (Hnew i a Ha). unfold same_port, conflicts in *. naive_solver.
  - by apply map_Forall_delete.
  - intros i j a b [_ Ha]%lookup_delete_Some [_ Hb]%lookup_delete_Some. by apply Hu.
Qed.

Lemma port_step_ok nm o : ports_ok nm -> ports_ok (port_step nm o).
Proof.
  intros Hok. destruct o as [c hp cp pr ip rid now w|id]; cbn [port_step].
  - unfold AddPortMapping. destruct (prepare_mapping _ _ _ _ _ _ _ _) as [pm|m] eqn:Hp; [|done].
    apply prepare_ok in Hp as [Hm Hnew]. by apply ports_ok_save.
  - unfold RemovePortMapping. destruct (list_find _ _) as [[i pm]|]; [|done]. destruct Hok as [Hk Hu]. split; cbn.
    + by apply map_Forall_delete.
    + intros i' j a b [_ Ha]%lookup_delete_Some [_ Hb]%lookup_delete_Some. by apply Hu.
Qed.

(** *** Lines of a file *)

Lemma Contains_app_l s t u : Contains s u = true -> Contains (s +:+ t) u = true.
Proof.
  rewrite !Contains_spec. intros (l & r & ->). exists l, (r +:+ t). by rewrite !app_assoc_str.
Qed.

Lemma Contains_app_r s t u : Contains t u = true -> Contains (s +:+ t) u = true.
Proof.
  rewrite !Contains_spec. intros (l & r & ->). exists (s +:+ l), r. by rewrite app_assoc_str.
Qed.

Lemma Join_lines_free ls u : Contains (Join ls (String nl "")) u = false -> Forall (fun l => Contains l u = false) ls.
Proof.
  induction ls as [|l [|l2 ls] IH]; [constructor|intros Hc; by constructor|]. rewrite Join_cons by done.
  intros Hc. constructor.
  - destruct (Contains l u) eqn:Hl; [|done]. by rewrite (Contains_app_l _ _ _ Hl) in Hc.
  - apply IH. destruct (Contains (Join _ _) u) eqn:Hl; [|done].
    assert (Contains (l +:+ String nl (Join (l2 :: ls) (String nl ""))) u = true) as Hy; [|by rewrite Hy in Hc].
    apply Contains_app_r. change (String nl ?s) with (String nl "" +:+ s). by apply Contains_app_r.
Qed.

(** A byte other than the newline that no line contains is not in the file. *)
Lemma Join_free ls c : c <> nl -> Forall (fun l => Contains l (String c "") = false) ls ->
  Contains (Join ls (String nl "")) (String c "") = false.
Proof.
  intros Hc. induction ls as [|l [|l2 ls] IH]; [done|by intros [? _]%Forall_cons|]. intros [Hl Hls]%Forall_cons.
  specialize (IH Hls). rewrite Join_cons by done. rewrite Contains_byte in *.
  change (String nl ?s) with (String nl "" +:+ s). rewrite !index_any_app, Hl, IH.
  unfold index_any, str_any. cbn [str_all]. rewrite bool_decide_false by done. done.
Qed.

(** ** Properties *)

(** Requests handled one at a time never map a host port twice: after any
    history of additions and removals, with writes that fail or not, no two
    stored mappings share port, protocol and listen address, and every mapping
    is within the ports that exist. *)
Theorem ports_conflict_free h l : ports_ok (foldl port_step (emptyNet h) l).
Proof.
  apply (foldl_inv port_step ports_ok (fun _ => True)); [by auto using port_step_ok| |by apply Forall_true].
  split; [apply map_Forall_empty|]. intros i j a b Ha. cbn in Ha. by rewrite lookup_empty in Ha.
Qed.

(** Concurrent requests can: the conflict check is made without the lock,
    and two requests for the same port that overlap are both stored. *)
Theorem concurrent_ports_conflict :
  exists nm, rtc port_conc (emptyNet None, []) (nm, []) /\
    exists i j a b, i <> j /\ ports nm !! i = Some a /\ ports nm !! j = Some b /\ same_port a b.
Proof.
  set (a := MkPM "pm_1" "web" 8080 80 "tcp" "0.0.0.0" "t"). set (b := MkPM "pm_2" "api" 8080 90 "tcp" "0.0.0.0" "t").
  exists (savePortMapping (savePortMapping (emptyNet None) a true) b true). split.
  - eapply rtc_l; [by apply (conc_begin _ _ "web" 8080 80 "" "" "1" "t" a)|].
    eapply rtc_l; [by apply (conc_begin _ _ "api" 8080 90 "" "" "2" "t" b)|].
    eapply rtc_l; [apply (conc_commit _ [b] a [] true)|]. apply rtc_once. apply (conc_commit _ [] b [] true).
  - exists "pm_1", "pm_2", a, b. done.
Qed.

(** Removing an alias removes every line of the hosts file in which its text
    occurs and keeps the others in order. *)
Theorem removeFromHosts_lines data alias :
  let kept := filter (fun line => Contains line alias = false) (Split data nl) in
  removeFromHosts (Some data) alias HostsWritten = Some (Join kept (String nl "")) /\
  (kept <> [] -> Split (Join kept (String nl "")) nl = kept) /\
  Forall (fun line => Contains line alias = false) kept.
Proof.
  split; [done|]. split.
  - intros Hne. apply Split_Join; [done|]. apply Forall_filter_keep, Split_fields.
  - apply Forall_forall. intros l Hl. by apply list_elem_of_filter in Hl as [? _].
Qed.

(** Adding an alias that does not occur in the hosts file and removing it
    again restores the file up to one newline at its end. *)
Theorem hosts_roundtrip data alias target
  (Hnew : Contains data alias = false) (Hne : alias <> "")
  (Hal : index_any alias nl = false) (Hta : index_any target nl = false) :
  removeFromHosts (addToHosts (Some data) alias target HostsWritten) alias HostsWritten = Some (data +:+ String nl "").
Proof.
  unfold addToHosts. cbn zeta. rewrite Hnew. cbn [removeFromHosts]. f_equal.
  set (entry := target +:+ (" " +:+ (alias +:+ "  # cube-container"))).
  assert (data +:+ (String nl "" +:+ (target +:+ (" " +:+ (alias +:+ ("  # cube-container" +:+ String nl ""))))) =
          data +:+ String nl (entry +:+ String nl "")) as ->.
  { unfold entry. rewrite !app_assoc_str. done. }
  rewrite Split_app, Split_app.
  assert (index_any entry nl = false) as He.
  { unfold entry. rewrite !index_any_app, Hal, Hta. done. }
  rewrite (Split_none nl entry), (Split_none nl "") by done. rewrite !filter_app.
  assert (filter (fun line => Contains line alias = false) (Split data nl) = Split data nl) as ->.
  { apply filter_all, Join_lines_free. by rewrite Join_Split. }
  assert (Contains entry alias = true) as Hc.
  { apply Contains_spec. exists (target +:+ " "), "  # cube-container". unfold entry. by rewrite !app_assoc_str. }
  rewrite (filter_cons_False _ entry) by congruence.
  rewrite (filter_cons_True _ ""); [|by destruct alias]. rewrite !filter_nil. cbn [app].
  rewrite <- (Join_Split nl data) at 2. generalize (Split_ne nl data). generalize (Split data nl). clear.
  induction l as [|l ls IH]; [done|]. intros _. destruct ls as [|l2 ls]; [done|].
  cbn [app] in *. rewrite (Join_cons nl l (l2 :: ls ++ _)), (Join_cons nl l (l2 :: ls)), IH by done.
  by rewrite app_assoc_str, app_cons_str.
Qed.

Lemma hosts_roundtrip_witness :
  removeFromHosts (addToHosts (Some "127.0.0.1 localhost") "app.cube.local" "10.0.0.9" HostsWritten) "app.cube.local" HostsWritten =
  Some ("127.0.0.1 localhost" +:+ String nl "").
Proof. apply (hosts_roundtrip "127.0.0.1 localhost" "app.cube.local" "10.0.0.9"); done. Defined.

(** The alias consisting of a single dot passes every check, and removing it
    empties the hosts file of every line that contains a dot, the loopback
    entry included. *)
Theorem dot_alias_clears_hosts h :
  let nm := emptyNet (Some h) in
  let '(r1, nm) := AddDNSAlias nm "." "c1" "10.0.0.9" "1" "t" true HostsWritten in
  let '(r2, nm) := RemoveDNSAlias nm "." HostsWritten in
  is_ok r1 = true /\ is_ok r2 = true /\
  exists h', hosts nm = Some h' /\ Contains h' "." = false.
Proof.
  cbn zeta. unfold AddDNSAlias.
  change (bool_decide (ParseIP "10.0.0.9" = None)) with false. cbn [is_ok].
  change ("." =s "") with false. change (negb (Contains "." ".")) with false.
  change (ContainsAny "." blanks) with false. change ("c1" =s "") with false. change ("10.0.0.9" =s "") with false.
  cbn iota. set (d := MkDNS _ _ _ _ _).
  set (nm := set_hosts _ _). unfold RemoveDNSAlias.
  assert (listDNSAliasesLocked nm = [d]) as -> by reflexivity.
  change (list_find _ [d]) with (Some (0%nat, d)). cbn iota. split; [done|]. split; [done|].
  cbn [hosts set_hosts removeDNSAliasFile set_dns nm]. cbn [saveDNSAlias hosts set_dns emptyNet].
  set (o := addToHosts _ _ _ _). assert (exists s, o = Some s) as [s ->].
  { unfold o, addToHosts. destruct (Contains _ _); cbn; eauto. }
  cbn [removeFromHosts]. eexists. split; [done|].
  apply Join_free; [done|]. apply Forall_forall. intros l Hl. by apply list_elem_of_filter in Hl as [? _].
Qed.

Example dot_alias_example :
  let nm := emptyNet (Some ("127.0.0.1 localhost" +:+ String nl "::1 ip6-localhost")) in
  let nm := (AddDNSAlias nm "." "c1" "10.0.0.9" "1" "t" true HostsWritten).2 in
  hosts (RemoveDNSAlias nm "." HostsWritten).2 = Some "::1 ip6-localhost".
Proof. vm_compute. reflexivity. Qed.
