(* ===== verification/Routes.v ===== *)
(** * Reverse-proxy routes (mcp-server-go/routing.go)

    A route is a file; from the files the manager writes the configuration that the proxy
    reads.  Whoever may create a route chooses two texts that end up in it, a domain and a
    path prefix.

    What the file system answers is an argument ([route_env]); a file that does not decode
    is [None]. *)
From S2P Require Import Prelude GoStrings GoValue HA Nodes.
From Stdlib Require Import Ascii.

Open Scope string_scope.
Open Scope Z_scope.

(** ** Lines and words *)

Definition nl : string := String "010"%char "".
Definition text_of (ls : list string) : string := foldr (fun l acc => l +:+ (nl +:+ acc)) "" ls.

Lemma text_of_app a b : text_of (a ++ b) = text_of a +:+ text_of b.
Proof. induction a as [|l a IH]; cbn [text_of foldr app]; [done|]. fold (text_of (a ++ b)) (text_of a). by rewrite IH, !app_assoc_str. Qed.

Lemma Split_text_of ls : Forall (fun l => index_any l "010"%char = false) ls -> Split (text_of ls) "010"%char = (ls ++ [""])%list.
Proof.
  induction 1 as [|l ls Hl _ IH]; [done|]. cbn [text_of foldr]. fold (text_of ls). unfold nl. rewrite app_cons_str, app_nil_l_str, Split_app, IH.
  by rewrite Split_none.
Qed.

Lemma fields_go_cons cur a b s : fields_go cur (String a (String b s)) =
  if space1 a then flush cur (fields_go "" (String b s))
  else if space2 a b then flush cur (fields_go "" s)
  else match s with
       | String c s3 => if space3 a b c then flush cur (fields_go "" s3) else fields_go (String a cur) (String b s)
       | EmptyString => fields_go (String a cur) (String b s)
       end.
Proof. reflexivity. Qed.

(** A space between two texts separates their words. *)
Lemma fields_go_space n : forall s cur t, (String.length s <= n)%nat ->
  fields_go cur (s +:+ String " " t) = (fields_go cur s ++ Fields t)%list.
Proof.
  assert (Hflush : forall cur l r, flush cur (l ++ r) = (flush cur l ++ r)%list) by (intros [|] l r; done).
  induction n as [|n IH]; intros s cur t Hn.
  - destruct s; [|cbn in Hn; lia]. cbn. rewrite <- (Hflush cur [] (Fields t)). done.
  - destruct s as [|a s]; [cbn; by rewrite <- (Hflush cur [] (Fields t))|]. cbn in Hn.
    assert (Hs2 : forall a, space2 a " " = false) by (intros; unfold space2; cbn; apply andb_false_r).
    assert (Hs3 : forall a b, space3 a b " " = false) by (intros; unfold space3; cbn; by rewrite !andb_false_r).
    assert (Hs3' : forall a c, space3 a " " c = false) by (intros; unfold space3; cbn; by rewrite !andb_false_r).
    rewrite app_cons_str. destruct s as [|b s].
    + rewrite app_nil_l_str. cbn [fields_go]. destruct (space1 a); [cbn; by rewrite <- (Hflush cur [] (Fields t))|].
      rewrite Hs2. destruct t as [|c t]; [cbn; done|]. rewrite Hs3'. cbn. done.
    + cbn in Hn. rewrite app_cons_str, !fields_go_cons. destruct (space1 a).
      { rewrite <- Hflush. f_equal. change (String b (s +:+ String " " t)) with (String b s +:+ String " " t). apply IH. cbn. lia. }
      destruct (space2 a b); [rewrite <- Hflush; f_equal; apply IH; lia|]. destruct s as [|c s].
      * rewrite app_nil_l_str. rewrite Hs3. change (String b (String " " t)) with (String b "" +:+ String " " t). apply IH. cbn. lia.
      * rewrite app_cons_str. destruct (space3 a b c); [rewrite <- Hflush; f_equal; apply IH; cbn in Hn; lia|].
        change (String b (String c (s +:+ String " " t))) with (String b (String c s) +:+ String " " t). apply IH. cbn in *. lia.
Qed.

Lemma Fields_space s t : Fields (s +:+ String " " t) = (Fields s ++ Fields t)%list.
Proof. apply (fields_go_space (String.length s)). done. Qed.

Lemma fields_plain s : forall cur, str_all plain s = true -> fields_go cur s = flush (String.rev s +:+ cur) [].
Proof.
  induction s as [|a s IH]; intros cur Hs; [done|]. cbn [str_all] in Hs. apply andb_true_iff in Hs as [Ha Hs].
  assert (E : fields_go cur (String a s) = fields_go (String a cur) s).
  { cbn [fields_go]. destruct s as [|b [|c s]].
    - by destruct (plain_not_space a a a Ha) as (-> & _).
    - by destruct (plain_not_space a b b Ha) as (-> & -> & _).
    - by destruct (plain_not_space a b c Ha) as (-> & -> & -> & _). }
  rewrite E, IH by done. f_equal. by rewrite rev_cons_str, app_assoc_str.
Qed.

Lemma Fields_plain s : str_all plain s = true -> s <> "" -> Fields s = [s].
Proof.
  intros Hs Hne. unfold Fields. rewrite fields_plain, app_nil_r_str by done. destruct (String.rev s) as [|a r] eqn:E.
  - exfalso. apply Hne. rewrite <- (rev_rev_str s), E. done.
  - cbn [flush]. by rewrite <- E, rev_rev_str.
Qed.

(** ** Data *)

Record Route : Type := MkRoute {
  rt_Domain : string; rt_ContainerID : string; rt_TargetPort : Z; rt_TLSEnabled : bool; rt_CreatedAt : Z; rt_PathPrefix : string;
}.

Record RouteManager : Type := MkRoutes {
  route_files : gmap string (option Route);
  caddy_config : option string;
  caddy_reloads : Z;
}.

Inductive conf_write : Type := Written | Unwritten (e : string) | Torn (content e : string).

Record route_env : Type := MkRouteEnv {
  o_mkdir : option string; o_write : save_outcome; o_remove : option string; o_list : option string; o_confdir : option string; o_conf : conf_write;
  o_now : Z;
}.

Definition starter : string := "# Auto-created by cube-container MCP. Dynamic routes appear here." +:+ nl.
Definition newRouteManager (files : gmap string (option Route)) (config : option string) : RouteManager :=
  MkRoutes files (Some (default starter config)) 0.

Definition routeFileName (domain : string) : string := str_map sanitize_byte domain +:+ ".json".

(** ** Validation *)

Definition domain_byte (a : ascii) : bool := is_alnum a || char_in ".-_:*" a.
Definition domain_forbidden : string := nl +:+ String "013"%char (String "009"%char " {}();|&<>`$\'") +:+ String "034"%char "".
Definition prefix_forbidden : string := nl +:+ String "013"%char (String "009"%char " {};|&<>`$\'") +:+ String "034"%char "".

(** The text from the first byte that is not allowed. *)
Fixpoint from_bad (s : string) : option string :=
  match s with EmptyString => None | String a s' => if domain_byte a then from_bad s' else Some s end.

Section Routes.
Context `{!TimeText}.
(** [%q] of the character a text begins with. *)
Context (quote_first : string -> string).

Definition validateDomain (domain : string) : res unit :=
  reject domain =s "" with "domain is required" ;;
  reject 253 <? Z.of_nat (String.length domain) with "domain too long (max 253 chars per RFC 1035)" ;;
  match from_bad domain with
  | Some bad => Err ("domain contains invalid character " +:+ quote_first bad +:+ " (only alphanumeric, dots, hyphens, underscores, wildcards allowed)")
  | None =>
      reject ContainsAny domain domain_forbidden with "domain contains forbidden characters (config injection prevention)" ;;
      Ok tt
  end.

Definition validatePathPrefix (prefix : string) : res unit :=
  if prefix =s "" then Ok tt
  else
    reject 500 <? Z.of_nat (String.length prefix) with "path prefix too long" ;;
    reject ContainsAny prefix prefix_forbidden with "path prefix contains forbidden characters" ;;
    Ok tt.

(** ** The configuration *)

Definition matcher (prefix : string) : string :=
  let prefix := if HasPrefix prefix "/" then prefix else "/" +:+ prefix in
  if HasSuffix prefix "*" then prefix else prefix +:+ "*".

Definition quote (s : string) : string := String "034"%char (s +:+ String "034"%char "").

Definition site (r : Route) : string :=
  let upstream := "localhost:" +:+ pretty (rt_TargetPort r) in
  rt_Domain r +:+ " {" +:+ nl +:+
  "    header {" +:+ nl +:+
  "        Strict-Transport-Security " +:+ quote "max-age=63072000; includeSubDomains; preload" +:+ nl +:+
  "        X-Content-Type-Options " +:+ quote "nosniff" +:+ nl +:+
  "        X-Frame-Options " +:+ quote "DENY" +:+ nl +:+
  "        Referrer-Policy " +:+ quote "no-referrer" +:+ nl +:+
  "    }" +:+ nl +:+
  "    encode zstd gzip" +:+ nl +:+
  (if rt_PathPrefix r <>s "" then
     "    route " +:+ matcher (rt_PathPrefix r) +:+ " {" +:+ nl +:+
     "        reverse_proxy " +:+ upstream +:+ nl +:+
     "    }" +:+ nl
   else "    reverse_proxy " +:+ upstream +:+ nl) +:+
  "}" +:+ nl +:+ nl.

Definition config (now : Z) (routes : list Route) : string :=
  "# Auto-generated by cube-container MCP — do not edit manually." +:+ nl +:+
  "# Caddy obtains Let's Encrypt TLS certificates automatically for each domain." +:+ nl +:+
  "# Regenerated at: " +:+ format_rfc3339 now +:+ nl +:+ nl +:+
  (if (length routes =? 0)%nat then "# No routes configured." +:+ nl else foldr (fun r acc => site r +:+ acc) "" routes).

(** ** Operations *)

Definition domain_le (a b : Route) : Prop := String.le (rt_Domain a) (rt_Domain b).
#[global] Instance domain_le_dec a b : Decision (domain_le a b).
Proof. unfold domain_le. apply _. Defined.
#[global] Instance domain_le_trans : Transitive domain_le.
Proof. intros a b c. unfold domain_le. apply transitivity. Qed.
#[global] Instance domain_le_total : Total domain_le.
Proof. intros a b. unfold domain_le. apply total, _. Qed.

Definition json_route (f : string * option Route) : option Route := if HasSuffix f.1 ".json" then f.2 else None.

(** No directory is an empty list. *)
Definition listRoutesLocked (io : option string) (rm : RouteManager) : res (list Route) :=
  match io with
  | Some e => Err ("read routes root: " +:+ e)
  | None => Ok (merge_sort domain_le (omap json_route (map_to_list (route_files rm))))
  end.
Definition listRoutes (io : option string) (rm : RouteManager) : res (list Route) := listRoutesLocked io rm.

(** [reload] is whether the proxy is told; its answer is only logged. *)
Definition generateCaddyConfigLocked (reload : bool) (e : route_env) (rm : RouteManager) : res unit * RouteManager :=
  match listRoutesLocked (o_list e) rm with
  | Err m => (Err m, rm)
  | Ok routes =>
      match o_confdir e with
      | Some m => (Err ("create caddy config dir: " +:+ m), rm)
      | None =>
          match o_conf e with
          | Written => (Ok tt, MkRoutes (route_files rm) (Some (config (o_now e) routes)) (if reload then caddy_reloads rm + 1 else caddy_reloads rm))
          | Unwritten m => (Err ("write caddy config: " +:+ m), rm)
          | Torn content m => (Err ("write caddy config: " +:+ m), MkRoutes (route_files rm) (Some content) (caddy_reloads rm))
          end
      end
  end.

Definition set_routes (rm : RouteManager) (m : gmap string (option Route)) : RouteManager := MkRoutes m (caddy_config rm) (caddy_reloads rm).

Definition createRoute (reload : bool) (e : route_env) (domain containerID : string) (targetPort : Z) (pathPrefix : string) (rm : RouteManager)
  : res Route * RouteManager :=
  let checked :=
    reject domain =s "" with "domain is required" ;;
    let! _ := validateDomain domain in
    reject containerID =s "" with "container_id is required" ;;
    reject (targetPort <=? 0) || (65535 <? targetPort) with "target_port must be between 1 and 65535" ;;
    if pathPrefix <>s "" then validatePathPrefix pathPrefix else Ok tt in
  match checked with
  | Err m => (Err m, rm)
  | Ok _ =>
      let r := MkRoute domain containerID targetPort true (o_now e) pathPrefix in
      match o_mkdir e with
      | Some m => (Err ("create routes root: " +:+ m), rm)
      | None =>
          let path := routeFileName domain in
          match o_write e with
          | SaveRefused m => (Err ("write route file: " +:+ m), rm)
          | SaveCut m => (Err ("write route file: " +:+ m), set_routes rm (<[path := None]> (route_files rm)))
          | Saved =>
              match generateCaddyConfigLocked reload e (set_routes rm (<[path := Some r]> (route_files rm))) with
              | (Err m, rm) => (Err m, rm)
              | (Ok _, rm) => (Ok r, rm)
              end
          end
      end
  end.

Definition deleteRoute (reload : bool) (e : route_env) (domain : string) (rm : RouteManager) : res unit * RouteManager :=
  if domain =s "" then (Err "domain is required", rm)
  else
    let path := routeFileName domain in
    match route_files rm !! path with
    | None => (Err ("no route found for domain " +:+ domain), rm)
    | Some _ =>
        match o_remove e with
        | Some m => (Err ("remove route file: " +:+ m), rm)
        | None => generateCaddyConfigLocked reload e (set_routes rm (delete path (route_files rm)))
        end
    end.

(** *** Tools *)

Definition handleCreateRoute `{!GoRuntime} (reload : bool) (e : route_env) (args : object) (rm : RouteManager) : tool_result Route * RouteManager :=
  let domain := argString args "domain" in
  let containerID := argString args "container_id" in
  let targetPort := argInt args "target_port" 0 in
  if domain =s "" then (errResult "domain is required", rm)
  else if containerID =s "" then (errResult "container_id is required", rm)
  else if targetPort =? 0 then (errResult "target_port is required", rm)
  else let '(r, rm) := createRoute reload e domain containerID targetPort (argString args "path_prefix") rm in (of_res r (fun x => x), rm).

Definition handleDeleteRoute `{!GoRuntime} (reload : bool) (e : route_env) (args : object) (rm : RouteManager) : tool_result object * RouteManager :=
  let domain := argString args "domain" in
  if domain =s "" then (errResult "domain is required", rm)
  else let '(r, rm) := deleteRoute reload e domain rm in (of_res r (fun _ => [("domain", VStr domain); ("status", VStr "deleted")]), rm).

Definition handleListRoutes (io : option string) (rm : RouteManager) : tool_result (list Route) := of_res (listRoutes io rm) (fun l => l).

(** The proxy is reloaded once more by the handler itself. *)
Definition handleReloadRoutes (reload : bool) (e : route_env) (rm : RouteManager) : tool_result object * RouteManager :=
  match generateCaddyConfigLocked reload e rm with
  | (Err m, rm) => (errResult m, rm)
  | (Ok _, rm) => (okResult [("status", VStr "reloaded")], MkRoutes (route_files rm) (caddy_config rm) (caddy_reloads rm + 1))
  end.

End Routes.

(** ** The words of the configuration *)

Definition words (s : string) : list (list string) := Fields <$> Split s "010"%char.

Definition upstream (r : Route) : string := "localhost:" +:+ pretty (rt_TargetPort r).

Definition site_lines (r : Route) : list string :=
  ([rt_Domain r +:+ " {"; "    header {";
   "        Strict-Transport-Security " +:+ quote "max-age=63072000; includeSubDomains; preload";
   "        X-Content-Type-Options " +:+ quote "nosniff";
   "        X-Frame-Options " +:+ quote "DENY";
   "        Referrer-Policy " +:+ quote "no-referrer";
   "    }"; "    encode zstd gzip"] ++
  (if rt_PathPrefix r <>s ""
   then ["    route " +:+ matcher (rt_PathPrefix r) +:+ " {"; "        reverse_proxy " +:+ upstream r; "    }"]
   else ["    reverse_proxy " +:+ upstream r]) ++ ["}"; ""])%list.

Definition comment_lines `{!TimeText} (now : Z) : list string :=
  ["# Auto-generated by cube-container MCP — do not edit manually.";
   "# Caddy obtains Let's Encrypt TLS certificates automatically for each domain.";
   "# Regenerated at: " +:+ format_rfc3339 now; ""].

(** What the site of a route should say, and nothing else. *)
Definition site_words (r : Route) : list (list string) :=
  ([[rt_Domain r; "{"]; ["header"; "{"];
   ["Strict-Transport-Security"; String "034"%char "max-age=63072000;"; "includeSubDomains;"; "preload" +:+ String "034"%char ""];
   ["X-Content-Type-Options"; quote "nosniff"]; ["X-Frame-Options"; quote "DENY"]; ["Referrer-Policy"; quote "no-referrer"];
   ["}"]; ["encode"; "zstd"; "gzip"]] ++
  (if rt_PathPrefix r <>s ""
   then ["route" :: Fields (matcher (rt_PathPrefix r)) ++ ["{"]; ["reverse_proxy"; upstream r]; ["}"]]
   else [["reverse_proxy"; upstream r]]) ++ [["}"]; []])%list.

Lemma site_text r : site r = text_of (site_lines r).
Proof.
  unfold site, site_lines, upstream, text_of. cbv zeta. rewrite !foldr_app. destruct (rt_PathPrefix r <>s ""); cbn [foldr];
    rewrite ?app_assoc_str, ?app_nil_l_str; reflexivity.
Qed.

Lemma config_text `{!TimeText} now routes : config now routes =
  text_of (comment_lines now ++ if (length routes =? 0)%nat then ["# No routes configured."] else routes ≫= site_lines).
Proof.
  unfold config. destruct (length routes =? 0)%nat eqn:E; [unfold comment_lines, text_of; cbn [foldr app]; rewrite ?app_assoc_str; reflexivity|].
  rewrite text_of_app. assert (Hr : foldr (fun r acc => site r +:+ acc) "" routes = text_of (routes ≫= site_lines)).
  { clear E. induction routes as [|r rs IH]; [done|]. cbn [foldr]. change ((r :: rs) ≫= site_lines) with (site_lines r ++ (rs ≫= site_lines))%list.
    by rewrite text_of_app, IH, site_text. }
  rewrite Hr. unfold comment_lines, text_of. cbn [foldr]. rewrite ?app_assoc_str. reflexivity.
Qed.

(** A route whose texts were accepted. *)
Definition accepted (r : Route) : Prop :=
  (exists q, validateDomain q (rt_Domain r) = Ok tt) /\ (rt_PathPrefix r = "" \/ validatePathPrefix (rt_PathPrefix r) = Ok tt) /\ 0 < rt_TargetPort r.

Lemma from_bad_None s : from_bad s = None -> str_all domain_byte s = true.
Proof. induction s as [|a s IH]; [done|]. cbn. destruct (domain_byte a); [done|discriminate]. Qed.

Lemma accepted_domain r : accepted r -> str_all domain_byte (rt_Domain r) = true /\ rt_Domain r <> "".
Proof.
  intros ((q & H) & _). unfold validateDomain in H. case_bool_decide as Hne; [done|]. destruct (253 <? _); [done|].
  destruct (from_bad (rt_Domain r)) eqn:E; [done|]. split; [by apply from_bad_None|done].
Qed.

Lemma accepted_prefix r : accepted r -> index_any (rt_PathPrefix r) "010"%char = false.
Proof.
  intros (_ & [->|H] & _); [done|]. unfold validatePathPrefix in H. case_bool_decide as Hne; [by rewrite Hne|]. destruct (500 <? _); [done|].
  destruct (ContainsAny _ _) eqn:E; [done|]. unfold ContainsAny in E. clear -E. unfold index_any, str_any in *.
  apply negb_false_iff in E. apply negb_false_iff. eapply str_all_impl; [|exact E]. intros a Ha. cbn in *. apply negb_true_iff in Ha. apply negb_true_iff.
  apply bool_decide_eq_false. intros ->. vm_compute in Ha. discriminate.
Qed.

(** ** What an accepted text can do to the configuration *)

Lemma Fields_lead p s : Fields p = [] -> Fields (p +:+ String " " s) = Fields s.
Proof. intros Hp. by rewrite Fields_space, Hp. Qed.

Lemma domain_byte_plain a : domain_byte a = true -> plain a = true.
Proof. destruct a as [[] [] [] [] [] [] [] []]; vm_compute; congruence. Qed.

Lemma plain_no_nl s : str_all plain s = true -> index_any s "010"%char = false.
Proof. intros Hs. by eapply index_any_all. Qed.

Lemma upstream_plain r : 0 < rt_TargetPort r -> str_all plain (upstream r) = true.
Proof.
  intros H. unfold upstream. rewrite str_all_app. cbn [str_all]. destruct (pretty_nonneg (rt_TargetPort r)) as (_ & Hd & _); [lia|].
  rewrite (str_all_impl is_digit plain _); [done| |done]. intros [[] [] [] [] [] [] [] []]; vm_compute; congruence.
Qed.

Lemma matcher_no_nl p : index_any p "010"%char = false -> index_any (matcher p) "010"%char = false.
Proof.
  intros H. unfold matcher. set (q := if HasPrefix p "/" then p else "/" +:+ p).
  assert (Hq : index_any q "010"%char = false) by (unfold q; destruct (HasPrefix p "/"); [done|by rewrite index_any_app, H]).
  destruct (HasSuffix q "*"); [done|]. by rewrite index_any_app, Hq.
Qed.

Lemma site_no_nl r : accepted r -> Forall (fun l => index_any l "010"%char = false) (site_lines r).
Proof.
  intros H. pose proof (accepted_domain r H) as [Hd _]. pose proof (accepted_prefix r H) as Hp. destruct H as (_ & _ & Hport).
  pose proof (plain_no_nl _ (upstream_plain r Hport)) as Hu.
  apply (str_all_impl _ plain) in Hd; [|apply domain_byte_plain]. apply plain_no_nl in Hd.
  unfold site_lines. rewrite !Forall_app. split_and!.
  - repeat constructor. by rewrite index_any_app, Hd.
  - destruct (rt_PathPrefix r <>s ""); repeat constructor; rewrite !index_any_app, ?Hu; [|done..]. by rewrite (matcher_no_nl _ Hp).
  - by repeat constructor.
Qed.

Lemma site_fields r : accepted r -> Fields <$> site_lines r = site_words r.
Proof.
  intros H. pose proof (accepted_domain r H) as [Hd Hne]. destruct H as (_ & _ & Hport).
  pose proof (upstream_plain r Hport) as Hu. apply (str_all_impl _ plain) in Hd; [|apply domain_byte_plain].
  assert (Hup : forall pre, Fields pre = ["reverse_proxy"] -> Fields (pre +:+ String " " (upstream r)) = ["reverse_proxy"; upstream r]).
  { intros pre Hpre. rewrite Fields_space, Hpre, (Fields_plain (upstream r)) by done. done. }
  unfold site_lines, site_words. rewrite !fmap_app. f_equal; [|f_equal].
  - cbn [fmap list_fmap]. change (rt_Domain r +:+ " {") with (rt_Domain r +:+ String " " "{").
    rewrite Fields_space, (Fields_plain (rt_Domain r)) by done. reflexivity.
  - destruct (rt_PathPrefix r <>s ""); cbn [fmap list_fmap].
    + change ("    route " +:+ matcher (rt_PathPrefix r) +:+ " {") with ("    route" +:+ String " " (matcher (rt_PathPrefix r) +:+ String " " "{")).
      change ("        reverse_proxy " +:+ upstream r) with ("        reverse_proxy" +:+ String " " (upstream r)).
      rewrite (Hup "        reverse_proxy"), !Fields_space by done. reflexivity.
    + change ("    reverse_proxy " +:+ upstream r) with ("    reverse_proxy" +:+ String " " (upstream r)). by rewrite Hup.
Qed.

Lemma sites_fields routes : Forall accepted routes -> Fields <$> (routes ≫= site_lines) = routes ≫= site_words.
Proof. induction 1 as [|r rs Hr _ IH]; [done|]. by rewrite !bind_cons, fmap_app, IH, site_fields. Qed.

(** ** Histories *)

Inductive route_op : Type :=
  | RCreate (domain containerID : string) (targetPort : Z) (pathPrefix : string)
  | RDelete (domain : string)
  | RReload.

Section Histories.
Context `{!TimeText}.
Context (quote_first : string -> string).

Definition route_step (rm : RouteManager) (o : bool * route_env * route_op) : res unit * RouteManager :=
  let '(reload, e, o) := o in
  match o with
  | RCreate d c p x => let '(r, rm) := createRoute quote_first reload e d c p x rm in (match r with Ok _ => Ok tt | Err m => Err m end, rm)
  | RDelete d => deleteRoute reload e d rm
  | RReload => generateCaddyConfigLocked reload e rm
  end.

Definition route_steps (rm : RouteManager) (l : list (bool * route_env * route_op)) : RouteManager :=
  foldl (fun rm o => (route_step rm o).2) rm l.

Definition stored (f : option Route) : Prop := match f with Some r => accepted r | None => True end.
Definition routes_ok (rm : RouteManager) : Prop := map_Forall (fun _ => stored) (route_files rm).

(** The words that a configuration of these routes should have. *)
Definition config_words (now : Z) (routes : list Route) : list (list string) :=
  ((Fields <$> comment_lines now) ++
   (match routes with [] => [["#"; "No"; "routes"; "configured."]] | _ => routes ≫= site_words end) ++ [[]])%list.

Lemma words_config now routes : index_any (format_rfc3339 now) "010"%char = false -> Forall accepted routes ->
  words (config now routes) = config_words now routes.
Proof.
  intros Ht Hr. unfold words, config_words. rewrite config_text, Split_text_of, !fmap_app.
  - rewrite <- app_assoc. f_equal. f_equal. destruct routes as [|r rs]; [reflexivity|]. cbn [length Nat.eqb].
    exact (sites_fields (r :: rs) Hr).
  - apply Forall_app. split.
    + unfold comment_lines. repeat constructor. by rewrite index_any_app, Ht.
    + destruct (length routes =? 0)%nat; [by repeat constructor|]. clear Ht. induction Hr as [|r rs Hr _ IH]; [constructor|].
      rewrite bind_cons. apply Forall_app. split; [by apply site_no_nl|done].
Qed.

Lemma listed_accepted rm io routes : routes_ok rm -> listRoutesLocked io rm = Ok routes -> Forall accepted routes.
Proof.
  intros Hok. unfold listRoutesLocked. destruct io; [discriminate|]. intros [= <-]. rewrite merge_sort_Permutation. apply Forall_forall. intros r Hr.
  apply list_elem_of_omap in Hr as ([k f] & Hin & Hj). apply elem_of_map_to_list in Hin. change (json_route (k, f)) with (if HasSuffix k ".json" then f else None) in Hj.
  destruct (HasSuffix k ".json"); [|discriminate Hj]. subst f. exact (Hok k _ Hin).
Qed.

Lemma generate_files reload e rm : route_files (generateCaddyConfigLocked reload e rm).2 = route_files rm.
Proof. unfold generateCaddyConfigLocked. destruct (listRoutesLocked _ _); [|done]. destruct (o_confdir e); [done|]. by destruct (o_conf e). Qed.

Lemma generate_ok reload e rm rm' : generateCaddyConfigLocked reload e rm = (Ok tt, rm') ->
  exists routes, listRoutesLocked None rm' = Ok routes /\ caddy_config rm' = Some (config (o_now e) routes).
Proof.
  unfold generateCaddyConfigLocked. destruct (listRoutesLocked (o_list e) rm) as [routes|] eqn:El; [|done].
  destruct (o_confdir e); [done|]. destruct (o_conf e); intros [= <-]. exists routes. split; [|done]. unfold listRoutesLocked in *. by destruct (o_list e).
Qed.

Lemma created_accepted domain c p x now :
  (reject domain =s "" with "domain is required" ;;
    let! _ := validateDomain quote_first domain in
    reject c =s "" with "container_id is required" ;;
    reject (p <=? 0) || (65535 <? p) with "target_port must be between 1 and 65535" ;;
    if x <>s "" then validatePathPrefix x else Ok tt) = Ok tt ->
  accepted (MkRoute domain c p true now x).
Proof.
  intros Hx. case_bool_decide as Hne; [done|]. destruct (validateDomain quote_first domain) as [[]|] eqn:Hd; [|done]. cbn in Hx. case_bool_decide as Hne2; [done|].
  destruct ((p <=? 0) || (65535 <? p)) eqn:Hp; [done|]. apply orb_false_iff in Hp as [Hp _]. apply Z.leb_gt in Hp. split_and!; [eauto| |done]. cbn.
  destruct (decide (x = "")); [by left|]. right. by rewrite bool_decide_eq_false_2 in Hx.
Qed.

Lemma routes_insert rm k f : stored f -> routes_ok rm -> routes_ok (set_routes rm (<[k := f]> (route_files rm))).
Proof. intros Hf Hok. by apply map_Forall_insert_2. Qed.

Lemma route_step_ok rm o : routes_ok rm -> routes_ok (route_step rm o).2.
Proof.
  intros Hok. assert (Hg : forall reload e rm, routes_ok rm -> routes_ok (generateCaddyConfigLocked reload e rm).2).
  { intros reload e rm0 Hr0. unfold routes_ok. by rewrite generate_files. }
  destruct o as [[reload e] [d c p x|d|]]; cbn [route_step]; [| |by apply Hg].
  - destruct (createRoute quote_first reload e d c p x rm) as [r rm'] eqn:E. cbn [snd]. replace rm' with (createRoute quote_first reload e d c p x rm).2 by by rewrite E.
    clear E r rm'. unfold createRoute. cbv zeta. lazymatch goal with |- context [match ?c with Ok _ => _ | Err m => (Err m, rm) end] => destruct c as [[]|] eqn:Hc end; [|done].
    destruct (o_mkdir e); [done|]. destruct (o_write e); [|done|by apply routes_insert].
    match goal with |- context [generateCaddyConfigLocked ?a ?b ?c] => pose proof (Hg a b c) as Hgen; destruct (generateCaddyConfigLocked a b c) as [[] rm1] end; 
      apply Hgen; (apply routes_insert; [exact (created_accepted _ _ _ _ _ Hc)|done]).
  - unfold deleteRoute. case_bool_decide; [done|]. destruct (route_files rm !! _); [|done]. destruct (o_remove e); [done|]. apply Hg.
    by apply map_Forall_delete.
Qed.

Lemma route_steps_ok l rm : routes_ok rm -> routes_ok (route_steps rm l).
Proof. revert rm. induction l as [|o l IH]; intros rm Hr0; [done|]. apply IH. by apply route_step_ok. Qed.

(** An operation that succeeds wrote the configuration, after changing the files so. *)
Lemma step_generates rm reload e o rm' : route_step rm (reload, e, o) = (Ok tt, rm') ->
  exists rm1, generateCaddyConfigLocked reload e rm1 = (Ok tt, rm') /\
  match o with
  | RCreate d c p x => route_files rm1 = <[routeFileName d := Some (MkRoute d c p true (o_now e) x)]> (route_files rm)
  | RDelete d => is_Some (route_files rm !! routeFileName d) /\ route_files rm1 = delete (routeFileName d) (route_files rm)
  | RReload => route_files rm1 = route_files rm
  end.
Proof.
  destruct o as [d c p x|d|]; cbn [route_step].
  - unfold createRoute. cbv zeta.
    lazymatch goal with |- context [match ?c with Ok _ => _ | Err m => (Err m, rm) end] => destruct c as [[]|] end; [|intros [=]].
    destruct (o_mkdir e); [intros [=]|]. destruct (o_write e); [|intros [=]..].
    destruct (generateCaddyConfigLocked _ _ _) as [[[]|] rm1] eqn:Hg; intros [= <-]. eexists. split; [exact Hg|done].
  - unfold deleteRoute. case_bool_decide; [intros [=]|]. destruct (route_files rm !! _) eqn:Ef; [|intros [=]].
    destruct (o_remove e); [intros [=]|]. intros Hg. eexists. by split_and!; [exact Hg|eauto|].
  - intros Hg. by exists rm.
Qed.
End Histories.

(** ** Theorems *)

(** C26: start from a directory whose route files, as far as they decode, hold domains
    and path prefixes that the validators accept and positive ports (as all files the
    manager writes do), and from a clock whose text has no line break.  After any history
    of creations, deletions and reloads one after the other, with whatever failures of the
    file system, an operation that succeeds leaves a configuration of exactly the stored
    routes, in the order of their domains: read as words on lines, it is the comments and,
    for each route, the blocks and directives of its site with the domain as one word, so
    no domain or path prefix that a user supplies adds a line, a block or a directive
    (a prefix with blanks gives several words to the matcher of its own route).  The
    operation changes only the file of its own domain. *)
Theorem routes_config_exact `{!TimeText} (quote_first : string -> string) (files : gmap string (option Route)) (conf : option string)
    (l : list (bool * route_env * route_op)) (reload : bool) (e : route_env) (o : route_op) (rm' : RouteManager)
    (Htime : index_any (format_rfc3339 (o_now e)) "010"%char = false) (Hfiles : map_Forall (fun _ => stored) files) :
  let rm := route_steps quote_first (newRouteManager files conf) l in
  route_step quote_first rm (reload, e, o) = (Ok tt, rm') ->
  (exists routes, listRoutes None rm' = Ok routes /\ Forall accepted routes /\ StronglySorted domain_le routes /\
     words <$> caddy_config rm' = Some (config_words (o_now e) routes)) /\
  match o with
  | RCreate d c p x => route_files rm' = <[routeFileName d := Some (MkRoute d c p true (o_now e) x)]> (route_files rm)
  | RDelete d => is_Some (route_files rm !! routeFileName d) /\ route_files rm' = delete (routeFileName d) (route_files rm)
  | RReload => route_files rm' = route_files rm
  end.
Proof.
  intros rm Hstep. assert (Hok : routes_ok rm) by (by apply route_steps_ok).
  pose proof (route_step_ok quote_first rm (reload, e, o) Hok) as Hok'. rewrite Hstep in Hok'. cbn [snd] in Hok'.
  destruct (step_generates _ _ _ _ _ _ Hstep) as (rm1 & Hgen & Hpost).
  pose proof (generate_files reload e rm1) as Hsame. rewrite Hgen in Hsame. cbn [snd] in Hsame.
  destruct (generate_ok _ _ _ _ Hgen) as (routes & Hl & Hc). split.
  - exists routes. pose proof (listed_accepted _ _ _ Hok' Hl) as Hacc. split_and!; [done..| |].
    + unfold listRoutesLocked in Hl. injection Hl as <-. apply StronglySorted_merge_sort; apply _.
    + rewrite Hc. exact (f_equal Some (words_config _ _ Htime Hacc)).
  - rewrite Hsame. exact Hpost.
Qed.

Definition calm_env (now : Z) : route_env := MkRouteEnv None Saved None None None Written now.

Definition demo_quote (s : string) : string := match s with String a _ => quote (String a "") | EmptyString => "" end.

Definition demo_history : list (bool * route_env * route_op) :=
  [(true, calm_env 1, RCreate "b.example" "c1" 80 ""); (true, calm_env 2, RCreate "a.example" "c2" 81 "api");
   (true, calm_env 3, RCreate "a.example {" "c3" 82 ""); (true, calm_env 4, RDelete "b.example")].

Lemma answered {A B} (p : A * B) a : p.1 = a -> p = (a, p.2).
Proof. by destruct p as [? ?]; cbn; intros ->. Qed.

Lemma routes_config_exact_witness :
  let rm := @route_steps demo_time demo_quote (newRouteManager ∅ None) demo_history in
  let rm' := (@route_step demo_time demo_quote rm (true, calm_env 5, RCreate "c.example" "c1" 80 "/x*")).2 in
  exists routes, listRoutes None rm' = Ok routes /\ Forall accepted routes /\ StronglySorted domain_le routes /\
     words <$> caddy_config rm' = Some (@config_words demo_time 5 routes).
Proof.
  intros rm rm'.
  assert (Hstep : @route_step demo_time demo_quote rm (true, calm_env 5, RCreate "c.example" "c1" 80 "/x*") = (Ok tt, rm'))
    by (apply answered; vm_compute; reflexivity).
  clearbody rm'.
  destruct (@routes_config_exact demo_time demo_quote ∅ None demo_history true (calm_env 5) (RCreate "c.example" "c1" 80 "/x*") rm' eq_refl
    (map_Forall_empty _) Hstep) as [Hconf _].
  exact Hconf.
Defined.

(** The sites of a short history, word by word: the text with a brace was refused. *)
Example demo_sites :
  words <$> caddy_config (@route_steps demo_time demo_quote (newRouteManager ∅ None) demo_history) =
  Some (@config_words demo_time 4 [MkRoute "a.example" "c2" 81 true 2 "api"]).
Proof. vm_compute. reflexivity. Qed.

(** A prefix is refused for the white space that ends a word in ASCII, except a vertical
    tab and a form feed: one of these splits the matcher of the route, which then has two
    words. *)
Example prefix_splits_the_matcher :
  let prefix := "/a" +:+ String "011"%char "/b" in
  validatePathPrefix prefix = Ok tt /\
  site_words (MkRoute "a.example" "c" 80 true 0 prefix) !! 8%nat = Some ["route"; "/a"; "/b*"; "{"].
Proof. split; vm_compute; reflexivity. Qed.

(** When the configuration cannot be written the creation answers an error and its route
    is stored: the next operation that succeeds serves it. *)
Example failed_route_is_served :
  let broken := MkRouteEnv None Saved None None None (Unwritten "no space left on device") 1 in
  let '(r, rm) := @route_step demo_time demo_quote (newRouteManager ∅ None) (true, broken, RCreate "a.example" "c" 80 "") in
  r = Err "write caddy config: no space left on device" /\
  words <$> caddy_config (@route_step demo_time demo_quote rm (true, calm_env 2, RReload)).2 =
    Some (@config_words demo_time 2 [MkRoute "a.example" "c" 80 true 1 ""]).
Proof. vm_compute. split; reflexivity. Qed.

(** A domain has one route: a second one with another prefix replaces the first. *)
Example second_prefix_replaces_first :
  let rm := @route_steps demo_time demo_quote (newRouteManager ∅ None)
    [(true, calm_env 1, RCreate "a.example" "c1" 80 "/api"); (true, calm_env 2, RCreate "a.example" "c2" 81 "/web")] in
  listRoutes None rm = Ok [MkRoute "a.example" "c2" 81 true 2 "/web"].
Proof. vm_compute. reflexivity. Qed.

(** Domains that are no names pass: what is not there to separate labels is not checked,
    and a port alone is a site for every host. *)
Example domain_of_every_host :
  validateDomain demo_quote ":80" = Ok tt /\ validateDomain demo_quote "*" = Ok tt /\ validateDomain demo_quote "..-" = Ok tt.
Proof. split_and!; vm_compute; reflexivity. Qed.
