(* ===== verification/LcmRegistry.v ===== *)
(** * The lifecycle manager's registry
    (cube-lifecycle-manager: internal/lifecycle, internal/registry,
    internal/redisstream, cmd/cube-lifecycle-manager/main.go)

    The in-memory table of the sandboxes the sidecar tracks: what CubeMaster
    published about each of them, and when it was last active.  It is filled
    from the snapshot in Redis, kept up by the events of the stream, and merged
    with the activity the proxies report.  Every method takes the lock for its
    whole body and hands out copies, so the table is a map of values here. *)
From S2P Require Import Prelude GoStrings GoValue.
From Stdlib Require Import Ascii.

Open Scope string_scope.
Open Scope Z_scope.

(** ** Schema *)

Record SandboxLifecycleMeta : Type := MkMeta {
  SandboxID : string; TemplateID : string; HostID : string; HostIP : string; InstanceType : string;
  TimeoutSeconds : option Z;
  AutoPause : bool; AutoResume : bool;
  CreatedAt : Z; EndAt : Z;
}.

Definition StateKey (sandboxID : string) : string := "cube:v1:shared:sandbox:lifecycle:state:" +:+ sandboxID.

Definition OpCreate : string := "create".
Definition OpDelete : string := "delete".
Definition OpUpdate : string := "update".
Definition FieldOp : string := "op".
Definition FieldSandboxID : string := "sandbox_id".
Definition FieldPayload : string := "payload".
Definition FieldTimestamp : string := "ts".

Definition with_id (sid : string) (m : SandboxLifecycleMeta) : SandboxLifecycleMeta :=
  MkMeta sid (TemplateID m) (HostID m) (HostIP m) (InstanceType m) (TimeoutSeconds m)
    (AutoPause m) (AutoResume m) (CreatedAt m) (EndAt m).

(** [json.Unmarshal] into a [SandboxLifecycleMeta]; [None] is its error. *)
Class MetaJSON : Type := { unmarshal_meta : string -> option SandboxLifecycleMeta }.

(** ** Registry *)

Record Entry : Type := MkEntry { Meta : SandboxLifecycleMeta; LastActiveMs : Z; FirstSeenAt : Z }.

Abbreviation Registry := (gmap string Entry).

Definition set_meta (m : SandboxLifecycleMeta) (e : Entry) : Entry := MkEntry m (LastActiveMs e) (FirstSeenAt e).
Definition set_active (ts : Z) (e : Entry) : Entry := MkEntry (Meta e) ts (FirstSeenAt e).
Definition set_seen (t : Z) (e : Entry) : Entry := MkEntry (Meta e) (LastActiveMs e) t.

Definition Upsert (meta : SandboxLifecycleMeta) (now : Z) (r : Registry) : Registry :=
  match r !! SandboxID meta with
  | None => <[SandboxID meta := MkEntry meta 0 now]> r
  | Some cur => <[SandboxID meta := set_meta meta cur]> r
  end.

Definition Delete (sandboxID : string) (r : Registry) : Registry := delete sandboxID r.

Definition MergeLastActive (sandboxID : string) (tsMs : Z) (r : Registry) : bool * Registry :=
  match r !! sandboxID with
  | None => (false, r)
  | Some e =>
      if LastActiveMs e <? tsMs then (true, <[sandboxID := set_active tsMs e]> r) else (false, r)
  end.

Definition ResetLastActive (sandboxID : string) (r : Registry) : bool * Registry :=
  match r !! sandboxID with
  | None => (false, r)
  | Some e => (true, <[sandboxID := set_active 0 e]> r)
  end.

Definition Get (sandboxID : string) (r : Registry) : option Entry := r !! sandboxID.

(** The keys in ascending order, then the entry of each. *)
Definition sorted_ids (r : Registry) : list string := merge_sort String.le (elements (dom r)).

Definition Snapshot (r : Registry) : list Entry := omap (fun id => r !! id) (sorted_ids r).

Definition Len (r : Registry) : nat := size r.

Definition Reset (r : Registry) : Registry := ∅.

Definition SetFirstSeenAt (sandboxID : string) (t : Z) (r : Registry) : Registry :=
  match r !! sandboxID with
  | None => r
  | Some e => <[sandboxID := set_seen t e]> r
  end.

(** ** The stream of events *)

Record Event : Type := MkEvent {
  StreamID : string; Op : string; ev_SandboxID : string; ev_Meta : option SandboxLifecycleMeta; Timestamp : Z;
}.

(** A [redis.XMessage]: its id and its fields. *)
Record XMessage : Type := MkMsg { msg_ID : string; Values : object }.

(** The type assertion [.(string)] on a field. *)
Definition field_string (o : object) (k : string) : option string :=
  match obj_get k o with Some (VStr s) => Some s | _ => None end.

Definition newline : ascii := ascii_of_nat 10.

Fixpoint leading_digits (s : string) : string :=
  match s with
  | String a t => if is_digit a then String a (leading_digits t) else ""
  | EmptyString => ""
  end.

(** [fmt.Sscanf(s, "%d", &t)]: white space but no newline, a sign, digits that
    fit an int64; what follows is not looked at. *)
Definition Sscanf_d (s : string) : option Z :=
  let t := trim_left s in
  if index_any (str_take (String.length s - String.length t)%nat s) newline then None
  else
    let '(neg, u) := match t with
                     | String "-" u => (true, u)
                     | String "+" u => (false, u)
                     | _ => (false, t)
                     end in
    let d := leading_digits u in
    if d =s "" then None
    else
      let n := dec_value d 0 in
      let z := if neg then - n else n in
      if (int_min <=? z) && (z <=? int_max) then Some z else None.

Section Stream.
Context `{MetaJSON}.

Definition decodeEvent (msg : XMessage) : option Event :=
  let op := default "" (field_string (Values msg) FieldOp) in
  let sid := default "" (field_string (Values msg) FieldSandboxID) in
  if (op =s "") || (sid =s "") then None
  else
    let ts := default 0 (field_string (Values msg) FieldTimestamp ≫= Sscanf_d) in
    let meta :=
      if (op =s OpCreate) || (op =s OpUpdate) then
        match field_string (Values msg) FieldPayload with
        | Some payload => if payload =s "" then None else with_id sid <$> unmarshal_meta payload
        | None => None
        end
      else None in
    Some (MkEvent (msg_ID msg) op sid meta ts).

(** [ReadGroup] on the messages Redis hands over: the events to handle, and the
    ids acknowledged at once because they cannot be decoded. *)
Definition ReadGroup (msgs : list XMessage) : list Event * list string :=
  (omap decodeEvent msgs, msg_ID <$> filter (fun m => decodeEvent m = None) msgs).

(** [Bootstrap] on the reply of HGETALL. *)
Definition Bootstrap (raw : res (gmap string string)) : res (gmap string SandboxLifecycleMeta) :=
  match raw with
  | Err e => Err ("hgetall cube:v1:shared:sandbox:lifecycle:meta: " +:+ e)
  | Ok raw => Ok (map_imap (fun sid payload => with_id sid <$> unmarshal_meta payload) raw)
  end.

Definition bootstrap_one (startupTs : Z) (r : Registry) (mn : SandboxLifecycleMeta * Z) : Registry :=
  SetFirstSeenAt (SandboxID mn.1) startupTs (Upsert mn.1 mn.2 r).

(** [order] is the order in which [range] visits the metadata, with the clock
    read for each. *)
Definition bootstrapRegistry (raw : res (gmap string string)) (order : list (SandboxLifecycleMeta * Z))
  (startupTs : Z) (r : Registry) : res Registry :=
  let! _ := Bootstrap raw in
  Ok (foldl (bootstrap_one startupTs) (Reset r) order).

End Stream.

(** What an event has the sidecar push to the proxies. *)
Inductive push : Type := UpsertMeta (meta : SandboxLifecycleMeta) | DeleteMeta (sandboxID : string).

Definition handleEvent (ev : Event) (now : Z) (r : Registry) : Registry * option push :=
  if Op ev =s OpCreate then
    match ev_Meta ev with
    | None => (r, None)
    | Some m => (Upsert m now r, Some (UpsertMeta m))
    end
  else if Op ev =s OpDelete then (Delete (ev_SandboxID ev) r, Some (DeleteMeta (ev_SandboxID ev)))
  else if Op ev =s OpUpdate then
    match ev_Meta ev with
    | None => (r, None)
    | Some m => ((ResetLastActive (ev_SandboxID ev) (Upsert m now r)).2, Some (UpsertMeta m))
    end
  else (r, None).

(** One round of [consumeStream] after a successful read: each event handled,
    with the clock read then. *)
Definition consume (evs : list (Event * Z)) (r : Registry) : Registry * list push :=
  foldl (fun '(r, ps) '(ev, now) =>
    let '(r, p) := handleEvent ev now r in (r, (ps ++ option_list p)%list)) (r, []) evs.

(** [pollLastActive] merges what a pull returned. *)
Definition merge_all (entries : list (string * Z)) (r : Registry) : Registry :=
  foldl (fun r p => (MergeLastActive p.1 p.2 r).2) r entries.

(** ** The registry as a history *)

(** What happens to the registry: an event of the stream, a report of activity,
    an eviction by the sweeper or the resumer. *)
Inductive reg_op : Type :=
  | OEvent (ev : Event) (now : Z)
  | OMerge (sandboxID : string) (ts : Z)
  | OEvict (sandboxID : string).

Definition apply_op (r : Registry) (o : reg_op) : Registry :=
  match o with
  | OEvent ev now => (handleEvent ev now r).1
  | OMerge sid ts => (MergeLastActive sid ts r).2
  | OEvict sid => Delete sid r
  end.

(** The abstract feed: what was last published about each sandbox. *)
Definition feed_op (f : gmap string SandboxLifecycleMeta) (o : reg_op) : gmap string SandboxLifecycleMeta :=
  match o with
  | OEvent ev _ =>
      if Op ev =s OpDelete then delete (ev_SandboxID ev) f
      else if (Op ev =s OpCreate) || (Op ev =s OpUpdate) then
        match ev_Meta ev with Some m => <[ev_SandboxID ev := m]> f | None => f end
      else f
  | OMerge _ _ => f
  | OEvict sid => delete sid f
  end.

Definition ev_wf (ev : Event) : Prop := forall m, ev_Meta ev = Some m -> SandboxID m = ev_SandboxID ev.

Definition op_wf (o : reg_op) : Prop := match o with OEvent ev _ => ev_wf ev | _ => True end.

(** Each entry is filed under the id its metadata carries. *)
Definition reg_wf (r : Registry) : Prop := map_Forall (fun id e => SandboxID (Meta e) = id) r.

(** *** Lemmas on the operations *)

Lemma Upsert_meta m now r : Meta <$> Upsert m now r = <[SandboxID m := m]> (Meta <$> r).
Proof. unfold Upsert. destruct (r !! SandboxID m); by rewrite fmap_insert. Qed.

Lemma Upsert_wf m now r : reg_wf r -> reg_wf (Upsert m now r).
Proof. intros Hr. unfold Upsert. destruct (r !! SandboxID m); apply map_Forall_insert_2; done. Qed.

Lemma insert_same_meta sid e e' (r : Registry) :
  r !! sid = Some e -> Meta e' = Meta e -> Meta <$> <[sid := e']> r = Meta <$> r.
Proof.
  intros He Hm. rewrite fmap_insert, Hm. apply insert_id. by rewrite lookup_fmap, He.
Qed.

Lemma Merge_meta sid ts r : Meta <$> (MergeLastActive sid ts r).2 = Meta <$> r.
Proof.
  unfold MergeLastActive. destruct (r !! sid) as [e|] eqn:He; [|done].
  case_match; [|done]. by apply (insert_same_meta _ e).
Qed.

Lemma ResetLast_meta sid r : Meta <$> (ResetLastActive sid r).2 = Meta <$> r.
Proof.
  unfold ResetLastActive. destruct (r !! sid) as [e|] eqn:He; [|done]. by apply (insert_same_meta _ e).
Qed.

Lemma SetSeen_meta sid t r : Meta <$> SetFirstSeenAt sid t r = Meta <$> r.
Proof.
  unfold SetFirstSeenAt. destruct (r !! sid) as [e|] eqn:He; [|done]. by apply (insert_same_meta _ e).
Qed.

#[export] Hint Rewrite Upsert_meta Merge_meta ResetLast_meta SetSeen_meta : lcm.

(** Well-formedness is a property of the metadata alone. *)
Lemma reg_wf_meta r : reg_wf r <-> map_Forall (fun id m => SandboxID m = id) (Meta <$> r).
Proof.
  unfold reg_wf. rewrite !map_Forall_lookup. setoid_rewrite lookup_fmap_Some. naive_solver.
Qed.

Lemma apply_op_feed r o : op_wf o -> Meta <$> apply_op r o = feed_op (Meta <$> r) o.
Proof.
  destruct o as [ev now|sid ts|sid]; cbn; intros Hwf.
  - unfold handleEvent. case_bool_decide as H1.
    + rewrite H1, bool_decide_false by done. cbn.
      destruct (ev_Meta ev) as [m|] eqn:Hm; cbn; [|done].
      rewrite Upsert_meta. by rewrite (Hwf m).
    + case_bool_decide as H2; [apply fmap_delete|]. case_bool_decide; cbn; [|done].
      destruct (ev_Meta ev) as [m|] eqn:Hm; cbn; [|done].
      rewrite ResetLast_meta, Upsert_meta. by rewrite (Hwf m).
  - apply Merge_meta.
  - apply fmap_delete.
Qed.

Lemma apply_ops_feed ops : forall r, Forall op_wf ops ->
  Meta <$> foldl apply_op r ops = foldl feed_op (Meta <$> r) ops.
Proof.
  induction ops as [|o ops IH]; intros r Hwf; [done|].
  apply Forall_cons in Hwf as [Ho Hwf]. cbn. by rewrite IH, apply_op_feed.
Qed.

Lemma decodeEvent_wf `{MetaJSON} msg ev : decodeEvent msg = Some ev -> ev_wf ev.
Proof.
  unfold decodeEvent. case_match; [done|]. intros [= <-] m. cbn.
  case_match; [|done]. case_match; [|done]. case_match; [done|].
  rewrite fmap_Some. by intros (m' & _ & ->).
Qed.

Lemma bootstrap_meta startupTs order : forall r,
  Meta <$> foldl (bootstrap_one startupTs) r order =
  foldl (fun f m => <[SandboxID m := m]> f) (Meta <$> r) order.*1.
Proof.
  induction order as [|[m now] order IH]; intros r; [done|]. cbn.
  rewrite IH. unfold bootstrap_one. cbn. by autorewrite with lcm.
Qed.

Lemma bootstrap_seen startupTs order : forall r,
  map_Forall (fun _ e => LastActiveMs e = 0 /\ FirstSeenAt e = startupTs) r ->
  map_Forall (fun _ e => LastActiveMs e = 0 /\ FirstSeenAt e = startupTs)
    (foldl (bootstrap_one startupTs) r order).
Proof.
  induction order as [|[m now] order IH]; intros r Hr; [done|]. cbn. apply IH.
  unfold bootstrap_one, SetFirstSeenAt, Upsert. cbn.
  destruct (r !! SandboxID m) as [e|] eqn:He; rewrite lookup_insert_eq;
    rewrite insert_insert_eq; apply map_Forall_insert_2; try done.
  destruct (map_Forall_lookup_1 _ _ _ _ Hr He). done.
Qed.

Lemma feed_insert_all (f : gmap string SandboxLifecycleMeta) (l : list SandboxLifecycleMeta) :
  map_Forall (fun id m => SandboxID m = id) f -> l ≡ₚ (map_to_list f).*2 ->
  foldl (fun f m => <[SandboxID m := m]> f) ∅ l = f.
Proof.
  intros Hf Hl.
  assert (Hid : SandboxID <$> l ≡ₚ (map_to_list f).*1).
  { rewrite Hl, <- list_fmap_compose. apply reflexive_eq, list_fmap_ext.
    intros i [id m] Hi%list_elem_of_lookup_2%elem_of_map_to_list. by apply (Hf id). }
  assert (Hnd : NoDup (SandboxID <$> l)) by (rewrite Hid; apply NoDup_fst_map_to_list).
  destruct (foldl_insert_lookup SandboxID (fun m => m) l ∅ Hnd) as [Hin Hout].
  apply map_eq. intros id. destruct (f !! id) as [m|] eqn:Hm.
  - assert (m ∈ l).
    { rewrite Hl, list_elem_of_fmap. exists (id, m). split; [done|]. by apply elem_of_map_to_list. }
    rewrite <- (Hf id m Hm). by apply Hin.
  - rewrite Hout, lookup_empty; [done|]. rewrite Hid. intros ([? m] & -> & Hi%elem_of_map_to_list)%list_elem_of_fmap.
    cbn in Hm. congruence.
Qed.

Lemma Bootstrap_wf `{MetaJSON} raw f : Bootstrap raw = Ok f -> map_Forall (fun id m => SandboxID m = id) f.
Proof.
  destruct raw as [raw|e]; [|done]. intros [= <-]. intros id m.
  rewrite map_lookup_imap. intros (p & _ & (m' & _ & ->)%fmap_Some)%bind_Some. done.
Qed.

(** *** Snapshots *)

Lemma sorted_ids_perm r : sorted_ids r ≡ₚ elements (dom r).
Proof. apply merge_sort_Permutation. Qed.

Lemma omap_lookup_all (r : Registry) ids :
  Forall (fun id => id ∈ dom r) ids -> reg_wf r -> (fun e => SandboxID (Meta e)) <$> omap (fun id => r !! id) ids = ids.
Proof.
  intros Hall Hwf. induction Hall as [|id ids [e He]%elem_of_dom _ IH]; [done|].
  cbn. rewrite He. cbn. by rewrite IH, (Hwf id e He).
Qed.

Lemma Snapshot_ids r : reg_wf r -> (fun e => SandboxID (Meta e)) <$> Snapshot r = sorted_ids r.
Proof.
  intros Hwf. apply omap_lookup_all; [|done]. apply Forall_forall. intros id.
  by rewrite sorted_ids_perm, elem_of_elements.
Qed.

Lemma elem_of_Snapshot r e : e ∈ Snapshot r <-> exists id, r !! id = Some e.
Proof.
  unfold Snapshot. rewrite list_elem_of_omap. setoid_rewrite sorted_ids_perm.
  setoid_rewrite elem_of_elements. setoid_rewrite elem_of_dom. naive_solver.
Qed.

(** A snapshot of the registry lists every tracked sandbox exactly once, in
    ascending order of the ids. *)
Theorem Snapshot_spec r : reg_wf r ->
  StronglySorted String.le ((fun e => SandboxID (Meta e)) <$> Snapshot r) /\
  NoDup ((fun e => SandboxID (Meta e)) <$> Snapshot r) /\
  (forall e, e ∈ Snapshot r <-> r !! SandboxID (Meta e) = Some e) /\
  length (Snapshot r) = Len r.
Proof.
  intros Hwf. rewrite (Snapshot_ids r Hwf). split_and!.
  - apply StronglySorted_merge_sort; apply _.
  - rewrite sorted_ids_perm. apply NoDup_elements.
  - intros e. rewrite elem_of_Snapshot. split; [intros (id & He)|eauto].
    by rewrite (Hwf id e He).
  - rewrite <- (length_fmap (fun e => SandboxID (Meta e))), (Snapshot_ids r Hwf), sorted_ids_perm.
    unfold Len. by rewrite <- size_dom.
Qed.

(** *** What the registry says *)

(** An operation the program performs: events come out of [decodeEvent]. *)
Definition op_decoded `{MetaJSON} (o : reg_op) : Prop :=
  match o with OEvent ev _ => exists msg, decodeEvent msg = Some ev | _ => True end.

Lemma op_decoded_wf `{MetaJSON} o : op_decoded o -> op_wf o.
Proof. destruct o; cbn; [intros [msg ?]; by eapply decodeEvent_wf|done|done]. Qed.

(** C11: the registry refines the feed: started from the snapshot in Redis and
    fed with any sequence of events, activity reports and evictions, it holds
    for each sandbox exactly the metadata that was last published and not
    deleted since, filed under the sandbox's own id. *)
Theorem registry_refines_feed `{MetaJSON} raw f order startupTs r0 r ops :
  Bootstrap raw = Ok f -> order.*1 ≡ₚ (map_to_list f).*2 ->
  bootstrapRegistry raw order startupTs r0 = Ok r -> Forall op_decoded ops ->
  Meta <$> foldl apply_op r ops = foldl feed_op f ops /\ reg_wf (foldl apply_op r ops).
Proof.
  intros Hf Ho Hr Hops. unfold bootstrapRegistry in Hr. rewrite Hf in Hr. cbn in Hr. injection Hr as <-.
  assert (Hwf : Forall op_wf ops) by (eapply Forall_impl; [exact Hops|apply op_decoded_wf]).
  assert (Heq : Meta <$> foldl (bootstrap_one startupTs) (Reset r0) order = f).
  { rewrite bootstrap_meta. unfold Reset. rewrite fmap_empty. eapply feed_insert_all; eauto using Bootstrap_wf. }
  rewrite apply_ops_feed, Heq by done. split; [done|].
  apply reg_wf_meta. rewrite apply_ops_feed, Heq by done.
  apply (foldl_inv feed_op (map_Forall (fun id m => SandboxID m = id)) op_wf); [|by eapply Bootstrap_wf|done].
  intros g [ev now|sid ts|sid] Hg Hop; cbn; [|done|by apply map_Forall_delete].
  case_bool_decide; [by apply map_Forall_delete|]. case_match; [|done].
  destruct (ev_Meta ev) as [m|] eqn:Hm; [|done]. apply map_Forall_insert_2; [|done]. by apply Hop.
Qed.

(** The operations that may lower a sandbox's activity: its update, its end. *)
Definition touches (sid : string) (o : reg_op) : bool :=
  match o with
  | OEvent ev _ => ((Op ev =s OpDelete) || (Op ev =s OpUpdate)) && (ev_SandboxID ev =s sid)
  | OMerge _ _ => false
  | OEvict s => s =s sid
  end.

(** The activity reported for a sandbox in a history. *)
Definition reported (sid : string) (ops : list reg_op) : list Z :=
  omap (fun o => match o with OMerge s ts => if s =s sid then Some ts else None | _ => None end) ops.

Lemma apply_op_activity sid o r e : op_wf o -> touches sid o = false -> r !! sid = Some e ->
  exists e', apply_op r o !! sid = Some e' /\ FirstSeenAt e' = FirstSeenAt e /\
    LastActiveMs e' = foldr Z.max (LastActiveMs e) (reported sid [o]).
Proof.
  intros Hwf Ht He. destruct o as [ev now|s ts|s]; cbn in *.
  - assert (Hup : forall m, ev_Meta ev = Some m -> exists e', Upsert m now r !! sid = Some e' /\
      FirstSeenAt e' = FirstSeenAt e /\ LastActiveMs e' = LastActiveMs e).
    { intros m Hm. unfold Upsert. destruct (decide (SandboxID m = sid)) as [->|Hne].
      - rewrite He. exists (set_meta m e). by rewrite lookup_insert_eq.
      - exists e. destruct (r !! SandboxID m); by rewrite lookup_insert_ne. }
    unfold handleEvent. destruct (bool_decide_reflect (Op ev = OpCreate)) as [H1|H1].
    { destruct (ev_Meta ev) as [m|]; cbn; [by apply Hup|by eauto]. }
    destruct (bool_decide_reflect (Op ev = OpDelete)) as [H2|H2].
    { cbn in Ht. apply bool_decide_eq_false in Ht. exists e. cbn. unfold Delete. by rewrite lookup_delete_ne. }
    destruct (bool_decide_reflect (Op ev = OpUpdate)) as [H3|H3]; [|by eauto].
    destruct (ev_Meta ev) as [m|]; cbn; [|by eauto]. destruct (Hup m eq_refl) as (e' & He' & Hs & Ha).
    cbn in Ht. apply bool_decide_eq_false in Ht. exists e'. unfold ResetLastActive.
    case_match; cbn; by rewrite ?lookup_insert_ne.
  - unfold MergeLastActive. destruct (decide (s = sid)) as [->|Hne].
    + rewrite He, bool_decide_true by done. cbn. destruct (Z.ltb_spec (LastActiveMs e) ts) as [Hlt|Hge].
      * exists (set_active ts e). cbn. rewrite lookup_insert_eq. split_and!; [done|done|lia].
      * exists e. split_and!; [done|done|lia].
    + rewrite bool_decide_false by done. exists e. cbn. repeat case_match; cbn; by rewrite ?lookup_insert_ne.
  - apply bool_decide_eq_false in Ht. exists e. unfold Delete. by rewrite lookup_delete_ne.
Qed.

Lemma reported_cons sid o ops : reported sid (o :: ops) = (reported sid [o] ++ reported sid ops)%list.
Proof. unfold reported. cbn. destruct o; [done| |done]. by case_match. Qed.

Lemma foldr_max_pull a b l : foldr Z.max (Z.max a b) l = Z.max a (foldr Z.max b l).
Proof. induction l as [|t l IH]; cbn; lia. Qed.

Lemma foldr_max_swap a l1 l2 : foldr Z.max (foldr Z.max a l1) l2 = foldr Z.max (foldr Z.max a l2) l1.
Proof. induction l1 as [|t l1 IH]; cbn; [done|]. by rewrite foldr_max_pull, IH. Qed.

Lemma apply_ops_activity sid ops : forall r e,
  Forall op_wf ops -> forallb (fun o => negb (touches sid o)) ops = true -> r !! sid = Some e ->
  exists e', foldl apply_op r ops !! sid = Some e' /\ FirstSeenAt e' = FirstSeenAt e /\
    LastActiveMs e' = foldr Z.max (LastActiveMs e) (reported sid ops).
Proof.
  induction ops as [|o ops IH]; intros r e Hwf Ht He; [cbn; eauto|].
  apply Forall_cons in Hwf as [Ho Hwf]. cbn in Ht. apply andb_prop in Ht as [Hto Ht].
  apply negb_true_iff in Hto. destruct (apply_op_activity sid o r e Ho Hto He) as (e1 & He1 & Hs1 & Ha1).
  destruct (IH _ e1 Hwf Ht He1) as (e2 & He2 & Hs2 & Ha2). exists e2. cbn [foldl].
  split_and!; [done|congruence|]. rewrite Ha2, Ha1, (reported_cons sid o ops). clear.
  rewrite foldr_app. generalize (reported sid [o]) (reported sid ops) (LastActiveMs e). intros l1 l2 a.
  apply foldr_max_swap.
Qed.

(** As long as a sandbox is neither updated nor removed, its activity in the
    registry is exactly the latest of what it was and of every report since,
    and the time it was first seen never moves: replayed create events and
    reports that arrive late or out of order do not roll it back. *)
Theorem activity_never_rolls_back `{MetaJSON} sid ops r e :
  Forall op_decoded ops -> forallb (fun o => negb (touches sid o)) ops = true -> r !! sid = Some e ->
  exists e', foldl apply_op r ops !! sid = Some e' /\ FirstSeenAt e' = FirstSeenAt e /\
    LastActiveMs e' = foldr Z.max (LastActiveMs e) (reported sid ops).
Proof.
  intros Hops. apply apply_ops_activity. eapply Forall_impl; [exact Hops|apply op_decoded_wf].
Qed.

(** Merging a pull. *)
Lemma merge_all_ops l r : merge_all l r = foldl apply_op r ((fun p => OMerge p.1 p.2) <$> l).
Proof. revert r. induction l as [|p l IH]; intros r; [done|]. cbn. apply IH. Qed.

Lemma merge_all_lookup l r sid e : r !! sid = Some e ->
  exists e', merge_all l r !! sid = Some e' /\ Meta e' = Meta e /\ FirstSeenAt e' = FirstSeenAt e /\
    LastActiveMs e <= LastActiveMs e' /\ (forall ts, (sid, ts) ∈ l -> ts <= LastActiveMs e').
Proof.
  intros He. rewrite merge_all_ops. set (ops := (fun p : string * Z => OMerge p.1 p.2) <$> l).
  assert (Hwf : Forall op_wf ops) by (apply Forall_fmap, Forall_true; done).
  destruct (apply_ops_activity sid ops r e) as (e' & He' & Hs & Ha); [done| |done|].
  { subst ops. clear. induction l as [|p l IH]; [done|]. exact IH. }
  assert (Hm : Meta <$> foldl apply_op r ops = Meta <$> r).
  { rewrite apply_ops_feed by done. subst ops. generalize (Meta <$> r). clear. induction l as [|p l IH]; intros f; [done|]. apply IH. }
  exists e'. split_and!; [done| |done| |].
  - apply (f_equal (lookup sid)) in Hm. rewrite !lookup_fmap, He, He' in Hm. by injection Hm.
  - rewrite Ha. clear. induction (reported sid ops); cbn; lia.
  - intros ts Hts. rewrite Ha. subst ops. clear -Hts. induction l as [|[k t] l IH]; [by apply not_elem_of_nil in Hts|].
    cbn. apply elem_of_cons in Hts as [[= -> ->]|Hts].
    + rewrite bool_decide_true by done. cbn. lia.
    + specialize (IH Hts). case_bool_decide; cbn; [|done]. unfold reported in IH. lia.
Qed.

Lemma merge_all_dom l r sid : is_Some (merge_all l r !! sid) -> is_Some (r !! sid).
Proof.
  intros Hs. destruct (r !! sid) as [e|] eqn:He; [done|]. exfalso. revert r He Hs.
  induction l as [|[k t] l IH]; intros r He Hs; cbn in Hs; [rewrite He in Hs; by destruct Hs|].
  apply (IH _) in Hs; [done|]. unfold MergeLastActive. destruct (r !! k) as [e|] eqn:Hk; [|done].
  case_match; [|done]. cbn. rewrite lookup_insert_ne by congruence. done.
Qed.

(** ** Witnesses *)

(** Payloads are template ids; "?" is not valid JSON. *)
Definition demo_json : MetaJSON :=
  {| unmarshal_meta := fun p => if p =s "?" then None
       else Some (MkMeta "other" p "" "" "cubebox" (Some 60) true true 1000 0) |}.

Definition demo_raw : gmap string string := {[ "s1" := "t1"; "s2" := "?" ]}.
Definition demo_msg (op sid payload : string) : XMessage :=
  MkMsg "1-0" [(FieldOp, VStr op); (FieldSandboxID, VStr sid); (FieldPayload, VStr payload); (FieldTimestamp, VStr " 42ms")].
Definition demo_ops : list reg_op :=
  match @decodeEvent demo_json (demo_msg "create" "s3" "t3"), @decodeEvent demo_json (demo_msg "create" "s1" "t9") with
  | Some a, Some b => [OEvent a 7; OMerge "s1" 500; OEvent b 8; OMerge "s1" 300; OEvict "s3"]
  | _, _ => []
  end.
Definition demo_meta (sid tmpl : string) : SandboxLifecycleMeta := MkMeta sid tmpl "" "" "cubebox" (Some 60) true true 1000 0.
Definition demo_reg : Registry := {[ "s1" := MkEntry (demo_meta "s1" "t1") 0 5 ]}.

Lemma Snapshot_spec_witness :
  reg_wf demo_reg /\ length (Snapshot demo_reg) = Len demo_reg.
Proof.
  assert (H : reg_wf demo_reg) by (apply map_Forall_singleton; reflexivity).
  split; [exact H|]. apply (Snapshot_spec demo_reg H).
Defined.

Lemma registry_refines_feed_witness :
  exists r, @bootstrapRegistry demo_json (Ok demo_raw) [(demo_meta "s1" "t1", 3)] 5 ∅ = Ok r /\
  Meta <$> foldl apply_op r demo_ops = foldl feed_op {[ "s1" := demo_meta "s1" "t1" ]} demo_ops.
Proof.
  eexists. split; [reflexivity|].
  eapply (@registry_refines_feed demo_json (Ok demo_raw) {[ "s1" := demo_meta "s1" "t1" ]} [(demo_meta "s1" "t1", 3)] 5 ∅).
  - vm_compute. reflexivity.
  - vm_compute. reflexivity.
  - reflexivity.
  - repeat apply Forall_cons_2; try exact I; try apply Forall_nil_2.
    + exists (demo_msg "create" "s3" "t3"). reflexivity.
    + exists (demo_msg "create" "s1" "t9"). reflexivity.
Defined.

Lemma activity_never_rolls_back_witness :
  exists e', foldl apply_op demo_reg demo_ops !! "s1" = Some e' /\ LastActiveMs e' = 500.
Proof.
  destruct (@activity_never_rolls_back demo_json "s1" demo_ops demo_reg (MkEntry (demo_meta "s1" "t1") 0 5))
    as (e' & He' & _ & Ha).
  - repeat apply Forall_cons_2; try exact I; try apply Forall_nil_2.
    + exists (demo_msg "create" "s3" "t3"). reflexivity.
    + exists (demo_msg "create" "s1" "t9"). reflexivity.
  - vm_compute. reflexivity.
  - vm_compute. reflexivity.
  - exists e'. split; [exact He'|]. rewrite Ha. vm_compute. reflexivity.
Defined.
