(* ===== verification/LcmProxy.v ===== *)
(** * Proxies and the fleet
    (CubeProxy/lua: admin_phase.lua, log_phase.lua, sandbox_state.lua;
    cube-lifecycle-manager: internal/proxypush, internal/discovery,
    pollLastActive and replayRegistryTo of main.go)

    A CubeProxy replica keeps three shared dictionaries: the metadata, the state
    and the last activity of sandboxes.  Its admin endpoints are the other end of
    the lifecycle manager's push client.  The replicas live in a map from admin
    URL; what the network does to a call is an argument. *)
From S2P Require Import Prelude GoStrings GoValue LcmRegistry.

Open Scope string_scope.
Open Scope Z_scope.

(** ** A proxy replica *)

Record Proxy : Type := MkProxy {
  px_META : gmap string SandboxLifecycleMeta;
  px_STATE : gmap string string;
  px_LAST : gmap string Z;
  px_token : string;
}.

Definition set_META m (p : Proxy) : Proxy := MkProxy m (px_STATE p) (px_LAST p) (px_token p).
Definition set_STATE m (p : Proxy) : Proxy := MkProxy (px_META p) m (px_LAST p) (px_token p).
Definition set_LAST m (p : Proxy) : Proxy := MkProxy (px_META p) (px_STATE p) m (px_token p).

(** What [dict:set] does: store the value, evicting the key the argument names
    when the dictionary is full, or fail. *)
Inductive dict_outcome : Type := DictOk | DictEvict (victim : string) | DictFail (err : string).

Definition dict_set {A} (k : string) (v : A) (d : gmap string A) (o : dict_outcome) : option (gmap string A) :=
  match o with
  | DictOk => Some (<[k := v]> d)
  | DictEvict victim => Some (<[k := v]> (delete victim d))
  | DictFail _ => None
  end.

Inductive admin_req : Type :=
  | ReqUpsert (meta : SandboxLifecycleMeta)
  | ReqDelete (sandboxID : string)
  | ReqState (sandboxID state : string)
  | ReqLastActive (since : Z).

(** The reply: a status and, for [last_active], the body. *)
Record LastActiveResponse : Type := MkLast { la_Now : Z; la_Since : Z; la_Entries : gmap string Z }.

Record reply : Type := MkReply { status : Z; body : option LastActiveResponse }.

Definition plain_reply (st : Z) : reply := MkReply st None.

Definition handle_meta_upsert (m : SandboxLifecycleMeta) (o : dict_outcome) (p : Proxy) : reply * Proxy :=
  if SandboxID m =s "" then (plain_reply 400, p)
  else
    match dict_set (SandboxID m) m (px_META p) o with
    | None => (plain_reply 500, p)
    | Some d => (plain_reply 200, set_META d p)
    end.

Definition handle_meta_delete (sid : string) (p : Proxy) : reply * Proxy :=
  if sid =s "" then (plain_reply 400, p)
  else (plain_reply 200,
        MkProxy (delete sid (px_META p)) (delete sid (px_STATE p)) (delete sid (px_LAST p)) (px_token p)).

Definition handle_state (sid st : string) (o : dict_outcome) (p : Proxy) : reply * Proxy :=
  if sid =s "" then (plain_reply 400, p)
  else if st =s "" then (plain_reply 400, p)
  else if (st <>s "running") && (st <>s "pausing") && (st <>s "paused") then (plain_reply 400, p)
  else
    match dict_set sid st (px_STATE p) o with
    | None => (plain_reply 500, p)
    | Some d => (plain_reply 200, set_STATE d p)
    end.

Definition handle_last_active (since now : Z) (p : Proxy) : reply * Proxy :=
  (MkReply 200 (Some (MkLast now since (filter (fun kv => since < kv.2) (px_LAST p)))), p).

(** [dispatch], with the token of the request; [now] is the proxy's clock in
    milliseconds. *)
Definition dispatch (token : string) (rq : admin_req) (o : dict_outcome) (now : Z) (p : Proxy) : reply * Proxy :=
  if (px_token p <>s "") && (token <>s px_token p) then (plain_reply 403, p)
  else
    match rq with
    | ReqUpsert m => handle_meta_upsert m o p
    | ReqDelete sid => handle_meta_delete sid p
    | ReqState sid st => handle_state sid st o p
    | ReqLastActive since => handle_last_active since now p
    end.

(** The log phase of a request served for a sandbox. *)
Definition log_phase (ins_id : string) (now_ms : Z) (o : dict_outcome) (p : Proxy) : Proxy :=
  if ins_id =s "" then p
  else
    let due := match px_LAST p !! ins_id with None => true | Some prev => 1000 <=? now_ms - prev end in
    if due then
      match dict_set ins_id now_ms (px_LAST p) o with None => p | Some d => set_LAST d p end
    else p.

(** What the gate does with a request. *)
Inductive gate_result : Type := Pass | Unavailable (retryAfter : string) | Gone.

(** [sidecar] is [cube_sidecar_addr]; [resume] the status of the sub-request to
    the sidecar, [None] when there is no answer. *)
Definition gate (ins_id sidecar : string) (resume : option Z) (o : dict_outcome) (p : Proxy) : gate_result * Proxy :=
  if ins_id =s "" then (Pass, p)
  else
    match px_STATE p !! ins_id with
    | None => (Pass, p)
    | Some state =>
        if state =s "running" then (Pass, p)
        else if state =s "pausing" then (Unavailable "2", p)
        else if (state =s "killing") || (state =s "killed") then (Gone, p)
        else if state <>s "paused" then (Pass, p)
        else if sidecar =s "" then (Pass, p)
        else if bool_decide (resume = Some 200) then
          (Pass, match dict_set ins_id "running" (px_STATE p) o with None => p | Some d => set_STATE d p end)
        else (Unavailable "5", p)
    end.

(** ** The push client *)

Record Endpoint : Type := MkEndpoint {
  ProxyID : string; AdminURL : string; ResumeURL : string; NodeIP : string; StartedAt : Z; Version : string;
}.

Definition NewStatic (adminURLs : list string) : list Endpoint := (fun u => MkEndpoint u u "" "" 0 "") <$> adminURLs.

(** What the network does to one call: it fails, or it reaches the proxy, whose
    dictionary and clock then decide. *)
Inductive transport : Type := Unreachable (err : string) | Reached (o : dict_outcome) (now : Z).

Abbreviation proxies := (gmap string Proxy).
Abbreviation network := (string -> transport).

Definition do_ (token url : string) (rq : admin_req) (net : network) (px : proxies) : res reply * proxies :=
  match net url with
  | Unreachable e => (Err e, px)
  | Reached o now =>
      match px !! url with
      | None => (Err "connection refused", px)
      | Some p =>
          let '(r, p) := dispatch token rq o now p in
          (if status r / 100 =? 2 then Ok r else Err ("status=" +:+ pretty (status r)), <[url := p]> px)
      end
  end.

(** The calls of one broadcast: how many succeeded, the failures, the proxies. *)
Definition push_one (token : string) (rq : admin_req) (net : network)
  (acc : nat * list string * proxies) (ep : Endpoint) : nat * list string * proxies :=
  let '(ok, failures, px) := acc in
  match do_ token (AdminURL ep) rq net px with
  | (Ok _, px) => (S ok, failures, px)
  | (Err e, px) => (ok, (failures ++ [AdminURL ep +:+ ": " +:+ e])%list, px)
  end.

(** [broadcast]: the goroutines run side by side, each on a URL of its own; they
    are taken in the order of the fleet here, which only decides the order of
    the messages in the error. *)
Definition broadcast (token : string) (fleet : list Endpoint) (rq : admin_req) (net : network) (px : proxies)
  : res unit * proxies :=
  match fleet with
  | [] => (Ok tt, px)
  | _ =>
      let '(ok, failures, px) := foldl (push_one token rq net) (0%nat, [], px) fleet in
      (if (ok =? 0)%nat && (0 <? length failures)%nat then Err (Join failures (String newline "")) else Ok tt, px)
  end.

(** [PullLastActive]: the merged entries and the least [now] ([None] before the
    first reply), the number of successes and the last error. *)
Record pull_acc : Type := MkPull { merged : gmap string Z; minNow : option Z; successes : nat; lastErr : option string }.

Definition max_merge (a b : gmap string Z) : gmap string Z := union_with (fun x y => Some (Z.max x y)) a b.

Definition pull_one (token : string) (since : Z) (net : network) (px : proxies) (acc : pull_acc) (ep : Endpoint) : pull_acc :=
  match (do_ token (AdminURL ep) (ReqLastActive since) net px).1 with
  | Ok (MkReply _ (Some resp)) =>
      MkPull (max_merge (merged acc) (la_Entries resp))
        (Some (match minNow acc with None => la_Now resp | Some n => if la_Now resp <? n then la_Now resp else n end))
        (S (successes acc)) (lastErr acc)
  | Ok _ => MkPull (merged acc) (minNow acc) (successes acc) (Some "bad json")
  | Err e => MkPull (merged acc) (minNow acc) (successes acc) (Some e)
  end.

Definition PullLastActive (token : string) (fleet : list Endpoint) (since : Z) (net : network) (px : proxies)
  : res (gmap string Z * Z) :=
  match fleet with
  | [] => Ok (∅, 0)
  | _ =>
      let acc := foldl (pull_one token since net px) (MkPull ∅ None 0 None) fleet in
      if (successes acc =? 0)%nat then Err (default "no admin endpoints succeeded" (lastErr acc))
      else Ok (merged acc, default 0 (minNow acc))
  end.

(** One tick of [pollLastActive]: the watermark and the registry. *)
Definition poll_once (token : string) (fleet : list Endpoint) (net : network) (px : proxies)
  (since : Z) (r : Registry) : Z * Registry :=
  match PullLastActive token fleet since net px with
  | Err _ => (since, r)
  | Ok (entries, now) =>
      (if since <? now then now else since, merge_all (map_to_list entries) r)
  end.

(** [replayRegistryTo] one proxy: its calls in the order of the snapshot, each
    with its own outcome; [pushed] and [failed]. *)
Definition replayRegistryTo (token : string) (ep : Endpoint) (nets : list network) (r : Registry) (px : proxies)
  : nat * nat * proxies :=
  foldl (fun '(pushed, failed, px) '(e, net) =>
    match do_ token (AdminURL ep) (ReqUpsert (Meta e)) net px with
    | (Ok _, px) => (S pushed, failed, px)
    | (Err _, px) => (pushed, S failed, px)
    end) (0%nat, 0%nat, px) (zip (Snapshot r) nets).

(** ** Service discovery of the proxies *)

(** [json.Unmarshal] into an [Endpoint]. *)
Class EndpointJSON : Type := { decodeEndpoint : string -> option Endpoint }.

Record live : Type := MkLive { ep : Endpoint; lastSeen : Z }.

Definition cloneEndpoints (src : gmap string live) : list Endpoint := (fun kv => ep kv.2) <$> map_to_list src.

Definition diffJoins (prev cur : gmap string live) : list string * list string :=
  ((map_to_list (filter (fun kv => prev !! kv.1 = None) cur)).*1,
   (map_to_list (filter (fun kv => cur !! kv.1 = None) prev)).*1).

(** The callbacks a refresh makes, in order. *)
Inductive callback : Type := OnJoin (e : Endpoint) | OnLeave (proxyID : string).

Section Discovery.
Context `{EndpointJSON}.

(** The row of one id in the new state. *)
Definition live_row (now : Z) (id : string) (row : option string) : option live :=
  match row with
  | None => None
  | Some raw =>
      if raw =s "" then None
      else (fun e => MkLive (MkEndpoint id (AdminURL e) (ResumeURL e) (NodeIP e) (StartedAt e) (Version e)) now)
             <$> decodeEndpoint raw
  end.

Definition next_state (now : Z) (rows : list (string * option string)) : gmap string live :=
  foldl (fun m '(id, row) => match live_row now id row with None => m | Some l => <[id := l]> m end) ∅ rows.

(** [refreshOnce] on the replies of ZRANGEBYSCORE and of HMGET: the outcome, the
    new state, the callbacks made. *)
Definition refreshOnce (members : res (list string)) (hmget : list string -> res (list (option string))) (now : Z)
  (state : gmap string live) : res unit * gmap string live * list callback :=
  match members with
  | Err e => (Err ("zrangebyscore cube:v1:shared:cube_proxy:heartbeat: " +:+ e), state, [])
  | Ok ms =>
      let ids := filter (fun id => id <> "") ms in
      match (if (0 <? length ids)%nat then hmget ids else Ok []) with
      | Err e => (Err ("hmget cube:v1:shared:cube_proxy:registry: " +:+ e), state, [])
      | Ok rows =>
          let next := next_state now (zip ids rows) in
          let '(joins, leaves) := diffJoins state next in
          (Ok tt, next,
           (omap (fun id => (fun l => OnJoin (ep l)) <$> next !! id) joins ++ (OnLeave <$> leaves))%list)
      end
  end.

End Discovery.

(** [pruneExpired]: nothing, or the score up to which heartbeats are removed and
    the rows that are. *)
Definition pruneExpired (cutoff : Z) (expired : list string) : option (Z * list string) :=
  match expired with [] => None | _ => Some (cutoff, expired) end.

(** ** Lemmas *)

Lemma elem_of_diffJoins prev cur id :
  (id ∈ (diffJoins prev cur).1 <-> prev !! id = None /\ is_Some (cur !! id)) /\
  (id ∈ (diffJoins prev cur).2 <-> cur !! id = None /\ is_Some (prev !! id)).
Proof.
  unfold diffJoins. cbn. rewrite !list_elem_of_fmap. split; split.
  1, 3: intros ([k l] & -> & [Hl Hk]%elem_of_map_to_list%map_lookup_filter_Some); cbn in *; eauto.
  all: intros [Hn [l Hl]]; exists (id, l); split; [done|]; by apply elem_of_map_to_list, map_lookup_filter_Some.
Qed.

Lemma NoDup_diffJoins prev cur : NoDup (diffJoins prev cur).1 /\ NoDup (diffJoins prev cur).2.
Proof. split; apply NoDup_fst_map_to_list. Qed.

Lemma next_state_lookup `{EndpointJSON} now rows : NoDup rows.*1 -> forall id,
  next_state now rows !! id = (list_to_map rows : gmap string (option string)) !! id ≫= live_row now id.
Proof.
  unfold next_state. intros Hnd id.
  assert (Hgen : forall (m : gmap string live),
    foldl (fun m '(id, row) => match live_row now id row with None => m | Some l => <[id := l]> m end) m rows !! id =
    match (list_to_map rows : gmap string (option string)) !! id with
    | Some row => match live_row now id row with Some l => Some l | None => m !! id end
    | None => m !! id end).
  { induction rows as [|[k row] rows IH]; intros m; [done|]. cbn [fst snd fmap list_fmap] in Hnd.
    apply NoDup_cons in Hnd as [Hk Hnd]. cbn [foldl]. rewrite IH by done. rewrite list_to_map_cons.
    destruct (decide (k = id)) as [->|Hne].
    - rewrite lookup_insert_eq, not_elem_of_list_to_map_1 by done.
      destruct (live_row now id row); [by rewrite lookup_insert_eq|done].
    - rewrite lookup_insert_ne by done. destruct (live_row now k row); [|done].
      by rewrite lookup_insert_ne. }
  rewrite Hgen. destruct ((list_to_map rows : gmap string (option string)) !! id) as [row|]; [|by rewrite lookup_empty].
  cbn. destruct (live_row now id row); [done|]. by rewrite lookup_empty.
Qed.

Lemma do_other token url rq net px r px' u :
  do_ token url rq net px = (r, px') -> u <> url -> px' !! u = px !! u.
Proof.
  unfold do_. intros Hd Hne. destruct (net url); [by simplify_eq|].
  destruct (px !! url) as [p|]; [|by simplify_eq]. destruct dispatch. simplify_eq.
  by rewrite lookup_insert_ne.
Qed.

(** A call whose proxy answers: what [do_] does is what [dispatch] does. *)
Lemma do_reached token url rq net px o now p :
  net url = Reached o now -> px !! url = Some p ->
  do_ token url rq net px =
    let '(r, p') := dispatch token rq o now p in
    (if status r / 100 =? 2 then Ok r else Err ("status=" +:+ pretty (status r)), <[url := p']> px).
Proof. intros Hn Hp. unfold do_. rewrite Hn, Hp. by destruct dispatch. Qed.

(** A call looks at and changes the proxy at its URL only. *)
Lemma do_local token url rq net px px2 :
  px !! url = px2 !! url ->
  (do_ token url rq net px).1 = (do_ token url rq net px2).1 /\
  (do_ token url rq net px).2 !! url = (do_ token url rq net px2).2 !! url.
Proof.
  intros Heq. unfold do_. destruct (net url); [done|]. rewrite <- Heq.
  destruct (px !! url) as [p|] eqn:Hp; [|cbn; split; congruence].
  destruct dispatch. cbn. by rewrite !lookup_insert_eq.
Qed.

Lemma push_all_spec token rq net fleet : NoDup (AdminURL <$> fleet) -> forall ok fs px,
  let '(ok', fs', px') := foldl (push_one token rq net) (ok, fs, px) fleet in
  (ok' = ok + length (filter (fun e => is_ok (do_ token (AdminURL e) rq net px).1) fleet))%nat /\
  (length fs' = length fs + length (filter (fun e => negb (is_ok (do_ token (AdminURL e) rq net px).1)) fleet))%nat /\
  (forall u, u ∉ (AdminURL <$> fleet) -> px' !! u = px !! u) /\
  (forall u, u ∈ (AdminURL <$> fleet) -> px' !! u = (do_ token u rq net px).2 !! u).
Proof.
  induction fleet as [|e fleet IH]; intros Hnd ok fs px.
  { cbn. split_and!; try lia; [done|]. by intros u ?%not_elem_of_nil. }
  cbn [fmap list_fmap] in Hnd. apply NoDup_cons in Hnd as [He Hnd].
  cbn [foldl]. unfold push_one at 2. destruct (do_ token (AdminURL e) rq net px) as [r px1] eqn:Hd.
  assert (Hsame : forall u, u <> AdminURL e -> px1 !! u = px !! u) by (intros; eapply do_other; eauto).
  assert (Hext : forall e', e' ∈ fleet -> (do_ token (AdminURL e') rq net px1).1 = (do_ token (AdminURL e') rq net px).1).
  { intros e' He'. apply do_local, Hsame. intros Heq. apply He. rewrite <- Heq. by apply list_elem_of_fmap_2. }
  assert (Hf1 : filter (fun e => is_ok (do_ token (AdminURL e) rq net px1).1) fleet =
                filter (fun e => is_ok (do_ token (AdminURL e) rq net px).1) fleet).
  { apply filter_ext_Forall, Forall_forall. intros e' He'. by rewrite Hext. }
  assert (Hf2 : filter (fun e => negb (is_ok (do_ token (AdminURL e) rq net px1).1)) fleet =
                filter (fun e => negb (is_ok (do_ token (AdminURL e) rq net px).1)) fleet).
  { apply filter_ext_Forall, Forall_forall. intros e' He'. by rewrite Hext. }
  assert (Hat : px1 !! AdminURL e = (do_ token (AdminURL e) rq net px).2 !! AdminURL e) by (by rewrite Hd).
  assert (Hlk : forall px' : proxies, (forall u, u ∉ (AdminURL <$> fleet) -> px' !! u = px1 !! u) ->
    (forall u, u ∈ (AdminURL <$> fleet) -> px' !! u = (do_ token u rq net px1).2 !! u) ->
    (forall u, u ∉ (AdminURL <$> e :: fleet) -> px' !! u = px !! u) /\
    (forall u, u ∈ (AdminURL <$> e :: fleet) -> px' !! u = (do_ token u rq net px).2 !! u)).
  { intros px' H1 H2. cbn [fmap list_fmap]. split.
    - intros u [Hu1 Hu2]%not_elem_of_cons. rewrite H1 by done. by apply Hsame.
    - intros u [->|Hu]%elem_of_cons; [by rewrite H1|]. rewrite H2 by done.
      apply do_local, Hsame. intros ->. done. }
  destruct r as [r|m]; cbn [fst is_ok].
  - specialize (IH Hnd (S ok) fs px1). destruct foldl as [[ok' fs'] px'].
    destruct IH as (Hok & Hfs & H1 & H2). rewrite Hf1 in Hok. rewrite Hf2 in Hfs.
    rewrite !filter_cons, Hd. cbn [fst is_ok negb]. rewrite decide_True, decide_False by (done || tauto).
    cbn [length]. split_and!; [lia|lia|by apply Hlk..].
  - specialize (IH Hnd ok (fs ++ [AdminURL e +:+ ": " +:+ m])%list px1). destruct foldl as [[ok' fs'] px'].
    destruct IH as (Hok & Hfs & H1 & H2). rewrite Hf1 in Hok. rewrite Hf2 in Hfs. rewrite length_app in Hfs. cbn in Hfs.
    rewrite !filter_cons, Hd. cbn [fst is_ok negb]. rewrite decide_False, decide_True by (done || tauto).
    cbn [length]. split_and!; [lia|lia|by apply Hlk..].
Qed.

Lemma filter_pos {A} (P : A -> Prop) `{!forall x, Decision (P x)} (l : list A) :
  (0 < length (filter P l))%nat <-> exists x, x ∈ l /\ P x.
Proof.
  split.
  - destruct (filter P l) as [|x l'] eqn:Hf; cbn; [lia|]. intros _. exists x.
    apply and_comm, (list_elem_of_filter P). rewrite Hf. left.
  - intros (x & Hx & HP). destruct (filter P l) eqn:Hf; cbn; [|lia].
    assert (Hin : x ∈ filter P l) by (by apply list_elem_of_filter). rewrite Hf in Hin. by apply not_elem_of_nil in Hin.
Qed.

Lemma broadcast_spec token fleet rq net px : NoDup (AdminURL <$> fleet) ->
  (is_ok (broadcast token fleet rq net px).1 <->
     fleet = [] \/ exists e, e ∈ fleet /\ is_ok (do_ token (AdminURL e) rq net px).1) /\
  (forall u, u ∉ (AdminURL <$> fleet) -> (broadcast token fleet rq net px).2 !! u = px !! u) /\
  (forall u, u ∈ (AdminURL <$> fleet) -> (broadcast token fleet rq net px).2 !! u = (do_ token u rq net px).2 !! u).
Proof.
  intros Hnd. destruct fleet as [|e0 fl] eqn:Hfleet; [cbn; split_and!; [naive_solver|done|set_solver]|].
  pose proof (push_all_spec token rq net fleet) as Hpush. rewrite Hfleet in Hpush. specialize (Hpush Hnd 0%nat [] px).
  unfold broadcast. destruct foldl as [[ok fs] px']. destruct Hpush as (Hok & Hfs & H1 & H2). cbn [fst snd].
  split_and!; [|done|done]. rewrite <- Hfleet in *.
  assert (Hiff : (0 < ok)%nat <-> exists e, e ∈ fleet /\ is_ok (do_ token (AdminURL e) rq net px).1).
  { rewrite Hok. cbn. apply filter_pos. }
  rewrite <- Hiff. cbn in Hfs. destruct (Nat.eqb_spec ok 0) as [->|Hne]; [|cbn; split; [right; lia|done]].
  assert (Hlen : (0 < length fs)%nat).
  { rewrite Hfs. cbn. apply filter_pos. exists e0. split; [rewrite Hfleet; left|].
    destruct (is_ok (do_ token (AdminURL e0) rq net px).1) eqn:Hr; [|done].
    exfalso. apply (Nat.lt_irrefl 0), Hiff. exists e0. rewrite Hr, Hfleet. split; [left|done]. }
  rewrite (proj2 (Nat.ltb_lt 0 (length fs)) Hlen). cbn. split; [done|]. intros [->|Hlt]; [done|lia].
Qed.

(** ** What a broadcast reaches *)

(** The proxy at a URL takes requests with this token now. *)
Definition accepts (token : string) (net : network) (px : proxies) (u : string) : Prop :=
  exists now p, net u = Reached DictOk now /\ px !! u = Some p /\ (px_token p = "" \/ px_token p = token).

(** The states the admin endpoint knows. *)
Definition known_state (st : string) : Prop := st = "running" \/ st = "pausing" \/ st = "paused".

Lemma dispatch_authorised token rq o now p : px_token p = "" \/ px_token p = token ->
  dispatch token rq o now p =
    match rq with
    | ReqUpsert m => handle_meta_upsert m o p
    | ReqDelete sid => handle_meta_delete sid p
    | ReqState sid st => handle_state sid st o p
    | ReqLastActive since => handle_last_active since now p
    end.
Proof.
  intros Ht. unfold dispatch.
  replace ((px_token p <>s "") && (token <>s px_token p)) with false; [done|].
  destruct Ht as [->| ->]; cbn; [done|]. rewrite (bool_decide_true (token = token)) by done. by rewrite andb_false_r.
Qed.

Lemma handle_state_known sid st p : sid <> "" -> known_state st ->
  handle_state sid st DictOk p = (plain_reply 200, set_STATE (<[sid := st]> (px_STATE p)) p).
Proof.
  intros Hs Hst. unfold handle_state. rewrite bool_decide_false by done.
  destruct Hst as [->|[->| ->]]; vm_compute bool_decide; done.
Qed.

Lemma handle_state_unknown sid st o p : ~ known_state st -> handle_state sid st o p = (plain_reply 400, p).
Proof.
  intros Hst. unfold handle_state. case_bool_decide; [done|]. case_bool_decide; [done|].
  rewrite !bool_decide_false by (intros ->; apply Hst; unfold known_state; tauto). done.
Qed.

Lemma do_state_accepted token u sid st net px : sid <> "" -> known_state st -> accepts token net px u ->
  exists p r, px !! u = Some p /\
    do_ token u (ReqState sid st) net px = (Ok r, <[u := set_STATE (<[sid := st]> (px_STATE p)) p]> px).
Proof.
  intros Hs Hst (now & p & Hn & Hp & Ht). exists p, (plain_reply 200). split; [done|].
  rewrite (do_reached _ _ _ _ _ _ _ _ Hn Hp), dispatch_authorised, handle_state_known by done. done.
Qed.

Lemma do_delete_accepted token u sid net px : sid <> "" -> accepts token net px u ->
  exists p r, px !! u = Some p /\
    do_ token u (ReqDelete sid) net px =
      (Ok r, <[u := MkProxy (delete sid (px_META p)) (delete sid (px_STATE p)) (delete sid (px_LAST p)) (px_token p)]> px).
Proof.
  intros Hs (now & p & Hn & Hp & Ht). exists p, (plain_reply 200). split; [done|].
  rewrite (do_reached _ _ _ _ _ _ _ _ Hn Hp), dispatch_authorised by done. unfold handle_meta_delete.
  by rewrite bool_decide_false.
Qed.

(** Requests do not change the token of a proxy. *)
Lemma dispatch_token token rq o now p : px_token (dispatch token rq o now p).2 = px_token p.
Proof.
  unfold dispatch. case_match; [done|]. destruct rq; cbn.
  - unfold handle_meta_upsert. case_match; [done|]. by case_match.
  - unfold handle_meta_delete. by case_match.
  - unfold handle_state. repeat (case_match; [done|]). done.
  - done.
Qed.

Lemma do_token token url rq net px u : px_token <$> (do_ token url rq net px).2 !! u = px_token <$> px !! u.
Proof.
  unfold do_. destruct (net url) as [|o now]; [done|]. destruct (px !! url) as [p|] eqn:Hp; [|done].
  pose proof (dispatch_token token rq o now p) as Ht. destruct dispatch as [r p']. cbn in *.
  destruct (decide (u = url)) as [->|Hne]; [|by rewrite lookup_insert_ne]. rewrite lookup_insert_eq, Hp. cbn. by rewrite Ht.
Qed.

Lemma accepts_token token net px px' u :
  px_token <$> px' !! u = px_token <$> px !! u -> accepts token net px' u -> accepts token net px u.
Proof.
  intros Heq (now & p & Hn & Hp & Ht). rewrite Hp in Heq. symmetry in Heq. apply fmap_Some in Heq as (p0 & Hp0 & Heq).
  exists now, p0. by rewrite <- Heq.
Qed.

(** A state pushed to the fleet: every replica that takes the request shows
    it afterwards and changes nothing else, no other proxy changes, and the push
    fails only when there are replicas and none took it. *)
Theorem push_state_spec token fleet sid st net px :
  NoDup (AdminURL <$> fleet) -> sid <> "" -> known_state st ->
  (forall u, u ∈ (AdminURL <$> fleet) -> accepts token net px u ->
     (broadcast token fleet (ReqState sid st) net px).2 !! u = (fun p => set_STATE (<[sid := st]> (px_STATE p)) p) <$> px !! u) /\
  (forall u, u ∉ (AdminURL <$> fleet) -> (broadcast token fleet (ReqState sid st) net px).2 !! u = px !! u) /\
  ((exists u, u ∈ (AdminURL <$> fleet) /\ accepts token net px u) ->
     (broadcast token fleet (ReqState sid st) net px).1 = Ok tt).
Proof.
  intros Hnd Hs Hst. destruct (broadcast_spec token fleet (ReqState sid st) net px Hnd) as (Hok & Hout & Hin).
  assert (Hdo := fun u => do_state_accepted token u sid st net px Hs Hst).
  split_and!; [|done|].
  - intros u Hu Ha. rewrite Hin by done. destruct (Hdo u Ha) as (p & r & Hp & ->). rewrite Hp. cbn [snd]. by rewrite lookup_insert_eq.
  - intros (u & (e & -> & He)%list_elem_of_fmap & Ha). destruct (Hdo _ Ha) as (p & r & _ & Hd).
    assert (Hb : is_ok (broadcast token fleet (ReqState sid st) net px).1).
    { apply Hok. right. exists e. by rewrite Hd. }
    by destruct (broadcast token fleet (ReqState sid st) net px).1 as [[]|].
Qed.

(** The state "killing" never reaches a proxy: the admin endpoint accepts
    running, pausing and paused only, so the push before a kill fails at every
    replica and changes none of them, whatever the network does. *)
Theorem killing_state_never_pushed token fleet sid net px :
  NoDup (AdminURL <$> fleet) ->
  (broadcast token fleet (ReqState sid "killing") net px).2 = px /\
  (fleet <> [] -> ~ is_ok (broadcast token fleet (ReqState sid "killing") net px).1).
Proof.
  intros Hnd. destruct (broadcast_spec token fleet (ReqState sid "killing") net px Hnd) as (Hok & Hout & Hin).
  assert (Hdo : forall u, (do_ token u (ReqState sid "killing") net px).2 = px /\
                ~ is_ok (do_ token u (ReqState sid "killing") net px).1).
  { intros u. unfold do_. destruct (net u) as [|o now]; [by split; [done|intros []]|].
    destruct (px !! u) as [p|] eqn:Hp; [|by split; [done|intros []]].
    assert (Hd : exists c, (c / 100 =? 2) = false /\ dispatch token (ReqState sid "killing") o now p = (plain_reply c, p)).
    { unfold dispatch. case_match; [by exists 403|]. exists 400. split; [done|].
      apply handle_state_unknown. by intros [?|[?|?]]. }
    destruct Hd as (c & Hc & ->). cbn. rewrite Hc. split; [by apply insert_id|intros []]. }
  split.
  - apply map_eq. intros u. destruct (decide (u ∈ (AdminURL <$> fleet))) as [Hu|Hu]; [|by apply Hout].
    rewrite Hin by done. by rewrite (proj1 (Hdo u)).
  - intros Hne [?|(e & _ & He)]%Hok; [done|]. by apply (Hdo (AdminURL e)).
Qed.

(** ** Polling the activity *)

(** The poller and what it watches. *)
Record pstate : Type := MkPs { ps_since : Z; ps_reg : Registry; ps_px : proxies }.

(** A request served for a sandbox by the proxy at a URL, stamped with the
    proxy's clock, and a tick of the poller. *)
Inductive pevent : Type := Serve (url sid : string) (now_ms : Z) (o : dict_outcome) | Poll (net : network).

Definition pstep (token : string) (fleet : list Endpoint) (s : pstate) (e : pevent) : pstate :=
  match e with
  | Serve u sid t o => MkPs (ps_since s) (ps_reg s) (alter (log_phase sid t o) u (ps_px s))
  | Poll net =>
      let '(since, r) := poll_once token fleet net (ps_px s) (ps_since s) (ps_reg s) in MkPs since r (ps_px s)
  end.

(** Requests are stamped later than the watermark; polls reach every replica. *)
Definition smooth (token : string) (fleet : list Endpoint) (s : pstate) (e : pevent) : Prop :=
  match e with
  | Serve _ _ t _ => ps_since s < t
  | Poll net => forall e, e ∈ fleet -> accepts token net (ps_px s) (AdminURL e)
  end.

Inductive preach (token : string) (fleet : list Endpoint) (s0 : pstate) : pstate -> Prop :=
  | preach_refl : preach token fleet s0 s0
  | preach_step s e : preach token fleet s0 s -> smooth token fleet s e -> preach token fleet s0 (pstep token fleet s e).

(** The registry knows the activity that the fleet recorded up to [bound]. *)
Definition informed (fleet : list Endpoint) (bound : option Z) (s : pstate) : Prop :=
  forall ep p sid v e, ep ∈ fleet -> ps_px s !! AdminURL ep = Some p -> px_LAST p !! sid = Some v ->
    match bound with Some b => v <= b | None => True end -> ps_reg s !! sid = Some e -> v <= LastActiveMs e.

Lemma max_merge_lookup a b sid :
  (forall v, a !! sid = Some v -> exists w, max_merge a b !! sid = Some w /\ v <= w) /\
  (forall v, b !! sid = Some v -> exists w, max_merge a b !! sid = Some w /\ v <= w).
Proof.
  unfold max_merge. rewrite lookup_union_with. split; intros v ->; destruct (_ !! sid) as [w|]; cbn; eexists; (split; [done|lia]).
Qed.

Lemma pull_one_mono token since net px acc ep :
  (successes acc <= successes (pull_one token since net px acc ep))%nat /\
  (forall sid v, merged acc !! sid = Some v -> exists w, merged (pull_one token since net px acc ep) !! sid = Some w /\ v <= w).
Proof.
  unfold pull_one. destruct (do_ _ _ _ _ _).1 as [[st [resp|]]|m]; cbn; split; try lia; intros sid v Hv.
  1: by apply (proj1 (max_merge_lookup (merged acc) (la_Entries resp) sid)).
  all: exists v; split; [done|lia].
Qed.

Lemma do_last_active token net px u p since : accepts token net px u -> px !! u = Some p -> exists now,
  (do_ token u (ReqLastActive since) net px).1 =
    Ok (MkReply 200 (Some (MkLast now since (filter (fun kv => since < kv.2) (px_LAST p))))).
Proof.
  intros (now & p' & Hn & Hp' & Ht) Hp. assert (p' = p) as -> by congruence. exists now.
  by rewrite (do_reached _ _ _ _ _ _ _ _ Hn Hp), dispatch_authorised.
Qed.

Lemma pull_one_entry token since net px acc ep p :
  accepts token net px (AdminURL ep) -> px !! AdminURL ep = Some p ->
  (0 < successes (pull_one token since net px acc ep))%nat /\
  (forall sid v, px_LAST p !! sid = Some v -> since < v ->
     exists w, merged (pull_one token since net px acc ep) !! sid = Some w /\ v <= w).
Proof.
  intros Ha Hp. destruct (do_last_active token net px (AdminURL ep) p since Ha Hp) as [now Hd].
  unfold pull_one. rewrite Hd. cbn. split; [lia|].
  intros sid v Hv Hlt. apply (proj2 (max_merge_lookup _ _ sid)). by apply map_lookup_filter_Some.
Qed.

Lemma pull_fold_mono token since net px fleet : forall acc,
  (successes acc <= successes (foldl (pull_one token since net px) acc fleet))%nat /\
  (forall sid v, merged acc !! sid = Some v ->
     exists w, merged (foldl (pull_one token since net px) acc fleet) !! sid = Some w /\ v <= w).
Proof.
  induction fleet as [|ep fleet IH]; intros acc; cbn; [split; [lia|eauto with lia]|].
  destruct (IH (pull_one token since net px acc ep)) as [H1 H2].
  destruct (pull_one_mono token since net px acc ep) as [H3 H4]. split; [lia|].
  intros sid v (w & Hw & Hle)%H4. destruct (H2 _ _ Hw) as (w' & Hw' & Hle'). exists w'. split; [done|lia].
Qed.

Lemma pull_fold_entry token since net px fleet ep p : ep ∈ fleet ->
  accepts token net px (AdminURL ep) -> px !! AdminURL ep = Some p -> forall acc,
  (0 < successes (foldl (pull_one token since net px) acc fleet))%nat /\
  (forall sid v, px_LAST p !! sid = Some v -> since < v ->
     exists w, merged (foldl (pull_one token since net px) acc fleet) !! sid = Some w /\ v <= w).
Proof.
  intros Hin Ha Hp. induction fleet as [|e fleet IH]; intros acc; [by apply not_elem_of_nil in Hin|].
  apply elem_of_cons in Hin as [<-|Hin]; [|by apply IH]. cbn.
  destruct (pull_one_entry token since net px acc ep p Ha Hp) as [H1 H2].
  destruct (pull_fold_mono token since net px fleet (pull_one token since net px acc ep)) as [H3 H4]. split; [lia|].
  intros sid v Hv Hlt. destruct (H2 _ _ Hv Hlt) as (w & Hw & Hle). destruct (H4 _ _ Hw) as (w' & Hw' & Hle').
  exists w'. split; [done|lia].
Qed.

Lemma poll_px token fleet net s : ps_px (pstep token fleet s (Poll net)) = ps_px s.
Proof. cbn. by destruct poll_once. Qed.

Lemma poll_reg token fleet net s :
  ps_reg (pstep token fleet s (Poll net)) = (poll_once token fleet net (ps_px s) (ps_since s) (ps_reg s)).2.
Proof. cbn. by destruct poll_once. Qed.

(** A poll that reaches every replica closes the gap to all of them. *)
Lemma poll_informs token fleet net s :
  smooth token fleet s (Poll net) -> informed fleet (Some (ps_since s)) s ->
  informed fleet None (pstep token fleet s (Poll net)).
Proof.
  intros Hall Hinv ep p sid v e Hep Hp Hv _. rewrite poll_px in Hp. rewrite poll_reg.
  assert (Ha := Hall ep Hep). unfold poll_once.
  destruct (pull_fold_entry token (ps_since s) net (ps_px s) fleet ep p Hep Ha Hp (MkPull ∅ None 0 None)) as [Hs Hent].
  unfold PullLastActive. destruct fleet as [|e0 fl] eqn:Hfl; [by apply not_elem_of_nil in Hep|].
  rewrite <- Hfl in *. rewrite (proj2 (Nat.eqb_neq _ 0)) by lia. cbn [snd]. intros He.
  destruct (merge_all_dom _ _ _ (mk_is_Some _ _ He)) as [e1 He1].
  destruct (merge_all_lookup (map_to_list (merged (foldl (pull_one token (ps_since s) net (ps_px s)) (MkPull ∅ None 0 None) fleet)))
    _ _ _ He1) as (e' & He' & _ & _ & Hle & Hts).
  assert (e' = e) as -> by congruence.
  destruct (Z.le_gt_cases v (ps_since s)) as [Hv1|Hv1].
  - specialize (Hinv ep p sid v e1 Hep Hp Hv Hv1 He1). lia.
  - destruct (Hent sid v Hv) as (w & Hw & Hvw); [lia|].
    specialize (Hts w). rewrite elem_of_map_to_list in Hts. specialize (Hts Hw). lia.
Qed.

Lemma serve_keeps token fleet u sid t o s :
  smooth token fleet s (Serve u sid t o) -> informed fleet (Some (ps_since s)) s ->
  informed fleet (Some (ps_since s)) (pstep token fleet s (Serve u sid t o)).
Proof.
  intros Ht Hinv ep p k v e Hep Hp Hv Hle He. cbn in *.
  destruct (decide (u = AdminURL ep)) as [->|Hne]; [|rewrite lookup_alter_ne in Hp by done; eauto].
  rewrite lookup_alter_eq in Hp. apply fmap_Some in Hp as (p0 & Hp0 & ->).
  apply (Hinv ep p0 k v e); [done|done| |done|done]. revert Hv. unfold log_phase.
  case_match; [done|]. case_match; [|done]. destruct o as [|victim|]; cbn; [| |done].
  - destruct (decide (sid = k)) as [->|]; [rewrite lookup_insert_eq|by rewrite lookup_insert_ne].
    intros [= ->]. lia.
  - destruct (decide (sid = k)) as [->|]; [rewrite lookup_insert_eq|rewrite lookup_insert_ne by done].
    + intros [= ->]. lia.
    + by intros [_ ?]%lookup_delete_Some.
Qed.

Lemma preach_informed token fleet s0 s :
  informed fleet (Some (ps_since s0)) s0 -> preach token fleet s0 s -> informed fleet (Some (ps_since s)) s.
Proof.
  intros H0. induction 1 as [|s e _ IH He]; [done|]. destruct e as [u sid t o|net].
  - exact (serve_keeps token fleet u sid t o s He IH).
  - intros ep p sid v e' Hep Hp Hv _. by apply (poll_informs token fleet net s He IH ep p sid v e').
Qed.

(** No activity is missed while the fleet answers: when every poll reaches
    every replica and requests are stamped later than the watermark, each poll
    leaves the registry at least as recent, for every sandbox it tracks, as what
    any replica has recorded for it. *)
Theorem polls_miss_nothing token fleet s0 s net :
  ps_since s0 = 0 ->
  (forall ep p sid v, ep ∈ fleet -> ps_px s0 !! AdminURL ep = Some p -> px_LAST p !! sid = Some v -> 0 < v) ->
  preach token fleet s0 s -> smooth token fleet s (Poll net) ->
  informed fleet None (pstep token fleet s (Poll net)).
Proof.
  intros H0 Hpos Hr Hp. apply poll_informs; [done|]. apply (preach_informed token fleet s0); [|done].
  intros ep p sid v e Hep Hlk Hv Hle _. specialize (Hpos ep p sid v Hep Hlk Hv). lia.
Qed.

(** ** Joining and leaving *)

(** The replies Redis documents: the members whose score is above the cutoff,
    each once; the rows of the fields asked for, in order. *)
Definition zset_reply (hb : gmap string Z) (cutoff : Z) (ms : list string) : Prop :=
  NoDup ms /\ forall id, id ∈ ms <-> exists s, hb !! id = Some s /\ cutoff < s.

Definition hmget_reply (rows : gmap string string) (ids : list string) : res (list (option string)) :=
  Ok ((fun id => rows !! id) <$> ids).

(** The ids the callbacks are about. *)
Definition joined (cbs : list callback) : list string :=
  omap (fun c => match c with OnJoin e => Some (ProxyID e) | OnLeave _ => None end) cbs.
Definition left_ (cbs : list callback) : list string :=
  omap (fun c => match c with OnLeave id => Some id | OnJoin _ => None end) cbs.

Definition occurrences (id : string) (l : list string) : nat := length (filter (fun x => x = id) l).

Definition live_wf (m : gmap string live) : Prop := map_Forall (fun id l => ProxyID (ep l) = id) m.

Section DiscoveryLemmas.
Context `{EndpointJSON}.

(** A refresh: the replies and the clock. *)
Record refresh_in : Type := MkRefresh {
  in_members : res (list string); in_hmget : list string -> res (list (option string)); in_now : Z;
}.

Definition refresh_step (s : gmap string live * list callback) (i : refresh_in) : gmap string live * list callback :=
  let '(_, next, cbs) := refreshOnce (in_members i) (in_hmget i) (in_now i) s.1 in (next, (s.2 ++ cbs)%list).

Lemma live_row_id now id row l : live_row now id row = Some l -> ProxyID (ep l) = id.
Proof.
  unfold live_row. destruct row as [raw|]; [|done]. case_match; [done|]. by intros (e & _ & ->)%fmap_Some.
Qed.

Lemma next_state_wf now rows : live_wf (next_state now rows).
Proof.
  unfold next_state. apply (foldl_inv _ live_wf (fun _ => True)); [|apply map_Forall_empty|by apply Forall_true].
  intros m [id row] Hm _. destruct (live_row now id row) as [l|] eqn:Hl; [|done].
  apply map_Forall_insert_2; [|done]. by eapply live_row_id.
Qed.

Lemma occurrences_app id l l' : occurrences id (l ++ l')%list = (occurrences id l + occurrences id l')%nat.
Proof. unfold occurrences. by rewrite filter_app, length_app. Qed.

Lemma occurrences_NoDup id l : NoDup l -> occurrences id l = if decide (id ∈ l) then 1%nat else 0%nat.
Proof.
  intros Hnd. unfold occurrences. induction Hnd as [|x l Hx _ IH].
  { cbn. case_decide as Hd; [by apply not_elem_of_nil in Hd|done]. }
  rewrite filter_cons. destruct (decide (x = id)) as [->|Hne].
  - cbn. rewrite IH, decide_False by done. rewrite decide_True by left. done.
  - rewrite IH. apply decide_ext. rewrite elem_of_cons. naive_solver.
Qed.

Lemma joined_app a b : joined (a ++ b)%list = (joined a ++ joined b)%list.
Proof. apply omap_app. Qed.

Lemma left_app a b : left_ (a ++ b)%list = (left_ a ++ left_ b)%list.
Proof. apply omap_app. Qed.

Lemma callbacks_ids (next : gmap string live) joins leaves :
  live_wf next -> Forall (fun id => is_Some (next !! id)) joins ->
  let cbs := (omap (fun id => (fun l => OnJoin (ep l)) <$> next !! id) joins ++ (OnLeave <$> leaves))%list in
  joined cbs = joins /\ left_ cbs = leaves.
Proof.
  intros Hwf Hj. cbn. rewrite joined_app, left_app.
  assert (H1 : joined (OnLeave <$> leaves) = [] /\ left_ (OnLeave <$> leaves) = leaves).
  { induction leaves as [|x l [IH1 IH2]]; [done|]. split; cbn; [done|]. f_equal. exact IH2. }
  assert (H2 : joined (omap (fun id => (fun l => OnJoin (ep l)) <$> next !! id) joins) = joins /\
               left_ (omap (fun id => (fun l => OnJoin (ep l)) <$> next !! id) joins) = []).
  { induction Hj as [|id js [l Hl] _ [IH1 IH2]]; [done|]. cbn. rewrite Hl. cbn. split; [|done].
    rewrite (Hwf id l Hl). f_equal. exact IH1. }
  destruct H1 as [-> ->], H2 as [-> ->]. by rewrite app_nil_r.
Qed.

Lemma not_is_Some_None {A} (o : option A) : ~ is_Some o <-> o = None.
Proof. symmetry. apply eq_None_not_Some. Qed.

Lemma count_transition (P Q J L : Prop) `{!Decision P, !Decision Q, !Decision J, !Decision L} :
  (J <-> ~ P /\ Q) -> (L <-> ~ Q /\ P) ->
  ((if decide J then 1 else 0) + (if decide P then 1 else 0) = (if decide L then 1 else 0) + (if decide Q then 1 else 0))%nat.
Proof. intros HJ HL. repeat case_decide; tauto. Qed.

(** What one refresh does to one proxy. *)
Lemma refresh_transition members hm now state r next cbs id :
  refreshOnce members hm now state = (r, next, cbs) ->
  (occurrences id (joined cbs) + (if decide (is_Some (state !! id)) then 1 else 0) =
   occurrences id (left_ cbs) + (if decide (is_Some (next !! id)) then 1 else 0))%nat.
Proof.
  unfold refreshOnce. destruct members as [ms|e]; [|by intros [= <- <- <-]].
  destruct (if (0 <? _)%nat then _ else _) as [rows|e]; [|by intros [= <- <- <-]].
  set (nx := next_state now (zip (filter (fun id => id <> "") ms) rows)).
  destruct (elem_of_diffJoins state nx id) as [Hj Hl]. destruct (NoDup_diffJoins state nx) as [Hnj Hnl].
  assert (Hall : Forall (fun id => is_Some (nx !! id)) (diffJoins state nx).1).
  { apply Forall_forall. intros k Hk. by apply (elem_of_diffJoins state nx k) in Hk as [_ ?]. }
  destruct (callbacks_ids nx _ (diffJoins state nx).2 (next_state_wf _ _) Hall) as [Hcj Hcl].
  destruct (diffJoins state nx) as [joins leaves]. cbn [fst snd] in *. intros [= <- <- <-].
  rewrite Hcj, Hcl, !occurrences_NoDup by done.
  apply count_transition; rewrite not_is_Some_None; done.
Qed.

(** OnJoin fires exactly when a proxy appears among the live ones and
    OnLeave when it disappears: over any sequence of refreshes, with whatever
    Redis answers, the joins of a proxy exceed its leaves by one while it is
    live and equal them otherwise. *)
Theorem joins_and_leaves_alternate ins id :
  let s := foldl refresh_step (∅, []) ins in
  (occurrences id (joined s.2) = occurrences id (left_ s.2) + (if decide (is_Some (s.1 !! id)) then 1 else 0))%nat.
Proof.
  cbn. pose (I := fun s : gmap string live * list callback =>
    (occurrences id (joined s.2) = occurrences id (left_ s.2) + (if decide (is_Some (s.1 !! id)) then 1 else 0))%nat).
  change (I (foldl refresh_step (∅, []) ins)).
  apply (foldl_inv refresh_step I (fun _ => True)); [|done|by apply Forall_true].
  intros [st cbs] i HI _. unfold I in *. unfold refresh_step. cbn [fst snd] in *.
  destruct (refreshOnce (in_members i) (in_hmget i) (in_now i) st) as [[r next] new] eqn:Hr.
  pose proof (refresh_transition _ _ _ _ _ _ _ id Hr) as Ht. cbn [fst snd].
  rewrite joined_app, left_app, !occurrences_app. lia.
Qed.

(** A refresh that reads Redis makes live exactly the proxies whose last
    heartbeat is younger than the TTL and whose row in the registry decodes,
    under the id of the heartbeat; one that cannot read it changes nothing. *)
Theorem refresh_live_exactly hb rows cutoff ms now state :
  zset_reply hb cutoff ms ->
  let '(r, next, _) := refreshOnce (Ok ms) (hmget_reply rows) now state in
  r = Ok tt /\
  forall id, is_Some (next !! id) <->
    id <> "" /\ (exists s, hb !! id = Some s /\ cutoff < s) /\
    (exists raw e, rows !! id = Some raw /\ raw <> "" /\ decodeEndpoint raw = Some e).
Proof.
  intros [Hnd Hms]. unfold refreshOnce, hmget_reply. set (ids := filter (fun id => id <> "") ms).
  assert (Hrows : (if (0 <? length ids)%nat then Ok ((fun id => rows !! id) <$> ids) else Ok []) =
                  Ok ((fun id => rows !! id) <$> ids)).
  { destruct ids; done. }
  rewrite Hrows. destruct (diffJoins _ _). split; [done|]. intros id.
  set (zr := zip ids ((fun id => rows !! id) <$> ids)).
  assert (Hfst : zr.*1 = ids) by (apply fst_zip; by rewrite length_fmap).
  assert (Hnd' : NoDup ids) by (by apply NoDup_filter).
  rewrite next_state_lookup by (by rewrite Hfst).
  assert (Hlk : (list_to_map zr : gmap string (option string)) !! id = if decide (id ∈ ids) then Some (rows !! id) else None).
  { case_decide as Hin.
    - apply elem_of_list_to_map_1; [by rewrite Hfst|]. subst zr. clear -Hin.
      induction ids as [|k ids IH]; [by apply not_elem_of_nil in Hin|]. cbn.
      apply elem_of_cons in Hin as [->|Hin]; [left|right; auto].
    - apply not_elem_of_list_to_map_1. by rewrite Hfst. }
  rewrite Hlk. assert (Hin : id ∈ ids <-> id <> "" /\ exists s, hb !! id = Some s /\ cutoff < s).
  { subst ids. by rewrite list_elem_of_filter, Hms. }
  case_decide as Hd; cbn.
  - apply Hin in Hd as [Hne Hs]. unfold live_row. destruct (rows !! id) as [raw|] eqn:Hr; [|split; [by intros []|naive_solver]].
    case_bool_decide as Hraw; [split; [by intros []|naive_solver]|]. rewrite fmap_is_Some. split.
    + intros [e He]. split_and!; [done|done|]. exists raw, e. done.
    + intros (_ & _ & raw' & e & [= <-] & _ & He). by exists e.
  - split; [by intros []|]. intros (Hne & Hs & _). exfalso. tauto.
Qed.

End DiscoveryLemmas.

(** ** What polling and replay do not carry *)

Lemma pull_stale token since net px fleet :
  (forall u p sid v, px !! u = Some p -> px_LAST p !! sid = Some v -> v <= since) -> forall acc,
  merged acc = ∅ -> merged (foldl (pull_one token since net px) acc fleet) = ∅.
Proof.
  intros Hold. induction fleet as [|e fleet IH]; intros acc Hacc; [done|]. cbn. apply IH.
  unfold pull_one, do_. destruct (net (AdminURL e)) as [|o now]; [done|].
  destruct (px !! AdminURL e) as [p|] eqn:Hp; [|done]. unfold dispatch.
  destruct ((px_token p <>s "") && (token <>s px_token p)); cbn; [by change (403 / 100 =? 2) with false|].
  change (200 / 100 =? 2) with true. cbn. rewrite Hacc.
  assert (Hf : filter (fun kv => since < kv.2) (px_LAST p) = ∅).
  { apply map_empty. intros sid. apply map_lookup_filter_None. right. intros v Hv. cbn.
    specialize (Hold _ _ _ _ Hp Hv). lia. }
  by rewrite Hf.
Qed.

(** Records at or below the watermark are never reported again. *)
Lemma polls_of_old_records token fleet nets : forall s,
  (forall u p sid v, ps_px s !! u = Some p -> px_LAST p !! sid = Some v -> v <= ps_since s) ->
  ps_reg (foldl (pstep token fleet) s (Poll <$> nets)) = ps_reg s.
Proof.
  induction nets as [|net nets IH]; intros s Hold; [done|]. cbn [fmap list_fmap foldl].
  assert (Hpull : ps_reg (pstep token fleet s (Poll net)) = ps_reg s /\ ps_since s <= ps_since (pstep token fleet s (Poll net))).
  { cbn. unfold poll_once, PullLastActive. destruct fleet as [|e fl] eqn:Hfl.
    - destruct (Z.ltb_spec (ps_since s) 0); cbn; split; (done || lia).
    - rewrite <- Hfl. destruct (successes _ =? 0)%nat; [cbn; split; (done || lia)|]. cbn zeta beta iota. rewrite pull_stale by done. rewrite map_to_list_empty.
      destruct (Z.ltb_spec (ps_since s) (default 0 (minNow (foldl (pull_one token (ps_since s) net (ps_px s)) (MkPull ∅ None 0 None) fleet))));
        cbn; split; (done || lia). }
  destruct Hpull as [Hr Hs]. rewrite IH; [done|].
  intros u p sid v Hp Hv. rewrite poll_px in Hp. specialize (Hold u p sid v Hp Hv). lia.
Qed.

(** The keys and the proxies after a replay: it pushes metadata only. *)
Lemma do_upsert_state token url m net px r px' : do_ token url (ReqUpsert m) net px = (r, px') ->
  forall u, px_STATE <$> px' !! u = px_STATE <$> px !! u.
Proof.
  unfold do_. destruct (net url) as [|o now]; [by intros [= _ <-]|].
  destruct (px !! url) as [p|] eqn:Hp; [|by intros [= _ <-]].
  destruct (dispatch token (ReqUpsert m) o now p) as [rp p'] eqn:Hd. intros [= _ <-] u.
  assert (Hst : px_STATE p' = px_STATE p).
  { revert Hd. unfold dispatch, handle_meta_upsert. case_match; [by intros [= _ <-]|].
    case_match; [by intros [= _ <-]|]. case_match; by intros [= _ <-]. }
  destruct (decide (u = url)) as [->|Hne]; [|by rewrite lookup_insert_ne].
  rewrite lookup_insert_eq, Hp. cbn. by rewrite Hst.
Qed.

Lemma replay_state token ep nets r px u :
  px_STATE <$> (replayRegistryTo token ep nets r px).2 !! u = px_STATE <$> px !! u.
Proof.
  unfold replayRegistryTo. generalize (zip (Snapshot r) nets). intros l.
  generalize 0%nat at 2. generalize 0%nat. intros a b. revert px a b. induction l as [|[e net] l IH]; intros px a b; [done|]. cbn [foldl].
  destruct (do_ token (AdminURL ep) (ReqUpsert (Meta e)) net px) as [[rp|m] px1] eqn:Hd;
    rewrite IH; by eapply do_upsert_state.
Qed.

(** A replica that joins late does not learn which sandboxes are paused: the
    replay that hydrates it pushes metadata and leaves its states as they were,
    so a fresh replica lets every request through, also to a sandbox that is
    paused, and asks for no resume. *)
Theorem replay_leaves_states_unknown token ep nets r px p sid sidecar resume o :
  px !! AdminURL ep = Some p -> px_STATE p = ∅ ->
  exists p', (replayRegistryTo token ep nets r px).2 !! AdminURL ep = Some p' /\
    gate sid sidecar resume o p' = (Pass, p').
Proof.
  intros Hp Hst. pose proof (replay_state token ep nets r px (AdminURL ep)) as Hr. rewrite Hp in Hr. cbn in Hr.
  apply fmap_Some in Hr as (p' & Hp' & Hst'). exists p'. split; [done|].
  unfold gate. case_match; [done|]. by rewrite <- Hst', Hst.
Qed.

(** ** Witnesses *)

Definition demo_px (l : gmap string Z) : Proxy := MkProxy ∅ ∅ l "".
Definition demo_fleet : list Endpoint := NewStatic ["http://a:8082"; "http://b:8082"].
Definition demo_pxs : proxies :=
  {[ "http://a:8082" := demo_px ∅; "http://b:8082" := demo_px {[ "s1" := 1500000 ]} ]}.
Definition all_up (now : Z) : network := fun _ => Reached DictOk now.
Definition b_down (now : Z) : network := fun u => if u =s "http://b:8082" then Unreachable "timeout" else Reached DictOk now.
Definition demo_ps : pstate := MkPs 0 demo_reg demo_pxs.

(** A replica that misses one poll is not caught up with: here the replica
    [b] records activity, one poll does not reach it while the other replica's
    clock moves the watermark past the record, and no later poll, whatever it
    reaches, tells the registry. *)
Theorem unreached_replica_forgotten nets :
  let s1 := pstep "" demo_fleet demo_ps (Poll (b_down 2000000)) in
  let s2 := foldl (pstep "" demo_fleet) s1 (Poll <$> nets) in
  (exists p, ps_px s2 !! "http://b:8082" = Some p /\ px_LAST p !! "s1" = Some 1500000) /\
  (exists e, ps_reg s2 !! "s1" = Some e /\ LastActiveMs e = 0).
Proof.
  cbn zeta. split.
  - assert (Hpx : forall nets s, ps_px (foldl (pstep "" demo_fleet) s (Poll <$> nets)) = ps_px s).
    { clear. induction nets as [|n nets IH]; intros s; [done|]. cbn [fmap list_fmap foldl]. by rewrite IH, poll_px. }
    rewrite Hpx, poll_px. eexists. split; vm_compute; reflexivity.
  - rewrite polls_of_old_records; [eexists; split; vm_compute; reflexivity|].
    rewrite poll_px. replace (ps_since (pstep "" demo_fleet demo_ps (Poll (b_down 2000000)))) with 2000000 by (vm_compute; done).
    intros u p sid v Hp Hv. unfold demo_ps, demo_pxs in Hp. cbn in Hp.
    apply lookup_insert_Some in Hp as [[<- <-]|[_ Hp]]; [done|].
    apply lookup_singleton_Some in Hp as [<- <-]. cbn in Hv. apply lookup_singleton_Some in Hv as [_ <-]. lia.
Qed.

Lemma demo_fleet_nodup : NoDup (AdminURL <$> demo_fleet).
Proof. apply (bool_decide_unpack _). vm_compute. exact I. Defined.

Lemma push_state_spec_witness :
  (broadcast "" demo_fleet (ReqState "s1" "paused") (b_down 5) demo_pxs).1 = Ok tt.
Proof.
  destruct (push_state_spec "" demo_fleet "s1" "paused" (b_down 5) demo_pxs) as (_ & _ & H).
  - exact demo_fleet_nodup.
  - discriminate.
  - right. right. reflexivity.
  - apply H. exists "http://a:8082". split; [left|].
    exists 5, (demo_px ∅). split_and!; [reflexivity|reflexivity|left; reflexivity].
Defined.

Lemma killing_state_never_pushed_witness :
  (broadcast "" demo_fleet (ReqState "s1" "killing") (all_up 5) demo_pxs).2 = demo_pxs.
Proof. apply (killing_state_never_pushed "" demo_fleet "s1" (all_up 5) demo_pxs demo_fleet_nodup). Defined.

Lemma polls_miss_nothing_witness :
  informed demo_fleet None (pstep "" demo_fleet (pstep "" demo_fleet demo_ps (Serve "http://a:8082" "s1" 1600000 DictOk)) (Poll (all_up 2000000))).
Proof.
  apply (polls_miss_nothing "" demo_fleet demo_ps).
  - reflexivity.
  - intros e p sid v _ Hp Hv. unfold demo_ps, demo_pxs in Hp. cbn [ps_px] in Hp.
    apply lookup_insert_Some in Hp as [[_ <-]|[_ Hp]]; [cbn in Hv; by rewrite lookup_empty in Hv|].
    apply lookup_singleton_Some in Hp as [_ <-]. cbn in Hv. apply lookup_singleton_Some in Hv as [_ <-]. lia.
  - apply preach_step; [apply preach_refl|]. cbn. lia.
  - intros e He. apply elem_of_cons in He as [->|He]; [|apply elem_of_cons in He as [->|He]].
    + eexists 2000000, _. split_and!; [reflexivity|vm_compute; reflexivity|left; reflexivity].
    + eexists 2000000, _. split_and!; [reflexivity|vm_compute; reflexivity|left; reflexivity].
    + by apply not_elem_of_nil in He.
Defined.

(** Rows are admin URLs; "?" does not decode. *)
Definition demo_epjson : EndpointJSON :=
  {| decodeEndpoint := fun raw => if raw =s "?" then None else Some (MkEndpoint "x" raw "" "" 0 "") |}.

Lemma refresh_live_exactly_witness :
  (@refreshOnce demo_epjson (Ok ["p1"; "p2"]) (hmget_reply {[ "p1" := "http://a"; "p2" := "?" ]}) 9 ∅).1.1 = Ok tt.
Proof.
  pose proof (@refresh_live_exactly demo_epjson {[ "p1" := 50; "p2" := 60 ]} {[ "p1" := "http://a"; "p2" := "?" ]} 40 ["p1"; "p2"] 9 ∅) as H.
  destruct (refreshOnce _ _ _ _) as [[r next] cbs]. cbn. apply H. split.
  - apply (bool_decide_unpack _). vm_compute. exact I.
  - intros id. rewrite !elem_of_cons, elem_of_nil. split.
    + intros [->|[->|[]]]; eexists; (split; [vm_compute; reflexivity|lia]).
    + intros (s & Hs & _). apply lookup_insert_Some in Hs as [[<- _]|[_ Hs]]; [tauto|].
      apply lookup_singleton_Some in Hs as [<- _]. tauto.
Defined.

Lemma replay_leaves_states_unknown_witness :
  exists p', (replayRegistryTo "" (MkEndpoint "a" "http://a:8082" "" "" 0 "") [all_up 1] demo_reg demo_pxs).2 !! "http://a:8082" = Some p' /\
    gate "s1" "http://clm:8083" None DictOk p' = (Pass, p').
Proof.
  apply (replay_leaves_states_unknown "" (MkEndpoint "a" "http://a:8082" "" "" 0 "") [all_up 1] demo_reg demo_pxs (demo_px ∅)
    "s1" "http://clm:8083" None DictOk); reflexivity.
Defined.
