(* ===== verification/LcmSweeper.v ===== *)
(** * The sweeper and the resumer
    (cube-lifecycle-manager: internal/sweeper, internal/resumer,
    internal/cubemasterclient, the state key of internal/redisstream)

    The sweeper pauses or kills sandboxes that are idle for too long, the
    resumer wakes them up on demand.  Both talk to Redis, to CubeMaster and to
    the proxies, and any other sidecar may act between two of their calls.  An
    operation is therefore a program: a tree of calls, each with what is done
    for every answer ([prog]).  It can be run alone on a world ([exec]), step by
    step beside others ([pool_step]), or against arbitrary answers
    ([traces]). *)
From S2P Require Import Prelude GoStrings GoValue LcmRegistry LcmProxy.

Open Scope string_scope.
Open Scope Z_scope.

(** ** The client of CubeMaster *)

Definition RetCodeSuccess : Z := 200.
Definition RetCodeInvalidParamFormat : Z := 130483.
Definition RetCodeTaskStateInvalid : Z := 130490.
Definition KillReasonTimeout : string := "timeout".

(** An error of the client: [APIError], or anything else. *)
Inductive rpc_err : Type := APIError (RetCode : Z) (RetMsg : string) | OtherErr (msg : string).

Definition IsNotFound (e : rpc_err) : bool :=
  match e with APIError c _ => c =? RetCodeInvalidParamFormat | OtherErr _ => false end.
Definition IsAlreadyInState (e : rpc_err) : bool :=
  match e with APIError c _ => c =? RetCodeTaskStateInvalid | OtherErr _ => false end.

(** What comes back over HTTP: no reply, or a status and the decoded ret_code
    and ret_msg ([None] when the body is not JSON). *)
Inductive http_reply : Type := NoReply (err : string) | HttpReply (status : Z) (ret : option (Z * string)).

Definition decode_reply (r : http_reply) : option rpc_err :=
  match r with
  | NoReply e => Some (OtherErr e)
  | HttpReply st ret =>
      if negb (st / 100 =? 2) then Some (OtherErr ("http " +:+ pretty st))
      else
        match ret with
        | None => Some (OtherErr "decode response")
        | Some (c, m) => if c =? RetCodeSuccess then None else Some (APIError c m)
        end
  end.

(** ** Programs *)

(** The actions of the requests to CubeMaster. *)
Inductive action : Type := APause | AResume | AKill (reason : string).

(** The calls an operation makes; the registry is shared memory. *)
Inductive call : Type -> Type :=
  | AcquireState (sid state : string) : call (res bool)
  | SetState (sid state : string) : call (res unit)
  | ClearState (sid : string) : call (res unit)
  | GetState (sid : string) : call (res (option string))
  | PushState (sid state : string) : call (res unit)
  | PushDelete (sid : string) : call (res unit)
  | Master (a : action) (sid instanceType : string) : call http_reply
  | RegDelete (sid : string) : call unit
  | RegGet (sid : string) : call (option Entry)
  | RegMerge (sid : string) (ts : Z) : call bool
  | Now : call Z
  | Snap : call (list Entry).

Inductive prog (A : Type) : Type :=
  | Ret (a : A)
  | Call {X : Type} (c : call X) (k : X -> prog A).
Arguments Ret {A} a.
Arguments Call {A X} c k.

Fixpoint pbind {A B} (p : prog A) (k : A -> prog B) : prog B :=
  match p with
  | Ret a => k a
  | Call c f => Call c (fun x => pbind (f x) k)
  end.

Notation "x <-- c ;; k" := (Call c (fun x => k)) (at level 100, c at next level, right associativity) : go_scope.
Notation "'do' c ;; k" := (Call c (fun _ => k)) (at level 100, c at next level, right associativity) : go_scope.

(** [Pause], [Resume] and [Kill] of the client. *)
Definition rpc {A} (a : action) (sid instanceType : string) (k : option rpc_err -> prog A) : prog A :=
  if (sid =s "") || (instanceType =s "") then k (Some (OtherErr "sandbox_id and instance_type are required"))
  else (r <-- Master a sid instanceType ;; k (decode_reply r)).

(** The text of an error; the quoting of ret_msg by [%q] is left out, nothing
    reads it back. *)
Definition rpc_text (e : rpc_err) : string :=
  match e with
  | APIError c m => "cubemaster returned ret_code=" +:+ pretty c +:+ " msg=" +:+ m
  | OtherErr m => m
  end.

(** ** The sweeper *)

(** How an attempt ends: an error, nothing done, the sandbox evicted because
    CubeMaster does not know it, or the transition made (which counts). *)
Inductive attempt : Type := AFailed (msg : string) | ASkipped | AEvicted | ATriggered.

Definition finish_pause (sid : string) : prog attempt :=
  do SetState sid "paused" ;; do PushState sid "paused" ;; Ret ATriggered.

Definition tryPause (e : Entry) : prog attempt :=
  let sid := SandboxID (Meta e) in
  got <-- AcquireState sid "pausing" ;;
  match got with
  | Err m => Ret (AFailed m)
  | Ok false => Ret ASkipped
  | Ok true =>
      do PushState sid "pausing" ;;
      rpc APause sid (InstanceType (Meta e)) (fun err =>
        match err with
        | None => finish_pause sid
        | Some er =>
            if IsNotFound er then
              do ClearState sid ;; do PushDelete sid ;; do RegDelete sid ;; Ret AEvicted
            else if IsAlreadyInState er then finish_pause sid
            else
              do ClearState sid ;; do PushState sid "running" ;;
              Ret (AFailed ("cubemaster pause: " +:+ rpc_text er))
        end)
  end.

Definition finish_kill (sid : string) : prog attempt :=
  do SetState sid "killed" ;; do PushDelete sid ;; do RegDelete sid ;; Ret ATriggered.

Definition tryKill (e : Entry) : prog attempt :=
  let sid := SandboxID (Meta e) in
  got <-- AcquireState sid "killing" ;;
  match got with
  | Err m => Ret (AFailed m)
  | Ok false => Ret ASkipped
  | Ok true =>
      do PushState sid "killing" ;;
      rpc (AKill KillReasonTimeout) sid (InstanceType (Meta e)) (fun err =>
        match err with
        | None => finish_kill sid
        | Some er =>
            if IsNotFound er || IsAlreadyInState er then finish_kill sid
            else
              do ClearState sid ;; do PushState sid "running" ;;
              Ret (AFailed ("cubemaster kill: " +:+ rpc_text er))
        end)
  end.

Record SweepOptions : Type := MkOpts { DefaultIdleTimeout : Z; BootstrapWarmup : Z; o_StartedAt : Z }.

Definition millisecond : Z := 1000000.
(** [t.UnixMilli()] *)
Definition unix_milli (t : Z) : Z := t `div` millisecond - 62135596800000.

Definition baseline (e : Entry) : Z :=
  let b := if LastActiveMs e <? CreatedAt (Meta e) then CreatedAt (Meta e) else LastActiveMs e in
  if b =? 0 then unix_milli (FirstSeenAt e) else b.

(** The timeout of a sandbox; [None] never times out. *)
Definition idle_timeout (o : SweepOptions) (e : Entry) : option Z :=
  match TimeoutSeconds (Meta e) with
  | None => Some (DefaultIdleTimeout o)
  | Some ts => if ts <? 0 then None else Some (wrap64 (ts * second))
  end.

Definition idle_for (now : Z) (e : Entry) : Z := wrap64 (wrap64 (unix_milli now - baseline e) * millisecond).

(** The decision of one sweep on one entry, before Redis is asked. *)
Definition idle_expired (o : SweepOptions) (now : Z) (e : Entry) : bool :=
  let withinWarmup := time_sub now (o_StartedAt o) <? BootstrapWarmup o in
  if withinWarmup && negb (time_after (FirstSeenAt e) (o_StartedAt o)) then false
  else
    match idle_timeout o e with
    | None => false
    | Some timeout => negb (idle_for now e <? timeout)
    end.

(** States in which the sweeper leaves a sandbox alone. *)
Definition parked (st : string) : bool :=
  (st =s "paused") || (st =s "pausing") || (st =s "killing") || (st =s "killed").

Record counters : Type := MkCounters { pauseTriggered : Z; pauseFailed : Z; killTriggered : Z; killFailed : Z }.

Definition count_pause (a : attempt) (c : counters) : counters :=
  match a with
  | ATriggered => MkCounters (pauseTriggered c + 1) (pauseFailed c) (killTriggered c) (killFailed c)
  | AFailed _ => MkCounters (pauseTriggered c) (pauseFailed c + 1) (killTriggered c) (killFailed c)
  | _ => c
  end.

Definition count_kill (a : attempt) (c : counters) : counters :=
  match a with
  | ATriggered => MkCounters (pauseTriggered c) (pauseFailed c) (killTriggered c + 1) (killFailed c)
  | AFailed _ => MkCounters (pauseTriggered c) (pauseFailed c) (killTriggered c) (killFailed c + 1)
  | _ => c
  end.

Definition act_on (e : Entry) (c : counters) : prog counters :=
  if AutoPause (Meta e) then pbind (tryPause e) (fun a => Ret (count_pause a c))
  else pbind (tryKill e) (fun a => Ret (count_kill a c)).

Definition sweep_entry (o : SweepOptions) (now : Z) (e : Entry) (c : counters) : prog counters :=
  if idle_expired o now e then
    st <-- GetState (SandboxID (Meta e)) ;;
    match st with
    | Ok (Some s) => if parked s then Ret c else act_on e c
    | _ => act_on e c
    end
  else Ret c.

Fixpoint sweep_all (o : SweepOptions) (now : Z) (es : list Entry) (c : counters) : prog counters :=
  match es with
  | [] => Ret c
  | e :: es => pbind (sweep_entry o now e c) (sweep_all o now es)
  end.

Definition sweepOnce (o : SweepOptions) (c : counters) : prog counters :=
  now <-- Now ;;
  es <-- Snap ;;
  sweep_all o now es c.

(** ** The resumer *)

(** [waitForRunning]: [ticks] is how often the ticker fires before the context
    is done. *)
Fixpoint waitForRunning (ticks : nat) (sid : string) : prog (option string) :=
  st <-- GetState sid ;;
  match st with
  | Err m => Ret (Some m)
  | Ok None => Ret (Some "peer resume lock expired without resolution")
  | Ok (Some s) =>
      if s =s "running" then Ret None
      else if s =s "paused" then Ret (Some "peer resume left sandbox paused")
      else
        match ticks with
        | O => Ret (Some "context deadline exceeded")
        | S ticks => waitForRunning ticks sid
        end
  end.

(** Who drives the resume: this call, nobody since it runs already
    ([errAlreadyRunning]), or an error. *)
Inductive ownership : Type := Own | ErrAlreadyRunning | OwnErr (msg : string).

Definition wait_peer (ticks : nat) (sid : string) : prog ownership :=
  pbind (waitForRunning ticks sid) (fun e => Ret (match e with Some m => OwnErr m | None => ErrAlreadyRunning end)).

Definition claim (sid : string) : prog ownership :=
  w <-- SetState sid "resuming" ;;
  Ret (match w with Err m => OwnErr m | Ok _ => Own end).

Definition acquireResumeOwnership (ticks : nat) (sid : string) : prog ownership :=
  cur <-- GetState sid ;;
  match cur with
  | Err m => Ret (OwnErr m)
  | Ok None => claim sid
  | Ok (Some s) =>
      if s =s "paused" then claim sid
      else if s =s "running" then Ret ErrAlreadyRunning
      else wait_peer ticks sid
  end.

Definition callCubeMasterResume (sid instanceType : string) : prog (option string) :=
  rpc AResume sid instanceType (fun err =>
    match err with
    | None => Ret None
    | Some er =>
        if IsNotFound er then
          do ClearState sid ;; do PushDelete sid ;; do RegDelete sid ;; Ret (Some "sandbox no longer exists")
        else if IsAlreadyInState er then Ret None
        else (do ClearState sid ;; Ret (Some ("cubemaster resume: " +:+ rpc_text er)))
    end).

Definition finish_resume (sid : string) : prog (option string) :=
  do SetState sid "running" ;;
  do PushState sid "running" ;;
  now <-- Now ;;
  do RegMerge sid (unix_milli now) ;;
  Ret None.

Definition doResume (ticks : nat) (sid : string) : prog (option string) :=
  entry <-- RegGet sid ;;
  match entry with
  | None => Ret (Some "sandbox not in registry")
  | Some e =>
      if negb (AutoResume (Meta e)) then Ret (Some "auto_resume not enabled for sandbox")
      else
        pbind (acquireResumeOwnership ticks sid) (fun own =>
          match own with
          | Own =>
              pbind (callCubeMasterResume sid (InstanceType (Meta e))) (fun err =>
                match err with Some m => Ret (Some m) | None => finish_resume sid end)
          | ErrAlreadyRunning => finish_resume sid
          | OwnErr m => Ret (Some m)
          end)
  end.

(** ** Running programs *)

(** Against a world. *)
Fixpoint exec {W A} (h : forall X, call X -> W -> X * W) (p : prog A) (w : W) : A * W :=
  match p with
  | Ret a => (a, w)
  | Call c k => let '(x, w) := h _ c w in exec h (k x) w
  end.

Lemma exec_call {W A X} (h : forall X, call X -> W -> X * W) (c : call X) (k : X -> prog A) w :
  exec h (Call c k) w = let '(x, w) := h _ c w in exec h (k x) w.
Proof. reflexivity. Qed.

(** Against arbitrary answers: the calls made and the answers given. *)
Inductive event : Type := | Ev {X : Type} (c : call X) (x : X).

Fixpoint traces {A} (p : prog A) (tr : list event) (a : A) : Prop :=
  match p with
  | Ret b => tr = [] /\ a = b
  | Call c k => exists x tr', tr = Ev c x :: tr' /\ traces (k x) tr' a
  end.

(** Beside others: any thread may make its next call. *)
Inductive pool_step {W A} (h : forall X, call X -> W -> X * W) : list (prog A) * W -> list (prog A) * W -> Prop :=
  | pool_call {X} ts1 (c : call X) k ts2 w :
      pool_step h ((ts1 ++ Call c k :: ts2)%list, w) ((ts1 ++ k (h X c w).1 :: ts2)%list, (h X c w).2).

(** The same with an explicit schedule, to run examples. *)
Fixpoint run_schedule {W A} (h : forall X, call X -> W -> X * W) (sched : list nat) (ts : list (prog A)) (w : W) : list (prog A) * W :=
  match sched with
  | [] => (ts, w)
  | i :: sched =>
      match ts !! i with
      | Some (Call c k) => let '(x, w) := h _ c w in run_schedule h sched (<[i := k x]> ts) w
      | _ => run_schedule h sched ts w
      end
  end.

Lemma run_schedule_sound {W A} (h : forall X, call X -> W -> X * W) sched : forall (ts : list (prog A)) w ts' w',
  run_schedule h sched ts w = (ts', w') -> rtc (pool_step h) (ts, w) (ts', w').
Proof.
  induction sched as [|i sched IH]; intros ts w ts' w'; cbn; [intros [= <- <-]; apply rtc_refl|].
  destruct (ts !! i) as [[a|X c k]|] eqn:Hi; [by apply IH| |by apply IH].
  destruct (h X c w) as [x w1] eqn:Hh. intros Hr%IH. eapply rtc_l; [|exact Hr].
  pose proof (pool_call h (take i ts) c k (drop (S i) ts) w) as Hstep. rewrite Hh in Hstep. cbn [fst snd] in Hstep.
  rewrite (take_drop_middle _ _ _ Hi) in Hstep. rewrite insert_take_drop by (by eapply lookup_lt_Some). exact Hstep.
Qed.

(** *** A world

    Redis and CubeMaster are services: their operations are parameters.  The
    proxies and the registry are the modelled ones. *)
Class StateStore (R : Type) : Type := {
  setnx : string -> string -> Z -> R -> res bool * R;
  set : string -> string -> Z -> R -> res unit * R;
  del : string -> R -> res unit * R;
  get : string -> R -> res (option string) * R;
}.

Class MasterService (M : Type) : Type := { m_call : action -> string -> string -> M -> http_reply * M }.

Record World (R M : Type) : Type := MkWorld { w_redis : R; w_master : M; w_px : proxies; w_reg : Registry }.
Arguments MkWorld {R M}.
Arguments w_redis {R M}.
Arguments w_master {R M}.
Arguments w_px {R M}.
Arguments w_reg {R M}.

(** What stays fixed while an operation runs: the fleet with its token, the
    network, the TTL of the state key, the clock. *)
Record Env : Type := MkEnv { e_fleet : list Endpoint; e_token : string; e_net : network; e_ttl : Z; e_now : Z }.

Section World.
Context {R M : Type} `{!StateStore R, !MasterService M}.

Definition on_redis {X} (f : R -> X * R) (w : World R M) : X * World R M :=
  let '(x, r) := f (w_redis w) in (x, MkWorld r (w_master w) (w_px w) (w_reg w)).
Definition on_master {X} (f : M -> X * M) (w : World R M) : X * World R M :=
  let '(x, m) := f (w_master w) in (x, MkWorld (w_redis w) m (w_px w) (w_reg w)).
Definition on_px {X} (f : proxies -> X * proxies) (w : World R M) : X * World R M :=
  let '(x, p) := f (w_px w) in (x, MkWorld (w_redis w) (w_master w) p (w_reg w)).
Definition on_reg {X} (f : Registry -> X * Registry) (w : World R M) : X * World R M :=
  let '(x, r) := f (w_reg w) in (x, MkWorld (w_redis w) (w_master w) (w_px w) r).

Definition push_env (v : Env) (rq : admin_req) (w : World R M) : res unit * World R M :=
  on_px (broadcast (e_token v) (e_fleet v) rq (e_net v)) w.

Definition handle (v : Env) (X : Type) (c : call X) : World R M -> X * World R M :=
  match c in call X return World R M -> X * World R M with
  | AcquireState sid st => on_redis (fun r =>
      let '(x, r) := setnx (StateKey sid) st (e_ttl v) r in
      (match x with Ok b => Ok b | Err m => Err ("setnx " +:+ StateKey sid +:+ ": " +:+ m) end, r))
  | SetState sid st => on_redis (set (StateKey sid) st (e_ttl v))
  | ClearState sid => on_redis (del (StateKey sid))
  | GetState sid => on_redis (get (StateKey sid))
  | PushState sid st => push_env v (ReqState sid st)
  | PushDelete sid => push_env v (ReqDelete sid)
  | Master a sid it => on_master (m_call a sid it)
  | RegDelete sid => on_reg (fun r => (tt, Delete sid r))
  | RegGet sid => on_reg (fun r => (Get sid r, r))
  | RegMerge sid ts => on_reg (MergeLastActive sid ts)
  | Now => fun w => (e_now v, w)
  | Snap => on_reg (fun r => (Snapshot r, r))
  end.

End World.

(** *** What the services promise *)

(** Redis, as far as the sidecar relies on it: a store that answers acts on the
    keys it shows; SETNX stores exactly when the key is absent.  Expiry is a
    matter between operations. *)
Class StoreLaws (R : Type) `{!StateStore R} : Type := {
  view : R -> gmap string string;
  up : R -> Prop;
  setnx_up k v t r : up r -> exists r', setnx k v t r = (Ok (bool_decide (view r !! k = None)), r') /\ up r' /\
    view r' = match view r !! k with None => <[k := v]> (view r) | Some _ => view r end;
  set_up k v t r : up r -> exists r', set k v t r = (Ok tt, r') /\ up r' /\ view r' = <[k := v]> (view r);
  del_up k r : up r -> exists r', del k r = (Ok tt, r') /\ up r' /\ view r' = delete k (view r);
  get_up k r : up r -> exists r', get k r = (Ok (view r !! k), r') /\ up r' /\ view r' = view r;
}.

Inductive sb_status : Type := SbRunning | SbPaused.

(** CubeMaster: the ret_code says what became of the sandbox. *)
Class MasterLaws (M : Type) `{!MasterService M} : Type := {
  sbx : M -> gmap string sb_status;
  m_up : M -> Prop;
  (** the reply, and the sandboxes afterwards *)
  m_call_up a sid it m : m_up m -> exists m' msg, m_up m' /\
    m_call a sid it m =
      (HttpReply 200 (Some (match a, sbx m !! sid with
         | _, None => RetCodeInvalidParamFormat
         | APause, Some SbPaused => RetCodeTaskStateInvalid
         | AResume, Some SbRunning => RetCodeTaskStateInvalid
         | _, _ => RetCodeSuccess
         end, msg)), m') /\
    sbx m' = match a, sbx m !! sid with
         | _, None => sbx m
         | APause, _ => <[sid := SbPaused]> (sbx m)
         | AResume, _ => <[sid := SbRunning]> (sbx m)
         | AKill _, _ => delete sid (sbx m)
         end;
}.

(** ** One owner at a time *)

(** [disciplined sid held p]: about the sandbox [sid], the program asks for the
    state key before it acts, calls CubeMaster only while it holds the key, and
    writes or clears the key only to give it up. *)
Fixpoint disciplined {A} (sid : string) (held : bool) (p : prog A) : Prop :=
  match p with
  | Ret _ => held = false
  | @Call _ X c k =>
      match c in call X return (X -> prog A) -> Prop with
      | AcquireState s _ => fun k =>
          if s =s sid then held = false /\ (forall b, disciplined sid b (k (Ok b))) /\ (forall m, disciplined sid false (k (Err m)))
          else forall x, disciplined sid held (k x)
      | SetState s _ => fun k =>
          if s =s sid then held = true /\ (forall x, disciplined sid false (k x))
          else forall x, disciplined sid held (k x)
      | ClearState s => fun k =>
          if s =s sid then held = true /\ (forall x, disciplined sid false (k x))
          else forall x, disciplined sid held (k x)
      | Master _ s _ => fun k =>
          (s = sid -> held = true) /\ (forall x, disciplined sid held (k x))
      | _ => fun k => forall x, disciplined sid held (k x)
      end k
  end.

Lemma disciplined_bind {A B} sid (p : prog A) (f : A -> prog B) : forall held,
  disciplined sid held p -> (forall a, disciplined sid false (f a)) -> disciplined sid held (pbind p f).
Proof.
  induction p as [a|X c k IH]; intros held; cbn; [by intros -> Hf|].
  destruct c; cbn; try case_bool_decide; naive_solver.
Qed.

(** Giving the key of [s] up, seen from the sandbox [sid]. *)
Lemma clear_disciplined {A} sid s (p : prog A) :
  disciplined sid false p -> disciplined sid (s =s sid) (do ClearState s ;; p).
Proof. intros Hp. cbn. by case_bool_decide. Qed.

Lemma set_disciplined {A} sid s st (p : prog A) :
  disciplined sid false p -> disciplined sid (s =s sid) (do SetState s st ;; p).
Proof. intros Hp. cbn. by case_bool_decide. Qed.

Lemma rpc_disciplined {A} sid s a it (k : option rpc_err -> prog A) :
  (forall e, disciplined sid (s =s sid) (k e)) -> disciplined sid (s =s sid) (rpc a s it k).
Proof.
  intros Hk. unfold rpc. destruct (_ || _); [done|]. cbn. split; [|done]. intros ->. by apply bool_decide_true.
Qed.

Lemma acquire_disciplined {A} sid s st (k : res bool -> prog A) :
  disciplined sid (s =s sid) (k (Ok true)) -> disciplined sid false (k (Ok false)) ->
  (forall m, disciplined sid false (k (Err m))) -> disciplined sid false (Call (AcquireState s st) k).
Proof.
  intros Ht Hf He. cbn. case_bool_decide; [split_and!; [done|by intros []|done]|]. by intros [[]|m].
Qed.

Lemma finish_disciplined sid s : disciplined sid (s =s sid) (finish_pause s) /\ disciplined sid (s =s sid) (finish_kill s).
Proof. split; by apply set_disciplined. Qed.

Lemma tryPause_disciplined sid e : disciplined sid false (tryPause e).
Proof.
  apply acquire_disciplined; [|done|done]. cbn. intros _. apply rpc_disciplined. intros [er|]; [|apply finish_disciplined].
  destruct (IsNotFound er); [by apply clear_disciplined|].
  destruct (IsAlreadyInState er); [apply finish_disciplined|by apply clear_disciplined].
Qed.

Lemma tryKill_disciplined sid e : disciplined sid false (tryKill e).
Proof.
  apply acquire_disciplined; [|done|done]. cbn. intros _. apply rpc_disciplined. intros [er|]; [|apply finish_disciplined].
  destruct (_ || _); [apply finish_disciplined|by apply clear_disciplined].
Qed.

Lemma sweep_all_disciplined o now sid es : forall c, disciplined sid false (sweep_all o now es c).
Proof.
  induction es as [|e es IH]; intros c; [done|]. cbn [sweep_all]. apply disciplined_bind; [|done].
  assert (Hact : disciplined sid false (act_on e c)).
  { unfold act_on. case_match; apply disciplined_bind; auto using tryPause_disciplined, tryKill_disciplined; done. }
  unfold sweep_entry. case_match; [|done]. cbn. intros [[s|]|m]; try done. by case_match.
Qed.

Lemma sweepOnce_disciplined o c sid : disciplined sid false (sweepOnce o c).
Proof. cbn. intros now es. apply sweep_all_disciplined. Qed.

Definition count_true (l : list bool) : nat := length (filter (fun b : bool => b) l).

Lemma count_true_mid l b l' : count_true (l ++ b :: l')%list = (count_true l + (if b then 1 else 0) + count_true l')%nat.
Proof. unfold count_true. rewrite filter_app, filter_cons, length_app. case_decide; destruct b; cbn; try done; lia. Qed.

#[global] Instance StateKey_inj : Inj (=) (=) StateKey.
Proof. intros s t. unfold StateKey. apply (inj (String.append _)). Qed.

Section Mutex.
Context {R M : Type} `{!StateStore R, !MasterService M, !StoreLaws R}.

(** The calls that write the state key of a sandbox. *)
Definition writes_key {X} (sid : string) (c : call X) : bool :=
  match c with
  | AcquireState s _ => s =s sid
  | SetState s _ => s =s sid
  | ClearState s => s =s sid
  | _ => false
  end.

Lemma handle_up v X (c : call X) (w : World R M) : up (w_redis w) -> up (w_redis (handle v X c w).2).
Proof.
  intros Hup. destruct c as [s st|s st|s|s| | | | | | | |]; cbn; unfold push_env, on_redis, on_px, on_master, on_reg; try done.
  - destruct (setnx_up (StateKey s) st (e_ttl v) _ Hup) as (r' & -> & ? & _). done.
  - destruct (set_up (StateKey s) st (e_ttl v) _ Hup) as (r' & -> & ? & _). done.
  - destruct (del_up (StateKey s) _ Hup) as (r' & -> & ? & _). done.
  - destruct (get_up (StateKey s) _ Hup) as (r' & -> & ? & _). done.
  - by destruct broadcast.
  - by destruct broadcast.
  - by destruct m_call.
  - by destruct MergeLastActive.
Qed.

Lemma handle_key v X (c : call X) (w : World R M) sid : up (w_redis w) -> writes_key sid c = false ->
  view (w_redis (handle v X c w).2) !! StateKey sid = view (w_redis w) !! StateKey sid.
Proof.
  intros Hup. destruct c as [s st|s st|s|s| | | | | | | |]; cbn; unfold push_env, on_redis, on_px, on_master, on_reg;
    try done; try (rewrite bool_decide_eq_false; intros Hne).
  - destruct (setnx_up (StateKey s) st (e_ttl v) _ Hup) as (r' & -> & _ & Hv). cbn. rewrite Hv.
    case_match; [done|]. rewrite lookup_insert_ne; [done|]. by intros ?%(inj StateKey).
  - destruct (set_up (StateKey s) st (e_ttl v) _ Hup) as (r' & -> & _ & Hv). cbn. rewrite Hv.
    rewrite lookup_insert_ne; [done|]. by intros ?%(inj StateKey).
  - destruct (del_up (StateKey s) _ Hup) as (r' & -> & _ & Hv). cbn. rewrite Hv.
    rewrite lookup_delete_ne; [done|]. by intros ?%(inj StateKey).
  - intros _. destruct (get_up (StateKey s) _ Hup) as (r' & -> & _ & Hv). cbn. by rewrite Hv.
  - by destruct broadcast.
  - by destruct broadcast.
  - by destruct m_call.
  - by destruct MergeLastActive.
Qed.

(** How holding the key evolves with a call of a disciplined program. *)
Lemma disciplined_step {A X} v sid held (c : call X) (k : X -> prog A) (w : World R M) :
  up (w_redis w) -> disciplined sid held (Call c k) ->
  exists held', disciplined sid held' (k (handle v X c w).1) /\
    ((held' = held /\ view (w_redis (handle v X c w).2) !! StateKey sid = view (w_redis w) !! StateKey sid) \/
     (held' = false /\ held = true) \/
     (held' = true /\ held = false /\ view (w_redis w) !! StateKey sid = None /\
        is_Some (view (w_redis (handle v X c w).2) !! StateKey sid))).
Proof.
  intros Hup Hd. destruct (writes_key sid c) eqn:Hw.
  - destruct c as [s st|s st|s|s| | | | | | | |]; cbn in Hw; try done; apply bool_decide_eq_true in Hw as ->; cbn in Hd;
      rewrite bool_decide_true in Hd by done.
    + destruct Hd as (-> & Hk & _). cbn. unfold on_redis.
      destruct (setnx_up (StateKey sid) st (e_ttl v) _ Hup) as (r' & -> & _ & Hv). cbn.
      eexists. split; [apply Hk|]. rewrite Hv. destruct (view (w_redis w) !! StateKey sid) eqn:Hk0.
      * left. rewrite bool_decide_false by done. done.
      * right. right. rewrite bool_decide_true, lookup_insert_eq by done. done.
    + destruct Hd as (-> & Hk). exists false. split; [apply Hk|]. auto.
    + destruct Hd as (-> & Hk). exists false. split; [apply Hk|]. auto.
  - exists held. split; [|left; split; [done|by apply handle_key]].
    destruct c; cbn in Hw, Hd; rewrite ?Hw in Hd; try apply Hd.
Qed.

Definition pool_inv {A} (sid : string) (s : list (prog A) * World R M) : Prop :=
  up (w_redis s.2) /\ exists helds, Forall2 (disciplined sid) helds s.1 /\ (count_true helds <= 1)%nat /\
    ((0 < count_true helds)%nat -> is_Some (view (w_redis s.2) !! StateKey sid)).

Lemma pool_step_inv {A} v sid (s s' : list (prog A) * World R M) :
  pool_step (handle v) s s' -> pool_inv sid s -> pool_inv sid s'.
Proof.
  intros Hs (Hup & helds & Hd & H1 & Hk). destruct Hs as [X ts1 c k ts2 w]. cbn [fst snd] in *.
  apply Forall2_app_inv_r in Hd as (h1 & hl & Hd1 & Hd2 & ->).
  apply Forall2_cons_inv_r in Hd2 as (b & h2 & Hc & Hd2 & ->).
  destruct (disciplined_step v sid b c k w Hup Hc) as (b' & Hb' & Hcase). rewrite count_true_mid in H1, Hk.
  split; [by apply handle_up|]. exists (h1 ++ b' :: h2)%list. cbn [fst snd]. rewrite count_true_mid.
  split; [by apply Forall2_app; [|constructor]|].
  destruct Hcase as [[Eb Ev]|[[Eb Eb2]|(Eb & Eb2 & Hnone & Hsome)]].
  - by rewrite Eb, Ev.
  - subst b' b. split; [lia|]. intros Hpos. lia.
  - subst b' b. assert (Hz : ~ (0 < count_true h1 + 0 + count_true h2)%nat).
    { intros Hpos. destruct (Hk Hpos) as [x Hx]. congruence. }
    split; [lia|done].
Qed.

Lemma pool_inv_start {A} sid (ts : list (prog A)) w :
  up (w_redis w) -> Forall (disciplined sid false) ts -> pool_inv sid (ts, w).
Proof.
  intros Hup Hts. split; [done|]. exists (replicate (length ts) false). cbn [fst snd].
  assert (H0 : count_true (replicate (length ts) false) = 0%nat) by (induction (length ts); done).
  split; [|rewrite H0; split; lia]. induction Hts; cbn; constructor; auto.
Qed.

(** The next call of a program is one to CubeMaster about the sandbox. *)
Definition about_to_act {A} (sid : string) (p : prog A) : bool :=
  match p with Call (Master _ s _) _ => s =s sid | _ => false end.

Lemma about_to_act_holds {A} sid held (p : prog A) : disciplined sid held p -> about_to_act sid p = true -> held = true.
Proof.
  destruct p as [|X c k]; [done|]. destruct c; cbn; try done. intros [Hm _] Hs%bool_decide_eq_true. auto.
Qed.

(** C3: mutual exclusion of the sweepers: however many sidecars sweep at the
    same time and however their calls interleave, at most one of them is about
    to pause or kill a given sandbox at CubeMaster, as long as Redis answers and
    the state key does not expire meanwhile. *)
Theorem sweeps_exclude_each_other v os sid w ts w' i j p1 p2 :
  up (w_redis w) ->
  rtc (pool_step (handle v)) ((fun oc => sweepOnce oc.1 oc.2) <$> os, w) (ts, w') ->
  ts !! i = Some p1 -> ts !! j = Some p2 -> about_to_act sid p1 = true -> about_to_act sid p2 = true -> i = j.
Proof.
  intros Hup Hsteps Hi Hj Hp1 Hp2.
  assert (Hinv : pool_inv sid (ts, w')).
  { assert (H0 : pool_inv sid ((fun oc => sweepOnce oc.1 oc.2) <$> os, w)).
    { apply pool_inv_start; [done|]. apply Forall_fmap, Forall_true. intros [o c]. apply sweepOnce_disciplined. }
    exact (rtc_preserves _ (pool_inv sid) (fun s s' => pool_step_inv v sid s s') _ _ Hsteps H0). }
  destruct Hinv as (_ & helds & Hd & H1 & _). cbn [fst] in Hd.
  destruct (Forall2_lookup_r _ _ _ _ _ Hd Hi) as (b1 & Hb1 & Hm1%about_to_act_holds); [|done].
  destruct (Forall2_lookup_r _ _ _ _ _ Hd Hj) as (b2 & Hb2 & Hm2%about_to_act_holds); [|done].
  subst b1 b2. clear -H1 Hb1 Hb2.
  revert i j H1 Hb1 Hb2. induction helds as [|b l IH]; intros [|i] [|j] H1 Hb1 Hb2; try done.
  - cbn in Hb1, Hb2. simplify_eq. exfalso. apply list_elem_of_lookup_2 in Hb2.
    change (true :: l) with ([] ++ true :: l)%list in H1. rewrite count_true_mid in H1. cbn in H1.
    assert (0 < count_true l)%nat; [|lia]. apply (filter_pos (fun b : bool => b)). by exists true.
  - cbn in Hb1, Hb2. simplify_eq. exfalso. apply list_elem_of_lookup_2 in Hb1.
    change (true :: l) with ([] ++ true :: l)%list in H1. rewrite count_true_mid in H1. cbn in H1.
    assert (0 < count_true l)%nat; [|lia]. apply (filter_pos (fun b : bool => b)). by exists true.
  - f_equal. apply IH; [|done|done]. change (b :: l) with ([] ++ b :: l)%list in H1. rewrite count_true_mid in H1. lia.
Qed.

End Mutex.

(** ** Pause, kill and resume, undisturbed *)

(** Every replica that takes requests shows the state, or has forgotten the
    sandbox. *)
Definition shows (v : Env) (sid st : string) (px : proxies) : Prop :=
  forall ep, ep ∈ e_fleet v -> accepts (e_token v) (e_net v) px (AdminURL ep) ->
    exists p, px !! AdminURL ep = Some p /\ px_STATE p !! sid = Some st.
Definition forgot (v : Env) (sid : string) (px : proxies) : Prop :=
  forall ep, ep ∈ e_fleet v -> accepts (e_token v) (e_net v) px (AdminURL ep) ->
    exists p, px !! AdminURL ep = Some p /\ px_META p !! sid = None /\ px_STATE p !! sid = None /\ px_LAST p !! sid = None.

Definition pushed (v : Env) (rq : admin_req) (px : proxies) : proxies := (broadcast (e_token v) (e_fleet v) rq (e_net v) px).2.

Lemma pushed_accepts v rq px ep : NoDup (AdminURL <$> e_fleet v) -> ep ∈ e_fleet v ->
  accepts (e_token v) (e_net v) (pushed v rq px) (AdminURL ep) -> accepts (e_token v) (e_net v) px (AdminURL ep).
Proof.
  intros Hnd Hep. apply accepts_token. destruct (broadcast_spec (e_token v) (e_fleet v) rq (e_net v) px Hnd) as (_ & _ & Hin).
  unfold pushed. rewrite Hin by (by apply list_elem_of_fmap_2). apply do_token.
Qed.

Lemma pushed_shows v sid st px : NoDup (AdminURL <$> e_fleet v) -> sid <> "" -> known_state st ->
  shows v sid st (pushed v (ReqState sid st) px).
Proof.
  intros Hnd Hs Hst ep Hep Ha%pushed_accepts; [|done|done].
  destruct (broadcast_spec (e_token v) (e_fleet v) (ReqState sid st) (e_net v) px Hnd) as (_ & _ & Hin).
  destruct (do_state_accepted _ _ sid st _ _ Hs Hst Ha) as (p & r & _ & Hd).
  unfold pushed. rewrite Hin by (by apply list_elem_of_fmap_2). rewrite Hd. cbn [snd]. rewrite lookup_insert_eq.
  eexists. split; [done|]. cbn. apply lookup_insert_eq.
Qed.

Lemma pushed_forgot v sid px : NoDup (AdminURL <$> e_fleet v) -> sid <> "" -> forgot v sid (pushed v (ReqDelete sid) px).
Proof.
  intros Hnd Hs ep Hep Ha%pushed_accepts; [|done|done].
  destruct (broadcast_spec (e_token v) (e_fleet v) (ReqDelete sid) (e_net v) px Hnd) as (_ & _ & Hin).
  destruct (do_delete_accepted _ _ sid _ _ Hs Ha) as (p & r & _ & Hd).
  unfold pushed. rewrite Hin by (by apply list_elem_of_fmap_2). rewrite Hd. cbn [snd]. rewrite lookup_insert_eq.
  eexists. split; [done|]. cbn. by rewrite !lookup_delete_eq.
Qed.

Section Quiet.
Context {R M : Type} `{!StateStore R, !MasterService M, !StoreLaws R, !MasterLaws M}.
Implicit Types w : World R M.

(** What a world shows about a sandbox: the key in Redis, the sandbox at
    CubeMaster, the proxies, the registry. *)
Definition key_of w (sid : string) : option string := view (w_redis w) !! StateKey sid.
Definition sb_of w (sid : string) : option sb_status := sbx (w_master w) !! sid.
Definition answering w : Prop := up (w_redis w) /\ m_up (w_master w).

(** One call at a time: what each leaves, in a world that answers. *)
Lemma step_acquire v sid st w : answering w -> exists w',
  handle v _ (AcquireState sid st) w = (Ok (bool_decide (key_of w sid = None)), w') /\ answering w' /\
  key_of w' sid = Some (default st (key_of w sid)) /\
  w_master w' = w_master w /\ w_px w' = w_px w /\ w_reg w' = w_reg w.
Proof.
  intros [Hr Hm]. cbn. unfold on_redis. destruct (setnx_up (StateKey sid) st (e_ttl v) _ Hr) as (r' & -> & Hr' & Hv).
  eexists. split; [done|]. split; [done|]. split; [|done]. unfold key_of. cbn. rewrite Hv.
  destruct (view (w_redis w) !! StateKey sid) eqn:Hk; [done|]. apply lookup_insert_eq.
Qed.

Lemma step_set v sid st w : answering w -> exists w',
  handle v _ (SetState sid st) w = (Ok tt, w') /\ answering w' /\ key_of w' sid = Some st /\
  w_master w' = w_master w /\ w_px w' = w_px w /\ w_reg w' = w_reg w.
Proof.
  intros [Hr Hm]. cbn. unfold on_redis. destruct (set_up (StateKey sid) st (e_ttl v) _ Hr) as (r' & -> & Hr' & Hv).
  eexists. split; [done|]. split; [done|]. split; [|done]. unfold key_of. cbn. rewrite Hv. apply lookup_insert_eq.
Qed.

Lemma step_clear v sid w : answering w -> exists w',
  handle v _ (ClearState sid) w = (Ok tt, w') /\ answering w' /\ key_of w' sid = None /\
  w_master w' = w_master w /\ w_px w' = w_px w /\ w_reg w' = w_reg w.
Proof.
  intros [Hr Hm]. cbn. unfold on_redis. destruct (del_up (StateKey sid) _ Hr) as (r' & -> & Hr' & Hv).
  eexists. split; [done|]. split; [done|]. split; [|done]. unfold key_of. cbn. rewrite Hv. apply lookup_delete_eq.
Qed.

Lemma step_get v sid w : answering w -> exists w',
  handle v _ (GetState sid) w = (Ok (key_of w sid), w') /\ answering w' /\ key_of w' sid = key_of w sid /\
  w_master w' = w_master w /\ w_px w' = w_px w /\ w_reg w' = w_reg w.
Proof.
  intros [Hr Hm]. cbn. unfold on_redis. destruct (get_up (StateKey sid) _ Hr) as (r' & -> & Hr' & Hv).
  eexists. split; [done|]. split; [done|]. split; [|done]. unfold key_of. cbn. by rewrite Hv.
Qed.

Lemma step_push v sid st w : answering w -> exists x w',
  handle v _ (PushState sid st) w = (x, w') /\ answering w' /\ key_of w' sid = key_of w sid /\
  w_master w' = w_master w /\ w_px w' = pushed v (ReqState sid st) (w_px w) /\ w_reg w' = w_reg w.
Proof.
  intros Ha. cbn. unfold push_env, on_px, pushed. destruct broadcast as [x px]. by eexists _, _.
Qed.

Lemma step_forget v sid w : answering w -> exists x w',
  handle v _ (PushDelete sid) w = (x, w') /\ answering w' /\ key_of w' sid = key_of w sid /\
  w_master w' = w_master w /\ w_px w' = pushed v (ReqDelete sid) (w_px w) /\ w_reg w' = w_reg w.
Proof.
  intros Ha. cbn. unfold push_env, on_px, pushed. destruct broadcast as [x px]. by eexists _, _.
Qed.

Lemma step_master v a sid it w : answering w -> exists r w',
  handle v _ (Master a sid it) w = (r, w') /\ answering w' /\ key_of w' sid = key_of w sid /\
  w_px w' = w_px w /\ w_reg w' = w_reg w /\
  match sb_of w sid with
  | None => (exists m, decode_reply r = Some (APIError RetCodeInvalidParamFormat m)) /\ sb_of w' sid = None
  | Some _ =>
      (decode_reply r = None \/ exists m, decode_reply r = Some (APIError RetCodeTaskStateInvalid m)) /\
      sb_of w' sid = match a with APause => Some SbPaused | AResume => Some SbRunning | AKill _ => None end
  end.
Proof.
  intros [Hr Hm]. cbn. unfold on_master. destruct (m_call_up a sid it _ Hm) as (m' & msg & Hm' & -> & Hs).
  eexists _, _. split; [done|]. split_and!; try done. unfold sb_of. cbn. rewrite Hs.
  destruct (sbx (w_master w) !! sid) as [st|] eqn:Hst.
  - destruct a; rewrite ?lookup_insert_eq, ?lookup_delete_eq; destruct st; split; eauto.
  - destruct a; eauto.
Qed.

Ltac run_call L :=
  let w1 := fresh "w" in let Hh := fresh "Hh" in let Ha := fresh "Ha" in let Hk := fresh "Hk" in
  let Hm := fresh "Hm" in let Hp := fresh "Hp" in let Hr := fresh "Hr" in
  destruct L as (w1 & Hh & Ha & Hk & Hm & Hp & Hr); [done|]; rewrite exec_call, Hh; clear Hh; cbv beta iota.

Ltac run_push L :=
  let x := fresh "x" in let w1 := fresh "w" in let Hh := fresh "Hh" in let Ha := fresh "Ha" in let Hk := fresh "Hk" in
  let Hm := fresh "Hm" in let Hp := fresh "Hp" in let Hr := fresh "Hr" in
  destruct L as (x & w1 & Hh & Ha & Hk & Hm & Hp & Hr); [done|]; rewrite exec_call, Hh; clear Hh; cbv beta iota.

(** The tails: what the calls after the RPC leave. *)
Lemma exec_finish_pause v sid w : answering w -> NoDup (AdminURL <$> e_fleet v) -> sid <> "" ->
  let '(a, w') := exec (handle v) (finish_pause sid) w in
  a = ATriggered /\ answering w' /\ key_of w' sid = Some "paused" /\ sb_of w' sid = sb_of w sid /\
  shows v sid "paused" (w_px w') /\ w_reg w' = w_reg w.
Proof.
  intros Ha Hnd Hs. unfold finish_pause.
  run_call (step_set v sid "paused" w). run_push (step_push v sid "paused" w0). cbn [exec].
  split_and!; [done|done|congruence| | |congruence].
  - unfold sb_of. congruence.
  - rewrite Hp0. apply pushed_shows; unfold known_state; tauto.
Qed.

Lemma exec_forget v sid (out : attempt) w : answering w -> NoDup (AdminURL <$> e_fleet v) -> sid <> "" ->
  let '(a, w') := exec (handle v) (do PushDelete sid ;; do RegDelete sid ;; Ret out) w in
  a = out /\ answering w' /\ key_of w' sid = key_of w sid /\ sb_of w' sid = sb_of w sid /\
  forgot v sid (w_px w') /\ w_reg w' = Delete sid (w_reg w).
Proof.
  intros Ha Hnd Hs. run_push (step_forget v sid w). cbn.
  split_and!; [done|done|done| | |congruence].
  - unfold sb_of. cbn. congruence.
  - rewrite Hp. by apply pushed_forgot.
Qed.

Lemma exec_rpc {A} v a sid it (k : option rpc_err -> prog A) w : sid <> "" -> it <> "" ->
  exec (handle v) (rpc a sid it k) w =
    let '(r, w) := handle v _ (Master a sid it) w in exec (handle v) (k (decode_reply r)) w.
Proof.
  intros Hs Hi. unfold rpc. rewrite !bool_decide_false by done. reflexivity.
Qed.

(** TryPause on every branch: with the key taken it does nothing; a sandbox
    CubeMaster does not know is evicted from the registry and the proxies and the
    key is released; otherwise Redis, CubeMaster and every replica that takes
    requests agree afterwards that the sandbox is paused. *)
Theorem tryPause_spec v e w :
  let sid := SandboxID (Meta e) in
  answering w -> NoDup (AdminURL <$> e_fleet v) -> sid <> "" -> InstanceType (Meta e) <> "" ->
  let '(a, w') := exec (handle v) (tryPause e) w in
  answering w' /\
  match key_of w sid, sb_of w sid with
  | Some st, _ => a = ASkipped /\ key_of w' sid = Some st /\ w_master w' = w_master w /\ w_px w' = w_px w /\ w_reg w' = w_reg w
  | None, None => a = AEvicted /\ key_of w' sid = None /\ sb_of w' sid = None /\ forgot v sid (w_px w') /\ w_reg w' = Delete sid (w_reg w)
  | None, Some _ => a = ATriggered /\ key_of w' sid = Some "paused" /\ sb_of w' sid = Some SbPaused /\ shows v sid "paused" (w_px w') /\ w_reg w' = w_reg w
  end.
Proof.
  intros sid Ha Hnd Hs Hi. unfold tryPause. fold sid. run_call (step_acquire v sid "pausing" w).
  destruct (key_of w sid) as [st|] eqn:Hkey.
  { rewrite bool_decide_false by done. cbn [exec]. split; [done|]. split_and!; done. }
  rewrite bool_decide_true by done. run_push (step_push v sid "pausing" w0). rewrite exec_rpc by done.
  destruct (step_master v APause sid (InstanceType (Meta e)) w1) as (r & w2 & -> & Ha2 & Hk2 & Hp2 & Hr2 & Hsb); [done|].
  assert (Hsb1 : sb_of w1 sid = sb_of w sid) by (unfold sb_of; congruence). rewrite Hsb1 in Hsb.
  destruct (sb_of w sid) as [st|].
  - destruct Hsb as [Hdec Hsb]. pose proof (exec_finish_pause v sid w2 Ha2 Hnd Hs) as Hfin.
    assert (Hgo : exec (handle v) (finish_pause sid) w2 = exec (handle v)
      match decode_reply r with
      | Some er => if IsNotFound er then do ClearState sid ;; do PushDelete sid ;; do RegDelete sid ;; Ret AEvicted
                   else if IsAlreadyInState er then finish_pause sid
                   else (do ClearState sid ;; do PushState sid "running" ;; Ret (AFailed ("cubemaster pause: " +:+ rpc_text er)))
      | None => finish_pause sid end w2) by (by destruct Hdec as [->|[m ->]]).
    rewrite <- Hgo. destruct (exec _ (finish_pause sid) w2) as [a w3].
    destruct Hfin as (-> & Ha3 & Hk3 & Hs3 & Hsh & Hr3). split; [done|]. split_and!; [done|done|congruence|done|congruence].
  - destruct Hsb as [[m ->] Hsb]. cbn [IsNotFound]. rewrite Z.eqb_refl. run_call (step_clear v sid w2).
    pose proof (exec_forget v sid AEvicted w3 Ha3 Hnd Hs) as Hf.
    destruct (exec (handle v) (do PushDelete sid ;; _) w3) as [a w4].
    destruct Hf as (-> & Ha4 & Hk4 & Hs4 & Hfg & Hr4). split; [done|].
    split_and!; [done|congruence| |done|congruence]. rewrite Hs4. unfold sb_of in *. congruence.
Qed.

Lemma exec_finish_kill v sid w : answering w -> NoDup (AdminURL <$> e_fleet v) -> sid <> "" ->
  let '(a, w') := exec (handle v) (finish_kill sid) w in
  a = ATriggered /\ answering w' /\ key_of w' sid = Some "killed" /\ sb_of w' sid = sb_of w sid /\
  forgot v sid (w_px w') /\ w_reg w' = Delete sid (w_reg w).
Proof.
  intros Ha Hnd Hs. unfold finish_kill. run_call (step_set v sid "killed" w).
  pose proof (exec_forget v sid ATriggered w0 Ha0 Hnd Hs) as Hf.
  destruct (exec _ _ w0) as [a w1]. destruct Hf as (-> & Ha1 & Hk1 & Hs1 & Hfg & Hr1).
  split_and!; [done|done|congruence| |done|congruence]. rewrite Hs1. unfold sb_of. congruence.
Qed.

(** TryKill on every branch: with the key taken it does nothing; otherwise
    the sandbox is gone from CubeMaster, from the registry and from every replica
    that takes requests, and Redis says killed, also when CubeMaster did not know
    it any more. *)
Theorem tryKill_spec v e w :
  let sid := SandboxID (Meta e) in
  answering w -> NoDup (AdminURL <$> e_fleet v) -> sid <> "" -> InstanceType (Meta e) <> "" ->
  let '(a, w') := exec (handle v) (tryKill e) w in
  answering w' /\
  match key_of w sid with
  | Some st => a = ASkipped /\ key_of w' sid = Some st /\ w_master w' = w_master w /\ w_px w' = w_px w /\ w_reg w' = w_reg w
  | None => a = ATriggered /\ key_of w' sid = Some "killed" /\ sb_of w' sid = None /\ forgot v sid (w_px w') /\
            w_reg w' = Delete sid (w_reg w)
  end.
Proof.
  intros sid Ha Hnd Hs Hi. unfold tryKill. fold sid. run_call (step_acquire v sid "killing" w).
  destruct (key_of w sid) as [st|] eqn:Hkey.
  { rewrite bool_decide_false by done. cbn [exec]. split; [done|]. split_and!; done. }
  rewrite bool_decide_true by done. run_push (step_push v sid "killing" w0). rewrite exec_rpc by done.
  destruct (step_master v (AKill KillReasonTimeout) sid (InstanceType (Meta e)) w1) as (r & w2 & -> & Ha2 & Hk2 & Hp2 & Hr2 & Hsb); [done|].
  pose proof (exec_finish_kill v sid w2 Ha2 Hnd Hs) as Hfin.
  match goal with |- context [exec (handle v) ?p w2] => assert (Hgo : p = finish_kill sid) end.
  { destruct (sb_of w1 sid); [destruct Hsb as [[->|[m ->]] _]|destruct Hsb as [[m ->] _]]; done. }
  assert (Hnone : sb_of w2 sid = None) by (destruct (sb_of w1 sid); tauto).
  rewrite Hgo. destruct (exec _ (finish_kill sid) w2) as [a w3].
  destruct Hfin as (-> & Ha3 & Hk3 & Hs3 & Hf & Hr3). split; [done|]. split_and!; [done|done|congruence|done|congruence].
Qed.

(** The registry after the bookkeeping of a resume. *)
Definition resumed_reg (now : Z) (sid : string) (r : Registry) : Registry := (MergeLastActive sid (unix_milli now) r).2.

Lemma exec_finish_resume v sid w : answering w -> NoDup (AdminURL <$> e_fleet v) -> sid <> "" ->
  let '(r, w') := exec (handle v) (finish_resume sid) w in
  r = None /\ answering w' /\ key_of w' sid = Some "running" /\ w_master w' = w_master w /\
  shows v sid "running" (w_px w') /\ w_reg w' = resumed_reg (e_now v) sid (w_reg w).
Proof.
  intros Ha Hnd Hs. unfold finish_resume.
  run_call (step_set v sid "running" w). run_push (step_push v sid "running" w0).
  cbn. unfold on_reg. destruct (MergeLastActive sid (unix_milli (e_now v)) (w_reg w1)) as [b r] eqn:Hmerge. cbn.
  split_and!; [done|done| |congruence| |].
  - unfold key_of in *. cbn. congruence.
  - rewrite Hp0. apply pushed_shows; unfold known_state; tauto.
  - unfold resumed_reg. rewrite <- Hr, <- Hr0, Hmerge. done.
Qed.

Lemma exec_bind {W A B} (h : forall X, call X -> W -> X * W) (p : prog A) (f : A -> prog B) : forall w : W,
  exec h (pbind p f) w = let '(a, w) := exec h p w in exec h (f a) w.
Proof.
  induction p as [a|X c k IH]; intros w; [done|]. cbn. destruct (h X c w) as [x w']. apply IH.
Qed.

Lemma exec_claim v sid w : answering w -> exists w',
  exec (handle v) (claim sid) w = (Own, w') /\ answering w' /\ key_of w' sid = Some "resuming" /\
  w_master w' = w_master w /\ w_px w' = w_px w /\ w_reg w' = w_reg w.
Proof. intros Ha. unfold claim. run_call (step_set v sid "resuming" w). by exists w0. Qed.

(** The key stays as it is while nobody else acts, so the wait runs out. *)
Lemma exec_wait v sid s ticks : s <> "running" -> s <> "paused" -> forall w, answering w -> key_of w sid = Some s ->
  exists w', exec (handle v) (waitForRunning ticks sid) w = (Some "context deadline exceeded", w') /\ answering w' /\
  key_of w' sid = Some s /\ w_master w' = w_master w /\ w_px w' = w_px w /\ w_reg w' = w_reg w.
Proof.
  intros Hs1 Hs2. induction ticks as [|ticks IH]; intros w Ha Hkey; cbn [waitForRunning];
    run_call (step_get v sid w); rewrite Hkey; rewrite !bool_decide_false by done.
  - exists w0. cbn. split_and!; try done. congruence.
  - destruct (IH w0) as (w' & -> & Ha' & Hk' & Hm' & Hp' & Hr'); [done|congruence|].
    exists w'. split_and!; try done; congruence.
Qed.

(** A resume that this call drives. *)
Definition resume_driven (v : Env) (sid : string) w (r : option string) w' : Prop :=
  match sb_of w sid with
  | None => r = Some "sandbox no longer exists" /\ key_of w' sid = None /\ sb_of w' sid = None /\ forgot v sid (w_px w') /\
            w_reg w' = Delete sid (w_reg w)
  | Some _ => r = None /\ key_of w' sid = Some "running" /\ sb_of w' sid = Some SbRunning /\ shows v sid "running" (w_px w') /\
              w_reg w' = resumed_reg (e_now v) sid (w_reg w)
  end.

Lemma exec_driven v sid it w : answering w -> NoDup (AdminURL <$> e_fleet v) -> sid <> "" -> it <> "" ->
  let '(r, w') := exec (handle v) (pbind (callCubeMasterResume sid it) (fun err =>
    match err with Some m => Ret (Some m) | None => finish_resume sid end)) w in
  answering w' /\ resume_driven v sid w r w'.
Proof.
  intros Ha Hnd Hs Hi. rewrite exec_bind. unfold callCubeMasterResume. rewrite exec_rpc by done.
  destruct (step_master v AResume sid it w) as (r & w2 & -> & Ha2 & Hk2 & Hp2 & Hr2 & Hsb); [done|].
  unfold resume_driven. destruct (sb_of w sid) as [st|].
  - destruct Hsb as [Hdec Hsb]. pose proof (exec_finish_resume v sid w2 Ha2 Hnd Hs) as Hfin.
    assert (Hgo : exec (handle v) match decode_reply r with
       | Some er => if IsNotFound er then do ClearState sid ;; do PushDelete sid ;; do RegDelete sid ;; Ret (Some "sandbox no longer exists")
                    else if IsAlreadyInState er then Ret None
                    else (do ClearState sid ;; Ret (Some ("cubemaster resume: " +:+ rpc_text er)))
       | None => Ret None end w2 = (None, w2)) by (by destruct Hdec as [->|[m ->]]).
    rewrite Hgo. destruct (exec _ (finish_resume sid) w2) as [x w3].
    destruct Hfin as (-> & Ha3 & Hk3 & Hm3 & Hsh & Hr3). split; [done|].
    split_and!; [done|done| |done|congruence]. unfold sb_of in *. congruence.
  - destruct Hsb as [[m ->] Hsb]. cbn [IsNotFound]. rewrite Z.eqb_refl. run_call (step_clear v sid w2).
    run_push (step_forget v sid w0). cbn. split; [done|]. split_and!; [done| | | |congruence].
    + unfold key_of in *. cbn. congruence.
    + unfold sb_of in *. cbn. congruence.
    + rewrite Hp0. by apply pushed_forgot.
Qed.

(** DoResume on every branch: unknown sandboxes and those without
    auto-resume are refused; a paused one (or one whose key expired) is resumed
    so that Redis, CubeMaster and every replica that takes requests agree that it
    runs and it counts as active now, or, when CubeMaster does not know it,
    evicted everywhere; one that runs is confirmed without a call to CubeMaster;
    and while another transition holds the key the call waits, changes nothing
    and gives up when its time is over. *)
Theorem doResume_spec v ticks sid w :
  answering w -> NoDup (AdminURL <$> e_fleet v) -> sid <> "" ->
  (forall e, w_reg w !! sid = Some e -> InstanceType (Meta e) <> "") ->
  let '(r, w') := exec (handle v) (doResume ticks sid) w in
  answering w' /\
  match w_reg w !! sid with
  | None => r = Some "sandbox not in registry" /\ w' = w
  | Some e =>
      if AutoResume (Meta e) then
        match key_of w sid with
        | None => resume_driven v sid w r w'
        | Some s =>
            if s =s "paused" then resume_driven v sid w r w'
            else if s =s "running" then
              r = None /\ key_of w' sid = Some "running" /\ w_master w' = w_master w /\ shows v sid "running" (w_px w') /\
              w_reg w' = resumed_reg (e_now v) sid (w_reg w)
            else r = Some "context deadline exceeded" /\ key_of w' sid = Some s /\ w_master w' = w_master w /\
                 w_px w' = w_px w /\ w_reg w' = w_reg w
        end
      else r = Some "auto_resume not enabled for sandbox" /\ w' = w
  end.
Proof.
  intros Ha Hnd Hs Hit. unfold doResume. rewrite exec_call. cbn [handle]. unfold on_reg, Get.
  replace (MkWorld (w_redis w) (w_master w) (w_px w) (w_reg w)) with w by (by destruct w).
  destruct (w_reg w !! sid) as [e|] eqn:He; [|done]. specialize (Hit e eq_refl).
  destruct (AutoResume (Meta e)); cbn [negb]; [|done].
  rewrite exec_bind. unfold acquireResumeOwnership. run_call (step_get v sid w).
  assert (Hdrv : let '(r, w') := let '(a, w1) := exec (handle v) (claim sid) w0 in
      exec (handle v) match a with
        | Own => pbind (callCubeMasterResume sid (InstanceType (Meta e))) (fun err =>
                   match err with Some m => Ret (Some m) | None => finish_resume sid end)
        | ErrAlreadyRunning => finish_resume sid
        | OwnErr m => Ret (Some m) end w1 in answering w' /\ resume_driven v sid w r w').
  { destruct (exec_claim v sid w0 Ha0) as (w1 & -> & Ha1 & Hk1 & Hm1 & Hp1 & Hr1).
    pose proof (exec_driven v sid _ w1 Ha1 Hnd Hs Hit) as Hd. destruct (exec _ _ w1) as [r w2].
    destruct Hd as [Ha2 Hd]. split; [done|]. unfold resume_driven, sb_of in *.
    rewrite Hm1, Hm in Hd. rewrite Hr1, Hr in Hd. done. }
  destruct (key_of w sid) as [s|] eqn:Hkey; [|exact Hdrv].
  case_bool_decide as Hp1; [exact Hdrv|]. case_bool_decide as Hp2.
  - pose proof (exec_finish_resume v sid w0 Ha0 Hnd Hs) as Hf. cbn [exec]. destruct (exec _ (finish_resume sid) w0) as [r w1].
    destruct Hf as (-> & Ha1 & Hk1 & Hm1 & Hsh & Hr1). split; [done|]. split_and!; [done|done|congruence|done|congruence].
  - unfold wait_peer. rewrite exec_bind.
    destruct (exec_wait v sid s ticks Hp2 Hp1 w0 Ha0) as (w1 & -> & Ha1 & Hk1 & Hm1 & Hpx1 & Hr1); [congruence|].
    cbn. split; [done|]. split_and!; [done|done|congruence..].
Qed.

End Quiet.

(** ** Whatever the environment answers *)

(** The call to CubeMaster an event is, and the sandbox whose key it acquired. *)
Definition master_call (ev : event) : option (action * string * string) :=
  match ev with Ev (Master a sid it) _ => Some (a, sid, it) | _ => None end.
Definition acquired (ev : event) : option string :=
  match ev with
  | Ev c x =>
      match c in call X return X -> option string with
      | AcquireState s _ => fun x => match x with Ok true => Some s | _ => None end
      | _ => fun _ => None
      end x
  end.

Definition now_answer (ev : event) : option Z :=
  match ev with Ev c x => match c in call X return X -> option Z with Now => fun x => Some x | _ => fun _ => None end x end.
Definition snap_answer (ev : event) : option (list Entry) :=
  match ev with
  | Ev c x => match c in call X return X -> option (list Entry) with Snap => fun x => Some x | _ => fun _ => None end x
  end.

(** All calls of a program to CubeMaster satisfy [P]. *)
Fixpoint masters {A} (P : action -> string -> string -> Prop) (p : prog A) : Prop :=
  match p with
  | Ret _ => True
  | Call c k =>
      match c with Master a s it => P a s it | _ => True end /\ forall x, masters P (k x)
  end.

Lemma masters_bind {A B} P (p : prog A) (f : A -> prog B) : masters P p -> (forall a, masters P (f a)) -> masters P (pbind p f).
Proof. induction p as [a|X c k IH]; cbn; [auto|]. intros [Hc Hk] Hf. split; [done|]. auto. Qed.

Lemma masters_impl {A} (P Q : action -> string -> string -> Prop) (p : prog A) :
  (forall a s it, P a s it -> Q a s it) -> masters P p -> masters Q p.
Proof. intros HPQ. induction p as [a|X c k IH]; cbn; [done|]. intros [Hc Hk]. split; [|auto]. destruct c; auto. Qed.

Lemma masters_trace {A} P (p : prog A) : forall tr a ev act s it, masters P p -> traces p tr a ->
  ev ∈ tr -> master_call ev = Some (act, s, it) -> P act s it.
Proof.
  induction p as [b|X c k IH]; cbn; intros tr a ev act s it Hm Ht Hin Hev.
  - destruct Ht as [-> _]. by apply not_elem_of_nil in Hin.
  - destruct Ht as (x & tr' & -> & Ht), Hm as [Hc Hk]. apply elem_of_cons in Hin as [->|Hin]; [|by eapply IH].
    destruct c; cbn in Hev; simplify_eq. done.
Qed.

Lemma tryPause_masters e : masters (fun a s it => a = APause /\ s = SandboxID (Meta e) /\ it = InstanceType (Meta e)) (tryPause e).
Proof.
  cbn. split; [done|]. intros [[]|m]; cbn; try done. split; [done|]. intros _. unfold rpc. case_match; cbn; [auto|].
  split; [done|]. intros r. destruct (decode_reply r) as [er|]; [|cbn; auto].
  destruct (IsNotFound er), (IsAlreadyInState er); cbn; auto.
Qed.

Lemma tryKill_masters e : masters (fun a s it => a = AKill KillReasonTimeout /\ s = SandboxID (Meta e) /\ it = InstanceType (Meta e)) (tryKill e).
Proof.
  cbn. split; [done|]. intros [[]|m]; cbn; try done. split; [done|]. intros _. unfold rpc. case_match; cbn; [auto|].
  split; [done|]. intros r. destruct (decode_reply r) as [er|]; [|cbn; auto].
  destruct (IsNotFound er || IsAlreadyInState er); cbn; auto.
Qed.

(** The entry a call of the sweeper is about. *)
Definition sweep_target (o : SweepOptions) (now : Z) (es : list Entry) (a : action) (s it : string) : Prop :=
  exists e, e ∈ es /\ SandboxID (Meta e) = s /\ InstanceType (Meta e) = it /\ idle_expired o now e = true /\
    a = if AutoPause (Meta e) then APause else AKill KillReasonTimeout.

Lemma sweep_all_masters o now es : forall c, masters (sweep_target o now es) (sweep_all o now es c).
Proof.
  induction es as [|e es IH]; intros c; [done|]. cbn [sweep_all]. apply masters_bind.
  - unfold sweep_entry. destruct (idle_expired o now e) eqn:He; [|done].
    assert (Hact : masters (sweep_target o now (e :: es)) (act_on e c)).
    { unfold act_on. destruct (AutoPause (Meta e)) eqn:Hap; apply masters_bind; try done.
      - eapply masters_impl, tryPause_masters. cbn. intros a s it (-> & -> & ->). exists e. rewrite Hap. split; [left|done].
      - eapply masters_impl, tryKill_masters. cbn. intros a s it (-> & -> & ->). exists e. rewrite Hap. split; [left|done]. }
    cbn. split; [done|]. intros [[s|]|m]; try done. by destruct (parked s).
  - intros c'. eapply masters_impl, IH. intros a s it (e' & Hin & Hrest). exists e'. split; [by right|done].
Qed.

(** A disciplined program has acquired the key before it calls CubeMaster. *)
Lemma disciplined_trace {A} sid (p : prog A) : forall held tr a tr1 ev tr2 act it,
  disciplined sid held p -> traces p tr a -> tr = (tr1 ++ ev :: tr2)%list -> master_call ev = Some (act, sid, it) ->
  held = true \/ exists ev0, ev0 ∈ tr1 /\ acquired ev0 = Some sid.
Proof.
  induction p as [b|X c k IH]; intros held tr a tr1 ev tr2 act it Hd Ht Heq Hev.
  { destruct Ht as [-> _]. by destruct tr1. }
  destruct Ht as (x & tr' & -> & Ht). destruct tr1 as [|ev1 tr1]; cbn in Heq; injection Heq as <- Heq.
  { left. destruct c; cbn in Hev; simplify_eq. cbn in Hd. by apply Hd. }
  assert (Hrec : forall h, disciplined sid h (k x) -> h = true \/ exists ev0, ev0 ∈ tr1 /\ acquired ev0 = Some sid)
    by (intros h Hh; by eapply (IH x h)).
  assert (Hlift : (exists ev0, ev0 ∈ tr1 /\ acquired ev0 = Some sid) -> exists ev0, ev0 ∈ Ev c x :: tr1 /\ acquired ev0 = Some sid)
    by (intros (ev0 & Hin & Ha); exists ev0; split; [by right|done]).
  destruct c as [s st|s st|s|s| | | | | | | |]; cbn in Hd; try (destruct (Hrec held); [apply Hd|by left|by right; auto]).
  - case_bool_decide as Hs; [|destruct (Hrec held); [apply Hd|by left|by right; auto]]. subst s.
    destruct Hd as (_ & Hok & Herr). destruct x as [[]|m].
    + right. exists (Ev (AcquireState sid st) (Ok true)). split; [left|done].
    + destruct (Hrec false (Hok false)); [done|right; auto].
    + destruct (Hrec false (Herr m)); [done|right; auto].
  - case_bool_decide as Hs; [by destruct Hd; left|destruct (Hrec held); [apply Hd|by left|by right; auto]].
  - case_bool_decide as Hs; [by destruct Hd; left|destruct (Hrec held); [apply Hd|by left|by right; auto]].
Qed.

(** Whatever Redis, CubeMaster, the proxies and other sidecars answer, a
    sweep asks CubeMaster only for sandboxes of its snapshot whose idle time has
    reached their timeout, to pause those that opted in and to kill the others
    with the reason timeout, and only after it acquired the state key of that
    very sandbox in the same sweep. *)
Theorem sweep_acts_only_on_idle o c now es tr c' tr1 ev tr2 act sid it :
  traces (sweepOnce o c) (Ev Now now :: Ev Snap es :: tr) c' ->
  tr = (tr1 ++ ev :: tr2)%list -> master_call ev = Some (act, sid, it) ->
  sweep_target o now es act sid it /\ exists ev0, ev0 ∈ tr1 /\ acquired ev0 = Some sid.
Proof.
  intros Ht Heq Hev.
  assert (Htr : traces (sweep_all o now es c) tr c').
  { destruct Ht as (x & t1 & H1 & y & t2 & H2 & Ht).
    assert (Hx : now_answer <$> head (Ev Now now :: Ev Snap es :: tr) = now_answer <$> head (Ev Now x :: t1)) by (by rewrite H1).
    assert (Ht1 : Ev Snap es :: tr = t1) by (by injection H1). rewrite <- Ht1 in H2.
    assert (Hy : snap_answer <$> head (Ev Snap es :: tr) = snap_answer <$> head (Ev Snap y :: t2)) by (by rewrite H2).
    assert (Ht2 : tr = t2) by (by injection H2). cbn in Hx, Hy. injection Hx as <-. injection Hy as <-. by subst. }
  split.
  - eapply (masters_trace (sweep_target o now es)); [apply sweep_all_masters|exact Htr| |exact Hev].
    rewrite Heq. apply elem_of_app. right. left.
  - destruct (disciplined_trace sid _ false tr c' tr1 ev tr2 act it (sweep_all_disciplined o now sid es c) Htr Heq Hev); [done|done].
Qed.

(** ** The decision *)

(** The idle decision is exact: within the range of a duration, an entry is
    acted on exactly when it is not held back by the warm-up after start and its
    idle time, measured from the later of its creation and its last activity, has
    reached its timeout; a negative timeout means never, no timeout the default. *)
Theorem idle_expired_exact o now e :
  let idle := unix_milli now - baseline e in
  - 9223372036854 <= idle <= 9223372036854 ->
  match TimeoutSeconds (Meta e) with None => True | Some ts => ts <= 9223372036 end ->
  idle_expired o now e = true <->
    (BootstrapWarmup o <= time_sub now (o_StartedAt o) \/ o_StartedAt o < FirstSeenAt e) /\
    match TimeoutSeconds (Meta e) with
    | None => DefaultIdleTimeout o <= idle * millisecond
    | Some ts => 0 <= ts /\ ts * 1000 <= idle
    end.
Proof.
  intros idle Hi Hts. unfold idle_expired, idle_for, idle_timeout, time_after. fold idle.
  rewrite (wrap64_id idle) by (unfold int_min, int_max; lia).
  rewrite (wrap64_id (idle * millisecond)) by (unfold int_min, int_max, millisecond; lia).
  destruct (Z.ltb_spec (time_sub now (o_StartedAt o)) (BootstrapWarmup o)) as [H1|H1];
    destruct (Z.ltb_spec (o_StartedAt o) (FirstSeenAt e)) as [H2|H2]; cbn [andb negb].
  2: { split; [done|]. intros [[?|?] _]; lia. }
  all: destruct (TimeoutSeconds (Meta e)) as [ts|]; [|rewrite negb_true_iff, Z.ltb_ge; intuition].
  all: destruct (Z.ltb_spec ts 0) as [H3|H3]; [split; [done|intros [_ [? _]]; lia]|].
  all: rewrite wrap64_id by (unfold int_min, int_max, second; lia); rewrite negb_true_iff, Z.ltb_ge;
    unfold second, millisecond; split; [intros Hle; split; [auto|lia]|intros [_ [_ Hle]]; lia].
Qed.

(** A very long timeout turns into none: from 9223372037 seconds on, the
    conversion to a duration overflows to a negative one, and the sandbox is
    paused or killed at the next sweep however active it is. *)
Theorem huge_timeout_expires_at_once o now e ts :
  TimeoutSeconds (Meta e) = Some ts -> 9223372037 <= ts <= 18446744073 ->
  0 <= unix_milli now - baseline e <= 9223372036854 ->
  BootstrapWarmup o <= time_sub now (o_StartedAt o) -> idle_expired o now e = true.
Proof.
  intros Hts Hr Hi Hw. unfold idle_expired, idle_for, idle_timeout. rewrite Hts.
  destruct (Z.ltb_spec (time_sub now (o_StartedAt o)) (BootstrapWarmup o)); [lia|]. cbn [andb].
  destruct (Z.ltb_spec ts 0); [lia|].
  rewrite (wrap64_id (unix_milli now - baseline e)) by (unfold int_min, int_max; lia).
  rewrite (wrap64_id (_ * millisecond)) by (unfold int_min, int_max, millisecond; lia).
  assert (Hneg : wrap64 (ts * second) < 0).
  { unfold wrap64, second. replace (ts * 1000000000 + 2 ^ 63) with ((ts * 1000000000 - 2 ^ 63) + 1 * 2 ^ 64) by lia.
    rewrite Z.mod_add by lia. rewrite Z.mod_small by lia. lia. }
  rewrite negb_true_iff, Z.ltb_ge. unfold millisecond. lia.
Qed.

(** ** Resumes end *)

Lemma traces_bind {A B} (p : prog A) (f : A -> prog B) : forall tr b, traces (pbind p f) tr b ->
  exists tr1 tr2 a, tr = (tr1 ++ tr2)%list /\ traces p tr1 a /\ traces (f a) tr2 b.
Proof.
  induction p as [a|X c k IH]; intros tr b; cbn.
  - intros Ht. by exists [], tr, a.
  - intros (x & tr' & -> & Ht). destruct (IH x tr' b Ht) as (tr1 & tr2 & a & -> & H1 & H2).
    exists (Ev c x :: tr1), tr2, a. split_and!; [done| |done]. by exists x, tr1.
Qed.

(** [longest n p]: no run of [p] makes more than [n] calls. *)
Fixpoint longest {A} (n : nat) (p : prog A) {struct p} : Prop :=
  match p with
  | Ret _ => True
  | Call c k => match n with O => False | S n => forall x, longest n (k x) end
  end.

Lemma longest_trace {A} (p : prog A) : forall n tr a, longest n p -> traces p tr a -> (length tr <= n)%nat.
Proof.
  induction p as [b|X c k IH]; intros [|n] tr a; cbn; try done.
  - intros _ [-> _]. done.
  - intros _ [-> _]. cbn. lia.
  - intros Hl (x & tr' & -> & Ht). cbn. specialize (IH x n tr' a (Hl x) Ht). lia.
Qed.

Lemma longest_mono {A} (p : prog A) : forall n m, (n <= m)%nat -> longest n p -> longest m p.
Proof.
  induction p as [b|X c k IH]; intros [|n] [|m] Hle; cbn; try done; [lia|]. intros Hl x. apply (IH x n); [lia|done].
Qed.

Lemma longest_bind {A B} (p : prog A) (f : A -> prog B) m : forall n,
  longest n p -> (forall a, longest m (f a)) -> longest (n + m) (pbind p f).
Proof.
  induction p as [b|X c k IH]; intros n Hp Hf; cbn.
  - eapply longest_mono; [|apply Hf]. lia.
  - destruct n as [|n]; [done|]. cbn in *. intros x. by apply IH.
Qed.

Lemma wait_longest ticks sid : longest (S ticks) (waitForRunning ticks sid).
Proof.
  induction ticks as [|ticks IH].
  - cbn. intros [[s|]|m]; cbn; repeat case_bool_decide; done.
  - cbn [waitForRunning longest]. intros [[s|]|m]; cbn; repeat case_bool_decide; try done; exact IH.
Qed.

Lemma resume_rpc_longest sid it : longest 4 (callCubeMasterResume sid it).
Proof.
  unfold callCubeMasterResume, rpc. destruct (_ || _); [done|]. cbn. intros r.
  destruct (decode_reply r) as [er|]; [|done]. destruct (IsNotFound er), (IsAlreadyInState er); cbn; done.
Qed.

Lemma own_longest ticks sid : longest (2 + ticks) (acquireResumeOwnership ticks sid).
Proof.
  assert (Hclaim : longest (S ticks) (claim sid)) by (cbn; done).
  change (2 + ticks)%nat with (S (S ticks)). cbn [longest acquireResumeOwnership]. intros [[s|]|m]; [|done|done].
  case_bool_decide; [done|]. case_bool_decide; [done|].
  unfold wait_peer. rewrite <- (Nat.add_0_r (S ticks)). apply longest_bind; [apply wait_longest|done].
Qed.

(** A run in a world is a trace. *)
Lemma exec_trace {W A} (h : forall X, call X -> W -> X * W) (p : prog A) : forall w, exists tr, traces p tr (exec h p w).1.
Proof.
  induction p as [a|X c k IH]; intros w; [by exists []|]. cbn. destruct (h X c w) as [x w'].
  destruct (IH x w') as [tr Htr]. exists (Ev c x :: tr), x, tr. done.
Qed.

(** A resume always ends: in every world it returns, after at most
    [ticks + 11] calls whatever is answered, where [ticks] is how often the poll
    fires before the request's deadline (125 for 25 seconds at 200
    milliseconds). *)
Theorem resume_terminates W (h : forall X, call X -> W -> X * W) w ticks sid :
  exists tr, traces (doResume ticks sid) tr (exec h (doResume ticks sid) w).1 /\ (length tr <= ticks + 11)%nat.
Proof.
  destruct (exec_trace h (doResume ticks sid) w) as [tr Htr]. exists tr. split; [done|]. revert Htr.
  apply longest_trace. replace (ticks + 11)%nat with (S (2 + ticks + (4 + 4))) by lia.
  cbn [longest doResume]. intros [e|]; [|done]. destruct (negb (AutoResume (Meta e))); [done|].
  apply longest_bind; [apply own_longest|]. intros [| |m]; [|done|done].
  apply longest_bind; [apply resume_rpc_longest|]. by intros [m|].
Qed.

(** ** A race *)

(** Services in memory: keys that do not expire, sandboxes with their status. *)
#[global] Instance mem_store : StateStore (gmap string string) := {
  setnx k v _ r := match r !! k with None => (Ok true, <[k := v]> r) | Some _ => (Ok false, r) end;
  set k v _ r := (Ok tt, <[k := v]> r);
  del k r := (Ok tt, delete k r);
  get k r := (Ok (r !! k), r);
}.

#[global, refine] Instance mem_store_laws : StoreLaws (gmap string string) := {
  view r := r; up _ := True;
}.
Proof.
  - intros k v t r _. cbn. destruct (r !! k) eqn:Hk; eexists; (split; [|done]).
    + by rewrite bool_decide_false.
    + by rewrite bool_decide_true.
  - intros k v t r _. by eexists.
  - intros k r _. by eexists.
  - intros k r _. by eexists.
Defined.

Definition mem_call (a : action) (sid it : string) (m : gmap string sb_status) : http_reply * gmap string sb_status :=
  match m !! sid with
  | None => (HttpReply 200 (Some (RetCodeInvalidParamFormat, "key not found")), m)
  | Some st =>
      match a, st with
      | APause, SbPaused => (HttpReply 200 (Some (RetCodeTaskStateInvalid, "sandbox is already paused")), m)
      | AResume, SbRunning => (HttpReply 200 (Some (RetCodeTaskStateInvalid, "sandbox is already running")), m)
      | APause, _ => (HttpReply 200 (Some (RetCodeSuccess, "")), <[sid := SbPaused]> m)
      | AResume, _ => (HttpReply 200 (Some (RetCodeSuccess, "")), <[sid := SbRunning]> m)
      | AKill _, _ => (HttpReply 200 (Some (RetCodeSuccess, "")), delete sid m)
      end
  end.

#[global] Instance mem_master : MasterService (gmap string sb_status) := { m_call := mem_call }.

#[global, refine] Instance mem_master_laws : MasterLaws (gmap string sb_status) := { sbx m := m; m_up _ := True }.
Proof.
  intros a sid it m _. cbn. unfold mem_call. destruct (m !! sid) as [st|] eqn:Hst.
  - destruct a, st; eexists _, _; (split; [done|]); split; try done; by rewrite insert_id.
  - eexists _, _. split; [done|]. destruct a; split; done.
Defined.

Abbreviation mem_world := (World (gmap string string) (gmap string sb_status)).

Definition demo_env : Env := MkEnv demo_fleet "" (all_up 5) 60000000000 63000000000000000000.
Definition demo_entry : Entry := MkEntry (demo_meta "s1" "t1") 0 5.
(** The sandbox runs and its key has expired. *)
Definition demo_world : mem_world := MkWorld ∅ {[ "s1" := SbRunning ]} demo_pxs {[ "s1" := demo_entry ]}.

Definition quietly {A} (p : prog A) : prog unit := pbind p (fun _ => Ret tt).

(** A resume and a sweep of one sandbox, as their calls may interleave: the
    resume reads the absent key, the sweeper acquires it, the resume overwrites
    it and hears from CubeMaster that the sandbox runs, the sweeper pauses it and
    writes so, and the resume finishes last. *)
Definition race_threads : list (prog unit) := [quietly (doResume 125 "s1"); quietly (tryPause demo_entry)].
Definition race_schedule : list nat := [0; 0; 1; 1; 0; 0; 1; 1; 1; 0; 0; 0; 0]%nat.

(** The resumer's read and write of the state key are two calls, and another
    sidecar's pause may fall between them: an interleaving exists after which the
    resume has succeeded, Redis and every proxy say running, and the sandbox is
    paused at CubeMaster. *)
Theorem resume_race_leaves_paused :
  exists w', rtc (pool_step (handle demo_env)) (race_threads, demo_world) ([Ret tt; Ret tt], w') /\
    key_of w' "s1" = Some "running" /\ shows demo_env "s1" "running" (w_px w') /\ sb_of w' "s1" = Some SbPaused.
Proof.
  exists (run_schedule (handle demo_env) race_schedule race_threads demo_world).2. split.
  - apply (run_schedule_sound _ race_schedule). rewrite (surjective_pairing (run_schedule _ _ _ _)) at 1.
    apply (f_equal2 pair); [vm_compute; reflexivity|reflexivity].
  - split_and!; [vm_compute; reflexivity| |vm_compute; reflexivity].
    intros e He _. apply elem_of_cons in He as [->|He]; [|apply elem_of_cons in He as [->|He]].
    + eexists. split; vm_compute; reflexivity.
    + eexists. split; vm_compute; reflexivity.
    + by apply not_elem_of_nil in He.
Qed.

(** ** Witnesses *)

Lemma demo_answering : answering demo_world.
Proof. split; exact I. Defined.

Lemma demo_env_nodup : NoDup (AdminURL <$> e_fleet demo_env).
Proof. exact demo_fleet_nodup. Defined.

Lemma tryPause_spec_witness : (exec (handle demo_env) (tryPause demo_entry) demo_world).1 = ATriggered.
Proof.
  pose proof (tryPause_spec demo_env demo_entry demo_world demo_answering demo_env_nodup) as H.
  destruct (exec (handle demo_env) (tryPause demo_entry) demo_world) as [a w'].
  destruct H as [_ H]; [discriminate|discriminate|]. apply H.
Defined.

Lemma tryKill_spec_witness : (exec (handle demo_env) (tryKill demo_entry) demo_world).1 = ATriggered.
Proof.
  pose proof (tryKill_spec demo_env demo_entry demo_world demo_answering demo_env_nodup) as H.
  destruct (exec (handle demo_env) (tryKill demo_entry) demo_world) as [a w'].
  destruct H as [_ H]; [discriminate|discriminate|]. apply H.
Defined.

Lemma doResume_spec_witness : (exec (handle demo_env) (doResume 3 "s1") demo_world).1 = None.
Proof.
  pose proof (doResume_spec demo_env 3 "s1" demo_world demo_answering demo_env_nodup) as H.
  destruct (exec (handle demo_env) (doResume 3 "s1") demo_world) as [r w'].
  destruct H as [_ H]; [discriminate| |].
  - intros e He. vm_compute in He. injection He as <-. discriminate.
  - apply H.
Defined.

Definition demo_opts : SweepOptions := MkOpts 300000000000 0 0.
Definition no_counts : counters := MkCounters 0 0 0 0.

(** Two sidecars sweep; the first is about to pause. *)
Definition demo_pool : list (prog counters) * mem_world :=
  run_schedule (handle demo_env) [0; 0; 1; 1; 0; 1; 0; 0; 1]%nat [sweepOnce demo_opts no_counts; sweepOnce demo_opts no_counts] demo_world.

Definition demo_sweeper : prog counters := default (Ret no_counts) (demo_pool.1 !! 0%nat).

Lemma sweeps_exclude_each_other_witness :
  demo_pool.1 !! 0%nat = Some demo_sweeper /\ about_to_act "s1" demo_sweeper = true /\ 0%nat = 0%nat.
Proof.
  assert (Hk : demo_pool.1 !! 0%nat = Some demo_sweeper) by (vm_compute; reflexivity).
  assert (Ha : about_to_act "s1" demo_sweeper = true) by (vm_compute; reflexivity).
  split; [exact Hk|]. split; [exact Ha|].
  apply (sweeps_exclude_each_other demo_env [(demo_opts, no_counts); (demo_opts, no_counts)] "s1" demo_world
    demo_pool.1 demo_pool.2 0%nat 0%nat demo_sweeper demo_sweeper (proj1 demo_answering)); try assumption.
  apply (run_schedule_sound _ [0; 0; 1; 1; 0; 1; 0; 0; 1]%nat). apply surjective_pairing.
Defined.

Definition demo_trace : list event :=
  [Ev (GetState "s1") (Ok None); Ev (AcquireState "s1" "pausing") (Ok true); Ev (PushState "s1" "pausing") (Err "down");
   Ev (Master APause "s1" "cubebox") (NoReply "timeout"); Ev (ClearState "s1") (Ok tt); Ev (PushState "s1" "running") (Ok tt)].

Lemma sweep_acts_only_on_idle_witness :
  sweep_target demo_opts 63000000000000000000 [demo_entry] APause "s1" "cubebox".
Proof.
  apply (sweep_acts_only_on_idle demo_opts no_counts 63000000000000000000 [demo_entry] demo_trace (MkCounters 0 1 0 0)
    (take 3 demo_trace) (Ev (Master APause "s1" "cubebox") (NoReply "timeout")) (drop 4 demo_trace) APause "s1" "cubebox").
  - do 2 (eexists _, _; split; [reflexivity|]).
    replace (sweep_all demo_opts 63000000000000000000 [demo_entry] no_counts)
      with (pbind (st <-- GetState "s1" ;; match st with Ok (Some s) => if parked s then Ret no_counts else act_on demo_entry no_counts
              | _ => act_on demo_entry no_counts end) (sweep_all demo_opts 63000000000000000000 [])) by reflexivity.
    do 6 (eexists _, _; split; [reflexivity|]). split; reflexivity.
  - reflexivity.
  - reflexivity.
Defined.

Lemma idle_expired_exact_witness : idle_expired demo_opts 63000000000000000000 demo_entry = true <->
  (0 <= time_sub 63000000000000000000 0 \/ 0 < 5) /\ 0 <= 60 /\ 60 * 1000 <= unix_milli 63000000000000000000 - baseline demo_entry.
Proof.
  apply (idle_expired_exact demo_opts 63000000000000000000 demo_entry).
  - vm_compute. split; discriminate.
  - cbn. lia.
Defined.

Definition busy_entry : Entry := MkEntry (MkMeta "s9" "" "" "" "cubebox" (Some 9223372037) false false 0 0) 864403199999 5.

Lemma huge_timeout_expires_at_once_witness : idle_expired demo_opts 63000000000000000000 busy_entry = true.
Proof.
  apply (huge_timeout_expires_at_once demo_opts 63000000000000000000 busy_entry 9223372037); vm_compute; try split; try reflexivity; discriminate.
Defined.
