(* ===== verification/LcmResumer.v ===== *)
(** * Resume requests
    (cube-lifecycle-manager: Resume of internal/resumer, handleResume of
    internal/httpapi)

    Requests for the same sandbox share one resume: the first to arrive makes a
    [call] and drives it, the others wait on its channel.  The requests are
    threads; what a step of one may do is decided by the table of calls, which
    the lock protects. *)
From S2P Require Import Prelude GoStrings GoValue LcmRegistry LcmProxy LcmSweeper.

Open Scope string_scope.
Open Scope Z_scope.

(** ** The machine *)

(** Where a request is in [Resume]: waiting on a call, driving one ([doResume]
    runs), or back with its result ([None] is nil). *)
Inductive tstate : Type := Waiting (c : nat) | Leading (sid : string) (c : nat) | Returned (err : option string).

(** Calls are numbered in the order of their creation; [closed] holds those whose
    [done] is closed, with [c.err]. *)
Record Resumer : Type := MkResumer {
  calls : gmap string nat;
  closed : gmap nat (option string);
  threads : gmap nat tstate;
  fresh : nat;
}.

Definition NewResumer : Resumer := MkResumer ∅ ∅ ∅ 0.

(** A request enters [Resume]. *)
Definition enter (t : nat) (sid : string) (r : Resumer) : Resumer :=
  if sid =s "" then MkResumer (calls r) (closed r) (<[t := Returned (Some "empty sandbox_id")]> (threads r)) (fresh r)
  else
    match calls r !! sid with
    | Some c => MkResumer (calls r) (closed r) (<[t := Waiting c]> (threads r)) (fresh r)
    | None =>
        MkResumer (<[sid := fresh r]> (calls r)) (closed r) (<[t := Leading sid (fresh r)]> (threads r)) (S (fresh r))
    end.

(** [doResume] has returned [err] to the request that drives it: the result is
    stored, the call leaves the table, its channel is closed. *)
Definition finish (t : nat) (sid : string) (c : nat) (err : option string) (r : Resumer) : Resumer :=
  MkResumer (delete sid (calls r)) (<[c := err]> (closed r)) (<[t := Returned err]> (threads r)) (fresh r).

Definition leave (t : nat) (err : option string) (r : Resumer) : Resumer :=
  MkResumer (calls r) (closed r) (<[t := Returned err]> (threads r)) (fresh r).

Inductive rstep : Resumer -> Resumer -> Prop :=
  | step_enter t sid r : threads r !! t = None -> rstep r (enter t sid r)
  | step_finish t sid c err r : threads r !! t = Some (Leading sid c) -> rstep r (finish t sid c err r)
  | step_wake t c err r : threads r !! t = Some (Waiting c) -> closed r !! c = Some err -> rstep r (leave t err r)
  | step_cancel t c ctxErr r : threads r !! t = Some (Waiting c) -> rstep r (leave t (Some ctxErr) r).

(** The HTTP handler: the method, the query parameter, and what [Resume] returned. *)
Definition handleResume (method sid : string) (err : option string) : Z * string :=
  if method <>s "POST" then (405, "method not allowed")
  else if sid =s "" then (400, "sandbox_id query param is required")
  else match err with
       | Some e => (503, e)
       | None => (200, sid)
       end.

(** ** Invariant *)

(** The table lists exactly the calls in progress, each driven by one request;
    a call in progress is not closed; whoever waits, waits on a call that is in
    progress or closed. *)
Record resumer_inv (r : Resumer) : Prop := {
  ri_table sid c : calls r !! sid = Some c <-> exists t, threads r !! t = Some (Leading sid c);
  ri_leader t1 t2 sid1 sid2 c : threads r !! t1 = Some (Leading sid1 c) -> threads r !! t2 = Some (Leading sid2 c) -> t1 = t2;
  ri_open t sid c : threads r !! t = Some (Leading sid c) -> closed r !! c = None /\ (c < fresh r)%nat;
  ri_closed c err : closed r !! c = Some err -> (c < fresh r)%nat;
  ri_wait t c : threads r !! t = Some (Waiting c) ->
    is_Some (closed r !! c) \/ exists t' sid, threads r !! t' = Some (Leading sid c);
}.

Lemma NewResumer_inv : resumer_inv NewResumer.
Proof.
  split; cbn.
  - intros sid c. rewrite lookup_empty. split; [done|]. intros [t Ht]. by rewrite lookup_empty in Ht.
  - intros t1 t2 s1 s2 c H. by rewrite lookup_empty in H.
  - intros t sid c H. by rewrite lookup_empty in H.
  - intros c err H. by rewrite lookup_empty in H.
  - intros t c H. by rewrite lookup_empty in H.
Qed.

(** A thread that neither drives nor starts to drive changes nothing in the table. *)
Lemma inv_thread r t st :
  resumer_inv r -> (forall sid c, threads r !! t <> Some (Leading sid c)) ->
  (forall sid c, st <> Leading sid c) ->
  (forall c, st = Waiting c -> is_Some (closed r !! c) \/ exists t' sid, threads r !! t' = Some (Leading sid c)) ->
  resumer_inv (MkResumer (calls r) (closed r) (<[t := st]> (threads r)) (fresh r)).
Proof.
  intros [Htab Hlead Hopen Hcl Hwait] Hold Hnew Hst.
  assert (Hiff : forall t' sid c, <[t := st]> (threads r) !! t' = Some (Leading sid c) <-> threads r !! t' = Some (Leading sid c)).
  { intros t' sid c. destruct (decide (t' = t)) as [->|Hne]; [|by rewrite lookup_insert_ne].
    rewrite lookup_insert_eq. split; [intros [= ->]; by destruct (Hnew sid c)|by intros ?%Hold]. }
  split; cbn.
  - intros sid c. rewrite Htab. by setoid_rewrite Hiff.
  - intros t1 t2 s1 s2 c. rewrite !Hiff. apply Hlead.
  - intros t' sid c. rewrite Hiff. apply Hopen.
  - apply Hcl.
  - intros t' c Hw. setoid_rewrite Hiff. destruct (decide (t' = t)) as [->|Hne].
    + rewrite lookup_insert_eq in Hw. apply Hst. congruence.
    + rewrite lookup_insert_ne in Hw by done. by apply (Hwait t').
Qed.

Lemma enter_inv t sid r : resumer_inv r -> threads r !! t = None -> resumer_inv (enter t sid r).
Proof.
  intros Hinv Ht. unfold enter. case_bool_decide as Hs; [apply inv_thread; try done; by rewrite Ht|].
  destruct (calls r !! sid) as [c|] eqn:Hc.
  { apply inv_thread; try done; [by rewrite Ht|]. intros c' [= <-]. right. apply Hinv in Hc as [t' Ht']. eauto. }
  destruct Hinv as [Htab Hlead Hopen Hcl Hwait].
  assert (Hiff : forall t' s c, <[t := Leading sid (fresh r)]> (threads r) !! t' = Some (Leading s c) <->
    (t' = t /\ s = sid /\ c = fresh r) \/ threads r !! t' = Some (Leading s c)).
  { intros t' s c. destruct (decide (t' = t)) as [->|Hne]; [|rewrite lookup_insert_ne by done; naive_solver].
    rewrite lookup_insert_eq, Ht. naive_solver. }
  split; cbn.
  - intros s c. setoid_rewrite Hiff. destruct (decide (s = sid)) as [->|Hne].
    + rewrite lookup_insert_eq. split; [intros [= <-]; exists t; tauto|].
      intros [t' [(_ & _ & ->)|H]]; [done|]. assert (calls r !! sid = Some c) by (apply Htab; eauto). congruence.
    + rewrite lookup_insert_ne by done. rewrite Htab. naive_solver.
  - intros t1 t2 s1 s2 c. rewrite !Hiff. intros [(-> & _ & ->)|H1] [(-> & _ & H2)|H2]; [done| | |eauto].
    + apply Hopen in H2 as [_ H2]. lia.
    + subst c. apply Hopen in H1 as [_ H1]. lia.
  - intros t' s c. rewrite Hiff. intros [(_ & _ & ->)|H]; [|apply Hopen in H as [? ?]; split; [done|lia]].
    split; [|lia]. destruct (closed r !! fresh r) eqn:Hf; [|done]. apply Hcl in Hf. lia.
  - intros c err H%Hcl. lia.
  - intros t' c Hw. setoid_rewrite Hiff. destruct (decide (t' = t)) as [->|Hne].
    + by rewrite lookup_insert_eq in Hw.
    + rewrite lookup_insert_ne in Hw by done. destruct (Hwait t' c Hw) as [?|(t2 & s2 & H2)]; [by left|right; eauto].
Qed.

Lemma finish_inv t sid c err r : resumer_inv r -> threads r !! t = Some (Leading sid c) -> resumer_inv (finish t sid c err r).
Proof.
  intros [Htab Hlead Hopen Hcl Hwait] Ht. unfold finish.
  assert (Hiff : forall t' s c', <[t := Returned err]> (threads r) !! t' = Some (Leading s c') <->
    t' <> t /\ threads r !! t' = Some (Leading s c')).
  { intros t' s c'. destruct (decide (t' = t)) as [->|Hne]; [rewrite lookup_insert_eq|rewrite lookup_insert_ne by done]; naive_solver. }
  assert (Honly : forall t' c', threads r !! t' = Some (Leading sid c') -> t' = t).
  { intros t' c' H'. assert (Hc' : calls r !! sid = Some c') by (apply Htab; eauto).
    assert (Hc : calls r !! sid = Some c) by (apply Htab; eauto). assert (c' = c) as -> by congruence. by eapply Hlead. }
  split; cbn.
  - intros s c'. setoid_rewrite Hiff. destruct (decide (s = sid)) as [->|Hne].
    + rewrite lookup_delete_eq. split; [done|]. intros (t' & Hne & H'). by apply Honly in H'.
    + rewrite lookup_delete_ne by done. rewrite Htab. split; [|naive_solver].
      intros [t' H']. exists t'. split; [|done]. intros ->. congruence.
  - intros t1 t2 s1 s2 c'. rewrite !Hiff. intros [_ H1] [_ H2]. eauto.
  - intros t' s c'. rewrite Hiff. intros [Hne H']. destruct (Hopen _ _ _ H') as [H1 H2]. split; [|done].
    rewrite lookup_insert_ne; [done|]. intros ->. apply Hne. by eapply Hlead.
  - intros c' err'. destruct (decide (c' = c)) as [->|Hne]; [|rewrite lookup_insert_ne by done; apply Hcl].
    intros _. by apply (Hopen t sid).
  - intros t' c' Hw. destruct (decide (c' = c)) as [->|Hne]; [left; rewrite lookup_insert_eq; eauto|].
    rewrite lookup_insert_ne by done. destruct (decide (t' = t)) as [->|Hne']; [by rewrite lookup_insert_eq in Hw|].
    rewrite lookup_insert_ne in Hw by done. destruct (Hwait t' c' Hw) as [?|(t2 & s2 & H2)]; [by left|right].
    exists t2, s2. apply Hiff. split; [|done]. intros ->. congruence.
Qed.

Lemma rstep_inv r r' : rstep r r' -> resumer_inv r -> resumer_inv r'.
Proof.
  intros Hs Hinv. destruct Hs as [t sid r Ht|t sid c err r Ht|t c err r Ht _|t c e r Ht].
  - by apply enter_inv.
  - by apply finish_inv.
  - apply inv_thread; try done. by rewrite Ht.
  - apply inv_thread; try done. by rewrite Ht.
Qed.

Lemma reach_inv r : rtc rstep NewResumer r -> resumer_inv r.
Proof. intros Hr. exact (rtc_preserves _ _ rstep_inv _ _ Hr NewResumer_inv). Qed.

(** ** Single flight *)

(** Single flight: in every reachable state at most one request drives the
    resume of a sandbox, it is the one the table names, and the result of a call
    is set once and never changes. *)
Theorem single_flight r :
  rtc rstep NewResumer r ->
  (forall t1 t2 sid c1 c2, threads r !! t1 = Some (Leading sid c1) -> threads r !! t2 = Some (Leading sid c2) ->
     t1 = t2 /\ calls r !! sid = Some c1) /\
  (forall r' c err, rstep r r' -> closed r !! c = Some err -> closed r' !! c = Some err).
Proof.
  intros Hr%reach_inv. destruct Hr as [Htab Hlead Hopen Hcl Hwait]. split.
  - intros t1 t2 sid c1 c2 H1 H2. assert (Hc1 : calls r !! sid = Some c1) by (apply Htab; eauto).
    assert (Hc2 : calls r !! sid = Some c2) by (apply Htab; eauto). assert (c2 = c1) as -> by congruence. eauto.
  - intros r' c err Hs Hc. destruct Hs as [t sid r Ht|t sid c' err' r Ht|t c' err' r Ht _|t c' e r Ht]; try done.
    + unfold enter. case_match; [done|]. by case_match.
    + cbn. rewrite lookup_insert_ne; [done|]. intros ->. apply Hopen in Ht as [Ht _]. congruence.
Qed.

(** A request that waits for another's resume is never stranded and never
    sees a different outcome: either the call it waits on is closed and it can
    return its result at once, or the request driving that call is still there,
    and when it finishes, with whatever result, both return that same result. *)
Theorem waiting_shares_result r w c :
  rtc rstep NewResumer r -> threads r !! w = Some (Waiting c) ->
  (exists err, closed r !! c = Some err /\ rstep r (leave w err r)) \/
  (exists t sid, threads r !! t = Some (Leading sid c) /\ forall err,
     rstep r (finish t sid c err r) /\ rstep (finish t sid c err r) (leave w err (finish t sid c err r)) /\
     threads (leave w err (finish t sid c err r)) !! w = Some (Returned err) /\
     threads (leave w err (finish t sid c err r)) !! t = Some (Returned err)).
Proof.
  intros Hr%reach_inv Hw. destruct (ri_wait r Hr w c Hw) as [[err Herr]|(t & sid & Ht)].
  - left. exists err. split; [done|]. by eapply step_wake.
  - right. exists t, sid. split; [done|]. intros err.
    assert (Hne : t <> w) by (intros ->; congruence). split; [by apply step_finish|]. cbn. split_and!.
    + eapply step_wake; cbn; [by rewrite lookup_insert_ne|by rewrite lookup_insert_eq].
    + by rewrite lookup_insert_eq.
    + by rewrite lookup_insert_ne, lookup_insert_eq.
Qed.

(** Two requests for one sandbox. *)
Definition demo_resumer : Resumer := enter 1 "s1" (enter 0 "s1" NewResumer).

Lemma demo_resumer_reach : rtc rstep NewResumer demo_resumer.
Proof.
  eapply rtc_l; [by apply (step_enter 0%nat "s1")|]. eapply rtc_l; [|apply rtc_refl]. by apply (step_enter 1%nat "s1").
Qed.

Lemma single_flight_witness : 0%nat = 0%nat /\ calls demo_resumer !! "s1" = Some 0%nat.
Proof.
  apply (proj1 (single_flight demo_resumer demo_resumer_reach) 0%nat 0%nat "s1" 0%nat 0%nat); reflexivity.
Defined.

Lemma waiting_shares_result_witness :
  exists t sid, threads demo_resumer !! t = Some (Leading sid 0%nat).
Proof.
  destruct (waiting_shares_result demo_resumer 1%nat 0%nat demo_resumer_reach eq_refl) as [(err & H & _)|(t & sid & H & _)].
  - discriminate H.
  - exists t, sid. exact H.
Defined.
