(* ===== verification/MasterConfig.v ===== *)
(** * Scheduler configuration of CubeMaster
    (CubeMaster/pkg/base/config/config.go)

    The part of the configuration file that placement reads, the defaults
    [preHandleScheduler] fills in, and the getters that derive capacities from
    it.  A [nil] map and an empty one behave alike for every getter here, so maps
    are total; pointers that may be [nil] are options.  [resource.Quantity]
    belongs to the Kubernetes library and is a parameter. *)
From S2P Require Import Prelude GoStrings GoValue.
From Stdlib Require Import Floats.SpecFloat.

Open Scope string_scope.
Open Scope Z_scope.

(** ** Quantities *)

(** What the code uses of [resource.Quantity]: parsing, comparison, the value in
    units and in thousandths. *)
Class QuantityOps (Q : Type) : Type := {
  ParseQuantity : string -> option Q;
  q_zero : Q;
  q_IsZero : Q -> bool;
  q_Cmp : Q -> Q -> comparison;
  q_MilliValue : Q -> Z;
  q_Value : Q -> Z;
}.

(** ** More of float64 *)

Definition f64_one : float64 := f64_of_Z 1.
Definition f64_is_nan (f : float64) : bool := match f with S754_nan => true | _ => false end.
Definition f64_is_inf (f : float64) : bool := match f with S754_infinity _ => true | _ => false end.

(** [math.Ceil]: numbers without a fraction are kept, and so is the sign of a zero. *)
Definition f64_ceil (f : float64) : float64 :=
  match f with
  | S754_finite s m e =>
      if 0 <=? e then f
      else binary_normalize 53 1024 (- ((if s then Z.pos m else - Z.pos m) / 2 ^ (- e))) 0 s
  | _ => f
  end.

(** ** Overcommit ratios *)

Record OvercommitRatioConf : Type := MkRatio { CPURatio : float64; MemRatio : float64 }.

Definition defaultCPUOvercommitRatio : float64 := f64_of_Z 3.
Definition defaultMemOvercommitRatio : float64 := f64_of_Z 2.

Definition isValidRatio (r : float64) : bool :=
  if f64_is_nan r || f64_is_inf r then false else f64_lt f64_zero r.

Definition sanitized (c : OvercommitRatioConf) : OvercommitRatioConf :=
  MkRatio (if isValidRatio (CPURatio c) then CPURatio c else defaultCPUOvercommitRatio)
    (if isValidRatio (MemRatio c) then MemRatio c else defaultMemOvercommitRatio).

(** ** The configuration *)

Record OverheadConf : Type := MkOverhead {
  VmMemoryOverheadBase : string; VmMemoryOverheadCoefficient : Z; HostMemoryOverheadBase : string;
  CubeMsgMemoryOverhead : string; VmCpuOverhead : string; HostCpuOverhead : string;
}.

Record NodeMaxMvmNumConf : Type := MkMvm { MvmNumConf : Z; MvmNumReserveNumPercent : float64 }.
Record NodeMaxMemReservedConf : Type := MkMemReserved { MaxMemReservedInMB : Z; MaxMemReservedInMBPercent : float64 }.

Record LargeSizeAffinityConf : Type := MkLarge {
  large_Enable : bool; MemoryLowerWaterMark : string; CpuLowerWaterMark : string;
  large_Operator : string; large_ClusterLabels : gset string;
}.

Record PostScoreConf : Type := MkPost {
  post_Disable : bool; ParamFactor : float64; post_ResourceWeights : gmap string float64;
  ActiveWhiteList : list string; ActiveWhiteListMap : gset string;
  NegativeWhiteList : list string; NegativeWhiteListMap : gset string;
}.

(** A score plugin's block: its weight, its factors, whether it is switched off. *)
Record PluginConf : Type := MkPlugin { pl_Weight : float64; pl_Factors : list string; pl_Disable : bool }.

Record SchedulerScoreConf : Type := MkScoreConf {
  EnableScorers : list string;
  score_ResourceWeights : option (gmap string float64);
  MultiFactorWeightedAverage : option PluginConf; ScoreInterval : Z;
  RealTimeWeightedAverage : option PluginConf;
  AffinityScore : option PluginConf;
  ImageScore : option PluginConf;
}.

Record SchedulerConf (Q : Type) : Type := MkSched {
  Overhead : option OverheadConf;
  NodeMaxMvmNum : Z; NodeMaxMvmNumReserveNumPercent : float64; NodeMaxMemReservedInMB : Z;
  NodeMaxCpuUtil : float64;
  PreSelectNum : Z; PrioritySelectNum : Z; LeastSelectName : string;
  MetricUpdateTimeout : Z; LocalMetricUpdateTimeout : Z;
  EnableFilters : list string;
  Score_ : option SchedulerScoreConf; PostScore : option PostScoreConf;
  DisableCircuitFilter : bool;
  NodeMaxMvmNumConf_ : gmap string NodeMaxMvmNumConf;
  MaxMvmCPU : string; maxCpu : Q; MaxMvmMemory : string; maxMem : Q;
  DiskUsageMaxPercent : float64;
  LargeSizeAffinityConf_ : gmap string LargeSizeAffinityConf;
  NodeMaxMemReservedConf_ : gmap string NodeMaxMemReservedConf;
  DisableBackoffFilterInstanceType : gset string;
  ThirtpartyFilterInstanceType : gset string;
  InstanceTypeConf : gmap string (gset string);
  NodeAffinitySelectorAllowedKeys : list string;
  IgnoreRedisAllocation : option bool;
  OvercommitRatio : option OvercommitRatioConf;
  OvercommitRatioByType : gmap string OvercommitRatioConf;
  labelRefInstanceTypeMap : gmap string string;
}.
Arguments MkSched {Q}.
Arguments Overhead {Q}. Arguments NodeMaxMvmNum {Q}. Arguments NodeMaxMvmNumReserveNumPercent {Q}.
Arguments NodeMaxMemReservedInMB {Q}. Arguments NodeMaxCpuUtil {Q}. Arguments PreSelectNum {Q}.
Arguments PrioritySelectNum {Q}. Arguments LeastSelectName {Q}. Arguments MetricUpdateTimeout {Q}.
Arguments LocalMetricUpdateTimeout {Q}. Arguments EnableFilters {Q}. Arguments Score_ {Q}. Arguments PostScore {Q}.
Arguments DisableCircuitFilter {Q}. Arguments NodeMaxMvmNumConf_ {Q}. Arguments MaxMvmCPU {Q}. Arguments maxCpu {Q}.
Arguments MaxMvmMemory {Q}. Arguments maxMem {Q}. Arguments DiskUsageMaxPercent {Q}.
Arguments LargeSizeAffinityConf_ {Q}. Arguments NodeMaxMemReservedConf_ {Q}.
Arguments DisableBackoffFilterInstanceType {Q}. Arguments ThirtpartyFilterInstanceType {Q}.
Arguments InstanceTypeConf {Q}. Arguments NodeAffinitySelectorAllowedKeys {Q}. Arguments IgnoreRedisAllocation {Q}.
Arguments OvercommitRatio {Q}. Arguments OvercommitRatioByType {Q}. Arguments labelRefInstanceTypeMap {Q}.

(** ** Reserved labels *)

Definition reservedLabelNamespaces : list string :=
  ["kubernetes.io"; "beta.kubernetes.io"; "cube.cloud.tencentcloud.com"].

Definition IsReservedLabelKey (k : string) : bool :=
  let ns := match Cut k "/" with Some (prefix, _) => prefix | None => k end in
  existsb (fun reserved => (ns =s reserved) || HasSuffix ns ("." +:+ reserved)) reservedLabelNamespaces.

Definition AffinityKeyCPUType : string := "kubernetes.io/cpu-type".
Definition AffinityKeyZone : string := "topology.kubernetes.io/zone".
Definition AffinityKeyClusterID : string := "topology.kubernetes.io/cluster-id".
Definition AffinityKeyMemorySize : string := "kubernetes.io/memory-size".
Definition AffinityKeyCPUCores : string := "kubernetes.io/cpu-cores".
Definition AffinityKeyInstanceType : string := "kubernetes.io/instance-type".

Definition defaultNodeAffinitySelectorAllowedKeys : list string :=
  [AffinityKeyZone; AffinityKeyClusterID; AffinityKeyCPUType; AffinityKeyMemorySize; AffinityKeyCPUCores;
   AffinityKeyInstanceType].

Definition NodeAffinitySelectorAllowedKeySet {Q} (s : SchedulerConf Q) : gset string :=
  list_to_set (defaultNodeAffinitySelectorAllowedKeys ++ NodeAffinitySelectorAllowedKeys s).

Section Conf.
Context {Q : Type} `{!QuantityOps Q} `{!GoRuntime}.
Implicit Types s : SchedulerConf Q.

(** ** Capacities *)

Definition GetEffectiveOvercommitRatio s (instanceType : string) : OvercommitRatioConf :=
  match OvercommitRatioByType s !! instanceType with
  | Some v => sanitized v
  | None =>
      match OvercommitRatio s with
      | Some r => sanitized r
      | None => MkRatio defaultCPUOvercommitRatio defaultMemOvercommitRatio
      end
  end.

Definition ShouldIgnoreRedisAllocation s : bool := default false (IgnoreRedisAllocation s).

Definition floatToInt64Clamped (f : float64) : Z :=
  if f64_is_nan f then 0
  else if f64_le (f64_of_Z int_max) f then int_max
  else if f64_le f (f64_of_Z int_min) then int_min
  else f64_to_int f.

Definition EffectiveQuotaCpu s (instanceType : string) (quotaCpu : Z) : Z :=
  floatToInt64Clamped (f64_mul (f64_of_Z quotaCpu) (CPURatio (GetEffectiveOvercommitRatio s instanceType))).

Definition EffectiveQuotaMem s (instanceType : string) (quotaMem : Z) : Z :=
  floatToInt64Clamped (f64_mul (f64_of_Z quotaMem) (MemRatio (GetEffectiveOvercommitRatio s instanceType))).

Definition EffectiveAllocated s (usage : Z) : Z := if ShouldIgnoreRedisAllocation s then 0 else usage.

Definition GetNodeMaxMvmNumConf s (instanceType : string) : NodeMaxMvmNumConf :=
  default (MkMvm (NodeMaxMvmNum s) (NodeMaxMvmNumReserveNumPercent s)) (NodeMaxMvmNumConf_ s !! instanceType).

Definition GetNodeMaxMemReservedConf s (instanceType : string) : NodeMaxMemReservedConf :=
  default (MkMemReserved (NodeMaxMemReservedInMB s) f64_zero) (NodeMaxMemReservedConf_ s !! instanceType).

(** The literal [0.1]. *)
Definition f64_tenth : float64 := f64_div f64_one (f64_of_Z 10).

Definition GetEffectiveNodeMaxMemReservedInMB s (instanceType : string) (quotaMemMB : Z) : Z :=
  let conf := GetNodeMaxMemReservedConf s instanceType in
  let r := MaxMemReservedInMB conf in
  let r := if (r <=? 0) && f64_lt f64_zero (MaxMemReservedInMBPercent conf) && (0 <? quotaMemMB)
           then f64_to_int (f64_ceil (f64_mul (f64_of_Z quotaMemMB) (MaxMemReservedInMBPercent conf))) else r in
  let r := if r <=? 0 then NodeMaxMemReservedInMB s else r in
  let r := if (0 <? quotaMemMB) && (quotaMemMB <=? r)
           then f64_to_int (f64_ceil (f64_mul (f64_of_Z quotaMemMB) f64_tenth)) else r in
  if r <? 0 then 0 else r.

(** ** Defaults *)

Definition or_string (s d : string) : string := if s =s "" then d else s.
Definition or_Z (z d : Z) : Z := if z =? 0 then d else z.
Definition or_f64 (f d : float64) : float64 := if f64_eq f f64_zero then d else f.

Definition preHandOverhead (o : option OverheadConf) : OverheadConf :=
  let o := default (MkOverhead "" 0 "" "" "" "") o in
  MkOverhead (or_string (VmMemoryOverheadBase o) "42Mi") (or_Z (VmMemoryOverheadCoefficient o) 64)
    (or_string (HostMemoryOverheadBase o) "24Mi") (or_string (CubeMsgMemoryOverhead o) "16Mi")
    (or_string (VmCpuOverhead o) "0") (or_string (HostCpuOverhead o) "0.3").

Definition hour : Z := 60 * minute.

(** [preHandSchedulerScore]; [interval] is [Common.SyncMetricDataInterval]. *)
Definition prehandle_score (interval : Z) (c : SchedulerScoreConf) : SchedulerScoreConf :=
  MkScoreConf (EnableScorers c) (score_ResourceWeights c) (MultiFactorWeightedAverage c)
    (match MultiFactorWeightedAverage c with Some _ => or_Z (ScoreInterval c) interval | None => ScoreInterval c end)
    (RealTimeWeightedAverage c) (AffinityScore c) (ImageScore c).

Definition prehandle_post (c : PostScoreConf) : PostScoreConf :=
  MkPost (post_Disable c) (or_f64 (ParamFactor c) (f64_div (f64_of_Z 15) (f64_of_Z 1000))) (post_ResourceWeights c)
    (ActiveWhiteList c) (list_to_set (ActiveWhiteList c)) (NegativeWhiteList c) (list_to_set (NegativeWhiteList c)).

(** The label map and the test for labels two products share; Go's iteration
    order over a map is arbitrary, the model takes the one of [map_to_list]. *)
Definition label_pairs (conf : gmap string (gset string)) : list (string * string) :=
  map_to_list conf ≫= fun '(product, labels) => (fun l => (l, product)) <$> elements labels.

Definition checkInstanceTypeLabelValid (conf : gmap string (gset string)) : res (gmap string string) :=
  let pairs := label_pairs conf in
  match filter (fun l => (1 < length (filter (fun p => p.1 = l) pairs))%nat) pairs.*1 with
  | [] => Ok (foldl (fun m p => <[p.1 := p.2]> m) ∅ pairs)
  | label :: _ => Err ("label " +:+ label +:+ " is used by multiple product types")
  end.

(** [resource.MustParse] panics on a text that is not a quantity. *)
Definition MustParse (t : string) : res Q :=
  match ParseQuantity t with Some q => Ok q | None => Err ("cannot parse '" +:+ t +:+ "'") end.

(** The loop over [LargeSizeAffinityConf] assigns to a copy of each entry, so it
    leaves the configuration as it is; [large_entry] is what the copy becomes. *)
Definition large_entry (v : LargeSizeAffinityConf) : LargeSizeAffinityConf :=
  let bad t := (t <>s "") && bool_decide (ParseQuantity (Q:=Q) t = None) in
  if negb (large_Enable v) then v
  else if negb (bool_decide (large_Operator v ∈ ["Gt"; "Lt"])) || bad (MemoryLowerWaterMark v) || bad (CpuLowerWaterMark v)
  then MkLarge false (MemoryLowerWaterMark v) (CpuLowerWaterMark v) (large_Operator v) (large_ClusterLabels v)
  else v.

Definition preHandleScheduler (interval : Z) s : res (SchedulerConf Q) :=
  let! cpu := MustParse (or_string (MaxMvmCPU s) "100") in
  let! mem := MustParse (or_string (MaxMvmMemory s) "300Gi") in
  let! labels := checkInstanceTypeLabelValid (InstanceTypeConf s) in
  Ok (MkSched (Some (preHandOverhead (Overhead s)))
        (or_Z (NodeMaxMvmNum s) 3000) (or_f64 (NodeMaxMvmNumReserveNumPercent s) f64_one)
        (or_Z (NodeMaxMemReservedInMB s) 10240) (or_f64 (NodeMaxCpuUtil s) (f64_of_Z 80))
        (or_Z (PreSelectNum s) (-1)) (or_Z (PrioritySelectNum s) (-1)) (or_string (LeastSelectName s) "random")
        (or_Z (MetricUpdateTimeout s) hour) (or_Z (LocalMetricUpdateTimeout s) hour)
        (EnableFilters s) (prehandle_score interval <$> Score_ s) (prehandle_post <$> PostScore s)
        (DisableCircuitFilter s) (NodeMaxMvmNumConf_ s)
        (MaxMvmCPU s) cpu (MaxMvmMemory s) mem
        (or_f64 (DiskUsageMaxPercent s) (f64_of_Z 80))
        (LargeSizeAffinityConf_ s) (NodeMaxMemReservedConf_ s)
        (DisableBackoffFilterInstanceType s) (ThirtpartyFilterInstanceType s) (InstanceTypeConf s)
        (NodeAffinitySelectorAllowedKeys s)
        (Some (default false (IgnoreRedisAllocation s)))
        (Some (from_option sanitized (MkRatio defaultCPUOvercommitRatio defaultMemOvercommitRatio) (OvercommitRatio s)))
        (sanitized <$> OvercommitRatioByType s)
        labels).

Definition GetInstanceTypeOfClusterLabel s (label : string) : string := default "" (labelRefInstanceTypeMap s !! label).

Definition GetSchedulerInstanceTypeConfs s : list string := elements (dom (InstanceTypeConf s)).

End Conf.

(** ** Conversions *)

(** A float the processor can hold: mantissa and exponent as IEEE 754 has them. *)
Definition f64_valid (f : float64) : Prop := valid_binary 53 1024 f = true.

Lemma digits2_pos_bounds m : 2 ^ (Z.pos (digits2_pos m) - 1) <= Z.pos m < 2 ^ Z.pos (digits2_pos m).
Proof.
  induction m as [m IH|m IH|]; simpl digits2_pos; [| |done];
    rewrite Pos2Z.inj_succ; (replace (Z.succ _ - 1) with (Z.succ (Z.pos (digits2_pos m) - 1)) by lia);
    rewrite !Z.pow_succ_r by lia; lia.
Qed.

Lemma valid_finite s m e : f64_valid (S754_finite s m e) ->
  -1074 <= e <= 971 /\ Z.pos m < 2 ^ 53 /\ (-1074 < e -> 2 ^ 52 <= Z.pos m).
Proof.
  unfold f64_valid, valid_binary, bounded, canonical_mantissa, fexp, SpecFloat.emin. intros [Hc He]%andb_prop.
  apply Z.leb_le in He. apply Zeq_bool_eq in Hc. pose proof (digits2_pos_bounds m) as [Hlo Hhi].
  split; [lia|]. split.
  - eapply Z.lt_le_trans; [exact Hhi|]. apply Z.pow_le_mono_r; lia.
  - intros Hlt. assert (Z.pos (digits2_pos m) = 53) as Hd by lia. rewrite Hd in Hlo. exact Hlo.
Qed.

(** Comparing with a bound that starts a new exponent. *)
Lemma SFleb_bound c k s m e : (e = k -> (c <= m)%positive) ->
  SFleb (S754_finite false c k) (S754_finite s m e) = negb s && (k <=? e) /\
  SFleb (S754_finite s m e) (S754_finite true c k) = s && (k <=? e).
Proof.
  intros Hm. unfold SFleb, SFcompare.
  destruct (Z.leb_spec k e) as [He|He]; destruct s; cbn [negb andb]; split; try reflexivity.
  - destruct (Z.compare_spec e k) as [E|E|E]; [|lia|reflexivity]. specialize (Hm E).
    change (Pos.compare_cont Eq m c) with (m ?= c)%positive. destruct (Pos.compare_spec m c); [reflexivity|lia|reflexivity].
  - destruct (Z.compare_spec k e) as [E|E|E]; [|reflexivity|lia]. specialize (Hm (eq_sym E)).
    change (Pos.compare_cont Eq c m) with (c ?= m)%positive. destruct (Pos.compare_spec c m); [reflexivity|reflexivity|lia].
  - rewrite (proj2 (Z.compare_lt_iff e k) He). reflexivity.
  - rewrite (proj2 (Z.compare_gt_iff k e) He). reflexivity.
Qed.

(** Where the two comparisons of [floatToInt64Clamped] cut. *)
Lemma f64_le_2_63 s m e : f64_valid (S754_finite s m e) ->
  f64_le (f64_of_Z int_max) (S754_finite s m e) = negb s && (11 <=? e) /\
  f64_le (S754_finite s m e) (f64_of_Z int_min) = s && (11 <=? e).
Proof.
  intros (_ & _ & Hlo)%valid_finite. apply (SFleb_bound 4503599627370496 11).
  intros ->. specialize (Hlo ltac:(lia)). change (2 ^ 52) with 4503599627370496 in Hlo. lia.
Qed.

Lemma f64_trunc_range s m e : f64_valid (S754_finite s m e) ->
  (e < 11 -> - 2 ^ 63 < f64_trunc s m e < 2 ^ 63) /\
  (11 <= e -> 2 ^ 63 <= (if s then - f64_trunc s m e else f64_trunc s m e)).
Proof.
  intros (_ & Hhi & Hlo)%valid_finite. unfold f64_trunc. split; intros He.
  - assert (0 <= (if 0 <=? e then Z.pos m * 2 ^ e else Z.pos m / 2 ^ (- e)) < 2 ^ 63).
    { destruct (Z.leb_spec 0 e).
      - assert (2 ^ e <= 2 ^ 10) by (apply Z.pow_le_mono_r; lia). nia.
      - assert (1 <= 2 ^ (- e)) by (apply (Z.pow_le_mono_r 2 0); lia). split; [apply Z.div_pos; lia|].
        apply Z.div_lt_upper_bound; nia. }
    destruct s; lia.
  - replace (0 <=? e) with true by (symmetry; apply Z.leb_le; lia).
    assert (2 ^ 11 <= 2 ^ e) by (apply Z.pow_le_mono_r; lia). specialize (Hlo ltac:(lia)). destruct s; nia.
Qed.

(** The conversion never depends on what the platform makes of a number out of
    range: NaN gives 0, the infinities give the bounds, every other float its
    integer part, limited to the bounds of [int64]. *)
Theorem floatToInt64Clamped_spec `{!GoRuntime} f : f64_valid f ->
  floatToInt64Clamped f =
    match f with
    | S754_nan | S754_zero _ => 0
    | S754_infinity s => if s then int_min else int_max
    | S754_finite s m e => Z.max int_min (Z.min int_max (f64_trunc s m e))
    end.
Proof.
  intros Hv. unfold floatToInt64Clamped. destruct f as [s|s| |s m e]; [by destruct s|by destruct s|done|].
  cbn [f64_is_nan]. destruct (f64_le_2_63 s m e Hv) as [-> ->]. destruct (f64_trunc_range s m e Hv) as [Hlo Hhi].
  unfold f64_to_int, int_min, int_max in *.
  destruct (Z.leb_spec 11 e) as [He|He].
  - specialize (Hhi He). destruct s; cbn [negb andb]; lia.
  - specialize (Hlo He). destruct s; cbn [negb andb];
      (replace (_ && _) with true by (symmetry; apply andb_true_intro; split; apply Z.leb_le; lia)); lia.
Qed.

Lemma floatToInt64Clamped_spec_witness :
  @floatToInt64Clamped demo_runtime (f64_mul (f64_of_Z (2 ^ 62)) (f64_of_Z 3)) = int_max.
Proof. by rewrite floatToInt64Clamped_spec by done. Defined.

(** ** Ratios *)

Lemma sanitized_valid c : isValidRatio (CPURatio (sanitized c)) = true /\ isValidRatio (MemRatio (sanitized c)) = true.
Proof.
  unfold sanitized. cbn [CPURatio MemRatio]. split.
  - destruct (isValidRatio (CPURatio c)) eqn:E; [exact E|reflexivity].
  - destruct (isValidRatio (MemRatio c)) eqn:E; [exact E|reflexivity].
Qed.

Lemma sanitized_id c : isValidRatio (CPURatio c) = true -> isValidRatio (MemRatio c) = true -> sanitized c = c.
Proof. unfold sanitized. intros -> ->. by destruct c. Qed.

Lemma sanitized_idemp c : sanitized (sanitized c) = sanitized c.
Proof. destruct (sanitized_valid c). by apply sanitized_id. Qed.

Lemma preHandleScheduler_ok {Q} `{!QuantityOps Q} i (s s' : SchedulerConf Q) : preHandleScheduler i s = Ok s' ->
  OvercommitRatioByType s' = sanitized <$> OvercommitRatioByType s /\
  OvercommitRatio s' =
    Some (from_option sanitized (MkRatio defaultCPUOvercommitRatio defaultMemOvercommitRatio) (OvercommitRatio s)) /\
  LargeSizeAffinityConf_ s' = LargeSizeAffinityConf_ s /\
  InstanceTypeConf s' = InstanceTypeConf s /\
  checkInstanceTypeLabelValid (InstanceTypeConf s) = Ok (labelRefInstanceTypeMap s') /\
  (PrioritySelectNum s' <> 0 /\ NodeMaxMvmNum s' <> 0).
Proof.
  unfold preHandleScheduler. intros (cpu & _ & (mem & _ & (labels & Hl & [= <-])%rbind_ok)%rbind_ok)%rbind_ok.
  repeat split; try done; cbn; unfold or_Z; case_match; lia.
Qed.

(** The ratios are sane once the configuration is loaded: for every instance type
    both are finite and positive, they are those the loaded file asks for (its
    invalid ones replaced by the defaults), and the sanitizing of every later
    read changes nothing. *)
Theorem ratios_sane_after_load {Q} `{!QuantityOps Q} i (s s' : SchedulerConf Q) t : preHandleScheduler i s = Ok s' ->
  GetEffectiveOvercommitRatio s' t = GetEffectiveOvercommitRatio s t /\
  isValidRatio (CPURatio (GetEffectiveOvercommitRatio s' t)) = true /\
  isValidRatio (MemRatio (GetEffectiveOvercommitRatio s' t)) = true /\
  (forall r, OvercommitRatioByType s' !! t = Some r -> GetEffectiveOvercommitRatio s' t = r) /\
  (OvercommitRatioByType s' !! t = None -> OvercommitRatio s' = Some (GetEffectiveOvercommitRatio s' t)).
Proof.
  intros (Ht & Hg & _)%preHandleScheduler_ok.
  assert (GetEffectiveOvercommitRatio s' t = GetEffectiveOvercommitRatio s t) as Heq.
  { unfold GetEffectiveOvercommitRatio. rewrite Ht, lookup_fmap, Hg.
    destruct (OvercommitRatioByType s !! t), (OvercommitRatio s); cbn; by rewrite ?sanitized_idemp. }
  assert (exists c, GetEffectiveOvercommitRatio s' t = sanitized c) as [c Hc].
  { unfold GetEffectiveOvercommitRatio. rewrite Hg. destruct (OvercommitRatioByType s' !! t); eauto. }
  split; [done|]. rewrite Hc. destruct (sanitized_valid c). do 2 (split; [done|]). rewrite <- Hc.
  unfold GetEffectiveOvercommitRatio. rewrite Ht, lookup_fmap, Hg.
  split; destruct (OvercommitRatioByType s !! t); cbn; try done.
  - intros r [= <-]. apply sanitized_idemp.
  - intros _. f_equal. destruct (OvercommitRatio s); cbn; [by rewrite sanitized_idemp|done].
Qed.

(** ** Labels *)

Lemma elem_of_label_pairs conf l p : (l, p) ∈ label_pairs conf <-> exists ls, conf !! p = Some ls /\ l ∈ ls.
Proof.
  unfold label_pairs. rewrite list_elem_of_bind. split.
  - intros ([p' ls] & Hl & Hp). apply elem_of_map_to_list in Hp. cbn in Hl.
    apply list_elem_of_fmap in Hl as (l' & [= -> ->] & Hl). exists ls. split; [done|]. by apply elem_of_elements.
  - intros (ls & Hp & Hl). exists (p, ls). split; [|by apply elem_of_map_to_list].
    apply list_elem_of_fmap. exists l. split; [done|]. by apply elem_of_elements.
Qed.

Lemma NoDup_label_pairs conf : NoDup (label_pairs conf).
Proof.
  apply NoDup_bind.
  - intros [p ls] [p' ls'] [l q] Hp Hp' Hl Hl'. apply elem_of_map_to_list in Hp, Hp'. cbn in Hl, Hl'.
    apply list_elem_of_fmap in Hl as (? & [= -> ->] & _), Hl' as (? & [= -> ->] & _). congruence.
  - intros [p ls] _. apply (NoDup_fmap_2_strong _ _); [by intros ???? [= ->]|apply NoDup_elements].
  - apply NoDup_map_to_list.
Qed.

(** Pairs whose first component occurs once each have distinct first components. *)
Lemma NoDup_fst_once (l : list (string * string)) :
  Forall (fun k => ~ (1 < length (filter (fun p => p.1 = k) l))%nat) l.*1 -> NoDup l.*1.
Proof.
  induction l as [|[k v] l IH]; intros HF; [constructor|]. cbn [fmap list_fmap] in *.
  apply Forall_cons in HF as [Hk HF]. constructor.
  - intros ([k' v'] & Heq & Hin)%list_elem_of_fmap. cbn in Heq. subst k'. apply Hk.
    rewrite filter_cons_True by done.
    assert ((k, v') ∈ filter (fun p : string * string => p.1 = k) l) as Hf by by apply list_elem_of_filter.
    cbn. destruct (filter _ l); [by apply not_elem_of_nil in Hf|cbn; lia].
  - apply IH. eapply Forall_impl; [exact HF|]. intros k' Hn Hlt. apply Hn. rewrite filter_cons.
    case_decide; [|done]. cbn [length]. lia.
Qed.

Lemma filter_two (k : string) (l : list (string * string)) : NoDup l ->
  (1 < length (filter (fun p => p.1 = k) l))%nat ->
  exists v1 v2, v1 <> v2 /\ (k, v1) ∈ l /\ (k, v2) ∈ l.
Proof.
  intros Hnd Hlen. pose proof (NoDup_filter (fun p => p.1 = k) l Hnd) as Hf.
  assert (forall x, x ∈ filter (fun p : string * string => p.1 = k) l -> x.1 = k /\ x ∈ l) as Hin
    by (intros x Hx; by apply list_elem_of_filter in Hx).
  destruct (filter _ l) as [|[k1 v1] [|[k2 v2] l']]; [cbn in Hlen; lia..|].
  destruct (Hin (k1, v1)) as [Hk1 ?]; [by left|]. destruct (Hin (k2, v2)) as [Hk2 ?]; [by right; left|]. cbn in Hk1, Hk2. subst.
  exists v1, v2. split; [|done]. intros ->. apply NoDup_cons in Hf as [Hn _]. by apply Hn; left.
Qed.

(** A configuration is accepted exactly when no label belongs to two products,
    and then the label map is the inverse of the products' label lists: a label
    leads to the product that lists it and to no other. *)
Theorem label_map_spec (conf : gmap string (gset string)) :
  match checkInstanceTypeLabelValid conf with
  | Ok m => forall l p, m !! l = Some p <-> exists ls, conf !! p = Some ls /\ l ∈ ls
  | Err _ => exists l p1 p2 ls1 ls2, p1 <> p2 /\ conf !! p1 = Some ls1 /\ l ∈ ls1 /\ conf !! p2 = Some ls2 /\ l ∈ ls2
  end.
Proof.
  unfold checkInstanceTypeLabelValid.
  destruct (filter _ (label_pairs conf).*1) as [|l rest] eqn:Ef.
  - intros l p. rewrite <- elem_of_label_pairs.
    assert (NoDup (label_pairs conf).*1) as Hnd.
    { apply NoDup_fst_once, Forall_forall. intros k Hk Hlt.
      assert (k ∈ @nil string) as []%not_elem_of_nil. rewrite <- Ef. by apply list_elem_of_filter. }
    destruct (foldl_insert_lookup fst snd (label_pairs conf) ∅ Hnd) as [Hin Hout]. split.
    + intros Hm. destruct (decide (l ∈ (label_pairs conf).*1)) as [([l' p'] & -> & Hl)%list_elem_of_fmap|Hl].
      * pose proof (Hin _ Hl) as E. cbn in *. rewrite Hm in E. by injection E as ->.
      * rewrite Hout in Hm by done. by rewrite lookup_empty in Hm.
    + intros Hl. exact (Hin _ Hl).
  - assert (l ∈ (filter (fun l => (1 < length (filter (fun p => p.1 = l) (label_pairs conf)))%nat) (label_pairs conf).*1))
      as [Hlt _]%list_elem_of_filter by (rewrite Ef; by left).
    destruct (filter_two l _ (NoDup_label_pairs conf) Hlt) as (p1 & p2 & Hne & H1 & H2).
    apply elem_of_label_pairs in H1 as (ls1 & ? & ?), H2 as (ls2 & ? & ?). by exists l, p1, p2, ls1, ls2.
Qed.

(** ** Two configurations that behave unexpectedly *)

(** Numbers as quantities: enough to run the getters on. *)
Definition demo_quantity : QuantityOps Z :=
  {| ParseQuantity := fun t => if bool_decide (t ∈ ["?"; ""]) then None else Some (Z.of_nat (String.length t));
     q_zero := 0; q_IsZero := Z.eqb 0; q_Cmp := Z.compare; q_MilliValue := Z.mul 1000; q_Value := fun z => z |}.

Definition demo_sched : SchedulerConf Z :=
  MkSched None 0 f64_zero 0 f64_zero 0 0 "" 0 0 [] None None false ∅ "" 0 "" 0 f64_zero
    {[ "svc" := MkLarge true "?" "" "Eq" ∅ ]} ∅ ∅ ∅ {[ "box" := {[ "l1"; "l2" ]} ]} [] None
    (Some (MkRatio S754_nan f64_one)) {[ "gpu" := MkRatio f64_one (S754_infinity false) ]} ∅.

(** Defect: an enabled large-size rule with an unknown operator or a water mark
    that is no quantity is reported on the console and stays enabled, because the
    loop that switches it off works on a copy of the entry. *)
Theorem large_size_rule_stays_enabled {Q} `{!QuantityOps Q} i (s s' : SchedulerConf Q) svc v :
  preHandleScheduler i s = Ok s' -> LargeSizeAffinityConf_ s !! svc = Some v -> large_Enable v = true ->
  large_Operator v ∉ ["Gt"; "Lt"] ->
  large_Enable (large_entry (Q:=Q) v) = false /\ LargeSizeAffinityConf_ s' !! svc = Some v.
Proof.
  intros (_ & _ & -> & _)%preHandleScheduler_ok Hv He Hop. split; [|done].
  unfold large_entry. rewrite He. rewrite (bool_decide_eq_false_2 _ Hop). done.
Qed.

Lemma large_size_rule_stays_enabled_witness :
  exists s', @preHandleScheduler Z demo_quantity 5 demo_sched = Ok s' /\
             large_Enable <$> LargeSizeAffinityConf_ s' !! "svc" = Some true.
Proof.
  eexists. split; [reflexivity|].
  rewrite (proj2 (large_size_rule_stays_enabled (Q:=Z) (QuantityOps0:=demo_quantity) 5 demo_sched _ "svc" (MkLarge true "?" "" "Eq" ∅)
    eq_refl eq_refl eq_refl ltac:(vm_compute; set_solver))). reflexivity.
Defined.

Lemma ratios_sane_after_load_witness :
  exists s', @preHandleScheduler Z demo_quantity 5 demo_sched = Ok s' /\
             GetEffectiveOvercommitRatio s' "gpu" = MkRatio f64_one (f64_of_Z 2) /\
             isValidRatio (CPURatio (GetEffectiveOvercommitRatio s' "box")) = true.
Proof.
  eexists. split; [reflexivity|]. split; [reflexivity|].
  by apply (ratios_sane_after_load (QuantityOps0:=demo_quantity) 5 demo_sched).
Defined.

(** ** Label keys *)

(** Every key the scheduler derives from a node is a reserved one, so no label
    set through the administration API can shadow it; a name that merely ends
    like a reserved namespace is free. *)
Example affinity_keys_reserved :
  forallb IsReservedLabelKey defaultNodeAffinitySelectorAllowedKeys = true /\
  IsReservedLabelKey "mykubernetes.io/zone" = false /\ IsReservedLabelKey "team" = false.
Proof. by vm_compute. Qed.
