(* ===== verification/MasterLabels.v ===== *)
(** * Labels of nodes (CubeMaster/pkg/nodemeta/service.go, validation)

    Keys and values that the administration API accepts: Kubernetes' conventions,
    checked with two regular expressions and tests of length.  The expressions are
    the ones of the source; the theorems say which texts they and the functions
    around them accept. *)
From Stdlib Require Import Ascii.
From S2P Require Import Prelude GoStrings GoRegexp MasterConfig.

Open Scope string_scope.
Open Scope Z_scope.

Definition qualifiedNameMaxLength : Z := 63.
Definition dns1123SubdomainMaxLength : Z := 253.
Definition maxLabelsPerNode : Z := 64.

(** The classes [A-Za-z0-9], [-A-Za-z0-9_.], [a-z0-9] and [-a-z0-9]. *)
Definition name_char (a : ascii) : bool := is_alnum a || char_in "-_." a.
Definition lower_alnum (a : ascii) : bool := is_digit a || is_lower a.
Definition dns_char (a : ascii) : bool := lower_alnum a || char_in "-" a.

Definition qualifiedNameRegexp : regex :=
  RCat (ROpt (RCat (RChars is_alnum) (RStar (RChars name_char)))) (RChars is_alnum).

(** One segment of a subdomain: [[a-z0-9]([-a-z0-9]*[a-z0-9])?]. *)
Definition dns_segment : regex :=
  RCat (RChars lower_alnum) (ROpt (RCat (RStar (RChars dns_char)) (RChars lower_alnum))).

Definition dns1123SubdomainRegexp : regex := RCat dns_segment (RStar (RCat (RLit "."%char) dns_segment)).

Definition qualifiedNameErrMsg : string :=
  "a qualified name must consist of alphanumeric characters, '-', '_' or '.', and must start and end with an alphanumeric character".
Definition dns1123SubdomainErrMsg : string :=
  "a DNS-1123 subdomain must consist of lower case alphanumeric characters, '-' or '.', and must start and end with an alphanumeric character".

Definition str_len (s : string) : Z := Z.of_nat (String.length s).

(** The two parts of a key: what is wrong with the prefix, and with the name. *)
Definition prefix_errs (prefix : string) : list string :=
  if prefix =s "" then ["prefix part must not be empty"]
  else if dns1123SubdomainMaxLength <? str_len prefix then ["prefix part must be no more than 253 characters"]
  else if negb (MatchString dns1123SubdomainRegexp prefix) then ["prefix part " +:+ dns1123SubdomainErrMsg]
  else [].
Definition name_errs (name : string) : list string :=
  if name =s "" then ["name part must not be empty"]
  else if qualifiedNameMaxLength <? str_len name then ["name part must be no more than 63 characters"]
  else if negb (MatchString qualifiedNameRegexp name) then ["name part " +:+ qualifiedNameErrMsg]
  else [].

Definition isQualifiedLabelKey (key : string) : list string :=
  if key =s "" then ["must not be empty"]
  else if IsReservedLabelKey key then ["is reserved for system use"]
  else
    match Split key "/"%char with
    | [name] => name_errs name
    | [prefix; name] => prefix_errs prefix ++ name_errs name
    | _ => ["must be in the form prefix/name or name (e.g. 'MyName' or 'example.com/MyName')"]
    end.

Definition isValidLabelValue (value : string) : list string :=
  if value =s "" then []
  else (if qualifiedNameMaxLength <? str_len value then ["must be no more than 63 characters"] else []) ++
       (if negb (MatchString qualifiedNameRegexp value) then [qualifiedNameErrMsg] else []).

Section Validate.
Context `{!GoRuntime}.

Definition validateNodeLabelKey (key : string) : res unit :=
  match isQualifiedLabelKey key with
  | [] => Ok tt
  | errs => Err ("label key " +:+ fmt_quote key +:+ " is invalid: " +:+ Join errs ", ")
  end.

(** [kvs] are the labels in the order in which the map yields them. *)
Fixpoint validate_each (kvs : list (string * string)) : res unit :=
  match kvs with
  | [] => Ok tt
  | (k, v) :: kvs =>
      let! _ := validateNodeLabelKey k in
      match isValidLabelValue v with
      | [] => validate_each kvs
      | errs => Err ("label value for key " +:+ fmt_quote k +:+ " is invalid: " +:+ Join errs ", ")
      end
  end.

Definition validateNodeLabels (kvs : list (string * string)) : res unit :=
  let n := Z.of_nat (length kvs) in
  reject maxLabelsPerNode <? n with
    "label update request cannot contain more than 64 labels, got " +:+ pretty n ;;
  validate_each kvs.

End Validate.

(** ** What is accepted *)

(** A name of at most 63 characters that begins and ends with a letter or digit. *)
Definition qualified_name (s : string) : Prop :=
  str_len s <= 63 /\ str_all name_char s && starts is_alnum s && ends is_alnum s = true.

(** A part between dots. *)
Definition dns_label (s : string) : Prop :=
  str_all dns_char s && starts lower_alnum s && ends lower_alnum s = true.

Definition dns_subdomain (s : string) : Prop := str_len s <= 253 /\ Forall dns_label (Split s "."%char).

Definition no_slash (s : string) : Prop := index_any s "/"%char = false.

(** [name] or [prefix/name], outside the reserved name spaces. *)
Definition label_key (k : string) : Prop :=
  IsReservedLabelKey k = false /\
  ((no_slash k /\ qualified_name k) \/
   exists prefix name, k = prefix +:+ String "/" name /\ no_slash prefix /\ no_slash name /\
     dns_subdomain prefix /\ qualified_name name).

Definition label_value (v : string) : Prop := v = "" \/ qualified_name v.

Lemma alnum_name a : is_alnum a = true -> name_char a = true.
Proof. unfold name_char. by intros ->. Qed.

Lemma lower_alnum_dns a : lower_alnum a = true -> dns_char a = true.
Proof. unfold dns_char. by intros ->. Qed.

Lemma qualifiedNameRegexp_spec s :
  MatchString qualifiedNameRegexp s = true <-> str_all name_char s && starts is_alnum s && ends is_alnum s = true.
Proof. rewrite MatchString_spec. apply lang_bracketed, alnum_name. Qed.

(** [A (B* A)?]: the same words as [(A B* )? A]. *)
Lemma dns_segment_spec s : lang dns_segment s <-> dns_label s.
Proof.
  unfold dns_label. rewrite <- (lang_bracketed _ _ s lower_alnum_dns).
  unfold dns_segment. rewrite !lang_cat_iff. setoid_rewrite lang_opt. setoid_rewrite lang_cat_iff.
  setoid_rewrite lang_chars_iff. setoid_rewrite lang_star_chars. split.
  - intros (x & y & -> & (a & -> & Ha) & [(x1 & x2 & -> & Hx & (b & -> & Hb))| ->]).
    + exists (String a "" +:+ x1), (String b ""). rewrite app_assoc_str. split; [done|]. split; [left|by exists b].
      exists (String a ""), x1. split_and!; [done|by exists a|done].
    + exists "", (String a ""). split; [done|]. split; [by right|by exists a].
  - intros (x & y & -> & [(x1 & x2 & -> & (a & -> & Ha) & Hx)| ->] & (b & -> & Hb)).
    + exists (String a ""), (x2 +:+ String b ""). rewrite app_assoc_str. split; [done|]. split; [by exists a|left].
      exists x2, (String b ""). split_and!; [done|done|by exists b].
    + exists (String b ""), "". split; [done|]. split; [by exists b|by right].
Qed.

Lemma dns_label_no_dot s : dns_label s -> index_any s "."%char = false.
Proof.
  unfold dns_label. intros [[Hs _]%andb_true_iff _]%andb_true_iff. unfold index_any, str_any.
  apply negb_false_iff. revert Hs. apply str_all_impl. intros a Ha. apply negb_true_iff, bool_decide_eq_false.
  by intros ->.
Qed.

Lemma dns_star_spec s :
  lang (RStar (RCat (RLit "."%char) dns_segment)) s <->
  exists ls, Forall dns_label ls /\ s = foldr (fun l t => String "." (l +:+ t)) "" ls.
Proof.
  split.
  - remember (RStar _) as r eqn:Er. induction 1 as [| | | | | |r x y _ Hx _ _ IH]; simplify_eq; [by exists []|].
    destruct (IH eq_refl) as (ls & Hls & ->). apply lang_cat_iff in Hx as (u & l & -> & Hu%lang_lit & Hl%dns_segment_spec).
    exists (l :: ls). split; [by constructor|]. subst u. simpl. by rewrite !app_cons_str.
  - intros (ls & Hls & ->). induction Hls as [|l ls Hl _ IH]; simpl; [constructor|].
    change (String "." (l +:+ ?t)) with (String "." l +:+ t). constructor; [done| |done].
    apply lang_cat_iff. exists ".", l. split_and!; [done|by apply lang_lit|by apply dns_segment_spec].
Qed.

Lemma join_dots l ls : Join (l :: ls) "." = l +:+ foldr (fun l t => String "." (l +:+ t)) "" ls.
Proof.
  revert l. induction ls as [|l2 ls IH]; intros l; [simpl; by rewrite app_nil_r_str|].
  rewrite Join_cons by done. by rewrite IH.
Qed.

Lemma dns1123SubdomainRegexp_spec s :
  MatchString dns1123SubdomainRegexp s = true <-> Forall dns_label (Split s "."%char).
Proof.
  rewrite MatchString_spec. unfold dns1123SubdomainRegexp. rewrite lang_cat_iff.
  setoid_rewrite dns_segment_spec. setoid_rewrite dns_star_spec. split.
  - intros (l & y & -> & Hl & (ls & Hls & ->)). rewrite <- join_dots, Split_Join; [by constructor|done|].
    eapply Forall_impl; [by constructor|]. apply dns_label_no_dot.
  - intros Hs. pose proof (Split_ne "."%char s) as Hne. rewrite <- (Join_Split "."%char s).
    destruct (Split s "."%char) as [|l ls]; [done|]. apply Forall_cons in Hs as [Hl Hls].
    exists l, (foldr (fun l t => String "." (l +:+ t)) "" ls). rewrite join_dots. split_and!; eauto.
Qed.

Lemma name_errs_spec s : name_errs s = [] <-> qualified_name s.
Proof.
  unfold name_errs, qualified_name, qualifiedNameMaxLength.
  rewrite <- qualifiedNameRegexp_spec. case_bool_decide as E; [subst s; split; [done|]; by intros [_ ?]|].
  destruct (Z.ltb_spec 63 (str_len s)); [split; [done|lia]|].
  destruct (MatchString _ s); simpl; naive_solver.
Qed.

Lemma prefix_errs_spec s : prefix_errs s = [] <-> dns_subdomain s.
Proof.
  unfold prefix_errs, dns_subdomain, dns1123SubdomainMaxLength.
  rewrite <- dns1123SubdomainRegexp_spec. case_bool_decide as E; [subst s; split; [done|]; by intros [_ ?]|].
  destruct (Z.ltb_spec 253 (str_len s)); [split; [done|lia]|].
  destruct (MatchString _ s); simpl; naive_solver.
Qed.

Lemma Split_one k c x : Split k c = [x] -> k = x /\ index_any k c = false.
Proof.
  intros E. pose proof (Join_Split c k) as HJ. pose proof (Split_fields c k) as HF. rewrite E in *.
  simpl in HJ. subst x. by apply Forall_cons in HF as [? _].
Qed.

Lemma Split_two k c x y : Split k c = [x; y] -> k = x +:+ String c y /\ index_any x c = false /\ index_any y c = false.
Proof.
  intros E. pose proof (Join_Split c k) as HJ. pose proof (Split_fields c k) as HF. rewrite E in *.
  rewrite Join_cons in HJ by done. simpl in HJ. by apply Forall_cons in HF as [? [? _]%Forall_cons].
Qed.

Lemma isQualifiedLabelKey_spec (k : string) : isQualifiedLabelKey k = [] <-> label_key k.
Proof.
  unfold isQualifiedLabelKey, label_key. case_bool_decide as E.
  { subst k. split; [done|]. intros [_ [[_ [_ Hq]]|(p & n & Hpn & _)]]; [done|].
    symmetry in Hpn. by apply app_eq_nil_str in Hpn as [_ ?]. }
  destruct (IsReservedLabelKey k); [naive_solver|].
  destruct (Split k "/"%char) as [|x [|y [|z l]]] eqn:HS; [by apply Split_ne in HS| | |].
  - apply Split_one in HS as [<- Hns]. rewrite name_errs_spec. split; [auto|].
    intros [_ [[_ ?]|(p & n & -> & Hp & Hn & _)]]; [done|]. exfalso. revert Hns. by rewrite index_any_app, orb_false_iff; simpl; intros [_ ?].
  - apply Split_two in HS as (-> & Hx & Hy). rewrite app_nil, prefix_errs_spec, name_errs_spec. split.
    + intros [? ?]. split; [done|]. right. by exists x, y.
    + intros [_ [[Hns _]|(p & n & Hpn & Hp & Hn & Hs & Hq)]].
      * exfalso. revert Hns. unfold no_slash. by rewrite index_any_app, orb_false_iff; simpl; intros [_ ?].
      * pose proof (Cut_byte_app x "/"%char y Hx) as H1. rewrite Hpn, Cut_byte_app in H1 by done. by simplify_eq.
  - split; [done|]. intros [_ [[Hns _]|(p & n & -> & Hp & Hn & _)]].
    + by rewrite Split_none in HS.
    + by rewrite Split_app, !Split_none in HS.
Qed.

Lemma isValidLabelValue_spec (v : string) : isValidLabelValue v = [] <-> label_value v.
Proof.
  unfold isValidLabelValue, label_value, qualified_name, qualifiedNameMaxLength. rewrite <- qualifiedNameRegexp_spec.
  case_bool_decide; [naive_solver|]. rewrite app_nil.
  destruct (Z.ltb_spec 63 (str_len v)), (MatchString _ v); simpl; split; try naive_solver lia.
Qed.

Lemma validateNodeLabelKey_spec `{!GoRuntime} k : validateNodeLabelKey k = Ok tt <-> label_key k.
Proof. rewrite <- isQualifiedLabelKey_spec. unfold validateNodeLabelKey. destruct (isQualifiedLabelKey k); naive_solver. Qed.

Lemma validate_each_spec `{!GoRuntime} kvs :
  validate_each kvs = Ok tt <-> Forall (fun kv => label_key kv.1 /\ label_value kv.2) kvs.
Proof.
  induction kvs as [|[k v] kvs IH]; simpl; [split; [constructor|done]|].
  rewrite Forall_cons, <- IH, <- validateNodeLabelKey_spec, <- isValidLabelValue_spec. simpl.
  destruct (validateNodeLabelKey k) as [[]|m]; simpl; [|naive_solver].
  destruct (isValidLabelValue v); naive_solver.
Qed.

(** The administration API accepts a set of labels exactly when it has at most 64 of
    them, every key is [name] or [prefix/name] with a DNS-1123 subdomain of at most 253
    characters before the slash and a qualified name of at most 63 after it, outside the
    reserved name spaces, and every value is empty or a qualified name: the regular
    expressions and tests of the source decide exactly that, in any order of the map. *)
Theorem validateNodeLabels_iff `{!GoRuntime} (labels : gmap string string) (kvs : list (string * string)) :
  kvs ≡ₚ map_to_list labels ->
  validateNodeLabels kvs = Ok tt <->
  Z.of_nat (size labels) <= 64 /\ map_Forall (fun k v => label_key k /\ label_value v) labels.
Proof.
  intros Hp. unfold validateNodeLabels, maxLabelsPerNode. rewrite (Permutation_length Hp).
  rewrite length_map_to_list. destruct (Z.ltb_spec 64 (Z.of_nat (size labels))); [split; [done|lia]|].
  rewrite validate_each_spec, Hp, map_Forall_to_list. split; [intros HF; split; [lia|]|intros [_ HF]];
    (eapply Forall_impl; [exact HF|by intros [k v]]).
Qed.

(** Witness: one label with a prefix and one without. *)
Lemma validateNodeLabels_iff_witness :
  validateNodeLabels (H := demo_runtime) [("example.com/Rack_1", "a-7"); ("zone", "")] = Ok tt.
Proof.
  apply (validateNodeLabels_iff (H := demo_runtime) (<["example.com/Rack_1" := "a-7"]> {["zone" := ""]})).
  - rewrite map_to_list_insert, map_to_list_singleton by done. done.
  - split; [by vm_compute|]. apply map_Forall_insert_2; [|apply map_Forall_singleton]; split;
      first [by apply isQualifiedLabelKey_spec|by apply isValidLabelValue_spec].
Defined.

(** Trailing dashes, upper case prefixes, second slashes and reserved prefixes are refused. *)
Example refused_keys :
  map (fun k => bool_decide (isQualifiedLabelKey k = []))
    ["rack-"; "Example.com/a"; "a/b/c"; "kubernetes.io/zone"; "x.kubernetes.io/zone"; "a..b/c"; "rack"] =
  [false; false; false; false; false; false; true].
Proof. vm_compute. reflexivity. Qed.
