(* ===== verification/MasterNodes.v ===== *)
(** * Node cache of CubeMaster
    (CubeMaster/pkg/base/node/node.go, CubeMaster/pkg/base/nodehealth/health.go,
    CubeMaster/pkg/localcache/node_cache.go, db_cache.go, export.go,
    pkg/service/sandbox/sandbox_list.go, cmd/cubemastercli/commands/cubebox/list.go)

    The nodes the scheduler places sandboxes on.  The cache and the sorted lists
    per product hold pointers to the same objects, which updates change in place,
    so the state has a heap of nodes, the cache maps an id to an address and a
    list holds addresses.  [NodeList.Remove] deletes inside the backing array of
    the slice it walks over; it is modelled on the array, with the panic that
    duplicate ids can cause.  The cached result of [Labels] is left out: every
    update drops it and clones start without one. *)
From S2P Require Import Prelude GoStrings GoValue MasterConfig.
From stdpp Require Import sorting.

Open Scope string_scope.
Open Scope Z_scope.

(** ** Nodes *)

(** The fields [updateNodeFromMetaData] takes from the database. *)
Record Metadata : Type := MkMetadata {
  IP : string; UUID : string; CpuTotal : Z; MemMBTotal : Z; SystemDiskSize : Z; DataDiskSize : Z;
  Zone : string; Region : string; QuotaCpu : Z; QuotaMem : Z;
  ReportedReady : bool; Healthy : bool; UnhealthyReason : string; HostStatus : string;
  CreateConcurrentNum : Z; MaxMvmLimit_ : Z; MetaDataUpdateAt : Z;
  DeviceClass : string; DeviceID : Z; MachineHostIP : string; InstanceFamily : string;
  VirtualNodeQuotaArray : list Z; ClusterLabel : string; CPUType : string; InstanceType : string;
  OssClusterLabel : string; NodeLabels : gmap string string;
}.

(** The fields [updateNodeMetric] takes from Redis. *)
Record Metrics : Type := MkMetrics {
  MetricUpdate : Z; QuotaCpuUsage : Z; QuotaMemUsage : Z; CpuLoadUsage : float64; CpuUtil : float64; MemUsage : Z;
  DataDiskUsagePer : float64; StorageDiskUsagePer : float64; SysDiskUsagePer : float64;
  MvmNum : Z; RealTimeCreateNum : Z; NicQueues : Z;
}.

Record Node : Type := MkNode {
  Index : Z; InsID : string; DedicatedClusterId : string;
  meta :> Metadata; metrics : Metrics;
  MetricLocalUpdateAt : Z; Score : float64; LocalCreateNum : Z;
}.

Definition with_metadata (m : Metadata) (n : Node) : Node :=
  MkNode (Index n) (InsID n) (DedicatedClusterId n) m (metrics n) (MetricLocalUpdateAt n) (Score n) (LocalCreateNum n).
Definition with_metrics (m : Metrics) (now : Z) (n : Node) : Node :=
  MkNode (Index n) (InsID n) (DedicatedClusterId n) (meta n) m now (Score n) (LocalCreateNum n).
Definition with_score (x : float64) (n : Node) : Node :=
  MkNode (Index n) (InsID n) (DedicatedClusterId n) (meta n) (metrics n) (MetricLocalUpdateAt n) x (LocalCreateNum n).
Definition with_creates (c : Z) (n : Node) : Node :=
  MkNode (Index n) (InsID n) (DedicatedClusterId n) (meta n) (metrics n) (MetricLocalUpdateAt n) (Score n) c.
(** The metadata with another health, and another time of update. *)
Definition with_health (ready healthy : bool) (reason : string) (at_ : Z) (m : Metadata) : Metadata :=
  MkMetadata (IP m) (UUID m) (CpuTotal m) (MemMBTotal m) (SystemDiskSize m) (DataDiskSize m) (Zone m) (Region m)
    (QuotaCpu m) (QuotaMem m) ready healthy reason (HostStatus m) (CreateConcurrentNum m) (MaxMvmLimit_ m) at_
    (DeviceClass m) (DeviceID m) (MachineHostIP m) (InstanceFamily m) (VirtualNodeQuotaArray m) (ClusterLabel m)
    (CPUType m) (InstanceType m) (OssClusterLabel m) (NodeLabels m).

Definition ID (n : Node) : string := if InsID n =s "" then IP n else InsID n.

(** Keys derived from the node are written last. *)
Definition Labels (n : Node) : gmap string string :=
  <[AffinityKeyInstanceType := InstanceType n]>
    (<[AffinityKeyCPUCores := pretty (QuotaCpu n) +:+ "m"]>
      (<[AffinityKeyMemorySize := pretty (QuotaMem n) +:+ "Mi"]>
        (<[AffinityKeyCPUType := CPUType n]>
          (<[AffinityKeyClusterID := ClusterLabel n]>
            (<[AffinityKeyZone := Zone n]> (NodeLabels n)))))).

(** ** Health *)

Definition ReasonReportedNotReady : string := "ReportedNotReady".
Definition ReasonHeartbeatExpired : string := "HeartbeatExpired".

Definition MetadataTimeout (syncMetaDataInterval : Z) : Z := wrap64 (syncMetaDataInterval + 10 * second).

(** [EvaluateFromFacts]: healthy, or the reason why not. *)
Definition EvaluateFromFacts (reportedReady : bool) (heartbeatTime now timeout : Z) : option string :=
  if time_is_zero heartbeatTime || (timeout <? time_sub now heartbeatTime) then Some ReasonHeartbeatExpired
  else if negb reportedReady then Some ReasonReportedNotReady
  else None.

Definition cloneNodeWithCurrentHealth (interval now : Z) (n : Node) : Node :=
  let status := EvaluateFromFacts (ReportedReady n) (MetaDataUpdateAt n) now (MetadataTimeout interval) in
  with_metadata
    (with_health (ReportedReady n) (bool_decide (status = None)) (default "" status) (MetaDataUpdateAt n) (meta n)) n.

(** ** Lists of nodes *)

(** [sort.Slice]: some permutation that is sorted when the comparison is a strict
    weak order; elements that compare equal may come in any order. *)
Class SliceSort : Type := {
  sort_slice : forall {A}, (A -> A -> bool) -> list A -> list A;
  sort_slice_perm : forall A less (l : list A), sort_slice less l ≡ₚ l;
  sort_slice_sorted : forall A (less : A -> A -> bool) (l : list A),
    (forall x y z, less x y = false -> less y z = false -> less x z = false) ->
    (forall x y, less x y = true -> less y x = false) ->
    Sorted (fun x y => less y x = false) (sort_slice less l);
}.

(** [Remove] of one id walks over the slice as it was when the loop began ([i] up
    to its length) while the array [a] changes under it; [m] is the length of [*l]. *)
Fixpoint Remove_loop (rest i : nat) (id : nat -> string) (x : string) (a : list nat) (m : nat) : bool * list nat * nat :=
  match rest with
  | O => (false, a, m)
  | S rest =>
      match a !! i with
      | Some v =>
          if id v =s x then
            if (m <? i + 1)%nat then (true, a, m)
            else Remove_loop rest (S i) id x
                   (take i a ++ drop (S i) (take m a) ++ drop (m - 1) a) (m - 1)
          else Remove_loop rest (S i) id x a m
      | None => (true, a, m)
      end
  end.

(** What is left in the variable the slice came from: the shortened slice, or,
    after a panic, the whole array as the loop left it. *)
Definition Remove (id : nat -> string) (x : string) (l : list nat) : bool * list nat :=
  let '(panicked, a, m) := Remove_loop (length l) 0 id x l (length l) in
  (panicked, if panicked then a else take m a).

Definition Add (id : nat -> string) (p : nat) (l : list nat) : list nat :=
  if existsb (fun v => id v =s id p) l then l else l ++ [p].

Section Sorting.
Context {SS : SliceSort}.

Definition AllSortByIndex (idx : nat -> Z) (l : list nat) : list nat := sort_slice (fun p q => idx p <? idx q) l.

End Sorting.

Fixpoint ascending (prev : Z) (l : list Z) : bool :=
  match l with
  | [] => true
  | i :: l => (0 <? i) && negb ((0 <? prev) && (i <? prev)) && ascending i l
  end.

Definition supportsIndexPagination (l : list Z) : bool := match l with [] => false | _ => ascending 0 l end.

Section Page.
Context {A : Type} (idx : A -> Z).

(** The position of the first element whose index is at least [index], 0 if there is none. *)
Fixpoint first_at (index : Z) (l : list A) (i : nat) : nat :=
  match l with
  | [] => 0
  | v :: l => if index <=? idx v then i else first_at index l (S i)
  end.

(** [l[a:b]], which panics out of range. *)
Definition slice (l : list A) (a b : Z) : res (list A) :=
  if (0 <=? a) && (a <=? b) && (b <=? Z.of_nat (length l))
  then Ok (take (Z.to_nat (b - a)) (drop (Z.to_nat a) l)) else Err "slice bounds out of range".

Definition clip_end (size start pageSize : Z) : Z :=
  let e := wrap64 (start + pageSize) in if size <? e then size else e.

Definition IndexByPage (l : list A) (index pageSize : Z) : res (list A * Z) :=
  let size := Z.of_nat (length l) in
  if size =? 0 then Ok ([], -1)
  else if (pageSize <=? 0) || (index <? 0) then Ok ([], -1)
  else if negb (supportsIndexPagination (idx <$> l)) then
    let start := if index <=? 0 then 1 else index in
    if size <? start then Ok ([], -1)
    else
      let endPos := clip_end size (start - 1) pageSize in
      let! page := slice l (start - 1) endPos in Ok (page, endPos)
  else
    let maxIndex := from_option idx 0 (last l) in
    if maxIndex <? index then Ok ([], -1)
    else if index =? maxIndex then Ok (drop (length l - 1) l, maxIndex)
    else
      let startIndex := Z.of_nat (first_at index l 0) in
      let endIndex := clip_end size startIndex pageSize in
      let! page := slice l startIndex endIndex in
      match l !! Z.to_nat (endIndex - 1) with
      | Some v => Ok (page, idx v)
      | None => Err "index out of range"
      end.

End Page.

(** ** The cache *)

Record local : Type := MkLocal {
  heap : gmap nat Node; next : nat;
  cache : gmap string nat;
  sortedNodesByClusters : gmap string (list nat);
  totalSelfNodes : Z;
  closedConns : list string;
}.

Definition set_heap h (l : local) := MkLocal h (next l) (cache l) (sortedNodesByClusters l) (totalSelfNodes l) (closedConns l).
Definition set_cache c (l : local) := MkLocal (heap l) (next l) c (sortedNodesByClusters l) (totalSelfNodes l) (closedConns l).
Definition set_sorted m (l : local) := MkLocal (heap l) (next l) (cache l) m (totalSelfNodes l) (closedConns l).
(** [grpcconn.CloseWorkerConn] on a host. *)
Definition close_conn (ip : string) (l : local) :=
  MkLocal (heap l) (next l) (cache l) (sortedNodesByClusters l) (totalSelfNodes l) (ip :: closedConns l).
(** A new object. *)
Definition alloc (n : Node) (l : local) : nat * local :=
  (next l, MkLocal (<[next l := n]> (heap l)) (S (next l)) (cache l) (sortedNodesByClusters l) (totalSelfNodes l) (closedConns l)).

Definition node_at (l : local) (p : nat) : option Node := heap l !! p.
Definition id_at (l : local) (p : nat) : string := from_option ID "" (heap l !! p).
Definition index_at (l : local) (p : nat) : Z := from_option Index 0 (heap l !! p).

Definition DefaultInstanceTypeName : string := "default".

(** Handlers that may panic: whether they did, and the state they leave. *)
Definition panicky : Type := bool * local.

(** A loop over [xs] whose body may panic, which ends it. *)
Fixpoint each {X} (f : X -> local -> panicky) (xs : list X) (l : local) : panicky :=
  match xs with
  | [] => (false, l)
  | x :: xs => let '(panicked, l) := f x l in if panicked then (true, l) else each f xs l
  end.

Section Cache.
Context {Q : Type} (conf : SchedulerConf Q) {SS : SliceSort}.

Definition getInstanceTypeName (n : Node) (l : local) : string :=
  let product := or_string (GetInstanceTypeOfClusterLabel conf (OssClusterLabel n)) DefaultInstanceTypeName in
  if bool_decide (is_Some (sortedNodesByClusters l !! product)) then product else DefaultInstanceTypeName.

Definition sorted_list (product : string) (l : local) : list nat := default [] (sortedNodesByClusters l !! product).

Definition put_list (product : string) (xs : list nat) (l : local) : local :=
  set_sorted (<[product := xs]> (sortedNodesByClusters l)) l.

Definition appendSortedNodes (p : nat) (n : Node) (l : local) : local :=
  if negb (Healthy n) then l
  else
    let product := getInstanceTypeName n l in
    put_list product (AllSortByIndex (index_at l) (sorted_list product l ++ [p])) l.

Definition delSortedNodes (n : Node) (l : local) : panicky :=
  let product := getInstanceTypeName n l in
  let '(panicked, xs) := Remove (id_at l) (ID n) (sorted_list product l) in
  (panicked, put_list product xs l).

Definition updateSortedNodes (p : nat) (n : Node) (l : local) : panicky :=
  let product := getInstanceTypeName n l in
  let ref := sorted_list product l in
  if negb (Healthy n) then
    let '(panicked, xs) := Remove (id_at l) (ID n) ref in (panicked, put_list product xs l)
  else (false, put_list product (AllSortByIndex (index_at l) (Add (id_at l) p ref)) l).

(** The node is a fresh object of the caller. *)
Definition addNodeCache (n : Node) (l : local) : panicky :=
  let '(p, l) := alloc n l in
  (false, appendSortedNodes p n (set_cache (<[ID n := p]> (cache l)) l)).

Definition delNodeCache (n : Node) (l : local) : panicky :=
  let '(panicked, l) := delSortedNodes n (set_cache (delete (ID n) (cache l)) l) in
  (panicked, if panicked then l else close_conn (IP n) l).

Definition downNodeCache (now : Z) (n : Node) (l : local) : panicky :=
  let '(panicked, l) :=
    match cache l !! ID n with
    | Some p =>
        let mark old := with_metadata (with_health false false ReasonReportedNotReady now (meta old)) old in
        delSortedNodes n (set_heap (alter mark p (heap l)) l)
    | None => (false, l)
    end in
  (panicked, if panicked then l else close_conn (IP n) l).

(** [None]: the node is not in the cache. *)
Definition updateNodeFromMetaData (n : Node) (l : local) : option panicky :=
  match cache l !! ID n with
  | None => None
  | Some p =>
      match heap l !! p with
      | None => None
      | Some old =>
          let old := with_metadata (meta n) old in
          Some (updateSortedNodes p old (set_heap (<[p := old]> (heap l)) l))
      end
  end.

Definition UpsertNode (n : Node) (l : local) : panicky :=
  match updateNodeFromMetaData n l with Some r => r | None => addNodeCache n l end.

Definition updateNodeMetric (now : Z) (n : Node) (l : local) : option local :=
  p ← cache l !! ID n;
  Some (set_heap (alter (with_metrics (metrics n) now) p (heap l)) l).

(** ** Events and synchronisation *)

Definition ADD : string := "add".
Definition DEL : string := "del".
Definition UPDATE : string := "update".
Definition DOWN : string := "down".

(** The node a DEL event builds: nothing but its id. *)
Definition bare_metadata : Metadata :=
  MkMetadata "" "" 0 0 0 0 "" "" 0 0 false false "" "" 0 0 time_zero "" 0 "" "" [] "" "" "" "" ∅.
Definition bare_metrics : Metrics :=
  MkMetrics time_zero 0 0 f64_zero f64_zero 0 f64_zero f64_zero f64_zero 0 0 0.
Definition bare_node (id : string) : Node :=
  MkNode 0 id "" bare_metadata bare_metrics time_zero f64_zero 0.

(** One event; [loaded] is what [loadFromDBByIDs] answers. *)
Definition dealEvent (now : Z) (type : string) (insIDs : list string) (loaded : res (list Node)) (l : local) : panicky :=
  if type =s DEL then each (fun id => delNodeCache (bare_node id)) insIDs l
  else if (type =s ADD) || (type =s UPDATE) then
    match loaded with Ok nodes => each UpsertNode nodes l | Err _ => (false, l) end
  else if type =s DOWN then
    match loaded with Ok nodes => each (downNodeCache now) nodes l | Err _ => (false, l) end
  else (false, l).

Definition checkDirty (allFromDb : gset string) (l : local) : panicky :=
  if bool_decide (allFromDb = ∅) then (false, l)
  else
    each (fun p l =>
            match heap l !! p with
            | Some h => if bool_decide (InsID h ∈ allFromDb) then (false, l) else delNodeCache h l
            | None => (false, l)
            end) ((map_to_list (cache l)).*2) l.

(** [syncAllFromDB] on the nodes the loader or the database gave. *)
Definition syncAllFromDB (update : bool) (nodes : list Node) (l : local) : panicky :=
  let '(panicked, l) := each (if update then UpsertNode else addNodeCache) nodes l in
  if panicked then (true, l)
  else if update then checkDirty (list_to_set (InsID <$> nodes)) l else (false, l).

Definition Init (totalSelf : Z) : local :=
  MkLocal ∅ 0 ∅
    (foldl (fun m k => <[k := []]> m) {[ DefaultInstanceTypeName := [] ]} (GetSchedulerInstanceTypeConfs conf))
    totalSelf [].

(** ** Queries *)

(** The loop of the two queries below: clones of the nodes that are healthy now,
    at most [n] of them unless [n] is negative. *)
Fixpoint healthy_loop (interval now n : Z) (ns : list Node) (acc : list Node) : list Node :=
  match ns with
  | [] => acc
  | v :: ns =>
      if (0 <=? n) && (n <=? Z.of_nat (length acc)) then acc
      else
        let current := cloneNodeWithCurrentHealth interval now v in
        healthy_loop interval now n ns (if Healthy current then acc ++ [current] else acc)
  end.

Definition GetHealthyNodes (interval now n : Z) (l : local) : list Node :=
  healthy_loop interval now n (omap (node_at l) ((map_to_list (cache l)).*2)) [].

Definition GetHealthyNodesByInstanceType (interval now n : Z) (product : string) (l : local) : list Node :=
  match sortedNodesByClusters l !! product with
  | None => GetHealthyNodes interval now n l
  | Some ps => healthy_loop interval now n (omap (node_at l) ps) []
  end.

Definition GetNode (interval now : Z) (id : string) (l : local) : option Node :=
  p ← cache l !! id; cloneNodeWithCurrentHealth interval now <$> heap l !! p.

Definition RangeDBHost (index size : Z) (product : string) (l : local) : res (list nat * Z) :=
  let ps := match sortedNodesByClusters l !! product with
            | Some ps => ps
            | None => sorted_list DefaultInstanceTypeName l
            end in
  IndexByPage (index_at l) ps index size.

(** The node an id-based counter update reaches: the cached object. *)
Definition NodeConcurrentIncrBy (d : Z) (n : Node) (l : local) : local :=
  match cache l !! ID n with
  | Some p => set_heap (alter (fun v => with_creates (wrap64 (LocalCreateNum v + d)) v) p (heap l)) l
  | None => l
  end.
Definition IncrNodeConcurrent : Node -> local -> local := NodeConcurrentIncrBy 1.
Definition DecrNodeConcurrent : Node -> local -> local := NodeConcurrentIncrBy (-1).

Definition HealthyMasterNodes (l : local) : Z := or_Z (totalSelfNodes l) 1.

(** ** Limits *)

Definition MaxMvmLimit (n : Node) : Z :=
  or_Z (if MaxMvmLimit_ n <=? 0 then MvmNumConf (GetNodeMaxMvmNumConf conf (InstanceType n)) else MaxMvmLimit_ n) 3000.

Definition RealMaxMvmLimit `{!GoRuntime} (n : Node) : Z :=
  f64_to_int (f64_ceil (f64_mul (f64_of_Z (MaxMvmLimit n))
                          (MvmNumReserveNumPercent (GetNodeMaxMvmNumConf conf (InstanceType n))))).

(** [limit] is [CubeletConf.CreateConcurrentLimit]. *)
Definition CreateConcurrentLimit (limit : Z) (n : Node) : Z :=
  or_Z (if CreateConcurrentNum n <=? limit then limit else CreateConcurrentNum n) 50.

End Cache.

(** ** Rows of the database *)

Record HostInfo : Type := MkHost {
  hi_ID : Z; hi_InsID : string; hi_IP : string; hi_CpuTotal : Z; hi_MemMBTotal : Z; hi_Zone : string; hi_Region : string;
  hi_DataDiskGB : Z; hi_SysDiskGB : Z; hi_InstanceType : string; hi_ClusterLabel : string; hi_UUID : string;
  hi_LiveStatus : string; hi_HostStatus : string; hi_QuotaCpu : Z; hi_QuotaMem : Z; hi_CreateConcurrentNum : Z;
  hi_MaxMvmNum : Z; hi_OssClusterLabel : string;
}.
Record MachineInfo : Type := MkMachine {
  mi_InsID : string; mi_DeviceClass : string; mi_DeviceID : Z; mi_HostIP : string; mi_InstanceFamily : string;
  mi_DedicatedClusterId : string; mi_VirtualNodeQuota : string;
}.

Definition HeartbeatHealth : string := "LIVE".

(** The database columns that a row alone does not give. *)
Record RowExtras : Type := MkExtras {
  x_CPUType : string; x_DeviceClass : string; x_DedicatedClusterId : string; x_DeviceID : Z;
  x_HostIP : string; x_InstanceFamily : string; x_Quota : list Z;
}.
Definition no_extras : RowExtras := MkExtras "" "" "" 0 "" "" [].

Definition constructNode (now : Z) (e : HostInfo) (x : RowExtras) : Node :=
  let live := hi_LiveStatus e =s HeartbeatHealth in
  MkNode (hi_ID e) (hi_InsID e) (x_DedicatedClusterId x)
    (MkMetadata (hi_IP e) (hi_UUID e) (hi_CpuTotal e) (hi_MemMBTotal e) (hi_SysDiskGB e) (hi_DataDiskGB e)
       (hi_Zone e) (hi_Region e) (hi_QuotaCpu e) (hi_QuotaMem e) live live "" (hi_HostStatus e)
       (hi_CreateConcurrentNum e) (hi_MaxMvmNum e) now (x_DeviceClass x) (x_DeviceID x) (x_HostIP x)
       (x_InstanceFamily x) (x_Quota x) (hi_ClusterLabel e) (x_CPUType x) (hi_InstanceType e)
       (hi_OssClusterLabel e) ∅)
    bare_metrics time_zero f64_zero 0.

(** Joining the three tables; [quota] decodes the JSON of [VirtualNodeQuota]
    ([None] leaves the field empty).  The last row of a key wins in both maps. *)
Definition loadRows (now : Z) (quota : string -> option (list Z)) (all : list HostInfo)
  (types : list (string * string)) (machines : list MachineInfo) : list Node :=
  let cpu : gmap string string := foldl (fun m t => <[t.1 := t.2]> m) ∅ types in
  let mach : gmap string MachineInfo := foldl (fun m t => <[mi_InsID t := t]> m) ∅ machines in
  (fun e =>
     let c := default "" (cpu !! hi_InstanceType e) in
     constructNode now e
       match mach !! hi_InsID e with
       | Some v => MkExtras c (mi_DeviceClass v) (mi_DedicatedClusterId v) (mi_DeviceID v) (mi_HostIP v) (mi_InstanceFamily v)
                     (if mi_VirtualNodeQuota v =s "" then [] else default [] (quota (mi_VirtualNodeQuota v)))
       | None => MkExtras c "" "" 0 "" "" []
       end) <$> all.

(** ** Listing all pages (the service's answer and the command line's loop) *)

(** What [ListSandbox] answers about nodes: their number, the last index, the
    page; an index of 0 starts at 1. *)
Record ListRes : Type := MkListRes { lr_Total : Z; lr_EndIdx : Z; lr_Nodes : list nat }.

Definition list_page (total : Z) (product : string) (startIdx size : Z) (l : local) : res ListRes :=
  if (size <=? 0) || (startIdx <? 0) then Err "MasterParamsError"
  else
    let! r := RangeDBHost (if startIdx =? 0 then 1 else startIdx) size product l in
    Ok (MkListRes total r.2 r.1).

(** [runListQueryAllPages]: [None] when the fuel is used up. *)
Fixpoint all_pages (fuel : nat) (total : Z) (product : string) (startIdx size : Z) (l : local) (acc : list nat) :
  option (res (list nat)) :=
  match fuel with
  | O => None
  | S fuel =>
      match list_page total product startIdx size l with
      | Err e => Some (Err e)
      | Ok r =>
          let acc := (acc ++ lr_Nodes r)%list in
          if (lr_Total r =? 0) || (Z.of_nat (length (lr_Nodes r)) =? 0) || (lr_EndIdx r =? 0) || (lr_Total r <=? lr_EndIdx r)
          then Some (Ok acc)
          else all_pages fuel total product (lr_EndIdx r + 1) size l acc
      end
  end.

Definition runListQueryAllPages (fuel : nat) (total : Z) (product : string) (startIdx size : Z) (l : local) : option (res (list nat)) :=
  all_pages fuel total product (if startIdx <=? 0 then 1 else startIdx) (if size <=? 0 then 1 else size) l [].

(** ** Removing inside the array *)

Lemma Remove_loop_miss id x rest : forall i a m,
  (i + rest = length a)%nat -> (forall j w, (i <= j)%nat -> a !! j = Some w -> id w <> x) ->
  Remove_loop rest i id x a m = (false, a, m).
Proof.
  induction rest as [|rest IH]; intros i a m Hlen Hne; [done|]. cbn [Remove_loop].
  destruct (a !! i) as [w|] eqn:E; [|apply lookup_ge_None in E; lia].
  rewrite bool_decide_eq_false_2 by (by eapply Hne; [|exact E]). apply IH; [lia|]. intros j v Hj. apply Hne. lia.
Qed.

Lemma Remove_loop_hit id x pre v post : id v = x -> x ∉ (id <$> pre) -> x ∉ (id <$> post) ->
  let l := (pre ++ v :: post)%list in
  exists tail, Remove_loop (S (length post)) (length pre) id x l (length l) =
    (false, (pre ++ post ++ tail)%list, (length l - 1)%nat).
Proof.
  intros Hv Hpre Hpost l. assert (length l = S (length pre + length post)) as Hlen by (unfold l; rewrite length_app; cbn; lia).
  cbn [Remove_loop]. unfold l at 1. rewrite list_lookup_middle by done. rewrite bool_decide_eq_true_2 by done.
  assert ((length l <? length pre + 1)%nat = false) as -> by (apply Nat.ltb_ge; lia).
  rewrite (take_ge l (length l)) by lia. assert (take (length pre) l = pre) as -> by apply take_app_length.
  assert (drop (S (length pre)) l = post) as ->.
  { unfold l. rewrite <- Nat.add_1_r. by rewrite drop_app_add. }
  exists (drop (length l - 1) l). destruct post as [|z post _] using rev_ind; [done|].
  assert (drop (length l - 1) l = [z]) as ->.
  { assert (l = (pre ++ v :: post) ++ [z])%list as E by (unfold l; by rewrite <- app_assoc).
    rewrite E at 2. apply drop_app_length'. rewrite Hlen, !length_app. cbn. lia. }
  apply Remove_loop_miss; [rewrite !length_app in *; cbn in *; lia|].
  intros j w Hj Hw. apply list_elem_of_lookup_2 in Hw as Hin. rewrite fmap_app in Hpost.
  intros <-. rewrite lookup_app_r in Hw by lia. apply list_elem_of_lookup_2 in Hw.
  apply Hpost. rewrite !elem_of_app in Hw. rewrite elem_of_app. destruct Hw as [[Hw|Hw]|Hw]; [left|right..];
    apply list_elem_of_fmap; exists w; eauto.
Qed.

Lemma Remove_loop_skip id x pre : forall i a m rest, x ∉ (id <$> pre) -> take (length pre) (drop i a) = pre ->
  Remove_loop (length pre + rest) i id x a m = Remove_loop rest (i + length pre) id x a m.
Proof.
  induction pre as [|w pre IH]; intros i a m rest Hne Ha; [by rewrite Nat.add_0_r|].
  cbn [length Nat.add Remove_loop fmap list_fmap] in *. apply not_elem_of_cons in Hne as [Hw Hne].
  destruct (a !! i) as [u|] eqn:E.
  - rewrite (drop_S _ _ _ E) in Ha. injection Ha as -> Ha. rewrite bool_decide_eq_false_2 by congruence.
    rewrite IH by done. f_equal. lia.
  - apply lookup_ge_None in E. by rewrite drop_ge in Ha by lia.
Qed.

(** With distinct ids the walk neither panics nor misses: exactly the named node goes. *)
Lemma Remove_spec id x l : NoDup (id <$> l) -> Remove id x l = (false, filter (fun p => id p <> x) l).
Proof.
  intros Hnd. unfold Remove. destruct (decide (x ∈ (id <$> l))) as [(v & -> & Hv)%list_elem_of_fmap|Hx].
  - apply list_elem_of_split in Hv as (pre & post & ->). rewrite fmap_app in Hnd. cbn in Hnd.
    apply NoDup_app in Hnd as (_ & Hd & [Hpost _]%NoDup_cons).
    assert (id v ∉ (id <$> pre)) as Hpre by (intros Hin; apply (Hd _ Hin); by left).
    destruct (Remove_loop_hit id (id v) pre v post eq_refl Hpre Hpost) as [tail Ht].
    rewrite length_app at 1. cbn [length]. rewrite (Remove_loop_skip _ _ pre 0); [|done|by rewrite drop_0, take_app_length].
    rewrite Nat.add_0_l, Ht. f_equal. rewrite length_app. cbn [length].
    replace (length pre + S (length post) - 1)%nat with (length (pre ++ post)) by (rewrite length_app; lia).
    rewrite app_assoc, take_app_length, filter_app, filter_cons_False by (intros H; by apply H).
    f_equal; symmetry; apply filter_all, Forall_forall; intros w Hw E;
      [apply Hpre|apply Hpost]; rewrite <- E; by apply list_elem_of_fmap_2.
  - rewrite Remove_loop_miss; [|done|].
    + rewrite take_ge by done. f_equal. symmetry. apply filter_all, Forall_forall. intros w Hw <-.
      by apply Hx, list_elem_of_fmap_2.
    + intros j w _ Hw <-. apply Hx, list_elem_of_fmap_2. by eapply list_elem_of_lookup_2.
Qed.

(** ** The lists agree with the cache *)

Lemma AllSortByIndex_perm {SS : SliceSort} idx l : AllSortByIndex idx l ≡ₚ l.
Proof. apply sort_slice_perm. Qed.

Lemma StronglySorted_filter {A} (R : A -> A -> Prop) (P : A -> Prop) `{!forall x, Decision (P x)} l :
  StronglySorted R l -> StronglySorted R (filter P l).
Proof.
  induction 1 as [|x l Hl IH Hx]; [constructor|]. rewrite filter_cons. case_decide; [|done].
  constructor; [done|]. by apply Forall_filter_keep.
Qed.

Lemma StronglySorted_ext {A} (R R' : A -> A -> Prop) l :
  (forall x y, x ∈ l -> y ∈ l -> R x y -> R' x y) -> StronglySorted R l -> StronglySorted R' l.
Proof.
  intros Hext. induction 1 as [|x l Hl IH Hx]; constructor.
  - apply IH. intros y z ??. apply Hext; by right.
  - rewrite Forall_forall in Hx |- *. intros y Hy. apply Hext; [by left|by right|]. by apply Hx.
Qed.

Lemma AllSortByIndex_sorted {SS : SliceSort} idx l : StronglySorted (fun p q => idx p <= idx q) (AllSortByIndex idx l).
Proof.
  eapply StronglySorted_ext, Sorted_StronglySorted, sort_slice_sorted; cbn.
  - intros p q _ _ H. by apply Z.ltb_ge.
  - intros x y z. cbn. rewrite !Z.ltb_ge. lia.
  - intros x y z. rewrite !Z.ltb_ge. lia.
  - intros x y. rewrite Z.ltb_lt, Z.ltb_ge. lia.
Qed.

Section Inv.
Context {Q : Type} (conf : SchedulerConf Q) {SS : SliceSort}.

(** The object at [p] is what the cache has under its id, is marked healthy and
    belongs to the product. *)
Definition listed (l : local) (product : string) (p : nat) : Prop :=
  exists n, heap l !! p = Some n /\ cache l !! ID n = Some p /\ Healthy n = true /\ getInstanceTypeName conf n l = product.

Definition lists_ok (l : local) : Prop :=
  forall product ps, sortedNodesByClusters l !! product = Some ps ->
    NoDup ps /\ StronglySorted (fun p q => index_at l p <= index_at l q) ps /\ (forall p, p ∈ ps <-> listed l product p).

Record cache_wf (l : local) : Prop := {
  wf_default : is_Some (sortedNodesByClusters l !! DefaultInstanceTypeName);
  wf_fresh : forall p, (next l <= p)%nat -> heap l !! p = None;
  wf_cached : forall id p, cache l !! id = Some p -> exists n, heap l !! p = Some n /\ InsID n = id /\ id <> "";
  wf_lists : lists_ok l;
}.

Lemma product_known n l : cache_wf l -> is_Some (sortedNodesByClusters l !! getInstanceTypeName conf n l).
Proof. intros H. unfold getInstanceTypeName. case_bool_decide; [done|]. apply H. Qed.

Lemma product_dom n l l' : dom (sortedNodesByClusters l') = dom (sortedNodesByClusters l) ->
  getInstanceTypeName conf n l' = getInstanceTypeName conf n l.
Proof.
  intros Hd. unfold getInstanceTypeName.
  erewrite (bool_decide_ext (is_Some (sortedNodesByClusters l' !! _))); [done|].
  by rewrite <- !elem_of_dom, Hd.
Qed.

Lemma product_label (n n' : Node) l : OssClusterLabel n = OssClusterLabel n' -> getInstanceTypeName conf n l = getInstanceTypeName conf n' l.
Proof. intros H. unfold getInstanceTypeName. by rewrite H. Qed.

Lemma ID_InsID n : InsID n <> "" -> ID n = InsID n.
Proof. intros H. unfold ID. by rewrite bool_decide_eq_false_2. Qed.

Lemma wf_ids_distinct l product ps : cache_wf l -> sortedNodesByClusters l !! product = Some ps -> NoDup (id_at l <$> ps).
Proof.
  intros Hwf Hps. destruct (wf_lists l Hwf _ _ Hps) as (Hnd & _ & Hin).
  apply NoDup_fmap_2_strong; [|done]. intros p q (n & Hn & Hc & _)%Hin (m & Hm & Hd & _)%Hin.
  unfold id_at. rewrite Hn, Hm. cbn. congruence.
Qed.

(** What a change to one product's list has to meet, when only the objects in [P]
    changed their standing. *)
Lemma lists_change (P : nat -> Prop) {HP : forall p, Decision (P p)} l l' pr ps' :
  lists_ok l -> sortedNodesByClusters l' = <[pr := ps']> (sortedNodesByClusters l) ->
  (forall q p, ~ P p -> listed l' q p <-> listed l q p) ->
  (forall q p, P p -> q <> pr -> ~ listed l q p /\ ~ listed l' q p) ->
  (forall q p, listed l q p -> index_at l' p = index_at l p) ->
  NoDup ps' -> StronglySorted (fun p q => index_at l' p <= index_at l' q) ps' -> (forall p, p ∈ ps' <-> listed l' pr p) ->
  lists_ok l'.
Proof.
  intros Hok Hs Hoth Hp0 Hidx Hnd Hsort Hin q qs Hq. rewrite Hs in Hq.
  apply lookup_insert_Some in Hq as [[<- <-]|[Hne Hq]]; [done|].
  destruct (Hok _ _ Hq) as (Hnd' & Hsort' & Hin'). split; [done|]. split.
  - eapply StronglySorted_ext; [|exact Hsort']. intros x y Hx%Hin' Hy%Hin' H. by rewrite (Hidx _ _ Hx), (Hidx _ _ Hy).
  - intros p. rewrite Hin'. destruct (decide (P p)) as [Hp|Hp]; [|by rewrite Hoth].
    destruct (Hp0 q p) as [H1 H2]; [done..|]. tauto.
Qed.

(** Removing an id from its product's list. *)
Lemma Remove_list l l1 pr x ps : cache_wf l -> sortedNodesByClusters l1 = sortedNodesByClusters l ->
  (forall p, id_at l1 p = id_at l p) -> sortedNodesByClusters l !! pr = Some ps ->
  Remove (id_at l1) x (sorted_list pr l1) = (false, filter (fun p => id_at l p <> x) ps).
Proof.
  intros Hwf Hs Hid Hps. unfold sorted_list. rewrite Hs, Hps. cbn. rewrite Remove_spec.
  - f_equal. apply filter_ext_Forall, Forall_forall. intros p _. by rewrite Hid.
  - erewrite list_fmap_ext; [by eapply wf_ids_distinct|]. intros i p _. apply Hid.
Qed.

Lemma put_list_dom pr xs l : is_Some (sortedNodesByClusters l !! pr) ->
  dom (sortedNodesByClusters (put_list pr xs l)) = dom (sortedNodesByClusters l).
Proof. intros Hpr%elem_of_dom. cbn. rewrite dom_insert_L. set_solver. Qed.

Lemma listed_same l l' q p : heap l' !! p = heap l !! p ->
  dom (sortedNodesByClusters l') = dom (sortedNodesByClusters l) ->
  (forall n, heap l !! p = Some n -> cache l' !! ID n = Some p <-> cache l !! ID n = Some p) ->
  listed l' q p <-> listed l q p.
Proof.
  intros Hh Hd Hc. unfold listed. rewrite Hh. split; intros (n & Hn & Hcn & Hy & Hp); exists n; rewrite (Hc n Hn) in *;
    [rewrite (product_dom _ l' l) in *|rewrite (product_dom _ l l') in *]; auto.
Qed.

Lemma index_same l l' q p : listed l q p -> (forall n, heap l !! p = Some n -> exists n', heap l' !! p = Some n' /\ Index n' = Index n) ->
  index_at l' p = index_at l p.
Proof. intros (n & Hn & _) H. destruct (H n Hn) as (n' & Hn' & Hi). unfold index_at. by rewrite Hn, Hn'. Qed.

(** *** The operations keep the invariant *)

(** A fresh object enters the cache, and its product's list when it is healthy. *)
Lemma add_lists_ok n l l' ps : cache_wf l -> cache l !! ID n = None ->
  heap l' = <[next l := n]> (heap l) -> cache l' = <[ID n := next l]> (cache l) ->
  dom (sortedNodesByClusters l') = dom (sortedNodesByClusters l) ->
  sortedNodesByClusters l !! getInstanceTypeName conf n l = Some ps ->
  sortedNodesByClusters l' =
    <[getInstanceTypeName conf n l := if Healthy n then AllSortByIndex (index_at l') (ps ++ [next l]) else ps]>
      (sortedNodesByClusters l) -> lists_ok l'.
Proof.
  intros Hwf Hc Hh Hc' Hdom Hk Hs. set (ps' := if Healthy n then _ else ps) in Hs.
  assert (heap l !! next l = None) as Hnone by (by apply (wf_fresh l Hwf)).
  assert (forall q p, p <> next l -> listed l' q p <-> listed l q p) as Hoth.
  { intros q p Hp. apply listed_same; [by rewrite Hh, lookup_insert_ne|done|].
    intros m Hm. rewrite Hc'. destruct (decide (ID m = ID n)) as [E|E]; [|by rewrite lookup_insert_ne].
    rewrite E, lookup_insert_eq, Hc. by split; [intros [= ?]|]. }
  assert (forall q, listed l' q (next l) <-> Healthy n = true /\ getInstanceTypeName conf n l = q) as Hnew.
  { intros q. unfold listed. rewrite Hh, Hc', lookup_insert_eq, <- (product_dom n l l') by done. split.
    - by intros (? & [= <-] & _ & ? & ?).
    - intros []. exists n. by rewrite lookup_insert_eq. }
  destruct (wf_lists l Hwf _ _ Hk) as (Hnd & Hsort & Hin).
  assert (forall q p, listed l q p -> p <> next l) as Hold by (intros q p (m & Hm & _) ->; congruence).
  assert (forall q p, listed l q p -> index_at l' p = index_at l p) as Hi.
  { intros q p Hl. unfold index_at. by rewrite Hh, lookup_insert_ne by (by apply not_eq_sym, (Hold q)). }
  eapply (lists_change (fun p => p = next l) l l' _ ps'); [apply Hwf|exact Hs|exact Hoth| |exact Hi| | |].
  - intros q p -> Hq. rewrite Hnew. split; [intros Hl; by apply Hold in Hl|]. by intros [_ ?].
  - unfold ps'. destruct (Healthy n); [|done]. rewrite AllSortByIndex_perm. apply NoDup_app.
    split; [done|]. split; [|apply NoDup_singleton]. intros p Hp%Hin Hl%list_elem_of_singleton. subst p. by apply Hold in Hp.
  - unfold ps'. destruct (Healthy n); [apply AllSortByIndex_sorted|].
    eapply StronglySorted_ext; [|exact Hsort]. intros x y Hx%Hin Hy%Hin. by rewrite (Hi _ _ Hx), (Hi _ _ Hy).
  - intros p. assert (p ∈ ps' <-> p ∈ ps \/ Healthy n = true /\ p = next l) as ->.
    { unfold ps'. destruct (Healthy n); [rewrite AllSortByIndex_perm, elem_of_app, list_elem_of_singleton|]; naive_solver. }
    rewrite Hin. destruct (decide (p = next l)) as [->|Hp].
    + rewrite Hnew. split; [intros [Hl|[]]; [by apply Hold in Hl|done]|intros []; auto].
    + rewrite Hoth by done. naive_solver.
Qed.

Lemma addNodeCache_wf n l : cache_wf l -> InsID n <> "" -> cache l !! ID n = None ->
  exists l', addNodeCache conf n l = (false, l') /\ cache_wf l' /\
    cache l' = <[ID n := next l]> (cache l) /\ heap l' = <[next l := n]> (heap l) /\
    dom (sortedNodesByClusters l') = dom (sortedNodesByClusters l).
Proof.
  intros Hwf Hid Hc. unfold addNodeCache. cbn [alloc]. eexists. split; [done|].
  set (l1 := set_cache _ _). set (l' := appendSortedNodes conf (next l) n l1).
  assert (heap l' = <[next l := n]> (heap l) /\ cache l' = <[ID n := next l]> (cache l) /\ next l' = S (next l)) as (Hh & Hc' & Hx).
  { unfold l', appendSortedNodes. by case_match. }
  assert (getInstanceTypeName conf n l1 = getInstanceTypeName conf n l) as Hpr by (by apply product_dom).
  destruct (product_known n l Hwf) as [ps Hk].
  assert (sortedNodesByClusters l' =
    <[getInstanceTypeName conf n l := if Healthy n then AllSortByIndex (index_at l') (ps ++ [next l]) else ps]>
      (sortedNodesByClusters l)) as Hs.
  { assert (index_at l' = index_at l1) as -> by (unfold index_at; by rewrite Hh).
    unfold l', appendSortedNodes. rewrite Hpr. destruct (Healthy n); cbn; [|by rewrite insert_id].
    unfold sorted_list. cbn. by rewrite Hk. }
  assert (dom (sortedNodesByClusters l') = dom (sortedNodesByClusters l)) as Hdom.
  { rewrite Hs, dom_insert_L. apply elem_of_dom_2 in Hk. set_solver. }
  split; [|done]. split.
  - apply elem_of_dom. rewrite Hdom. apply elem_of_dom, (wf_default l Hwf).
  - intros p Hp. rewrite Hh. rewrite lookup_insert_ne by lia. apply (wf_fresh l Hwf). lia.
  - intros id p. rewrite Hc', Hh. intros [[<- <-]|[Hne Hp]]%lookup_insert_Some.
    + exists n. rewrite lookup_insert_eq. by rewrite ID_InsID.
    + destruct (wf_cached l Hwf _ _ Hp) as (m & Hm & ? & ?). exists m. split; [|done].
      rewrite lookup_insert_ne; [done|]. intros <-. rewrite (wf_fresh l Hwf) in Hm by lia. done.
  - by eapply (add_lists_ok n l l').
Qed.

(** An id leaves its product's list, and nothing of that id is listed afterwards. *)
Lemma remove_lists_ok x pr ps l l' : cache_wf l -> sortedNodesByClusters l !! pr = Some ps ->
  sortedNodesByClusters l' = <[pr := filter (fun p => id_at l p <> x) ps]> (sortedNodesByClusters l) ->
  (forall q p, id_at l p <> x -> listed l' q p <-> listed l q p) ->
  (forall q p, id_at l p = x -> listed l q p -> q = pr) ->
  (forall q p, id_at l p = x -> ~ listed l' q p) ->
  (forall q p, listed l q p -> index_at l' p = index_at l p) -> lists_ok l'.
Proof.
  intros Hwf Hps Hs Hoth Hpr Hgone Hi. destruct (wf_lists l Hwf _ _ Hps) as (Hnd & Hsort & Hin).
  eapply (lists_change (fun p => id_at l p = x)); [apply Hwf|exact Hs|exact Hoth| |exact Hi| | |].
  - intros q p Hx Hq. split; [|by apply Hgone]. intros Hl. by apply Hq, (Hpr q p).
  - by apply NoDup_filter.
  - apply StronglySorted_filter. eapply StronglySorted_ext; [|exact Hsort].
    intros y z Hy%Hin Hz%Hin. by rewrite (Hi _ _ Hy), (Hi _ _ Hz).
  - intros p. rewrite list_elem_of_filter, Hin. destruct (decide (id_at l p = x)) as [E|E].
    + split; [by intros []|]. intros Hl. by apply Hgone in Hl.
    + rewrite Hoth by done. tauto.
Qed.

(** A node's product is the one of the cached node of the same id. *)
Definition same_product (n : Node) (l : local) : Prop :=
  forall p old, cache l !! ID n = Some p -> heap l !! p = Some old -> getInstanceTypeName conf old l = getInstanceTypeName conf n l.

Lemma listed_id l q p n : cache_wf l -> listed l q p -> same_product n l -> id_at l p = ID n -> q = getInstanceTypeName conf n l.
Proof.
  intros Hwf (m & Hm & Hc & _ & <-) Hsp Hid. unfold id_at in Hid. rewrite Hm in Hid. cbn in Hid.
  rewrite Hid in Hc. by apply (Hsp p m).
Qed.

Lemma delNodeCache_wf n l : cache_wf l -> same_product n l ->
  exists l', delNodeCache conf n l = (false, l') /\ cache_wf l' /\
    cache l' = delete (ID n) (cache l) /\ heap l' = heap l /\ dom (sortedNodesByClusters l') = dom (sortedNodesByClusters l).
Proof.
  intros Hwf Hsp. unfold delNodeCache, delSortedNodes. set (l1 := set_cache _ l).
  destruct (product_known n l Hwf) as [ps Hps].
  assert (getInstanceTypeName conf n l1 = getInstanceTypeName conf n l) as -> by (by apply product_dom).
  rewrite (Remove_list l l1 _ _ ps) by done. eexists. split; [done|].
  set (l' := close_conn _ _).
  assert (dom (sortedNodesByClusters l') = dom (sortedNodesByClusters l)) as Hdom.
  { cbn. rewrite dom_insert_L. apply elem_of_dom_2 in Hps. set_solver. }
  split; [|done]. split.
  - apply elem_of_dom. rewrite Hdom. apply elem_of_dom, (wf_default l Hwf).
  - apply (wf_fresh l Hwf).
  - cbn. intros id p [_ Hp]%lookup_delete_Some. by apply (wf_cached l Hwf).
  - eapply (remove_lists_ok (ID n) _ ps l l'); [done..| | | |by intros].
    + intros q p Hp. apply listed_same; [done..|]. intros m Hm. unfold id_at in Hp. rewrite Hm in Hp. cbn in Hp.
      cbn. by rewrite lookup_delete_ne by (by apply not_eq_sym).
    + intros q p Hp Hl. by eapply listed_id.
    + intros q p Hp (m & Hm & Hc & _). cbn in Hm, Hc. unfold id_at in Hp. rewrite Hm in Hp. cbn in Hp. rewrite Hp in Hc.
      by rewrite lookup_delete_eq in Hc.
Qed.

(** *** Changes in place *)

(** [l'] is [l] with the object at [p0] replaced by one of the same id and index. *)
Record in_place (p0 : nat) (old new : Node) (l l' : local) : Prop := {
  ip_old : heap l !! p0 = Some old;
  ip_heap : heap l' = <[p0 := new]> (heap l);
  ip_cache : cache l' = cache l;
  ip_next : next l' = next l;
  ip_id : ID new = ID old;
  ip_ins : InsID new = InsID old;
  ip_index : Index new = Index old;
}.

Lemma in_place_id p0 old new l l' p : in_place p0 old new l l' -> id_at l' p = id_at l p.
Proof.
  intros H. unfold id_at. rewrite (ip_heap _ _ _ _ _ H). destruct (decide (p = p0)) as [->|Hp].
  - rewrite lookup_insert_eq, (ip_old _ _ _ _ _ H). apply H.
  - by rewrite lookup_insert_ne.
Qed.

Lemma in_place_index p0 old new l l' p : in_place p0 old new l l' -> index_at l' p = index_at l p.
Proof.
  intros H. unfold index_at. rewrite (ip_heap _ _ _ _ _ H). destruct (decide (p = p0)) as [->|Hp].
  - rewrite lookup_insert_eq, (ip_old _ _ _ _ _ H). apply H.
  - by rewrite lookup_insert_ne.
Qed.

Lemma in_place_listed p0 old new l l' q p : in_place p0 old new l l' -> dom (sortedNodesByClusters l') = dom (sortedNodesByClusters l) ->
  p <> p0 -> listed l' q p <-> listed l q p.
Proof.
  intros H Hd Hp. apply listed_same; [|done|].
  - by rewrite (ip_heap _ _ _ _ _ H), lookup_insert_ne.
  - intros n _. by rewrite (ip_cache _ _ _ _ _ H).
Qed.

Lemma in_place_wf p0 old new l l' : in_place p0 old new l l' -> cache_wf l ->
  dom (sortedNodesByClusters l') = dom (sortedNodesByClusters l) -> lists_ok l' -> cache_wf l'.
Proof.
  intros H Hwf Hd Hl. split; [| | |done].
  - apply elem_of_dom. rewrite Hd. apply elem_of_dom, (wf_default l Hwf).
  - intros p Hp. rewrite (ip_next _ _ _ _ _ H) in Hp. pose proof (wf_fresh l Hwf p Hp) as Hn.
    rewrite (ip_heap _ _ _ _ _ H), lookup_insert_ne; [done|]. intros <-. by rewrite (ip_old _ _ _ _ _ H) in Hn.
  - intros id p. rewrite (ip_cache _ _ _ _ _ H), (ip_heap _ _ _ _ _ H). intros (n & Hn & Hi & ?)%(wf_cached l Hwf).
    destruct (decide (p = p0)) as [->|Hp]; [|exists n; by rewrite lookup_insert_ne].
    exists new. rewrite lookup_insert_eq. rewrite (ip_old _ _ _ _ _ H) in Hn. injection Hn as ->.
    by rewrite (ip_ins _ _ _ _ _ H).
Qed.

(** The object turns unhealthy and leaves the list of the product [pr] it is in. *)
Lemma in_place_down p0 old new pr ps l l' : in_place p0 old new l l' -> cache_wf l -> cache l !! ID old = Some p0 ->
  Healthy new = false -> getInstanceTypeName conf old l = pr -> sortedNodesByClusters l !! pr = Some ps ->
  sortedNodesByClusters l' = <[pr := filter (fun p => id_at l p <> ID old) ps]> (sortedNodesByClusters l) -> cache_wf l'.
Proof.
  intros H Hwf Hc Hbad Hpr Hps Hs.
  assert (dom (sortedNodesByClusters l') = dom (sortedNodesByClusters l)) as Hd.
  { rewrite Hs, dom_insert_L. apply elem_of_dom_2 in Hps. set_solver. }
  assert (forall q p, id_at l p = ID old -> listed l q p -> p = p0) as Hp0.
  { intros q p Hid (n & Hn & Hcn & _). unfold id_at in Hid. rewrite Hn in Hid. cbn in Hid. congruence. }
  apply (in_place_wf p0 old new l l'); [done..|]. eapply (remove_lists_ok (ID old) pr ps); [done..| | | |].
  - intros q p Hp. eapply in_place_listed; [done..|]. intros ->. apply Hp. unfold id_at. by rewrite (ip_old _ _ _ _ _ H).
  - intros q p Hid Hl. rewrite (Hp0 q p Hid Hl) in Hl. destruct Hl as (n & Hn & _ & _ & <-).
    rewrite (ip_old _ _ _ _ _ H) in Hn. by injection Hn as <-.
  - intros q p Hid (n & Hn & Hcn & Hy & _). rewrite (ip_cache _ _ _ _ _ H) in Hcn.
    assert (ID n = ID old) as E.
    { rewrite <- (in_place_id _ _ _ _ _ p H) in Hid. unfold id_at in Hid. by rewrite Hn in Hid. }
    rewrite E, Hc in Hcn. injection Hcn as <-. rewrite (ip_heap _ _ _ _ _ H), lookup_insert_eq in Hn.
    injection Hn as <-. congruence.
  - intros q p _. by eapply in_place_index.
Qed.

(** A healthy object is in the list of its product afterwards, whether it was or not. *)
Lemma in_place_up p0 old new pr ps l l' : in_place p0 old new l l' -> cache_wf l -> cache l !! ID old = Some p0 ->
  Healthy new = true -> getInstanceTypeName conf old l = pr -> getInstanceTypeName conf new l = pr ->
  sortedNodesByClusters l !! pr = Some ps ->
  sortedNodesByClusters l' = <[pr := AllSortByIndex (index_at l') (Add (id_at l') p0 ps)]> (sortedNodesByClusters l) -> cache_wf l'.
Proof.
  intros H Hwf Hc Hgood Hpr Hpr' Hps Hs. destruct (wf_lists l Hwf _ _ Hps) as (Hnd & Hsort & Hin).
  assert (dom (sortedNodesByClusters l') = dom (sortedNodesByClusters l)) as Hd.
  { rewrite Hs, dom_insert_L. apply elem_of_dom_2 in Hps. set_solver. }
  assert (Add (id_at l') p0 ps = if bool_decide (p0 ∈ ps) then ps else ps ++ [p0])%list as HA.
  { unfold Add. case_bool_decide as Hp.
    - replace (existsb _ ps) with true; [done|]. symmetry. apply existsb_exists. exists p0.
      split; [by apply list_elem_of_In|by apply bool_decide_eq_true].
    - replace (existsb _ ps) with false; [done|]. symmetry. apply not_true_iff_false. intros (v & Hv & E)%existsb_exists.
      apply list_elem_of_In in Hv. apply bool_decide_eq_true in E. apply Hp. apply Hin in Hv as Hl. destruct Hl as (n & Hn & Hcn & _).
      rewrite !(in_place_id _ _ _ _ _ _ H) in E. unfold id_at in E. rewrite Hn, (ip_old _ _ _ _ _ H) in E. cbn in E. congruence. }
  apply (in_place_wf p0 old new l l'); [done..|].
  eapply (lists_change (fun p => p = p0)); [apply Hwf|exact Hs| | | | |apply AllSortByIndex_sorted|].
  - intros q p Hp. by eapply in_place_listed.
  - intros q p -> Hq.
    split; intros (n & Hn & _ & _ & E).
    + rewrite (ip_old _ _ _ _ _ H) in Hn. injection Hn as <-. congruence.
    + rewrite (ip_heap _ _ _ _ _ H), lookup_insert_eq in Hn. injection Hn as <-.
      rewrite (product_dom new l l') in E by done. congruence.
  - intros q p _. by eapply in_place_index.
  - rewrite AllSortByIndex_perm, HA. case_bool_decide; [done|]. apply NoDup_app. split; [done|].
    split; [|apply NoDup_singleton]. by intros p Hp ->%list_elem_of_singleton.
  - intros p. rewrite AllSortByIndex_perm, HA. destruct (decide (p = p0)) as [->|Hp].
    + split; intros _; [|case_bool_decide; [done|]; apply elem_of_app; right; by apply list_elem_of_singleton].
      exists new. rewrite (ip_heap _ _ _ _ _ H), lookup_insert_eq, (ip_cache _ _ _ _ _ H), (ip_id _ _ _ _ _ H).
      by rewrite (product_dom new l l').
    + rewrite (in_place_listed p0 old new l l') by done. rewrite <- Hin.
      case_bool_decide; [done|]. rewrite elem_of_app, list_elem_of_singleton. tauto.
Qed.

(** Nothing the lists depend on changes. *)
Lemma in_place_neutral p0 old new l l' : in_place p0 old new l l' -> cache_wf l ->
  Healthy new = Healthy old -> OssClusterLabel new = OssClusterLabel old ->
  sortedNodesByClusters l' = sortedNodesByClusters l -> cache_wf l'.
Proof.
  intros H Hwf Hy Hlab Hs. apply (in_place_wf p0 old new l l'); [done..|by rewrite Hs|].
  assert (forall q p, listed l' q p <-> listed l q p) as Hl.
  { intros q p. destruct (decide (p = p0)) as [->|Hp]; [|eapply in_place_listed; [done| |done]; by rewrite Hs].
    unfold listed. rewrite (ip_heap _ _ _ _ _ H), lookup_insert_eq, (ip_old _ _ _ _ _ H), (ip_cache _ _ _ _ _ H).
    split; intros (n & [= <-] & Hc & Hn & Hp).
    - exists old. rewrite <- (ip_id _ _ _ _ _ H), <- Hy, <- (product_label new old) by done.
      by rewrite <- (product_dom new l l') by (by rewrite Hs).
    - exists new. rewrite (ip_id _ _ _ _ _ H), Hy, (product_label new old) by done.
      by rewrite (product_dom old l l') by (by rewrite Hs). }
  intros q qs Hq. rewrite Hs in Hq. destruct (wf_lists l Hwf _ _ Hq) as (Hnd & Hsort & Hin). split; [done|]. split.
  - eapply StronglySorted_ext; [|exact Hsort]. intros x y _ _. by rewrite !(in_place_index _ _ _ _ _ _ H).
  - intros p. by rewrite Hl.
Qed.

Lemma cached_node l x p : cache_wf l -> cache l !! x = Some p -> exists n, heap l !! p = Some n /\ ID n = x /\ InsID n = x.
Proof. intros Hwf Hc. destruct (wf_cached l Hwf _ _ Hc) as (n & Hn & Hi & Hx). exists n. rewrite ID_InsID; by rewrite Hi. Qed.

Lemma downNodeCache_wf now n l : cache_wf l -> same_product n l ->
  exists l', downNodeCache conf now n l = (false, l') /\ cache_wf l' /\
    cache l' = cache l /\ dom (sortedNodesByClusters l') = dom (sortedNodesByClusters l) /\
    (forall p m, heap l' !! p = Some m -> exists m', heap l !! p = Some m' /\ InsID m = InsID m' /\ OssClusterLabel m = OssClusterLabel m').
Proof.
  intros Hwf Hsp. unfold downNodeCache. destruct (cache l !! ID n) as [p|] eqn:Hc.
  2: { eexists. split; [done|]. split; [by destruct Hwf; split|]. do 2 (split; [done|]). cbn. eauto. }
  destruct (cached_node l _ p Hwf Hc) as (old & Hold & Hid & Hins). set (mark := fun o : Node => _).
  unfold delSortedNodes. set (l1 := set_heap _ l). destruct (product_known n l Hwf) as [ps Hps].
  assert (heap l1 = <[p := mark old]> (heap l)) as Hh.
  { cbn. apply map_eq. intros q. destruct (decide (q = p)) as [->|Hq].
    - by rewrite lookup_alter_eq, Hold, lookup_insert_eq.
    - by rewrite lookup_alter_ne, lookup_insert_ne. }
  assert (in_place p old (mark old) l l1) as Hip by (split; done).
  rewrite (product_dom n l l1) by done. rewrite (Remove_list l l1 _ _ ps); [|done|done|intros q; by eapply in_place_id|done].
  eexists. split; [done|]. set (l' := close_conn _ _).
  assert (in_place p old (mark old) l l') as Hip' by (split; done).
  assert (dom (sortedNodesByClusters l') = dom (sortedNodesByClusters l)) as Hd.
  { cbn. rewrite dom_insert_L. apply elem_of_dom_2 in Hps. set_solver. }
  split; [|split; [done|split; [done|]]].
  - eapply (in_place_down p old (mark old) _ ps l l'); [done|done|by rewrite Hid|done|by apply (Hsp p old)|done|by rewrite Hid].
  - intros q m. change (heap l') with (heap l1). rewrite Hh.
    intros [[<- <-]|[_ Hm]]%lookup_insert_Some; eauto.
Qed.

Lemma updateNodeFromMetaData_wf n l p old : cache_wf l -> same_product n l -> InsID n <> "" ->
  cache l !! ID n = Some p -> heap l !! p = Some old ->
  exists l', updateNodeFromMetaData conf n l = Some (false, l') /\ cache_wf l' /\ cache l' = cache l /\
    heap l' = <[p := with_metadata (meta n) old]> (heap l) /\ dom (sortedNodesByClusters l') = dom (sortedNodesByClusters l).
Proof.
  intros Hwf Hsp Hn Hc Hold. destruct (cached_node l _ p Hwf Hc) as (old' & Hold' & Hid & Hins). replace old' with old in * by congruence.
  unfold updateNodeFromMetaData. rewrite Hc, Hold. set (new := with_metadata (meta n) old).
  set (l1 := set_heap (<[p:=new]> (heap l)) l).
  assert (ID new = ID old) as HID.
  { unfold ID at 1. cbn. rewrite Hins, bool_decide_eq_false_2; [by rewrite Hid|]. by rewrite ID_InsID. }
  assert (in_place p old new l l1) as Hip by (split; done).
  assert (getInstanceTypeName conf new l1 = getInstanceTypeName conf n l) as Hpr
    by (by rewrite (product_dom new l l1), (product_label new n)).
  unfold updateSortedNodes. rewrite Hpr. destruct (product_known n l Hwf) as [ps Hps].
  assert (dom (<[getInstanceTypeName conf n l := ps]> (sortedNodesByClusters l)) = dom (sortedNodesByClusters l)) as Hd0
    by (by rewrite insert_id).
  destruct (Healthy new) eqn:Hy; cbn [negb].
  - eexists. split; [done|]. set (l' := put_list _ _ l1). assert (in_place p old new l l') as Hip' by (split; done).
    split; [|split; [done|split; [done|]]]; [|cbn; rewrite !dom_insert_L in *; done].
    eapply (in_place_up p old new _ ps l l'); [done|done|by rewrite Hid|done|by apply (Hsp p old)| |done|].
    + by rewrite (product_label new n).
    + cbn. unfold sorted_list. cbn. by rewrite Hps.
  - rewrite (Remove_list l l1 _ _ ps); [|done|done|intros q; by eapply in_place_id|done].
    eexists. split; [done|]. set (l' := put_list _ _ l1). assert (in_place p old new l l') as Hip' by (split; done).
    split; [|split; [done|split; [done|]]]; [|cbn; rewrite !dom_insert_L in *; done].
    eapply (in_place_down p old new _ ps l l'); [done|done|by rewrite Hid|done|by apply (Hsp p old)|done|by rewrite <- HID].
Qed.

End Inv.

(** ** Histories *)

Lemma each_inv {X} (f : X -> local -> panicky) (I : local -> Prop) (P : X -> Prop) xs : forall l,
  (forall x l, I l -> P x -> exists l', f x l = (false, l') /\ I l') -> I l -> Forall P xs ->
  exists l', each f xs l = (false, l') /\ I l'.
Proof.
  induction xs as [|x xs IH]; intros l Hf HI HP; [by exists l|]. apply Forall_cons in HP as [Hx HP].
  destruct (Hf x l HI Hx) as (l1 & E & HI1). cbn. rewrite E. by apply IH.
Qed.

Section Histories.
Context {Q : Type} (conf : SchedulerConf Q) {SS : SliceSort}.

(** The product of a label when [keys] are the products with a list. *)
Definition product_in (keys : gset string) (label : string) : string :=
  let product := or_string (GetInstanceTypeOfClusterLabel conf label) DefaultInstanceTypeName in
  if bool_decide (product ∈ keys) then product else DefaultInstanceTypeName.

Definition all_products : gset string := {[ DefaultInstanceTypeName ]} ∪ dom (InstanceTypeConf conf).

(** [lab] says which cluster label a node id carries for good. *)
Context (lab : string -> string).

Definition tame_node (n : Node) : Prop := InsID n <> "" /\ OssClusterLabel n = lab (InsID n).

Record tame_cache (l : local) : Prop := {
  tc_wf : cache_wf conf l;
  tc_keys : dom (sortedNodesByClusters l) = all_products;
  tc_nodes : forall p n, heap l !! p = Some n -> tame_node n;
}.

Lemma product_in_spec n l : tame_cache l -> getInstanceTypeName conf n l = product_in all_products (OssClusterLabel n).
Proof.
  intros H. unfold getInstanceTypeName, product_in. rewrite <- (tc_keys l H).
  erewrite bool_decide_ext; [done|]. by rewrite elem_of_dom.
Qed.

Lemma tame_same_product n l : tame_cache l -> tame_node n -> same_product conf n l.
Proof.
  intros H [Hi Hl] p old Hc Hold. rewrite !product_in_spec by done. f_equal.
  destruct (cached_node conf l _ p (tc_wf l H) Hc) as (old' & Hold' & _ & Hins). replace old' with old in * by congruence.
  destruct (tc_nodes l H p old Hold) as [_ ->]. rewrite Hl, Hins. by rewrite ID_InsID.
Qed.

Lemma UpsertNode_tame n l : tame_cache l -> tame_node n -> exists l', UpsertNode conf n l = (false, l') /\ tame_cache l'.
Proof.
  intros H Hn. pose proof (tame_same_product n l H Hn) as Hsp. unfold UpsertNode. destruct (cache l !! ID n) as [p|] eqn:Hc.
  - destruct (cached_node conf l _ p (tc_wf l H) Hc) as (old & Hold & _ & Hins).
    destruct (updateNodeFromMetaData_wf conf n l p old (tc_wf l H) Hsp (proj1 Hn) Hc Hold) as (l' & -> & Hwf & Hc' & Hh & Hd).
    exists l'. split; [done|]. split; [done|by rewrite Hd; apply H|].
    intros q m. rewrite Hh. intros [[<- <-]|[_ Hm]]%lookup_insert_Some; [|by apply (tc_nodes l H q)].
    destruct Hn as [Hi Hl]. split; cbn; rewrite Hins, ?ID_InsID; done.
  - unfold updateNodeFromMetaData. rewrite Hc.
    destruct (addNodeCache_wf conf n l (tc_wf l H) (proj1 Hn) Hc) as (l' & -> & Hwf & Hc' & Hh & Hd).
    exists l'. split; [done|]. split; [done|by rewrite Hd; apply H|].
    intros q m. rewrite Hh. intros [[<- <-]|[_ Hm]]%lookup_insert_Some; [done|by apply (tc_nodes l H q)].
Qed.

Lemma delNodeCache_tame n l : tame_cache l -> same_product conf n l -> exists l', delNodeCache conf n l = (false, l') /\ tame_cache l'.
Proof.
  intros H Hsp. destruct (delNodeCache_wf conf n l (tc_wf l H) Hsp) as (l' & -> & Hwf & _ & Hh & Hd).
  exists l'. split; [done|]. split; [done|by rewrite Hd; apply H|]. rewrite Hh. apply H.
Qed.

Lemma downNodeCache_tame now n l : tame_cache l -> tame_node n -> exists l', downNodeCache conf now n l = (false, l') /\ tame_cache l'.
Proof.
  intros H Hn. destruct (downNodeCache_wf conf now n l (tc_wf l H) (tame_same_product n l H Hn)) as (l' & -> & Hwf & _ & Hd & Hh).
  exists l'. split; [done|]. split; [done|by rewrite Hd; apply H|].
  intros p m (m' & [? ?]%(tc_nodes l H) & Hi & Hl)%Hh. split; congruence.
Qed.

Lemma checkDirty_tame ids l : tame_cache l -> exists l', checkDirty conf ids l = (false, l') /\ tame_cache l'.
Proof.
  intros H. unfold checkDirty. case_bool_decide; [by exists l|].
  eapply (each_inv _ tame_cache (fun _ => True)); [|done|by apply Forall_forall].
  intros p l1 H1 _. destruct (heap l1 !! p) as [h|] eqn:Hh; [|by exists l1]. case_bool_decide; [by exists l1|].
  apply delNodeCache_tame; [done|]. apply tame_same_product; [done|]. by eapply (tc_nodes l1 H1).
Qed.

(** What changes the cache after the first load. *)
Inductive node_op : Type :=
  | OpEvent (now : Z) (type : string) (insIDs : list string) (loaded : res (list Node))
  | OpSync (nodes : list Node)
  | OpUpsert (n : Node)
  | OpMetric (now : Z) (n : Node)
  | OpCount (d : Z) (n : Node).

Definition run_op (o : node_op) (l : local) : panicky :=
  match o with
  | OpEvent now type ids loaded => dealEvent conf now type ids loaded l
  | OpSync nodes => syncAllFromDB conf true nodes l
  | OpUpsert n => UpsertNode conf n l
  | OpMetric now n => (false, default l (updateNodeMetric now n l))
  | OpCount d n => (false, NodeConcurrentIncrBy d n l)
  end.

(** Nodes keep their label, and a DEL event names nodes of the default product
    only (or of the product of the empty label). *)
Definition tame_op (o : node_op) : Prop :=
  match o with
  | OpEvent _ type ids loaded =>
      if type =s DEL then Forall (fun id => product_in all_products (lab id) = product_in all_products "") ids
      else match loaded with Ok nodes => Forall tame_node nodes | Err _ => True end
  | OpSync nodes => Forall tame_node nodes
  | OpUpsert n => tame_node n
  | _ => True
  end.

Lemma in_place_tame p old new l l' : tame_cache l -> in_place p old new l l' -> Healthy new = Healthy old ->
  OssClusterLabel new = OssClusterLabel old -> sortedNodesByClusters l' = sortedNodesByClusters l -> tame_cache l'.
Proof.
  intros H Hip Hy Hl Hs. split; [apply (in_place_neutral conf p old new l l'); [done|apply H|done..]|by rewrite Hs; apply H|].
  intros q m. rewrite (ip_heap _ _ _ _ _ Hip). intros [[<- <-]|[_ Hm]]%lookup_insert_Some; [|by apply (tc_nodes l H q)].
  destruct (tc_nodes l H _ _ (ip_old _ _ _ _ _ Hip)) as [? ?]. split; [by rewrite (ip_ins _ _ _ _ _ Hip)|].
  by rewrite (ip_ins _ _ _ _ _ Hip), Hl.
Qed.

(** Changing a cached object by a function that keeps what the lists depend on. *)
Lemma alter_tame (f : Node -> Node) x p l : tame_cache l -> cache l !! x = Some p ->
  (forall n, meta (f n) = meta n /\ InsID (f n) = InsID n /\ Index (f n) = Index n) ->
  tame_cache (set_heap (alter f p (heap l)) l).
Proof.
  intros H Hc Hf. destruct (cached_node conf l _ p (tc_wf l H) Hc) as (old & Hold & _). destruct (Hf old) as (Hm & Hi & Hx).
  apply (in_place_tame p old (f old) l); [done| |by rewrite Hm|by rewrite Hm|done]. split; try done.
  - cbn. apply map_eq. intros q. destruct (decide (q = p)) as [->|Hq].
    + by rewrite lookup_alter_eq, Hold, lookup_insert_eq.
    + by rewrite lookup_alter_ne, lookup_insert_ne.
  - unfold ID. by rewrite Hi, Hm.
Qed.

Lemma run_op_tame o l : tame_cache l -> tame_op o -> exists l', run_op o l = (false, l') /\ tame_cache l'.
Proof.
  intros H Ho. destruct o as [now type ids loaded|nodes|n|now n|d n]; cbn [run_op tame_op] in *.
  - unfold dealEvent. destruct (type =s DEL).
    + eapply (each_inv _ tame_cache); [|done|exact Ho]. intros id l1 H1 Hid. apply delNodeCache_tame; [done|].
      intros p old Hc Hold. rewrite !product_in_spec by done. cbn [OssClusterLabel bare_node meta bare_metadata].
      rewrite <- Hid. f_equal. destruct (tc_nodes l1 H1 p old Hold) as [Hi ->]. f_equal.
      destruct (cached_node conf l1 _ p (tc_wf l1 H1) Hc) as (old' & Hold' & _ & Hins). replace old' with old in * by congruence.
      rewrite Hins. unfold ID. cbn. case_bool_decide; [|done]. subst id. rewrite Hins in Hi. by unfold ID in Hi.
    + destruct ((type =s ADD) || (type =s UPDATE)).
      * destruct loaded as [nodes|]; [|by exists l]. eapply (each_inv _ tame_cache); [|done|exact Ho].
        intros n l1. apply UpsertNode_tame.
      * destruct (type =s DOWN); [|by exists l]. destruct loaded as [nodes|]; [|by exists l].
        eapply (each_inv _ tame_cache); [|done|exact Ho]. intros n l1. apply downNodeCache_tame.
  - unfold syncAllFromDB. destruct (each_inv (UpsertNode conf) tame_cache tame_node nodes l) as (l1 & -> & H1); [|done..|].
    + intros n l1. apply UpsertNode_tame.
    + by apply checkDirty_tame.
  - by apply UpsertNode_tame.
  - eexists. split; [done|]. unfold updateNodeMetric. destruct (cache l !! ID n) as [p|] eqn:Hc; [|done]. cbn.
    by eapply alter_tame.
  - eexists. split; [done|]. unfold NodeConcurrentIncrBy. destruct (cache l !! ID n) as [p|] eqn:Hc; [|done].
    by eapply alter_tame.
Qed.

Lemma Init_keys t : dom (sortedNodesByClusters (Init conf t)) = all_products /\
  (forall k ps, sortedNodesByClusters (Init conf t) !! k = Some ps -> ps = []).
Proof.
  unfold Init. cbn [sortedNodesByClusters]. unfold all_products, GetSchedulerInstanceTypeConfs.
  assert (forall ks (m : gmap string (list nat)), (forall k ps, m !! k = Some ps -> ps = []) ->
    dom (foldl (fun m k => <[k := []]> m) m ks) = dom m ∪ list_to_set ks /\
    (forall k ps, foldl (fun m k => <[k := []]> m) m ks !! k = Some ps -> ps = [])) as Hg.
  { induction ks as [|k ks IH]; intros m Hm; [split; [set_solver|done]|]. cbn.
    destruct (IH (<[k:=[]]> m)) as [Hd He].
    - intros k' ps [[_ <-]|[_ ?]]%lookup_insert_Some; [done|by eapply Hm].
    - split; [|done]. rewrite Hd, dom_insert_L. set_solver. }
  destruct (Hg (elements (dom (InstanceTypeConf conf))) {[DefaultInstanceTypeName := []]}) as [Hd He].
  - by intros k ps [_ <-]%lookup_singleton_Some.
  - split; [|done]. rewrite Hd, dom_singleton_L, list_to_set_elements_L. done.
Qed.

Lemma Init_tame t : tame_cache (Init conf t).
Proof.
  destruct (Init_keys t) as [Hd He]. split; [split|done|].
  - apply elem_of_dom. rewrite Hd. unfold all_products. set_solver.
  - intros p _. apply lookup_empty.
  - intros id p. cbn. by rewrite lookup_empty.
  - intros pr ps Hps. rewrite (He _ _ Hps). split; [constructor|]. split; [constructor|].
    intros p. split; [by intros ?%not_elem_of_nil|]. intros (n & Hn & _). cbn in Hn. by rewrite lookup_empty in Hn.
  - intros p n. cbn. by rewrite lookup_empty.
Qed.

Lemma first_load_tame nodes : forall l, tame_cache l -> Forall tame_node nodes -> NoDup (InsID <$> nodes) ->
  (forall n, n ∈ nodes -> cache l !! ID n = None) ->
  exists l', each (addNodeCache conf) nodes l = (false, l') /\ tame_cache l'.
Proof.
  induction nodes as [|n nodes IH]; intros l H HF Hnd Hc; [by exists l|]. apply Forall_cons in HF as [Hn HF].
  cbn [fmap list_fmap] in Hnd. apply NoDup_cons in Hnd as [Hni Hnd].
  destruct (addNodeCache_wf conf n l (tc_wf l H) (proj1 Hn) ltac:(apply Hc; by left)) as (l' & E & Hwf & Hc' & Hh & Hd).
  cbn [each]. rewrite E. apply IH; [|done..|].
  - split; [done|by rewrite Hd; apply H|]. intros q m. rewrite Hh.
    intros [[<- <-]|[_ Hm]]%lookup_insert_Some; [done|by apply (tc_nodes l H q)].
  - intros m Hm. rewrite Hc', lookup_insert_ne; [apply Hc; by right|]. intros E'. apply Hni.
    rewrite Forall_forall in HF. destruct Hn as [Hn1 _], (HF m Hm) as [Hm1 _]. rewrite !ID_InsID in E' by done.
    rewrite E'. by apply list_elem_of_fmap_2.
Qed.

(** C5: the lists the scheduler reads are exact.  After the first load and any
    history of events, full synchronisations, metric updates and counter changes
    in which nodes keep their cluster label (and only nodes of the default
    product are deleted by an event), no handler panics, every product has its
    list, ordered by index, without an id twice, and an object is in the list of
    a product exactly when the cache holds it, it is marked healthy and its label
    belongs to the product. *)
Theorem node_lists_exact t nodes ops :
  Forall tame_node nodes -> NoDup (InsID <$> nodes) -> Forall tame_op ops ->
  exists l0 l, syncAllFromDB conf false nodes (Init conf t) = (false, l0) /\ each run_op ops l0 = (false, l) /\
    dom (sortedNodesByClusters l) = all_products /\
    forall product ps, sortedNodesByClusters l !! product = Some ps ->
      StronglySorted (fun p q => index_at l p <= index_at l q) ps /\ NoDup (id_at l <$> ps) /\
      forall p, p ∈ ps <-> exists n, heap l !! p = Some n /\ cache l !! ID n = Some p /\ Healthy n = true /\
                                     product_in all_products (OssClusterLabel n) = product.
Proof.
  intros Hn Hnd Ho. unfold syncAllFromDB.
  destruct (first_load_tame nodes (Init conf t) (Init_tame t) Hn Hnd) as (l0 & E0 & H0); [intros; apply lookup_empty|].
  rewrite E0. destruct (each_inv run_op tame_cache tame_op ops l0) as (l & E & H); [|done..|].
  { intros o l1. apply run_op_tame. }
  exists l0, l. split; [done|]. split; [done|]. split; [apply H|]. intros pr ps Hps.
  destruct (wf_lists conf l (tc_wf l H) _ _ Hps) as (_ & Hs & Hin). split; [done|]. split; [eapply wf_ids_distinct; [apply H|done]|].
  intros p. rewrite Hin. unfold listed. split; intros (n & ? & ? & ? & E'); exists n; rewrite product_in_spec in * by done; done.
Qed.

End Histories.

(** ** Running it *)

Fixpoint insert_by {A} (less : A -> A -> bool) (x : A) (l : list A) : list A :=
  match l with
  | [] => [x]
  | y :: l => if less x y then x :: y :: l else y :: insert_by less x l
  end.

Lemma insert_by_perm {A} less (x : A) l : insert_by less x l ≡ₚ x :: l.
Proof. induction l as [|y l IH]; [done|]. cbn. case_match; [done|]. rewrite IH. apply Permutation_swap. Qed.

Lemma insert_by_sorted {A} (less : A -> A -> bool) x l :
  (forall x y z, less x y = false -> less y z = false -> less x z = false) ->
  (forall x y, less x y = true -> less y x = false) ->
  StronglySorted (fun x y => less y x = false) l -> StronglySorted (fun x y => less y x = false) (insert_by less x l).
Proof.
  intros Ht Ha. induction 1 as [|y l Hl IH Hy]; [repeat constructor|]. cbn. destruct (less x y) eqn:E.
  - constructor; [by constructor|]. rewrite Forall_cons. split; [by apply Ha|].
    eapply Forall_impl; [exact Hy|]. cbn. intros z Hz. eapply Ht; [exact Hz|by apply Ha].
  - constructor; [done|]. rewrite insert_by_perm, Forall_cons. done.
Qed.

(** Insertion sort, one of the orders [sort.Slice] may give. *)
Program Definition demo_sort : SliceSort :=
  {| sort_slice := fun A less l => foldr (fun x acc => insert_by less x acc) [] (reverse l) |}.
Next Obligation.
  intros A less l. rewrite <- (reverse_Permutation l) at 2. induction (reverse l) as [|x r IH]; [done|].
  cbn. by rewrite insert_by_perm, IH.
Qed.
Next Obligation.
  intros A less l Ht Ha. apply StronglySorted_Sorted. induction (reverse l) as [|x r IH]; [constructor|]. cbn. by apply insert_by_sorted.
Qed.

Definition demo_conf : SchedulerConf Z :=
  match @preHandleScheduler Z demo_quantity 5 demo_sched with Ok s => s | Err _ => demo_sched end.

Definition demo_meta (label : string) (healthy : bool) : Metadata :=
  MkMetadata "10.0.0.1" "" 8 16000 0 0 "z" "" 4000 8000 healthy healthy "" "" 0 0 5 "" 0 "" "" [] "" "" "box" label ∅.
Definition demo_node (i : Z) (id label : string) (healthy : bool) : Node :=
  MkNode i id "" (demo_meta label healthy) bare_metrics time_zero f64_zero 0.

Definition demo_lab (id : string) : string := if id =s "h3" then "" else "l1".

Definition demo_nodes : list Node := [demo_node 2 "h2" "l1" true; demo_node 1 "h1" "l1" true; demo_node 3 "h3" "" true].
Definition demo_history : list node_op :=
  [OpMetric 9 (demo_node 1 "h1" "l1" true); OpEvent 9 DOWN ["h2"] (Ok [demo_node 2 "h2" "l1" true]);
   OpEvent 9 DEL ["h3"] (Err ""); OpSync [demo_node 1 "h1" "l1" true; demo_node 2 "h2" "l1" true]].

Lemma node_lists_exact_witness :
  exists l0 l, @syncAllFromDB Z demo_conf demo_sort false demo_nodes (Init demo_conf 1) = (false, l0) /\
    each (@run_op Z demo_conf demo_sort) demo_history l0 = (false, l) /\
    sorted_list "box" l = [1; 0]%nat /\ sorted_list "default" l = [].
Proof.
  destruct (node_lists_exact (SS:=demo_sort) demo_conf demo_lab 1 demo_nodes demo_history) as (l0 & l & E0 & E & _).
  - repeat constructor; done.
  - repeat constructor; set_solver.
  - repeat constructor; done.
  - exists l0, l. split; [done|]. split; [done|]. vm_compute in E0. injection E0 as <-. vm_compute in E. injection E as <-.
    by vm_compute.
Defined.

(** ** Defects of the cache *)

(** A DEL event looks for the node in the list of the product of the empty label:
    a node of another product leaves the cache and stays in its list. *)
Theorem deleted_node_stays_listed {Q} (conf : SchedulerConf Q) {SS : SliceSort} now loaded l product p n :
  cache_wf conf l -> heap l !! p = Some n -> cache l !! ID n = Some p -> Healthy n = true ->
  getInstanceTypeName conf n l = product -> getInstanceTypeName conf (bare_node (ID n)) l <> product ->
  let l' := (dealEvent conf now DEL [ID n] loaded l).2 in
  cache l' !! ID n = None /\ p ∈ sorted_list product l' /\ heap l' !! p = Some n.
Proof.
  intros Hwf Hn Hc Hy Hpr Hne. destruct (product_known conf n l Hwf) as [ps Hps].
  assert (p ∈ ps) as Hp by (apply (wf_lists conf l Hwf _ _ Hps); exists n; by rewrite Hpr).
  assert (ID n <> "") as Hid by (destruct (wf_cached conf l Hwf _ _ Hc) as (? & _ & _ & ?); done).
  assert (ID (bare_node (ID n)) = ID n) as HID by (by apply ID_InsID).
  unfold dealEvent. cbn [each bool_decide]. rewrite bool_decide_eq_true_2 by done. cbn [each].
  unfold delNodeCache, delSortedNodes. rewrite HID. set (l1 := set_cache _ l).
  rewrite (product_dom conf _ l l1) by done. destruct (Remove _ _ _) as [b xs].
  assert (p ∈ sorted_list product (put_list (getInstanceTypeName conf (bare_node (ID n)) l) xs l1)) as Hin.
  { unfold sorted_list. cbn. rewrite lookup_insert_ne by done. by rewrite <- Hpr, Hps. }
  destruct b; cbn [snd]; (split; [apply lookup_delete_eq|]); by split.
Qed.

Definition demo_loaded : local := (@syncAllFromDB Z demo_conf demo_sort false demo_nodes (Init demo_conf 1)).2.

Lemma deleted_node_stays_listed_witness :
  let l' := (@dealEvent Z demo_conf demo_sort 9 DEL ["h1"] (Err "") demo_loaded).2 in
  cache l' !! "h1" = None /\ 1%nat ∈ sorted_list "box" l'.
Proof.
  destruct (deleted_node_stays_listed (SS:=demo_sort) demo_conf 9 (Err "") demo_loaded "box" 1 (demo_node 1 "h1" "l1" true)) as (H1 & H2 & _).
  - destruct (first_load_tame (SS:=demo_sort) demo_conf demo_lab demo_nodes (Init demo_conf 1)) as (l & E & H).
    + apply Init_tame.
    + repeat constructor; done.
    + repeat constructor; set_solver.
    + intros; apply lookup_empty.
    + unfold demo_loaded, syncAllFromDB. rewrite E. apply H.
  - by vm_compute.
  - by vm_compute.
  - done.
  - by vm_compute.
  - by vm_compute.
  - exact (conj H1 H2).
Defined.

(** What follows: the node comes back and is listed twice, and the event that
    takes it down panics in the middle of [Remove], leaving both entries. *)
Theorem readded_node_listed_twice :
  let ev l o := each (@run_op Z demo_conf demo_sort) o l in
  let '(p1, l1) := ev demo_loaded [OpEvent 9 DEL ["h1"] (Err ""); OpEvent 9 ADD ["h1"] (Ok [demo_node 1 "h1" "l1" true])] in
  let '(p2, l2) := ev l1 [OpEvent 9 DEL ["h2"] (Err ""); OpEvent 9 DOWN ["h1"] (Ok [demo_node 1 "h1" "l1" true])] in
  p1 = false /\ id_at l1 <$> sorted_list "box" l1 = ["h1"; "h1"; "h2"] /\
  p2 = false /\ id_at l2 <$> sorted_list "box" l2 = ["h1"; "h2"] /\
  (ev l1 [OpEvent 9 UPDATE ["h2"] (Ok [demo_node 2 "h2" "l1" false]);
          OpEvent 9 DOWN ["h1"] (Ok [demo_node 1 "h1" "l1" true])]).1 = true.
Proof. by vm_compute. Qed.

(** A node whose cluster label changes is entered into the list of its new
    product and never leaves the old one. *)
Theorem relabelled_node_in_two_lists :
  let '(p, l) := each (@run_op Z demo_conf demo_sort)
                   [OpEvent 9 UPDATE ["h1"] (Ok [demo_node 1 "h1" "" true]); OpSync [demo_node 1 "h1" "" true]] demo_loaded in
  p = false /\ "h1" ∈ (id_at l <$> sorted_list "box" l) /\ "h1" ∈ (id_at l <$> sorted_list "default" l).
Proof. vm_compute. split; [done|]. split; repeat constructor. Qed.

(** The number of creations in flight is kept with the object: a node deleted and
    added again meanwhile ends below zero, and is offered more creations than its limit. *)
Theorem readded_node_negative_count :
  let '(_, l) := each (@run_op Z demo_conf demo_sort)
                   [OpCount 1 (demo_node 3 "h3" "" true); OpEvent 9 DEL ["h3"] (Err "");
                    OpEvent 9 ADD ["h3"] (Ok [demo_node 3 "h3" "" true]); OpCount (-1) (demo_node 3 "h3" "" true)] demo_loaded in
  LocalCreateNum <$> GetNode 30 9 "h3" l = Some (-1).
Proof. by vm_compute. Qed.

(** ** Pages *)

(** Nodes numbered 1, 2, 3 and on, or nodes without usable indices. *)
Definition numbered (idx : nat -> Z) (ps : list nat) : Prop :=
  (forall i p, ps !! i = Some p -> idx p = Z.of_nat i + 1) \/ supportsIndexPagination (idx <$> ps) = false.

Lemma first_at_numbered (idx : nat -> Z) (ps : list nat) (k : nat) : forall i,
  (forall j p, ps !! j = Some p -> idx p = Z.of_nat (i + j) + 1) -> (i <= k < i + length ps)%nat ->
  first_at idx (Z.of_nat k + 1) ps i = k.
Proof.
  induction ps as [|p ps IH]; intros i Hi Hk; [cbn in Hk; lia|]. cbn [first_at].
  rewrite (Hi 0%nat p eq_refl). destruct (Z.leb_spec (Z.of_nat k + 1) (Z.of_nat (i + 0) + 1)); [lia|].
  apply IH; [|cbn in Hk; lia]. intros j q Hq. rewrite (Hi (S j) q Hq). lia.
Qed.

Lemma clip_end_min (n k size : Z) : 0 <= k < n -> 0 < size -> n + size <= int_max -> clip_end n k size = Z.min n (k + size).
Proof. intros Hk Hs Hm. unfold clip_end. rewrite wrap64_id by (unfold int_min; lia). case_match; lia. Qed.

(** The page that starts at position [k]. *)
Lemma page_at idx ps (k : nat) size : numbered idx ps -> (k < length ps)%nat -> 0 < size ->
  Z.of_nat (length ps) + size <= int_max ->
  let e := Z.min (Z.of_nat (length ps)) (Z.of_nat k + size) in
  IndexByPage idx ps (Z.of_nat k + 1) size = Ok (take (Z.to_nat e - k) (drop k ps), e).
Proof.
  intros Hnum Hk Hs Hm e. unfold IndexByPage.
  rewrite (proj2 (Z.eqb_neq _ _)) by lia. rewrite (proj2 (Z.leb_gt size 0)), (proj2 (Z.ltb_ge (Z.of_nat k + 1) 0)) by lia. cbn [orb].
  assert (slice ps (Z.of_nat k) e = Ok (take (Z.to_nat e - k) (drop k ps))) as Hsl.
  { unfold slice. rewrite (proj2 (Z.leb_le 0 _)), (proj2 (Z.leb_le _ e)), (proj2 (Z.leb_le e _)) by lia. cbn [andb].
    f_equal. rewrite Nat2Z.id. f_equal. lia. }
  destruct (supportsIndexPagination (idx <$> ps)) eqn:Hsup; cbn [negb].
  - destruct Hnum as [Hnum|?]; [|congruence]. destruct (last ps) as [z|] eqn:Hlast; [|apply last_None in Hlast; subst ps; cbn in Hk; lia].
    cbn [from_option]. rewrite last_lookup in Hlast. rewrite (Hnum _ _ Hlast).
    rewrite (proj2 (Z.ltb_ge _ _)) by lia. destruct (Z.eqb_spec (Z.of_nat k + 1) (Z.of_nat (Nat.pred (length ps)) + 1)) as [E|E].
    + assert (k = length ps - 1)%nat as -> by lia. f_equal. f_equal; [|lia].
      rewrite take_ge; [done|]. rewrite length_drop. lia.
    + rewrite (first_at_numbered idx ps k 0) by (exact Hnum || lia). rewrite clip_end_min by lia. fold e. rewrite Hsl. cbn [rbind].
      destruct (ps !! Z.to_nat (e - 1)) as [v|] eqn:Ev; [|apply lookup_ge_None in Ev; lia]. rewrite (Hnum _ _ Ev). f_equal. f_equal. lia.
  - rewrite (proj2 (Z.leb_gt (Z.of_nat k + 1) 0)) by lia. rewrite (proj2 (Z.ltb_ge _ _)) by lia.
    replace (Z.of_nat k + 1 - 1) with (Z.of_nat k) by lia. rewrite clip_end_min by lia. fold e. by rewrite Hsl.
Qed.

Lemma all_pages_from product ps size l : sortedNodesByClusters l !! product = Some ps -> numbered (index_at l) ps ->
  0 < size -> Z.of_nat (length ps) + size <= int_max -> forall fuel k, (k < length ps)%nat -> (length ps - k <= fuel)%nat ->
  all_pages fuel (Z.of_nat (length ps)) product (Z.of_nat k + 1) size l (take k ps) = Some (Ok ps).
Proof.
  intros Hps Hnum Hs Hm. induction fuel as [|fuel IH]; intros k Hk Hf; [lia|]. cbn [all_pages]. unfold list_page, RangeDBHost.
  rewrite (proj2 (Z.leb_gt size 0)), (proj2 (Z.ltb_ge (Z.of_nat k + 1) 0)), (proj2 (Z.eqb_neq (Z.of_nat k + 1) 0)) by lia.
  cbn [orb]. rewrite Hps, (page_at _ ps k size) by done. cbn [rbind fst snd lr_Total lr_EndIdx lr_Nodes].
  set (e := Z.min _ _).
  assert ((take k ps ++ take (Z.to_nat e - k) (drop k ps))%list = take (Z.to_nat e) ps) as ->.
  { rewrite <- (take_drop k ps) at 3. rewrite take_app, length_take, Nat.min_l by lia. rewrite (take_ge (take k ps)); [done|].
    rewrite length_take. lia. }
  rewrite (proj2 (Z.eqb_neq (Z.of_nat (length ps)) 0)), (proj2 (Z.eqb_neq e 0)) by lia.
  rewrite (proj2 (Z.eqb_neq (Z.of_nat (length _)) 0)) by (rewrite length_take, length_drop; lia). cbn [orb].
  destruct (Z.leb_spec (Z.of_nat (length ps)) e).
  - rewrite take_ge by lia. done.
  - rewrite <- (Z2Nat.id e) at 1 by lia. apply IH; lia.
Qed.

(** Listing everything page by page.  When the service counts the nodes of the
    list and the nodes are numbered 1, 2, 3 and on, or have no indices at all, the
    loop ends after at most one request per node and has seen every node once, in
    order, whatever the page size. *)
Theorem all_pages_complete product ps size l :
  sortedNodesByClusters l !! product = Some ps -> numbered (index_at l) ps ->
  0 < size -> Z.of_nat (length ps) + size <= int_max ->
  runListQueryAllPages (S (length ps)) (Z.of_nat (length ps)) product 1 size l = Some (Ok ps).
Proof.
  intros Hps Hnum Hs Hm. unfold runListQueryAllPages. rewrite (proj2 (Z.leb_gt size 0)) by lia. cbn [Z.leb Z.compare].
  destruct ps as [|p ps'] eqn:E.
  - cbn [all_pages]. unfold list_page, RangeDBHost. rewrite (proj2 (Z.leb_gt size 0)) by lia. cbn. by rewrite Hps.
  - rewrite <- E in *. apply (all_pages_from product ps size l Hps Hnum Hs Hm (S (length ps)) 0); subst ps; cbn; lia.
Qed.

Lemma all_pages_complete_witness :
  runListQueryAllPages 3 2 "box" 1 1 demo_loaded = Some (Ok [1; 0]%nat).
Proof.
  apply (all_pages_complete "box" [1; 0]%nat 1 demo_loaded); [by vm_compute| |lia|by vm_compute].
  left. intros [|[|[|i]]] p; vm_compute; by intros [= <-].
Defined.

(** Defect: the loop compares the last index of a page, which is a database key,
    with the number of nodes.  When the keys start beyond that number it stops
    after the first page. *)
Theorem all_pages_stops_early product p q ps l fuel :
  sortedNodesByClusters l !! product = Some (p :: q :: ps) ->
  supportsIndexPagination (index_at l <$> p :: q :: ps) = true -> index_at l p < from_option (index_at l) 0 (last (p :: q :: ps)) ->
  Z.of_nat (length (p :: q :: ps)) <= index_at l p ->
  runListQueryAllPages (S fuel) (Z.of_nat (length (p :: q :: ps))) product 1 1 l = Some (Ok [p]).
Proof.
  intros Hps Hsup Hlt Hge. set (all := p :: q :: ps) in *. assert (2 <= Z.of_nat (length all)) as Hlen by (cbn; lia).
  assert (IndexByPage (index_at l) all 1 1 = Ok ([p], index_at l p)) as Hpage.
  { unfold IndexByPage. rewrite Hsup. rewrite (proj2 (Z.eqb_neq (Z.of_nat (length all)) 0)) by lia. cbn [negb orb Z.leb Z.ltb Z.compare].
    rewrite (proj2 (Z.ltb_ge _ 1)), (proj2 (Z.eqb_neq 1 _)) by lia.
    assert (first_at (index_at l) 1 all 0 = 0%nat) as ->.
    { cbn [all first_at]. by rewrite (proj2 (Z.leb_le 1 (index_at l p))) by lia. }
    unfold clip_end. change (wrap64 (Z.of_nat 0 + 1)) with 1. rewrite (proj2 (Z.ltb_ge _ 1)) by lia.
    unfold slice. rewrite (proj2 (Z.leb_le 1 _)) by lia. done. }
  unfold runListQueryAllPages. cbn [Z.leb Z.compare all_pages]. unfold list_page, RangeDBHost.
  cbn [Z.leb Z.compare Z.ltb Z.eqb orb]. rewrite Hps, Hpage. cbn [rbind fst snd lr_Total lr_EndIdx lr_Nodes].
  rewrite (proj2 (Z.leb_le (Z.of_nat (length all)) (index_at l p))) by lia. by rewrite !orb_true_r.
Qed.

Definition gap_loaded : local :=
  (@syncAllFromDB Z demo_conf demo_sort false [demo_node 7 "h7" "l1" true; demo_node 9 "h9" "l1" true] (Init demo_conf 1)).2.

Lemma all_pages_stops_early_witness :
  sorted_list "box" gap_loaded = [0; 1]%nat /\ runListQueryAllPages 9 2 "box" 1 1 gap_loaded = Some (Ok [0%nat]).
Proof. split; [by vm_compute|]. apply (all_pages_stops_early "box" 0 1 [] gap_loaded 8); by vm_compute. Defined.

(** ** What the queries return *)

Lemma healthy_loop_spec interval now n ns : forall acc,
  healthy_loop interval now n ns acc =
    let hs := filter (fun c : Node => Healthy c = true) (cloneNodeWithCurrentHealth interval now <$> ns) in
    (acc ++ (if (n <? 0)%Z then hs else take (Z.to_nat n - length acc) hs))%list.
Proof.
  induction ns as [|v ns IH]; intros acc; cbn [healthy_loop fmap list_fmap].
  - cbn. destruct (n <? 0)%Z; [|rewrite take_nil]; by rewrite app_nil_r.
  - destruct ((0 <=? n) && (n <=? Z.of_nat (length acc))) eqn:E.
    + apply andb_prop in E as [E1%Z.leb_le E2%Z.leb_le]. cbn zeta. rewrite (proj2 (Z.ltb_ge n 0)) by lia.
      replace (Z.to_nat n - length acc)%nat with 0%nat by lia. by rewrite app_nil_r.
    + rewrite IH. cbn zeta. rewrite filter_cons. set (c := cloneNodeWithCurrentHealth interval now v).
      destruct (Healthy c); case_decide; try done. rewrite <- app_assoc. f_equal.
      destruct (Z.ltb_spec n 0); [done|]. apply andb_false_iff in E as [E%Z.leb_gt|E%Z.leb_gt]; [lia|].
      replace (Z.to_nat n - length acc)%nat with (S (Z.to_nat n - length (acc ++ [c]))) by (rewrite length_app; cbn; lia). done.
Qed.

(** The nodes a query for all nodes of a product may return. *)
Lemma elem_of_healthy interval now product l ps c : sortedNodesByClusters l !! product = Some ps ->
  c ∈ GetHealthyNodesByInstanceType interval now (-1) product l <->
  exists p n, p ∈ ps /\ heap l !! p = Some n /\ c = cloneNodeWithCurrentHealth interval now n /\ Healthy c = true.
Proof.
  intros Hps. unfold GetHealthyNodesByInstanceType. rewrite Hps, healthy_loop_spec. cbn.
  rewrite list_elem_of_filter, list_elem_of_fmap. setoid_rewrite list_elem_of_omap. unfold node_at. naive_solver.
Qed.

Lemma clone_ID interval now n : ID (cloneNodeWithCurrentHealth interval now n) = ID n.
Proof. done. Qed.

Lemma NoDup_omap_ids l ps : NoDup (id_at l <$> ps) -> NoDup (ID <$> omap (node_at l) ps).
Proof.
  induction ps as [|p ps IH]; [constructor|]. cbn [fmap list_fmap omap list_omap]. intros [Hp Hnd]%NoDup_cons.
  unfold node_at at 1. destruct (heap l !! p) as [n|] eqn:E; [|by apply IH]. cbn. constructor; [|by apply IH].
  intros (m & Hm & (q & Hq & Hn)%list_elem_of_omap)%list_elem_of_fmap. apply Hp. apply list_elem_of_fmap. exists q. split; [|done].
  unfold id_at, node_at in *. by rewrite E, Hn.
Qed.

(** No query returns an id twice. *)
Lemma healthy_ids_distinct {Q} (conf : SchedulerConf Q) l interval now n product : cache_wf conf l ->
  NoDup (ID <$> GetHealthyNodesByInstanceType interval now n product l).
Proof.
  intros Hwf.
  assert (forall ps, NoDup (id_at l <$> ps) -> NoDup (ID <$> healthy_loop interval now n (omap (node_at l) ps) [])) as Hg.
  { intros ps Hnd%NoDup_omap_ids. rewrite healthy_loop_spec. cbn.
    assert (ID <$> (cloneNodeWithCurrentHealth interval now <$> omap (node_at l) ps) = ID <$> omap (node_at l) ps) as E.
    { rewrite <- list_fmap_compose. apply list_fmap_ext. intros i x _. apply clone_ID. }
    rewrite <- E in Hnd. set (cs := cloneNodeWithCurrentHealth interval now <$> omap (node_at l) ps) in *.
    assert (NoDup (ID <$> filter (fun c : Node => Healthy c = true) cs)) as Hf.
    { clear E. induction cs as [|c cs IH]; [constructor|]. cbn in Hnd. apply NoDup_cons in Hnd as [Hc Hnd].
      rewrite filter_cons. case_decide; [|by apply IH]. cbn. constructor; [|by apply IH].
      intros (x & Hx & [_ Hin]%list_elem_of_filter)%list_elem_of_fmap. apply Hc. rewrite Hx. by apply list_elem_of_fmap_2. }
    case_match; [done|]. rewrite fmap_take. eapply sublist_NoDup; [exact Hf|apply sublist_take]. }
  unfold GetHealthyNodesByInstanceType. destruct (sortedNodesByClusters l !! product) as [ps|] eqn:Hps.
  - apply Hg. by eapply wf_ids_distinct.
  - apply Hg. rewrite <- list_fmap_compose.
    assert (id_at l ∘ snd <$> map_to_list (cache l) = (map_to_list (cache l)).*1) as ->.
    { apply Forall_fmap_ext, Forall_forall. intros [id p] Hin%elem_of_map_to_list. cbn.
      destruct (cached_node conf l id p Hwf Hin) as (m & Hm & HID & _). unfold id_at. by rewrite Hm. }
    apply NoDup_fst_map_to_list.
Qed.
