(* ===== verification/MasterVersions.v ===== *)
(** * Component versions of nodes
    (CubeMaster/pkg/nodemeta/versionmatrix.go and the version part of service.go)

    Every node reports the versions of the components installed on it.  A content
    hash saves a database write when nothing changed; the matrix groups nodes by
    component and version and marks what the release manifest declares.  The
    manifest is a decoded value: reading the file and parsing it is not modelled. *)
From Stdlib Require Import Ascii.
From S2P Require Import Prelude GoStrings GoValue MasterConfig MasterNodes.

Open Scope string_scope.
Open Scope Z_scope.

Record ComponentVersion : Type := MkCV {
  Component : string; Version : string; Commit : string; BuildTime : string; Source : string;
}.

#[global] Instance ComponentVersion_eq_dec : EqDecision ComponentVersion.
Proof. solve_decision. Defined.

(** ** The content hash *)

(** FNV-1a, 64 bits (package hash/fnv). *)
Definition fnv_offset : Z := 14695981039346656037.
Definition fnv_prime : Z := 1099511628211.
Fixpoint fnv64a (h : Z) (s : string) : Z :=
  match s with
  | EmptyString => h
  | String a s => fnv64a ((Z.lxor h (code a) * fnv_prime) mod 2 ^ 64) s
  end.

(** [strconv.FormatUint(h, 16)]. *)
Definition hex_char (d : Z) : string := String (ascii_of_N (Z.to_N (if d <? 10 then 48 + d else 87 + d))) "".
Fixpoint hex_digits (fuel : nat) (z : Z) (acc : string) : string :=
  match fuel with
  | O => acc
  | S fuel => let acc := hex_char (z mod 16) +:+ acc in if z <? 16 then acc else hex_digits fuel (z / 16) acc
  end.
Definition FormatUint16 (z : Z) : string := hex_digits 16 z "".

(** One line of the hashed text. *)
Definition version_line (v : ComponentVersion) : string :=
  Component v +:+ "|" +:+ Version v +:+ "|" +:+ Commit v +:+ "|" +:+ BuildTime v +:+ "|" +:+ Source v +:+
  String (ascii_of_nat 10) "".

(** The comparisons of [sort.Slice]: [key x < key y]. *)
Definition key_less {A} (key : A -> string) (x y : A) : bool := bool_decide (String.le (key x) (key y)) && (key x <>s key y).

Definition versionsHash `{!SliceSort} (versions : list ComponentVersion) : string :=
  if bool_decide (versions = []) then ""
  else FormatUint16 (foldl (fun h v => fnv64a h (version_line v)) fnv_offset (sort_slice (key_less Component) versions)).

(** ** Versions that templates depend on *)

Definition compatRelevantVersions (versions : list ComponentVersion) : gmap string string :=
  foldl (fun out v =>
           if (Component v =s "guest-image") || (Component v =s "cube-agent")
           then <[Component v := TrimSpace (Version v)]> out else out)
    (<["guest-image" := ""]> {["cube-agent" := ""]}) versions.

Definition compatVersionsChanged (prev next : gmap string string) : bool :=
  existsb (fun c => TrimSpace (default "" (prev !! c)) <>s TrimSpace (default "" (next !! c))) ["guest-image"; "cube-agent"].

(** ** Declared versions *)

Definition componentGuestImage : string := "guest-image".
Definition componentCubeAgent : string := "cube-agent".
Definition componentKernel : string := "kernel".

Record releaseManifest : Type := MkManifest {
  m_Components : gmap string string;
  g_Version : string; g_AgentVersion : string;
  k_Version : string; k_PVMVersion : string; k_VMLinuxDigest : string; k_VMLinuxPVMDigest : string;
}.

Record declaredVersionInfo : Type := MkDeclared {
  Primary : gmap string string;
  Sets : gmap string (gset string);
}.

Definition undeclared (version : string) : bool := (version =s "") || (version =s "unknown").

Definition addDeclaredVersion (component version : string) (forcePrimary : bool) (d : declaredVersionInfo) : declaredVersionInfo :=
  if undeclared version then d
  else
    MkDeclared
      (if forcePrimary || (default "" (Primary d !! component) =s "") then <[component := version]> (Primary d) else Primary d)
      (<[component := {[ version ]} ∪ default ∅ (Sets d !! component)]> (Sets d)).

Definition setDeclaredVersion (component version : string) (d : declaredVersionInfo) : declaredVersionInfo :=
  if undeclared version then d
  else MkDeclared (<[component := version]> (Primary d)) (<[component := {[ version ]}]> (Sets d)).

Definition trimKernelIdentityPart (value : string) : string :=
  let value := TrimSpace value in if value =s "unknown" then "" else value.

Definition kernelArtifactIdentity (tag digest : string) : string :=
  let tag := trimKernelIdentityPart tag in
  let digest := trimKernelIdentityPart digest in
  if digest <>s "" then (if tag <>s "" then tag +:+ "@" +:+ digest else digest) else tag.

(** [loadDeclaredVersionInfoFromPath] on the manifest it read, [None] when it could not;
    [order] are the components in the order of the map. *)
Definition loadDeclaredVersionInfoFromPath (m : option releaseManifest) (order : list (string * string)) : declaredVersionInfo :=
  match m with
  | None => MkDeclared ∅ ∅
  | Some m =>
      let d := foldl (fun d kv => addDeclaredVersion kv.1 kv.2 false d) (MkDeclared ∅ ∅) order in
      let d := if g_Version m <>s "" then setDeclaredVersion componentGuestImage (g_Version m) d else d in
      let d := if g_AgentVersion m <>s "" then setDeclaredVersion componentCubeAgent (g_AgentVersion m) d else d in
      let identity := kernelArtifactIdentity (k_Version m) (k_VMLinuxDigest m) in
      let d := if identity <>s "" then setDeclaredVersion componentKernel identity d else d in
      let identity := kernelArtifactIdentity (k_PVMVersion m) (k_VMLinuxPVMDigest m) in
      if identity <>s "" then addDeclaredVersion componentKernel identity false d else d
  end.

Definition platformVersionSuffixes : list string := ["-amd64"; "-arm64"; "-x86_64"; "-aarch64"].

(** One round of the loop: the first suffix that fits is cut off. *)
Definition strip_once (value : string) : option string :=
  TrimSuffix value <$> head (filter (fun suffix => HasSuffix value suffix = true) platformVersionSuffixes).

Fixpoint strip_loop (fuel : nat) (value : string) : string :=
  match fuel with
  | O => value
  | S fuel => match strip_once value with Some v => strip_loop fuel v | None => value end
  end.

(** Every round shortens the text, so its length bounds the rounds. *)
Definition stripPlatformVersionSuffix (value : string) : string := strip_loop (String.length value) value.

Definition versionMatchesDeclared (declared actual : string) : bool :=
  (declared =s actual) || (stripPlatformVersionSuffix actual =s declared).

Definition versionIsDeclared (component actual : string) (d : declaredVersionInfo) : bool :=
  if undeclared actual then false
  else
    let set := default ∅ (Sets d !! component) in
    if bool_decide (set ≠ ∅) then
      bool_decide (actual ∈ set) || existsb (fun declared => versionMatchesDeclared declared actual) (elements set)
    else
      let exp := default "" (Primary d !! component) in
      negb (undeclared exp) && versionMatchesDeclared exp actual.

Definition sortStrings (l : list string) : list string := merge_sort String.le l.

Definition sortedDeclaredVersions (component : string) (d : declaredVersionInfo) : list string :=
  let set := default ∅ (Sets d !! component) in
  let exp := default "" (Primary d !! component) in
  if bool_decide (set = ∅) then (if exp =s "" then [] else [exp])
  else sortStrings (filter (fun v => v <> "") (elements set)).

(** ** The matrix *)

(** A row of t_cube_node_component_version. *)
Record NodeComponentVersion : Type := MkRow {
  row_NodeID : string; row :> ComponentVersion; ReportedUnix : Z;
}.

Record ComponentVersionGroup : Type := MkGroup { gr_Version : string; gr_Nodes : list string }.
Record ComponentMatrixRow : Type := MkMatrixRow {
  cm_Component : string; cm_DeclaredVersion : string; cm_DeclaredVersions : list string;
  cm_Consistent : bool; cm_Versions : list ComponentVersionGroup;
}.
Record NodeComponentEntry : Type := MkNodeEntry { ne_Component : string; ne_Version : string; ne_Declared : bool }.
Record NodeVersionRow : Type := MkNodeRow { nr_NodeID : string; nr_Healthy : bool; nr_Components : list NodeComponentEntry }.
Record VersionMatrix : Type := MkMatrix { vm_Components : list ComponentMatrixRow; vm_Nodes : list NodeVersionRow }.

Section Matrix.
Context `{!SliceSort} (healthy : gmap string bool) (d : declaredVersionInfo).

(** The three tables the loop over the rows fills. *)
Definition add_by_component (m : gmap string (gmap string (list string))) (r : NodeComponentVersion) :=
  let vs : gmap string (list string) := default ∅ (m !! Component r) in
  <[Component r := <[Version r := (default [] (vs !! Version r) ++ [row_NodeID r])%list]> vs]> m.
Definition node_entry (r : NodeComponentVersion) : NodeComponentEntry :=
  MkNodeEntry (Component r) (Version r) (versionIsDeclared (Component r) (Version r) d).
Definition add_by_node (m : gmap string (list NodeComponentEntry)) (r : NodeComponentVersion) :=
  <[row_NodeID r := (default [] (m !! row_NodeID r) ++ [node_entry r])%list]> m.

Definition component_row (c : string) (versionsMap : gmap string (list string)) : ComponentMatrixRow :=
  let groups := sort_slice (key_less gr_Version) ((fun vn => MkGroup vn.1 (sortStrings vn.2)) <$> map_to_list versionsMap) in
  MkMatrixRow c (default "" (Primary d !! c)) (sortedDeclaredVersions c d) (Z.of_nat (length groups) <=? 1) groups.

Definition node_row (byNode : gmap string (list NodeComponentEntry)) (n : string) : NodeVersionRow :=
  MkNodeRow n (default false (healthy !! n)) (sort_slice (key_less ne_Component) (default [] (byNode !! n))).

(** [buildVersionMatrix]; the version of the control plane itself is left out. *)
Definition buildVersionMatrix (rows : list NodeComponentVersion) : VersionMatrix :=
  let byComponent := foldl add_by_component ∅ rows in
  let byNode := foldl add_by_node ∅ rows in
  let nodeSet := dom healthy ∪ list_to_set (row_NodeID <$> rows) : gset string in
  MkMatrix
    ((fun c => component_row c (default ∅ (byComponent !! c))) <$> sortStrings (elements (dom byComponent)))
    (node_row byNode <$> sortStrings (elements nodeSet)).

End Matrix.

(** ** Sorting by a key *)

Lemma key_less_false {A} (key : A -> string) x y : key_less key x y = false <-> String.le (key y) (key x).
Proof.
  unfold key_less. rewrite andb_false_iff, bool_decide_eq_false, negb_false_iff, bool_decide_eq_true. split.
  - intros [H| ->]; [|done]. destruct (total String.le (key x) (key y)); [done|done].
  - intros H. destruct (decide (key x = key y)) as [|Hne]; [by right|left]. intros H'. by apply Hne, (anti_symm String.le).
Qed.

Section ByKey.
Context {SS : SliceSort} {A : Type} (key : A -> string).

Lemma sort_slice_by_key l : StronglySorted (fun x y => String.le (key x) (key y)) (sort_slice (key_less key) l).
Proof.
  eapply StronglySorted_ext, Sorted_StronglySorted, sort_slice_sorted.
  - intros x y _ _. apply key_less_false.
  - intros x y z. rewrite !key_less_false. intros. by etrans.
  - intros x y z. rewrite !key_less_false. intros. by etrans.
  - intros x y. rewrite key_less_false. intros [Hl _]%andb_true_iff. by apply bool_decide_eq_true in Hl.
Qed.

(** With distinct keys the result does not depend on the order of the input, nor on the
    algorithm behind [sort.Slice]. *)
Lemma sort_slice_perm_eq l1 l2 :
  NoDup (key <$> l1) -> l1 ≡ₚ l2 -> sort_slice (key_less key) l1 = sort_slice (key_less key) l2.
Proof.
  intros Hnd Hp. apply (StronglySorted_unique_strong (fun x y => String.le (key x) (key y))).
  - intros x y Hx Hy Hxy Hyx. rewrite sort_slice_perm in Hx, Hy. rewrite <- Hp in Hy.
    assert (key x = key y) as Hk by by apply (anti_symm String.le).
    apply list_elem_of_lookup in Hx as [i Hi]. apply list_elem_of_lookup in Hy as [j Hj].
    assert (i = j) as ->; [|congruence]. apply (NoDup_lookup (key <$> l1) i j (key x) Hnd).
    + by rewrite list_lookup_fmap, Hi.
    + by rewrite list_lookup_fmap, Hj, Hk.
  - apply sort_slice_by_key.
  - apply sort_slice_by_key.
  - by rewrite !sort_slice_perm.
Qed.

End ByKey.

(** The hash does not depend on the order in which a node lists its components. *)
Lemma versionsHash_perm `{!SliceSort} l1 l2 :
  NoDup (Component <$> l1) -> l1 ≡ₚ l2 -> versionsHash l1 = versionsHash l2.
Proof.
  intros Hnd Hp. unfold versionsHash. rewrite (sort_slice_perm_eq _ _ _ Hnd Hp).
  destruct (decide (l1 = [])) as [->|Hne].
  - apply Permutation_nil_l in Hp. by subst l2.
  - rewrite !bool_decide_false; [done| |done]. intros ->. by apply Permutation_nil_r in Hp.
Qed.

(** ** Suffixes *)

Lemma HasSuffix_spec s p : HasSuffix s p = true <-> exists t, s = t +:+ p.
Proof.
  unfold HasSuffix. rewrite prefix_spec. split.
  - intros [t Ht]. exists (String.rev t). rewrite <- (rev_rev_str s), Ht, rev_app_str, rev_rev_str. done.
  - intros [t ->]. exists (String.rev t). apply rev_app_str.
Qed.

Lemma str_take_app s t : str_take (String.length s) (s +:+ t) = s.
Proof. induction s as [|a s IH]; [by destruct t|]. rewrite app_cons_str. simpl. by rewrite IH. Qed.

Lemma TrimSuffix_app t p : TrimSuffix (t +:+ p) p = t.
Proof.
  unfold TrimSuffix. replace (HasSuffix (t +:+ p) p) with true by (symmetry; apply HasSuffix_spec; eauto).
  rewrite length_app_str. replace (String.length t + String.length p - String.length p)%nat with (String.length t) by lia.
  apply str_take_app.
Qed.

Lemma strip_once_spec v :
  match strip_once v with
  | Some w => exists suffix, suffix ∈ platformVersionSuffixes /\ v = w +:+ suffix
  | None => forall suffix, suffix ∈ platformVersionSuffixes -> HasSuffix v suffix = false
  end.
Proof.
  unfold strip_once. destruct (filter _ platformVersionSuffixes) as [|x l] eqn:Hf; cbn [head fmap option_fmap option_map].
  - intros suffix Hs. apply not_true_iff_false. intros Hv. apply (not_elem_of_nil suffix). rewrite <- Hf.
    by apply list_elem_of_filter.
  - assert (x ∈ filter (fun suffix => HasSuffix v suffix = true) platformVersionSuffixes) as Hx by (rewrite Hf; left).
    apply list_elem_of_filter in Hx as [[t ->]%HasSuffix_spec Hx]. exists x. by rewrite TrimSuffix_app.
Qed.

Lemma strip_once_shorter v w : strip_once v = Some w -> (String.length w < String.length v)%nat.
Proof.
  intros Hs. pose proof (strip_once_spec v) as Hv. rewrite Hs in Hv. destruct Hv as (x & Hx & ->). rewrite length_app_str.
  unfold platformVersionSuffixes in Hx. rewrite !elem_of_cons in Hx. simpl in *.
  destruct Hx as [->|[->|[->|[->|[]%not_elem_of_nil]]]]; simpl; lia.
Qed.

(** The loop ends with a text that carries no platform suffix. *)
Lemma strip_ends v suffix :
  suffix ∈ platformVersionSuffixes -> HasSuffix (stripPlatformVersionSuffix v) suffix = false.
Proof.
  intros Hs. unfold stripPlatformVersionSuffix.
  assert (forall fuel v, (String.length v <= fuel)%nat -> strip_once (strip_loop fuel v) = None) as Hloop.
  { induction fuel as [|fuel IH]; intros u Hu; simpl.
    - destruct (strip_once u) eqn:Ho; [|done]. apply strip_once_shorter in Ho. lia.
    - destruct (strip_once u) as [w|] eqn:Ho; [|done]. apply IH. apply strip_once_shorter in Ho. lia. }
  pose proof (strip_once_spec (strip_loop (String.length v) v)) as Hv. rewrite Hloop in Hv by done. by apply Hv.
Qed.

(** ** The tables of the matrix *)

Section Tables.
Context {SS : SliceSort} (healthy : gmap string bool) (d : declaredVersionInfo).

(** The rows of one component and one version, and of one node. *)
Definition rows_of (c v : string) (rows : list NodeComponentVersion) : list NodeComponentVersion :=
  filter (fun r : NodeComponentVersion => Component r = c /\ Version r = v) rows.
Definition rows_on (n : string) (rows : list NodeComponentVersion) : list NodeComponentVersion :=
  filter (fun r => row_NodeID r = n) rows.

(** The entry of a table of lists: absent when its list is empty. *)
Definition entry_of {A} (l : list A) : option (list A) := match l with [] => None | _ => Some l end.

Lemma entry_of_default {A} (l : list A) : default [] (entry_of l) = l.
Proof. by destruct l. Qed.
Lemma entry_of_snoc {A} (l : list A) x : entry_of (l ++ [x])%list = Some (l ++ [x])%list.
Proof. by destruct l. Qed.

Lemma by_component_spec rows c v :
  default ∅ (foldl add_by_component ∅ rows !! c) !! v = entry_of (row_NodeID <$> rows_of c v rows).
Proof.
  induction rows as [|r rows IH] using rev_ind; [cbn; by rewrite !lookup_empty|].
  rewrite foldl_snoc. unfold rows_of in *. rewrite filter_app, fmap_app. unfold add_by_component at 1. cbv zeta.
  destruct (decide (Component r = c)) as [Hc|Hc].
  - rewrite Hc, lookup_insert_eq. cbn [default from_option id]. destruct (decide (Version r = v)) as [Hv|Hv].
    + rewrite Hv, lookup_insert_eq, IH, entry_of_default, filter_cons_True by done. cbn. by rewrite entry_of_snoc.
    + rewrite lookup_insert_ne, IH, filter_cons_False by naive_solver. cbn. by rewrite app_nil_r.
  - rewrite lookup_insert_ne, IH, filter_cons_False by naive_solver. cbn. by rewrite app_nil_r.
Qed.

Lemma by_component_dom rows c :
  c ∈ dom (foldl add_by_component ∅ rows) <-> exists r : NodeComponentVersion, r ∈ rows /\ Component r = c.
Proof.
  induction rows as [|r rows IH] using rev_ind; [split; [set_solver|by intros (? & ?%not_elem_of_nil & _)]|].
  rewrite foldl_snoc. unfold add_by_component at 1. rewrite dom_insert, elem_of_union, elem_of_singleton, IH.
  setoid_rewrite elem_of_app. setoid_rewrite list_elem_of_singleton. naive_solver.
Qed.

Lemma by_node_spec rows n :
  default [] (foldl (add_by_node d) ∅ rows !! n) = node_entry d <$> rows_on n rows.
Proof.
  induction rows as [|r rows IH] using rev_ind; [done|].
  rewrite foldl_snoc. unfold rows_on in *. rewrite filter_app, fmap_app. unfold add_by_node at 1.
  destruct (decide (row_NodeID r = n)) as [Hn|Hn].
  - rewrite Hn, lookup_insert_eq, IH, filter_cons_True by done. done.
  - rewrite lookup_insert_ne, IH, filter_cons_False by done. cbn. by rewrite app_nil_r.
Qed.

(** What a correct row of a component says. *)
Record component_exact (rows : list NodeComponentVersion) (m : ComponentMatrixRow) : Prop := {
  ce_reported : exists r : NodeComponentVersion, r ∈ rows /\ Component r = cm_Component m;
  ce_versions : NoDup (gr_Version <$> cm_Versions m);
  ce_groups : forall g, g ∈ cm_Versions m <->
    gr_Nodes g = sortStrings (row_NodeID <$> rows_of (cm_Component m) (gr_Version g) rows) /\
    exists r : NodeComponentVersion, r ∈ rows /\ Component r = cm_Component m /\ Version r = gr_Version g;
  ce_consistent : cm_Consistent m = true <->
    forall r s : NodeComponentVersion, r ∈ rows -> s ∈ rows -> Component r = cm_Component m -> Component s = cm_Component m -> Version r = Version s;
}.

Lemma group_iff rows c g :
  g ∈ cm_Versions (component_row d c (default ∅ (foldl add_by_component ∅ rows !! c))) <->
  gr_Nodes g = sortStrings (row_NodeID <$> rows_of c (gr_Version g) rows) /\
  exists r : NodeComponentVersion, r ∈ rows /\ Component r = c /\ Version r = gr_Version g.
Proof.
  unfold component_row. cbn [cm_Versions]. rewrite sort_slice_perm, list_elem_of_fmap. split.
  - intros ([v ns] & -> & Hv%elem_of_map_to_list). rewrite by_component_spec in Hv. cbn [gr_Version gr_Nodes fst snd].
    destruct (rows_of c v rows) as [|r l] eqn:Hr; [done|]. cbn in Hv. simplify_eq. split; [done|].
    exists r. assert (r ∈ rows_of c v rows) as [[? ?] ?]%list_elem_of_filter by (rewrite Hr; left). done.
  - intros [Hg (r & Hr & Hc & Hv)]. exists (gr_Version g, row_NodeID <$> rows_of c (gr_Version g) rows).
    split; [destruct g; cbn in *; by f_equal|]. apply elem_of_map_to_list. rewrite by_component_spec.
    destruct (rows_of c (gr_Version g) rows) eqn:Hrows; [|done].
    exfalso. apply (not_elem_of_nil r). rewrite <- Hrows. by apply list_elem_of_filter.
Qed.

Lemma NoDup_versions (vs : gmap string (list string)) :
  NoDup (gr_Version <$> ((fun vn => MkGroup vn.1 (sortStrings vn.2)) <$> map_to_list vs)).
Proof.
  rewrite <- list_fmap_compose.
  rewrite (list_fmap_ext _ fst) by (intros; done). apply NoDup_fst_map_to_list.
Qed.

Lemma component_row_exact rows c :
  (exists r : NodeComponentVersion, r ∈ rows /\ Component r = c) ->
  component_exact rows (component_row d c (default ∅ (foldl add_by_component ∅ rows !! c))).
Proof.
  intros Hr. pose proof (group_iff rows c) as Hg.
  assert (NoDup (gr_Version <$> cm_Versions (component_row d c (default ∅ (foldl add_by_component ∅ rows !! c))))) as Hnd.
  { unfold component_row. cbn [cm_Versions]. rewrite sort_slice_perm. apply NoDup_versions. }
  constructor; [done|done|done|]. unfold component_row in *. cbn [cm_Versions cm_Consistent cm_Component] in *.
  set (gs := sort_slice _ _) in *. rewrite Z.leb_le. split.
  - intros Hlen r s Hrr Hss Hcr Hcs.
    assert (forall t : NodeComponentVersion, t ∈ rows -> Component t = c -> exists g, g ∈ gs /\ gr_Version g = Version t) as Hex.
    { intros t Ht Hct. exists (MkGroup (Version t) (sortStrings (row_NodeID <$> rows_of c (Version t) rows))).
      split; [|done]. apply Hg. cbn. split; [done|eauto]. }
    destruct (Hex r Hrr Hcr) as (g & Hgr & <-). destruct (Hex s Hss Hcs) as (h & Hhs & <-).
    destruct gs as [|x [|y l]]; [by apply not_elem_of_nil in Hgr| |cbn in Hlen; lia].
    apply list_elem_of_singleton in Hgr as ->. by apply list_elem_of_singleton in Hhs as ->.
  - intros Hall. destruct gs as [|x [|y l]]; cbn; [lia|lia|]. exfalso.
    destruct (proj1 (Hg x)) as [_ (r & ? & ? & Hx)]; [left|]. destruct (proj1 (Hg y)) as [_ (s & ? & ? & Hy)]; [right; left|].
    cbn in Hnd. apply NoDup_cons in Hnd as [Hnd _]. apply Hnd.
    assert (gr_Version x = gr_Version y) as -> by (rewrite <- Hx, <- Hy; by apply Hall). left.
Qed.

End Tables.

Lemma elem_of_sortStrings x l : x ∈ sortStrings l <-> x ∈ l.
Proof. unfold sortStrings. by rewrite (merge_sort_Permutation String.le l). Qed.
Lemma NoDup_sortStrings l : NoDup (sortStrings l) <-> NoDup l.
Proof. unfold sortStrings. by rewrite (merge_sort_Permutation String.le l). Qed.

(** The version matrix is exact for the rows of the table: every reported component has
    one row, in order of names; its groups are the reported versions, each with the nodes that
    report it, and it is called consistent exactly when all nodes report the same version; and
    every node with a status or a version has one row with its entries. *)
Theorem version_matrix_exact {SS : SliceSort} (healthy : gmap string bool) (d : declaredVersionInfo) rows :
  let m := buildVersionMatrix healthy d rows in
  Forall (component_exact rows) (vm_Components m) /\
  NoDup (cm_Component <$> vm_Components m) /\
  (forall r : NodeComponentVersion, r ∈ rows -> Component r ∈ cm_Component <$> vm_Components m) /\
  NoDup (nr_NodeID <$> vm_Nodes m) /\
  (forall n, n ∈ nr_NodeID <$> vm_Nodes m <-> is_Some (healthy !! n) \/ exists r : NodeComponentVersion, r ∈ rows /\ row_NodeID r = n) /\
  Forall (fun nr => nr_Healthy nr = default false (healthy !! nr_NodeID nr) /\
                    nr_Components nr ≡ₚ node_entry d <$> rows_on (nr_NodeID nr) rows) (vm_Nodes m).
Proof.
  intros m. unfold m, buildVersionMatrix. cbn [vm_Components vm_Nodes]. rewrite <- !list_fmap_compose.
  rewrite (list_fmap_ext (cm_Component ∘ _) id), (list_fmap_ext (nr_NodeID ∘ _) id), !list_fmap_id by (intros; done).
  split_and!.
  - apply Forall_fmap, Forall_forall. intros c Hc. apply component_row_exact, by_component_dom.
    by apply elem_of_sortStrings, elem_of_elements in Hc.
  - apply NoDup_sortStrings, NoDup_elements.
  - intros r Hr. apply elem_of_sortStrings, elem_of_elements, by_component_dom. eauto.
  - apply NoDup_sortStrings, NoDup_elements.
  - intros n. rewrite elem_of_sortStrings, elem_of_elements, elem_of_union, elem_of_dom, elem_of_list_to_set, list_elem_of_fmap.
    naive_solver.
  - apply Forall_fmap, Forall_forall. intros n _. cbn. split; [done|]. by rewrite sort_slice_perm, by_node_spec.
Qed.
