(* ===== verification/MasterTemplates.v ===== *)
(** * Template locality of CubeMaster
    (CubeMaster/pkg/localcache/template_locality.go, image_cache.go, export.go,
    snapshot_storage_state.go, CubeMaster/pkg/base/framework/types.go)

    Which node holds which template.  [imageCache] maps a template to its state
    (its nodes, its size, a score); [templateNodeCache] maps a node to the
    templates last seen on it and is kept beside it, so that a node's report can
    be compared with its previous one.  The states are reached through the cache
    only, so they are values here.  Scores read the node cache of MasterNodes.v. *)
From S2P Require Import Prelude GoStrings GoValue MasterConfig MasterNodes.

Open Scope string_scope.
Open Scope Z_scope.

Record ImageStateSummary : Type := MkImage {
  is_Label : string; is_Size : Z; is_nodes : gset string; ScaledImageScore : Z; is_UpdateAt : Z;
}.

Definition NewImageStateSummary (size : Z) (label node : string) (now : Z) : ImageStateSummary :=
  MkImage label size {[ node ]} 0 now.
Definition AddNode (node : string) (s : ImageStateSummary) : ImageStateSummary :=
  MkImage (is_Label s) (is_Size s) ({[ node ]} ∪ is_nodes s) (ScaledImageScore s) (is_UpdateAt s).
Definition RemoveNode (node : string) (s : ImageStateSummary) : ImageStateSummary :=
  MkImage (is_Label s) (is_Size s) (is_nodes s ∖ {[ node ]}) (ScaledImageScore s) (is_UpdateAt s).
Definition HasNode (node : string) (s : ImageStateSummary) : bool := bool_decide (node ∈ is_nodes s).
Definition GetNumNodes (s : ImageStateSummary) : Z := Z.of_nat (size (is_nodes s)).
Definition with_size (z now : Z) (s : ImageStateSummary) : ImageStateSummary :=
  MkImage (is_Label s) (if 0 <? z then z else is_Size s) (is_nodes s) (ScaledImageScore s) now.
Definition with_scaled (x : Z) (s : ImageStateSummary) : ImageStateSummary :=
  MkImage (is_Label s) (is_Size s) (is_nodes s) x (is_UpdateAt s).

Record templates : Type := MkTemplates {
  imageCache : gmap string ImageStateSummary;
  templateNodeCache : gmap string (gset string);
}.

Definition scaledImageScore `{!GoRuntime} (s : ImageStateSummary) (totalNumNodes : Z) : Z :=
  if totalNumNodes =? 0 then 0
  else f64_to_int (f64_mul (f64_of_Z (is_Size s)) (f64_div (f64_of_Z (GetNumNodes s)) (f64_of_Z totalNumNodes))).

Definition GetImageStateByNode (imageName nodeName : string) (t : templates) : option ImageStateSummary :=
  match imageCache t !! imageName with
  | Some s => if HasNode nodeName s then Some s else None
  | None => None
  end.

Definition normalizeTemplateIDSet (templateIDs : list string) : gset string :=
  list_to_set (filter (fun t => t <> "") (TrimSpace <$> templateIDs)).

Definition discoverNodeTemplateSet (nodeID : string) (t : templates) : gset string :=
  if nodeID =s "" then ∅
  else dom (filter (fun kv => HasNode nodeID kv.2 = true) (imageCache t)).

Definition setCachedNodeTemplateSet (nodeID : string) (ts : gset string) (t : templates) : templates :=
  if nodeID =s "" then t else MkTemplates (imageCache t) (<[nodeID := ts]> (templateNodeCache t)).

Definition recordNodeTemplateMembership (nodeID templateID : string) (t : templates) : templates :=
  if (nodeID =s "") || (templateID =s "") then t
  else setCachedNodeTemplateSet nodeID ({[ templateID ]} ∪ default ∅ (templateNodeCache t !! nodeID)) t.

Definition removeNodeTemplateMembership (nodeID templateID : string) (t : templates) : templates :=
  if (nodeID =s "") || (templateID =s "") then t
  else
    match templateNodeCache t !! nodeID with
    | Some ts => setCachedNodeTemplateSet nodeID (ts ∖ {[ templateID ]}) t
    | None => t
    end.

(** Sets without the template are not written back; that is the same map. *)
Definition removeTemplateMembershipFromAllNodes (templateID : string) (t : templates) : templates :=
  if templateID =s "" then t
  else MkTemplates (imageCache t)
         ((fun ts => if bool_decide (templateID ∈ ts) then ts ∖ {[ templateID ]} else ts) <$> templateNodeCache t).

Section Ops.
Context `{!GoRuntime} (interval now : Z) (l : local).

(** The number of healthy nodes a score is relative to. *)
Definition healthy_total (label : string) : Z :=
  Z.of_nat (length (GetHealthyNodesByInstanceType interval now (-1) label l)).

Definition rescore (s : ImageStateSummary) : ImageStateSummary :=
  if is_Label s <>s "" then with_scaled (scaledImageScore s (healthy_total (is_Label s))) s else s.

(** The state of the template once the node is entered. *)
Definition replica_state (templateID nodeID : string) (sizeBytes : Z) (t : templates) : ImageStateSummary :=
  match imageCache t !! templateID with
  | None =>
      NewImageStateSummary sizeBytes
        (from_option (fun n : Node => OssClusterLabel n) "" (GetNode interval now nodeID l)) nodeID now
  | Some s => AddNode nodeID (with_size sizeBytes now s)
  end.

Definition registerTemplateReplica (templateID nodeID : string) (sizeBytes : Z) (sync : bool) (t : templates) : templates :=
  if (templateID =s "") || (nodeID =s "") then t
  else
    let state := replica_state templateID nodeID sizeBytes t in
    let t := MkTemplates (<[templateID := rescore state]> (imageCache t)) (templateNodeCache t) in
    if sync then recordNodeTemplateMembership nodeID templateID t else t.

(** The node leaves the template's state, which goes with its last node. *)
Definition drop_replica (templateID nodeID : string) (t : templates) : templates :=
  match imageCache t !! templateID with
  | Some s =>
      let s := RemoveNode nodeID s in
      MkTemplates (if GetNumNodes s =? 0 then delete templateID (imageCache t) else <[templateID := s]> (imageCache t))
        (templateNodeCache t)
  | None => t
  end.

Definition deregisterTemplateReplica (templateID nodeID : string) (sync : bool) (t : templates) : templates :=
  if (templateID =s "") || (nodeID =s "") then t
  else
    let t := drop_replica templateID nodeID t in
    if sync then removeNodeTemplateMembership nodeID templateID t else t.

Definition InvalidateImageState (imageName : string) (t : templates) : templates :=
  if imageName =s "" then t
  else removeTemplateMembershipFromAllNodes imageName
         (MkTemplates (delete imageName (imageCache t)) (templateNodeCache t)).

(** The loop over the templates the node had before, and over those it has now. *)
Definition drop_gone (nodeID : string) (current previous : gset string) (t : templates) : templates :=
  foldl (fun t id => if bool_decide (id ∈ current) then t else deregisterTemplateReplica id nodeID false t) t (elements previous).
Definition add_new (nodeID : string) (current previous : gset string) (t : templates) : templates :=
  foldl (fun t id =>
           if bool_decide (id ∈ previous) && bool_decide (is_Some (GetImageStateByNode id nodeID t)) then t
           else registerTemplateReplica id nodeID 1 false t) t (elements current).

Definition SyncNodeTemplates (nodeID : string) (templateIDs : list string) (t : templates) : templates :=
  if nodeID =s "" then t
  else
    let current := normalizeTemplateIDSet templateIDs in
    let previous := match templateNodeCache t !! nodeID with
                    | Some ts => ts
                    | None => discoverNodeTemplateSet nodeID t
                    end in
    setCachedNodeTemplateSet nodeID current (add_new nodeID current previous (drop_gone nodeID current previous t)).

Definition LoadImageScore (t : templates) : templates :=
  MkTemplates ((fun s => with_scaled (scaledImageScore s (healthy_total (is_Label s))) s) <$> imageCache t) (templateNodeCache t).

End Ops.

(** ** Snapshot storage *)

Record SnapshotStorageState : Type := MkStorage {
  st_NodeID : string; st_NodeIP : string; UsagePct : Z; Mode : string; LastError : string; LastUpdatedAt : Z;
}.

Definition SetSnapshotStorageState (s : SnapshotStorageState) (m : gmap string SnapshotStorageState) : gmap string SnapshotStorageState :=
  let m := if st_NodeID s <>s "" then <[st_NodeID s := s]> m else m in
  if st_NodeIP s <>s "" then <[st_NodeIP s := s]> m else m.

Definition GetSnapshotStorageState (nodeID nodeIP : string) (m : gmap string SnapshotStorageState) : option SnapshotStorageState :=
  match (if nodeID <>s "" then m !! nodeID else None) with
  | Some s => Some s
  | None => if nodeIP <>s "" then m !! nodeIP else None
  end.

Definition IsSnapshotStorageWriteAllowed `{!GoRuntime} (mode : string) : bool :=
  bool_decide (ToLower (TrimSpace mode) ∈ ["healthy"; "warn"]).

(** ** The abstract view: pairs of a template and a node *)

Definition holds (t : templates) (id node : string) : Prop := exists s, imageCache t !! id = Some s /\ node ∈ is_nodes s.

Lemma holds_image t id node : holds t id node <-> is_Some (GetImageStateByNode id node t).
Proof.
  unfold holds, GetImageStateByNode, HasNode. destruct (imageCache t !! id) as [s|].
  - case_bool_decide; split; [eauto|eauto|intros (? & [= <-] & ?); done|intros []; done].
  - split; [by intros (? & ? & _)|by intros []].
Qed.

(** The two caches agree and no template is kept without a node. *)
Record templates_wf (t : templates) : Prop := {
  tw_agree : forall node, node <> "" -> forall id, id ∈ default ∅ (templateNodeCache t !! node) <-> holds t id node;
  tw_named : forall id node, holds t id node -> id <> "" /\ node <> "";
  tw_used : map_Forall (fun _ s => is_nodes s <> ∅) (imageCache t);
}.

Lemma size_zero_empty (X : gset string) : (Z.of_nat (size X) =? 0) = bool_decide (X = ∅).
Proof.
  destruct (Z.eqb_spec (Z.of_nat (size X)) 0) as [E|E]; symmetry.
  - apply bool_decide_eq_true. apply leibniz_equiv, size_empty_iff. lia.
  - apply bool_decide_eq_false. intros ->. by rewrite size_empty in E.
Qed.

Section Refine.
Context `{!GoRuntime} (interval now : Z) (l : local).

Lemma rescore_same s : is_nodes (rescore interval now l s) = is_nodes s.
Proof. unfold rescore. by case_match. Qed.

Lemma register_false_cache id node z t : templateNodeCache (registerTemplateReplica interval now l id node z false t) = templateNodeCache t.
Proof. unfold registerTemplateReplica. by case_match. Qed.

Lemma deregister_false_cache id node t : templateNodeCache (deregisterTemplateReplica id node false t) = templateNodeCache t.
Proof. unfold deregisterTemplateReplica, drop_replica. case_match; [done|]. by case_match. Qed.

Lemma record_image node id t : imageCache (recordNodeTemplateMembership node id t) = imageCache t.
Proof. unfold recordNodeTemplateMembership, setCachedNodeTemplateSet. by repeat case_match. Qed.
Lemma remove_image node id t : imageCache (removeNodeTemplateMembership node id t) = imageCache t.
Proof. unfold removeNodeTemplateMembership, setCachedNodeTemplateSet. by repeat case_match. Qed.

Lemma holds_ext t t' id node : imageCache t = imageCache t' -> holds t id node <-> holds t' id node.
Proof. unfold holds. by intros ->. Qed.

Lemma register_holds id node z b t id' node' : id <> "" -> node <> "" ->
  holds (registerTemplateReplica interval now l id node z b t) id' node' <-> holds t id' node' \/ id' = id /\ node' = node.
Proof.
  intros Hid Hn. unfold registerTemplateReplica. rewrite !bool_decide_eq_false_2 by done. cbn [orb]. set (st := replica_state _ _ _ _ _ _ _).
  rewrite (holds_ext _ (MkTemplates (<[id := rescore interval now l st]> (imageCache t)) ∅)).
  2: { destruct b; [by rewrite record_image|done]. }
  assert (forall x, x ∈ is_nodes (rescore interval now l st) <-> holds t id x \/ x = node) as Hst.
  { intros x. rewrite rescore_same. unfold st, replica_state, holds. destruct (imageCache t !! id) as [s|]; cbn; set_solver. }
  unfold holds at 1. cbn. destruct (decide (id' = id)) as [->|Hne].
  - rewrite lookup_insert_eq. split.
    + intros (? & [= <-] & [?|?]%Hst); auto.
    + intros Hx. eexists. split; [done|]. apply Hst. tauto.
  - rewrite lookup_insert_ne by done. unfold holds. naive_solver.
Qed.

Lemma deregister_holds id node b t id' node' : id <> "" -> node <> "" ->
  holds (deregisterTemplateReplica id node b t) id' node' <-> holds t id' node' /\ ~ (id' = id /\ node' = node).
Proof.
  intros Hid Hn. unfold deregisterTemplateReplica. rewrite !bool_decide_eq_false_2 by done. cbn [orb]. set (t1 := drop_replica _ _ _).
  rewrite (holds_ext _ t1) by (destruct b; [by rewrite remove_image|done]).
  unfold t1, drop_replica, holds. destruct (imageCache t !! id) as [s|] eqn:E.
  - unfold GetNumNodes. rewrite size_zero_empty. cbn [imageCache RemoveNode is_nodes].
    destruct (decide (id' = id)) as [->|Hne].
    + rewrite E. case_bool_decide as Hs; [rewrite lookup_delete_eq|rewrite lookup_insert_eq].
      * split; [by intros (? & ? & _)|]. intros [(? & [= <-] & Hx) Hno]. exfalso.
        assert (node' ∈ is_nodes s ∖ {[node]}) by set_solver. rewrite Hs in *. set_solver.
      * split; [intros (? & [= <-] & Hx); cbn in Hx; split; [exists s|]; set_solver|].
        intros [(? & [= <-] & Hx) Hno]. eexists. split; [done|]. cbn. set_solver.
    + case_bool_decide; [rewrite lookup_delete_ne by done|rewrite lookup_insert_ne by done]; naive_solver.
  - split; [|by intros []]. intros (s & Hs & Hx). split; [eauto|]. intros [-> _]. congruence.
Qed.

Lemma drop_gone_holds node cur prev t id' node' : node <> "" -> "" ∉ prev ->
  holds (drop_gone node cur prev t) id' node' <-> holds t id' node' /\ ~ (node' = node /\ id' ∈ prev /\ id' ∉ cur).
Proof.
  intros Hn Hp. unfold drop_gone. setoid_rewrite <- elem_of_elements at 2.
  assert (forall id, id ∈ elements prev -> id <> "") as Hne by (intros id Hi%elem_of_elements ->; done).
  revert t Hne. induction (elements prev) as [|id ids IH]; intros t Hne; cbn [foldl].
  - split; [intros ?; split; [done|]; by intros (_ & ?%not_elem_of_nil & _)|by intros []].
  - rewrite IH by (intros; apply Hne; by right). case_bool_decide as Hc.
    + setoid_rewrite elem_of_cons. naive_solver.
    + rewrite deregister_holds by (done || (apply Hne; by left)). setoid_rewrite elem_of_cons. naive_solver.
Qed.

Lemma add_new_holds node cur prev t id' node' : node <> "" -> "" ∉ cur ->
  holds (add_new interval now l node cur prev t) id' node' <-> holds t id' node' \/ (node' = node /\ id' ∈ cur).
Proof.
  intros Hn Hp. unfold add_new. setoid_rewrite <- elem_of_elements at 2.
  assert (forall id, id ∈ elements cur -> id <> "") as Hne by (intros id Hi%elem_of_elements ->; done).
  revert t Hne. induction (elements cur) as [|id ids IH]; intros t Hne; cbn [foldl].
  - split; [by left|]. by intros [?|(_ & ?%not_elem_of_nil)].
  - rewrite IH by (intros; apply Hne; by right). setoid_rewrite elem_of_cons.
    destruct (bool_decide (id ∈ prev) && _) eqn:Hc.
    + apply andb_prop in Hc as [_ Hh%bool_decide_eq_true]. apply holds_image in Hh. split; [naive_solver|].
      intros [?|(-> & [->|?])]; auto.
    + rewrite register_holds by (done || (apply Hne; by left)). naive_solver.
Qed.

Lemma drop_gone_kept node cur prev id t : id ∉ prev \/ id ∈ cur -> imageCache (drop_gone node cur prev t) !! id = imageCache t !! id.
Proof.
  intros Hid. unfold drop_gone. assert (Forall (fun x => x <> id \/ x ∈ cur) (elements prev)) as HF.
  { apply Forall_forall. intros x Hx%elem_of_elements. destruct (decide (x = id)) as [->|]; [right|by left]. tauto. }
  revert t. induction HF as [|x xs Hx _ IH]; intros t; [done|]. cbn. rewrite IH.
  destruct (bool_decide_reflect (x ∈ cur)) as [|Hc]; [done|]. destruct Hx as [Hx|?]; [|done].
  unfold deregisterTemplateReplica, drop_replica. case_match; [done|]. destruct (imageCache t !! x); [|done]. cbn.
  case_match; [by rewrite lookup_delete_ne|by rewrite lookup_insert_ne].
Qed.

Lemma drop_gone_cache node cur prev t : templateNodeCache (drop_gone node cur prev t) = templateNodeCache t.
Proof.
  unfold drop_gone. revert t. induction (elements prev) as [|id ids IH]; intros t; [done|]. cbn. rewrite IH.
  case_bool_decide; [done|apply deregister_false_cache].
Qed.

Lemma add_new_cache node cur prev t : templateNodeCache (add_new interval now l node cur prev t) = templateNodeCache t.
Proof.
  unfold add_new. revert t. induction (elements cur) as [|id ids IH]; intros t; [done|]. cbn. rewrite IH.
  case_match; [done|apply register_false_cache].
Qed.

Lemma register_used id node z b t : map_Forall (fun _ s => is_nodes s <> ∅) (imageCache t) ->
  map_Forall (fun _ s => is_nodes s <> ∅) (imageCache (registerTemplateReplica interval now l id node z b t)).
Proof.
  intros Hu. unfold registerTemplateReplica. case_match; [done|].
  assert (map_Forall (fun _ s => is_nodes s <> ∅) (<[id := rescore interval now l (replica_state interval now l id node z t)]> (imageCache t))).
  { apply map_Forall_insert_2; [|done]. rewrite rescore_same. unfold replica_state. case_match; cbn; set_solver. }
  destruct b; [by rewrite record_image|done].
Qed.

Lemma deregister_used id node b t : map_Forall (fun _ s => is_nodes s <> ∅) (imageCache t) ->
  map_Forall (fun _ s => is_nodes s <> ∅) (imageCache (deregisterTemplateReplica id node b t)).
Proof.
  intros Hu. unfold deregisterTemplateReplica. case_match; [done|].
  assert (map_Forall (fun _ s => is_nodes s <> ∅) (imageCache (drop_replica id node t))).
  { unfold drop_replica. destruct (imageCache t !! id) as [s|]; [|done]. unfold GetNumNodes. rewrite size_zero_empty. cbn.
    destruct (bool_decide_reflect (is_nodes s ∖ {[node]} = ∅)); [by apply map_Forall_delete|]. by apply map_Forall_insert_2. }
  destruct b; [by rewrite remove_image|done].
Qed.

Lemma sync_images node ids t : node <> "" ->
  let cur := normalizeTemplateIDSet ids in
  let prev := match templateNodeCache t !! node with Some ts => ts | None => discoverNodeTemplateSet node t end in
  let t' := SyncNodeTemplates interval now l node ids t in
  imageCache t' = imageCache (add_new interval now l node cur prev (drop_gone node cur prev t)) /\
  templateNodeCache t' = <[node := cur]> (templateNodeCache t).
Proof.
  intros Hn. unfold SyncNodeTemplates, setCachedNodeTemplateSet. rewrite !bool_decide_eq_false_2 by done. cbn.
  by rewrite add_new_cache, drop_gone_cache.
Qed.

Lemma previous_exact t node : templates_wf t -> node <> "" -> forall id,
  id ∈ match templateNodeCache t !! node with Some ts => ts | None => discoverNodeTemplateSet node t end <-> holds t id node.
Proof.
  intros Hwf Hn id. pose proof (tw_agree t Hwf node Hn id) as Ha. destruct (templateNodeCache t !! node); [done|].
  unfold discoverNodeTemplateSet. rewrite bool_decide_eq_false_2 by done. rewrite elem_of_dom. unfold holds. split.
  - intros [s [Hs Hh]%map_lookup_filter_Some]. cbn in Hh. apply bool_decide_eq_true in Hh. eauto.
  - intros (s & Hs & Hh). exists s. apply map_lookup_filter_Some. split; [done|]. by apply bool_decide_eq_true.
Qed.

Lemma normalized_named ids : "" ∉ normalizeTemplateIDSet ids.
Proof. unfold normalizeTemplateIDSet. rewrite elem_of_list_to_set, list_elem_of_filter. by intros []. Qed.

Lemma sync_holds node ids t id' node' : templates_wf t -> node <> "" ->
  holds (SyncNodeTemplates interval now l node ids t) id' node' <->
  node' = node /\ id' ∈ normalizeTemplateIDSet ids \/ node' <> node /\ holds t id' node'.
Proof.
  intros Hwf Hn. destruct (sync_images node ids t Hn) as [Hi _]. pose proof (previous_exact t node Hwf Hn) as Hp.
  rewrite (holds_ext _ _ _ _ Hi), add_new_holds, drop_gone_holds; [|done| |done|apply normalized_named].
  - rewrite Hp. destruct (decide (node' = node)) as [->|Hne]; [|naive_solver].
    destruct (decide (id' ∈ normalizeTemplateIDSet ids)); naive_solver.
  - rewrite Hp. intros Hh. by apply (tw_named t Hwf) in Hh as [? _].
Qed.

Lemma fold_used {X} (f : templates -> X -> templates) xs : forall t,
  (forall t x, map_Forall (fun _ s => is_nodes s <> ∅) (imageCache t) -> map_Forall (fun _ s => is_nodes s <> ∅) (imageCache (f t x))) ->
  map_Forall (fun _ s => is_nodes s <> ∅) (imageCache t) -> map_Forall (fun _ s => is_nodes s <> ∅) (imageCache (foldl f t xs)).
Proof. induction xs as [|x xs IH]; intros t Hf Ht; [done|]. cbn. apply IH; auto. Qed.

Lemma sync_wf node ids t : templates_wf t -> templates_wf (SyncNodeTemplates interval now l node ids t).
Proof.
  intros Hwf. destruct (decide (node = "")) as [->|Hn]; [done|]. destruct (sync_images node ids t Hn) as [Hi Hc]. split.
  - intros n' Hn' id. rewrite Hc, sync_holds by done. destruct (decide (n' = node)) as [->|Hne].
    + rewrite lookup_insert_eq. cbn. naive_solver.
    + rewrite lookup_insert_ne, (tw_agree t Hwf) by done. naive_solver.
  - intros id n'. rewrite sync_holds by done. intros [[-> Hin]|[_ Hh]]; [|by apply (tw_named t Hwf)].
    split; [|done]. intros ->. by apply normalized_named in Hin.
  - rewrite Hi. unfold add_new, drop_gone. apply fold_used; [intros t' id Ht'; destruct (_ && _); [done|by apply register_used]|].
    apply fold_used; [intros t' id Ht'; destruct (bool_decide _); [done|by apply deregister_used]|]. apply Hwf.
Qed.

Lemma register_wf id node z t : templates_wf t -> templates_wf (registerTemplateReplica interval now l id node z true t).
Proof.
  intros Hwf. destruct (decide (id = "" \/ node = "")) as [H0|Hne].
  { unfold registerTemplateReplica. case_match; [done|]. exfalso. go_bool; naive_solver. }
  assert (id <> "" /\ node <> "") as [Hid Hn] by tauto. split.
  - intros n' Hn' id'. rewrite register_holds by done.
    assert (templateNodeCache (registerTemplateReplica interval now l id node z true t) =
      <[node := {[ id ]} ∪ default ∅ (templateNodeCache t !! node)]> (templateNodeCache t)) as ->.
    { unfold registerTemplateReplica, recordNodeTemplateMembership, setCachedNodeTemplateSet.
      rewrite !bool_decide_eq_false_2 by done. done. }
    destruct (decide (n' = node)) as [->|Hx].
    + rewrite lookup_insert_eq. cbn. rewrite elem_of_union, elem_of_singleton, (tw_agree t Hwf) by done. naive_solver.
    + rewrite lookup_insert_ne, (tw_agree t Hwf) by done. naive_solver.
  - intros id' n'. rewrite register_holds by done. intros [?|[-> ->]]; [by apply (tw_named t Hwf)|done].
  - apply register_used, Hwf.
Qed.

Lemma deregister_wf id node t : templates_wf t -> templates_wf (deregisterTemplateReplica id node true t).
Proof.
  intros Hwf. destruct (decide (id = "" \/ node = "")) as [H0|Hne].
  { unfold deregisterTemplateReplica. case_match; [done|]. exfalso. go_bool; naive_solver. }
  assert (id <> "" /\ node <> "") as [Hid Hn] by tauto. split.
  - intros n' Hn' id'. rewrite deregister_holds by done.
    assert (templateNodeCache (deregisterTemplateReplica id node true t) =
      match templateNodeCache t !! node with
      | Some ts => <[node := ts ∖ {[ id ]}]> (templateNodeCache t) | None => templateNodeCache t end) as ->.
    { unfold deregisterTemplateReplica, removeNodeTemplateMembership, setCachedNodeTemplateSet.
      rewrite !bool_decide_eq_false_2 by done. cbn [orb].
      assert (templateNodeCache (drop_replica id node t) = templateNodeCache t) as Hdr by (unfold drop_replica; by case_match).
      rewrite Hdr. destruct (templateNodeCache t !! node); cbn; by rewrite ?Hdr. }
    pose proof (tw_agree t Hwf n' Hn' id') as Ha. destruct (templateNodeCache t !! node) as [ts|] eqn:E.
    + destruct (decide (n' = node)) as [->|Hx].
      * rewrite lookup_insert_eq. rewrite E in Ha. cbn in *. rewrite elem_of_difference, elem_of_singleton, Ha. naive_solver.
      * rewrite lookup_insert_ne, Ha by done. naive_solver.
    + rewrite Ha. split; [|by intros []]. intros Hh. split; [done|]. intros [-> ->]. rewrite E in Ha. cbn in Ha.
      apply Ha in Hh. set_solver.
  - intros id' n'. rewrite deregister_holds by done. intros [? _]. by apply (tw_named t Hwf).
  - apply deregister_used, Hwf.
Qed.

End Refine.

Lemma invalidate_holds id t id' node' : id <> "" ->
  holds (InvalidateImageState id t) id' node' <-> holds t id' node' /\ id' <> id.
Proof.
  intros Hid. unfold InvalidateImageState, removeTemplateMembershipFromAllNodes. rewrite !bool_decide_eq_false_2 by done.
  unfold holds. cbn. destruct (decide (id' = id)) as [->|Hne].
  - rewrite lookup_delete_eq. naive_solver.
  - rewrite lookup_delete_ne by done. naive_solver.
Qed.

Lemma invalidate_wf id t : templates_wf t -> templates_wf (InvalidateImageState id t).
Proof.
  intros Hwf. destruct (decide (id = "")) as [->|Hid]; [done|]. split.
  - intros node Hn id'. rewrite invalidate_holds, <- (tw_agree t Hwf) by done.
    unfold InvalidateImageState, removeTemplateMembershipFromAllNodes. rewrite !bool_decide_eq_false_2 by done. cbn.
    rewrite lookup_fmap. destruct (templateNodeCache t !! node) as [ts|]; cbn; [|set_solver]. case_bool_decide; set_solver.
  - intros id' n'. rewrite invalidate_holds by done. intros [? _]. by apply (tw_named t Hwf).
  - unfold InvalidateImageState, removeTemplateMembershipFromAllNodes. rewrite !bool_decide_eq_false_2 by done. cbn.
    apply map_Forall_delete, Hwf.
Qed.

Lemma load_holds `{!GoRuntime} i now l t id node : holds (LoadImageScore i now l t) id node <-> holds t id node.
Proof.
  unfold holds, LoadImageScore. cbn. rewrite lookup_fmap. destruct (imageCache t !! id) as [s|]; cbn; [|naive_solver].
  split; intros (? & [= <-] & ?); eauto.
Qed.

Lemma LoadImageScore_wf `{!GoRuntime} i now l t : templates_wf t -> templates_wf (LoadImageScore i now l t).
Proof.
  intros Hwf. split.
  - intros node Hn id. rewrite load_holds. by apply (tw_agree t Hwf).
  - intros id node. rewrite load_holds. by apply (tw_named t Hwf).
  - cbn. intros id s. rewrite lookup_fmap. intros (s' & Hs & ->)%fmap_Some. exact (tw_used t Hwf _ _ Hs).
Qed.

(** ** Refinement *)

(** The operations other components call, each with the time and the node cache it finds. *)
Inductive template_op : Type :=
  | TSync (interval now : Z) (l : local) (nodeID : string) (templateIDs : list string)
  | TRegister (interval now : Z) (l : local) (templateID nodeID : string) (sizeBytes : Z)
  | TDeregister (templateID nodeID : string)
  | TInvalidate (templateID : string)
  | TLoad (interval now : Z) (l : local).

Definition run_template `{!GoRuntime} (t : templates) (o : template_op) : templates :=
  match o with
  | TSync i now l node ids => SyncNodeTemplates i now l node ids t
  | TRegister i now l id node z => registerTemplateReplica i now l id node z true t
  | TDeregister id node => deregisterTemplateReplica id node true t
  | TInvalidate id => InvalidateImageState id t
  | TLoad i now l => LoadImageScore i now l t
  end.

(** The specification: a relation between templates and nodes. *)
Definition spec_template (R : string -> string -> Prop) (o : template_op) : string -> string -> Prop :=
  fun id node =>
    match o with
    | TSync _ _ _ n ids => if n =s "" then R id node else node = n /\ id ∈ normalizeTemplateIDSet ids \/ node <> n /\ R id node
    | TRegister _ _ _ id' n _ => if (id' =s "") || (n =s "") then R id node else R id node \/ id = id' /\ node = n
    | TDeregister id' n => R id node /\ ~ (id = id' /\ node = n)
    | TInvalidate id' => R id node /\ id <> id'
    | TLoad _ _ _ => R id node
    end.

Lemma run_template_spec `{!GoRuntime} t o (R : string -> string -> Prop) : templates_wf t -> (forall id node, holds t id node <-> R id node) ->
  templates_wf (run_template t o) /\ (forall id node, holds (run_template t o) id node <-> spec_template R o id node).
Proof.
  intros Hwf HR. destruct o as [i now l n ids|i now l id' n z|id' n|id'|i now l]; cbn [run_template spec_template].
  - split; [by apply sync_wf|]. intros id node. case_bool_decide as Hn; [subst n; apply HR|].
    by rewrite sync_holds, HR.
  - split; [by apply register_wf|]. intros id node. destruct ((id' =s "") || (n =s "")) eqn:E.
    + unfold registerTemplateReplica. rewrite E. apply HR.
    + rewrite register_holds, HR by (go_bool; done). done.
  - split; [by apply deregister_wf|]. intros id node. destruct ((id' =s "") || (n =s "")) eqn:E.
    + unfold deregisterTemplateReplica. rewrite E, HR. split; [|by intros []]. intros Hr. split; [done|]. intros [-> ->].
      apply HR in Hr. apply (tw_named t Hwf) in Hr as [? ?]. go_bool; done.
    + rewrite deregister_holds, HR by (go_bool; done). done.
  - split; [by apply invalidate_wf|]. intros id node. destruct (decide (id' = "")) as [->|Hid].
    + unfold InvalidateImageState. rewrite bool_decide_eq_true_2, HR by done. split; [|by intros []]. intros Hr. split; [done|].
      intros ->. apply HR in Hr. by apply (tw_named t Hwf) in Hr as [? _].
    + by rewrite invalidate_holds, HR.
  - split; [by apply LoadImageScore_wf|]. intros id node. rewrite load_holds. apply HR.
Qed.

(** C27: the two caches implement a relation between templates and nodes: a node's
    report replaces what was known of that node and nothing else, registering
    adds a pair, deregistering removes it, invalidating removes a template
    everywhere.  After any history the scheduler finds a template on a node
    exactly when the relation has the pair, the per-node cache says the same, and
    no template without nodes is kept. *)
Theorem template_view_refines `{!GoRuntime} ops :
  let t := foldl run_template (MkTemplates ∅ ∅) ops in
  let R := foldl spec_template (fun _ _ => False) ops in
  (forall id node, is_Some (GetImageStateByNode id node t) <-> R id node) /\
  (forall id node, node <> "" -> id ∈ default ∅ (templateNodeCache t !! node) <-> R id node) /\
  (forall id s, imageCache t !! id = Some s -> exists node, R id node).
Proof.
  intros t R. assert (templates_wf t /\ forall id node, holds t id node <-> R id node) as [Hwf HR].
  { unfold t, R. assert (forall t0 R0, templates_wf t0 -> (forall id node, holds t0 id node <-> R0 id node : Prop) ->
      templates_wf (foldl run_template t0 ops) /\ forall id node, holds (foldl run_template t0 ops) id node <-> foldl spec_template R0 ops id node) as Hg.
    { clear t R. induction ops as [|o ops IH]; intros t0 R0 Hw H0; [done|]. cbn.
      destruct (run_template_spec t0 o R0 Hw H0). by apply IH. }
    apply Hg.
    - split; [|by intros id node (? & ? & _)|apply map_Forall_empty]. intros node _ id. cbn [templateNodeCache]. rewrite lookup_empty. cbn.
      split; [set_solver|by intros (? & ? & _)].
    - intros id node. split; [by intros (? & ? & _)|done]. }
  split; [intros id node; by rewrite <- holds_image|]. split.
  - intros id node Hn. rewrite (tw_agree t Hwf) by done. apply HR.
  - intros id s Hs. destruct (set_choose_L (is_nodes s)) as [node Hin]; [exact (tw_used t Hwf _ _ Hs)|].
    exists node. apply HR. by exists s.
Qed.

(** Defect: a node's periodic report registers every new template with the size
    1, which replaces the size recorded when the template was made. *)
Theorem report_resets_template_size `{!GoRuntime} i now l node id s t :
  templates_wf t -> node <> "" -> TrimSpace id = id -> imageCache t !! id = Some s -> node ∉ is_nodes s ->
  is_Size <$> imageCache (SyncNodeTemplates i now l node [id] t) !! id = Some 1.
Proof.
  intros Hwf Hn Htrim Hs Hnot. destruct (set_choose_L (is_nodes s)) as [n0 Hn0]; [exact (tw_used t Hwf _ _ Hs)|].
  assert (id <> "") as Hid by (by apply (tw_named t Hwf id n0); exists s).
  destruct (sync_images i now l node [id] t Hn) as [-> _].
  assert (normalizeTemplateIDSet [id] = {[ id ]}) as ->.
  { unfold normalizeTemplateIDSet. cbn [fmap list_fmap]. rewrite Htrim, filter_cons_True by done. set_solver. }
  set (prev := match _ with Some _ => _ | None => _ end).
  assert (id ∉ prev) as Hp.
  { unfold prev. rewrite previous_exact by done. intros (s' & Hs' & ?). congruence. }
  assert (imageCache (drop_gone node {[ id ]} prev t) !! id = Some s) as Hd by (rewrite drop_gone_kept; set_solver).
  unfold add_new. rewrite elements_singleton. cbn [foldl]. rewrite bool_decide_eq_false_2 by done. cbn [andb].
  unfold registerTemplateReplica, replica_state. rewrite Hd, !bool_decide_eq_false_2 by done. cbn. rewrite lookup_insert_eq. cbn.
  unfold rescore. by case_match.
Qed.

Definition demo_templates : templates :=
  @registerTemplateReplica demo_runtime 30 9 demo_loaded "tpl" "h1" 5000 true (MkTemplates ∅ ∅).

Lemma report_resets_template_size_witness :
  is_Size <$> imageCache demo_templates !! "tpl" = Some 5000 /\
  is_Size <$> imageCache (@SyncNodeTemplates demo_runtime 30 9 demo_loaded "h2" ["tpl"] demo_templates) !! "tpl" = Some 1.
Proof.
  split; [by vm_compute|].
  apply (report_resets_template_size (H:=demo_runtime) 30 9 demo_loaded "h2" "tpl" (MkImage "l1" 5000 {[ "h1" ]} 1666 9)).
  - apply register_wf. split; [|by intros id node (? & ? & _)|apply map_Forall_empty].
    intros node _ id. split; [set_solver|by intros (? & ? & _)].
  - done.
  - by vm_compute.
  - by vm_compute.
  - set_solver.
Defined.

(** Defect: the score of a template is relative to the healthy nodes of its
    cluster, but the query is made with the cluster's label where it takes the
    name of a product; a label that is not also a product counts every node. *)
Theorem score_counts_other_clusters :
  GetInstanceTypeOfClusterLabel demo_conf "l1" = "box" /\
  length (GetHealthyNodesByInstanceType 30 9 (-1) "box" demo_loaded) = 2%nat /\
  healthy_total 30 9 demo_loaded "l1" = 3.
Proof. by vm_compute. Qed.
