(* ===== verification/MasterMeta.v ===== *)
(** * Registration and status of nodes
    (CubeMaster/pkg/nodemeta/service.go, the node metrics of localcache/redis_cache.go)

    Cubelets register their node and send heartbeats; the service keeps both in three
    tables of the database, mirrors them in snapshots in memory, hands every change to
    the scheduler's caches (MasterNodes, MasterTemplates) and fans usage out through
    Redis.  Replicas reload the tables periodically and merge them into memory.

    A snapshot object is never replaced in the map of the service, so the map holds the
    snapshots themselves.  A transaction that fails leaves the database as it was; which
    statement fails, and every clock reading, is an argument.  JSON is a class with its
    round trip for values whose texts are valid UTF-8. *)
From Stdlib Require Import Ascii.
From stdpp Require Import fin_maps.
From S2P Require Import Prelude GoStrings GoValue MasterConfig MasterLabels MasterNodes MasterVersions MasterTemplates.

Open Scope string_scope.
Open Scope Z_scope.

(** ** Columns *)

(** [mustJSON] and [json.Unmarshal] into a fresh value: what it holds afterwards, and
    whether the call succeeded. *)
Class JSON (A : Type) : Type := {
  mustJSON : A -> string;
  Unmarshal : string -> A * bool;
  json_plain : A -> Prop;
  Unmarshal_mustJSON a : json_plain a -> Unmarshal (mustJSON a) = (a, true);
  mustJSON_visible a : TrimSpace (mustJSON a) <> "";
}.

Record ResourceSnapshot : Type := MkResource { MilliCPU : Z; MemoryMB : Z }.
Record ContainerImage : Type := MkCImage { ci_Names : list string; ci_SizeBytes : Z; ci_Namespace : string; ci_MediaType : string }.
Record LocalTemplate : Type := MkLT { lt_TemplateID : string; lt_ID : string; lt_Media : string; lt_Path : string; lt_Namespace : string }.
Record NodeCondition : Type := MkCond {
  c_Type : string; c_Status : string; c_LastHeartbeatTime : Z; c_LastTransitionTime : Z; c_Reason : string; c_Message : string;
}.

(** What a registration says about a node. *)
Record RegInfo : Type := MkReg {
  HostIP : string; GRPCPort : Z; r_Labels : gmap string string; Capacity : ResourceSnapshot; Allocatable : ResourceSnapshot;
  r_InstanceType : string; r_ClusterLabel : string; QuotaCPU : Z; QuotaMemMB : Z; r_CreateConcurrentNum : Z; MaxMvmNum : Z;
}.

(** What a heartbeat says. *)
Record StatusInfo : Type := MkStatus {
  Conditions : list NodeCondition; Images : list ContainerImage; LocalTemplates : list LocalTemplate;
  HeartbeatTime : Z; s_ReportedReady : bool;
}.

Record NodeSnapshot : Type := MkSnap {
  NodeID : string; sn_reg : RegInfo; sn_status : StatusInfo;
  Versions : list ComponentVersion; sn_hash : string;
  sn_Healthy : bool; sn_UnhealthyReason : string;
}.

Definition empty_reg : RegInfo := MkReg "" 0 ∅ (MkResource 0 0) (MkResource 0 0) "" "" 0 0 0 0.
Definition empty_status : StatusInfo := MkStatus [] [] [] time_zero false.
(** [&NodeSnapshot{NodeID: nodeID}] *)
Definition new_snapshot (id : string) : NodeSnapshot := MkSnap id empty_reg empty_status [] "" false "".

(** The tables. *)
Record NodeRegistration : Type := MkRegRow {
  t_HostIP : string; t_GRPCPort : Z; LabelsJSON : string; CapacityJSON : string; AllocatableJSON : string;
  t_InstanceType : string; t_ClusterLabel : string; t_QuotaCPU : Z; t_QuotaMemMB : Z; t_CreateConcurrentNum : Z; t_MaxMvmNum : Z;
}.
Record NodeStatus : Type := MkStatusRow {
  ConditionsJSON : string; ImagesJSON : string; LocalTemplatesJSON : string; HeartbeatUnix : Z; t_Healthy : bool;
}.

Record tables : Type := MkTables {
  registrations : gmap string NodeRegistration;
  statuses : gmap string NodeStatus;
  versions : gmap (string * string) (ComponentVersion * Z);
}.

(** Values of a Redis hash: numbers and times are written as text that reads back. *)
Inductive rvalue : Type := RText (s : string) | RInt (z : Z) | RFloat (f : float64) | RTime (t : Z).

Record service : Type := MkService {
  db : tables;
  snaps : gmap string NodeSnapshot;
  sched : local;
  tmpls : templates;
  redis : gmap string (gmap string rvalue);
  guestChanged : list string;
}.

Definition set_db t (s : service) := MkService t (snaps s) (sched s) (tmpls s) (redis s) (guestChanged s).
Definition set_snaps m (s : service) := MkService (db s) m (sched s) (tmpls s) (redis s) (guestChanged s).
Definition set_caches l t (s : service) := MkService (db s) (snaps s) l t (redis s) (guestChanged s).
Definition set_redis r (s : service) := MkService (db s) (snaps s) (sched s) (tmpls s) r (guestChanged s).
(** A call of [OnGuestAgentVersionChanged]. *)
Definition notify_guest id (s : service) := MkService (db s) (snaps s) (sched s) (tmpls s) (redis s) (guestChanged s ++ [id])%list.

Definition with_reg r (n : NodeSnapshot) := MkSnap (NodeID n) r (sn_status n) (Versions n) (sn_hash n) (sn_Healthy n) (sn_UnhealthyReason n).
Definition with_status st (n : NodeSnapshot) := MkSnap (NodeID n) (sn_reg n) st (Versions n) (sn_hash n) (sn_Healthy n) (sn_UnhealthyReason n).
Definition with_versions vs h (n : NodeSnapshot) := MkSnap (NodeID n) (sn_reg n) (sn_status n) vs h (sn_Healthy n) (sn_UnhealthyReason n).
Definition with_labels ls (r : RegInfo) :=
  MkReg (HostIP r) (GRPCPort r) ls (Capacity r) (Allocatable r) (r_InstanceType r) (r_ClusterLabel r) (QuotaCPU r) (QuotaMemMB r)
    (r_CreateConcurrentNum r) (MaxMvmNum r).
Definition with_host h (r : RegInfo) :=
  MkReg h (GRPCPort r) (r_Labels r) (Capacity r) (Allocatable r) (r_InstanceType r) (r_ClusterLabel r) (QuotaCPU r) (QuotaMemMB r)
    (r_CreateConcurrentNum r) (MaxMvmNum r).

(** ** Health *)

(** [corev1.NodeReady] and [corev1.ConditionTrue]. *)
Fixpoint ReadyConditionTrue (conditions : list NodeCondition) : bool :=
  match conditions with
  | [] => false
  | c :: cs => if c_Type c =s "Ready" then c_Status c =s "True" else ReadyConditionTrue cs
  end.

Section Service.
Context {Q : Type} (conf : SchedulerConf Q) {SS : SliceSort} `{!GoRuntime} (interval : Z).
Context `{!JSON (gmap string string), !JSON ResourceSnapshot, !JSON (list NodeCondition), !JSON (list ContainerImage),
  !JSON (list LocalTemplate)}.
(** The text of an error of [json.Unmarshal]. *)
Context (json_error : string -> string).

Definition currentHealthStatus (snap : NodeSnapshot) (now : Z) : option string :=
  EvaluateFromFacts (s_ReportedReady (sn_status snap)) (HeartbeatTime (sn_status snap)) now (MetadataTimeout interval).

Definition applyCurrentHealth (now : Z) (snap : NodeSnapshot) : NodeSnapshot :=
  let status := currentHealthStatus snap now in
  MkSnap (NodeID snap) (sn_reg snap) (sn_status snap) (Versions snap) (sn_hash snap)
    (bool_decide (status = None)) (default "" status).

(** ** The scheduler's caches *)

Definition HostStatusRunning : string := "RUNNING".

Definition toSchedulerNode (snap : NodeSnapshot) : Node :=
  let r := sn_reg snap in
  MkNode 0 (NodeID snap) ""
    (MkMetadata (or_string (HostIP r) (NodeID snap)) (NodeID snap) (MilliCPU (Capacity r) ÷ 1000) (MemoryMB (Capacity r)) 0 0 "" ""
       (or_Z (QuotaCPU r) (MilliCPU (Allocatable r))) (or_Z (QuotaMemMB r) (MemoryMB (Allocatable r)))
       (s_ReportedReady (sn_status snap)) (sn_Healthy snap) (sn_UnhealthyReason snap) HostStatusRunning
       (r_CreateConcurrentNum r) (MaxMvmNum r) (HeartbeatTime (sn_status snap))
       "" 0 "" "" [] (r_ClusterLabel r) "" (or_string (r_InstanceType r) DefaultInstanceTypeName) (r_ClusterLabel r) (r_Labels r))
    bare_metrics time_zero f64_zero 0.

Definition templateIDsFromLocalTemplates (ts : list LocalTemplate) : list string :=
  filter (fun id => id <> "") (lt_TemplateID <$> ts).

(** Whether the update of the sorted lists panicked. *)
Definition syncLocalcache (now : Z) (snap : NodeSnapshot) (s : service) : bool * service :=
  let '(panicked, l) := UpsertNode conf (toSchedulerNode snap) (sched s) in
  if panicked then (true, set_caches l (tmpls s) s)
  else (false, set_caches l
                 (SyncNodeTemplates interval now l (NodeID snap) (templateIDsFromLocalTemplates (LocalTemplates (sn_status snap))) (tmpls s)) s).

Definition ensureNode (id : string) (s : service) : NodeSnapshot * service :=
  match snaps s !! id with
  | Some snap => (snap, s)
  | None => (new_snapshot id, set_snaps (<[id := new_snapshot id]> (snaps s)) s)
  end.

(** A change of a snapshot in place. *)
Definition put_snap (snap : NodeSnapshot) (id : string) (s : service) : service := set_snaps (<[id := snap]> (snaps s)) s.

(** ** Versions *)

Definition writeVersions (now : Z) (id : string) (vs : list ComponentVersion) (t : gmap (string * string) (ComponentVersion * Z)) :=
  let rows := filter (fun v => Component v <> "") vs in
  let t := foldl (fun t v => <[(id, Component v) := (v, time_unix now)]> t) t rows in
  filter (fun kv => ~ (kv.1.1 = id /\ kv.1.2 ∉ Component <$> rows)) t.

(** [failed]: the transaction does not commit. *)
Definition persistVersions (failed : bool) (now : Z) (id : string) (vs : list ComponentVersion) (s : service) : service :=
  if bool_decide (vs = []) then s
  else
    let h := versionsHash vs in
    let '(snap, s) := ensureNode id s in
    if sn_hash snap =s h then s
    else if failed then s
    else
      let prevCompat := compatRelevantVersions (Versions snap) in
      let s := set_db (MkTables (registrations (db s)) (statuses (db s)) (writeVersions now id vs (versions (db s)))) s in
      let s := put_snap (with_versions vs h snap) id s in
      if compatVersionsChanged prevCompat (compatRelevantVersions vs) then notify_guest id s else s.

(** ** Labels *)

Definition parseLabelsJSON (raw : string) : res (gmap string string) :=
  if TrimSpace raw =s "" then Ok ∅
  else let '(m, ok) := Unmarshal raw in if ok then Ok m else Err (json_error raw).

Definition readLabelsJSONForUpdate (t : tables) (id : string) : res (gmap string string) :=
  match registrations t !! id with
  | None => Err "record not found"
  | Some row => parseLabelsJSON (LabelsJSON row)
  end.

Definition set_labels_json (id : string) (labels : gmap string string) (t : tables) : tables :=
  MkTables (alter (fun row => MkRegRow (t_HostIP row) (t_GRPCPort row) (mustJSON labels) (CapacityJSON row) (AllocatableJSON row)
                                (t_InstanceType row) (t_ClusterLabel row) (t_QuotaCPU row) (t_QuotaMemMB row)
                                (t_CreateConcurrentNum row) (t_MaxMvmNum row)) id (registrations t))
    (statuses t) (versions t).

Definition too_many (n : Z) : string := "a node cannot have more than 64 labels, got " +:+ pretty n +:+ " after merge".

(** The transaction of the label handlers: read, change, check the number, write. *)
Definition label_transaction (before after : option string) (limit : bool) (id : string)
  (change : gmap string string -> gmap string string) (t : tables) : res (gmap string string * tables) :=
  match before with
  | Some e => Err e
  | None =>
      let! existing := readLabelsJSONForUpdate t id in
      let merged := change existing in
      let n := Z.of_nat (size merged) in
      reject limit && (maxLabelsPerNode <? n) with too_many n ;;
      match after with
      | Some e => Err e
      | None => Ok (merged, set_labels_json id merged t)
      end
  end.

(** The snapshot takes the labels, and the caches the snapshot. *)
Definition publish_labels (now : Z) (id : string) (labels : gmap string string) (s : service) : service * res unit :=
  let '(snap, s) := ensureNode id s in
  let snap := with_reg (with_labels labels (sn_reg snap)) snap in
  let '(panicked, s) := syncLocalcache now snap (put_snap snap id s) in
  (s, if panicked then Err "panic" else Ok tt).

Definition UpdateNodeLabels (before after : option string) (now : Z) (id : string) (labels : gmap string string)
  (kvs : list (string * string)) (s : service) : service * res unit :=
  if id =s "" then (s, Err "node_id is required")
  else
    match validateNodeLabels kvs with
    | Err e => (s, Err e)
    | Ok _ =>
        match label_transaction before after true id (fun existing => labels ∪ existing) (db s) with
        | Err e => (s, Err e)
        | Ok (merged, t) => publish_labels now id merged (set_db t s)
        end
    end.

Definition DeleteNodeLabel (before after : option string) (now : Z) (id key : string) (s : service) : service * res unit :=
  if id =s "" then (s, Err "node_id is required")
  else
    match validateNodeLabelKey key with
    | Err e => (s, Err e)
    | Ok _ =>
        match label_transaction before after false id (delete key) (db s) with
        | Err e => (s, Err e)
        | Ok (labels, t) => publish_labels now id labels (set_db t s)
        end
    end.

(** ** Registration *)

(** The insert, which on a conflict keeps the labels of the row. *)
Definition upsert_registration (id : string) (r : RegInfo) (t : tables) : tables :=
  let old := from_option LabelsJSON "" (registrations t !! id) in
  MkTables (<[id := MkRegRow (HostIP r) (GRPCPort r) old (mustJSON (Capacity r)) (mustJSON (Allocatable r)) (r_InstanceType r)
                      (r_ClusterLabel r) (QuotaCPU r) (QuotaMemMB r) (r_CreateConcurrentNum r) (MaxMvmNum r)]> (registrations t))
    (statuses t) (versions t).

Definition RegisterNode (before after : option string) (vfailed : bool) (now : Z) (id : string) (req : RegInfo)
  (vs : list ComponentVersion) (s : service) : service * res NodeSnapshot :=
  if id =s "" then (s, Err "node_id is required")
  else
    let req := with_host (or_string (HostIP req) id) req in
    match label_transaction before after true id (fun existing => r_Labels req ∪ existing) (upsert_registration id req (db s)) with
    | Err e => (s, Err e)
    | Ok (merged, t) =>
        let '(snap, s) := ensureNode id (set_db t s) in
        let snap := applyCurrentHealth now (with_reg (with_labels merged req) snap) in
        let '(panicked, s) := syncLocalcache now snap (put_snap snap id s) in
        if panicked then (s, Err "panic")
        else
          let s := persistVersions vfailed now id vs s in
          (s, Ok (default snap (snaps s !! id)))
    end.

(** ** Heartbeats *)

Record AllocatedResources : Type := MkAllocated { a_MilliCPU : Z; a_MemoryMB : Z; a_MvmNum : Z; a_NicQueues : Z }.
Record DiskUsage : Type := MkDisk { d_Data : float64; d_Storage : float64; d_Sys : float64 }.

Record UpdateNodeStatusRequest : Type := MkStatusReq {
  q_Conditions : list NodeCondition; q_Images : list ContainerImage; q_LocalTemplates : list LocalTemplate;
  q_HeartbeatTime : Z; q_Allocated : option AllocatedResources; q_DiskUsage : option DiskUsage; q_MetricTime : Z;
  q_Versions : list ComponentVersion;
}.

Record NodeMetric : Type := MkMetric {
  nm_NodeID : string; MetricTime : Z; nm_Allocated : option AllocatedResources; nm_Disk : option DiskUsage;
}.

(** The fields of the HSET, group by group. *)
Definition metric_fields (m : NodeMetric) : list (string * rvalue) :=
  [("ins_id", RText (nm_NodeID m)); ("update_at", RTime (MetricTime m))] ++
  match nm_Allocated m with
  | Some a => [("quota_cpu_usage", RInt (a_MilliCPU a)); ("quota_mem_mb_usage", RInt (a_MemoryMB a));
               ("mvm_num", RInt (a_MvmNum a)); ("nic_queues", RInt (a_NicQueues a))]
  | None => []
  end ++
  match nm_Disk m with
  | Some d => [("data_disk_usage_per", RFloat (d_Data d)); ("storage_disk_usage_per", RFloat (d_Storage d));
               ("sys_disk_usage_per", RFloat (d_Sys d))]
  | None => []
  end.

Definition no_groups (m : NodeMetric) : bool := bool_decide (nm_Allocated m = None) && bool_decide (nm_Disk m = None).

(** [failed]: Redis does not answer. *)
Definition WriteNodeMetric (failed : bool) (m : NodeMetric) (r : gmap string (gmap string rvalue)) : gmap string (gmap string rvalue) :=
  if (nm_NodeID m =s "") || no_groups m || failed then r
  else <[nm_NodeID m := foldl (fun h kv => <[kv.1 := kv.2]> h) (default ∅ (r !! nm_NodeID m)) (metric_fields m)]> r.

Definition merge_metrics (m : NodeMetric) (o : Metrics) : Metrics :=
  let '(cpu, mem, num, nic) :=
    match nm_Allocated m with
    | Some a => (a_MilliCPU a, a_MemoryMB a, a_MvmNum a, a_NicQueues a)
    | None => (QuotaCpuUsage o, QuotaMemUsage o, MvmNum o, NicQueues o)
    end in
  let '(data, storage, sys) :=
    match nm_Disk m with
    | Some d => (d_Data d, d_Storage d, d_Sys d)
    | None => (DataDiskUsagePer o, StorageDiskUsagePer o, SysDiskUsagePer o)
    end in
  MkMetrics (MetricTime m) cpu mem (CpuLoadUsage o) (CpuUtil o) (MemUsage o) data storage sys num (RealTimeCreateNum o) nic.

Definition UpdateNodeMetricInProcess (now : Z) (m : NodeMetric) (l : local) : local :=
  if (nm_NodeID m =s "") || no_groups m then l
  else
    match cache l !! nm_NodeID m with
    | None => l
    | Some p => set_heap (alter (fun old => with_metrics (merge_metrics m (metrics old)) now old) p (heap l)) l
    end.

Definition fanOutResourceMetric (failed : bool) (now : Z) (id : string) (req : UpdateNodeStatusRequest) (s : service) : service :=
  if bool_decide (q_Allocated req = None) && bool_decide (q_DiskUsage req = None) then s
  else
    let m := MkMetric id (if time_is_zero (q_MetricTime req) then now else q_MetricTime req) (q_Allocated req) (q_DiskUsage req) in
    let s := set_redis (WriteNodeMetric failed m (redis s)) s in
    set_caches (UpdateNodeMetricInProcess now m (sched s)) (tmpls s) s.

(** The other side: [getNodeMetricFromRedis], then [updateNodeMetric]. *)
Definition scan_int (v : option rvalue) : Z := match v with Some (RInt z) => z | _ => 0 end.
Definition scan_float (v : option rvalue) : float64 := match v with Some (RFloat f) => f | _ => f64_zero end.
Definition scan_text (v : option rvalue) : string := match v with Some (RText s) => s | _ => "" end.
Definition scan_time (v : option rvalue) : Z := match v with Some (RTime t) => t | _ => time_zero end.

Definition getNodeMetricFromRedis (id : string) (r : gmap string (gmap string rvalue)) : option Node :=
  match r !! id with
  | None => None
  | Some h =>
      if bool_decide (h = ∅) then None
      else Some (MkNode 0 (scan_text (h !! "ins_id")) "" bare_metadata
             (MkMetrics (scan_time (h !! "update_at")) (scan_int (h !! "quota_cpu_usage")) (scan_int (h !! "quota_mem_mb_usage"))
                (scan_float (h !! "cpu_load_usage")) (scan_float (h !! "cpu_util")) (scan_int (h !! "mem_load_mb_usage"))
                (scan_float (h !! "data_disk_usage_per")) (scan_float (h !! "storage_disk_usage_per"))
                (scan_float (h !! "sys_disk_usage_per")) (scan_int (h !! "mvm_num")) (scan_int (h !! "realtime_create_num"))
                (scan_int (h !! "nic_queues"))) time_zero f64_zero 0)
  end.

(** One cached node of [loopUpdateMetric]. *)
Definition update_metric_of (now : Z) (id : string) (r : gmap string (gmap string rvalue)) (l : local) : local :=
  match getNodeMetricFromRedis id r with
  | Some n => default l (updateNodeMetric now n l)
  | None => l
  end.

Definition upsert_status (id : string) (q : UpdateNodeStatusRequest) (heartbeat : Z) (t : tables) : tables :=
  MkTables (registrations t)
    (<[id := MkStatusRow (mustJSON (q_Conditions q)) (mustJSON (q_Images q)) (mustJSON (q_LocalTemplates q)) (time_unix heartbeat)
               (ReadyConditionTrue (q_Conditions q))]> (statuses t)) (versions t).

(** [failed] is the error of the database, if any; a nil request is the empty one. *)
Definition UpdateNodeStatus (failed : option string) (rfailed vfailed : bool) (now : Z) (id : string)
  (q : UpdateNodeStatusRequest) (s : service) : service * res NodeSnapshot :=
  if id =s "" then (s, Err "node_id is required")
  else
    let heartbeat := if time_is_zero (q_HeartbeatTime q) then now else q_HeartbeatTime q in
    match failed with
    | Some e => (s, Err e)
    | None =>
        let s := set_db (upsert_status id q heartbeat (db s)) s in
        let '(snap, s) := ensureNode id s in
        let st := MkStatus (q_Conditions q) (q_Images q) (q_LocalTemplates q) heartbeat (ReadyConditionTrue (q_Conditions q)) in
        let snap := applyCurrentHealth now (with_status st snap) in
        let '(panicked, s) := syncLocalcache now snap (put_snap snap id s) in
        if panicked then (s, Err "panic")
        else
          let s := fanOutResourceMetric rfailed now id q s in
          let s := persistVersions vfailed now id (q_Versions q) s in
          (s, Ok (default snap (snaps s !! id)))
    end.

(** ** Reload *)

Definition reg_of_row (row : NodeRegistration) : RegInfo :=
  MkReg (t_HostIP row) (t_GRPCPort row) (Unmarshal (LabelsJSON row)).1 (Unmarshal (CapacityJSON row)).1 (Unmarshal (AllocatableJSON row)).1
    (t_InstanceType row) (t_ClusterLabel row) (t_QuotaCPU row) (t_QuotaMemMB row) (t_CreateConcurrentNum row) (t_MaxMvmNum row).

(** [time.Unix(sec, 0)] *)
Definition unix_time (sec : Z) : Z := (sec + 62135596800) * second.

Definition status_of_row (row : NodeStatus) : StatusInfo :=
  MkStatus (Unmarshal (ConditionsJSON row)).1 (Unmarshal (ImagesJSON row)).1 (Unmarshal (LocalTemplatesJSON row)).1
    (unix_time (HeartbeatUnix row)) (t_Healthy row).

Definition with_row_versions (vrows : list NodeComponentVersion) (n : NodeSnapshot) : NodeSnapshot :=
  let vs := row <$> filter (fun r => row_NodeID r = NodeID n) vrows in with_versions vs (versionsHash vs) n.

(** The snapshot [reload] builds for a node, if any table mentions it; [vrows] are the
    rows of the version table in the order in which the query returns them. *)
Definition scan_node (now : Z) (t : tables) (vrows : list NodeComponentVersion) (id : string) : option NodeSnapshot :=
  let base := (fun row => with_reg (reg_of_row row) (new_snapshot id)) <$> registrations t !! id in
  let base := match statuses t !! id with
              | Some row => Some (applyCurrentHealth now (with_status (status_of_row row) (default (new_snapshot id) base)))
              | None => base
              end in
  let base := if bool_decide (id ∈ row_NodeID <$> vrows) then Some (default (new_snapshot id) base) else base in
  with_row_versions vrows <$> base.

(** What the tables mention. *)
Definition mentioned (t : tables) (vrows : list NodeComponentVersion) : gset string :=
  dom (registrations t) ∪ dom (statuses t) ∪ list_to_set (row_NodeID <$> vrows).

Definition scan (now : Z) (t : tables) (vrows : list NodeComponentVersion) : gmap string NodeSnapshot :=
  set_to_map (fun id => (id, default (new_snapshot id) (scan_node now t vrows id))) (mentioned t vrows).

(** One entry of [applyReloadResult]. *)
Definition refresh (now : Z) (existing newSnap : NodeSnapshot) : NodeSnapshot :=
  let fresher := time_after (HeartbeatTime (sn_status newSnap)) (HeartbeatTime (sn_status existing)) in
  applyCurrentHealth now
    (MkSnap (NodeID existing) (sn_reg newSnap) (if fresher then sn_status newSnap else sn_status existing)
       (Versions newSnap) (sn_hash newSnap) (sn_Healthy existing) (sn_UnhealthyReason existing)).

Definition applyReloadResult (now : Z) (next : gmap string NodeSnapshot) (s : service) : service :=
  set_snaps (merge (fun old new =>
                      match new, old with
                      | None, _ => old
                      | Some n, None => Some n
                      | Some n, Some e => Some (refresh now e n)
                      end) (snaps s) next) s.

(** ** Queries *)

Definition GetNode (now : Z) (id : string) (s : service) : option NodeSnapshot := applyCurrentHealth now <$> snaps s !! id.

Definition ListNodes (now : Z) (s : service) : list NodeSnapshot :=
  sort_slice (key_less NodeID) (applyCurrentHealth now <$> (map_to_list (snaps s)).*2).

Definition ListSchedulerNodes (now : Z) (s : service) : list Node := toSchedulerNode <$> ListNodes now s.

Definition GetNodeComponentVersions (now : Z) (id : string) (s : service) : option (gmap string string) :=
  let id := TrimSpace id in
  if id =s "" then None
  else
    match snaps s !! id with
    | None => None
    | Some snap =>
        let cloned := applyCurrentHealth now snap in
        if sn_Healthy cloned then Some (compatRelevantVersions (Versions cloned)) else None
    end.

End Service.

(** ** The scheduler's cache after an update *)

(** The cache of the scheduler holds this metadata for a node. *)
Definition cached_meta (l : local) (id : string) (m : Metadata) : Prop :=
  exists p n, cache l !! id = Some p /\ heap l !! p = Some n /\ meta n = m.

Section Upsert.
Context {Q : Type} (conf : SchedulerConf Q) {SS : SliceSort}.

Lemma put_list_cached product xs l id m : cached_meta (put_list product xs l) id m <-> cached_meta l id m.
Proof. done. Qed.

Lemma updateSortedNodes_cached p n l id m : cached_meta l id m -> cached_meta (updateSortedNodes conf p n l).2 id m.
Proof. unfold updateSortedNodes. intros Hm. destruct (negb _); [destruct (Remove _ _ _)|]; exact Hm. Qed.

Lemma UpsertNode_cached n l : cached_meta (UpsertNode conf n l).2 (ID n) (meta n).
Proof.
  unfold UpsertNode, updateNodeFromMetaData, addNodeCache.
  assert (cached_meta (appendSortedNodes conf (next l) n
            (set_cache (<[ID n := next l]> (cache (alloc n l).2)) (alloc n l).2)) (ID n) (meta n)) as Hadd.
  { unfold appendSortedNodes. destruct (negb _); exists (next l), n; cbn; by rewrite !lookup_insert_eq. }
  destruct (cache l !! ID n) as [p|] eqn:Hc; [|exact Hadd]. destruct (heap l !! p) as [old|] eqn:Hp; [|exact Hadd].
  apply updateSortedNodes_cached. exists p, (with_metadata (meta n) old). cbn. by rewrite lookup_insert_eq.
Qed.

End Upsert.

(** ** What the handlers leave alone *)

Section Frames.
Context {Q : Type} (conf : SchedulerConf Q) {SS : SliceSort} `{!GoRuntime} (interval : Z).

Lemma sync_frame now snap s panicked s' :
  syncLocalcache conf interval now snap s = (panicked, s') ->
  db s' = db s /\ snaps s' = snaps s /\ redis s' = redis s /\ guestChanged s' = guestChanged s /\
  cached_meta (sched s') (ID (toSchedulerNode snap)) (meta (toSchedulerNode snap)).
Proof.
  unfold syncLocalcache. pose proof (UpsertNode_cached conf (toSchedulerNode snap) (sched s)) as Hc.
  destruct (UpsertNode conf _ (sched s)) as [[] l]; intros [= <- <-]; cbn in *; by split_and!.
Qed.

Lemma ensureNode_spec id s snap s' :
  ensureNode id s = (snap, s') ->
  db s' = db s /\ sched s' = sched s /\ tmpls s' = tmpls s /\ redis s' = redis s /\
  snap = default (new_snapshot id) (snaps s !! id) /\ snaps s' = <[id := snap]> (snaps s).
Proof.
  unfold ensureNode. destruct (snaps s !! id) as [n|] eqn:Hn; intros [= <- <-]; cbn; split_and!; try done.
  by rewrite insert_id.
Qed.

(** [persistVersions] changes the versions of one node, in memory and in its table, or nothing. *)
Lemma persist_frame failed now id vs s old :
  snaps s !! id = Some old ->
  let s' := persistVersions failed now id vs s in
  registrations (db s') = registrations (db s) /\ statuses (db s') = statuses (db s) /\
  sched s' = sched s /\ tmpls s' = tmpls s /\ redis s' = redis s /\
  ((snaps s' = snaps s /\ versions (db s') = versions (db s)) \/
   (vs <> [] /\ snaps s' = <[id := with_versions vs (versionsHash vs) old]> (snaps s) /\
    versions (db s') = writeVersions now id vs (versions (db s)))).
Proof.
  intros Hold s'. unfold s', persistVersions. case_bool_decide as Hvs; [by split_and!; auto|].
  destruct (ensureNode id s) as [snap s1] eqn:He.
  apply ensureNode_spec in He as (Hdb & Hsc & Htm & Hre & Hsnap & Hsn). rewrite Hold in Hsnap. cbn in Hsnap. subst snap.
  rewrite insert_id in Hsn by done. case_bool_decide; [|destruct failed].
  1,2: rewrite Hdb, Hsc, Htm, Hre; split_and!; auto.
  destruct (compatVersionsChanged _ _); cbn; rewrite ?Hdb, ?Hsc, ?Htm, ?Hre, ?Hsn; split_and!; auto.
Qed.

End Frames.

(** ** The effect of a handler on the tables and the snapshots *)

Section Effects.
Context {Q : Type} (conf : SchedulerConf Q) {SS : SliceSort} `{!GoRuntime} (interval : Z).
Context `{!JSON (gmap string string), !JSON ResourceSnapshot, !JSON (list NodeCondition), !JSON (list ContainerImage),
  !JSON (list LocalTemplate)}.
Context (json_error : string -> string).

(** The tables of registrations and statuses become those of [t], one snapshot becomes
    [n], and then its versions are written or not. *)
Definition settled (now : Z) (id : string) (n : NodeSnapshot) (vs : list ComponentVersion) (t : tables) (s s' : service) : Prop :=
  registrations (db s') = registrations t /\ statuses (db s') = statuses t /\
  ((snaps s' = <[id := n]> (snaps s) /\ versions (db s') = versions (db s)) \/
   (vs <> [] /\ snaps s' = <[id := with_versions vs (versionsHash vs) n]> (snaps s) /\
    versions (db s') = writeVersions now id vs (versions (db s)))).

Definition old_snap (id : string) (s : service) : NodeSnapshot := default (new_snapshot id) (snaps s !! id).

Lemma publish_effect now id labels s t s' r :
  versions t = versions (db s) ->
  publish_labels conf interval now id labels (set_db t s) = (s', r) ->
  settled now id (with_reg (with_labels labels (sn_reg (old_snap id s))) (old_snap id s)) [] t s s'.
Proof.
  unfold publish_labels, settled, old_snap. intros Hv.
  destruct (ensureNode id _) as [snap s1] eqn:He. apply ensureNode_spec in He as (Hdb & _ & _ & _ & Hsnap & Hsn).
  destruct (syncLocalcache _ _ _ _ _) as [panicked s2] eqn:Hy. apply sync_frame in Hy as (Hdb2 & Hsn2 & _ & _ & _).
  intros [= <- _]. cbn in *. rewrite Hdb2, Hsn2. cbn. rewrite Hdb, Hsn, insert_insert_eq, <- Hsnap. cbn. by split_and!; auto.
Qed.

Lemma label_transaction_tables before after limit id change t merged t' :
  label_transaction json_error before after limit id change t = Ok (merged, t') ->
  before = None /\ after = None /\
  exists existing, readLabelsJSONForUpdate json_error t id = Ok existing /\ merged = change existing /\
    (limit = true -> Z.of_nat (size merged) <= 64) /\ t' = set_labels_json id merged t.
Proof.
  unfold label_transaction, maxLabelsPerNode. destruct before; [done|].
  destruct (readLabelsJSONForUpdate _ t id) as [existing|e]; [|done]. cbn.
  destruct (limit && _) eqn:Hl; [done|]. destruct after; [done|]. intros [= <- <-].
  split_and!; try done. exists existing. split_and!; try done. intros ->. cbn in Hl. by apply Z.ltb_ge in Hl.
Qed.

Lemma RegisterNode_effect before after vfailed now id req vs s s' r :
  RegisterNode conf interval json_error before after vfailed now id req vs s = (s', r) ->
  if id =s "" then s' = s
  else
    let req' := with_host (or_string (HostIP req) id) req in
    match label_transaction json_error before after true id (fun existing => r_Labels req ∪ existing)
            (upsert_registration id req' (db s)) with
    | Err _ => s' = s
    | Ok (merged, t) =>
        settled now id (applyCurrentHealth interval now (with_reg (with_labels merged req') (old_snap id s))) vs t s s'
    end.
Proof.
  unfold RegisterNode. case_bool_decide; [by intros [= <- <-]|]. cbv zeta.
  change (r_Labels (with_host _ req)) with (r_Labels req).
  destruct (label_transaction _ _ _ _ _ _ _) as [[merged t]|e] eqn:Ht; [|by intros [= <- <-]].
  destruct (ensureNode id _) as [snap s1] eqn:He. apply ensureNode_spec in He as (Hdb & _ & _ & _ & Hsnap & Hsn).
  destruct (syncLocalcache _ _ _ _ _) as [panicked s2] eqn:Hy. apply sync_frame in Hy as (Hdb2 & Hsn2 & _ & _ & _).
  cbn in Hdb, Hsnap, Hsn, Hdb2, Hsn2. rewrite Hsn, insert_insert_eq in Hsn2. rewrite Hdb in Hdb2.
  intros Hr. unfold settled, old_snap. rewrite <- Hsnap.
  assert (versions t = versions (db s)) as Hv.
  { apply label_transaction_tables in Ht as (_ & _ & ? & _ & _ & _ & ->). done. }
  destruct panicked; [injection Hr as <- _; rewrite Hdb2, Hsn2; by split_and!; auto|]. injection Hr as <- _.
  destruct (persist_frame vfailed now id vs s2 (applyCurrentHealth interval now (with_reg (with_labels merged (with_host (or_string (HostIP req) id) req)) snap)))
    as (H1 & H2 & _ & _ & _ & H3); [by rewrite Hsn2, lookup_insert_eq|].
  rewrite Hdb2, Hsn2, ?insert_insert_eq in *. split_and!; [done|done|].
  destruct H3 as [[-> ->]|(? & -> & ->)]; rewrite ?insert_insert_eq, Hv; auto.
Qed.

Lemma UpdateNodeStatus_effect failed rfailed vfailed now id q s s' r :
  UpdateNodeStatus conf interval failed rfailed vfailed now id q s = (s', r) ->
  let heartbeat := if time_is_zero (q_HeartbeatTime q) then now else q_HeartbeatTime q in
  if (id =s "") || bool_decide (is_Some failed) then s' = s
  else settled now id
    (applyCurrentHealth interval now
       (with_status (MkStatus (q_Conditions q) (q_Images q) (q_LocalTemplates q) heartbeat (ReadyConditionTrue (q_Conditions q)))
          (old_snap id s))) (q_Versions q) (upsert_status id q heartbeat (db s)) s s'.
Proof.
  unfold UpdateNodeStatus. destruct (id =s ""); [by intros [= <- <-]|].
  destruct failed as [e|]; [by intros [= <- <-]|]. cbn [orb]. rewrite bool_decide_false by by intros [? ?].
  destruct (ensureNode id _) as [snap s1] eqn:He. apply ensureNode_spec in He as (Hdb & _ & _ & _ & Hsnap & Hsn).
  destruct (syncLocalcache _ _ _ _ _) as [panicked s2] eqn:Hy. apply sync_frame in Hy as (Hdb2 & Hsn2 & _ & _ & _).
  cbn in Hdb, Hsnap, Hsn, Hdb2, Hsn2. rewrite Hsn, insert_insert_eq in Hsn2. rewrite Hdb in Hdb2.
  intros Hr. cbv zeta. unfold settled, old_snap. rewrite <- Hsnap. set (n := applyCurrentHealth _ _ _) in *.
  destruct panicked; [injection Hr as <- _; rewrite Hdb2, Hsn2; by split_and!; auto|]. injection Hr as <- _.
  assert (db (fanOutResourceMetric rfailed now id q s2) = db s2 /\ snaps (fanOutResourceMetric rfailed now id q s2) = snaps s2) as [Hd Hs].
  { unfold fanOutResourceMetric. by destruct (_ && _). }
  destruct (persist_frame vfailed now id (q_Versions q) (fanOutResourceMetric rfailed now id q s2) n)
    as (H1 & H2 & _ & _ & _ & H3); [by rewrite Hs, Hsn2, lookup_insert_eq|].
  rewrite Hd, Hs, Hdb2, Hsn2 in *. split_and!; [done|done|].
  destruct H3 as [[-> ->]|(? & -> & ->)]; rewrite ?insert_insert_eq; auto.
Qed.

End Effects.

(** ** Histories *)

(** Labels whose texts are valid stay valid when they are merged or dropped. *)
Class PlainLabels `{!JSON (gmap string string)} : Prop := {
  plain_empty : json_plain (∅ : gmap string string);
  plain_union (a b : gmap string string) : json_plain a -> json_plain b -> json_plain (a ∪ b);
  plain_delete k (a : gmap string string) : json_plain a -> json_plain (delete k a);
}.

(** A reload carries the tables as its queries found them, which may be older than the
    tables at the time it is applied. *)
Inductive meta_op : Type :=
  | ORegister (before after : option string) (vfailed : bool) (now : Z) (id : string) (req : RegInfo) (vs : list ComponentVersion)
  | OStatus (failed : option string) (rfailed vfailed : bool) (now : Z) (id : string) (q : UpdateNodeStatusRequest)
  | OLabels (before after : option string) (now : Z) (id : string) (labels : gmap string string) (kvs : list (string * string))
  | ODelete (before after : option string) (now : Z) (id key : string)
  | OReload (now : Z) (t : tables) (vrows : list NodeComponentVersion).

Section Invariant.
Context {Q : Type} (conf : SchedulerConf Q) {SS : SliceSort} `{!GoRuntime} (interval : Z).
Context `{!JSON (gmap string string), !JSON ResourceSnapshot, !JSON (list NodeCondition), !JSON (list ContainerImage),
  !JSON (list LocalTemplate)} `{!PlainLabels}.
Context (json_error : string -> string).

Definition run_meta (s : service) (o : meta_op) : service :=
  match o with
  | ORegister before after vfailed now id req vs => (RegisterNode conf interval json_error before after vfailed now id req vs s).1
  | OStatus failed rfailed vfailed now id q => (UpdateNodeStatus conf interval failed rfailed vfailed now id q s).1
  | OLabels before after now id labels kvs => (UpdateNodeLabels conf interval json_error before after now id labels kvs s).1
  | ODelete before after now id key => (DeleteNodeLabel conf interval json_error before after now id key s).1
  | OReload now t vrows => applyReloadResult interval now (scan interval now t vrows) s
  end.

Definition reg_row_ok (row : NodeRegistration) : Prop :=
  exists (m : gmap string string) (c a : ResourceSnapshot),
    LabelsJSON row = mustJSON m /\ json_plain m /\ Z.of_nat (size m) <= 64 /\
    CapacityJSON row = mustJSON c /\ json_plain c /\ AllocatableJSON row = mustJSON a /\ json_plain a.

Definition status_row_ok (row : NodeStatus) : Prop :=
  exists (cs : list NodeCondition) (imgs : list ContainerImage) (ts : list LocalTemplate),
    ConditionsJSON row = mustJSON cs /\ json_plain cs /\ ImagesJSON row = mustJSON imgs /\ json_plain imgs /\
    LocalTemplatesJSON row = mustJSON ts /\ json_plain ts /\ t_Healthy row = ReadyConditionTrue cs.

Definition tables_ok (t : tables) : Prop :=
  map_Forall (fun _ row => reg_row_ok row) (registrations t) /\ map_Forall (fun _ row => status_row_ok row) (statuses t).

(** A snapshot carries its own id, at most 64 labels, the readiness its conditions
    report, and the hash of its versions. *)
Definition snap_ok (id : string) (n : NodeSnapshot) : Prop :=
  NodeID n = id /\ Z.of_nat (size (r_Labels (sn_reg n))) <= 64 /\
  s_ReportedReady (sn_status n) = ReadyConditionTrue (Conditions (sn_status n)) /\
  sn_hash n = versionsHash (Versions n).

Definition service_ok (s : service) : Prop := tables_ok (db s) /\ map_Forall snap_ok (snaps s).

(** Requests hold valid text; a reload read tables that were once the database's. *)
Definition op_ok (o : meta_op) : Prop :=
  match o with
  | ORegister _ _ _ _ _ req _ => json_plain (r_Labels req) /\ json_plain (Capacity req) /\ json_plain (Allocatable req)
  | OStatus _ _ _ _ _ q => json_plain (q_Conditions q) /\ json_plain (q_Images q) /\ json_plain (q_LocalTemplates q)
  | OLabels _ _ _ _ labels _ => json_plain labels
  | ODelete _ _ _ _ _ => True
  | OReload _ t _ => tables_ok t
  end.

Lemma versionsHash_nil : versionsHash [] = "".
Proof. done. Qed.

Lemma new_snapshot_ok id : snap_ok id (new_snapshot id).
Proof. by split_and!. Qed.

Lemma old_snap_ok id s : service_ok s -> snap_ok id (old_snap id s).
Proof.
  intros [_ Hs]. unfold old_snap. destruct (snaps s !! id) eqn:E; [by apply (Hs id)|apply new_snapshot_ok].
Qed.

Lemma settled_ok now id n vs t s s' :
  service_ok s -> tables_ok t -> snap_ok id n -> settled now id n vs t s s' -> service_ok s'.
Proof.
  intros [_ Hs] [Ht1 Ht2] Hn (H1 & H2 & H3). split; [split; by rewrite ?H1, ?H2|].
  destruct H3 as [[-> _]|(_ & -> & _)]; apply map_Forall_insert_2; try done.
  destruct Hn as (? & ? & ? & _). by split_and!.
Qed.

Lemma parse_row row : reg_row_ok row ->
  exists m, parseLabelsJSON json_error (LabelsJSON row) = Ok m /\ m = (Unmarshal (LabelsJSON row)).1 /\
    LabelsJSON row = mustJSON m /\ json_plain m /\ Z.of_nat (size m) <= 64.
Proof.
  intros (m & c & a & Hl & Hm & Hsz & _). exists m. unfold parseLabelsJSON. rewrite Hl.
  rewrite bool_decide_false by apply mustJSON_visible. by rewrite Unmarshal_mustJSON.
Qed.

(** The labels of a row, changed and written back. *)
Lemma set_labels_ok id labels t :
  tables_ok t -> json_plain labels -> Z.of_nat (size labels) <= 64 -> tables_ok (set_labels_json id labels t).
Proof.
  intros [H1 H2] Hp Hsz. split; [|exact H2]. cbn. intros id' row Hrow.
  apply lookup_alter_Some in Hrow as [(<- & row0 & Hr & ->)|[_ Hr]]; [|by apply (H1 id')].
  destruct (H1 _ _ Hr) as (m & c & a & _ & _ & _ & ? & ? & ? & ?). by exists labels, c, a.
Qed.

(** What a successful transaction read and wrote. *)
Lemma label_transaction_ok before after limit id change t merged t' :
  tables_ok t -> label_transaction json_error before after limit id change t = Ok (merged, t') ->
  (forall m : gmap string string, json_plain m -> json_plain (change m)) ->
  (limit = true \/ forall m : gmap string string, (size (change m) <= size m)%nat) ->
  tables_ok t' /\ json_plain merged /\ Z.of_nat (size merged) <= 64.
Proof.
  intros Ht (_ & _ & existing & Hr & -> & Hlim & ->)%label_transaction_tables Hpl Hsz.
  unfold readLabelsJSONForUpdate in Hr. destruct (registrations t !! id) as [row|] eqn:Hrow; [|done].
  destruct (parse_row row) as (m & Hm & _ & _ & Hp & Hs); [by apply (proj1 Ht id)|].
  assert (existing = m) as -> by congruence.
  assert (Z.of_nat (size (change m)) <= 64) as H64 by (destruct Hsz as [->|Hsz]; [auto|specialize (Hsz m); lia]).
  split_and!; [by apply set_labels_ok; auto|auto|done].
Qed.

(** Inside [RegisterNode] the row may be a new one, whose labels are blank. *)
Lemma register_transaction_ok before after id (req : RegInfo) t merged t' :
  tables_ok t -> json_plain (r_Labels req) -> json_plain (Capacity req) -> json_plain (Allocatable req) ->
  label_transaction json_error before after true id (fun existing => r_Labels req ∪ existing) (upsert_registration id req t) =
    Ok (merged, t') ->
  tables_ok t' /\ json_plain merged /\ Z.of_nat (size merged) <= 64 /\
  merged = r_Labels req ∪ from_option (fun row => (Unmarshal (LabelsJSON row)).1) ∅ (registrations t !! id).
Proof.
  intros [Ht1 Ht2] Hl Hc Ha (_ & _ & existing & Hr & -> & Hlim & ->)%label_transaction_tables. specialize (Hlim eq_refl).
  unfold readLabelsJSONForUpdate in Hr. cbn in Hr. rewrite lookup_insert_eq in Hr. cbn in Hr.
  assert (json_plain existing /\ existing = from_option (fun row => (Unmarshal (LabelsJSON row)).1) ∅ (registrations t !! id)) as [Hp Hex].
  { destruct (registrations t !! id) as [row|] eqn:Hrow; cbn in *.
    - destruct (parse_row row) as (m & Hm & ? & ? & ? & _); [by apply (Ht1 id)|]. assert (existing = m) as -> by congruence. done.
    - unfold parseLabelsJSON in Hr. cbn in Hr. injection Hr as <-. split; [apply plain_empty|done]. }
  split_and!; [|by apply plain_union|done|by rewrite <- Hex].
  split; [|exact Ht2]. cbn. rewrite alter_insert_eq. apply map_Forall_insert_2; [|exact Ht1].
  exists (r_Labels req ∪ existing), (Capacity req), (Allocatable req). cbn. split_and!; auto using plain_union.
Qed.

Lemma reg_of_row_labels row : reg_row_ok row -> Z.of_nat (size (r_Labels (reg_of_row row))) <= 64.
Proof. intros Hr. destruct (parse_row row Hr) as (m & _ & Hm & _ & _ & Hs). cbn. by rewrite <- Hm. Qed.

Lemma status_of_row_ready row :
  status_row_ok row -> s_ReportedReady (status_of_row row) = ReadyConditionTrue (Conditions (status_of_row row)).
Proof.
  intros (cs & imgs & ts & Hc & Hpc & _ & _ & _ & _ & Hh). unfold status_of_row. cbn. by rewrite Hc, Unmarshal_mustJSON, Hh.
Qed.

(** The snapshot of a reload, by tables. *)
Lemma scan_node_spec now t vrows id n :
  scan_node interval now t vrows id = Some n ->
  NodeID n = id /\ sn_reg n = from_option reg_of_row empty_reg (registrations t !! id) /\
  sn_status n = from_option status_of_row empty_status (statuses t !! id) /\
  Versions n = row <$> filter (fun r => row_NodeID r = id) vrows /\ sn_hash n = versionsHash (Versions n).
Proof.
  unfold scan_node. destruct (registrations t !! id), (statuses t !! id); cbn; case_bool_decide; cbn; intros; by simplify_eq.
Qed.

Lemma scan_node_Some now t vrows id :
  is_Some (scan_node interval now t vrows id) <-> id ∈ mentioned t vrows.
Proof.
  clear json_error. unfold scan_node, mentioned. rewrite !elem_of_union, !elem_of_dom, elem_of_list_to_set.
  destruct (registrations t !! id), (statuses t !! id); cbn; case_bool_decide; cbn;
    rewrite ?is_Some_alt; naive_solver.
Qed.

Lemma scan_lookup now t vrows id : scan interval now t vrows !! id = scan_node interval now t vrows id.
Proof.
  unfold scan. destruct (scan_node interval now t vrows id) as [n|] eqn:Hn.
  - apply lookup_set_to_map; [done|]. exists id. split; [apply (scan_node_Some now); eauto|]. by rewrite Hn.
  - apply eq_None_not_Some. intros [n Hs]. apply lookup_set_to_map in Hs as (id' & Hin & [= -> _]); [|done].
    apply (scan_node_Some now) in Hin as [? ?]. congruence.
Qed.

Lemma scan_ok now t vrows : tables_ok t -> map_Forall snap_ok (scan interval now t vrows).
Proof.
  intros [Ht1 Ht2] id n. rewrite scan_lookup. intros (Hid & Hreg & Hst & Hv & Hh)%scan_node_spec.
  split_and!; [done| | |done].
  - rewrite Hreg. destruct (registrations t !! id) as [row|] eqn:Hr; cbn; [|done]. apply reg_of_row_labels. by apply (Ht1 id).
  - rewrite Hst. destruct (statuses t !! id) as [row|] eqn:Hr; [|done]. apply status_of_row_ready. by apply (Ht2 id).
Qed.

Lemma reload_lookup now next s id :
  snaps (applyReloadResult interval now next s) !! id =
  match next !! id, snaps s !! id with
  | None, old => old
  | Some n, None => Some n
  | Some n, Some e => Some (refresh interval now e n)
  end.
Proof. cbn. rewrite lookup_merge. unfold diag_None. by destruct (snaps s !! id), (next !! id). Qed.

Lemma refresh_ok now id e n : snap_ok id e -> snap_ok id n -> snap_ok id (refresh interval now e n).
Proof. intros (? & ? & ? & ?) (? & ? & ? & ?). unfold refresh. split_and!; cbn; try done. by destruct (time_after _ _). Qed.

Lemma run_meta_ok s o : service_ok s -> op_ok o -> service_ok (run_meta s o).
Proof.
  intros Hs Ho. pose proof (fun id => old_snap_ok id s Hs) as Hold. destruct Hs as [Hdb Hsn] eqn:EHs. clear EHs.
  assert (service_ok s) as Hok by done.
  destruct o as [before after vfailed now id req vs|failed rfailed vfailed now id q|before after now id labels kvs
    |before after now id key|now t vrows]; cbn in Ho |- *.
  - destruct Ho as (Hl & Hc & Ha). destruct (RegisterNode _ _ _ _ _ _ _ _ _ _ _) as [s' r] eqn:E.
    apply RegisterNode_effect in E as Hset. case_bool_decide; [by subst s'|]. cbv zeta in Hset.
    destruct (label_transaction _ _ _ _ _ _ _) as [[merged t]|e] eqn:Ht; [|by subst s'].
    eapply (register_transaction_ok _ _ _ (with_host _ req)) in Ht as (Ht & Hp & H64 & _); [|done..].
    eapply settled_ok; [done|exact Ht| |exact Hset]. destruct (Hold id) as (? & _ & ? & ?). by split_and!.
  - destruct (UpdateNodeStatus _ _ _ _ _ _ _ _ _) as [s' r] eqn:E. destruct Ho as (Hc & Hi & Ht).
    apply UpdateNodeStatus_effect in E as Hset. cbv zeta in Hset. destruct (_ || _); [by subst s'|].
    eapply settled_ok; [done| | |exact Hset].
    + split; [apply Hdb|]. cbn. apply map_Forall_insert_2; [|apply Hdb].
      exists (q_Conditions q), (q_Images q), (q_LocalTemplates q). by split_and!.
    + destruct (Hold id) as (? & ? & _ & ?). by split_and!.
  - unfold UpdateNodeLabels. case_bool_decide; [done|]. destruct (validateNodeLabels kvs); [|done].
    destruct (label_transaction _ _ _ _ _ _ _) as [[merged t]|e] eqn:Ht; [|done].
    destruct (publish_labels _ _ _ _ _ _) as [s' r] eqn:E.
    pose proof (label_transaction_tables _ _ _ _ _ _ _ _ _ Ht) as (_ & _ & ? & _ & _ & _ & Ht').
    apply label_transaction_ok in Ht as (Ht & Hp & H64); [|done|intros; by apply plain_union|by left].
    apply publish_effect in E; [|by rewrite Ht']. eapply settled_ok; [done|exact Ht| |exact E].
    destruct (Hold id) as (? & _ & ? & ?). by split_and!.
  - unfold DeleteNodeLabel. case_bool_decide; [done|]. destruct (validateNodeLabelKey key); [|done].
    destruct (label_transaction _ _ _ _ _ _ _) as [[merged t]|e] eqn:Ht; [|done].
    destruct (publish_labels _ _ _ _ _ _) as [s' r] eqn:E.
    pose proof (label_transaction_tables _ _ _ _ _ _ _ _ _ Ht) as (_ & _ & ? & _ & _ & _ & Ht').
    apply label_transaction_ok in Ht as (Ht & Hp & H64);
      [|done|intros; by apply plain_delete|right; intros; apply map_subseteq_size, delete_subseteq].
    apply publish_effect in E; [|by rewrite Ht']. eapply settled_ok; [done|exact Ht| |exact E].
    destruct (Hold id) as (? & _ & ? & ?). by split_and!.
  - split; [exact Hdb|]. intros id n. rewrite reload_lookup. pose proof (scan_ok now t vrows Ho) as Hscan.
    destruct (scan interval now t vrows !! id) as [n'|] eqn:Hn; destruct (snaps s !! id) as [e|] eqn:He;
      intros; simplify_eq; eauto using refresh_ok.
Qed.

End Invariant.

(** ** Labels as an abstract store *)

Section Labels.
Context {Q : Type} (conf : SchedulerConf Q) {SS : SliceSort} `{!GoRuntime} (interval : Z).
Context `{!JSON (gmap string string), !JSON ResourceSnapshot, !JSON (list NodeCondition), !JSON (list ContainerImage),
  !JSON (list LocalTemplate)} `{!PlainLabels}.
Context (json_error : string -> string).

(** The labels the table of registrations holds. *)
Definition stored_labels (s : service) : gmap string (gmap string string) :=
  (fun row => (Unmarshal (LabelsJSON row)).1) <$> registrations (db s).

(** The abstract store: registration merges the labels of the Cubelet over those that are
    there, the administrator's labels are merged when they are valid and the node is
    registered, at most 64 labels per node; everything else is refused. *)
Definition put_labels (id : string) (m : gmap string string) (L : gmap string (gmap string string)) :=
  if 64 <? Z.of_nat (size m) then L else <[id := m]> L.

Definition spec_labels (L : gmap string (gmap string string)) (o : meta_op) : gmap string (gmap string string) :=
  match o with
  | ORegister None None _ _ id req _ => if id =s "" then L else put_labels id (r_Labels req ∪ default ∅ (L !! id)) L
  | OLabels None None _ id labels kvs =>
      match L !! id with
      | Some old => if (id =s "") || negb (is_ok (validateNodeLabels kvs)) then L else put_labels id (labels ∪ old) L
      | None => L
      end
  | ODelete None None _ id key =>
      match L !! id with
      | Some old => if (id =s "") || negb (is_ok (validateNodeLabelKey key)) then L else <[id := delete key old]> L
      | None => L
      end
  | _ => L
  end.

Lemma settled_labels now id n vs t s s' :
  settled now id n vs t s s' -> stored_labels s' = (fun row => (Unmarshal (LabelsJSON row)).1) <$> registrations t.
Proof. intros (Hr & _). unfold stored_labels. by rewrite Hr. Qed.

Lemma set_labels_stored id (m : gmap string string) t :
  json_plain m -> is_Some (registrations t !! id) ->
  (fun row => (Unmarshal (LabelsJSON row)).1) <$> registrations (set_labels_json id m t) =
  <[id := m]> ((fun row => (Unmarshal (LabelsJSON row)).1) <$> registrations t).
Proof.
  intros Hp [row Hr]. cbn. apply map_eq. intros id'. rewrite lookup_fmap. destruct (decide (id = id')) as [<-|Hne].
  - rewrite lookup_alter_eq, lookup_insert_eq, Hr. cbn. by rewrite Unmarshal_mustJSON.
  - by rewrite lookup_alter_ne, lookup_insert_ne, lookup_fmap by done.
Qed.

(** The transaction against the abstract store. *)
Lemma label_transaction_store limit id change s :
  service_ok s ->
  match label_transaction json_error None None limit id change (db s) with
  | Err _ => stored_labels s !! id = None \/ exists old, stored_labels s !! id = Some old /\ limit = true /\ 64 < Z.of_nat (size (change old))
  | Ok (m, t) => exists old, stored_labels s !! id = Some old /\ json_plain old /\ m = change old /\ t = set_labels_json id m (db s) /\
      (limit = true -> Z.of_nat (size m) <= 64) /\ is_Some (registrations (db s) !! id)
  end.
Proof.
  intros [[Ht _] _]. unfold label_transaction, readLabelsJSONForUpdate, stored_labels, maxLabelsPerNode. rewrite lookup_fmap.
  destruct (registrations (db s) !! id) as [row|] eqn:Hrow; [|by left]. cbn.
  destruct (parse_row json_error row) as (m & -> & Hm & _ & Hp & _); [by apply (Ht id)|]. cbn. rewrite <- Hm.
  destruct limit; cbn; [destruct (Z.ltb_spec 64 (Z.of_nat (size (change m))))|].
  - right. eauto.
  - exists m. split_and!; eauto.
  - exists m. split_and!; eauto. done.
Qed.

(** The transaction of a registration, which may insert the row. *)
Lemma register_transaction_store id (req : RegInfo) s :
  service_ok s -> json_plain (r_Labels req) -> json_plain (Capacity req) -> json_plain (Allocatable req) ->
  let merged := r_Labels req ∪ default ∅ (stored_labels s !! id) in
  match label_transaction json_error None None true id (fun existing => r_Labels req ∪ existing) (upsert_registration id req (db s)) with
  | Err _ => 64 < Z.of_nat (size merged)
  | Ok (m, t) => m = merged /\ Z.of_nat (size merged) <= 64 /\ json_plain merged /\
      (fun row => (Unmarshal (LabelsJSON row)).1) <$> registrations t = <[id := merged]> (stored_labels s)
  end.
Proof.
  intros [Hdb _] Hl Hc Ha merged.
  assert (merged = r_Labels req ∪ from_option (fun row => (Unmarshal (LabelsJSON row)).1) ∅ (registrations (db s) !! id)) as Hm.
  { unfold merged, stored_labels. rewrite lookup_fmap. by destruct (registrations (db s) !! id). }
  destruct (label_transaction _ _ _ _ _ _ _) as [[m t]|e] eqn:Ht.
  - pose proof (label_transaction_tables _ _ _ _ _ _ _ _ _ Ht) as (_ & _ & ex & _ & _ & _ & Et).
    apply register_transaction_ok in Ht as (_ & Hp & H64 & Hmm); [|done..]. rewrite <- Hm in Hmm. rewrite Hmm in *.
    split_and!; [done|done|done|]. subst t. rewrite set_labels_stored; [|done|cbn; rewrite lookup_insert_eq; eauto].
    unfold stored_labels. cbn. rewrite fmap_insert. by rewrite insert_insert_eq.
  - unfold label_transaction, readLabelsJSONForUpdate in Ht. cbn in Ht. rewrite lookup_insert_eq in Ht. cbn in Ht.
    unfold stored_labels in merged. destruct (registrations (db s) !! id) as [row|] eqn:Hrow; cbn in *.
    + destruct (parse_row json_error row) as (ex & Hx & Hex & _); [by apply (proj1 Hdb id)|]. rewrite Hx in Ht. cbn in Ht.
      destruct (Z.ltb_spec maxLabelsPerNode (Z.of_nat (size (r_Labels req ∪ ex)))) as [Hlt|]; [|done].
      by rewrite Hm, <- Hex.
    + unfold parseLabelsJSON in Ht. cbn in Ht. rewrite bool_decide_true in Ht by done. cbn in Ht.
      destruct (Z.ltb_spec maxLabelsPerNode (Z.of_nat (size (r_Labels req ∪ (∅ : gmap string string))))) as [Hlt|]; [|done].
      by rewrite Hm.
Qed.

Lemma put_labels_le id m L : Z.of_nat (size m) <= 64 -> put_labels id m L = <[id := m]> L.
Proof. intros Hs. unfold put_labels. destruct (Z.ltb_spec 64 (Z.of_nat (size m))); [lia|done]. Qed.
Lemma put_labels_gt id m L : 64 < Z.of_nat (size m) -> put_labels id m L = L.
Proof. intros Hs. unfold put_labels. destruct (Z.ltb_spec 64 (Z.of_nat (size m))); [done|lia]. Qed.

(** A transaction that fails before or after does nothing. *)
Lemma label_transaction_failed before after limit id change t :
  before <> None \/ after <> None -> exists e, label_transaction json_error before after limit id change t = Err e.
Proof.
  intros Hf. destruct (label_transaction json_error before after limit id change t) as [[m t']|e] eqn:E; [|eauto].
  apply label_transaction_tables in E as (-> & -> & _). by destruct Hf.
Qed.

Lemma run_labels_register before after vfailed now id req vs s :
  service_ok s -> op_ok (ORegister before after vfailed now id req vs) ->
  stored_labels (RegisterNode conf interval json_error before after vfailed now id req vs s).1 =
  spec_labels (stored_labels s) (ORegister before after vfailed now id req vs).
Proof.
  intros Hok (Hl & Hc & Ha). destruct (RegisterNode _ _ _ _ _ _ _ _ _ _ _) as [s' r] eqn:E. cbn [fst].
  apply RegisterNode_effect in E. cbv zeta in E. cbn [spec_labels].
  destruct (decide (before = None /\ after = None)) as [[-> ->]|Hf].
  - case_bool_decide; [by subst s'|].
    pose proof (register_transaction_store id (with_host (or_string (HostIP req) id) req) s Hok Hl Hc Ha) as Ht. cbv zeta in Ht.
    change (r_Labels (with_host _ req)) with (r_Labels req) in Ht.
    destruct (label_transaction _ _ _ _ _ _ _) as [[m t]|e].
    + destruct Ht as (-> & H64 & Hp & Hs). rewrite put_labels_le by done. apply settled_labels in E. by rewrite E.
    + subst s'. by rewrite put_labels_gt.
  - edestruct (label_transaction_failed before after true id) as [e He]; [destruct before, after; naive_solver|].
    rewrite He in E. assert (s' = s) as -> by by destruct (id =s ""). destruct before, after; naive_solver.
Qed.

(** The part the two handlers of the administration API share. *)
Lemma admin_labels before after limit now id change s :
  service_ok s -> (forall m : gmap string string, json_plain m -> json_plain (change m)) ->
  stored_labels (match label_transaction json_error before after limit id change (db s) with
                 | Err e => (s, Err e)
                 | Ok (merged, t) => publish_labels conf interval now id merged (set_db t s)
                 end).1 =
  match before, after, stored_labels s !! id with
  | None, None, Some old => if limit then put_labels id (change old) (stored_labels s) else <[id := change old]> (stored_labels s)
  | _, _, _ => stored_labels s
  end.
Proof.
  intros Hok Hpl. destruct (decide (before = None /\ after = None)) as [[-> ->]|Hf].
  - pose proof (label_transaction_store limit id change s Hok) as Ht.
    destruct (label_transaction _ _ _ _ _ _ _) as [[m t]|e].
    + destruct Ht as (old & -> & Hp & -> & -> & Hlim & Hrow).
      destruct (publish_labels _ _ _ _ _ _) as [s' r] eqn:E. apply publish_effect in E; [|done]. apply settled_labels in E.
      cbn [fst]. rewrite E. unfold stored_labels in *.
      rewrite set_labels_stored; [destruct limit; [by rewrite put_labels_le by auto|done]|auto|done].
    + destruct Ht as [->|(old & -> & -> & H64)]; [done|]. by rewrite put_labels_gt.
  - edestruct (label_transaction_failed before after limit id) as [e He]; [destruct before, after; naive_solver|].
    rewrite He. destruct before, after; naive_solver.
Qed.

(** C14: over any history of registrations, heartbeats, label changes and (possibly stale)
    reloads, with any database errors, the stored labels are those of the abstract store:
    a Cubelet's labels are merged over the existing ones and never drop an administrator's,
    accepted changes merge or delete, no node exceeds 64 labels, and a refused or failed
    request changes no label. *)
Theorem stored_labels_refine s ops :
  service_ok s -> Forall op_ok ops ->
  stored_labels (foldl (run_meta conf interval json_error) s ops) = foldl spec_labels (stored_labels s) ops.
Proof.
  intros Hok Hops. revert s Hok. induction Hops as [|o ops Ho _ IH]; intros s Hok; [done|]. cbn [foldl].
  rewrite IH by by apply run_meta_ok. f_equal.
  destruct o as [before after vfailed now id req vs|failed rfailed vfailed now id q|before after now id labels kvs
    |before after now id key|now t vrows]; cbn [run_meta].
  - by apply run_labels_register.
  - destruct (UpdateNodeStatus _ _ _ _ _ _ _ _ _) as [s' r] eqn:E. cbn [fst spec_labels].
    apply UpdateNodeStatus_effect in E. cbv zeta in E. destruct (_ || _); [by subst s'|]. apply settled_labels in E. by rewrite E.
  - unfold UpdateNodeLabels. cbn [spec_labels]. cbn in Ho. case_bool_decide.
    { cbn. destruct before, after, (stored_labels s !! id); done. }
    destruct (validateNodeLabels kvs); cbn [is_ok negb orb]; [|destruct before, after, (stored_labels s !! id); done].
    by apply admin_labels; [|intros; apply plain_union].
  - unfold DeleteNodeLabel. cbn [spec_labels]. case_bool_decide.
    { cbn. destruct before, after, (stored_labels s !! id); done. }
    destruct (validateNodeLabelKey key); cbn [is_ok negb orb]; [|destruct before, after, (stored_labels s !! id); done].
    by apply admin_labels; [|intros; apply plain_delete].
  - done.
Qed.

End Labels.

(** ** Memory and tables agree, and a restart restores the snapshots *)

(** The rows of the version table, as a query returns them. *)
Definition version_rows (t : gmap (string * string) (ComponentVersion * Z)) : list NodeComponentVersion :=
  (fun kv => MkRow kv.1.1 kv.2.1 kv.2.2) <$> map_to_list t.

(** The components a node reports are named, each once. *)
Definition named_once (vs : list ComponentVersion) : Prop := NoDup (Component <$> vs) /\ "" ∉ Component <$> vs.

Lemma writeVersions_lookup now id vs t id' c :
  named_once vs ->
  writeVersions now id vs t !! (id', c) =
  if decide (id' = id) then (fun v => (v, time_unix now)) <$> (list_find (fun v => Component v = c) vs ≫= fun iv => Some iv.2)
  else t !! (id', c).
Proof.
  intros [Hnd Hne]. unfold writeVersions.
  rewrite (filter_all (fun v => Component v <> "") vs).
  2: { apply Forall_forall. intros v Hv E. apply Hne. rewrite <- E. by apply list_elem_of_fmap_2. }
  assert ((fun v => (id, Component v)) <$> vs = pair id <$> (Component <$> vs)) as Hk by apply list_fmap_compose.
  destruct (foldl_insert_lookup (fun v => (id, Component v)) (fun v => (v, time_unix now)) vs t) as [Hin Hout].
  { rewrite Hk. by apply (NoDup_fmap_2 (pair id)). }
  set (t' := foldl _ t vs) in *. rewrite map_lookup_filter.
  destruct (decide (id' = id)) as [->|Hid].
  - destruct (list_find (fun v => Component v = c) vs) as [[i v]|] eqn:Hf; cbn.
    + apply list_find_Some in Hf as (Hi & <- & _). assert (v ∈ vs) as Hv by by eapply list_elem_of_lookup_2.
      rewrite Hin by done. cbn. rewrite option_guard_True; [done|]. intros [_ Hn]. by apply Hn, list_elem_of_fmap_2.
    + apply list_find_None in Hf. destruct (t' !! (id, c)) as [x|] eqn:Hx; [|done]. cbn. rewrite option_guard_False; [done|].
      intros Hn. apply Hn. split; [done|]. intros (v & -> & Hv)%list_elem_of_fmap. rewrite Forall_forall in Hf. by apply (Hf v).
  - rewrite Hout by (rewrite Hk; intros (? & [= ? ?] & _)%list_elem_of_fmap; done).
    destruct (t !! (id', c)); [|done]. cbn. rewrite option_guard_True; [done|]. by intros [? _].
Qed.

Section Restart.
Context {Q : Type} (conf : SchedulerConf Q) {SS : SliceSort} `{!GoRuntime} (interval : Z).
Context `{!JSON (gmap string string), !JSON ResourceSnapshot, !JSON (list NodeCondition), !JSON (list ContainerImage),
  !JSON (list LocalTemplate)} `{!PlainLabels}.
Context (json_error : string -> string).

(** The table keeps a heartbeat to the second. *)
Definition status_agrees (row : option NodeStatus) (st : StatusInfo) : Prop :=
  match row with
  | None => st = empty_status
  | Some row =>
      Conditions st = Conditions (status_of_row row) /\ Images st = Images (status_of_row row) /\
      LocalTemplates st = LocalTemplates (status_of_row row) /\ s_ReportedReady st = t_Healthy row /\
      HeartbeatUnix row = time_unix (HeartbeatTime st)
  end.

Record node_agrees (t : tables) (id : string) (n : NodeSnapshot) : Prop := {
  na_id : NodeID n = id;
  na_known : is_Some (registrations t !! id) \/ is_Some (statuses t !! id);
  na_reg : sn_reg n = from_option reg_of_row empty_reg (registrations t !! id);
  na_status : status_agrees (statuses t !! id) (sn_status n);
  na_named : named_once (Versions n);
  na_hash : sn_hash n = versionsHash (Versions n);
  na_versions c : fst <$> versions t !! (id, c) = snd <$> list_find (fun v => Component v = c) (Versions n);
}.

Definition node_unknown (t : tables) (id : string) : Prop :=
  registrations t !! id = None /\ statuses t !! id = None /\ forall c, versions t !! (id, c) = None.

Definition agrees (s : service) : Prop :=
  forall id, match snaps s !! id with Some n => node_agrees (db s) id n | None => node_unknown (db s) id end.

Lemma settled_agrees now id n vs t s s' :
  agrees s -> named_once vs ->
  (forall id', id' <> id -> registrations t !! id' = registrations (db s) !! id' /\ statuses t !! id' = statuses (db s) !! id') ->
  node_agrees (MkTables (registrations t) (statuses t) (versions (db s))) id n ->
  settled now id n vs t s s' -> agrees s'.
Proof.
  intros Hag Hvs Ht Hn (Hr & Hst & Hv) id'. specialize (Hag id'). destruct (decide (id' = id)) as [->|Hne].
  - destruct Hv as [[-> Hv]|(_ & -> & Hv)]; rewrite lookup_insert_eq; destruct Hn as [? Hk Hreg Hs ? ? Hvn]; cbn in *.
    + constructor; rewrite ?Hr, ?Hst, ?Hv; done.
    + constructor; cbn; rewrite ?Hr, ?Hst, ?Hv; try done. intros c. rewrite writeVersions_lookup, decide_True by done.
      by destruct (list_find _ vs) as [[? ?]|].
  - destruct (Ht id' Hne) as [Hr' Hs'].
    assert (forall c, versions (db s') !! (id', c) = versions (db s) !! (id', c)) as Hv'.
    { intros c. destruct Hv as [[_ ->]|(_ & _ & ->)]; [done|]. by rewrite writeVersions_lookup, decide_False. }
    assert (snaps s' !! id' = snaps s !! id') as ->.
    { destruct Hv as [[-> _]|(_ & -> & _)]; by rewrite lookup_insert_ne. }
    destruct (snaps s !! id'); [destruct Hag as [? Hk Hreg Hs ? ? Hvn]|destruct Hag as (? & ? & ?)].
    + constructor; rewrite ?Hr, ?Hst, ?Hr', ?Hs'; try done. intros c. by rewrite Hv'.
    + split_and!; rewrite ?Hr, ?Hst, ?Hr', ?Hs'; try done. intros c. by rewrite Hv'.
Qed.

(** What is known of the snapshot a handler starts from. *)
Lemma old_snap_agrees s id : agrees s ->
  let n := old_snap id s in
  NodeID n = id /\ sn_reg n = from_option reg_of_row empty_reg (registrations (db s) !! id) /\
  status_agrees (statuses (db s) !! id) (sn_status n) /\ named_once (Versions n) /\ sn_hash n = versionsHash (Versions n) /\
  forall c, fst <$> versions (db s) !! (id, c) = snd <$> list_find (fun v => Component v = c) (Versions n).
Proof.
  intros Hag n. unfold n, old_snap. specialize (Hag id). destruct (snaps s !! id) as [m|].
  - by destruct Hag.
  - destruct Hag as (H1 & H2 & H3). rewrite H1, H2. cbn. split_and!; try done.
    + split; [apply NoDup_nil_2|apply not_elem_of_nil].
    + intros c. by rewrite H3.
Qed.

Lemma version_rows_perm (t : tables) id n vrows :
  (forall i c v u, versions t !! (i, c) = Some (v, u) -> Component v = c) ->
  named_once (Versions n) ->
  (forall c, fst <$> versions t !! (id, c) = snd <$> list_find (fun v => Component v = c) (Versions n)) ->
  vrows ≡ₚ version_rows (versions t) ->
  row <$> filter (fun r => row_NodeID r = id) vrows ≡ₚ Versions n.
Proof.
  intros Hkey [Hnd _] Hv Hp.
  assert (forall r, r ∈ version_rows (versions t) <-> versions t !! (row_NodeID r, Component r) = Some (row r, ReportedUnix r)) as Hrow.
  { intros r. unfold version_rows. rewrite list_elem_of_fmap. split.
    - intros ([[i c] [v u]] & -> & Hin%elem_of_map_to_list). cbn in *. by rewrite (Hkey _ _ _ _ Hin).
    - intros Hr. exists (row_NodeID r, Component r, (row r, ReportedUnix r)). split; [by destruct r|by apply elem_of_map_to_list]. }
  assert (NoDup (version_rows (versions t))) as Hndr.
  { apply NoDup_fmap_2_strong, NoDup_map_to_list. intros [[i c] [v u]] [[i' c'] [v' u']] H1%elem_of_map_to_list H2%elem_of_map_to_list.
    cbn. intros [= -> -> ->]. apply Hkey in H1, H2. congruence. }
  rewrite Hp. apply NoDup_Permutation.
  - apply NoDup_fmap_2_strong; [|by apply NoDup_filter]. intros r r' [<- Hr%Hrow]%list_elem_of_filter [E Hr'%Hrow]%list_elem_of_filter Hrr.
    rewrite E, <- Hrr, Hr in Hr'. destruct r, r'; cbn in *. congruence.
  - by apply (NoDup_fmap_1 Component).
  - intros v. rewrite list_elem_of_fmap. split.
    + intros (r & -> & [<- Hr%Hrow]%list_elem_of_filter). specialize (Hv (Component r)). rewrite Hr in Hv. cbn in Hv.
      destruct (list_find _ _) as [[i w]|] eqn:Hf; [|done]. cbn in Hv. injection Hv as ->.
      apply list_find_Some in Hf as (Hi & _). by eapply list_elem_of_lookup_2.
    + intros Hin. specialize (Hv (Component v)).
      destruct (list_find (fun w => Component w = Component v) (Versions n)) as [[i w]|] eqn:Hf.
      * apply list_find_Some in Hf as (Hi & Hc & _). apply list_elem_of_lookup in Hin as [j Hj].
        assert (i = j) as <-.
        { apply (NoDup_lookup (Component <$> Versions n) i j (Component v)); [done| |]; rewrite list_lookup_fmap, ?Hi, ?Hj; cbn; congruence. }
        destruct (versions t !! (id, Component v)) as [[w' u]|] eqn:Hvt; [|done]. cbn in Hv.
        exists (MkRow id v u). split; [done|]. apply list_elem_of_filter. split; [done|]. apply Hrow. cbn. congruence.
      * apply list_find_None in Hf. rewrite Forall_forall in Hf. by destruct (Hf v Hin).
Qed.

Lemma agrees_keys s : agrees s -> forall i c v u, versions (db s) !! (i, c) = Some (v, u) -> Component v = c.
Proof.
  intros Hag i c v u Hvu. specialize (Hag i). destruct (snaps s !! i) as [n|]; [|destruct Hag as (_ & _ & Hn); congruence].
  pose proof (na_versions _ _ _ Hag c) as Hc. rewrite Hvu in Hc. cbn in Hc.
  destruct (list_find _ _) as [[j w]|] eqn:Hf; [|done]. injection Hc as ->. by apply list_find_Some in Hf as (_ & ? & _).
Qed.

(** The row the transactions leave reads back as what was registered. *)
Lemma reg_of_registered id (req : RegInfo) (m : gmap string string) (t : tables) :
  json_plain m -> json_plain (Capacity req) -> json_plain (Allocatable req) ->
  from_option reg_of_row empty_reg (registrations (set_labels_json id m (upsert_registration id req t)) !! id) = with_labels m req.
Proof.
  intros Hm Hc Ha. cbn. rewrite lookup_alter_eq, lookup_insert_eq. cbn. unfold reg_of_row. cbn.
  by rewrite !Unmarshal_mustJSON by done.
Qed.

Lemma unix_time_le hb : unix_time (time_unix hb) <= hb.
Proof.
  unfold unix_time, time_unix, second. pose proof (Z.div_mod hb 1000000000). pose proof (Z.mod_pos_bound hb 1000000000). lia.
Qed.

Lemma unix_time_floor hb : unix_time (time_unix hb) = hb `div` second * second.
Proof. unfold unix_time, time_unix. lia. Qed.

(** Reported components are named once; a reload reads the tables of the moment. *)
Definition op_current (s : service) (o : meta_op) : Prop :=
  match o with
  | ORegister _ _ _ _ _ _ vs => named_once vs
  | OStatus _ _ _ _ _ q => named_once (q_Versions q)
  | OReload _ t vrows => t = db s /\ vrows ≡ₚ version_rows (versions (db s))
  | _ => True
  end.

Fixpoint current_history (s : service) (ops : list meta_op) : Prop :=
  match ops with
  | [] => True
  | o :: ops => op_ok o /\ op_current s o /\ current_history (run_meta conf interval json_error s o) ops
  end.

Lemma named_once_nil : named_once [].
Proof. split; [apply NoDup_nil_2|apply not_elem_of_nil]. Qed.

Lemma publish_agrees now id m t s s' r :
  agrees s -> service_ok s -> is_Some (registrations (db s) !! id) -> json_plain m -> t = set_labels_json id m (db s) ->
  publish_labels conf interval now id m (set_db t s) = (s', r) -> agrees s'.
Proof.
  intros Hag Hok [row Hrow] Hp -> E%publish_effect; [|done].
  destruct (old_snap_agrees s id Hag) as (Hid & Hreg & Hst & Hnm & Hh & Hvs).
  eapply settled_agrees; [done|apply named_once_nil| | |exact E].
  - intros id' Hne. cbn. by rewrite lookup_alter_ne.
  - constructor; cbn; try done.
    + left. rewrite lookup_alter_eq, Hrow. by eexists.
    + rewrite Hreg, lookup_alter_eq, Hrow. cbn. unfold with_labels, reg_of_row. cbn. by rewrite Unmarshal_mustJSON.
Qed.

Lemma reload_agrees now vrows s :
  agrees s -> vrows ≡ₚ version_rows (versions (db s)) ->
  agrees (applyReloadResult interval now (scan interval now (db s) vrows) s).
Proof.
  intros Hag Hp id. rewrite reload_lookup, scan_lookup. pose proof (Hag id) as Hid.
  destruct (scan_node interval now (db s) vrows id) as [n'|] eqn:Hn.
  - pose proof Hn as (Hid' & Hreg' & Hst' & Hv' & Hh')%scan_node_spec. destruct (snaps s !! id) as [n|] eqn:Hs.
    + destruct Hid as [Hnid Hk Hreg Hst Hnm Hh Hvs]. cbn [db applyReloadResult set_snaps].
      assert (Versions n' ≡ₚ Versions n) as Hperm.
      { rewrite Hv'. by eapply version_rows_perm; [apply agrees_keys|..]. }
      assert (named_once (Versions n')) as Hnm' by by (unfold named_once; rewrite Hperm).
      assert (time_after (HeartbeatTime (sn_status n')) (HeartbeatTime (sn_status n)) = false) as Hold.
      { unfold time_after. apply Z.ltb_ge. rewrite Hst'. destruct (statuses (db s) !! id) as [row|]; cbn in Hst |- *.
        - destruct Hst as (_ & _ & _ & _ & ->). apply unix_time_le.
        - by rewrite Hst. }
      constructor; cbn; rewrite ?Hold; try done. intros c. rewrite Hvs.
      assert (forall vs ws c, named_once vs -> vs ≡ₚ ws ->
        snd <$> list_find (fun v => Component v = c) vs = snd <$> list_find (fun v => Component v = c) ws) as Hfind.
      { clear. intros vs ws c [Hnd _] Hp. assert (NoDup (Component <$> ws)) as Hnd' by by rewrite <- Hp.
        destruct (list_find _ vs) as [[i v]|] eqn:H1; destruct (list_find _ ws) as [[j w]|] eqn:H2; cbn; [|exfalso..|done].
        - apply list_find_Some in H1 as (H1 & Hv & _). apply list_find_Some in H2 as (H2 & Hw & _). f_equal.
          assert (v ∈ ws) as [k Hk]%list_elem_of_lookup by (rewrite <- Hp; by eapply list_elem_of_lookup_2).
          assert (k = j) as ->; [|congruence].
          apply (NoDup_lookup (Component <$> ws) k j c); [done| |]; rewrite list_lookup_fmap, ?Hk, ?H2; cbn; congruence.
        - apply list_find_Some in H1 as (H1 & Hv & _). apply list_find_None in H2. rewrite Forall_forall in H2.
          apply (H2 v); [rewrite <- Hp; by eapply list_elem_of_lookup_2|done].
        - apply list_find_Some in H2 as (H2 & Hw & _). apply list_find_None in H1. rewrite Forall_forall in H1.
          apply (H1 w); [rewrite Hp; by eapply list_elem_of_lookup_2|done]. }
      by apply Hfind.
    + exfalso. destruct Hid as (H1 & H2 & H3).
      assert (is_Some (scan_node interval now (db s) vrows id)) as Hm%scan_node_Some by eauto.
      unfold mentioned in Hm. rewrite !elem_of_union, !elem_of_dom, H1, H2, elem_of_list_to_set, list_elem_of_fmap in Hm.
      destruct Hm as [[[? ?]|[? ?]]|(r & -> & Hr)]; [done..|]. rewrite Hp in Hr. apply list_elem_of_fmap in Hr as ([[i c] [v u]] & -> & Hr).
      apply elem_of_map_to_list in Hr. cbn in *. by rewrite H3 in Hr.
  - exact Hid.
Qed.

Lemma run_meta_agrees s o : service_ok s -> agrees s -> op_ok o -> op_current s o -> agrees (run_meta conf interval json_error s o).
Proof.
  intros Hok Hag Ho Hcur. pose proof (fun id => old_snap_agrees s id Hag) as Hold. cbv zeta in Hold.
  destruct o as [before after vfailed now id req vs|failed rfailed vfailed now id q|before after now id labels kvs
    |before after now id key|now t vrows]; cbn in Ho, Hcur |- *.
  - destruct (RegisterNode _ _ _ _ _ _ _ _ _ _ _) as [s' r] eqn:E. destruct Ho as (Hl & Hc & Ha).
    apply RegisterNode_effect in E as Hset. case_bool_decide; [by subst s'|]. cbv zeta in Hset.
    destruct (label_transaction _ _ _ _ _ _ _) as [[m t]|e] eqn:Ht; [|by subst s'].
    pose proof (label_transaction_tables _ _ _ _ _ _ _ _ _ Ht) as (_ & _ & ? & _ & _ & _ & Et).
    eapply (register_transaction_ok json_error _ _ _ (with_host _ req)) in Ht as (_ & Hp & _); [|apply Hok|done..].
    destruct (Hold id) as (Hid & _ & Hst & Hnm & Hh & Hvs). eapply settled_agrees; [done|exact Hcur| | |exact Hset].
    + intros id' Hne. subst t. cbn. by rewrite lookup_alter_ne, lookup_insert_ne.
    + subst t. constructor; try done.
      * left. cbn. rewrite lookup_alter_eq, lookup_insert_eq. by eexists.
      * cbn [sn_reg applyCurrentHealth with_reg]. by rewrite <- (reg_of_registered id _ m (db s)).
  - destruct (UpdateNodeStatus _ _ _ _ _ _ _ _ _) as [s' r] eqn:E. destruct Ho as (Hc & Hi & Ht).
    apply UpdateNodeStatus_effect in E as Hset. cbv zeta in Hset. destruct (_ || _); [by subst s'|].
    destruct (Hold id) as (Hid & Hreg & _ & Hnm & Hh & Hvs). eapply settled_agrees; [done|exact Hcur| | |exact Hset].
    + intros id' Hne. cbn. by rewrite lookup_insert_ne.
    + constructor; cbn; try done; rewrite lookup_insert_eq; [right; by eexists|]. cbn. by rewrite !Unmarshal_mustJSON.
  - unfold UpdateNodeLabels. case_bool_decide; [done|]. destruct (validateNodeLabels kvs); [|done].
    pose proof (label_transaction_store json_error true id (fun existing => labels ∪ existing) s Hok) as Hst.
    destruct (label_transaction json_error before after _ _ _ _) as [[m t]|e] eqn:Ht; [|done].
    pose proof (label_transaction_tables _ _ _ _ _ _ _ _ _ Ht) as (-> & -> & _). rewrite Ht in Hst.
    destruct Hst as (old & _ & Hp & -> & Et & _ & Hrow). destruct (publish_labels _ _ _ _ _ _) as [s' r] eqn:E. cbn.
    by eapply publish_agrees; [..|exact Et|exact E]; auto using plain_union.
  - unfold DeleteNodeLabel. case_bool_decide; [done|]. destruct (validateNodeLabelKey key); [|done].
    pose proof (label_transaction_store json_error false id (delete key) s Hok) as Hst.
    destruct (label_transaction json_error before after _ _ _ _) as [[m t]|e] eqn:Ht; [|done].
    pose proof (label_transaction_tables _ _ _ _ _ _ _ _ _ Ht) as (-> & -> & _). rewrite Ht in Hst.
    destruct Hst as (old & _ & Hp & -> & Et & _ & Hrow). destruct (publish_labels _ _ _ _ _ _) as [s' r] eqn:E. cbn.
    by eapply publish_agrees; [..|exact Et|exact E]; auto using plain_delete.
  - destruct Hcur as [-> Hp]. by apply reload_agrees.
Qed.

(** What a restart keeps of a snapshot: everything but the fraction of a second of its
    heartbeat and the order of its versions. *)
Definition restored (n n' : NodeSnapshot) : Prop :=
  NodeID n' = NodeID n /\ sn_reg n' = sn_reg n /\ Conditions (sn_status n') = Conditions (sn_status n) /\
  Images (sn_status n') = Images (sn_status n) /\ LocalTemplates (sn_status n') = LocalTemplates (sn_status n) /\
  s_ReportedReady (sn_status n') = s_ReportedReady (sn_status n) /\
  HeartbeatTime (sn_status n') = HeartbeatTime (sn_status n) `div` second * second /\
  Versions n' ≡ₚ Versions n /\ sn_hash n' = sn_hash n.

(** A history is current when each of its operations is, in the state it meets. *)
Lemma current_splits ops : forall s,
  (forall before o after, ops = (before ++ o :: after)%list ->
     op_ok o /\ op_current (foldl (run_meta conf interval json_error) s before) o) <-> current_history s ops.
Proof.
  induction ops as [|o ops IH]; intros s; cbn [current_history]; [split; [done|]; by intros _ [|? ?] ? ?|].
  rewrite <- IH. split.
  - intros Hall. destruct (Hall [] o ops eq_refl) as [H1 H2]. split_and!; [done|done|]. intros before o' after ->. by apply (Hall (o :: before) o' after).
  - intros (H1 & H2 & H3) [|o1 before] o' after E; injection E as -> ->; [done|]. by eapply H3.
Qed.

(** C38: a restart restores what the memory held.  Take any history of registrations,
    heartbeats, label changes and reloads, with any database errors, in which reported
    components are named once each and not by the empty name, the texts of requests are
    such that their JSON reads back as it was written, and each reload applies what it
    read before any other operation changes the tables (a reload that applies older rows
    overwrites newer registrations and labels in memory until the next one:
    stale_reload_overwrites).  It begins in a state in which memory and tables agree, such
    as the empty one.  Then a service that starts with empty memory and reloads
    the tables knows the same nodes with the same registration, labels, conditions,
    images, templates, readiness and component versions; heartbeats are kept to the
    second. *)
Theorem restart_restores_nodes s ops now vrows :
  service_ok s -> agrees s ->
  (forall before o after, ops = (before ++ o :: after)%list -> op_ok o /\
     match o with
     | ORegister _ _ _ _ _ _ vs => named_once vs
     | OStatus _ _ _ _ _ q => named_once (q_Versions q)
     | OReload _ t rows =>
         let sr := foldl (run_meta conf interval json_error) s before in t = db sr /\ rows ≡ₚ version_rows (versions (db sr))
     | OLabels _ _ _ _ _ _ | ODelete _ _ _ _ _ => True
     end) ->
  let s1 := foldl (run_meta conf interval json_error) s ops in
  vrows ≡ₚ version_rows (versions (db s1)) ->
  let s2 := applyReloadResult interval now (scan interval now (db s1) vrows) (set_snaps ∅ s1) in
  forall id, match snaps s1 !! id, snaps s2 !! id with
             | Some n, Some n' => restored n n'
             | None, None => True
             | _, _ => False
             end.
Proof.
  intros Hok Hag Hcur s1. assert (Hh : current_history s ops).
  { apply current_splits. intros before o after E. destruct (Hcur before o after E) as [H1 H2]. split; [exact H1|]. by destruct o. }
  clear Hcur. assert (agrees s1) as Hag1.
  { unfold s1. clear s1. revert s Hok Hag Hh. induction ops as [|o ops IH]; intros s Hok Hag Hh; [done|].
    destruct Hh as (Ho & Hc & Hh). cbn. apply IH; [by apply run_meta_ok|by apply run_meta_agrees|done]. }
  intros Hp s2 id. unfold s2. rewrite reload_lookup, scan_lookup. cbn [snaps set_snaps]. rewrite lookup_empty.
  pose proof (Hag1 id) as Hid. destruct (snaps s1 !! id) as [n|] eqn:Hn.
  - destruct Hid as [Hnid Hk Hreg Hst Hnm Hhs Hvs].
    assert (is_Some (scan_node interval now (db s1) vrows id)) as [n' Hn'].
    { apply scan_node_Some. unfold mentioned. rewrite !elem_of_union, !elem_of_dom. tauto. }
    rewrite Hn'. pose proof Hn' as (H1 & H2 & H3 & H4 & H5)%scan_node_spec.
    assert (Versions n' ≡ₚ Versions n) as Hperm by (rewrite H4; by eapply version_rows_perm; [apply agrees_keys|..]).
    assert (sn_hash n' = sn_hash n) as Hhash.
    { rewrite H5, Hhs. apply versionsHash_perm; [|done]. rewrite Hperm. apply Hnm. }
    unfold restored. rewrite H1, H2, H3, Hnid, Hreg. destruct (statuses (db s1) !! id) as [row|]; cbn in Hst |- *.
    + destruct Hst as (-> & -> & -> & -> & ->). rewrite unix_time_floor. by split_and!.
    + rewrite Hst. by split_and!.
  - destruct (scan_node interval now (db s1) vrows id) as [n'|] eqn:Hn'; [|done].
    pose proof (reload_agrees now vrows s1 Hag1 Hp id) as Hr. rewrite reload_lookup, scan_lookup, Hn', Hn in Hr.
    destruct Hid as (H1 & H2 & _). destruct Hr as [_ [[? ?]|[? ?]] _ _ _ _ _]; cbn in *; congruence.
Qed.

End Restart.

(** ** What the scheduler sees of a heartbeat *)

Section Scheduler.
Context {Q : Type} (conf : SchedulerConf Q) {SS : SliceSort} `{!GoRuntime} (interval : Z).
Context `{!JSON (gmap string string), !JSON ResourceSnapshot, !JSON (list NodeCondition), !JSON (list ContainerImage),
  !JSON (list LocalTemplate)}.

Lemma metric_cached now m l id x : cached_meta l id x -> cached_meta (UpdateNodeMetricInProcess now m l) id x.
Proof.
  intros (p & n & Hc & Hp & Hm). unfold UpdateNodeMetricInProcess. destruct (_ || _); [by exists p, n|].
  destruct (cache l !! nm_NodeID m) as [q|]; [|by exists p, n]. destruct (decide (q = p)) as [->|Hne].
  - exists p, (with_metrics (merge_metrics m (metrics n)) now n). cbn. by rewrite lookup_alter_eq, Hp.
  - exists p, n. cbn. by rewrite lookup_alter_ne.
Qed.

Lemma fanOut_frame rfailed now id q s x m :
  tmpls (fanOutResourceMetric rfailed now id q s) = tmpls s /\ snaps (fanOutResourceMetric rfailed now id q s) = snaps s /\
  (cached_meta (sched s) x m -> cached_meta (sched (fanOutResourceMetric rfailed now id q s)) x m).
Proof. unfold fanOutResourceMetric. destruct (_ && _); [done|]. cbn. split_and!; [done|done|apply metric_cached]. Qed.

Lemma cached_health l id m t : cached_meta l id m ->
  exists n, MasterNodes.GetNode interval t id l = Some n /\
    Healthy n = bool_decide (EvaluateFromFacts (ReportedReady m) (MetaDataUpdateAt m) t (MetadataTimeout interval) = None).
Proof.
  intros (p & n & Hc & Hp & <-). exists (cloneNodeWithCurrentHealth interval t n). unfold MasterNodes.GetNode. by rewrite Hc; cbn; rewrite Hp.
Qed.

(** C28: in the state that an accepted heartbeat leaves, and for as long as nothing but
    the clock changes it, the scheduler's cache and the registry of nodes give the same
    verdict at every moment: the node is healthy exactly when its Ready condition is true
    and the heartbeat is no older than the timeout; and the scheduler's view of templates
    holds exactly the templates the heartbeat listed for the node.  The state before is one
    in which snapshots are filed under their own identifiers and the table of templates is
    consistent, as all operations keep them.  (A later reload changes the registry and not
    the scheduler's cache.) *)
Theorem heartbeat_reaches_scheduler rfailed vfailed now id q s s' snap :
  map_Forall snap_ok (snaps s) -> templates_wf (tmpls s) ->
  UpdateNodeStatus conf interval None rfailed vfailed now id q s = (s', Ok snap) ->
  let heartbeat := if time_is_zero (q_HeartbeatTime q) then now else q_HeartbeatTime q in
  (forall t, exists n n',
     GetNode interval t id s' = Some n /\ MasterNodes.GetNode interval t id (sched s') = Some n' /\
     Healthy n' = sn_Healthy n /\
     (sn_Healthy n = true <->
      ReadyConditionTrue (q_Conditions q) = true /\ heartbeat <> 0 /\ time_sub t heartbeat <= MetadataTimeout interval)) /\
  (forall tid, holds (tmpls s') tid id <-> tid <> "" /\ exists x, x ∈ q_LocalTemplates q /\ tid = TrimSpace (lt_TemplateID x)).
Proof.
  intros Hok Hwf E heartbeat. unfold UpdateNodeStatus in E. fold heartbeat in E. case_bool_decide as Hid; [done|].
  destruct (ensureNode id _) as [n0 s1] eqn:He. apply ensureNode_spec in He as (Hdb & Hsc & Htm & _ & Hsnap & Hsn).
  set (st := MkStatus _ _ _ _ _) in E. set (n := applyCurrentHealth _ _ _) in E.
  assert (NodeID n = id) as Hn.
  { cbn. subst n0. cbn. destruct (snaps s !! id) as [m|] eqn:Hm; [|done]. cbn. by destruct (Hok id m Hm). }
  unfold syncLocalcache in E. pose proof (UpsertNode_cached conf (toSchedulerNode n) (sched (put_snap n id s1))) as Hc.
  destruct (UpsertNode conf (toSchedulerNode n) _) as [[] l] eqn:HU; [done|]. cbn in Hc. rewrite Hn in E.
  set (s2 := set_caches l _ _) in E.
  destruct (fanOut_frame rfailed now id q s2 (ID (toSchedulerNode n)) (meta (toSchedulerNode n))) as (Ht & Hs & Hcm).
  destruct (persist_frame vfailed now id (q_Versions q) (fanOutResourceMetric rfailed now id q s2) n) as (_ & _ & Hsch & Htp & _ & Hsnaps).
  { rewrite Hs. cbn. by rewrite lookup_insert_eq. }
  assert (s' = persistVersions vfailed now id (q_Versions q) (fanOutResourceMetric rfailed now id q s2)) as -> by congruence.
  assert (ID (toSchedulerNode n) = id) as HID.
  { unfold ID. cbn [InsID toSchedulerNode]. rewrite Hn. by rewrite bool_decide_false. }
  split.
  - intros t. rewrite Hsch. destruct (cached_health _ _ _ t (Hcm Hc)) as (n' & Hg & Hh). rewrite HID in Hg.
    assert (exists m, snaps (persistVersions vfailed now id (q_Versions q) (fanOutResourceMetric rfailed now id q s2)) !! id = Some m /\
              sn_status m = st) as (m & Hm & Hms).
    { destruct Hsnaps as [[-> _]|(_ & -> & _)]; [exists n|exists (with_versions (q_Versions q) (versionsHash (q_Versions q)) n)].
      - rewrite Hs. cbn. by rewrite lookup_insert_eq.
      - by rewrite lookup_insert_eq. }
    exists (applyCurrentHealth interval t m), n'. unfold GetNode. rewrite Hm. split_and!; [done|done| |].
    + rewrite Hh. cbn. unfold currentHealthStatus. by rewrite Hms.
    + cbn. unfold currentHealthStatus. rewrite Hms. unfold st. cbn. rewrite bool_decide_eq_true.
      unfold EvaluateFromFacts, time_is_zero. destruct (Z.eqb_spec heartbeat 0); cbn; [naive_solver|].
      destruct (Z.ltb_spec (MetadataTimeout interval) (time_sub t heartbeat)); [split; [done|lia]|].
      destruct (ReadyConditionTrue _); cbn; naive_solver.
  - intros tid. rewrite Htp, Ht. cbn. rewrite sync_holds; [|by rewrite Htm|done].
    unfold normalizeTemplateIDSet, templateIDsFromLocalTemplates.
    rewrite elem_of_list_to_set, list_elem_of_filter, list_elem_of_fmap. setoid_rewrite list_elem_of_filter.
    setoid_rewrite list_elem_of_fmap. split.
    + intros [(_ & Hne & (y & -> & _ & (x & -> & Hx)))|[? _]]; [eauto|done].
    + intros [Hne (x & Hx & ->)]. left. split_and!; [done|done|]. exists (lt_TemplateID x). split_and!; eauto.
      intros Hb. apply Hne. by rewrite Hb.
Qed.

(** ** Usage through Redis and in the process *)

(** Reads one field of the hash after an HSET. *)
Ltac hash_fields := cbn; repeat first [rewrite lookup_insert_eq | rewrite lookup_insert_ne by done].

(** The fields after the HSET: those of the groups that were reported, and the others as before. *)
Lemma metric_fields_lookup (m : NodeMetric) (before : gmap string rvalue) :
  let h := foldl (fun h kv => <[kv.1 := kv.2]> h) before (metric_fields m) in
  let allocated k f := h !! k = match nm_Allocated m with Some a => Some (RInt (f a)) | None => before !! k end in
  let disk k f := h !! k = match nm_Disk m with Some d => Some (RFloat (f d)) | None => before !! k end in
  h !! "ins_id" = Some (RText (nm_NodeID m)) /\ h !! "update_at" = Some (RTime (MetricTime m)) /\
  allocated "quota_cpu_usage" a_MilliCPU /\ allocated "quota_mem_mb_usage" a_MemoryMB /\ allocated "mvm_num" a_MvmNum /\
  allocated "nic_queues" a_NicQueues /\
  disk "data_disk_usage_per" d_Data /\ disk "storage_disk_usage_per" d_Storage /\ disk "sys_disk_usage_per" d_Sys.
Proof.
  unfold metric_fields. cbv zeta. destruct (nm_Allocated m) as [a|], (nm_Disk m) as [d|]; split_and!; hash_fields; reflexivity.
Qed.

(** The usage a heartbeat reports reaches a replica that only reads Redis as it was
    reported: for every group of values the heartbeat carries, its node has those values and
    the reported time, and so has the replica that received the heartbeat itself; groups it
    does not carry keep the values Redis held before. *)
Theorem metric_reaches_replicas now now' m r (p : nat) (n : Node) (l : local) (remote : local) (p' : nat) (n' : Node) :
  nm_NodeID m <> "" -> no_groups m = false ->
  cache l !! nm_NodeID m = Some p -> heap l !! p = Some n ->
  cache remote !! nm_NodeID m = Some p' -> heap remote !! p' = Some n' ->
  let r' := WriteNodeMetric false m r in
  let before := default ∅ (r !! nm_NodeID m) in
  exists here there,
    heap (UpdateNodeMetricInProcess now m l) !! p = Some here /\
    heap (update_metric_of now' (nm_NodeID m) r' remote) !! p' = Some there /\
    meta here = meta n /\ meta there = meta n' /\
    MetricUpdate (metrics here) = MetricTime m /\ MetricUpdate (metrics there) = MetricTime m /\
    (forall a, nm_Allocated m = Some a -> forall x, x = metrics here \/ x = metrics there ->
       QuotaCpuUsage x = a_MilliCPU a /\ QuotaMemUsage x = a_MemoryMB a /\ MvmNum x = a_MvmNum a /\ NicQueues x = a_NicQueues a) /\
    (forall d, nm_Disk m = Some d -> forall x, x = metrics here \/ x = metrics there ->
       DataDiskUsagePer x = d_Data d /\ StorageDiskUsagePer x = d_Storage d /\ SysDiskUsagePer x = d_Sys d) /\
    (nm_Allocated m = None -> QuotaCpuUsage (metrics here) = QuotaCpuUsage (metrics n) /\
       QuotaCpuUsage (metrics there) = scan_int (before !! "quota_cpu_usage")) /\
    (nm_Disk m = None -> DataDiskUsagePer (metrics here) = DataDiskUsagePer (metrics n) /\
       DataDiskUsagePer (metrics there) = scan_float (before !! "data_disk_usage_per")).
Proof.
  intros Hid Hg Hc Hp Hc' Hp' r' before.
  assert (r' !! nm_NodeID m = Some (foldl (fun h kv => <[kv.1 := kv.2]> h) before (metric_fields m))) as Hr.
  { unfold r', WriteNodeMetric. rewrite bool_decide_false, Hg by done. cbn. by rewrite lookup_insert_eq. }
  destruct (metric_fields_lookup m before) as (F1 & F2 & F3 & F4 & F5 & F6 & F7 & F8 & F9). set (h := foldl _ before _) in *.
  exists (with_metrics (merge_metrics m (metrics n)) now n).
  unfold UpdateNodeMetricInProcess. rewrite bool_decide_false, Hg, Hc by done. cbn [orb].
  unfold update_metric_of, getNodeMetricFromRedis. rewrite Hr, bool_decide_false.
  2: { intros Hh. by rewrite Hh in F2. }
  unfold updateNodeMetric. set (fetched := MkNode _ _ _ _ _ _ _ _).
  assert (ID fetched = nm_NodeID m) as HID.
  { unfold ID, fetched. cbn [InsID]. rewrite F1. cbn. by rewrite bool_decide_false. }
  rewrite HID, Hc'. cbn [mbind option_bind default from_option id]. exists (with_metrics (metrics fetched) now' n'). unfold set_heap. cbn [heap].
  rewrite !lookup_alter_eq, Hp, Hp'. unfold fetched. cbn [metrics with_metrics fmap option_fmap option_map MetricUpdate QuotaCpuUsage QuotaMemUsage MvmNum NicQueues DataDiskUsagePer StorageDiskUsagePer SysDiskUsagePer]. rewrite F2, F3, F4, F5, F6, F7, F8, F9. unfold merge_metrics.
  destruct (nm_Allocated m) as [a|], (nm_Disk m) as [d|]; cbn;
    split_and!; try (intros ? [= <-] x [-> | ->]; split_and!); try intros [=]; try intros _; try split; reflexivity.
Qed.

End Scheduler.

(** ** The invariant, and labels that are not validated *)

(** Over any history of registrations, heartbeats, label changes and reloads of tables
    that may be stale, with any database errors, every snapshot carries its own id, at most
    64 labels, the readiness its own conditions report and the hash of its own versions, and
    the rows of the database decode to such values. *)
Theorem nodemeta_invariant {Q} (conf : SchedulerConf Q) {SS : SliceSort} `{!GoRuntime} interval
  `{!JSON (gmap string string), !JSON ResourceSnapshot, !JSON (list NodeCondition), !JSON (list ContainerImage),
    !JSON (list LocalTemplate)} `{!PlainLabels} json_error s ops :
  service_ok s -> Forall op_ok ops -> service_ok (foldl (run_meta conf interval json_error) s ops).
Proof. intros Hs Hops. eapply (foldl_inv _ service_ok op_ok); [|done|done]. intros. by apply run_meta_ok. Qed.

(** The labels a Cubelet sends are stored without validation: a key in a reserved name space,
    which the administration API refuses, enters with a registration. *)
Theorem registration_labels_not_validated {Q} (conf : SchedulerConf Q) {SS : SliceSort} `{!GoRuntime} interval
  `{!JSON (gmap string string), !JSON ResourceSnapshot, !JSON (list NodeCondition), !JSON (list ContainerImage),
    !JSON (list LocalTemplate)} `{!PlainLabels} json_error now id req key value s :
  service_ok s -> op_ok (ORegister None None false now id req []) -> id <> "" ->
  r_Labels req = {[key := value]} -> IsReservedLabelKey key = true -> stored_labels s !! id = None ->
  stored_labels (RegisterNode conf interval json_error None None false now id req [] s).1 !! id = Some {[key := value]} /\
  exists e, (UpdateNodeLabels conf interval json_error None None now id {[key := value]} [(key, value)] s).2 = Err e.
Proof.
  intros Hok Ho Hid Hl Hres Hnew. split.
  - rewrite (run_labels_register conf interval json_error None None false now id req [] s Hok Ho).
    cbn [spec_labels]. rewrite bool_decide_false, Hnew, Hl by done. cbn [default from_option].
    rewrite map_union_empty, put_labels_le, lookup_insert_eq; [done|]. rewrite map_size_singleton. done.
  - unfold UpdateNodeLabels. rewrite bool_decide_false by done. unfold validateNodeLabels. cbn.
    assert (isQualifiedLabelKey key = ["is reserved for system use"]) as Hq.
    { unfold isQualifiedLabelKey. rewrite bool_decide_false; [by rewrite Hres|]. by intros ->. }
    unfold validateNodeLabelKey. rewrite Hq. eauto.
Qed.

(** ** Witnesses *)

(** A text for every value of a countable type. *)
Fixpoint pos_text (p : positive) : string :=
  match p with xH => "1" | xO p => String "0" (pos_text p) | xI p => String "2" (pos_text p) end.
Fixpoint text_pos (s : string) : option positive :=
  match s with
  | EmptyString => None
  | String a s =>
      if bool_decide (a = "1"%char) then Some xH
      else if bool_decide (a = "0"%char) then xO <$> text_pos s
      else xI <$> text_pos s
  end.

Lemma text_pos_text p : text_pos (pos_text p) = Some p.
Proof. induction p as [p IH|p IH|]; cbn; rewrite ?IH; done. Qed.

Lemma pos_text_visible p : TrimSpace (pos_text p) <> "".
Proof. rewrite TrimSpace_plain; [by destruct p|]. by induction p. Qed.

Definition read_text `{Countable A} (s : string) : option A :=
  match text_pos s with Some p => decode p | None => None end.

Program Definition demo_json (A : Type) `{Countable A} (a0 : A) : JSON A :=
  {| mustJSON a := pos_text (encode a);
     Unmarshal s := match read_text s with Some a => (a, true) | None => (a0, false) end;
     json_plain a := True |}.
Next Obligation. intros A ?? a0 a _. unfold read_text. by rewrite text_pos_text, decode_encode. Qed.
Next Obligation. intros. apply pos_text_visible. Qed.

#[local] Instance ResourceSnapshot_eq : EqDecision ResourceSnapshot. Proof. solve_decision. Defined.
#[local] Instance ContainerImage_eq : EqDecision ContainerImage. Proof. solve_decision. Defined.
#[local] Instance LocalTemplate_eq : EqDecision LocalTemplate. Proof. solve_decision. Defined.
#[local] Instance NodeCondition_eq : EqDecision NodeCondition. Proof. solve_decision. Defined.
#[local] Instance ResourceSnapshot_countable : Countable ResourceSnapshot.
Proof. by apply (inj_countable' (fun r => (MilliCPU r, MemoryMB r)) (fun '(a, b) => MkResource a b)); intros []. Defined.
#[local] Instance ContainerImage_countable : Countable ContainerImage.
Proof.
  by apply (inj_countable' (fun r => (ci_Names r, ci_SizeBytes r, ci_Namespace r, ci_MediaType r))
              (fun '(a, b, c, d) => MkCImage a b c d)); intros [].
Defined.
#[local] Instance LocalTemplate_countable : Countable LocalTemplate.
Proof.
  by apply (inj_countable' (fun r => (lt_TemplateID r, lt_ID r, lt_Media r, lt_Path r, lt_Namespace r))
              (fun '(a, b, c, d, e) => MkLT a b c d e)); intros [].
Defined.
#[local] Instance NodeCondition_countable : Countable NodeCondition.
Proof.
  by apply (inj_countable' (fun r => (c_Type r, c_Status r, c_LastHeartbeatTime r, c_LastTransitionTime r, c_Reason r, c_Message r))
              (fun '(a, b, c, d, e, f) => MkCond a b c d e f)); intros [].
Defined.

Definition json_labels : JSON (gmap string string) := demo_json _ ∅.
Definition json_resource : JSON ResourceSnapshot := demo_json _ (MkResource 0 0).
Definition json_conditions : JSON (list NodeCondition) := demo_json _ [].
Definition json_images : JSON (list ContainerImage) := demo_json _ [].
Definition json_templates : JSON (list LocalTemplate) := demo_json _ [].
#[local] Existing Instances json_labels json_resource json_conditions json_images json_templates demo_sort demo_runtime.

#[local] Instance demo_plain : PlainLabels.
Proof. by constructor. Qed.

Definition empty_service : service :=
  MkService (MkTables ∅ ∅ ∅) ∅ (Init demo_conf 1) (MkTemplates ∅ ∅) ∅ [].

Definition demo_reg : RegInfo := MkReg "" 8080 {["rack" := "a1"]} (MkResource 8000 16000) (MkResource 7000 15000) "" "" 0 0 4 30.
Definition demo_status : UpdateNodeStatusRequest :=
  MkStatusReq [MkCond "Ready" "True" 0 0 "" ""] [] [MkLT "tpl-1" "" "" "" ""] 63900000000000000000 None None time_zero
    [MkCV "cube-agent" "1.2" "" "" "binary"].
Definition demo_ops : list meta_op :=
  [ORegister None None false 63900000000000000000 "n1" demo_reg [MkCV "kernel" "6.1" "" "" "file"];
   OLabels None None 63900000000000000001 "n1" {["example.com/team" := "red"]} [("example.com/team", "red")];
   OStatus None false false 63900000000000000002 "n1" demo_status;
   ODelete None None 63900000000000000003 "n1" "rack";
   OLabels None (Some "deadlock") 63900000000000000004 "n1" {["rack" := "b"]} [("rack", "b")]].

Lemma empty_service_ok : service_ok empty_service.
Proof. split; [split|]; apply map_Forall_empty. Qed.
Lemma demo_ops_ok : Forall op_ok demo_ops.
Proof. repeat constructor. Qed.

Lemma stored_labels_refine_witness :
  stored_labels (foldl (run_meta demo_conf 5 (fun e => e)) empty_service demo_ops) !! "n1" = Some {["example.com/team" := "red"]}.
Proof.
  etransitivity;
    [exact (f_equal (lookup "n1") (stored_labels_refine demo_conf 5 (fun e => e) empty_service demo_ops empty_service_ok demo_ops_ok))|].
  vm_compute. reflexivity.
Defined.

Lemma nodemeta_invariant_witness : service_ok (foldl (run_meta demo_conf 5 (fun e => e)) empty_service demo_ops).
Proof. apply (nodemeta_invariant demo_conf 5 (fun e => e)); [apply empty_service_ok|apply demo_ops_ok]. Defined.

Lemma demo_current : current_history demo_conf 5 (fun e => e) empty_service demo_ops.
Proof.
  cbn [current_history demo_ops op_ok op_current].
  repeat match goal with |- _ /\ _ => split end; try done; try apply I;
    first [apply (bool_decide_unpack _); vm_compute; exact I | by apply NoDup_singleton | idtac].
  all: try (cbn; by intros [?|?%not_elem_of_nil]%elem_of_cons).
Qed.

Lemma demo_history_current before o after : demo_ops = (before ++ o :: after)%list -> op_ok o /\
  match o with
  | ORegister _ _ _ _ _ _ vs => named_once vs
  | OStatus _ _ _ _ _ q => named_once (q_Versions q)
  | OReload _ t rows =>
      let sr := foldl (run_meta demo_conf 5 (fun e => e)) empty_service before in t = db sr /\ rows ≡ₚ version_rows (versions (db sr))
  | OLabels _ _ _ _ _ _ | ODelete _ _ _ _ _ => True
  end.
Proof. intros E. destruct (proj2 (current_splits _ _ _ demo_ops _) demo_current before o after E) as [H1 H2]. split; [exact H1|]. by destruct o. Qed.

(** A reload that read the tables before a label was stored, and applies them after:
    the memory loses the label that the table holds; the next reload brings it back. *)
Definition labels_in_memory (s : service) : option (gmap string string) := (fun n => r_Labels (sn_reg n)) <$> snaps s !! "n1".

Example stale_reload_overwrites :
  let run := foldl (run_meta demo_conf 5 (fun e => e)) in
  let old := run empty_service (take 1 demo_ops) in
  let rows s := version_rows (versions (db s)) in
  let s := run empty_service (take 2 demo_ops) in
  let stale := run s [OReload 63900000000000000005 (db old) (rows old)] in
  let fresh := run stale [OReload 63900000000000000006 (db stale) (rows stale)] in
  (labels_in_memory s ≫= lookup "example.com/team") = Some "red" /\
  is_Some (labels_in_memory stale) /\ (labels_in_memory stale ≫= lookup "example.com/team") = None /\
  (labels_in_memory fresh ≫= lookup "example.com/team") = Some "red".
Proof. split_and!; [by vm_compute|apply (bool_decide_unpack _); by vm_compute|by vm_compute|by vm_compute]. Qed.

Lemma empty_service_agrees : agrees empty_service.
Proof. intros id. cbn. rewrite lookup_empty. split_and!; intros; apply lookup_empty. Qed.

Definition demo_s1 : service := foldl (run_meta demo_conf 5 (fun e => e)) empty_service demo_ops.
Definition demo_s2 : service :=
  applyReloadResult 5 9 (scan 5 9 (db demo_s1) (version_rows (versions (db demo_s1)))) (set_snaps ∅ demo_s1).

Lemma demo_n1_known : is_Some (snaps demo_s1 !! "n1").
Proof. apply (bool_decide_unpack _). vm_compute. exact I. Qed.

Lemma restart_restores_nodes_witness : is_Some (snaps demo_s2 !! "n1").
Proof.
  pose proof (restart_restores_nodes demo_conf 5 (fun e => e) empty_service demo_ops 9 (version_rows (versions (db demo_s1)))
    empty_service_ok empty_service_agrees demo_history_current (Permutation_refl _) "n1") as H.
  change (match snaps demo_s1 !! "n1", snaps demo_s2 !! "n1" with
          | Some n, Some n' => restored n n' | None, None => True | _, _ => False end) in H.
  destruct demo_n1_known as [n Hn]. rewrite Hn in H.
  destruct (snaps demo_s2 !! "n1") as [n'|]; [exact (ex_intro _ n' eq_refl)|destruct H].
Defined.

Lemma demo_templates_empty : templates_wf (MkTemplates ∅ ∅).
Proof.
  assert (forall id node, ~ holds (MkTemplates ∅ ∅) id node) as Hn.
  { intros id node (x & Hx & _). cbn in Hx. by rewrite lookup_empty in Hx. }
  constructor; [|by intros ? ? ?%Hn|apply map_Forall_empty]. intros node _ id. cbn. rewrite lookup_empty. cbn.
  split; [by intros ?%not_elem_of_empty|by intros ?%Hn].
Qed.

Lemma heartbeat_reaches_scheduler_witness :
  exists s' snap, UpdateNodeStatus demo_conf 5 None false false 63900000000000000002 "n1" demo_status empty_service = (s', Ok snap) /\
    holds (tmpls s') "tpl-1" "n1".
Proof.
  destruct (UpdateNodeStatus demo_conf 5 None false false 63900000000000000002 "n1" demo_status empty_service) as [s' r] eqn:E.
  assert (is_ok r = true) as Hr by (replace r with (s', r).2 by done; rewrite <- E; vm_compute; reflexivity).
  destruct r as [snap|e]; [|done]. exists s', snap. split; [done|].
  destruct (heartbeat_reaches_scheduler demo_conf 5 false false 63900000000000000002 "n1" demo_status empty_service s' snap
    (map_Forall_empty _) demo_templates_empty E) as [_ H].
  apply H. split; [done|]. exists (MkLT "tpl-1" "" "" "" ""). split; [left|by vm_compute].
Defined.

Definition demo_metric : NodeMetric := MkMetric "h1" 7 (Some (MkAllocated 500 1024 3 2)) None.

Lemma metric_reaches_replicas_witness :
  exists there, heap (update_metric_of 9 "h1" (WriteNodeMetric false demo_metric ∅) demo_loaded) !! 1%nat = Some there /\
    QuotaCpuUsage (metrics there) = 500 /\ MetricUpdate (metrics there) = 7.
Proof.
  destruct (metric_reaches_replicas 8 9 demo_metric ∅ 1 (demo_node 1 "h1" "l1" true) demo_loaded demo_loaded 1 (demo_node 1 "h1" "l1" true))
    as (here & there & _ & Ht & _ & _ & _ & Hu & Ha & _); [discriminate|reflexivity|vm_compute; reflexivity..|].
  exists there. split; [exact Ht|].
  destruct (Ha (MkAllocated 500 1024 3 2) eq_refl (metrics there) (or_intror eq_refl)) as [Hc _]. exact (conj Hc Hu).
Defined.
