(* ===== verification/MasterSched.v ===== *)
(** * Placement of sandboxes
    (CubeMaster/pkg/scheduler/schedule.go, selctx, affinity, init.go;
    CubeMaster/pkg/selector: prefilter, backofffilter, filter, score, postscore)

    [Select] chooses a node for a request: a pre-filter over the healthy nodes of
    the product (or the backoff filter when it leaves none), the configured
    filters, whose results are intersected by counting, scores, and a draw among
    the best.  Nodes are the clones the node cache hands out, so they are values.
    [Fatalf] of the logging library writes an entry and returns.  The draw
    accumulates its items in the request's context, as the code does.  Random
    numbers, the weighted draws of an external package, the preference terms of
    Kubernetes and the iteration order of maps are parameters or one of the
    possible choices. *)
From S2P Require Import Prelude GoStrings GoValue MasterConfig MasterNodes MasterTemplates.
From Stdlib Require Import Floats.SpecFloat.

Open Scope string_scope.
Open Scope Z_scope.

(** ** Node affinity *)

Definition NodeSelectorOpIn : string := "In".
Definition NodeSelectorOpNotIn : string := "NotIn".
Definition NodeSelectorOpExists : string := "Exists".
Definition NodeSelectorOpDoesNotExist : string := "DoesNotExist".
Definition NodeSelectorOpGt : string := "Gt".
Definition NodeSelectorOpLt : string := "Lt".

Record NodeSelectorRequirement : Type := MkReq { Key : string; Operator : string; Values : gset string }.

Section Affinity.
Context {Q : Type} `{!QuantityOps Q}.

(** [Cmp] of the two quantities, when both texts are quantities. *)
Definition cmp_quantities (a b : string) : option comparison :=
  x ← ParseQuantity a; y ← ParseQuantity b; Some (q_Cmp x y).

Definition Match_requirement (r : NodeSelectorRequirement) (ls : gmap string string) : bool :=
  let has := bool_decide (is_Some (ls !! Key r)) in
  let got := default "" (ls !! Key r) in
  if Operator r =s NodeSelectorOpIn then has && bool_decide (got ∈ Values r)
  else if Operator r =s NodeSelectorOpNotIn then negb has || bool_decide (got ∉ Values r)
  else if Operator r =s NodeSelectorOpExists then has
  else if Operator r =s NodeSelectorOpDoesNotExist then negb has
  else if (Operator r =s NodeSelectorOpGt) || (Operator r =s NodeSelectorOpLt) then
    has && bool_decide (Key r ∈ [AffinityKeyMemorySize; AffinityKeyCPUCores]) &&
    match elements (Values r) with
    | [v] =>
        match cmp_quantities got v with
        | Some c => if Operator r =s NodeSelectorOpGt then bool_decide (c <> Lt) else bool_decide (c <> Gt)
        | None => false
        end
    | _ => false
    end
  else false.

(** A term holds when all its requirements do, a selector when one of its terms does. *)
Definition Match_term (t : list NodeSelectorRequirement) (ls : gmap string string) : bool :=
  forallb (fun r => Match_requirement r ls) t.
Definition Match_ (ts : list (list NodeSelectorRequirement)) (n : Node) : bool :=
  existsb (fun t => Match_term t (Labels n)) ts.

End Affinity.

(** ** The request *)

Record RequestResource (Q : Type) : Type := MkRes {
  rr_Cpu : Q; rr_Mem : Q; EnableSlowPath : bool; ErofsImages : option (list string);
  rr_TemplateID : string; TemplateNodeScope : list string; EnforceSnapshotStorage : bool;
}.
Arguments MkRes {Q}. Arguments rr_Cpu {Q}. Arguments rr_Mem {Q}. Arguments EnableSlowPath {Q}. Arguments ErofsImages {Q}.
Arguments rr_TemplateID {Q}. Arguments TemplateNodeScope {Q}. Arguments EnforceSnapshotStorage {Q}.

Record NodeScore : Type := MkNodeScore { ns_ID : string; OrigNode : Node; ns_Score : float64 }.

(** Preference terms are scored by the Kubernetes library. *)
Record Affinity : Type := MkAffinity {
  NodeSelector : option (list (list NodeSelectorRequirement));
  BackoffNodeSelector : option (list (list NodeSelectorRequirement));
  NodePreferred : option (gmap string string -> Z);
}.

(** [items] are what [rSelect] has been given so far, with their weights. *)
Record SelectorCtx (Q : Type) : Type := MkCtx {
  ReqRes : option (RequestResource Q);
  lastBad : list string;
  result : list Node;
  resultWithScore : list NodeScore;
  items : list (Node * Z);
  ctx_Affinity : Affinity;
  ctx_InstanceType : string;
}.
Arguments MkCtx {Q}. Arguments ReqRes {Q}. Arguments lastBad {Q}. Arguments result {Q}.
Arguments resultWithScore {Q}. Arguments items {Q}. Arguments ctx_Affinity {Q}. Arguments ctx_InstanceType {Q}.

Definition SetNodes {Q} (ns : list Node) (c : SelectorCtx Q) : SelectorCtx Q :=
  MkCtx (ReqRes c) (lastBad c) ns (resultWithScore c) (items c) (ctx_Affinity c) (ctx_InstanceType c).
Definition SetNodeScoreList {Q} (ss : list NodeScore) (c : SelectorCtx Q) : SelectorCtx Q :=
  MkCtx (ReqRes c) (lastBad c) (match ss with [] => result c | _ => OrigNode <$> ss end) ss (items c) (ctx_Affinity c)
    (ctx_InstanceType c).
Definition with_items {Q} (xs : list (Node * Z)) (c : SelectorCtx Q) : SelectorCtx Q :=
  MkCtx (ReqRes c) (lastBad c) (result c) (resultWithScore c) xs (ctx_Affinity c) (ctx_InstanceType c).
Definition AddLastBadNode {Q} (n : Node) (c : SelectorCtx Q) : SelectorCtx Q :=
  MkCtx (ReqRes c) (lastBad c ++ [ID n]) (result c) (resultWithScore c) (items c) (ctx_Affinity c) (ctx_InstanceType c).
Definition FilterOut {Q} (c : SelectorCtx Q) (n : Node) : bool := bool_decide (ID n ∈ lastBad c).

(** [LeastNodes] and [LeastScoreNodes]: the first [n], or all when [n] is negative or too large. *)
Definition least {A} (n : Z) (l : list A) : list A :=
  if (0 <=? n) && (n <=? Z.of_nat (length l)) then take (Z.to_nat n) l else l.

(** What the scheduler reads: configuration, clock, caches. *)
Record World (Q : Type) : Type := MkWorld {
  w_conf : SchedulerConf Q;
  w_createLimit : Z;
  w_interval : Z;
  w_now : Z;
  w_nodes : local;
  w_templates : templates;
  w_storage : gmap string SnapshotStorageState;
}.
Arguments MkWorld {Q}. Arguments w_conf {Q}. Arguments w_createLimit {Q}. Arguments w_interval {Q}. Arguments w_now {Q}.
Arguments w_nodes {Q}. Arguments w_templates {Q}. Arguments w_storage {Q}.

(** Draws: [rand.Intn] below its bound, and [Next] of the weighted package, which
    may panic or find nothing. *)
Class Draw : Type := {
  Intn : nat -> nat;
  Intn_lt : forall n, (0 < n)%nat -> (Intn n < n)%nat;
  weighted_next : string -> list (Node * Z) -> res (option Node);
  weighted_next_in : forall name xs n, weighted_next name xs = Ok (Some n) -> n ∈ xs.*1;
}.

Section Sched.
Context {Q : Type} {QO : QuantityOps Q} {GR : GoRuntime} {SS : SliceSort} {DR : Draw} (w : World Q).

Definition healthy_nodes (n : Z) (product : string) : list Node :=
  GetHealthyNodesByInstanceType (w_interval w) (w_now w) n product (w_nodes w).

(** ** Pre-filter and backoff filter *)

(** The tests on one node; the one on the load of the CPU only logs. *)
Definition prefilter_ok (c : SelectorCtx Q) (n : Node) : bool :=
  let conf := w_conf w in
  Healthy n &&
  (DisableCircuitFilter conf || negb (FilterOut c n)) &&
  match NodeSelector (ctx_Affinity c) with Some s => Match_ s n | None => true end &&
  negb (RealMaxMvmLimit conf n <=? MvmNum (metrics n)) &&
  negb (MetricUpdateTimeout conf <? time_sub (w_now w) (MetricUpdate (metrics n))) &&
  negb (MetricUpdateTimeout conf <? time_sub (w_now w) (MetricLocalUpdateAt n)).

Definition prefilter_Select (c : SelectorCtx Q) : list Node :=
  filter (fun n => prefilter_ok c n = true) (healthy_nodes (PreSelectNum (w_conf w)) (ctx_InstanceType c)).

Definition disk_ok (n : Node) : bool :=
  let limit := DiskUsageMaxPercent (w_conf w) in
  negb (f64_le limit (StorageDiskUsagePer (metrics n))) &&
  negb (f64_le limit (SysDiskUsagePer (metrics n))) &&
  negb (f64_le limit (DataDiskUsagePer (metrics n))).

Definition backoff_ok (s : list (list NodeSelectorRequirement)) (n : Node) : bool :=
  Match_ s n && negb (RealMaxMvmLimit (w_conf w) n <=? MvmNum (metrics n)) && disk_ok n.

Definition backofffilter_Select (c : SelectorCtx Q) : list Node :=
  match BackoffNodeSelector (ctx_Affinity c) with
  | None => []
  | Some s =>
      if bool_decide (ctx_InstanceType c ∈ DisableBackoffFilterInstanceType (w_conf w)) then []
      else filter (fun n => backoff_ok s n = true) (healthy_nodes (-1) (ctx_InstanceType c))
  end.

(** ** Filters *)

Inductive filter_kind : Type := FCpu | FMem | FTemplateLocality | FRealtime | FDisk | FThirtparty.

Definition filters (name : string) : option filter_kind :=
  if name =s "cpu" then Some FCpu
  else if name =s "mem" then Some FMem
  else if name =s "template_locality" then Some FTemplateLocality
  else if name =s "realtime_create_num" then Some FRealtime
  else if name =s "disk" then Some FDisk
  else if name =s "thirtparty" then Some FThirtparty
  else None.

Definition NewSelector : list filter_kind := omap filters (EnableFilters (w_conf w)).

Definition cpu_ok (cpu : Q) (n : Node) : bool :=
  let conf := w_conf w in
  let free := wrap64 (EffectiveQuotaCpu conf (InstanceType n) (QuotaCpu n) - EffectiveAllocated conf (QuotaCpuUsage (metrics n))) in
  negb (free <=? q_MilliValue cpu) && negb (f64_le (NodeMaxCpuUtil conf) (CpuUtil (metrics n))).

Definition mem_ok (mem : Q) (n : Node) : bool :=
  let conf := w_conf w in
  let free := wrap64 (EffectiveQuotaMem conf (InstanceType n) (QuotaMem n) - EffectiveAllocated conf (QuotaMemUsage (metrics n))) in
  let want := q_Value mem ÷ 1024 ÷ 1024 in
  let loadFree := wrap64 (MemMBTotal n - MemUsage (metrics n)) in
  let reserved := GetEffectiveNodeMaxMemReservedInMB conf (InstanceType n) (QuotaMem n) in
  negb (free <=? want) && negb (loadFree <=? wrap64 (want + reserved)).

Definition realtime_ok (n : Node) : bool :=
  let limit := CreateConcurrentLimit (w_createLimit w) n in
  negb (limit <=? RealTimeCreateNum (metrics n)) &&
  negb (limit <=? wrap64 (LocalCreateNum n * HealthyMasterNodes (w_nodes w))).

Definition templateNodeAllowed (r : RequestResource Q) (n : Node) : bool :=
  match TemplateNodeScope r with
  | [] => true
  | scope => existsb (fun item => let s := TrimSpace item in (s <>s "") && ((s =s ID n) || (s =s IP n))) scope
  end.

Definition snapshotStorageNodeAllowed (n : Node) : bool :=
  match GetSnapshotStorageState (ID n) (IP n) (w_storage w) with
  | Some s => IsSnapshotStorageWriteAllowed (Mode s)
  | None => false
  end.

Definition template_ok (r : RequestResource Q) (n : Node) : bool :=
  templateNodeAllowed r n &&
  bool_decide (is_Some (GetImageStateByNode (rr_TemplateID r) (ID n) (w_templates w))) &&
  (negb (EnforceSnapshotStorage r) || snapshotStorageNodeAllowed n).

(** Whether a filter gives up on the request, and its verdict on a node. *)
Definition filter_err (f : filter_kind) (c : SelectorCtx Q) : option string :=
  match f, ReqRes c with
  | FCpu, None => Some "cpuq or sconf is nil"
  | FMem, None => Some "memFilter: memq or sconf is nil"
  | FThirtparty, None => Some "thirtpartyFilter: reqres or sconf is nil"
  | _, _ => None
  end.

Definition filter_ok (f : filter_kind) (c : SelectorCtx Q) (n : Node) : bool :=
  match f, ReqRes c with
  | FCpu, Some r => cpu_ok (rr_Cpu r) n
  | FMem, Some r => mem_ok (rr_Mem r) n
  | FTemplateLocality, Some r => if rr_TemplateID r =s "" then true else template_ok r n
  | FRealtime, _ => realtime_ok n
  | FDisk, _ => disk_ok n
  | _, _ => true
  end.

Definition filter_Select (f : filter_kind) (c : SelectorCtx Q) : res (list Node) :=
  match filter_err f c with
  | Some e => Err e
  | None => Ok (filter (fun n => filter_ok f c n = true) (result c))
  end.

(** The filters run side by side and count, per id, how often a node was kept;
    a node is in when its id was counted once per filter. *)
Fixpoint run_filters (fs : list filter_kind) (c : SelectorCtx Q) (kept : list string) : res (list string) :=
  match fs with
  | [] => Ok kept
  | f :: fs => let! ns := filter_Select f c in run_filters fs c (kept ++ (ID <$> ns))
  end.

Definition occurrences (id : string) (ids : list string) : nat := length (filter (fun x => x = id) ids).

Definition parallelRunFilters (c : SelectorCtx Q) (fs : list filter_kind) : res (list Node) :=
  match run_filters fs c [] with
  | Err e => Err ("MasterInternalError: " +:+ e)
  | Ok kept => Ok (filter (fun n => occurrences (ID n) kept = length fs) (result c))
  end.

(** ** Steps of [Select] *)

Definition ErrNoRes : string := "SelectNodesNoRes: no more resource".

Definition non_empty (ns : list Node) (c : SelectorCtx Q) : res unit * SelectorCtx Q :=
  (match ns with [] => Err ErrNoRes | _ => Ok tt end, SetNodes ns c).

Definition runPreFilter (c : SelectorCtx Q) : res unit * SelectorCtx Q := non_empty (prefilter_Select c) c.
Definition runBackoffFilter (c : SelectorCtx Q) : res unit * SelectorCtx Q := non_empty (backofffilter_Select c) c.

Definition runFilter (c : SelectorCtx Q) (fs : list filter_kind) : res unit * SelectorCtx Q :=
  match parallelRunFilters c fs with
  | Err e => (Err e, c)
  | Ok [] => (Err ErrNoRes, c)
  | Ok ns => (Ok tt, SetNodes ns c)
  end.

Definition shouldSkipBackoffForTemplate (c : SelectorCtx Q) : bool :=
  match ReqRes c with
  | None => false
  | Some r => (rr_TemplateID r <>s "") && existsb (fun f => match f with FTemplateLocality => true | _ => false end) NewSelector
  end.

Definition BackoffSelect (c : SelectorCtx Q) : res (option Node) * SelectorCtx Q :=
  match runBackoffFilter c with
  | (Err e, c) => (Err e, c)
  | (Ok _, c) =>
      match result c !! Intn (length (result c)) with
      | Some n => (Ok (Some n), c)
      | None => (Err "index out of range", c)
      end
  end.

(** ** Scores *)

Definition getReciprocal (v base : Z) : float64 :=
  if base =? 0 then f64_zero else f64_div (f64_mul (f64_of_Z v) f64_one) (f64_of_Z base).

Definition getFactorWeight (k : string) : float64 :=
  match Score_ (w_conf w) with
  | Some sc => default f64_zero (default ∅ (score_ResourceWeights sc) !! k)
  | None => f64_zero
  end.

Definition hundred : float64 := f64_of_Z 100.
(** [100.0 - f*100.0] *)
Definition percent_left (f : float64) : float64 := f64_sub hundred (f64_mul f hundred).

Definition getMetricUpdateDiff (n : Node) : float64 := getReciprocal (time_unix (MetricUpdate (metrics n))) (time_unix (w_now w)).
Definition getMetricLocalUpdateDiff (n : Node) : float64 := getReciprocal (time_unix (MetricUpdate (metrics n))) (time_unix (w_now w)).
Definition getCreateLimitScore (n : Node) : float64 := f64_of_Z (CreateConcurrentNum n).
Definition getRealTimeCreateNumScore (n : Node) : float64 :=
  percent_left (getReciprocal (RealTimeCreateNum (metrics n)) (CreateConcurrentNum n)).
Definition getLocalCreateNumScore (n : Node) : float64 :=
  percent_left (getReciprocal (wrap64 (LocalCreateNum n * HealthyMasterNodes (w_nodes w))) (CreateConcurrentNum n)).
Definition getMvmNumScore (n : Node) : float64 := percent_left (getReciprocal (MvmNum (metrics n)) (MaxMvmLimit (w_conf w) n)).
Definition getQuotaCpuUsageScore (n : Node) : float64 :=
  let eff := EffectiveQuotaCpu (w_conf w) (InstanceType n) (QuotaCpu n) in
  if eff <=? 0 then f64_zero else percent_left (getReciprocal (EffectiveAllocated (w_conf w) (QuotaCpuUsage (metrics n))) eff).
Definition getQuotaMemMbUsageScore (n : Node) : float64 :=
  let eff := EffectiveQuotaMem (w_conf w) (InstanceType n) (QuotaMem n) in
  if eff <=? 0 then f64_zero else percent_left (getReciprocal (EffectiveAllocated (w_conf w) (QuotaMemUsage (metrics n))) eff).
Definition getCpuLoadUsageScore (n : Node) : float64 :=
  if CpuTotal n <=? 0 then f64_zero else percent_left (f64_div (CpuLoadUsage (metrics n)) (f64_of_Z (CpuTotal n))).
Definition getCpuUtilScore (n : Node) : float64 := f64_sub hundred (CpuUtil (metrics n)).
Definition getMemMbUsageScore (n : Node) : float64 :=
  if MemMBTotal n <=? 0 then f64_zero else percent_left (getReciprocal (MemUsage (metrics n)) (MemMBTotal n)).
Definition getDataDiskUsageScore (n : Node) : float64 := f64_sub hundred (DataDiskUsagePer (metrics n)).
Definition getSysDiskUsageScore (n : Node) : float64 := f64_sub hundred (SysDiskUsagePer (metrics n)).
Definition getStorageUsageScore (n : Node) : float64 := f64_sub hundred (StorageDiskUsagePer (metrics n)).

(** The factors by name. *)
Definition factor_score (v : string) : option (Node -> float64) :=
  if v =s "create_concurrent_limit" then Some getCreateLimitScore
  else if v =s "mvm_num" then Some getMvmNumScore
  else if v =s "metric_update" then Some getMetricUpdateDiff
  else if v =s "metric_local_update_at" then Some getMetricLocalUpdateDiff
  else if v =s "quota_cpu_usage" then Some getQuotaCpuUsageScore
  else if v =s "quota_mem_usage" then Some getQuotaMemMbUsageScore
  else if v =s "cpu_util" then Some getCpuUtilScore
  else if v =s "mem_usage" then Some getMemMbUsageScore
  else if v =s "cpu_load" then Some getCpuLoadUsageScore
  else if v =s "realtime_create_num" then Some getRealTimeCreateNumScore
  else if v =s "local_create_num" then Some getLocalCreateNumScore
  else if v =s "data_disk_usage" then Some getDataDiskUsageScore
  else if v =s "storage_disk_usage" then Some getStorageUsageScore
  else if v =s "sys_disk_usage" then Some getSysDiskUsageScore
  else None.

Definition getFactorWeightedAverageScore (n : Node) (factors : list string) : float64 :=
  foldl (fun acc v =>
           match factor_score v with
           | Some g => f64_add acc (f64_mul (g n) (getFactorWeight v))
           | None => acc
           end) f64_zero factors.

Definition total_weight (factors : list string) : float64 :=
  foldl (fun acc v => f64_add acc (getFactorWeight v)) f64_zero factors.

Definition getRealtimeWeightedAverageScore (factors : list string) (n : Node) (cpu mem : Q) : float64 :=
  let conf := w_conf w in
  let s := getFactorWeightedAverageScore n factors in
  let effCpu := EffectiveQuotaCpu conf (InstanceType n) (QuotaCpu n) in
  let cpuLeft := getReciprocal (wrap64 (wrap64 (effCpu - EffectiveAllocated conf (QuotaCpuUsage (metrics n))) - q_MilliValue cpu)) effCpu in
  let s := f64_add s (f64_mul cpuLeft (getFactorWeight "req_cpu")) in
  let effMem := EffectiveQuotaMem conf (InstanceType n) (QuotaMem n) in
  let memLeft := getReciprocal
    (wrap64 (wrap64 (effMem - EffectiveAllocated conf (QuotaMemUsage (metrics n))) - q_Value mem ÷ 1024 ÷ 1024)) effMem in
  f64_add s (f64_mul memLeft (getFactorWeight "req_mem")).

(** One round of [loopAsyncScore]: every cached node gets its score of several factors. *)
Definition loopAsyncScore (l : local) : local :=
  match Score_ (w_conf w) with
  | None => l
  | Some sc =>
      match score_ResourceWeights sc, MultiFactorWeightedAverage sc with
      | Some _, Some p =>
          let tw := total_weight (pl_Factors p) in
          if f64_eq tw f64_zero then l
          else
            foldl (fun l q =>
                     set_heap (alter (fun n => with_score (f64_div (getFactorWeightedAverageScore n (pl_Factors p)) tw) n) q (heap l)) l)
              l ((map_to_list (cache l)).*2)
      | _, _ => l
      end
  end.

(** *** Images *)

Definition MaxNodeScore : Z := 100.
Definition mb : Z := 1024 * 1024.
Definition minThreshold : Z := 23 * mb.
Definition maxContainerThreshold : Z := 80000 * mb.

Definition calculatePriority (sumScores numContainers : Z) : Z :=
  let maxThreshold := wrap64 (maxContainerThreshold * numContainers) in
  let s := if sumScores <? minThreshold then minThreshold else if maxThreshold <? sumScores then maxThreshold else sumScores in
  wrap64 (MaxNodeScore * wrap64 (s - minThreshold)) ÷ wrap64 (maxThreshold - minThreshold).

Definition image_score (image : string) (n : Node) : Z :=
  from_option ScaledImageScore 0 (GetImageStateByNode image (ID n) (w_templates w)).

Definition sumImageScores (images : list string) (n : Node) : Z :=
  foldl (fun acc i => wrap64 (acc + image_score i n)) 0 images.

Definition getImageScore (images : option (list string)) (n : Node) : float64 :=
  match images with
  | None => f64_zero
  | Some is_ => f64_of_Z (calculatePriority (sumImageScores is_ n) (Z.of_nat (length is_)))
  end.

Definition getTemplateScore (templateID : string) (n : Node) : float64 :=
  if templateID =s "" then f64_zero else f64_of_Z (calculatePriority (image_score templateID n) 1).

Definition getImageWeightedAverageScore (factors : list string) (r : RequestResource Q) (n : Node) : float64 :=
  foldl (fun acc v =>
           if v =s "image_id" then f64_add acc (f64_mul (getImageScore (ErofsImages r) n) (getFactorWeight v))
           else if v =s "template_id" then f64_add acc (f64_mul (getTemplateScore (rr_TemplateID r) n) (getFactorWeight v))
           else acc) f64_zero factors.

(** *** Score plugins *)

Inductive score_kind : Type := SRealTime | SMultiFactor | SAffinity | SImage.

Definition scores (name : string) : option score_kind :=
  if name =s "real_time_weighted_average" then Some SRealTime
  else if name =s "multi_factor_weighted_average" then Some SMultiFactor
  else if name =s "affinity_score" then Some SAffinity
  else if name =s "image_score" then Some SImage
  else None.

Definition plugin (sc : SchedulerScoreConf) (k : score_kind) : option PluginConf :=
  match k with
  | SRealTime => RealTimeWeightedAverage sc
  | SMultiFactor => MultiFactorWeightedAverage sc
  | SAffinity => AffinityScore sc
  | SImage => ImageScore sc
  end.

(** The plugins with their blocks; a plugin without one stops the process at start. *)
Definition NewScorers : list (score_kind * PluginConf) :=
  match Score_ (w_conf w) with
  | None => []
  | Some sc =>
      match score_ResourceWeights sc with
      | None => []
      | Some _ => omap (fun name => k ← scores name; p ← plugin sc k; Some (k, p)) (EnableScorers sc)
      end
  end.

Definition score_list (f : Node -> float64) (c : SelectorCtx Q) : list NodeScore :=
  (fun n => MkNodeScore (ID n) n (f n)) <$> result c.

Definition scorer_Select (k : score_kind) (p : PluginConf) (c : SelectorCtx Q) : res (list NodeScore) :=
  let tw := total_weight (pl_Factors p) in
  match k with
  | SRealTime =>
      match ReqRes c with
      | None => Err "MasterInternalError: cpu request or mem request is nil"
      | Some r =>
          if f64_eq tw f64_zero then Ok []
          else Ok (score_list (fun n => f64_div (getRealtimeWeightedAverageScore (pl_Factors p) n (rr_Cpu r) (rr_Mem r)) tw) c)
      end
  | SMultiFactor => Ok (score_list Score c)
  | SAffinity =>
      match NodePreferred (ctx_Affinity c) with
      | None => Ok []
      | Some pref => Ok (score_list (fun n => f64_of_Z (pref (Labels n))) c)
      end
  | SImage =>
      match ReqRes c with
      | None => Ok []
      | Some r =>
          if f64_eq tw f64_zero then Ok []
          else Ok (score_list (fun n => f64_div (getImageWeightedAverageScore (pl_Factors p) r n) tw) c)
      end
  end.

Definition with_ns_score (x : float64) (n : NodeScore) : NodeScore := MkNodeScore (ns_ID n) (OrigNode n) x.

(** The scores of one plugin enter the table of sums. *)
Definition add_scores (weight : float64) (m : gmap string NodeScore) (ns : list NodeScore) : gmap string NodeScore :=
  foldl (fun m n =>
           let x := f64_mul (ns_Score n) weight in
           match m !! ns_ID n with
           | Some old => <[ns_ID n := with_ns_score (f64_add (ns_Score old) x) old]> m
           | None => <[ns_ID n := with_ns_score x n]> m
           end) m ns.

Definition run_scorer (c : SelectorCtx Q) (acc : float64 * gmap string NodeScore) (kp : score_kind * PluginConf) :
  float64 * gmap string NodeScore :=
  let '(k, p) := kp in
  if pl_Disable p then acc
  else
    match scorer_Select k p c with
    | Err _ | Ok [] => acc
    | Ok ns => (f64_add acc.1 (pl_Weight p), add_scores (pl_Weight p) acc.2 ns)
    end.

(** *** The white lists *)

Definition post_weight (pc : PostScoreConf) (k : string) : float64 :=
  match post_ResourceWeights pc !! k with Some v => f64_mul v (ParamFactor pc) | None => f64_zero end.

Definition PostedScore (m : gmap string NodeScore) : gmap string NodeScore :=
  match PostScore (w_conf w) with
  | None => m
  | Some pc =>
      if post_Disable pc || bool_decide (m = ∅) then m
      else
        let m :=
          if bool_decide (ActiveWhiteListMap pc = ∅) then m
          else
            let sum := foldl (fun acc kv => f64_add acc (ns_Score kv.2)) f64_zero (map_to_list m) in
            let mean := f64_div sum (f64_of_Z (Z.of_nat (size m))) in
            map_imap (fun k v => Some (if bool_decide (k ∈ ActiveWhiteListMap pc)
                                       then with_ns_score (f64_add (ns_Score v) (f64_mul mean (post_weight pc "active_whitelist"))) v
                                       else v)) m in
        map_imap (fun k v => Some (if bool_decide (k ∈ NegativeWhiteListMap pc)
                                   then with_ns_score (f64_sub (ns_Score v) (f64_mul (ns_Score v) (post_weight pc "negative_whitelist"))) v
                                   else v)) m
  end.

Definition AllSortByScore (l : list NodeScore) : list NodeScore := sort_slice (fun x y => f64_lt (ns_Score y) (ns_Score x)) l.

Definition runScoreFilter (c : SelectorCtx Q) : res unit * SelectorCtx Q :=
  match NewScorers with
  | [] => (Ok tt, c)
  | ks =>
      let '(total, m) := foldl (run_scorer c) (f64_zero, ∅) ks in
      if bool_decide (m = ∅) then (match result c with [] => Err ErrNoRes | _ => Ok tt end, c)
      else
        let total := if f64_eq total f64_zero then f64_one else total in
        let m := PostedScore ((fun n => with_ns_score (f64_div (ns_Score n) total) n) <$> m) in
        let c := SetNodeScoreList (AllSortByScore (map_to_list m).*2) c in
        (match result c with [] => Err ErrNoRes | _ => Ok tt end, c)
  end.

(** ** The draw and the whole *)

Definition LeastRandomSelect (n : Z) (c : SelectorCtx Q) : res (option Node) * SelectorCtx Q :=
  let more :=
    match resultWithScore c with
    | [] => (fun v => (v, 1)) <$> least n (result c)
    | ss => (fun s => (OrigNode s, f64_to_int (f64_mul (ns_Score s) (f64_of_Z 1000000)))) <$> least n ss
    end in
  let c := with_items (items c ++ more) c in
  let name := LeastSelectName (w_conf w) in
  if bool_decide (name ∈ ["sw"; "rw"; "rrw"]) then (weighted_next name (items c), c)
  else
    match items c !! Intn (length (items c)) with
    | Some it => (Ok (Some it.1), c)
    | None => (Err "invalid argument to Intn", c)
    end.

(** [Select]; a panic is recovered and comes back as an error. *)
Definition Select (c : SelectorCtx Q) : res (option Node) * SelectorCtx Q :=
  let go c :=
    match runFilter c NewSelector with
    | (Err e, c) => if shouldSkipBackoffForTemplate c then (Err e, c) else BackoffSelect c
    | (Ok _, c) =>
        match runScoreFilter c with
        | (Err e, c) => (Err e, c)
        | (Ok _, c) => LeastRandomSelect (PrioritySelectNum (w_conf w)) c
        end
    end in
  match runPreFilter c with
  | (Err e, c) =>
      if shouldSkipBackoffForTemplate c then (Err e, c)
      else match runBackoffFilter c with
           | (Err e, c) => (Err e, c)
           | (Ok _, c) => go c
           end
  | (Ok _, c) => go c
  end.

End Sched.

(** ** The score of images *)

Lemma calculatePriority_eq s k : 1 <= k <= 1000000 ->
  calculatePriority s k =
    100 * (Z.min (Z.max s minThreshold) (maxContainerThreshold * k) - minThreshold) / (maxContainerThreshold * k - minThreshold).
Proof.
  intros Hk. unfold calculatePriority, maxContainerThreshold, minThreshold, MaxNodeScore, mb in *.
  set (M := 80000 * (1024 * 1024) * k). set (m := 23 * (1024 * 1024)).
  assert (m < M <= 83886080000000000) as HM by lia. assert (m = 24117248) as Hm by done.
  rewrite (wrap64_id M) by (unfold int_min, int_max; lia). cbn zeta.
  assert ((if s <? m then m else if M <? s then M else s) = Z.min (Z.max s m) M) as ->.
  { destruct (Z.ltb_spec s m); [lia|]. destruct (Z.ltb_spec M s); lia. }
  set (x := Z.min (Z.max s m) M). assert (m <= x <= M) by lia.
  rewrite (wrap64_id (x - m)), (wrap64_id (M - m)), wrap64_id by (unfold int_min, int_max; lia).
  by rewrite Z.quot_div_nonneg by lia.
Qed.

(** The score of the images on a node is a percentage, whatever their sizes sum
    to: no intermediate product overflows for up to a million images, the score is
    0 up to 23 MiB, 100 from the upper threshold on, and it never falls as more
    of the request is already there. *)
Theorem calculatePriority_percent s s' k : 1 <= k <= 1000000 -> s <= s' ->
  0 <= calculatePriority s k /\ calculatePriority s k <= calculatePriority s' k /\ calculatePriority s' k <= 100 /\
  (s <= minThreshold -> calculatePriority s k = 0) /\
  (maxContainerThreshold * k <= s -> calculatePriority s k = 100).
Proof.
  intros Hk Hs. rewrite !calculatePriority_eq by done.
  unfold maxContainerThreshold, minThreshold, mb in *. set (M := 80000 * (1024 * 1024) * k - 23 * (1024 * 1024)).
  assert (0 < M) by lia. split_and!.
  - apply Z.div_pos; lia.
  - apply Z.div_le_mono; lia.
  - apply Z.div_le_upper_bound; lia.
  - intros H0. rewrite Z.max_r, Z.min_l by lia. rewrite Z.sub_diag. apply Z.div_0_l. lia.
  - intros H0. rewrite Z.max_l, Z.min_r by lia. apply Z.div_mul. lia.
Qed.

Lemma calculatePriority_percent_witness :
  calculatePriority 0 2 = 0 /\ calculatePriority 0 2 <= calculatePriority (70000 * mb) 2.
Proof.
  destruct (calculatePriority_percent 0 (70000 * mb) 2) as (_ & H & _ & H0 & _); [lia|done|]. split; [|exact H].
  apply H0. done.
Defined.

(** Rounds of scoring leave the lists of nodes as they are. *)
Lemma loopAsyncScore_tame {Q} {QO : QuantityOps Q} {GR : GoRuntime} (w : World Q) lab l :
  tame_cache (w_conf w) lab l -> tame_cache (w_conf w) lab (loopAsyncScore w l).
Proof.
  intros H. unfold loopAsyncScore. repeat (case_match; try done).
  assert (forall p, p ∈ (map_to_list (cache l)).*2 -> exists x, cache l !! x = Some p) as Hc.
  { intros r ([x q] & -> & Hin%elem_of_map_to_list)%list_elem_of_fmap. by exists x. }
  revert Hc. generalize ((map_to_list (cache l)).*2). intros ps. revert l H. induction ps as [|r ps IH]; intros l H Hc; [done|].
  cbn [foldl]. apply IH; [|intros q Hq; apply Hc; by right]. destruct (Hc r) as [x Hx]; [by left|].
  by eapply alter_tame.
Qed.

(** ** Counting is intersection *)

Lemma votes_app id a b : occurrences id (a ++ b) = (occurrences id a + occurrences id b)%nat.
Proof. unfold occurrences. by rewrite filter_app, length_app. Qed.

Lemma occurrences_kept (P : Node -> bool) ns n : NoDup (ID <$> ns) -> n ∈ ns ->
  occurrences (ID n) (ID <$> filter (fun x => P x = true) ns) = if P n then 1%nat else 0%nat.
Proof.
  induction ns as [|x ns IH]; intros Hnd Hin; [by apply not_elem_of_nil in Hin|]. cbn in Hnd. apply NoDup_cons in Hnd as [Hx Hnd].
  assert (forall m, ID m ∉ (ID <$> ns) -> occurrences (ID m) (ID <$> filter (fun x => P x = true) ns) = 0%nat) as Hno.
  { intros m Hm. unfold occurrences. rewrite filter_none; [done|]. apply Forall_forall. intros y Hy E. apply Hm. rewrite <- E.
    apply list_elem_of_fmap in Hy as (z & -> & [_ Hz]%list_elem_of_filter). by apply list_elem_of_fmap_2. }
  apply elem_of_cons in Hin as [->|Hin].
  - rewrite filter_cons. destruct (P x) eqn:E; case_decide; try done; [|by apply Hno].
    cbn [fmap list_fmap]. unfold occurrences. rewrite filter_cons_True by done. cbn [length]. f_equal. by apply Hno.
  - rewrite filter_cons. case_decide; [|by apply IH]. cbn [fmap list_fmap]. unfold occurrences. rewrite filter_cons_False; [by apply IH|].
    intros E. apply Hx. rewrite E. by apply list_elem_of_fmap_2.
Qed.

Section Props.
Context {Q : Type} {QO : QuantityOps Q} {GR : GoRuntime} {SS : SliceSort} {DR : Draw} (w : World Q).
Implicit Types c : SelectorCtx Q.

(** Every enabled filter lets the node through. *)
Definition fits c (n : Node) : bool := forallb (fun f => filter_ok w f c n) (NewSelector w).
(** No enabled filter gives up on the request. *)
Definition request_ok c : Prop := forall f, f ∈ NewSelector w -> filter_err f c = None.

Lemma run_filters_spec fs c : (forall f, f ∈ fs -> filter_err f c = None) -> forall kept,
  exists ids, run_filters w fs c kept = Ok ids /\
    (NoDup (ID <$> result c) -> forall n, n ∈ result c ->
       occurrences (ID n) ids = (occurrences (ID n) kept + length (filter (fun f => filter_ok w f c n = true) fs))%nat).
Proof.
  induction fs as [|f fs IH]; intros Hok kept; [exists kept; split; [done|]; intros; cbn; lia|].
  cbn [run_filters]. unfold filter_Select. rewrite (Hok f) by (by left). cbn [rbind].
  destruct (IH ltac:(intros; apply Hok; by right) (kept ++ (ID <$> filter (fun n => filter_ok w f c n = true) (result c)))%list)
    as (ids & -> & Hids).
  exists ids. split; [done|]. intros Hnd n Hn. rewrite (Hids Hnd n Hn), votes_app, (occurrences_kept (filter_ok w f c)) by done.
  rewrite filter_cons. destruct (filter_ok w f c n) eqn:E; case_decide; try done; cbn; lia.
Qed.

Lemma filter_all_length {A} (P : A -> bool) (l : list A) :
  length (filter (fun x => P x = true) l) = length l <-> forallb P l = true.
Proof.
  induction l as [|x l IH]; [done|]. rewrite filter_cons. cbn [forallb length].
  pose proof (length_filter (fun x => P x = true) l). destruct (P x); case_decide; try done; cbn [length andb]; [rewrite <- IH; lia|].
  split; [lia|done].
Qed.

(** Counting the votes of the filters is the intersection of their results, when
    no id is there twice; a filter that gives up makes the whole fail. *)
Lemma parallelRunFilters_spec c : NoDup (ID <$> result c) -> request_ok c ->
  parallelRunFilters w c (NewSelector w) = Ok (filter (fun n => fits c n = true) (result c)).
Proof.
  intros Hnd Hok. unfold parallelRunFilters. destruct (run_filters_spec (NewSelector w) c Hok []) as (ids & -> & Hids).
  f_equal. apply filter_ext_Forall, Forall_forall. intros n Hn. rewrite (Hids Hnd n Hn). unfold occurrences at 1. cbn.
  apply filter_all_length.
Qed.

(** ** Scores keep the nodes *)

Definition from_result c (m : gmap string NodeScore) : Prop :=
  map_Forall (fun id s => OrigNode s ∈ result c /\ ID (OrigNode s) = id) m.

Lemma scorer_nodes k p c ns : scorer_Select w k p c = Ok ns -> Forall (fun s => OrigNode s ∈ result c /\ ID (OrigNode s) = ns_ID s) ns.
Proof.
  assert (forall f, Forall (fun s => OrigNode s ∈ result c /\ ID (OrigNode s) = ns_ID s) (score_list f c)) as Hl.
  { intros f. unfold score_list. apply Forall_fmap, Forall_forall. by intros n Hn. }
  unfold scorer_Select. intros H. destruct k; repeat case_match; simplify_eq; try done; try constructor; apply Hl.
Qed.

Lemma add_scores_from wt c ns : forall m, from_result c m ->
  Forall (fun s => OrigNode s ∈ result c /\ ID (OrigNode s) = ns_ID s) ns -> from_result c (add_scores wt m ns).
Proof.
  unfold add_scores. induction ns as [|s ns IH]; intros m Hm Hns; [done|]. apply Forall_cons in Hns as [Hs Hns]. cbn. apply IH; [|done].
  destruct (m !! ns_ID s) as [old|] eqn:E; (apply map_Forall_insert_2; [|done]); [exact (Hm _ _ E)|exact Hs].
Qed.

Lemma run_scorers_from c ks : forall acc, from_result c acc.2 -> from_result c (foldl (run_scorer w c) acc ks).2.
Proof.
  induction ks as [|[k p] ks IH]; intros acc Hm; [done|]. cbn [foldl]. apply IH. cbn [run_scorer]. destruct (pl_Disable p); [done|].
  destruct (scorer_Select w k p c) as [[|s ns]|] eqn:E; [done| |done]. cbn [snd]. apply add_scores_from; [done|].
  by apply scorer_nodes in E.
Qed.

Lemma posted_from c m : from_result c m -> from_result c (PostedScore w m).
Proof.
  intros Hm. unfold PostedScore. destruct (PostScore (w_conf w)) as [pc|]; [|done]. case_match; [done|].
  assert (forall (g : string -> NodeScore -> float64) (P : string -> bool) m, from_result c m ->
    from_result c (map_imap (fun k v => Some (if P k then with_ns_score (g k v) v else v)) m)) as Hg.
  { intros g P m' Hm' id s. rewrite map_lookup_imap. intros (s' & Hs' & [= <-])%bind_Some. destruct (P id); exact (Hm' _ _ Hs'). }
  apply (Hg (fun _ v => _)). case_match; [done|]. by apply (Hg (fun _ v => _)).
Qed.

Lemma posted_dom m : dom (PostedScore w m) = dom m.
Proof.
  assert (forall (g : string -> NodeScore -> NodeScore) m, dom (map_imap (fun k v => Some (g k v)) m) = dom m) as Hg.
  { intros g m'. apply set_eq. intros k. rewrite !elem_of_dom, map_lookup_imap.
    destruct (m' !! k); cbn; split; intros []; eauto; done. }
  unfold PostedScore. destruct (PostScore (w_conf w)) as [pc|]; [|done]. destruct (_ || _); [done|]. rewrite Hg.
  destruct (bool_decide _); [done|apply Hg].
Qed.

(** After scoring, the nodes are some of those there were, and scored ones carry them. *)
Lemma runScoreFilter_spec c r c' : runScoreFilter w c = (r, c') -> resultWithScore c = [] ->
  items c' = items c /\
  (c' = c \/ resultWithScore c' <> [] /\ Forall (fun s => OrigNode s ∈ result c) (resultWithScore c')) /\
  (result c <> [] -> r = Ok tt).
Proof.
  unfold runScoreFilter. intros H Hrs. destruct (NewScorers w) as [|kp ks].
  { simplify_eq. split; [done|]. split; [by left|done]. }
  pose proof (run_scorers_from c (kp :: ks) (f64_zero, ∅) (map_Forall_empty _)) as Hm.
  destruct (foldl (run_scorer w c) (f64_zero, ∅) (kp :: ks)) as [total m]. cbn [snd] in Hm.
  destruct (bool_decide_reflect (m = ∅)) as [_|Hne].
  { injection H as <- <-. split; [done|]. split; [by left|]. by destruct (result c). }
  set (m1 := _ <$> m) in H. assert (from_result c (PostedScore w m1)) as Hp.
  { apply posted_from. intros id s. unfold m1. rewrite lookup_fmap. intros (s' & Hs' & ->)%fmap_Some. exact (Hm _ _ Hs'). }
  set (ss := AllSortByScore _) in H.
  assert (ss ≡ₚ (map_to_list (PostedScore w m1)).*2) as Hperm by apply sort_slice_perm.
  assert (PostedScore w m1 <> ∅) as Hne'.
  { apply map_choose in Hne as (id & s & Hs). intros E.
    assert (is_Some (m1 !! id)) as Hs1 by (unfold m1; rewrite lookup_fmap, Hs; eauto).
    assert (is_Some (PostedScore w m1 !! id)) as [? Hc]; [|by rewrite E, lookup_empty in Hc].
    rewrite <- elem_of_dom, posted_dom. by apply elem_of_dom. }
  assert (ss <> []) as Hss.
  { intros E. rewrite E in Hperm. apply Permutation_nil_l in Hperm. symmetry in Hperm. apply fmap_nil_inv in Hperm.
    by apply map_to_list_empty_iff in Hperm. }
  injection H as <- <-. split; [done|]. split.
  - right. cbn. split; [done|]. rewrite Hperm. apply Forall_fmap, Forall_forall. intros [id s] Hin%elem_of_map_to_list.
    by destruct (Hp _ _ Hin).
  - intros _. cbn. by destruct ss.
Qed.

(** ** The draw *)

Lemma least_in {A} k (l : list A) x : x ∈ least k l -> x ∈ l.
Proof. unfold least. case_match; [|done]. intros (i & Hi & _)%elem_of_take. by eapply list_elem_of_lookup_2. Qed.

Lemma least_non_empty {A} k (l : list A) : k <> 0 -> l <> [] -> least k l <> [].
Proof.
  unfold least. intros Hk Hl. case_match eqn:E; [|done]. apply andb_prop in E as [E%Z.leb_le _].
  destruct l as [|x l]; [done|]. destruct (Z.to_nat k) eqn:Ek; [lia|done].
Qed.

(** What one draw may return, when nothing was drawn for the request before. *)
Definition drawable c : list Node := match resultWithScore c with [] => result c | ss => OrigNode <$> ss end.

Lemma draw_in k c n c' : items c = [] -> LeastRandomSelect w k c = (Ok (Some n), c') -> n ∈ drawable c.
Proof.
  intros Hi. unfold LeastRandomSelect, drawable. rewrite Hi. cbn [app]. set (more := match resultWithScore c with [] => _ | _ => _ end).
  assert (forall x, x ∈ more.*1 -> x ∈ match resultWithScore c with [] => result c | ss => OrigNode <$> ss end) as Hm.
  { intros x. unfold more. destruct (resultWithScore c) as [|s0 ss].
    - rewrite <- list_fmap_compose. intros (y & -> & Hy)%list_elem_of_fmap. cbn. by eapply least_in.
    - rewrite <- list_fmap_compose. intros (y & -> & Hy)%list_elem_of_fmap. cbn [compose fst].
      apply list_elem_of_fmap_2. by eapply least_in. }
  cbn [with_items items]. destruct (bool_decide _).
  - intros [= HS _]. apply Hm. by apply weighted_next_in in HS.
  - destruct (more !! _) as [it|] eqn:E; [|done]. intros [= <- _]. apply Hm, list_elem_of_fmap_2. by eapply list_elem_of_lookup_2.
Qed.

Definition random_draw : Prop := LeastSelectName (w_conf w) ∉ ["sw"; "rw"; "rrw"].

Lemma draw_some k c : items c = [] -> k <> 0 -> random_draw -> drawable c <> [] ->
  exists n c', LeastRandomSelect w k c = (Ok (Some n), c').
Proof.
  intros Hi Hk Hr Hd. unfold LeastRandomSelect. rewrite Hi. cbn [app]. set (more := match resultWithScore c with [] => _ | _ => _ end).
  assert (more <> []) as Hm.
  { unfold more, drawable in *. destruct (resultWithScore c) as [|s0 ss]; intros E%fmap_nil_inv; by apply least_non_empty in E. }
  rewrite bool_decide_eq_false_2 by done. cbn [with_items items].
  destruct (lookup_lt_is_Some_2 more (Intn (length more))) as [it ->]; [|eauto].
  apply Intn_lt. destruct more; [done|cbn; lia].
Qed.

(** ** Select *)

(** The nodes the filters are applied to. *)
Definition candidates c : list Node :=
  match prefilter_Select w c with
  | [] => if shouldSkipBackoffForTemplate w c then [] else backofffilter_Select w c
  | ns => ns
  end.

Definition fresh c : Prop := items c = [] /\ resultWithScore c = [].

Lemma runFilter_spec c ns : NoDup (ID <$> ns) ->
  let ok := filter (fun n => fits c n = true) ns in
  (request_ok c -> runFilter w (SetNodes ns c) (NewSelector w) =
     match ok with [] => (Err ErrNoRes, SetNodes ns c) | _ => (Ok tt, SetNodes ok c) end) /\
  (forall c1, runFilter w (SetNodes ns c) (NewSelector w) = (Ok tt, c1) -> c1 = SetNodes ok c /\ ok <> []).
Proof.
  intros Hnd ok.
  assert (request_ok c -> runFilter w (SetNodes ns c) (NewSelector w) =
     match ok with [] => (Err ErrNoRes, SetNodes ns c) | _ => (Ok tt, SetNodes ok c) end) as H1.
  { intros Hok. unfold runFilter. rewrite (parallelRunFilters_spec (SetNodes ns c)) by done.
    change (filter _ _) with ok. by destruct ok. }
  split; [done|]. intros c1 H. assert (request_ok c) as Hok.
  { intros f Hf. destruct (filter_err f c) as [e|] eqn:E; [exfalso|done]. revert H. unfold runFilter, parallelRunFilters.
    assert (forall fs kept, f ∈ fs -> exists e, run_filters w fs (SetNodes ns c) kept = Err e) as Hr.
    { clear -E. induction fs as [|g fs IH]; intros kept Hf; [by apply not_elem_of_nil in Hf|]. cbn [run_filters]. unfold filter_Select.
      apply elem_of_cons in Hf as [->|Hf].
      - change (filter_err g (SetNodes ns c)) with (filter_err g c). rewrite E. eexists. reflexivity.
      - destruct (filter_err g (SetNodes ns c)); [eexists; reflexivity|]. cbn [rbind]. by apply IH. }
    destruct (Hr (NewSelector w) [] Hf) as [e' ->]. done. }
  rewrite (H1 Hok) in H. destruct ok; [done|]. injection H as <-. done.
Qed.

Lemma NoDup_filter_ids (P : Node -> Prop) `{!forall n, Decision (P n)} ns : NoDup (ID <$> ns) -> NoDup (ID <$> filter P ns).
Proof.
  induction ns as [|x ns IH]; [done|]. cbn [fmap list_fmap]. intros [Hx Hnd]%NoDup_cons. rewrite filter_cons. case_decide; [|by apply IH].
  cbn. constructor; [|by apply IH]. intros (y & Hy & [_ Hin]%list_elem_of_filter)%list_elem_of_fmap. apply Hx. rewrite Hy. by apply list_elem_of_fmap_2.
Qed.

Lemma candidates_distinct c : cache_wf (w_conf w) (w_nodes w) -> NoDup (ID <$> prefilter_Select w c) /\ NoDup (ID <$> backofffilter_Select w c).
Proof.
  intros Hwf. unfold prefilter_Select, backofffilter_Select, healthy_nodes. split; [by apply NoDup_filter_ids, healthy_ids_distinct with (w_conf w)|].
  repeat case_match; try constructor. by apply NoDup_filter_ids, healthy_ids_distinct with (w_conf w).
Qed.

(** The filters after a stage that left the nodes [ns]. *)
Lemma after_filters c ns : NoDup (ID <$> ns) -> let ok := filter (fun n => fits c n = true) ns in
  (exists e, runFilter w (SetNodes ns c) (NewSelector w) = (Err e, SetNodes ns c) /\ (request_ok c -> ok = [] /\ e = ErrNoRes)) \/
  (runFilter w (SetNodes ns c) (NewSelector w) = (Ok tt, SetNodes ok c) /\ ok <> []).
Proof.
  intros Hnd ok. destruct (runFilter_spec c ns Hnd) as [H1 H2]. fold ok in H1, H2.
  destruct (runFilter w (SetNodes ns c) (NewSelector w)) as [[[]|e] c1] eqn:E.
  - right. destruct (H2 c1 eq_refl) as [-> ?]. done.
  - left. exists e. revert E. unfold runFilter. destruct (parallelRunFilters w (SetNodes ns c) (NewSelector w)) as [[|]|]; intros [= <- <-];
      (split; [done|]); intros Hok; specialize (H1 Hok); destruct ok; try done; by injection H1.
Qed.

Lemma candidates_nodup c : cache_wf (w_conf w) (w_nodes w) -> NoDup (ID <$> candidates c).
Proof.
  intros Hwf. destruct (candidates_distinct c Hwf) as [H1 H2]. unfold candidates. destruct (prefilter_Select w c); [|done].
  destruct (shouldSkipBackoffForTemplate w c); [constructor|done].
Qed.

(** The stages in order: without candidates nothing is found; otherwise the
    filters decide whether scores and the draw follow, or the backoff. *)
Lemma Select_stages c : cache_wf (w_conf w) (w_nodes w) ->
  match candidates c with
  | [] => exists c', Select w c = (Err ErrNoRes, c')
  | ns =>
      let ok := filter (fun n => fits c n = true) ns in
      (exists e, (request_ok c -> ok = [] /\ e = ErrNoRes) /\
         Select w c = if shouldSkipBackoffForTemplate w c then (Err e, SetNodes ns c) else BackoffSelect w (SetNodes ns c)) \/
      (ok <> [] /\ Select w c = match runScoreFilter w (SetNodes ok c) with
                               | (Err e, c) => (Err e, c)
                               | (Ok _, c) => LeastRandomSelect w (PrioritySelectNum (w_conf w)) c
                               end)
  end.
Proof.
  intros Hwf. pose proof (candidates_nodup c Hwf) as Hnd. unfold Select, runPreFilter, runBackoffFilter, non_empty.
  unfold candidates in *. change (shouldSkipBackoffForTemplate w (SetNodes (prefilter_Select w c) c)) with (shouldSkipBackoffForTemplate w c).
  destruct (prefilter_Select w c) as [|n ns].
  - destruct (shouldSkipBackoffForTemplate w c) eqn:Es; [by eexists|].
    change (backofffilter_Select w (SetNodes [] c)) with (backofffilter_Select w c).
    destruct (backofffilter_Select w c) as [|n ns]; [by eexists|]. cbn [fst snd].
    change (SetNodes (n :: ns) (SetNodes [] c)) with (SetNodes (n :: ns) c).
    destruct (after_filters c (n :: ns) Hnd) as [(e & -> & He)|[-> Hok]].
    + left. exists e. split; [exact He|]. change (shouldSkipBackoffForTemplate w (SetNodes _ c)) with (shouldSkipBackoffForTemplate w c).
      by rewrite Es.
    + by right.
  - destruct (after_filters c (n :: ns) Hnd) as [(e & -> & He)|[-> Hok]].
    + left. by exists e.
    + by right.
Qed.

(** ** What a placement guarantees *)

Lemma healthy_nodes_all k product n : n ∈ healthy_nodes w k product -> n ∈ healthy_nodes w (-1) product.
Proof.
  assert (forall ns, n ∈ healthy_loop (w_interval w) (w_now w) k ns [] -> n ∈ healthy_loop (w_interval w) (w_now w) (-1) ns []) as Hl.
  { intros ns. rewrite !healthy_loop_spec. cbn zeta. rewrite !app_nil_l. cbn [Z.ltb Z.compare].
    destruct (k <? 0); [done|]. intros (i & Hi & _)%elem_of_take. by eapply list_elem_of_lookup_2. }
  unfold healthy_nodes, GetHealthyNodesByInstanceType, GetHealthyNodes. destruct (sortedNodesByClusters _ !! _); apply Hl.
Qed.

Lemma backoff_cases c n : n ∈ backofffilter_Select w c ->
  n ∈ healthy_nodes w (-1) (ctx_InstanceType c) /\ MvmNum (metrics n) < RealMaxMvmLimit (w_conf w) n.
Proof.
  unfold backofffilter_Select. repeat case_match; try by intros ?%not_elem_of_nil. intros [Hok Hin]%list_elem_of_filter.
  split; [done|]. revert Hok. unfold backoff_ok. rewrite !andb_true_iff. intros [[_ ?%negb_true_iff%Z.leb_gt] _]. lia.
Qed.

Lemma candidate_cases c n : n ∈ candidates c ->
  n ∈ healthy_nodes w (-1) (ctx_InstanceType c) /\ MvmNum (metrics n) < RealMaxMvmLimit (w_conf w) n /\
  (prefilter_ok w c n = true \/ prefilter_Select w c = [] /\ shouldSkipBackoffForTemplate w c = false /\ n ∈ backofffilter_Select w c).
Proof.
  assert (forall x, x ∈ prefilter_Select w c -> x ∈ healthy_nodes w (-1) (ctx_InstanceType c) /\
    MvmNum (metrics x) < RealMaxMvmLimit (w_conf w) x /\ prefilter_ok w c x = true) as Hp.
  { intros x [Hok Hx]%list_elem_of_filter. split; [by eapply healthy_nodes_all|]. split; [|done].
    revert Hok. unfold prefilter_ok. rewrite !andb_true_iff. intros [[[_ ?%negb_true_iff%Z.leb_gt] _] _]. lia. }
  unfold candidates. destruct (prefilter_Select w c) as [|x xs] eqn:E.
  - destruct (shouldSkipBackoffForTemplate w c); [by intros ?%not_elem_of_nil|]. intros Hn.
    destruct (backoff_cases c n Hn). split; [done|]. split; [done|]. by right.
  - intros Hn. destruct (Hp n Hn) as (H1 & H2 & H3). split; [done|]. split; [done|]. by left.
Qed.

Lemma BackoffSelect_in c ns n c' : BackoffSelect w (SetNodes ns c) = (Ok (Some n), c') -> n ∈ backofffilter_Select w c.
Proof.
  unfold BackoffSelect, runBackoffFilter, non_empty. change (backofffilter_Select w (SetNodes ns c)) with (backofffilter_Select w c).
  destruct (backofffilter_Select w c) as [|x xs]; [done|]. cbn [SetNodes result fst snd].
  destruct ((x :: xs) !! _) as [y|] eqn:E; [|done]. intros [= <- _]. by eapply list_elem_of_lookup_2.
Qed.

(** What scores and the draw return is among the nodes they were given. *)
Lemma scored_draw_in c ok n c' : fresh c -> ok <> [] ->
  match runScoreFilter w (SetNodes ok c) with
  | (Err e, c) => (Err e, c)
  | (Ok _, c) => LeastRandomSelect w (PrioritySelectNum (w_conf w)) c
  end = (Ok (Some n), c') -> n ∈ ok.
Proof.
  intros [Hi Hs] Hok. destruct (runScoreFilter w (SetNodes ok c)) as [[[]|e] c1] eqn:E; [|done].
  destruct (runScoreFilter_spec _ _ _ E Hs) as (Hi1 & Hc1 & _). intros Hd%draw_in; [|by rewrite Hi1].
  revert Hd. unfold drawable. destruct Hc1 as [->|[Hne Hin]]; [cbn [SetNodes resultWithScore]; by rewrite Hs|].
  destruct (resultWithScore c1) as [|s ss]; [done|]. intros (x & -> & Hx)%list_elem_of_fmap.
  rewrite Forall_forall in Hin. exact (Hin _ Hx).
Qed.

(** C4: safety of placement.  When the cache is well formed and the request has not
    been tried before, a node that [Select] returns is one of the healthy nodes of
    the product with room for one more machine, and either it passed the
    pre-filter and every enabled filter, or it comes from the backoff selector of
    the request, which is used only for a request without template locality and
    only when the pre-filter left nothing or the filters rejected every candidate. *)
Theorem select_sound c n c' :
  cache_wf (w_conf w) (w_nodes w) -> fresh c -> Select w c = (Ok (Some n), c') ->
  n ∈ healthy_nodes w (-1) (ctx_InstanceType c) /\ MvmNum (metrics n) < RealMaxMvmLimit (w_conf w) n /\
  (prefilter_ok w c n = true /\ fits c n = true \/
   shouldSkipBackoffForTemplate w c = false /\ n ∈ backofffilter_Select w c /\
   (prefilter_Select w c = [] /\ fits c n = true \/ (request_ok c -> Forall (fun m => fits c m = false) (candidates c)))).
Proof.
  intros Hwf Hf Hsel. pose proof (Select_stages c Hwf) as Hst. destruct (candidates c) as [|x xs] eqn:Ec.
  { destruct Hst as [? Hst]. by rewrite Hst in Hsel. }
  cbn zeta in Hst. rewrite <- Ec in Hst. destruct Hst as [(e & He & Hst)|[Hok Hst]]; rewrite Hst in Hsel.
  - destruct (shouldSkipBackoffForTemplate w c) eqn:Es; [done|]. apply BackoffSelect_in in Hsel.
    destruct (backoff_cases c n Hsel). split_and!; [done|done|right]. split_and!; [done|done|right]. intros [Hnil _]%He.
    apply Forall_forall. intros m Hm. rewrite <- Ec in Hm. apply not_true_iff_false. intros Hfit.
    apply (not_elem_of_nil m). rewrite <- Hnil. by apply list_elem_of_filter.
  - apply scored_draw_in in Hsel; [|done|done]. apply list_elem_of_filter in Hsel as [Hfit Hin].
    destruct (candidate_cases c n Hin) as (H1 & H2 & [H3|(H3 & H4 & H5)]); split_and!; try done; [by left|].
    right. split_and!; [done|done|by left].
Qed.

(** C12: placement succeeds when it can: if every filter can judge the request, the draw
    is the plain random one over at least one node, and some candidate passes the
    filters, then [Select] returns a candidate that passes them. *)
Theorem select_finds_node c m :
  cache_wf (w_conf w) (w_nodes w) -> fresh c -> request_ok c -> random_draw -> PrioritySelectNum (w_conf w) <> 0 ->
  m ∈ candidates c -> fits c m = true ->
  exists n c', Select w c = (Ok (Some n), c') /\ n ∈ candidates c /\ fits c n = true.
Proof.
  intros Hwf Hf Hreq Hr Hk Hm Hfit. pose proof (Select_stages c Hwf) as Hst.
  destruct (candidates c) as [|x xs] eqn:Ec; [by apply not_elem_of_nil in Hm|]. cbn zeta in Hst. rewrite <- Ec in Hst, Hm |- *.
  set (ok := filter (fun n => fits c n = true) (candidates c)) in *.
  assert (m ∈ ok) as Hmok by (by apply list_elem_of_filter).
  destruct Hst as [(e & He & _)|[Hok Hst]]; [destruct (He Hreq) as [E _]; rewrite E in Hmok; by apply not_elem_of_nil in Hmok|].
  assert (exists n c', Select w c = (Ok (Some n), c')) as (n & c' & Hs).
  { rewrite Hst. destruct (runScoreFilter w (SetNodes ok c)) as [r c1] eqn:E. destruct Hf as [Hi Hrs].
    destruct (runScoreFilter_spec _ _ _ E Hrs) as (Hi1 & Hc1 & Hr1). rewrite (Hr1 Hok).
    apply draw_some; [by rewrite Hi1|done|done|]. unfold drawable. destruct Hc1 as [->|[Hne _]]; [cbn; by rewrite Hrs|].
    by destruct (resultWithScore c1). }
  exists n, c'. split; [done|]. rewrite Hst in Hs. apply scored_draw_in in Hs; [|done|done].
  apply list_elem_of_filter in Hs. tauto.
Qed.

(** Template locality.  A request for a template, with the locality filter enabled,
    is placed only on a node the template view lists for it, inside the request's
    node scope, and, when snapshot storage is enforced, on one that accepts
    snapshot writes; without such a candidate there is no placement. *)
Theorem select_keeps_template c r n c' :
  cache_wf (w_conf w) (w_nodes w) -> fresh c -> ReqRes c = Some r -> rr_TemplateID r <> "" ->
  FTemplateLocality ∈ NewSelector w -> Select w c = (Ok (Some n), c') ->
  is_Some (GetImageStateByNode (rr_TemplateID r) (ID n) (w_templates w)) /\ templateNodeAllowed r n = true /\
  (EnforceSnapshotStorage r = true -> snapshotStorageNodeAllowed w n = true) /\ prefilter_ok w c n = true.
Proof.
  intros Hwf Hf Hr Hid Hin Hsel.
  assert (shouldSkipBackoffForTemplate w c = true) as Hskip.
  { unfold shouldSkipBackoffForTemplate. rewrite Hr, bool_decide_eq_false_2 by done. cbn.
    apply existsb_exists. exists FTemplateLocality. by rewrite <- list_elem_of_In. }
  assert (n ∈ candidates c /\ fits c n = true) as [Hc Hfit].
  { pose proof (Select_stages c Hwf) as Hst. destruct (candidates c) as [|x xs] eqn:Ec; [destruct Hst as [? Hst]; by rewrite Hst in Hsel|].
    cbn zeta in Hst. rewrite <- Ec in *. destruct Hst as [(e & _ & Hst)|[Hok Hst]]; rewrite Hst in Hsel; [by rewrite Hskip in Hsel|].
    apply scored_draw_in in Hsel; [|done|done]. apply list_elem_of_filter in Hsel. tauto. }
  destruct (candidate_cases c n Hc) as (_ & _ & [Hpre|(_ & Hno & _)]); [|congruence].
  unfold fits in Hfit. rewrite forallb_forall in Hfit. specialize (Hfit FTemplateLocality). rewrite <- list_elem_of_In in Hfit.
  specialize (Hfit Hin). cbn in Hfit. rewrite Hr, bool_decide_eq_false_2 in Hfit by done.
  unfold template_ok in Hfit. rewrite !andb_true_iff, bool_decide_eq_true in Hfit. destruct Hfit as [[H1 H2] H3].
  split_and!; [done|done| |done]. intros He. by rewrite He in H3.
Qed.

End Props.

(** ** A placement *)

#[local] Existing Instance demo_runtime.
#[local] Existing Instance demo_sort.
#[local] Existing Instance demo_quantity.

(** The first item is drawn each time. *)
#[local] Program Instance demo_draw : Draw := {| Intn := fun _ => 0%nat; weighted_next := fun _ _ => Err "" |}.
Solve All Obligations with (cbn; intros; done).

Definition demo_placing : SchedulerConf Z :=
  MkSched None 10 f64_one 100 (f64_of_Z 95) 20 5 "" 100 100 ["cpu"; "mem"; "template_locality"; "disk"] None None false ∅ "" 0 "" 0
    (f64_of_Z 90) ∅ ∅ ∅ ∅ {[ "box" := {[ "l1" ]} ]} [] None None ∅ {[ "l1" := "box" ]}.
Definition demo_cache : local := (syncAllFromDB demo_placing false demo_nodes (Init demo_placing 1)).2.
Definition demo_world : World Z := MkWorld demo_placing 50 30 9 demo_cache demo_templates ∅.
Definition demo_affinity : Affinity := MkAffinity None None None.
Definition demo_request (template : string) : SelectorCtx Z :=
  MkCtx (Some (MkRes 1 (2 ^ 20) false None template [] false)) [] [] [] [] demo_affinity "box".
Definition demo_choice (r : res (option Node) * SelectorCtx Z) : res (option string) :=
  let! n := r.1 in Ok (ID <$> n).

Lemma demo_cache_wf : cache_wf demo_placing demo_cache.
Proof.
  destruct (first_load_tame demo_placing demo_lab demo_nodes (Init demo_placing 1)) as (l & E & H).
  - apply Init_tame.
  - repeat constructor; done.
  - repeat constructor; set_solver.
  - intros; apply lookup_empty.
  - unfold demo_cache, syncAllFromDB. rewrite E. apply H.
Qed.

Lemma select_sound_witness :
  exists n c', Select demo_world (demo_request "") = (Ok (Some n), c') /\ ID n = "h1" /\ prefilter_ok demo_world (demo_request "") n = true.
Proof.
  destruct (Select demo_world (demo_request "")) as [r c'] eqn:E.
  assert (exists n, r = Ok (Some n) /\ ID n = "h1") as (n & -> & Hn).
  { apply (f_equal fst) in E. vm_compute in E. subst r. eexists. split; reflexivity. }
  exists n, c'. split; [done|]. split; [done|].
  destruct (select_sound demo_world (demo_request "") n c' demo_cache_wf (conj eq_refl eq_refl) E) as (_ & _ & [[H _]|(_ & H & _)]); [done|].
  assert (backofffilter_Select demo_world (demo_request "") = []) as Hb by reflexivity. rewrite Hb in H. destruct (not_elem_of_nil _ H).
Defined.

Lemma demo_fits : exists m, m ∈ candidates demo_world (demo_request "") /\ fits demo_world (demo_request "") m = true.
Proof.
  assert (match candidates demo_world (demo_request "") with m :: _ => fits demo_world (demo_request "") m = true | [] => False end) as H
    by (by vm_compute).
  destruct (candidates demo_world (demo_request "")) as [|m ms]; [done|]. exists m. split; [by left|done].
Qed.

Lemma select_finds_node_witness : exists n c', Select demo_world (demo_request "") = (Ok (Some n), c').
Proof.
  destruct demo_fits as (m & Hm & Hf).
  destruct (select_finds_node demo_world (demo_request "") m demo_cache_wf (conj eq_refl eq_refl)) as (n & c' & E & _); [| | |done|done|by exists n, c'].
  - intros f _. by destruct f.
  - unfold random_draw. cbn. set_solver.
  - done.
Defined.

Lemma select_keeps_template_witness :
  exists n c', Select demo_world (demo_request "tpl") = (Ok (Some n), c') /\ is_Some (GetImageStateByNode "tpl" (ID n) demo_templates).
Proof.
  destruct (Select demo_world (demo_request "tpl")) as [r c'] eqn:E.
  assert (exists n, r = Ok (Some n)) as (n & ->).
  { apply (f_equal fst) in E. vm_compute in E. subst r. eexists. reflexivity. }
  exists n, c'. split; [done|].
  apply (select_keeps_template demo_world (demo_request "tpl") (MkRes 1 (2 ^ 20) false None "tpl" [] false) n c' demo_cache_wf
    (conj eq_refl eq_refl)); [done|done| |exact E].
  change (NewSelector demo_world) with [FCpu; FMem; FTemplateLocality; FDisk]. right. right. left.
Defined.

(** Defect: a request's context keeps the nodes of earlier draws.  After a failed
    creation the caller marks the node as bad and selects again with the same
    context: the pre-filter leaves the bad node out, and the draw can return it
    all the same. *)
Theorem retry_picks_bad_node :
  let first := Select demo_world (demo_request "") in
  let bad := match first.1 with Ok (Some n) => AddLastBadNode n first.2 | _ => first.2 end in
  demo_choice first = Ok (Some "h1") /\ lastBad bad = ["h1"] /\
  (ID <$> prefilter_Select demo_world bad) = ["h2"] /\
  demo_choice (Select demo_world bad) = Ok (Some "h1").
Proof. by vm_compute. Qed.

(** Defect: a node that is in a product's list twice (it was removed and added
    again) is voted for twice by every filter and is never placed on. *)
Theorem listed_twice_never_placed :
  let l := (each (run_op demo_placing)
    [OpEvent 9 DEL ["h1"] (Err ""); OpEvent 9 ADD ["h1"] (Ok [demo_node 1 "h1" "l1" true]);
     OpEvent 9 UPDATE ["h2"] (Ok [demo_node 2 "h2" "l1" false])] demo_cache).2 in
  let w := MkWorld demo_placing 50 30 9 l demo_templates ∅ in
  (ID <$> candidates w (demo_request "")) = ["h1"; "h1"] /\
  demo_choice (Select w (demo_request "")) = Err ErrNoRes.
Proof. by vm_compute. Qed.
