(* ===== verification/MasterQueue.v ===== *)
(** * Admission of creations
    (CubeMaster/pkg/base/semaphore, base/bufferqueue, base/recov,
    scheduler/local.go)

    Creations wait in a queue per product, ordered by arrival, and run under a
    semaphore whose limit follows the number of healthy nodes.  The semaphore
    keeps two lists of waiters; an element of a list is known by its identity,
    which changes when it is moved to the other list, because the code removes a
    waiter that gives up through the element it got when it joined.  No sum leaves
    the range of int64: what is granted never exceeds a limit. *)
From S2P Require Import Prelude GoStrings GoValue MasterConfig MasterNodes.

Open Scope string_scope.
Open Scope Z_scope.

(** ** The semaphore *)

(** [w_ready] names the channel the waiter listens to. *)
Record waiter : Type := MkWaiter { w_elem : nat; w_ready : nat; w_n : Z }.

(** [closed] are the channels that were closed, [fresh_elem] is above every element. *)
Record Weighted : Type := MkWeighted {
  sem_size : Z; cur : Z; waiters : list waiter; impossibleWaiters : list waiter;
  closed : list nat; fresh_elem : nat;
}.

Definition NewWeighted (n : Z) : Weighted := MkWeighted n 0 [] [] [] 0.

(** The loop at the end of [Release] and [SetLimit]: waiters are served from the
    front while they fit. *)
Fixpoint notify (ws : list waiter) (limit cur : Z) : list nat * Z * list waiter :=
  match ws with
  | [] => ([], cur, [])
  | w :: rest =>
      if limit - cur <? w_n w then ([], cur, ws)
      else let '(granted, cur, ws) := notify rest limit (cur + w_n w) in (w_ready w :: granted, cur, ws)
  end.

Definition serve (s : Weighted) : Weighted :=
  let '(granted, c, ws) := notify (waiters s) (sem_size s) (cur s) in
  MkWeighted (sem_size s) c ws (impossibleWaiters s) (closed s ++ granted) (fresh_elem s).

Inductive acquiring : Type := Granted | Queued (impossible : bool) (elem : nat).

(** [Acquire] up to the point where it waits; [ready] is its new channel. *)
Definition Acquire (ready : nat) (n : Z) (s : Weighted) : acquiring * Weighted :=
  if (n <=? sem_size s - cur s) && (length (waiters s) =? 0)%nat
  then (Granted, MkWeighted (sem_size s) (cur s + n) (waiters s) (impossibleWaiters s) (closed s) (fresh_elem s))
  else
    let e := fresh_elem s in
    let w := MkWaiter e ready n in
    if sem_size s <? n
    then (Queued true e, MkWeighted (sem_size s) (cur s) (waiters s) (impossibleWaiters s ++ [w]) (closed s) (S e))
    else (Queued false e, MkWeighted (sem_size s) (cur s) (waiters s ++ [w]) (impossibleWaiters s) (closed s) (S e)).

(** [list.Remove]: nothing happens when the element is no longer in that list. *)
Definition remove_elem (e : nat) (ws : list waiter) : list waiter := filter (fun w => w_elem w <> e) ws.

(** The context of a waiter ends: it holds the permit after all, or it leaves the
    list it had joined. *)
Definition Acquire_cancel (ready : nat) (impossible : bool) (e : nat) (s : Weighted) : bool * Weighted :=
  if bool_decide (ready ∈ closed s) then (true, s)
  else
    (false,
     if impossible
     then MkWeighted (sem_size s) (cur s) (waiters s) (remove_elem e (impossibleWaiters s)) (closed s) (fresh_elem s)
     else MkWeighted (sem_size s) (cur s) (remove_elem e (waiters s)) (impossibleWaiters s) (closed s) (fresh_elem s)).

Definition TryAcquire (n : Z) (s : Weighted) : bool * Weighted :=
  if (n <=? sem_size s - cur s) && (length (waiters s) =? 0)%nat
  then (true, MkWeighted (sem_size s) (cur s + n) (waiters s) (impossibleWaiters s) (closed s) (fresh_elem s))
  else (false, s).

(** [true] is the panic for a permit nobody held. *)
Definition Release (n : Z) (s : Weighted) : bool * Weighted :=
  let s' := MkWeighted (sem_size s) (cur s - n) (waiters s) (impossibleWaiters s) (closed s) (fresh_elem s) in
  if cur s' <? 0 then (true, s') else (false, serve s').

(** Moved waiters are new elements. *)
Fixpoint relabel (e : nat) (ws : list waiter) : list waiter :=
  match ws with
  | [] => []
  | w :: ws => MkWaiter e (w_ready w) (w_n w) :: relabel (S e) ws
  end.

Definition SetLimit (n : Z) (s : Weighted) : bool * Weighted :=
  if sem_size s =? n then (false, s)
  else if n <? 0 then (true, MkWeighted n (cur s) (waiters s) (impossibleWaiters s) (closed s) (fresh_elem s))
  else
    let up := filter (fun w => w_n w <= n) (impossibleWaiters s) in
    let imp := filter (fun w => ~ w_n w <= n) (impossibleWaiters s) in
    let ws := (waiters s ++ relabel (fresh_elem s) up)%list in
    let e := (fresh_elem s + length up)%nat in
    let down := filter (fun w => ~ w_n w <= n) ws in
    (false, serve (MkWeighted n (cur s) (filter (fun w => w_n w <= n) ws) (imp ++ relabel e down) (closed s) (e + length down))).

(** ** Its clients *)

Inductive client : Type :=
  | Waiting (impossible : bool) (elem : nat)
  | Holding
  | Finished.

(** Clients are named by their channels; each asks for one permit. *)
Record clients : Type := MkClients { sem : Weighted; who : gmap nat client }.

Inductive sem_step : clients -> clients -> Prop :=
  | step_acquire t r s' c : who c !! t = None -> Acquire t 1 (sem c) = (r, s') ->
      sem_step c (MkClients s' (<[t := match r with Granted => Holding | Queued i e => Waiting i e end]> (who c)))
  | step_try t s' c : who c !! t = None -> TryAcquire 1 (sem c) = (true, s') ->
      sem_step c (MkClients s' (<[t := Holding]> (who c)))
  | step_woken t i e c : who c !! t = Some (Waiting i e) -> t ∈ closed (sem c) ->
      sem_step c (MkClients (sem c) (<[t := Holding]> (who c)))
  | step_cancel t i e ok s' c : who c !! t = Some (Waiting i e) -> Acquire_cancel t i e (sem c) = (ok, s') ->
      sem_step c (MkClients s' (<[t := if ok : bool then Holding else Finished]> (who c)))
  | step_release t p s' c : who c !! t = Some Holding -> Release 1 (sem c) = (p, s') ->
      sem_step c (MkClients s' (<[t := Finished]> (who c)))
  | step_limit n p s' c : 1 <= n -> SetLimit n (sem c) = (p, s') -> sem_step c (MkClients s' (who c)).

(** ** The queue of a product *)

Record Item : Type := MkItem { value : nat; priority : Z }.

(** [running] are the handlers at work and [served] those that have returned;
    [crashed] is a panic that ends the process. *)
Record bufferQueue : Type := MkQueue {
  queue : list Item; limiter : Weighted; working : Z; running : list nat; served : list nat; crashed : bool;
}.

Definition New (limit : Z) : bufferQueue := MkQueue [] (NewWeighted (if limit <=? 0 then 10 else limit)) 0 [] [] false.

Definition with_limiter (s : Weighted) (q : bufferQueue) : bufferQueue :=
  MkQueue (queue q) s (working q) (running q) (served q) (crashed q).

(** [heap.Pop]: an item of least priority.  Of several it gives any; here it is the one
    pushed first, and no theorem rests on which. *)
Fixpoint pop_min (q : list Item) : option (Item * list Item) :=
  match q with
  | [] => None
  | x :: rest =>
      match pop_min rest with
      | Some (y, ys) => if priority y <? priority x then Some (y, x :: ys) else Some (x, rest)
      | None => Some (x, [])
      end
  end.

Definition Push (x : nat) (now : Z) (q : bufferQueue) : bufferQueue :=
  MkQueue (queue q ++ [MkItem x now]) (limiter q) (working q) (running q) (served q) (crashed q).

(** One turn of the loop in [start]. *)
Definition dispatch (q : bufferQueue) : bufferQueue :=
  match queue q with
  | [] => q
  | _ =>
      let '(ok, s) := TryAcquire 1 (limiter q) in
      if ok then
        match pop_min (queue q) with
        | Some (x, rest) => MkQueue rest s (working q + 1) (value x :: running q) (served q) (crashed q)
        | None => with_limiter (Release 1 s).2 q
        end
      else q
  end.

Fixpoint take_out (x : nat) (l : list nat) : list nat :=
  match l with
  | [] => []
  | y :: l => if bool_decide (x = y) then l else y :: take_out x l
  end.

(** [DecrWorking], then [Release]. *)
Definition give_back (q : bufferQueue) : bufferQueue :=
  let '(p, s) := Release 1 (limiter q) in
  MkQueue (queue q) s (working q - 1) (running q) (served q) (crashed q || p).

Definition leave (x : nat) (q : bufferQueue) : bufferQueue :=
  MkQueue (queue q) (limiter q) (working q) (take_out x (running q)) (x :: served q) (crashed q).

(** A handler returns, or panics: then its deferred calls run, and the recovery
    handler returns a permit once more. *)
Definition handler_done (x : nat) (q : bufferQueue) : bufferQueue :=
  if bool_decide (x ∈ running q) then give_back (leave x q) else q.
Definition handler_panics (x : nat) (q : bufferQueue) : bufferQueue :=
  if bool_decide (x ∈ running q) then give_back (give_back (leave x q)) else q.

Definition queue_SetLimit (n : Z) (q : bufferQueue) : bufferQueue := with_limiter (SetLimit n (limiter q)).2 q.

(** ** The limit of a product ([monitorLimit]) *)

Section Monitor.
Context {GR : GoRuntime}.

(** [int64(math.Ceil(float64(z)))] of a quotient of integers. *)
Definition ceil_int (z : Z) : Z := f64_to_int (f64_ceil (f64_of_Z z)).

(** [nodes] are the healthy nodes of the product, [createLimit] is the one configured. *)
Definition create_limit (createLimit masters : Z) (nodes : list Node) : option Z :=
  let total := foldl (fun acc n => wrap64 (acc + CreateConcurrentLimit createLimit n)) 0 nodes in
  let healthy := Z.of_nat (length nodes) in
  if healthy <=? 0 then None
  else
    let every := Z.max (ceil_int (total ÷ healthy)) createLimit in
    Some (ceil_int (wrap64 (healthy * every) ÷ masters)).

Record buffertask : Type := MkTask { bufferQ : bufferQueue; lastCreateConcurrentLimit : Z }.

Definition monitor_create (createLimit masters : Z) (nodes : list Node) (t : buffertask) : buffertask :=
  match create_limit createLimit masters nodes with
  | None => t
  | Some n => if lastCreateConcurrentLimit t =? n then t else MkTask (queue_SetLimit n (bufferQ t)) n
  end.

End Monitor.

(** ** What the semaphore guarantees *)

Lemma notify_spec ws limit : Forall (fun w => w_n w = 1) ws -> forall c,
  let '(granted, c', rest) := notify ws limit c in
  exists front, ws = (front ++ rest)%list /\ granted = w_ready <$> front /\ c' = c + Z.of_nat (length front) /\
    (rest = [] \/ limit <= c') /\ (front <> [] -> c' <= limit).
Proof.
  induction ws as [|w ws IH]; intros H1 c; cbn [notify].
  - exists []. cbn. split_and!; [done|done|lia|by left|done].
  - apply Forall_cons in H1 as [Hw H1]. rewrite Hw. destruct (Z.ltb_spec (limit - c) 1).
    + exists []. cbn. split_and!; [done|done|lia|right; lia|done].
    + specialize (IH H1 (c + 1)). destruct (notify ws limit (c + 1)) as [[g c'] rest].
      destruct IH as (front & -> & -> & -> & Hr & Hf). exists (w :: front). cbn [length app fmap list_fmap].
      split_and!; [done|done|lia|done|]. intros _. destruct front; [cbn; lia|]. apply Hf. done.
Qed.

Lemma serve_spec s : Forall (fun w => w_n w = 1) (waiters s) ->
  exists front, waiters s = (front ++ waiters (serve s))%list /\ closed (serve s) = (closed s ++ (w_ready <$> front))%list /\
    cur (serve s) = cur s + Z.of_nat (length front) /\ (waiters (serve s) = [] \/ sem_size s <= cur (serve s)) /\
    (front <> [] -> cur (serve s) <= sem_size s) /\ sem_size (serve s) = sem_size s /\
    impossibleWaiters (serve s) = impossibleWaiters s /\ fresh_elem (serve s) = fresh_elem s.
Proof.
  intros H. pose proof (notify_spec (waiters s) (sem_size s) H (cur s)) as Hn. unfold serve.
  destruct (notify _ _ _) as [[g c'] rest]. cbn. destruct Hn as (front & Hw & -> & Hc & Hr & Hf). exists front. by split_and!.
Qed.

(** [holders]: the clients that hold a permit or were handed one. *)
Definition holders_are (c : clients) (hs : gset nat) : Prop :=
  forall t, t ∈ hs <-> who c !! t = Some Holding \/ (exists i e, who c !! t = Some (Waiting i e)) /\ t ∈ closed (sem c).

Record sem_ok (c : clients) : Prop := {
  so_size : 1 <= sem_size (sem c);
  so_none : impossibleWaiters (sem c) = [];
  so_units : Forall (fun w => w_n w = 1) (waiters (sem c));
  so_ready : NoDup (w_ready <$> waiters (sem c));
  so_elems : NoDup (w_elem <$> waiters (sem c));
  so_fresh : Forall (fun w => (w_elem w < fresh_elem (sem c))%nat) (waiters (sem c));
  so_waits : forall w, w ∈ waiters (sem c) -> who c !! w_ready w = Some (Waiting false (w_elem w)) /\ w_ready w ∉ closed (sem c);
  so_queued : forall t i e, who c !! t = Some (Waiting i e) -> t ∉ closed (sem c) ->
    exists w, w ∈ waiters (sem c) /\ w_ready w = t /\ w_elem w = e /\ i = false;
  so_known : forall t, t ∈ closed (sem c) -> is_Some (who c !! t);
  so_count : exists hs, holders_are c hs /\ cur (sem c) = Z.of_nat (size hs);
  so_busy : waiters (sem c) = [] \/ sem_size (sem c) <= cur (sem c);
}.

Lemma sem_ok_init n : 1 <= n -> sem_ok (MkClients (NewWeighted n) ∅).
Proof.
  intros Hn. split; cbn; try done.
  - constructor.
  - constructor.
  - intros w Hw. by apply not_elem_of_nil in Hw.
  - intros t Ht. by apply not_elem_of_nil in Ht.
  - exists ∅. split; [|by rewrite size_empty]. intros t. cbn. rewrite lookup_empty. set_solver.
  - by left.
Qed.

(** Serving the waiters keeps the invariant, whatever the count and the limit were. *)
Lemma sem_ok_serve s m hs : 1 <= sem_size s -> impossibleWaiters s = [] -> Forall (fun w => w_n w = 1) (waiters s) ->
  NoDup (w_ready <$> waiters s) -> NoDup (w_elem <$> waiters s) ->
  Forall (fun w => (w_elem w < fresh_elem s)%nat) (waiters s) ->
  (forall w, w ∈ waiters s -> m !! w_ready w = Some (Waiting false (w_elem w)) /\ w_ready w ∉ closed s) ->
  (forall t i e, m !! t = Some (Waiting i e) -> t ∉ closed s -> exists w, w ∈ waiters s /\ w_ready w = t /\ w_elem w = e /\ i = false) ->
  (forall t, t ∈ closed s -> is_Some (m !! t)) -> holders_are (MkClients s m) hs -> cur s = Z.of_nat (size hs) ->
  sem_ok (MkClients (serve s) m).
Proof.
  intros Hs Hi Hu Hr He Hf Hw Hq Hk Hh Hc.
  destruct (serve_spec s Hu) as (front & Ews & Ecl & Ecur & Hbusy & _ & Esz & Eimp & Efr).
  rewrite Ews in Hu, Hr, He, Hf, Hw, Hq. set (rest := waiters (serve s)) in *. rewrite !fmap_app in *.
  apply Forall_app in Hu as [_ Hu]. apply Forall_app in Hf as [_ Hf].
  apply NoDup_app in Hr as (Hr1 & Hdisj & Hr2). apply NoDup_app in He as (_ & _ & He).
  assert (forall w, w ∈ front -> m !! w_ready w = Some (Waiting false (w_elem w)) /\ w_ready w ∉ closed s) as Hwf.
  { intros w Hin. apply Hw, elem_of_app. by left. }
  split; cbn [sem who]; try rewrite Esz; try rewrite Ecl; try rewrite Eimp; try rewrite Efr; try done.
  - intros w Hin. destruct (Hw w) as [H1 H2]; [apply elem_of_app; by right|]. split; [done|].
    rewrite elem_of_app. intros [?|Hin2]; [done|]. apply (Hdisj _ Hin2). by apply list_elem_of_fmap_2.
  - intros t i e Ht Hn. rewrite elem_of_app in Hn. destruct (Hq t i e Ht) as (w & Hin & <- & <- & Hi'); [tauto|].
    apply elem_of_app in Hin as [Hin|Hin]; [|by exists w]. destruct Hn. right. by apply list_elem_of_fmap_2.
  - intros t. rewrite elem_of_app. intros [?|(w & -> & Hin)%list_elem_of_fmap]; [by apply Hk|]. destruct (Hwf w Hin). eauto.
  - exists (hs ∪ list_to_set (w_ready <$> front)). split.
    + intros t. rewrite elem_of_union, (Hh t), elem_of_list_to_set. cbn [who sem]. rewrite Ecl, elem_of_app. split.
      * intros [[?|[? ?]]|Hin]; [by left|by right; split; [|left]|]. right. split; [|by right].
        apply list_elem_of_fmap in Hin as (w & -> & Hin). destruct (Hwf w Hin). eauto.
      * intros [?|[? [?|?]]]; [by left; left|by left; right|by right].
    + rewrite size_union; [rewrite Ecur, Hc, size_list_to_set by done; rewrite length_fmap; lia|].
      intros t Ht (w & -> & Hin)%elem_of_list_to_set%list_elem_of_fmap. destruct (Hwf w Hin) as [H1 H2].
      apply (Hh (w_ready w)) in Ht. cbn in Ht. rewrite H1 in Ht. naive_solver.
Qed.

Lemma holders_insert c s' t st hs : who c !! t = None \/ t ∉ closed (sem c) -> closed s' = closed (sem c) ->
  (forall i e, st = Waiting i e -> t ∉ closed s') -> holders_are c hs ->
  holders_are (MkClients s' (<[t := st]> (who c))) (match st with Holding => hs ∪ {[t]} | _ => hs ∖ {[t]} end).
Proof.
  intros _ Hcl Hst Hh x. cbn [who sem]. rewrite Hcl in *. destruct (decide (x = t)) as [->|Hx].
  - rewrite lookup_insert_eq. destruct st as [i e| |]; [|set_solver|].
    + rewrite elem_of_difference, elem_of_singleton. split; [tauto|]. intros [?|[_ ?]]; [done|]. by destruct (Hst i e eq_refl).
    + rewrite elem_of_difference, elem_of_singleton. split; [tauto|]. intros [?|[(? & ? & ?) _]]; done.
  - rewrite lookup_insert_ne by done. rewrite <- (Hh x). destruct st; set_solver.
Qed.

(** A client gets a permit at once, or its waiter is the last in the queue. *)
Lemma sem_ok_granted c t s' : sem_ok c -> who c !! t = None -> cur (sem c) + 1 <= sem_size (sem c) -> waiters (sem c) = [] ->
  s' = MkWeighted (sem_size (sem c)) (cur (sem c) + 1) (waiters (sem c)) (impossibleWaiters (sem c)) (closed (sem c)) (fresh_elem (sem c)) ->
  sem_ok (MkClients s' (<[t := Holding]> (who c))).
Proof.
  intros H Ht Hfit Hw ->. destruct (so_count c H) as (hs & Hh & Hc). rewrite Hw.
  split; cbn [sem who waiters closed cur sem_size fresh_elem impossibleWaiters]; try apply H; try done.
  - constructor.
  - constructor.
  - intros w Hin. by apply not_elem_of_nil in Hin.
  - intros x i e. destruct (decide (x = t)) as [->|]; [by rewrite lookup_insert_eq|]. rewrite lookup_insert_ne by done.
    intros Hx Hn. destruct (so_queued c H x i e Hx Hn) as (w & Hin & _). rewrite Hw in Hin. by apply not_elem_of_nil in Hin.
  - intros x Hx. destruct (decide (x = t)) as [->|]; [rewrite lookup_insert_eq; eauto|]. rewrite lookup_insert_ne by done. by apply H.
  - exists (hs ∪ {[t]}). split; [by apply (holders_insert c _ t Holding hs); [left| | |]|].
    rewrite size_union, size_singleton; [lia|]. intros x Hx ->%elem_of_singleton. apply (Hh t) in Hx. rewrite Ht in Hx. naive_solver.
  - by left.
Qed.

Lemma sem_ok_queued c t : sem_ok c -> who c !! t = None -> (waiters (sem c) <> [] \/ sem_size (sem c) <= cur (sem c)) ->
  let e := fresh_elem (sem c) in
  sem_ok (MkClients (MkWeighted (sem_size (sem c)) (cur (sem c)) (waiters (sem c) ++ [MkWaiter e t 1]) (impossibleWaiters (sem c))
    (closed (sem c)) (S e)) (<[t := Waiting false e]> (who c))).
Proof.
  intros H Ht Hb e. destruct (so_count c H) as (hs & Hh & Hc).
  assert (t ∉ closed (sem c)) as Hnt by (intros [? Hx]%(so_known c H); congruence).
  assert (forall w, w ∈ waiters (sem c) -> w_ready w <> t) as Hnw.
  { intros w Hw Er. destruct (so_waits c H w Hw) as [Hx _]. congruence. }
  split; cbn [sem who waiters closed cur sem_size fresh_elem impossibleWaiters]; try apply H.
  - apply Forall_app. split; [apply H|]. by constructor.
  - rewrite fmap_app. apply NoDup_app. split_and!; [apply H| |apply NoDup_singleton].
    intros x (w & -> & Hin)%list_elem_of_fmap Hx%list_elem_of_singleton. exact (Hnw w Hin Hx).
  - rewrite fmap_app. apply NoDup_app. split_and!; [apply H| |apply NoDup_singleton].
    intros x (w & -> & Hin)%list_elem_of_fmap Hx%list_elem_of_singleton. cbn in Hx.
    pose proof (so_fresh c H) as Hf. rewrite Forall_forall in Hf. specialize (Hf w Hin). cbn in Hf. unfold e in Hx. lia.
  - apply Forall_app. split; [|constructor; [cbn; lia|constructor]]. eapply Forall_impl; [exact (so_fresh c H)|]. cbn. unfold e. lia.
  - intros w [Hin| ->%list_elem_of_singleton]%elem_of_app; cbn [w_ready w_elem]; [|by rewrite lookup_insert_eq].
    rewrite lookup_insert_ne; [by apply H|]. intros Ew. exact (Hnw w Hin (eq_sym Ew)).
  - intros x i e'. destruct (decide (x = t)) as [->|].
    + rewrite lookup_insert_eq. intros [= <- <-] _. exists (MkWaiter e t 1). split; [|done]. apply elem_of_app. right. by left.
    + rewrite lookup_insert_ne by done. intros Hx Hn. destruct (so_queued c H x i e' Hx Hn) as (w & Hin & ?).
      exists w. split; [apply elem_of_app; by left|done].
  - intros x Hx. destruct (decide (x = t)) as [->|]; [rewrite lookup_insert_eq; eauto|]. rewrite lookup_insert_ne by done. by apply H.
  - exists (hs ∖ {[t]}). split; [apply (holders_insert c _ t (Waiting false e) hs); [by left|done|done|done]|].
    rewrite difference_disjoint_L; [done|]. intros x Hx ->%elem_of_singleton. apply (Hh t) in Hx. rewrite Ht in Hx. naive_solver.
  - right. destruct Hb as [Hb|]; [|done]. by destruct (so_busy c H).
Qed.

Lemma sem_ok_cancel c t e : sem_ok c -> who c !! t = Some (Waiting false e) -> t ∉ closed (sem c) ->
  sem_ok (MkClients (MkWeighted (sem_size (sem c)) (cur (sem c)) (remove_elem e (waiters (sem c))) (impossibleWaiters (sem c))
    (closed (sem c)) (fresh_elem (sem c))) (<[t := Finished]> (who c))).
Proof.
  intros H Ht Hnt. destruct (so_count c H) as (hs & Hh & Hc). destruct (so_queued c H t _ _ Ht Hnt) as (w0 & Hw0 & Hr0 & He0 & _).
  assert (forall w, w ∈ remove_elem e (waiters (sem c)) <-> w ∈ waiters (sem c) /\ w_elem w <> e) as Hin.
  { intros w. unfold remove_elem. rewrite list_elem_of_filter. tauto. }
  assert (forall w, w ∈ waiters (sem c) -> w_elem w <> e -> w_ready w <> t) as Hne.
  { intros w Hw He Hr. destruct (so_waits c H w Hw) as [Hx _]. rewrite Hr, Ht in Hx. by injection Hx. }
  assert (forall (f : waiter -> nat) ws, NoDup (f <$> ws) -> NoDup (f <$> remove_elem e ws)) as Hnd.
  { intros f ws. induction ws as [|w ws IH]; [done|]. cbn [fmap list_fmap]. intros [Hx Hnd]%NoDup_cons. unfold remove_elem. rewrite filter_cons.
    case_decide; [|by apply IH]. cbn. constructor; [|by apply IH]. intros (y & Hy & [_ Hys]%list_elem_of_filter)%list_elem_of_fmap.
    apply Hx. rewrite Hy. by apply list_elem_of_fmap_2. }
  assert (forall P, Forall P (waiters (sem c)) -> Forall P (remove_elem e (waiters (sem c)))) as Hall.
  { intros P. rewrite !Forall_forall. intros HP w [Hw _]%Hin. by apply HP. }
  split; cbn [sem who waiters closed cur sem_size fresh_elem impossibleWaiters]; try apply H.
  - by apply Hall, H.
  - by apply Hnd, H.
  - by apply Hnd, H.
  - by apply Hall, H.
  - intros w [Hw He]%Hin. rewrite lookup_insert_ne by (intros E; symmetry in E; revert E; by apply Hne). by apply H.
  - intros x i e'. destruct (decide (x = t)) as [->|]; [by rewrite lookup_insert_eq|]. rewrite lookup_insert_ne by done.
    intros Hx Hn. destruct (so_queued c H x i e' Hx Hn) as (w & Hw & Hr & He & ?). exists w. split; [|done]. apply Hin. split; [done|].
    intros Ee. assert (w = w0) as ->; [|congruence].
    pose proof (so_elems c H) as Hnd'. clear -Hnd' Hw Hw0 Ee He0. rewrite <- He0 in Ee. clear He0. induction (waiters (sem c)) as [|y l IH]; [set_solver|].
    cbn in Hnd'. apply NoDup_cons in Hnd' as [Hy Hl]. apply elem_of_cons in Hw as [->|Hw], Hw0 as [->|Hw0]; [done| | |by apply IH].
    + destruct Hy. rewrite Ee. by apply list_elem_of_fmap_2.
    + destruct Hy. rewrite <- Ee. by apply list_elem_of_fmap_2.
  - intros x Hx. destruct (decide (x = t)) as [->|]; [rewrite lookup_insert_eq; eauto|]. rewrite lookup_insert_ne by done. by apply H.
  - exists (hs ∖ {[t]}). split; [apply (holders_insert c _ t Finished hs); [by right|done|done|done]|].
    rewrite difference_disjoint_L; [done|]. intros x Hx ->%elem_of_singleton. apply (Hh t) in Hx. rewrite Ht in Hx. naive_solver.
  - destruct (so_busy c H) as [->|]; [by left|by right].
Qed.

Lemma sem_ok_woken c t i e : sem_ok c -> who c !! t = Some (Waiting i e) -> t ∈ closed (sem c) ->
  sem_ok (MkClients (sem c) (<[t := Holding]> (who c))).
Proof.
  intros H Ht Hcl. destruct (so_count c H) as (hs & Hh & Hc). split; cbn [sem who]; try apply H.
  - intros w Hw. destruct (so_waits c H w Hw) as [? Hn]. rewrite lookup_insert_ne by (intros ->; done). by apply H.
  - intros x i' e'. destruct (decide (x = t)) as [->|]; [by rewrite lookup_insert_eq|]. rewrite lookup_insert_ne by done. by apply H.
  - intros x Hx. destruct (decide (x = t)) as [->|]; [rewrite lookup_insert_eq; eauto|]. rewrite lookup_insert_ne by done. by apply H.
  - exists hs. split; [|done]. intros x. cbn [who sem]. destruct (decide (x = t)) as [->|].
    + rewrite lookup_insert_eq, (Hh t). naive_solver.
    + by rewrite lookup_insert_ne, (Hh x) by done.
Qed.

(** The two ways [Acquire] of one permit goes, and [SetLimit] to at least one. *)
Lemma Acquire_cases c t : sem_ok c ->
  (cur (sem c) + 1 <= sem_size (sem c) /\ waiters (sem c) = [] /\ (Acquire t 1 (sem c)).1 = Granted) \/
  ((waiters (sem c) <> [] \/ sem_size (sem c) <= cur (sem c)) /\ (Acquire t 1 (sem c)).1 = Queued false (fresh_elem (sem c))).
Proof.
  intros H. unfold Acquire. pose proof (so_size c H). destruct (Z.leb_spec 1 (sem_size (sem c) - cur (sem c))); cbn [andb].
  - destruct (waiters (sem c)) as [|w ws] eqn:E; cbn [length Nat.eqb]; [by left; split; [lia|]|].
    right. split; [by left|]. by rewrite (proj2 (Z.ltb_ge _ _)) by lia.
  - right. split; [right; lia|]. by rewrite (proj2 (Z.ltb_ge _ _)) by lia.
Qed.

Lemma SetLimit_unit c n : sem_ok c -> 1 <= n ->
  SetLimit n (sem c) = (false, sem c) \/
  SetLimit n (sem c) = (false, serve (MkWeighted n (cur (sem c)) (waiters (sem c)) [] (closed (sem c)) (fresh_elem (sem c)))).
Proof.
  intros H Hn. unfold SetLimit. destruct (sem_size (sem c) =? n); [by left|right]. rewrite (proj2 (Z.ltb_ge _ _)) by lia.
  rewrite (so_none c H). cbn [filter list_filter relabel app length]. rewrite app_nil_r, Nat.add_0_r.
  assert (filter (fun w => w_n w <= n) (waiters (sem c)) = waiters (sem c) /\ filter (fun w => ~ w_n w <= n) (waiters (sem c)) = []) as [-> ->].
  { pose proof (so_units c H) as Hu. split.
    - apply filter_all. eapply Forall_impl; [exact Hu|]. cbn. lia.
    - apply filter_none. eapply Forall_impl; [exact Hu|]. cbn. lia. }
  by rewrite Nat.add_0_r.
Qed.

Lemma sem_ok_release c t : sem_ok c -> who c !! t = Some Holding ->
  let s := MkWeighted (sem_size (sem c)) (cur (sem c) - 1) (waiters (sem c)) (impossibleWaiters (sem c)) (closed (sem c)) (fresh_elem (sem c)) in
  Release 1 (sem c) = (false, serve s) /\ sem_ok (MkClients (serve s) (<[t := Finished]> (who c))).
Proof.
  intros H Ht s. destruct (so_count c H) as (hs & Hh & Hc).
  assert (t ∈ hs) as Hin by (apply (Hh t); by left).
  assert (size (hs ∖ {[t]}) = (size hs - 1)%nat /\ (1 <= size hs)%nat) as [Hsz Hpos].
  { rewrite size_difference, size_singleton by set_solver. split; [done|]. rewrite <- (size_singleton (C:=gset nat) t). apply subseteq_size. set_solver. }
  split.
  - unfold Release. cbn [cur]. rewrite (proj2 (Z.ltb_ge _ _)) by lia. done.
  - assert (forall w, w ∈ waiters (sem c) -> w_ready w <> t) as Hnw.
    { intros w Hw Er. destruct (so_waits c H w Hw) as [Hx _]. congruence. }
    eapply (sem_ok_serve s (<[t := Finished]> (who c)) (hs ∖ {[t]})); unfold s;
      cbn [sem who waiters closed cur sem_size fresh_elem impossibleWaiters]; try apply H.
    + intros w Hw. rewrite lookup_insert_ne; [by apply H|]. intros E. exact (Hnw w Hw (eq_sym E)).
    + intros x i e. destruct (decide (x = t)) as [->|]; [by rewrite lookup_insert_eq|]. rewrite lookup_insert_ne by done. by apply H.
    + intros x Hx. destruct (decide (x = t)) as [->|]; [rewrite lookup_insert_eq; eauto|]. rewrite lookup_insert_ne by done. by apply H.
    + intros x. cbn [who sem closed]. rewrite elem_of_difference, elem_of_singleton. destruct (decide (x = t)) as [->|].
      * rewrite lookup_insert_eq. naive_solver.
      * rewrite lookup_insert_ne by done. rewrite (Hh x). tauto.
    + lia.
Qed.

Lemma sem_step_ok c c' : sem_ok c -> sem_step c c' -> sem_ok c'.
Proof.
  intros H Hst. destruct Hst as [t r s' c Ht E|t s' c Ht E|t i e c Ht Hcl|t i e ok s' c Ht E|t p s' c Ht E|n p s' c Hn E].
  - destruct (Acquire_cases c t H) as [(Hfit & Hw & Hr)|[Hb Hr]]; unfold Acquire in *; rewrite E in Hr; cbn in Hr; subst r.
    + eapply sem_ok_granted; try done. unfold Acquire in E. destruct (_ && _); [by injection E as <-|]. by destruct (_ <? _).
    + unfold Acquire in E. destruct (_ && _); [done|]. destruct (_ <? _); [done|]. injection E as <-. by apply sem_ok_queued.
  - unfold TryAcquire in E. destruct (Z.leb_spec 1 (sem_size (sem c) - cur (sem c))); [|done]. cbn [andb] in E.
    destruct (waiters (sem c)) as [|] eqn:Ew; [|done]. injection E as <-. apply (sem_ok_granted c t); [done|done|lia|done|by rewrite Ew].
  - by eapply sem_ok_woken.
  - unfold Acquire_cancel in E. case_bool_decide as Hcl; [injection E as <- <-; by eapply sem_ok_woken|].
    destruct (so_queued c H t i e Ht Hcl) as (_ & _ & _ & _ & ->). injection E as <- <-. by apply sem_ok_cancel.
  - destruct (sem_ok_release c t H Ht) as [Hr Hok]. rewrite Hr in E. by injection E as <- <-.
  - destruct (SetLimit_unit c n H Hn) as [Hl|Hl]; rewrite Hl in E; injection E as <- <-; [by destruct c|].
    destruct (so_count c H) as (hs & Hh & Hc). by eapply (sem_ok_serve _ (who c) hs); cbn; try apply H; try done.
Qed.

Lemma sem_reachable_ok n c : 1 <= n -> rtc sem_step (MkClients (NewWeighted n) ∅) c -> sem_ok c.
Proof.
  intros Hn Hr. refine (rtc_preserves sem_step sem_ok _ _ _ Hr (sem_ok_init n Hn)). intros c1 c2 Hs H. by eapply sem_step_ok.
Qed.

(** What one step does to the permits and to the queue. *)
Lemma sem_step_fair c c' : sem_ok c -> sem_step c c' ->
  (cur (sem c) < cur (sem c') -> cur (sem c') <= sem_size (sem c')) /\
  exists front, closed (sem c') = (closed (sem c) ++ front)%list /\
    (front <> [] -> w_ready <$> waiters (sem c) = (front ++ (w_ready <$> waiters (sem c')))%list).
Proof.
  intros H Hst.
  assert (forall s, waiters s = waiters (sem c) -> closed s = closed (sem c) -> cur s <= cur (sem c) ->
    (cur (sem c) < cur (serve s) -> cur (serve s) <= sem_size (serve s)) /\
    exists front, closed (serve s) = (closed (sem c) ++ front)%list /\
      (front <> [] -> w_ready <$> waiters (sem c) = (front ++ (w_ready <$> waiters (serve s)))%list)) as Hserve.
  { intros s Ews Ecl Hle. destruct (serve_spec s) as (front & Ew & Ec & Ecur & _ & Hf & Esz & _); [rewrite Ews; apply H|].
    split.
    - intros Hlt. rewrite Esz. apply Hf. intros ->. cbn in Ecur. lia.
    - exists (w_ready <$> front). rewrite Ec, Ecl. split; [done|]. intros _. rewrite <- Ews, Ew at 1. by rewrite fmap_app. }
  assert (forall s, closed s = closed (sem c) -> exists front, closed s = (closed (sem c) ++ front)%list /\
    (front <> [] -> w_ready <$> waiters (sem c) = (front ++ (w_ready <$> waiters s))%list)) as Hsame.
  { intros s E. exists []. split; [by rewrite app_nil_r|done]. }
  destruct Hst as [t r s' c Ht E|t s' c Ht E|t i e c Ht Hcl|t i e ok s' c Ht E|t p s' c Ht E|n p s' c Hn E]; cbn [sem].
  - unfold Acquire in E. destruct (Z.leb_spec 1 (sem_size (sem c) - cur (sem c))); cbn [andb] in E.
    + destruct (_ =? _)%nat; [|destruct (_ <? _)]; injection E as <- <-; (split; [cbn; lia|by apply Hsame]).
    + destruct (_ <? _); injection E as <- <-; (split; [cbn; lia|by apply Hsame]).
  - unfold TryAcquire in E. destruct (Z.leb_spec 1 (sem_size (sem c) - cur (sem c))); [|done]. cbn [andb] in E.
    destruct (_ =? _)%nat; [|done]. injection E as <-. split; [cbn; lia|by apply Hsame].
  - split; [lia|by apply Hsame].
  - unfold Acquire_cancel in E. case_bool_decide; [|destruct i]; injection E as <- <-; (split; [cbn; lia|by apply Hsame]).
  - destruct (sem_ok_release c t H Ht) as [Hr _]. rewrite Hr in E. injection E as <- <-. apply Hserve; [done|done|cbn; lia].
  - destruct (SetLimit_unit c n H Hn) as [Hl|Hl]; rewrite Hl in E; injection E as <- <-; [split; [lia|by apply Hsame]|].
    apply Hserve; [done|done|cbn; lia].
Qed.

(** C24: the semaphore of the queues, used with single permits and limits of at least
    one: at any time the count is the number of clients that hold a permit or were
    handed one, nobody waits while a permit is free, every client that waits is in
    the queue, a permit is handed out only below the limit of the moment and in
    the order of arrival, and returning a permit does not panic. *)
Theorem semaphore_exact n c :
  1 <= n -> rtc sem_step (MkClients (NewWeighted n) ∅) c ->
  (exists hs, holders_are c hs /\ cur (sem c) = Z.of_nat (size hs)) /\
  (waiters (sem c) <> [] -> sem_size (sem c) <= cur (sem c)) /\
  (forall t i e, who c !! t = Some (Waiting i e) -> t ∉ closed (sem c) -> exists w, w ∈ waiters (sem c) /\ w_ready w = t) /\
  (forall t, who c !! t = Some Holding -> (Release 1 (sem c)).1 = false) /\
  (forall c', sem_step c c' ->
     (cur (sem c) < cur (sem c') -> cur (sem c') <= sem_size (sem c')) /\
     exists front, closed (sem c') = (closed (sem c) ++ front)%list /\
       (front <> [] -> w_ready <$> waiters (sem c) = (front ++ (w_ready <$> waiters (sem c')))%list)).
Proof.
  intros Hn Hr. pose proof (sem_reachable_ok n c Hn Hr) as H. split_and!.
  - apply H.
  - intros Hw. by destruct (so_busy c H).
  - intros t i e Ht Hcl. destruct (so_queued c H t i e Ht Hcl) as (w & ? & ? & _). eauto.
  - intros t Ht. by destruct (sem_ok_release c t H Ht) as [-> _].
  - intros c' Hs. by apply sem_step_fair.
Qed.

(** Two clients at a limit of one: the second waits and is served when the first is done. *)
Lemma semaphore_exact_witness :
  let c0 := MkClients (NewWeighted 1) ∅ in
  let c1 := MkClients (Acquire 0 1 (sem c0)).2 {[0%nat := Holding]} in
  let c2 := MkClients (Acquire 1 1 (sem c1)).2 (<[1%nat := Waiting false 0]> (who c1)) in
  waiters (sem c2) = [MkWaiter 0 1 1] /\ sem_size (sem c2) <= cur (sem c2) /\ (Release 1 (sem c2)).1 = false.
Proof.
  intros c0 c1 c2. assert (rtc sem_step c0 c2) as Hr.
  { eapply rtc_l; [exact (step_acquire 0 Granted (sem c1) c0 eq_refl eq_refl)|].
    eapply rtc_l; [exact (step_acquire 1 (Queued false 0) (sem c2) c1 eq_refl eq_refl)|]. apply rtc_refl. }
  destruct (semaphore_exact 1 c2 ltac:(lia) Hr) as (_ & H2 & _ & H4 & _).
  split; [reflexivity|]. split; [by apply H2|]. by apply (H4 0%nat).
Defined.

(** Defect: a waiter that was moved between the two lists cannot leave: it gives
    up, its place in the queue stays, and the permit it is handed later is lost
    for ever (the count stays at one although nobody holds a permit). *)
Theorem moved_waiter_leaks_permit :
  let '(_, s) := TryAcquire 1 (NewWeighted 1) in
  let '(_, s) := SetLimit 0 s in
  let '(q, s) := Acquire 7 1 s in
  let '(_, s) := SetLimit 1 s in
  q = Queued true 0 /\
  let '(ok, s) := Acquire_cancel 7 true 0 s in
  ok = false /\ waiters s = [MkWaiter 1 7 1] /\
  let '(_, s) := Release 1 s in cur s = 1 /\ waiters s = [] /\ (TryAcquire 1 s).1 = false.
Proof. by vm_compute. Qed.

(** Defect: a front waiter that gives up does not let the next one in, although it
    fits; it waits until some other permit is returned. *)
Theorem cancelled_front_blocks_next :
  let '(_, s) := TryAcquire 2 (NewWeighted 5) in
  let '(_, s) := Acquire 7 4 s in
  let '(_, s) := Acquire 8 1 s in
  let '(_, s) := Acquire_cancel 7 false 0 s in
  waiters s = [MkWaiter 1 8 1] /\ cur s = 2 /\ sem_size s = 5 /\ 8%nat ∉ closed s.
Proof. vm_compute. split_and!; [done|done|done|]. by intros ?%not_elem_of_nil. Qed.

(** ** What the queue guarantees *)

Lemma pop_min_spec q : match pop_min q with
  | None => q = []
  | Some (x, rest) => q ≡ₚ x :: rest /\ Forall (fun y => priority x <= priority y) q
  end.
Proof.
  induction q as [|x q IH]; [done|]. cbn [pop_min]. destruct (pop_min q) as [[y ys]|].
  - destruct IH as [Hp Hmin]. destruct (Z.ltb_spec (priority y) (priority x)).
    + split; [rewrite Hp; apply Permutation_swap|]. constructor; [lia|done].
    + split; [done|]. constructor; [lia|]. eapply Forall_impl; [exact Hmin|]. cbn. lia.
  - subst q. split; [done|]. constructor; [lia|constructor].
Qed.

Lemma take_out_perm x l : x ∈ l -> l ≡ₚ x :: take_out x l.
Proof.
  induction l as [|y l IH]; [by intros ?%not_elem_of_nil|]. cbn [take_out]. case_bool_decide as E; [by subst|].
  intros [?|Hin]%elem_of_cons; [done|]. rewrite (IH Hin) at 1. apply Permutation_swap.
Qed.

(** What happens to a queue; handlers that panic are left out here. *)
Inductive queue_event : Type := EPush (x : nat) (now : Z) | EDispatch | EDone (x : nat) | ELimit (n : Z).

Definition run_queue (q : bufferQueue) (e : queue_event) : bufferQueue :=
  match e with
  | EPush x now => Push x now q
  | EDispatch => dispatch q
  | EDone x => handler_done x q
  | ELimit n => queue_SetLimit n q
  end.

Definition positive_limit (e : queue_event) : Prop := match e with ELimit n => 1 <= n | _ => True end.
Definition pushed (es : list queue_event) : list nat := omap (fun e => match e with EPush x _ => Some x | _ => None end) es.

Record queue_ok (q : bufferQueue) : Prop := {
  qo_size : 1 <= sem_size (limiter q);
  qo_idle : waiters (limiter q) = [] /\ impossibleWaiters (limiter q) = [];
  qo_count : cur (limiter q) = Z.of_nat (length (running q)) /\ working q = Z.of_nat (length (running q));
  qo_alive : crashed q = false;
}.

Lemma serve_idle s : waiters s = [] -> serve s = MkWeighted (sem_size s) (cur s) [] (impossibleWaiters s) (closed s) (fresh_elem s).
Proof. intros H. unfold serve. rewrite H. cbn. by rewrite app_nil_r. Qed.

Lemma dispatch_spec q : queue_ok q ->
  (dispatch q = q /\ (queue q = [] \/ sem_size (limiter q) <= Z.of_nat (length (running q)))) \/
  (exists x rest, queue q ≡ₚ x :: rest /\ Forall (fun y => priority x <= priority y) (queue q) /\
     queue (dispatch q) = rest /\ running (dispatch q) = value x :: running q /\ served (dispatch q) = served q /\
     sem_size (limiter (dispatch q)) = sem_size (limiter q) /\
     Z.of_nat (length (running (dispatch q))) <= sem_size (limiter q) /\ queue_ok (dispatch q)).
Proof.
  intros H. unfold dispatch. destruct (queue q) as [|i is_] eqn:Eq; [by left; split; [|left]|]. rewrite <- Eq.
  destruct (qo_idle q H) as [Hw Hi]. destruct (qo_count q H) as [Hc Hk]. unfold TryAcquire. rewrite Hw. cbn [length Nat.eqb].
  destruct (Z.leb_spec 1 (sem_size (limiter q) - cur (limiter q))); cbn [andb]; [|left; split; [done|right; lia]].
  right. pose proof (pop_min_spec (queue q)) as Hp. destruct (pop_min (queue q)) as [[x rest]|]; [|by rewrite Hp in Eq].
  destruct Hp as [Hperm Hmin]. exists x, rest. cbn. split_and!; try done; [lia|].
  split; cbn; [apply H|done| |apply H]. lia.
Qed.

Lemma done_spec x q : queue_ok q -> x ∈ running q ->
  queue (handler_done x q) = queue q /\ running q ≡ₚ x :: running (handler_done x q) /\
  served (handler_done x q) = x :: served q /\ sem_size (limiter (handler_done x q)) = sem_size (limiter q) /\ queue_ok (handler_done x q).
Proof.
  intros H Hx. unfold handler_done. rewrite bool_decide_eq_true_2 by done. destruct (qo_idle q H) as [Hw Hi]. destruct (qo_count q H) as [Hc Hk].
  pose proof (take_out_perm x (running q) Hx) as Hp. pose proof (Permutation_length Hp) as Hl. cbn in Hl.
  unfold give_back, leave, Release. cbn [limiter cur]. rewrite (proj2 (Z.ltb_ge _ _)) by lia. cbn.
  rewrite serve_idle by done. cbn. split_and!; try done. split; cbn; [apply H|done|lia|]. by rewrite (qo_alive q H).
Qed.

Lemma limit_spec n q : queue_ok q -> 1 <= n ->
  queue (queue_SetLimit n q) = queue q /\ running (queue_SetLimit n q) = running q /\ served (queue_SetLimit n q) = served q /\
  queue_ok (queue_SetLimit n q).
Proof.
  intros H Hn. destruct (qo_idle q H) as [Hw Hi]. destruct (qo_count q H) as [Hc Hk]. split_and!; try done.
  unfold queue_SetLimit, SetLimit. destruct (_ =? _); [by destruct q|]. rewrite (proj2 (Z.ltb_ge _ _)) by lia.
  rewrite Hw, Hi. split; cbn; [lia|done|lia|apply H].
Qed.

(** The jobs of a queue after any history without panics. *)
Lemma queue_history l es : Forall positive_limit es -> let q := foldl run_queue (New l) es in
  queue_ok q /\ pushed es ≡ₚ served q ++ running q ++ (value <$> queue q).
Proof.
  intros Hes. cbn zeta. assert (queue_ok (New l)) as H0.
  { unfold New. split; cbn; try done. destruct (Z.leb_spec l 0); lia. }
  revert H0. assert (pushed es ≡ₚ (served (New l) ++ running (New l) ++ (value <$> queue (New l))) ++ pushed es) as E0 by done.
  rewrite E0 at 1. clear E0. generalize (New l). induction es as [|e es IH]; intros q H; [split; [done|by rewrite app_nil_r]|].
  apply Forall_cons in Hes as [He Hes]. cbn [foldl].
  assert (queue_ok (run_queue q e) /\ (served q ++ running q ++ (value <$> queue q)) ++ pushed (e :: es) ≡ₚ
    (served (run_queue q e) ++ running (run_queue q e) ++ (value <$> queue (run_queue q e))) ++ pushed es) as [H1 H2].
  { destruct e as [x now| |x|n]; cbn [run_queue].
    - split; [split; apply H|]. cbn. rewrite fmap_app. cbn. by rewrite <- !app_assoc.
    - change (pushed (EDispatch :: es)) with (pushed es).
      destruct (dispatch_spec q H) as [[-> _]|(x & rest & Hq & _ & -> & -> & -> & _ & _ & Hok)]; [done|]. split; [done|].
      rewrite Hq. cbn. by rewrite <- Permutation_middle.
    - change (pushed (EDone x :: es)) with (pushed es). destruct (decide (x ∈ running q)) as [Hx|Hx].
      + destruct (done_spec x q H Hx) as (-> & Hr & -> & _ & Hok). split; [done|]. rewrite Hr at 1. cbn. by rewrite <- Permutation_middle.
      + unfold handler_done. by rewrite bool_decide_eq_false_2.
    - change (pushed (ELimit n :: es)) with (pushed es). by destruct (limit_spec n q H He) as (-> & -> & -> & ?). }
  destruct (IH Hes (run_queue q e) H1) as [H3 H4]. split; [done|]. by rewrite H2.
Qed.

(** The queue of a product: after any history without panics, the permits and the
    counter agree with the handlers at work, every job pushed is served, at work
    or queued, exactly once; and a turn of the loop starts at most one job, one of
    the oldest, and only below the limit. *)
Theorem queue_serves_in_order l es : Forall positive_limit es ->
  let q := foldl run_queue (New l) es in
  working q = Z.of_nat (length (running q)) /\ cur (limiter q) = working q /\ crashed q = false /\
  pushed es ≡ₚ served q ++ running q ++ (value <$> queue q) /\
  (dispatch q = q \/
   exists x rest, queue q ≡ₚ x :: rest /\ Forall (fun y => priority x <= priority y) (queue q) /\
     queue (dispatch q) = rest /\ running (dispatch q) = value x :: running q /\
     working (dispatch q) <= sem_size (limiter q)).
Proof.
  intros Hes q. destruct (queue_history l es Hes) as [H Hp]. fold q in H, Hp. destruct (qo_count q H) as [Hc Hw].
  split_and!; [done|lia|apply H|done|].
  destruct (dispatch_spec q H) as [[E _]|(x & rest & H1 & H2 & H3 & H4 & _ & _ & H7 & H8)]; [by left|right].
  exists x, rest. split_and!; try done. by destruct (qo_count _ H8) as [_ ->].
Qed.

Definition demo_jobs : list queue_event := [EPush 1 30; EPush 2 10; EDispatch; ELimit 2; EDispatch; EDone 2; EPush 3 40].

Lemma queue_serves_in_order_witness :
  let q := foldl run_queue (New 1) demo_jobs in served q = [2%nat] /\ running q = [1%nat] /\ working q = 1.
Proof.
  intros q. destruct (queue_serves_in_order 1 demo_jobs) as (H & _).
  - apply Forall_forall. intros e He. destruct e as [| | |n]; try exact I. unfold demo_jobs in He. set_unfold in He. naive_solver lia.
  - split; [reflexivity|]. split; [reflexivity|]. exact H.
Defined.

(** ** Draining *)

(** A step that changes something, without new jobs: the loop starts a job, or a
    handler returns. *)
Inductive drain_step : bufferQueue -> bufferQueue -> Prop :=
  | drain_start q : dispatch q <> q -> drain_step q (dispatch q)
  | drain_done x q : x ∈ running q -> drain_step q (handler_done x q).

Definition left_to_do (q : bufferQueue) : nat := 2 * length (queue q) + length (running q).

Lemma drain_step_spec q q' : queue_ok q -> drain_step q q' ->
  queue_ok q' /\ left_to_do q = S (left_to_do q') /\ sem_size (limiter q') = sem_size (limiter q).
Proof.
  intros H Hs. destruct Hs as [q Hne|x q Hx].
  - destruct (dispatch_spec q H) as [[E _]|(x & rest & H1 & _ & H3 & H4 & _ & H6 & _ & H8)]; [done|]. split_and!; [done| |done].
    unfold left_to_do. rewrite H1, H3, H4. cbn [length]. lia.
  - destruct (done_spec x q H Hx) as (H1 & H2 & _ & H4 & H5). split_and!; [done| |done]. unfold left_to_do. rewrite H1, H2. cbn [length]. lia.
Qed.

(** C25: a queue without new jobs drains: with a limit of at least one, whatever the
    order in which handlers return, there is a next step until every job is
    served, and a run has at most two steps per queued job and one per running
    handler. *)
Theorem queue_drains l es : Forall positive_limit es ->
  let q := foldl run_queue (New l) es in
  forall k q', nsteps drain_step k q q' ->
    (k <= left_to_do q)%nat /\
    ((forall q'', ~ drain_step q' q'') -> queue q' = [] /\ running q' = [] /\ k = left_to_do q).
Proof.
  intros Hes q k q' Hk. destruct (queue_history l es Hes) as [H _]. fold q in H.
  assert (queue_ok q' /\ left_to_do q = (k + left_to_do q')%nat) as [H' Hm].
  { clear -H Hk. induction Hk as [q|k q q1 q2 Hs Hk IH]; [done|]. destruct (drain_step_spec q q1 H Hs) as (H1 & E & _).
    destruct (IH H1). split; [done|]. lia. }
  split; [lia|]. intros Hstuck. destruct (running q') as [|x r] eqn:Er.
  - destruct (dispatch_spec q' H') as [[_ [Eq|Hfull]]|(x & rest & _ & _ & _ & H4 & _)].
    + split_and!; [done|done|]. rewrite Hm. unfold left_to_do. rewrite Eq, Er. cbn. lia.
    + rewrite Er in Hfull. cbn in Hfull. pose proof (qo_size q' H'). lia.
    + destruct (Hstuck (dispatch q')). constructor. intros E. rewrite E, Er in H4. done.
  - destruct (Hstuck (handler_done x q')). constructor. rewrite Er. by left.
Qed.

Lemma queue_drains_witness :
  let q := foldl run_queue (New 1) demo_jobs in
  let q1 := handler_done 1 q in let q2 := dispatch q1 in let q3 := handler_done 3 q2 in
  nsteps drain_step 3 q q3 /\ queue q3 = [] /\ served q3 = [3; 1; 2]%nat /\ (3 <= left_to_do q)%nat.
Proof.
  intros q q1 q2 q3. assert (nsteps drain_step 3 q q3) as Hn.
  { apply (nsteps_l _ 2 q q1); [apply drain_done; by left|]. apply (nsteps_l _ 1 q1 q2); [by apply drain_start|].
    apply nsteps_once. apply drain_done. by left. }
  split; [done|]. split; [reflexivity|]. split; [reflexivity|].
  apply (queue_drains 1 demo_jobs) with (k := 3%nat) (q' := q3); [|exact Hn].
  apply Forall_forall. intros e He. destruct e as [| | |n]; try exact I. unfold demo_jobs in He. set_unfold in He. naive_solver lia.
Defined.

(** ** Defects *)

(** Defect: a handler that panics returns its permit twice.  Alone at work it
    brings the process down; beside another one it raises the number of handlers
    above the limit. *)
Theorem panic_returns_two_permits :
  let q := foldl run_queue (New 1) [EPush 1 1; EDispatch] in
  crashed (handler_panics 1 q) = true /\
  let q := foldl run_queue (New 2) [EPush 1 1; EPush 2 2; EPush 3 3; EPush 4 4; EDispatch; EDispatch] in
  let q := foldl run_queue (handler_panics 1 q) [EDispatch; EDispatch] in
  sem_size (limiter q) = 2 /\ length (running q) = 3%nat /\ working q = 2 /\ crashed q = false.
Proof. by vm_compute. Qed.

(** Defect: the ceiling is taken of an integer quotient, so with more masters than
    permits the limit of a product becomes zero, and no creation starts until a
    node joins or a master leaves. *)
Theorem zero_limit_stops_creations :
  let node := demo_node 1 "h1" "l1" true in
  @create_limit demo_runtime 2 3 [node] = Some 0 /\
  let t := @monitor_create demo_runtime 2 3 [node] (MkTask (Push 7 1 (New 10)) 0) in
  let t' := @monitor_create demo_runtime 2 3 [node] (MkTask (Push 7 1 (New 10)) 5) in
  sem_size (limiter (bufferQ t)) = 10 /\ sem_size (limiter (bufferQ t')) = 0 /\ dispatch (bufferQ t') = bufferQ t'.
Proof. by vm_compute. Qed.
