(* ===== verification/MasterCreate.v ===== *)
(** * Creating a sandbox
    (CubeMaster/pkg/service/sandbox/sandbox_run.go, errorcode/error.go)

    [Handle] schedules a request, calls the Cubelet of the chosen node, decides
    whether to try again, publishes a sandbox that was made and answers; a sandbox
    that was made for a request that failed is handed to the task that destroys
    it.  The goroutine that waits for the answer may record the end of the
    request's context at any moment, and the first answer recorded stays.

    Each round of the loop takes a [turn]: what the environment does in it.  The
    loop has no bound of its own, so the turns are the input: when they are used
    up the context has ended. *)
From S2P Require Import Prelude GoStrings GoValue MasterConfig MasterNodes MasterTemplates MasterSched.
From Stdlib Require Import Floats.SpecFloat.

Open Scope string_scope.
Open Scope Z_scope.

(** ** Codes *)

Definition ErrorCode_Unknown : Z := -1.
Definition ErrorCode_Success : Z := 200.
Definition ErrorCode_SelectNodesNoRes : Z := 130597.
Definition ErrorCode_ConnHostFailed : Z := 130596.
Definition ErrorCode_ReqCubeAPIFailed : Z := 130595.
Definition ErrorCode_DBError : Z := 130594.
Definition ErrorCode_MasterInternalError : Z := 130593.
Definition ErrorCode_MasterRateLimitedError : Z := 130592.
Definition ErrorCode_ClientCancel : Z := 130499.

Definition errorCode_value (name : string) : option Z :=
  if name =s "Success" then Some 200
  else if name =s "GWFailed" then Some 130599
  else if name =s "SelectNodesFailed" then Some 130598
  else if name =s "SelectNodesNoRes" then Some 130597
  else if name =s "ConnHostFailed" then Some 130596
  else if name =s "ReqCubeAPIFailed" then Some 130595
  else if name =s "DBError" then Some 130594
  else if name =s "MasterInternalError" then Some 130593
  else if name =s "MasterRateLimitedError" then Some 130592
  else if name =s "MasterParamsError" then Some 130400
  else if name =s "Conflict" then Some 130409
  else if name =s "NotFound" then Some 130404
  else if name =s "NotFoundAtCubelet" then Some 130406
  else if name =s "TooManyRequests" then Some 130429
  else if name =s "ClientCancel" then Some 130499
  else if name =s "AuthFailed" then Some 130401
  else None.

(** Codes of the Cubelet's generated API that the tables name. *)
Definition ConcurrentFailed : Z := 130513.
Definition DownloadCodeFailed : Z := 130514.
Definition DownloadLayerFailed : Z := 130516.
Definition DeployCodeTimeout : Z := 130524.
Definition DeployLayerTimeout : Z := 130525.
Definition NoSpaceLeftOnDevice : Z := 130527.
Definition CreateImageFailed : Z := 130546.
Definition DestroyStorageFailed : Z := 130559.
Definition DestroyCgroupFailed : Z := 130563.
Definition DestroyNetworkFailed : Z := 130564.
Definition HostDiskNotEnough : Z := 130567.
Definition PullImageFailed : Z := 130456.
Definition PullImageTimeOut : Z := 130457.
Definition ConcurrentLimited : Z := 130480.

Record CubeletConf : Type := MkCubelet {
  RetryCode : list string; ReuseRetryCode : list string; LoopRetryCode : list string; CircuitBreakCode : list string;
  ExcludeLoopRetryCode : list string; BackoffRetryCode : list string;
  BackoffRetryDelay : Z; MaxDelayInSecond : Z; EnableExposedPort : bool;
}.

Section Codes.
(** The table of names in the Cubelet's generated API. *)
Context (cubelet_value : string -> option Z).

Definition add_code (c : option Z) (s : gset Z) : gset Z := match c with Some z => {[ z ]} ∪ s | None => s end.
(** The loop over configured names at the end of each table. *)
Definition add_codes (names : list string) (s : gset Z) : gset Z :=
  foldl (fun s n => add_code (errorCode_value n) (add_code (cubelet_value n) s)) s names.

Record code_maps : Type := MkCodes {
  cubeCodeRetryMap : gset Z; cubeReuseCodeRetryMap : gset Z; cubecircuitBreakerCodeMap : gset Z;
  cubeCodeLoopRetryMap : gset Z; excludeLoopRetryCodes : gset Z; cubeBackoffCodeMap : gset Z;
}.

Definition initRetryMap (cfg : CubeletConf) : gset Z :=
  add_codes (RetryCode cfg)
    {[ ErrorCode_ConnHostFailed; PullImageFailed; DownloadCodeFailed; DownloadLayerFailed; CreateImageFailed;
       DestroyNetworkFailed; DestroyCgroupFailed; DestroyStorageFailed ]}.
Definition initReuseMap (cfg : CubeletConf) : gset Z :=
  add_codes (ReuseRetryCode cfg) {[ DeployLayerTimeout; DeployCodeTimeout; PullImageTimeOut ]}.
Definition initLoopRetryMap (cfg : CubeletConf) : gset Z :=
  add_codes (LoopRetryCode cfg)
    {[ ErrorCode_MasterRateLimitedError; ConcurrentLimited; ConcurrentFailed; DeployLayerTimeout; DeployCodeTimeout;
       PullImageTimeOut; HostDiskNotEnough; NoSpaceLeftOnDevice ]}.
Definition initCirteBreakerCodeMap (cfg : CubeletConf) : gset Z :=
  add_codes (CircuitBreakCode cfg)
    {[ HostDiskNotEnough; NoSpaceLeftOnDevice; ErrorCode_ConnHostFailed; ErrorCode_ReqCubeAPIFailed ]}.
Definition initExcludesRetryCodeMap (cfg : CubeletConf) : gset Z :=
  add_codes (ExcludeLoopRetryCode cfg) {[ ErrorCode_ClientCancel ]}.
Definition initBackoffRetryCodeMap (cfg : CubeletConf) : gset Z :=
  add_codes (BackoffRetryCode cfg) {[ ConcurrentLimited; ConcurrentFailed ]}.

Definition initMap (cfg : CubeletConf) : code_maps :=
  MkCodes (initRetryMap cfg) (initReuseMap cfg) (initCirteBreakerCodeMap cfg) (initLoopRetryMap cfg)
    (initExcludesRetryCodeMap cfg) (initBackoffRetryCodeMap cfg).

End Codes.

(** ** The request *)

Record CubeletRsp : Type := MkRsp { r_code : Z; r_msg : string; r_SandboxID : string; r_SandboxIP : string; r_ports : gmap string string }.

Record SandboxProxyMap : Type := MkProxy {
  p_HostIP : string; p_SandboxID : string; p_SandboxIP : string; AllowPublicTraffic : bool; TrafficAccessToken : string;
  ContainerToHostPorts : gmap string string;
}.

(** [rsp] is the answer recorded through [setMasterRspOnce]; until then the code is
    [MasterInternalError]. *)
Record createSandboxContext (Q : Type) : Type := MkCreate {
  selctx_ : SelectorCtx Q; directHost : bool; selectHost : option Node;
  rsp : option (Z * string); m_SandboxID : string; m_HostID : string; m_token : string;
  cubeletRsp : CubeletRsp; retryTimes : Z; loopRetry : bool; reschedule : bool; delay : Z;
}.
Arguments MkCreate {Q}. Arguments selctx_ {Q}. Arguments directHost {Q}. Arguments selectHost {Q}. Arguments rsp {Q}.
Arguments m_SandboxID {Q}. Arguments m_HostID {Q}. Arguments m_token {Q}. Arguments cubeletRsp {Q}. Arguments retryTimes {Q}.
Arguments loopRetry {Q}. Arguments reschedule {Q}. Arguments delay {Q}.

Definition RetCode {Q} (c : createSandboxContext Q) : Z := from_option fst ErrorCode_MasterInternalError (rsp c).

(** What requests change outside: the counts in the node cache, the proxy map in
    Redis, the queue of destroy tasks (host, sandbox), and the calls made (node,
    answer), newest first. *)
Inductive answer : Type := AErr (msg : string) | ARsp (r : CubeletRsp) | APanic.
Record effects : Type := MkEffects {
  e_nodes : local; e_proxies : gmap string SandboxProxyMap; e_tasks : list (string * string); e_calls : list (string * answer);
}.

(** One round of the loop: whether the context has ended, what other requests did
    to the node cache, configuration and clock, the Cubelet's answer, what the
    waiting goroutine records during the call and before the last step, the outcome of the write to Redis, the new token, and the random factor. *)
Record turn (Q : Type) : Type := MkTurn {
  t_done : bool; t_others : local -> local; t_world : World Q; t_answer : answer;
  t_wait1 : option (bool * string); t_wait2 : option (bool * string); t_redis : option string; t_token : string; t_rand : float64;
}.
Arguments MkTurn {Q}. Arguments t_done {Q}. Arguments t_others {Q}. Arguments t_world {Q}. Arguments t_answer {Q}.
Arguments t_wait1 {Q}. Arguments t_wait2 {Q}. Arguments t_redis {Q}. Arguments t_token {Q}. Arguments t_rand {Q}.

Section Create.
Context {Q : Type} {QO : QuantityOps Q} {GR : GoRuntime} {SS : SliceSort} {DR : Draw}.
Context (conf : CubeletConf) (codes : code_maps) (MaxRetry LoopMaxRetry : Z).
(** Of the request: its instance type, and whether its sandbox may be reached from outside. *)
Context (instanceType : string) (allowPublic : bool).
Implicit Types c : createSandboxContext Q.

Definition setMasterRsp (code : Z) (msg : string) c : createSandboxContext Q :=
  match rsp c with
  | Some _ => c
  | None => MkCreate (selctx_ c) (directHost c) (selectHost c) (Some (code, msg)) (m_SandboxID c) (m_HostID c) (m_token c)
              (cubeletRsp c) (retryTimes c) (loopRetry c) (reschedule c) (delay c)
  end.
(** [Wait] when the context ends before the request is done: [w] is whether it was
    cancelled, and the text of its error; [None] when it has not ended yet. *)
Definition Wait (w : option (bool * string)) c :=
  match w with
  | Some (canceled, msg) => setMasterRsp (if canceled : bool then ErrorCode_ClientCancel else ErrorCode_ReqCubeAPIFailed) msg c
  | None => c
  end.

Definition with_select (s : SelectorCtx Q) (h : option Node) c :=
  MkCreate s (directHost c) h (rsp c) (m_SandboxID c) (m_HostID c) (m_token c) (cubeletRsp c) (retryTimes c) (loopRetry c) (reschedule c) (delay c).
Definition with_cubeletRsp (r : CubeletRsp) c :=
  MkCreate (selctx_ c) (directHost c) (selectHost c) (rsp c) (m_SandboxID c) (m_HostID c) (m_token c) r (retryTimes c) (loopRetry c) (reschedule c) (delay c).
Definition with_retry (n : Z) (loop re : bool) c :=
  MkCreate (selctx_ c) (directHost c) (selectHost c) (rsp c) (m_SandboxID c) (m_HostID c) (m_token c) (cubeletRsp c) n loop re (delay c).
Definition with_delay (d : Z) c :=
  MkCreate (selctx_ c) (directHost c) (selectHost c) (rsp c) (m_SandboxID c) (m_HostID c) (m_token c) (cubeletRsp c) (retryTimes c) (loopRetry c) (reschedule c) d.
Definition with_made (sid hid : string) c :=
  MkCreate (selctx_ c) (directHost c) (selectHost c) (rsp c) sid hid (m_token c) (cubeletRsp c) (retryTimes c) (loopRetry c) (reschedule c) (delay c).
Definition with_token (tok : string) c :=
  MkCreate (selctx_ c) (directHost c) (selectHost c) (rsp c) (m_SandboxID c) (m_HostID c) tok (cubeletRsp c) (retryTimes c) (loopRetry c) (reschedule c) (delay c).

(** The code of an error of [Select]: everything but a lack of nodes is internal. *)
Definition select_code (e : string) : Z := if e =s ErrNoRes then ErrorCode_SelectNodesNoRes else ErrorCode_MasterInternalError.

Definition with_nodes (l : local) (w : World Q) : World Q :=
  MkWorld (w_conf w) (w_createLimit w) (w_interval w) (w_now w) l (w_templates w) (w_storage w).

Definition schedule (w : World Q) c : option string * createSandboxContext Q :=
  if directHost c || negb (reschedule c) then (None, c)
  else
    match Select w (selctx_ c) with
    | (Err e, s) => (Some e, with_select s None c)
    | (Ok None, s) => (Some ErrNoRes, with_select s None c)
    | (Ok (Some n), s) => (None, with_select s (Some n) c)
    end.

Definition f64_eight_tenths : float64 := f64_div (f64_of_Z 8) (f64_of_Z 10).
Definition backoffRetryDelay (r : float64) c : createSandboxContext Q :=
  if delay c =? 0 then with_delay (BackoffRetryDelay conf) c
  else
    let maxDelay := wrap64 (MaxDelayInSecond conf * second) in
    let d := f64_to_int (f64_mul (f64_of_Z (delay c)) (f64_add f64_one (f64_mul f64_eight_tenths r))) in
    with_delay (if maxDelay <? d then maxDelay else d) c.

Definition errRetry (err : string) (r : float64) c : bool * createSandboxContext Q :=
  let c := with_cubeletRsp (MkRsp ErrorCode_ReqCubeAPIFailed err "" "" ∅) c in
  (true, backoffRetryDelay r (with_retry (retryTimes c) (loopRetry c) true c)).

Definition errorCodeRetry (r : float64) c : bool * createSandboxContext Q :=
  let code := r_code (cubeletRsp c) in
  if code =? ErrorCode_Success then (false, c)
  else if bool_decide (code ∈ excludeLoopRetryCodes codes) then (false, with_retry (retryTimes c) false false c)
  else
    let again c := (true, if bool_decide (code ∈ cubeBackoffCodeMap codes) then backoffRetryDelay r c else c) in
    let reuse := bool_decide (code ∈ cubeReuseCodeRetryMap codes) in
    let c := if reuse then with_retry (retryTimes c) false false c else c in
    if reuse && (retryTimes c <=? MaxRetry) then again c
    else if bool_decide (code ∈ cubeCodeLoopRetryMap codes) then
      let c := with_retry (retryTimes c) true true c in
      if retryTimes c <=? LoopMaxRetry then again c else (false, c)
    else (false, c).

Definition call_effects (l : local) (call : string * answer) (e : effects) : effects :=
  MkEffects l (e_proxies e) (e_tasks e) (call :: e_calls e).

(** [callCubelet] on the chosen node; the node's count goes up before the call and
    down after it. *)
Definition callCubelet (t : turn Q) (n : Node) c (e : effects) : bool * createSandboxContext Q * effects :=
  let l := DecrNodeConcurrent n (IncrNodeConcurrent n (e_nodes e)) in
  let e := call_effects l (ID n, t_answer t) e in
  match t_answer t with
  | APanic => (false, setMasterRsp ErrorCode_ReqCubeAPIFailed "panic fatal error" c, e)
  | AErr m => (errRetry m (t_rand t) c, e)
  | ARsp r => (errorCodeRetry (t_rand t) (with_cubeletRsp r c), e)
  end.

Definition setProxyToRedis (t : turn Q) (n : Node) c (e : effects) : option string * createSandboxContext Q * effects :=
  if match rsp c with Some (code, _) => negb (code =? ErrorCode_Success) | None => false end then (None, c, e)
  else if instanceType =s "cubebox" then
    let token := if allowPublic then "" else t_token t in
    let proxy := MkProxy (IP n) (m_SandboxID c) (r_SandboxIP (cubeletRsp c)) allowPublic token
                   (if EnableExposedPort conf then r_ports (cubeletRsp c) else ∅) in
    match t_redis t with
    | Some err => (Some err, c, e)
    | None => (None, with_token token c, MkEffects (e_nodes e) (<[m_SandboxID c := proxy]> (e_proxies e)) (e_tasks e) (e_calls e))
    end
  else (None, c, e).

Definition dealSuccResult (t : turn Q) (n : Node) c (e : effects) : createSandboxContext Q * effects :=
  if r_code (cubeletRsp c) =? ErrorCode_Success then
    let c := with_made (r_SandboxID (cubeletRsp c)) (ID n) c in
    let '(redisErr, c, e) := setProxyToRedis t n c e in
    let c := match redisErr with
             | Some err => setMasterRsp ErrorCode_DBError ("setProxyToRedis fail:" +:+ err) c
             | None => c
             end in
    (setMasterRsp (r_code (cubeletRsp c)) (r_msg (cubeletRsp c)) (Wait (t_wait2 t) c), e)
  else (c, e).

Definition mark_bad (n : Node) c : createSandboxContext Q :=
  if bool_decide (r_code (cubeletRsp c) ∈ cubecircuitBreakerCodeMap codes)
  then with_select (AddLastBadNode n (selctx_ c)) (selectHost c) c else c.

Fixpoint handleCubelet (ts : list (turn Q)) c (e : effects) : createSandboxContext Q * effects :=
  match ts with
  | [] => (c, e)
  | t :: ts =>
      if t_done t then (c, e)
      else
        let e := MkEffects (t_others t (e_nodes e)) (e_proxies e) (e_tasks e) (e_calls e) in
        match schedule (with_nodes (e_nodes e) (t_world t)) c with
        | (Some err, c) => (setMasterRsp (select_code err) err c, e)
        | (None, c) =>
            match selectHost c with
            | None => (setMasterRsp ErrorCode_ReqCubeAPIFailed "panic fatal error" c, e)
            | Some n =>
                if IP n =s "" then (setMasterRsp ErrorCode_DBError "HostIP is empty" c, e)
                else
                  let '(retry, c, e) := callCubelet t n (Wait (t_wait1 t) c) e in
                  if retry
                  then handleCubelet ts (mark_bad n (with_retry (retryTimes c + 1) (loopRetry c) (reschedule c) c)) e
                  else dealSuccResult t n c e
            end
        end
  end.

(** The destruction of a sandbox of a request that failed is queued.  [queued] is the error
    of [AddAsyncTask] (the queue is full, or there is no worker), which is only logged. *)
Definition failover (queued : option string) c (e : effects) : effects :=
  if negb (RetCode c =? ErrorCode_Success) && (m_SandboxID c <>s "") then
    match selectHost c with
    | Some n =>
        match queued with
        | Some _ => e
        | None => MkEffects (e_nodes e) (e_proxies e) ((IP n, r_SandboxID (cubeletRsp c)) :: e_tasks e) (e_calls e)
        end
    | None => e
    end
  else e.

(** [w]: what the waiting goroutine records after the loop. *)
Definition Handle (ts : list (turn Q)) (w : option (bool * string)) (queued : option string) c (e : effects) : createSandboxContext Q * effects :=
  let '(c, e) := handleCubelet ts c e in
  let c := setMasterRsp (r_code (cubeletRsp c)) (r_msg (cubeletRsp c)) (Wait w c) in
  (c, failover queued c e).

(** [newContext]: the answer of the Cubelet is unknown until it is called. *)
Definition new_request (s : SelectorCtx Q) (direct : option Node) : createSandboxContext Q :=
  MkCreate s (bool_decide (is_Some direct)) direct None "" "" "" (MkRsp ErrorCode_Unknown "" "" "" ∅) 0 false true 0.

(** ** What a request leaves behind *)

Definition success (a : answer) : bool := match a with ARsp r => r_code r =? ErrorCode_Success | _ => false end.

Lemma setMasterRsp_frame code msg c : let c' := setMasterRsp code msg c in
  selctx_ c' = selctx_ c /\ selectHost c' = selectHost c /\ m_SandboxID c' = m_SandboxID c /\ m_HostID c' = m_HostID c /\
  cubeletRsp c' = cubeletRsp c /\ retryTimes c' = retryTimes c /\ directHost c' = directHost c.
Proof. unfold setMasterRsp. by destruct (rsp c). Qed.

Lemma Wait_frame w c : let c' := Wait w c in
  selctx_ c' = selctx_ c /\ selectHost c' = selectHost c /\ m_SandboxID c' = m_SandboxID c /\ m_HostID c' = m_HostID c /\
  cubeletRsp c' = cubeletRsp c /\ retryTimes c' = retryTimes c /\ directHost c' = directHost c.
Proof. destruct w as [[k m]|]; [apply setMasterRsp_frame|done]. Qed.

(** An answer that was recorded stays; none of the failures is a success. *)
Lemma setMasterRsp_code code msg c : RetCode (setMasterRsp code msg c) = match rsp c with Some (k, _) => k | None => code end.
Proof. unfold setMasterRsp, RetCode. by destruct (rsp c) as [[k m]|] eqn:E; [rewrite E|]. Qed.

Definition failed_or_open c : Prop := match rsp c with Some (k, _) => k <> ErrorCode_Success | None => True end.

Lemma Wait_failed w c : failed_or_open c -> failed_or_open (Wait w c).
Proof. unfold failed_or_open. destruct w as [[[] m]|]; cbn; unfold setMasterRsp; destruct (rsp c) as [[k m']|] eqn:E; rewrite ?E; done. Qed.

Lemma set_failed code msg c : code <> ErrorCode_Success -> failed_or_open c -> failed_or_open (setMasterRsp code msg c).
Proof. intros Hc H. unfold setMasterRsp, failed_or_open in *. destruct (rsp c) as [[k m]|] eqn:E; [by rewrite E|done]. Qed.

Lemma backoff_frame r c : exists d, backoffRetryDelay r c = with_delay d c.
Proof. unfold backoffRetryDelay. destruct (_ =? _); eauto. Qed.

Lemma Wait_kept w c x : rsp c = Some x -> rsp (Wait w c) = Some x.
Proof. intros H. destruct w as [[k m]|]; [|done]. cbn. unfold setMasterRsp. by rewrite H. Qed.

(** The decision to try again touches only the retry fields. *)
Lemma errorCodeRetry_frame r c b c' : errorCodeRetry r c = (b, c') ->
  m_SandboxID c' = m_SandboxID c /\ rsp c' = rsp c /\ cubeletRsp c' = cubeletRsp c /\ selectHost c' = selectHost c /\
  directHost c' = directHost c /\ retryTimes c' = retryTimes c /\
  (b = true -> r_code (cubeletRsp c) <> ErrorCode_Success /\ (retryTimes c <= MaxRetry \/ retryTimes c <= LoopMaxRetry)).
Proof.
  unfold errorCodeRetry. destruct (Z.eqb_spec (r_code (cubeletRsp c)) ErrorCode_Success); [by intros [= <- <-]|].
  destruct (bool_decide _); [by intros [= <- <-]|].
  assert (forall c0, exists d, (if bool_decide (r_code (cubeletRsp c) ∈ cubeBackoffCodeMap codes) then backoffRetryDelay r c0 else c0) = with_delay d c0) as Hd.
  { intros c0. destruct (bool_decide _); [apply backoff_frame|]. exists (delay c0). by destruct c0. }
  cbn zeta. destruct (bool_decide (_ ∈ cubeReuseCodeRetryMap codes)); cbn [andb].
  - destruct (Z.leb_spec (retryTimes (with_retry (retryTimes c) false false c)) MaxRetry) as [Hle|].
    + intros [= <- <-]. destruct (Hd (with_retry (retryTimes c) false false c)) as [d ->]. cbn in *. split_and!; try done. intros _. split; [done|]. by left.
    + destruct (bool_decide (_ ∈ cubeCodeLoopRetryMap codes)); [|by intros [= <- <-]].
      destruct (Z.leb_spec (retryTimes (with_retry (retryTimes (with_retry (retryTimes c) false false c)) true true (with_retry (retryTimes c) false false c))) LoopMaxRetry) as [Hle|];
        [|by intros [= <- <-]].
      intros [= <- <-]. match goal with |- context [if _ then backoffRetryDelay r ?c0 else ?c0] => destruct (Hd c0) as [d ->] end.
      cbn in *. split_and!; try done. intros _. split; [done|]. by right.
  - destruct (bool_decide (_ ∈ cubeCodeLoopRetryMap codes)); [|by intros [= <- <-]].
    destruct (Z.leb_spec (retryTimes (with_retry (retryTimes c) true true c)) LoopMaxRetry) as [Hle|]; [|by intros [= <- <-]].
    intros [= <- <-]. destruct (Hd (with_retry (retryTimes c) true true c)) as [d ->]. cbn in *. split_and!; try done. intros _. split; [done|]. by right.
Qed.

Lemma callCubelet_spec t n c e b c' e' : callCubelet t n c e = (b, c', e') ->
  m_SandboxID c' = m_SandboxID c /\ selectHost c' = selectHost c /\ directHost c' = directHost c /\ retryTimes c' = retryTimes c /\
  e' = call_effects (DecrNodeConcurrent n (IncrNodeConcurrent n (e_nodes e))) (ID n, t_answer t) e /\
  (failed_or_open c -> failed_or_open c') /\
  (r_code (cubeletRsp c') = ErrorCode_Success -> r_code (cubeletRsp c) <> ErrorCode_Success ->
     b = false /\ t_answer t = ARsp (cubeletRsp c')) /\
  (success (t_answer t) = true -> b = false /\ t_answer t = ARsp (cubeletRsp c')) /\
  (b = true -> (exists m, t_answer t = AErr m) \/ retryTimes c <= MaxRetry \/ retryTimes c <= LoopMaxRetry).
Proof.
  unfold callCubelet. destruct (t_answer t) as [m|r|] eqn:E.
  - unfold errRetry. match goal with |- context [backoffRetryDelay ?r ?c0] => destruct (backoff_frame r c0) as [d ->] end.
    intros [= <- <- <-]. cbn. split_and!; try done. intros _. left. eauto.
  - destruct (errorCodeRetry (t_rand t) (with_cubeletRsp r c)) as [b0 c0] eqn:E0. intros [= <- <- <-].
    destruct (errorCodeRetry_frame _ _ _ _ E0) as (H1 & H2 & H3 & H4 & H5 & H6 & H7). cbn in *. split_and!; try done.
    + unfold failed_or_open. by rewrite H2.
    + intros Hs _. rewrite H3 in *. split; [|done]. destruct b0; [|done]. by destruct (H7 eq_refl).
    + intros Hs%Z.eqb_eq. rewrite H3. split; [|done]. destruct b0; [|done]. by destruct (H7 eq_refl).
    + intros Hb. right. by destruct (H7 Hb).
  - intros [= <- <- <-]. destruct (setMasterRsp_frame ErrorCode_ReqCubeAPIFailed "panic fatal error" c) as (_ & H2 & H3 & _ & H5 & H6 & H7).
    cbn. split_and!; try done; [by apply set_failed|]. intros Hs. by rewrite H5 in Hs.
Qed.

Lemma schedule_frame w c o c' : schedule w c = (o, c') ->
  m_SandboxID c' = m_SandboxID c /\ rsp c' = rsp c /\ cubeletRsp c' = cubeletRsp c /\ retryTimes c' = retryTimes c /\ directHost c' = directHost c.
Proof. unfold schedule. destruct (_ || _); [by intros [= <- <-]|]. by destruct (Select w (selctx_ c)) as [[[]|] ?]; intros [= <- <-]. Qed.

(** Publishing a sandbox: the answer is recorded, and if it is a success the proxies know the sandbox. *)
Lemma dealSuccResult_made t n c e c' e' : r_code (cubeletRsp c) = ErrorCode_Success -> failed_or_open c ->
  dealSuccResult t n c e = (c', e') ->
  e_tasks e' = e_tasks e /\ e_calls e' = e_calls e /\ e_nodes e' = e_nodes e /\ selectHost c' = selectHost c /\ cubeletRsp c' = cubeletRsp c /\
  m_SandboxID c' = r_SandboxID (cubeletRsp c) /\ m_HostID c' = ID n /\ is_Some (rsp c') /\
  (RetCode c' = ErrorCode_Success -> instanceType = "cubebox" ->
     exists p, e_proxies e' !! r_SandboxID (cubeletRsp c) = Some p /\ p_HostIP p = IP n /\ p_SandboxID p = r_SandboxID (cubeletRsp c)).
Proof.
  intros Hs Hf. unfold dealSuccResult. rewrite Hs, Z.eqb_refl. set (c1 := with_made _ _ c).
  destruct (setProxyToRedis t n c1 e) as [[o c2] e2] eqn:E.
  assert (e_tasks e2 = e_tasks e /\ e_calls e2 = e_calls e /\ e_nodes e2 = e_nodes e /\ selectHost c2 = selectHost c /\ cubeletRsp c2 = cubeletRsp c /\
    m_SandboxID c2 = r_SandboxID (cubeletRsp c) /\ m_HostID c2 = ID n /\ rsp c2 = rsp c /\
    (rsp c = None -> o = None -> instanceType = "cubebox" ->
       exists p, e_proxies e2 !! r_SandboxID (cubeletRsp c) = Some p /\ p_HostIP p = IP n /\ p_SandboxID p = r_SandboxID (cubeletRsp c)))
    as (H1 & H2 & H3 & H4 & H5 & H6 & H7 & H8 & H9).
  { unfold setProxyToRedis in E. change (rsp c1) with (rsp c) in E. destruct (rsp c) as [[k m]|] eqn:Er.
    - unfold failed_or_open in Hf. rewrite Er in Hf. rewrite (proj2 (Z.eqb_neq _ _) Hf) in E. cbn in E. injection E as <- <- <-. done.
    - destruct (bool_decide_reflect (instanceType = "cubebox")) as [Hi|Hi]; [|by injection E as <- <- <-].
      destruct (t_redis t) as [err|]; injection E as <- <- <-; cbn; [by split_and!|]. split_and!; try done. intros _ _ _.
      rewrite lookup_insert_eq. eauto. }
  intros [= <- <-]. set (c3 := match o with Some err => _ | None => _ end).
  assert ((rsp c = None /\ o = None) \/ exists k m, rsp c3 = Some (k, m) /\ k <> ErrorCode_Success) as Hcase.
  { unfold failed_or_open in Hf. destruct (rsp c) as [[k m]|] eqn:Er.
    - right. exists k, m. split; [|done]. unfold c3, setMasterRsp. rewrite H8. by destruct o.
    - destruct o as [err|]; [right|by left]. exists ErrorCode_DBError, ("setProxyToRedis fail:" +:+ err). split; [|done].
      unfold c3, setMasterRsp. by rewrite H8. }
  destruct (setMasterRsp_frame (r_code (cubeletRsp c3)) (r_msg (cubeletRsp c3)) (Wait (t_wait2 t) c3)) as (_ & -> & -> & -> & -> & _).
  destruct (Wait_frame (t_wait2 t) c3) as (_ & -> & -> & -> & -> & _).
  assert (selectHost c3 = selectHost c2 /\ m_SandboxID c3 = m_SandboxID c2 /\ m_HostID c3 = m_HostID c2 /\ cubeletRsp c3 = cubeletRsp c2) as (-> & -> & -> & ->).
  { unfold c3. destruct o; [|done]. by destruct (setMasterRsp_frame ErrorCode_DBError ("setProxyToRedis fail:" +:+ s) c2) as (_ & ? & ? & ? & ? & _). }
  split_and!; try done.
  - unfold setMasterRsp. destruct (rsp (Wait _ _)) as [[]|] eqn:Ew; [rewrite Ew|]; eauto.
  - intros Hcode. destruct Hcase as [[? ?]|(k & m & Hk & Hne)]; [by apply H9|]. exfalso. apply Hne. rewrite <- Hcode.
    rewrite setMasterRsp_code, (Wait_kept _ _ _ Hk). done.
Qed.

(** One round, when the context has not ended. *)
Lemma round_cases t ts c e c' e' : handleCubelet (t :: ts) c e = (c', e') ->
  let e1 := MkEffects (t_others t (e_nodes e)) (e_proxies e) (e_tasks e) (e_calls e) in
  (t_done t = true /\ c' = c /\ e' = e) \/
  (t_done t = false /\ e' = e1 /\ exists code msg c1, code <> ErrorCode_Success /\ c' = setMasterRsp code msg c1 /\
     m_SandboxID c1 = m_SandboxID c /\ rsp c1 = rsp c /\ cubeletRsp c1 = cubeletRsp c) \/
  (t_done t = false /\ exists (n : Node) c1 b c2 e2, IP n <> "" /\ selectHost c1 = Some n /\ m_SandboxID c1 = m_SandboxID c /\ rsp c1 = rsp c /\
     cubeletRsp c1 = cubeletRsp c /\ retryTimes c1 = retryTimes c /\ directHost c1 = directHost c /\
     callCubelet t n (Wait (t_wait1 t) c1) e1 = (b, c2, e2) /\
     (c', e') = if b : bool then handleCubelet ts (mark_bad n (with_retry (retryTimes c2 + 1) (loopRetry c2) (reschedule c2) c2)) e2
                else dealSuccResult t n c2 e2).
Proof.
  cbn [handleCubelet]. destruct (t_done t); [intros [= <- <-]; by left|]. intros H. right.
  destruct (schedule _ c) as [o c1] eqn:Es in H. destruct (schedule_frame _ _ _ _ Es) as (H1 & H2 & H3 & H4 & H5).
  destruct o as [err|].
  - injection H as <- <-. left. split_and!; try done. exists (select_code err), err, c1. split_and!; try done.
    unfold select_code. by destruct (bool_decide _).
  - destruct (selectHost c1) as [n|] eqn:Eh.
    + destruct (bool_decide_reflect (IP n = "")) as [Hip|Hip].
      * injection H as <- <-. left. split_and!; try done. exists ErrorCode_DBError, "HostIP is empty", c1. by split_and!.
      * destruct (callCubelet t n (Wait (t_wait1 t) c1) _) as [[b c2] e2] eqn:Ec in H. right. split; [done|].
        exists n, c1, b, c2, e2. by split_and!.
    + injection H as <- <-. left. split_and!; try done. exists ErrorCode_ReqCubeAPIFailed, "panic fatal error", c1. by split_and!.
Qed.

Lemma mark_bad_frame n c : let c' := mark_bad n c in
  m_SandboxID c' = m_SandboxID c /\ rsp c' = rsp c /\ cubeletRsp c' = cubeletRsp c /\ retryTimes c' = retryTimes c /\ directHost c' = directHost c /\
  selectHost c' = selectHost c.
Proof. unfold mark_bad. by destruct (bool_decide _). Qed.

(** The loop ends without a sandbox, or its last call made one. *)
Lemma handle_spec ts : forall c e c' e', handleCubelet ts c e = (c', e') ->
  m_SandboxID c = "" -> r_code (cubeletRsp c) <> ErrorCode_Success -> failed_or_open c ->
  e_tasks e' = e_tasks e /\
  exists new, Forall (fun x => success x.2 = false) new /\
  ((e_calls e' = (new ++ e_calls e)%list /\ m_SandboxID c' = "" /\ failed_or_open c' /\ r_code (cubeletRsp c') <> ErrorCode_Success) \/
   (exists n r, e_calls e' = ((ID n, ARsp r) :: new ++ e_calls e)%list /\ r_code r = ErrorCode_Success /\ selectHost c' = Some n /\
      cubeletRsp c' = r /\ m_SandboxID c' = r_SandboxID r /\ m_HostID c' = ID n /\ is_Some (rsp c') /\
      (RetCode c' = ErrorCode_Success -> instanceType = "cubebox" ->
         exists p, e_proxies e' !! r_SandboxID r = Some p /\ p_HostIP p = IP n /\ p_SandboxID p = r_SandboxID r))).
Proof.
  induction ts as [|t ts IH]; intros c e c' e' H Hm Hr Hf.
  { injection H as <- <-. split; [done|]. exists []. split; [constructor|]. by left. }
  destruct (round_cases t ts c e c' e' H) as [(_ & -> & ->)|[(_ & -> & code & msg & c1 & Hc & -> & H1 & H2 & H3)|
    (_ & n & c1 & b & c2 & e2 & _ & Hh & H1 & H2 & H3 & H4 & H5 & Hcall & Hrest)]].
  - split; [done|]. exists []. split; [constructor|]. by left.
  - split; [done|]. exists []. split; [constructor|]. left. destruct (setMasterRsp_frame code msg c1) as (_ & _ & -> & _ & -> & _).
    rewrite H1, H3. split_and!; try done. apply set_failed; [done|]. unfold failed_or_open. by rewrite H2.
  - destruct (Wait_frame (t_wait1 t) c1) as (_ & W2 & W3 & W4 & W5 & W6 & W7).
    assert (failed_or_open (Wait (t_wait1 t) c1)) as Hf1 by (apply Wait_failed; unfold failed_or_open; by rewrite H2).
    destruct (callCubelet_spec _ _ _ _ _ _ _ Hcall) as (K1 & K2 & K3 & K4 & -> & K6 & K7 & K8 & _).
    rewrite W3, H1 in K1. rewrite W5, H3 in K7. destruct b.
    + destruct (mark_bad_frame n (with_retry (retryTimes c2 + 1) (loopRetry c2) (reschedule c2) c2)) as (M1 & M2 & M3 & _).
      destruct (IH _ _ _ _ (eq_sym Hrest)) as (HT & new & Hnew & Hcases).
      * rewrite M1. cbn. by rewrite K1.
      * rewrite M3. cbn. intros Hs. by destruct (K7 Hs Hr).
      * unfold failed_or_open in *. rewrite M2. cbn. by apply K6.
      * split; [by rewrite HT|]. exists (new ++ [(ID n, t_answer t)])%list. split.
        { apply Forall_app. split; [done|]. constructor; [|constructor]. cbn. apply not_true_iff_false. intros Hs. by destruct (K8 Hs). }
        cbn [e_calls call_effects] in Hcases. rewrite <- app_assoc. exact Hcases.
    + cbn [call_effects e_calls e_tasks] in *. destruct (success (t_answer t)) eqn:Hs.
      * destruct (K8 eq_refl) as [_ Ha]. rewrite Ha in Hs. cbn in Hs. apply Z.eqb_eq in Hs.
        destruct (dealSuccResult_made t n c2 _ c' e' Hs (K6 Hf1) (eq_sym Hrest)) as (-> & -> & _ & D4 & D5 & D6 & D7 & D8 & D9).
        split; [done|]. exists []. split; [constructor|]. right. exists n, (cubeletRsp c2). cbn. rewrite Ha. split_and!; try done.
        by rewrite D4, K2, W2.
      * assert (r_code (cubeletRsp c2) <> ErrorCode_Success) as Hn.
        { intros Hs2. destruct (K7 Hs2 Hr) as [_ Ha]. rewrite Ha in Hs. cbn in Hs. by rewrite Hs2 in Hs. }
        unfold dealSuccResult in Hrest. rewrite (proj2 (Z.eqb_neq _ _) Hn) in Hrest. injection Hrest as -> ->.
        split; [done|]. exists [(ID n, t_answer t)]. split; [by constructor|]. left. cbn. split_and!; try done; [by rewrite K1|by apply K6].
Qed.

(** C6: no sandbox is lost unnoticed.  Whatever the scheduler, the Cubelets, Redis, the
    context of the request and the queue of tasks do: when a call made a sandbox, either
    the request is answered with success, with that sandbox and its node, and the proxies
    can reach it (for the type cubebox), or the request is answered with an error and the
    destruction of that sandbox is queued, or it is answered with an error, AddAsyncTask
    refused the task (its queue was full), which is only logged, and nothing is queued: the
    sandbox stays.  An answer of success always comes with a sandbox that was made, and
    destroys nothing. *)
Theorem no_sandbox_lost s direct ts w queued e c' e' :
  e_calls e = [] -> Handle ts w queued (new_request s direct) e = (c', e') ->
  (forall id r, (id, ARsp r) ∈ e_calls e' -> r_code r = ErrorCode_Success -> r_SandboxID r <> "" ->
     (RetCode c' = ErrorCode_Success /\ m_SandboxID c' = r_SandboxID r /\ m_HostID c' = id /\
      (instanceType = "cubebox" -> exists p, e_proxies e' !! r_SandboxID r = Some p /\ p_SandboxID p = r_SandboxID r)) \/
     (RetCode c' <> ErrorCode_Success /\
      match queued with None => exists ip, e_tasks e' = (ip, r_SandboxID r) :: e_tasks e | Some _ => e_tasks e' = e_tasks e end)) /\
  (RetCode c' = ErrorCode_Success -> e_tasks e' = e_tasks e /\
     exists id r, (id, ARsp r) ∈ e_calls e' /\ r_code r = ErrorCode_Success /\ m_SandboxID c' = r_SandboxID r).
Proof.
  intros He H. unfold Handle in H. destruct (handleCubelet ts (new_request s direct) e) as [c1 e1] eqn:E.
  destruct (handle_spec ts _ _ _ _ E) as (HT & new & Hnew & Hcases); [done|done|done|]. rewrite He, app_nil_r in Hcases.
  set (c2 := setMasterRsp _ _ _) in H. injection H as <- <-.
  assert (forall id r, (id, ARsp r) ∈ new -> r_code r <> ErrorCode_Success) as Hno.
  { intros id r Hin Hs. rewrite Forall_forall in Hnew. specialize (Hnew _ Hin). cbn in Hnew. by rewrite Hs in Hnew. }
  destruct Hcases as [(Hc & Hm & Hf & Hr)|(n & r & Hc & Hr & Hh & Hcr & Hm & Hid & [x Hrsp] & Hp)].
  - assert (RetCode c2 <> ErrorCode_Success) as Hc2.
    { unfold c2. rewrite setMasterRsp_code. apply (Wait_failed w) in Hf. unfold failed_or_open in Hf.
      destruct (Wait_frame w c1) as (_ & _ & _ & _ & _ & _). destruct (rsp (Wait w c1)) as [[k m]|]; done. }
    split; [|done]. intros id r Hin Hs. assert (e_calls (failover queued c2 e1) = e_calls e1) as Ef by (unfold failover; by repeat case_match).
    rewrite Ef, Hc in Hin. by apply Hno in Hin.
  - assert (c2 = c1) as ->.
    { unfold c2, setMasterRsp. rewrite (Wait_kept _ _ _ Hrsp). unfold Wait. destruct w as [[k m]|]; [|done]. unfold setMasterRsp. by rewrite Hrsp. }
    assert (forall id r', (id, ARsp r') ∈ e_calls e1 -> r_code r' = ErrorCode_Success -> id = ID n /\ r' = r) as Honly.
    { intros id r' Hin Hs. rewrite Hc in Hin. apply elem_of_cons in Hin as [[= -> ->]|Hin]; [done|]. by apply Hno in Hin. }
    unfold failover. destruct (Z.eqb_spec (RetCode c1) ErrorCode_Success) as [Hok|Hbad]; cbn [negb andb].
    + split.
      * intros id r' Hin Hs Hne. destruct (Honly id r' Hin Hs) as [-> ->]. left. split_and!; try done. intros Hi. destruct (Hp Hok Hi) as (p & ? & ? & ?). eauto.
      * intros _. split; [done|]. exists (ID n), r. rewrite Hc. split; [by left|done].
    + split; [|done]. intros id r' Hin Hs Hne. rewrite Hm, Hh in *. destruct queued as [err|].
      * replace (if negb (r_SandboxID r =s "") then e1 else e1) with e1 in * by (by destruct (negb _)). destruct (Honly id r' Hin Hs) as [-> ->]. by right.
      * assert (forall (e0 : effects), e_calls (if negb (bool_decide (r_SandboxID r = "")) then MkEffects (e_nodes e1) (e_proxies e1) ((IP n, r_SandboxID (cubeletRsp c1)) :: e_tasks e1) (e_calls e1) else e1) = e_calls e1) as Ef by (intros _; by destruct (negb _)).
        rewrite (Ef e1) in Hin. destruct (Honly id r' Hin Hs) as [-> ->]. right. split; [done|]. rewrite bool_decide_eq_false_2 by done. cbn. rewrite Hcr, HT. eauto.
Qed.

(** ** How often the Cubelet is called *)

Lemma dealSuccResult_calls t n c e : e_calls (dealSuccResult t n c e).2 = e_calls e /\ e_nodes (dealSuccResult t n c e).2 = e_nodes e.
Proof.
  unfold dealSuccResult. destruct (_ =? _); [|done]. destruct (setProxyToRedis _ _ _ e) as [[o c2] e2] eqn:E. cbn [snd].
  unfold setProxyToRedis in E. cbn zeta in E. destruct (match rsp _ with Some _ => _ | None => _ end); [by injection E as <- <- <-|].
  destruct (bool_decide _); [|by injection E as <- <- <-]. by destruct (t_redis t); injection E as <- <- <-.
Qed.

Lemma calls_bounded ts : forall c e, Forall (fun t => forall m, t_answer t <> AErr m) ts ->
  Z.of_nat (length (e_calls (handleCubelet ts c e).2)) <=
  Z.of_nat (length (e_calls e)) + Z.max 0 (Z.max MaxRetry LoopMaxRetry + 1 - retryTimes c) + 1.
Proof.
  induction ts as [|t ts IH]; intros c e Ha; [cbn; lia|]. apply Forall_cons in Ha as [Ht Ha].
  destruct (handleCubelet (t :: ts) c e) as [c' e'] eqn:E. cbn [snd].
  destruct (round_cases t ts c e c' e' E) as [(_ & -> & ->)|[(_ & -> & _)|(_ & n & c1 & b & c2 & e2 & _ & _ & _ & _ & _ & H4 & _ & Hcall & Hrest)]].
  - lia.
  - cbn. lia.
  - destruct (callCubelet_spec _ _ _ _ _ _ _ Hcall) as (_ & _ & _ & K4 & -> & _ & _ & _ & K9).
    destruct (Wait_frame (t_wait1 t) c1) as (_ & _ & _ & _ & _ & W6 & _). rewrite W6, H4 in *. destruct b.
    + destruct (K9 eq_refl) as [[m Hm]|Hle]; [by destruct (Ht m)|]. apply (f_equal snd) in Hrest. cbn [snd] in Hrest. rewrite Hrest.
      etrans; [by apply IH|]. destruct (mark_bad_frame n (with_retry (retryTimes c2 + 1) (loopRetry c2) (reschedule c2) c2)) as (_ & _ & _ & -> & _).
      cbn. lia.
    + destruct (dealSuccResult_calls t n c2 (call_effects (DecrNodeConcurrent n (IncrNodeConcurrent n (t_others t (e_nodes e)))) (ID n, t_answer t)
        (MkEffects (t_others t (e_nodes e)) (e_proxies e) (e_tasks e) (e_calls e)))) as [Hc _].
      cbn [e_nodes] in Hrest. rewrite <- Hrest in Hc. cbn [snd] in Hc. rewrite Hc. cbn. lia.
Qed.

(** The number of calls is bounded when the Cubelets answer: as many as the larger
    of the two retry limits says, plus two.  The loop therefore ends without the
    end of the context. *)
Theorem retries_bounded s direct ts e : 0 <= MaxRetry -> Forall (fun t => forall m, t_answer t <> AErr m) ts ->
  Z.of_nat (length (e_calls (handleCubelet ts (new_request s direct) e).2)) <=
    Z.of_nat (length (e_calls e)) + Z.max MaxRetry LoopMaxRetry + 2.
Proof. intros HM Ha. etrans; [by apply calls_bounded|]. cbn. lia. Qed.

(** Defect: no retry limit applies to a call that cannot be made.  A request for a
    fixed host that does not answer is sent to it again and again until its
    context ends. *)
Theorem unreachable_host_retried_forever s (n : Node) ts e : IP n <> "" ->
  Forall (fun t => t_done t = false /\ exists m, t_answer t = AErr m) ts ->
  length (e_calls (handleCubelet ts (new_request s (Some n)) e).2) = (length ts + length (e_calls e))%nat.
Proof.
  intros Hip Hts. assert (forall c, directHost c = true -> selectHost c = Some n ->
    length (e_calls (handleCubelet ts c e).2) = (length ts + length (e_calls e))%nat) as Hg; [|by apply Hg].
  revert e. induction Hts as [|t ts [Hd [m Hm]] _ IH]; intros e c Hdir Hh; [done|].
  cbn [handleCubelet]. rewrite Hd. unfold schedule. rewrite Hdir. cbn [orb]. rewrite Hh, bool_decide_eq_false_2 by done.
  destruct (callCubelet t n (Wait (t_wait1 t) c) _) as [[b c2] e2] eqn:Hcall.
  destruct (callCubelet_spec _ _ _ _ _ _ _ Hcall) as (_ & K2 & K3 & _ & -> & _).
  destruct (Wait_frame (t_wait1 t) c) as (_ & W2 & _ & _ & _ & _ & W7).
  assert (b = true) as -> by (unfold callCubelet, errRetry in Hcall; rewrite Hm in Hcall; by injection Hcall as <- _).
  destruct (mark_bad_frame n (with_retry (retryTimes c2 + 1) (loopRetry c2) (reschedule c2) c2)) as (_ & _ & _ & _ & M5 & M6).
  rewrite IH; [cbn; lia| |].
  - rewrite M5. cbn. by rewrite K3, W7.
  - rewrite M6. cbn. by rewrite K2, W2.
Qed.

(** ** Counts of creations *)

Definition counts_in_range (l : local) : Prop := forall p n, heap l !! p = Some n -> int_min <= LocalCreateNum n <= int_max.

Lemma call_keeps_counts n l : counts_in_range l -> DecrNodeConcurrent n (IncrNodeConcurrent n l) = l.
Proof.
  intros H. unfold DecrNodeConcurrent, IncrNodeConcurrent, NodeConcurrentIncrBy. destruct (cache l !! ID n) as [p|] eqn:E; [|by rewrite E].
  cbn [cache set_heap]. rewrite E. destruct l as [h nx ca so to cl]. unfold set_heap. cbn [heap next cache sortedNodesByClusters totalSelfNodes closedConns].
  f_equal. apply map_eq. intros q. destruct (decide (q = p)) as [->|Hq]; [|by rewrite !lookup_alter_ne].
  rewrite !lookup_alter_eq. destruct (h !! p) as [m|] eqn:Em; [|done]. cbn. f_equal. unfold with_creates. cbn.
  specialize (H p m Em). destruct m as [ix ii dc me mt ml sc lc]. cbn in *. f_equal.
  unfold wrap64, int_min, int_max in *.
  replace ((lc + 1 + 2 ^ 63) `mod` 2 ^ 64 - 2 ^ 63 + -1 + 2 ^ 63) with ((lc + 1 + 2 ^ 63) `mod` 2 ^ 64 + -1) by lia.
  rewrite Zplus_mod_idemp_l, Z.mod_small; lia.
Qed.

(** A request leaves no trace in the counts of creations per node: after it, the
    node cache is what the other requests made of it, however many calls were
    made and however they ended. *)
Theorem counts_restored ts c e : (forall t l, t ∈ ts -> counts_in_range l -> counts_in_range (t_others t l)) -> counts_in_range (e_nodes e) ->
  exists k, e_nodes (handleCubelet ts c e).2 = foldl (fun l t => t_others t l) (e_nodes e) (take k ts).
Proof.
  revert c e. induction ts as [|t ts IH]; intros c e Ho Hc; [by exists 0%nat|].
  destruct (handleCubelet (t :: ts) c e) as [c' e'] eqn:E. cbn [snd].
  destruct (round_cases t ts c e c' e' E) as [(_ & -> & ->)|[(_ & -> & _)|(_ & n & c1 & b & c2 & e2 & _ & _ & _ & _ & _ & _ & _ & Hcall & Hrest)]].
  - by exists 0%nat.
  - by exists 1%nat.
  - destruct (callCubelet_spec _ _ _ _ _ _ _ Hcall) as (_ & _ & _ & _ & -> & _).
    assert (counts_in_range (t_others t (e_nodes e))) as Hc1 by (apply Ho; [by left|done]).
    cbn [e_nodes] in Hrest. rewrite (call_keeps_counts n _ Hc1) in Hrest. destruct b.
    + apply (f_equal snd) in Hrest. cbn [snd] in Hrest. rewrite Hrest.
      match goal with |- context [handleCubelet ts ?cc ?ee] => destruct (IH cc ee) as [k Hk] end.
      * intros t' l Ht. apply Ho. by right.
      * exact Hc1.
      * exists (S k). exact Hk.
    + exists 1%nat. cbn [take foldl].
      match type of Hrest with _ = dealSuccResult _ _ _ ?ee => destruct (dealSuccResult_calls t n c2 ee) as [_ Hn] end.
      rewrite <- Hrest in Hn. exact Hn.
Qed.

End Create.

(** ** A request *)

#[local] Existing Instance demo_runtime.
#[local] Existing Instance demo_sort.
#[local] Existing Instance demo_quantity.
#[local] Existing Instance demo_draw.

Definition demo_cubelet : CubeletConf := MkCubelet [] [] [] [] [] [] 5000000 1 false.
Definition demo_codes : code_maps := initMap (fun _ => None) demo_cubelet.
Definition demo_effects : effects := MkEffects demo_cache ∅ [] [].
Definition demo_turn (a : answer) (w2 : option (bool * string)) : turn Z :=
  MkTurn false (fun l => l) demo_world a None w2 None "tok" f64_zero.
Definition demo_made : answer := ARsp (MkRsp 200 "ok" "sb-1" "172.16.0.2" ∅).
Definition demo_busy : answer := ARsp (MkRsp ConcurrentLimited "busy" "" "" ∅).
Abbreviation demo_handle ts :=
  (Handle demo_cubelet demo_codes 1 2 "cubebox" true ts None None (new_request (demo_request "") None) demo_effects).

Definition demo_request_ok : list (turn Z) := [demo_turn demo_busy None; demo_turn demo_made None].
Definition demo_request_late : list (turn Z) := [demo_turn demo_made (Some (false, "deadline"))].

Lemma demo_handle_ok : let r := demo_handle demo_request_ok in RetCode r.1 = 200 /\ m_SandboxID r.1 = "sb-1".
Proof. by vm_compute. Qed.
Lemma demo_handle_late : let r := demo_handle demo_request_late in RetCode r.1 = 130595 /\ e_calls r.2 = [("h1", demo_made)].
Proof. by vm_compute. Qed.

(** When the queue of tasks is full, the sandbox of a request that failed stays: nothing
    will destroy it. *)
Theorem full_queue_loses_sandbox :
  let r := Handle demo_cubelet demo_codes 1 2 "cubebox" true demo_request_late None (Some "queue is full") (new_request (demo_request "") None) demo_effects in
  RetCode r.1 = 130595 /\ m_SandboxID r.1 = "sb-1" /\ e_calls r.2 = [("h1", demo_made)] /\ e_tasks r.2 = [].
Proof. by vm_compute. Qed.

(** A busy node, then a sandbox; the second request ends before it can be answered. *)
Lemma no_sandbox_lost_witness :
  (forall c e, demo_handle demo_request_ok = (c, e) -> RetCode c = 200 /\ e_tasks e = []) /\
  (forall c e, demo_handle demo_request_late = (c, e) -> RetCode c = 130595 /\ exists ip, e_tasks e = [(ip, "sb-1")]).
Proof.
  split; intros c e E.
  - assert (RetCode c = 200) as Hr by (rewrite <- (proj1 demo_handle_ok), E; reflexivity). split; [exact Hr|].
    exact (proj1 (proj2 (no_sandbox_lost demo_cubelet demo_codes 1 2 "cubebox" true (demo_request "") None demo_request_ok None None demo_effects c e eq_refl E) Hr)).
  - assert (RetCode c = 130595) as Hr by (rewrite <- (proj1 demo_handle_late), E; reflexivity). split; [exact Hr|].
    assert (e_calls e = [("h1", demo_made)]) as Hc by (rewrite <- (proj2 demo_handle_late), E; reflexivity).
    pose proof (proj1 (no_sandbox_lost demo_cubelet demo_codes 1 2 "cubebox" true (demo_request "") None demo_request_late None None demo_effects c e eq_refl E)) as H.
    rewrite Hc in H. destruct (H "h1" (MkRsp 200 "ok" "sb-1" "172.16.0.2" ∅)) as [[Hbad _]|[_ [ip Hip]]].
    + left.
    + reflexivity.
    + discriminate.
    + rewrite Hr in Hbad. discriminate Hbad.
    + exists ip. exact Hip.
Defined.

Definition demo_busy_turns : list (turn Z) := replicate 9 (demo_turn demo_busy None).
Abbreviation demo_loop ts direct :=
  (handleCubelet demo_cubelet demo_codes 1 2 "cubebox" true ts (new_request (demo_request "") direct) demo_effects).

(** A node that stays busy is called four times for limits of one and two. *)
Lemma retries_bounded_witness :
  Z.of_nat (length (e_calls (demo_loop demo_busy_turns None).2)) = 4 /\
  Z.of_nat (length (e_calls (demo_loop demo_busy_turns None).2)) <= 4.
Proof.
  split; [by vm_compute|].
  assert (Z.of_nat (length (e_calls demo_effects)) + Z.max 1 2 + 2 = 4) as H4 by (by vm_compute). rewrite <- H4.
  apply (retries_bounded demo_cubelet demo_codes 1 2 "cubebox" true (demo_request "") None demo_busy_turns demo_effects).
  - lia.
  - by apply Forall_replicate.
Defined.

Definition demo_refused_turns : list (turn Z) := replicate 9 (demo_turn (AErr "refused") None).

Lemma unreachable_host_retried_forever_witness :
  length (e_calls (demo_loop demo_refused_turns (Some (demo_node 1 "h1" "l1" true))).2) = (9 + length (e_calls demo_effects))%nat.
Proof.
  apply (unreachable_host_retried_forever demo_cubelet demo_codes 1 2 "cubebox" true (demo_request "") (demo_node 1 "h1" "l1" true)
    demo_refused_turns demo_effects).
  - discriminate.
  - apply Forall_replicate. split; [reflexivity|]. by exists "refused".
Defined.

Lemma demo_counts : counts_in_range demo_cache.
Proof.
  assert (map_Forall (fun _ n => LocalCreateNum n = 0) (heap demo_cache)) as H.
  { apply (bool_decide_unpack _). by vm_compute. }
  intros p n Hn. specialize (H p n Hn). cbn in H. rewrite H. unfold int_min, int_max. lia.
Qed.

Lemma counts_restored_witness :
  exists k, e_nodes (demo_loop demo_request_ok None).2 = foldl (fun l t => t_others t l) demo_cache (take k demo_request_ok).
Proof.
  apply (counts_restored demo_cubelet demo_codes 1 2 "cubebox" true demo_request_ok (new_request (demo_request "") None) demo_effects).
  - intros t l Ht Hl. apply elem_of_cons in Ht as [->|Ht]; [exact Hl|]. apply elem_of_cons in Ht as [->|Ht]; [exact Hl|].
    destruct (not_elem_of_nil _ Ht).
  - exact demo_counts.
Defined.
