(* ===== verification/MasterTask.v ===== *)
(** * Asynchronous tasks of CubeMaster
    (CubeMaster/pkg/task, base/queueworker, base/wrapconcurrent, base/retry,
    base/rediskey)

    Destructions, image operations and updates are put into one bounded queue.  A
    worker takes a task, asks the limiter of its kind for a permit for at most a
    second and starts a goroutine; the goroutine calls the Cubelet and either
    reports the outcome or puts the task back after a pause.  A task is a shared
    object: the queue, the workers and the goroutines hold its address.

    The state keeps a log of what happened to each task; nothing of the program
    reads it. *)
From S2P Require Import Prelude GoStrings GoValue MasterConfig MasterNodes MasterQueue MasterTemplates MasterSched MasterCreate.
From Stdlib Require Import Ascii Floats.SpecFloat.

Open Scope string_scope.
Open Scope Z_scope.

(** ** Keys of Redis (base/rediskey) *)

Definition Prefix : string := "cube".
Definition Version : string := "v1".
Definition ScopeMaster : string := "master".
Definition ScopeShared : string := "shared".
Definition join (segs : list string) : string := Join segs ":".
Definition SandboxProxy (id : string) : string := join [Prefix; Version; ScopeShared; "sandbox"; "proxy"; id].
Definition DescribeTask (id : string) : string := join [Prefix; Version; ScopeMaster; "task"; "describe"; id].
Definition LegacySandboxProxy (id : string) : string := "bypass_host_proxy:" +:+ id.
Definition DeleteKeys (newKey legacyKey : string) : list string := [newKey; legacyKey].

(** ** Retrying with a pause (base/retry) *)

(** [act i] is the [i]-th call; [Step] of the back-off takes one of the steps. *)
Fixpoint backoff_loop {A} (act : nat -> A -> option string * A) (steps i : nat) (last : option string) (s : A) : option string * A :=
  match steps with
  | O => (last, s)
  | S steps' =>
      match act i s with
      | (None, s) => (None, s)
      | (Some e, s) => if (steps =? 1)%nat then (Some e, s) else backoff_loop act steps' (S i) (Some e) s
      end
  end.

Definition DoWithBackoff {A} (act : nat -> A -> option string * A) (bf : option nat) (s : A) : option string * A :=
  backoff_loop act (default 20%nat bf) 0 None s.

(** ** The limits of a kind of task (base/wrapconcurrent) *)

Record ConcurrentHandle : Type := MkHandle { maxConcurrent : Z; maxRetries : Z; loopMaxRetries : Z; h_limiter : option Weighted }.

Definition SetMaxRetry (n : Z) (h : ConcurrentHandle) := MkHandle (maxConcurrent h) n (loopMaxRetries h) (h_limiter h).
Definition SetLoopMaxRetry (n : Z) (h : ConcurrentHandle) := MkHandle (maxConcurrent h) (maxRetries h) n (h_limiter h).
Definition with_permits (w : Weighted) (h : ConcurrentHandle) := MkHandle (maxConcurrent h) (maxRetries h) (loopMaxRetries h) (Some w).

Definition SetLimiter (n : Z) (h : ConcurrentHandle) : ConcurrentHandle :=
  match h_limiter h with
  | None => if 0 <? n then MkHandle n (maxRetries h) (loopMaxRetries h) (Some (NewWeighted n)) else h
  | Some w => if 0 <? n then with_permits (SetLimit n w).2 h else h
  end.

(** The deferred [Release]; a panic of the semaphore ends the goroutine, which was
    about to end. *)
Definition handle_Release (h : ConcurrentHandle) : ConcurrentHandle :=
  match h_limiter h with None => h | Some w => with_permits (Release 1 w).2 h end.

(** ** Tasks *)

Definition DestroySandbox : string := "Destroy".
Definition CreateImage : string := "CreateImage".
Definition DeleteImage : string := "DeleteImage".
Definition UpdateSandbox : string := "UpdateSandbox".

(** The messages of the Cubelet API a task may carry, as far as handlers read them. *)
Inductive request : Type :=
  | DestroyCubeSandboxRequest (sandboxID : string)
  | CreateImageRequest
  | DestroyImageRequest
  | UpdateCubeSandboxRequest (annotations : gmap string string)
  | OtherRequest.

Record Task : Type := MkTask {
  t_InstanceType : string; t_SandboxID : string; t_InstanceID : string; t_RequestId : string; Request : request;
  CallEp : string; TaskType : string; DescribeTaskID : string;
  t_retryTimes : Z; t_loopRetry : bool; t_delay : Z;
}.

Definition with_tries (n : Z) (loop : bool) (t : Task) : Task :=
  MkTask (t_InstanceType t) (t_SandboxID t) (t_InstanceID t) (t_RequestId t) (Request t) (CallEp t) (TaskType t) (DescribeTaskID t)
    n loop (t_delay t).
Definition with_pause (d : Z) (t : Task) : Task :=
  MkTask (t_InstanceType t) (t_SandboxID t) (t_InstanceID t) (t_RequestId t) (Request t) (CallEp t) (TaskType t) (DescribeTaskID t)
    (t_retryTimes t) (t_loopRetry t) d.

(** A task as a client builds it: the unexported fields are zero. *)
Definition fresh_task (t : Task) : bool := (t_retryTimes t =? 0) && (t_delay t =? 0) && negb (t_loopRetry t).

(** [ret.Error] with its status, or any other error. *)
Inductive task_err : Type := Status (code : Z) (msg : string) | Plain (msg : string).
#[export] Instance task_err_eq_dec : EqDecision task_err.
Proof. solve_decision. Defined.

(** [ret.Errorf]: a status that says success is no error. *)
Definition ret_Errorf (code : Z) (msg : string) : option task_err :=
  if (code =? ErrorCode_Success) || (code =? 0) then None else Some (Status code msg).
Definition err_message (e : task_err) : string := match e with Status _ m => m | Plain m => m end.
Definition FromError (e : option task_err) : Z * bool :=
  match e with None => (200, true) | Some (Status c _) => (c, true) | Some (Plain _) => (ErrorCode_Unknown, false) end.

(** ** What handlers read and change *)

Record DescribeTaskMap : Type := MkDescribe { dt_ErrorCode : Z; dt_ErrorMessage : string; dt_Status : string; dt_TaskID : string }.
Definition TaskStatusSuccess : string := "SUCCESS".
Definition TaskStatusFailed : string := "FAILED".

(** [proxies] are the keys of Redis with proxy entries, [describe] those with
    results, [listed] the sandboxes of the list cache, [refs] the state of the hooks. *)
Record store (R : Type) : Type := MkStore {
  st_nodes : local; proxies : gmap string SandboxProxyMap; describe : gmap string DescribeTaskMap; listed : gset string; refs : R;
}.
Arguments MkStore {R}.
Arguments st_nodes {R}.
Arguments proxies {R}.
Arguments describe {R}.
Arguments listed {R}.
Arguments refs {R}.

(** What the environment answers during one run of a handler: the Cubelet, the
    deletions in Redis, the lookup of the instance, the writes of the result. *)
Record world : Type := MkEnv {
  n_answer : answer; n_del : string -> option string; n_instance : res (option string); n_set : nat -> option string;
}.

Definition InstanceStatePending : string := "PENDING".
Definition UpdateActionAddDevice : string := "addDevice".
Definition UpdateActionRemoveDevice : string := "removeDevice".
Definition CubeAnnotationsUpdateAction : string := "cube.master.update_action".

Section Handlers.
Context {R : Type}.
(** Hooks that run after a destruction. *)
Definition hook : Type := string -> R -> option string * R.
Definition RegisterAfterDestroyTaskSuccessHook (h : option hook) (hooks : list hook) : list hook :=
  match h with None => hooks | Some h => hooks ++ [h] end.

Fixpoint run_hooks (hooks : list hook) (id : string) (first : option string) (r : R) : option string * R :=
  match hooks with
  | [] => (first, r)
  | h :: hooks =>
      let '(e, r) := h id r in
      run_hooks hooks id (match first with None => e | _ => first end) r
  end.
Definition runAfterDestroyTaskSuccessHook (hooks : list hook) (id : string) (r : R) : option string * R := run_hooks hooks id None r.

Context (hooks : list hook) (interval now : Z).

Definition GetNodesByIp (ip : string) (l : local) : option Node :=
  match filter (fun n : Node => IP n = ip) (omap (node_at l) ((map_to_list (cache l)).*2)) with
  | n :: _ => Some (cloneNodeWithCurrentHealth interval now n)
  | [] => None
  end.

Fixpoint delete_keys (del : string -> option string) (keys : list string) (first : option string) (m : gmap string SandboxProxyMap) :
    option string * gmap string SandboxProxyMap :=
  match keys with
  | [] => (first, m)
  | k :: keys =>
      match del k with
      | None => delete_keys del keys first (delete k m)
      | Some e => delete_keys del keys (match first with None => Some e | _ => first end) m
      end
  end.

Definition DeleteSandboxProxyMap (del : string -> option string) (id : string) (s : store R) : option string * store R :=
  let '(e, m) := delete_keys del (DeleteKeys (SandboxProxy id) (LegacySandboxProxy id)) None (proxies s) in
  (e, MkStore (st_nodes s) m (describe s) (listed s) (refs s)).
Definition DeleteSandboxCache (id : string) (s : store R) : store R :=
  MkStore (st_nodes s) (proxies s) (describe s) (listed s ∖ {[id]}) (refs s).

(** How a handler ends; [None] is a panic. *)
Definition outcome : Type := option (option task_err).

(** The two tests every handler makes of an answer; [err] is the code for a call
    that failed. *)
Definition rsp_err (err : Z) (a : answer) : outcome :=
  match a with
  | APanic => None
  | AErr m => Some (ret_Errorf err m)
  | ARsp r => Some (if (r_code r =? ErrorCode_Success) || (r_code r =? 0) then None else ret_Errorf (r_code r) (r_msg r))
  end.

(** The record of a destroyed sandbox is removed, then the hooks run. *)
Definition forget_sandbox (n : world) (id : string) (s : store R) : outcome * store R :=
  match DeleteSandboxProxyMap (n_del n) id s with
  | (Some e, s) => (Some (ret_Errorf ErrorCode_MasterRateLimitedError ("DeleteSandboxProxyMap failed: " +:+ e)), s)
  | (None, s) =>
      let s := DeleteSandboxCache id s in
      let '(_, r) := runAfterDestroyTaskSuccessHook hooks id (refs s) in
      (Some None, MkStore (st_nodes s) (proxies s) (describe s) (listed s) r)
  end.

Definition handle_destroy (t : Task) (n : world) (s : store R) : outcome * store R :=
  match Request t with
  | DestroyCubeSandboxRequest id =>
      let hostIP := default "" (head (Split (CallEp t) ":"%char)) in
      let called := match GetNodesByIp hostIP (st_nodes s) with
                    | Some _ => rsp_err ErrorCode_MasterRateLimitedError (n_answer n)
                    | None => Some None
                    end in
      match called with
      | Some None => if t_InstanceType t =s "cubebox" then forget_sandbox n id s else (Some None, s)
      | failed => (failed, s)
      end
  | _ => (Some None, s)
  end.

Definition handle_create_image (t : Task) (n : world) : outcome :=
  match Request t with CreateImageRequest => rsp_err ErrorCode_ConnHostFailed (n_answer n) | _ => Some None end.
Definition handle_delete_image (t : Task) (n : world) : outcome :=
  match Request t with DestroyImageRequest => rsp_err ErrorCode_ConnHostFailed (n_answer n) | _ => Some None end.

(** [n_instance]: the state of the instance, no such instance, or an error. *)
Definition handle_update (t : Task) (n : world) : outcome :=
  match Request t with
  | UpdateCubeSandboxRequest annotations =>
      match n_instance n with
      | Err e => Some (ret_Errorf ErrorCode_ConnHostFailed e)
      | Ok None => Some (ret_Errorf 130404 "record not found")
      | Ok (Some state) =>
          let action := default "" (annotations !! CubeAnnotationsUpdateAction) in
          if (action =s UpdateActionAddDevice) && (state =s InstanceStatePending)
          then Some (ret_Errorf ErrorCode_MasterRateLimitedError ("InstanceState is valid:[" +:+ state +:+ "]"))
          else if (action =s UpdateActionAddDevice) || (action =s UpdateActionRemoveDevice)
          then rsp_err ErrorCode_ConnHostFailed (n_answer n)
          else Some (ret_Errorf ErrorCode_Unknown ("action is valid:[" +:+ action +:+ "]"))
      end
  | _ => Some None
  end.

(** [HandleTask] of the handler registered for the kind. *)
Definition HandleTask (t : Task) (n : world) (s : store R) : outcome * store R :=
  if TaskType t =s DestroySandbox then handle_destroy t n s
  else if TaskType t =s CreateImage then (handle_create_image t n, s)
  else if TaskType t =s DeleteImage then (handle_delete_image t n, s)
  else (handle_update t n, s).

(** The result a client of an update polls for, written with up to 20 attempts. *)
Definition task_info (t : Task) (result : option task_err) : DescribeTaskMap :=
  match result with
  | None => MkDescribe 0 "" TaskStatusSuccess (DescribeTaskID t)
  | Some e => MkDescribe (-1) (err_message e) TaskStatusFailed (DescribeTaskID t)
  end.
Definition SetDescribeTask (failed : option string) (i : DescribeTaskMap) (s : store R) : option string * store R :=
  match failed with
  | Some e => (Some e, s)
  | None => (None, MkStore (st_nodes s) (proxies s) (<[DescribeTask (dt_TaskID i) := i]> (describe s)) (listed s) (refs s))
  end.
Definition updateSandboxTaskResult (t : Task) (n : world) (result : option task_err) (s : store R) : option string * store R :=
  DoWithBackoff (fun i => SetDescribeTask (n_set n i) (task_info t result)) None s.

(** [reportMetric]: the code in the trace. *)
Definition reported_code (err : option task_err) : Z :=
  let code := (FromError err).1 in
  if (code =? ErrorCode_MasterRateLimitedError) || (code =? ErrorCode_ConnHostFailed) then ErrorCode_ReqCubeAPIFailed else code.

(** The deferred report of a task that is not put back. *)
Definition report (t : Task) (n : world) (err : option task_err) (s : store R) : store R :=
  if TaskType t =s UpdateSandbox then (updateSandboxTaskResult t n err s).2 else s.

End Handlers.

(** ** The queue and its workers *)

(** A worker or goroutine that works for a task: it waits for a permit, it got none
    in time and pauses, its goroutine runs, or pauses before the task goes back. *)
Inductive stage : Type := Asking (impossible : bool) (elem : nat) | Denied | Running | Pausing.
#[export] Instance stage_eq_dec : EqDecision stage.
Proof. solve_decision. Defined.
Record attempt : Type := MkAttempt { a_task : nat; a_stage : stage }.

Inductive event : Type :=
  | EvRun (t : nat)              (** a handler ran for the task *)
  | EvRetry (t : nat)            (** and asked for another run *)
  | EvReport (t : nat) (err : option task_err)
  | EvLost (t : nat)             (** the task was to go back and the queue was full *)
  | EvAgain (t : nat)            (** a task without a permit was put back, and runs *)
  | EvUnknown (t : nat).         (** no handler for its kind *)
#[export] Instance event_eq_dec : EqDecision event.
Proof. solve_decision. Defined.

Record localTask (R : Type) : Type := MkLocalTask {
  handles : gmap string ConcurrentHandle; objects : gmap nat Task; queueCh : list nat; queueSize : nat; workerNum : nat;
  attempts : gmap nat attempt; next_attempt : nat; stored : store R; log : list event;
}.
Arguments MkLocalTask {R}.
Arguments handles {R}.
Arguments objects {R}.
Arguments queueCh {R}.
Arguments queueSize {R}.
Arguments workerNum {R}.
Arguments attempts {R}.
Arguments next_attempt {R}.
Arguments stored {R}.
Arguments log {R}.

(** The part of the configuration that tasks use. *)
Record AsyncFlow : Type := MkFlow { MaxConcurrent : Z; f_MaxRetries : Z; f_LoopMaxRetries : Z }.
Record TaskConf : Type := MkTaskConf {
  MaxRetries : Z; LoopMaxRetries : Z; AsyncFlows : gmap string AsyncFlow; AsyncTaskWorkerNum : nat; AsyncTaskQueueSize : nat;
}.

Definition configure (cfg : TaskConf) (k : string) (h : ConcurrentHandle) : ConcurrentHandle :=
  let h := SetLoopMaxRetry (LoopMaxRetries cfg) (SetMaxRetry (MaxRetries cfg) h) in
  match AsyncFlows cfg !! k with
  | None => h
  | Some v =>
      let h := if 0 <? MaxConcurrent v then SetLimiter (MaxConcurrent v) h else h in
      let h := if 0 <? f_MaxRetries v then SetMaxRetry (f_MaxRetries v) h else h in
      if 0 <? f_LoopMaxRetries v then SetLoopMaxRetry (f_LoopMaxRetries v) h else h
  end.

Section System.
Context {R : Type} {GR : GoRuntime} (codes : code_maps) (conf : CubeletConf) (hooks : list (hook (R := R))) (interval now : Z).

Definition with_handles hs (s : localTask R) := MkLocalTask hs (objects s) (queueCh s) (queueSize s) (workerNum s) (attempts s) (next_attempt s) (stored s) (log s).
Definition with_object tid t (s : localTask R) :=
  MkLocalTask (handles s) (<[tid := t]> (objects s)) (queueCh s) (queueSize s) (workerNum s) (attempts s) (next_attempt s) (stored s) (log s).
Definition with_queue q (s : localTask R) := MkLocalTask (handles s) (objects s) q (queueSize s) (workerNum s) (attempts s) (next_attempt s) (stored s) (log s).
Definition with_attempts m (s : localTask R) := MkLocalTask (handles s) (objects s) (queueCh s) (queueSize s) (workerNum s) m (next_attempt s) (stored s) (log s).
Definition with_store (d : store R) (s : localTask R) := MkLocalTask (handles s) (objects s) (queueCh s) (queueSize s) (workerNum s) (attempts s) (next_attempt s) d (log s).
Definition new_attempt x (s : localTask R) :=
  MkLocalTask (handles s) (objects s) (queueCh s) (queueSize s) (workerNum s) (<[next_attempt s := x]> (attempts s))
    (S (next_attempt s)) (stored s) (log s).
Definition note ev (s : localTask R) :=
  MkLocalTask (handles s) (objects s) (queueCh s) (queueSize s) (workerNum s) (attempts s) (next_attempt s) (stored s) (ev :: log s).

Definition InitTask (cfg : TaskConf) (d : store R) : localTask R :=
  let new := MkHandle 0 0 0 None in
  let hs : gmap string ConcurrentHandle :=
    {[DestroySandbox := new; CreateImage := new; DeleteImage := new; UpdateSandbox := new]} in
  MkLocalTask (map_imap (fun k h => Some (configure cfg k h)) hs) ∅ [] (AsyncTaskQueueSize cfg)
    (if (AsyncTaskWorkerNum cfg <? size hs)%nat then size hs else AsyncTaskWorkerNum cfg) ∅ 0 d [].

(** A change of the configuration; the limits of destructions stay. *)
Definition OnEvent (cfg : TaskConf) (s : localTask R) : localTask R :=
  with_handles (map_imap (fun k h => Some (if k =s DestroySandbox then h else configure cfg k h)) (handles s)) s.

Definition SetTaskWorkerConcurrent (action : string) (n : Z) (s : localTask R) : localTask R :=
  match handles s !! action with
  | Some h => if 0 <? n then with_handles (<[action := SetLimiter n h]> (handles s)) s else s
  | None => s
  end.

(** [Push] on the channel; [false] is [ErrFull]. *)
Definition AddAsyncTask (tid : nat) (s : localTask R) : bool * localTask R :=
  if (length (queueCh s) <? queueSize s)%nat then (true, with_queue (queueCh s ++ [tid]) s) else (false, s).

(** The pause before a task goes back; [r] is the random number. *)
Definition backoffRetryDelay (r : float64) (t : Task) : Task :=
  if t_delay t =? 0 then with_pause second t
  else
    let maxDelay := wrap64 (MaxDelayInSecond conf * second) in
    let d := f64_to_int (f64_mul (f64_of_Z (t_delay t)) (f64_add f64_one (f64_mul f64_eight_tenths r))) in
    with_pause (if maxDelay <? d then maxDelay else d) t.

(** A client hands over a new task. *)
Definition submit (tid : nat) (t : Task) (s : localTask R) : localTask R :=
  if negb (bool_decide (objects s !! tid = None)) || negb (fresh_task t) then s
  else let '(ok, s') := AddAsyncTask tid s in if ok then with_object tid t s' else s.

(** Workers that are between taking a task and starting its goroutine. *)
Definition busy (x : attempt) : bool := match a_stage x with Asking _ _ | Denied => true | _ => false end.
Definition busy_workers (s : localTask R) : nat := length (filter (fun p => busy p.2 = true) (map_to_list (attempts s))).

(** A worker takes the next task and asks for a permit ([workHandler], [acquireTask]). *)
Definition take_task (s : localTask R) : localTask R :=
  match queueCh s with
  | tid :: q =>
      if (workerNum s <=? busy_workers s)%nat then s
      else
        match objects s !! tid with
        | None => s
        | Some t =>
            let s := with_queue q s in
            match handles s !! TaskType t with
            | None => note (EvUnknown tid) s
            | Some h =>
                let a := next_attempt s in
                let go st s := new_attempt (MkAttempt tid st) s in
                match h_limiter h with
                | None => go Running s
                | Some w =>
                    let '(r, w) := Acquire a 1 w in
                    go (match r with Granted => Running | Queued i e => Asking i e end)
                       (with_handles (<[TaskType t := with_permits w h]> (handles s)) s)
                end
            end
        end
  | [] => s
  end.

Definition set_stage (a : nat) (x : attempt) (st : stage) (s : localTask R) : localTask R :=
  with_attempts (<[a := MkAttempt (a_task x) st]> (attempts s)) s.

(** The attempt, its task and the handler of its kind. *)
Definition at_work (a : nat) (s : localTask R) : option (attempt * Task * ConcurrentHandle) :=
  x ← attempts s !! a; t ← objects s !! a_task x; h ← handles s !! TaskType t; Some (x, t, h).

(** A permit was handed to a worker that waits for one. *)
Definition permit_granted (a : nat) (s : localTask R) : localTask R :=
  match at_work a s with
  | Some (x, t, h) =>
      match a_stage x, h_limiter h with
      | Asking _ _, Some w => if bool_decide (a ∈ closed w) then set_stage a x Running s else s
      | _, _ => s
      end
  | None => s
  end.

(** The second is over. *)
Definition permit_timeout (a : nat) (r : float64) (s : localTask R) : localTask R :=
  match at_work a s with
  | Some (x, t, h) =>
      match a_stage x, h_limiter h with
      | Asking i e, Some w =>
          let '(ok, w) := Acquire_cancel a i e w in
          let s := with_handles (<[TaskType t := with_permits w h]> (handles s)) s in
          if ok : bool then set_stage a x Running s
          else set_stage a x Denied (with_object (a_task x) (backoffRetryDelay r t) s)
      | _, _ => s
      end
  | None => s
  end.

(** [acquireTask] puts the task back and returns no error: the worker goes on and
    starts the goroutine. *)
Definition denied_runs (a : nat) (s : localTask R) : localTask R :=
  match at_work a s with
  | Some (x, _, _) =>
      match a_stage x with
      | Denied =>
          let '(ok, s) := AddAsyncTask (a_task x) s in
          set_stage a x Running (if ok : bool then note (EvAgain (a_task x)) s else s)
      | _ => s
      end
  | None => s
  end.

Definition release (a : nat) (kind : string) (s : localTask R) : localTask R :=
  let s := with_attempts (delete a (attempts s)) s in
  match handles s !! kind with
  | Some h => with_handles (<[kind := handle_Release h]> (handles s)) s
  | None => s
  end.

(** What [handleTask] decides after the handler returned [err]: the task with its
    counters, and whether it goes back. *)
Definition retry_decision (h : ConcurrentHandle) (err : option task_err) (t : Task) : Task * bool :=
  match err with
  | Some (Status code _) =>
      let again loop max :=
        let t := with_tries (t_retryTimes t + 1) loop t in (t, t_retryTimes t <=? max) in
      if bool_decide (code ∈ cubeCodeRetryMap codes) then again false (maxRetries h)
      else if bool_decide (code ∈ cubeCodeLoopRetryMap codes) then again true (loopMaxRetries h)
      else (t, false)
  | _ => (t, false)
  end.

(** [handleTask]; a panic of the handler is an error that is reported. *)
Definition handleTask (a : nat) (n : world) (r : float64) (s : localTask R) : localTask R :=
  match at_work a s with
  | Some (x, t, h) =>
      match a_stage x with
      | Running =>
          let tid := a_task x in
          let s := note (EvRun tid) s in
          let '(o, d) := HandleTask hooks interval now t n (stored s) in
          let err := match o with None => Some (Plain "panic") | Some e => e end in
          let '(t, retry) := match o with None => (t, false) | Some e => retry_decision h e t end in
          if retry
          then set_stage a x Pausing (note (EvRetry tid) (with_object tid (backoffRetryDelay r t) (with_store d s)))
          else release a (TaskType t) (note (EvReport tid err) (with_object tid t (with_store (report t n err d) s)))
      | _ => s
      end
  | None => s
  end.

(** The pause is over: the task goes back and the permit is returned; the error of
    a full queue is dropped. *)
Definition requeue (a : nat) (s : localTask R) : localTask R :=
  match at_work a s with
  | Some (x, t, _) =>
      match a_stage x with
      | Pausing =>
          let '(ok, s) := AddAsyncTask (a_task x) s in
          release a (TaskType t) (if ok : bool then s else note (EvLost (a_task x)) s)
      | _ => s
      end
  | None => s
  end.

Inductive task_op : Type :=
  | OSubmit (tid : nat) (t : Task)
  | OTake
  | OGranted (a : nat)
  | OTimeout (a : nat) (r : float64)
  | ODenied (a : nat)
  | OHandle (a : nat) (n : world) (r : float64)
  | ORequeue (a : nat)
  | OConfig (cfg : TaskConf)
  | OConcurrent (action : string) (n : Z).

Definition exec s (o : task_op) : localTask R :=
  match o with
  | OSubmit tid t => submit tid t s
  | OTake => take_task s
  | OGranted a => permit_granted a s
  | OTimeout a r => permit_timeout a r s
  | ODenied a => denied_runs a s
  | OHandle a n r => handleTask a n r s
  | ORequeue a => requeue a s
  | OConfig cfg => OnEvent cfg s
  | OConcurrent action n => SetTaskWorkerConcurrent action n s
  end.

End System.

(** ** Counting what happens to a task *)

Section Sums.
Context {A : Type}.
(** The sum of [f] over the values of a map. *)
Definition msum (f : A -> nat) (m : gmap nat A) : nat := map_fold (fun _ x acc => (f x + acc)%nat) O m.

Lemma msum_delete f m k x : m !! k = Some x -> msum f m = (f x + msum f (delete k m))%nat.
Proof. intros H. refine (map_fold_delete_L (fun _ x acc => (f x + acc)%nat) O k x m _ H). intros; lia. Qed.

Lemma msum_insert_new f m k x : m !! k = None -> msum f (<[k := x]> m) = (f x + msum f m)%nat.
Proof. intros H. rewrite (msum_delete f _ k x) by apply lookup_insert_eq. by rewrite delete_insert_id. Qed.

Lemma msum_insert_old f m k x y : m !! k = Some x -> (msum f (<[k := y]> m) + f x = msum f m + f y)%nat.
Proof.
  intros H. rewrite (msum_delete f (<[k := y]> m) k y) by apply lookup_insert_eq.
  rewrite (msum_delete f m k x H), delete_insert_eq. lia.
Qed.

Lemma msum_le f g m : (forall k x, m !! k = Some x -> (f x <= g x)%nat) -> (msum f m <= msum g m)%nat.
Proof.
  induction m as [|k x m Hk IH] using map_ind; intros H; [done|]. rewrite !msum_insert_new by done.
  assert (f x <= g x)%nat by (apply (H k); apply lookup_insert_eq).
  enough (msum f m <= msum g m)%nat by lia. apply IH. intros j y Hj. apply (H j). rewrite lookup_insert_ne; [done|]. congruence.
Qed.

Lemma msum_zero f m : msum f m = O -> forall k x, m !! k = Some x -> f x = O.
Proof. intros H k x Hk. rewrite (msum_delete f m k x Hk) in H. lia. Qed.
End Sums.

Lemma sum_list_with_le {A} (f g : A -> nat) l : (forall x, x ∈ l -> (f x <= g x)%nat) -> (sum_list_with f l <= sum_list_with g l)%nat.
Proof.
  induction l as [|x l IH]; intros H; cbn; [lia|].
  assert (f x <= g x)%nat by (apply H; left). enough (sum_list_with f l <= sum_list_with g l)%nat by lia. apply IH. intros. apply H. by right.
Qed.

Definition ind (b : bool) : nat := if b then 1%nat else 0%nat.
Definition at_ (tid t : nat) : nat := ind (bool_decide (t = tid)).

Definition ran (tid : nat) : list event -> nat := sum_list_with (fun e => match e with EvRun t => at_ tid t | _ => O end).
Definition retried (tid : nat) : list event -> nat := sum_list_with (fun e => match e with EvRetry t => at_ tid t | _ => O end).
Definition reported (tid : nat) : list event -> nat := sum_list_with (fun e => match e with EvReport t _ => at_ tid t | _ => O end).
Definition given_up (tid : nat) : list event -> nat :=
  sum_list_with (fun e => match e with EvLost t | EvUnknown t => at_ tid t | _ => O end).
Definition again (tid : nat) : list event -> nat := sum_list_with (fun e => match e with EvAgain t => at_ tid t | _ => O end).

(** The places of the queue and the workers that hold the task. *)
Definition held {R} (tid : nat) (s : localTask R) : nat :=
  (sum_list_with (at_ tid) (queueCh s) + msum (fun x => at_ tid (a_task x)) (attempts s))%nat.

Section Correct.
Context {R : Type} {GR : GoRuntime} (codes : code_maps) (conf : CubeletConf) (hooks : list (hook (R := R))) (interval now : Z).
Notation exec := (exec codes conf hooks interval now).
Implicit Types s : localTask R.

(** The counters of the tasks, with [M] a bound of the configured numbers of retries. *)
Record tasks_ok (M : Z) (s : localTask R) : Prop := {
  tk_fresh : forall a, (next_attempt s <= a)%nat -> attempts s !! a = None;
  tk_limits : map_Forall (fun _ h => maxRetries h <= M /\ loopMaxRetries h <= M) (handles s);
  tk_count : forall tid, (held tid s + reported tid (log s) + given_up tid (log s) =
    ind (bool_decide (is_Some (objects s !! tid))) + again tid (log s))%nat;
  tk_runs : forall tid, ran tid (log s) = (reported tid (log s) + retried tid (log s))%nat;
  tk_retries : forall tid, match objects s !! tid with
    | Some t => Z.of_nat (retried tid (log s)) <= Z.min (t_retryTimes t) (Z.max 0 M)
    | None => retried tid (log s) = O
    end;
}.

Lemma at_work_inv a s x t h : at_work a s = Some (x, t, h) ->
  attempts s !! a = Some x /\ objects s !! a_task x = Some t /\ handles s !! TaskType t = Some h.
Proof.
  unfold at_work. destruct (attempts s !! a) as [y|] eqn:Ea; [|done]. cbn. destruct (objects s !! a_task y) as [u|] eqn:Eo; [|done].
  cbn. destruct (handles s !! TaskType u) as [k|] eqn:Eh; [|done]. cbn. intros [= -> -> ->]. done.
Qed.

Lemma retry_decision_spec h err t : retry_decision codes h err t = (t, false) \/
  exists loop max, (max = maxRetries h \/ max = loopMaxRetries h) /\
    retry_decision codes h err t = (with_tries (t_retryTimes t + 1) loop t, t_retryTimes t + 1 <=? max).
Proof.
  unfold retry_decision. destruct err as [[code m|m]|]; [|by left|by left].
  destruct (bool_decide _); [right; exists false, (maxRetries h); auto|].
  destruct (bool_decide _); [right; exists true, (loopMaxRetries h); auto|by left].
Qed.

Lemma decision_cases M h o t : maxRetries h <= M /\ loopMaxRetries h <= M ->
  exists u retry, match o with Some e => retry_decision codes h e t | None => (t, false) end = (u, retry) /\
    (u = t /\ retry = false \/ t_retryTimes u = t_retryTimes t + 1 /\ (retry = true -> t_retryTimes u <= M)).
Proof.
  intros [HM1 HM2]. destruct o as [e|]; [|by exists t, false; auto].
  destruct (retry_decision_spec h e t) as [E|(loop & max & Hm & E)]; rewrite E; [by exists t, false; auto|].
  eexists _, _. split; [done|]. right. split; [done|]. intros Hle%Z.leb_le. cbn in *. destruct Hm; subst; lia.
Qed.

Lemma backoff_keeps r t : t_retryTimes (backoffRetryDelay conf r t) = t_retryTimes t /\ TaskType (backoffRetryDelay conf r t) = TaskType t.
Proof. unfold backoffRetryDelay. destruct (_ =? _); done. Qed.

(** An object is replaced by one with the same or a higher count. *)
Lemma objects_some s tid t u : objects s !! tid = Some t -> forall k,
  bool_decide (is_Some (<[tid := u]> (objects s) !! k)) = bool_decide (is_Some (objects s !! k)).
Proof.
  intros H k. apply bool_decide_ext. destruct (decide (k = tid)) as [->|]; [rewrite lookup_insert_eq, H|by rewrite lookup_insert_ne].
  split; intros _; eauto.
Qed.

Lemma AddAsyncTask_spec tid s ok s' : AddAsyncTask tid s = (ok, s') ->
  (ok = false /\ s' = s) \/ (ok = true /\ s' = with_queue (queueCh s ++ [tid])%list s).
Proof. unfold AddAsyncTask. destruct (_ <? _)%nat; intros [= <- <-]; auto. Qed.

Ltac count_at tid a x Hx :=
  pose proof (fun y => msum_insert_old (fun x => at_ tid (a_task x)) _ a x y Hx);
  pose proof (msum_delete (fun x => at_ tid (a_task x)) _ a x Hx).

Lemma fresh_insert s a x y : (forall b, (next_attempt s <= b)%nat -> attempts s !! b = None) -> attempts s !! a = Some x ->
  forall b, (next_attempt s <= b)%nat -> <[a := y]> (attempts s) !! b = None.
Proof.
  intros Hf Ha b Hb. rewrite lookup_insert_ne; [by apply Hf|]. intros ->. rewrite (Hf b Hb) in Ha. done.
Qed.

(** Limits of a handler that only loses or gains permits are those it had. *)
Lemma limits_keep M (hs : gmap string ConcurrentHandle) k h h' : map_Forall (fun _ h => maxRetries h <= M /\ loopMaxRetries h <= M) hs ->
  hs !! k = Some h -> maxRetries h' = maxRetries h -> loopMaxRetries h' = loopMaxRetries h ->
  map_Forall (fun _ h => maxRetries h <= M /\ loopMaxRetries h <= M) (<[k := h']> hs).
Proof. intros H Hk E1 E2. apply map_Forall_insert_2; [|done]. rewrite E1, E2. by apply (H k). Qed.

Lemma Release_keeps h : maxRetries (handle_Release h) = maxRetries h /\ loopMaxRetries (handle_Release h) = loopMaxRetries h.
Proof. unfold handle_Release. destruct (h_limiter h); done. Qed.

Lemma release_spec a kind s : exists hs, release a kind s = with_handles hs (with_attempts (delete a (attempts s)) s) /\
  forall M, map_Forall (fun _ h => maxRetries h <= M /\ loopMaxRetries h <= M) (handles s) ->
    map_Forall (fun _ h => maxRetries h <= M /\ loopMaxRetries h <= M) hs.
Proof.
  unfold release. cbn. destruct (handles s !! kind) as [h|] eqn:E.
  - exists (<[kind := handle_Release h]> (handles s)). split; [done|]. intros M H. destruct (Release_keeps h). by eapply limits_keep.
  - exists (handles s). split; [|done]. by destruct s.
Qed.

Lemma held_queue tid q s : held tid (with_queue q s) = (sum_list_with (at_ tid) q + msum (fun x => at_ tid (a_task x)) (attempts s))%nat.
Proof. done. Qed.

Lemma submit_ok M tid t s : tasks_ok M s -> tasks_ok M (submit tid t s).
Proof.
  intros H. unfold submit. destruct (bool_decide_reflect (objects s !! tid = None)) as [Hn|]; [|done]. cbn.
  destruct (fresh_task t) eqn:Hf; [|done]. cbn. destruct (AddAsyncTask tid s) as [ok s'] eqn:E.
  destruct (AddAsyncTask_spec _ _ _ _ E) as [[-> ->]|[-> ->]]; [done|]. split; cbn; try apply H.
  - intros k. unfold held. cbn. rewrite sum_list_with_app. cbn. pose proof (tk_count M s H k) as Hc. unfold held in Hc.
    destruct (decide (k = tid)) as [->|Hk].
    + rewrite lookup_insert_eq. rewrite Hn in Hc. cbn in *. unfold at_ in *. rewrite bool_decide_true by done. cbn. lia.
    + rewrite lookup_insert_ne by done. unfold at_ at 2. rewrite bool_decide_false by done. cbn. lia.
  - intros k. pose proof (tk_retries M s H k) as Hr. destruct (decide (k = tid)) as [->|Hk].
    + rewrite lookup_insert_eq. rewrite Hn in Hr. rewrite Hr. unfold fresh_task in Hf. go_bool. lia.
    + by rewrite lookup_insert_ne.
Qed.

Lemma take_ok M s : tasks_ok M s -> tasks_ok M (take_task s).
Proof.
  intros H. unfold take_task. destruct (queueCh s) as [|tid q] eqn:Eq; [done|]. destruct (_ <=? _)%nat; [done|].
  destruct (objects s !! tid) as [t|] eqn:Eo; [|done]. cbn [with_queue handles].
  pose proof (tk_fresh M s H (next_attempt s) ltac:(done)) as Hnew.
  assert (forall k, held k s = at_ k tid + (sum_list_with (at_ k) q + msum (fun x => at_ k (a_task x)) (attempts s)))%nat as Eh.
  { intros k. unfold held. rewrite Eq. cbn. lia. }
  assert (forall st hs, map_Forall (fun _ h => maxRetries h <= M /\ loopMaxRetries h <= M) hs ->
    tasks_ok M (new_attempt (MkAttempt tid st) (with_handles hs (with_queue q s)))) as Hgo.
  { intros st hs Hhs. split; cbn; try apply H; try done.
    - intros b Hb. rewrite lookup_insert_ne by lia. apply H. lia.
    - intros k. unfold held. cbn. rewrite msum_insert_new by done. cbn. pose proof (tk_count M s H k). rewrite Eh in *. lia. }
  destruct (handles s !! TaskType t) as [h|] eqn:Ek.
  - destruct (h_limiter h) as [w|].
    + destruct (Acquire _ 1 w) as [r w']. apply Hgo. eapply limits_keep; [apply H|done|done|done].
    + specialize (Hgo Running (handles s) (tk_limits M s H)). by destruct s.
  - split; cbn; try apply H. intros k. pose proof (tk_count M s H k) as Hc. rewrite Eh in Hc. unfold held. cbn. lia.
Qed.

Lemma set_stage_ok M a x st s : tasks_ok M s -> attempts s !! a = Some x -> tasks_ok M (set_stage a x st s).
Proof.
  intros H Hx. split; cbn; try apply H; [by eapply fresh_insert; [apply H|]|].
  intros k. pose proof (tk_count M s H k). count_at k a x Hx. unfold held in *. cbn. specialize (H1 (MkAttempt (a_task x) st)). cbn in H1. lia.
Qed.

Lemma with_handles_ok M hs s : map_Forall (fun _ h => maxRetries h <= M /\ loopMaxRetries h <= M) hs -> tasks_ok M s -> tasks_ok M (with_handles hs s).
Proof. intros Hh H. split; cbn; try apply H. done. Qed.

Lemma with_object_ok M tid t u s : objects s !! tid = Some t -> t_retryTimes t <= t_retryTimes u -> tasks_ok M s -> tasks_ok M (with_object tid u s).
Proof.
  intros Ht Hu H. split; cbn; try apply H.
  - intros k. rewrite (objects_some s tid t) by done. apply H.
  - intros k. pose proof (tk_retries M s H k) as Hr. destruct (decide (k = tid)) as [->|]; [|by rewrite lookup_insert_ne].
    rewrite lookup_insert_eq. rewrite Ht in Hr. lia.
Qed.

Lemma timeout_ok M a r s : tasks_ok M s -> tasks_ok M (permit_timeout conf a r s).
Proof.
  intros H. unfold permit_timeout. destruct (at_work a s) as [[[x t] h]|] eqn:Ew; [|done].
  destruct (at_work_inv _ _ _ _ _ Ew) as (Ha & Ho & Hh). destruct (a_stage x) as [i e| | |] eqn:Es; try done.
  destruct (h_limiter h) as [w|] eqn:Ewl; [|done]. destruct (Acquire_cancel a i e w) as [ok w'] eqn:Ec. clear Ec.
  assert (tasks_ok M (with_handles (<[TaskType t := with_permits w' h]> (handles s)) s)) as H1
    by (apply with_handles_ok; [eapply limits_keep; [apply H|done..]|done]).
  destruct ok; [by apply set_stage_ok|]. apply set_stage_ok; [|done]. eapply with_object_ok; [done| |done].
  by rewrite (proj1 (backoff_keeps r t)).
Qed.

Lemma granted_ok M a s : tasks_ok M s -> tasks_ok M (permit_granted a s).
Proof.
  intros H. unfold permit_granted. destruct (at_work a s) as [[[x t] h]|] eqn:Ew; [|done].
  destruct (at_work_inv _ _ _ _ _ Ew) as (Ha & _). destruct (a_stage x), (h_limiter h); try done.
  destruct (bool_decide _); [by apply set_stage_ok|done].
Qed.

Lemma denied_ok M a s : tasks_ok M s -> tasks_ok M (denied_runs a s).
Proof.
  intros H. unfold denied_runs. destruct (at_work a s) as [[[x t] h]|] eqn:Ew; [|done].
  destruct (at_work_inv _ _ _ _ _ Ew) as (Ha & _). destruct (a_stage x) eqn:Es; try done.
  destruct (AddAsyncTask _ s) as [ok s'] eqn:E.
  destruct (AddAsyncTask_spec _ _ _ _ E) as [[-> ->]|[-> ->]]; [by apply set_stage_ok|]. apply set_stage_ok; [|done].
  split; cbn; try apply H. intros k. pose proof (tk_count M s H k) as Hc. unfold held in *. cbn. rewrite sum_list_with_app. cbn. lia.
Qed.

(** An attempt ends: its task is held once less, and is logged or back in the queue. *)
Lemma release_ok M a x kind s s' : tasks_ok M s -> attempts s !! a = Some x -> next_attempt s' = next_attempt s ->
  attempts s' = attempts s -> handles s' = handles s ->
  (forall tid, ran tid (log s') = (reported tid (log s') + retried tid (log s'))%nat) ->
  (forall tid, match objects s' !! tid with
    | Some t => Z.of_nat (retried tid (log s')) <= Z.min (t_retryTimes t) (Z.max 0 M)
    | None => retried tid (log s') = O
    end) ->
  (forall tid, (sum_list_with (at_ tid) (queueCh s') + reported tid (log s') + given_up tid (log s') +
      (ind (bool_decide (is_Some (objects s !! tid))) + again tid (log s)) =
    at_ tid (a_task x) + sum_list_with (at_ tid) (queueCh s) + reported tid (log s) + given_up tid (log s) +
      (ind (bool_decide (is_Some (objects s' !! tid))) + again tid (log s')))%nat) ->
  tasks_ok M (release a kind s').
Proof.
  intros H Ha En Ea Eh Hruns Hret Hcount. destruct (release_spec a kind s') as (hs & -> & Hhs). split; cbn.
  - intros b. rewrite En, Ea, lookup_delete_None. intros Hb. right. by apply H.
  - apply Hhs. rewrite Eh. apply H.
  - intros k. pose proof (tk_count M s H k) as Hc. count_at k a x Ha. specialize (Hcount k). unfold held in *. cbn. rewrite Ea. lia.
  - done.
  - done.
Qed.

Lemma requeue_ok M a s : tasks_ok M s -> tasks_ok M (requeue a s).
Proof.
  intros H. unfold requeue. destruct (at_work a s) as [[[x t] h]|] eqn:Ew; [|done].
  destruct (at_work_inv _ _ _ _ _ Ew) as (Ha & _). destruct (a_stage x) eqn:Es; try done.
  destruct (AddAsyncTask _ s) as [ok s'] eqn:E. destruct (AddAsyncTask_spec _ _ _ _ E) as [[-> ->]|[-> ->]].
  - apply (release_ok M a x _ s); cbn; try done; try apply H. intros k. lia.
  - apply (release_ok M a x _ s); cbn; try done; try apply H. intros k. rewrite sum_list_with_app. cbn. lia.
Qed.

Lemma handle_ok M a n r s : tasks_ok M s -> tasks_ok M (handleTask codes conf hooks interval now a n r s).
Proof.
  intros H. unfold handleTask. destruct (at_work a s) as [[[x t] h]|] eqn:Ew; [|done].
  destruct (at_work_inv _ _ _ _ _ Ew) as (Ha & Ho & Hh). destruct (a_stage x) eqn:Es; try done.
  destruct (HandleTask _ _ _ t n _) as [o d]. set (err := match o with None => _ | Some e => e end).
  destruct (decision_cases M h o t (tk_limits M s H _ _ Hh)) as (u & retry & -> & Hu).
  assert (t_retryTimes t <= t_retryTimes u) as Hmono by (destruct Hu as [[-> _]|[-> _]]; lia).
  pose proof (tk_retries M s H (a_task x)) as Hr. rewrite Ho in Hr.
  destruct retry.
  - destruct Hu as [[_ ?]|[Hu HM]]; [done|]. specialize (HM eq_refl). apply set_stage_ok; [|done].
    assert (tasks_ok M (with_object (a_task x) (backoffRetryDelay conf r u) s)) as H1
      by (eapply with_object_ok; [done|by rewrite (proj1 (backoff_keeps r u))|done]).
    split; cbn; try apply H1.
    + intros k. pose proof (tk_runs M s H k). lia.
    + intros k. pose proof (tk_retries M s H k) as Hk. destruct (decide (k = a_task x)) as [->|Hne].
      * rewrite lookup_insert_eq, (proj1 (backoff_keeps r u)). unfold at_. rewrite bool_decide_true by done. cbn [ind]. lia.
      * rewrite lookup_insert_ne by done. unfold at_. rewrite bool_decide_false by done. done.
  - apply (release_ok M a x _ s); cbn; try done.
    + intros k. pose proof (tk_runs M s H k). lia.
    + intros k. pose proof (tk_retries M s H k) as Hk. destruct (decide (k = a_task x)) as [->|Hne].
      * rewrite lookup_insert_eq. lia.
      * by rewrite lookup_insert_ne.
    + intros k. rewrite (objects_some s (a_task x) t) by done. lia.
Qed.

(** ** Configurations *)

Definition flows_below (M : Z) (cfg : TaskConf) : Prop :=
  MaxRetries cfg <= M /\ LoopMaxRetries cfg <= M /\ map_Forall (fun _ v => f_MaxRetries v <= M /\ f_LoopMaxRetries v <= M) (AsyncFlows cfg).
Definition op_below (M : Z) (o : task_op) : Prop := match o with OConfig cfg => flows_below M cfg | _ => True end.

Lemma SetLimiter_keeps n h : maxRetries (SetLimiter n h) = maxRetries h /\ loopMaxRetries (SetLimiter n h) = loopMaxRetries h.
Proof. unfold SetLimiter. destruct (h_limiter h), (0 <? n); done. Qed.

Lemma SetLimiter_some n h : is_Some (h_limiter h) -> is_Some (h_limiter (SetLimiter n h)).
Proof. unfold SetLimiter. destruct (h_limiter h) eqn:E, (0 <? n); intros; cbn; rewrite ?E; eauto. Qed.

Lemma configure_below M cfg k h : flows_below M cfg -> maxRetries (configure cfg k h) <= M /\ loopMaxRetries (configure cfg k h) <= M.
Proof.
  intros (H1 & H2 & Hf). unfold configure. destruct (AsyncFlows cfg !! k) as [v|] eqn:E; [|done].
  destruct (Hf k v E). destruct (SetLimiter_keeps (MaxConcurrent v) (SetLoopMaxRetry (LoopMaxRetries cfg) (SetMaxRetry (MaxRetries cfg) h))) as [E1 E2].
  destruct (0 <? MaxConcurrent v), (0 <? f_MaxRetries v), (0 <? f_LoopMaxRetries v); cbn [maxRetries loopMaxRetries SetMaxRetry SetLoopMaxRetry] in *;
    rewrite ?E1, ?E2; done.
Qed.

Lemma configure_limiter cfg k h : is_Some (h_limiter h) -> is_Some (h_limiter (configure cfg k h)).
Proof.
  intros H. unfold configure. destruct (AsyncFlows cfg !! k) as [v|]; [|exact H].
  set (g := SetLoopMaxRetry (LoopMaxRetries cfg) (SetMaxRetry (MaxRetries cfg) h)).
  assert (is_Some (h_limiter (if 0 <? MaxConcurrent v then SetLimiter (MaxConcurrent v) g else g))) as Hg
    by (destruct (0 <? MaxConcurrent v); [apply SetLimiter_some|]; exact H).
  destruct (0 <? f_MaxRetries v), (0 <? f_LoopMaxRetries v); exact Hg.
Qed.

Lemma OnEvent_ok M cfg s : flows_below M cfg -> tasks_ok M s -> tasks_ok M (OnEvent cfg s).
Proof.
  intros Hc H. apply with_handles_ok; [|done]. intros k h Hk. rewrite map_lookup_imap in Hk.
  destruct (handles s !! k) as [g|] eqn:E; [|done]. cbn in Hk. injection Hk as <-.
  destruct (bool_decide _); [by apply (tk_limits M s H k)|by apply configure_below].
Qed.

Lemma concurrent_ok M action n s : tasks_ok M s -> tasks_ok M (SetTaskWorkerConcurrent action n s).
Proof.
  intros H. unfold SetTaskWorkerConcurrent. destruct (handles s !! action) as [h|] eqn:E; [|done]. destruct (0 <? n); [|done].
  destruct (SetLimiter_keeps n h). apply with_handles_ok; [|done]. by eapply limits_keep; [apply H|..].
Qed.

Lemma init_ok M cfg (d : store R) : flows_below M cfg -> tasks_ok M (InitTask cfg d).
Proof.
  intros H. unfold InitTask. set (hs := {[DestroySandbox := _; CreateImage := _; DeleteImage := _; UpdateSandbox := _]}).
  clearbody hs. split; cbn; try done.
  intros k h Hk. rewrite map_lookup_imap in Hk. destruct (hs !! k) as [g|]; [|done]. cbn in Hk. injection Hk as <-. by apply configure_below.
Qed.

Lemma exec_ok M s o : op_below M o -> tasks_ok M s -> tasks_ok M (exec s o).
Proof.
  destruct o; cbn; intros Hb H;
    eauto using submit_ok, take_ok, granted_ok, timeout_ok, denied_ok, handle_ok, requeue_ok, OnEvent_ok, concurrent_ok.
Qed.

Lemma run_ok M cfg d ops : flows_below M cfg -> Forall (op_below M) ops -> tasks_ok M (foldl exec (InitTask cfg d) ops).
Proof. intros Hc Ho. apply (foldl_inv exec (tasks_ok M) (op_below M)); [intros s o Hq Hs; by apply exec_ok|by apply init_ok|done]. Qed.

(** C15: whatever the clients, the workers and the configuration do, every task is
    accounted for: it is held by the queue, a worker or a goroutine, or it was
    reported, or given up because the queue was full (or its kind is unknown), in
    all exactly once, and once more each time the task was put back because it got
    no permit in time.  And its handler runs at most one time more than the largest
    configured number of retries allows, again plus those extra times. *)
Theorem tasks_accounted (M : Z) (cfg : TaskConf) (d : store R) (ops : list task_op) (tid : nat) (t : Task) :
  flows_below M cfg -> Forall (op_below M) ops ->
  objects (foldl exec (InitTask cfg d) ops) !! tid = Some t ->
  let s := foldl exec (InitTask cfg d) ops in
  (held tid s + reported tid (log s) + given_up tid (log s) = 1 + again tid (log s))%nat /\
  Z.of_nat (ran tid (log s)) <= 1 + Z.max 0 M + Z.of_nat (again tid (log s)).
Proof.
  intros Hc Ho Ht s. pose proof (run_ok M cfg d ops Hc Ho) as H. fold s in H, Ht.
  pose proof (tk_count M s H tid) as E1. pose proof (tk_runs M s H tid) as E2. pose proof (tk_retries M s H tid) as E3.
  rewrite Ht in E1, E3. cbn in E1. lia.
Qed.

(** ** Termination *)

#[local] Arguments Nat.mul : simpl never.

(** The retries left to a task. *)
Definition left_ (M : Z) s (tid : nat) : nat := match objects s !! tid with Some t => Z.to_nat (M - t_retryTimes t) | None => O end.
Definition stage_weight (st : stage) : nat := match st with Asking _ _ => 4 | Denied => 3 | Running => 2 | Pausing => 6 end.
Definition weigh (rm : nat -> nat) (q : list nat) (m : gmap nat attempt) : nat :=
  (sum_list_with (fun tid => 5 * rm tid + 5) q + msum (fun x => 5 * rm (a_task x) + stage_weight (a_stage x)) m)%nat.
#[local] Arguments weigh : simpl never.
#[local] Arguments left_ : simpl never.
Definition mu (M : Z) s : nat := weigh (left_ M s) (queueCh s) (attempts s).

Lemma weigh_mono rm rm' q m : (forall tid, (rm tid <= rm' tid)%nat) -> (weigh rm q m <= weigh rm' q m)%nat.
Proof.
  intros H. unfold weigh. apply Nat.add_le_mono.
  - apply sum_list_with_le. intros t _. specialize (H t). lia.
  - apply msum_le. intros _ x _. specialize (H (a_task x)). lia.
Qed.

Lemma weigh_stage rm q m a x y : m !! a = Some x ->
  (weigh rm q (<[a := y]> m) + (5 * rm (a_task x) + stage_weight (a_stage x)) =
   weigh rm q m + (5 * rm (a_task y) + stage_weight (a_stage y)))%nat.
Proof. intros H. unfold weigh. pose proof (msum_insert_old (fun x => 5 * rm (a_task x) + stage_weight (a_stage x))%nat m a x y H). cbv beta in *. lia. Qed.

Lemma weigh_delete rm q m a x : m !! a = Some x -> weigh rm q m = (weigh rm q (delete a m) + (5 * rm (a_task x) + stage_weight (a_stage x)))%nat.
Proof. intros H. unfold weigh. pose proof (msum_delete (fun x => 5 * rm (a_task x) + stage_weight (a_stage x))%nat m a x H). cbv beta in *. lia. Qed.

Lemma weigh_push rm q m tid : weigh rm (q ++ [tid]) m = (weigh rm q m + (5 * rm tid + 5))%nat.
Proof. unfold weigh. rewrite sum_list_with_app. cbn. lia. Qed.

Lemma left_object M s tid t u : objects s !! tid = Some t -> t_retryTimes t <= t_retryTimes u ->
  forall k, (left_ M (with_object tid u s) k <= left_ M s k)%nat.
Proof.
  intros Ht Hu k. unfold left_. cbn. destruct (decide (k = tid)) as [->|]; [rewrite lookup_insert_eq, Ht; lia|by rewrite lookup_insert_ne].
Qed.

Lemma left_bound M s tid : tasks_ok M s -> (left_ M s tid <= Z.to_nat M)%nat.
Proof. intros H. unfold left_. pose proof (tk_retries M s H tid). destruct (objects s !! tid); lia. Qed.

Lemma left_eq M s s' : objects s' = objects s -> left_ M s' = left_ M s.
Proof. intros E. unfold left_. by rewrite E. Qed.

Definition internal (o : task_op) : bool := match o with OSubmit _ _ | OConfig _ | OConcurrent _ _ => false | _ => true end.
Definition denial (o : task_op) : nat := match o with ODenied _ => 1%nat | _ => 0%nat end.
(** Steps that change something. *)
Fixpoint effective s (ops : list task_op) : Prop :=
  match ops with [] => True | o :: ops => exec s o <> s /\ effective (exec s o) ops end.

(** The measure goes down with every step, but for a task that is put back because
    it got no permit. *)
Definition lighter (M : Z) s s' : Prop := s' = s \/ (mu M s' < mu M s)%nat.

Lemma stage_lighter M a x st s : attempts s !! a = Some x -> (stage_weight st < stage_weight (a_stage x))%nat -> (mu M (set_stage a x st s) < mu M s)%nat.
Proof.
  intros Ha Hw. unfold mu. rewrite (left_eq M s) by done. cbn.
  pose proof (weigh_stage (left_ M s) (queueCh s) (attempts s) a x (MkAttempt (a_task x) st) Ha). cbn in *. lia.
Qed.

Lemma release_measure M a x kind s : attempts s !! a = Some x ->
  (mu M s = mu M (release a kind s) + (5 * left_ M s (a_task x) + stage_weight (a_stage x)))%nat.
Proof.
  intros Ha. destruct (release_spec a kind s) as (hs & -> & _). unfold mu.
  rewrite (left_eq M s (with_handles _ _)) by done. cbn. by apply weigh_delete.
Qed.

Lemma take_lighter M s : tasks_ok M s -> lighter M s (take_task s).
Proof.
  intros H. unfold take_task. destruct (queueCh s) as [|tid q] eqn:Eq; [by left|]. destruct (_ <=? _)%nat; [by left|].
  destruct (objects s !! tid) as [t|] eqn:Eo; [|by left]. cbn [with_queue handles].
  pose proof (tk_fresh M s H (next_attempt s) ltac:(done)) as Hnew.
  assert (forall st hs, (stage_weight st < 5)%nat -> lighter M s (new_attempt (MkAttempt tid st) (with_handles hs (with_queue q s)))) as Hgo.
  { intros st hs Hst. right. unfold mu. rewrite (left_eq M s) by done. cbn. unfold weigh. rewrite msum_insert_new, Eq by done. cbn. lia. }
  destruct (handles s !! TaskType t) as [h|] eqn:Ek.
  - destruct (h_limiter h) as [w|]; [|apply (Hgo Running (handles s)); cbn; lia].
    destruct (Acquire _ 1 w) as [r w']. apply Hgo. destruct r; cbn; lia.
  - right. unfold mu. rewrite (left_eq M s) by done. cbn. rewrite Eq. unfold weigh. cbn. lia.
Qed.

Lemma timeout_lighter M a r s : lighter M s (permit_timeout conf a r s).
Proof.
  unfold permit_timeout. destruct (at_work a s) as [[[x t] h]|] eqn:Ew; [|by left].
  destruct (at_work_inv _ _ _ _ _ Ew) as (Ha & Ho & Hh). destruct (a_stage x) as [i e| | |] eqn:Es; try by left.
  destruct (h_limiter h) as [w|]; [|by left]. destruct (Acquire_cancel a i e w) as [ok w'].
  set (s1 := with_handles _ s). right.
  assert (mu M s1 = mu M s) as E1 by (unfold mu; by rewrite (left_eq M s)).
  destruct ok.
  - rewrite <- E1. apply stage_lighter; [done|]. rewrite Es. cbn. lia.
  - pose proof (weigh_mono (left_ M (with_object (a_task x) (backoffRetryDelay conf r t) s1)) (left_ M s1) (queueCh s) (attempts s)
      (left_object M s1 _ t _ Ho ltac:(by rewrite (proj1 (backoff_keeps r t))))) as Hm.
    unfold mu at 1. rewrite (left_eq M (with_object (a_task x) (backoffRetryDelay conf r t) s1)) by done. cbn.
    pose proof (weigh_stage (left_ M (with_object (a_task x) (backoffRetryDelay conf r t) s1)) (queueCh s) (attempts s) a x (MkAttempt (a_task x) Denied) Ha) as Hs.
    rewrite Es in Hs. cbn [a_task a_stage stage_weight] in Hs. rewrite <- E1. unfold mu. cbn in *. lia.
Qed.

Lemma granted_lighter M a s : lighter M s (permit_granted a s).
Proof.
  unfold permit_granted. destruct (at_work a s) as [[[x t] h]|] eqn:Ew; [|by left].
  destruct (at_work_inv _ _ _ _ _ Ew) as (Ha & _). destruct (a_stage x) eqn:Es; try by left. destruct (h_limiter h); [|by left].
  destruct (bool_decide _); [|by left]. right. apply stage_lighter; [done|]. rewrite Es. cbn. lia.
Qed.

Lemma requeue_lighter M a s : lighter M s (requeue a s).
Proof.
  unfold requeue. destruct (at_work a s) as [[[x t] h]|] eqn:Ew; [|by left].
  destruct (at_work_inv _ _ _ _ _ Ew) as (Ha & _). destruct (a_stage x) eqn:Es; try by left. right.
  destruct (AddAsyncTask _ s) as [ok s'] eqn:E. destruct (AddAsyncTask_spec _ _ _ _ E) as [[-> ->]|[-> ->]].
  - pose proof (release_measure M a x (TaskType t) (note (EvLost (a_task x)) s) Ha) as Hm. rewrite Es in Hm.
    replace (mu M (note (EvLost (a_task x)) s)) with (mu M s) in Hm by reflexivity.
    cbn [stage_weight] in Hm. lia.
  - pose proof (release_measure M a x (TaskType t) (with_queue (queueCh s ++ [a_task x])%list s) Ha) as Hm. rewrite Es in Hm.
    assert (mu M (with_queue (queueCh s ++ [a_task x])%list s) = mu M s + (5 * left_ M s (a_task x) + 5))%nat as Ez
      by (exact (weigh_push (left_ M s) (queueCh s) (attempts s) (a_task x))).
    rewrite (left_eq M s (with_queue _ s)) in Hm by done. cbn [stage_weight] in Hm. lia.
Qed.

Lemma handle_lighter M a n r s : tasks_ok M s -> lighter M s (handleTask codes conf hooks interval now a n r s).
Proof.
  intros H. unfold handleTask. destruct (at_work a s) as [[[x t] h]|] eqn:Ew; [|by left].
  destruct (at_work_inv _ _ _ _ _ Ew) as (Ha & Ho & Hh). destruct (a_stage x) eqn:Es; try by left. right.
  destruct (HandleTask _ _ _ t n _) as [o d]. set (err := match o with None => _ | Some e => e end).
  destruct (decision_cases M h o t (tk_limits M s H _ _ Hh)) as (u & retry & -> & Hu).
  assert (t_retryTimes t <= t_retryTimes u) as Hmono by (destruct Hu as [[-> _]|[-> _]]; lia).
  destruct retry.
  - destruct Hu as [[_ ?]|[Hu HM]]; [done|]. specialize (HM eq_refl). set (v := backoffRetryDelay conf r u).
    assert (t_retryTimes v = t_retryTimes u) as Ev by apply backoff_keeps.
    pose proof (left_object M s _ t v Ho ltac:(lia)) as Hl. set (s1 := with_object (a_task x) v s) in *.
    assert (left_ M s1 (a_task x) < left_ M s (a_task x))%nat as Hlt.
    { unfold left_. cbn. rewrite lookup_insert_eq, Ho, Ev. lia. }
    unfold mu at 1. rewrite (left_eq M s1 (set_stage _ _ _ _)) by done. cbn.
    pose proof (weigh_stage (left_ M s1) (queueCh s) (attempts s) a x (MkAttempt (a_task x) Pausing) Ha) as Hw.
    pose proof (weigh_mono _ _ (queueCh s) (attempts s) Hl) as Hw2. rewrite Es in Hw. cbn [a_task a_stage stage_weight] in Hw.
    (* the weight of this very attempt goes down by five *)
    pose proof (weigh_delete (left_ M s) (queueCh s) (attempts s) a x Ha) as Hd. pose proof (weigh_delete (left_ M s1) (queueCh s) (attempts s) a x Ha) as Hd1.
    pose proof (weigh_mono _ _ (queueCh s) (delete a (attempts s)) Hl) as Hw3. rewrite Es in Hd, Hd1. cbn [stage_weight] in *. unfold mu. lia.
  - match goal with |- (mu M (release a _ ?z) < _)%nat => pose proof (release_measure M a x (TaskType u) z Ha) as Hm;
      assert (mu M z <= mu M s)%nat as Hz end.
    { unfold mu. cbn [queueCh attempts note with_object with_store]. apply weigh_mono. apply (left_object M s _ t u Ho Hmono). }
    rewrite Es in Hm. cbn [stage_weight] in Hm. lia.
Qed.

Lemma denied_heavier M a s : tasks_ok M s -> denied_runs a s = s \/ (mu M (denied_runs a s) < mu M s + (5 * Z.to_nat M + 5))%nat.
Proof.
  intros H. unfold denied_runs. destruct (at_work a s) as [[[x t] h]|] eqn:Ew; [|by left].
  destruct (at_work_inv _ _ _ _ _ Ew) as (Ha & _). destruct (a_stage x) eqn:Es; try by left. right.
  pose proof (left_bound M s (a_task x) H) as Hb.
  destruct (AddAsyncTask _ s) as [ok s'] eqn:E. destruct (AddAsyncTask_spec _ _ _ _ E) as [[-> ->]|[-> ->]].
  - assert (mu M (set_stage a x Running s) < mu M s)%nat by (apply stage_lighter; [done|rewrite Es; cbn; lia]). lia.
  - set (z := note _ _). assert (mu M (set_stage a x Running z) < mu M z)%nat by (apply stage_lighter; [done|rewrite Es; cbn; lia]).
    assert (mu M z = mu M s + (5 * left_ M s (a_task x) + 5))%nat as Ez
      by (exact (weigh_push (left_ M s) (queueCh s) (attempts s) (a_task x))). lia.
Qed.

Lemma internal_step M s o : internal o = true -> tasks_ok M s -> exec s o <> s ->
  (S (mu M (exec s o)) <= mu M s + denial o * (5 * Z.to_nat M + 5))%nat.
Proof.
  intros Hi H Hne.
  assert (lighter M s (exec s o) -> (S (mu M (exec s o)) <= mu M s + denial o * (5 * Z.to_nat M + 5))%nat) as Hl
    by (intros [?|?]; [done|lia]).
  destruct o as [| | | |a| | | |]; try done;
    try (apply Hl; eauto using take_lighter, granted_lighter, timeout_lighter, handle_lighter, requeue_lighter; fail).
  change (exec s (ODenied a)) with (denied_runs a s) in *. cbn [denial]. destruct (denied_heavier M a s H) as [?|?]; [done|lia].
Qed.

Lemma internal_below M o : internal o = true -> op_below M o.
Proof. by destruct o. Qed.

Lemma effective_bound M run : forall s, tasks_ok M s -> Forall (fun o => internal o = true) run -> effective s run ->
  (length run + mu M (foldl exec s run) <= mu M s + sum_list_with denial run * (5 * Z.to_nat M + 5))%nat.
Proof.
  induction run as [|o run IH]; intros s H Hi He; cbn; [lia|]. apply Forall_cons in Hi as [Hio Hi]. destruct He as [Hne He].
  pose proof (internal_step M s o Hio H Hne). specialize (IH _ (exec_ok M s o (internal_below M o Hio) H) Hi He).
  rewrite Nat.mul_add_distr_r. lia.
Qed.

(** ** Nothing is left waiting *)

(** Tasks that are held exist, and so does the handler of a task somebody works
    for, with a limiter when a permit is awaited. *)
Record alive s : Prop := {
  al_queue : forall tid, tid ∈ queueCh s -> is_Some (objects s !! tid);
  al_work : forall a x, attempts s !! a = Some x -> exists t h, objects s !! a_task x = Some t /\ handles s !! TaskType t = Some h /\
    (match a_stage x with Asking _ _ => is_Some (h_limiter h) | _ => True end);
  al_workers : (0 < workerNum s)%nat;
}.

(** Replacing objects and handlers by ones of the same kind keeps everybody at work. *)
Lemma alive_step s s' : alive s -> workerNum s' = workerNum s ->
  (forall tid, tid ∈ queueCh s' -> is_Some (objects s' !! tid)) ->
  (forall tid t, objects s !! tid = Some t -> exists t', objects s' !! tid = Some t' /\ TaskType t' = TaskType t) ->
  (forall k h, handles s !! k = Some h -> exists h', handles s' !! k = Some h' /\ (is_Some (h_limiter h) -> is_Some (h_limiter h'))) ->
  (forall a x', attempts s' !! a = Some x' -> (exists x, attempts s !! a = Some x /\ a_task x = a_task x' /\
      (match a_stage x' with Asking i e => exists i e, a_stage x = Asking i e | _ => True end)) \/
    (exists t h, objects s' !! a_task x' = Some t /\ handles s' !! TaskType t = Some h /\
      (match a_stage x' with Asking _ _ => is_Some (h_limiter h) | _ => True end))) ->
  alive s'.
Proof.
  intros H Ew Hq Ho Hh Ha. split; [done| |by rewrite Ew; apply H].
  intros a x' Hx'. destruct (Ha a x' Hx') as [(x & Hx & Et & Hs)|?]; [|done].
  destruct (al_work s H a x Hx) as (t & h & Ht & Hk & Hl). destruct (Ho _ _ Ht) as (t' & Ht' & Ek). destruct (Hh _ _ Hk) as (h' & Hk' & Hlim).
  exists t', h'. rewrite <- Et, Ek. split_and!; [done|done|]. destruct (a_stage x'); try done. destruct Hs as (i & e & Hs). rewrite Hs in Hl. auto.
Qed.

Lemma handles_replaced (hs : gmap string ConcurrentHandle) k h h' : hs !! k = Some h -> (is_Some (h_limiter h) -> is_Some (h_limiter h')) ->
  forall j g, hs !! j = Some g -> exists g', <[k := h']> hs !! j = Some g' /\ (is_Some (h_limiter g) -> is_Some (h_limiter g')).
Proof.
  intros Hk Hl j g Hj. destruct (decide (j = k)) as [->|].
  - rewrite lookup_insert_eq. exists h'. split; [done|]. by simplify_eq.
  - rewrite lookup_insert_ne by done. eauto.
Qed.

Lemma objects_replaced s tid t u : objects s !! tid = Some t -> TaskType u = TaskType t ->
  forall k v, objects s !! k = Some v -> exists v', <[tid := u]> (objects s) !! k = Some v' /\ TaskType v' = TaskType v.
Proof.
  intros Ht Hu k v Hk. destruct (decide (k = tid)) as [->|].
  - rewrite lookup_insert_eq. exists u. split; [done|]. congruence.
  - rewrite lookup_insert_ne by done. eauto.
Qed.

Lemma objects_known s tid t u k : objects s !! tid = Some t -> is_Some (objects s !! k) -> is_Some (<[tid := u]> (objects s) !! k).
Proof. intros Ht Hk. destruct (decide (k = tid)) as [->|]; [rewrite lookup_insert_eq; eauto|by rewrite lookup_insert_ne]. Qed.

Lemma set_stage_alive a x st s : alive s -> attempts s !! a = Some x -> (match st with Asking _ _ => False | _ => True end) ->
  alive (set_stage a x st s).
Proof.
  intros H Ha Hst. apply (alive_step s); [done|done|apply H|eauto|eauto|]. cbn. intros b y Hb. left.
  destruct (decide (b = a)) as [->|]; [|rewrite lookup_insert_ne in Hb by done; exists y; split_and!; [done|done|destruct (a_stage y); eauto]].
  rewrite lookup_insert_eq in Hb. injection Hb as <-. exists x. cbn. split_and!; [done|done|by destruct st].
Qed.

Lemma same_attempts_alive s s' : alive s -> workerNum s' = workerNum s -> attempts s' ⊆ attempts s ->
  (forall tid, tid ∈ queueCh s' -> is_Some (objects s' !! tid)) ->
  (forall tid t, objects s !! tid = Some t -> exists t', objects s' !! tid = Some t' /\ TaskType t' = TaskType t) ->
  (forall k h, handles s !! k = Some h -> exists h', handles s' !! k = Some h' /\ (is_Some (h_limiter h) -> is_Some (h_limiter h'))) ->
  alive s'.
Proof.
  intros H Ew Ea Hq Ho Hh. apply (alive_step s); try done. intros a x Hx. left. exists x.
  split_and!; [by eapply lookup_weaken|done|destruct (a_stage x); eauto].
Qed.

Lemma release_alive a kind s : alive s -> alive (release a kind s).
Proof.
  intros H. unfold release. cbn. destruct (handles s !! kind) as [h|] eqn:E; apply (same_attempts_alive s); cbn; try done;
    try apply delete_subseteq; try apply H; try (intros; eauto; fail).
  intros k g Hg. eapply handles_replaced; [done| |done]. unfold handle_Release. destruct (h_limiter h); [eauto|done].
Qed.

Lemma push_alive tid s : alive s -> is_Some (objects s !! tid) -> alive (with_queue (queueCh s ++ [tid])%list s).
Proof.
  intros H Ht. apply (same_attempts_alive s); cbn; try done; try (intros; eauto; fail).
  intros k [Hk| ->%list_elem_of_singleton]%elem_of_app; [by apply H|done].
Qed.

Lemma handle_alive a n r s : alive s -> alive (handleTask codes conf hooks interval now a n r s).
Proof.
  intros H. unfold handleTask. destruct (at_work a s) as [[[x t] h]|] eqn:Ew; [|done].
  destruct (at_work_inv _ _ _ _ _ Ew) as (Ha & Ho & Hh). destruct (a_stage x) eqn:Es; try done.
  destruct (HandleTask _ _ _ t n _) as [o d]. set (err := match o with None => _ | Some e => e end).
  assert (exists u retry, match o with Some e => retry_decision codes h e t | None => (t, false) end = (u, retry) /\ TaskType u = TaskType t)
    as (u & retry & -> & Hu).
  { destruct o as [e|]; [|by exists t, false]. destruct (retry_decision_spec h e t) as [E|(loop & max & _ & E)]; rewrite E; by eexists _, _. }
  assert (forall v s', TaskType v = TaskType t -> handles s' = handles s -> attempts s' = attempts s -> workerNum s' = workerNum s ->
    queueCh s' = queueCh s -> objects s' = <[a_task x := v]> (objects s) -> alive s') as Hs'.
  { intros v s' Hv E1 E2 E3 E4 E5. apply (same_attempts_alive s); try done; rewrite ?E1, ?E2, ?E4, ?E5; [done| | |eauto].
    - intros tid Hin. eapply objects_known; [done|by apply H].
    - by apply objects_replaced with (t := t). }
  destruct retry.
  - apply set_stage_alive; [|done|done]. apply (Hs' (backoffRetryDelay conf r u)); try done. by rewrite (proj2 (backoff_keeps r u)).
  - apply release_alive. by apply (Hs' u).
Qed.

Lemma submit_alive tid t s : alive s -> alive (submit tid t s).
Proof.
  intros H. unfold submit. destruct (bool_decide_reflect (objects s !! tid = None)) as [Hn|]; [|done]. cbn. destruct (fresh_task t); [|done]. cbn.
  destruct (AddAsyncTask tid s) as [ok s'] eqn:E. destruct (AddAsyncTask_spec _ _ _ _ E) as [[-> ->]|[-> ->]]; [done|].
  apply (same_attempts_alive s); cbn; try done; [| |eauto].
  + intros k Hk. destruct (decide (k = tid)) as [->|]; [rewrite lookup_insert_eq; eauto|rewrite lookup_insert_ne by done].
    apply elem_of_app in Hk as [Hk|Hk%list_elem_of_singleton]; [by apply H|done].
  + intros k u Hk. rewrite lookup_insert_ne by congruence. eauto.
Qed.

Lemma take_alive s : alive s -> alive (take_task s).
Proof.
  intros H. unfold take_task. destruct (queueCh s) as [|tid q] eqn:Eq; [done|]. destruct (_ <=? _)%nat; [done|].
  destruct (objects s !! tid) as [t|] eqn:Eo; [|done]. cbn [with_queue handles].
  assert (forall k, k ∈ q -> is_Some (objects s !! k)) as Hq by (intros k Hk; apply H; rewrite Eq; by right).
  destruct (handles s !! TaskType t) as [h|] eqn:Ek.
  + destruct (h_limiter h) as [w|] eqn:El.
    * destruct (Acquire _ 1 w) as [r w']. apply (alive_step s); cbn; try done; [eauto|intros j g Hj; eapply handles_replaced; [done|eauto|done]|].
      intros b y Hb. destruct (decide (b = next_attempt s)) as [->|].
      -- rewrite lookup_insert_eq in Hb. injection Hb as <-. right. cbn. exists t, (with_permits w' h). rewrite lookup_insert_eq.
         split_and!; [done|done|destruct r; cbn; eauto].
      -- rewrite lookup_insert_ne in Hb by done. left. exists y. split_and!; [done|done|destruct (a_stage y); eauto].
    * apply (alive_step s); cbn; try done; [eauto|eauto|]. intros b y Hb. destruct (decide (b = next_attempt s)) as [->|].
      -- rewrite lookup_insert_eq in Hb. injection Hb as <-. right. cbn. eauto.
      -- rewrite lookup_insert_ne in Hb by done. left. exists y. split_and!; [done|done|destruct (a_stage y); eauto].
  + apply (same_attempts_alive s); cbn; try done; eauto.
Qed.

Lemma timeout_alive a r s : alive s -> alive (permit_timeout conf a r s).
Proof.
  intros H. unfold permit_timeout. destruct (at_work a s) as [[[x t] h]|] eqn:Ew; [|done].
  destruct (at_work_inv _ _ _ _ _ Ew) as (Ha & Ho & Hh). destruct (a_stage x) as [i e| | |] eqn:Es; try done.
  destruct (h_limiter h) as [w|]; [|done]. destruct (Acquire_cancel a i e w) as [ok w'].
  assert (forall j g, handles s !! j = Some g -> exists g', <[TaskType t := with_permits w' h]> (handles s) !! j = Some g' /\
    (is_Some (h_limiter g) -> is_Some (h_limiter g'))) as Hrep by (intros j g; eapply handles_replaced; [done|eauto]).
  destruct ok; (apply set_stage_alive; [|done|done]); apply (same_attempts_alive s); cbn; try done; [apply H|eauto| |].
  + intros k Hk. eapply objects_known; [done|by apply H].
  + apply objects_replaced with (t := t); [done|apply backoff_keeps].
Qed.

Lemma exec_alive s o : alive s -> alive (exec s o).
Proof.
  intros H. destruct o as [tid t| |a|a r|a|a n r|a|cfg|action n]; cbn;
    [by apply submit_alive|by apply take_alive| |by apply timeout_alive| |by apply handle_alive| | |].
  - unfold permit_granted. destruct (at_work a s) as [[[x t] h]|] eqn:Ew; [|done].
    destruct (at_work_inv _ _ _ _ _ Ew) as (Ha & _). destruct (a_stage x), (h_limiter h); try done.
    destruct (bool_decide _); [by apply set_stage_alive|done].
  - unfold denied_runs. destruct (at_work a s) as [[[x t] h]|] eqn:Ew; [|done].
    destruct (at_work_inv _ _ _ _ _ Ew) as (Ha & Ho & Hh). destruct (a_stage x) eqn:Es; try done.
    destruct (AddAsyncTask _ s) as [ok s'] eqn:E. destruct (AddAsyncTask_spec _ _ _ _ E) as [[-> ->]|[-> ->]]; [by apply set_stage_alive|].
    apply set_stage_alive; [|done|done]. pose proof (push_alive (a_task x) s H ltac:(eauto)) as Hp. split; cbn; apply Hp.
  - unfold requeue. destruct (at_work a s) as [[[x t] h]|] eqn:Ew; [|done].
    destruct (at_work_inv _ _ _ _ _ Ew) as (Ha & Ho & Hh). destruct (a_stage x) eqn:Es; try done.
    destruct (AddAsyncTask _ s) as [ok s'] eqn:E. destruct (AddAsyncTask_spec _ _ _ _ E) as [[-> ->]|[-> ->]]; apply release_alive.
    + split; cbn; apply H.
    + apply push_alive; eauto.
  - apply (same_attempts_alive s); cbn; try done; [apply H|eauto|]. intros k h Hk. rewrite map_lookup_imap, Hk. cbn. eexists. split; [done|].
    destruct (bool_decide _); [done|apply configure_limiter].
  - unfold SetTaskWorkerConcurrent. destruct (handles s !! action) as [h|] eqn:E; [|done]. destruct (0 <? n); [|done].
    apply (same_attempts_alive s); cbn; try done; [apply H|eauto|]. intros k g Hg. eapply handles_replaced; [done|apply SetLimiter_some|done].
Qed.

Lemma init_alive cfg (d : store R) : alive (InitTask cfg d).
Proof.
  unfold InitTask. set (hs := {[DestroySandbox := _; CreateImage := _; DeleteImage := _; UpdateSandbox := _]}).
  assert (0 < size hs)%nat as Hs by (vm_compute; lia). clearbody hs. split; cbn -[Nat.ltb].
  - intros tid Hin. by apply not_elem_of_nil in Hin.
  - intros a x. by rewrite lookup_empty.
  - destruct (Nat.ltb_spec (AsyncTaskWorkerNum cfg) (size hs)); lia.
Qed.

Lemma at_work_alive s a x : alive s -> attempts s !! a = Some x -> exists t h, at_work a s = Some (x, t, h) /\
  (match a_stage x with Asking _ _ => is_Some (h_limiter h) | _ => True end).
Proof.
  intros H Hx. destruct (al_work s H a x Hx) as (t & h & Ht & Hh & Hl). exists t, h. unfold at_work. rewrite Hx. cbn. rewrite Ht. cbn.
  rewrite Hh. done.
Qed.

Lemma stage_moves a x st s : attempts s !! a = Some x -> st <> a_stage x -> forall s', attempts s' = attempts s -> set_stage a x st s' <> s.
Proof.
  intros Ha Hst s' E1 E. apply (f_equal (fun s => attempts s !! a)) in E. cbn in E. rewrite lookup_insert_eq, Ha in E.
  injection E as E. apply Hst. by rewrite <- E.
Qed.

Lemma released_gone a x kind s s' : attempts s !! a = Some x -> release a kind s' <> s.
Proof.
  intros Ha E. destruct (release_spec a kind s') as (hs & E' & _). rewrite E' in E. apply (f_equal (fun s => attempts s !! a)) in E.
  cbn in E. by rewrite lookup_delete_eq, Ha in E.
Qed.

(** When no step changes anything, nobody holds a task. *)
Lemma stuck_idle s : alive s -> (forall o, internal o = true -> exec s o = s) -> queueCh s = [] /\ attempts s = ∅.
Proof.
  intros H Hstuck.
  assert (attempts s = ∅) as Ha.
  { apply map_empty. intros a. destruct (attempts s !! a) as [x|] eqn:Hx; [|done]. exfalso.
    destruct (at_work_alive s a x H Hx) as (t & h & Ew & Hl). destruct (a_stage x) as [i e| | |] eqn:Es.
    - specialize (Hstuck (OTimeout a f64_one) eq_refl). cbn in Hstuck. unfold permit_timeout in Hstuck. rewrite Ew, Es in Hstuck.
      destruct Hl as [w Hw]. rewrite Hw in Hstuck. destruct (Acquire_cancel a i e w) as [[] w'];
        revert Hstuck; apply (stage_moves a x _ s Hx); rewrite ?Es; done.
    - specialize (Hstuck (ODenied a) eq_refl). cbn in Hstuck. unfold denied_runs in Hstuck. rewrite Ew, Es in Hstuck.
      destruct (AddAsyncTask _ s) as [ok s'] eqn:E.
      destruct (AddAsyncTask_spec _ _ _ _ E) as [[-> ->]|[-> ->]]; revert Hstuck; apply (stage_moves a x _ s Hx); rewrite ?Es; done.
    - specialize (Hstuck (OHandle a (MkEnv APanic (fun _ => None) (Ok None) (fun _ => None)) f64_one) eq_refl). cbn in Hstuck.
      unfold handleTask in Hstuck. rewrite Ew, Es in Hstuck. destruct (HandleTask _ _ _ t _ _) as [o d].
      destruct (match o with Some e => _ | None => _ end) as [u retry]. destruct retry; revert Hstuck.
      + apply (stage_moves a x _ s Hx); rewrite ?Es; done.
      + by apply (released_gone a x).
    - specialize (Hstuck (ORequeue a) eq_refl). cbn in Hstuck. unfold requeue in Hstuck. rewrite Ew, Es in Hstuck.
      destruct (AddAsyncTask _ s) as [ok s']. revert Hstuck. by apply (released_gone a x). }
  split; [|done]. destruct (queueCh s) as [|tid q] eqn:Eq; [done|]. exfalso. specialize (Hstuck OTake eq_refl). cbn in Hstuck.
  unfold take_task in Hstuck. rewrite Eq in Hstuck. unfold busy_workers in Hstuck. rewrite Ha, map_to_list_empty in Hstuck. cbn [filter list_filter length] in Hstuck.
  pose proof (al_workers s H) as Hw. destruct (Nat.leb_spec (workerNum s) 0) as [|_]; [lia|].
  destruct (al_queue s H tid ltac:(rewrite Eq; left)) as [t Ht]. rewrite Ht in Hstuck. cbn [with_queue handles] in Hstuck.
  apply (f_equal (fun s => length (queueCh s))) in Hstuck. rewrite Eq in Hstuck.
  destruct (handles s !! TaskType t) as [h|]; [destruct (h_limiter h); [destruct (Acquire _ 1 _)|]|]; cbn in Hstuck; lia.
Qed.

(** C30: the tasks of CubeMaster come to an end.  From any state the system can
    reach, and with [M] a bound of the configured retries, a sequence of steps of
    the workers and goroutines, each of which changes something, is no longer than
    a number known in advance, plus a constant for each task that was put back
    because it got no permit; and when no step is left, every task was reported or
    given up, once in all and once more for each such time. *)
Theorem tasks_finish (M : Z) (cfg : TaskConf) (d : store R) (ops run : list task_op) :
  flows_below M cfg -> Forall (op_below M) ops -> Forall (fun o => internal o = true) run ->
  let s := foldl exec (InitTask cfg d) ops in
  effective s run ->
  (length run <= mu M s + sum_list_with denial run * (5 * Z.to_nat M + 5))%nat /\
  ((forall o, internal o = true -> exec (foldl exec s run) o = foldl exec s run) ->
   forall tid t, objects (foldl exec s run) !! tid = Some t ->
    (reported tid (log (foldl exec s run)) + given_up tid (log (foldl exec s run)) = 1 + again tid (log (foldl exec s run)))%nat).
Proof.
  intros Hc Ho Hi s He. pose proof (run_ok M cfg d ops Hc Ho) as H. fold s in H. split.
  - pose proof (effective_bound M run s H Hi He). lia.
  - intros Hstuck tid t Ht. set (s' := foldl exec s run) in *.
    assert (alive s') as Hal.
    { apply (foldl_inv exec alive (fun _ => True)); [intros; by apply exec_alive| |by apply Forall_true].
      apply (foldl_inv exec alive (fun _ => True)); [intros; by apply exec_alive|apply init_alive|by apply Forall_true]. }
    assert (tasks_ok M s') as H'.
    { apply (foldl_inv exec (tasks_ok M) (op_below M)); [intros z o Hq Hz; by apply exec_ok|done|].
      eapply Forall_impl; [done|]. intros o. apply internal_below. }
    destruct (stuck_idle s' Hal Hstuck) as [Eq Ea]. pose proof (tk_count M s' H' tid) as Hcount. unfold held in Hcount.
    rewrite Eq, Ea, Ht in Hcount. unfold msum in Hcount. rewrite map_fold_empty in Hcount. cbn in Hcount. lia.
Qed.

End Correct.

(** ** Destroying a sandbox *)

Section Destroy.
Context {R : Type} (hooks : list (hook (R := R))) (interval now : Z).

Lemma delete_keys_spec del keys : forall first m e m', delete_keys del keys first m = (e, m') ->
  (forall k, k ∉ keys -> m' !! k = m !! k) /\
  (e = None <-> first = None /\ forall k, k ∈ keys -> del k = None) /\ (e = None -> forall k, k ∈ keys -> m' !! k = None) /\
  (forall k, k ∈ keys -> m' !! k = None \/ m' !! k = m !! k).
Proof.
  induction keys as [|k keys IH]; cbn; intros first m e m' E.
  - injection E as <- <-. split_and!; [done|split; [intros ->; split; [done|by intros k ?%not_elem_of_nil]|by intros [-> _]]|by intros _ k ?%not_elem_of_nil|by intros k ?%not_elem_of_nil].
  - destruct (del k) as [err|] eqn:Ed.
    + destruct (IH _ _ _ _ E) as (H1 & H2 & H3 & H4). split_and!.
      * intros j Hj. apply H1. by intros ?; apply Hj; right.
      * split; [intros He; apply H2 in He as [Hf _]; by destruct first|]. intros [_ Hall]. specialize (Hall k ltac:(left)). congruence.
      * intros He. apply H2 in He as [Hf _]. by destruct first.
      * intros j [->|Hj]%elem_of_cons; [|by apply H4]. destruct (decide (k ∈ keys)) as [Hin|Hin]; [by apply H4|]. right. by apply H1.
    + destruct (IH _ _ _ _ E) as (H1 & H2 & H3 & H4). split_and!.
      * intros j Hj. rewrite H1; [|by intros ?; apply Hj; right]. rewrite lookup_delete_ne; [done|]. intros ->. apply Hj. left.
      * rewrite H2. split; intros [Hf Hall]; (split; [done|]); intros j Hj; [apply elem_of_cons in Hj as [->|]; [done|by apply Hall]|apply Hall; by right].
      * intros He j [->|Hj]%elem_of_cons; [|by apply H3]. destruct (decide (k ∈ keys)) as [Hin|Hin]; [by apply H3|].
        rewrite H1 by done. apply lookup_delete_eq.
      * intros j Hj. apply elem_of_cons in Hj as [->|Hj].
        -- left. destruct (decide (k ∈ keys)) as [Hin|Hin]; [|rewrite H1 by done; apply lookup_delete_eq].
           destruct (H4 k Hin) as [?|Hk]; [done|]. by rewrite Hk, lookup_delete_eq.
        -- destruct (H4 j Hj) as [?|Hk]; [by left|]. rewrite Hk. destruct (decide (j = k)) as [->|]; [left; apply lookup_delete_eq|right; by apply lookup_delete_ne].
Qed.

(** The Cubelet said that the sandbox is gone. *)
Definition confirmed (a : answer) : bool := match a with ARsp r => (r_code r =? ErrorCode_Success) || (r_code r =? 0) | _ => false end.

Lemma rsp_err_ok err a : err <> ErrorCode_Success -> err <> 0 -> rsp_err err a = Some None <-> confirmed a = true.
Proof.
  intros H1 H2. unfold rsp_err, confirmed, ret_Errorf. destruct a as [m|r|]; [|destruct (_ || _) eqn:E; done|done].
  destruct (Z.eqb_spec err ErrorCode_Success), (Z.eqb_spec err 0); try done.
Qed.

(** The state of the hooks after all of them ran. *)
Definition hooks_done (hs : list (hook (R := R))) (id : string) (r : R) : R := foldl (fun r h => (h id r).2) r hs.

Lemma run_hooks_done hs id : forall first r, (run_hooks hs id first r).2 = hooks_done hs id r.
Proof. induction hs as [|h hs IH]; intros first r; cbn; [done|]. destruct (h id r) as [e r1]. apply IH. Qed.

(** A destruction task forgets a sandbox only when it is gone.  If an entry of
    the proxies disappears, it is one of the sandbox's own, and the Cubelet
    confirmed the destruction, or no node with the address of the task is known
    any more; and a destruction that ends without an error has removed both
    entries of the sandbox and its place in the list cache, and has run every hook,
    whatever the hooks answered. *)
Theorem destroy_forgets_only_gone (t : Task) (n : world) (s s' : store R) (o : outcome) (id : string) :
  TaskType t = DestroySandbox -> Request t = DestroyCubeSandboxRequest id -> HandleTask hooks interval now t n s = (o, s') ->
  let known := GetNodesByIp interval now (default "" (head (Split (CallEp t) ":"%char))) (st_nodes s) in
  (forall k, proxies s' !! k <> proxies s !! k ->
    (k = SandboxProxy id \/ k = LegacySandboxProxy id) /\ proxies s' !! k = None /\ (known = None \/ confirmed (n_answer n) = true)) /\
  (o = Some None -> t_InstanceType t = "cubebox" ->
    proxies s' !! SandboxProxy id = None /\ proxies s' !! LegacySandboxProxy id = None /\ id ∉ listed s' /\
    refs s' = hooks_done hooks id (refs s)) /\
  st_nodes s' = st_nodes s /\ describe s' = describe s.
Proof.
  intros Ht Hr E known. unfold HandleTask in E. rewrite Ht in E. cbn [bool_decide] in E.
  rewrite bool_decide_true in E by done. unfold handle_destroy in E. rewrite Hr in E. fold known in E.
  set (called := match known with Some _ => _ | None => _ end) in E.
  assert (called = Some None -> known = None \/ confirmed (n_answer n) = true) as Hcall.
  { unfold called. destruct known; [|by left]. intros Hc. right. by apply (rsp_err_ok ErrorCode_MasterRateLimitedError). }
  assert (forall x, called = x -> x <> Some None -> o = x /\ s' = s) as Hfail.
  { intros x Hx Hne. rewrite Hx in E. destruct x as [[e|]|]; [by injection E as <- <-|done|by injection E as <- <-]. }
  destruct (decide (called = Some None)) as [Hc|Hne].
  2: { destruct (Hfail _ eq_refl Hne) as [-> ->]. split_and!; done. }
  rewrite Hc in E. destruct (bool_decide_reflect (t_InstanceType t = "cubebox")) as [Hi|Hi]; [|injection E as <- <-; by split_and!].
  unfold forget_sandbox, DeleteSandboxProxyMap in E.
  destruct (delete_keys _ _ None (proxies s)) as [e m] eqn:Ed. destruct (delete_keys_spec _ _ _ _ _ _ Ed) as (K1 & K2 & K3 & K4).
  assert (forall k, m !! k <> proxies s !! k -> (k = SandboxProxy id \/ k = LegacySandboxProxy id) /\ m !! k = None) as Hk.
  { intros k Hk. destruct (decide (k ∈ DeleteKeys (SandboxProxy id) (LegacySandboxProxy id))) as [Hin|Hin]; [|by destruct Hk; apply K1].
    split; [|by destruct (K4 k Hin)]. unfold DeleteKeys in Hin. set_solver. }
  destruct e as [e|].
  - injection E as <- <-. cbn. split_and!; [|done|done|done]. intros k H. destruct (Hk k H). auto.
  - destruct (runAfterDestroyTaskSuccessHook hooks id _) as [e r] eqn:Eh. injection E as <- <-. cbn in *. split_and!; [|intros _ _|done|done].
    + intros k H. destruct (Hk k H). auto.
    + split_and!; [by apply K3; [|left]|by apply K3; [|right; left]|set_solver|].
      unfold runAfterDestroyTaskSuccessHook in Eh. apply (f_equal snd) in Eh. rewrite run_hooks_done in Eh. by cbn in Eh.
Qed.
End Destroy.


(** ** Writing the result of an update *)

Lemma backoff_loop_spec {A} (act : nat -> A -> option string * A) (fails : nat -> option string) (done_ : A -> A) :
  (forall i s, act i s = match fails i with Some e => (Some e, s) | None => (None, done_ s) end) ->
  forall steps i last s, (1 <= steps)%nat ->
    (exists j, (i <= j < i + steps)%nat /\ fails j = None) /\ backoff_loop act steps i last s = (None, done_ s) \/
    (forall j, (i <= j < i + steps)%nat -> fails j <> None) /\ exists e, backoff_loop act steps i last s = (Some e, s).
Proof.
  intros Hact. induction steps as [|steps IH]; intros i last s Hs; [lia|]. cbn [backoff_loop]. rewrite Hact.
  destruct (fails i) as [e|] eqn:Ef.
  - destruct (Nat.eqb_spec (S steps) 1) as [E|E].
    + right. split; [|eauto]. intros j Hj. assert (j = i) as -> by lia. congruence.
    + destruct (IH (S i) (Some e) s ltac:(lia)) as [[(j & Hj & Hf) E']|[Hf E']].
      * left. split; [exists j; split; [lia|done]|done].
      * right. split; [|done]. intros j Hj. destruct (decide (j = i)) as [->|]; [congruence|]. apply Hf. lia.
  - left. split; [exists i; split; [lia|done]|done].
Qed.

(** The result a client polls for is stored unless twenty writes in a row fail; then
    nothing is stored, and the client is never answered. *)
Theorem update_result_stored {R} (t : Task) (n : world) (err : option task_err) (s : store R) :
  (exists i, (i < 20)%nat /\ n_set n i = None) /\ updateSandboxTaskResult t n err s =
      (None, MkStore (st_nodes s) (proxies s) (<[DescribeTask (DescribeTaskID t) := task_info t err]> (describe s)) (listed s) (refs s)) \/
  (forall i, (i < 20)%nat -> n_set n i <> None) /\ exists e, updateSandboxTaskResult t n err s = (Some e, s).
Proof.
  unfold updateSandboxTaskResult, DoWithBackoff. cbn [default from_option].
  destruct (backoff_loop_spec (fun i => SetDescribeTask (n_set n i) (task_info t err)) (n_set n)
    (fun s => MkStore (st_nodes s) (proxies s) (<[DescribeTask (DescribeTaskID t) := task_info t err]> (describe s)) (listed s) (refs s))
    ltac:(intros i s0; unfold SetDescribeTask; destruct (n_set n i), err; done) 20 0 None s ltac:(lia)) as [[(j & Hj & Hf) E]|[Hf E]].
  - left. split; [exists j; split; [lia|done]|done].
  - right. split; [intros i Hi; apply Hf; lia|done].
Qed.

(** ** Concrete runs *)

#[local] Existing Instance demo_runtime.

Definition demo_flows (n : Z) (size : nat) : TaskConf :=
  MkTaskConf 1 2 (if n =? 0 then ∅ else {[DestroySandbox := MkFlow n 0 0]}) 4 size.
Definition demo_store : store unit := MkStore demo_cache {[SandboxProxy "sb-1" := MkProxy "10.0.0.1" "sb-1" "172.16.0.2" true "" ∅]} ∅ {["sb-1"]} tt.
Definition demo_destroy : Task := MkTask "cubebox" "sb-1" "" "r1" (DestroyCubeSandboxRequest "sb-1") "10.0.0.1:9999" DestroySandbox "" 0 false 0.
Definition demo_env (a : answer) : world := MkEnv a (fun _ => None) (Ok (Some "RUNNING")) (fun _ => None).
Definition demo_gone : answer := ARsp (MkRsp 200 "ok" "" "" ∅).
Abbreviation demo_exec := (exec (R := unit) demo_codes demo_cubelet [] 30 9).
Abbreviation demo_run n size ops := (foldl demo_exec (InitTask (demo_flows n size) demo_store) ops).

(** The node answers that it is busy, then that the sandbox is gone. *)
Definition demo_ops : list task_op :=
  [OSubmit 0 demo_destroy; OTake; OHandle 0 (demo_env demo_busy) f64_zero; ORequeue 0; OTake; OHandle 1 (demo_env demo_gone) f64_zero].

Example demo_tasks_run : let s := demo_run 1 8 demo_ops in
  log s = [EvReport 0 None; EvRun 0; EvRetry 0; EvRun 0] /\ proxies (stored s) !! SandboxProxy "sb-1" = None /\ attempts s = ∅.
Proof. split_and!; by vm_compute. Qed.

(** A sandbox whose destruction fails for a reason that is tried again three times. *)
Definition demo_stubborn : list task_op :=
  OSubmit 0 demo_destroy :: concat ((fun a => [OTake; OHandle a (demo_env demo_busy) f64_zero; ORequeue a]) <$> seq 0 4).

Lemma demo_flows_below : flows_below 2 (demo_flows 1 8).
Proof. split; [cbn; lia|split; [cbn; lia|]]. intros k v Hk. cbn in Hk. apply lookup_singleton_Some in Hk as [_ <-]. cbn. lia. Qed.

Lemma moved {R} (s s' : localTask R) : (length (log s) =? length (log s'))%nat && (length (queueCh s) =? length (queueCh s'))%nat = false -> s <> s'.
Proof. intros H ->. by rewrite !Nat.eqb_refl in H. Qed.

Lemma demo_known : bool_decide (is_Some (objects (demo_run 1 8 demo_stubborn) !! 0%nat)) = true.
Proof. by vm_compute. Qed.

Lemma tasks_accounted_witness : let s := demo_run 1 8 demo_stubborn in
  ran 0 (log s) = 3%nat /\ reported 0 (log s) = 1%nat /\
  (held 0 s + reported 0 (log s) + given_up 0 (log s) = 1 + again 0 (log s))%nat /\ Z.of_nat (ran 0 (log s)) <= 1 + Z.max 0 2 + Z.of_nat (again 0 (log s)).
Proof.
  cbv zeta. split; [by vm_compute|]. split; [by vm_compute|].
  destruct (proj1 (bool_decide_eq_true _) demo_known) as [t E].
  apply (tasks_accounted demo_codes demo_cubelet [] 30 9 2 (demo_flows 1 8) demo_store demo_stubborn 0 t); [exact demo_flows_below|repeat constructor|exact E].
Defined.

(** With one permit, the second destruction gets none within a second: it is put
    back into the queue and runs all the same, beside the first, and both return a
    permit. *)
Definition demo_denied : list task_op :=
  [OSubmit 0 demo_destroy; OSubmit 1 demo_destroy; OTake; OTake; OTimeout 1 f64_zero; ODenied 1].

Theorem denied_task_runs_anyway : let s := demo_run 1 8 demo_denied in
  attempts s !! 0%nat = Some (MkAttempt 0 Running) /\ attempts s !! 1%nat = Some (MkAttempt 1 Running) /\ queueCh s = [1%nat] /\
  let s' := foldl demo_exec s [OHandle 0 (demo_env demo_gone) f64_zero; OHandle 1 (demo_env demo_gone) f64_zero] in
  reported 1 (log s') = 1%nat /\ queueCh s' = [1%nat] /\
  (handles s' !! DestroySandbox ≫= h_limiter) = Some (MkWeighted 1 (-1) [] [] [] 1).
Proof. split_and!; by vm_compute. Qed.

(** A limit that is set while a task runs without one: the task returns a permit it
    never had, and two more may run at a time. *)
Theorem late_limit_overdrawn :
  let s := demo_run 0 8 [OSubmit 0 demo_destroy; OTake; OConcurrent DestroySandbox 1; OHandle 0 (demo_env demo_gone) f64_zero;
    OSubmit 1 demo_destroy; OSubmit 2 demo_destroy; OTake; OTake] in
  attempts s !! 1%nat = Some (MkAttempt 1 Running) /\ attempts s !! 2%nat = Some (MkAttempt 2 Running) /\
  (sem_size <$> (handles s !! DestroySandbox ≫= h_limiter)) = Some 1.
Proof. split_and!; by vm_compute. Qed.

(** A task that is to be tried again while the queue is full disappears: no run, no
    report. *)
Theorem full_queue_loses_task :
  let s := demo_run 1 1 [OSubmit 0 demo_destroy; OTake; OHandle 0 (demo_env demo_busy) f64_zero; OSubmit 1 demo_destroy; ORequeue 0] in
  held 0 s = O /\ reported 0 (log s) = O /\ given_up 0 (log s) = 1%nat /\ proxies (stored s) !! SandboxProxy "sb-1" <> None.
Proof. split_and!; by vm_compute. Qed.

Lemma tasks_finish_witness : let s := demo_run 1 8 [OSubmit 0 demo_destroy] in
  (length [OTake; OHandle 0 (demo_env demo_gone) f64_zero] <= mu 2 s + sum_list_with denial [OTake; OHandle 0 (demo_env demo_gone) f64_zero] * 15)%nat /\
  mu 2 s = 15%nat /\ reported 0 (log (foldl demo_exec s [OTake; OHandle 0 (demo_env demo_gone) f64_zero])) = 1%nat.
Proof.
  split; [|split; by vm_compute].
  apply (tasks_finish demo_codes demo_cubelet [] 30 9 2 (demo_flows 1 8) demo_store [OSubmit 0 demo_destroy]
    [OTake; OHandle 0 (demo_env demo_gone) f64_zero]).
  - exact demo_flows_below.
  - repeat constructor.
  - repeat constructor.
  - split; [|split; [|exact I]]; apply moved; by vm_compute.
Defined.

Lemma destroy_forgets_only_gone_witness :
  proxies (HandleTask [] 30 9 demo_destroy (demo_env demo_gone) demo_store).2 !! SandboxProxy "sb-1" = None /\
  (HandleTask [] 30 9 demo_destroy (demo_env (AErr "refused")) demo_store).2 = demo_store.
Proof.
  split; [|by vm_compute].
  destruct (HandleTask [] 30 9 demo_destroy (demo_env demo_gone) demo_store) as [o s'] eqn:E.
  destruct (destroy_forgets_only_gone [] 30 9 demo_destroy (demo_env demo_gone) demo_store s' o "sb-1" eq_refl eq_refl E) as (_ & H & _).
  assert (o = Some None) as Ho by (change o with (o, s').1; rewrite <- E; by vm_compute).
  exact (proj1 (H Ho eq_refl)).
Defined.
