(* ===== verification/TcRefs.v ===== *)
(** * Which sandbox runs on which snapshot
    (CubeMaster/pkg/templatecenter/snapshot_runtime_ref.go,
    CubeMaster/pkg/base/db/models/snapshot_runtime_ref.go)

    A sandbox that was started from a snapshot, or rolled back to one, keeps the
    snapshot's memory mapped: a snapshot with such a reference must not be deleted.
    Two tables record the references: the active ones, one row per sandbox and kind
    of binding, and a history of all of them.

    A transaction happens as a whole or not at all; [io] is the error of one that
    does not.  Texts are compared exactly, which is what the database does for
    identifiers that do not differ in case only.  A column of type datetime holds a
    rounded instant, [col]. *)
From S2P Require Import Prelude GoStrings.
From Stdlib Require Import Ascii.

Open Scope string_scope.
Open Scope Z_scope.

Definition ErrTemplateStoreNotInitialized : string := "template store is not initialized".
Definition ErrRecordNotFound : string := "record not found".

Definition SnapshotRuntimeBindingMemoryBacking : string := "memory_backing".
Definition SnapshotRuntimeRefStatusActive : string := "ACTIVE".
Definition SnapshotRuntimeRefStatusReleased : string := "RELEASED".

Record SnapshotRuntimeRefInfo : Type := MkRef {
  r_ID : Z; r_SnapshotID : string; r_SandboxID : string; r_NodeID : string; r_NodeIP : string; r_BindingType : string;
  r_MemoryVol : string; r_MemoryDev : string; r_RootfsVol : string; r_SandboxGen : Z; r_Status : string;
  r_AttachedAt : Z; r_ReleasedAt : option Z; r_LastSeenAt : option Z; r_LastError : string;
}.

(** A row of the history; [h_ID] is its primary key. *)
Record SnapshotRuntimeRef : Type := MkHist {
  h_ID : Z; h_SnapshotID : string; h_SandboxID : string; h_NodeID : string; h_NodeIP : string; h_BindingType : string;
  h_MemoryVol : string; h_MemoryDev : string; h_RootfsVol : string; h_SandboxGen : Z; h_Status : string;
  h_AttachedAt : Z; h_ReleasedAt : option Z; h_LastSeenAt : option Z; h_LastError : string;
}.

(** A row of the active table; its key is [(SandboxID, BindingType)]. *)
Record SnapshotRuntimeActive : Type := MkActive {
  a_SandboxID : string; a_BindingType : string; a_SnapshotID : string; a_NodeID : string; a_NodeIP : string;
  a_MemoryVol : string; a_RootfsVol : string; a_SandboxGen : Z; a_AttachedAt : Z; a_LastSeenAt : option Z;
  a_LastError : string; a_CreatedAt : Z; a_UpdatedAt : Z;
}.

Record refs : Type := MkRefs {
  active : gmap (string * string) SnapshotRuntimeActive;
  history : list SnapshotRuntimeRef;
}.

Definition empty_refs : refs := MkRefs ∅ [].

(** ** Conversions *)

Definition upper_byte (a : ascii) : ascii :=
  if is_lower a then ascii_of_N (N_of_ascii a - 32) else a.
Definition upper_ascii (s : string) : string := str_map upper_byte s.

Definition snapshotRuntimeRefModelToInfo (m : SnapshotRuntimeRef) : SnapshotRuntimeRefInfo :=
  MkRef (h_ID m) (TrimSpace (h_SnapshotID m)) (TrimSpace (h_SandboxID m)) (TrimSpace (h_NodeID m)) (TrimSpace (h_NodeIP m))
    (TrimSpace (h_BindingType m)) (TrimSpace (h_MemoryVol m)) (TrimSpace (h_MemoryDev m)) (TrimSpace (h_RootfsVol m))
    (h_SandboxGen m) (TrimSpace (h_Status m)) (h_AttachedAt m) (h_ReleasedAt m) (h_LastSeenAt m) (TrimSpace (h_LastError m)).

Definition snapshotRuntimeActiveModelToInfo (m : SnapshotRuntimeActive) : SnapshotRuntimeRefInfo :=
  MkRef 0 (TrimSpace (a_SnapshotID m)) (TrimSpace (a_SandboxID m)) (TrimSpace (a_NodeID m)) (TrimSpace (a_NodeIP m))
    (TrimSpace (a_BindingType m)) (TrimSpace (a_MemoryVol m)) "" (TrimSpace (a_RootfsVol m)) (a_SandboxGen m)
    SnapshotRuntimeRefStatusActive (a_AttachedAt m) None (a_LastSeenAt m) (TrimSpace (a_LastError m)).

(** [strings.ToUpper] of an ASCII status; the code reads nothing else of it. *)
Definition normalizeSnapshotRuntimeRef (r : SnapshotRuntimeRefInfo) : SnapshotRuntimeRefInfo :=
  let binding := TrimSpace (r_BindingType r) in
  let status := upper_ascii (TrimSpace (r_Status r)) in
  MkRef (r_ID r) (TrimSpace (r_SnapshotID r)) (TrimSpace (r_SandboxID r)) (TrimSpace (r_NodeID r)) (TrimSpace (r_NodeIP r))
    (if binding =s "" then SnapshotRuntimeBindingMemoryBacking else binding)
    (TrimSpace (r_MemoryVol r)) (TrimSpace (r_MemoryDev r)) (TrimSpace (r_RootfsVol r)) (r_SandboxGen r)
    (if status =s "" then SnapshotRuntimeRefStatusActive else status)
    (r_AttachedAt r) (r_ReleasedAt r) (r_LastSeenAt r) (r_LastError r).

Definition with_node (id ip : string) (r : SnapshotRuntimeRefInfo) : SnapshotRuntimeRefInfo :=
  MkRef (r_ID r) (r_SnapshotID r) (r_SandboxID r) id ip (r_BindingType r) (r_MemoryVol r) (r_MemoryDev r) (r_RootfsVol r)
    (r_SandboxGen r) (r_Status r) (r_AttachedAt r) (r_ReleasedAt r) (r_LastSeenAt r) (r_LastError r).

Definition newActiveSnapshotRuntimeRefModel (r : SnapshotRuntimeRefInfo) (attachedAt : Z) (lastSeenAt : option Z) : SnapshotRuntimeRef :=
  MkHist 0 (r_SnapshotID r) (r_SandboxID r) (r_NodeID r) (r_NodeIP r) (r_BindingType r) (r_MemoryVol r) "" (r_RootfsVol r)
    (r_SandboxGen r) SnapshotRuntimeRefStatusActive attachedAt None lastSeenAt "".

Definition newSnapshotRuntimeActiveModel (r : SnapshotRuntimeRefInfo) (attachedAt : Z) (lastSeenAt : option Z) (now : Z) : SnapshotRuntimeActive :=
  MkActive (r_SandboxID r) (r_BindingType r) (r_SnapshotID r) (r_NodeID r) (r_NodeIP r) (r_MemoryVol r) (r_RootfsVol r)
    (r_SandboxGen r) attachedAt lastSeenAt (TrimSpace (r_LastError r)) now now.

Definition default_binding (b : string) : string := if b =s "" then SnapshotRuntimeBindingMemoryBacking else b.

Definition snapshotRuntimeBindingKey (sandboxID bindingType : string) : string :=
  TrimSpace sandboxID +:+ String "000" (default_binding (TrimSpace bindingType)).

Definition snapshotRuntimeActiveChanged (existing : SnapshotRuntimeActive) (next : SnapshotRuntimeRefInfo) : bool :=
  (TrimSpace (a_SnapshotID existing) <>s TrimSpace (r_SnapshotID next))
  || (TrimSpace (a_MemoryVol existing) <>s TrimSpace (r_MemoryVol next))
  || (TrimSpace (a_RootfsVol existing) <>s TrimSpace (r_RootfsVol next))
  || negb (a_SandboxGen existing =? r_SandboxGen next).

Definition snapshotRuntimeActiveSameVersion (a b : SnapshotRuntimeActive) : bool :=
  (TrimSpace (a_SandboxID a) =s TrimSpace (a_SandboxID b))
  && (TrimSpace (a_BindingType a) =s TrimSpace (a_BindingType b))
  && (TrimSpace (a_SnapshotID a) =s TrimSpace (a_SnapshotID b))
  && (a_SandboxGen a =? a_SandboxGen b) && (a_AttachedAt a =? a_AttachedAt b).

(** ** Statements *)

Section Statements.
Context (col : Z -> Z).

(** Times as the columns keep them. *)
Definition col_active (a : SnapshotRuntimeActive) : SnapshotRuntimeActive :=
  MkActive (a_SandboxID a) (a_BindingType a) (a_SnapshotID a) (a_NodeID a) (a_NodeIP a) (a_MemoryVol a) (a_RootfsVol a)
    (a_SandboxGen a) (col (a_AttachedAt a)) (col <$> a_LastSeenAt a) (a_LastError a) (col (a_CreatedAt a)) (col (a_UpdatedAt a)).
Definition with_created (t : Z) (a : SnapshotRuntimeActive) : SnapshotRuntimeActive :=
  MkActive (a_SandboxID a) (a_BindingType a) (a_SnapshotID a) (a_NodeID a) (a_NodeIP a) (a_MemoryVol a) (a_RootfsVol a)
    (a_SandboxGen a) (a_AttachedAt a) (a_LastSeenAt a) (a_LastError a) t (a_UpdatedAt a).
Definition col_hist (id : Z) (h : SnapshotRuntimeRef) : SnapshotRuntimeRef :=
  MkHist id (h_SnapshotID h) (h_SandboxID h) (h_NodeID h) (h_NodeIP h) (h_BindingType h) (h_MemoryVol h) (h_MemoryDev h) (h_RootfsVol h)
    (h_SandboxGen h) (h_Status h) (col (h_AttachedAt h)) (col <$> h_ReleasedAt h) (col <$> h_LastSeenAt h) (h_LastError h).

(** INSERT ... ON DUPLICATE KEY UPDATE of every column but [created_at]. *)
Definition upsertSnapshotRuntimeActiveTx (a : SnapshotRuntimeActive) (s : refs) : refs :=
  let row := col_active a in
  let row := match active s !! (a_SandboxID a, a_BindingType a) with
             | Some old => with_created (a_CreatedAt old) row
             | None => row
             end in
  MkRefs (<[(a_SandboxID a, a_BindingType a) := row]> (active s)) (history s).

(** The next primary key is above all that were given out. *)
Definition next_id (s : refs) : Z := 1 + foldr (fun h m => Z.max (h_ID h) m) 0 (history s).
Definition create_history (h : SnapshotRuntimeRef) (s : refs) : refs :=
  MkRefs (active s) (history s ++ [col_hist (next_id s) h])%list.

Definition findSnapshotRuntimeActiveTx (sandboxID bindingType : string) (s : refs) : option SnapshotRuntimeActive :=
  active s !! (TrimSpace sandboxID, default_binding (TrimSpace bindingType)).

Definition released (now : Z) (reason : string) (h : SnapshotRuntimeRef) : SnapshotRuntimeRef :=
  MkHist (h_ID h) (h_SnapshotID h) (h_SandboxID h) (h_NodeID h) (h_NodeIP h) (h_BindingType h) (h_MemoryVol h) (h_MemoryDev h)
    (h_RootfsVol h) (h_SandboxGen h) SnapshotRuntimeRefStatusReleased (h_AttachedAt h) (Some (col now)) (h_LastSeenAt h) (TrimSpace reason).

(** SELECT id ... WHERE sandbox_id = ? AND status = 'ACTIVE' [AND binding_type = ?]. *)
Definition hist_matches (sandboxID binding : string) (h : SnapshotRuntimeRef) : bool :=
  (h_SandboxID h =s sandboxID) && (h_Status h =s SnapshotRuntimeRefStatusActive)
  && ((binding =s "") || (h_BindingType h =s binding)).

Definition releaseHistoricalActiveRuntimeRefsTx (sandboxID bindingType : string) (now : Z) (reason : string) (s : refs) : refs :=
  if TrimSpace sandboxID =s "" then s
  else
    let ids := h_ID <$> filter (fun h => hist_matches (TrimSpace sandboxID) (TrimSpace bindingType) h = true) (history s) in
    MkRefs (active s) ((fun h => if bool_decide (h_ID h ∈ ids) then released now reason h else h) <$> history s).

Definition insertDetachedSnapshotRuntimeHistoryTx (item : SnapshotRuntimeActive) (reason : string) (now : Z) (s : refs) : refs :=
  let m := newActiveSnapshotRuntimeRefModel (snapshotRuntimeActiveModelToInfo item) (a_AttachedAt item) (a_LastSeenAt item) in
  create_history
    (MkHist 0 (h_SnapshotID m) (h_SandboxID m) (h_NodeID m) (h_NodeIP m) (h_BindingType m) (h_MemoryVol m) (h_MemoryDev m)
       (h_RootfsVol m) (h_SandboxGen m) SnapshotRuntimeRefStatusReleased (h_AttachedAt m) (Some now) (h_LastSeenAt m) (TrimSpace reason)) s.

Definition with_reason (reason : string) (h : SnapshotRuntimeRef) : SnapshotRuntimeRef :=
  MkHist (h_ID h) (h_SnapshotID h) (h_SandboxID h) (h_NodeID h) (h_NodeIP h) (h_BindingType h) (h_MemoryVol h) (h_MemoryDev h)
    (h_RootfsVol h) (h_SandboxGen h) (h_Status h) (h_AttachedAt h) (h_ReleasedAt h) (h_LastSeenAt h) (TrimSpace reason).

Definition attachSnapshotRuntimeBindingTx (ref : SnapshotRuntimeRefInfo) (reason : string) (attachedAt : Z) (lastSeenAt : option Z)
    (now : Z) (s : refs) : refs :=
  let s := match findSnapshotRuntimeActiveTx (r_SandboxID ref) (r_BindingType ref) s with
           | Some previous =>
               if snapshotRuntimeActiveChanged previous ref
               then insertDetachedSnapshotRuntimeHistoryTx previous "switched runtime ref" now s else s
           | None => s
           end in
  let s := releaseHistoricalActiveRuntimeRefsTx (r_SandboxID ref) (r_BindingType ref) now "superseded by active binding" s in
  let s := upsertSnapshotRuntimeActiveTx (newSnapshotRuntimeActiveModel ref attachedAt lastSeenAt now) s in
  create_history (with_reason reason (newActiveSnapshotRuntimeRefModel ref attachedAt lastSeenAt)) s.

(** The row the version of [item] names, if it is still that version. *)
Definition version_matches (item row : SnapshotRuntimeActive) : bool :=
  (a_SandboxID row =s a_SandboxID item) && (a_BindingType row =s a_BindingType item) && (a_SnapshotID row =s a_SnapshotID item)
  && (a_SandboxGen row =? a_SandboxGen item) && (a_AttachedAt row =? a_AttachedAt item).
Definition snapshotRuntimeActiveVersionQuery (item : SnapshotRuntimeActive) (s : refs) : option SnapshotRuntimeActive :=
  match active s !! (a_SandboxID item, a_BindingType item) with
  | Some row => if version_matches item row then Some row else None
  | None => None
  end.

Definition detachObservedSnapshotRuntimeBindingTx (item : SnapshotRuntimeActive) (reason : string) (now : Z) (s : refs) : refs :=
  match snapshotRuntimeActiveVersionQuery item s with
  | None => s
  | Some _ =>
      let s := MkRefs (delete (a_SandboxID item, a_BindingType item) (active s)) (history s) in
      let s := releaseHistoricalActiveRuntimeRefsTx (a_SandboxID item) (a_BindingType item) now reason s in
      insertDetachedSnapshotRuntimeHistoryTx item reason now s
  end.

(** SELECT ... WHERE sandbox_id = ? [AND binding_type = ?]. *)
Definition sandbox_rows (sandboxID bindingType : string) (s : refs) : list SnapshotRuntimeActive :=
  filter (fun a => a_SandboxID a = sandboxID /\ (bindingType = "" \/ a_BindingType a = bindingType)) (map_to_list (active s)).*2.

Definition detachSnapshotRuntimeBindingsTx (sandboxID bindingType reason : string) (now : Z) (s : refs) : refs :=
  let sandboxID := TrimSpace sandboxID in
  if sandboxID =s "" then s
  else foldl (fun s item => detachObservedSnapshotRuntimeBindingTx item reason now s) s
         (sandbox_rows sandboxID (TrimSpace bindingType) s).

Definition attachObservedSnapshotRuntimeBindingTx (ref : SnapshotRuntimeRefInfo) (expected : option SnapshotRuntimeActive) (now : Z)
    (s : refs) : refs :=
  let go := attachSnapshotRuntimeBindingTx ref "reconciled runtime ref" now (Some now) now s in
  match findSnapshotRuntimeActiveTx (r_SandboxID ref) (r_BindingType ref) s with
  | Some current =>
      match expected with
      | Some e => if snapshotRuntimeActiveSameVersion current e then go else s
      | None => s
      end
  | None => go
  end.

Definition snapshotRuntimeActiveRefreshValues (ref : SnapshotRuntimeRefInfo) (lastSeen : option Z) (now : Z) (a : SnapshotRuntimeActive) : SnapshotRuntimeActive :=
  MkActive (a_SandboxID a) (a_BindingType a) (a_SnapshotID a) (r_NodeID ref) (r_NodeIP ref) (r_MemoryVol ref) (r_RootfsVol ref)
    (r_SandboxGen ref) (a_AttachedAt a) (col <$> lastSeen) "" (a_CreatedAt a) (col now).

(** ** The operations *)

Definition transaction (io : option string) (f : refs -> refs) (s : refs) : refs * res unit :=
  match io with Some e => (s, Err e) | None => (f s, Ok tt) end.

Definition AttachSnapshotRuntimeBinding (ready : bool) (io : option string) (ref : SnapshotRuntimeRefInfo) (reason : string) (now : Z)
    (s : refs) : refs * res unit :=
  if negb ready then (s, Err ErrTemplateStoreNotInitialized)
  else
    let ref := normalizeSnapshotRuntimeRef ref in
    if r_SnapshotID ref =s "" then (s, Err "snapshot_id is required")
    else if r_SandboxID ref =s "" then (s, Err "sandbox_id is required")
    else
      let attachedAt := if time_is_zero (r_AttachedAt ref) then now else r_AttachedAt ref in
      let lastSeenAt := match r_LastSeenAt ref with None => Some now | Some t => Some t end in
      transaction io (attachSnapshotRuntimeBindingTx ref reason attachedAt lastSeenAt now) s.

Definition AcquireSnapshotRuntimeRef (ready : bool) (io : option string) (ref : SnapshotRuntimeRefInfo) (now : Z) (s : refs) : refs * res unit :=
  AttachSnapshotRuntimeBinding ready io ref "attached runtime ref" now s.

Definition DetachSnapshotRuntimeBinding (ready : bool) (io : option string) (sandboxID bindingType reason : string) (now : Z) (s : refs) : refs * res unit :=
  if negb ready then (s, Err ErrTemplateStoreNotInitialized)
  else if TrimSpace sandboxID =s "" then (s, Ok tt)
  else transaction io (detachSnapshotRuntimeBindingsTx (TrimSpace sandboxID) bindingType reason now) s.

Definition ReleaseSnapshotRuntimeRefsBySandbox (ready : bool) (io : option string) (sandboxID reason : string) (now : Z) (s : refs) : refs * res unit :=
  DetachSnapshotRuntimeBinding ready io sandboxID "" reason now s.

(** ORDER BY sandbox_id, binding_type. *)
Definition key_le (a b : SnapshotRuntimeActive) : Prop :=
  match String.compare (a_SandboxID a) (a_SandboxID b) with
  | Lt => True
  | Gt => False
  | Eq => String.compare (a_BindingType a) (a_BindingType b) <> Gt
  end.
#[export] Instance key_le_dec a b : Decision (key_le a b).
Proof. unfold key_le. destruct (String.compare _ _); apply _. Defined.

Definition snapshot_rows (snapshotID : string) (s : refs) : list SnapshotRuntimeActive :=
  merge_sort key_le (filter (fun a => a_SnapshotID a = snapshotID) (map_to_list (active s)).*2).

Definition ListActiveSnapshotRuntimeRefs (ready : bool) (io : option string) (snapshotID : string) (s : refs) : res (list SnapshotRuntimeRefInfo) :=
  if negb ready then Err ErrTemplateStoreNotInitialized
  else if TrimSpace snapshotID =s "" then Ok []
  else match io with
       | Some e => Err e
       | None => Ok (snapshotRuntimeActiveModelToInfo <$> snapshot_rows (TrimSpace snapshotID) s)
       end.

Definition GetActiveSnapshotRuntimeRefBySandbox (ready : bool) (io : option string) (sandboxID : string) (s : refs) : res SnapshotRuntimeRefInfo :=
  if negb ready then Err ErrTemplateStoreNotInitialized
  else if TrimSpace sandboxID =s "" then Err ErrRecordNotFound
  else match io with
       | Some e => Err e
       | None =>
           match active s !! (TrimSpace sandboxID, SnapshotRuntimeBindingMemoryBacking) with
           | Some a => Ok (snapshotRuntimeActiveModelToInfo a)
           | None => Err ErrRecordNotFound
           end
       end.

Definition CountActiveSnapshotRuntimeRefs (ready : bool) (io : option string) (snapshotID : string) (s : refs) : res Z :=
  if negb ready then Err ErrTemplateStoreNotInitialized
  else if TrimSpace snapshotID =s "" then Ok 0
  else match io with
       | Some e => Err e
       | None => Ok (Z.of_nat (length (snapshot_rows (TrimSpace snapshotID) s)))
       end.

(** ** What a node reports *)

Definition on_node (nodeID nodeIP : string) (a : SnapshotRuntimeActive) : bool :=
  if nodeID <>s "" then a_NodeID a =s nodeID else a_NodeIP a =s nodeIP.

Definition node_rows (nodeID nodeIP : string) (s : refs) : list SnapshotRuntimeActive :=
  filter (fun a => on_node nodeID nodeIP a = true) (map_to_list (active s)).*2.

Definition row_key (a : SnapshotRuntimeActive) : string := snapshotRuntimeBindingKey (a_SandboxID a) (a_BindingType a).
Definition ref_key (r : SnapshotRuntimeRefInfo) : string := snapshotRuntimeBindingKey (r_SandboxID r) (r_BindingType r).
Definition by_key (rows : list SnapshotRuntimeActive) : gmap string SnapshotRuntimeActive :=
  foldl (fun m a => <[row_key a := a]> m) ∅ rows.

(** The references that count: of a named sandbox and snapshot, on a known node. *)
Definition observed_ref (nodeID nodeIP : string) (raw : SnapshotRuntimeRefInfo) : option SnapshotRuntimeRefInfo :=
  let ref := normalizeSnapshotRuntimeRef raw in
  if (r_SandboxID ref =s "") || (r_SnapshotID ref =s "") then None
  else Some (with_node (if r_NodeID ref =s "" then nodeID else r_NodeID ref) (if r_NodeIP ref =s "" then nodeIP else r_NodeIP ref) ref).

Definition refresh_one (existing : gmap string SnapshotRuntimeActive) (now : Z) (ref : SnapshotRuntimeRefInfo) (s : refs) : refs :=
  match existing !! ref_key ref with
  | Some e =>
      if EqualFold (a_SnapshotID e) (r_SnapshotID ref) then
        match snapshotRuntimeActiveVersionQuery e s with
        | Some row =>
            MkRefs (<[(a_SandboxID e, a_BindingType e) := snapshotRuntimeActiveRefreshValues ref (Some now) now row]> (active s)) (history s)
        | None => s
        end
      else attachObservedSnapshotRuntimeBindingTx ref (Some e) now s
  | None => attachObservedSnapshotRuntimeBindingTx ref None now s
  end.

Definition refresh_tx (nodeID nodeIP : string) (observed : list SnapshotRuntimeRefInfo) (now : Z) (s : refs) : refs :=
  let existing := node_rows nodeID nodeIP s in
  let refs := omap (observed_ref nodeID nodeIP) observed in
  let s' := foldl (fun s ref => refresh_one (by_key existing) now ref s) s refs in
  foldl (fun s item =>
           if bool_decide (row_key item ∈ (ref_key <$> refs)) then s
           else detachObservedSnapshotRuntimeBindingTx item "runtime ref not observed on node" now s) s' existing.

Definition RefreshSnapshotRuntimeRefsFromNode (ready : bool) (io : option string) (nodeID nodeIP : string)
    (observed : list SnapshotRuntimeRefInfo) (now : Z) (s : refs) : refs * res unit :=
  if negb ready then (s, Err ErrTemplateStoreNotInitialized)
  else if (TrimSpace nodeID =s "") && (TrimSpace nodeIP =s "") then (s, Err "node id or ip is required")
  else transaction io (refresh_tx (TrimSpace nodeID) (TrimSpace nodeIP) observed now) s.

Definition with_error (message : string) (now : Z) (a : SnapshotRuntimeActive) : SnapshotRuntimeActive :=
  MkActive (a_SandboxID a) (a_BindingType a) (a_SnapshotID a) (a_NodeID a) (a_NodeIP a) (a_MemoryVol a) (a_RootfsVol a)
    (a_SandboxGen a) (a_AttachedAt a) (a_LastSeenAt a) (TrimSpace message) (a_CreatedAt a) (col now).

Definition UpdateSnapshotRuntimeRefsNodeError (ready : bool) (io : option string) (nodeID nodeIP message : string) (now : Z) (s : refs) : refs * res unit :=
  if negb ready then (s, Err ErrTemplateStoreNotInitialized)
  else if (TrimSpace nodeID =s "") && (TrimSpace nodeIP =s "") then (s, Ok tt)
  else transaction io
         (fun s => MkRefs ((fun a => if on_node (TrimSpace nodeID) (TrimSpace nodeIP) a then with_error message now a else a) <$> active s)
                          (history s)) s.

End Statements.

(** ** References named by the annotations of a sandbox *)

Definition CubeAnnotationRuntimeSnapshotID : string := "cube.master.runtime.snapshot.id".
Definition CubeAnnotationRuntimeSnapshotAttachedAt : string := "cube.master.runtime.snapshot.attached_at".

Definition annotation (m : gmap string string) (k : string) : string := default "" (m !! k).

Definition blank_ref : SnapshotRuntimeRefInfo := MkRef 0 "" "" "" "" "" "" "" "" 0 "" time_zero None None "".

Section Annotations.
Context `{!TimeText}.

Definition parseSnapshotRuntimeRefTime (raw : string) : option Z :=
  if TrimSpace raw =s "" then None else parse_nano (TrimSpace raw).

Definition snapshotRuntimeRefFromAnnotationMap (sandboxID nodeID nodeIP : string) (annotations : gmap string string) : SnapshotRuntimeRefInfo :=
  let r := normalizeSnapshotRuntimeRef
             (MkRef 0 (TrimSpace (annotation annotations CubeAnnotationRuntimeSnapshotID)) sandboxID nodeID nodeIP
                SnapshotRuntimeBindingMemoryBacking "" "" "" 0 "" time_zero None None "") in
  match parseSnapshotRuntimeRefTime (annotation annotations CubeAnnotationRuntimeSnapshotAttachedAt) with
  | Some t => MkRef (r_ID r) (r_SnapshotID r) (r_SandboxID r) (r_NodeID r) (r_NodeIP r) (r_BindingType r) (r_MemoryVol r) (r_MemoryDev r)
                (r_RootfsVol r) (r_SandboxGen r) (r_Status r) t (r_ReleasedAt r) (Some t) (r_LastError r)
  | None => r
  end.

Record SandboxBriefData : Type := MkBrief {
  b_SandboxID : string; b_HostID : string; b_HostIP : string; b_TemplateID : string;
  b_Annotations : gmap string string; b_Labels : gmap string string;
}.

Definition SnapshotRuntimeRefFromSandboxBriefData (sandbox : option SandboxBriefData) : SnapshotRuntimeRefInfo * bool :=
  match sandbox with
  | None => (blank_ref, false)
  | Some d =>
      let ref := snapshotRuntimeRefFromAnnotationMap (b_SandboxID d) (b_HostID d) (b_HostIP d) (b_Annotations d) in
      (ref, r_SnapshotID ref <>s "")
  end.

End Annotations.

(** ** Lemmas on the statements *)

Definition row_pk (a : SnapshotRuntimeActive) : string * string := (a_SandboxID a, a_BindingType a).
Definition ref_pk (r : SnapshotRuntimeRefInfo) : string * string := (r_SandboxID r, r_BindingType r).
Definition hist_pk (h : SnapshotRuntimeRef) : string * string := (h_SandboxID h, h_BindingType h).

Definition trimmed (s : string) : Prop := TrimSpace s = s /\ s <> "".
Definition no_nul (s : string) : Prop := str_all (fun a => negb (bool_decide (a = "000"%char))) s = true.

(** The snapshots that the history calls active for a binding. *)
Definition active_history (k : string * string) (s : refs) : list string :=
  h_SnapshotID <$> filter (fun h => hist_pk h = k /\ h_Status h = SnapshotRuntimeRefStatusActive) (history s).

Record row_ok (k : string * string) (a : SnapshotRuntimeActive) : Prop := {
  ro_key : row_pk a = k;
  ro_sandbox : trimmed (a_SandboxID a);
  ro_nul : no_nul (a_SandboxID a);
  ro_binding : trimmed (a_BindingType a);
  ro_snapshot : trimmed (a_SnapshotID a);
}.

Record refs_ok (s : refs) : Prop := {
  ok_rows : map_Forall row_ok (active s);
  ok_ids : NoDup (h_ID <$> history s);
  ok_history : forall k, active_history k s = from_option (fun a => [a_SnapshotID a]) [] (active s !! k);
}.

Record ref_ok (r : SnapshotRuntimeRefInfo) : Prop := {
  rf_sandbox : trimmed (r_SandboxID r);
  rf_nul : no_nul (r_SandboxID r);
  rf_binding : trimmed (r_BindingType r);
  rf_snapshot : trimmed (r_SnapshotID r);
}.

Lemma no_nul_index s : no_nul s -> index_any s "000"%char = false.
Proof. intros H. by apply (index_any_all _ _ _ H). Qed.

Lemma no_nul_trim s : no_nul s -> no_nul (TrimSpace s).
Proof. apply str_all_TrimSpace. Qed.

Lemma default_binding_trimmed b : trimmed b -> default_binding (TrimSpace b) = b.
Proof. intros [-> Hne]. unfold default_binding. by rewrite bool_decide_false. Qed.

Lemma trimmed_default b : trimmed (default_binding (TrimSpace b)).
Proof.
  unfold default_binding. case_bool_decide as E; [done|]. split; [apply TrimSpace_idem|done].
Qed.

Lemma binding_key_inj s b s' b' : no_nul s -> no_nul s' -> trimmed s -> trimmed s' -> trimmed b -> trimmed b' ->
  snapshotRuntimeBindingKey s b = snapshotRuntimeBindingKey s' b' -> (s, b) = (s', b').
Proof.
  intros Hn Hn' [Hs _] [Hs' _] Hb Hb'. unfold snapshotRuntimeBindingKey.
  rewrite Hs, Hs', !default_binding_trimmed by done. intros E.
  pose proof (Cut_byte_app s "000"%char b (no_nul_index _ Hn)) as H1.
  pose proof (Cut_byte_app s' "000"%char b' (no_nul_index _ Hn')) as H2.
  rewrite E in H1. congruence.
Qed.

Lemma normalize_ok r : r_SnapshotID (normalizeSnapshotRuntimeRef r) <> "" -> r_SandboxID (normalizeSnapshotRuntimeRef r) <> "" ->
  no_nul (r_SandboxID r) -> ref_ok (normalizeSnapshotRuntimeRef r).
Proof.
  cbn. intros H1 H2 H3. split; cbn.
  - split; [apply TrimSpace_idem|done].
  - by apply no_nul_trim.
  - apply trimmed_default.
  - split; [apply TrimSpace_idem|done].
Qed.

Section Lemmas.
Context (col : Z -> Z).

Lemma next_id_fresh s : next_id s ∉ (h_ID <$> history s).
Proof.
  assert (H : forall l, Forall (fun h => h_ID h <= foldr (fun h m => Z.max (h_ID h) m) 0 l) l).
  { induction l as [|h l IH]; constructor; cbn; [lia|]. eapply Forall_impl; [exact IH|]. cbn. lia. }
  intros (h & E & Hin)%list_elem_of_fmap. unfold next_id in E.
  pose proof (proj1 (Forall_forall _ _) (H (history s)) h Hin). cbn in *. lia.
Qed.

Lemma create_history_ids h s : NoDup (h_ID <$> history s) -> NoDup (h_ID <$> history (create_history col h s)).
Proof.
  intros H. cbn. rewrite fmap_app. apply NoDup_app. split; [done|]. split; [|apply NoDup_singleton].
  intros x Hx ->%list_elem_of_singleton. by apply next_id_fresh in Hx.
Qed.

Lemma create_history_active k h s : active_history k (create_history col h s)
  = (active_history k s ++ (if bool_decide (hist_pk h = k /\ h_Status h = SnapshotRuntimeRefStatusActive) then [h_SnapshotID h] else []))%list.
Proof.
  unfold active_history. cbn. rewrite filter_app, fmap_app. f_equal.
  rewrite filter_cons, filter_nil. unfold hist_pk. cbn. case_bool_decide as E; [by rewrite decide_True|by rewrite decide_False].
Qed.

Lemma create_history_active_ne k h s : hist_pk h <> k \/ h_Status h <> SnapshotRuntimeRefStatusActive ->
  active_history k (create_history col h s) = active_history k s.
Proof. intros H. rewrite create_history_active, bool_decide_false, app_nil_r by naive_solver. done. Qed.

(** Releasing by primary key touches exactly the rows that were selected. *)
Lemma release_selected sid b now reason s : trimmed sid -> trimmed b -> NoDup (h_ID <$> history s) ->
  history (releaseHistoricalActiveRuntimeRefsTx col sid b now reason s)
  = (fun h => if bool_decide (hist_pk h = (sid, b) /\ h_Status h = SnapshotRuntimeRefStatusActive) then released col now reason h else h) <$> history s.
Proof.
  intros [Hs Hs'] [Hb Hb'] Hnd. unfold releaseHistoricalActiveRuntimeRefsTx. rewrite Hs, Hb, bool_decide_false by done. cbn.
  apply list_fmap_ext. intros i h Hi. apply list_elem_of_lookup_2 in Hi.
  assert (E : h_ID h ∈ (h_ID <$> filter (fun h => hist_matches sid b h = true) (history s)) <-> hist_matches sid b h = true).
  { split.
    - intros (h' & E & [Hm Hin]%list_elem_of_filter)%list_elem_of_fmap.
      enough (h = h') as -> by done.
      apply list_elem_of_lookup in Hi as [i1 H1]. apply list_elem_of_lookup in Hin as [i2 H2].
      assert (i1 = i2) as ->; [|congruence].
      eapply (NoDup_lookup _ _ _ (h_ID h)); [exact Hnd|..]; rewrite list_lookup_fmap; [by rewrite H1|by rewrite H2, E].
    - intros Hm. apply list_elem_of_fmap. exists h. split; [done|]. by apply list_elem_of_filter. }
  rewrite (bool_decide_ext _ _ E). unfold hist_matches, hist_pk.
  rewrite (bool_decide_false (b = "")) by done. cbn.
  repeat case_bool_decide; cbn in *; naive_solver.
Qed.

Lemma release_active k sid b now reason s : trimmed sid -> trimmed b -> NoDup (h_ID <$> history s) ->
  active_history k (releaseHistoricalActiveRuntimeRefsTx col sid b now reason s)
  = if bool_decide (k = (sid, b)) then [] else active_history k s.
Proof.
  intros Hs Hb Hnd. unfold active_history. rewrite release_selected by done.
  clear Hnd. induction (history s) as [|h l IH]; [by case_bool_decide|].
  cbn [fmap list_fmap]. rewrite !filter_cons.
  destruct (bool_decide_reflect (hist_pk h = (sid, b) /\ h_Status h = SnapshotRuntimeRefStatusActive)) as [[E1 E1']|E1].
  - rewrite decide_False by (intros [_ ?]; done). rewrite IH. case_bool_decide as E2; [done|].
    rewrite decide_False; [done|]. intros [E _]. congruence.
  - case_bool_decide as E2.
    + rewrite decide_False by (intros ?; subst; done). exact IH.
    + case_decide; cbn; by rewrite IH.
Qed.

Lemma release_ids sid b now reason s : h_ID <$> history (releaseHistoricalActiveRuntimeRefsTx col sid b now reason s) = h_ID <$> history s.
Proof.
  unfold releaseHistoricalActiveRuntimeRefsTx. case_bool_decide; [done|]. cbn. rewrite <- list_fmap_compose.
  apply list_fmap_ext. intros i h _. cbn. by case_bool_decide.
Qed.

Lemma release_rows sid b now reason s : active (releaseHistoricalActiveRuntimeRefsTx col sid b now reason s) = active s.
Proof. unfold releaseHistoricalActiveRuntimeRefsTx. by case_bool_decide. Qed.

Lemma insert_detached_active k item reason now s : active_history k (insertDetachedSnapshotRuntimeHistoryTx col item reason now s) = active_history k s.
Proof. apply create_history_active_ne. by right. Qed.


(** *** Attaching *)

Lemma upsert_history k a s : active_history k (upsertSnapshotRuntimeActiveTx col a s) = active_history k s.
Proof. done. Qed.

Definition attached_row (ref : SnapshotRuntimeRefInfo) (attachedAt : Z) (lastSeenAt : option Z) (now : Z) (old : option SnapshotRuntimeActive) : SnapshotRuntimeActive :=
  let row := col_active col (newSnapshotRuntimeActiveModel ref attachedAt lastSeenAt now) in
  match old with Some o => with_created (a_CreatedAt o) row | None => row end.

Lemma attached_row_ok ref at_ seen now old : ref_ok ref -> row_ok (ref_pk ref) (attached_row ref at_ seen now old).
Proof. intros []. by destruct old; split. Qed.

Lemma attached_row_snapshot ref at_ seen now old : a_SnapshotID (attached_row ref at_ seen now old) = r_SnapshotID ref.
Proof. by destruct old. Qed.

Lemma attach_rows ref reason at_ seen now s :
  active (attachSnapshotRuntimeBindingTx col ref reason at_ seen now s)
  = <[ref_pk ref := attached_row ref at_ seen now (active s !! ref_pk ref)]> (active s).
Proof.
  unfold attachSnapshotRuntimeBindingTx. cbn.
  set (s1 := match findSnapshotRuntimeActiveTx _ _ s with Some _ => _ | None => _ end).
  assert (E : active s1 = active s) by (subst s1; repeat case_match; done).
  rewrite !release_rows, !E. unfold ref_pk, attached_row. by case_match.
Qed.

Lemma attach_ok ref reason at_ seen now s : ref_ok ref -> refs_ok s -> refs_ok (attachSnapshotRuntimeBindingTx col ref reason at_ seen now s).
Proof.
  intros Hr [H1 H2 H3]. pose proof (attach_rows ref reason at_ seen now s) as Hrows.
  destruct Hr as [Hs Hn Hb Hp] eqn:E. clear E.
  split.
  - rewrite Hrows. apply map_Forall_insert_2; [|done]. by apply attached_row_ok.
  - apply create_history_ids. cbn. rewrite release_ids. repeat case_match; [by apply create_history_ids|done..].
  - intros k. rewrite Hrows. unfold attachSnapshotRuntimeBindingTx.
    rewrite create_history_active, upsert_history.
    set (s1 := match findSnapshotRuntimeActiveTx _ _ s with Some _ => _ | None => _ end).
    assert (Hh : active_history k s1 = active_history k s /\ NoDup (h_ID <$> history s1)).
    { subst s1. repeat case_match; try done. split; [apply insert_detached_active|by apply create_history_ids]. }
    destruct Hh as [Hh Hnd].
    rewrite release_active by done. rewrite Hh, H3. unfold hist_pk, ref_pk. cbn.
    destruct (decide (k = (r_SandboxID ref, r_BindingType ref))) as [->|Hne].
    + rewrite !bool_decide_true by done. rewrite lookup_insert_eq. cbn. by rewrite attached_row_snapshot.
    + rewrite !bool_decide_false by naive_solver. rewrite lookup_insert_ne by done. by rewrite app_nil_r.
Qed.

(** *** Detaching *)

Lemma version_refl item : version_matches item item = true.
Proof. unfold version_matches. rewrite !bool_decide_true, !Z.eqb_refl by done. done. Qed.

Lemma version_query_self s item : active s !! row_pk item = Some item -> snapshotRuntimeActiveVersionQuery item s = Some item.
Proof. unfold snapshotRuntimeActiveVersionQuery, row_pk. intros ->. by rewrite version_refl. Qed.

Lemma detach_rows item reason now s :
  active (detachObservedSnapshotRuntimeBindingTx col item reason now s)
  = match snapshotRuntimeActiveVersionQuery item s with Some _ => delete (row_pk item) (active s) | None => active s end.
Proof. unfold detachObservedSnapshotRuntimeBindingTx. destruct (snapshotRuntimeActiveVersionQuery item s); [|done]. cbn. by rewrite release_rows. Qed.

Lemma detach_ok item reason now s : row_ok (row_pk item) item -> refs_ok s -> refs_ok (detachObservedSnapshotRuntimeBindingTx col item reason now s).
Proof.
  intros Hi Hok. pose proof (detach_rows item reason now s) as Hrows.
  unfold detachObservedSnapshotRuntimeBindingTx in *. destruct (snapshotRuntimeActiveVersionQuery item s); [|done].
  destruct Hok as [H1 H2 H3]. split.
  - rewrite Hrows. by apply map_Forall_delete.
  - apply create_history_ids. by rewrite release_ids.
  - intros k. rewrite Hrows, insert_detached_active. rewrite release_active by (try apply Hi; done).
    change (active_history k (MkRefs ?a (history s))) with (active_history k s). rewrite H3.
    unfold row_pk. case_bool_decide as E; [by rewrite E, lookup_delete_eq|by rewrite lookup_delete_ne].
Qed.

(** Detaching rows that are all there, one after the other. *)
Lemma detach_all reason now items : forall s, refs_ok s -> NoDup (row_pk <$> items) ->
  (forall a, a ∈ items -> active s !! row_pk a = Some a) ->
  let s' := foldl (fun s item => detachObservedSnapshotRuntimeBindingTx col item reason now s) s items in
  refs_ok s' /\ forall k, active s' !! k = if bool_decide (k ∈ row_pk <$> items) then None else active s !! k.
Proof.
  induction items as [|a l IH]; intros s Hok Hnd Hin; cbn -[bool_decide].
  { split; [done|]. intros k. rewrite bool_decide_false; [done|apply not_elem_of_nil]. }
  cbn in Hnd. apply NoDup_cons in Hnd as [Ha Hnd].
  assert (Hia : active s !! row_pk a = Some a) by (apply Hin, list_elem_of_here).
  pose proof (detach_rows a reason now s) as Hrows. rewrite (version_query_self s a Hia) in Hrows.
  destruct (IH (detachObservedSnapshotRuntimeBindingTx col a reason now s)) as [Hok' Hk']; [|done|..].
  { apply detach_ok; [|done]. by apply (map_Forall_lookup_1 _ _ _ _ (ok_rows _ Hok)). }
  { intros b Hb. rewrite Hrows, lookup_delete_ne; [by apply Hin, list_elem_of_further|].
    intros E. apply Ha. rewrite E. by apply list_elem_of_fmap_2. }
  split; [done|]. intros k. rewrite Hk', Hrows. cbn.
  destruct (decide (k = row_pk a)) as [->|Hne].
  - rewrite lookup_delete_eq, (bool_decide_true (row_pk a ∈ row_pk a :: _)) by apply list_elem_of_here. by case_bool_decide.
  - rewrite lookup_delete_ne by done. erewrite bool_decide_ext; [done|].
    split; [apply list_elem_of_further|by intros [?|?]%elem_of_cons].
Qed.

(** *** The rows of a node *)

Lemma rows_elem s a : refs_ok s -> a ∈ (map_to_list (active s)).*2 <-> active s !! row_pk a = Some a.
Proof.
  intros Hok. rewrite list_elem_of_fmap. split.
  - intros ([k a'] & -> & Hin%elem_of_map_to_list). cbn.
    pose proof (map_Forall_lookup_1 _ _ _ _ (ok_rows _ Hok) Hin) as [<- _ _ _ _]. done.
  - intros Hin. exists (row_pk a, a). split; [done|]. by apply elem_of_map_to_list.
Qed.

Lemma rows_nodup s : refs_ok s -> NoDup (row_pk <$> (map_to_list (active s)).*2).
Proof.
  intros Hok. rewrite <- list_fmap_compose.
  replace (compose row_pk snd <$> map_to_list (active s)) with ((map_to_list (active s)).*1); [apply NoDup_fst_map_to_list|].
  apply list_fmap_ext. intros i [k a] Hi%list_elem_of_lookup_2%elem_of_map_to_list. cbn.
  by destruct (map_Forall_lookup_1 _ _ _ _ (ok_rows _ Hok) Hi).
Qed.

Lemma node_rows_elem nid nip s a : refs_ok s -> a ∈ node_rows nid nip s <-> active s !! row_pk a = Some a /\ on_node nid nip a = true.
Proof. intros Hok. unfold node_rows. rewrite list_elem_of_filter, rows_elem by done. tauto. Qed.

Lemma filter_rows_nodup s (P : SnapshotRuntimeActive -> Prop) `{!forall a, Decision (P a)} : refs_ok s ->
  NoDup (row_pk <$> filter P (map_to_list (active s)).*2).
Proof. intros Hok. eapply sublist_NoDup; [apply (rows_nodup s Hok)|]. apply fmap_sublist, sublist_filter. Qed.

Lemma row_key_inj s a b : refs_ok s -> active s !! row_pk a = Some a -> active s !! row_pk b = Some b -> row_key a = row_key b -> a = b.
Proof.
  intros Hok Ha Hb E. pose proof (map_Forall_lookup_1 _ _ _ _ (ok_rows _ Hok) Ha) as []. pose proof (map_Forall_lookup_1 _ _ _ _ (ok_rows _ Hok) Hb) as [].
  assert (row_pk a = row_pk b) as E' by by apply binding_key_inj. rewrite E' in Ha. congruence.
Qed.

Lemma by_key_lookup nid nip s r : refs_ok s -> ref_ok r ->
  by_key (node_rows nid nip s) !! ref_key r
  = match active s !! ref_pk r with Some a => if on_node nid nip a then Some a else None | None => None end.
Proof.
  intros Hok Hr. assert (Hnd : NoDup (row_key <$> node_rows nid nip s)).
  { apply NoDup_fmap_2_strong; [|apply (NoDup_fmap_1 row_pk), filter_rows_nodup; done].
    intros a b [Ha _]%node_rows_elem [Hb _]%node_rows_elem; [|done..]. by apply row_key_inj with s. }
  destruct (foldl_insert_lookup row_key (fun a => a) (node_rows nid nip s) ∅ Hnd) as [H1 H2].
  fold (by_key (node_rows nid nip s)) in H1, H2.
  assert (Hkey : forall a, active s !! row_pk a = Some a -> row_key a = ref_key r -> row_pk a = ref_pk r).
  { intros a Ha E. pose proof (map_Forall_lookup_1 _ _ _ _ (ok_rows _ Hok) Ha) as []. destruct Hr. by apply binding_key_inj. }
  destruct (decide (ref_key r ∈ row_key <$> node_rows nid nip s)) as [(a & E & Ha)%list_elem_of_fmap|Hno].
  - rewrite E, H1 by done. apply node_rows_elem in Ha as [Ha Hon]; [|done].
    by rewrite <- (Hkey a), Ha, Hon.
  - rewrite H2, lookup_empty by done. case_match eqn:Ea; [|done]. case_match eqn:Eo; [|done]. exfalso. apply Hno.
    pose proof (map_Forall_lookup_1 _ _ _ _ (ok_rows _ Hok) Ea) as [Epk _ _ _ _].
    apply list_elem_of_fmap. exists s0. split; [|apply node_rows_elem; [done|]; by rewrite Epk].
    unfold row_pk, ref_pk in Epk. unfold ref_key, row_key. by injection Epk as -> ->.
Qed.

(** *** What the two tables mean *)

Record binding : Type := MkBinding { bd_snapshot : string; bd_node : string; bd_ip : string }.
Definition bind_of (a : SnapshotRuntimeActive) : binding := MkBinding (a_SnapshotID a) (a_NodeID a) (a_NodeIP a).
Definition bind_ref (r : SnapshotRuntimeRefInfo) : binding := MkBinding (r_SnapshotID r) (r_NodeID r) (r_NodeIP r).
Definition bound_on (nodeID nodeIP : string) (b : binding) : bool :=
  if nodeID <>s "" then bd_node b =s nodeID else bd_ip b =s nodeIP.

(** What a report of a node says of a binding that it names. *)
Definition observed_binding (nodeID nodeIP : string) (r : SnapshotRuntimeRefInfo) (o : option binding) : option binding :=
  match o with
  | Some b =>
      if bound_on nodeID nodeIP b
      then Some (if EqualFold (bd_snapshot b) (r_SnapshotID r) then MkBinding (bd_snapshot b) (r_NodeID r) (r_NodeIP r) else bind_ref r)
      else Some b
  | None => Some (bind_ref r)
  end.

Lemma find_ref s r : ref_ok r -> findSnapshotRuntimeActiveTx (r_SandboxID r) (r_BindingType r) s = active s !! ref_pk r.
Proof. intros [[Hs _] _ Hb _]. unfold findSnapshotRuntimeActiveTx. by rewrite Hs, default_binding_trimmed. Qed.

Lemma same_version_refl a : snapshotRuntimeActiveSameVersion a a = true.
Proof. unfold snapshotRuntimeActiveSameVersion. rewrite !bool_decide_true, !Z.eqb_refl by done. done. Qed.

Lemma attached_bind r at_ seen now old : bind_of (attached_row r at_ seen now old) = bind_ref r.
Proof. by destruct old. Qed.

(** One reported reference changes one binding, as [observed_binding] says. *)
Lemma refresh_one_spec nid nip s0 now r s : refs_ok s0 -> refs_ok s -> ref_ok r -> active s !! ref_pk r = active s0 !! ref_pk r ->
  let s' := refresh_one col (by_key (node_rows nid nip s0)) now r s in
  refs_ok s' /\ (forall k, k <> ref_pk r -> active s' !! k = active s !! k) /\
  bind_of <$> active s' !! ref_pk r = observed_binding nid nip r (bind_of <$> active s !! ref_pk r).
Proof.
  intros Hok0 Hok Hr Hsame s'. subst s'. unfold refresh_one. rewrite by_key_lookup by done. rewrite <- Hsame.
  assert (Hatt : forall e, let s' := attachSnapshotRuntimeBindingTx col r e now (Some now) now s in
     refs_ok s' /\ (forall k, k <> ref_pk r -> active s' !! k = active s !! k) /\ bind_of <$> active s' !! ref_pk r = Some (bind_ref r)).
  { intros e s'. split; [by apply attach_ok|]. subst s'. rewrite attach_rows.
    split; [intros k Hk; by apply lookup_insert_ne|]. rewrite lookup_insert_eq. cbn. by rewrite attached_bind. }
  unfold attachObservedSnapshotRuntimeBindingTx. rewrite find_ref by done.
  destruct (active s !! ref_pk r) as [a|] eqn:Ea; [|exact (Hatt _)].
  cbn [fmap option_fmap option_map observed_binding].
  change (bound_on nid nip (bind_of a)) with (on_node nid nip a).
  destruct (on_node nid nip a) eqn:Eon; [|split_and!; [done|done|by rewrite Ea]].
  change (bd_snapshot (bind_of a)) with (a_SnapshotID a). destruct (EqualFold (a_SnapshotID a) (r_SnapshotID r)) eqn:Ef.
  - pose proof (map_Forall_lookup_1 _ _ _ _ (ok_rows _ Hok) Ea) as Hrow.
    assert (Epk : row_pk a = ref_pk r) by apply Hrow.
    rewrite version_query_self by (by rewrite Epk). fold (row_pk a). rewrite Epk.
    split; [|split; [intros k Hk; cbn; by apply lookup_insert_ne|cbn; by rewrite lookup_insert_eq]].
    destruct Hok as [H1 H2 H3]. split; [|done|].
    + apply map_Forall_insert_2; [|done]. destruct Hrow. by split.
    + intros k. etrans; [exact (H3 k)|]. cbn [active].
      destruct (decide (k = ref_pk r)) as [->|Hk]; [by rewrite lookup_insert_eq, Ea|by rewrite lookup_insert_ne].
  - rewrite same_version_refl. exact (Hatt _).
Qed.

(** All of the report. *)
Lemma refresh_all nid nip s0 now rs : forall s, refs_ok s0 -> refs_ok s -> Forall ref_ok rs -> NoDup (ref_pk <$> rs) ->
  (forall r, r ∈ rs -> active s !! ref_pk r = active s0 !! ref_pk r) ->
  let s' := foldl (fun s r => refresh_one col (by_key (node_rows nid nip s0)) now r s) s rs in
  refs_ok s' /\ (forall k, k ∉ ref_pk <$> rs -> active s' !! k = active s !! k) /\
  (forall r, r ∈ rs -> bind_of <$> active s' !! ref_pk r = observed_binding nid nip r (bind_of <$> active s !! ref_pk r)).
Proof.
  induction rs as [|r rs IH]; intros s Hok0 Hok Hrs Hnd Hsame; cbn.
  { split_and!; [done|done|by intros r Hr%not_elem_of_nil]. }
  apply Forall_cons in Hrs as [Hr Hrs]. cbn in Hnd. apply NoDup_cons in Hnd as [Hno Hnd].
  destruct (refresh_one_spec nid nip s0 now r s) as (H1 & H2 & H3); [done..|by apply Hsame, list_elem_of_here|].
  assert (Hne : forall r', r' ∈ rs -> ref_pk r' <> ref_pk r).
  { intros r' Hr' E. apply Hno. rewrite <- E. by apply list_elem_of_fmap_2. }
  destruct (IH (refresh_one col (by_key (node_rows nid nip s0)) now r s)) as (I1 & I2 & I3); [done..| |].
  { intros r' Hr'. rewrite H2 by auto. by apply Hsame, list_elem_of_further. }
  split_and!; [done|..].
  - intros k [Hk1 Hk2]%not_elem_of_cons. rewrite I2, H2 by done. done.
  - intros r' [->|Hr']%elem_of_cons; [by rewrite I2|]. rewrite I3 by done. by rewrite H2 by auto.
Qed.

(** A report leaves the node with the bindings it names, and those the report does not
    name are gone from the node; bindings of other nodes stay as they are. *)
Definition spec_refresh (nodeID nodeIP : string) (rs : list SnapshotRuntimeRefInfo) (m : gmap (string * string) binding) : gmap (string * string) binding :=
  filter (fun kb => kb.1 ∈ ref_pk <$> rs \/ bound_on nodeID nodeIP kb.2 = false)
    (foldl (fun m r => partial_alter (observed_binding nodeID nodeIP r) (ref_pk r) m) m rs).

Lemma spec_alter_all nid nip rs : forall m : gmap (string * string) binding, NoDup (ref_pk <$> rs) ->
  let m' := foldl (fun m r => partial_alter (observed_binding nid nip r) (ref_pk r) m) m rs in
  (forall k, k ∉ ref_pk <$> rs -> m' !! k = m !! k) /\ (forall r, r ∈ rs -> m' !! ref_pk r = observed_binding nid nip r (m !! ref_pk r)).
Proof.
  induction rs as [|r rs IH]; intros m Hnd; cbn; [by split; [|intros r Hr%not_elem_of_nil]|].
  cbn in Hnd. apply NoDup_cons in Hnd as [Hno Hnd].
  destruct (IH (partial_alter (observed_binding nid nip r) (ref_pk r) m) Hnd) as [H1 H2]. split.
  - intros k [Hk1 Hk2]%not_elem_of_cons. rewrite H1 by done. by apply lookup_partial_alter_ne.
  - intros r' [->|Hr']%elem_of_cons; [rewrite H1 by done; apply lookup_partial_alter_eq|].
    rewrite H2 by done. rewrite lookup_partial_alter_ne; [done|].
    intros E. apply Hno. rewrite E. by apply list_elem_of_fmap_2.
Qed.

Lemma observed_ref_ok nid nip rs : Forall (fun r => no_nul (r_SandboxID r)) rs -> Forall ref_ok (omap (observed_ref nid nip) rs).
Proof.
  intros H. apply Forall_forall. intros r (raw & Hin & E)%list_elem_of_omap.
  pose proof (proj1 (Forall_forall _ _) H raw Hin) as Hn. cbn in Hn. unfold observed_ref in E.
  destruct (bool_decide_reflect (r_SandboxID (normalizeSnapshotRuntimeRef raw) = "")); [done|].
  destruct (bool_decide_reflect (r_SnapshotID (normalizeSnapshotRuntimeRef raw) = "")); [done|].
  injection E as <-. destruct (normalize_ok raw); [done..|]. by split.
Qed.

Lemma row_in_report nid nip rs s a : refs_ok s -> Forall ref_ok rs -> a ∈ node_rows nid nip s ->
  row_key a ∈ ref_key <$> rs <-> row_pk a ∈ ref_pk <$> rs.
Proof.
  intros Hok Hrs [Ha _]%node_rows_elem; [|done]. rewrite !list_elem_of_fmap.
  pose proof (map_Forall_lookup_1 _ _ _ _ (ok_rows _ Hok) Ha) as [].
  split; intros (r & E & Hr); exists r; (split; [|done]).
  - pose proof (proj1 (Forall_forall _ _) Hrs r Hr) as []. by apply binding_key_inj.
  - unfold row_pk, ref_pk in E. unfold row_key, ref_key. by injection E as -> ->.
Qed.

(** The rows of the node that the report does not name. *)
Definition unreported (nodeID nodeIP : string) (rs : list SnapshotRuntimeRefInfo) (s : refs) : list SnapshotRuntimeActive :=
  filter (fun a => row_key a ∉ ref_key <$> rs) (node_rows nodeID nodeIP s).

Lemma unreported_elem nid nip rs s a : refs_ok s -> Forall ref_ok rs ->
  a ∈ unreported nid nip rs s <-> active s !! row_pk a = Some a /\ on_node nid nip a = true /\ row_pk a ∉ ref_pk <$> rs.
Proof.
  intros Hok Hrs. unfold unreported. rewrite list_elem_of_filter. split.
  - intros [Hk Hin]. rewrite row_in_report in Hk by done. by apply node_rows_elem in Hin as [Ha Ho].
  - intros (Ha & Ho & Hk). assert (Hin : a ∈ node_rows nid nip s) by by apply node_rows_elem.
    by rewrite row_in_report.
Qed.

Lemma fold_unreported nid nip rs now s s1 :
  foldl (fun s item => if bool_decide (row_key item ∈ ref_key <$> rs) then s
      else detachObservedSnapshotRuntimeBindingTx col item "runtime ref not observed on node" now s) s1 (node_rows nid nip s)
  = foldl (fun s item => detachObservedSnapshotRuntimeBindingTx col item "runtime ref not observed on node" now s) s1 (unreported nid nip rs s).
Proof.
  unfold unreported. revert s1. induction (node_rows nid nip s) as [|a l IH]; intros s1; [done|]. cbn -[filter].
  rewrite filter_cons. case_bool_decide; [rewrite decide_False by tauto|rewrite decide_True by done]; apply IH.
Qed.

Lemma refresh_rows nid nip obs now s : refs_ok s -> Forall (fun r => no_nul (r_SandboxID r)) obs ->
  let rs := omap (observed_ref nid nip) obs in
  NoDup (ref_pk <$> rs) ->
  let s' := refresh_tx col nid nip obs now s in
  refs_ok s' /\
  (forall r, r ∈ rs -> bind_of <$> active s' !! ref_pk r = observed_binding nid nip r (bind_of <$> active s !! ref_pk r)) /\
  (forall k, k ∉ ref_pk <$> rs -> active s' !! k = active s !! k ≫= (fun a => if on_node nid nip a then None else Some a)).
Proof.
  intros Hok Hn rs Hnd s'. subst s'. unfold refresh_tx. fold rs.
  assert (Hrs : Forall ref_ok rs) by by apply observed_ref_ok.
  destruct (refresh_all nid nip s now rs s) as (H1 & H2 & H3); [done..|]. rewrite fold_unreported.
  destruct (detach_all "runtime ref not observed on node" now (unreported nid nip rs s)
              (foldl (fun t r => refresh_one col (by_key (node_rows nid nip s)) now r t) s rs)) as [D1 D2]; [done|..].
  { eapply sublist_NoDup; [apply (filter_rows_nodup s (fun a => on_node nid nip a = true) Hok)|]. apply fmap_sublist, sublist_filter. }
  { intros a (Ha & _ & Hk)%unreported_elem; [|done..]. by rewrite H2. }
  split_and!; [done|..].
  - intros r Hr. rewrite D2, bool_decide_false; [by apply H3|].
    intros (a & E & (_ & _ & Ha)%unreported_elem)%list_elem_of_fmap; [|done..]. apply Ha. rewrite <- E. by apply list_elem_of_fmap_2.
  - intros k Hk. rewrite D2, H2 by done. destruct (active s !! k) as [a|] eqn:Ea; cbn; [|by case_bool_decide].
    pose proof (map_Forall_lookup_1 _ _ _ _ (ok_rows _ Hok) Ea) as [Epk _ _ _ _]. destruct (on_node nid nip a) eqn:Eo.
    + rewrite bool_decide_true; [done|]. apply list_elem_of_fmap. exists a. split; [done|]. apply unreported_elem; [done..|]. by rewrite Epk.
    + rewrite bool_decide_false; [done|]. intros (a' & -> & (Ha' & Ho & _)%unreported_elem)%list_elem_of_fmap; [|done..]. congruence.
Qed.

Lemma refresh_spec nid nip obs now s : refs_ok s -> Forall (fun r => no_nul (r_SandboxID r)) obs ->
  NoDup (ref_pk <$> omap (observed_ref nid nip) obs) ->
  refs_ok (refresh_tx col nid nip obs now s) /\
  bind_of <$> active (refresh_tx col nid nip obs now s) = spec_refresh nid nip (omap (observed_ref nid nip) obs) (bind_of <$> active s).
Proof.
  intros Hok Hn Hnd. destruct (refresh_rows nid nip obs now s Hok Hn Hnd) as (H1 & H2 & H3). split; [done|].
  set (rs := omap (observed_ref nid nip) obs) in *. apply map_eq. intros k. unfold spec_refresh. rewrite lookup_fmap.
  destruct (spec_alter_all nid nip rs (bind_of <$> active s) Hnd) as [A1 A2].
  destruct (decide (k ∈ ref_pk <$> rs)) as [Hk|Hk].
  - pose proof Hk as (r & -> & Hr)%list_elem_of_fmap. rewrite H2, <- lookup_fmap, <- A2 by done.
    destruct (foldl _ _ _ !! ref_pk r) as [b|] eqn:E; symmetry; [|by apply map_lookup_filter_None; left].
    apply map_lookup_filter_Some. split; [done|by left].
  - rewrite H3 by done. pose proof (A1 k Hk) as E. rewrite lookup_fmap in E.
    destruct (active s !! k) as [a|] eqn:Ea; cbn in *; [|symmetry; apply map_lookup_filter_None; by left].
    destruct (on_node nid nip a) eqn:Eo; symmetry.
    + apply map_lookup_filter_None. right. intros b Hb [?|Hno]; [done|]. rewrite E in Hb. injection Hb as <-.
      assert (on_node nid nip a = false) by exact Hno. congruence.
    + apply map_lookup_filter_Some. split; [done|]. right. exact Eo.
Qed.

Lemma detach_bindings_spec sid b reason now s : refs_ok s -> TrimSpace sid <> "" ->
  let s' := detachSnapshotRuntimeBindingsTx col sid b reason now s in
  refs_ok s' /\
  bind_of <$> active s' = filter (fun kb => ~ (kb.1.1 = TrimSpace sid /\ (TrimSpace b = "" \/ kb.1.2 = TrimSpace b))) (bind_of <$> active s).
Proof.
  intros Hok Hne s'. subst s'. unfold detachSnapshotRuntimeBindingsTx. rewrite bool_decide_false by done.
  destruct (detach_all reason now (sandbox_rows (TrimSpace sid) (TrimSpace b) s) s) as [D1 D2]; [done|by apply filter_rows_nodup|..].
  { intros a [_ Ha]%list_elem_of_filter. by apply rows_elem in Ha. }
  split; [done|]. apply map_eq. intros k. rewrite lookup_fmap, D2.
  destruct (active s !! k) as [a|] eqn:Ea.
  - pose proof (map_Forall_lookup_1 _ _ _ _ (ok_rows _ Hok) Ea) as [Epk _ _ _ _].
    assert (E : k ∈ row_pk <$> sandbox_rows (TrimSpace sid) (TrimSpace b) s <-> k.1 = TrimSpace sid /\ (TrimSpace b = "" \/ k.2 = TrimSpace b)).
    { unfold sandbox_rows. rewrite list_elem_of_fmap. split.
      - intros (a' & -> & [Ha' _]%list_elem_of_filter). exact Ha'.
      - intros Hk. exists a. split; [done|]. rewrite list_elem_of_filter, rows_elem by done. rewrite Epk. subst k. done. }
    rewrite (bool_decide_ext _ _ E). case_bool_decide as Hk; symmetry.
    + apply map_lookup_filter_None. right. intros x _ Hn. by apply Hn.
    + apply map_lookup_filter_Some. split; [by rewrite lookup_fmap, Ea|done].
  - symmetry. case_bool_decide; apply map_lookup_filter_None; left; by rewrite lookup_fmap, Ea.
Qed.

Lemma node_error_ok f s : refs_ok s -> (forall a, row_pk (f a) = row_pk a /\ bind_of (f a) = bind_of a) ->
  refs_ok (MkRefs (f <$> active s) (history s)) /\ bind_of <$> (f <$> active s) = bind_of <$> active s.
Proof.
  intros [H1 H2 H3] Hf. split; [split; [|done|]|].
  - cbn. apply map_Forall_fmap. eapply map_Forall_impl; [exact H1|]. intros k a [E ? ? ? ?]. destruct (Hf a) as [Ef Eb].
    unfold row_pk in Ef. injection Ef as E1 E2. injection Eb as E3 E4 E5. split; rewrite ?E1, ?E2, ?E3; try done. cbn. unfold row_pk. by rewrite E1, E2.
  - intros k. etrans; [exact (H3 k)|]. cbn. rewrite lookup_fmap. destruct (active s !! k) as [a|]; [|done]. cbn.
    destruct (Hf a) as [_ E]. by injection E as ->.
  - rewrite <- map_fmap_compose. apply map_fmap_ext. intros k a _. by apply Hf.
Qed.

(** ** Histories of operations *)

Inductive ref_op : Type :=
  | OpAttach (io : option string) (ref : SnapshotRuntimeRefInfo) (reason : string) (now : Z)
  | OpDetach (io : option string) (sandboxID bindingType reason : string) (now : Z)
  | OpReport (io : option string) (nodeID nodeIP : string) (observed : list SnapshotRuntimeRefInfo) (now : Z)
  | OpNodeError (io : option string) (nodeID nodeIP message : string) (now : Z).

Definition run_ref (s : refs) (o : ref_op) : refs :=
  match o with
  | OpAttach io ref reason now => (AttachSnapshotRuntimeBinding col true io ref reason now s).1
  | OpDetach io sid b reason now => (DetachSnapshotRuntimeBinding col true io sid b reason now s).1
  | OpReport io nid nip obs now => (RefreshSnapshotRuntimeRefsFromNode col true io nid nip obs now s).1
  | OpNodeError io nid nip msg now => (UpdateSnapshotRuntimeRefsNodeError col true io nid nip msg now s).1
  end.

(** What the operations mean: a map from bindings to snapshots and nodes. *)
Definition spec_ref (m : gmap (string * string) binding) (o : ref_op) : gmap (string * string) binding :=
  match o with
  | OpAttach None ref _ _ =>
      let r := normalizeSnapshotRuntimeRef ref in
      if (r_SnapshotID r =s "") || (r_SandboxID r =s "") then m else <[ref_pk r := bind_ref r]> m
  | OpDetach None sid b _ _ =>
      if TrimSpace sid =s "" then m
      else filter (fun kb => ~ (kb.1.1 = TrimSpace sid /\ (TrimSpace b = "" \/ kb.1.2 = TrimSpace b))) m
  | OpReport None nid nip obs _ =>
      if (TrimSpace nid =s "") && (TrimSpace nip =s "") then m
      else spec_refresh (TrimSpace nid) (TrimSpace nip) (omap (observed_ref (TrimSpace nid) (TrimSpace nip)) obs) m
  | _ => m
  end.

(** Sandboxes have names without the byte 0, and a node reports a binding once. *)
Definition ref_op_ok (o : ref_op) : Prop :=
  match o with
  | OpAttach _ ref _ _ => no_nul (r_SandboxID ref)
  | OpReport _ nid nip obs _ =>
      Forall (fun r => no_nul (r_SandboxID r)) obs /\
      NoDup (ref_pk <$> omap (observed_ref (TrimSpace nid) (TrimSpace nip)) obs)
  | _ => True
  end.

Lemma run_ref_spec s o : refs_ok s -> ref_op_ok o -> refs_ok (run_ref s o) /\ bind_of <$> active (run_ref s o) = spec_ref (bind_of <$> active s) o.
Proof.
  intros Hok Ho. destruct o as [[e|] ref reason now|[e|] sid b reason now|[e|] nid nip obs now|[e|] nid nip msg now]; cbn -[normalizeSnapshotRuntimeRef].
  - unfold AttachSnapshotRuntimeBinding. cbn -[normalizeSnapshotRuntimeRef]. by repeat case_match.
  - unfold AttachSnapshotRuntimeBinding, transaction. cbn [negb].
    destruct (bool_decide_reflect (r_SnapshotID (normalizeSnapshotRuntimeRef ref) = "")); [done|].
    destruct (bool_decide_reflect (r_SandboxID (normalizeSnapshotRuntimeRef ref) = "")); [done|].
    cbn [fst orb]. split; [apply attach_ok; [by apply normalize_ok|done]|].
    rewrite attach_rows, fmap_insert. by rewrite attached_bind.
  - unfold DetachSnapshotRuntimeBinding. cbn. by case_bool_decide.
  - unfold DetachSnapshotRuntimeBinding. cbn. case_bool_decide as E; [done|]. cbn.
    destruct (detach_bindings_spec (TrimSpace sid) b reason now s) as [D1 D2]; [done|by rewrite TrimSpace_idem|].
    split; [done|]. rewrite D2. by rewrite TrimSpace_idem.
  - unfold RefreshSnapshotRuntimeRefsFromNode. cbn. by case_match.
  - unfold RefreshSnapshotRuntimeRefsFromNode. cbn. case_match; [done|]. cbn. destruct Ho. by apply refresh_spec.
  - unfold UpdateSnapshotRuntimeRefsNodeError. cbn. by case_match.
  - unfold UpdateSnapshotRuntimeRefsNodeError. cbn. case_match; [done|]. cbn. apply node_error_ok; [done|].
    intros a. by case_match.
Qed.

Lemma empty_refs_ok : refs_ok empty_refs.
Proof. split; [apply map_Forall_empty|constructor|done]. Qed.

Lemma run_refs_spec ops : forall s, refs_ok s -> Forall ref_op_ok ops ->
  refs_ok (foldl run_ref s ops) /\ bind_of <$> active (foldl run_ref s ops) = foldl spec_ref (bind_of <$> active s) ops.
Proof.
  induction ops as [|o ops IH]; intros s Hok Hops; [done|]. apply Forall_cons in Hops as [Ho Hops]. cbn.
  destruct (run_ref_spec s o Hok Ho) as [H1 H2]. rewrite <- H2. by apply IH.
Qed.

(** C16: after any history of attachments, releases and reports of nodes, failed
    transactions among them, the active table is the map that the operations mean,
    and the history table calls active exactly the snapshots of the active table, one
    row for each binding. *)
Theorem runtime_refs_refine (ops : list ref_op) (Hops : Forall ref_op_ok ops) :
  let s := foldl run_ref empty_refs ops in
  bind_of <$> active s = foldl spec_ref ∅ ops /\
  forall k, active_history k s = from_option (fun a => [a_SnapshotID a]) [] (active s !! k).
Proof.
  destruct (run_refs_spec ops empty_refs empty_refs_ok Hops) as [[_ _ H] H2]. split; [|exact H].
  rewrite H2. cbn. by rewrite fmap_empty.
Qed.

(** A snapshot has references exactly when the table has a row for it. *)
Lemma list_active_nil s id : refs_ok s -> trimmed id ->
  ListActiveSnapshotRuntimeRefs true None id s = Ok [] <-> forall k a, active s !! k = Some a -> a_SnapshotID a <> id.
Proof.
  intros Hok [Ht Hne]. unfold ListActiveSnapshotRuntimeRefs. cbn. rewrite Ht, bool_decide_false by done.
  unfold snapshot_rows. split.
  - intros [= E%fmap_nil_inv] k a Ha Hid.
    assert (Hin : a ∈ filter (fun a => a_SnapshotID a = id) (map_to_list (active s)).*2).
    { apply list_elem_of_filter. split; [done|]. apply rows_elem; [done|].
      by rewrite (ro_key _ _ (map_Forall_lookup_1 _ _ _ _ (ok_rows _ Hok) Ha)). }
    rewrite <- (merge_sort_Permutation key_le), E in Hin. by apply not_elem_of_nil in Hin.
  - intros Hno. rewrite filter_none; [done|]. apply Forall_forall. intros a Ha E. apply rows_elem in Ha; [|done]. by apply (Hno _ _ Ha).
Qed.

End Lemmas.

(** ** Examples *)

Definition demo_ref (snapshot sandbox node : string) (gen : Z) (vol : string) : SnapshotRuntimeRefInfo :=
  MkRef 0 snapshot sandbox node "" "" vol "" vol gen "" time_zero None None "".

Definition demo_round (t : Z) : Z := t - t `mod` second.

Definition demo_ref_ops : list ref_op :=
  [OpAttach None (demo_ref "snap-a" " sb-1" "n1" 3 "m1") "attached runtime ref" (5 * second);
   OpAttach None (demo_ref "snap-b" "sb-2" "n2" 0 "") "attached runtime ref" (6 * second);
   OpAttach (Some "deadlock") (demo_ref "snap-c" "sb-1" "n1" 4 "") "attached runtime ref" (7 * second);
   OpReport None "n1" "" [demo_ref "snap-b" "sb-1" "" 4 ""; demo_ref "snap-c" "sb-3" "" 0 ""] (8 * second);
   OpDetach None "sb-2" "" "sandbox destroyed" (9 * second);
   OpReport None "n1" "" [demo_ref "snap-b" "sb-1" "" 0 ""] (10 * second)].

#[export] Instance ref_op_ok_dec o : Decision (ref_op_ok o).
Proof. destruct o; cbn; unfold no_nul; apply _. Defined.

Lemma demo_ref_ops_ok : Forall ref_op_ok demo_ref_ops.
Proof. apply (bool_decide_unpack _). vm_compute. exact I. Qed.

Lemma runtime_refs_refine_witness :
  foldl spec_ref ∅ demo_ref_ops !! ("sb-1", "memory_backing") = Some (MkBinding "snap-b" "n1" "") /\
  foldl spec_ref ∅ demo_ref_ops !! ("sb-3", "memory_backing") = None /\
  bind_of <$> active (foldl (run_ref demo_round) empty_refs demo_ref_ops) = foldl spec_ref ∅ demo_ref_ops.
Proof.
  split; [vm_compute; reflexivity|]. split; [vm_compute; reflexivity|]. exact (proj1 (runtime_refs_refine demo_round demo_ref_ops demo_ref_ops_ok)).
Defined.

(** A reference that a report confirms takes the report's values; references made from
    the annotations of a sandbox have no generation and no volumes, so the next report
    erases those that a rollback recorded. *)
Theorem report_forgets_generation `{!TimeText} (d : SandboxBriefData) :
  let r := (SnapshotRuntimeRefFromSandboxBriefData (Some d)).1 in
  r_SandboxGen r = 0 /\ r_MemoryVol r = "" /\ r_RootfsVol r = "" /\
  forall col lastSeen now a,
    a_SandboxGen (snapshotRuntimeActiveRefreshValues col r lastSeen now a) = 0 /\
    a_MemoryVol (snapshotRuntimeActiveRefreshValues col r lastSeen now a) = "".
Proof.
  cbn. unfold snapshotRuntimeRefFromAnnotationMap. destruct (parseSnapshotRuntimeRefTime _); done.
Qed.

Example generation_erased :
  a_SandboxGen <$> active (foldl (run_ref demo_round) empty_refs
    [OpAttach None (demo_ref "snap-a" "sb-1" "n1" 3 "m1") "" second; OpReport None "n1" "" [demo_ref "snap-a" "sb-1" "n1" 0 ""] second])
  !! ("sb-1", "memory_backing") = Some 0.
Proof. vm_compute. reflexivity. Qed.
