(* ===== verification/TcStore.v ===== *)
(** * The tables of the template center and its programs
    (CubeMaster/pkg/base/db/models: template.go, template_image.go,
    artifact_placement.go; CubeMaster/pkg/templatecenter: job_constants.go,
    job_repo.go, store.go, snapshot_ops.go, artifact_placement.go)

    Templates are built from images, snapshots are taken of sandboxes; both are
    definitions with a replica per node.  Work on them is recorded in jobs, the file
    systems built from images are artifacts, and placements say which node received
    which artifact.  This file has the rows, the statements on single tables and the
    rules on the status and the compatibility of replicas.

    Columns that only mirror progress for people (counters of nodes, layers and bytes,
    digests, paths in jobs) are left out.  Rows are kept in the order of their primary
    key where the code orders by it. *)
From S2P Require Import Prelude GoStrings TcRefs.

Open Scope string_scope.
Open Scope Z_scope.

(** ** Constants *)

Definition StatusPending : string := "PENDING".
Definition StatusReady : string := "READY".
Definition StatusPartiallyReady : string := "PARTIALLY_READY".
Definition StatusFailed : string := "FAILED".
Definition StatusCreating : string := "CREATING".
Definition StatusDeleting : string := "DELETING".
Definition TemplateKindTemplate : string := "template".
Definition TemplateKindSnapshot : string := "snapshot".
Definition StorageBackendCow : string := "cubecow".
Definition ReplicaStatusReady : string := "READY".
Definition ReplicaStatusFailed : string := "FAILED".
Definition ReplicaPhaseDistributing : string := "DISTRIBUTING".
Definition ReplicaPhaseDistributed : string := "DISTRIBUTED".
Definition ReplicaPhaseSnapshotting : string := "SNAPSHOTTING".
Definition ReplicaPhaseReady : string := "READY".
Definition ReplicaPhaseFailed : string := "FAILED".
Definition CompatStatusOK : string := "OK".
Definition CompatStatusStale : string := "STALE".
Definition CompatStatusUnknown : string := "UNKNOWN".
Definition CompatStatusMissing : string := "MISSING".
Definition CompatPolicyStrict : string := "STRICT".
Definition CompatPolicyGuestOnly : string := "GUEST_ONLY".

Definition ErrTemplateNotFound : string := "template not found".
Definition ErrTemplateHasNoReadyReplica : string := "template has no ready replica".
Definition ErrNoTemplateNodes : string := "no healthy nodes available for template creation".
Definition ErrDuplicateTemplate : string := "template already exists".
Definition ErrTemplateAttemptInProgress : string := "template attempt is already in progress".

Definition ArtifactStatusPending : string := "PENDING".
Definition ArtifactStatusBuilding : string := "BUILDING".
Definition ArtifactStatusReady : string := "READY".
Definition ArtifactStatusFailed : string := "FAILED".
Definition ArtifactStatusCleanupPending : string := "CLEANUP_PENDING".
Definition ArtifactStatusOrphaned : string := "ORPHANED".
Definition JobStatusPending : string := "PENDING".
Definition JobStatusRunning : string := "RUNNING".
Definition JobStatusReady : string := "READY".
Definition JobStatusFailed : string := "FAILED".
Definition JobOperationCreate : string := "CREATE".
Definition JobOperationRedo : string := "REDO".
Definition JobOperationSnapshotCreate : string := "SNAPSHOT_CREATE".
Definition JobOperationSnapshotRollback : string := "SNAPSHOT_ROLLBACK".
Definition JobOperationSnapshotDelete : string := "SNAPSHOT_DELETE".
Definition JobResourceTypeSnapshot : string := "snapshot".
Definition JobPhaseSnapshotting : string := "SNAPSHOTTING".
Definition JobPhaseRegistering : string := "REGISTERING".
Definition JobPhaseRollbackPreparing : string := "ROLLBACK_PREPARING".
Definition JobPhaseRollbackDriving : string := "ROLLBACK_DRIVING".
Definition JobPhaseRollbackRecovering : string := "ROLLBACK_RECOVERING".
Definition JobPhaseDeleting : string := "DELETING".
Definition JobPhaseReady : string := "READY".

(** ** Rows *)

Record TemplateDefinition : Type := MkDef {
  d_TemplateID : string; d_InstanceType : string; d_Version : string; d_Status : string; d_Kind : string;
  d_OriginSandboxID : string; d_OriginNodeID : string; d_DisplayName : string; d_StorageBackend : string; d_Retain : bool;
  d_RootfsSizeBytesAtSnapshot : Z; d_RootfsArtifactID : string; d_RequestJSON : string; d_LastError : string; d_UpdatedAt : Z;
}.

Record TemplateReplica : Type := MkReplica {
  t_TemplateID : string; t_NodeID : string; t_NodeIP : string; t_InstanceType : string; t_Spec : string; t_Status : string;
  t_Phase : string; t_ArtifactID : string; t_LastJobID : string; t_LastErrorPhase : string; t_CleanupRequired : bool;
  t_ErrorMessage : string; t_GuestImageVersion : string; t_AgentVersion : string; t_KernelVersion : string;
  t_CompatStatus : string; t_CompatPolicy : string; t_CompatCheckedUnix : Z;
}.

(** The columns a job is created with and those that change. *)
Record JobState : Type := MkJobState {
  j_NodeID : string; j_NodeIP : string; j_ArtifactID : string; j_Status : string; j_Phase : string; j_Progress : Z;
  j_ErrorMessage : string; j_TemplateStatus : string; j_ResultJSON : string;
}.
Record TemplateImageJob : Type := MkJob {
  j_ID : Z; j_JobID : string; j_TemplateID : string; j_RequestID : string; j_SandboxID : string; j_ResourceType : string;
  j_ResourceID : string; j_AttemptNo : Z; j_RetryOfJobID : string; j_Operation : string; j_InstanceType : string;
  j_RequestJSON : string; j_state : JobState;
}.

Record RootfsArtifact : Type := MkArtifact {
  af_ArtifactID : string; af_TemplateSpecFingerprint : string; af_SourceImageRef : string; af_SourceImageDigest : string;
  af_WritableLayerSize : string; af_Ext4Path : string; af_GeneratedRequestJSON : string; af_DownloadToken : string;
  af_Status : string; af_LastError : string; af_GCDeadline : Z; af_Deleted : bool;
}.

Record ArtifactNodePlacement : Type := MkPlacement { p_ArtifactID : string; p_NodeID : string; p_NodeIP : string; p_CreatedAt : Z }.

(** Definitions are unique by template, replicas by template and node, artifacts by
    identifier, placements by artifact and node; jobs are in the order of their key. *)
Record tables : Type := MkTables {
  defs : gmap string TemplateDefinition;
  replicas : gmap (string * string) TemplateReplica;
  jobs : list TemplateImageJob;
  artifacts : gmap string RootfsArtifact;
  placements : gmap (string * string) ArtifactNodePlacement;
  runtime : refs;
}.

Definition empty_tables : tables := MkTables ∅ ∅ [] ∅ ∅ empty_refs.

Definition set_defs x (t : tables) := MkTables x (replicas t) (jobs t) (artifacts t) (placements t) (runtime t).
Definition set_replicas x (t : tables) := MkTables (defs t) x (jobs t) (artifacts t) (placements t) (runtime t).
Definition set_jobs x (t : tables) := MkTables (defs t) (replicas t) x (artifacts t) (placements t) (runtime t).
Definition set_artifacts x (t : tables) := MkTables (defs t) (replicas t) (jobs t) x (placements t) (runtime t).
Definition set_placements x (t : tables) := MkTables (defs t) (replicas t) (jobs t) (artifacts t) x (runtime t).
Definition set_runtime x (t : tables) := MkTables (defs t) (replicas t) (jobs t) (artifacts t) (placements t) x.

(** ** Jobs (job_repo.go) *)

Definition j_active (j : TemplateImageJob) : bool := bool_decide (j_Status (j_state j) ∈ [JobStatusPending; JobStatusRunning]).

(** ORDER BY attempt_no DESC, id DESC LIMIT 1. *)
Definition newer (a b : TemplateImageJob) : bool :=
  (j_AttemptNo b <? j_AttemptNo a) || ((j_AttemptNo a =? j_AttemptNo b) && (j_ID b <? j_ID a)).
Definition newest (l : list TemplateImageJob) : option TemplateImageJob :=
  foldl (fun m j => match m with Some m => if newer j m then Some j else Some m | None => Some j end) None l.

Definition newer_first (a b : TemplateImageJob) : Prop := newer b a = false.
#[export] Instance newer_first_dec a b : Decision (newer_first a b) := decide (_ = false).

Definition getTemplateImageJobRecordByID (id : string) (t : tables) : option TemplateImageJob :=
  head (filter (fun j => j_JobID j = id) (jobs t)).
Definition listTemplateImageJobsByTemplateID (id : string) (t : tables) : list TemplateImageJob :=
  merge_sort newer_first (filter (fun j => j_TemplateID j = id) (jobs t)).
Definition getLatestTemplateImageJobByTemplateID (id : string) (t : tables) : option TemplateImageJob :=
  newest (filter (fun j => j_TemplateID j = id) (jobs t)).
Definition getActiveTemplateImageJobByTemplateID (id : string) (t : tables) : option TemplateImageJob :=
  newest (filter (fun j => j_TemplateID j = id /\ j_active j = true) (jobs t)).
Definition getTemplateImageJobByRequestID (id : string) (t : tables) : option TemplateImageJob :=
  last (filter (fun j => j_RequestID j = id) (jobs t)).
Definition getActiveSnapshotJobBySandboxID (id : string) (t : tables) : option TemplateImageJob :=
  last (filter (fun j => j_SandboxID j = id /\ j_Operation j ∈ [JobOperationSnapshotCreate; JobOperationSnapshotRollback] /\ j_active j = true) (jobs t)).
Definition getActiveSnapshotJobByResourceID (id : string) (t : tables) : option TemplateImageJob :=
  last (filter (fun j => j_ResourceID j = id /\
    j_Operation j ∈ [JobOperationSnapshotCreate; JobOperationSnapshotRollback; JobOperationSnapshotDelete] /\ j_active j = true) (jobs t)).

Definition next_job_id (t : tables) : Z := 1 + foldr (fun j m => Z.max (j_ID j) m) 0 (jobs t).
Definition with_job_id (id : Z) (j : TemplateImageJob) : TemplateImageJob :=
  MkJob id (j_JobID j) (j_TemplateID j) (j_RequestID j) (j_SandboxID j) (j_ResourceType j) (j_ResourceID j) (j_AttemptNo j)
    (j_RetryOfJobID j) (j_Operation j) (j_InstanceType j) (j_RequestJSON j) (j_state j).
Definition with_state (f : JobState -> JobState) (j : TemplateImageJob) : TemplateImageJob :=
  MkJob (j_ID j) (j_JobID j) (j_TemplateID j) (j_RequestID j) (j_SandboxID j) (j_ResourceType j) (j_ResourceID j) (j_AttemptNo j)
    (j_RetryOfJobID j) (j_Operation j) (j_InstanceType j) (j_RequestJSON j) (f (j_state j)).

(** The unique keys of the table: job_id, (template_id, attempt_no), (request_id, operation). *)
Definition job_clash (a b : TemplateImageJob) : bool :=
  (j_JobID a =s j_JobID b)
  || ((j_TemplateID a =s j_TemplateID b) && (j_AttemptNo a =? j_AttemptNo b))
  || ((j_RequestID a =s j_RequestID b) && (j_Operation a =s j_Operation b)).
Definition create_job (j : TemplateImageJob) (t : tables) : res tables :=
  if existsb (job_clash j) (jobs t) then Err "Duplicate entry"
  else Ok (set_jobs (jobs t ++ [with_job_id (next_job_id t) j])%list t).

(** UPDATE ... WHERE job_id = ?; no row is an error. *)
Definition updateTemplateImageJob (id : string) (f : JobState -> JobState) (t : tables) : res tables :=
  match getTemplateImageJobRecordByID id t with
  | None => Err ErrRecordNotFound
  | Some _ => Ok (set_jobs ((fun j => if j_JobID j =s id then with_state f j else j) <$> jobs t) t)
  end.

Definition cleanupTemplateJobs (id : string) (t : tables) : tables := set_jobs (filter (fun j => j_TemplateID j <> id) (jobs t)) t.

(** Updates of the columns of a job. *)
Definition js_progress (status phase : string) (progress : Z) (s : JobState) : JobState :=
  MkJobState (j_NodeID s) (j_NodeIP s) (j_ArtifactID s) status phase progress (j_ErrorMessage s) (j_TemplateStatus s) (j_ResultJSON s).
Definition js_phase (phase : string) (progress : Z) (s : JobState) : JobState := js_progress (j_Status s) phase progress s.
Definition js_error (msg : string) (s : JobState) : JobState :=
  MkJobState (j_NodeID s) (j_NodeIP s) (j_ArtifactID s) (j_Status s) (j_Phase s) (j_Progress s) msg (j_TemplateStatus s) (j_ResultJSON s).
Definition js_template (st : string) (s : JobState) : JobState :=
  MkJobState (j_NodeID s) (j_NodeIP s) (j_ArtifactID s) (j_Status s) (j_Phase s) (j_Progress s) (j_ErrorMessage s) st (j_ResultJSON s).
Definition js_result (r : string) (s : JobState) : JobState :=
  MkJobState (j_NodeID s) (j_NodeIP s) (j_ArtifactID s) (j_Status s) (j_Phase s) (j_Progress s) (j_ErrorMessage s) (j_TemplateStatus s) r.
Definition js_node (id ip : string) (s : JobState) : JobState :=
  MkJobState id ip (j_ArtifactID s) (j_Status s) (j_Phase s) (j_Progress s) (j_ErrorMessage s) (j_TemplateStatus s) (j_ResultJSON s).
Definition js_artifact (id : string) (s : JobState) : JobState :=
  MkJobState (j_NodeID s) (j_NodeIP s) id (j_Status s) (j_Phase s) (j_Progress s) (j_ErrorMessage s) (j_TemplateStatus s) (j_ResultJSON s).

(** ** Definitions *)

Definition GetDefinition (id : string) (t : tables) : res TemplateDefinition :=
  match defs t !! id with Some d => Ok d | None => Err ErrTemplateNotFound end.

Definition with_def_status (status lastError : string) (now : Z) (d : TemplateDefinition) : TemplateDefinition :=
  MkDef (d_TemplateID d) (d_InstanceType d) (d_Version d) status (d_Kind d) (d_OriginSandboxID d) (d_OriginNodeID d) (d_DisplayName d)
    (d_StorageBackend d) (d_Retain d) (d_RootfsSizeBytesAtSnapshot d) (d_RootfsArtifactID d) (d_RequestJSON d) lastError now.
Definition with_def_size (size : Z) (d : TemplateDefinition) : TemplateDefinition :=
  MkDef (d_TemplateID d) (d_InstanceType d) (d_Version d) (d_Status d) (d_Kind d) (d_OriginSandboxID d) (d_OriginNodeID d) (d_DisplayName d)
    StorageBackendCow (d_Retain d) size (d_RootfsArtifactID d) (d_RequestJSON d) (d_LastError d) (d_UpdatedAt d).

(** UPDATE ... WHERE template_id = ?; no row is not an error. *)
Definition update_def (id : string) (f : TemplateDefinition -> TemplateDefinition) (t : tables) : tables := set_defs (alter f id (defs t)) t.
Definition UpdateDefinitionStatus (id status lastError : string) (now : Z) (t : tables) : tables :=
  update_def id (with_def_status status lastError now) t.

Record definitionCreateOptions : Type := MkOpts {
  o_Kind : string; o_OriginSandboxID : string; o_OriginNodeID : string; o_DisplayName : string; o_StorageBackend : string;
  o_Retain : bool; o_RootfsSizeBytesAtSnapshot : Z;
}.

(** [artifact] is [rootfsArtifactIDFromCreateRequest] of the request, [payload] its text. *)
Definition createDefinitionTx (id payload artifact instanceType version : string) (opts : definitionCreateOptions) (now : Z) (t : tables) : res tables :=
  let kind := if TrimSpace (o_Kind opts) =s "" then TemplateKindTemplate else TrimSpace (o_Kind opts) in
  let status := if kind =s TemplateKindSnapshot then StatusCreating else StatusPending in
  let backend := if (kind =s TemplateKindSnapshot) && (o_StorageBackend opts =s "") then StorageBackendCow else o_StorageBackend opts in
  match defs t !! id with
  | Some _ => Err ErrDuplicateTemplate
  | None =>
      Ok (set_defs (<[id := MkDef id instanceType version status kind (o_OriginSandboxID opts) (o_OriginNodeID opts) (o_DisplayName opts)
                              backend (o_Retain opts) (o_RootfsSizeBytesAtSnapshot opts) artifact payload "" now]> (defs t)) t)
  end.

Definition isSnapshotDefinition (d : TemplateDefinition) : bool :=
  if TrimSpace (d_Kind d) =s "" then false else EqualFold (TrimSpace (d_Kind d)) TemplateKindSnapshot.

(** ** Replicas *)

Record ReplicaStatus : Type := MkStatus {
  s_NodeID : string; s_NodeIP : string; s_InstanceType : string; s_Spec : string; s_Status : string; s_Phase : string;
  s_ArtifactID : string; s_LastJobID : string; s_LastErrorPhase : string; s_CleanupRequired : bool; s_ErrorMessage : string;
  s_GuestImageVersion : string; s_AgentVersion : string; s_KernelVersion : string; s_CompatStatus : string; s_CompatPolicy : string;
  s_CompatCheckedUnix : Z;
}.

Definition normalizeComponentVersion (v : string) : string := if EqualFold (TrimSpace v) "unknown" then "" else TrimSpace v.

Definition normalizeCompatStatus (s : string) : string :=
  let s := upper_ascii (TrimSpace s) in if s =s "" then CompatStatusUnknown else s.
Definition normalizeCompatPolicy (p : string) : string :=
  let p := upper_ascii (TrimSpace p) in if p =s "" then CompatPolicyStrict else p.

Inductive dimension : Type := DimStale | DimUnknown | DimSame.
Definition compareCompatDimension (bound current : string) : dimension :=
  let bound := normalizeComponentVersion bound in
  let current := normalizeComponentVersion current in
  if (bound =s "") || (current =s "") then DimUnknown else if bound <>s current then DimStale else DimSame.

(** The loop over the active dimensions: the first stale one decides. *)
Fixpoint compat_of (ds : list dimension) (unknown : bool) : string :=
  match ds with
  | [] => if unknown then CompatStatusUnknown else CompatStatusOK
  | DimStale :: _ => CompatStatusStale
  | DimUnknown :: ds => compat_of ds true
  | DimSame :: ds => compat_of ds unknown
  end.

Definition evaluateCompat (r : ReplicaStatus) (guest agent : string) : string :=
  compat_of (compareCompatDimension (s_GuestImageVersion r) guest ::
             (if normalizeCompatPolicy (s_CompatPolicy r) <>s CompatPolicyGuestOnly
              then [compareCompatDimension (s_AgentVersion r) agent] else [])) false.

Definition isReplicaSchedulable (r : ReplicaStatus) : bool :=
  (s_Status r =s ReplicaStatusReady) && (normalizeCompatStatus (s_CompatStatus r) <>s CompatStatusStale).

Definition bindGuestVersionToReplica (guest agent kernel : string) (now : Z) (r : ReplicaStatus) : ReplicaStatus :=
  let r := MkStatus (s_NodeID r) (s_NodeIP r) (s_InstanceType r) (s_Spec r) (s_Status r) (s_Phase r) (s_ArtifactID r) (s_LastJobID r)
             (s_LastErrorPhase r) (s_CleanupRequired r) (s_ErrorMessage r) (normalizeComponentVersion guest) (normalizeComponentVersion agent)
             (normalizeComponentVersion kernel) (s_CompatStatus r) CompatPolicyStrict (s_CompatCheckedUnix r) in
  MkStatus (s_NodeID r) (s_NodeIP r) (s_InstanceType r) (s_Spec r) (s_Status r) (s_Phase r) (s_ArtifactID r) (s_LastJobID r)
    (s_LastErrorPhase r) (s_CleanupRequired r) (s_ErrorMessage r) (s_GuestImageVersion r) (s_AgentVersion r) (s_KernelVersion r)
    (evaluateCompat r (s_GuestImageVersion r) (s_AgentVersion r)) (s_CompatPolicy r) (time_unix now).

Definition replicaModelToStatus (m : TemplateReplica) : ReplicaStatus :=
  MkStatus (t_NodeID m) (t_NodeIP m) (t_InstanceType m) (t_Spec m) (t_Status m) (t_Phase m) (t_ArtifactID m) (t_LastJobID m)
    (t_LastErrorPhase m) (t_CleanupRequired m) (t_ErrorMessage m) (t_GuestImageVersion m) (t_AgentVersion m) (t_KernelVersion m)
    (normalizeCompatStatus (t_CompatStatus m)) (normalizeCompatPolicy (t_CompatPolicy m)) (t_CompatCheckedUnix m).

Definition replicaStatusToModel (templateID instanceType : string) (r : ReplicaStatus) : TemplateReplica :=
  MkReplica templateID (s_NodeID r) (s_NodeIP r) instanceType (s_Spec r) (s_Status r) (s_Phase r) (s_ArtifactID r) (s_LastJobID r)
    (s_LastErrorPhase r) (s_CleanupRequired r) (s_ErrorMessage r) (s_GuestImageVersion r) (s_AgentVersion r) (s_KernelVersion r)
    (normalizeCompatStatus (s_CompatStatus r)) (normalizeCompatPolicy (s_CompatPolicy r)) (s_CompatCheckedUnix r).

Definition says_versions (r : ReplicaStatus) : bool :=
  (normalizeCompatStatus (s_CompatStatus r) <>s CompatStatusUnknown) || (normalizeComponentVersion (s_GuestImageVersion r) <>s "")
  || (normalizeComponentVersion (s_AgentVersion r) <>s "") || (normalizeComponentVersion (s_KernelVersion r) <>s "").

(** The update of an existing row: versions are written only when the status has some. *)
Definition replicaStatusUpdateFields (instanceType : string) (r : ReplicaStatus) (m : TemplateReplica) : TemplateReplica :=
  if says_versions r
  then MkReplica (t_TemplateID m) (t_NodeID m) (s_NodeIP r) instanceType (s_Spec r) (s_Status r) (s_Phase r) (s_ArtifactID r) (s_LastJobID r)
         (s_LastErrorPhase r) (s_CleanupRequired r) (s_ErrorMessage r) (normalizeComponentVersion (s_GuestImageVersion r))
         (normalizeComponentVersion (s_AgentVersion r)) (normalizeComponentVersion (s_KernelVersion r))
         (normalizeCompatStatus (s_CompatStatus r)) (normalizeCompatPolicy (s_CompatPolicy r)) (s_CompatCheckedUnix r)
  else MkReplica (t_TemplateID m) (t_NodeID m) (s_NodeIP r) instanceType (s_Spec r) (s_Status r) (s_Phase r) (s_ArtifactID r) (s_LastJobID r)
         (s_LastErrorPhase r) (s_CleanupRequired r) (s_ErrorMessage r) (t_GuestImageVersion m) (t_AgentVersion m) (t_KernelVersion m)
         (t_CompatStatus m) (t_CompatPolicy m) (t_CompatCheckedUnix m).

Definition UpsertReplica (templateID instanceType : string) (r : ReplicaStatus) (t : tables) : tables :=
  let k := (templateID, s_NodeID r) in
  match replicas t !! k with
  | None => set_replicas (<[k := replicaStatusToModel templateID instanceType r]> (replicas t)) t
  | Some m => set_replicas (<[k := replicaStatusUpdateFields instanceType r m]> (replicas t)) t
  end.

(** ORDER BY node_id. *)
Definition node_le (a b : TemplateReplica) : Prop := String.leb (t_NodeID a) (t_NodeID b) = true.
#[export] Instance node_le_dec a b : Decision (node_le a b) := decide (_ = true).
Definition ListReplicas (templateID : string) (t : tables) : list TemplateReplica :=
  merge_sort node_le (filter (fun r => t_TemplateID r = templateID) (map_to_list (replicas t)).*2).

(** The statement marks the rows as deleted; every query on replicas skips such rows. *)
Definition deleteReplicasByTemplateID (templateID : string) (t : tables) : tables :=
  set_replicas (filter (fun kr => kr.1.1 <> templateID) (replicas t)) t.

(** Deletes the replicas and the definition. *)
Definition cleanupTemplateMetadata (id : string) (t : tables) : tables :=
  set_defs (delete id (defs t)) (deleteReplicasByTemplateID id t).

Definition summarizeStatus (rs : list ReplicaStatus) : string * string :=
  let failures := filter (fun r => s_Status r <> ReplicaStatusReady) rs in
  let lastError := default "" (head (filter (fun e => e <> "") (s_ErrorMessage <$> failures))) in
  if (length failures =? length rs)%nat then (StatusFailed, lastError)
  else if bool_decide (failures = []) then (StatusReady, "") else (StatusPartiallyReady, lastError).

Definition failedReplicaStatus (m : TemplateReplica) (message : string) : ReplicaStatus :=
  let s := replicaModelToStatus m in
  MkStatus (s_NodeID s) (s_NodeIP s) (s_InstanceType s) (s_Spec s) ReplicaStatusFailed ReplicaPhaseFailed (s_ArtifactID s) (s_LastJobID s)
    (s_LastErrorPhase s) true message (s_GuestImageVersion s) (s_AgentVersion s) (s_KernelVersion s) (s_CompatStatus s) (s_CompatPolicy s)
    (s_CompatCheckedUnix s).

Fixpoint firstNonEmpty (l : list string) : string :=
  match l with
  | [] => ""
  | v :: l => if TrimSpace v <>s "" then TrimSpace v else firstNonEmpty l
  end.

(** ** Errors and answers *)

(** A statement that fails with [io], or does its work. *)
Definition guarded (io : option string) (r : res tables) : res tables := match io with Some e => Err e | None => r end.

(** The answer of a node: a failed call, or a result with its code and message, which
    may be missing. *)
Inductive rpc : Type := RpcError (e : string) | RpcRet (ret : option (Z * string)).

Definition code_success : Z := 200.
