(* ===== verification/TcArtifact.v ===== *)
(** * Building and removing root file systems
    (CubeMaster/pkg/templatecenter: artifact_build.go, artifact_lifecycle.go,
    artifact_cleanup.go, artifact_placement.go, artifact_gc.go, distribution.go,
    delete.go, job_repo.go, the part of image_job_runner.go that builds)

    An artifact is the file system of an image, kept on the master and copied to the
    nodes.  Templates share artifacts.  Builds claim the artifact's row, cleanups mark
    it, remove the copies without holding a lock and then delete the row; both run at
    the same time in several goroutines and processes, so they are processes here whose
    transactions interleave.  The garbage collector starts cleanups.

    [local_files] and [node_files] are the copies on the disks of the master and of the
    nodes.  Everything the environment decides in a step is its [env]. *)
From S2P Require Import Prelude GoStrings TcRefs TcStore.

Open Scope string_scope.
Open Scope Z_scope.

(** ** Statements on artifacts and placements *)

Definition with_af (fp ref digest size status err : string) (deleted : bool) (a : RootfsArtifact) : RootfsArtifact :=
  MkArtifact (af_ArtifactID a) fp ref digest size (af_Ext4Path a) (af_GeneratedRequestJSON a) (af_DownloadToken a) status err
    (af_GCDeadline a) deleted.
Definition with_af_status (status : string) (a : RootfsArtifact) : RootfsArtifact :=
  with_af (af_TemplateSpecFingerprint a) (af_SourceImageRef a) (af_SourceImageDigest a) (af_WritableLayerSize a) status (af_LastError a) (af_Deleted a) a.
Definition with_af_error (status err : string) (a : RootfsArtifact) : RootfsArtifact :=
  with_af (af_TemplateSpecFingerprint a) (af_SourceImageRef a) (af_SourceImageDigest a) (af_WritableLayerSize a) status err (af_Deleted a) a.
Definition with_af_deadline (status : string) (deadline : Z) (a : RootfsArtifact) : RootfsArtifact :=
  MkArtifact (af_ArtifactID a) (af_TemplateSpecFingerprint a) (af_SourceImageRef a) (af_SourceImageDigest a) (af_WritableLayerSize a)
    (af_Ext4Path a) (af_GeneratedRequestJSON a) (af_DownloadToken a) status (af_LastError a) deadline (af_Deleted a).

Definition getRootfsArtifactByID (id : string) (t : tables) : option RootfsArtifact :=
  match artifacts t !! id with Some a => if af_Deleted a then None else Some a | None => None end.
Definition getRootfsArtifactByIDUnscoped (id : string) (t : tables) : option RootfsArtifact := artifacts t !! id.
Definition getRootfsArtifactByFingerprintUnscoped (fp : string) (t : tables) : option RootfsArtifact :=
  head (filter (fun a => af_TemplateSpecFingerprint a = fp) (map_to_list (artifacts t)).*2).
Definition getRootfsArtifactByFingerprint (fp : string) (t : tables) : option RootfsArtifact :=
  head (filter (fun a => af_TemplateSpecFingerprint a = fp /\ af_Deleted a = false) (map_to_list (artifacts t)).*2).

(** The identifier and the fingerprint are unique. *)
Definition create_artifact (a : RootfsArtifact) (t : tables) : res tables :=
  if bool_decide (is_Some (artifacts t !! af_ArtifactID a))
     || bool_decide (is_Some (getRootfsArtifactByFingerprintUnscoped (af_TemplateSpecFingerprint a) t))
  then Err "Duplicate entry" else Ok (set_artifacts (<[af_ArtifactID a := a]> (artifacts t)) t).

Definition updateRootfsArtifact (id : string) (f : RootfsArtifact -> RootfsArtifact) (t : tables) : res tables :=
  match artifacts t !! id with
  | None => Err ErrRecordNotFound
  | Some a => Ok (set_artifacts (<[id := f a]> (artifacts t)) t)
  end.

Definition restoreRootfsArtifact (id : string) (t : tables) : res tables :=
  updateRootfsArtifact id
    (fun a => with_af (af_TemplateSpecFingerprint a) (af_SourceImageRef a) (af_SourceImageDigest a) (af_WritableLayerSize a)
                (af_Status a) (af_LastError a) false a) t.

Definition upsertArtifactNodePlacement (artifactID nodeID nodeIP : string) (now : Z) (t : tables) : tables :=
  let aid := TrimSpace artifactID in
  let nid := TrimSpace nodeID in
  if (aid =s "") || (nid =s "") then t
  else
    let row := match placements t !! (aid, nid) with
               | Some p => MkPlacement (p_ArtifactID p) (p_NodeID p) (TrimSpace nodeIP) (p_CreatedAt p)
               | None => MkPlacement aid nid (TrimSpace nodeIP) (time_unix now)
               end in
    set_placements (<[(aid, nid) := row]> (placements t)) t.

Definition listArtifactNodePlacementsTx (artifactID : string) (t : tables) : list ArtifactNodePlacement :=
  if TrimSpace artifactID =s "" then []
  else filter (fun p => p_ArtifactID p = TrimSpace artifactID) (map_to_list (placements t)).*2.

Definition deleteArtifactNodePlacementsTx (artifactID : string) (t : tables) : tables :=
  if TrimSpace artifactID =s "" then t
  else set_placements (filter (fun kp => p_ArtifactID kp.2 <> TrimSpace artifactID) (placements t)) t.

(** ** References *)

Definition excluded (exclude templateID : string) : bool := (exclude <>s "") && (templateID =s exclude).

Definition replica_refs (id exclude : string) (t : tables) : list TemplateReplica :=
  filter (fun r => t_ArtifactID r = id /\ excluded exclude (t_TemplateID r) = false) (map_to_list (replicas t)).*2.
Definition job_refs (id exclude : string) (t : tables) : list TemplateImageJob :=
  filter (fun j => j_ArtifactID (j_state j) = id /\ j_active j = true /\ excluded exclude (j_TemplateID j) = false) (jobs t).
Definition def_refs (id exclude : string) (t : tables) : list TemplateDefinition :=
  filter (fun d => d_RootfsArtifactID d = id /\ excluded exclude (d_TemplateID d) = false) (map_to_list (defs t)).*2.

Definition countArtifactReferencesTx (artifactID excludeTemplateID : string) (t : tables) : res Z :=
  let id := TrimSpace artifactID in
  let exclude := TrimSpace excludeTemplateID in
  if id =s "" then Ok 0
  else if ContainsAny id "%_" then Err "artifact id contains SQL wildcard characters"
  else Ok (Z.of_nat (length (replica_refs id exclude t)) + Z.of_nat (length (job_refs id exclude t)) + Z.of_nat (length (def_refs id exclude t))).

(** ** The three phases of a cleanup *)

Definition defaultTemplateArtifactTTL : Z := 7 * 24 * 60 * minute.

(** Phase 1: the nodes to visit, or [None] when the artifact is gone or still used. *)
Definition cleanup_phase1 (io : option string) (id exclude : string) (now : Z) (t : tables) : tables * res (option (list ArtifactNodePlacement)) :=
  match io with
  | Some e => (t, Err e)
  | None =>
      match getRootfsArtifactByID id t with
      | None => (t, Ok None)
      | Some artifact =>
          let t1 := if exclude <>s ""
                    then set_replicas (filter (fun kr => ~ (t_TemplateID kr.2 = exclude /\ t_ArtifactID kr.2 = id)) (replicas t)) t else t in
          match countArtifactReferencesTx id exclude t1 with
          | Err e => (t, Err e)
          | Ok remaining =>
              if 0 <? remaining then
                let status := if af_Status artifact =s ArtifactStatusCleanupPending then ArtifactStatusReady else af_Status artifact in
                (set_artifacts (<[id := with_af_deadline status (time_unix (now + defaultTemplateArtifactTTL)) artifact]> (artifacts t1)) t1, Ok None)
              else
                (set_artifacts (<[id := with_af_status ArtifactStatusCleanupPending artifact]> (artifacts t1)) t1,
                 Ok (Some (listArtifactNodePlacementsTx id t1)))
          end
      end
  end.

Definition code_conflict : Z := 130409.

Definition isIgnorableArtifactDeleteMessage `{!GoRuntime} (m : string) : bool :=
  let m := ToLower (TrimSpace m) in
  if m =s "" then false
  else if Contains m "no such image" then true
  else (Contains m "not found" || Contains m "not exist" || Contains m "does not exist") && Contains m "image".

Inductive destroyed : Type := Destroyed | InUse | DestroyFailed (e : string).

Definition destroyArtifactOnNode `{!GoRuntime} (id node : string) (answer : rpc) : destroyed :=
  match answer with
  | RpcError e =>
      if isIgnorableArtifactDeleteMessage e then Destroyed
      else DestroyFailed ("delete artifact " +:+ id +:+ " on node " +:+ node +:+ ": " +:+ e)
  | RpcRet None => Destroyed
  | RpcRet (Some (code, msg)) =>
      if code =? code_success then Destroyed
      else if code =? code_conflict then InUse
      else if isIgnorableArtifactDeleteMessage msg then Destroyed
      else DestroyFailed ("delete artifact " +:+ id +:+ " on node " +:+ node +:+ " failed: " +:+ msg)
  end.

(** The address of a placement; [host] is the node cache. *)
Definition placementToNode (host : string -> option string) (p : ArtifactNodePlacement) : option (string * string) :=
  let nid := TrimSpace (p_NodeID p) in
  let ip := TrimSpace (p_NodeIP p) in
  let ip := if (ip =s "") && (nid <>s "") then from_option TrimSpace "" (host nid) else ip in
  if ip =s "" then None else Some (nid, ip).

Definition cleanupMasterLocalArtifactForFinalDelete (removal : option string) (artifact : RootfsArtifact) (remaining : Z) : res bool :=
  if (0 <? remaining) || (af_Status artifact <>s ArtifactStatusCleanupPending) then Ok false
  else match removal with Some e => Err e | None => Ok true end.

(** Phase 3; [removal] is the error of removing the master's copy, [io] that of the
    statements after it, so the copy may be gone and the row still there.  The second
    component says whether the copy was removed. *)
Definition cleanup_phase3 (io removal : option string) (id exclude : string) (t : tables) : tables * bool * res unit :=
  match getRootfsArtifactByID id t with
  | None => (t, false, Ok tt)
  | Some artifact =>
      match countArtifactReferencesTx id exclude t with
      | Err e => (t, false, Err e)
      | Ok remaining =>
          match cleanupMasterLocalArtifactForFinalDelete removal artifact remaining with
          | Err _ => (t, false, Ok tt)
          | Ok false => (t, false, Ok tt)
          | Ok true =>
              match io with
              | Some e => (t, true, Err e)
              | None =>
                  let t := deleteArtifactNodePlacementsTx id t in
                  (set_artifacts (delete id (artifacts t)) t, true, Ok tt)
              end
          end
      end
  end.

(** ** Claiming and finding *)

Record build_spec : Type := MkSpec {
  b_artifact : string; b_fingerprint : string; b_ref : string; b_digest : string; b_size : string;
  b_instance : string; b_spec : string; (* of the replicas *) }.

Definition new_artifact (status : string) (b : build_spec) : RootfsArtifact :=
  MkArtifact (b_artifact b) (b_fingerprint b) (b_ref b) (b_digest b) (b_size b) "" "" "" status "" 0 false.

Definition claimRootfsArtifactForBuild (io : option string) (b : build_spec) (t : tables) : tables * res RootfsArtifact :=
  match io with
  | Some e => (t, Err e)
  | None =>
      match getRootfsArtifactByIDUnscoped (b_artifact b) t with
      | None =>
          match create_artifact (new_artifact ArtifactStatusBuilding b) t with
          | Ok t' => (t', Ok (new_artifact ArtifactStatusBuilding b))
          | Err e => (t, Err e)
          end
      | Some existing =>
          let row := with_af (b_fingerprint b) (b_ref b) (b_digest b) (b_size b) ArtifactStatusBuilding "" false existing in
          (set_artifacts (<[b_artifact b := row]> (artifacts t)) t,
           Ok (with_af (af_TemplateSpecFingerprint existing) (af_SourceImageRef existing) (af_SourceImageDigest existing)
                 (af_WritableLayerSize existing) ArtifactStatusBuilding (af_LastError existing) false existing))
      end
  end.

Definition validateReusableRootfsArtifact (a : RootfsArtifact) (fp id : string) : res RootfsArtifact :=
  if af_ArtifactID a <>s id then Err ("rootfs artifact id mismatch: want " +:+ id +:+ " got " +:+ af_ArtifactID a)
  else if (af_TemplateSpecFingerprint a <>s "") && (af_TemplateSpecFingerprint a <>s fp)
  then Err ("rootfs artifact " +:+ id +:+ " fingerprint mismatch: want " +:+ fp +:+ " got " +:+ af_TemplateSpecFingerprint a)
  else Ok a.

(** The row to reuse and whether it was marked as deleted; [ErrRecordNotFound] when
    there is none. *)
Definition findReusableRootfsArtifact (fp id : string) (t : tables) : res (RootfsArtifact * bool) :=
  let checked a := rbind (validateReusableRootfsArtifact a fp id) (fun a => Ok (a, af_Deleted a)) in
  match getRootfsArtifactByFingerprint fp t with
  | Some a => checked a
  | None =>
      match getRootfsArtifactByFingerprintUnscoped fp t with
      | Some a => checked a
      | None =>
          match getRootfsArtifactByID id t with
          | Some a => checked a
          | None => match getRootfsArtifactByIDUnscoped id t with Some a => checked a | None => Err ErrRecordNotFound end
          end
      end
  end.

(** ** Processes

    A build goes through [ensureRootfsArtifact] and the distribution; it belongs to a
    job, and [named] says that the job's row names the artifact.  A cleanup goes
    through its phases. *)

Inductive bpc : Type :=
  | BSetJob            (* record the artifact in the job *)
  | BFind              (* look for a row to reuse *)
  | BRestore (a : RootfsArtifact) (* clear the deletion mark of the row found *)
  | BReuse (a : RootfsArtifact)   (* reuse the row if it is ready *)
  | BCreate            (* insert a row *)
  | BRefind            (* another build inserted it first *)
  | BRefound (a : RootfsArtifact)
  | BClaim
  | BBuild             (* write the file system *)
  | BFinalize (path : string)
  | BFail (e : string) (* record the failure in the row *)
  | BDistribute (targets : list (string * string)) (* copy to the nodes *)
  | BEnd (ok : bool).

Inductive cpc : Type :=
  | CPhase1
  | CPhase2 (nodes : list ArtifactNodePlacement) (allOK : bool)
  | CPhase3
  | CEnd.

Inductive proc : Type :=
  | Build (job template : string) (named : bool) (b : build_spec) (targets : list (string * string)) (pc : bpc)
  | Cleanup (artifact exclude : string) (pc : cpc).

Record world : Type := MkWorld {
  tabs : tables;
  local_files : gset string;
  node_files : gset (string * string);
  procs : gmap nat proc;
}.

Definition set_tabs t (w : world) := MkWorld t (local_files w) (node_files w) (procs w).

(** What the environment decides in a step: the errors of the statements, the clock, the
    texts that are generated, the outcome of a build or of a removal, the answer of a
    node and whether the node removed its copy although it did not say so. *)
Record env : Type := MkEnv {
  e_io : option string; e_io2 : option string; e_now : Z; e_request : res string; e_token : string; e_build : res string;
  e_removal : option string; e_rpc : rpc; e_gone : bool; e_host : string -> option string;
}.

(** A ready row with a request is reused when the request can be generated again. *)
Definition reuse (e : env) (a : RootfsArtifact) : option (res unit) :=
  if (af_Status a =s ArtifactStatusReady) && (af_GeneratedRequestJSON a <>s "")
  then Some (match e_request e with Ok _ => Ok tt | Err m => Err m end) else None.

Definition finalized (path request token : string) (deadline : Z) (b : build_spec) (a : RootfsArtifact) : RootfsArtifact :=
  MkArtifact (af_ArtifactID a) (af_TemplateSpecFingerprint a) (af_SourceImageRef a) (b_digest b) (af_WritableLayerSize a) path request token
    ArtifactStatusReady "" deadline (af_Deleted a).

Definition distributed_replica (b : build_spec) (node ip job : string) (ok : bool) (msg : string) : ReplicaStatus :=
  if ok
  then MkStatus node ip (b_instance b) (b_spec b) ReplicaStatusFailed ReplicaPhaseDistributed (b_artifact b) job "" false "" "" "" "" "" "" 0
  else MkStatus node ip (b_instance b) (b_spec b) ReplicaStatusFailed ReplicaPhaseFailed (b_artifact b) job ReplicaPhaseDistributing true msg
         "" "" "" "" "" 0.

Section Steps.
Context `{!GoRuntime}.

Definition build_step (e : env) (job template : string) (b : build_spec) (targets : list (string * string)) (pc : bpc) (w : world) : bpc * world :=
  let t := tabs w in
  match pc with
  | BSetJob =>
      (* the error of this update is only logged *)
      match guarded (e_io e) (updateTemplateImageJob job (js_artifact (b_artifact b)) t) with
      | Ok t' => (BFind, set_tabs t' w)
      | Err _ => (BFind, w)
      end
  | BFind =>
      match e_io e with
      | Some m => (BEnd false, w)
      | None =>
          match findReusableRootfsArtifact (b_fingerprint b) (b_artifact b) t with
          | Ok (a, true) => (BRestore a, w)
          | Ok (a, false) => (BReuse a, w)
          | Err m => if m =s ErrRecordNotFound then (BCreate, w) else (BEnd false, w)
          end
      end
  | BRestore a =>
      match guarded (e_io e) (restoreRootfsArtifact (b_artifact b) t) with
      | Ok t' => (BReuse a, set_tabs t' w)
      | Err _ => (BEnd false, w)
      end
  | BReuse a =>
      match reuse e a with
      | Some (Ok _) => (BDistribute targets, w)
      | Some (Err _) => (BEnd false, w)
      | None => (BClaim, w)
      end
  | BCreate =>
      match guarded (e_io e) (create_artifact (new_artifact ArtifactStatusPending b) t) with
      | Ok t' => (BClaim, set_tabs t' w)
      | Err m => if Contains m "1062" || Contains m "Duplicate entry" then (BRefind, w) else (BEnd false, w)
      end
  | BRefind =>
      match e_io e with
      | Some _ => (BEnd false, w)
      | None =>
          match findReusableRootfsArtifact (b_fingerprint b) (b_artifact b) t with
          | Ok (a, _) => (BRefound a, w)
          | Err _ => (BEnd false, w)
          end
      end
  | BRefound a =>
      (* a restored row, then reuse; here a request that cannot be generated is no error *)
      if af_Deleted a then
        match guarded (e_io e) (restoreRootfsArtifact (b_artifact b) t) with
        | Ok t' => (match reuse e a with Some (Ok _) => BDistribute targets | _ => BClaim end, set_tabs t' w)
        | Err _ => (BEnd false, w)
        end
      else (match reuse e a with Some (Ok _) => BDistribute targets | _ => BClaim end, w)
  | BClaim =>
      match claimRootfsArtifactForBuild (e_io e) b t with
      | (t', Ok _) => (BBuild, set_tabs t' w)
      | (_, Err _) => (BEnd false, w)
      end
  | BBuild =>
      match e_build e with
      | Ok path => (BFinalize path, MkWorld t ({[ b_artifact b ]} ∪ local_files w) (node_files w) (procs w))
      | Err m => (BFail m, w)
      end
  | BFinalize path =>
      match e_request e with
      | Err m => (BFail m, w)
      | Ok request =>
          match guarded (e_io e) (updateRootfsArtifact (b_artifact b)
                  (finalized path request (e_token e) (time_unix (e_now e + defaultTemplateArtifactTTL)) b) t) with
          | Ok t' =>
              (* the row is read again *)
              match e_io2 e, getRootfsArtifactByID (b_artifact b) t' with
              | Some m, _ => (BFail m, set_tabs t' w)
              | None, None => (BFail ErrRecordNotFound, set_tabs t' w)
              | None, Some _ => (BDistribute targets, set_tabs t' w)
              end
          | Err m => (BFail m, w)
          end
      end
  | BFail m =>
      match guarded (e_io e) (updateRootfsArtifact (b_artifact b) (with_af_error ArtifactStatusFailed m) t) with
      | Ok t' => (BEnd false, set_tabs t' w)
      | Err _ => (BEnd false, w)
      end
  | BDistribute [] => (BEnd true, w)
  | BDistribute ((node, ip) :: rest) =>
      let '(ok, msg) := match e_rpc e with
                        | RpcError m => (false, m)
                        | RpcRet None => (false, "empty create image response")
                        | RpcRet (Some (c, m)) => if c =? code_success then (true, "") else (false, m)
                        end in
      let t' := match e_io e with
                | Some _ => t
                | None => UpsertReplica template (b_instance b) (distributed_replica b node ip job ok msg) t
                end in
      if ok : bool
      then (BDistribute rest,
            MkWorld (match e_io2 e with Some _ => t' | None => upsertArtifactNodePlacement (b_artifact b) node ip (e_now e) t' end) (local_files w) ({[ (b_artifact b, node) ]} ∪ node_files w) (procs w))
      else (BDistribute rest, set_tabs t' w)
  | BEnd ok => (BEnd ok, w)
  end.

Definition cleanup_step (e : env) (id exclude : string) (pc : cpc) (w : world) : cpc * world :=
  match pc with
  | CPhase1 =>
      match cleanup_phase1 (e_io e) id exclude (e_now e) (tabs w) with
      | (t', Ok (Some nodes)) => (CPhase2 nodes true, set_tabs t' w)
      | (t', _) => (CEnd, set_tabs t' w)
      end
  | CPhase2 [] allOK => (if allOK then CPhase3 else CEnd, w)
  | CPhase2 (p :: rest) allOK =>
      match placementToNode (e_host e) p with
      | None => (CPhase2 rest false, w)
      | Some (node, ip) =>
          let gone := MkWorld (tabs w) (local_files w) (node_files w ∖ {[ (id, node) ]}) (procs w) in
          match destroyArtifactOnNode id node (e_rpc e) with
          | Destroyed => (CPhase2 rest allOK, gone)
          | InUse => (CPhase2 rest false, w)
          | DestroyFailed _ => (CPhase2 rest false, if e_gone e then gone else w)
          end
      end
  | CPhase3 =>
      let '(t', removed, _) := cleanup_phase3 (e_io e) (e_removal e) id exclude (tabs w) in
      (CEnd, MkWorld t' (if removed : bool then local_files w ∖ {[ id ]} else local_files w) (node_files w) (procs w))
  | CEnd => (CEnd, w)
  end.

(** The first step recorded the artifact in the job. *)
Definition sets_job (e : env) (job : string) (b : build_spec) (pc : bpc) (t : tables) : bool :=
  match pc with
  | BSetJob => is_ok (guarded (e_io e) (updateTemplateImageJob job (js_artifact (b_artifact b)) t))
  | _ => false
  end.

Definition set_proc (i : nat) (p : proc) (w : world) : world := MkWorld (tabs w) (local_files w) (node_files w) (<[i := p]> (procs w)).

(** Process [i] does its next step. *)
Definition do_step (i : nat) (e : env) (w : world) : world :=
  match procs w !! i with
  | Some (Build job template named b targets pc) =>
      let '(pc', w') := build_step e job template b targets pc w in
      set_proc i (Build job template (sets_job e job b pc (tabs w) || named) b targets pc') w'
  | Some (Cleanup id exclude pc) =>
      let '(pc', w') := cleanup_step e id exclude pc w in set_proc i (Cleanup id exclude pc') w'
  | None => w
  end.

(** [cleanupArtifactFully] starts a cleanup; [cleanupFailedRootfsArtifact] does so for
    the template of the failed build. *)
Definition cleanupArtifactFully (artifactID exclude : string) : option proc :=
  if TrimSpace artifactID =s "" then None else Some (Cleanup (TrimSpace artifactID) exclude CPhase1).

(** ** What redoing a build does first

    A redo whose job failed while building removes the master's file of the artifact the
    job names, whoever uses it, and marks the row; then it goes through
    [ensureRootfsArtifact] without recording the artifact it computes in its job. *)

Definition redo_file (id : string) (w : world) : world :=
  match getRootfsArtifactByID id (tabs w) with
  | Some a => if af_Ext4Path a <>s "" then MkWorld (tabs w) (local_files w ∖ {[ id ]}) (node_files w) (procs w) else w
  | None => w
  end.

Definition redo_row (io : option string) (id : string) (t : tables) : tables :=
  match guarded io (updateRootfsArtifact id (with_af_error ArtifactStatusFailed "redo requested after artifact build failure") t) with
  | Ok t' => t'
  | Err _ => t
  end.

(** One call of [cleanupArtifactOnNodes] and whether it succeeds: a copy that is in use
    stays and is no error. *)
Definition redo_node (e : env) (id node : string) (w : world) : world * bool :=
  let gone := MkWorld (tabs w) (local_files w) (node_files w ∖ {[ (id, node) ]}) (procs w) in
  match destroyArtifactOnNode id node (e_rpc e) with
  | Destroyed => (gone, true)
  | InUse => (w, true)
  | DestroyFailed _ => (if e_gone e then gone else w, false)
  end.

(** ** The garbage collector *)

Definition artifactGCMaxPerPass : nat := 100.

Definition gc_candidate (now : Z) (a : RootfsArtifact) : bool :=
  bool_decide (af_Status a ∈ [ArtifactStatusFailed; ArtifactStatusOrphaned; ArtifactStatusCleanupPending])
  || ((0 <? af_GCDeadline a) && (af_GCDeadline a <? time_unix now)).

(** [locked]: the pass holds the lock of the cluster. *)
Definition listArtifactGCCandidatesLocked (io : option string) (locked : bool) (now : Z) (t : tables) : option (list RootfsArtifact) :=
  match io with
  | Some _ => None
  | None =>
      if locked
      then Some (take artifactGCMaxPerPass (filter (fun a => af_Deleted a = false /\ gc_candidate now a = true) (map_to_list (artifacts t)).*2))
      else None
  end.

(** A pass starts a cleanup that excludes no template for each candidate. *)
Definition runArtifactGCPass (io : option string) (locked : bool) (now : Z) (t : tables) : list proc :=
  match listArtifactGCCandidatesLocked io locked now t with
  | Some l => omap (fun a => cleanupArtifactFully (af_ArtifactID a) "") (filter (fun a => af_ArtifactID a <> "") l)
  | None => []
  end.

End Steps.

(** ** Builds are not cleaned away *)

(** Code other than builds, cleanups and redos changes definitions, replicas, jobs and
    placements, never artifacts, and leaves the jobs of running builds alone. *)
Definition job_names (t : tables) (job template id : string) : Prop :=
  exists j, j ∈ jobs t /\ j_JobID j = job /\ j_TemplateID j = template /\ j_active j = true /\ j_ArtifactID (j_state j) = id.

Definition b_running (pc : bpc) : Prop := match pc with BEnd _ => False | _ => True end.
Definition c_running (pc : cpc) : Prop := match pc with CEnd => False | _ => True end.

Definition keeps_builds (w : world) (t : tables) : Prop :=
  artifacts t = artifacts (tabs w) /\
  forall i job template named b targets pc, procs w !! i = Some (Build job template named b targets pc) -> b_running pc ->
    forall id, job_names (tabs w) job template id -> job_names t job template id.

(** A build starts for a job of its own, a redone one behind the step that records the
    artifact. *)
Definition may_start (p : proc) (w : world) : Prop :=
  match p with
  | Build job template named b targets pc =>
      ((named = false /\ pc = BSetJob) \/ (pc = BFind /\ (named = true -> job_names (tabs w) job template (b_artifact b)))) /\ (exists j, j ∈ jobs (tabs w) /\ j_JobID j = job /\ j_TemplateID j = template /\ j_active j = true) /\
      (forall k job' template' named' b' targets' pc', procs w !! k = Some (Build job' template' named' b' targets' pc') -> job' <> job)
  | Cleanup id exclude pc => trimmed id /\ pc = CPhase1
  end.

(** No clean-up that leaves out the references of a template (its deletion or a redo)
    runs while a build of this template does.  The lock of cache.go gives this among the
    processes of one master, not among the masters of a replicated deployment. *)
Definition apart (w : world) : Prop :=
  forall i k job template named b targets pc id exclude pc', procs w !! i = Some (Build job template named b targets pc) -> b_running pc ->
    procs w !! k = Some (Cleanup id exclude pc') -> c_running pc' -> TrimSpace exclude <> template.

Section Safety.
Context `{!GoRuntime}.

Inductive step (w : world) : world -> Prop :=
  | step_proc i e : step w (do_step i e w)
  | step_start i p : procs w !! i = None -> may_start p w -> step w (set_proc i p w)
  | step_redo_file id : step w (redo_file id w)
  | step_redo_row io id : step w (set_tabs (redo_row io id (tabs w)) w)
  | step_redo_node e id node : step w (redo_node e id node w).1
  | step_other t : keeps_builds w t -> step w (set_tabs t w).

(** The row is there, not marked as deleted and not given up. *)
Definition live (id : string) (t : tables) : Prop :=
  exists a, artifacts t !! id = Some a /\ af_Deleted a = false /\ af_Status a <> ArtifactStatusCleanupPending.
(** The same, but it may be marked as deleted. *)
Definition kept (id : string) (t : tables) : Prop :=
  exists a, artifacts t !! id = Some a /\ af_Status a <> ArtifactStatusCleanupPending.

Definition protected (id : string) (pc : bpc) (t : tables) : Prop :=
  match pc with
  | BRestore a => af_Status a = ArtifactStatusReady -> kept id t
  | BReuse a => af_Status a = ArtifactStatusReady -> live id t
  | BRefound a => af_Status a = ArtifactStatusReady -> if af_Deleted a then kept id t else live id t
  | BBuild | BFinalize _ | BFail _ | BDistribute _ => live id t
  | _ => True
  end.

Record world_ok (w : world) : Prop := {
  wk_keys : map_Forall (fun k a => af_ArtifactID a = k) (artifacts (tabs w));
  wk_trim : forall i id exclude pc, procs w !! i = Some (Cleanup id exclude pc) -> trimmed id;
  wk_job : forall i job template named b targets pc, procs w !! i = Some (Build job template named b targets pc) -> b_running pc ->
    exists j, j ∈ jobs (tabs w) /\ j_JobID j = job /\ j_TemplateID j = template /\ j_active j = true;
  wk_jobs : forall i k job t1 n1 b1 g1 p1 t2 n2 b2 g2 p2, procs w !! i = Some (Build job t1 n1 b1 g1 p1) ->
    procs w !! k = Some (Build job t2 n2 b2 g2 p2) -> i = k;
  wk_apart : forall i k job template named b targets pc id exclude pc', procs w !! i = Some (Build job template named b targets pc) -> b_running pc ->
    procs w !! k = Some (Cleanup id exclude pc') -> c_running pc' -> TrimSpace exclude <> template;
  wk_safe : forall i job template b targets pc, procs w !! i = Some (Build job template true b targets pc) -> b_running pc ->
    pc <> BSetJob -> job_names (tabs w) job template (b_artifact b) /\ protected (b_artifact b) pc (tabs w);
  wk_first : forall i job template named b targets, procs w !! i = Some (Build job template named b targets BSetJob) -> named = false;
}.

(** *** References seen by a cleanup *)

Lemma job_counts id exclude job template t : trimmed id -> TrimSpace exclude <> template -> job_names t job template id ->
  match countArtifactReferencesTx id exclude t with Ok n => 0 < n | Err _ => True end.
Proof.
  intros [Ht Hne] Hex (j & Hin & _ & Etm & Hact & Ea). unfold countArtifactReferencesTx. rewrite Ht, bool_decide_false by done.
  destruct (ContainsAny id "%_"); [done|].
  assert (Hj : j ∈ job_refs id (TrimSpace exclude) t).
  { apply list_elem_of_filter. split_and!; [done|done| |done]. unfold excluded. rewrite Etm, (bool_decide_false (template = _)) by done. apply andb_false_r. }
  destruct (job_refs id (TrimSpace exclude) t); [by apply not_elem_of_nil in Hj|]. cbn. lia.
Qed.

Lemma phase1_jobs io id exclude now t : jobs (cleanup_phase1 io id exclude now t).1 = jobs t.
Proof. unfold cleanup_phase1. repeat case_match; done. Qed.

(** Phase 1 leaves the artifacts alone, or writes the row it found; when the artifact
    is referenced the row is not given up. *)
Lemma phase1_cases io id exclude now t :
  artifacts (cleanup_phase1 io id exclude now t).1 = artifacts t \/
  exists a row t1, artifacts t !! id = Some a /\ af_Deleted a = false /\
    artifacts (cleanup_phase1 io id exclude now t).1 = <[id := row]> (artifacts t) /\
    af_ArtifactID row = af_ArtifactID a /\ af_Deleted row = false /\ jobs t1 = jobs t /\
    (match countArtifactReferencesTx id exclude t1 with Ok n => 0 < n | Err _ => True end -> af_Status row <> ArtifactStatusCleanupPending).
Proof.
  unfold cleanup_phase1, getRootfsArtifactByID. destruct io; [by left|].
  destruct (artifacts t !! id) as [a|] eqn:Ea; [|by left]. destruct (af_Deleted a) eqn:Ed; [by left|].
  set (t1 := if exclude <>s "" then _ else t).
  assert (H1 : artifacts t1 = artifacts t /\ jobs t1 = jobs t) by (subst t1; by case_match). destruct H1 as [Eart Ejobs].
  destruct (countArtifactReferencesTx id exclude t1) as [n|] eqn:Ec; [|by left]. right.
  exists a, (if 0 <? n then with_af_deadline (if af_Status a =s ArtifactStatusCleanupPending then ArtifactStatusReady else af_Status a)
                              (time_unix (now + defaultTemplateArtifactTTL)) a
             else with_af_status ArtifactStatusCleanupPending a), t1.
  rewrite Ec. destruct (Z.ltb_spec 0 n); cbn; rewrite Eart; split_and!; try done.
  - intros _. by case_bool_decide.
  - lia.
Qed.

Lemma phase3_cases io removal id exclude t :
  let r := cleanup_phase3 io removal id exclude t in
  jobs r.1.1 = jobs t /\
  (artifacts r.1.1 = artifacts t \/
   artifacts r.1.1 = delete id (artifacts t) /\ countArtifactReferencesTx id exclude t = Ok 0 /\
   exists a, artifacts t !! id = Some a /\ af_Status a = ArtifactStatusCleanupPending).
Proof.
  unfold cleanup_phase3, getRootfsArtifactByID. destruct (artifacts t !! id) as [a|] eqn:Ea; [|naive_solver].
  destruct (af_Deleted a); [naive_solver|].
  destruct (countArtifactReferencesTx id exclude t) as [n|] eqn:Ec; [|naive_solver].
  unfold cleanupMasterLocalArtifactForFinalDelete.
  destruct (Z.ltb_spec 0 n); [naive_solver|]. destruct (bool_decide_reflect (af_Status a = ArtifactStatusCleanupPending)) as [Est|]; [|naive_solver].
  destruct removal; [naive_solver|]. destruct io; [naive_solver|]. cbn.
  unfold deleteArtifactNodePlacementsTx. case_bool_decide; (split; [done|right; split_and!; [done| |eauto]]).
  all: f_equal; revert Ec; unfold countArtifactReferencesTx; repeat case_match; try done; intros [= <-]; lia.
Qed.

(** *** What a step does to a protected artifact *)

(** [safe_for template id t t']: what a build relies on survives from [t] to [t']. *)
Definition survives (id : string) (t t' : tables) : Prop := (live id t -> live id t') /\ (kept id t -> kept id t').

Lemma survives_same id t t' : artifacts t' !! id = artifacts t !! id -> survives id t t'.
Proof. intros E. unfold survives, live, kept. by rewrite E. Qed.

Lemma survives_write id t t' row : artifacts t' !! id = Some row -> af_Status row <> ArtifactStatusCleanupPending ->
  (forall a, artifacts t !! id = Some a -> af_Deleted a = false -> af_Deleted row = false) -> survives id t t'.
Proof. intros E Hs Hd. split; [intros (a & Ha & Hda & _); exists row; eauto|intros (a & Ha & _); exists row; eauto]. Qed.

Lemma protected_survives id pc t t' : survives id t t' -> protected id pc t -> protected id pc t'.
Proof. intros [H1 H2]. destruct pc as [| |a|a| | |a| | |p|e|g|ok]; cbn; auto. destruct (af_Deleted a); auto. Qed.

Lemma live_kept id t : live id t -> kept id t.
Proof. intros (a & ? & _ & ?). by exists a. Qed.

Lemma phase1_survives io id exclude now job template t : trimmed id -> TrimSpace exclude <> template -> job_names t job template id ->
  survives id t (cleanup_phase1 io id exclude now t).1.
Proof.
  intros Hid Hex Hj. destruct (phase1_cases io id exclude now t) as [E|(a & row & t1 & Ha & Hd & E & _ & Hrow & Ejobs & Hst)].
  - apply survives_same. by rewrite E.
  - apply (survives_write _ _ _ row); [by rewrite E, lookup_insert_eq| |done].
    apply Hst. apply (job_counts id exclude job template t1 Hid Hex). unfold job_names. by rewrite Ejobs.
Qed.

Lemma phase3_survives io removal id exclude job template t : trimmed id -> TrimSpace exclude <> template -> job_names t job template id ->
  survives id t (cleanup_phase3 io removal id exclude t).1.1.
Proof.
  intros Hid Hex Hj. destruct (phase3_cases io removal id exclude t) as [_ [E|(_ & Ec & _)]].
  - apply survives_same. by rewrite E.
  - pose proof (job_counts id exclude job template t Hid Hex Hj) as Hc. rewrite Ec in Hc. lia.
Qed.


(** *** Steps of builds *)

Definition keyed (t : tables) : Prop := map_Forall (fun k a => af_ArtifactID a = k) (artifacts t).

Lemma survives_refl id t : survives id t t.
Proof. by split. Qed.

Lemma survives_update id k f t t' : artifacts t' = alter f k (artifacts t) ->
  (forall a, af_Status a <> ArtifactStatusCleanupPending -> af_Status (f a) <> ArtifactStatusCleanupPending) ->
  (forall a, af_Deleted a = false -> af_Deleted (f a) = false) -> survives id t t'.
Proof.
  intros E Hs Hd. destruct (decide (id = k)) as [->|Hne].
  - split; [intros (a & Ha & Hda & Hsa)|intros (a & Ha & Hsa)]; exists (f a); rewrite E, lookup_alter_eq, Ha; auto.
  - apply survives_same. by rewrite E, lookup_alter_ne.
Qed.

Lemma update_artifact_alter id f t t' : updateRootfsArtifact id f t = Ok t' ->
  artifacts t' = alter f id (artifacts t) /\ jobs t' = jobs t /\ is_Some (artifacts t !! id).
Proof.
  unfold updateRootfsArtifact. destruct (artifacts t !! id) as [a|] eqn:Ea; [|done]. intros [= <-]. cbn. split_and!; [|done|done].
  apply map_eq. intros k. destruct (decide (k = id)) as [->|]; [by rewrite lookup_insert_eq, lookup_alter_eq, Ea|by rewrite lookup_insert_ne, lookup_alter_ne].
Qed.

Lemma keyed_alter f k t t' : keyed t -> artifacts t' = alter f k (artifacts t) -> (forall a, af_ArtifactID (f a) = af_ArtifactID a) -> keyed t'.
Proof.
  intros Hk E Hf i a Ha. rewrite E in Ha. destruct (decide (i = k)) as [->|Hne].
  - rewrite lookup_alter_eq in Ha. destruct (artifacts t !! k) as [a'|] eqn:Ea; [|done]. injection Ha as <-. rewrite Hf. by apply Hk.
  - rewrite lookup_alter_ne in Ha by done. by apply Hk.
Qed.

Lemma create_artifact_ok a t t' : create_artifact a t = Ok t' ->
  artifacts t !! af_ArtifactID a = None /\ artifacts t' = <[af_ArtifactID a := a]> (artifacts t) /\ jobs t' = jobs t.
Proof.
  unfold create_artifact. destruct (bool_decide_reflect (is_Some (artifacts t !! af_ArtifactID a))) as [|Hn]; [done|]. case_bool_decide; [done|].
  intros [= <-]. split_and!; [|done|done]. by apply eq_None_not_Some.
Qed.

Lemma survives_create id a t t' : artifacts t !! af_ArtifactID a = None -> artifacts t' = <[af_ArtifactID a := a]> (artifacts t) -> survives id t t'.
Proof.
  intros Hn E. destruct (decide (id = af_ArtifactID a)) as [->|Hne].
  - split; [intros (? & Ha & _)|intros (? & Ha & _)]; congruence.
  - apply survives_same. by rewrite E, lookup_insert_ne.
Qed.

Lemma keyed_create a t t' : keyed t -> artifacts t' = <[af_ArtifactID a := a]> (artifacts t) -> keyed t'.
Proof. intros Hk E. unfold keyed. rewrite E. by apply map_Forall_insert_2. Qed.

Lemma claim_spec io b t t' a : claimRootfsArtifactForBuild io b t = (t', Ok a) -> keyed t ->
  keyed t' /\ jobs t' = jobs t /\ (forall id, survives id t t') /\ live (b_artifact b) t'.
Proof.
  unfold claimRootfsArtifactForBuild, getRootfsArtifactByIDUnscoped. destruct io; [done|]. intros Hc Hk.
  destruct (artifacts t !! b_artifact b) as [x|] eqn:Ex.
  - injection Hc as <- _. set (row := with_af _ _ _ _ _ _ _ x). split_and!; [|done|..].
    + apply map_Forall_insert_2; [|done]. exact (Hk _ _ Ex).
    + intros id. destruct (decide (id = b_artifact b)) as [->|Hne].
      * apply (survives_write _ _ _ row); [apply lookup_insert_eq|done|done].
      * apply survives_same. by apply lookup_insert_ne.
    + exists row. cbn. by rewrite lookup_insert_eq.
  - destruct (create_artifact _ t) as [t1|] eqn:Ec; [|done]. injection Hc as <- _.
    apply create_artifact_ok in Ec as (Hn & E & Ej). cbn in *. split_and!; [by apply (keyed_create (new_artifact ArtifactStatusBuilding b) t)|done|..].
    + intros id. by apply (survives_create id (new_artifact ArtifactStatusBuilding b)).
    + exists (new_artifact ArtifactStatusBuilding b). by rewrite E, lookup_insert_eq.
Qed.

Lemma head_filter_elem {A} (P : A -> Prop) `{!forall x, Decision (P x)} l x : head (filter P l) = Some x -> x ∈ l /\ P x.
Proof.
  destruct (filter P l) as [|y m] eqn:E; [done|]. intros [= ->]. assert (Hx : x ∈ filter P l) by (rewrite E; constructor).
  apply list_elem_of_filter in Hx. tauto.
Qed.

Lemma found_row fp id t a d : keyed t -> findReusableRootfsArtifact fp id t = Ok (a, d) -> artifacts t !! id = Some a /\ d = af_Deleted a.
Proof.
  intros Hk. unfold findReusableRootfsArtifact.
  assert (Hin : forall x, x ∈ (map_to_list (artifacts t)).*2 -> artifacts t !! af_ArtifactID x = Some x).
  { intros x ([k y] & -> & Hy%elem_of_map_to_list)%list_elem_of_fmap. cbn. by rewrite (Hk _ _ Hy). }
  assert (Hch : forall x, artifacts t !! af_ArtifactID x = Some x ->
     rbind (validateReusableRootfsArtifact x fp id) (fun a => Ok (a, af_Deleted a)) = Ok (a, d) -> artifacts t !! id = Some a /\ d = af_Deleted a).
  { intros x Hx. unfold validateReusableRootfsArtifact. case_bool_decide as E; cbn; [|done]. case_match; [done|]. cbn. intros [= <- <-]. by subst id. }
  destruct (getRootfsArtifactByFingerprint fp t) as [x|] eqn:E1; [apply head_filter_elem in E1 as [Hx _]; exact (Hch x (Hin x Hx))|].
  destruct (getRootfsArtifactByFingerprintUnscoped fp t) as [x|] eqn:E2; [apply head_filter_elem in E2 as [Hx _]; exact (Hch x (Hin x Hx))|].
  unfold getRootfsArtifactByID, getRootfsArtifactByIDUnscoped. destruct (artifacts t !! id) as [x|] eqn:Ex; [|done].
  assert (Hx : artifacts t !! af_ArtifactID x = Some x) by by rewrite (Hk _ _ Ex). destruct (af_Deleted x); by apply Hch.
Qed.

Lemma restore_spec id t t' : restoreRootfsArtifact id t = Ok t' -> keyed t ->
  keyed t' /\ jobs t' = jobs t /\ (forall k, survives k t t') /\ (kept id t -> live id t').
Proof.
  intros Hr Hk. apply update_artifact_alter in Hr as (E & Ej & _). split_and!; [by eapply keyed_alter|done|..].
  - intros k. by eapply survives_update.
  - intros (a & Ha & Hs). eexists. rewrite E, lookup_alter_eq, Ha. done.
Qed.

Lemma update_spec id f t t' : updateRootfsArtifact id f t = Ok t' -> keyed t -> (forall a, af_ArtifactID (f a) = af_ArtifactID a) ->
  (forall a, af_Status (f a) <> ArtifactStatusCleanupPending) -> (forall a, af_Deleted (f a) = af_Deleted a) ->
  keyed t' /\ jobs t' = jobs t /\ (forall k, survives k t t').
Proof.
  intros Hu Hk H1 H2 H3. apply update_artifact_alter in Hu as (E & Ej & _). split_and!; [by eapply keyed_alter|done|].
  intros k. eapply survives_update; [exact E|auto|intros a Ha; by rewrite H3].
Qed.


Lemma upsert_replica_same tid ty r t : artifacts (UpsertReplica tid ty r t) = artifacts t /\ jobs (UpsertReplica tid ty r t) = jobs t.
Proof. unfold UpsertReplica. by case_match. Qed.

Lemma upsert_placement_same aid nid ip now t :
  artifacts (upsertArtifactNodePlacement aid nid ip now t) = artifacts t /\ jobs (upsertArtifactNodePlacement aid nid ip now t) = jobs t.
Proof. unfold upsertArtifactNodePlacement. by repeat case_match. Qed.

(** What a step of a build leaves: keys, jobs, what other builds rely on. *)
Definition step_fine (pc : bpc) (w w' : world) : Prop :=
  keyed (tabs w') /\ procs w' = procs w /\ (forall id, survives id (tabs w) (tabs w')) /\ (pc <> BSetJob -> jobs (tabs w') = jobs (tabs w)).

Lemma fine_refl pc w : keyed (tabs w) -> step_fine pc w w.
Proof. intros Hk. unfold step_fine. auto using survives_refl. Qed.

Lemma fine_same pc w t : keyed (tabs w) -> artifacts t = artifacts (tabs w) -> (pc <> BSetJob -> jobs t = jobs (tabs w)) -> step_fine pc w (set_tabs t w).
Proof.
  intros Hk Ea Ej. unfold step_fine. split; [by unfold keyed; cbn; rewrite Ea|]. split; [done|]. split; [|done].
  intros id. apply survives_same. cbn. by rewrite Ea.
Qed.

Lemma fine_tabs pc w t : keyed t -> (forall id, survives id (tabs w) t) -> jobs t = jobs (tabs w) -> step_fine pc w (set_tabs t w).
Proof. intros. unfold step_fine. auto. Qed.

Lemma update_job_artifacts id f t t' : updateTemplateImageJob id f t = Ok t' -> artifacts t' = artifacts t.
Proof. unfold updateTemplateImageJob. case_match; [|done]. by intros [= <-]. Qed.

Lemma guarded_ok io r t : guarded io r = Ok t -> r = Ok t.
Proof. by destruct io. Qed.

Ltac fine_none := injection 1 as <- <-; (split; [by apply fine_refl|]); cbn; auto.

Lemma build_find_spec e job template b targets pc w pc' w' : match pc with BFind | BCreate | BRefind => True | _ => False end ->
  build_step e job template b targets pc w = (pc', w') -> keyed (tabs w) ->
  step_fine pc w w' /\ protected (b_artifact b) pc' (tabs w').
Proof.
  intros Hpc Hb Hk. revert Hb. destruct pc; try done; cbn.
  - destruct (e_io e); [fine_none|]. destruct (findReusableRootfsArtifact _ _ _) as [[a d]|m] eqn:Ef; [|case_bool_decide; fine_none].
    apply found_row in Ef as [Ha ->]; [|done]. destruct (af_Deleted a) eqn:Ed; injection 1 as <- <-; (split; [by apply fine_refl|]); cbn; intros Es; exists a; by rewrite Es.
  - destruct (guarded _ _) as [t'|m] eqn:Eg; [|case_match; fine_none].
    apply guarded_ok, create_artifact_ok in Eg as (Hn & E & Ej). injection 1 as <- <-. split; [|done]. apply fine_tabs; [|intros id|done].
    + by apply (keyed_create (new_artifact ArtifactStatusPending b) (tabs w)).
    + by apply (survives_create id (new_artifact ArtifactStatusPending b)).
  - destruct (e_io e); [fine_none|]. destruct (findReusableRootfsArtifact _ _ _) as [[a d]|m] eqn:Ef; [|fine_none].
    apply found_row in Ef as [Ha ->]; [|done]. injection 1 as <- <-. split; [by apply fine_refl|]. cbn. intros Es.
    destruct (af_Deleted a) eqn:Ed; exists a; by rewrite Es.
Qed.

Lemma reuse_ready e a u : reuse e a = Some u -> af_Status a = ArtifactStatusReady.
Proof. unfold reuse. case_match eqn:E; [|done]. intros _. apply andb_true_iff in E as [E _]. by apply bool_decide_eq_true in E. Qed.

Lemma build_reuse_spec e job template b targets pc w pc' w' : match pc with BRestore _ | BReuse _ | BRefound _ => True | _ => False end ->
  build_step e job template b targets pc w = (pc', w') -> keyed (tabs w) ->
  step_fine pc w w' /\ (protected (b_artifact b) pc (tabs w) -> protected (b_artifact b) pc' (tabs w')).
Proof.
  intros Hpc Hb Hk. revert Hb. destruct pc as [| |a|a| | |a| | |path|m|g|ok]; try done; cbn.
  - destruct (guarded _ _) as [t'|m] eqn:Eg; [|fine_none]. apply guarded_ok in Eg. destruct (restore_spec _ _ _ Eg Hk) as (K & J & S & L).
    injection 1 as <- <-. split; [by apply fine_tabs|]. cbn. auto.
  - destruct (reuse e a) as [[[]|m]|] eqn:Er; [|fine_none..].
    injection 1 as <- <-. split; [by apply fine_refl|]. cbn. intros Hp. by apply Hp, (reuse_ready e a (Ok tt)).
  - destruct (af_Deleted a) eqn:Ed.
    + destruct (guarded _ _) as [t'|m] eqn:Eg; [|fine_none]. apply guarded_ok in Eg. destruct (restore_spec _ _ _ Eg Hk) as (K & J & S & L).
      injection 1 as <- <-. split; [by apply fine_tabs|]. intros Hp. destruct (reuse e a) as [[[]|m]|] eqn:Er; [|done..].
      cbn. apply L, Hp. by apply (reuse_ready e a (Ok tt)).
    + injection 1 as <- <-. split; [by apply fine_refl|]. intros Hp. destruct (reuse e a) as [[[]|m]|] eqn:Er; [|done..].
      cbn. apply Hp. by apply (reuse_ready e a (Ok tt)).
Qed.


Lemma build_work_spec e job template b targets pc w pc' w' :
  match pc with BSetJob | BClaim | BBuild | BFinalize _ | BFail _ | BDistribute _ | BEnd _ => True | _ => False end ->
  build_step e job template b targets pc w = (pc', w') -> keyed (tabs w) ->
  step_fine pc w w' /\ (protected (b_artifact b) pc (tabs w) -> protected (b_artifact b) pc' (tabs w')).
Proof.
  intros Hpc Hb Hk. revert Hb. destruct pc as [| |a|a| | |a| | |path|m|[|[node ip] rest]|ok]; try done; cbn -[updateRootfsArtifact].
  - destruct (guarded _ _) as [t'|m] eqn:Eg; [|fine_none]. apply guarded_ok, update_job_artifacts in Eg.
    injection 1 as <- <-. split; [by apply fine_same|done].
  - destruct (claimRootfsArtifactForBuild _ _ _) as [t' [a|m]] eqn:Ec; [|fine_none].
    destruct (claim_spec _ _ _ _ _ Ec Hk) as (K & J & S & L). injection 1 as <- <-. split; [by apply fine_tabs|done].
  - destruct (e_build e); [|fine_none]. injection 1 as <- <-. split; [|done].
    unfold step_fine; cbn; auto using survives_refl.
  - destruct (e_request e) as [req|m]; [|fine_none]. destruct (guarded _ _) as [t'|m] eqn:Eg; [|fine_none].
    apply guarded_ok in Eg. destruct (update_spec _ _ _ _ Eg Hk) as (K & J & S); [done..|].
    intros E. assert (Hw : w' = set_tabs t' w) by (repeat case_match; by injection E as _ <-). subst w'.
    split; [by apply fine_tabs|]. intros Hl. destruct (S (b_artifact b)) as [S1 _]. specialize (S1 Hl).
    repeat case_match; injection E as <-; done.
  - destruct (guarded _ _) as [t'|m'] eqn:Eg; [|fine_none].
    apply guarded_ok in Eg. destruct (update_spec _ _ _ _ Eg Hk) as (K & J & S); [done..|]. injection 1 as <- <-. split; [by apply fine_tabs|done].
  - fine_none.
  - set (r := match e_rpc e with RpcError m => _ | RpcRet _ => _ end). destruct r as [ok msg].
    set (t' := match e_io e with Some _ => _ | None => _ end).
    assert (Ht : artifacts t' = artifacts (tabs w) /\ jobs t' = jobs (tabs w)) by (subst t'; destruct (e_io e); [done|apply upsert_replica_same]).
    destruct Ht as [Ea Ej].
    assert (Hp : forall t2, artifacts t2 = artifacts (tabs w) -> live (b_artifact b) (tabs w) -> live (b_artifact b) t2) by (intros t2 E2; unfold live; by rewrite E2).
    destruct ok; injection 1 as <- <-; [|split; [by apply fine_same|by apply Hp]].
    set (t2 := match e_io2 e with Some _ => _ | None => _ end).
    assert (Ht : artifacts t2 = artifacts (tabs w) /\ jobs t2 = jobs (tabs w)).
    { subst t2. destruct (e_io2 e); [done|]. destruct (upsert_placement_same (b_artifact b) node ip (e_now e) t') as [-> ->]. done. }
    destruct Ht as [Ea2 Ej2]. split; [|by apply Hp].
    unfold step_fine; cbn. split; [by unfold keyed; rewrite Ea2|]. split; [done|]. split; [|done]. intros id. apply survives_same. by rewrite Ea2.
  - fine_none.
Qed.

Lemma build_step_spec e job template b targets pc w pc' w' : build_step e job template b targets pc w = (pc', w') -> keyed (tabs w) ->
  step_fine pc w w' /\ (protected (b_artifact b) pc (tabs w) -> protected (b_artifact b) pc' (tabs w')).
Proof.
  intros Hb Hk.
  pose proof (fun H => build_find_spec e job template b targets pc w pc' w' H Hb Hk) as H1.
  pose proof (fun H => build_reuse_spec e job template b targets pc w pc' w' H Hb Hk) as H2.
  pose proof (fun H => build_work_spec e job template b targets pc w pc' w' H Hb Hk) as H3.
  clear Hb. destruct pc; try (by apply H2); try (by apply H3); destruct H1; auto.
Qed.

(** *** Steps of cleanups *)

Lemma cleanup_step_spec e id exclude pc w pc' w' : cleanup_step e id exclude pc w = (pc', w') -> keyed (tabs w) ->
  keyed (tabs w') /\ procs w' = procs w /\ jobs (tabs w') = jobs (tabs w) /\
  (forall k, k <> id -> survives k (tabs w) (tabs w')) /\
  (forall job template, trimmed id -> TrimSpace exclude <> template -> job_names (tabs w) job template id -> survives id (tabs w) (tabs w')).
Proof.
  intros Hc Hk. destruct pc as [|[|p rest] ok| |]; cbn in Hc.
  - assert (Hw : w' = set_tabs (cleanup_phase1 (e_io e) id exclude (e_now e) (tabs w)).1 w).
    { destruct (cleanup_phase1 _ _ _ _ _) as [t' [[ns|]|m]]; by injection Hc as _ <-. }
    subst w'. cbn. split_and!.
    + destruct (phase1_cases (e_io e) id exclude (e_now e) (tabs w)) as [E|(a & row & t1 & Ha & _ & E & Er & _)]; unfold keyed; rewrite E; [done|].
      apply map_Forall_insert_2; [|done]. rewrite Er. by apply Hk.
    + done.
    + apply phase1_jobs.
    + intros k Hne. apply survives_same. destruct (phase1_cases (e_io e) id exclude (e_now e) (tabs w)) as [E|(a & row & t1 & _ & _ & E & _)]; rewrite E; [done|].
      by apply lookup_insert_ne.
    + intros job template. apply phase1_survives.
  - injection Hc as _ <-. split_and!; auto using survives_refl.
  - assert (Hw : tabs w' = tabs w /\ procs w' = procs w).
    { destruct (placementToNode (e_host e) p) as [[node ip]|]; [|by injection Hc as _ <-].
      destruct (destroyArtifactOnNode id node (e_rpc e)); injection Hc as _ <-; try done. by destruct (e_gone e). }
    destruct Hw as [-> ->]. split_and!; auto using survives_refl.
  - destruct (cleanup_phase3 (e_io e) (e_removal e) id exclude (tabs w)) as [[t' removed] r] eqn:E3. injection Hc as _ <-. cbn.
    pose proof (phase3_cases (e_io e) (e_removal e) id exclude (tabs w)) as [Ej Hart]. rewrite E3 in Ej, Hart. cbn in Ej, Hart.
    split_and!; [|done|done|..].
    + unfold keyed. destruct Hart as [->|(-> & _)]; [done|by apply map_Forall_delete].
    + intros k Hne. apply survives_same. destruct Hart as [->|(-> & _)]; [done|by apply lookup_delete_ne].
    + intros job template Hid Hex Hj. pose proof (phase3_survives (e_io e) (e_removal e) id exclude job template (tabs w) Hid Hex Hj) as Hs.
      by rewrite E3 in Hs.
  - injection Hc as _ <-. split_and!; auto using survives_refl.
Qed.

(** *** Every reachable world is in order *)

Definition job_of (t : tables) (job template : string) : Prop :=
  exists j, j ∈ jobs t /\ j_JobID j = job /\ j_TemplateID j = template /\ j_active j = true.

Lemma job_of_names t job template : job_of t job template <-> exists id, job_names t job template id.
Proof.
  split; [intros (j & ? & ? & ? & ?); exists (j_ArtifactID (j_state j)), j; done|intros (id & j & ? & ? & ? & ? & ?); by exists j].
Qed.

Lemma set_job_rows job id t t' : updateTemplateImageJob job (js_artifact id) t = Ok t' ->
  (forall template, job_of t job template -> job_names t' job template id) /\
  (forall job' template k, job' <> job -> job_names t job' template k -> job_names t' job' template k).
Proof.
  unfold updateTemplateImageJob. destruct (getTemplateImageJobRecordByID job t) as [?|]; [|done]. intros [= <-]. split.
  - intros template (j & Hin & Ej & Et & Ha). exists (with_state (js_artifact id) j). cbn. split_and!; try done.
    apply list_elem_of_fmap. exists j. by rewrite bool_decide_true.
  - intros job' template k Hne (j & Hin & Ej & Et & Ha & Ei). exists j. cbn. split_and!; try done.
    apply list_elem_of_fmap. exists j. rewrite bool_decide_false by congruence. done.
Qed.

(** What a step of the build for [job] does to the jobs of builds. *)
Lemma build_step_jobs e job template b targets pc w pc' w' : build_step e job template b targets pc w = (pc', w') -> keyed (tabs w) ->
  (forall job' template' k, job' <> job -> job_names (tabs w) job' template' k -> job_names (tabs w') job' template' k) /\
  (job_of (tabs w) job template -> job_of (tabs w') job template) /\
  (job_of (tabs w) job template -> sets_job e job b pc (tabs w) = true -> job_names (tabs w') job template (b_artifact b)) /\
  (pc <> BSetJob -> forall k, job_names (tabs w) job template k -> job_names (tabs w') job template k).
Proof.
  intros Hb Hk. assert (Hpc : pc = BSetJob \/ pc <> BSetJob) by (destruct pc; auto). destruct Hpc as [->|Hne].
  - revert Hb. cbn. destruct (guarded _ _) as [t'|m] eqn:Eg; injection 1 as <- <-; [|naive_solver].
    apply guarded_ok, set_job_rows in Eg as [H1 H2]. cbn. split_and!; [done| |auto|done].
    intros Hj. apply job_of_names. eauto.
  - destruct (build_step_spec _ _ _ _ _ _ _ _ _ Hb Hk) as [(_ & _ & _ & Ej) _]. specialize (Ej Hne).
    unfold job_names, job_of. rewrite Ej. split_and!; auto. destruct pc; done.
Qed.

Lemma build_end_stays e job template b targets ok w : build_step e job template b targets (BEnd ok) w = (BEnd ok, w).
Proof. done. Qed.

Lemma set_job_next e job template b targets w pc' w' : build_step e job template b targets BSetJob w = (pc', w') -> pc' = BFind.
Proof. cbn. by destruct (guarded _ _); injection 1 as <- _. Qed.

Ltac build_pcs Hb := cbn -[updateRootfsArtifact claimRootfsArtifactForBuild findReusableRootfsArtifact] in Hb;
  repeat (case_match || destruct (e_build _)); simplify_eq; try done.

Lemma build_not_first e job template b targets pc w w' : build_step e job template b targets pc w = (BSetJob, w') -> False.
Proof. intros Hb. destruct pc as [| |a|a| | |a| | |path|m|[|[node ip] rest]|ok]; build_pcs Hb. Qed.

Lemma build_step_procs e job template b targets pc w pc' w' :
  build_step e job template b targets pc w = (pc', w') -> procs w' = procs w.
Proof. intros Hb. destruct pc as [| |a|a| | |a| | |path|m|[|[node ip] rest]|ok]; build_pcs Hb. Qed.

Lemma cleanup_step_procs e id exclude pc w pc' w' : cleanup_step e id exclude pc w = (pc', w') -> procs w' = procs w.
Proof. intros Hc. destruct pc; cbn -[cleanup_phase1 cleanup_phase3] in Hc; repeat case_match; by simplify_eq. Qed.

(** A step of a build keeps the order. *)
Lemma ok_build i e job template named b targets pc w pc' w' : world_ok w -> procs w !! i = Some (Build job template named b targets pc) ->
  build_step e job template b targets pc w = (pc', w') ->
  world_ok (set_proc i (Build job template (sets_job e job b pc (tabs w) || named) b targets pc') w').
Proof.
  intros Hw Hi Hb. pose proof (wk_keys _ Hw) as Hk.
  destruct (build_step_spec _ _ _ _ _ _ _ _ _ Hb Hk) as [(K & Ep & S & _) P].
  destruct (build_step_jobs _ _ _ _ _ _ _ _ _ Hb Hk) as (J1 & J2 & J3 & J4).
  assert (Hrun : b_running pc' -> b_running pc) by (destruct pc; [done..|]; cbn in Hb; injection Hb as <- _; done).
  assert (Hset : pc = BSetJob -> pc' = BFind) by (intros ->; by eapply set_job_next).
  assert (Hother : forall k job2 template2 named2 b2 targets2 pc2, k <> i -> procs w !! k = Some (Build job2 template2 named2 b2 targets2 pc2) -> job2 <> job).
  { intros k job2 ? ? ? ? ? Hne Hl ->. apply Hne. eapply (wk_jobs _ Hw); eauto. }
  constructor; unfold set_proc; cbn; rewrite ?Ep.
  - exact K.
  - intros k id exclude pc2 Hl. apply lookup_insert_Some in Hl as [[_ ?]|[_ Hl]]; [done|]. by eapply (wk_trim _ Hw).
  - intros k job2 template2 named2 b2 targets2 pc2 Hl Hr. apply lookup_insert_Some in Hl as [[-> [= <- <- <- <- <- <-]]|[Hne Hl]].
    + apply J2. eapply (wk_job _ Hw); [exact Hi|auto].
    + apply job_of_names. destruct (proj1 (job_of_names (tabs w) job2 template2)) as [id Hj]; [eapply (wk_job _ Hw); eauto|].
      exists id. apply J1; [|done]. by eapply (Hother k).
  - intros k l job2 t1 n1 b1 g1 p1 t2 n2 b2 g2 p2 H1 H2.
    apply lookup_insert_Some in H1 as [[-> [= <- <- <- <- <- <-]]|[N1 H1]]; apply lookup_insert_Some in H2 as [[-> E2]|[N2 H2]]; try done.
    + by eapply (wk_jobs _ Hw).
    + injection E2 as <- _ _ _ _ _. by eapply (wk_jobs _ Hw).
    + by eapply (wk_jobs _ Hw).
  - intros k l job2 template2 named2 b2 targets2 pc2 id exclude pc3 H1 Hr H2 Hc.
    apply lookup_insert_Some in H2 as [[_ ?]|[_ H2]]; [done|].
    apply lookup_insert_Some in H1 as [[-> [= <- <- <- <- <- <-]]|[N1 H1]]; eapply (wk_apart _ Hw); eauto.
  - intros k job2 template2 b2 targets2 pc2 Hl Hr Hns. apply lookup_insert_Some in Hl as [[-> [= <- <- Hn <- <- <-]]|[Hne Hl]].
    + assert (Hpc : pc = BSetJob \/ pc <> BSetJob) by (destruct pc; auto). destruct Hpc as [->|Hpc].
      * rewrite (Hset eq_refl). split; [|done]. destruct (sets_job e job b BSetJob (tabs w)) eqn:Es.
        -- apply J3; [|done]. eapply (wk_job _ Hw); [exact Hi|done].
        -- cbn in Hn. subst named. by pose proof (wk_first _ Hw _ _ _ _ _ _ Hi).
      * assert (sets_job e job b pc (tabs w) = false) as E by (by destruct pc). rewrite E in Hn. cbn in Hn. subst named.
        destruct (wk_safe _ Hw _ _ _ _ _ _ Hi) as [Hj Hp]; auto.
    + destruct (wk_safe _ Hw _ _ _ _ _ _ Hl) as [Hj Hp]; auto. split; [apply J1; [by eapply (Hother k)|done]|].
      by eapply protected_survives.
  - intros k job2 template2 named2 b2 targets2 Hl. apply lookup_insert_Some in Hl as [[-> [= <- <- <- <- <- Hpc]]|[Hne Hl]]; [|by eapply (wk_first _ Hw)].
    exfalso. rewrite Hpc in Hb. by eapply build_not_first.
Qed.

Lemma cleanup_ends e id exclude pc w pc' w' : cleanup_step e id exclude pc w = (pc', w') -> c_running pc' -> c_running pc.
Proof. destruct pc; try done. cbn. by injection 1 as <- _. Qed.

Lemma ok_cleanup i e id exclude pc w pc' w' : world_ok w -> procs w !! i = Some (Cleanup id exclude pc) ->
  cleanup_step e id exclude pc w = (pc', w') -> world_ok (set_proc i (Cleanup id exclude pc') w').
Proof.
  intros Hw Hi Hc. pose proof (wk_trim _ Hw _ _ _ _ Hi) as Hid.
  destruct (cleanup_step_spec _ _ _ _ _ _ _ Hc (wk_keys _ Hw)) as (K & Ep & Ej & S1 & S2).
  assert (Hb : forall k job template named b targets pc2,
    <[i:=Cleanup id exclude pc']> (procs w) !! k = Some (Build job template named b targets pc2) -> procs w !! k = Some (Build job template named b targets pc2)).
  { intros k job template named b targets pc2 Hl. by apply lookup_insert_Some in Hl as [[_ ?]|[_ Hl]]. }
  assert (Hnames : forall job template k, job_names (tabs w) job template k -> job_names (tabs w') job template k) by (unfold job_names; by rewrite Ej).
  constructor; unfold set_proc; cbn; rewrite ?Ep.
  - exact K.
  - intros k id2 exclude2 pc2 Hl. apply lookup_insert_Some in Hl as [[_ [= <- <- <-]]|[_ Hl]]; [done|by eapply (wk_trim _ Hw)].
  - intros k job template named b targets pc2 Hl%Hb Hr. rewrite Ej. by eapply (wk_job _ Hw).
  - intros k l job t1 n1 b1 g1 p1 t2 n2 b2 g2 p2 H1%Hb H2%Hb. by eapply (wk_jobs _ Hw).
  - intros k l job template named b targets pc2 id2 exclude2 pc3 H1%Hb Hr H2 Hc2.
    apply lookup_insert_Some in H2 as [[_ [= <- <- <-]]|[_ H2]]; [|by eapply (wk_apart _ Hw)].
    eapply (wk_apart _ Hw); [exact H1|done|exact Hi|]. by eapply cleanup_ends.
  - intros k job template b targets pc2 Hl%Hb Hr Hns. destruct (wk_safe _ Hw _ _ _ _ _ _ Hl Hr Hns) as [Hj Hp]. split; [auto|].
    destruct (decide (b_artifact b = id)) as [E|Hne]; [|by eapply protected_survives; [apply S1|]].
    rewrite E in *. assert (Hpc : pc = CEnd \/ pc <> CEnd) by (destruct pc; auto). destruct Hpc as [->|Hrun]; [by cbn in Hc; injection Hc as _ <-|].
    eapply protected_survives; [|done]. apply (S2 job template); [done| |done]. eapply (wk_apart _ Hw); [exact Hl|done|exact Hi|by destruct pc].
  - intros k job template named b targets Hl%Hb. by eapply (wk_first _ Hw).
Qed.

Lemma ok_start i p w : world_ok w -> procs w !! i = None -> may_start p w -> apart (set_proc i p w) -> world_ok (set_proc i p w).
Proof.
  intros Hw Hi Hp Hap. constructor; unfold set_proc; cbn.
  - apply (wk_keys _ Hw).
  - intros k id exclude pc Hl. apply lookup_insert_Some in Hl as [[_ ->]|[_ Hl]]; [by destruct Hp|by eapply (wk_trim _ Hw)].
  - intros k job template named b targets pc Hl Hr. apply lookup_insert_Some in Hl as [[_ ->]|[_ Hl]]; [by destruct Hp as (_ & ? & _)|by eapply (wk_job _ Hw)].
  - intros k l job t1 n1 b1 g1 p1 t2 n2 b2 g2 p2 H1 H2.
    apply lookup_insert_Some in H1 as [[-> ->]|[N1 H1]]; apply lookup_insert_Some in H2 as [[-> E2]|[N2 H2]]; try done.
    + destruct Hp as (_ & _ & Hp). exfalso. by eapply Hp.
    + subst p. destruct Hp as (_ & _ & Hp). exfalso. by eapply Hp.
    + by eapply (wk_jobs _ Hw).
  - exact Hap.
  - intros k job template b targets pc Hl Hr Hns. apply lookup_insert_Some in Hl as [[_ ->]|[_ Hl]]; [|by eapply (wk_safe _ Hw)].
    destruct Hp as ([[? ->]|[-> Hn]] & _); [done|]. split; [by apply Hn|done].
  - intros k job template named b targets Hl. apply lookup_insert_Some in Hl as [[_ ->]|[_ Hl]]; [|by eapply (wk_first _ Hw)].
    by destruct Hp as ([[? ?]|[? _]] & _).
Qed.

Lemma ok_other w t : world_ok w -> keeps_builds w t -> world_ok (set_tabs t w).
Proof.
  intros Hw [Ea Hj]. constructor; cbn.
  - rewrite Ea. apply (wk_keys _ Hw).
  - apply (wk_trim _ Hw).
  - intros k job template named b targets pc Hl Hr. apply job_of_names.
    destruct (proj1 (job_of_names (tabs w) job template)) as [id Hn]; [by eapply (wk_job _ Hw)|]. exists id. by eapply Hj.
  - apply (wk_jobs _ Hw).
  - apply (wk_apart _ Hw).
  - intros k job template b targets pc Hl Hr Hns. destruct (wk_safe _ Hw _ _ _ _ _ _ Hl Hr Hns) as [Hn Hp]. split; [by eapply Hj|].
    eapply protected_survives; [|done]. apply survives_same. by rewrite Ea.
  - apply (wk_first _ Hw).
Qed.

(** Steps that change the tables only as far as builds do not mind. *)
Lemma ok_tabs w w' : world_ok w -> keyed (tabs w') -> procs w' = procs w -> jobs (tabs w') = jobs (tabs w) ->
  (forall id, survives id (tabs w) (tabs w')) -> world_ok w'.
Proof.
  intros Hw Hk Ep Ej S. constructor; rewrite ?Ep, ?Ej; try apply Hw; [done|].
  intros k job template b targets pc Hl Hr Hns. destruct (wk_safe _ Hw _ _ _ _ _ _ Hl Hr Hns) as [Hn Hp].
  split; [unfold job_names; by rewrite Ej|by eapply protected_survives].
Qed.

Lemma ok_redo_row io id w : world_ok w -> world_ok (set_tabs (redo_row io id (tabs w)) w).
Proof.
  intros Hw. unfold redo_row. destruct (guarded _ _) as [t'|m] eqn:Eg; [|by destruct w].
  apply guarded_ok in Eg. destruct (update_spec _ _ _ _ Eg (wk_keys _ Hw)) as (K & J & S); [done..|]. by eapply ok_tabs.
Qed.

Lemma ok_step w w' : step w w' -> apart w' -> world_ok w -> world_ok w'.
Proof.
  intros Hs Hap. revert Hs Hap. intros [i e|i p Hi Hp|id|io id|e id node|t Ht] Hap Hw;
    [|by apply ok_start| |by apply ok_redo_row| |by apply ok_other];
    [|unfold redo_file; repeat case_match; try done; apply (ok_tabs w); auto using survives_refl; apply Hw
     |unfold redo_node; case_match; try case_match; try done; apply (ok_tabs w); auto using survives_refl; apply Hw].
  unfold do_step. destruct (procs w !! i) as [[job template named b targets pc|id exclude pc]|] eqn:Ei; [| |done].
  - destruct (build_step e job template b targets pc w) as [pc' w2] eqn:Eb. by eapply ok_build.
  - destruct (cleanup_step e id exclude pc w) as [pc' w2] eqn:Ec. by eapply ok_cleanup.
Qed.

Lemma ok_initial w : keyed (tabs w) -> procs w = ∅ -> world_ok w.
Proof. intros Hk E. constructor; rewrite ?E; try done; intros *; by rewrite lookup_empty. Qed.

(** A step of a world in which builds and the clean-ups of their own templates are kept
    apart. *)
Definition locked_step (w w' : world) : Prop := step w w' /\ apart w'.

Lemma ok_reachable w w' : world_ok w -> rtc locked_step w w' -> world_ok w'.
Proof. induction 2 as [|? ? ? []]; eauto using ok_step. Qed.

(** C17: builds, redone builds, clean-ups and passes of the garbage collector share
    artifacts.  Their transactions interleave in any order and any of their statements and
    calls may fail, with one exception: at no time does a clean-up that leaves out the
    references of a template (its deletion, or a redo of it) run together with a build of
    the same template, which the lock of cache.go ensures within one master (without it
    the statement fails: replicated_master_cleans_build).  Each build has a job of its
    own, and other code keeps the artifacts and the jobs of running builds.  Then,
    starting from no process, a build whose job names the artifact finds the row of the
    artifact in place, not marked as deleted and not given up, for as long as it writes
    the file system, records it and copies it to the nodes. *)
Theorem claimed_build_not_cleaned w w' i job template b targets pc : keyed (tabs w) -> procs w = ∅ ->
  rtc (fun w1 w2 => step w1 w2 /\
         forall i k job template named b targets pc id exclude pc', procs w2 !! i = Some (Build job template named b targets pc) -> b_running pc ->
           procs w2 !! k = Some (Cleanup id exclude pc') -> c_running pc' -> TrimSpace exclude <> template) w w' ->
  procs w' !! i = Some (Build job template true b targets pc) ->
  match pc with BBuild | BFinalize _ | BDistribute _ => True | _ => False end ->
  live (b_artifact b) (tabs w').
Proof.
  intros Hk E Hs Hl Hpc. pose proof (ok_reachable _ _ (ok_initial _ Hk E) Hs) as Hw.
  pose proof (wk_safe _ Hw _ _ _ _ _ _ Hl) as Hsafe. destruct pc; try done; by apply Hsafe.
Qed.

End Safety.

(** ** Runs *)

(** [run l w]: the processes do the steps of [l] in this order. *)
Definition run `{!GoRuntime} (l : list (nat * env)) (w : world) : world := foldl (fun w ie => do_step ie.1 ie.2 w) w l.

(** No clean-up leaves out the references of a template that is built, running or not. *)
Definition named_apart (w : world) : Prop :=
  forall i k job template named b targets pc id exclude pc', procs w !! i = Some (Build job template named b targets pc) ->
    procs w !! k = Some (Cleanup id exclude pc') -> TrimSpace exclude <> template.

(** A step changes where a process stands, not whom it works for. *)
Lemma do_step_procs `{!GoRuntime} i e w k :
  match procs w !! k, procs (do_step i e w) !! k with
  | Some (Build j t n b g _), Some (Build j' t' _ b' g' _) => (j, t, b, g) = (j', t', b', g')
  | Some (Cleanup id x _), Some (Cleanup id' x' _) => (id, x) = (id', x')
  | None, None => True
  | _, _ => False
  end.
Proof.
  unfold do_step. destruct (procs w !! i) as [[job template named b targets pc|id exclude pc]|] eqn:Ei.
  - destruct (build_step e job template b targets pc w) as [pc' w2] eqn:Eb. apply build_step_procs in Eb. unfold set_proc; cbn. rewrite Eb.
    destruct (decide (i = k)) as [<-|]; [by rewrite Ei, lookup_insert_eq|rewrite lookup_insert_ne by done]. by repeat case_match.
  - destruct (cleanup_step e id exclude pc w) as [pc' w2] eqn:Ec. apply cleanup_step_procs in Ec. unfold set_proc; cbn. rewrite Ec.
    destruct (decide (i = k)) as [<-|]; [by rewrite Ei, lookup_insert_eq|rewrite lookup_insert_ne by done]. by repeat case_match.
  - by repeat case_match.
Qed.

Lemma run_steps `{!GoRuntime} l w : named_apart w -> rtc locked_step w (run l w).
Proof.
  revert w. induction l as [|[i e] l IH]; intros w Hw; cbn; [done|].
  assert (Hw' : named_apart (do_step i e w)).
  { intros k m job template named b targets pc id exclude pc' H1 H2.
    pose proof (do_step_procs i e w k) as P1. pose proof (do_step_procs i e w m) as P2. rewrite H1 in P1. rewrite H2 in P2.
    destruct (procs w !! k) as [[? ? ? ? ? ?|? ? ?]|] eqn:E1; [injection P1 as -> -> -> ->|done|done].
    destruct (procs w !! m) as [[? ? ? ? ? ?|? ? ?]|] eqn:E2; [done|injection P2 as -> ->|done]. by eapply Hw. }
  eapply rtc_l; [split; [apply step_proc|]|by apply IH]. repeat intro. by eapply Hw'.
Qed.

Module Demo.

#[local] Existing Instance demo_runtime.

Definition b : build_spec := MkSpec "art" "fp" "img" "sha" "1G" "cubebox" "spec".
Definition fine : env := MkEnv None None 1000 (Ok "request") "token" (Ok "/path") None (RpcRet (Some (code_success, ""))) false (fun _ => None).
Definition failing : env := MkEnv (Some "connection lost") None 1000 (Ok "request") "token" (Ok "/path") None (RpcRet (Some (code_success, ""))) false (fun _ => None).

Definition job : TemplateImageJob :=
  MkJob 1 "j1" "t1" "r1" "" "" "" 1 "" JobOperationCreate "cubebox" "" (MkJobState "" "" "" JobStatusRunning "" 0 "" "" "").
(** An artifact that was built and copied to a node, and whose deadline has passed. *)
Definition row : RootfsArtifact := MkArtifact "art" "fp" "img" "sha" "1G" "/path" "request" "token" ArtifactStatusReady "" 1 false.

Definition used : tables :=
  MkTables ∅ ∅ [job] {[ "art" := row ]} {[ ("art", "n1") := MkPlacement "art" "n1" "10.0.0.1" 0 ]} empty_refs.
Definition build : proc := Build "j1" "t1" false b [("n1", "10.0.0.1")] BSetJob.
Definition collect : proc := Cleanup "art" "" CPhase1.

Definition rest : world := MkWorld used {[ "art" ]} {[ ("art", "n1") ]} ∅.
Definition start_cleanup : world := set_proc 1 collect rest.
Definition start_both : world := set_proc 0 build start_cleanup.

Definition repeat_step (i n : nat) (e : env) : list (nat * env) := repeat (i, e) n.

Lemma both_apart : named_apart start_both.
Proof.
  unfold start_both, start_cleanup, set_proc. intros i k job template named b targets pc id exclude pc' H1 H2. cbn in H1, H2.
  apply lookup_insert_Some in H1 as [[_ [= <- <- <- <- <- <-]]|[_ H1]]; [|by apply lookup_insert_Some in H1 as [[_ ?]|[_ ?]]].
  apply lookup_insert_Some in H2 as [[_ ?]|[_ H2]]; [done|]. by apply lookup_insert_Some in H2 as [[_ [= <- <- <-]]|[_ ?]].
Qed.

End Demo.

(** A cleanup that has marked the artifact runs while the same artifact is claimed and
    written again: the build is recording the file. *)
Lemma claimed_build_not_cleaned_witness :
  exists w, rtc (@locked_step demo_runtime) Demo.rest w /\ procs w !! 0%nat = Some (Build "j1" "t1" true Demo.b [("n1", "10.0.0.1")] (BFinalize "/path")) /\
    live "art" (tabs w).
Proof.
  set (w := @run demo_runtime ([(1%nat, Demo.fine)] ++ Demo.repeat_step 0 5 Demo.fine ++ Demo.repeat_step 1 3 Demo.fine) Demo.start_both).
  assert (Hs : rtc (@locked_step demo_runtime) Demo.rest w).
  { eapply rtc_l; [split; [apply (@step_start demo_runtime Demo.rest 1%nat Demo.collect); [done|]|]|].
    - split; [by split; vm_compute|done].
    - intros k m ? ? ? ? ? ? ? ? ? H1 _ _ _. unfold set_proc in H1; cbn in H1. by apply lookup_insert_Some in H1 as [[_ ?]|[_ ?]].
    - pose proof Demo.both_apart as Hb. eapply rtc_l; [split; [apply (@step_start demo_runtime Demo.start_cleanup 0%nat Demo.build); [done|]|]|by apply (@run_steps demo_runtime)].
      + split; [by left|]. split; [exists Demo.job; split; [constructor|done]|].
        intros k ? ? ? ? ? ?. unfold Demo.start_cleanup, set_proc. cbn. intros Hl. by apply lookup_insert_Some in Hl as [[_ ?]|[_ ?]].
      + repeat intro. by eapply Hb. }
  assert (Hp : procs w !! 0%nat = Some (Build "j1" "t1" true Demo.b [("n1", "10.0.0.1")] (BFinalize "/path"))) by by vm_compute.
  exists w. split; [exact Hs|]. split; [exact Hp|].
  refine (claimed_build_not_cleaned Demo.rest w 0 "j1" "t1" Demo.b [("n1", "10.0.0.1")] (BFinalize "/path") _ _ Hs Hp _).
  - by apply map_Forall_singleton.
  - done.
  - done.
Defined.

(** *** Where builds and cleanups meet *)

(** Another master deletes the template: its guard found no active job, its clean-up of
    the artifact, which leaves out the references of this template, runs while the build
    of a new job, which has found the artifact ready, is about to copy it to the nodes.
    The row and the file are gone. *)
Theorem replicated_master_cleans_build :
  let own := Cleanup "art" "t1" CPhase1 in
  let w := @run demo_runtime (Demo.repeat_step 0 3 Demo.fine ++ Demo.repeat_step 1 4 Demo.fine) (set_proc 0 Demo.build (set_proc 1 own Demo.rest)) in
  procs w !! 0%nat = Some (Build "j1" "t1" true Demo.b [("n1", "10.0.0.1")] (BDistribute [("n1", "10.0.0.1")])) /\
  artifacts (tabs w) !! "art" = None /\ bool_decide ("art" ∈ local_files w) = false.
Proof. vm_compute. done. Qed.

(** The nodes are visited without a lock.  The cleanup has marked the artifact; a build
    then claims it, writes it and copies it to the node; the cleanup goes on and removes
    the copy.  The artifact is ready, its replica distributed, and the node has no copy. *)
Theorem cleanup_destroys_new_copy :
  let w := @run demo_runtime ([(1%nat, Demo.fine)] ++ Demo.repeat_step 0 8 Demo.fine ++ Demo.repeat_step 1 3 Demo.fine) Demo.start_both in
  procs w !! 0%nat = Some (Build "j1" "t1" true Demo.b [("n1", "10.0.0.1")] (BEnd true)) /\
  procs w !! 1%nat = Some (Cleanup "art" "" CEnd) /\
  (af_Status <$> artifacts (tabs w) !! "art") = Some ArtifactStatusReady /\
  (t_Phase <$> replicas (tabs w) !! ("t1", "n1")) = Some ReplicaPhaseDistributed /\
  bool_decide (("art", "n1") ∈ node_files w) = false.
Proof. vm_compute. done. Qed.

(** The last phase removes the master's file before its statements.  When one of these
    fails the row stays; a cleanup that then finds a job of the artifact makes the row
    ready again, and the job's build reuses it: it copies a file that is not there. *)
Theorem ready_without_file :
  let w := @run demo_runtime ([(1%nat, Demo.fine)] ++ Demo.repeat_step 1 2 Demo.fine ++ [(1%nat, Demo.failing); (0%nat, Demo.fine)]) Demo.start_both in
  let w := @run demo_runtime ([(2%nat, Demo.fine)] ++ Demo.repeat_step 0 2 Demo.fine) (set_proc 2 Demo.collect w) in
  procs w !! 0%nat = Some (Build "j1" "t1" true Demo.b [("n1", "10.0.0.1")] (BDistribute [("n1", "10.0.0.1")])) /\
  (af_Status <$> artifacts (tabs w) !! "art") = Some ArtifactStatusReady /\
  bool_decide ("art" ∈ local_files w) = false.
Proof. vm_compute. done. Qed.

(** A redo whose image has changed computes another artifact than the one its job names
    and builds it while no job names it.  Here the row of that artifact is an old one
    whose deadline has passed: the garbage collector gives it up and deletes it while
    the build writes the file, which is removed as well; the build fails. *)
Theorem redone_build_cleaned :
  let redo := Build "j1" "t1" false Demo.b [("n1", "10.0.0.1")] BFind in
  let w := set_proc 0 redo (MkWorld (set_artifacts {[ "art" := with_af_status ArtifactStatusFailed Demo.row ]} Demo.used) {[ "art" ]} {[ ("art", "n1") ]} ∅) in
  let built := @run demo_runtime (Demo.repeat_step 0 4 Demo.fine) w in
  let cleaned := @run demo_runtime (Demo.repeat_step 1 4 Demo.fine) (set_proc 1 Demo.collect built) in
  let failed := @run demo_runtime (Demo.repeat_step 0 2 Demo.fine) cleaned in
  procs built !! 0%nat = Some (Build "j1" "t1" false Demo.b [("n1", "10.0.0.1")] (BFinalize "/path")) /\
  (af_Status <$> artifacts (tabs built) !! "art") = Some ArtifactStatusBuilding /\
  existsb (gc_candidate (63000000000 * second)) (map_to_list (artifacts (tabs built))).*2 = true /\
  artifacts (tabs cleaned) !! "art" = None /\ bool_decide ("art" ∈ local_files cleaned) = false /\
  procs failed !! 0%nat = Some (Build "j1" "t1" false Demo.b [("n1", "10.0.0.1")] (BEnd false)).
Proof. vm_compute. done. Qed.

(** A redo removes the file of the artifact its failed job names although another
    template uses the artifact: here the other build has found the artifact ready and is
    about to copy the file, when the file goes and the row is marked as failed. *)
Theorem redo_removes_shared_file :
  let w := @run demo_runtime (Demo.repeat_step 0 3 Demo.fine) (set_proc 0 Demo.build Demo.rest) in
  let w1 := redo_file "art" w in
  let w' := set_tabs (redo_row None "art" (tabs w1)) w1 in
  procs w' !! 0%nat = Some (Build "j1" "t1" true Demo.b [("n1", "10.0.0.1")] (BDistribute [("n1", "10.0.0.1")])) /\
  (af_Status <$> artifacts (tabs w) !! "art") = Some ArtifactStatusReady /\ bool_decide ("art" ∈ local_files w) = true /\
  (af_Status <$> artifacts (tabs w') !! "art") = Some ArtifactStatusFailed /\ bool_decide ("art" ∈ local_files w') = false.
Proof. vm_compute. done. Qed.
