(* ===== verification/TcDelete.v ===== *)
(** * Deleting templates (CubeMaster/pkg/templatecenter/delete.go, distribution.go)

    A deletion collects what is known of the template, refuses while the template is
    built or used, removes the copies on the nodes, gives up the artifacts nobody else
    uses, and deletes the rows.  It holds a lock of its template; what runs at the same
    time for other templates is in [TcArtifact]. *)
From S2P Require Import Prelude GoStrings TcRefs TcStore TcArtifact.
From Stdlib Require Import Ascii.

Open Scope string_scope.
Open Scope Z_scope.

(** ** What is known of a template *)

Definition ErrTemplateInUse : string := "template is still in use".
Definition ErrTemplateCleanupLocatorMissing : string := "template cleanup locator is missing".
Definition InstanceType_cubebox : string := "cubebox".

Record templateCleanupLocator : Type := MkLocator { l_NodeID : string; l_NodeIP : string }.

Definition cleanupLocatorKey (l : templateCleanupLocator) : string := Join [TrimSpace (l_NodeID l); TrimSpace (l_NodeIP l)] "|".

Record templateCleanupTargets : Type := MkTargets {
  g_Definition : option TemplateDefinition; g_Replicas : list TemplateReplica; g_Jobs : list TemplateImageJob;
  g_Locators : list templateCleanupLocator; g_ArtifactIDs : gset string; g_InstanceType : string;
}.

Definition addLocator (ls : list templateCleanupLocator) (l : templateCleanupLocator) : list templateCleanupLocator :=
  if (TrimSpace (l_NodeID l) =s "") && (TrimSpace (l_NodeIP l) =s "") then ls
  else if existsb (fun x => cleanupLocatorKey x =s cleanupLocatorKey l) ls then ls else (ls ++ [l])%list.

Definition replica_locator (r : TemplateReplica) : templateCleanupLocator := MkLocator (t_NodeID r) (t_NodeIP r).
Definition job_locator (j : TemplateImageJob) : templateCleanupLocator := MkLocator (j_NodeID (j_state j)) (j_NodeIP (j_state j)).

Definition artifact_ids (rs : list TemplateReplica) (js : list TemplateImageJob) : gset string :=
  list_to_set (filter (fun a => a <> "") ((t_ArtifactID <$> rs) ++ ((fun j => j_ArtifactID (j_state j)) <$> js)))%list.

(** The instance type given, else that of the definition, of a job, or the default. *)
Definition target_instance (instanceType : string) (d : option TemplateDefinition) (js : list TemplateImageJob) : string :=
  let it := if instanceType =s "" then from_option d_InstanceType "" d else instanceType in
  let it := if it =s "" then default "" (head (filter (fun x => x <> "") (j_InstanceType <$> js))) else it in
  if it =s "" then InstanceType_cubebox else it.

(** [io]: the error of one of the queries. *)
Definition discoverTemplateCleanupTargets (io : option string) (templateID instanceType : string) (t : tables) : res templateCleanupTargets :=
  match io with
  | Some e => Err e
  | None =>
      let d := defs t !! templateID in
      let rs := ListReplicas templateID t in
      let js := listTemplateImageJobsByTemplateID templateID t in
      Ok (MkTargets d rs js (foldl addLocator [] ((replica_locator <$> rs) ++ (job_locator <$> js))%list) (artifact_ids rs js)
            (target_instance instanceType d js))
  end.

Definition hasCleanupState (g : templateCleanupTargets) : bool :=
  bool_decide (is_Some (g_Definition g)) || bool_decide (g_Replicas g <> []) || bool_decide (g_Jobs g <> []).

Definition job_is_active (j : TemplateImageJob) : bool :=
  EqualFold (j_Status (j_state j)) JobStatusPending || EqualFold (j_Status (j_state j)) JobStatusRunning.
Definition hasActiveJob (g : templateCleanupTargets) : bool := existsb job_is_active (g_Jobs g).

Definition hasActiveDefinitionBuild (g : templateCleanupTargets) : bool :=
  match g_Definition g with
  | None => false
  | Some d => EqualFold (d_Status d) StatusPending || EqualFold (d_Status d) StatusCreating
  end.

Definition requiresCleanupLocator (g : templateCleanupTargets) : bool :=
  if bool_decide (g_Locators g <> []) || bool_decide (is_Some (g_Definition g)) || bool_decide (g_Replicas g <> [])
     || bool_decide (g_ArtifactIDs g <> ∅)
  then false
  else existsb (fun j => (TrimSpace (j_NodeID (j_state j)) <>s "") || (TrimSpace (j_NodeIP (j_state j)) <>s "")) (g_Jobs g).

Definition shouldCheckInUse (g : templateCleanupTargets) : bool :=
  match g_Definition g with None => false | Some d => negb (EqualFold (d_Status d) StatusFailed) end.

(** *** Sandboxes of the template *)

(** A sandbox in a list: its template and the label of its template. *)
Record listed_sandbox : Type := MkListed { ls_TemplateID : string; ls_Label : string }.
Inductive list_answer : Type := NoAnswer | ListAnswer (code : Z) (msg : string) (data : list (option listed_sandbox)).

Definition isTemplateInUse (nodeCount : Z) (answer : list_answer) (templateID : string) : res bool :=
  if nodeCount =? 0 then Ok false
  else match answer with
       | NoAnswer => Err "list sandbox returned empty response"
       | ListAnswer code msg data =>
           if code =? code_success
           then Ok (existsb (fun x => match x with
                                      | Some s => (ls_TemplateID s =s templateID) || (ls_Label s =s templateID)
                                      | None => false
                                      end) data)
           else Err ("list sandbox failed: " +:+ msg)
       end.

(** ** Removing the copies on the nodes *)

Section Nodes.
Context `{!GoRuntime}.

Definition isIgnorableTemplateCleanupMessage (m : string) : bool :=
  let m := ToLower (TrimSpace m) in
  if m =s "" then false
  else if Contains m "no such file" then true
  else (Contains m "not found" || Contains m "not exist" || Contains m "does not exist")
       && (Contains m "snapshot" || Contains m "template" || Contains m "path" || Contains m "directory" || Contains m "file").

(** The address to call; [host] is the node cache. *)
Definition locator_host (host : string -> option string) (l : templateCleanupLocator) : string :=
  if (l_NodeIP l =s "") && (l_NodeID l <>s "") then default "" (host (l_NodeID l)) else l_NodeIP l.

Definition cleanup_answer (templateID : string) (l : templateCleanupLocator) (answer : rpc) : option string :=
  match answer with
  | RpcError e =>
      if isIgnorableTemplateCleanupMessage e then None
      else Some ("cleanup template " +:+ templateID +:+ " on node " +:+ l_NodeID l +:+ ": " +:+ e)
  | RpcRet None => None
  | RpcRet (Some (code, msg)) =>
      if code =? code_success then None
      else if isIgnorableTemplateCleanupMessage msg then None
      else Some ("cleanup template " +:+ templateID +:+ " on node " +:+ l_NodeID l +:+ " failed: " +:+ msg)
  end.

(** The addresses called and the errors, in order; one error does not stop the loop. *)
Fixpoint cleanup_locators (host : string -> option string) (answer : templateCleanupLocator -> rpc) (templateID : string)
    (ls : list templateCleanupLocator) : list string * list string :=
  match ls with
  | [] => ([], [])
  | l :: ls =>
      let '(calls, errs) := cleanup_locators host answer templateID ls in
      let ip := locator_host host l in
      if ip =s ""
      then (calls, ("cleanup template " +:+ templateID +:+ ": missing node address for locator node=" +:+ l_NodeID l) :: errs)
      else (ip :: calls, match cleanup_answer templateID l (answer l) with Some e => e :: errs | None => errs end)
  end.

(** [errors.Join]. *)
Definition join_errors (errs : list string) : res unit := match errs with [] => Ok tt | _ => Err (Join errs (String "010"%char "")) end.

Definition cleanupTemplateReplicasWithLocators (host : string -> option string) (answer : templateCleanupLocator -> rpc) (templateID : string)
    (ls : list templateCleanupLocator) : list string * res unit :=
  let '(calls, errs) := cleanup_locators host answer templateID ls in (calls, join_errors errs).

(** ** Giving up the artifacts *)

(** The error of a step of a cleanup: only errors of the database are returned. *)
Definition cleanup_error (e : env) (id exclude : string) (pc : cpc) (w : world) : option string :=
  match pc with
  | CPhase1 => match (cleanup_phase1 (e_io e) id exclude (e_now e) (tabs w)).2 with Err m => Some m | Ok _ => None end
  | CPhase3 => match (cleanup_phase3 (e_io e) (e_removal e) id exclude (tabs w)).2 with Err m => Some m | Ok _ => None end
  | _ => None
  end.

(** The steps of one cleanup without others in between; [envs n] is the environment of
    its n-th step. *)
Fixpoint cleanup_loop (fuel : nat) (envs : nat -> env) (n : nat) (id exclude : string) (pc : cpc) (w : world) : world * res unit :=
  match fuel with
  | O => (w, Ok tt)
  | S fuel =>
      let '(pc', w') := cleanup_step (envs n) id exclude pc w in
      match cleanup_error (envs n) id exclude pc w with
      | Some m => (w', Err m)
      | None => cleanup_loop fuel envs (S n) id exclude pc' w'
      end
  end.

(** Phases 1 and 3, a visit of each placement and the step that ends phase 2. *)
Definition cleanup_fuel (w : world) : nat := 4 + size (placements (tabs w)).

Definition cleanup_artifact (envs : nat -> env) (artifactID exclude : string) (w : world) : world * res unit :=
  match cleanupArtifactFully artifactID exclude with
  | Some (Cleanup id exclude pc) => cleanup_loop (cleanup_fuel w) envs 0 id exclude pc w
  | _ => (w, Ok tt)
  end.

Fixpoint cleanup_artifacts (envs : string -> nat -> env) (templateID : string) (ids : list string) (w : world) : world * list string :=
  match ids with
  | [] => (w, [])
  | id :: ids =>
      let '(w, r) := cleanup_artifact (envs id) id templateID w in
      let '(w, errs) := cleanup_artifacts envs templateID ids w in
      (w, match r with Err m => m :: errs | Ok _ => errs end)
  end.

Definition cleanupTemplateArtifact (envs : string -> nat -> env) (templateID : string) (g : templateCleanupTargets) (w : world) : world * res unit :=
  let '(w, errs) := cleanup_artifacts envs templateID (merge_sort String.le (filter (fun a => TrimSpace a <> "") (elements (g_ArtifactIDs g)))) w in
  (w, join_errors errs).

(** ** The deletion *)

(** Both statements run whatever the first one answers. *)
Definition metadata_cleanup (io1 io2 : option string) (templateID : string) (t : tables) : tables * res unit :=
  let t := match io1 with Some _ => t | None => deleteReplicasByTemplateID templateID t end in
  let t := match io2 with Some _ => t | None => set_defs (delete templateID (defs t)) t end in
  (t, join_errors (option_list io1 ++ option_list io2)%list).

Record denv : Type := MkDEnv {
  v_query : option string; v_nodes : Z; v_list : list_answer; v_host : string -> option string; v_answer : templateCleanupLocator -> rpc;
  v_cleanup : string -> nat -> env; v_replicas : option string; v_defs : option string; v_jobs : option string;
}.

Definition deleteTemplateWithTargets (e : denv) (templateID : string) (g : templateCleanupTargets) (w : world) : world * res unit :=
  let busy what := ErrTemplateAttemptInProgress +:+ ": template " +:+ templateID +:+ " deletion is blocked while " +:+ what +:+ " is still active" in
  if negb (hasCleanupState g) then (w, Err ErrTemplateNotFound)
  else if hasActiveJob g then (w, Err (busy "a build job"))
  else if hasActiveDefinitionBuild g then (w, Err (busy "definition creation"))
  else if requiresCleanupLocator g
  then (w, Err (ErrTemplateCleanupLocatorMissing +:+ ": template " +:+ templateID +:+ " has historical cleanup state but no node locator"))
  else
    match (if shouldCheckInUse g then isTemplateInUse (v_nodes e) (v_list e) templateID else Ok false) with
    | Err m => (w, Err m)
    | Ok true => (w, Err ErrTemplateInUse)
    | Ok false =>
        match (cleanupTemplateReplicasWithLocators (v_host e) (v_answer e) templateID (g_Locators g)).2 with
        | Err m => (w, Err m)
        | Ok _ =>
            match cleanupTemplateArtifact (v_cleanup e) templateID g w with
            | (w, Err m) => (w, Err m)
            | (w, Ok _) =>
                match metadata_cleanup (v_replicas e) (v_defs e) templateID (tabs w) with
                | (t, Err m) => (set_tabs t w, Err m)
                | (t, Ok _) =>
                    match v_jobs e with
                    | Some m => (set_tabs t w, Err m)
                    | None => (set_tabs (cleanupTemplateJobs templateID t) w, Ok tt)
                    end
                end
            end
        end
    end.

Definition DeleteTemplate (ready : bool) (e : denv) (templateID instanceType : string) (w : world) : world * res unit :=
  if negb ready then (w, Err ErrTemplateStoreNotInitialized)
  else match discoverTemplateCleanupTargets (v_query e) templateID instanceType (tabs w) with
       | Err m => (w, Err m)
       | Ok g => deleteTemplateWithTargets e templateID g w
       end.

End Nodes.

(** ** What a deletion leaves alone *)

(** Replicas are kept under their template and node. *)
Definition rkeyed (t : tables) : Prop := map_Forall (fun k r => t_TemplateID r = k.1) (replicas t).

(** Another template than [tid] uses the artifact. *)
Definition used (x tid : string) (t : tables) : Prop :=
  (exists k r, replicas t !! k = Some r /\ k.1 <> tid /\ t_ArtifactID r = x) \/
  (exists j, j ∈ jobs t /\ j_TemplateID j <> tid /\ j_active j = true /\ j_ArtifactID (j_state j) = x) \/
  (exists k d, defs t !! k = Some d /\ d_TemplateID d <> tid /\ d_RootfsArtifactID d = x).

(** The artifact's row stays if there is one, and its files stay. *)
Definition artifact_kept (x : string) (w w' : world) : Prop :=
  (is_Some (artifacts (tabs w) !! x) -> is_Some (artifacts (tabs w') !! x)) /\ (x ∈ local_files w -> x ∈ local_files w') /\
  forall n, (x, n) ∈ node_files w -> (x, n) ∈ node_files w'.

(** The rows of definitions, jobs and replicas of other templates are the same. *)
Record rows_kept (tid : string) (t t' : tables) : Prop := {
  rk_defs : defs t' = defs t;
  rk_jobs : jobs t' = jobs t;
  rk_replicas : forall k, k.1 <> tid -> replicas t' !! k = replicas t !! k;
  rk_keyed : rkeyed t -> rkeyed t';
}.

Lemma rows_refl tid t : rows_kept tid t t.
Proof. by constructor. Qed.

Lemma rows_trans tid t1 t2 t3 : rows_kept tid t1 t2 -> rows_kept tid t2 t3 -> rows_kept tid t1 t3.
Proof.
  intros [D1 J1 R1 K1] [D2 J2 R2 K2]. constructor; [congruence|congruence| |auto]. intros k Hk. rewrite R2 by done. auto.
Qed.

Lemma kept_refl x w : artifact_kept x w w.
Proof. unfold artifact_kept. auto. Qed.

Lemma kept_trans x w1 w2 w3 : artifact_kept x w1 w2 -> artifact_kept x w2 w3 -> artifact_kept x w1 w3.
Proof. unfold artifact_kept. naive_solver. Qed.

Lemma used_rows x tid t t' : rows_kept tid t t' -> used x tid t -> used x tid t'.
Proof.
  intros [Hd Hj Hr _] [(k & r & Hk & Hne & Ha)|H]; [left; exists k, r; by rewrite Hr|right]. unfold used. by rewrite Hd, Hj.
Qed.

Lemma filter_nonempty {A} (P : A -> Prop) `{!forall x, Decision (P x)} l x : x ∈ l -> P x -> (0 < length (filter P l))%nat.
Proof.
  intros Hx HP. assert (Hf : x ∈ filter P l) by by apply list_elem_of_filter. destruct (filter P l); [by apply not_elem_of_nil in Hf|cbn; lia].
Qed.

Lemma values_elem {K A} `{Countable K} (m : gmap K A) k x : m !! k = Some x -> x ∈ (map_to_list m).*2.
Proof. intros Hk. apply list_elem_of_fmap. exists (k, x). split; [done|]. by apply elem_of_map_to_list. Qed.

(** A used artifact is counted. *)
Lemma used_count x tid t : trimmed x -> trimmed tid -> rkeyed t -> used x tid t ->
  match countArtifactReferencesTx x tid t with Ok n => 0 < n | Err _ => True end.
Proof.
  intros [Hx Hxe] [Ht Hte] Hk Hu. unfold countArtifactReferencesTx. rewrite Hx, Ht, bool_decide_false by done.
  destruct (ContainsAny x "%_"); [done|].
  assert (Hex : forall y, y <> tid -> excluded tid y = false).
  { intros y Hy. unfold excluded. rewrite (bool_decide_false (y = tid)) by done. apply andb_false_r. }
  destruct Hu as [(k & r & Hl & Hne & Ha)|[(j & Hj & Hne & Hact & Ha)|(k & d & Hl & Hne & Ha)]].
  - assert (H : (0 < length (replica_refs x tid t))%nat); [|lia].
    apply (filter_nonempty _ _ r); [by eapply values_elem|]. split; [done|]. apply Hex. by rewrite (Hk _ _ Hl).
  - assert (H : (0 < length (job_refs x tid t))%nat); [|lia].
    apply (filter_nonempty _ _ j); [done|]. split_and!; auto.
  - assert (H : (0 < length (def_refs x tid t))%nat); [|lia].
    apply (filter_nonempty _ _ d); [by eapply values_elem|]. split; auto.
Qed.

(** *** One cleanup *)

Section Frame.
Context {rt : GoRuntime}.

Definition dropped (tid id : string) (t : tables) : tables :=
  set_replicas (filter (fun kr => ~ (t_TemplateID kr.2 = tid /\ t_ArtifactID kr.2 = id)) (replicas t)) t.

Lemma dropped_rows tid id t : rkeyed t -> rows_kept tid t (dropped tid id t).
Proof.
  intros Hk. constructor; try done; cbn.
  - intros k Hne. destruct (replicas t !! k) as [r|] eqn:Er.
    + apply map_lookup_filter_Some. split; [done|]. cbn. intros [E _]. apply Hne. by rewrite <- (Hk _ _ Er).
    + apply map_lookup_filter_None. by left.
  - intros _ k r Hr. apply map_lookup_filter_Some in Hr as [Hr _]. by apply Hk.
Qed.

Lemma phase1_rows io id tid now t : rkeyed t -> rows_kept tid t (cleanup_phase1 io id tid now t).1.
Proof.
  intros Hk. unfold cleanup_phase1. destruct io; [apply rows_refl|]. destruct (getRootfsArtifactByID id t) as [a|]; [|apply rows_refl].
  destruct (countArtifactReferencesTx _ _ _) as [n|]; [|apply rows_refl].
  assert (H : rows_kept tid t (if tid <>s "" then dropped tid id t else t)) by (destruct (negb _); [by apply dropped_rows|apply rows_refl]).
  unfold dropped in H. destruct (0 <? n); cbn; (eapply rows_trans; [exact H|by constructor]).
Qed.

Lemma phase3_rows io removal id tid t : rows_kept tid t (cleanup_phase3 io removal id tid t).1.1.
Proof.
  unfold cleanup_phase3. destruct (getRootfsArtifactByID id t) as [a|]; [|apply rows_refl].
  destruct (countArtifactReferencesTx _ _ _) as [n|]; [|apply rows_refl].
  destruct (cleanupMasterLocalArtifactForFinalDelete _ _ _) as [[]|]; [|apply rows_refl..].
  destruct io; [apply rows_refl|]. cbn. unfold deleteArtifactNodePlacementsTx. by destruct (_ =s _).
Qed.

Lemma cleanup_step_rows e id tid pc w pc' w' : cleanup_step e id tid pc w = (pc', w') -> rkeyed (tabs w) -> rows_kept tid (tabs w) (tabs w').
Proof.
  intros Hc Hk. destruct pc as [|[|p rest] ok| |]; cbn in Hc.
  - pose proof (phase1_rows (e_io e) id tid (e_now e) (tabs w) Hk) as H.
    destruct (cleanup_phase1 _ _ _ _ _) as [t' [[ns|]|m]]; by injection Hc as _ <-.
  - injection Hc as _ <-. apply rows_refl.
  - destruct (placementToNode _ _) as [[node ip]|]; [|injection Hc as _ <-; apply rows_refl].
    destruct (destroyArtifactOnNode _ _ _); injection Hc as _ <-; try apply rows_refl. destruct (e_gone e); apply rows_refl.
  - pose proof (phase3_rows (e_io e) (e_removal e) id tid (tabs w)) as H.
    destruct (cleanup_phase3 _ _ _ _ _) as [[t' removed] r]. by injection Hc as _ <-.
  - injection Hc as _ <-. apply rows_refl.
Qed.

(** A cleanup of [id] keeps every other artifact. *)
Lemma cleanup_step_other e id tid pc w pc' w' x : cleanup_step e id tid pc w = (pc', w') -> x <> id -> artifact_kept x w w'.
Proof.
  intros Hc Hne. unfold artifact_kept. destruct pc as [|[|p rest] ok| |]; cbn in Hc.
  - destruct (phase1_cases (e_io e) id tid (e_now e) (tabs w)) as [E|(a & row & t1 & _ & _ & E & _)];
      destruct (cleanup_phase1 _ _ _ _ _) as [t' [[ns|]|m]]; injection Hc as _ <-; cbn in *; rewrite E; try done; by rewrite lookup_insert_ne.
  - by injection Hc as _ <-.
  - destruct (placementToNode _ _) as [[node ip]|]; [|by injection Hc as _ <-].
    destruct (destroyArtifactOnNode _ _ _); injection Hc as _ <-; cbn; try done; [|destruct (e_gone e); cbn; [|done]];
      (split; [done|]); (split; [done|]); intros n Hn; apply elem_of_difference; (split; [done|]);
      rewrite elem_of_singleton; congruence.
  - pose proof (phase3_cases (e_io e) (e_removal e) id tid (tabs w)) as [_ H].
    destruct (cleanup_phase3 _ _ _ _ _) as [[t' removed] r]. injection Hc as _ <-. cbn in *. split_and!; [|destruct removed; set_solver|done].
    destruct H as [->|(-> & _)]; [done|]. by rewrite lookup_delete_ne.
  - by injection Hc as _ <-.
Qed.

(** The first phase of a cleanup of an artifact in use is the last. *)
Lemma cleanup_step_used e x tid w pc' w' : cleanup_step e x tid CPhase1 w = (pc', w') -> trimmed x -> trimmed tid -> rkeyed (tabs w) ->
  used x tid (tabs w) -> pc' = CEnd /\ artifact_kept x w w'.
Proof.
  intros Hc Hx Ht Hk Hu. revert Hc. cbn. unfold cleanup_phase1. destruct (e_io e); [injection 1 as <- <-; by split; [|destruct w]|].
  destruct (getRootfsArtifactByID x (tabs w)) as [a|] eqn:Ea; [|injection 1 as <- <-; by split; [|destruct w]].
  assert (H : rows_kept tid (tabs w) (if tid <>s "" then dropped tid x (tabs w) else tabs w)) by (destruct (negb _); [by apply dropped_rows|apply rows_refl]).
  unfold dropped in H. pose proof (used_count x tid _ Hx Ht (rk_keyed _ _ _ H Hk) (used_rows _ _ _ _ H Hu)) as Hn.
  destruct (countArtifactReferencesTx _ _ _) as [n|]; [|injection 1 as <- <-; by split; [|destruct w]].
  apply Z.ltb_lt in Hn as ->. injection 1 as <- <-. split; [done|]. unfold artifact_kept. cbn. by rewrite lookup_insert_eq.
Qed.

Lemma cleanup_loop_end fuel envs n id tid w : cleanup_loop fuel envs n id tid CEnd w = (w, Ok tt).
Proof. revert n. induction fuel as [|fuel IH]; intros n; cbn; [done|apply IH]. Qed.

Lemma cleanup_loop_rows fuel envs n id tid pc w w' r : cleanup_loop fuel envs n id tid pc w = (w', r) -> rkeyed (tabs w) -> rows_kept tid (tabs w) (tabs w').
Proof.
  revert n pc w. induction fuel as [|fuel IH]; intros n pc w; cbn; [intros [= <- _]; intros _; apply rows_refl|].
  destruct (cleanup_step (envs n) id tid pc w) as [pc1 w1] eqn:Es. intros Hl Hk. pose proof (cleanup_step_rows _ _ _ _ _ _ _ Es Hk) as H1.
  destruct (cleanup_error _ _ _ _ _); [by injection Hl as <- _|]. eapply rows_trans; [exact H1|]. eapply IH; [exact Hl|]. by apply (rk_keyed _ _ _ H1).
Qed.

Lemma cleanup_loop_other fuel envs n id tid pc w w' r x : cleanup_loop fuel envs n id tid pc w = (w', r) -> x <> id -> artifact_kept x w w'.
Proof.
  intros Hl Hne. revert n pc w Hl. induction fuel as [|fuel IH]; intros n pc w; cbn; [intros [= <- _]; apply kept_refl|].
  destruct (cleanup_step (envs n) id tid pc w) as [pc1 w1] eqn:Es. intros Hl. pose proof (cleanup_step_other _ _ _ _ _ _ _ x Es Hne) as H1.
  destruct (cleanup_error _ _ _ _ _); [by injection Hl as <- _|]. eapply kept_trans; [exact H1|]. by eapply IH.
Qed.

Lemma cleanup_artifact_frame envs a tid w w' r : cleanup_artifact envs a tid w = (w', r) -> trimmed tid -> rkeyed (tabs w) ->
  rows_kept tid (tabs w) (tabs w') /\ forall x, used x tid (tabs w) -> artifact_kept x w w'.
Proof.
  unfold cleanup_artifact, cleanupArtifactFully. destruct (bool_decide_reflect (TrimSpace a = "")) as [|Hne]; [intros [= <- _]; intros; split; [apply rows_refl|intros; apply kept_refl]|].
  intros Hl Ht Hk. split; [by eapply cleanup_loop_rows|]. intros x Hu.
  destruct (decide (x = TrimSpace a)) as [E|]; [|by eapply cleanup_loop_other].
  assert (Hx : trimmed x) by (subst x; split; [apply TrimSpace_idem|done]). rewrite <- E in Hl. clear E.
  revert Hl. unfold cleanup_fuel. cbn [cleanup_loop Nat.add]. destruct (cleanup_step (envs 0%nat) x tid CPhase1 w) as [pc1 w1] eqn:Es.
  destruct (cleanup_step_used _ _ _ _ _ _ Es Hx Ht Hk Hu) as [-> H1]. destruct (cleanup_error _ _ _ _ _); [by intros [= <- _]|].
  cbn [cleanup_step]. cbn. rewrite cleanup_loop_end. by intros [= <- _].
Qed.

Lemma cleanup_artifacts_frame envs tid ids w w' errs : cleanup_artifacts envs tid ids w = (w', errs) -> trimmed tid -> rkeyed (tabs w) ->
  rows_kept tid (tabs w) (tabs w') /\ forall x, used x tid (tabs w) -> artifact_kept x w w'.
Proof.
  revert w errs. induction ids as [|a ids IH]; intros w errs; cbn; [intros [= <- _]; intros; split; [apply rows_refl|intros; apply kept_refl]|].
  destruct (cleanup_artifact (envs a) a tid w) as [w1 r1] eqn:E1. destruct (cleanup_artifacts envs tid ids w1) as [w2 es] eqn:E2.
  intros [= <- _] Ht Hk. destruct (cleanup_artifact_frame _ _ _ _ _ _ E1 Ht Hk) as [R1 K1].
  destruct (IH _ _ E2 Ht (rk_keyed _ _ _ R1 Hk)) as [R2 K2]. split; [by eapply rows_trans|].
  intros x Hu. eapply kept_trans; [by apply K1|]. apply K2. by eapply used_rows.
Qed.

(** *** The fuel of a cleanup is enough *)

Definition steps_left (pc : cpc) (w : world) : nat :=
  match pc with CPhase1 => 3 + size (placements (tabs w)) | CPhase2 ns _ => 2 + length ns | CPhase3 => 1 | CEnd => 0 end.

Lemma placements_listed id t : (length (listArtifactNodePlacementsTx id t) <= size (placements t))%nat.
Proof.
  unfold listArtifactNodePlacementsTx. destruct (_ =s _); cbn; [lia|]. etransitivity; [apply length_filter|].
  by rewrite length_fmap, length_map_to_list.
Qed.

Lemma cleanup_step_left e id tid pc w pc' w' : cleanup_step e id tid pc w = (pc', w') -> pc = CEnd \/ (steps_left pc' w' < steps_left pc w)%nat.
Proof.
  destruct pc as [|[|p rest] ok| |]; cbn; [| | | |by left].
  - unfold cleanup_phase1. destruct (e_io e); [intros [= <- _]; right; cbn; lia|].
    destruct (getRootfsArtifactByID id (tabs w)); [|intros [= <- _]; right; cbn; lia].
    destruct (countArtifactReferencesTx _ _ _) as [n|]; [|intros [= <- _]; right; cbn; lia].
    destruct (0 <? n); intros [= <- _]; right; cbn; [lia|].
    match goal with |- context [listArtifactNodePlacementsTx id ?t1] => pose proof (placements_listed id t1) as Hp end.
    destruct (negb _); cbn in *; lia.
  - destruct ok; intros [= <- _]; right; cbn; lia.
  - destruct (placementToNode _ _) as [[node ip]|]; [|intros [= <- _]; right; cbn; lia].
    destruct (destroyArtifactOnNode _ _ _); intros [= <- _]; right; cbn; lia.
  - destruct (cleanup_phase3 _ _ _ _ _) as [[t' removed] r]. intros [= <- _]. right. cbn. lia.
Qed.

Lemma cleanup_loop_enough fuel more envs n id tid pc w : (steps_left pc w <= fuel)%nat ->
  cleanup_loop (fuel + more) envs n id tid pc w = cleanup_loop fuel envs n id tid pc w.
Proof.
  revert n pc w. induction fuel as [|fuel IH]; intros n pc w Hf.
  - destruct pc; cbn in Hf; try lia. by rewrite !cleanup_loop_end.
  - cbn. destruct (cleanup_step (envs n) id tid pc w) as [pc1 w1] eqn:Es. destruct (cleanup_error _ _ _ _ _); [done|].
    destruct (cleanup_step_left _ _ _ _ _ _ _ Es) as [->|Hl]; [cbn in Es; injection Es as <- <-; by rewrite !cleanup_loop_end|].
    apply IH. lia.
Qed.

Lemma cleanup_fuel_enough more envs n id tid w :
  cleanup_loop (cleanup_fuel w + more) envs n id tid CPhase1 w = cleanup_loop (cleanup_fuel w) envs n id tid CPhase1 w.
Proof. apply cleanup_loop_enough. unfold cleanup_fuel. cbn. lia. Qed.

(** *** The deletion *)

Lemma delete_replicas_lookup tid t k : replicas (deleteReplicasByTemplateID tid t) !! k = if decide (k.1 = tid) then None else replicas t !! k.
Proof.
  cbn. destruct (decide (k.1 = tid)) as [E|Hne].
  - apply map_lookup_filter_None. right. intros r _ H. by apply H.
  - destruct (replicas t !! k) as [r|] eqn:Er; [by apply map_lookup_filter_Some|]. apply map_lookup_filter_None. by left.
Qed.

Lemma metadata_cleanup_rows io1 io2 tid t t' r : metadata_cleanup io1 io2 tid t = (t', r) ->
  jobs t' = jobs t /\ artifacts t' = artifacts t /\ (forall k, k <> tid -> defs t' !! k = defs t !! k) /\
  (forall k, k.1 <> tid -> replicas t' !! k = replicas t !! k) /\
  (r = Ok tt -> defs t' !! tid = None /\ forall k, k.1 = tid -> replicas t' !! k = None).
Proof.
  unfold metadata_cleanup. intros [= <- <-]. destruct io1, io2; cbn -[deleteReplicasByTemplateID]; split_and!; try done.
  all: try (intros k Hk; rewrite lookup_delete_ne; done).
  all: try (intros k Hk; rewrite delete_replicas_lookup, decide_False; done).
  intros _. split; [apply lookup_delete_eq|]. intros k Hk. by rewrite delete_replicas_lookup, decide_True.
Qed.

Lemma jobs_of_template tid t : listTemplateImageJobsByTemplateID tid t ≡ₚ filter (fun j => j_TemplateID j = tid) (jobs t).
Proof. apply merge_sort_Permutation. Qed.

(** What is refused: nothing to delete, a job or the definition being made, a use. *)
Definition deletable (e : denv) (tid : string) (g : templateCleanupTargets) : Prop :=
  hasCleanupState g = true /\ hasActiveJob g = false /\ hasActiveDefinitionBuild g = false /\ requiresCleanupLocator g = false /\
  (shouldCheckInUse g = true -> isTemplateInUse (v_nodes e) (v_list e) tid = Ok false) /\
  (cleanupTemplateReplicasWithLocators (v_host e) (v_answer e) tid (g_Locators g)).2 = Ok tt.

Lemma delete_refused e tid g w w' r : deleteTemplateWithTargets e tid g w = (w', r) ->
  (exists m, r = Err m /\ w' = w) \/
  deletable e tid g /\
  (let '(w1, r1) := cleanupTemplateArtifact (v_cleanup e) tid g w in
   match r1 with
   | Err m => (w1, Err m)
   | Ok _ => match metadata_cleanup (v_replicas e) (v_defs e) tid (tabs w1) with
             | (t, Err m) => (set_tabs t w1, Err m)
             | (t, Ok _) => match v_jobs e with
                            | Some m => (set_tabs t w1, Err m)
                            | None => (set_tabs (cleanupTemplateJobs tid t) w1, Ok tt)
                            end
             end
   end) = (w', r).
Proof.
  unfold deleteTemplateWithTargets, deletable.
  destruct (hasCleanupState g); cbn [negb]; [|intros [= <- <-]; left; eauto].
  destruct (hasActiveJob g); [intros [= <- <-]; left; eauto|].
  destruct (hasActiveDefinitionBuild g); [intros [= <- <-]; left; eauto|].
  destruct (requiresCleanupLocator g); [intros [= <- <-]; left; eauto|].
  destruct (if shouldCheckInUse g then _ else _) as [[]|] eqn:Eu; [intros [= <- <-]; left; eauto| |intros [= <- <-]; left; eauto].
  destruct (cleanupTemplateReplicasWithLocators _ _ _ _).2 as [[]|] eqn:Ec; [|intros [= <- <-]; left; eauto].
  intros Hd. right. split.
  - split_and!; try done. intros Hs. by rewrite Hs in Eu.
  - destruct (cleanupTemplateArtifact _ _ _ _) as [w1 [[]|]]; exact Hd.
Qed.

(** C18: a deletion of a template, named by an identifier that is not empty and has no
    blanks around it (DeleteTemplate itself does not trim it), with no other operation
    between its steps and whatever the nodes, the disks and the database answer at each of
    them.  Rows of other templates are as before.  An artifact that another template uses
    through a replica, an active job or its definition keeps its row and its files on the
    master and on the nodes.  A deletion that succeeds leaves no definition, replica or
    job of the template, and was not done while a job of the template was active.  If the
    template had a definition whose status was not FAILED, no listed sandbox used it;
    a template without a definition, or with a failed one, is deleted without looking at
    sandboxes (shouldCheckInUse). *)
Theorem delete_template_exact ready e tid inst w w' r : DeleteTemplate ready e tid inst w = (w', r) -> trimmed tid -> rkeyed (tabs w) ->
  (forall k, k.1 <> tid -> replicas (tabs w') !! k = replicas (tabs w) !! k) /\
  (forall k, k <> tid -> defs (tabs w') !! k = defs (tabs w) !! k) /\
  filter (fun j => j_TemplateID j <> tid) (jobs (tabs w')) = filter (fun j => j_TemplateID j <> tid) (jobs (tabs w)) /\
  (forall x, used x tid (tabs w) -> artifact_kept x w w') /\
  (r = Ok tt ->
     (defs (tabs w') !! tid = None /\ (forall n, replicas (tabs w') !! (tid, n) = None) /\ forall j, j ∈ jobs (tabs w') -> j_TemplateID j <> tid) /\
     (forall j, j ∈ jobs (tabs w) -> j_TemplateID j = tid -> job_is_active j = false) /\
     (forall d, defs (tabs w) !! tid = Some d -> EqualFold (d_Status d) StatusFailed = false -> isTemplateInUse (v_nodes e) (v_list e) tid = Ok false)).
Proof.
  intros Hd Ht Hk. unfold DeleteTemplate in Hd. destruct ready; cbn [negb] in Hd; [|by injection Hd as <- <-].
  destruct (discoverTemplateCleanupTargets _ _ _ _) as [g|m] eqn:Eg; [|by injection Hd as <- <-].
  apply delete_refused in Hd as [(m & -> & ->)|[Hok Hd]]; [by split_and!|].
  destruct (cleanupTemplateArtifact _ _ _ _) as [w1 r1] eqn:Ea. unfold cleanupTemplateArtifact in Ea.
  destruct (cleanup_artifacts _ _ _ _) as [w2 errs] eqn:Ec. injection Ea as <- <-.
  destruct (cleanup_artifacts_frame _ _ _ _ _ _ Ec Ht Hk) as [R K].
  destruct (join_errors errs); [|injection Hd as <- <-; split_and!; [apply R|by rewrite (rk_defs _ _ _ R)|by rewrite (rk_jobs _ _ _ R)|done|done]].
  destruct (metadata_cleanup _ _ _ _) as [t r2] eqn:Em. apply metadata_cleanup_rows in Em as (Ej & Ea & Md & Mr & Mok).
  assert (Hrows : (forall k, k.1 <> tid -> replicas t !! k = replicas (tabs w) !! k) /\ (forall k, k <> tid -> defs t !! k = defs (tabs w) !! k)
    /\ jobs t = jobs (tabs w)).
  { split_and!; [|intros k Hne; by rewrite Md, (rk_defs _ _ _ R)|by rewrite Ej, (rk_jobs _ _ _ R)].
    intros k Hne. rewrite Mr by done. by apply (rk_replicas _ _ _ R). }
  destruct Hrows as (Rr & Rd & Rj).
  assert (Hkept : forall t', artifacts t' = artifacts t -> forall x, used x tid (tabs w) -> artifact_kept x w (set_tabs t' w2)).
  { intros t' Et x Hu. destruct (K x Hu) as (K1 & K2 & K3). unfold artifact_kept. cbn. rewrite Et, Ea. auto. }
  destruct r2 as [[]|]; [|injection Hd as <- <-; split_and!; [done|done|by cbn; rewrite Rj|by apply Hkept|done]].
  destruct (v_jobs e); injection Hd as <- <-; [split_and!; [done|done|by cbn; rewrite Rj|by apply Hkept|done]|]. cbn. rewrite Rj.
  split_and!; [done|done| |by apply Hkept|].
  - rewrite list_filter_filter. apply list_filter_iff. tauto.
  - intros _. destruct Mok as [M1 M2]; [done|]. split_and!; [done|by intros; apply M2|intros j Hj; by apply list_elem_of_filter in Hj as []| |].
    + intros j Hj Htid. destruct Hok as (_ & Hact & _). unfold discoverTemplateCleanupTargets in Eg.
      destruct (v_query e); [done|]. injection Eg as <-. unfold hasActiveJob in Hact. cbn in Hact.
      destruct (job_is_active j) eqn:Ej'; [|done]. exfalso. apply not_true_iff_false in Hact. apply Hact, existsb_exists.
      exists j. split; [|done]. apply list_elem_of_In. rewrite jobs_of_template. by apply list_elem_of_filter.
    + intros d Hd Hf. destruct Hok as (_ & _ & _ & _ & Hu & _). unfold discoverTemplateCleanupTargets in Eg.
      destruct (v_query e); [done|]. injection Eg as <-. apply Hu. unfold shouldCheckInUse. cbn. by rewrite Hd, Hf.
Qed.

End Frame.

(** ** Examples *)

Module DeleteDemo.

Definition def (id kind artifact : string) : TemplateDefinition :=
  MkDef id InstanceType_cubebox "v2" StatusReady kind "" "" "" "" false 0 artifact "" "" 0.
Definition replica (id artifact : string) : TemplateReplica :=
  MkReplica id "n1" "10.0.0.1" InstanceType_cubebox "" ReplicaStatusReady ReplicaPhaseReady artifact "" "" false "" "" "" "" "" "" 0.
Definition art (id : string) : RootfsArtifact := MkArtifact id id "img" "sha" "1G" "/path" "request" "token" ArtifactStatusReady "" 0 false.
Definition finished : TemplateImageJob :=
  MkJob 1 "j1" "t1" "r1" "" "" "" 1 "" JobOperationCreate InstanceType_cubebox "" (MkJobState "" "" "shared" JobStatusReady "" 100 "" "" "").

(** Templates "t1" and "t2" share an artifact; "t1" has one of its own. *)
Definition w : world :=
  MkWorld
    (MkTables {[ "t1" := def "t1" TemplateKindTemplate "own"; "t2" := def "t2" TemplateKindTemplate "shared" ]}
       {[ ("t1", "n1") := replica "t1" "own"; ("t2", "n1") := replica "t2" "shared" ]} [finished]
       {[ "own" := art "own"; "shared" := art "shared" ]}
       {[ ("own", "n1") := MkPlacement "own" "n1" "10.0.0.1" 0; ("shared", "n1") := MkPlacement "shared" "n1" "10.0.0.1" 0 ]} empty_refs)
    {[ "own"; "shared" ]} {[ ("own", "n1"); ("shared", "n1") ]} ∅.

Definition ok : rpc := RpcRet (Some (code_success, "")).
Definition e : denv := MkDEnv None 1 (ListAnswer code_success "" []) (fun _ => None) (fun _ => ok)
  (fun _ _ => MkEnv None None 1000 (Ok "") "" (Ok "") None ok false (fun _ => None)) None None None.

(** A snapshot that a sandbox created from another template was rolled back to. *)
Definition snapshot : world :=
  MkWorld (MkTables {[ "snap-1" := def "snap-1" TemplateKindSnapshot "" ]} {[ ("snap-1", "n1") := replica "snap-1" "" ]} [] ∅ ∅
             (MkRefs {[ ("sb1", SnapshotRuntimeBindingMemoryBacking) :=
                          MkActive "sb1" SnapshotRuntimeBindingMemoryBacking "snap-1" "n1" "10.0.0.1" "" "" 1 0 None "" 0 0 ]} []))
    ∅ ∅ ∅.

End DeleteDemo.

Lemma delete_template_exact_witness :
  exists w', @DeleteTemplate demo_runtime true DeleteDemo.e "t1" "" DeleteDemo.w = (w', Ok tt) /\
    artifact_kept "shared" DeleteDemo.w w' /\ defs (tabs w') !! "t2" = defs (tabs DeleteDemo.w) !! "t2" /\ defs (tabs w') !! "t1" = None /\
    artifacts (tabs w') !! "own" = None.
Proof.
  set (res := @DeleteTemplate demo_runtime true DeleteDemo.e "t1" "" DeleteDemo.w).
  assert (Hr : res.2 = Ok tt) by by vm_compute. assert (Ho : artifacts (tabs res.1) !! "own" = None) by by vm_compute.
  exists res.1. split; [rewrite <- Hr; by destruct res|].
  destruct (delete_template_exact (rt := demo_runtime) true DeleteDemo.e "t1" "" DeleteDemo.w res.1 (Ok tt)) as (_ & Hd & _ & Hk & Hok).
  - rewrite <- Hr. exact (surjective_pairing res).
  - split; [by vm_compute|done].
  - apply map_Forall_insert_2; [done|]. by apply map_Forall_singleton.
  - split_and!; [|by apply Hd|by apply Hok|exact Ho]. apply Hk. left. exists ("t2", "n1"), (DeleteDemo.replica "t2" "shared"). split_and!; [vm_compute; reflexivity|discriminate|reflexivity].
Defined.

(** Deleting a snapshot as a template takes another lock than the operations on
    snapshots and does not look at the references of sandboxes: a snapshot that a sandbox
    runs on is deleted. *)
Theorem template_delete_ignores_refs :
  let '(w', r) := @DeleteTemplate demo_runtime true DeleteDemo.e "snap-1" "" DeleteDemo.snapshot in
  r = Ok tt /\ defs (tabs w') !! "snap-1" = None /\
  CountActiveSnapshotRuntimeRefs true None "snap-1" (runtime (tabs w')) = Ok 1.
Proof. vm_compute. done. Qed.
