(* ===== verification/TcSnapshot.v ===== *)
(** * Operations on snapshots (CubeMaster/pkg/templatecenter/snapshot_ops.go)

    A request creates a snapshot of a running sandbox, rolls a sandbox back to one or
    deletes one.  It takes the locks of its sandbox, its snapshot and its identifier,
    looks for a job it made before, checks that nothing else is going on, inserts a job
    and gives the locks back; then it claims the job and drives it statement by statement
    and call by call.

    Requests run at the same time, so each is a thread with a program counter and a step
    does one statement, one call or one operation on a lock.  Everything the environment
    decides in a step is its [senv].  Generated identifiers are part of it: they are new.

    Not kept: metrics, the version of envd that a creation adds to the stored request,
    caches, and [resolveSandboxDesiredSizeBytes], which nothing calls. *)
From S2P Require Import Prelude GoStrings TcRefs TcStore TcDelete.
From Stdlib Require Import Ascii Relation_Operators Lexicographic_Product.

Open Scope string_scope.
Open Scope Z_scope.

(** ** Locks *)

Definition snapshotRequestLockPrefix : string := "snapshot-request:".
Definition snapshotSandboxLockPrefix : string := "snapshot-sandbox:".
Definition snapshotResourceLockPrefix : string := "snapshot-resource:".
Definition snapshotRequestLockKey (id : string) : string := snapshotRequestLockPrefix +:+ TrimSpace id.
Definition snapshotSandboxLockKey (id : string) : string := snapshotSandboxLockPrefix +:+ TrimSpace id.
Definition snapshotResourceLockKey (id : string) : string := snapshotResourceLockPrefix +:+ TrimSpace id.

(** ** Requests as text

    Jobs carry their request as JSON.  Text that is valid UTF-8 survives. *)

Record snapshotCreateJobRequest : Type := MkCreatePayload {
  cp_RequestID : string; cp_SandboxID : string; cp_SnapshotID : string; cp_NodeID : string; cp_NodeIP : string; cp_DisplayName : string;
  cp_SpecFingerprint : string }.
Record snapshotRollbackJobRequest : Type := MkRollbackPayload {
  rp_RequestID : string; rp_SandboxID : string; rp_SnapshotID : string; rp_NodeID : string; rp_NodeIP : string; rp_NewGen : Z; rp_DesiredSize : Z }.
Record snapshotDeleteJobRequest : Type := MkDeletePayload {
  dp_RequestID : string; dp_SnapshotID : string; dp_NodeID : string; dp_NodeIP : string }.

(** The answer of a node to a roll-back. *)
Record rollback_response : Type := MkRollbackResponse { rr_ret : option (Z * string); rr_MemoryVol : string; rr_RootfsVol : string; rr_NewGen : Z }.

Class SnapshotJSON : Type := {
  json_text : string -> Prop;
  json_create : snapshotCreateJobRequest -> string;
  json_rollback : snapshotRollbackJobRequest -> string;
  json_delete : snapshotDeleteJobRequest -> string;
  json_response : rollback_response -> string;
  json_commit : string -> string -> string;
  parse_create : string -> option snapshotCreateJobRequest;
  parse_rollback : string -> option snapshotRollbackJobRequest;
  parse_delete : string -> option snapshotDeleteJobRequest;
  parse_gen : string -> option Z;
  create_parses : forall p, exists q, parse_create (json_create p) = Some q /\
    (json_text (cp_SandboxID p) -> cp_SandboxID q = cp_SandboxID p) /\ (json_text (cp_SpecFingerprint p) -> cp_SpecFingerprint q = cp_SpecFingerprint p);
  rollback_parses : forall p, exists q, parse_rollback (json_rollback p) = Some q /\
    (json_text (rp_SandboxID p) -> rp_SandboxID q = rp_SandboxID p) /\ (json_text (rp_SnapshotID p) -> rp_SnapshotID q = rp_SnapshotID p);
  delete_parses : forall p, exists q, parse_delete (json_delete p) = Some q /\ (json_text (dp_SnapshotID p) -> dp_SnapshotID q = dp_SnapshotID p);
  gen_parses : forall p, parse_gen (json_rollback p) = Some (rp_NewGen p);
  create_not_blank : forall p, TrimSpace (json_create p) <> "";
  rollback_not_blank : forall p, TrimSpace (json_rollback p) <> "";
  delete_not_blank : forall p, TrimSpace (json_delete p) <> "";
}.

(** What a creation takes from the request its sandbox was made with; [og_text] is that
    request without the identifier of its template. *)
Record origin : Type := MkOrigin { og_text : string; og_instance : string; og_version : string; og_spec : string; og_artifact : string; og_disk : Z }.

Inductive request : Type :=
  | RCreate (requestID sandboxID nodeID nodeIP displayName templateID : string) (o : origin)
  | RRollback (requestID sandboxID snapshotID instanceType : string)
  | RDelete (requestID snapshotID instanceType : string).

Definition req_id (r : request) : string := match r with RCreate id _ _ _ _ _ _ | RRollback id _ _ _ | RDelete id _ _ => id end.
Definition req_op (r : request) : string :=
  match r with RCreate _ _ _ _ _ _ _ => JobOperationSnapshotCreate | RRollback _ _ _ _ => JobOperationSnapshotRollback | RDelete _ _ _ => JobOperationSnapshotDelete end.
Definition req_sandbox (r : request) : string := match r with RCreate _ sb _ _ _ _ _ | RRollback _ sb _ _ => sb | RDelete _ _ _ => "" end.
Definition req_snapshot (r : request) : string := match r with RCreate _ _ _ _ _ _ _ => "" | RRollback _ _ s _ | RDelete _ s _ => s end.

Definition lock_keys (r : request) : list string :=
  match r with
  | RCreate id sb _ _ _ _ _ => [snapshotSandboxLockKey sb; snapshotRequestLockKey id]
  | RRollback id sb s _ => [snapshotSandboxLockKey sb; snapshotResourceLockKey s; snapshotRequestLockKey id]
  | RDelete id s _ => [snapshotResourceLockKey s; snapshotRequestLockKey id]
  end.

(** The start of the three functions.  [loaded] is [loadSandboxCreateRequestFn]; [built]
    is the identifier that [buildSnapshotRequests] generates for want of one. *)
Definition SubmitSandboxSnapshot (ready : bool) (loaded : res origin) (built : res string) (requestID sandboxID hostID hostIP displayName : string) : res request :=
  if negb ready then Err ErrTemplateStoreNotInitialized
  else if TrimSpace requestID =s "" then Err "requestID is required"
  else if TrimSpace sandboxID =s "" then Err "sandboxID is required"
  else rbind loaded (fun o => rbind built (fun id =>
         Ok (RCreate (TrimSpace requestID) (TrimSpace sandboxID) (TrimSpace hostID) (TrimSpace hostIP) displayName id o))).

Definition RollbackSandboxToSnapshot (ready : bool) (requestID sandboxID snapshotID instanceType : string) : res request :=
  if negb ready then Err ErrTemplateStoreNotInitialized
  else if TrimSpace requestID =s "" then Err "requestID is required"
  else Ok (RRollback requestID sandboxID snapshotID instanceType).

Definition DeleteSnapshot (ready : bool) (requestID snapshotID instanceType : string) : res request :=
  if negb ready then Err ErrTemplateStoreNotInitialized
  else if TrimSpace requestID =s "" then Err "requestID is required"
  else Ok (RDelete requestID snapshotID instanceType).

Section Ops.
Context `{!GoRuntime, !SnapshotJSON}.

(** [fingerprint text templateID]: the hash of a request with this template. *)
Context (fingerprint : string -> string -> string).
(** Times as the columns of the tables keep them. *)
Context (col : Z -> Z).

Definition in_progress (what : string) : string := ErrTemplateAttemptInProgress +:+ ": " +:+ what.

(** ** Retries *)

Definition blank (s : string) : bool := TrimSpace s =s "".

(** [templateID] is in the request that is compared, not the snapshot's identifier. *)
Definition snapshotCreateRequestMatches (raw requestID sandboxID nodeID nodeIP displayName templateID : string) (o : origin) : bool :=
  if blank raw then true
  else match parse_create raw with
       | None => false
       | Some p =>
           if (cp_RequestID p <>s requestID) || (cp_SandboxID p <>s sandboxID) || (cp_NodeID p <>s nodeID) || (cp_NodeIP p <>s nodeIP)
              || (cp_DisplayName p <>s displayName) then false
           else if cp_SpecFingerprint p =s "" then true
           else cp_SpecFingerprint p =s fingerprint (og_text o) templateID
       end.

Definition snapshotRollbackRequestMatches (raw requestID sandboxID snapshotID : string) : bool :=
  if blank raw then true
  else match parse_rollback raw with
       | None => false
       | Some p => (rp_RequestID p =s requestID) && (rp_SandboxID p =s sandboxID) && (rp_SnapshotID p =s snapshotID)
       end.

Definition snapshotDeleteRequestMatches (raw requestID snapshotID : string) : bool :=
  if blank raw then true
  else match parse_delete raw with None => false | Some p => (dp_RequestID p =s requestID) && (dp_SnapshotID p =s snapshotID) end.

(** What a thread needs to drive its job. *)
Record drive : Type := MkDrive { dr_job : string; dr_sandbox : string; dr_snapshot : string; dr_node : string; dr_ip : string; dr_gen : Z; dr_size : Z }.

Definition mismatch (r : request) (what : string) : string :=
  in_progress ("request " +:+ req_id r +:+ " payload does not match existing " +:+ what +:+ " job").

(** The job of the same request, if there is one. *)
Definition existing_job (io : option string) (r : request) (t : tables) : res (option drive) :=
  match io with
  | Some m => Err m
  | None =>
      match getTemplateImageJobByRequestID (req_id r) t with
      | None => Ok None
      | Some j =>
          if j_Operation j <>s req_op r then Err (in_progress ("request " +:+ req_id r +:+ " is already bound to " +:+ j_Operation j))
          else match r with
               | RCreate id sb node ip name tpl o =>
                   if snapshotCreateRequestMatches (j_RequestJSON j) id sb node ip name tpl o
                   then Ok (Some (MkDrive (j_JobID j) sb (j_TemplateID j) node ip 0 0)) else Err (mismatch r "snapshot create")
               | RRollback id sb s _ =>
                   if snapshotRollbackRequestMatches (j_RequestJSON j) id sb s
                   then match parse_rollback (j_RequestJSON j) with
                        | None => Err "invalid job request"
                        | Some p => Ok (Some (MkDrive (j_JobID j) (rp_SandboxID p) (rp_SnapshotID p) (rp_NodeID p) (rp_NodeIP p) (rp_NewGen p) (rp_DesiredSize p)))
                        end
                   else Err (mismatch r "snapshot rollback")
               | RDelete id s _ =>
                   if snapshotDeleteRequestMatches (j_RequestJSON j) id s
                   then match parse_delete (j_RequestJSON j) with
                        | None => Err "invalid job request"
                        | Some p => Ok (Some (MkDrive (j_JobID j) "" (dp_SnapshotID p) (dp_NodeID p) (dp_NodeIP p) 0 0))
                        end
                   else Err (mismatch r "snapshot delete")
               end
      end
  end.

(** ** Guards *)

Inductive guard : Type := GDefinition | GSandboxInfo | GSandboxIdle | GResourceIdle | GWritable | GReplica | GGeneration | GTargets | GRefs | GAttempt.

Definition guards (r : request) : list guard :=
  match r with
  | RCreate _ _ _ _ _ _ _ => [GSandboxIdle; GWritable]
  | RRollback _ _ _ _ => [GDefinition; GSandboxInfo; GSandboxIdle; GResourceIdle; GWritable; GReplica; GGeneration; GAttempt]
  | RDelete _ _ _ => [GDefinition; GResourceIdle; GTargets; GRefs; GAttempt]
  end.

(** What the guards found: the node of the sandbox, that of the snapshot, the next
    generation and attempt. *)
Record found : Type := MkFound { f_node : string; f_ip : string; f_origin : string; f_gen : Z; f_attempt : Z; f_retry : string }.
Definition nothing_found : found := MkFound "" "" "" 0 0 "".

Definition check_definition (r : request) (d : TemplateDefinition) : option string :=
  let id := req_snapshot r in
  if negb (isSnapshotDefinition d) then Some (in_progress ("template " +:+ id +:+ " is not a snapshot"))
  else match r with
       | RRollback _ sb _ _ =>
           if negb (EqualFold (d_Status d) StatusReady) then Some (in_progress ("snapshot " +:+ id +:+ " is in status " +:+ d_Status d))
           else if d_OriginSandboxID d <>s sb then Some (in_progress ("snapshot " +:+ id +:+ " does not belong to sandbox " +:+ sb))
           else if negb (EqualFold (d_StorageBackend d) StorageBackendCow) then Some (in_progress ("snapshot " +:+ id +:+ " does not use cubecow backend"))
           else None
       | _ =>
           if EqualFold (d_Status d) StatusCreating then Some (in_progress ("snapshot " +:+ id +:+ " is still creating"))
           else if EqualFold (d_Status d) StatusDeleting then Some (in_progress ("snapshot " +:+ id +:+ " is already deleting"))
           else None
       end.

Definition ErrSnapshotReplicaMetadataIncomplete : string := "snapshot replica metadata is incomplete".

Definition validateSnapshotReadyReplica (r : ReplicaStatus) : option string :=
  if (TrimSpace (s_NodeID r) =s "") && (TrimSpace (s_NodeIP r) =s "")
  then Some (ErrSnapshotReplicaMetadataIncomplete +:+ ": snapshot replica has no node identity") else None.

(** The loop over the replicas: the first valid one on the preferred node ends it. *)
Fixpoint ready_replica (preferred : string) (rs : list ReplicaStatus) (firstReady : option ReplicaStatus) (firstErr : option string) : res ReplicaStatus :=
  match rs with
  | [] =>
      match firstErr, firstReady with
      | Some m, _ => Err m
      | None, None => Err ErrTemplateHasNoReadyReplica
      | None, Some r => Ok r
      end
  | r :: rs =>
      if negb (isReplicaSchedulable r) then ready_replica preferred rs firstReady firstErr
      else if (preferred <>s "") && (s_NodeID r <>s preferred) then ready_replica preferred rs firstReady firstErr
      else match validateSnapshotReadyReplica r with
           | Some m => ready_replica preferred rs firstReady (match firstErr with Some m => Some m | None => Some m end)
           | None => if preferred <>s "" then Ok r
                     else ready_replica preferred rs (match firstReady with Some x => Some x | None => Some r end) firstErr
           end
  end.

Definition getSnapshotReadyReplica (io : option string) (snapshotID preferredNodeID : string) (t : tables) : res ReplicaStatus :=
  match io with
  | Some m => Err m
  | None => ready_replica preferredNodeID (replicaModelToStatus <$> ListReplicas snapshotID t) None None
  end.

(** *** Generations *)

Definition maxUint32 (a b : Z) : Z := if b <=? a then a else b.

Definition rollbackGenFromJSON (raw : string) : res (option Z) :=
  if blank raw then Ok None
  else match parse_gen raw with
       | None => Err "invalid job result"
       | Some g => Ok (if g =? 0 then None else Some g)
       end.

Definition max_gen (m : Z) (raw : string) : res Z :=
  rbind (rollbackGenFromJSON raw) (fun g => Ok (match g with Some g => maxUint32 m g | None => m end)).

Fixpoint max_gens (m : Z) (js : list TemplateImageJob) : res Z :=
  match js with
  | [] => Ok m
  | j :: js => rbind (max_gen m (j_ResultJSON (j_state j))) (fun m => rbind (max_gen m (j_RequestJSON j)) (fun m => max_gens m js))
  end.

Definition rollback_jobs (sandboxID : string) (t : tables) : list TemplateImageJob :=
  take 100 (rev (filter (fun j => j_SandboxID j = sandboxID /\ j_Operation j = JobOperationSnapshotRollback) (jobs t))).

(** The sum wraps around at 32 bits. *)
Definition allocateNextRollbackGen (io : option string) (sandboxID : string) (t : tables) : res Z :=
  let start := match GetActiveSnapshotRuntimeRefBySandbox true io sandboxID (runtime t) with
               | Ok ref => Ok (maxUint32 0 (r_SandboxGen ref))
               | Err m => if m =s ErrRecordNotFound then Ok 0 else Err m
               end in
  rbind start (fun m => rbind (max_gens m (rollback_jobs sandboxID t)) (fun m => Ok (if m =? 0 then 1 else (m + 1) mod 2 ^ 32))).

(** The number is a signed one of 32 bits. *)
Definition nextAttemptNoFromLatest (n : Z) : Z := if n <=? 0 then 2 else (n + 1 + 2 ^ 31) mod 2 ^ 32 - 2 ^ 31.

Definition nextSnapshotAttempt (snapshotID : string) (t : tables) : Z * string :=
  match getLatestTemplateImageJobByTemplateID snapshotID t with
  | None => (1, "")
  | Some j => (nextAttemptNoFromLatest (j_AttemptNo j), j_JobID j)
  end.

Definition formatSnapshotRuntimeRefConsumers (l : list SnapshotRuntimeRefInfo) : string :=
  Join ((fun r =>
           let consumer := TrimSpace (r_SandboxID r) in
           let node := firstNonEmpty [r_NodeID r; r_NodeIP r] in
           let consumer := if node <>s "" then firstNonEmpty [consumer; "<unknown>"] +:+ "@" +:+ node else consumer in
           firstNonEmpty [consumer; "<unknown>"]) <$> l) ", ".

(** The replicas' nodes, or else every node known. *)
Definition snapshotDeleteLocators (g : templateCleanupTargets) : list templateCleanupLocator :=
  match replica_locator <$> g_Replicas g with
  | [] => filter (fun l => TrimSpace (l_NodeID l) <> "" \/ TrimSpace (l_NodeIP l) <> "") (g_Locators g)
  | ls => ls
  end.

(** *** The environment *)

Record commit_response : Type := MkCommit { cr_ret : option (Z * string); cr_path : string; cr_guest : string; cr_agent : string; cr_kernel : string; cr_size : Z }.

Record senv : Type := MkSEnv {
  x_io : option string; x_now : Z; x_job : string; x_snapshot : string; x_info : res (string * string); x_writable : res unit;
  x_commit : res commit_response; x_rollback : res rollback_response; x_host : string -> option string; x_clean : templateCleanupLocator -> rpc;
}.

Definition or_fail {A} (io : option string) (r : res A) : res A := match io with Some m => Err m | None => r end.

Definition with_attempt (n : Z * string) (a : found) : found := MkFound (f_node a) (f_ip a) (f_origin a) (f_gen a) n.1 n.2.
Definition with_gen (g : Z) (a : found) : found := MkFound (f_node a) (f_ip a) (f_origin a) g (f_attempt a) (f_retry a).

(** [getSandboxData] failed, or the node it names must be that of the snapshot. *)
Definition check_info (id : string) (a : found) (info : res (string * string)) : res found :=
  rbind info (fun ni =>
    let node := TrimSpace ni.1 in
    if (f_origin a <>s "") && (node <>s "") && (f_origin a <>s node)
    then Err (in_progress ("snapshot " +:+ id +:+ " is pinned to node " +:+ f_origin a +:+ ", sandbox is on " +:+ node))
    else Ok (MkFound node (TrimSpace ni.2) (f_origin a) (f_gen a) (f_attempt a) (f_retry a))).

Definition check_guard (e : senv) (r : request) (g : guard) (t : tables) (a : found) : res found :=
  let sb := req_sandbox r in
  let id := req_snapshot r in
  match g with
  | GDefinition =>
      rbind (or_fail (x_io e) (GetDefinition id t)) (fun d =>
        match check_definition r d with
        | Some m => Err m
        | None => Ok (MkFound (f_node a) (f_ip a) (d_OriginNodeID d) (f_gen a) (f_attempt a) (f_retry a))
        end)
  | GSandboxInfo => check_info id a (x_info e)
  | GSandboxIdle =>
      or_fail (x_io e) (match getActiveSnapshotJobBySandboxID sb t with
                        | Some _ => Err (in_progress ("sandbox " +:+ sb +:+ " already has an active snapshot operation"))
                        | None => Ok a
                        end)
  | GResourceIdle =>
      or_fail (x_io e) (match getActiveSnapshotJobByResourceID id t with
                        | Some _ => Err (in_progress ("snapshot " +:+ id +:+ " already has an active snapshot operation"))
                        | None => Ok a
                        end)
  | GWritable => rbind (x_writable e) (fun _ => Ok a)
  | GReplica => rbind (getSnapshotReadyReplica (x_io e) id (f_origin a) t) (fun _ => Ok a)
  | GGeneration => rbind (allocateNextRollbackGen (x_io e) sb t) (fun g => Ok (with_gen g a))
  | GTargets => rbind (discoverTemplateCleanupTargets (x_io e) id "" t) (fun _ => Ok a)
  | GRefs =>
      rbind (ListActiveSnapshotRuntimeRefs true (x_io e) id (runtime t)) (fun l =>
        match l with
        | [] => Ok a
        | _ => Err (in_progress ("snapshot " +:+ id +:+ " still has " +:+ pretty (Z.of_nat (length l)) +:+ " active runtime ref(s): "
                                 +:+ formatSnapshotRuntimeRefConsumers l))
        end)
  | GAttempt => or_fail (x_io e) (Ok (with_attempt (nextSnapshotAttempt id t) a))
  end.

(** ** The job *)

Definition pending_state (node ip phase tstatus : string) : JobState := MkJobState node ip "" JobStatusPending phase 0 "" tstatus "".

Definition create_payload (r : request) (snapshotID : string) : string :=
  match r with
  | RCreate id sb node ip name _ o => json_create (MkCreatePayload id sb snapshotID node ip name (fingerprint (og_text o) snapshotID))
  | _ => ""
  end.

Definition new_job (e : senv) (r : request) (a : found) : TemplateImageJob :=
  match r with
  | RCreate id sb node ip _ _ o =>
      MkJob 0 (x_job e) (x_snapshot e) id sb JobResourceTypeSnapshot (x_snapshot e) 1 "" JobOperationSnapshotCreate (og_instance o)
        (create_payload r (x_snapshot e)) (pending_state node ip JobPhaseSnapshotting StatusCreating)
  | RRollback id sb s it =>
      MkJob 0 (x_job e) s id sb JobResourceTypeSnapshot s (f_attempt a) (f_retry a) JobOperationSnapshotRollback it
        (json_rollback (MkRollbackPayload id sb s (f_node a) (f_ip a) (f_gen a) 0)) (pending_state (f_node a) (f_ip a) JobPhaseRollbackPreparing "")
  | RDelete id s it =>
      MkJob 0 (x_job e) s id "" JobResourceTypeSnapshot s (f_attempt a) (f_retry a) JobOperationSnapshotDelete it
        (json_delete (MkDeletePayload id s (f_origin a) "")) (pending_state (f_origin a) "" JobPhaseDeleting "")
  end.

Definition new_drive (e : senv) (r : request) (a : found) : drive :=
  match r with
  | RCreate _ sb node ip _ _ _ => MkDrive (x_job e) sb (x_snapshot e) node ip 0 0
  | RRollback _ sb s _ => MkDrive (x_job e) sb s (f_node a) (f_ip a) (f_gen a) 0
  | RDelete _ s _ => MkDrive (x_job e) "" s (f_origin a) "" 0 0
  end.

Definition stored_request (r : request) (snapshotID : string) : string := match r with RCreate _ _ _ _ _ _ o => og_text o +:+ snapshotID | _ => "" end.

(** The transaction that inserts the job, with the definition a creation makes or the
    mark of a deletion. *)
Definition insert_job (e : senv) (r : request) (a : found) (t : tables) : res tables :=
  guarded (x_io e)
    match r with
    | RCreate _ sb node _ name _ o =>
        rbind (createDefinitionTx (x_snapshot e) (stored_request r (x_snapshot e)) (og_artifact o) (og_instance o) (og_version o)
                 (MkOpts TemplateKindSnapshot sb node name StorageBackendCow false (og_disk o)) (x_now e) t)
          (create_job (new_job e r a))
    | RRollback _ _ _ _ => create_job (new_job e r a) t
    | RDelete _ s _ => create_job (new_job e r a) (update_def s (fun d => with_def_status StatusDeleting (d_LastError d) (x_now e) d) t)
    end.

(** ** Driving a job *)

(** An update whose error is ignored. *)
Definition try_update (io : option string) (job : string) (f : JobState -> JobState) (t : tables) : tables :=
  match guarded io (updateTemplateImageJob job f t) with Ok t' => t' | Err _ => t end.

Definition js_failed (phase msg : string) (s : JobState) : JobState := js_error msg (js_progress JobStatusFailed phase 100 s).

(** UPDATE ... WHERE job_id = ? AND status = PENDING, and whether a row was updated. *)
Definition claimSnapshotJobExecution (io : option string) (job phase : string) (progress : Z) (t : tables) : res (tables * bool) :=
  match io with
  | Some m => Err m
  | None =>
      let mine j := (j_JobID j =s job) && (j_Status (j_state j) =s JobStatusPending) in
      Ok (set_jobs ((fun j => if mine j then with_state (js_progress JobStatusRunning phase progress) j else j) <$> jobs t) t, existsb mine (jobs t))
  end.

Definition GetTemplateImageJobInfo (io : option string) (job : string) (t : tables) : res TemplateImageJob :=
  or_fail io (match getTemplateImageJobRecordByID job t with Some j => Ok j | None => Err ErrRecordNotFound end).

Definition job_status (j : TemplateImageJob) : string := upper_ascii (TrimSpace (j_Status (j_state j))).

Definition snapshotJobFailedError (j : TemplateImageJob) : string :=
  let message := TrimSpace (j_ErrorMessage (j_state j)) in
  if message =s "" then "snapshot operation " +:+ firstNonEmpty [j_Operation j; j_JobID j] +:+ " failed" else message.

Definition resolveExistingSnapshotJob (j : TemplateImageJob) : res string :=
  if job_status j =s JobStatusReady then Ok JobStatusReady
  else if job_status j =s JobStatusFailed then Err (snapshotJobFailedError j)
  else if (job_status j =s JobStatusPending) || (job_status j =s JobStatusRunning)
  then Err (in_progress ("request " +:+ j_RequestID j +:+ " is still bound to snapshot operation " +:+ j_JobID j))
  else Err ("snapshot job " +:+ j_JobID j +:+ " ended in unexpected status " +:+ j_Status (j_state j)).

Definition finalizeSynchronousSnapshotJob (j : TemplateImageJob) : res string :=
  if job_status j =s JobStatusReady then Ok JobStatusReady
  else if job_status j =s JobStatusFailed then Err (snapshotJobFailedError j)
  else Err ("snapshot job " +:+ j_JobID j +:+ " did not reach terminal status synchronously: " +:+ j_Status (j_state j)).

(** An answer's error: the text of a failed result, or [what] when it has none. *)
Definition answer_error (what : string) (ret : option (Z * string)) : option string :=
  match ret with
  | Some (code, msg) => if code =? code_success then None else Some (if blank msg then what else msg)
  | None => Some what
  end.

Inductive spc : Type :=
  | SAcquire (keys : list string)
  | SExisting
  | SGuards (gs : list guard) (a : found)
  | SInsert (a : found)
  | SRelease (out : res (drive * bool)) (* the locks go back, the last first *)
  | SReplicaAgain (d : drive)           (* a retried roll-back looks for its replica *)
  | SInfo (d : drive) (reused : bool)
  | SClaim (d : drive)
  | SLook (d : drive)                   (* another thread claimed the job *)
  | SOpen (d : drive)
  | SCall (d : drive)
  (* creations *)
  | SRegister (d : drive) (c : commit_response)
  | SProgress (d : drive) (c : commit_response)
  | SReplica (d : drive) (c : commit_response)
  | SDefinition (d : drive) (c : commit_response)
  | SFinish (d : drive) (f : JobState -> JobState)
  (* roll-backs *)
  | SRef (d : drive) (rr : rollback_response)
  (* deletions *)
  | STargets (d : drive)
  | SClean (d : drive) (ls : list templateCleanupLocator) (errs : list string)
  | SMeta (d : drive)
  | SMetaDef (d : drive) (errs : list string)
  | SJobs (d : drive)
  (* failures *)
  | SFailClean (d : drive) (m : string)
  | SFailReplicas (d : drive) (m : string)
  | SFailDef (d : drive) (m : string)
  | SFailJob (d : drive) (m : string) (f : JobState -> JobState) (errs : list string)
  | SFinal (d : drive)
  | SDone (out : res string).

Record sthread : Type := MkSThread { h_req : request; h_held : list string; h_pc : spc }.

Record sworld : Type := MkSWorld { st : tables; lk : gmap string nat; ths : gmap nat sthread }.

Definition claim_phase (r : request) : string * Z :=
  match r with RCreate _ _ _ _ _ _ _ => (JobPhaseSnapshotting, 10) | RRollback _ _ _ _ => (JobPhaseRollbackDriving, 25) | RDelete _ _ _ => (JobPhaseDeleting, 20) end.

(** The replica of a snapshot: no artifact, no physical path. *)
Definition snapshot_replica (e : senv) (r : request) (d : drive) (c : commit_response) : ReplicaStatus :=
  let '(it, spec) := match r with RCreate _ _ _ _ _ _ o => (og_instance o, og_spec o) | _ => ("", "") end in
  bindGuestVersionToReplica (cr_guest c) (cr_agent c) (cr_kernel c) (x_now e)
    (MkStatus (dr_node d) (dr_ip d) it spec ReplicaStatusReady ReplicaPhaseReady "" (dr_job d) "" false "" "" "" "" "" "" 0).

Definition req_instance (r : request) : string := match r with RCreate _ _ _ _ _ _ o => og_instance o | RRollback _ _ _ it | RDelete _ _ it => it end.

Definition js_finished (phase : string) (result msg : string) (s : JobState) : JobState :=
  js_error msg (js_result result (js_progress JobStatusReady phase 100 s)).

(** Where a failing job goes first. *)
Definition fail_pc (r : request) (d : drive) (m : string) : spc :=
  match r with
  | RCreate _ _ _ _ _ _ _ => SFailClean d m
  | RRollback _ _ _ _ => SFailJob d m (js_failed JobPhaseRollbackDriving m) []
  | RDelete _ _ _ => SFailDef d m
  end.

Definition rollback_ref (d : drive) (rr : rollback_response) : SnapshotRuntimeRefInfo :=
  MkRef 0 (dr_snapshot d) (dr_sandbox d) (dr_node d) (dr_ip d) "" (TrimSpace (rr_MemoryVol rr)) "" (rr_RootfsVol rr) (rr_NewGen rr) "" time_zero None None "".

(** A deletion answers that it is ready whether its updates recorded a success or a
    failure; the others read their job again. *)
Definition after_failure (r : request) (d : drive) (errs : list string) : spc :=
  match errs with
  | [] => match r with RDelete _ _ _ => SDone (Ok JobStatusReady) | _ => SFinal d end
  | _ => SDone (Err (Join errs (String "010"%char "")))
  end.

(** One step of a thread outside its locks: the next counter and the tables. *)
Definition drive_step (e : senv) (r : request) (pc : spc) (t : tables) : spc * tables :=
  let io := x_io e in
  match pc with
  | SExisting =>
      match existing_job io r t with
      | Err m => (SRelease (Err m), t)
      | Ok (Some d) => (SRelease (Ok (d, true)), t)
      | Ok None => (SGuards (guards r) nothing_found, t)
      end
  | SGuards [] a => (SInsert a, t)
  | SGuards (g :: gs) a => match check_guard e r g t a with Err m => (SRelease (Err m), t) | Ok a => (SGuards gs a, t) end
  | SInsert a => match insert_job e r a t with Err m => (SRelease (Err m), t) | Ok t' => (SRelease (Ok (new_drive e r a, false)), t') end
  | SReplicaAgain d =>
      match getSnapshotReadyReplica io (dr_snapshot d) (dr_node d) t with
      | Err m => (SDone (Err m), t)
      | Ok _ => (SInfo d true, t)
      end
  | SInfo d reused =>
      match GetTemplateImageJobInfo io (dr_job d) t with
      | Err m => (SDone (Err m), t)
      | Ok j => if job_status j =s JobStatusPending then (SClaim d, t)
                else (SDone (if reused : bool then resolveExistingSnapshotJob j else finalizeSynchronousSnapshotJob j), t)
      end
  | SClaim d =>
      match claimSnapshotJobExecution io (dr_job d) (claim_phase r).1 (claim_phase r).2 t with
      | Err m => (SDone (Err m), t)
      | Ok (t', true) => (SOpen d, t')
      | Ok (t', false) => (SLook d, t')
      end
  | SLook d => (SDone (rbind (GetTemplateImageJobInfo io (dr_job d) t) resolveExistingSnapshotJob), t)
  | SOpen d =>
      (match r with RDelete _ _ _ => STargets d | _ => SCall d end,
       try_update io (dr_job d) (js_progress JobStatusRunning (claim_phase r).1 (claim_phase r).2) t)
  | SCall d =>
      match r with
      | RCreate _ _ _ _ _ _ _ =>
          match x_commit e with
          | Err m => (fail_pc r d m, t)
          | Ok c => match answer_error "commit sandbox failed" (cr_ret c) with Some m => (fail_pc r d m, t) | None => (SRegister d c, t) end
          end
      | RRollback _ _ _ _ =>
          match x_rollback e with
          | Err m => (fail_pc r d m, t)
          | Ok rr => match answer_error "rollback sandbox failed" (rr_ret rr) with Some m => (fail_pc r d m, t) | None => (SRef d rr, t) end
          end
      | RDelete _ _ _ => (STargets d, t)
      end
  | SRegister d c => (SProgress d c, try_update io (dr_job d) (fun s => js_node (dr_node d) (dr_ip d) (js_phase JobPhaseRegistering 70 s)) t)
  | SProgress d c => (SReplica d c, try_update io (dr_job d) (js_phase JobPhaseRegistering 85) t)
  | SReplica d c =>
      match io with
      | Some m => (fail_pc r d m, t)
      | None => (SDefinition d c, UpsertReplica (dr_snapshot d) (req_instance r) (snapshot_replica e r d c) t)
      end
  | SDefinition d c =>
      match io with
      | Some m => (fail_pc r d m, t)
      | None =>
          (SFinish d (fun s => js_template StatusReady (js_finished JobPhaseRegistering (json_commit (cr_path c) (dr_sandbox d)) "" s)),
           update_def (dr_snapshot d) (fun x => with_def_status StatusReady "" (x_now e) (with_def_size (cr_size c) x)) t)
      end
  | SFinish d f =>
      match guarded io (updateTemplateImageJob (dr_job d) f t) with
      | Err m => (SDone (Err m), t)
      | Ok t' => (SFinal d, t')
      end
  | SRef d rr =>
      match AcquireSnapshotRuntimeRef col true io (rollback_ref d rr) (x_now e) (runtime t) with
      | (rt, Err m) => (SFailJob d m (fun s => js_result (json_response rr) (js_failed JobPhaseRollbackRecovering m s)) [], set_runtime rt t)
      | (rt, Ok _) => (SFinish d (js_finished JobPhaseReady (json_response rr) (from_option snd "" (rr_ret rr))), set_runtime rt t)
      end
  | STargets d =>
      match discoverTemplateCleanupTargets io (dr_snapshot d) "" t with
      | Err m => (fail_pc r d m, t)
      | Ok g => (SClean d (snapshotDeleteLocators g) [], t)
      end
  | SClean d [] errs => (match join_errors errs with Err m => fail_pc r d m | Ok _ => SMeta d end, t)
  | SClean d (l :: ls) errs =>
      let err := if locator_host (x_host e) l =s ""
                 then Some ("cleanup template " +:+ dr_snapshot d +:+ ": missing node address for locator node=" +:+ l_NodeID l)
                 else cleanup_answer (dr_snapshot d) l (x_clean e l) in
      (SClean d ls (errs ++ option_list err)%list, t)
  | SMeta d => (SMetaDef d (option_list io), match io with Some _ => t | None => deleteReplicasByTemplateID (dr_snapshot d) t end)
  | SMetaDef d errs =>
      (match join_errors (errs ++ option_list io)%list with Err m => fail_pc r d m | Ok _ => SJobs d end,
       match io with Some _ => t | None => set_defs (delete (dr_snapshot d) (defs t)) t end)
  | SJobs d => match io with Some m => (SDone (Err m), t) | None => (SDone (Ok JobStatusReady), cleanupTemplateJobs (dr_snapshot d) t) end
  | SFailClean d m => (SFailReplicas d m, t)
  | SFailReplicas d m => (SFailDef d m, match io with Some _ => t | None => deleteReplicasByTemplateID (dr_snapshot d) t end)
  | SFailDef d m =>
      (SFailJob d m (match r with
                     | RDelete _ _ _ => js_failed JobPhaseDeleting m
                     | _ => fun s => js_template StatusFailed (js_failed JobPhaseRegistering m s)
                     end) (option_list io),
       match io with Some _ => t | None => UpdateDefinitionStatus (dr_snapshot d) StatusFailed m (x_now e) t end)
  | SFailJob d m f errs =>
      match guarded io (updateTemplateImageJob (dr_job d) f t) with
      | Err m' => (after_failure r d (errs ++ [m'])%list, t)
      | Ok t' => (after_failure r d errs, t')
      end
  | SFinal d => (SDone (rbind (GetTemplateImageJobInfo io (dr_job d) t) finalizeSynchronousSnapshotJob), t)
  | SAcquire _ | SRelease _ | SDone _ => (pc, t)
  end.

(** After the locks: a retried roll-back looks for its replica first. *)
Definition after_release (r : request) (out : res (drive * bool)) : spc :=
  match out with
  | Err m => SDone (Err m)
  | Ok (d, reused) => match r with RRollback _ _ _ _ => if reused : bool then SReplicaAgain d else SInfo d reused | _ => SInfo d reused end
  end.

(** A step of thread [i]; [None] when it waits for a lock or is done. *)
Definition thread_step (i : nat) (e : senv) (w : sworld) : option sworld :=
  match ths w !! i with
  | None => None
  | Some (MkSThread r held pc) =>
      match pc with
      | SDone _ => None
      | SAcquire [] => Some (MkSWorld (st w) (lk w) (<[i := MkSThread r held SExisting]> (ths w)))
      | SAcquire (k :: ks) =>
          match lk w !! k with
          | Some _ => None
          | None => Some (MkSWorld (st w) (<[k := i]> (lk w)) (<[i := MkSThread r (k :: held) (SAcquire ks)]> (ths w)))
          end
      | SRelease out =>
          match held with
          | k :: held => Some (MkSWorld (st w) (delete k (lk w)) (<[i := MkSThread r held (SRelease out)]> (ths w)))
          | [] => Some (MkSWorld (st w) (lk w) (<[i := MkSThread r [] (after_release r out)]> (ths w)))
          end
      | _ => let '(pc', t') := drive_step e r pc (st w) in Some (MkSWorld t' (lk w) (<[i := MkSThread r held pc']> (ths w)))
      end
  end.

Definition new_thread (r : request) : sthread := MkSThread r [] (SAcquire (lock_keys r)).

End Ops.

#[export] Instance guard_eq_dec : EqDecision guard.
Proof. solve_decision. Defined.

(** ** Histories *)

(** Jobs on snapshots, and those that work on a sandbox. *)
Definition snap_op (op : string) : Prop := op ∈ [JobOperationSnapshotCreate; JobOperationSnapshotRollback; JobOperationSnapshotDelete].
Definition sandbox_op (op : string) : Prop := op ∈ [JobOperationSnapshotCreate; JobOperationSnapshotRollback].

(** The drive of a thread that knows its job, and of one that works on it. *)
Definition driving (pc : spc) : option drive :=
  match pc with
  | SOpen d | SCall d | SRegister d _ | SProgress d _ | SReplica d _ | SDefinition d _ | SFinish d _ | SRef d _ | STargets d | SClean d _ _
  | SMeta d | SMetaDef d _ | SJobs d | SFailClean d _ | SFailReplicas d _ | SFailDef d _ | SFailJob d _ _ _ => Some d
  | _ => None
  end.
Definition knows (pc : spc) : option drive :=
  match pc with
  | SRelease (Ok (d, _)) | SReplicaAgain d | SInfo d _ | SClaim d | SLook d | SFinal d => Some d
  | _ => driving pc
  end.

(** The generated identifiers of a step are new. *)
Definition fresh (e : senv) (w : sworld) : Prop :=
  (forall j, j ∈ jobs (st w) -> j_JobID j <> x_job e /\ j_ResourceID j <> x_snapshot e) /\
  (forall i T, ths w !! i = Some T -> req_snapshot (h_req T) <> x_snapshot e /\ forall d, knows (h_pc T) = Some d -> dr_job d <> x_job e).

(** Other code leaves the jobs on snapshots alone, and its jobs have identifiers of their
    own. *)
Definition keeps_snapshot_jobs (w : sworld) (t : tables) : Prop :=
  NoDup (j_JobID <$> jobs t) /\
  (forall j, snap_op (j_Operation j) -> j ∈ jobs t <-> j ∈ jobs (st w)) /\
  (forall i T d j, ths w !! i = Some T -> knows (h_pc T) = Some d -> j ∈ jobs t -> j_JobID j = dr_job d -> snap_op (j_Operation j)).

Section Histories.
Context {rt : GoRuntime} {sj : SnapshotJSON} (fingerprint : string -> string -> string) (col : Z -> Z).

Inductive sstep (w : sworld) : sworld -> Prop :=
  | sstep_thread i e w' : fresh e w -> thread_step fingerprint col i e w = Some w' -> sstep w w'
  | sstep_start i r : ths w !! i = None -> json_text (req_sandbox r) -> json_text (req_snapshot r) ->
      sstep w (MkSWorld (st w) (lk w) (<[i := new_thread r]> (ths w)))
  | sstep_other t : keeps_snapshot_jobs w t -> sstep w (MkSWorld t (lk w) (ths w))
  | sstep_restart : sstep w (MkSWorld (st w) ∅ ∅).

(** ** Rows *)

(** The payload of a row says which sandbox and snapshot the row is about. *)
Definition payload_ok (j : TemplateImageJob) : Prop :=
  TrimSpace (j_RequestJSON j) <> "" /\
  (j_Operation j = JobOperationSnapshotCreate -> exists p, parse_create (j_RequestJSON j) = Some p /\ cp_SandboxID p = j_SandboxID j) /\
  (j_Operation j = JobOperationSnapshotRollback ->
     exists p, parse_rollback (j_RequestJSON j) = Some p /\ rp_SandboxID p = j_SandboxID j /\ rp_SnapshotID p = j_ResourceID j) /\
  (j_Operation j = JobOperationSnapshotDelete -> exists p, parse_delete (j_RequestJSON j) = Some p /\ dp_SnapshotID p = j_ResourceID j).

Record rows_ok (js : list TemplateImageJob) : Prop := {
  ro_ids : NoDup (j_JobID <$> js);
  ro_rows : forall j, j ∈ js -> snap_op (j_Operation j) -> j_TemplateID j = j_ResourceID j /\ payload_ok j;
  ro_sandbox : forall a b, a ∈ js -> b ∈ js -> sandbox_op (j_Operation a) -> sandbox_op (j_Operation b) -> j_active a = true -> j_active b = true ->
    j_SandboxID a = j_SandboxID b -> j_JobID a = j_JobID b;
  ro_resource : forall a b, a ∈ js -> b ∈ js -> snap_op (j_Operation a) -> snap_op (j_Operation b) -> j_active a = true -> j_active b = true ->
    j_ResourceID a = j_ResourceID b -> j_JobID a = j_JobID b;
}.

Lemma same_row js a b : NoDup (j_JobID <$> js) -> a ∈ js -> b ∈ js -> j_JobID a = j_JobID b -> a = b.
Proof.
  intros Hnd Ha Hb E. apply list_elem_of_lookup in Ha as [i Hi]. apply list_elem_of_lookup in Hb as [k Hk].
  assert (i = k); [|congruence]. apply (NoDup_lookup (j_JobID <$> js) i k (j_JobID a)); [done| |];
    rewrite list_lookup_fmap, ?Hi, ?Hk; cbn; congruence.
Qed.

(** [evolves js js']: each row comes from one with the same fixed columns, and no row
    becomes active. *)
Definition same_columns (a b : TemplateImageJob) : Prop :=
  j_JobID a = j_JobID b /\ j_TemplateID a = j_TemplateID b /\ j_RequestID a = j_RequestID b /\ j_SandboxID a = j_SandboxID b /\
  j_ResourceID a = j_ResourceID b /\ j_Operation a = j_Operation b /\ j_RequestJSON a = j_RequestJSON b.
Definition evolves (js js' : list TemplateImageJob) : Prop :=
  NoDup (j_JobID <$> js') /\ forall j', j' ∈ js' -> exists j, j ∈ js /\ same_columns j j' /\ (j_active j' = true -> j_active j = true).

Lemma rows_evolve js js' : rows_ok js -> evolves js js' -> rows_ok js'.
Proof.
  intros [Hids Hrows Hsb Hrs] [Hnd Hev]. constructor; [done|..].
  - intros j' Hj' Hop. destruct (Hev _ Hj') as (j & Hj & (E1 & E2 & E3 & E4 & E5 & E6 & E7) & _). rewrite <- E6 in Hop.
    destruct (Hrows _ Hj Hop) as [Et (P1 & P2 & P3 & P4)]. unfold payload_ok. rewrite <- E2, <- E4, <- E5, <- E6, <- E7. by split_and!.
  - intros a' b' Ha' Hb' Hopa Hopb Aa Ab E. destruct (Hev _ Ha') as (a & Ha & (A1 & _ & _ & A4 & _ & A6 & _) & Ka).
    destruct (Hev _ Hb') as (b & Hb & (B1 & _ & _ & B4 & _ & B6 & _) & Kb). rewrite <- A6 in Hopa. rewrite <- B6 in Hopb.
    rewrite <- A1, <- B1. apply Hsb; auto. congruence.
  - intros a' b' Ha' Hb' Hopa Hopb Aa Ab E. destruct (Hev _ Ha') as (a & Ha & (A1 & _ & _ & _ & A5 & A6 & _) & Ka).
    destruct (Hev _ Hb') as (b & Hb & (B1 & _ & _ & _ & B5 & B6 & _) & Kb). rewrite <- A6 in Hopa. rewrite <- B6 in Hopb.
    rewrite <- A1, <- B1. apply Hrs; auto. congruence.
Qed.

Lemma evolves_refl js : NoDup (j_JobID <$> js) -> evolves js js.
Proof. intros Hnd. split; [done|]. intros j Hj. exists j. split; [done|]. by repeat split. Qed.

Lemma evolves_map (f : TemplateImageJob -> TemplateImageJob) js : NoDup (j_JobID <$> js) -> (forall j, j ∈ js -> same_columns j (f j)) ->
  (forall j, j ∈ js -> j_active (f j) = true -> j_active j = true) -> evolves js (f <$> js).
Proof.
  intros Hnd Hf Ha. split.
  - assert (E : j_JobID <$> (f <$> js) = j_JobID <$> js); [|by rewrite E].
    rewrite <- list_fmap_compose. apply list_fmap_ext. intros k j Hj. cbn. symmetry. apply (Hf j). by eapply list_elem_of_lookup_2.
  - intros j' (j & -> & Hj)%list_elem_of_fmap. exists j. auto.
Qed.

Lemma evolves_filter (P : TemplateImageJob -> Prop) `{!forall j, Decision (P j)} js : NoDup (j_JobID <$> js) -> evolves js (filter P js).
Proof.
  intros Hnd. split.
  - eapply sublist_NoDup; [done|]. apply fmap_sublist, sublist_filter.
  - intros j Hj. apply list_elem_of_filter in Hj as [_ Hj]. exists j. split; [done|]. by repeat split.
Qed.

Lemma with_state_columns f j : same_columns j (with_state f j).
Proof. by repeat split. Qed.

(** ** Threads *)

Definition sandbox_idle (sb : string) (t : tables) : Prop :=
  forall j, j ∈ jobs t -> sandbox_op (j_Operation j) -> j_active j = true -> j_SandboxID j <> sb.
Definition snapshot_idle (id : string) (t : tables) : Prop :=
  forall j, j ∈ jobs t -> snap_op (j_Operation j) -> j_active j = true -> j_ResourceID j <> id.

Definition on_sandbox (r : request) : Prop := sandbox_op (req_op r).
Definition on_snapshot (r : request) : Prop := match r with RCreate _ _ _ _ _ _ _ => False | _ => True end.

(** What the guards before [gs] have established still holds. *)
Definition idle_after (r : request) (gs : list guard) (t : tables) : Prop :=
  (on_sandbox r -> GSandboxIdle ∉ gs -> sandbox_idle (req_sandbox r) t) /\ (on_snapshot r -> GResourceIdle ∉ gs -> snapshot_idle (req_snapshot r) t).

Definition pc_ok (t : tables) (r : request) (held : list string) (pc : spc) : Prop :=
  match pc with
  | SAcquire ks => rev held ++ ks = lock_keys r
  | SExisting => held = rev (lock_keys r)
  | SGuards gs _ => held = rev (lock_keys r) /\ idle_after r gs t
  | SInsert _ => held = rev (lock_keys r) /\ idle_after r [] t
  | SRelease _ => True
  | _ => held = []
  end%list.

(** The row of a drive is the row its request asked for. *)
Definition drive_row (t : tables) (r : request) (d : drive) : Prop :=
  forall j, j ∈ jobs t -> j_JobID j = dr_job d ->
    j_Operation j = req_op r /\ (on_sandbox r -> j_SandboxID j = dr_sandbox d) /\ j_ResourceID j = dr_snapshot d.
Definition running (t : tables) (d : drive) : Prop := exists j, j ∈ jobs t /\ j_JobID j = dr_job d /\ j_Status (j_state j) = JobStatusRunning.

Record thread_ok (t : tables) (locks : gmap string nat) (i : nat) (T : sthread) : Prop := {
  to_held : forall k, k ∈ h_held T <-> locks !! k = Some i;
  to_nodup : NoDup (h_held T);
  to_text : json_text (req_sandbox (h_req T)) /\ json_text (req_snapshot (h_req T));
  to_pc : pc_ok t (h_req T) (h_held T) (h_pc T);
  to_row : forall d, knows (h_pc T) = Some d -> drive_row t (h_req T) d;
  to_run : forall d, driving (h_pc T) = Some d -> running t d;
}.

Record sworld_ok (w : sworld) : Prop := {
  so_rows : rows_ok (jobs (st w));
  so_threads : forall i T, ths w !! i = Some T -> thread_ok (st w) (lk w) i T;
  so_owner : forall k i, lk w !! k = Some i -> is_Some (ths w !! i);
  so_apart : forall i k T1 T2 d1 d2, i <> k -> ths w !! i = Some T1 -> ths w !! k = Some T2 ->
    driving (h_pc T1) = Some d1 -> driving (h_pc T2) = Some d2 -> dr_job d1 <> dr_job d2;
}.

Lemma driving_knows pc d : driving pc = Some d -> knows pc = Some d.
Proof. by destruct pc. Qed.

Lemma idle_evolves r gs t t' : evolves (jobs t) (jobs t') -> idle_after r gs t -> idle_after r gs t'.
Proof.
  intros [_ Hev] [H1 H2]. split; intros Hon Hg j' Hj' Hop Hact;
    destruct (Hev _ Hj') as (j & Hj & (_ & _ & _ & E4 & E5 & E6 & _) & Ha); rewrite <- ?E4, <- ?E5.
  - apply H1; auto. by rewrite E6.
  - apply H2; auto. by rewrite E6.
Qed.

Lemma row_evolves r d t t' : evolves (jobs t) (jobs t') -> drive_row t r d -> drive_row t' r d.
Proof.
  intros [_ Hev] Hr j' Hj' E. destruct (Hev _ Hj') as (j & Hj & (E1 & _ & _ & E4 & E5 & E6 & _) & _).
  rewrite <- E4, <- E5, <- E6. apply Hr; [done|congruence].
Qed.

Lemma pc_evolves t t' r held pc : evolves (jobs t) (jobs t') -> pc_ok t r held pc -> pc_ok t' r held pc.
Proof. intros Hev. destruct pc; try done; cbn; intros [E Hi]; (split; [done|]); by eapply idle_evolves. Qed.

(** A thread that does nothing while the jobs evolve and its own keeps running. *)
Lemma thread_evolves t t' locks i T : evolves (jobs t) (jobs t') -> (forall d, driving (h_pc T) = Some d -> running t d -> running t' d) ->
  thread_ok t locks i T -> thread_ok t' locks i T.
Proof. intros Hev Hrun [H1 H2 H3 H4 H5 H6]. constructor; eauto using pc_evolves, row_evolves. Qed.

Lemma running_row js t d j : jobs t = js -> NoDup (j_JobID <$> js) -> running t d -> j ∈ js -> j_JobID j = dr_job d -> j_Status (j_state j) = JobStatusRunning.
Proof. intros <- Hnd (j2 & Hj2 & E & Es) Hj Ej. by rewrite (same_row (jobs t) j j2) by (done || congruence). Qed.

Lemma active_running j : j_Status (j_state j) = JobStatusRunning -> j_active j = true.
Proof. unfold j_active. intros ->. done. Qed.

Definition updated (job : string) (f : JobState -> JobState) (j : TemplateImageJob) : TemplateImageJob := if j_JobID j =s job then with_state f j else j.

Lemma update_job_ok job f t t' : updateTemplateImageJob job f t = Ok t' -> jobs t' = updated job f <$> jobs t.
Proof. unfold updateTemplateImageJob. destruct (getTemplateImageJobRecordByID job t); [|done]. by intros [= <-]. Qed.

Lemma updated_columns job f j : same_columns j (updated job f j).
Proof. unfold updated. by case_bool_decide. Qed.

(** Updates of the job of a thread that drives it. *)
Lemma update_evolves d f t t' : NoDup (j_JobID <$> jobs t) -> running t d -> jobs t' = updated (dr_job d) f <$> jobs t -> evolves (jobs t) (jobs t').
Proof.
  intros Hnd Hrun ->. apply evolves_map; [done|intros; apply updated_columns|]. intros j Hj. unfold updated. case_bool_decide as E; [|done].
  intros _. apply active_running. by eapply running_row.
Qed.

Lemma update_running d d2 f t t' : jobs t' = updated (dr_job d) f <$> jobs t -> running t d2 ->
  dr_job d2 <> dr_job d \/ (forall s, j_Status s = JobStatusRunning -> j_Status (f s) = JobStatusRunning) -> running t' d2.
Proof.
  intros E (j & Hj & Ej & Es) Hor. exists (updated (dr_job d) f j). rewrite E. split_and!.
  - apply list_elem_of_fmap. by exists j.
  - rewrite <- Ej. unfold updated. by case_bool_decide.
  - unfold updated. case_bool_decide; [|done]. destruct Hor as [Hne|Hf]; [congruence|by apply Hf].
Qed.

(** *** Steps outside the locks *)

(** Counters of threads that hold locks, or wait for them, and the end. *)
Definition locked (pc : spc) : Prop :=
  match pc with SAcquire _ | SExisting | SGuards _ _ | SInsert _ | SRelease _ => True | _ => False end.

Ltac pcs := repeat first [case_match | progress simplify_eq]; try done.

Lemma drive_pcs e r pc t pc' t' : drive_step fingerprint col e r pc t = (pc', t') -> ~ locked pc ->
  ~ locked pc' /\ (forall d, driving pc' = Some d -> driving pc = Some d \/ pc = SClaim d) /\ (forall d, knows pc' = Some d -> knows pc = Some d).
Proof.
  intros Hs Hl. destruct pc; try (by exfalso; apply Hl); cbn -[claimSnapshotJobExecution UpsertReplica AcquireSnapshotRuntimeRef discoverTemplateCleanupTargets
    deleteReplicasByTemplateID cleanupTemplateJobs updateTemplateImageJob join_errors GetTemplateImageJobInfo] in Hs.
  all: unfold fail_pc, after_failure in Hs; pcs; split_and!; cbn; try tauto; intros ? [= <-]; auto.
Qed.

Lemma claim_ok io job phase progress t t' b : claimSnapshotJobExecution io job phase progress t = Ok (t', b) ->
  let mine j := (j_JobID j =s job) && (j_Status (j_state j) =s JobStatusPending) in
  jobs t' = (fun j => if mine j then with_state (js_progress JobStatusRunning phase progress) j else j) <$> jobs t /\ b = existsb mine (jobs t).
Proof. unfold claimSnapshotJobExecution. destruct io; [done|]. by intros [= <- <-]. Qed.

Lemma upsert_jobs tid ty x t : jobs (UpsertReplica tid ty x t) = jobs t.
Proof. unfold UpsertReplica. by case_match. Qed.

Lemma try_update_jobs io job f t : jobs (try_update io job f t) = jobs t \/ jobs (try_update io job f t) = updated job f <$> jobs t.
Proof.
  unfold try_update. destruct io; cbn; [by left|]. destruct (updateTemplateImageJob job f t) as [t'|] eqn:Eu; [|by left].
  right. by apply (update_job_ok job f t t').
Qed.

(** The jobs after a step outside the locks. *)
Inductive jobs_change (t t' : tables) (pc pc' : spc) : Prop :=
  | jc_same : jobs t' = jobs t -> (forall d, pc = SClaim d -> driving pc' = None) -> jobs_change t t' pc pc'
  | jc_update d f : driving pc = Some d -> jobs t' = updated (dr_job d) f <$> jobs t ->
      (is_Some (driving pc') -> forall s, j_Status s = JobStatusRunning -> j_Status (f s) = JobStatusRunning) -> jobs_change t t' pc pc'
  | jc_claim d phase progress : pc = SClaim d ->
      jobs t' = (fun j => if (j_JobID j =s dr_job d) && (j_Status (j_state j) =s JobStatusPending)
                          then with_state (js_progress JobStatusRunning phase progress) j else j) <$> jobs t ->
      (is_Some (driving pc') -> exists j, j ∈ jobs t /\ j_JobID j = dr_job d /\ j_Status (j_state j) = JobStatusPending) -> jobs_change t t' pc pc'
  | jc_clean d : pc = SJobs d -> pc' = SDone (Ok JobStatusReady) -> t' = cleanupTemplateJobs (dr_snapshot d) t -> jobs_change t t' pc pc'.

Lemma guarded_update io job f t t' : guarded io (updateTemplateImageJob job f t) = Ok t' -> jobs t' = updated job f <$> jobs t.
Proof. destruct io; [done|]. apply update_job_ok. Qed.

Lemma drive_jobs e r pc t pc' t' : drive_step fingerprint col e r pc t = (pc', t') -> ~ locked pc -> jobs_change t t' pc pc'.
Proof.
  intros Hs Hl. destruct pc as [| | | | |d|d reused|d|d|d|d|d c|d c|d c|d c|d f|d rr|d|d [|l ls] errs|d|d errs|d|d m|d m|d m|d m f errs|d|out]; try (by exfalso; apply Hl);
    cbn -[claimSnapshotJobExecution UpsertReplica AcquireSnapshotRuntimeRef discoverTemplateCleanupTargets
    deleteReplicasByTemplateID cleanupTemplateJobs updateTemplateImageJob try_update join_errors GetTemplateImageJobInfo] in Hs.
  all: try (solve [apply jc_same; [unfold deleteReplicasByTemplateID in Hs; pcs; apply upsert_jobs|by intros ? ?]]).
  - destruct (claimSnapshotJobExecution _ _ _ _ _) as [[t1 b]|] eqn:Ec; [|injection Hs as <- <-; by apply jc_same].
    apply claim_ok in Ec as [Ej Eb]. destruct b; injection Hs as <- <-; (eapply jc_claim; [done|exact Ej|]); [|by intros []]. intros _.
    symmetry in Eb. apply existsb_exists in Eb as (j & Hj & Hm). apply andb_true_iff in Hm as [H1 H2]. exists j.
    split; [by apply list_elem_of_In|]. by rewrite bool_decide_eq_true in H1, H2.
  - assert (Ht : t' = try_update (x_io e) (dr_job d) (js_progress JobStatusRunning (claim_phase r).1 (claim_phase r).2) t) by (destruct r; by injection Hs as _ <-).
    destruct (try_update_jobs (x_io e) (dr_job d) (js_progress JobStatusRunning (claim_phase r).1 (claim_phase r).2) t) as [E|E];
      rewrite <- Ht in E; [by apply jc_same|by eapply jc_update].
  - injection Hs as _ <-. edestruct try_update_jobs as [E|E]; [apply jc_same; [exact E|done]|eapply jc_update; [done|exact E|done]].
  - injection Hs as _ <-. edestruct try_update_jobs as [E|E]; [apply jc_same; [exact E|done]|eapply jc_update; [done|exact E|done]].
  - destruct (guarded _ _) as [t1|] eqn:Eg; injection Hs as <- <-; [|by apply jc_same]. apply guarded_update in Eg. by eapply jc_update; [done|exact Eg|intros []].
  - destruct (x_io e); injection Hs as <- <-; [by apply jc_same|by eapply jc_clean].
  - destruct (guarded _ _) as [t1|] eqn:Eg; injection Hs as <- <-; [|by apply jc_same]. apply guarded_update in Eg. eapply jc_update; [done|exact Eg|].
    unfold after_failure. repeat case_match; intros []; done.
Qed.

Lemma status_differs : JobStatusRunning <> JobStatusPending.
Proof. done. Qed.

Lemma op_is_snap r : snap_op (req_op r).
Proof. unfold snap_op. destruct r; cbn; set_solver. Qed.

(** What a step outside the locks does to the jobs, to the thread's own row and to the
    rows of threads that drive other jobs. *)
Lemma change_effect t t' r pc pc' : rows_ok (jobs t) -> jobs_change t t' pc pc' ->
  (forall d, knows pc = Some d -> drive_row t r d) -> (forall d, driving pc = Some d -> running t d) ->
  (forall d, driving pc' = Some d -> driving pc = Some d \/ pc = SClaim d) ->
  evolves (jobs t) (jobs t') /\
  (forall d2 r2, running t d2 -> drive_row t r2 d2 -> (forall d, driving pc = Some d -> dr_job d2 <> dr_job d) -> running t' d2) /\
  (forall d, driving pc' = Some d -> running t' d /\ (driving pc = Some d \/ forall d2, running t d2 -> dr_job d2 <> dr_job d)).
Proof.
  intros Hro Hc Hrow Hrun Hpc. pose proof (ro_ids _ Hro) as Hnd. destruct Hc as [E Hcl|d f Hd E Hf|d phase progress -> E Hp|d -> -> ->].
  - assert (Hsame : forall d, running t d -> running t' d) by (intros d; unfold running; by rewrite E).
    split_and!; [rewrite E; by apply evolves_refl|auto|]. intros d Hd. destruct (Hpc _ Hd) as [H1| ->]; [auto|].
    by rewrite (Hcl d eq_refl) in Hd.
  - split_and!; [eapply (update_evolves d f); auto|..].
    + intros d2 r2 H2 _ Hne. eapply update_running; [exact E|done|]. left. auto.
    + intros d2 Hd2. destruct (Hpc _ Hd2) as [H1| ->]; [|done]. assert (d2 = d) as -> by congruence.
      split; [|by left]. eapply update_running; [exact E|auto|]. right. apply Hf. eauto.
  - set (mine := fun j => (j_JobID j =s dr_job d) && (j_Status (j_state j) =s JobStatusPending)) in *.
    assert (Hmine : forall j, mine j = true -> j_JobID j = dr_job d /\ j_Status (j_state j) = JobStatusPending).
    { intros j Hm. apply andb_true_iff in Hm as [H1 H2]. by rewrite bool_decide_eq_true in H1, H2. }
    split_and!.
    + rewrite E. apply evolves_map; [done|intros j _; by case_match|].
      intros j _. change (j_active (if mine j then with_state (js_progress JobStatusRunning phase progress) j else j) = true -> j_active j = true).
      destruct (mine j) eqn:Em; [|done]. intros _. apply Hmine in Em as [_ Es]. unfold j_active. rewrite Es. done.
    + intros d2 r2 (j & Hj & Ej & Es) _ _. exists j. rewrite E. split_and!; [|done|done]. apply list_elem_of_fmap. exists j.
      change (j = (if mine j then with_state (js_progress JobStatusRunning phase progress) j else j) /\ j ∈ jobs t).
      destruct (mine j) eqn:Em; [|done]. apply Hmine in Em as [_ Es2]. exfalso. apply status_differs. congruence.
    + intros d2 Hd2. destruct (Hpc _ Hd2) as [|[= ->]]; [done|]. destruct Hp as (j & Hj & Ej & Es); [eauto|]. split.
      * exists (with_state (js_progress JobStatusRunning phase progress) j). split_and!; [|done|done]. rewrite E. apply list_elem_of_fmap.
        exists j. by rewrite !bool_decide_true.
      * right. intros d3 (j3 & Hj3 & Ej3 & Es3) E3. assert (j = j3) as <- by (apply (same_row (jobs t)); congruence). apply status_differs. congruence.
  - split_and!; [by apply evolves_filter| |done]. intros d2 r2 (j & Hj & Ej & Es) H2 Hne. exists j. split_and!; [|done|done].
    apply list_elem_of_filter. split; [|done]. intros Et. specialize (Hne d eq_refl). apply Hne. rewrite <- Ej.
    destruct (Hrun d eq_refl) as (j1 & Hj1 & Ej1 & Es1). rewrite <- Ej1.
    destruct (H2 _ Hj Ej) as (Hop & _ & _). destruct (Hrow d eq_refl _ Hj1 Ej1) as (Hop1 & _ & Er1).
    apply (ro_resource _ Hro); auto using active_running; [rewrite Hop; apply op_is_snap|rewrite Hop1; apply op_is_snap|].
    rewrite Er1, <- Et. symmetry. apply (ro_rows _ Hro); [done|]. rewrite Hop. apply op_is_snap.
Qed.

Lemma outside_pc t r held pc : ~ locked pc -> (pc_ok t r held pc <-> held = []).
Proof. intros Hl. destruct pc; try done; by exfalso; apply Hl. Qed.

Lemma lookup_thread {A} (m : gmap nat A) i x k y : <[i := x]> m !! k = Some y -> (k = i /\ y = x) \/ (k <> i /\ m !! k = Some y).
Proof. intros Hl. apply lookup_insert_Some in Hl as [[<- <-]|[Hne Hl]]; auto. Qed.

Lemma ok_outside i e r held pc w pc' t' : sworld_ok w -> ths w !! i = Some (MkSThread r held pc) -> ~ locked pc ->
  drive_step fingerprint col e r pc (st w) = (pc', t') -> sworld_ok (MkSWorld t' (lk w) (<[i := MkSThread r held pc']> (ths w))).
Proof.
  intros Hw Hi Hl Hs. pose proof (so_threads _ Hw _ _ Hi) as Hok. destruct (drive_pcs _ _ _ _ _ _ Hs Hl) as (Hl' & Hd & Hkn).
  pose proof (drive_jobs _ _ _ _ _ _ Hs Hl) as Hch.
  destruct (change_effect (st w) t' r pc pc' (so_rows _ Hw) Hch (to_row _ _ _ _ Hok) (to_run _ _ _ _ Hok) Hd) as (Hev & Hothers & Hown).
  constructor; cbn.
  - eapply rows_evolve; [apply (so_rows _ Hw)|exact Hev].
  - intros k T Hk. apply lookup_thread in Hk as [[-> ->]|[Hne Hk]].
    + destruct Hok as [H1 H2 H3 H4 H5 H6]. constructor; cbn; auto.
      * apply outside_pc; [done|]. by apply (outside_pc (st w) r held pc).
      * intros d Hkd. eapply row_evolves; [exact Hev|]. cbn in H5. auto.
      * intros d Hdd. by apply Hown.
    + pose proof (so_threads _ Hw _ _ Hk) as Hok2. eapply thread_evolves; [exact Hev| |done]. intros d2 Hd2 Hr2.
      eapply Hothers; [done|by apply (to_row _ _ _ _ Hok2), driving_knows|]. intros d Hdd. by eapply (so_apart _ Hw k i).
  - intros key k Hk. destruct (decide (k = i)) as [->|Hne]; [rewrite lookup_insert_eq; eauto|rewrite lookup_insert_ne by done]. by eapply (so_owner _ Hw).
  - intros k1 k2 T1 T2 d1 d2 Hne H1 H2 D1 D2. apply lookup_thread in H1 as [[-> ->]|[N1 H1]]; apply lookup_thread in H2 as [[-> ->]|[N2 H2]]; try done.
    + destruct (Hown _ D1) as [_ [Hp|Hp]]; [by eapply (so_apart _ Hw i k2)|]. apply not_eq_sym, Hp. by apply (to_run _ _ _ _ (so_threads _ Hw _ _ H2)).
    + destruct (Hown _ D2) as [_ [Hp|Hp]]; [by eapply (so_apart _ Hw k1 i)|]. apply Hp. by apply (to_run _ _ _ _ (so_threads _ Hw _ _ H1)).
    + by eapply (so_apart _ Hw k1 k2).
Qed.

(** *** Steps under the locks *)

(** A thread's step that changes no job and starts no drive. *)
Lemma ok_quiet i r held pc w pc' locks' held' : sworld_ok w -> ths w !! i = Some (MkSThread r held pc) ->
  driving pc' = None -> thread_ok (st w) locks' i (MkSThread r held' pc') ->
  (forall k key, k <> i -> locks' !! key = Some k <-> lk w !! key = Some k) ->
  sworld_ok (MkSWorld (st w) locks' (<[i := MkSThread r held' pc']> (ths w))).
Proof.
  intros Hw Hi Hd Hok Hlk. constructor; cbn.
  - apply (so_rows _ Hw).
  - intros k T Hk. apply lookup_thread in Hk as [[-> ->]|[Hne Hk]]; [done|].
    destruct (so_threads _ Hw _ _ Hk) as [H1 H2 H3 H4 H5 H6]. constructor; auto. intros key. by rewrite H1, Hlk.
  - intros key k Hk. destruct (decide (k = i)) as [->|Hne]; [rewrite lookup_insert_eq; eauto|rewrite lookup_insert_ne by done].
    eapply (so_owner _ Hw). by apply Hlk.
  - intros k1 k2 T1 T2 d1 d2 Hne H1 H2 D1 D2. apply lookup_thread in H1 as [[-> ->]|[N1 H1]]; apply lookup_thread in H2 as [[-> ->]|[N2 H2]]; cbn in *; try congruence.
    by eapply (so_apart _ Hw k1 k2).
Qed.

Lemma last_filter_none {A} (P : A -> Prop) `{!forall x, Decision (P x)} l x : last (filter P l) = None -> x ∈ l -> ~ P x.
Proof. intros Hn%last_None Hx HP. assert (Hf : x ∈ filter P l) by by apply list_elem_of_filter. rewrite Hn in Hf. by apply not_elem_of_nil in Hf. Qed.

Lemma or_fail_ok {A} io (r : res A) x : or_fail io r = Ok x -> r = Ok x.
Proof. by destruct io. Qed.

Lemma guard_idle e r g gs t a a' : check_guard e r g t a = Ok a' -> idle_after r (g :: gs) t -> idle_after r gs t.
Proof.
  intros Hc [H1 H2]. split; intros Hon Hg.
  - destruct (decide (g = GSandboxIdle)) as [->|Hne]; [|apply H1; [done|]; rewrite not_elem_of_cons; auto].
    apply or_fail_ok in Hc. destruct (getActiveSnapshotJobBySandboxID _ _) eqn:Eg; [done|].
    intros j Hj Hop Hact E. eapply (last_filter_none _ _ j Eg); [done|]. by split_and!.
  - destruct (decide (g = GResourceIdle)) as [->|Hne]; [|apply H2; [done|]; rewrite not_elem_of_cons; auto].
    apply or_fail_ok in Hc. destruct (getActiveSnapshotJobByResourceID _ _) eqn:Eg; [done|].
    intros j Hj Hop Hact E. eapply (last_filter_none _ _ j Eg); [done|]. by split_and!.
Qed.

Lemma guards_start r t : idle_after r (guards r) t.
Proof. split; intros Hon Hg; exfalso; destruct r; try done; try (apply Hg; set_solver); cbn in Hon; unfold on_sandbox, sandbox_op in Hon; cbn in Hon; set_solver. Qed.

(** The job found for a retried request is the one it asks for. *)
Lemma existing_row io r t d : rows_ok (jobs t) -> existing_job fingerprint io r t = Ok (Some d) -> drive_row t r d.
Proof.
  intros Hro He. unfold existing_job in He. destruct io; [done|]. unfold getTemplateImageJobByRequestID in He.
  destruct (last _) as [j|] eqn:El; [|done]. apply last_Some_elem_of in El. apply list_elem_of_filter in El as [_ Hj].
  destruct (bool_decide_reflect (j_Operation j = req_op r)) as [Eop|]; [|done]. cbn [negb] in He.
  destruct (ro_rows _ Hro _ Hj) as [Et (P1 & P2 & P3 & P4)]; [rewrite Eop; apply op_is_snap|].
  assert (Hone : dr_job d = j_JobID j -> (on_sandbox r -> j_SandboxID j = dr_sandbox d) -> j_ResourceID j = dr_snapshot d -> drive_row t r d).
  { intros E1 E2 E3 j2 Hj2 Ej. assert (j2 = j) as -> by (apply (same_row (jobs t)); [apply Hro|done..|congruence]). auto. }
  destruct r as [id sb node ip name tpl o|id sb s it|id s it]; cbn in He, Eop.
  - unfold snapshotCreateRequestMatches, blank in He. rewrite (bool_decide_false (TrimSpace _ = _)) in He by done.
    destruct (P2 Eop) as (p & Hp & Esb). rewrite Hp in He. destruct (_ || _) eqn:Em; [done|]. destruct (if _ =s _ then true else _); [|done]. injection He as <-.
    apply Hone; [done| |by rewrite Et]. intros _. cbn. rewrite <- Esb. rewrite !orb_false_iff, !negb_false_iff, !bool_decide_eq_true in Em. tauto.
  - unfold snapshotRollbackRequestMatches, blank in He. rewrite (bool_decide_false (TrimSpace _ = _)) in He by done.
    destruct (P3 Eop) as (p & Hp & Esb & Es). rewrite Hp in He. destruct (_ && _) eqn:Em; [|done]. injection He as <-. by apply Hone.
  - unfold snapshotDeleteRequestMatches, blank in He. rewrite (bool_decide_false (TrimSpace _ = _)) in He by done.
    destruct (P4 Eop) as (p & Hp & Es). rewrite Hp in He. destruct (_ && _) eqn:Em; [|done]. injection He as <-. apply Hone; [done| |done].
    unfold on_sandbox, sandbox_op. cbn. set_solver.
Qed.

(** The row an insertion adds. *)
Lemma insert_row e r a t t' : insert_job fingerprint e r a t = Ok t' -> json_text (req_sandbox r) -> json_text (req_snapshot r) ->
  exists n, jobs t' = (jobs t ++ [n])%list /\ j_JobID n = x_job e /\ j_Operation n = req_op r /\ j_active n = true /\
    (on_sandbox r -> j_SandboxID n = req_sandbox r) /\ (on_snapshot r -> j_ResourceID n = req_snapshot r) /\
    (~ on_snapshot r -> j_ResourceID n = x_snapshot e) /\ j_TemplateID n = j_ResourceID n /\ payload_ok n /\
    dr_job (new_drive e r a) = x_job e /\ (on_sandbox r -> dr_sandbox (new_drive e r a) = req_sandbox r) /\ j_ResourceID n = dr_snapshot (new_drive e r a).
Proof.
  intros Hin Tsb Tsn. unfold insert_job in Hin. destruct (x_io e); [done|]. cbn [guarded] in Hin.
  assert (Hcr : forall t1, jobs t1 = jobs t -> create_job (new_job fingerprint e r a) t1 = Ok t' -> exists z, jobs t' = (jobs t ++ [with_job_id z (new_job fingerprint e r a)])%list).
  { intros t1 E1. unfold create_job. destruct (existsb _ _); [done|]. intros [= <-]. cbn. rewrite E1. eauto. }
  assert (Hz : exists z, jobs t' = (jobs t ++ [with_job_id z (new_job fingerprint e r a)])%list).
  { destruct r; [|by apply (Hcr t)|by eapply Hcr; [|exact Hin]]. destruct (createDefinitionTx _ _ _ _ _ _ _ _) as [t1|] eqn:Ed; [|done]. cbn in Hin.
    apply (Hcr t1); [|done]. unfold createDefinitionTx in Ed. destruct (defs t !! _); [done|]. by injection Ed as <-. }
  destruct Hz as [z Hz]. exists (with_job_id z (new_job fingerprint e r a)). split; [exact Hz|].
  destruct r as [id sb node ip name tpl o|id sb s it|id s it]; cbn; split_and!; try done; unfold payload_ok; cbn; split_and!; try done;
    try apply create_not_blank; try apply rollback_not_blank; try apply delete_not_blank.
  - intros _. edestruct create_parses as (q & Hq & H1 & _). exists q. split; [exact Hq|by apply H1].
  - intros _. edestruct rollback_parses as (q & Hq & H1 & H2). exists q. split; [exact Hq|]. split; [by apply H1|by apply H2].
  - intros _. edestruct delete_parses as (q & Hq & H1). exists q. split; [exact Hq|by apply H1].
Qed.

(** A row for an idle sandbox and an idle snapshot. *)
Lemma rows_insert js n : rows_ok js -> (forall j, j ∈ js -> j_JobID j <> j_JobID n) -> snap_op (j_Operation n) -> j_TemplateID n = j_ResourceID n -> payload_ok n ->
  (sandbox_op (j_Operation n) -> forall j, j ∈ js -> sandbox_op (j_Operation j) -> j_active j = true -> j_SandboxID j <> j_SandboxID n) ->
  (forall j, j ∈ js -> snap_op (j_Operation j) -> j_active j = true -> j_ResourceID j <> j_ResourceID n) -> rows_ok (js ++ [n])%list.
Proof.
  intros [Hids Hrows Hsb Hrs] Hnew Hop Et Hp Hisb Hirs.
  assert (Hin : forall j, j ∈ (js ++ [n])%list -> j ∈ js \/ j = n) by (intros j; rewrite elem_of_app, list_elem_of_singleton; done).
  constructor.
  - rewrite fmap_app. apply NoDup_app. split_and!; [done| |apply NoDup_singleton]. intros x (j & -> & Hj)%list_elem_of_fmap Hx.
    apply list_elem_of_singleton in Hx. by apply (Hnew j).
  - intros j [Hj| ->]%Hin; auto.
  - intros a b [Ha| ->]%Hin [Hb| ->]%Hin Oa Ob Aa Ab E; auto; [by destruct (Hisb Ob a)|by destruct (Hisb Oa b)].
  - intros a b [Ha| ->]%Hin [Hb| ->]%Hin Oa Ob Aa Ab E; auto; [by destruct (Hirs a)|by destruct (Hirs b)].
Qed.

Lemma rev_elem {A} (l : list A) x : x ∈ rev l <-> x ∈ l.
Proof. by rewrite !list_elem_of_In, <- in_rev. Qed.

Lemma sandbox_key r : on_sandbox r -> snapshotSandboxLockKey (req_sandbox r) ∈ lock_keys r.
Proof. destruct r; cbn; [set_solver|set_solver|]. unfold on_sandbox, sandbox_op. cbn. set_solver. Qed.
Lemma snapshot_key r : on_snapshot r -> snapshotResourceLockKey (req_snapshot r) ∈ lock_keys r.
Proof. destruct r; cbn; [done|set_solver|set_solver]. Qed.

(** Threads in their locked section hold different keys. *)
Lemma keys_apart w i k T1 T2 key : sworld_ok w -> ths w !! i = Some T1 -> ths w !! k = Some T2 -> i <> k ->
  h_held T1 = rev (lock_keys (h_req T1)) -> h_held T2 = rev (lock_keys (h_req T2)) -> key ∈ lock_keys (h_req T1) -> key ∈ lock_keys (h_req T2) -> False.
Proof.
  intros Hw H1 H2 Hne E1 E2 K1 K2. apply Hne. pose proof (to_held _ _ _ _ (so_threads _ Hw _ _ H1) key) as L1.
  pose proof (to_held _ _ _ _ (so_threads _ Hw _ _ H2) key) as L2. rewrite E1, rev_elem in L1. rewrite E2, rev_elem in L2. naive_solver congruence.
Qed.

(** An insertion of [n] by thread [i] leaves the other threads as they are. *)
Lemma other_insert e r i held a w t' n k T : sworld_ok w -> fresh e w -> ths w !! i = Some (MkSThread r held (SInsert a)) -> ths w !! k = Some T -> k <> i ->
  jobs t' = (jobs (st w) ++ [n])%list -> j_JobID n = x_job e -> j_Operation n = req_op r -> (on_sandbox r -> j_SandboxID n = req_sandbox r) ->
  (on_snapshot r -> j_ResourceID n = req_snapshot r) -> (~ on_snapshot r -> j_ResourceID n = x_snapshot e) -> thread_ok t' (lk w) k T.
Proof.
  intros Hw [_ Hfr] Hi Hk Hne Ej En Eop Esb Esn Ecr. pose proof (so_threads _ Hw _ _ Hk) as Hok. pose proof (so_threads _ Hw _ _ Hi) as Hme.
  destruct (to_pc _ _ _ _ Hme) as [Eheld _]. cbn in Eheld. destruct (Hfr _ _ Hk) as [Hsnap Hjob].
  assert (Hin : forall j, j ∈ jobs t' <-> j ∈ jobs (st w) \/ j = n) by (intros j; rewrite Ej, elem_of_app, list_elem_of_singleton; done).
  assert (Hidle : forall gs, h_held T = rev (lock_keys (h_req T)) -> idle_after (h_req T) gs (st w) -> idle_after (h_req T) gs t').
  { intros gs Eh [I1 I2]. split; intros Hon Hg j [Hj| ->]%Hin Hop Hact; [by apply I1| |by apply I2|].
    - rewrite Eop in Hop. rewrite (Esb Hop). intros E. apply (keys_apart w i k _ _ (snapshotSandboxLockKey (req_sandbox r)) Hw Hi Hk); auto using sandbox_key.
      rewrite E. by apply sandbox_key.
    - assert (Hd : on_snapshot r \/ ~ on_snapshot r) by (destruct r; cbn; tauto). destruct Hd as [Hd|Hd]; [|rewrite (Ecr Hd); by apply not_eq_sym].
      rewrite (Esn Hd). intros E. apply (keys_apart w i k _ _ (snapshotResourceLockKey (req_snapshot r)) Hw Hi Hk); auto using snapshot_key.
      rewrite E. by apply snapshot_key. }
  destruct Hok as [H1 H2 H3 H4 H5 H6]. constructor; auto.
  - destruct (h_pc T); cbn in *; try done; naive_solver.
  - intros d Hd j [Hj| ->]%Hin E; [by apply (H5 d)|]. exfalso. apply (Hjob d Hd). congruence.
  - intros d Hd. destruct (H6 d Hd) as (j & Hj & ?). exists j. rewrite Hin. auto.
Qed.

Lemma ok_insert i e r held a w t' : sworld_ok w -> fresh e w -> ths w !! i = Some (MkSThread r held (SInsert a)) -> insert_job fingerprint e r a (st w) = Ok t' ->
  sworld_ok (MkSWorld t' (lk w) (<[i := MkSThread r held (SRelease (Ok (new_drive e r a, false)))]> (ths w))).
Proof.
  intros Hw Hfr Hi Hin. pose proof (so_threads _ Hw _ _ Hi) as Hme. destruct (to_text _ _ _ _ Hme) as [Tsb Tsn]. cbn in Tsb, Tsn.
  destruct (insert_row _ _ _ _ _ Hin Tsb Tsn) as (n & Ej & En & Eop & Hact & Esb & Esn & Ecr & Et & Hp & Edr & Edsb & Edsn).
  destruct (to_pc _ _ _ _ Hme) as [Eheld [I1 I2]]. cbn in Eheld, I1, I2.
  assert (Hinj : forall j, j ∈ jobs t' <-> j ∈ jobs (st w) \/ j = n) by (intros j; rewrite Ej, elem_of_app, list_elem_of_singleton; done).
  constructor; cbn.
  - rewrite Ej. apply rows_insert; try done.
    + apply (so_rows _ Hw).
    + intros j Hj. rewrite En. by apply Hfr.
    + rewrite Eop. apply op_is_snap.
    + rewrite Eop. intros Hon j Hj. rewrite (Esb Hon). apply I1; [done|set_solver|done].
    + intros j Hj Hop Ha. assert (Hd : on_snapshot r \/ ~ on_snapshot r) by (destruct r; cbn; tauto).
      destruct Hd as [Hd|Hd]; [rewrite (Esn Hd); apply I2; [done|set_solver|done..]|rewrite (Ecr Hd); by apply Hfr].
  - intros k T Hk. apply lookup_thread in Hk as [[-> ->]|[Hne Hk]]; [|by eapply (other_insert e r i)].
    destruct Hme as [H1 H2 H3 H4 H5 H6]. constructor; cbn in *; try done. intros d [= <-] j [Hj| ->]%Hinj E.
    + exfalso. rewrite Edr in E. by apply (proj1 (proj1 Hfr j Hj)).
    + split_and!; [done| |done]. intros Hon. by rewrite Esb, Edsb.
  - intros key k Hk. destruct (decide (k = i)) as [->|Hne]; [rewrite lookup_insert_eq; eauto|rewrite lookup_insert_ne by done]. by eapply (so_owner _ Hw).
  - intros k1 k2 T1 T2 d1 d2 Hne H1 H2 D1 D2. apply lookup_thread in H1 as [[-> ->]|[N1 H1]]; apply lookup_thread in H2 as [[-> ->]|[N2 H2]]; try done.
    by eapply (so_apart _ Hw k1 k2).
Qed.

Lemma after_release_pc r out : ~ locked (after_release r out) /\ driving (after_release r out) = None /\
  forall d, knows (after_release r out) = Some d -> knows (SRelease out) = Some d.
Proof. destruct out as [[d reused]|m]; [destruct r, reused|]; cbn; split_and!; auto; by intros []. Qed.

(** The steps of a thread under its locks. *)
Lemma ok_under i e r held pc w w' : sworld_ok w -> fresh e w -> ths w !! i = Some (MkSThread r held pc) -> locked pc ->
  thread_step fingerprint col i e w = Some w' -> sworld_ok w'.
Proof.
  intros Hw Hfr Hi Hl Hs. pose proof (so_threads _ Hw _ _ Hi) as Hme. destruct Hme as [H1 H2 H3 H4 H5 H6] eqn:Eme. clear Eme.
  unfold thread_step in Hs. rewrite Hi in Hs. destruct pc as [[|k ks]| |[|g gs] a|a|out| | | | | | | | | | | | | | | | | | | | | | |]; try (by exfalso; apply Hl); cbn in *.
  - injection Hs as <-. eapply ok_quiet; [exact Hw|exact Hi|done| |done]. constructor; cbn; try done.
    rewrite app_nil_r in H4. by rewrite <- H4, rev_involutive.
  - destruct (lk w !! k) as [o|] eqn:Ek; [done|]. injection Hs as <-. eapply ok_quiet; [exact Hw|exact Hi|done| |].
    + constructor; cbn; try done.
      * intros key. rewrite elem_of_cons, H1. destruct (decide (key = k)) as [->|Hne]; [rewrite lookup_insert_eq; naive_solver|rewrite lookup_insert_ne by done; naive_solver].
      * apply NoDup_cons. split; [|done]. rewrite H1, Ek. done.
      * rewrite <- H4. by rewrite <- app_assoc.
    + intros j key Hne. destruct (decide (key = k)) as [->|Hnk]; [rewrite lookup_insert_eq, Ek; naive_solver|by rewrite lookup_insert_ne].
  - destruct (existing_job _ _ _ _) as [[d|]|m] eqn:Ee; injection Hs as <-.
    + eapply ok_quiet; [exact Hw|exact Hi|done| |done]. constructor; cbn; try done. intros d' [= <-]. eapply existing_row; [apply (so_rows _ Hw)|done].
    + eapply ok_quiet; [exact Hw|exact Hi|done| |done]. constructor; cbn; try done. split; [done|apply guards_start].
    + eapply ok_quiet; [exact Hw|exact Hi|done| |done]. by constructor.
  - injection Hs as <-. eapply ok_quiet; [exact Hw|exact Hi|done| |done]. by constructor.
  - destruct (check_guard _ _ _ _ _) as [a'|m] eqn:Eg; injection Hs as <-.
    + eapply ok_quiet; [exact Hw|exact Hi|done| |done]. constructor; cbn; try done. split; [apply H4|]. eapply guard_idle; [exact Eg|apply H4].
    + eapply ok_quiet; [exact Hw|exact Hi|done| |done]. by constructor.
  - destruct (insert_job _ _ _ _ _) as [t'|m] eqn:Ein; injection Hs as <-; [by eapply ok_insert|].
    eapply ok_quiet; [exact Hw|exact Hi|done| |done]. by constructor.
  - destruct held as [|k held]; injection Hs as <-.
    + destruct (after_release_pc r out) as (Hl' & Hd' & Hk'). eapply ok_quiet; [exact Hw|exact Hi|done| |done]. constructor; cbn; auto.
      * by apply outside_pc.
      * intros d Hd. congruence.
    + eapply ok_quiet; [exact Hw|exact Hi|done| |].
      * apply NoDup_cons in H2 as [Hk2 H2]. constructor; cbn; try done. intros key. destruct (decide (key = k)) as [->|Hne].
        -- rewrite lookup_delete_eq. naive_solver.
        -- rewrite lookup_delete_ne by done. rewrite <- H1, elem_of_cons. naive_solver.
      * intros j key Hne. destruct (decide (key = k)) as [->|Hnk]; [|by rewrite lookup_delete_ne].
        rewrite lookup_delete_eq. assert (Hk : lk w !! k = Some i) by (apply H1; set_solver). rewrite Hk. naive_solver.
Qed.

Lemma locked_dec pc : locked pc \/ ~ locked pc.
Proof. destruct pc; cbn; tauto. Qed.

Lemma outside_step i e r held pc w w' : ths w !! i = Some (MkSThread r held pc) -> ~ locked pc -> thread_step fingerprint col i e w = Some w' ->
  exists pc' t', drive_step fingerprint col e r pc (st w) = (pc', t') /\ w' = MkSWorld t' (lk w) (<[i := MkSThread r held pc']> (ths w)).
Proof.
  intros Hi Hl Hs. unfold thread_step in Hs. rewrite Hi in Hs.
  destruct (drive_step fingerprint col e r pc (st w)) as [pc' t'] eqn:Ed. exists pc', t'. split; [done|].
  destruct pc; try (by exfalso; apply Hl); try done; by injection Hs as <-.
Qed.

Lemma sandbox_op_snap op : sandbox_op op -> snap_op op.
Proof. unfold sandbox_op, snap_op. set_solver. Qed.

Lemma ok_other_code t w : sworld_ok w -> keeps_snapshot_jobs w t -> sworld_ok (MkSWorld t (lk w) (ths w)).
Proof.
  intros Hw (Hnd & Hsame & Hids). assert (Hin : forall j, snap_op (j_Operation j) -> j ∈ jobs t -> j ∈ jobs (st w)) by (intros; by apply Hsame).
  pose proof sandbox_op_snap as Hsn. constructor; cbn.
  - destruct (so_rows _ Hw) as [R1 R2 R3 R4]. constructor; [done|auto|auto|auto].
  - intros i T Hi. pose proof (so_threads _ Hw _ _ Hi) as Hok. destruct Hok as [H1 H2 H3 H4 H5 H6].
    assert (Hidle : forall r gs, idle_after r gs (st w) -> idle_after r gs t) by (intros r gs [I1 I2]; split; intros ? ? j Hj Hop; [apply I1|apply I2]; auto).
    constructor; auto.
    + destruct (h_pc T); cbn in *; try done; naive_solver.
    + intros d Hd j Hj E. apply (H5 d Hd); [|done]. apply Hin; [|done]. by eapply Hids.
    + intros d Hd. destruct (H6 d Hd) as (j & Hj & Ej & Es). exists j. split; [|done]. apply Hsame; [|done].
      apply driving_knows in Hd. destruct (H5 d Hd j Hj Ej) as [-> _]. apply op_is_snap.
  - apply (so_owner _ Hw).
  - apply (so_apart _ Hw).
Qed.

Lemma ok_sstep w w' : sstep w w' -> sworld_ok w -> sworld_ok w'.
Proof.
  intros [i e w2 Hfr Hs|i r Hi T1 T2|t Ht|] Hw.
  - destruct (ths w !! i) as [[r held pc]|] eqn:Ei; [|unfold thread_step in Hs; by rewrite Ei in Hs].
    destruct (locked_dec pc) as [Hl|Hl]; [by eapply ok_under|].
    destruct (outside_step _ _ _ _ _ _ _ Ei Hl Hs) as (pc' & t' & Hd & ->). by eapply ok_outside.
  - assert (Hfree : forall key, lk w !! key <> Some i) by (intros key Hk; apply (so_owner _ Hw) in Hk as [? Hk]; congruence).
    constructor; cbn.
    + apply (so_rows _ Hw).
    + intros k T Hk. apply lookup_thread in Hk as [[-> ->]|[Hne Hk]]; [|by apply (so_threads _ Hw)].
      constructor; cbn; try done; [|by apply NoDup_nil]. intros key. split; [by intros ?%not_elem_of_nil|]. by intros ?%Hfree.
    + intros key k Hk. destruct (decide (k = i)) as [->|Hne]; [rewrite lookup_insert_eq; eauto|rewrite lookup_insert_ne by done]. by eapply (so_owner _ Hw).
    + intros k1 k2 U1 U2 d1 d2 Hne H1 H2 D1 D2. apply lookup_thread in H1 as [[-> ->]|[N1 H1]]; apply lookup_thread in H2 as [[-> ->]|[N2 H2]]; try done.
      by eapply (so_apart _ Hw k1 k2).
  - by apply ok_other_code.
  - constructor; cbn; [apply (so_rows _ Hw)|..]; intros *; rewrite lookup_empty; try done; intros; by rewrite lookup_empty in *.
Qed.

(** ** One operation at a time *)

Definition started (w : sworld) : Prop := rows_ok (jobs (st w)) /\ lk w = ∅ /\ ths w = ∅.

Lemma ok_started w : started w -> sworld_ok w.
Proof. intros (Hro & El & Et). constructor; rewrite ?El, ?Et; [done|..]; intros *; rewrite !lookup_empty; try done; intros; by rewrite lookup_empty in *. Qed.

Lemma ok_histories w w' : rtc sstep w w' -> sworld_ok w -> sworld_ok w'.
Proof. induction 1; eauto using ok_sstep. Qed.

(** C19: however requests on snapshots come in and interleave, with whatever answers of
    the nodes, errors of the database, restarts of the master in between, retries of a
    request and changes that other code makes to other rows: two requests that drive
    their jobs at the same time drive different jobs, work on different snapshots and,
    when both create or roll back, on different sandboxes. *)
Theorem snapshot_ops_exclusive w0 w i k Ti Tk di dk : started w0 -> rtc sstep w0 w ->
  i <> k -> ths w !! i = Some Ti -> ths w !! k = Some Tk -> driving (h_pc Ti) = Some di -> driving (h_pc Tk) = Some dk ->
  dr_job di <> dr_job dk /\ dr_snapshot di <> dr_snapshot dk /\
  (on_sandbox (h_req Ti) -> on_sandbox (h_req Tk) -> dr_sandbox di <> dr_sandbox dk).
Proof.
  intros H0 Hs Hne Hi Hk Di Dk. pose proof (ok_histories _ _ Hs (ok_started _ H0)) as Hw.
  pose proof (so_apart _ Hw _ _ _ _ _ _ Hne Hi Hk Di Dk) as Hjob. split; [done|].
  destruct (to_run _ _ _ _ (so_threads _ Hw _ _ Hi) _ Di) as (a & Ha & Ea & Sa%active_running).
  destruct (to_run _ _ _ _ (so_threads _ Hw _ _ Hk) _ Dk) as (b & Hb & Eb & Sb%active_running).
  destruct (to_row _ _ _ _ (so_threads _ Hw _ _ Hi) _ (driving_knows _ _ Di) _ Ha Ea) as (Oa & Xa & Ra).
  destruct (to_row _ _ _ _ (so_threads _ Hw _ _ Hk) _ (driving_knows _ _ Dk) _ Hb Eb) as (Ob & Xb & Rb).
  split.
  - intros E. apply Hjob. rewrite <- Ea, <- Eb. apply (ro_resource _ (so_rows _ Hw)); try done; [rewrite Oa; apply op_is_snap|rewrite Ob; apply op_is_snap|congruence].
  - intros Oni Onk E. apply Hjob. rewrite <- Ea, <- Eb. apply (ro_sandbox _ (so_rows _ Hw)); try done; [by rewrite Oa|by rewrite Ob|].
    rewrite Xa, Xb by done. done.
Qed.

(** ** No deadlock and no endless request *)

Definition unfinished (pc : spc) : Prop := match pc with SDone _ => False | _ => True end.
Definition waiting (w : sworld) (pc : spc) : Prop := match pc with SAcquire (k :: _) => is_Some (lk w !! k) | _ => False end.

(** Locks are taken in the order of their classes. *)
Definition key_class (k : string) : nat :=
  if String.prefix snapshotSandboxLockPrefix k then 1 else if String.prefix snapshotResourceLockPrefix k then 2 else 3.

Lemma key_classes r : StronglySorted (fun a b => (key_class a < key_class b)%nat) (lock_keys r) /\ Forall (fun k => (key_class k <= 3)%nat) (lock_keys r).
Proof.
  assert (H1 : forall s, key_class (snapshotSandboxLockKey s) = 1%nat) by (intros s; unfold snapshotSandboxLockKey; by destruct (TrimSpace s)).
  assert (H2 : forall s, key_class (snapshotResourceLockKey s) = 2%nat) by (intros s; unfold snapshotResourceLockKey; by destruct (TrimSpace s)).
  assert (H3 : forall s, key_class (snapshotRequestLockKey s) = 3%nat) by reflexivity.
  destruct r; cbn; split; repeat (constructor; rewrite ?H1, ?H2, ?H3); lia.
Qed.

Lemma sorted_before {A} (R : A -> A -> Prop) l k r x : StronglySorted R (l ++ k :: r)%list -> x ∈ l -> R x k.
Proof.
  induction l as [|y l IH]; cbn; [by intros _ ?%not_elem_of_nil|]. intros Hs Hx. apply StronglySorted_inv in Hs as [Hs Hy].
  apply elem_of_cons in Hx as [->|Hx]; [|by apply IH]. rewrite Forall_forall in Hy. apply Hy. rewrite list_elem_of_In, in_app_iff. right. by left.
Qed.

Lemma waits_higher t locks i T k ks : thread_ok t locks i T -> h_pc T = SAcquire (k :: ks) ->
  (key_class k <= 3)%nat /\ forall x, x ∈ h_held T -> (key_class x < key_class k)%nat.
Proof.
  intros Hok Epc. pose proof (to_pc _ _ _ _ Hok) as Hpc. rewrite Epc in Hpc. cbn in Hpc. destruct (key_classes (h_req T)) as [Hs Hf].
  rewrite <- Hpc in Hs, Hf. split.
  - rewrite Forall_forall in Hf. apply Hf. rewrite list_elem_of_In, in_app_iff. right. by left.
  - intros x Hx. eapply sorted_before in Hs; [exact Hs|]. by apply rev_elem.
Qed.

Lemma acquires pc : (exists k ks, pc = SAcquire (k :: ks)) \/ (forall w, ~ waiting w pc).
Proof. destruct pc as [ks| | | | | | | | | | | | | | | | | | | | | | | | | | |]; try (right; intros w; tauto). destruct ks as [|k ks]; [right; intros w; cbn; tauto|eauto]. Qed.

Lemma some_runs n w i T : sworld_ok w -> ths w !! i = Some T -> unfinished (h_pc T) ->
  (forall k ks, h_pc T = SAcquire (k :: ks) -> (3 - key_class k < n)%nat) ->
  exists j U, ths w !! j = Some U /\ unfinished (h_pc U) /\ ~ waiting w (h_pc U).
Proof.
  revert i T. induction n as [|n IH]; intros i T Hw Hi Hu Hn.
  - exists i, T. split_and!; [done|done|]. destruct (acquires (h_pc T)) as [(k & ks & E)|Hn']; [|apply Hn']. specialize (Hn k ks E). lia.
  - destruct (acquires (h_pc T)) as [(k & ks & Epc)|Hn']; [|exists i, T; split_and!; [done|done|apply Hn']].
    destruct (lk w !! k) as [o|] eqn:Ek; [|exists i, T; rewrite Epc; cbn; rewrite Ek; split_and!; [done|done|by intros []]].
    destruct (so_owner _ Hw _ _ Ek) as [To Ho]. pose proof (so_threads _ Hw _ _ Ho) as Hok. apply (to_held _ _ _ _ Hok) in Ek.
    assert (Huo : unfinished (h_pc To)).
    { pose proof (to_pc _ _ _ _ Hok) as Hpc. destruct (h_pc To); try done. cbn in Hpc. rewrite Hpc in Ek. by apply not_elem_of_nil in Ek. }
    apply (IH o To Hw Ho Huo). intros k2 ks2 Epc2. destruct (waits_higher _ _ _ _ _ _ Hok Epc2) as [H3 Hlt]. specialize (Hlt _ Ek).
    specialize (Hn k ks Epc). lia.
Qed.

(** What a thread has left to do. *)
Definition stage (pc : spc) : nat :=
  match pc with
  | SAcquire _ => 30 | SExisting => 29 | SGuards _ _ => 28 | SInsert _ => 27 | SRelease _ => 26 | SReplicaAgain _ => 25 | SInfo _ _ => 24
  | SClaim _ => 23 | SLook _ => 22 | SOpen _ => 21 | SCall _ => 20 | SRegister _ _ => 19 | SProgress _ _ => 18 | SReplica _ _ => 17
  | SDefinition _ _ => 16 | SRef _ _ => 15 | SFinish _ _ => 14 | STargets _ => 13 | SClean _ _ _ => 12 | SMeta _ => 11 | SMetaDef _ _ => 10
  | SJobs _ => 9 | SFailClean _ _ => 8 | SFailReplicas _ _ => 7 | SFailDef _ _ => 6 | SFailJob _ _ _ _ => 5 | SFinal _ => 4 | SDone _ => 0
  end.
Definition inner (T : sthread) : nat :=
  match h_pc T with SAcquire ks => length ks | SGuards gs _ => length gs | SRelease _ => length (h_held T) | SClean _ ls _ => length ls | _ => 0 end.
Definition less_left (T U : sthread) : Prop :=
  (stage (h_pc T) < stage (h_pc U))%nat \/ (stage (h_pc T) = stage (h_pc U) /\ (inner T < inner U)%nat).

Lemma less_left_wf : well_founded less_left.
Proof.
  apply (wf_projected (slexprod nat nat lt lt) (fun T => (stage (h_pc T), inner T))); [|apply wf_slexprod; apply lt_wf].
  intros T U [Hl|[E Hl]]; [by left|]. rewrite E. by right.
Qed.

Lemma drive_less e r held pc t pc' t' : drive_step fingerprint col e r pc t = (pc', t') -> unfinished pc ->
  (forall ks, pc <> SAcquire ks) -> (forall o, pc <> SRelease o) -> less_left (MkSThread r held pc') (MkSThread r held pc).
Proof.
  intros Hs Hu Ha Hr. destruct pc as [ks| |[|g gs] a|a|out|d|d reused|d|d|d|d|d c|d c|d c|d c|d f|d rr|d|d [|l ls] errs|d|d errs|d|d m|d m|d m|d m f errs|d|out]; try done;
    try (by exfalso; eapply Ha); try (by exfalso; eapply Hr); clear Ha Hr Hu;
    cbn -[claimSnapshotJobExecution UpsertReplica AcquireSnapshotRuntimeRef discoverTemplateCleanupTargets existing_job check_guard insert_job
      deleteReplicasByTemplateID cleanupTemplateJobs updateTemplateImageJob try_update join_errors GetTemplateImageJobInfo] in Hs;
    unfold fail_pc, after_failure in Hs; pcs; unfold less_left; cbn; lia.
Qed.

Lemma thread_less i e w w' T : thread_step fingerprint col i e w = Some w' -> ths w !! i = Some T ->
  exists T', ths w' = <[i := T']> (ths w) /\ less_left T' T.
Proof.
  unfold thread_step. intros Hs Hi. rewrite Hi in Hs. destruct T as [r held pc].
  assert (Hgen : unfinished pc -> (forall ks, pc <> SAcquire ks) -> (forall o, pc <> SRelease o) ->
    Some (let '(pc', t') := drive_step fingerprint col e r pc (st w) in MkSWorld t' (lk w) (<[i := MkSThread r held pc']> (ths w))) = Some w' ->
    exists T', ths w' = <[i := T']> (ths w) /\ less_left T' (MkSThread r held pc)).
  { intros Hu Ha Hr. destruct (drive_step _ _ _ _ _ _) as [pc' t'] eqn:Ed. intros [= <-]. eexists. split; [done|]. by eapply drive_less. }
  destruct pc as [[|k ks]| | | |out| | | | | | | | | | | | | | | | | | | | | | |]; try done;
    try (apply Hgen; [done|by intros ?|by intros ?|]; by destruct (drive_step _ _ _ _ _ _)).
  - injection Hs as <-. eexists. split; [done|]. left. cbn. lia.
  - destruct (lk w !! k); [done|]. injection Hs as <-. eexists. split; [done|]. right. cbn. lia.
  - destruct held as [|k held]; injection Hs as <-; (eexists; split; [done|]); [|right; cbn; lia].
    left. destruct out as [[d []]|m]; destruct r; cbn; lia.
Qed.

Lemma not_waiting_steps i e w T : ths w !! i = Some T -> unfinished (h_pc T) -> ~ waiting w (h_pc T) -> is_Some (thread_step fingerprint col i e w).
Proof.
  intros Hi Hu Hn. unfold thread_step. rewrite Hi. destruct T as [r held pc]. cbn in Hu, Hn.
  destruct pc as [[|k ks]| | | |out| | | | | | | | | | | | | | | | | | | | | | |]; try done; eauto;
    try (destruct (drive_step _ _ _ _ _ _); eauto; done).
  - destruct (lk w !! k) as [o|] eqn:Ek; [exfalso; apply Hn; cbn; rewrite Ek|]; eauto.
  - destruct held; eauto.
Qed.

(** C20: in every reachable state in which a request is not answered, some request can
    do its next step whatever the environment decides: the locks never deadlock.  Every
    step of a request brings it nearer to its end in a well-founded order and leaves the
    others where they are, so no request goes on for ever. *)
Theorem snapshot_requests_finish w0 w i T : started w0 -> rtc sstep w0 w -> ths w !! i = Some T -> unfinished (h_pc T) ->
  (exists j U, ths w !! j = Some U /\ unfinished (h_pc U) /\ forall e, is_Some (thread_step fingerprint col j e w)) /\
  (forall j e w', thread_step fingerprint col j e w = Some w' ->
     exists U U', ths w !! j = Some U /\ ths w' = <[j := U']> (ths w) /\ less_left U' U) /\ well_founded less_left.
Proof.
  intros H0 Hs Hi Hu. pose proof (ok_histories _ _ Hs (ok_started _ H0)) as Hw. split_and!; [| |apply less_left_wf].
  - destruct (some_runs 4 w i T Hw Hi Hu) as (j & U & Hj & Huu & Hn); [intros; lia|]. exists j, U. split_and!; [done|done|].
    intros e. by eapply not_waiting_steps.
  - intros j e w' Hst. destruct (ths w !! j) as [U|] eqn:Ej; [|unfold thread_step in Hst; by rewrite Ej in Hst].
    destruct (thread_less _ _ _ _ _ Hst Ej) as (U' & E & Hl). by exists U, U'.
Qed.

End Histories.

(** ** Generations of a sandbox *)

Section Generations.
Context {rt : GoRuntime} {sj : SnapshotJSON}.

(** A roll-back job carries generation [n] in its request or its result. *)
Definition job_gen (j : TemplateImageJob) (n : Z) : Prop :=
  rollbackGenFromJSON (j_ResultJSON (j_state j)) = Ok (Some n) \/ rollbackGenFromJSON (j_RequestJSON j) = Ok (Some n).
Definition recorded_gen (sandboxID : string) (t : tables) (n : Z) : Prop :=
  (exists ref, GetActiveSnapshotRuntimeRefBySandbox true None sandboxID (runtime t) = Ok ref /\ n = r_SandboxGen ref) \/
  (exists j, j ∈ rollback_jobs sandboxID t /\ job_gen j n).

Lemma max_gen_above m raw m' : max_gen m raw = Ok m' ->
  m <= m' /\ (m' = m \/ rollbackGenFromJSON raw = Ok (Some m')) /\ forall n, rollbackGenFromJSON raw = Ok (Some n) -> n <= m'.
Proof.
  unfold max_gen, maxUint32. destruct (rollbackGenFromJSON raw) as [[g|]|]; cbn; [| |done]; intros [= <-].
  - destruct (g <=? m) eqn:E; split_and!; try lia; auto; intros n [= <-]; lia.
  - split_and!; [lia|by left|done].
Qed.

Lemma max_gens_above js : forall m m', max_gens m js = Ok m' ->
  m <= m' /\ (m' = m \/ exists j, j ∈ js /\ job_gen j m') /\ forall j n, j ∈ js -> job_gen j n -> n <= m'.
Proof.
  induction js as [|j js IH]; intros m m' H; cbn in H.
  - injection H as <-. split_and!; [lia|by left|]. by intros j n ?%not_elem_of_nil.
  - destruct (max_gen m _) as [m1|] eqn:E1; [|done]. cbn in H. destruct (max_gen m1 _) as [m2|] eqn:E2; [|done]. cbn in H.
    apply max_gen_above in E1 as (L1 & A1 & B1). apply max_gen_above in E2 as (L2 & A2 & B2). apply IH in H as (L & A & B).
    split_and!; [lia| |].
    + destruct A as [->|(k & Hk & Hg)]; [|right; exists k; split; [by right|done]].
      destruct A2 as [->|A2]; [destruct A1 as [->|A1]; [by left|]|]; right; exists j; (split; [by left|]); [by left|by right].
    + intros k n [->|Hk]%elem_of_cons Hg; [|by eapply B]. destruct Hg as [Hg|Hg]; [apply B1 in Hg|apply B2 in Hg]; lia.
Qed.

(** The generation that a roll-back hands to the node is a 32-bit number above the
    generation of the sandbox's reference and those of its last hundred roll-back jobs,
    in their requests and in their results; when one of them is the largest number there
    is, the new one is zero. *)
Theorem rollback_gen_above sandboxID t g : allocateNextRollbackGen None sandboxID t = Ok g ->
  (forall n, recorded_gen sandboxID t n -> 0 <= n < 2 ^ 32) ->
  0 <= g < 2 ^ 32 /\ ((forall n, recorded_gen sandboxID t n -> n < g) \/ (g = 0 /\ recorded_gen sandboxID t (2 ^ 32 - 1))).
Proof.
  unfold allocateNextRollbackGen. intros H Hb.
  assert (Hstart : exists m0, (match GetActiveSnapshotRuntimeRefBySandbox true None sandboxID (runtime t) with
      Ok ref => Ok (maxUint32 0 (r_SandboxGen ref)) | Err m => if m =s ErrRecordNotFound then Ok 0 else Err m end) = Ok m0 /\
    (m0 = 0 \/ recorded_gen sandboxID t m0) /\
    forall ref, GetActiveSnapshotRuntimeRefBySandbox true None sandboxID (runtime t) = Ok ref -> r_SandboxGen ref <= m0).
  { destruct (GetActiveSnapshotRuntimeRefBySandbox _ _ _ _) as [ref|m] eqn:Eref.
    - exists (maxUint32 0 (r_SandboxGen ref)). unfold maxUint32. destruct (Z.leb_spec (r_SandboxGen ref) 0).
      + split_and!; [done|by left|]. intros ? [= <-]. lia.
      + split_and!; [done|right; left; eauto|]. intros ? [= <-]. lia.
    - case_bool_decide; [|done]. exists 0. split_and!; [done|by left|done]. }
  destruct Hstart as (m0 & E0 & H0 & Href). rewrite E0 in H. cbn in H. destruct (max_gens m0 _) as [m|] eqn:Em; [|done]. cbn in H.
  apply max_gens_above in Em as (L & A & B).
  assert (Hm : m = 0 \/ recorded_gen sandboxID t m) by (destruct A as [->|(j & Hj & Hg)]; [done|right; right; eauto]).
  assert (Hall : forall n, recorded_gen sandboxID t n -> n <= m).
  { intros n [(ref & Hr & ->)|(j & Hj & Hg)]; [|by eapply B]. apply Href in Hr. lia. }
  assert (Hmb : 0 <= m < 2 ^ 32) by (destruct Hm as [->|Hm]; [lia|by apply Hb]).
  destruct (Z.eqb_spec m 0) as [->|Hne]; injection H as <-.
  - split; [lia|]. left. intros n Hn%Hall. lia.
  - destruct Hm as [?|Hm]; [done|]. destruct (decide (m = 2 ^ 32 - 1)) as [->|Hlt].
    + split; [done|]. by right.
    + rewrite Z.mod_small by lia. split; [lia|]. left. intros n Hn%Hall. lia.
Qed.

(** A creation that is tried again with the same request is refused: the fingerprint
    kept with the job is that of the request with the snapshot's identifier, the one it
    is compared with is that of the request with another generated identifier. *)
Theorem retried_create_refused (fingerprint : string -> string -> string) id sb node ip name tpl tpl' o snapshotID :
  json_text (fingerprint (og_text o) snapshotID) -> fingerprint (og_text o) snapshotID <> "" ->
  fingerprint (og_text o) tpl' <> fingerprint (og_text o) snapshotID ->
  snapshotCreateRequestMatches fingerprint (create_payload fingerprint (RCreate id sb node ip name tpl o) snapshotID) id sb node ip name tpl' o = false.
Proof.
  intros Ht Hne Hd. unfold snapshotCreateRequestMatches, create_payload, blank. rewrite bool_decide_false by apply create_not_blank.
  destruct (create_parses (MkCreatePayload id sb snapshotID node ip name (fingerprint (og_text o) snapshotID))) as (q & -> & _ & Hq).
  specialize (Hq Ht). cbn in Hq. case_match; [done|]. rewrite Hq, bool_decide_false by done. by apply bool_decide_eq_false.
Qed.

End Generations.

(** ** Examples

    Payloads are numbers that encode them. *)
Module SnapshotDemo.

Definition text (l : list string) (n : Z) : string := pretty (Z.pos (encode (l, n))).
Definition untext (s : string) : option (list string * Z) := decode (Z.to_pos (dec_value s 0)).

Lemma untext_text l n : untext (text l n) = Some (l, n).
Proof. unfold untext, text. destruct (pretty_nonneg (Z.pos (encode (l, n))) ltac:(lia)) as [-> _]. apply decode_encode. Qed.

Lemma text_not_blank l n : TrimSpace (text l n) <> "".
Proof.
  unfold text. destruct (pretty_nonneg (Z.pos (encode (l, n))) ltac:(lia)) as (_ & Hd & Hne). rewrite TrimSpace_plain; [done|].
  eapply str_all_impl; [|done]. intros [[] [] [] [] [] [] [] []]; vm_compute; done.
Qed.

Definition mk_create (p : snapshotCreateJobRequest) : string :=
  text [cp_RequestID p; cp_SandboxID p; cp_SnapshotID p; cp_NodeID p; cp_NodeIP p; cp_DisplayName p; cp_SpecFingerprint p] 0.
Definition mk_rollback (p : snapshotRollbackJobRequest) : string :=
  text [rp_RequestID p; rp_SandboxID p; rp_SnapshotID p; rp_NodeID p; rp_NodeIP p; pretty (rp_DesiredSize p)] (rp_NewGen p).
Definition mk_delete (p : snapshotDeleteJobRequest) : string := text [dp_RequestID p; dp_SnapshotID p; dp_NodeID p; dp_NodeIP p] 0.

Definition un_create (s : string) : option snapshotCreateJobRequest :=
  match untext s with Some ([a; b; c; d; e; f; g], _) => Some (MkCreatePayload a b c d e f g) | _ => None end.
Definition un_rollback (s : string) : option snapshotRollbackJobRequest :=
  match untext s with Some ([a; b; c; d; e; f], n) => Some (MkRollbackPayload a b c d e n (dec_value f 0)) | _ => None end.
Definition un_delete (s : string) : option snapshotDeleteJobRequest :=
  match untext s with Some ([a; b; c; d], _) => Some (MkDeletePayload a b c d) | _ => None end.

Program Definition json : SnapshotJSON := {|
  json_text _ := True; json_create := mk_create; json_rollback := mk_rollback; json_delete := mk_delete;
  json_response r := text [rr_MemoryVol r; rr_RootfsVol r] (rr_NewGen r); json_commit a b := text [a; b] 0;
  parse_create := un_create; parse_rollback := un_rollback; parse_delete := un_delete;
  parse_gen s := snd <$> untext s;
|}.
Next Obligation. intros p. unfold un_create, mk_create. rewrite untext_text. by eexists. Qed.
Next Obligation. intros p. unfold un_rollback, mk_rollback. rewrite untext_text. by eexists. Qed.
Next Obligation. intros p. unfold un_delete, mk_delete. rewrite untext_text. by eexists. Qed.
Next Obligation. intros p. unfold mk_rollback. by rewrite untext_text. Qed.
Next Obligation. intros p. apply text_not_blank. Qed.
Next Obligation. intros p. apply text_not_blank. Qed.
Next Obligation. intros p. apply text_not_blank. Qed.

#[export] Existing Instance json.
#[export] Existing Instance demo_runtime.

Definition finger (t id : string) : string := t +:+ "#" +:+ id.
Definition column (t : Z) : Z := t.

(** The identifiers of this environment's steps are [job] and [snapshot]. *)
Definition good : res commit_response := Ok (MkCommit (Some (code_success, "")) "/path" "g1" "a1" "k1" 10).
Definition rolled (gen : Z) : res rollback_response := Ok (MkRollbackResponse (Some (code_success, "")) "mem" "root" gen).
Definition env_of (io : option string) (job snapshot : string) (cleaned : rpc) : senv :=
  MkSEnv io 1 job snapshot (Ok ("n1", "10.0.0.1")) (Ok tt) good (rolled 1) (fun _ => None) (fun _ => cleaned).
Definition fine (job snapshot : string) : senv := env_of None job snapshot (RpcRet (Some (code_success, ""))).
Definition later : senv := fine "no-job" "no-snapshot".

Definition freshb (e : senv) (w : sworld) : bool :=
  forallb (fun j => (j_JobID j <>s x_job e) && (j_ResourceID j <>s x_snapshot e)) (jobs (st w)) &&
  forallb (fun iT => (req_snapshot (h_req iT.2) <>s x_snapshot e) && match knows (h_pc iT.2) with Some d => dr_job d <>s x_job e | None => true end)
    (map_to_list (ths w)).

Lemma freshb_fresh e w : freshb e w = true -> fresh e w.
Proof.
  unfold freshb. intros [Hj Ht]%andb_true_iff. rewrite forallb_forall in Hj. rewrite forallb_forall in Ht. split.
  - intros j Hin%list_elem_of_In. apply Hj in Hin. apply andb_true_iff in Hin as [H1%negb_true_iff H2%negb_true_iff].
    by apply bool_decide_eq_false in H1, H2.
  - intros i T Hi%elem_of_map_to_list%list_elem_of_In. apply Ht in Hi. apply andb_true_iff in Hi as [H1%negb_true_iff H2]. cbn in H1, H2.
    split; [by apply bool_decide_eq_false in H1|]. intros d E. rewrite E in H2. apply negb_true_iff in H2. by apply bool_decide_eq_false in H2.
Qed.

(** Steps of threads one after the other; nothing when one cannot do its step. *)
Fixpoint runs (l : list (nat * senv)) (w : sworld) : option sworld :=
  match l with
  | [] => Some w
  | (i, e) :: l => if freshb e w then match thread_step finger column i e w with Some w' => runs l w' | None => None end else None
  end.

Lemma runs_steps l : forall w w', runs l w = Some w' -> rtc (sstep finger column) w w'.
Proof.
  induction l as [|[i e] l IH]; intros w w' H; cbn in H; [injection H as <-; done|].
  destruct (freshb e w) eqn:Ef; [|done]. destruct (thread_step _ _ _ _ _) as [w2|] eqn:Es; [|done].
  eapply rtc_l; [|by apply IH]. eapply sstep_thread; [by apply freshb_fresh|done].
Qed.

Definition only (i : nat) (r : request) (t : tables) : sworld := MkSWorld t ∅ {[i := new_thread r]}.
Definition spawn (i : nat) (r : request) (w : sworld) : sworld := MkSWorld (st w) (lk w) (<[i := new_thread r]> (ths w)).
Definition answer (i : nat) (w : sworld) : option (res string) :=
  match ths w !! i with Some (MkSThread _ _ (SDone out)) => Some out | _ => None end.

(** A snapshot of sandbox "sb-1" on node "n1", in the tables. *)
Definition snap : TemplateDefinition :=
  MkDef "snap-1" InstanceType_cubebox "v2" StatusReady TemplateKindSnapshot "sb-1" "n1" "" StorageBackendCow false 0 "" "" "" 0.
Definition snap_on_n1 : TemplateReplica :=
  MkReplica "snap-1" "n1" "10.0.0.1" InstanceType_cubebox "" ReplicaStatusReady ReplicaPhaseReady "" "" "" false "" "" "" "" CompatStatusOK "" 0.
Definition one_snapshot : tables :=
  MkTables {["snap-1" := snap]} {[("snap-1", "n1") := snap_on_n1]} [] ∅ ∅ empty_refs.

Definition og : origin := MkOrigin "req" InstanceType_cubebox "v2" "spec" "" 0.
Definition create (id sb : string) : request := RCreate id sb "n1" "10.0.0.1" "" "tpl-x" og.
Definition roll_back : request := RRollback "r-back" "sb-1" "snap-1" InstanceType_cubebox.
Definition remove (id : string) : request := RDelete id "snap-1" InstanceType_cubebox.

Definition both : sworld := spawn 1 (create "r-2" "sb-2") (only 0 (create "r-1" "sb-1") empty_tables).
Definition driving_both : option sworld :=
  runs (repeat (0%nat, fine "job-1" "snap-a") 8 ++ repeat (1%nat, fine "job-2" "snap-b") 8 ++ repeat (0%nat, later) 7 ++ repeat (1%nat, later) 6)%list both.

Definition driver (w : option sworld) (i : nat) : option drive :=
  match w with Some w => match ths w !! i with Some T => driving (h_pc T) | None => None end | None => None end.

Definition at_rest (t : tables) : sworld := MkSWorld t ∅ ∅.

Lemma at_rest_started t : jobs t = [] -> started (at_rest t).
Proof. intros E. split; [|done]. cbn. rewrite E. constructor; [by apply NoDup_nil|..]; intros *; by intros ?%not_elem_of_nil. Qed.

Lemma both_reached w : driving_both = Some w -> rtc (sstep finger column) (at_rest empty_tables) w.
Proof.
  intros Hw%runs_steps. eapply rtc_l; [apply (sstep_start _ _ _ 0%nat (create "r-1" "sb-1")); done|].
  eapply rtc_l; [apply (sstep_start _ _ _ 1%nat (create "r-2" "sb-2")); done|]. exact Hw.
Qed.

(** Steps until the answer. *)
Fixpoint run_on (n : nat) (i : nat) (e : senv) (w : sworld) : sworld :=
  match n with
  | O => w
  | S n => match answer i w, thread_step finger column i e w with None, Some w' => run_on n i e w' | _, _ => w end
  end.
(** A request of thread [i] from its start to its answer: some steps in the environments
    of [phases], then the rest in [last]. *)
Definition ask (i : nat) (r : request) (phases : list (nat * senv)) (last : senv) (w : sworld) : sworld :=
  run_on 60 i last (default w (runs (phases ≫= fun ne => repeat (i, ne.2) ne.1) (spawn i r w))).

Definition job_states (w : sworld) : list (string * string) := (fun j => (j_JobID j, j_Status (j_state j))) <$> jobs (st w).
Definition def_status (id : string) (w : sworld) : option string := d_Status <$> defs (st w) !! id.

Definition unreachable : senv := env_of None "no-job" "no-snapshot" (RpcError "unreachable").
Definition expired : senv := env_of (Some "context deadline exceeded") "no-job" "no-snapshot" (RpcError "context deadline exceeded").

(** The steps up to the insertion of a job, and those after it up to the answer of the
    node. *)
Definition back : list (nat * senv) := [(15%nat, fine "job-1" "none"); (6%nat, later)].
Definition del (job : string) : list (nat * senv) := [(11%nat, fine job "none")].

Definition timed_out : sworld := ask 0 roll_back back expired (at_rest one_snapshot).
Definition unrecorded : sworld := ask 0 roll_back (back ++ [(2%nat, later); (1%nat, expired)])%list later (at_rest one_snapshot).
Definition deleted : sworld := ask 1 (remove "r-del") (del "job-2") later unrecorded.
Definition failed_delete : sworld := ask 0 (remove "r-del") (del "job-1") unreachable (at_rest one_snapshot).

End SnapshotDemo.
Import SnapshotDemo.

Lemma snapshot_ops_exclusive_witness :
  exists w d0 d1, driving_both = Some w /\ driver (Some w) 0 = Some d0 /\ driver (Some w) 1 = Some d1 /\
    dr_job d0 <> dr_job d1 /\ dr_snapshot d0 <> dr_snapshot d1 /\ dr_sandbox d0 <> dr_sandbox d1.
Proof.
  assert (E0 : driver driving_both 0 = Some (MkDrive "job-1" "sb-1" "snap-a" "n1" "10.0.0.1" 0 0)) by (vm_compute; reflexivity).
  assert (E1 : driver driving_both 1 = Some (MkDrive "job-2" "sb-2" "snap-b" "n1" "10.0.0.1" 0 0)) by (vm_compute; reflexivity).
  assert (R : option_map (fun w => (h_req <$> ths w !! 0%nat, h_req <$> ths w !! 1%nat)) driving_both =
    Some (Some (create "r-1" "sb-1"), Some (create "r-2" "sb-2"))) by (vm_compute; reflexivity).
  destruct driving_both as [w|] eqn:E; [|discriminate E0]. exists w. eexists _, _. split; [done|]. split; [exact E0|]. split; [exact E1|].
  cbn in E0, E1, R. destruct (ths w !! 0%nat) as [T0|] eqn:H0; [|done]. destruct (ths w !! 1%nat) as [T1|] eqn:H1; [|done]. cbn in R. injection R as R0 R1.
  destruct (snapshot_ops_exclusive finger column (at_rest empty_tables) w 0 1 T0 T1 _ _ (at_rest_started empty_tables eq_refl) (both_reached _ E)
    (Nat.neq_succ_diag_r 0) H0 H1 E0 E1) as (A & B & C).
  split; [exact A|]. split; [exact B|]. apply C; [rewrite R0|rewrite R1]; left.
Defined.

Lemma snapshot_requests_finish_witness :
  exists w j U, driving_both = Some w /\ ths w !! j = Some U /\ unfinished (h_pc U) /\ forall e, is_Some (thread_step finger column j e w).
Proof.
  assert (E0 : driver driving_both 0 = Some (MkDrive "job-1" "sb-1" "snap-a" "n1" "10.0.0.1" 0 0)) by (vm_compute; reflexivity).
  destruct driving_both as [w|] eqn:E; [|discriminate E0]. cbn in E0. destruct (ths w !! 0%nat) as [T0|] eqn:H0; [|done].
  destruct (snapshot_requests_finish finger column (at_rest empty_tables) w 0 T0 (at_rest_started empty_tables eq_refl) (both_reached _ E) H0) as [(j & U & Hj & Hu & Hs) _].
  { by destruct (h_pc T0). }
  exists w, j, U. split; [reflexivity|]. split; [exact Hj|]. split; [exact Hu|exact Hs].
Defined.

(** The generation of a reference and that of a request. *)
Definition gens_table : tables :=
  set_runtime (MkRefs {[("sb-1", SnapshotRuntimeBindingMemoryBacking) :=
                          MkActive "sb-1" SnapshotRuntimeBindingMemoryBacking "snap-1" "n1" "10.0.0.1" "" "" 3 0 None "" 0 0]} []) (st unrecorded).

Lemma rollback_gen_above_witness : allocateNextRollbackGen None "sb-1" gens_table = Ok 4 /\ forall n, recorded_gen "sb-1" gens_table n -> n < 4.
Proof.
  assert (E : allocateNextRollbackGen None "sb-1" gens_table = Ok 4) by (vm_compute; reflexivity). split; [exact E|].
  destruct (rollback_gen_above _ _ _ E) as [_ [H|[H _]]]; [|exact H|discriminate H].
  intros n [(ref & Hr & ->)|(j & Hj & Hg)].
  - vm_compute in Hr. injection Hr as <-. split; [discriminate|reflexivity].
  - assert (El : exists j0, rollback_jobs "sb-1" gens_table = [j0] /\ rollbackGenFromJSON (j_ResultJSON (j_state j0)) = Ok (Some 1) /\
      rollbackGenFromJSON (j_RequestJSON j0) = Ok (Some 1)) by (eexists; split_and!; vm_compute; reflexivity).
    destruct El as (j0 & El & G1 & G2). rewrite El in Hj. apply list_elem_of_singleton in Hj as ->.
    destruct Hg as [Hg|Hg]; [rewrite G1 in Hg|rewrite G2 in Hg]; injection Hg as <-; split; [discriminate|reflexivity|discriminate|reflexivity].
Defined.

(** The generation wraps around. *)
Example generation_wraps :
  allocateNextRollbackGen None "sb-1" (set_runtime (MkRefs {[("sb-1", SnapshotRuntimeBindingMemoryBacking) :=
      MkActive "sb-1" SnapshotRuntimeBindingMemoryBacking "snap-1" "n1" "10.0.0.1" "" "" (2 ^ 32 - 1) 0 None "" 0 0]} []) empty_tables) = Ok 0.
Proof. vm_compute. reflexivity. Qed.

(** A deletion whose nodes do not answer says that it is ready, while its job and the
    definition have failed. *)
Theorem failed_delete_says_ready :
  answer 0 failed_delete = Some (Ok JobStatusReady) /\ job_states failed_delete = [("job-1", JobStatusFailed)] /\
  def_status "snap-1" failed_delete = Some StatusFailed.
Proof. vm_compute. done. Qed.

(** A roll-back whose time runs out stays running for good: its last updates use the
    context that has expired.  Later requests on the sandbox are refused. *)
Theorem timeout_blocks_sandbox :
  job_states timed_out = [("job-1", JobStatusRunning)] /\
  answer 1 (ask 1 (create "r-2" "sb-1") [] (fine "job-2" "snap-b") timed_out) = Some (Err (in_progress "sandbox sb-1 already has an active snapshot operation")).
Proof. vm_compute. done. Qed.

(** A roll-back that cannot record its reference leaves the sandbox on the snapshot;
    the snapshot can then be deleted, and with its jobs goes the generation: the next
    roll-back uses the same one. *)
Theorem unrecorded_rollback_unprotected :
  job_states unrecorded = [("job-1", JobStatusFailed)] /\ allocateNextRollbackGen None "sb-1" (st unrecorded) = Ok 2 /\
  answer 1 deleted = Some (Ok JobStatusReady) /\ def_status "snap-1" deleted = None /\ allocateNextRollbackGen None "sb-1" (st deleted) = Ok 1.
Proof. vm_compute. done. Qed.

(** A deletion that is tried again after a success answers that there is no such
    template. *)
Theorem retried_delete_not_found :
  answer 2 (ask 2 (remove "r-del") [] (fine "job-3" "none") deleted) = Some (Err ErrTemplateNotFound).
Proof. vm_compute. done. Qed.
