(* ===== verification/CletAlloc.v ===== *)
(** * Identifiers handed out and taken back (Cubelet/pkg/allocator)

    An allocator keeps the set of identifiers in use and looks for a free one
    through the iterator of a range.  The allocator is proved correct against the
    interface [Range] and its laws; [SimpleLinearRanger], the range of 16-bit
    identifiers that the Cubelet uses, meets them.

    The loop of [allocate] has no bound of its own: the laws say that the iterator
    ends within [steps] moves, the fuel of the loop. *)
From S2P Require Import Prelude.

Open Scope string_scope.
Open Scope Z_scope.

(** ** Ranges *)

Class Range (Rg T : Type) : Type := {
  Contains : Rg -> T -> bool;
  Cap : Rg -> Z;
  GetIter : Rg -> Rg;
  Get : Rg -> T;
  Next : Rg -> option T * Rg;
  Expand : Rg -> res T * Rg;
  steps : Rg -> nat;
}.

(** The identifiers an iterator shows, up to [fuel] of them. *)
Fixpoint visits `{Range Rg T} (fuel : nat) (r : Rg) : list T :=
  match fuel with
  | O => []
  | S fuel => Get r :: match Next r with (None, _) => [] | (Some _, r) => visits fuel r end
  end.

(** What an allocator needs of its range: a new iterator shows every identifier,
    ends within [steps] moves, and iterating changes neither the range nor its
    invariant. *)
Class RangeLaws (Rg T : Type) `{Range Rg T} : Type := {
  range_ok : Rg -> Prop;
  iterating : Rg -> Prop;
  same_range : Rg -> Rg -> Prop;
  same_refl : forall r, same_range r r;
  same_trans : forall r1 r2 r3, same_range r1 r2 -> same_range r2 r3 -> same_range r1 r3;
  same_contains : forall r r' x, same_range r r' -> Contains r' x = Contains r x;
  same_cap : forall r r', same_range r r' -> Cap r' = Cap r;
  iter_ok : forall r, range_ok r -> iterating (GetIter r) /\ same_range r (GetIter r);
  next_ok : forall r, iterating r -> iterating (Next r).2 /\ same_range r (Next r).2;
  iterating_ok : forall r, iterating r -> range_ok r;
  iter_complete : forall r x, range_ok r -> Contains r x = true -> x ∈ visits (steps r) (GetIter r);
  iter_ends : forall r, range_ok r -> visits (S (steps r)) (GetIter r) = visits (steps r) (GetIter r);
}.

(** ** The allocator *)

Definition ErrAllocated : string := "already allocated".
Definition ErrOutOfRange : string := "out of range".
Definition ErrExhausted : string := "resource exhausted".

Section Allocator.
Context {Rg T : Type} `{Range Rg T} `{Countable T}.

Record allocator : Type := MkAlloc { ranger : Rg; store : gset T }.

Definition NewAllocator (r : Rg) : allocator := MkAlloc r ∅.

Definition has (id : T) (a : allocator) : bool := bool_decide (id ∈ store a).

Definition assign (id : T) (a : allocator) : option string * allocator :=
  if negb (Contains (ranger a) id) then (Some ErrOutOfRange, a)
  else if has id a then (Some ErrAllocated, a)
  else (None, MkAlloc (ranger a) (store a ∪ {[id]})).

(** The loop of [allocate]. *)
Fixpoint alloc_loop (fuel : nat) (a : allocator) : res T * allocator :=
  match fuel with
  | O => (Err ErrExhausted, a)
  | S fuel =>
      let id := Get (ranger a) in
      match assign id a with
      | (None, a) => (Ok id, a)
      | (Some _, a) =>
          match Next (ranger a) with
          | (None, r) => (Err ErrExhausted, MkAlloc r (store a))
          | (Some _, r) => alloc_loop fuel (MkAlloc r (store a))
          end
      end
  end.

Definition allocate (a : allocator) : res T * allocator :=
  if Cap (ranger a) <=? Z.of_nat (size (store a)) then (Err ErrExhausted, a)
  else alloc_loop (steps (ranger a)) (MkAlloc (GetIter (ranger a)) (store a)).

(** [cb] is what the callback does to the range when there is no free identifier. *)
Definition Allocate (cb : option (Rg -> option string * Rg)) (a : allocator) : res T * allocator :=
  match allocate a with
  | (Ok t, a) => (Ok t, a)
  | (Err e, a) =>
      match cb with
      | Some f =>
          if bool_decide (e = ErrExhausted) then
            match f (ranger a) with
            | (Some err, r) => (Err err, MkAlloc r (store a))
            | (None, r) => allocate (MkAlloc r (store a))
            end
          else (Err e, a)
      | None => (Err e, a)
      end
  end.

Definition Release (id : T) (a : allocator) : allocator := MkAlloc (ranger a) (store a ∖ {[id]}).
Definition All (a : allocator) : list T := elements (store a).

(** ** What the allocator guarantees, for any range *)

Context `{!RangeLaws Rg T}.

Lemma assign_spec id a :
  match assign id a with
  | (None, a') => Contains (ranger a) id = true /\ id ∉ store a /\ a' = MkAlloc (ranger a) (store a ∪ {[id]})
  | (Some e, a') => a' = a /\ (Contains (ranger a) id = true -> id ∈ store a)
  end.
Proof.
  unfold assign, has. destruct (Contains (ranger a) id) eqn:Ec; cbn [negb]; [|done].
  by destruct (bool_decide_reflect (id ∈ store a)).
Qed.

(** The search returns the first free identifier the iterator shows. *)
Lemma alloc_loop_spec fuel : forall a, iterating (ranger a) ->
  let '(r, a') := alloc_loop fuel a in
  iterating (ranger a') /\ same_range (ranger a) (ranger a') /\
  match r with
  | Ok id => Contains (ranger a) id = true /\ id ∉ store a /\ store a' = store a ∪ {[id]}
  | Err e => e = ErrExhausted /\ store a' = store a /\ forall x, x ∈ visits fuel (ranger a) -> Contains (ranger a) x = true -> x ∈ store a
  end.
Proof.
  induction fuel as [|fuel IH]; intros a Hok; cbn [alloc_loop visits].
  - split_and!; [done|apply same_refl|done|done|]. intros x Hx. by apply not_elem_of_nil in Hx.
  - pose proof (assign_spec (Get (ranger a)) a) as Ha. destruct (assign _ a) as [[e0|] a0].
    2: { destruct Ha as (Hc & Hf & ->). cbn. split_and!; [done|apply same_refl|done|done|done]. }
    destruct Ha as [-> Hd]. pose proof (next_ok (ranger a) Hok) as [Hn Hs]. destruct (Next (ranger a)) as [[y|] r']; cbn [snd] in *.
    + specialize (IH (MkAlloc r' (store a)) Hn). cbn [ranger store] in IH. destruct (alloc_loop fuel _) as [res a'].
      destruct IH as (H1 & H2 & H3). split_and!; [done|by eapply same_trans|]. destruct res as [id|e].
      * by rewrite (same_contains _ _ _ Hs) in H3.
      * destruct H3 as (He & Hst & Hall). split_and!; [done|done|]. intros x Hx Hcx. apply elem_of_cons in Hx as [->|Hx]; [by apply Hd|].
        apply Hall; [done|]. by rewrite (same_contains _ _ _ Hs).
    + split_and!; [done|done|done|done|]. intros x Hx Hcx. apply list_elem_of_singleton in Hx as ->. by apply Hd.
Qed.

(** More fuel changes nothing once the iterator has ended. *)
Lemma alloc_loop_fuel n : forall a, visits (S n) (ranger a) = visits n (ranger a) -> alloc_loop (S n) a = alloc_loop n a.
Proof.
  induction n as [|n IH]; intros a Hv; [done|]. cbn [alloc_loop]. pose proof (assign_spec (Get (ranger a)) a) as Ha.
  destruct (assign _ a) as [[e0|] a0]; [|done]. destruct Ha as [-> _]. cbn [visits] in Hv. injection Hv as Hv.
  destruct (Next (ranger a)) as [[y|] r']; [|done]. apply (IH (MkAlloc r' (store a))). exact Hv.
Qed.

Lemma visits_more n k : forall r, visits (S n) r = visits n r -> visits (S (n + k)) r = visits (n + k) r.
Proof.
  induction n as [|n IH]; intros r Hv; [done|]. cbn [visits Nat.add] in *. injection Hv as Hv. f_equal.
  destruct (Next r) as [[y|] r']; [|done]. apply (IH r' Hv).
Qed.

(** The search of an allocator ends, whatever the range: with more fuel than
    the range says is needed, the outcome is the same. *)
Theorem allocate_terminates (a : allocator) (k : nat) : range_ok (ranger a) ->
  alloc_loop (steps (ranger a) + k) (MkAlloc (GetIter (ranger a)) (store a)) =
  alloc_loop (steps (ranger a)) (MkAlloc (GetIter (ranger a)) (store a)).
Proof.
  intros Hok. induction k as [|k IH]; [by rewrite Nat.add_0_r|]. rewrite <- IH, Nat.add_succ_r. apply alloc_loop_fuel. cbn [ranger].
  apply visits_more, iter_ends, Hok.
Qed.

(** An identifier is free and in the range when it is handed out; none is handed out
    only when the capacity is used up or every identifier of the range is taken. *)
Lemma allocate_spec a : range_ok (ranger a) ->
  let '(r, a') := allocate a in
  range_ok (ranger a') /\ same_range (ranger a) (ranger a') /\
  match r with
  | Ok id => Contains (ranger a) id = true /\ id ∉ store a /\ store a' = store a ∪ {[id]}
  | Err e => e = ErrExhausted /\ store a' = store a /\
      (Cap (ranger a) <= Z.of_nat (size (store a)) \/ forall x, Contains (ranger a) x = true -> x ∈ store a)
  end.
Proof.
  intros Hok. unfold allocate. destruct (Z.leb_spec (Cap (ranger a)) (Z.of_nat (size (store a)))) as [Hc|Hc].
  - split_and!; [done|apply same_refl|done|done|by left].
  - destruct (iter_ok (ranger a) Hok) as [Hi Hs]. pose proof (alloc_loop_spec (steps (ranger a)) (MkAlloc (GetIter (ranger a)) (store a)) Hi) as Hl.
    cbn [ranger store] in Hl. destruct (alloc_loop _ _) as [r a']. destruct Hl as (H1 & H2 & H3).
    split_and!; [by apply iterating_ok|by eapply same_trans|]. destruct r as [id|e].
    + by rewrite (same_contains _ _ _ Hs) in H3.
    + destruct H3 as (He & Hst & Hall). split_and!; [done|done|right]. intros x Hx. apply Hall; [by apply iter_complete|].
      by rewrite (same_contains _ _ _ Hs).
Qed.

End Allocator.
Arguments allocator : clear implicits.
Arguments allocator Rg T {_ _}.

(** ** Ranges of 16-bit identifiers *)

Definition wrap16 (z : Z) : Z := z `mod` 2 ^ 16.
Definition MaxUint16 : Z := 65535.
Definition ErrInvalidRange : string := "upper is bigger than lower".

Record SimpleLinearRanger : Type := MkRanger { lower : Z; upper : Z; cur : Z; start : Z }.

Definition NewSimpleLinearRanger (lower upper : Z) : res SimpleLinearRanger :=
  if upper <? lower then Err ErrInvalidRange else Ok (MkRanger lower upper (-1) 0).

Definition ranger_Contains (r : SimpleLinearRanger) (id : Z) : bool := (lower r <=? id) && (id <=? upper r).

(** The sum is one of 16-bit numbers. *)
Definition ranger_Cap (r : SimpleLinearRanger) : Z := wrap16 (upper r - lower r + 1).

Definition ranger_Expand (r : SimpleLinearRanger) : res Z * SimpleLinearRanger :=
  if upper r =? MaxUint16 then (Err ErrExhausted, r)
  else let u := wrap16 (upper r + 1) in (Ok u, MkRanger (lower r) u (cur r) (start r)).

Definition ExpandTo (u : Z) (r : SimpleLinearRanger) : SimpleLinearRanger :=
  if upper r <? u then MkRanger (lower r) u (cur r) (start r) else r.

Definition moveCurForward (r : SimpleLinearRanger) : SimpleLinearRanger :=
  if wrap16 (cur r) =? upper r then MkRanger (lower r) (upper r) (lower r) (start r)
  else MkRanger (lower r) (upper r) (cur r + 1) (start r).

Definition ranger_GetIter (r : SimpleLinearRanger) : SimpleLinearRanger :=
  let r := MkRanger (lower r) (upper r) (cur r) (cur r) in
  if cur r =? -1 then MkRanger (lower r) (upper r) (lower r) (start r) else moveCurForward r.

Definition ranger_Get (r : SimpleLinearRanger) : Z := wrap16 (cur r).

Definition ranger_Next (r : SimpleLinearRanger) : option Z * SimpleLinearRanger :=
  if cur r =? start r then (None, r)
  else if (start r =? -1) && (cur r =? upper r) then (None, r)
  else let r := moveCurForward r in (Some (wrap16 (cur r)), r).

#[export] Instance simple_range : Range SimpleLinearRanger Z := {
  Contains := ranger_Contains; Cap := ranger_Cap; GetIter := ranger_GetIter; Get := ranger_Get; Next := ranger_Next;
  Expand := ranger_Expand; steps r := Z.to_nat (upper r - lower r + 1);
}.

(** The bounds are 16-bit numbers, and the position is before or in the range. *)
Record ranger_ok (r : SimpleLinearRanger) : Prop := {
  rk_bounds : 0 <= lower r <= upper r /\ upper r <= MaxUint16;
  rk_cur : cur r = -1 \/ lower r <= cur r <= upper r;
}.
Definition same_bounds (r r' : SimpleLinearRanger) : Prop := lower r' = lower r /\ upper r' = upper r.

Lemma wrap16_id z : 0 <= z <= MaxUint16 -> wrap16 z = z.
Proof. unfold wrap16, MaxUint16. intros H. apply Z.mod_small. lia. Qed.

(** An iterator: its start is -1 or in the range, its position in the range. *)
Record iter_at (r : SimpleLinearRanger) : Prop := {
  it_bounds : 0 <= lower r <= upper r /\ upper r <= MaxUint16;
  it_cur : lower r <= cur r <= upper r;
  it_start : start r = -1 \/ lower r <= start r <= upper r;
}.

(** The moves left, and the identifiers that are still to come. *)
Definition togo (r : SimpleLinearRanger) : Z :=
  if start r =? -1 then upper r - cur r
  else if cur r <=? start r then start r - cur r else upper r - cur r + 1 + (start r - lower r).
Definition ahead (r : SimpleLinearRanger) (x : Z) : Prop :=
  (start r = -1 /\ cur r <= x <= upper r) \/
  (start r <> -1 /\ (cur r <= start r /\ cur r <= x <= start r \/ start r < cur r /\ (cur r <= x <= upper r \/ lower r <= x <= start r))).

Lemma move_spec r : iter_at r ->
  moveCurForward r = MkRanger (lower r) (upper r) (if cur r =? upper r then lower r else cur r + 1) (start r).
Proof. intros H. unfold moveCurForward. rewrite wrap16_id by (destruct H; lia). by destruct (cur r =? upper r). Qed.

Lemma next_spec r : iter_at r ->
  (togo r = 0 /\ Next r = (None, r)) \/
  (0 < togo r /\ exists v, Next r = (Some v, moveCurForward r) /\ iter_at (moveCurForward r) /\ togo (moveCurForward r) = togo r - 1 /\
    forall x, ahead r x -> x = cur r \/ ahead (moveCurForward r) x).
Proof.
  intros H. rewrite move_spec by done. pose proof H as [Hb Hc Hs]. cbn [Next simple_range]. unfold ranger_Next, togo, ahead.
  destruct (Z.eqb_spec (cur r) (start r)) as [E|E].
  { left. split; [|done]. destruct (Z.eqb_spec (start r) (-1)); [lia|]. destruct (Z.leb_spec (cur r) (start r)); lia. }
  destruct (Z.eqb_spec (start r) (-1)) as [E1|E1]; cbn [andb].
  - destruct (Z.eqb_spec (cur r) (upper r)) as [E2|E2]; [left; split; [lia|done]|]. right. split; [lia|].
    eexists. rewrite move_spec by done. destruct (Z.eqb_spec (cur r) (upper r)); [done|]. cbn.
    destruct (Z.eqb_spec (start r) (-1)); [|done]. split; [done|]. split; [split; cbn; lia|]. split; [lia|]. intros x Hx. lia.
  - right. split; [destruct (Z.leb_spec (cur r) (start r)); lia|]. eexists. rewrite move_spec by done. split; [done|]. cbn.
    destruct (Z.eqb_spec (start r) (-1)); [done|].
    destruct (Z.eqb_spec (cur r) (upper r)); (split; [split; cbn; lia|]); cbn;
      repeat match goal with |- context [?a <=? ?b] => destruct (Z.leb_spec a b) end; (split; [lia|]); intros x Hx; lia.
Qed.

Lemma visits_ahead fuel : forall r x, iter_at r -> ahead r x -> togo r < Z.of_nat fuel -> x ∈ visits fuel r.
Proof.
  induction fuel as [|fuel IH]; intros r x Hr Hx Hf.
  - exfalso. destruct Hr. unfold togo, ahead in *. destruct (start r =? -1) eqn:?, (cur r <=? start r) eqn:?; lia.
  - cbn [visits]. assert (Get r = cur r) as Eg by (cbn; apply wrap16_id; destruct Hr; lia).
    destruct (next_spec r Hr) as [[E0 ->]|(Hpos & v & -> & Hr' & Ht & Hah)].
    + apply list_elem_of_singleton. rewrite Eg. destruct Hr. unfold togo, ahead in *.
      destruct (Z.eqb_spec (start r) (-1)), (Z.leb_spec (cur r) (start r)); lia.
    + destruct (Hah x Hx) as [->|Hx']; [rewrite <- Eg; left|]. right. apply IH; [done|done|lia].
Qed.

Lemma visits_end fuel : forall r, iter_at r -> togo r < Z.of_nat fuel -> visits (S fuel) r = visits fuel r.
Proof.
  induction fuel as [|fuel IH]; intros r Hr Hf.
  - exfalso. destruct Hr. unfold togo in Hf. destruct (Z.eqb_spec (start r) (-1)), (Z.leb_spec (cur r) (start r)); lia.
  - cbn [visits]. f_equal. destruct (next_spec r Hr) as [[E0 ->]|(Hpos & v & -> & Hr' & Ht & _)]; [done|].
    apply (IH (moveCurForward r)); [done|lia].
Qed.

Lemma iter_start r : ranger_ok r -> iter_at (GetIter r) /\ same_bounds r (GetIter r) /\ togo (GetIter r) < upper r - lower r + 1 /\
  forall x, lower r <= x <= upper r -> ahead (GetIter r) x.
Proof.
  intros [Hb Hc]. cbn [GetIter simple_range]. unfold ranger_GetIter. cbn [cur lower upper start].
  destruct (Z.eqb_spec (cur r) (-1)) as [E|E].
  - split; [split; cbn; lia|]. split; [done|]. unfold togo, ahead. cbn. rewrite E. cbn. split; [lia|]. intros x Hx. lia.
  - unfold moveCurForward. cbn [cur upper lower start]. rewrite wrap16_id by lia.
    destruct (Z.eqb_spec (cur r) (upper r)) as [E2|E2]; (split; [split; cbn; lia|]); (split; [done|]); unfold togo, ahead; cbn;
      destruct (Z.eqb_spec (cur r) (-1)); try done; repeat match goal with |- context [?a <=? ?b] => destruct (Z.leb_spec a b) end;
      (split; [lia|]); intros x Hx; lia.
Qed.

Lemma iter_at_ok r : iter_at r -> ranger_ok r.
Proof. intros [Hb Hc _]. split; [done|by right]. Qed.

#[export] Instance simple_range_laws : RangeLaws SimpleLinearRanger Z.
Proof.
  refine {| range_ok := ranger_ok; iterating := iter_at; same_range := same_bounds |}.
  - done.
  - unfold same_bounds. intros r1 r2 r3 [-> ->] [-> ->]. done.
  - intros r r' x [E1 E2]. cbn. unfold ranger_Contains. by rewrite E1, E2.
  - intros r r' [E1 E2]. cbn. unfold ranger_Cap. by rewrite E1, E2.
  - intros r Hr. destruct (iter_start r Hr) as (H1 & H2 & _). done.
  - intros r Hr. destruct (next_spec r Hr) as [[_ ->]|(_ & v & -> & Hr' & _)]; [done|]. split; [done|]. cbn. by rewrite move_spec.
  - apply iter_at_ok.
  - intros r x Hr Hx. destruct (iter_start r Hr) as (H1 & H2 & H3 & H4). cbn in Hx. unfold ranger_Contains in Hx.
    apply visits_ahead; [done|apply H4; go_bool; lia|cbn [steps simple_range]; lia].
  - intros r Hr. destruct (iter_start r Hr) as (H1 & H2 & H3 & _). apply visits_end; [done|]. cbn [steps simple_range]. lia.
Defined.

(** ** The identifiers in use *)

Definition id_alloc : Type := allocator SimpleLinearRanger Z.

(** A range within 16 bits whose identifiers in use are its own. *)
Record alloc_ok (a : id_alloc) : Prop := {
  ao_range : ranger_ok (ranger a);
  ao_store : forall x, x ∈ store a -> lower (ranger a) <= x <= upper (ranger a);
}.

Lemma interval_size lo hi : lo <= hi + 1 -> size (list_to_set (seqZ lo (hi - lo + 1)) : gset Z) = Z.to_nat (hi - lo + 1).
Proof. intros H. rewrite size_list_to_set by apply NoDup_seqZ. by rewrite length_seqZ. Qed.

(** As many identifiers in use as the range has: all of them. *)
Lemma full_range (a : id_alloc) : alloc_ok a -> upper (ranger a) - lower (ranger a) + 1 <= Z.of_nat (size (store a)) ->
  forall x, lower (ranger a) <= x <= upper (ranger a) -> x ∈ store a.
Proof.
  intros [[Hb _] Hs] Hsz x Hx. set (all := list_to_set (seqZ (lower (ranger a)) (upper (ranger a) - lower (ranger a) + 1)) : gset Z).
  assert (store a ⊆ all) as Hsub. { intros y Hy. apply elem_of_list_to_set, elem_of_seqZ. specialize (Hs y Hy). lia. }
  assert (store a = all) as ->; [|apply elem_of_list_to_set, elem_of_seqZ; lia].
  apply set_subseteq_size_eq; [done|]. unfold all. rewrite interval_size; lia.
Qed.

(** The bound is below the largest 16-bit number: then the capacity is the size. *)
Lemma cap_exact (r : SimpleLinearRanger) : ranger_ok r -> upper r - lower r < MaxUint16 -> Cap r = upper r - lower r + 1.
Proof. intros [Hb _] H. cbn. unfold ranger_Cap. apply wrap16_id. unfold MaxUint16 in *. lia. Qed.

(** C32: an allocation over 16-bit identifiers is exact while the range does not span
    all of them: it hands out an identifier of the range that is in use nowhere, and
    fails only when all are in use; everything else that is in use stays so. *)
Theorem id_allocate_exact (a : id_alloc) : alloc_ok a -> upper (ranger a) - lower (ranger a) < MaxUint16 ->
  let '(r, a') := allocate a in
  alloc_ok a' /\ same_bounds (ranger a) (ranger a') /\
  match r with
  | Ok id => lower (ranger a) <= id <= upper (ranger a) /\ id ∉ store a /\ store a' = store a ∪ {[id]}
  | Err e => e = ErrExhausted /\ store a' = store a /\ forall x, lower (ranger a) <= x <= upper (ranger a) -> x ∈ store a
  end.
Proof.
  intros Hok Hspan. pose proof Hok as [Hr Hs]. pose proof (allocate_spec a Hr) as H. destruct (allocate a) as [r a'].
  destruct H as (Hr' & Hsame & H). pose proof Hsame as [E1 E2]. cbn in E1, E2. destruct r as [id|e].
  - destruct H as (Hc & Hf & Hst). cbn in Hc. unfold ranger_Contains in Hc. go_bool.
    split_and!; [split; [done|]|done|lia|lia|done|done]. intros x. rewrite Hst, E1, E2. intros [Hx| ->%elem_of_singleton]%elem_of_union; [by apply Hs|lia].
  - destruct H as (He & Hst & Hfull). split_and!; [split; [done|]|done|done|done|].
    + intros x. rewrite Hst, E1, E2. apply Hs.
    + destruct Hfull as [Hcap|Hall].
      * rewrite cap_exact in Hcap by done. by apply full_range.
      * intros x Hx. apply Hall. cbn. unfold ranger_Contains. destruct (Z.leb_spec (lower (ranger a)) x), (Z.leb_spec x (upper (ranger a))); cbn; lia.
Qed.

(** The range of all 16-bit identifiers has capacity 0: nothing is ever handed out. *)
Theorem full_span_never_allocates (a : id_alloc) : lower (ranger a) = 0 -> upper (ranger a) = MaxUint16 -> allocate a = (Err ErrExhausted, a).
Proof.
  intros E1 E2. unfold allocate. cbn [Cap simple_range]. unfold ranger_Cap. rewrite E1, E2. change (wrap16 (MaxUint16 - 0 + 1)) with 0.
  destruct (Z.leb_spec 0 (Z.of_nat (size (store a)))); [done|lia].
Qed.

Definition demo_ids : id_alloc := MkAlloc (MkRanger 1 3 2 2) {[2; 3]}.

Lemma id_allocate_exact_witness : let '(r, a') := allocate demo_ids in r = Ok 1 /\ store a' = store demo_ids ∪ {[1]}.
Proof.
  assert (alloc_ok demo_ids) as Hok.
  { split; [split; cbn; unfold MaxUint16; lia|]. intros x. cbn. set_solver by lia. }
  pose proof (id_allocate_exact demo_ids Hok ltac:(cbn; unfold MaxUint16; lia)) as H.
  assert ((allocate demo_ids).1 = Ok 1) as E by (by vm_compute). destruct (allocate demo_ids) as [r a']. cbn in E. subst r.
  split; [done|]. apply H.
Defined.

Lemma allocate_terminates_witness : steps (ranger demo_ids) = 3%nat /\
  alloc_loop (steps (ranger demo_ids) + 10) (MkAlloc (GetIter (ranger demo_ids)) (store demo_ids)) =
  alloc_loop (steps (ranger demo_ids)) (MkAlloc (GetIter (ranger demo_ids)) (store demo_ids)).
Proof. split; [done|]. apply (allocate_terminates demo_ids 10). split; cbn; unfold MaxUint16; lia. Defined.
