(* ===== verification/CletStore.v ===== *)
(** * The key-value files of the Cubelet (Cubelet/pkg/utils/localstorage.go)

    A [CubeStore] spreads its keys over several bolt files by a checksum of the key,
    or keeps them in one.  A file holds buckets, named by paths, each with its keys
    and the buckets nested in it; a transaction happens as a whole or not at all.
    bolt refuses a key that names a nested bucket and a bucket that is named like a
    key ("incompatible value"); every other refusal of a transaction (the disk, an
    empty or too long name) is [io].  A bucket is named by at least one name: with
    none the code panics.  The store refines a plain map and the set of the buckets
    of each file.

    The checksum is CRC-32 (IEEE), as in Go's hash/crc32. *)
From S2P Require Import Prelude GoStrings.
From Stdlib Require Import Ascii.

Open Scope string_scope.
Open Scope Z_scope.

(** ** CRC-32 *)

(** One bit, then one byte, of the reflected algorithm. *)
Definition crc_bit (c : Z) : Z := if Z.odd c then Z.lxor (Z.shiftr c 1) 3988292384 else Z.shiftr c 1.
Definition crc_byte (c : Z) (b : ascii) : Z :=
  Nat.iter 8 crc_bit (Z.lxor c (Z.of_N (N_of_ascii b))).
Fixpoint crc_go (c : Z) (s : string) : Z :=
  match s with
  | EmptyString => c
  | String b s => crc_go (crc_byte c b) s
  end.
Definition ChecksumIEEE (s : string) : Z := Z.lxor (crc_go (2 ^ 32 - 1) s) (2 ^ 32 - 1).

Example checksum_of_digits : ChecksumIEEE "123456789" = 3421780262.
Proof. by vm_compute. Qed.

(** ** Files *)

Abbreviation bucket := (gmap string string).
(** The buckets of one file by their paths. *)
Abbreviation bolt := (gmap (list string) (gmap string string)).

Definition ErrorKeyNotFound : string := "key not found".
Definition ErrorBucketNotFound : string := "bucket not found".

Definition ErrIncompatibleValue : string := "incompatible value".

(** [createBucketIfNotExists]: the bucket and those it is nested in; [made] are the
    names of the bucket reached so far. *)
Fixpoint create_path (made : list string) (path : list string) (f : bolt) : res bolt :=
  match path with
  | [] => Ok f
  | k :: path =>
      match f !! made ≫= (fun b => b !! k) with
      | Some _ => Err ErrIncompatibleValue
      | None =>
          let made := (made ++ [k])%list in
          create_path made path (match f !! made with Some _ => f | None => <[made := ∅]> f end)
      end
  end.
Definition createBucketIfNotExists (path : list string) (f : bolt) : res bolt := create_path [] path f.

(** The name of a bucket nested directly in [path]. *)
Definition child_of (path p : list string) : option string :=
  k ← last p; if bool_decide (p = path ++ [k])%list then Some k else None.
(** [ForEach] visits the keys with their values and the nested buckets without one. *)
Definition for_each (path : list string) (f : bolt) : bucket :=
  match f !! path with
  | None => ∅
  | Some b => b ∪ list_to_map ((fun k => (k, "")) <$> omap (child_of path) (map_to_list f).*1)
  end.

Record CubeStore : Type := MkCubeStore { poolNum : Z; indexMap : gmap Z bolt; db : bolt }.

Definition NewCubeStore : CubeStore := MkCubeStore 0 ∅ ∅.
Definition NewCubeStoreExt (num : Z) : CubeStore := MkCubeStore num (list_to_map ((fun i => (i, ∅)) <$> seqZ 0 num)) ∅.

(** The number of the file of a key, 0 when there is one file only. *)
Definition real_index (num : Z) (key : string) : Z := (ChecksumIEEE key `mod` num + num) `mod` num.
Definition shard (num : Z) (key : string) : Z := if 0 <? num then real_index num key else 0.
Definition file_of (key : string) (cs : CubeStore) : bolt :=
  if 0 <? poolNum cs then default ∅ (indexMap cs !! real_index (poolNum cs) key) else db cs.
Definition with_file (key : string) (f : bolt) (cs : CubeStore) : CubeStore :=
  if 0 <? poolNum cs then MkCubeStore (poolNum cs) (<[real_index (poolNum cs) key := f]> (indexMap cs)) (db cs) else MkCubeStore (poolNum cs) (indexMap cs) f.

(** ** Operations *)

Definition GetBs (key : string) (path : list string) (cs : CubeStore) : res string :=
  match file_of key cs !! path with
  | None => Err ErrorBucketNotFound
  | Some b => match b !! key with None => Err ErrorKeyNotFound | Some v => Ok v end
  end.
Definition Get (bkt key : string) (cs : CubeStore) : res string := GetBs key [bkt] cs.

Definition put_key (key value : string) (path : list string) (f : bolt) : res bolt :=
  match createBucketIfNotExists path f with
  | Err e => Err e
  | Ok f =>
      if bool_decide (is_Some (f !! (path ++ [key])%list)) then Err ErrIncompatibleValue
      else Ok (<[path := <[key := value]> (default ∅ (f !! path))]> f)
  end.

Definition SetBs (io : option string) (key value : string) (path : list string) (cs : CubeStore) : option string * CubeStore :=
  match io with
  | Some e => (Some e, cs)
  | None => match put_key key value path (file_of key cs) with
            | Err e => (Some e, cs)
            | Ok f => (None, with_file key f cs)
            end
  end.

(** [callback] runs inside the transaction: its error undoes the write. *)
Definition SetWithTx (io : option string) (bkt key value : string) (callback : option (option string)) (cs : CubeStore) :
    option string * CubeStore :=
  match SetBs io key value [bkt] cs, callback with
  | (None, _), Some (Some e) => (Some e, cs)
  | r, _ => r
  end.
Definition Set_ (io : option string) (bkt key value : string) (cs : CubeStore) : option string * CubeStore := SetWithTx io bkt key value None cs.

Definition delete_key (key : string) (path : list string) (f : bolt) : res bolt :=
  match f !! path with
  | None => Err ErrorBucketNotFound
  | Some b => if bool_decide (is_Some (f !! (path ++ [key])%list)) then Err ErrIncompatibleValue else Ok (<[path := delete key b]> f)
  end.

Definition DeleteBs (io : option string) (key : string) (path : list string) (cs : CubeStore) : option string * CubeStore :=
  match delete_key key path (file_of key cs) with
  | Err e => (Some e, cs)
  | Ok f => match io with Some e => (Some e, cs) | None => (None, with_file key f cs) end
  end.

(** The error of the callback is overwritten: the key is gone and no error is told. *)
Definition DeleteWithTx (io : option string) (bkt key : string) (callback : option (option string)) (cs : CubeStore) :
    option string * CubeStore := DeleteBs io key [bkt] cs.
Definition Delete (io : option string) (bkt key : string) (cs : CubeStore) : option string * CubeStore := DeleteWithTx io bkt key None cs.

(** The files are read in any order, which [order] lists; of two files that know a name
    the later is kept. *)
Fixpoint read_files (order : list Z) (path : list string) (cs : CubeStore) (all : bucket) : bucket :=
  match order with
  | [] => all
  | i :: order => read_files order path cs (default ∅ (for_each path <$> indexMap cs !! i) ∪ all)
  end.
Definition ReadAllBs (order : list Z) (path : list string) (cs : CubeStore) : bucket :=
  if 0 <? poolNum cs then read_files order path cs ∅ else for_each path (db cs).
Definition ReadAll (order : list Z) (bkt : string) (cs : CubeStore) : bucket := ReadAllBs order [bkt] cs.

(** ** The store is a map *)

Definition files (cs : CubeStore) : gmap Z bolt := if 0 <? poolNum cs then indexMap cs else {[0 := db cs]}.

(** What a store holds for a key of a bucket. *)
Definition entry_in (f : bolt) (path : list string) (key : string) : option string := f !! path ≫= (fun b => b !! key).
Definition view (cs : CubeStore) (path : list string) (key : string) : option string := entry_in (file_of key cs) path key.

Lemma file_of_files key cs : file_of key cs = default ∅ (files cs !! shard (poolNum cs) key).
Proof. unfold file_of, files, shard. by destruct (0 <? poolNum cs). Qed.

Lemma with_file_num key f cs : poolNum (with_file key f cs) = poolNum cs.
Proof. unfold with_file. by destruct (0 <? poolNum cs). Qed.

Lemma files_with_file key f cs : files (with_file key f cs) = <[shard (poolNum cs) key := f]> (files cs).
Proof.
  unfold files, with_file, shard. destruct (0 <? poolNum cs) eqn:E; cbn [poolNum indexMap db]; rewrite E; [done|].
  by rewrite insert_singleton_eq.
Qed.

(** The buckets on the way to [path]. *)
Fixpoint prefixes (made path : list string) : list (list string) :=
  match path with [] => [] | k :: path => (made ++ [k])%list :: prefixes (made ++ [k])%list path end.

(** One of the names on the way is a key. *)
Fixpoint blocked_in (f : bolt) (made path : list string) : bool :=
  match path with
  | [] => false
  | k :: path => bool_decide (is_Some (entry_in f made k)) || blocked_in f (made ++ [k])%list path
  end.

Lemma blocked_in_ext f f' path : (forall p k, entry_in f p k = entry_in f' p k) -> forall made, blocked_in f made path = blocked_in f' made path.
Proof. intros He. induction path as [|k path IH]; intros made; cbn; [done|]. by rewrite He, IH. Qed.

Lemma prefixes_length path : forall made p, p ∈ prefixes made path -> (length p <= length made + length path)%nat.
Proof.
  induction path as [|k path IH]; intros made p; cbn [prefixes]; [by intros ?%not_elem_of_nil|].
  intros [->|Hp]%elem_of_cons; [rewrite length_app; cbn; lia|]. apply IH in Hp. rewrite length_app in Hp. cbn in *. lia.
Qed.

Lemma blocked_prefix f path : forall made p k, blocked_in f made path = false -> (p ++ [k])%list ∈ prefixes made path -> entry_in f p k = None.
Proof.
  induction path as [|x path IH]; intros made p k; cbn [blocked_in prefixes]; [by intros _ ?%not_elem_of_nil|].
  intros [Hb Hrest]%orb_false_iff Hin. apply elem_of_cons in Hin as [Heq|Hp]; [|by eapply IH].
  apply app_inj_tail in Heq as [-> ->]. apply bool_decide_eq_false in Hb. by apply eq_None_not_Some.
Qed.

Lemma create_path_spec path : forall made f,
  if blocked_in f made path then create_path made path f = Err ErrIncompatibleValue
  else exists f', create_path made path f = Ok f' /\ (forall p k, entry_in f' p k = entry_in f p k) /\
    (forall p, is_Some (f' !! p) <-> is_Some (f !! p) \/ p ∈ prefixes made path).
Proof.
  induction path as [|x path IH]; intros made f; cbn [blocked_in create_path prefixes].
  { exists f. split_and!; [done|done|]. intros p. split; [by left|]. by intros [?|?%not_elem_of_nil]. }
  change (f !! made ≫= (fun b => b !! x)) with (entry_in f made x).
  destruct (entry_in f made x) as [v|] eqn:Ev; [by rewrite bool_decide_true by eauto|]. rewrite bool_decide_false by (by intros [? ?]). cbn [orb].
  set (g := match f !! (made ++ [x])%list with Some _ => f | None => <[(made ++ [x])%list := ∅]> f end).
  assert (Hg : (forall p k, entry_in g p k = entry_in f p k) /\ (forall p, is_Some (g !! p) <-> is_Some (f !! p) \/ p = (made ++ [x])%list)).
  { unfold g. destruct (f !! (made ++ [x])%list) eqn:E.
    - split; [done|]. intros p. split; [by left|]. intros [?| ->]; [done|]. by rewrite E.
    - split.
      + intros p k. unfold entry_in. destruct (decide (p = made ++ [x])%list) as [->|]; [|by rewrite lookup_insert_ne].
        rewrite lookup_insert_eq, E. cbn. apply lookup_empty.
      + intros p. destruct (decide (p = made ++ [x])%list) as [->|]; [rewrite lookup_insert_eq; naive_solver|]. rewrite lookup_insert_ne by done. naive_solver. }
  destruct Hg as [G1 G2]. rewrite <- (blocked_in_ext g f path G1). specialize (IH (made ++ [x])%list g).
  destruct (blocked_in g _ path); [exact IH|]. destruct IH as (f' & E & F1 & F2). exists f'. split_and!; [done|intros; by rewrite F1|].
  intros p. rewrite F2, G2, elem_of_cons. tauto.
Qed.

(** Keys and nested buckets have different names. *)
Definition apart (f : bolt) : Prop := forall p k, is_Some (entry_in f p k) -> f !! (p ++ [k])%list = None.

Lemma put_key_spec key value path f : apart f ->
  if blocked_in f [] path || bool_decide (is_Some (f !! (path ++ [key])%list)) then put_key key value path f = Err ErrIncompatibleValue
  else exists f', put_key key value path f = Ok f' /\ apart f' /\
    (forall p k, entry_in f' p k = if bool_decide (p = path /\ k = key) then Some value else entry_in f p k) /\
    (forall p, is_Some (f' !! p) <-> is_Some (f !! p) \/ p ∈ path :: prefixes [] path).
Proof.
  intros Hap. unfold put_key, createBucketIfNotExists. pose proof (create_path_spec path [] f) as Hc.
  destruct (blocked_in f [] path) eqn:Eb; cbn [orb]; [by rewrite Hc|]. destruct Hc as (g & -> & G1 & G2).
  assert (Hn : is_Some (g !! (path ++ [key])%list) <-> is_Some (f !! (path ++ [key])%list)).
  { rewrite G2. split; [|by left]. intros [?|Hp%prefixes_length]; [done|]. rewrite length_app in Hp. cbn in Hp. lia. }
  rewrite (bool_decide_ext _ _ Hn). case_bool_decide as Hs; [done|]. eexists. split; [done|].
  assert (He : forall p k, entry_in (<[path := <[key := value]> (default ∅ (g !! path))]> g) p k =
    if bool_decide (p = path /\ k = key) then Some value else entry_in f p k).
  { intros p k. rewrite <- G1. unfold entry_in. destruct (decide (p = path)) as [->|Hp].
    - rewrite lookup_insert_eq. cbn. destruct (decide (k = key)) as [->|Hk].
      + by rewrite lookup_insert_eq, bool_decide_true.
      + rewrite lookup_insert_ne by done. rewrite bool_decide_false by tauto. destruct (g !! path); cbn; [done|apply lookup_empty].
    - rewrite lookup_insert_ne by done. rewrite bool_decide_false by tauto. done. }
  assert (Hd : forall p, is_Some (<[path := <[key := value]> (default ∅ (g !! path))]> g !! p) <-> is_Some (f !! p) \/ p ∈ path :: prefixes [] path).
  { intros p. rewrite elem_of_cons. destruct (decide (p = path)) as [->|Hp]; [rewrite lookup_insert_eq; naive_solver|].
    rewrite lookup_insert_ne, G2 by done. tauto. }
  split_and!; [|done|done]. intros p k Hk. rewrite He in Hk. apply eq_None_not_Some. rewrite Hd, elem_of_cons.
  destruct (decide (p = path /\ k = key)) as [[? ?]|Hne]; [subst|rewrite bool_decide_false in Hk by done].
  - intros [?|[Heq|Hp%prefixes_length]]; [done| |].
    + apply (f_equal length) in Heq. rewrite length_app in Heq. cbn in Heq. lia.
    + rewrite length_app in Hp. cbn in Hp. lia.
  - intros [Hf|Hor]; [rewrite (Hap p k Hk) in Hf; by destruct Hf|].
    assert (Hin : (p ++ [k])%list ∈ prefixes [] path).
    { destruct Hor as [Heq|?]; [|done]. rewrite Heq. clear -Heq. destruct path as [|x path]; [by destruct p|]. clear Heq.
      assert (forall made, (made ++ x :: path)%list ∈ prefixes made (x :: path)) as H; [|apply (H [])].
      revert x. induction path as [|y path IH]; intros x made; cbn; [by left|]. right. specialize (IH y (made ++ [x])%list). by rewrite <- app_assoc in IH. }
    rewrite (blocked_prefix f path [] p k Eb Hin) in Hk. by destruct Hk.
Qed.

Lemma delete_key_spec key path f : apart f -> match f !! path with
  | None => delete_key key path f = Err ErrorBucketNotFound
  | Some _ => if bool_decide (is_Some (f !! (path ++ [key])%list)) then delete_key key path f = Err ErrIncompatibleValue
      else exists f', delete_key key path f = Ok f' /\ apart f' /\
        (forall p k, entry_in f' p k = if bool_decide (p = path /\ k = key) then None else entry_in f p k) /\
        (forall p, is_Some (f' !! p) <-> is_Some (f !! p))
  end.
Proof.
  intros Hap. unfold delete_key. destruct (f !! path) as [b|] eqn:Eb; [|done]. case_bool_decide as Hs; [done|]. eexists. split; [done|].
  assert (He : forall p k, entry_in (<[path := delete key b]> f) p k = if bool_decide (p = path /\ k = key) then None else entry_in f p k).
  { intros p k. unfold entry_in. destruct (decide (p = path)) as [->|Hp].
    - rewrite lookup_insert_eq, Eb. cbn. destruct (decide (k = key)) as [->|Hk].
      + by rewrite lookup_delete_eq, bool_decide_true.
      + rewrite lookup_delete_ne by done. by rewrite bool_decide_false by tauto.
    - rewrite lookup_insert_ne by done. by rewrite bool_decide_false by tauto. }
  assert (Hd : forall p, is_Some (<[path := delete key b]> f !! p) <-> is_Some (f !! p)).
  { intros p. destruct (decide (p = path)) as [->|Hp]; [rewrite lookup_insert_eq, Eb; naive_solver|by rewrite lookup_insert_ne]. }
  split_and!; [|done|done]. intros p k. rewrite He. case_bool_decide; [by intros [? ?]|]. intros Hk. apply eq_None_not_Some. rewrite Hd, (Hap p k Hk). by intros [? ?].
Qed.

(** There is a file for every number, and it holds keys of that number only. *)
Definition in_range (num i : Z) : Prop := if 0 <? num then 0 <= i < num else i = 0.

Record store_ok (cs : CubeStore) : Prop := {
  sk_num : 0 <= poolNum cs;
  sk_files : forall i, is_Some (files cs !! i) <-> in_range (poolNum cs) i;
  sk_place : forall i f path k v, files cs !! i = Some f -> entry_in f path k = Some v -> shard (poolNum cs) k = i;
  sk_apart : forall i f, files cs !! i = Some f -> apart f;
}.

Lemma shard_range num key : 0 <= num -> in_range num (shard num key).
Proof. intros H. unfold in_range, shard. destruct (Z.ltb_spec 0 num); [|done]. unfold real_index. apply Z.mod_pos_bound. lia. Qed.

Lemma own_file key cs : store_ok cs -> files cs !! shard (poolNum cs) key = Some (file_of key cs).
Proof.
  intros Hok. destruct (proj2 (sk_files cs Hok (shard (poolNum cs) key)) (shard_range _ _ (sk_num cs Hok))) as [f Hf].
  by rewrite file_of_files, Hf.
Qed.

(** Replacing the file of a key by one that differs at that key only. *)
Lemma with_file_spec key f cs path (new : option string) : store_ok cs -> apart f ->
  (forall p k, entry_in f p k = if bool_decide (p = path /\ k = key) then new else entry_in (file_of key cs) p k) ->
  store_ok (with_file key f cs) /\
  forall p k, view (with_file key f cs) p k = if bool_decide (p = path /\ k = key) then new else view cs p k.
Proof.
  intros Hok Hap Hf. pose proof (own_file key cs Hok) as Hown. set (i0 := shard (poolNum cs) key) in *. split.
  - split; rewrite ?with_file_num, ?files_with_file; fold i0; [apply Hok| | |].
    + intros i. rewrite <- (sk_files cs Hok). destruct (decide (i = i0)) as [->|]; [rewrite lookup_insert_eq, Hown; naive_solver|by rewrite lookup_insert_ne].
    + intros i g p k v Hi Hv. destruct (decide (i = i0)) as [->|].
      * rewrite lookup_insert_eq in Hi. injection Hi as <-. rewrite Hf in Hv. destruct (bool_decide_reflect (p = path /\ k = key)) as [[_ ->]|_]; [done|].
        by eapply sk_place.
      * rewrite lookup_insert_ne in Hi by done. by eapply sk_place.
    + intros i g Hi. destruct (decide (i = i0)) as [->|]; [rewrite lookup_insert_eq in Hi; by injection Hi as <-|].
      rewrite lookup_insert_ne in Hi by done. by eapply sk_apart.
  - intros p k. unfold view. rewrite (file_of_files k (with_file _ _ _)), files_with_file, with_file_num, (file_of_files k cs). fold i0.
    destruct (decide (shard (poolNum cs) k = i0)) as [Ei|Ei].
    + rewrite Ei, lookup_insert_eq, Hown. cbn. apply Hf.
    + rewrite lookup_insert_ne by done. rewrite bool_decide_false; [done|]. intros [_ ->]. done.
Qed.

(** *** The specification *)

Inductive store_op : Type :=
  | SPut (io : option string) (path : list string) (key value : string)
  | SDel (io : option string) (path : list string) (key : string).

Definition op_store (cs : CubeStore) (o : store_op) : option string * CubeStore :=
  match o with
  | SPut io path key value => SetBs io key value path cs
  | SDel io path key => DeleteBs io key path cs
  end.
Definition run_store (cs : CubeStore) (o : store_op) : CubeStore := (op_store cs o).2.

(** A map from buckets and keys to values, and the buckets of each file. *)
Record contents : Type := MkContents { c_keys : gmap (list string * string) string; c_buckets : gset (Z * list string) }.

(** A name on the way to [path] is a key of the file [i]. *)
Fixpoint blocked (num i : Z) (m : gmap (list string * string) string) (made path : list string) : bool :=
  match path with
  | [] => false
  | k :: path => bool_decide (is_Some (m !! (made, k)) /\ shard num k = i) || blocked num i m (made ++ [k])%list path
  end.

Definition spec_store (num : Z) (st : contents) (o : store_op) : option string * contents :=
  match o with
  | SPut (Some e) _ _ _ => (Some e, st)
  | SPut None path key value =>
      let i := shard num key in
      if blocked num i (c_keys st) [] path || bool_decide ((i, path ++ [key])%list ∈ c_buckets st) then (Some ErrIncompatibleValue, st)
      else (None, MkContents (<[(path, key) := value]> (c_keys st)) (c_buckets st ∪ list_to_set (pair i <$> path :: prefixes [] path)))
  | SDel io path key =>
      let i := shard num key in
      if bool_decide ((i, path) ∉ c_buckets st) then (Some ErrorBucketNotFound, st)
      else if bool_decide ((i, path ++ [key])%list ∈ c_buckets st) then (Some ErrIncompatibleValue, st)
      else match io with Some e => (Some e, st) | None => (None, MkContents (delete (path, key) (c_keys st)) (c_buckets st)) end
  end.

Record same_contents (num : Z) (cs : CubeStore) (st : contents) : Prop := {
  sc_ok : store_ok cs;
  sc_num : poolNum cs = num;
  sc_keys : forall path key, view cs path key = c_keys st !! (path, key);
  sc_buckets : forall i f p, files cs !! i = Some f -> is_Some (f !! p) <-> (i, p) ∈ c_buckets st;
  sc_range : forall i p, (i, p) ∈ c_buckets st -> is_Some (files cs !! i);
}.

Lemma blocked_same num cs st key : same_contents num cs st -> forall path made,
  blocked num (shard num key) (c_keys st) made path = blocked_in (file_of key cs) made path.
Proof.
  intros [Hok Hn Hk _ _]. induction path as [|k path IH]; intros made; cbn; [done|]. rewrite IH. f_equal. apply bool_decide_ext.
  rewrite <- Hk. split.
  - intros [[v Hv] Hs]. exists v. unfold view in Hv. rewrite file_of_files in Hv |- *. subst num. by rewrite <- Hs.
  - intros [v Hv]. assert (Hs : shard num k = shard num key) by (subst num; eapply sk_place; [done|by apply own_file|exact Hv]). split; [|done].
    exists v. unfold view. rewrite file_of_files in Hv |- *. subst num. by rewrite Hs.
Qed.

(** Writing back the file of [key] with more buckets. *)
Lemma same_write (num : Z) (cs : CubeStore) (st : contents) (key : string) (f : bolt) (path : list string) (new : option string) (m : gmap (list string * string) string) (bs : gset (list string)) : same_contents num cs st -> apart f ->
  (forall p k, entry_in f p k = if bool_decide (p = path /\ k = key) then new else entry_in (file_of key cs) p k) ->
  (forall p, is_Some (f !! p) <-> is_Some (file_of key cs !! p) \/ p ∈ bs) ->
  (forall p k, m !! (p, k) = if bool_decide (p = path /\ k = key) then new else c_keys st !! (p, k)) ->
  same_contents num (with_file key f cs) (MkContents m (c_buckets st ∪ (set_map (pair (shard num key)) bs : gset (Z * list string)))).
Proof.
  intros [Hok Hn Hk Hb Hr] Hap He Hd Hm. destruct (with_file_spec key f cs path new Hok Hap He) as [Hok' Hv].
  pose proof (own_file key cs Hok) as Hown. subst num. split; [done|apply with_file_num| | |]; cbn [c_keys c_buckets].
  - intros p k. by rewrite Hv, Hm, Hk.
  - intros i g p. rewrite files_with_file, elem_of_union, elem_of_map. intros Hi. destruct (decide (i = shard (poolNum cs) key)) as [->|Hne].
    + rewrite lookup_insert_eq in Hi. injection Hi as <-. rewrite Hd, <- (Hb _ _ p Hown). naive_solver.
    + rewrite lookup_insert_ne in Hi by done. rewrite (Hb _ _ p Hi). split; [by left|]. intros [?|(x & [= -> _] & _)]; done.
  - intros i p. rewrite files_with_file, elem_of_union, elem_of_map. intros Hor. destruct (decide (i = shard (poolNum cs) key)) as [->|Hne].
    + by rewrite lookup_insert_eq.
    + rewrite lookup_insert_ne by done. destruct Hor as [?|(x & [= -> _] & _)]; [by eapply Hr|done].
Qed.

(** One operation: the same answer, and the same contents afterwards. *)
Lemma op_store_refines num cs st o : same_contents num cs st ->
  (op_store cs o).1 = (spec_store num st o).1 /\ same_contents num (run_store cs o) (spec_store num st o).2.
Proof.
  intros Hsame. pose proof Hsame as [Hok Hn Hk Hb Hr]. unfold run_store. destruct o as [[e|] path key value|io path key]; cbn [op_store spec_store]; [done| |].
  - unfold SetBs. rewrite (blocked_same num cs st key Hsame). pose proof (own_file key cs Hok) as Hown. pose proof (sk_apart cs Hok _ _ Hown) as Hap. rewrite Hn in Hown.
    rewrite <- (bool_decide_ext _ _ (Hb _ _ (path ++ [key])%list Hown)).
    pose proof (put_key_spec key value path (file_of key cs) Hap) as Hp.
    destruct (_ || _); [by rewrite Hp|]. destruct Hp as (f & -> & F1 & F2 & F3). split; [done|]. cbn [snd].
    assert (list_to_set (pair (shard num key) <$> path :: prefixes [] path) = (set_map (pair (shard num key)) (list_to_set (path :: prefixes [] path) : gset (list string)) : gset (Z * list string))) as ->.
    { apply set_eq. intros x. rewrite elem_of_map, elem_of_list_to_set, list_elem_of_fmap. setoid_rewrite elem_of_list_to_set. done. }
    apply (same_write num cs st key f path (Some value)); [done|done|done| |].
    + intros p. by rewrite F3, elem_of_list_to_set.
    + intros p k. case_bool_decide as Hb'; [destruct Hb' as [-> ->]; apply lookup_insert_eq|]. apply lookup_insert_ne. intros [= <- <-]. tauto.
  - unfold DeleteBs. pose proof (own_file key cs Hok) as Hown. pose proof (sk_apart cs Hok _ _ Hown) as Hap. rewrite Hn in Hown.
    rewrite <- (bool_decide_ext _ _ (Hb _ _ (path ++ [key])%list Hown)).
    pose proof (delete_key_spec key path (file_of key cs) Hap) as Hp.
    pose proof (Hb _ _ path Hown) as Hpath. destruct (file_of key cs !! path) as [b|].
    + rewrite bool_decide_false by (intros Hno; apply Hno, Hpath; eauto). case_bool_decide; [by rewrite Hp|].
      destruct Hp as (f & -> & F1 & F2 & F3). destruct io as [e|]; [done|]. split; [done|]. cbn [snd].
      replace (c_buckets st) with (c_buckets st ∪ set_map (pair (shard num key)) (∅ : gset (list string))) by (rewrite set_map_empty; apply (right_id_L ∅ (∪))).
      apply (same_write num cs st key f path None); [done|done|done| |].
      * intros p. rewrite F3. set_solver.
      * intros p k. case_bool_decide as Hb'; [destruct Hb' as [-> ->]; apply lookup_delete_eq|]. apply lookup_delete_ne. intros [= <- <-]. tauto.
    + rewrite Hp, bool_decide_true; [done|]. intros Hin%Hpath. by destruct Hin.
Qed.

Lemma op_store_num cs o : poolNum (run_store cs o) = poolNum cs.
Proof.
  unfold run_store. destruct o as [[e|] path key value|io path key]; cbn; [done| |].
  - unfold SetBs. destruct (put_key _ _ _ _); [apply with_file_num|done].
  - unfold DeleteBs. destruct (delete_key _ _ _); [|done]. destruct io; [done|apply with_file_num].
Qed.

(** *** Reading a bucket *)

Lemma child_of_Some path p k : child_of path p = Some k <-> p = (path ++ [k])%list.
Proof.
  unfold child_of. destruct p as [|y p _] using rev_ind; [split; [done|by destruct path]|]. rewrite last_snoc. cbn.
  case_bool_decide as E; [|split; [done|]].
  - apply app_inj_tail in E as [-> _]. split; [by intros [= ->]|]. intros E. apply app_inj_tail in E as [_ ->]. done.
  - intros E2. apply app_inj_tail in E2 as [-> ->]. done.
Qed.

Lemma for_each_lookup path f k : for_each path f !! k =
  match f !! path with
  | None => None
  | Some b => match b !! k with Some v => Some v | None => if bool_decide (is_Some (f !! (path ++ [k])%list)) then Some "" else None end
  end.
Proof.
  unfold for_each. destruct (f !! path) as [b|]; [|apply lookup_empty]. destruct (b !! k) as [v|] eqn:Ev; [by apply lookup_union_Some_l|].
  rewrite lookup_union_r by done. set (l := omap (child_of path) (map_to_list f).*1).
  assert (Hl : k ∈ l <-> is_Some (f !! (path ++ [k])%list)).
  { unfold l. rewrite list_elem_of_omap. split.
    - intros (p & Hp & ->%child_of_Some). apply list_elem_of_fmap in Hp as ([p' g] & E & Hg%elem_of_map_to_list). cbn in E. subst p'. eauto.
    - intros [g Hg]. exists (path ++ [k])%list. split; [|by apply child_of_Some]. apply list_elem_of_fmap. exists ((path ++ [k])%list, g).
      split; [done|]. by apply elem_of_map_to_list. }
  case_bool_decide as Hs.
  - apply elem_of_list_to_map_1'; [by intros y (j & [= _ ->] & _)%list_elem_of_fmap|]. apply list_elem_of_fmap. exists k. split; [done|by apply Hl].
  - apply not_elem_of_list_to_map_1. rewrite <- list_fmap_compose. intros (j & -> & Hj)%list_elem_of_fmap. by apply Hs, Hl.
Qed.

Lemma read_files_lookup order path cs k : forall all,
  (forall v, read_files order path cs all !! k = Some v ->
     (exists i f, indexMap cs !! i = Some f /\ for_each path f !! k = Some v) \/ all !! k = Some v) /\
  ((exists i f, i ∈ order /\ indexMap cs !! i = Some f /\ is_Some (for_each path f !! k)) \/ is_Some (all !! k) ->
     is_Some (read_files order path cs all !! k)).
Proof.
  induction order as [|i order IH]; intros all; cbn [read_files].
  - split; [by right|]. intros [(i & f & []%not_elem_of_nil & _)|?]; done.
  - set (g := default ∅ (for_each path <$> indexMap cs !! i)). destruct (IH (g ∪ all)) as [IH1 IH2]. split.
    + intros v [?|Hv]%IH1; [by left|]. apply lookup_union_Some_raw in Hv as [Hv|[_ Hv]]; [left|by right].
      unfold g in Hv. destruct (indexMap cs !! i) as [f|] eqn:Ef; cbn in Hv; [by exists i, f|]. by rewrite lookup_empty in Hv.
    + intros Hor. apply IH2. destruct Hor as [(j & f & Hj & Hf & Hv)|Hv].
      * apply elem_of_cons in Hj as [->|Hj]; [right|left; by exists j, f]. apply lookup_union_is_Some. left. unfold g. by rewrite Hf.
      * right. apply lookup_union_is_Some. by right.
Qed.

Lemma ReadAllBs_files order path cs k : store_ok cs -> (forall i, 0 <= i < poolNum cs -> i ∈ order) ->
  (forall v, ReadAllBs order path cs !! k = Some v -> exists i f, files cs !! i = Some f /\ for_each path f !! k = Some v) /\
  (forall i f, files cs !! i = Some f -> is_Some (for_each path f !! k) -> is_Some (ReadAllBs order path cs !! k)).
Proof.
  intros Hok Hord. pose proof (sk_files cs Hok) as Hfiles. unfold ReadAllBs, files, in_range in *. destruct (0 <? poolNum cs).
  - destruct (read_files_lookup order path cs k ∅) as [R1 R2]. split.
    + intros v [?|Hv]%R1; [done|]. by rewrite lookup_empty in Hv.
    + intros i f Hi Hv. apply R2. left. exists i, f. split_and!; [|done|done]. apply Hord, Hfiles. eauto.
  - split; [intros v Hv; exists 0, (db cs); by rewrite lookup_singleton_eq|]. intros i f [_ ->]%lookup_singleton_Some. done.
Qed.

(** A bucket of some file has [k] nested in it. *)
Definition nested (st : contents) (path : list string) (k : string) : Prop := exists i, (i, path) ∈ c_buckets st /\ (i, path ++ [k])%list ∈ c_buckets st.

Lemma ReadAllBs_contents num order path cs st k : same_contents num cs st -> (forall i, 0 <= i < num -> i ∈ order) ->
  (~ nested st path k -> ReadAllBs order path cs !! k = c_keys st !! (path, k)) /\
  (nested st path k -> exists v, ReadAllBs order path cs !! k = Some v /\ (v = "" \/ c_keys st !! (path, k) = Some v)).
Proof.
  intros [Hok <- Hk Hb Hr] Hord. destruct (ReadAllBs_files order path cs k Hok Hord) as [R1 R2].
  assert (Hread : forall i f v, files cs !! i = Some f -> for_each path f !! k = Some v ->
    c_keys st !! (path, k) = Some v \/ v = "" /\ (i, path) ∈ c_buckets st /\ (i, path ++ [k])%list ∈ c_buckets st).
  { intros i f v Hi Hv. rewrite for_each_lookup in Hv. destruct (f !! path) as [b|] eqn:Eb; [|done].
    destruct (b !! k) as [v'|] eqn:Ev.
    - injection Hv as ->. left. assert (He : entry_in f path k = Some v) by (unfold entry_in; by rewrite Eb).
      rewrite <- Hk. unfold view. rewrite file_of_files, (sk_place cs Hok i f path k v Hi He), Hi. exact He.
    - case_bool_decide as Hs; [|done]. injection Hv as <-. right. split; [done|]. split; apply (Hb i f); [done|by eexists|done|done]. }
  assert (Hkey : is_Some (c_keys st !! (path, k)) -> is_Some (ReadAllBs order path cs !! k)).
  { rewrite <- Hk. intros [v Hv]. apply (R2 _ _ (own_file k cs Hok)). rewrite for_each_lookup. unfold view, entry_in in Hv.
    destruct (file_of k cs !! path) as [b|]; [|done]. cbn in Hv. rewrite Hv. eauto. }
  split.
  - intros Hn. destruct (ReadAllBs order path cs !! k) as [v|] eqn:E.
    + destruct (R1 v eq_refl) as (i & f & Hi & Hv). destruct (Hread i f v Hi Hv) as [->|(_ & H1 & H2)]; [done|]. destruct Hn. by exists i.
    + destruct (c_keys st !! (path, k)) as [v|] eqn:Ek; [|done]. destruct (Hkey ltac:(eauto)) as [? ?]. done.
  - intros (i & H1 & H2). destruct (Hr _ _ H1) as [f Hi]. apply (Hb i f path Hi) in H1 as [b Eb]. apply (Hb i f _ Hi) in H2.
    destruct (R2 i f Hi) as [v Hv].
    { rewrite for_each_lookup, Eb. destruct (b !! k); [eauto|]. rewrite bool_decide_true by done. eauto. }
    exists v. split; [done|]. destruct (R1 v Hv) as (j & g & Hj & Hg). destruct (Hread j g v Hj Hg) as [?|[? _]]; auto.
Qed.

Lemma GetBs_view key path cs v : GetBs key path cs = Ok v <-> view cs path key = Some v.
Proof.
  unfold GetBs, view, entry_in. destruct (file_of key cs !! path) as [b|]; cbn; [|by split]. destruct (b !! key); split; congruence.
Qed.

Lemma new_store_empty num i f : files (NewCubeStoreExt num) !! i = Some f -> f = ∅.
Proof.
  unfold files. destruct (_ <? _); cbn.
  - intros Hi. by apply elem_of_list_to_map_2, list_elem_of_fmap in Hi as (j & [= -> ->] & _).
  - by intros [_ <-]%lookup_singleton_Some.
Qed.

Lemma new_store_ok num : 0 <= num -> same_contents num (NewCubeStoreExt num) (MkContents ∅ ∅).
Proof.
  intros Hn. assert (Hentry : forall p k, entry_in ∅ p k = None) by (intros; unfold entry_in; by rewrite lookup_empty).
  assert (Hfiles : forall i, is_Some (files (NewCubeStoreExt num) !! i) <-> in_range num i).
  { intros i. unfold files, in_range. cbn [poolNum NewCubeStoreExt]. destruct (0 <? num); cbn [indexMap db NewCubeStoreExt].
    - split.
      + intros [f Hi]. apply elem_of_list_to_map_2, list_elem_of_fmap in Hi as (j & [= -> ->] & Hj%elem_of_seqZ). lia.
      + intros Hi. exists ∅. apply elem_of_list_to_map_1'.
        * intros y (j & [= -> ->] & _)%list_elem_of_fmap. done.
        * apply list_elem_of_fmap. exists i. split; [done|]. apply elem_of_seqZ. lia.
    - rewrite lookup_singleton_is_Some. naive_solver. }
  split; [split; [done|exact Hfiles| |]|done| | |]; cbn [c_keys c_buckets].
  - intros i f path k v Hi%new_store_empty. subst f. by rewrite Hentry.
  - intros i f Hi%new_store_empty p k. subst f. rewrite Hentry. by intros [? ?].
  - intros path key. rewrite lookup_empty. unfold view. rewrite file_of_files.
    destruct (files _ !! _) as [f|] eqn:E; cbn [from_option id]; [rewrite (new_store_empty _ _ _ E)|]; apply Hentry.
  - intros i f p Hi%new_store_empty. subst f. rewrite lookup_empty. split; [by intros [? ?]|]. intros Hin. by apply elem_of_empty in Hin.
  - intros i p Hin. by apply elem_of_empty in Hin.
Qed.

(** *** Stores without nested buckets, as the plugins use them *)

Record flat_ok (cs : CubeStore) : Prop := {
  fl_ok : store_ok cs;
  fl_flat : forall i f p, files cs !! i = Some f -> is_Some (f !! p) -> length p = 1%nat;
}.

Lemma flat_nested cs key bkt : flat_ok cs -> file_of key cs !! [bkt; key] = None.
Proof.
  intros [Hok Hf]. apply eq_None_not_Some. intros Hs. specialize (Hf _ _ _ (own_file key cs Hok) Hs). done.
Qed.

Lemma flat_unblocked cs key bkt : flat_ok cs -> blocked_in (file_of key cs) [] [bkt] = false.
Proof.
  intros [Hok Hf]. cbn. rewrite bool_decide_false; [done|]. intros [v Hv]. unfold entry_in in Hv.
  destruct (file_of key cs !! []) as [b|] eqn:E; [|done]. specialize (Hf _ _ [] (own_file key cs Hok) ltac:(by rewrite E)). done.
Qed.

Lemma flat_with_file key f cs path new : flat_ok cs -> apart f ->
  (forall p k, entry_in f p k = if bool_decide (p = path /\ k = key) then new else entry_in (file_of key cs) p k) ->
  (forall p, is_Some (f !! p) -> is_Some (file_of key cs !! p) \/ length p = 1%nat) ->
  flat_ok (with_file key f cs) /\ (forall p k, view (with_file key f cs) p k = if bool_decide (p = path /\ k = key) then new else view cs p k).
Proof.
  intros [Hok Hf] Hap He Hd. destruct (with_file_spec key f cs path new Hok Hap He) as [H1 H2]. split; [|done]. split; [done|].
  intros i g p. rewrite files_with_file. intros [[<- <-]|[_ Hi]]%lookup_insert_Some Hp; [|by eapply Hf].
  destruct (Hd p Hp) as [?|?]; [|done]. by eapply Hf; [apply own_file|].
Qed.

Lemma Set_flat io bkt key value cs : flat_ok cs ->
  match io with
  | Some e => Set_ io bkt key value cs = (Some e, cs)
  | None => exists cs', Set_ None bkt key value cs = (None, cs') /\ flat_ok cs' /\ poolNum cs' = poolNum cs /\
      forall p k, view cs' p k = if bool_decide (p = [bkt] /\ k = key) then Some value else view cs p k
  end.
Proof.
  intros Hfl. destruct io as [e|]; [done|]. unfold Set_, SetWithTx, SetBs.
  pose proof (put_key_spec key value [bkt] (file_of key cs) (sk_apart cs (fl_ok cs Hfl) _ _ (own_file key cs (fl_ok cs Hfl)))) as Hp.
  rewrite (flat_unblocked cs key bkt Hfl) in Hp. change ([bkt] ++ [key])%list with [bkt; key] in Hp. rewrite (flat_nested cs key bkt Hfl) in Hp.
  rewrite bool_decide_false in Hp by (by intros [? ?]). cbn [orb] in Hp. destruct Hp as (f & -> & F1 & F2 & F3).
  exists (with_file key f cs). destruct (flat_with_file key f cs [bkt] (Some value) Hfl F1 F2) as [H1 H2].
  { intros p Hor. apply F3 in Hor as [?|Hp]; [by left|right]. cbn in Hp. rewrite !elem_of_cons in Hp. by destruct Hp as [->|[->|Hp%not_elem_of_nil]]. }
  split_and!; [done|done|apply with_file_num|done].
Qed.

Lemma Delete_flat bkt key cs : flat_ok cs -> exists e cs', Delete None bkt key cs = (e, cs') /\
  (e = None \/ e = Some ErrorBucketNotFound) /\ (is_Some (view cs [bkt] key) -> e = None) /\ flat_ok cs' /\ poolNum cs' = poolNum cs /\
  forall p k, view cs' p k = if bool_decide (p = [bkt] /\ k = key) then None else view cs p k.
Proof.
  intros Hfl. unfold Delete, DeleteWithTx, DeleteBs.
  pose proof (delete_key_spec key [bkt] (file_of key cs) (sk_apart cs (fl_ok cs Hfl) _ _ (own_file key cs (fl_ok cs Hfl)))) as Hp.
  destruct (file_of key cs !! [bkt]) as [b|] eqn:Eb.
  - change ([bkt] ++ [key])%list with [bkt; key] in Hp. rewrite (flat_nested cs key bkt Hfl) in Hp.
    rewrite bool_decide_false in Hp by (by intros [? ?]). destruct Hp as (f & -> & F1 & F2 & F3).
    exists None, (with_file key f cs). destruct (flat_with_file key f cs [bkt] None Hfl F1 F2) as [H1 H2]; [intros p Hp; left; by apply F3|].
    split_and!; [done|by left|done|done|apply with_file_num|done].
  - rewrite Hp. eexists _, cs. split_and!; [done|by right| |done|done|].
    + unfold view, entry_in. rewrite Eb. by intros [? ?].
    + intros p k. case_bool_decide as E; [|done]. destruct E as [-> ->]. unfold view, entry_in. by rewrite Eb.
Qed.

(** Whatever the transaction's error. *)
Lemma Set_keeps_flat io bkt key value cs : flat_ok cs -> flat_ok (Set_ io bkt key value cs).2.
Proof.
  intros Hfl. pose proof (Set_flat io bkt key value cs Hfl) as H. destruct io as [e|]; [by rewrite H|]. by destruct H as (cs' & -> & ? & _).
Qed.
Lemma Delete_keeps_flat io bkt key cs : flat_ok cs -> flat_ok (Delete io bkt key cs).2.
Proof.
  intros Hfl. destruct io as [e|].
  - unfold Delete, DeleteWithTx, DeleteBs. by destruct (delete_key _ _ _).
  - by destruct (Delete_flat bkt key cs Hfl) as (e & cs' & -> & _ & _ & ? & _).
Qed.

Lemma ReadAll_flat order bkt k cs : flat_ok cs -> (forall i, 0 <= i < poolNum cs -> i ∈ order) -> ReadAll order bkt cs !! k = view cs [bkt] k.
Proof.
  intros [Hok Hf] Hord. unfold ReadAll. destruct (ReadAllBs_files order [bkt] cs k Hok Hord) as [R1 R2].
  assert (Hread : forall i f v, files cs !! i = Some f -> for_each [bkt] f !! k = Some v -> view cs [bkt] k = Some v).
  { intros i f v Hi. rewrite for_each_lookup. destruct (f !! [bkt]) as [b|] eqn:Eb; [|done]. destruct (b !! k) as [v'|] eqn:Ev.
    - intros [= ->]. assert (He : entry_in f [bkt] k = Some v) by (unfold entry_in; by rewrite Eb).
      unfold view. by rewrite file_of_files, (sk_place cs Hok i f [bkt] k v Hi He), Hi.
    - rewrite bool_decide_false; [done|]. intros Hs. specialize (Hf i f _ Hi Hs). done. }
  destruct (ReadAllBs order [bkt] cs !! k) as [v|] eqn:E.
  - destruct (R1 v eq_refl) as (i & f & Hi & Hv). symmetry. by eapply Hread.
  - destruct (view cs [bkt] k) as [v|] eqn:Ev; [|done].
    destruct (R2 _ _ (own_file k cs Hok)) as [? ?]; [|done]. rewrite for_each_lookup. unfold view, entry_in in Ev.
    destruct (file_of k cs !! [bkt]) as [b|]; [|done]. cbn in Ev. rewrite Ev. eauto.
Qed.

Lemma new_store_flat num : 0 <= num -> flat_ok (NewCubeStoreExt num) /\ (forall p k, view (NewCubeStoreExt num) p k = None).
Proof.
  intros Hn. destruct (new_store_ok num Hn) as [Hok _ Hk _ _]. split; [split; [done|]|intros; rewrite Hk; apply lookup_empty].
  intros i f p Hi%new_store_empty. subst f. rewrite lookup_empty. by intros [? ?].
Qed.

(** The answers of a history, of the store and of the specification. *)
Fixpoint store_answers (cs : CubeStore) (ops : list store_op) : list (option string) :=
  match ops with [] => [] | o :: ops => (op_store cs o).1 :: store_answers (run_store cs o) ops end.
Fixpoint spec_answers (num : Z) (st : contents) (ops : list store_op) : list (option string) :=
  match ops with [] => [] | o :: ops => (spec_store num st o).1 :: spec_answers num (spec_store num st o).2 ops end.

(** C29: the store of the Cubelet is a map with nested buckets.  After any sequence of
    writes and deletions on one file or on any number of them, failing transactions
    included: every operation has answered as the specification does (the error of the
    transaction, a missing bucket, or a key and a bucket of one name in one file); a key of
    a bucket has the value that the operations give a plain map; and reading a whole bucket
    returns exactly the keys of the map and the names of the buckets nested in it, whatever
    the order in which the files are read.  The value of such a name is empty, or, when
    another file has a key of that name in the bucket, possibly that key's value. *)
Theorem store_refines_map (num : Z) (ops : list store_op) (order : list Z) :
  0 <= num -> (forall i, 0 <= i < num -> i ∈ order) ->
  let cs := foldl run_store (NewCubeStoreExt num) ops in
  let st := foldl (fun st o => (spec_store num st o).2) (MkContents ∅ ∅) ops in
  store_answers (NewCubeStoreExt num) ops = spec_answers num (MkContents ∅ ∅) ops /\
  forall path key,
    (forall v, GetBs key path cs = Ok v <-> c_keys st !! (path, key) = Some v) /\
    (~ nested st path key -> ReadAllBs order path cs !! key = c_keys st !! (path, key)) /\
    (nested st path key -> exists v, ReadAllBs order path cs !! key = Some v /\ (v = "" \/ c_keys st !! (path, key) = Some v)).
Proof.
  intros Hn Hord cs st.
  assert (Hrun : forall cs st, same_contents num cs st -> store_answers cs ops = spec_answers num st ops /\
    same_contents num (foldl run_store cs ops) (foldl (fun st o => (spec_store num st o).2) st ops)).
  { clear. induction ops as [|o ops IH]; intros cs st H; cbn [foldl store_answers spec_answers]; [done|].
    destruct (op_store_refines num cs st o H) as [-> Hs]. destruct (IH _ _ Hs) as [-> ?]. done. }
  destruct (Hrun _ _ (new_store_ok num Hn)) as [Ha Hs]. fold cs st in Hs. split; [done|]. intros path key. split.
  - intros v. rewrite <- (sc_keys num _ _ Hs). apply GetBs_view.
  - by apply (ReadAllBs_contents num).
Qed.

(** ** A concrete store *)

(** The last write meets a bucket of its name if both are in one file. *)
Definition demo_store_ops : list store_op :=
  [SPut None ["code"; "123456"] "a" "0"; SPut None ["code"] "sb-2" "1"; SPut (Some "disk full") ["code"] "sb-3" "2";
   SDel None ["code"; "123456"] "a"; SPut None ["code"] "123456" "9"].

Lemma store_refines_map_witness :
  GetBs "sb-2" ["code"] (foldl run_store (NewCubeStoreExt 0) demo_store_ops) = Ok "1" /\
  store_answers (NewCubeStoreExt 0) demo_store_ops = [None; None; Some "disk full"; None; Some ErrIncompatibleValue] /\
  ReadAllBs [] ["code"] (foldl run_store (NewCubeStoreExt 0) demo_store_ops) !! "sb-3" = None /\
  ReadAllBs [] ["code"] (foldl run_store (NewCubeStoreExt 0) demo_store_ops) !! "123456" = Some "".
Proof.
  destruct (store_refines_map 0 demo_store_ops [] ltac:(lia) ltac:(intros i Hi; lia)) as [Ha H]. rewrite Ha.
  split; [|split; [by vm_compute|split]].
  - apply (H ["code"] "sb-2"). by vm_compute.
  - destruct (H ["code"] "sb-3") as (_ & Hr & _). rewrite Hr; [by vm_compute|]. intros (i & _ & Hi).
    assert (Hf : set_Forall (fun x : Z * list string => x.2 <> ["code"; "sb-3"])
      (c_buckets (foldl (fun st o => (spec_store 0 st o).2) (MkContents ∅ ∅) demo_store_ops))) by (apply (bool_decide_unpack _); by vm_compute).
    exact (Hf _ Hi eq_refl).
  - destruct (H ["code"] "123456") as (_ & _ & Hr). destruct Hr as (v & -> & Hv).
    + exists 0. split; apply (bool_decide_unpack _); by vm_compute.
    + destruct Hv as [->|Hv]; [done|]. by vm_compute in Hv.
Defined.
