(* ===== verification/CletCgroup.v ===== *)
(** * The control groups of sandboxes
    (Cubelet/plugins/cube/internals/cgroup: pool.go, pool_v1.go, pool_v2.go,
    cgroup.go, local.go)

    Every sandbox runs in a control group taken from a pool.  A group is known by a
    number: those of the first pool are 16-bit, those of the second also carry a
    NUMA node.  The plugin records the number of each sandbox in a [CubeStore] and
    rebuilds the pool from it when the Cubelet starts.

    The kernel's control groups are a set of paths; operations on them that can fail
    take the error as an argument.  NUMA nodes are numbered from 0 without gaps. *)
From S2P Require Import Prelude GoStrings CletAlloc CletStore.

Open Scope string_scope.
Open Scope Z_scope.

(** ** Numbers of groups *)

Definition CgPoolIdLimit : Z := 65536.
Definition CgPoolV1IdLimit : Z := CgPoolIdLimit.
Definition MaxInt16 : Z := 32767.
Definition wrap32 (z : Z) : Z := z `mod` 2 ^ 32.

Definition DefaultPathPoolV1 : string := "/cube_sandbox/sandbox".
Definition DefaultPathPoolV2 : string := "/cube_sandbox_v2/sandbox".

Definition IsPoolV2ID (fullCgID : Z) : bool := CgPoolV1IdLimit <=? fullCgID.

Definition MakeFullCgID (id : Z) (usePoolV2 : bool) (numa : Z) : Z :=
  if usePoolV2 then wrap32 (wrap32 (numa + 1) * CgPoolIdLimit + id) else id.

Definition CgroupID2NumaID (fullCgID : Z) : res Z :=
  if fullCgID <? CgPoolV1IdLimit then Err "fullCgID is not in pool v2 range" else Ok (fullCgID `div` CgPoolIdLimit - 1).

Definition MakeCgroupPoolV1PathByString (group : string) : string := DefaultPathPoolV1 +:+ "/" +:+ group.
Definition MakeCgroupPoolV2PathByString (group : string) : string := DefaultPathPoolV2 +:+ "/" +:+ group.
Definition MakeCgroupPathByID (id : Z) : string :=
  if id <? CgPoolV1IdLimit then MakeCgroupPoolV1PathByString (pretty id)
  else MakeCgroupPoolV2PathByString ("numa" +:+ pretty (id `div` CgPoolIdLimit - 1) +:+ "/" +:+ pretty (id `mod` CgPoolIdLimit)).

(** ** The pools *)

Record cgPool : Type := MkPool {
  dirtySet : gset Z; poolV1 : id_alloc; numaPools : list id_alloc; individualGroups : gset string; groups : gset string;
}.

Definition with_v1 a p := MkPool (dirtySet p) a (numaPools p) (individualGroups p) (groups p).
Definition with_v2 n a p := MkPool (dirtySet p) (poolV1 p) (<[n := a]> (numaPools p)) (individualGroups p) (groups p).
Definition with_dirty d p := MkPool d (poolV1 p) (numaPools p) (individualGroups p) (groups p).
Definition with_groups g p := MkPool (dirtySet p) (poolV1 p) (numaPools p) (individualGroups p) g.

Definition addIndividualCgroup (gs : list string) (p : cgPool) : cgPool :=
  MkPool (dirtySet p) (poolV1 p) (numaPools p) (individualGroups p ∪ list_to_set gs) (groups p).

(** An identifier found in use is put into the range and reserved; an error of the
    reservation is only reported. *)
Definition reserve (id : Z) (a : id_alloc) : id_alloc :=
  let r := if Contains (ranger a) id then ranger a else ExpandTo id (ranger a) in
  (assign id (MkAlloc r (store a))).2.

Definition v1_initialAssign (inuse : Z) (p : cgPool) : cgPool :=
  if MaxInt16 <? inuse then p else with_v1 (reserve (wrap16 inuse) (poolV1 p)) p.

Definition v2_initialAssign (fullCgID : Z) (p : cgPool) : cgPool :=
  match CgroupID2NumaID fullCgID with
  | Err _ => p
  | Ok numa =>
      match numaPools p !! Z.to_nat numa with
      | None => p
      | Some a => with_v2 (Z.to_nat numa) (reserve (fullCgID `mod` CgPoolIdLimit) a) p
      end
  end.

(** One record of the store, as text. *)
Definition initial_assign (p : cgPool) (text : string) : cgPool :=
  match Atoi text with
  | None => p
  | Some n => if n <? CgPoolV1IdLimit then v1_initialAssign (wrap32 n) p else v2_initialAssign (wrap32 n) p
  end.

Definition createCgroup (io : option string) (fullCgID : Z) (p : cgPool) : option string * cgPool :=
  let group := MakeCgroupPathByID fullCgID in
  if bool_decide (group ∈ groups p) then (None, p)
  else match io with
       | Some e => (Some ("create cgroup " +:+ group +:+ " error: " +:+ e), p)
       | None => (None, with_groups (groups p ∪ {[group]}) p)
       end.

Definition new_range (initialSize : Z) : id_alloc := NewAllocator (MkRanger 0 (wrap16 initialSize) (-1) 0).

(** [initPoolV1Late] and [initPoolV2Late]: the groups of the range are made; errors
    are logged. *)
Definition create_all (fails : Z -> option string) (ids : list Z) (p : cgPool) : cgPool :=
  foldl (fun p id => (createCgroup (fails id) id p).2) p ids.

(** [cgPool.init]: [records] are the values of the store, in any order. *)
Definition pool_init (initialSize : Z) (numa : nat) (records : list string) (groups : gset string) (fails : Z -> option string) : cgPool :=
  let p := MkPool ∅ (new_range initialSize) (replicate numa (new_range initialSize)) ∅ groups in
  let p := foldl initial_assign p records in
  let p := create_all fails (seqZ 0 (Cap (ranger (poolV1 p)))) p in
  foldl (fun p '(n, a) => create_all fails ((fun i => MakeFullCgID i true (Z.of_nat n)) <$> seqZ 0 (wrap16 (Cap (ranger a)))) p) p
    (imap pair (numaPools p)).

(** The callback of an exhausted pool. *)
Definition expand_by_one (r : SimpleLinearRanger) : option string * SimpleLinearRanger :=
  match Expand r with
  | (Err e, r) => (Some e, r)
  | (Ok _, r) => (None, r)
  end.

Definition v1_Get (p : cgPool) : res Z * cgPool :=
  match Allocate (Some expand_by_one) (poolV1 p) with
  | (Ok id, a) => (Ok id, with_v1 a p)
  | (Err e, a) => (Err ("cgPoolV1 failed to allocate cg: " +:+ e), with_v1 a p)
  end.

Definition v2_Get (numaNode : Z) (p : cgPool) : res Z * cgPool :=
  match (if numaNode <? 0 then None else numaPools p !! Z.to_nat numaNode) with
  | None => (Err ("invalid numa node: " +:+ pretty numaNode), p)
  | Some a =>
      match Allocate (Some expand_by_one) a with
      | (Ok id, a) => (Ok id, with_v2 (Z.to_nat numaNode) a p)
      | (Err e, a) => (Err ("cgPoolV2 failed to allocate cg: " +:+ e), with_v2 (Z.to_nat numaNode) a p)
      end
  end.

Definition allocatorReleaseCgroup (fullCgID : Z) (p : cgPool) : cgPool :=
  if IsPoolV2ID fullCgID then
    match CgroupID2NumaID fullCgID with
    | Err _ => p
    | Ok numa =>
        match numaPools p !! Z.to_nat numa with
        | None => p
        | Some a => with_v2 (Z.to_nat numa) (Release (fullCgID `mod` CgPoolIdLimit) a) p
        end
    end
  else with_v1 (Release (wrap16 fullCgID) (poolV1 p)) p.

Definition pool_Get (io : option string) (usePoolV2 : bool) (numaNode : Z) (p : cgPool) : res Z * cgPool :=
  match (if usePoolV2 then v2_Get numaNode p else v1_Get p) with
  | (Err e, p) => (Err ("failed to allocate cgroup: " +:+ e), p)
  | (Ok cg, p) =>
      let fullCgID := MakeFullCgID cg usePoolV2 numaNode in
      match createCgroup io fullCgID p with
      | (Some e, p) => (Err ("failed to create cgroup in slow path: " +:+ e), allocatorReleaseCgroup fullCgID p)
      | (None, p) => (Ok fullCgID, p)
      end
  end.

(** [Put]; [clean] is the error of [CleanForReuse], which makes the group when it is
    missing. *)
Definition pool_Put (clean : option string) (fullCgID : Z) (p : cgPool) : cgPool :=
  match clean with
  | None =>
      let p := with_groups (groups p ∪ {[MakeCgroupPathByID fullCgID]}) p in
      let p := allocatorReleaseCgroup fullCgID p in
      with_dirty (dirtySet p ∖ {[fullCgID]}) p
  | Some _ => with_dirty (dirtySet p ∪ {[fullCgID]}) p
  end.

(** ** Tidying *)

(** The loop over the listed directories: dirty groups are cleaned again, unknown
    ones are collected. [known] tells the range, [full] the number of a group. *)
Fixpoint tidy_loop (clean : Z -> option string) (dirtyWork : gset Z) (limit : Z) (full : Z -> Z) (path : string -> string)
    (known : cgPool -> Z -> bool) (all : list string) (toDelete : list string) (p : cgPool) : list string * cgPool :=
  match all with
  | [] => (toDelete, p)
  | cg :: all =>
      let go := tidy_loop clean dirtyWork limit full path known all in
      if bool_decide (cg ∈ individualGroups p) then go toDelete p
      else match Atoi cg with
           | Some id =>
               if limit <=? id then go (toDelete ++ [path cg])%list p
               else if bool_decide (full id ∈ dirtyWork) then go toDelete (pool_Put (clean (full id)) (full id) p)
               else if known p (wrap16 id) then go toDelete p
               else go (toDelete ++ [path cg])%list p
           | None => go (toDelete ++ [path cg])%list p
           end
  end.

(** [Delete] of the collected groups; [fails] tells which ones stay. *)
Definition delete_groups (fails : string -> bool) (paths : list string) (p : cgPool) : cgPool :=
  with_groups (filter (fun g => ~ (g ∈ paths /\ fails g = false)) (groups p)) p.

(** The first pool has no limit on the numbers of directories. *)
Definition tidyPoolV1 (clean : Z -> option string) (fails : string -> bool) (listing : res (list string)) (dirtyWork : gset Z) (p : cgPool) : cgPool :=
  match listing with
  | Err _ => p
  | Ok all =>
      let '(del, p) := tidy_loop clean dirtyWork (2 ^ 63) wrap32 MakeCgroupPoolV1PathByString
        (fun p id => Contains (ranger (poolV1 p)) id) all [] p in
      delete_groups fails del p
  end.

Definition tidy_numa (clean : Z -> option string) (fails : string -> bool) (dirtyWork : gset Z) (n : nat) (all : list string) (p : cgPool) : cgPool :=
  let '(del, p) := tidy_loop clean dirtyWork CgPoolIdLimit (fun id => MakeFullCgID (wrap16 id) true (Z.of_nat n))
    (fun cg => MakeCgroupPoolV2PathByString ("numa" +:+ pretty (Z.of_nat n) +:+ "/" +:+ cg))
    (fun p id => match numaPools p !! n with Some a => Contains (ranger a) id | None => false end) all [] p in
  delete_groups fails del p.

(** The loop over the NUMA nodes stops at a listing that fails. *)
Fixpoint tidyPoolV2 (clean : Z -> option string) (fails : string -> bool) (dirtyWork : gset Z) (n : nat) (listings : list (res (list string)))
    (p : cgPool) : cgPool :=
  match listings with
  | [] => p
  | Err _ :: _ => p
  | Ok all :: listings => tidyPoolV2 clean fails dirtyWork (S n) listings (tidy_numa clean fails dirtyWork n all p)
  end.

Definition Tidy (clean : Z -> option string) (fails : string -> bool) (l1 : res (list string)) (l2 : list (res (list string))) (p : cgPool) : cgPool :=
  let dirtyWork := dirtySet p in
  tidyPoolV2 clean fails dirtyWork 0 (take (length (numaPools p)) l2) (tidyPoolV1 clean fails l1 dirtyWork p).

(** ** The plugin *)

Definition cg_bucket : string := "sandbox".

Record CgPlugin : Type := MkPlugin { pool : cgPool; cg_db : CubeStore }.

(** [Create]: [quantity] is what the sizes of the request come to, or the error;
    [snapshot] is a request for a snapshot, which must be new.  A group that was
    taken goes back when the request fails. *)
Definition cg_Create (io clean save : option string) (quantity : option string) (snapshot : bool) (sandboxID : string) (l : CgPlugin) :
    res string * CgPlugin :=
  let exists_ := match Get cg_bucket sandboxID (cg_db l) with Ok s => negb (bool_decide (s = "")) | Err _ => false end in
  if snapshot && exists_ then (Err "already exists", l)
  else
    match quantity with
    | Some e => (Err e, l)
    | None =>
        match pool_Get io false 0 (pool l) with
        | (Err e, p) => (Err e, MkPlugin p (cg_db l))
        | (Ok fullCgID, p) =>
            match Set_ save cg_bucket sandboxID (pretty fullCgID) (cg_db l) with
            | (Some e, d) => (Err ("failed save to db: " +:+ e), MkPlugin (pool_Put clean fullCgID p) d)
            | (None, d) => (Ok (MakeCgroupPathByID fullCgID), MkPlugin p d)
            end
        end
    end.

Definition cg_Destroy (clean io : option string) (sandboxID : string) (l : CgPlugin) : option string * CgPlugin :=
  match Get cg_bucket sandboxID (cg_db l) with
  | Err _ => (None, l)
  | Ok text =>
      match Atoi text with
      | None => (Some ("invalid cgroup id " +:+ text), l)
      | Some n =>
          let p := pool_Put clean (wrap32 n) (pool l) in
          match Delete io cg_bucket sandboxID (cg_db l) with
          | (Some e, d) =>
              (if bool_decide (e = ErrorBucketNotFound) then None else Some ("failed delete from db: " +:+ e), MkPlugin p d)
          | (None, d) => (None, MkPlugin p d)
          end
      end
  end.

(** The Cubelet starts again: the pool is rebuilt from the records. *)
Definition cg_init (initialSize : Z) (numa : nat) (order : list Z) (fails : Z -> option string) (gs : gset string) (d : CubeStore) : CgPlugin :=
  MkPlugin (pool_init initialSize numa ((map_to_list (ReadAll order cg_bucket d)).*2) gs fails) d.

(** ** Sizes of virtual machines *)

Definition pageTableCoeff : Z := 64.
Definition getMbSize (bytes : Z) : Z := (bytes ÷ 1024) ÷ 1024.

Record VmSnapshotSpec : Type := MkSpec { vs_CPU : Z; vs_Memory : Z; vs_Product : string; vs_Preserved : Z }.
Record CubeVMMResource : Type := MkVMM { r_CPU : Z; r_Memory : Z; SnapMemory : Z; PreservedMemory : Z; SnapPreservedMemory : Z }.
(** The values of the quantities of a request, in bytes and processors. *)
Record ResourceWithOverHead : Type := MkReq { MemReq : Z; VmCpuQ : Z; VmMemQ : Z; PmemPageQ : Z; HostMemQ : Z }.

Definition preserved (memReq pmemPage : Z) (snap : VmSnapshotSpec) : Z :=
  wrap64 (vs_Memory snap - vs_Memory snap ÷ pageTableCoeff - memReq - pmemPage).

Fixpoint first_fit (vmCPU vmMem memReq pmemPage : Z) (snaps : list VmSnapshotSpec) : option CubeVMMResource :=
  match snaps with
  | [] => None
  | snap :: snaps =>
      let pr := preserved memReq pmemPage snap in
      if (vmCPU =? vs_CPU snap) && (0 <=? pr)
      then Some (MkVMM (vs_CPU snap) vmMem (vs_Memory snap) pr (vs_Preserved snap))
      else first_fit vmCPU vmMem memReq pmemPage snaps
  end.

(** [HostMemoryBase] is added to the memory of the virtual machine. *)
Definition MatchVMSnapshotSpec (hostMemoryBase : Z) (req : ResourceWithOverHead) (snaps : list VmSnapshotSpec) (instanceType : string) :
    CubeVMMResource * ResourceWithOverHead :=
  if instanceType =s "cubebox"
  then (MkVMM (VmCpuQ req) (getMbSize (VmMemQ req)) (getMbSize (VmMemQ req)) 0 0, req)
  else
    let vm :=
      match first_fit (VmCpuQ req) (getMbSize (VmMemQ req)) (getMbSize (MemReq req)) (getMbSize (PmemPageQ req)) snaps with
      | Some vm => vm
      | None => MkVMM (VmCpuQ req) (getMbSize (VmMemQ req)) 0 0 0
      end in
    let memoryForHost := if 0 <? SnapMemory vm then SnapMemory vm else r_Memory vm in
    (vm, MkReq (MemReq req) (VmCpuQ req) (VmMemQ req) (PmemPageQ req) (wrap64 (memoryForHost * 1024 * 1024) + hostMemoryBase)).

(** ** Facts about the pools *)

Definition v1_ok (a : id_alloc) : Prop := alloc_ok a /\ lower (ranger a) = 0.

Lemma v1_ids a id : v1_ok a -> id ∈ store a -> 0 <= id < CgPoolIdLimit /\ Contains (ranger a) id = true.
Proof.
  intros [[Hr Hs] Hl] Hid. specialize (Hs id Hid). destruct Hr as [Hb _]. unfold CgPoolIdLimit, MaxUint16 in *. split; [lia|].
  cbn. unfold ranger_Contains. destruct (Z.leb_spec (lower (ranger a)) id), (Z.leb_spec id (upper (ranger a))); cbn; lia.
Qed.

Lemma Release_ok a id : v1_ok a -> v1_ok (Release id a).
Proof. intros [[Hr Hs] Hl]. split; [split; cbn; [done|]|done]. intros x Hx. apply Hs. set_solver. Qed.

Lemma expand_ok a e r : v1_ok a -> expand_by_one (ranger a) = (e, r) -> v1_ok (MkAlloc r (store a)).
Proof.
  intros [[[Hb Hc] Hs] Hl] E. unfold expand_by_one in E. cbn [Expand simple_range] in E. unfold ranger_Expand in E.
  destruct (Z.eqb_spec (upper (ranger a)) MaxUint16) as [Hu|Hu]; injection E as <- <-; [by split; [split; [split|]|]|].
  assert (wrap16 (upper (ranger a) + 1) = upper (ranger a) + 1) as -> by (apply wrap16_id; lia).
  split; [|done]. split; cbn; [split; cbn; lia|]. intros x Hx. specialize (Hs x Hx). lia.
Qed.

(** What an allocation that may widen the range does. *)
Lemma Allocate_v1 a : v1_ok a ->
  let '(r, a') := Allocate (Some expand_by_one) a in
  v1_ok a' /\ match r with
  | Ok id => 0 <= id < CgPoolIdLimit /\ id ∉ store a /\ store a' = store a ∪ {[id]}
  | Err _ => store a' = store a
  end.
Proof.
  assert (forall a, v1_ok a -> let '(r, a') := allocate a in v1_ok a' /\ match r with
    | Ok id => 0 <= id < CgPoolIdLimit /\ id ∉ store a /\ store a' = store a ∪ {[id]} | Err _ => store a' = store a end) as Hone.
  { clear a. intros a [[Hr Hs] Hl]. pose proof (allocate_spec a Hr) as H. destruct (allocate a) as [r a']. destruct H as (Hr' & [E1 E2] & H).
    pose proof (rk_bounds _ Hr) as Hb. destruct r as [id|e].
    - destruct H as (Hc & Hf & Hst). cbn in Hc. unfold ranger_Contains in Hc. go_bool. unfold CgPoolIdLimit, MaxUint16 in *.
      split; [split; [split; [done|]|by rewrite E1]|split_and!; [lia|lia|done|done]].
      intros x. rewrite Hst, E1, E2. intros [Hx| ->%elem_of_singleton]%elem_of_union; [by apply Hs|lia].
    - destruct H as (_ & Hst & _). split; [|done]. split; [split; [done|]|by rewrite E1]. intros x. rewrite Hst, E1, E2. apply Hs. }
  intros Ha. unfold Allocate. pose proof (Hone a Ha) as H. destruct (allocate a) as [[id|e] a1]; [done|]. destruct H as [Ha1 Est].
  destruct (bool_decide _); [|done]. destruct (expand_by_one (ranger a1)) as [[e'|] r] eqn:Ee.
  - split; [by eapply expand_ok|]. done.
  - pose proof (Hone _ (expand_ok a1 None r Ha1 Ee)) as H. destruct (allocate _) as [[id|e'] a2]; cbn [store] in H; by rewrite Est in H.
Qed.

Lemma reserve_ok a id : v1_ok a -> 0 <= id < CgPoolIdLimit -> v1_ok (reserve id a) /\ store (reserve id a) = store a ∪ {[id]}.
Proof.
  intros [[[Hb Hc] Hs] Hl] Hid. unfold reserve. set (r := if Contains (ranger a) id then ranger a else ExpandTo id (ranger a)).
  assert (lower r = 0 /\ cur r = cur (ranger a) /\ upper (ranger a) <= upper r <= MaxUint16 /\ id <= upper r) as (El & Ec & Hu & Hi).
  { unfold r, ExpandTo. cbn [Contains simple_range]. unfold ranger_Contains, CgPoolIdLimit, MaxUint16 in *.
    destruct (Z.leb_spec (lower (ranger a)) id), (Z.leb_spec id (upper (ranger a))), (Z.ltb_spec (upper (ranger a)) id); cbn; lia. }
  assert (v1_ok (MkAlloc r (store a))) as Hv.
  { split; [|done]. split; cbn; [split; rewrite ?El, ?Ec; lia|]. intros x Hx. specialize (Hs x Hx). lia. }
  pose proof (assign_spec id (MkAlloc r (store a))) as Ha. destruct (assign id _) as [[e|] a']; cbn [ranger store snd] in *.
  - destruct Ha as [-> Hin]. split; [done|]. cbn. assert (id ∈ store a); [|set_solver]. apply Hin. cbn. unfold ranger_Contains.
    destruct (Z.leb_spec (lower r) id), (Z.leb_spec id (upper r)); cbn; lia.
  - destruct Ha as (_ & _ & ->). split; [|done]. split; [|done]. split; cbn; [apply Hv|].
    intros x [Hx| ->%elem_of_singleton]%elem_of_union; [by apply (ao_store _ (proj1 Hv))|lia].
Qed.

(** The pool serves the sandboxes with the numbers [recd]. *)
Record pool_ok (recd : gset Z) (p : cgPool) : Prop := {
  po_v1 : v1_ok (poolV1 p);
  po_recd : forall id, id ∈ recd -> id ∈ store (poolV1 p) /\ id ∉ dirtySet p /\ MakeCgroupPathByID id ∈ groups p;
  po_dirty : forall id, id ∈ dirtySet p -> id ∈ store (poolV1 p);
  po_numa : Z.of_nat (length (numaPools p)) < MaxUint16;
}.

Lemma pool_ok_mono recd recd' p : recd' ⊆ recd -> pool_ok recd p -> pool_ok recd' p.
Proof. intros Hs [H1 H2 H3 H4]. split; [done|intros id Hid; apply H2; set_solver|done|done]. Qed.

Lemma v1_not_v2 id : 0 <= id < CgPoolIdLimit -> IsPoolV2ID id = false /\ wrap16 id = id.
Proof. unfold CgPoolIdLimit. intros H. split; [unfold IsPoolV2ID, CgPoolV1IdLimit, CgPoolIdLimit; lia|]. apply wrap16_id. unfold MaxUint16. lia. Qed.

(** A group that no sandbox uses is given back, or marked when it cannot be cleaned. *)
Lemma put_ok recd p clean id : pool_ok recd p -> id ∈ store (poolV1 p) -> id ∉ recd -> pool_ok recd (pool_Put clean id p).
Proof.
  intros [Hv Hr Hd Hn] Hst Hnr. destruct (v1_ids _ _ Hv Hst) as [Hrange _]. destruct (v1_not_v2 id Hrange) as [E2 E16].
  unfold pool_Put. destruct clean as [e|].
  - split; cbn; [done| | |done].
    + intros x Hx. destruct (Hr x Hx) as (H1 & H2 & H3). split_and!; [done|set_solver|done].
    + intros x [Hx| ->%elem_of_singleton]%elem_of_union; [by apply Hd|done].
  - unfold allocatorReleaseCgroup. rewrite E2, E16. split; cbn; [by apply Release_ok| | |done].
    + intros x Hx. destruct (Hr x Hx) as (H1 & H2 & H3). split_and!; set_solver.
    + intros x Hx. assert (x ∈ store (poolV1 p)) by (apply Hd; set_solver). set_solver.
Qed.

Lemma create_ok recd p io id e p' : pool_ok recd p -> createCgroup io id p = (e, p') ->
  pool_ok recd p' /\ poolV1 p' = poolV1 p /\ dirtySet p' = dirtySet p /\ numaPools p' = numaPools p /\ groups p ⊆ groups p' /\
  (e = None -> MakeCgroupPathByID id ∈ groups p').
Proof.
  intros Hp E. unfold createCgroup in E. destruct (bool_decide_reflect (MakeCgroupPathByID id ∈ groups p)); [injection E as <- <-; by split_and!|].
  destruct io as [m|]; injection E as <- <-; cbn; [by split_and!|].
  split_and!; [|done|done|done|set_solver|set_solver]. destruct Hp as [H1 H2 H3 H4]. split; cbn; try done.
  intros x Hx. destruct (H2 x Hx) as (?&?&?). split_and!; [done|done|set_solver].
Qed.

Lemma get_ok recd p io : pool_ok recd p ->
  let '(r, p') := pool_Get io false 0 p in
  match r with
  | Ok id => id ∉ recd /\ 0 <= id < CgPoolIdLimit /\ pool_ok (recd ∪ {[id]}) p'
  | Err _ => pool_ok recd p'
  end.
Proof.
  intros [Hv Hr Hd Hn]. unfold pool_Get, v1_Get. pose proof (Allocate_v1 (poolV1 p) Hv) as Ha.
  destruct (Allocate _ (poolV1 p)) as [[id|e] a].
  - destruct Ha as (Hv' & Hrange & Hfresh & Est). cbn [MakeFullCgID].
    assert (id ∉ recd) as Hnr by (intros Hin; by destruct (Hr id Hin)).
    assert (id ∉ dirtySet p) as Hnd by (intros Hin; by apply Hfresh, Hd).
    assert (pool_ok recd (with_v1 a p)) as Hp1.
    { split; cbn; [done| | |done]; rewrite Est.
      - intros x Hx. destruct (Hr x Hx) as (?&?&?). split_and!; [set_solver|done|done].
      - intros x Hx. specialize (Hd x Hx). set_solver. }
    destruct (createCgroup io id (with_v1 a p)) as [[e|] p'] eqn:Ec; destruct (create_ok recd _ _ _ _ _ Hp1 Ec) as (Hp' & E1 & E2 & E3 & Hg & Hin).
    + unfold allocatorReleaseCgroup. destruct (v1_not_v2 id Hrange) as [-> ->].
      destruct Hp' as [G1 G2 G3 G4]. split; cbn; [by apply Release_ok| | |done].
      * intros x Hx. destruct (G2 x Hx) as (?&?&?). split_and!; [set_solver|done|done].
      * intros x Hx. assert (x ∈ store (poolV1 p')) by (by apply G3). assert (x <> id); [|set_solver]. intros ->. rewrite E2 in Hx. done.
    + split_and!; [done|lia|lia|]. destruct Hp' as [G1 G2 G3 G4]. split; [done| |done|done].
      intros x [Hx| ->%elem_of_singleton]%elem_of_union; [by apply G2|]. rewrite E1, E2. cbn. rewrite Est. split_and!; [set_solver|done|by apply Hin].
  - destruct Ha as [Hv' Est]. split; cbn; [done| | |done]; rewrite Est; done.
Qed.

(** The dirty groups a listing names. *)
Definition named (full : Z -> Z) (dw : gset Z) (all : list string) : list Z := filter (fun x => x ∈ dw) (full <$> omap Atoi all).

Lemma named_cons full dw cg all : named full dw (cg :: all) =
  match Atoi cg with Some z => if decide (full z ∈ dw) then full z :: named full dw all else named full dw all | None => named full dw all end.
Proof. unfold named. cbn. by destruct (Atoi cg). Qed.

Lemma put_keeps recd p clean id : pool_ok recd p -> id ∈ store (poolV1 p) ->
  numaPools (pool_Put clean id p) = numaPools p /\ forall x, x ∈ dirtySet p -> x <> id -> x ∈ dirtySet (pool_Put clean id p).
Proof.
  intros Hp Hst. destruct (v1_ids _ _ (po_v1 recd p Hp) Hst) as [Hrange _]. destruct (v1_not_v2 _ Hrange) as [E2 _].
  unfold pool_Put, allocatorReleaseCgroup. rewrite E2. destruct clean; cbn; (split; [done|]); set_solver.
Qed.

(** Tidying cleans each dirty group once and never collects the group of a sandbox. *)
Lemma tidy_loop_ok recd clean dw limit full path known all :
  (forall cg id, id ∈ recd -> path cg = MakeCgroupPathByID id ->
    Atoi cg = Some id /\ id < limit /\ forall p, pool_ok recd p -> known p (wrap16 id) = true) ->
  (forall x, x ∈ dw -> x ∉ recd) ->
  forall del p, pool_ok recd p -> NoDup (named full dw all) -> (forall x, x ∈ named full dw all -> x ∈ dirtySet p) ->
    (forall g id, g ∈ del -> id ∈ recd -> g <> MakeCgroupPathByID id) ->
    let '(del', p') := tidy_loop clean dw limit full path known all del p in
    pool_ok recd p' /\ (forall g id, g ∈ del' -> id ∈ recd -> g <> MakeCgroupPathByID id) /\ numaPools p' = numaPools p.
Proof.
  intros Hpath Hdw. induction all as [|cg all IH]; intros del p Hp Hnd Hdirty Hdel; cbn [tidy_loop]; [done|].
  rewrite named_cons in Hnd, Hdirty.
  assert (forall x, x ∈ named full dw all -> x ∈ dirtySet p) as Hdirty'.
  { intros x Hx. apply Hdirty. destruct (Atoi cg); [|done]. destruct (decide _); [by right|done]. }
  assert (NoDup (named full dw all)) as Hnd'.
  { destruct (Atoi cg); [|done]. destruct (decide _); [by apply NoDup_cons in Hnd as [_ ?]|done]. }
  assert (forall known_ok : (forall id, id ∈ recd -> path cg <> MakeCgroupPathByID id),
    let '(del', p') := tidy_loop clean dw limit full path known all (del ++ [path cg])%list p in
    pool_ok recd p' /\ (forall g id, g ∈ del' -> id ∈ recd -> g <> MakeCgroupPathByID id) /\ numaPools p' = numaPools p) as Hcollect.
  { intros Hk. apply IH; [done|done|auto|]. intros g id [Hg| ->%list_elem_of_singleton]%elem_of_app Hid; [by apply Hdel|by apply Hk]. }
  destruct (bool_decide _); [by apply IH; auto|]. destruct (Atoi cg) as [z|] eqn:Ez.
  2: { apply Hcollect. intros id Hid E. destruct (Hpath cg id Hid E) as (H1 & _). congruence. }
  destruct (Z.leb_spec limit z) as [Hl|Hl].
  { apply Hcollect. intros id Hid E. destruct (Hpath cg id Hid E) as (H1 & H2 & _). assert (id = z) by congruence. lia. }
  destruct (bool_decide_reflect (full z ∈ dw)) as [Hin|Hin].
  - rewrite decide_True in Hnd, Hdirty by done. apply NoDup_cons in Hnd as [Hnot _].
    assert (full z ∈ store (poolV1 p)) as Hst by (apply (po_dirty recd p Hp), Hdirty; left).
    destruct (put_keeps recd p (clean (full z)) (full z) Hp Hst) as [Enuma Hkeep].
    rewrite <- Enuma. apply IH; [apply put_ok; [done|done|by apply Hdw]|done| |done].
    intros x Hx. apply Hkeep; [by apply Hdirty'|]. by intros ->.
  - destruct (known p (wrap16 z)) eqn:Ek; [by apply IH; auto|]. apply Hcollect. intros id Hid E.
    destruct (Hpath cg id Hid E) as (H1 & _ & H3). assert (id = z) as -> by congruence. by rewrite H3 in Ek.
Qed.

Lemma app_str_inj (p s t : string) : p +:+ s = p +:+ t -> s = t.
Proof. induction p as [|a p IH]; cbn; [done|]. intros [= H]. by apply IH. Qed.

Lemma v1_path_clash cg id : 0 <= id < CgPoolIdLimit -> MakeCgroupPoolV1PathByString cg = MakeCgroupPathByID id -> Atoi cg = Some id.
Proof.
  intros Hid E. unfold MakeCgroupPathByID in E. destruct (Z.ltb_spec id CgPoolV1IdLimit) as [_|?]; [|unfold CgPoolV1IdLimit in *; lia].
  apply app_str_inj, app_str_inj in E as ->. apply Atoi_pretty. unfold CgPoolIdLimit, int_max in *. lia.
Qed.

Lemma v2_path_clash x id : 0 <= id < CgPoolIdLimit -> MakeCgroupPoolV2PathByString x <> MakeCgroupPathByID id.
Proof. intros Hid. unfold MakeCgroupPathByID. destruct (Z.ltb_spec id CgPoolV1IdLimit) as [_|?]; [|unfold CgPoolV1IdLimit in *; lia]. done. Qed.

Lemma recd_range recd p id : pool_ok recd p -> id ∈ recd -> 0 <= id < CgPoolIdLimit /\ wrap16 id = id /\ Contains (ranger (poolV1 p)) id = true.
Proof.
  intros Hp Hid. destruct (po_recd recd p Hp id Hid) as (Hst & _). destruct (v1_ids _ _ (po_v1 recd p Hp) Hst) as [Hr Hc].
  destruct (v1_not_v2 id Hr) as [_ E]. by rewrite E.
Qed.

Lemma delete_groups_ok recd fails del p : pool_ok recd p -> (forall g id, g ∈ del -> id ∈ recd -> g <> MakeCgroupPathByID id) ->
  pool_ok recd (delete_groups fails del p).
Proof.
  intros [H1 H2 H3 H4] Hdel. split; cbn; try done. intros id Hid. destruct (H2 id Hid) as (G1 & G2 & G3). split_and!; [done|done|].
  apply elem_of_filter. split; [|done]. intros [Hin _]. by apply (Hdel _ id Hin Hid).
Qed.

Lemma tidy_v1_ok recd clean fails listing dw p : pool_ok recd p -> dw = dirtySet p ->
  (forall all, listing = Ok all -> NoDup (named wrap32 dw all)) ->
  pool_ok recd (tidyPoolV1 clean fails listing dw p) /\ numaPools (tidyPoolV1 clean fails listing dw p) = numaPools p.
Proof.
  intros Hp -> Hnd. unfold tidyPoolV1. destruct listing as [all|e]; [|done].
  pose proof (tidy_loop_ok recd clean (dirtySet p) (2 ^ 63) wrap32 MakeCgroupPoolV1PathByString (fun p id => Contains (ranger (poolV1 p)) id) all) as H.
  destruct (tidy_loop _ _ _ _ _ _ _ _ p) as [del p'] eqn:E.
  specialize (H ltac:(intros cg id Hid E1; destruct (recd_range recd p id Hp Hid) as (Hr & Ew & _); split_and!;
    [by apply v1_path_clash|unfold CgPoolIdLimit in *; lia|intros q Hq; rewrite Ew; by apply (recd_range recd q id Hq Hid)])).
  specialize (H ltac:(intros x Hx Hr; by destruct (po_recd recd p Hp x Hr) as (_ & ? & _))). specialize (H [] p Hp (Hnd _ eq_refl)).
  specialize (H ltac:(intros x Hx; unfold named in Hx; by apply list_elem_of_filter in Hx as [? _])).
  specialize (H ltac:(intros g id Hg; by apply not_elem_of_nil in Hg)). rewrite E in H. destruct H as (Hp' & Hd & En).
  split; [by apply delete_groups_ok|done].
Qed.

(** The numbers of the second pool are not 16-bit. *)
Lemma full_v2 n id : Z.of_nat n < MaxUint16 -> 0 <= id < CgPoolIdLimit -> CgPoolIdLimit <= MakeFullCgID id true (Z.of_nat n).
Proof.
  unfold MakeFullCgID, wrap32, CgPoolIdLimit, MaxUint16. intros Hn Hid. rewrite (Z.mod_small (Z.of_nat n + 1)) by lia. rewrite Z.mod_small; lia.
Qed.

Lemma tidy_numa_ok recd clean fails dw n all p : pool_ok recd p -> Z.of_nat n < MaxUint16 -> (forall x, x ∈ dw -> 0 <= x < CgPoolIdLimit /\ x ∉ recd) ->
  pool_ok recd (tidy_numa clean fails dw n all p).
Proof.
  intros Hp Hn Hdw. unfold tidy_numa. set (full := fun id => _). set (path := fun cg => _). set (known := fun p id => _).
  assert (named full dw all = []) as Enil.
  { unfold named. apply filter_none, Forall_forall. intros x (z & -> & _)%list_elem_of_fmap Hx. destruct (Hdw _ Hx) as [Hr _].
    pose proof (full_v2 n (wrap16 z) Hn ltac:(unfold wrap16, CgPoolIdLimit; pose proof (Z.mod_pos_bound z (2 ^ 16) ltac:(lia)); lia)). unfold full in Hr. lia. }
  pose proof (tidy_loop_ok recd clean dw CgPoolIdLimit full path known all) as H.
  destruct (tidy_loop _ _ _ _ _ _ _ _ p) as [del p'] eqn:E.
  specialize (H ltac:(intros cg id Hid E1; exfalso; by apply (v2_path_clash ("numa" +:+ pretty (Z.of_nat n) +:+ "/" +:+ cg) id); [apply (recd_range recd p id Hp Hid)|])).
  specialize (H ltac:(intros x Hx; by apply Hdw)). rewrite Enil in H. specialize (H [] p Hp ltac:(constructor) ltac:(intros x Hx; by apply not_elem_of_nil in Hx)).
  specialize (H ltac:(intros g id Hg; by apply not_elem_of_nil in Hg)). rewrite E in H. destruct H as (Hp' & Hd & _). by apply delete_groups_ok.
Qed.

Lemma tidy_v2_ok recd clean fails dw listings : (forall x, x ∈ dw -> 0 <= x < CgPoolIdLimit /\ x ∉ recd) ->
  forall n p, pool_ok recd p -> Z.of_nat (n + length listings) <= MaxUint16 -> pool_ok recd (tidyPoolV2 clean fails dw n listings p).
Proof.
  intros Hdw. induction listings as [|[all|e] listings IH]; intros n p Hp Hn; cbn [tidyPoolV2]; [done| |done].
  cbn in Hn. apply IH; [apply tidy_numa_ok; [done|lia|done]|lia].
Qed.

Lemma Tidy_ok recd clean fails l1 l2 p : pool_ok recd p -> (forall all, l1 = Ok all -> NoDup (named wrap32 (dirtySet p) all)) ->
  pool_ok recd (Tidy clean fails l1 l2 p).
Proof.
  intros Hp Hnd. unfold Tidy. destruct (tidy_v1_ok recd clean fails l1 _ p Hp eq_refl Hnd) as [Hp1 En].
  apply tidy_v2_ok; [|done|].
  - intros x Hx. split; [|intros Hr; by destruct (po_recd recd p Hp x Hr) as (_ & ? & _)].
    by apply (v1_ids (poolV1 p)); [apply (po_v1 recd p Hp)|apply (po_dirty recd p Hp)].
  - pose proof (po_numa recd p Hp). rewrite length_take. lia.
Qed.

(** ** A start of the Cubelet *)

Lemma create_all_ok recd fails ids : forall p, pool_ok recd p -> pool_ok recd (create_all fails ids p).
Proof.
  induction ids as [|id ids IH]; intros p Hp; cbn; [done|]. apply IH. destruct (createCgroup (fails id) id p) as [e p'] eqn:E.
  by destruct (create_ok recd p _ _ _ _ Hp E).
Qed.

Lemma initial_assign_ok p id : v1_ok (poolV1 p) -> 0 <= id <= MaxInt16 ->
  v1_ok (poolV1 (initial_assign p (pretty id))) /\ store (poolV1 (initial_assign p (pretty id))) = store (poolV1 p) ∪ {[id]} /\
  dirtySet (initial_assign p (pretty id)) = dirtySet p /\ numaPools (initial_assign p (pretty id)) = numaPools p /\
  groups (initial_assign p (pretty id)) = groups p.
Proof.
  intros Hv Hid. unfold initial_assign. rewrite Atoi_pretty by (unfold MaxInt16, int_max in *; lia).
  destruct (Z.ltb_spec id CgPoolV1IdLimit) as [Hl|Hl]; [|unfold CgPoolV1IdLimit, CgPoolIdLimit, MaxInt16 in *; lia].
  assert (wrap32 id = id) as -> by (unfold wrap32, MaxInt16 in *; apply Z.mod_small; lia). unfold v1_initialAssign.
  destruct (Z.ltb_spec MaxInt16 id); [lia|]. destruct (v1_not_v2 id ltac:(unfold CgPoolIdLimit, MaxInt16 in *; lia)) as [_ ->].
  destruct (reserve_ok (poolV1 p) id Hv ltac:(unfold CgPoolIdLimit, MaxInt16 in *; lia)) as [H1 H2]. by split_and!.
Qed.

Lemma assign_all_ok ids : forall p, v1_ok (poolV1 p) -> Forall (fun id => 0 <= id <= MaxInt16) ids ->
  let p' := foldl initial_assign p (pretty <$> ids) in
  v1_ok (poolV1 p') /\ store (poolV1 p') = store (poolV1 p) ∪ list_to_set ids /\ dirtySet p' = dirtySet p /\
  numaPools p' = numaPools p /\ groups p' = groups p.
Proof.
  induction ids as [|id ids IH]; intros p Hv Hids; cbn.
  - split_and!; [done|set_solver|done|done|done].
  - apply Forall_cons in Hids as [Hid Hids]. destruct (initial_assign_ok p id Hv Hid) as (H1 & H2 & H3 & H4 & H5).
    destruct (IH _ H1 Hids) as (G1 & G2 & G3 & G4 & G5). rewrite G2, G3, G4, G5, H2, H3, H4, H5. split_and!; [done|set_solver|done|done|done].
Qed.

Lemma new_range_ok n : v1_ok (new_range n).
Proof.
  split; [split; cbn|done].
  - split; cbn; [|by left]. unfold wrap16, MaxUint16. pose proof (Z.mod_pos_bound n (2 ^ 16) ltac:(lia)). lia.
  - intros x Hx. by apply elem_of_empty in Hx.
Qed.

Lemma pool_init_ok initialSize numa (ids : list Z) gs fails recd : Forall (fun id => 0 <= id <= MaxInt16) ids -> recd = list_to_set ids ->
  (forall id, id ∈ recd -> MakeCgroupPathByID id ∈ gs) -> Z.of_nat numa < MaxUint16 ->
  pool_ok recd (pool_init initialSize numa (pretty <$> ids) gs fails).
Proof.
  intros Hids -> Hgs Hn. unfold pool_init. set (p0 := MkPool _ _ _ _ _).
  destruct (assign_all_ok ids p0 (new_range_ok initialSize) Hids) as (H1 & H2 & H3 & H4 & H5). set (p1 := foldl initial_assign p0 _) in *.
  assert (pool_ok (list_to_set ids) p1) as Hp1.
  { split; [done| | |by rewrite H4; cbn; rewrite length_replicate].
    - intros id Hid. rewrite H2, H3, H5. split_and!; [set_solver|set_solver|by apply Hgs].
    - intros id. rewrite H3. intros Hid. by apply elem_of_empty in Hid. }
  set (p2 := create_all fails _ p1). assert (pool_ok (list_to_set ids) p2) as Hp2 by (by apply create_all_ok). clearbody p2.
  generalize (imap pair (numaPools p2)). intros l. revert p2 Hp2. induction l as [|[n a] l IH]; intros p2 Hp2; cbn; [done|].
  apply IH. by apply create_all_ok.
Qed.

(** ** The plugin keeps sandboxes apart *)

Definition recorded (l : CgPlugin) (sb : string) : option string := view (cg_db l) [cg_bucket] sb.

Lemma Set_spec io sb v d e d' : flat_ok d -> Set_ io cg_bucket sb v d = (e, d') ->
  (e = io /\ io <> None /\ d' = d) \/
  (e = None /\ io = None /\ flat_ok d' /\ poolNum d' = poolNum d /\
    forall k, view d' [cg_bucket] k = if bool_decide (k = sb) then Some v else view d [cg_bucket] k).
Proof.
  intros Hok E. pose proof (Set_flat io cg_bucket sb v d Hok) as H. destruct io as [m|]; [rewrite H in E; injection E as <- <-; by left|]. right.
  destruct H as (d1 & E1 & H1 & H2 & Hv). rewrite E1 in E. injection E as <- <-.
  split_and!; [done|done|done|done|]. intros k. rewrite Hv. by rewrite (bool_decide_ext _ (k = sb)) by tauto.
Qed.

Lemma Delete_spec sb t d e d' : flat_ok d -> view d [cg_bucket] sb = Some t -> Delete None cg_bucket sb d = (e, d') ->
  e = None /\ flat_ok d' /\ poolNum d' = poolNum d /\
  forall k, view d' [cg_bucket] k = if bool_decide (k = sb) then None else view d [cg_bucket] k.
Proof.
  intros Hok Ht E. destruct (Delete_flat cg_bucket sb d Hok) as (e1 & d1 & E1 & _ & He & H1 & H2 & Hv). rewrite E1 in E. injection E as <- <-.
  split_and!; [by apply He; rewrite Ht|done|done|]. intros k. rewrite Hv. by rewrite (bool_decide_ext _ (k = sb)) by tauto.
Qed.

(** The records are the decimal texts of numbers that are all different. *)
Record records_ok (l : CgPlugin) (ids : gmap string Z) : Prop := {
  ro_store : flat_ok (cg_db l);
  ro_text : forall sb, recorded l sb = pretty <$> ids !! sb;
  ro_inj : forall sb sb' id, ids !! sb = Some id -> ids !! sb' = Some id -> sb = sb';
  ro_pool : pool_ok (map_img ids) (pool l);
}.

Lemma create_keeps io clean save q snap sb l ids : records_ok l ids -> exists ids', records_ok (cg_Create io clean save q snap sb l).2 ids' /\
  poolNum (cg_db (cg_Create io clean save q snap sb l).2) = poolNum (cg_db l).
Proof.
  intros [Hs Ht Hi Hp]. unfold cg_Create. destruct (snap && _); [by exists ids|]. destruct q; [by exists ids|].
  pose proof (get_ok (map_img ids) (pool l) io Hp) as Hg. destruct (pool_Get io false 0 (pool l)) as [[id|e] p]; [|by exists ids].
  destruct Hg as (Hnew & Hrange & Hp'). destruct (Set_ save cg_bucket sb (pretty id) (cg_db l)) as [e d] eqn:E.
  destruct (Set_spec _ _ _ _ _ _ Hs E) as [(-> & Hsave & ->)|(-> & _ & Hs' & En & Hv)].
  - destruct save as [m|]; [|done]. exists ids. split; [|done]. split; try done. cbn. apply put_ok; [by eapply pool_ok_mono; [|done]; set_solver| |done].
    apply (po_recd _ _ Hp'). set_solver.
  - exists (<[sb := id]> ids). split; [|done]. split; cbn; [done| | |].
    + intros k. unfold recorded. cbn. rewrite Hv. destruct (bool_decide_reflect (k = sb)) as [->|Hk]; [by rewrite lookup_insert_eq|].
      rewrite lookup_insert_ne by done. apply Ht.
    + assert (forall k, ids !! k <> Some id) as Hnone by (intros k Hk; apply Hnew, elem_of_map_img; eauto).
      intros k k' x. destruct (decide (k = sb)) as [->|Hk], (decide (k' = sb)) as [->|Hk'];
        rewrite ?lookup_insert_eq, ?lookup_insert_ne by done; intros; simplify_eq; try done; [by destruct (Hnone k')|by destruct (Hnone k)|by eapply Hi].
    + eapply pool_ok_mono; [|exact Hp']. intros x (k & Hk)%elem_of_map_img. destruct (decide (k = sb)) as [->|].
      * rewrite lookup_insert_eq in Hk. injection Hk as <-. set_solver.
      * rewrite lookup_insert_ne in Hk by done. apply elem_of_union_l, elem_of_map_img. eauto.
Qed.

Lemma destroy_keeps clean sb l ids : records_ok l ids -> exists ids', records_ok (cg_Destroy clean None sb l).2 ids' /\
  poolNum (cg_db (cg_Destroy clean None sb l).2) = poolNum (cg_db l).
Proof.
  intros [Hs Ht Hi Hp]. unfold cg_Destroy. destruct (Get cg_bucket sb (cg_db l)) as [text|e] eqn:Eg; [|by exists ids].
  apply GetBs_view in Eg as Hv. change (recorded l sb = Some text) in Hv. rewrite Ht in Hv.
  destruct (ids !! sb) as [id|] eqn:Eid; [|done]. cbn in Hv. injection Hv as <-.
  assert (id ∈ map_img (SA := gset Z) ids) as Hin by (apply elem_of_map_img; eauto).
  destruct (recd_range _ _ id Hp Hin) as (Hr & _ & _). rewrite Atoi_pretty by (unfold CgPoolIdLimit, int_max in *; lia).
  assert (wrap32 id = id) as -> by (unfold wrap32, CgPoolIdLimit in *; apply Z.mod_small; lia).
  destruct (Delete None cg_bucket sb (cg_db l)) as [e d] eqn:Ed. apply GetBs_view in Eg.
  destruct (Delete_spec _ _ _ _ _ Hs Eg Ed) as (-> & Hs' & En & Hv). exists (delete sb ids). split; [|done]. split; cbn; [done| | |].
  - intros k. unfold recorded. cbn. rewrite Hv. destruct (bool_decide_reflect (k = sb)) as [->|Hk]; [by rewrite lookup_delete_eq|].
    rewrite lookup_delete_ne by done. apply Ht.
  - intros k k' x [_ Hk]%lookup_delete_Some [_ Hk']%lookup_delete_Some. by eapply Hi.
  - apply put_ok.
    + eapply pool_ok_mono; [|exact Hp]. intros x (k & [_ Hk]%lookup_delete_Some)%elem_of_map_img. apply elem_of_map_img. eauto.
    + by apply (po_recd _ _ Hp).
    + intros (k & [Hne Hk]%lookup_delete_Some)%elem_of_map_img. apply Hne. by apply (Hi sb k id).
Qed.

Lemma restart_keeps initialSize numa order fails l ids : records_ok l ids -> (forall i, 0 <= i < poolNum (cg_db l) -> i ∈ order) ->
  (forall sb id, recorded l sb = Some (pretty id) -> id <= MaxInt16) -> Z.of_nat numa < MaxUint16 ->
  records_ok (cg_init initialSize numa order fails (groups (pool l)) (cg_db l)) ids.
Proof.
  intros [Hs Ht Hi Hp] Hord Hlow Hn. split; [done|done|done|]. cbn.
  assert (ReadAll order cg_bucket (cg_db l) = pretty <$> ids) as ->.
  { apply map_eq. intros k. rewrite (ReadAll_flat order cg_bucket k (cg_db l) Hs Hord), lookup_fmap. apply Ht. }
  assert ((map_to_list (pretty <$> ids)).*2 = pretty <$> (map_to_list ids).*2) as ->.
  { rewrite map_to_list_fmap, <- !list_fmap_compose. done. }
  apply pool_init_ok; [| | |done].
  - apply Forall_forall. intros id ([sb id'] & -> & Hk%elem_of_map_to_list)%list_elem_of_fmap. cbn.
    destruct (recd_range _ _ id' Hp ltac:(apply elem_of_map_img; eauto)) as (Hr & _). split; [lia|]. apply (Hlow sb). by rewrite Ht, Hk.
  - apply set_eq. intros x. rewrite elem_of_map_img, elem_of_list_to_set, list_elem_of_fmap. split.
    + intros [k Hk]. exists (k, x). split; [done|]. by apply elem_of_map_to_list.
    + intros ([k y] & -> & Hk%elem_of_map_to_list). eauto.
  - intros id Hid. by apply (po_recd _ _ Hp).
Qed.

Inductive cg_op : Type :=
  | CCreate (io clean save quantity : option string) (snapshot : bool) (sb : string)
  | CDestroy (clean io : option string) (sb : string)
  | CTidy (clean : Z -> option string) (fails : string -> bool) (l1 : res (list string)) (l2 : list (res (list string)))
  | CRestart (initialSize : Z) (numa : nat) (order : list Z) (fails : Z -> option string).

Definition run_cg (l : CgPlugin) (o : cg_op) : CgPlugin :=
  match o with
  | CCreate io clean save quantity snapshot sb => (cg_Create io clean save quantity snapshot sb l).2
  | CDestroy clean io sb => (cg_Destroy clean io sb l).2
  | CTidy clean fails l1 l2 => MkPlugin (Tidy clean fails l1 l2 (pool l)) (cg_db l)
  | CRestart initialSize numa order fails => cg_init initialSize numa order fails (groups (pool l)) (cg_db l)
  end.

(** What the theorem asks of an operation: the record of a destroyed sandbox can be
    deleted, no two directories have the same number, and at a start the numbers in
    use are at most 32767. *)
Definition cg_op_ok (l : CgPlugin) (o : cg_op) : Prop :=
  match o with
  | CCreate _ _ _ _ _ _ => True
  | CDestroy _ io _ => io = None
  | CTidy _ _ l1 _ => forall all, l1 = Ok all -> NoDup (named wrap32 (dirtySet (pool l)) all)
  | CRestart _ numa order _ => (forall i, 0 <= i < poolNum (cg_db l) -> i ∈ order) /\ Z.of_nat numa < MaxUint16 /\
      forall sb id, recorded l sb = Some (pretty id) -> id <= MaxInt16
  end.
Fixpoint cg_history (l : CgPlugin) (ops : list cg_op) : Prop :=
  match ops with [] => True | o :: ops => cg_op_ok l o /\ cg_history (run_cg l o) ops end.

Lemma run_cg_keeps l o ids : records_ok l ids -> cg_op_ok l o -> exists ids', records_ok (run_cg l o) ids'.
Proof.
  intros Hl Ho. destruct o as [io clean save q snap sb|clean io sb|clean fails l1 l2|size numa order fails]; cbn in *.
  - destruct (create_keeps io clean save q snap sb l ids Hl) as (ids' & H & _). eauto.
  - subst io. destruct (destroy_keeps clean sb l ids Hl) as (ids' & H & _). eauto.
  - exists ids. destruct Hl as [H1 H2 H3 H4]. split; [done|done|done|]. by apply Tidy_ok.
  - destruct Ho as (H1 & H2 & H3). exists ids. by apply restart_keeps.
Qed.

Lemma history_ok l ops : (forall pre o post, ops = (pre ++ o :: post)%list -> cg_op_ok (foldl run_cg l pre) o) -> cg_history l ops.
Proof.
  revert l. induction ops as [|o ops IH]; intros l H; cbn; [done|]. split; [by apply (H [] o ops)|].
  apply IH. intros pre o' post ->. by apply (H (o :: pre) o' post).
Qed.

(** C10: sandboxes never share a control group.  From a new store, after any history of
    creations, destructions, tidying and restarts of the Cubelet in which creations may
    fail in every way, directories may not be listed, made, cleaned or removed, and
    under four conditions (the record of a destroyed sandbox can be deleted; no two of
    the directories that tidying lists have the same number; when the Cubelet restarts,
    every recorded number is at most 32767, and every file of the store is read; fewer
    than 65535 NUMA nodes), two sandboxes with records have different groups; and the
    group of each is reserved in the pool, is not waiting to be cleaned, and exists, so
    that tidying has not deleted it.  Without the first condition, and with a number
    above 32767 at a restart, it is false (destroy_retry_takes_group and
    restart_forgets_high_numbers). *)
Theorem cgroups_exclusive (num initialSize : Z) (numa : nat) (ops : list cg_op) :
  0 <= num -> Z.of_nat numa < MaxUint16 ->
  let l0 := cg_init initialSize numa (seqZ 0 num) (fun _ => None) ∅ (NewCubeStoreExt num) in
  let l := foldl run_cg l0 ops in
  (forall pre o post, ops = (pre ++ o :: post)%list ->
     match o with
     | CCreate _ _ _ _ _ _ => True
     | CDestroy _ io _ => io = None
     | CTidy _ _ listed _ => forall all, listed = Ok all -> NoDup (named wrap32 (dirtySet (pool (foldl run_cg l0 pre))) all)
     | CRestart _ numa order _ => (forall i, 0 <= i < poolNum (cg_db (foldl run_cg l0 pre)) -> i ∈ order) /\ Z.of_nat numa < MaxUint16 /\
         forall sb id, recorded (foldl run_cg l0 pre) sb = Some (pretty id) -> id <= MaxInt16
     end) ->
  (forall sb sb' t, recorded l sb = Some t -> recorded l sb' = Some t -> sb = sb') /\
  (forall sb t, recorded l sb = Some t -> exists id, t = pretty id /\ id ∈ store (poolV1 (pool l)) /\ id ∉ dirtySet (pool l) /\
    MakeCgroupPathByID id ∈ groups (pool l)).
Proof.
  intros Hn Hnuma l0 l Hist%history_ok.
  assert (exists ids, records_ok l0 ids) as H0.
  { destruct (new_store_flat num Hn) as [Hs He].
    assert (forall sb, view (NewCubeStoreExt num) [cg_bucket] sb = None) as Hnone by (intros sb; apply He).
    exists ∅. split; [done| |by intros ???; rewrite lookup_empty|].
    - intros sb. rewrite lookup_empty. apply Hnone.
    - unfold l0, cg_init. cbn [pool]. assert (ReadAll (seqZ 0 num) cg_bucket (NewCubeStoreExt num) = ∅) as ->.
      { apply map_eq. intros k. rewrite ReadAll_flat; [by rewrite Hnone, lookup_empty|done|].
        intros i Hi. apply elem_of_seqZ. cbn in Hi. lia. }
      rewrite map_to_list_empty. apply (pool_init_ok initialSize numa [] ∅ (fun _ => None)); [constructor|by rewrite map_img_empty_L| |done].
      intros id. rewrite map_img_empty_L. intros Hid. by apply elem_of_empty in Hid. }
  assert (exists ids, records_ok l ids) as [ids [Hs Ht Hi Hp]].
  { unfold l. clearbody l0. clear Hnuma l. revert l0 Hist H0. induction ops as [|o ops IH]; intros l0 Hist [ids H]; cbn; [eauto|].
    destruct Hist as [Ho Hist]. apply IH; [done|]. by eapply run_cg_keeps. }
  split.
  - intros sb sb' t. rewrite !Ht. destruct (ids !! sb) as [id|] eqn:E1; [|done]. destruct (ids !! sb') as [id'|] eqn:E2; [|done]. cbn.
    intros [= <-] [= Heq]. apply (inj pretty) in Heq as ->. by eapply Hi.
  - intros sb t. rewrite Ht. destruct (ids !! sb) as [id|] eqn:E1; [|done]. cbn. intros [= <-]. exists id. split; [done|].
    apply (po_recd _ _ Hp). apply elem_of_map_img. eauto.
Qed.

(** ** Sizes *)

(** The snapshots of a product come ordered by processors, then by memory. *)
Definition spec_le (s t : VmSnapshotSpec) : Prop := vs_CPU s < vs_CPU t \/ vs_CPU s = vs_CPU t /\ vs_Memory s <= vs_Memory t.
Definition fits (req : ResourceWithOverHead) (s : VmSnapshotSpec) : Prop :=
  vs_CPU s = VmCpuQ req /\ 0 <= preserved (getMbSize (MemReq req)) (getMbSize (PmemPageQ req)) s.

Lemma first_fit_spec cpu mem memReq pmem snaps : StronglySorted spec_le snaps ->
  match first_fit cpu mem memReq pmem snaps with
  | Some vm => exists s, s ∈ snaps /\ vs_CPU s = cpu /\ 0 <= preserved memReq pmem s /\
      vm = MkVMM (vs_CPU s) mem (vs_Memory s) (preserved memReq pmem s) (vs_Preserved s) /\
      forall t, t ∈ snaps -> vs_CPU t = cpu -> 0 <= preserved memReq pmem t -> vs_Memory s <= vs_Memory t
  | None => forall t, t ∈ snaps -> vs_CPU t = cpu -> preserved memReq pmem t < 0
  end.
Proof.
  induction 1 as [|s snaps Hs IH Hall]; cbn [first_fit]; [intros t Ht; by apply not_elem_of_nil in Ht|].
  destruct (Z.eqb_spec cpu (vs_CPU s)) as [Ec|Ec], (Z.leb_spec 0 (preserved memReq pmem s)) as [Hp|Hp]; cbn [andb].
  - exists s. split_and!; [left|done|done|done|]. intros t [->|Ht]%elem_of_cons Hc _; [done|].
    rewrite Forall_forall in Hall. destruct (Hall t Ht) as [?|[_ ?]]; lia.
  - destruct (first_fit _ _ _ _ snaps) as [vm|].
    + destruct IH as (u & Hu & H1 & H2 & H3 & H4). exists u. split_and!; [by right|done|done|done|]. intros t [->|Ht]%elem_of_cons; [lia|by apply H4].
    + intros t [->|Ht]%elem_of_cons; [done|by apply IH].
  - destruct (first_fit _ _ _ _ snaps) as [vm|].
    + destruct IH as (u & Hu & H1 & H2 & H3 & H4). exists u. split_and!; [by right|done|done|done|]. intros t [->|Ht]%elem_of_cons; [lia|by apply H4].
    + intros t [->|Ht]%elem_of_cons; [lia|by apply IH].
  - destruct (first_fit _ _ _ _ snaps) as [vm|].
    + destruct IH as (u & Hu & H1 & H2 & H3 & H4). exists u. split_and!; [by right|done|done|done|]. intros t [->|Ht]%elem_of_cons; [lia|by apply H4].
    + intros t [->|Ht]%elem_of_cons; [lia|by apply IH].
Qed.

(** A virtual machine starts from the smallest snapshot with its number of
    processors that leaves room for its memory; without one it starts cold, with no
    snapshot memory. *)
Theorem smallest_snapshot_chosen base req snaps product : product <> "cubebox" -> StronglySorted spec_le snaps ->
  let vm := (MatchVMSnapshotSpec base req snaps product).1 in
  (exists s, s ∈ snaps /\ fits req s /\ SnapMemory vm = vs_Memory s /\ r_CPU vm = VmCpuQ req /\
    (forall t, t ∈ snaps -> fits req t -> vs_Memory s <= vs_Memory t)) \/
  ((forall t, t ∈ snaps -> ~ fits req t) /\ vm = MkVMM (VmCpuQ req) (getMbSize (VmMemQ req)) 0 0 0).
Proof.
  intros Hprod Hs. unfold MatchVMSnapshotSpec. rewrite bool_decide_false by done. cbn [fst].
  pose proof (first_fit_spec (VmCpuQ req) (getMbSize (VmMemQ req)) (getMbSize (MemReq req)) (getMbSize (PmemPageQ req)) snaps Hs) as H.
  destruct (first_fit _ _ _ _ snaps) as [vm|].
  - destruct H as (s & Hin & Hc & Hp & -> & Hmin). left. exists s. cbn. split_and!; [done|done|done|done|]. intros t Ht [H1 H2]. by apply Hmin.
  - right. split; [|done]. intros t Ht [H1 H2]. specialize (H t Ht H1). lia.
Qed.

(** ** Concrete runs *)

Abbreviation demo_cg size ops := (foldl run_cg (cg_init size 1 (seqZ 0 4) (fun _ => None) ∅ (NewCubeStoreExt 4)) ops).
Definition demo_create (sb : string) : cg_op := CCreate None None None None false sb.
Definition demo_cg_ops : list cg_op :=
  [demo_create "a"; demo_create "b"; CDestroy (Some "busy") None "a"; demo_create "c";
   CTidy (fun _ => None) (fun _ => false) (Ok ["0"; "1"; "stray"]) []; CRestart 1 1 (seqZ 0 4) (fun _ => None); demo_create "d"].

Example demo_cg_runs : let l := demo_cg 1 demo_cg_ops in
  recorded l "a" = None /\ recorded l "b" = Some "1" /\ recorded l "c" = Some "2" /\ recorded l "d" = Some "0" /\ dirtySet (pool l) = ∅.
Proof. split_and!; by vm_compute. Qed.

Definition demo_cg_short : list cg_op := take 5 demo_cg_ops.

Lemma cgroups_exclusive_witness : let l := demo_cg 1 demo_cg_short in
  recorded l "b" = Some "1" /\ recorded l "c" = Some "2" /\
  (forall sb, recorded l sb = Some "1" -> sb = "b") /\ MakeCgroupPathByID 1 ∈ groups (pool l).
Proof.
  cbv zeta. split; [by vm_compute|]. split; [by vm_compute|].
  destruct (cgroups_exclusive 4 1 1 demo_cg_short ltac:(lia) ltac:(unfold MaxUint16; lia)) as [H1 H2].
  { intros pre o post E. unfold demo_cg_short, demo_cg_ops in E. cbn [take] in E.
    destruct pre as [|? pre]; [by injection E as <- _|]. injection E as <- E. destruct pre as [|? pre]; [by injection E as <- _|]. injection E as <- E.
    destruct pre as [|? pre]; [by injection E as <- _|]. injection E as <- E. destruct pre as [|? pre]; [by injection E as <- _|]. injection E as <- E.
    destruct pre as [|? pre]; [|injection E as _ E; by destruct pre]. injection E as <- _.
    intros all [= <-]. apply (bool_decide_eq_true_1 _). by vm_compute. }
  split.
  - intros sb Hsb. apply (H1 sb "b" "1" Hsb). by vm_compute.
  - destruct (H2 "b" "1") as (id & Hid & _ & _ & Hg); [by vm_compute|].
    assert (pretty 1 = pretty id) as E by (rewrite <- Hid; reflexivity). apply (inj pretty) in E as <-. exact Hg.
Defined.

(** The record of a destroyed sandbox could not be deleted: the group is free and the
    record stays.  When the destruction is tried again, it takes the group away from
    the sandbox that got it meanwhile, and a third one gets it too. *)
Theorem destroy_retry_takes_group :
  let l := demo_cg 1 [demo_create "a"; CDestroy None (Some "read-only file system") "a"; demo_create "x"; demo_create "b";
    CDestroy None None "a"; demo_create "c"] in
  recorded l "b" = Some "0" /\ recorded l "c" = Some "0" /\ recorded l "a" = None.
Proof. split_and!; by vm_compute. Qed.

(** A number above 32767 is not reserved when the Cubelet starts, and tidying deletes
    the group of the sandbox that has it. *)
Theorem restart_forgets_high_numbers :
  let d := (Set_ None cg_bucket "a" "40000" (NewCubeStoreExt 4)).2 in
  let l := cg_init 1 1 (seqZ 0 4) (fun _ => None) {[MakeCgroupPathByID 40000]} d in
  recorded l "a" = Some "40000" /\ store (poolV1 (pool l)) = ∅ /\ MakeCgroupPathByID 40000 ∈ groups (pool l) /\
  MakeCgroupPathByID 40000 ∉ groups (pool (run_cg l (CTidy (fun _ => None) (fun _ => false) (Ok ["0"; "1"; "40000"]) []))).
Proof. split_and!; [by vm_compute|by vm_compute| |]; apply (bool_decide_eq_true_1 _); by vm_compute. Qed.
