(* ===== verification/CletSem.v ===== *)
(** * The resizable semaphore and the request limiter
    (Cubelet/pkg/semaphore: semaphore.go, limiter.go)

    [Weighted] is a semaphore of [size] units; a caller that does not get its units
    at once is put into one of two lists, the waiters that can be served and those
    that ask for more than there is, and sleeps on a channel of its own.  A list
    element is a heap object: [list.Remove] does nothing when the element is no longer
    in that list, so elements carry an identity.  Channels do too, and the closed ones
    are recorded.

    The mutex makes every block between [mu.Lock] and [mu.Unlock] one step;
    [Acquire] consists of two such steps, what it does before it sleeps and what it
    does when its context ends first. *)
From S2P Require Import Prelude.

Open Scope Z_scope.

(** ** The semaphore *)

(** A list element: its identity, the units asked for, the channel of the caller. *)
Record elem : Type := MkElem { e_id : nat; e_n : Z; e_ready : nat }.

#[export] Instance elem_eq_dec : EqDecision elem.
Proof. solve_decision. Defined.

Record Weighted : Type := MkWeighted {
  size : Z; cur : Z; waiters : list elem; impossibleWaiters : list elem;
  closed : gset nat;  (* the channels that are closed *)
  next_id : nat;        (* the next identity *)
}.

Definition NewWeighted (n : Z) : Weighted := MkWeighted n 0 [] [] ∅ 0.

Definition GetCurrent (s : Weighted) : Z := cur s.
Definition Size (s : Weighted) : Z := size s.

(** The loop at the end of [Release] and [Resize]: serve waiters from the front as
    long as the units suffice. *)
Fixpoint serve (sz c : Z) (ws : list elem) (cl : gset nat) : Z * list elem * gset nat :=
  match ws with
  | [] => (c, [], cl)
  | w :: ws' => if sz - c <? e_n w then (c, ws, cl) else serve sz (c + e_n w) ws' ({[e_ready w]} ∪ cl)
  end.

Definition serve_all (s : Weighted) : Weighted :=
  let '(c, ws, cl) := serve (size s) (cur s) (waiters s) (closed s) in
  MkWeighted (size s) c ws (impossibleWaiters s) cl (next_id s).

Definition is_nil {A} (l : list A) : bool := match l with [] => true | _ => false end.

(** The first part of [Acquire]: [None] when the units were free, else the element it
    sleeps on and whether that is in the list of impossible waiters. *)
Definition Acquire_enter (n : Z) (s : Weighted) : Weighted * option (bool * elem) :=
  if (n <=? size s - cur s) && is_nil (waiters s)
  then (MkWeighted (size s) (cur s + n) (waiters s) (impossibleWaiters s) (closed s) (next_id s), None)
  else
    let w := MkElem (next_id s) n (next_id s) in
    if size s <? n
    then (MkWeighted (size s) (cur s) (waiters s) (impossibleWaiters s ++ [w]) (closed s) (S (next_id s)), Some (true, w))
    else (MkWeighted (size s) (cur s) (waiters s ++ [w]) (impossibleWaiters s) (closed s) (S (next_id s)), Some (false, w)).

(** [list.Remove]: an element that is not in this list is left alone. *)
Definition remove_elem (w : elem) (l : list elem) : list elem := filter (fun e => e_id e <> e_id w) l.

(** The second part, when the context ends: [true] when the units came in time after
    all ([err = nil]). *)
Definition Acquire_cancel (imp : bool) (w : elem) (s : Weighted) : Weighted * bool :=
  if bool_decide (e_ready w ∈ closed s) then (s, true)
  else if imp
  then (MkWeighted (size s) (cur s) (waiters s) (remove_elem w (impossibleWaiters s)) (closed s) (next_id s), false)
  else (MkWeighted (size s) (cur s) (remove_elem w (waiters s)) (impossibleWaiters s) (closed s) (next_id s), false).

Definition TryAcquire (n : Z) (s : Weighted) : Weighted * (Z * bool) :=
  let success := (n <=? size s - cur s) && is_nil (waiters s) in
  let c := if success then cur s + n else cur s in
  (MkWeighted (size s) c (waiters s) (impossibleWaiters s) (closed s) (next_id s), (c, success)).

(** [None] is the panic of a bad release. *)
Definition Release (n : Z) (s : Weighted) : option Weighted :=
  if cur s - n <? 0 then None
  else Some (serve_all (MkWeighted (size s) (cur s - n) (waiters s) (impossibleWaiters s) (closed s) (next_id s))).

(** The two moving loops of [Resize]: the elements that satisfy [p] leave, each into
    a new element at the end of the other list. *)
Fixpoint rehome (p : elem -> bool) (l : list elem) (fr : nat) : list elem * list elem * nat :=
  match l with
  | [] => ([], [], fr)
  | w :: l' =>
      if p w then let '(stay, moved, fr') := rehome p l' (S fr) in (stay, MkElem fr (e_n w) (e_ready w) :: moved, fr')
      else let '(stay, moved, fr') := rehome p l' fr in (w :: stay, moved, fr')
  end.

Definition Resize (n : Z) (s : Weighted) : option Weighted :=
  if n <? 0 then None
  else
    let '(imp, back, fr) := rehome (fun w => e_n w <=? n) (impossibleWaiters s) (next_id s) in
    let '(ws, out, fr') := rehome (fun w => n <? e_n w) (waiters s ++ back) fr in
    Some (serve_all (MkWeighted n (cur s) ws (imp ++ out) (closed s) fr')).

(** ** The limiter *)

Record peakRecorder : Type := MkPeak { peak_max : Z; peak_cur : Z }.

(** A record that no other caller interrupts: the first compare-and-swap succeeds. *)
Definition Peak_Record (c : Z) (m : peakRecorder) : peakRecorder :=
  if (peak_cur m <? c) && (c <=? peak_max m) then MkPeak (peak_max m) c else m.
Definition SetMax (max : Z) (m : peakRecorder) : peakRecorder := MkPeak max 0.
Definition Peak_Get (m : peakRecorder) : Z * peakRecorder := (peak_cur m, MkPeak (peak_max m) 0).

Record Limiter : Type := MkLimiter { sem : option Weighted; req : Z; peak : peakRecorder }.

Definition NewLimiter (limit : Z) : Limiter :=
  MkLimiter (if 0 <? limit then Some (NewWeighted limit) else None) 0 (MkPeak limit 0).

Definition Limiter_SetLimit (limit : Z) (l : Limiter) : option Limiter :=
  let pk := SetMax limit (peak l) in
  match sem l with
  | None => Some (MkLimiter None (req l) pk)
  | Some s => s' ← Resize limit s; Some (MkLimiter (Some s') (req l) pk)
  end.

Definition Limiter_Limit (l : Limiter) : Z := match sem l with None => -1 | Some s => Size s end.

Definition Limiter_TryAcquire (l : Limiter) : Limiter * bool :=
  match sem l with
  | None => (MkLimiter None (req l + 1) (Peak_Record (req l + 1) (peak l)), true)
  | Some s =>
      let '(s', (c, success)) := TryAcquire 1 s in
      (MkLimiter (Some s') (req l) (if success then Peak_Record c (peak l) else peak l), success)
  end.

Definition Limiter_Release (l : Limiter) : option Limiter :=
  match sem l with
  | None => Some (MkLimiter None (req l - 1) (peak l))
  | Some s => s' ← Release 1 s; Some (MkLimiter (Some s') (req l) (peak l))
  end.

(** What [Acquire] does before it sleeps. *)
Definition Limiter_Acquire_enter (l : Limiter) : Limiter * option (bool * elem) :=
  match sem l with
  | None => (l, None)
  | Some s => let '(s', w) := Acquire_enter 1 s in (MkLimiter (Some s') (req l) (peak l), w)
  end.

Definition Current (l : Limiter) : Z := match sem l with None => req l | Some s => GetCurrent s end.
Definition Peak (l : Limiter) : Z * Limiter := let '(z, m) := Peak_Get (peak l) in (z, MkLimiter (sem l) (req l) m).

(** ** The callers of a semaphore *)

Inductive caller : Type :=
  | Waits (imp : bool) (w : elem)  (* asleep in [Acquire] *)
  | Holds (n : Z).

Record world : Type := World { sem_of : Weighted; callers : gmap nat caller }.

Definition wopen (n : Z) : world := World (NewWeighted n) ∅.

(** Any caller may ask, wake up when its channel is closed, give up, try, and give its
    units back; the limit may change at any time. *)
Inductive step : world -> world -> Prop :=
  | st_acquire s cs t n s' : cs !! t = None -> 0 <= n -> Acquire_enter n s = (s', None) ->
      step (World s cs) (World s' (<[t := Holds n]> cs))
  | st_sleep s cs t n s' imp w : cs !! t = None -> 0 <= n -> Acquire_enter n s = (s', Some (imp, w)) ->
      step (World s cs) (World s' (<[t := Waits imp w]> cs))
  | st_wake s cs t imp w : cs !! t = Some (Waits imp w) -> e_ready w ∈ closed s ->
      step (World s cs) (World s (<[t := Holds (e_n w)]> cs))
  | st_late s cs t imp w s' : cs !! t = Some (Waits imp w) -> Acquire_cancel imp w s = (s', true) ->
      step (World s cs) (World s' (<[t := Holds (e_n w)]> cs))
  | st_cancel s cs t imp w s' : cs !! t = Some (Waits imp w) -> Acquire_cancel imp w s = (s', false) ->
      step (World s cs) (World s' (delete t cs))
  | st_try s cs t n s' c : cs !! t = None -> 0 <= n -> TryAcquire n s = (s', (c, true)) ->
      step (World s cs) (World s' (<[t := Holds n]> cs))
  | st_release s cs t n s' : cs !! t = Some (Holds n) -> Release n s = Some s' ->
      step (World s cs) (World s' (delete t cs))
  | st_resize s cs n s' : Resize n s = Some s' -> step (World s cs) (World s' cs).

(** ** Units in use *)

Definition units (c : caller) : Z := match c with Holds n => n | Waits _ w => e_n w end.

(** A caller that sleeps on a closed channel has its units already. *)
Definition held (cl : gset nat) (c : caller) : Z :=
  match c with Holds n => n | Waits _ w => if bool_decide (e_ready w ∈ cl) then e_n w else 0 end.

Definition total (cl : gset nat) (cs : gmap nat caller) : Z := map_fold (fun _ c acc => held cl c + acc) 0 cs.

Lemma total_insert cl cs t c : cs !! t = None -> total cl (<[t := c]> cs) = held cl c + total cl cs.
Proof. intros. unfold total. rewrite map_fold_insert_L; [done|intros; lia|done]. Qed.

Lemma total_delete cl cs t c : cs !! t = Some c -> total cl cs = held cl c + total cl (delete t cs).
Proof. intros. unfold total. rewrite (map_fold_delete_L _ 0 t c); [done|intros; lia|done]. Qed.

Lemma total_replace cl cs t c c' : cs !! t = Some c -> held cl c' = held cl c -> total cl (<[t := c']> cs) = total cl cs.
Proof.
  intros Ht Hh. rewrite <-(insert_delete_eq cs), total_insert by apply lookup_delete_eq.
  rewrite (total_delete cl cs t c Ht). lia.
Qed.

Lemma total_ext cl cl' cs :
  (forall t c, cs !! t = Some c -> held cl c = held cl' c) -> total cl cs = total cl' cs.
Proof.
  unfold total. induction cs as [|t c cs Ht IH] using map_ind; intros H; [done|].
  rewrite !map_fold_insert_L by (done || (intros; lia)). rewrite (H t c) by apply lookup_insert_eq.
  f_equal. apply IH. intros t' c' Hc. apply (H t'). rewrite lookup_insert_ne; [done|congruence].
Qed.

Lemma total_nonneg cl cs : map_Forall (fun _ c => 0 <= units c) cs -> 0 <= total cl cs.
Proof.
  unfold total. induction cs as [|t c cs Ht IH] using map_ind; intros H; [done|].
  rewrite map_fold_insert_L by (done || (intros; lia)). apply map_Forall_insert in H as [Hc H]; [|done].
  specialize (IH H). destruct c as [imp w|n]; cbn in *; try case_bool_decide; lia.
Qed.

Lemma held_le cl cs t c : map_Forall (fun _ c => 0 <= units c) cs -> cs !! t = Some c -> held cl c <= total cl cs.
Proof.
  intros H Ht. rewrite (total_delete cl cs t c Ht).
  pose proof (total_nonneg cl (delete t cs) (map_Forall_delete _ _ _ H)). lia.
Qed.

(** ** Safety: the units in use never exceed the largest size *)

(** Who sleeps on a channel. *)
Definition sleeps (cs : gmap nat caller) (t : nat) (w : elem) : Prop := exists imp, cs !! t = Some (Waits imp w).

Record safe (b : Z) (x : world) : Prop := MkSafe {
  sf_size : 0 <= size (sem_of x) <= b;
  sf_cur : cur (sem_of x) <= b;
  sf_total : total (closed (sem_of x)) (callers x) <= cur (sem_of x);
  sf_units : map_Forall (fun _ c => 0 <= units c) (callers x);
  sf_elems : forall e, e ∈ waiters (sem_of x) ++ impossibleWaiters (sem_of x) ->
    0 <= e_n e /\ (e_ready e < next_id (sem_of x))%nat /\ e_ready e ∉ closed (sem_of x);
  sf_chans : NoDup (e_ready <$> waiters (sem_of x) ++ impossibleWaiters (sem_of x));
  sf_closed : forall c, c ∈ closed (sem_of x) -> (c < next_id (sem_of x))%nat;
  sf_sleeps : forall t w, sleeps (callers x) t w -> (e_ready w < next_id (sem_of x))%nat;
  sf_same : forall t w e, sleeps (callers x) t w -> e ∈ waiters (sem_of x) ++ impossibleWaiters (sem_of x) ->
    e_ready e = e_ready w -> e_n e = e_n w;
  sf_own : forall t t' w w', sleeps (callers x) t w -> sleeps (callers x) t' w' -> e_ready w = e_ready w' -> t = t';
}.

Lemma held_other cl c0 c : (forall imp w, c = Waits imp w -> e_ready w <> c0) -> held ({[c0]} ∪ cl) c = held cl c.
Proof.
  destruct c as [imp w|n]; cbn; [|done]. intros H. specialize (H imp w eq_refl).
  by rewrite (bool_decide_ext (e_ready w ∈ {[c0]} ∪ cl) (e_ready w ∈ cl)) by set_solver.
Qed.

(** Closing the channel of [e] puts its units into use, if somebody sleeps on it. *)
Lemma total_close cl cs e :
  e_ready e ∉ cl ->
  (forall t w, sleeps cs t w -> e_ready e = e_ready w -> e_n e = e_n w) ->
  (forall t t' w w', sleeps cs t w -> sleeps cs t' w' -> e_ready w = e_ready w' -> t = t') ->
  ((exists t w, sleeps cs t w /\ e_ready w = e_ready e) -> total ({[e_ready e]} ∪ cl) cs = total cl cs + e_n e) /\
  (~ (exists t w, sleeps cs t w /\ e_ready w = e_ready e) -> total ({[e_ready e]} ∪ cl) cs = total cl cs).
Proof.
  intros Hcl Hsame Hown. split.
  - intros (t & w & [imp Ht] & Hw).
    rewrite !(total_delete _ cs t _ Ht). cbn [held].
    rewrite bool_decide_eq_true_2 by set_solver. rewrite bool_decide_eq_false_2 by congruence.
    rewrite (total_ext ({[e_ready e]} ∪ cl) cl (delete t cs)).
    + rewrite (Hsame t w) by (by eauto || (by exists imp)). lia.
    + intros t' c' Hc. apply held_other. intros imp' w' ->. intros Hw'.
      apply lookup_delete_Some in Hc as [Hne Hc]. apply Hne.
      apply (Hown t t' w w'); [by exists imp|by exists imp'|congruence].
  - intros Hno. apply total_ext. intros t c Ht. apply held_other.
    intros imp w -> Hw. apply Hno. exists t, w. split; [by exists imp|done].
Qed.

(** Whether somebody sleeps on a channel can be decided. *)
Lemma sleeper_dec cs c0 : {exists t w, sleeps cs t w /\ e_ready w = c0} + {~ exists t w, sleeps cs t w /\ e_ready w = c0}.
Proof.
  set (on := fun c => match c with Waits _ w => bool_decide (e_ready w = c0) | Holds _ => false end).
  destruct (decide (map_Exists (fun (_ : nat) c => on c = true) cs)) as [H|H]; [left|right].
  - destruct H as (t & c & Ht & Hc). destruct c as [imp w|n]; [|done].
    apply bool_decide_eq_true in Hc. exists t, w. split; [by exists imp|done].
  - intros (t & w & [imp Ht] & Hw). apply H. exists t, (Waits imp w). split; [done|]. by apply bool_decide_eq_true.
Qed.

(** One waiter served. *)
Lemma serve_one_safe b sz c e ws imp cl fr cs :
  safe b (World (MkWeighted sz c (e :: ws) imp cl fr) cs) -> ~ sz - c < e_n e ->
  safe b (World (MkWeighted sz (c + e_n e) ws imp ({[e_ready e]} ∪ cl) fr) cs).
Proof.
  intros [Hsz Hc Ht Hu He Hnd Hcl Hsl Hsame Hown] Hroom. cbn in *.
  apply NoDup_cons in Hnd as [Hfr Hnd].
  destruct (He e) as (Hen & Her & Henc); [set_solver|].
  destruct (total_close cl cs e Henc) as [HC1 HC2].
  { intros t w Hw Heq. by apply (Hsame t w e); [|set_solver|]. }
  { done. }
  constructor; cbn; try done; try lia.
  - destruct (sleeper_dec cs (e_ready e)) as [Hex|Hno]; [rewrite HC1|rewrite HC2]; (done || lia).
  - intros e' He'. destruct (He e') as (? & ? & ?); [set_solver|]. split_and!; [done|done|].
    apply not_elem_of_union. split; [|done]. intros Heq%elem_of_singleton. apply Hfr. rewrite <-Heq.
    by apply list_elem_of_fmap_2.
  - intros c0 [->%elem_of_singleton|?]%elem_of_union; auto.
  - intros t w e' Hw He'. apply (Hsame t w e' Hw). set_solver.
Qed.

Lemma serve_all_safe b s cs : safe b (World s cs) -> safe b (World (serve_all s) cs).
Proof.
  destruct s as [sz c ws imp cl fr]. unfold serve_all. cbn.
  revert c cl. induction ws as [|e ws IH]; intros c cl H; cbn; [done|].
  destruct (Z.ltb_spec (sz - c) (e_n e)) as [|Hroom]; [done|].
  apply IH. apply serve_one_safe; [done|lia].
Qed.

(** What counts of an element: its units and its channel. *)
Definition key (e : elem) : Z * nat := (e_n e, e_ready e).

Lemma rehome_keys p l : forall fr stay moved fr', rehome p l fr = (stay, moved, fr') ->
  key <$> (stay ++ moved) ≡ₚ key <$> l /\ (fr <= fr')%nat.
Proof.
  induction l as [|w l IH]; intros fr stay moved fr'; cbn; [by intros [= <- <- <-]|].
  destruct (p w).
  - destruct (rehome p l (S fr)) as [[st mv] f] eqn:E. intros [= <- <- <-].
    destruct (IH _ _ _ _ E) as [IH1 IH2]. split; [|lia].
    rewrite fmap_app in *. cbn. change (e_n w, e_ready w) with (key w).
    by rewrite <-Permutation_middle, IH1.
  - destruct (rehome p l fr) as [[st mv] f] eqn:E. intros [= <- <- <-].
    destruct (IH _ _ _ _ E) as [IH1 IH2]. split; [|lia]. cbn. by rewrite IH1.
Qed.

(** The lists may lose elements and be rearranged. *)
Lemma safe_lists b sz sz' c ws ws' imp imp' cl fr fr' cs :
  safe b (World (MkWeighted sz c ws imp cl fr) cs) ->
  key <$> (ws' ++ imp') ⊆+ key <$> (ws ++ imp) -> (fr <= fr')%nat -> 0 <= sz' <= b ->
  safe b (World (MkWeighted sz' c ws' imp' cl fr') cs).
Proof.
  intros [Hsz Hc Ht Hu He Hnd Hcl Hsl Hsame Hown] Hsub Hfr Hsz'. cbn in *.
  assert (Hin : forall e, e ∈ ws' ++ imp' -> exists e', e' ∈ ws ++ imp /\ key e' = key e).
  { intros e H%(list_elem_of_fmap_2 key). eapply elem_of_submseteq in H; [|done].
    apply list_elem_of_fmap in H as (e' & ? & ?). eauto. }
  constructor; cbn; try done.
  - intros e (e' & H & [= H1 H2])%Hin. destruct (He e' H) as (? & ? & ?). rewrite <-H1, <-H2. split_and!; (done || lia).
  - assert (Hk : forall l, e_ready <$> l = snd <$> (key <$> l)) by (intros l; by rewrite <-list_fmap_compose).
    rewrite Hk in *. apply (fmap_submseteq snd) in Hsub. apply submseteq_Permutation in Hsub as [k Hperm].
    rewrite Hperm in Hnd. by apply NoDup_app in Hnd as [? _].
  - intros c0 H. specialize (Hcl c0 H). lia.
  - intros t w H. specialize (Hsl t w H). lia.
  - intros t w e Hw (e' & H & [= H1 H2])%Hin. rewrite <-H1, <-H2. by apply (Hsame t w).
Qed.

Lemma sleeps_hold cs t n t' w : sleeps (<[t := Holds n]> cs) t' w -> sleeps cs t' w.
Proof. intros [imp [[_ [=]]|[_ H]]%lookup_insert_Some]. by exists imp. Qed.

Lemma sleeps_delete cs t t' w : sleeps (delete t cs) t' w -> sleeps cs t' w.
Proof. intros [imp [_ H]%lookup_delete_Some]. by exists imp. Qed.

(** Callers that stop sleeping, and a new count of units in use. *)
Lemma safe_fewer b sz c c' ws imp cl fr cs cs' :
  safe b (World (MkWeighted sz c ws imp cl fr) cs) ->
  (forall t w, sleeps cs' t w -> sleeps cs t w) ->
  total cl cs' <= c' -> c' <= b -> map_Forall (fun _ c => 0 <= units c) cs' ->
  safe b (World (MkWeighted sz c' ws imp cl fr) cs').
Proof. intros [Hsz Hc Ht Hu He Hnd Hcl Hsl Hsame Hown] Hf Ht' Hc' Hu'. constructor; cbn in *; eauto. Qed.

(** A caller that falls asleep on a new channel. *)
Lemma safe_sleep b sz c ws ws' imp imp' cl fr cs t i n :
  safe b (World (MkWeighted sz c ws imp cl fr) cs) -> cs !! t = None -> 0 <= n ->
  ws' ++ imp' ≡ₚ MkElem fr n fr :: ws ++ imp ->
  safe b (World (MkWeighted sz c ws' imp' cl (S fr)) (<[t := Waits i (MkElem fr n fr)]> cs)).
Proof.
  intros [Hsz Hc Ht Hu He Hnd Hcl Hsl Hsame Hown] Hnone Hn Hperm. cbn in *.
  assert (Hs : forall t' w, sleeps (<[t := Waits i (MkElem fr n fr)]> cs) t' w ->
    (t' = t /\ w = MkElem fr n fr) \/ (t' <> t /\ sleeps cs t' w)).
  { intros t' w [imp0 [[<- [= <- <-]]|[? H]]%lookup_insert_Some]; [by left|right]. split; [done|]. by exists imp0. }
  assert (Hfresh : fr ∉ cl) by (intros H%Hcl; lia).
  constructor; cbn; try done.
  - rewrite total_insert by done. cbn. rewrite bool_decide_eq_false_2 by done. lia.
  - by apply map_Forall_insert.
  - intros e. rewrite Hperm. intros [->|H]%elem_of_cons; cbn; [split_and!; (done || lia)|].
    destruct (He e H) as (? & ? & ?). split_and!; (done || lia).
  - rewrite Hperm. cbn. apply NoDup_cons. split; [|done].
    intros (e & Heq & H)%list_elem_of_fmap. destruct (He e H) as (_ & ? & _). lia.
  - intros c0 H%Hcl. lia.
  - intros t' w [[-> ->]|[_ H%Hsl]]%Hs; cbn; lia.
  - intros t' w e Hw. rewrite Hperm. intros [->|H]%elem_of_cons; apply Hs in Hw as [[-> ->]|[? Hw]]; cbn; try done.
    + intros Heq. specialize (Hsl t' w Hw). lia.
    + intros Heq. destruct (He e H) as (_ & ? & _). lia.
    + by apply (Hsame t' w).
  - intros t1 t2 w1 w2 [[-> ->]|[? H1]]%Hs [[-> ->]|[? H2]]%Hs; cbn; intros Heq; try done.
    + specialize (Hsl _ _ H2). lia.
    + specialize (Hsl _ _ H1). lia.
    + by apply (Hown _ _ w1 w2).
Qed.

Lemma remove_elem_sub w l : key <$> remove_elem w l ⊆+ key <$> l.
Proof. apply fmap_submseteq, sublist_submseteq, sublist_filter. Qed.

(** The steps of callers, with the sizes bounded. *)
Definition step_le (b : Z) (x x' : world) : Prop := step x x' /\ size (sem_of x') <= b.

Lemma safe_enter_now b s cs t n :
  safe b (World s cs) -> cs !! t = None -> 0 <= n -> n <= size s - cur s ->
  safe b (World (MkWeighted (size s) (cur s + n) (waiters s) (impossibleWaiters s) (closed s) (next_id s)) (<[t := Holds n]> cs)).
Proof.
  destruct s as [sz c ws imp cl fr]. cbn. intros H Ht Hn Hroom. pose proof H as [Hsz Hc Htot Hu _ _ _ _ _ _]. cbn in *.
  eapply safe_fewer; [exact H|apply sleeps_hold| |lia|by apply map_Forall_insert].
  rewrite total_insert by done. cbn. lia.
Qed.

Lemma safe_resize b s s' cs n :
  safe b (World s cs) -> Resize n s = Some s' -> n <= b -> safe b (World s' cs).
Proof.
  destruct s as [sz c ws imp cl fr]. unfold Resize. intros H. destruct (Z.ltb_spec n 0) as [|Hn]; [done|]. cbn.
  destruct (rehome (fun w => e_n w <=? n) imp fr) as [[st1 mv1] f1] eqn:E1.
  destruct (rehome (fun w => n <? e_n w) (ws ++ mv1) f1) as [[st2 mv2] f2] eqn:E2.
  intros [= <-] Hb. apply rehome_keys in E1 as [P1 L1]. apply rehome_keys in E2 as [P2 L2].
  apply serve_all_safe. eapply safe_lists; [exact H| |lia|lia].
  apply Permutation_submseteq. rewrite !fmap_app in *.
  rewrite (Permutation_app_comm (key <$> st1)), app_assoc, P2, <-P1. solve_Permutation.
Qed.

Lemma size_serve_all s : size (serve_all s) = size s.
Proof. unfold serve_all. by destruct (serve _ _ _ _) as [[? ?] ?]. Qed.

Lemma Resize_size n s s' : Resize n s = Some s' -> size s' = n /\ 0 <= n.
Proof.
  unfold Resize. destruct (Z.ltb_spec n 0); [done|].
  destruct (rehome _ _ _) as [[? ?] ?]. destruct (rehome _ _ _) as [[? ?] ?]. intros [= <-].
  by rewrite size_serve_all.
Qed.

Lemma safe_wake b s cs t i w :
  safe b (World s cs) -> cs !! t = Some (Waits i w) -> e_ready w ∈ closed s ->
  safe b (World s (<[t := Holds (e_n w)]> cs)).
Proof.
  destruct s as [sz c ws imp cl fr]. intros H Ht Hc. pose proof H as [_ ? ? Hu _ _ _ _ _ _]. cbn in *.
  eapply safe_fewer; [exact H|apply sleeps_hold| |done|apply map_Forall_insert_2; [apply (Hu t _ Ht)|done]].
  rewrite (total_replace _ _ _ _ _ Ht); [done|]. cbn. by rewrite bool_decide_eq_true_2.
Qed.

Lemma safe_cancel b s cs t i w s' :
  safe b (World s cs) -> cs !! t = Some (Waits i w) -> Acquire_cancel i w s = (s', false) ->
  safe b (World s' (delete t cs)).
Proof.
  intros H Ht E. unfold Acquire_cancel in E. case_bool_decide as Hc; [done|]. destruct s as [sz c ws imp cl fr].
  pose proof H as [? ? Htot Hu _ _ _ _ _ _]. cbn in *.
  assert (H' : safe b (World (MkWeighted sz c ws imp cl fr) (delete t cs))).
  { eapply safe_fewer; [exact H|apply sleeps_delete| |done|by apply map_Forall_delete].
    rewrite (total_delete _ _ _ _ Ht) in Htot. cbn in Htot. rewrite bool_decide_eq_false_2 in Htot by done. lia. }
  case_match; injection E as <-; (eapply safe_lists; [exact H'| |lia|done]); rewrite !fmap_app;
    apply submseteq_app; (done || apply remove_elem_sub).
Qed.

Lemma safe_release b s cs t n s' :
  safe b (World s cs) -> cs !! t = Some (Holds n) -> Release n s = Some s' -> safe b (World s' (delete t cs)).
Proof.
  intros H Ht E. unfold Release in E. case_match; [done|]. injection E as <-. apply serve_all_safe.
  destruct s as [sz c ws imp cl fr]. pose proof H as [? ? Htot Hu _ _ _ _ _ _]. cbn in *.
  eapply safe_fewer; [exact H|apply sleeps_delete| | |by apply map_Forall_delete].
  - rewrite (total_delete _ _ _ _ Ht) in Htot. cbn in Htot. lia.
  - specialize (Hu t _ Ht). cbn in Hu. lia.
Qed.

Lemma safe_step b x x' : step_le b x x' -> safe b x -> safe b x'.
Proof.
  intros [Hstep Hb] H. destruct Hstep as
    [s cs t n s' Ht Hn E|s cs t n s' i w Ht Hn E|s cs t i w Ht Hc|s cs t i w s' Ht E|s cs t i w s' Ht E|s cs t n s' c Ht Hn E|s cs t n s' Ht E|s cs n s' E].
  - unfold Acquire_enter in E. case_match eqn:Hr; [|case_match; done]. injection E as <-.
    apply andb_true_iff in Hr as [Hr%Z.leb_le _]. by apply safe_enter_now.
  - unfold Acquire_enter in E. case_match; [done|]. destruct s as [sz c ws imp cl fr]. cbn in *.
    case_match; injection E as <- <- <-; eapply safe_sleep; try done; solve_Permutation.
  - by eapply safe_wake.
  - unfold Acquire_cancel in E. case_bool_decide as Hc; [|case_match; done]. injection E as <-. by eapply safe_wake.
  - by eapply safe_cancel.
  - unfold TryAcquire in E. destruct (_ && _) eqn:Hr; [|done]. injection E as <- _.
    apply andb_true_iff in Hr as [Hr%Z.leb_le _]. by apply safe_enter_now.
  - by eapply safe_release.
  - destruct (Resize_size n s s' E) as [Hs _]. eapply safe_resize; [exact H|exact E|]. cbn in Hb. lia.
Qed.

Lemma safe_open b n : 0 <= n <= b -> safe b (wopen n).
Proof.
  intros Hn. constructor; cbn; try (done || lia); unfold sleeps.
  - intros ? []%not_elem_of_nil.
  - constructor.
  - by intros t w [imp H].
  - by intros t w e [imp H].
  - by intros t t' w w' [imp H].
Qed.

(** A caller that holds its units can always give them back. *)
Lemma safe_can_release b x t n :
  safe b x -> callers x !! t = Some (Holds n) -> Release n (sem_of x) <> None.
Proof.
  intros [? ? Htot Hu _ _ _ _ _ _] Ht. pose proof (held_le (closed (sem_of x)) _ _ _ Hu Ht) as Hle. cbn in Hle.
  unfold Release. destruct (Z.ltb_spec (cur (sem_of x) - n) 0); [lia|done].
Qed.

(** ** The limiter's use of it: one unit per caller, never less than one unit *)

Record exact0 (x : world) : Prop := MkExact {
  ex_size : 1 <= size (sem_of x);
  ex_imp : impossibleWaiters (sem_of x) = [];
  ex_ones : map_Forall (fun _ c => units c = 1) (callers x);
  ex_asleep : forall e, e ∈ waiters (sem_of x) -> e_id e = e_ready e /\ exists t, callers x !! t = Some (Waits false e);
  ex_listed : forall t i w, callers x !! t = Some (Waits i w) ->
    i = false /\ (e_ready w ∈ closed (sem_of x) \/ w ∈ waiters (sem_of x));
  ex_order : StronglySorted lt (e_ready <$> waiters (sem_of x));
  ex_total : total (closed (sem_of x)) (callers x) = cur (sem_of x);
}.

(** No unit is idle while somebody waits. *)
Definition busy (s : Weighted) : Prop := waiters s <> [] -> size s <= cur s.

Lemma serve_one_exact b sz c e ws imp cl fr cs :
  safe b (World (MkWeighted sz c (e :: ws) imp cl fr) cs) -> exact0 (World (MkWeighted sz c (e :: ws) imp cl fr) cs) ->
  exact0 (World (MkWeighted sz (c + e_n e) ws imp ({[e_ready e]} ∪ cl) fr) cs).
Proof.
  intros [_ _ _ _ He _ _ _ Hsame Hown] [Hsz Himp Hones Hasl Hlist Hord Htot]. cbn in *.
  destruct (He e) as (_ & _ & Henc); [set_solver|].
  destruct (Hasl e) as [_ [t Ht]]; [set_solver|].
  constructor; cbn; try done.
  - intros e' H. apply Hasl. set_solver.
  - intros t' i w Ht'. destruct (Hlist _ _ _ Ht') as [-> [H|[->|H]%elem_of_cons]]; (split; [done|]); set_solver.
  - cbn in Hord. by apply StronglySorted_inv in Hord as [? _].
  - destruct (total_close cl cs e Henc) as [HC _].
    + intros t' w Hw Heq. by apply (Hsame t' w e); [|set_solver|].
    + done.
    + rewrite HC; [lia|]. exists t, e. split; [by exists false|done].
Qed.

Lemma serve_all_exact b s cs :
  safe b (World s cs) -> exact0 (World s cs) -> exact0 (World (serve_all s) cs) /\ busy (serve_all s).
Proof.
  destruct s as [sz c ws imp cl fr]. unfold serve_all. cbn.
  revert c cl. induction ws as [|e ws IH]; intros c cl H Hex; cbn; [split; [done|by intros []]|].
  destruct (Z.ltb_spec (sz - c) (e_n e)) as [Hfull|Hroom].
  - split; [done|]. intros _. cbn. destruct Hex as [_ _ Hones Hasl _ _ _]. cbn in *.
    destruct (Hasl e) as [_ [t Ht]]; [set_solver|]. pose proof (Hones _ _ Ht) as H1. cbn in H1. lia.
  - apply IH; [apply serve_one_safe; [done|lia]|by eapply serve_one_exact].
Qed.

Definition exact (x : world) : Prop := exact0 x /\ busy (sem_of x).

(** The steps of callers that ask for one unit each, with a limit of at least one. *)
Definition step_one (x x' : world) : Prop :=
  step x x' /\ 1 <= size (sem_of x') /\ map_Forall (fun _ c => units c = 1) (callers x').

Lemma exact_enter_now s cs t n :
  exact (World s cs) -> cs !! t = None -> n = 1 -> is_nil (waiters s) = true ->
  exact (World (MkWeighted (size s) (cur s + n) (waiters s) (impossibleWaiters s) (closed s) (next_id s)) (<[t := Holds n]> cs)).
Proof.
  destruct s as [sz c ws imp cl fr]. cbn. intros [[Hsz Himp Hones Hasl Hlist Hord Htot] _] Ht -> Hnil. cbn in *.
  destruct ws; [|done]. split; [|by intros []]. constructor; cbn in *; try done.
  - by apply map_Forall_insert.
  - intros e []%not_elem_of_nil.
  - intros t' i w [[_ [=]]|[_ H]]%lookup_insert_Some. by apply (Hlist t').
  - rewrite total_insert by done. cbn. lia.
Qed.

Lemma exact_sleep b sz c ws cl fr cs t :
  safe b (World (MkWeighted sz c ws [] cl fr) cs) -> exact (World (MkWeighted sz c ws [] cl fr) cs) -> cs !! t = None ->
  (ws = [] -> sz <= c) ->
  exact (World (MkWeighted sz c (ws ++ [MkElem fr 1 fr]) [] cl (S fr)) (<[t := Waits false (MkElem fr 1 fr)]> cs)).
Proof.
  intros Hsafe [[Hsz Himp Hones Hasl Hlist Hord Htot] Hbusy] Ht Hfull.
  pose proof Hsafe as [_ _ _ _ He _ Hcl _ _ _]. cbn in *. rewrite app_nil_r in He. split.
  2:{ intros _. cbn. destruct ws; [by apply Hfull|by apply Hbusy]. }
  constructor; cbn; try done.
  - by apply map_Forall_insert.
  - intros e [H| ->%list_elem_of_singleton]%elem_of_app.
    + destruct (Hasl e H) as [? [t' Ht']]. split; [done|]. exists t'. rewrite lookup_insert_ne by congruence. done.
    + split; [done|]. exists t. apply lookup_insert_eq.
  - intros t' i w [[_ [= <- <-]]|[_ H]]%lookup_insert_Some; [split; [done|set_solver]|].
    destruct (Hlist _ _ _ H) as [? [?|?]]; (split; [done|]); set_solver.
  - rewrite fmap_app. cbn. apply StronglySorted_app. split_and!; [|done|repeat constructor].
    intros x1 x2 (e & -> & H)%list_elem_of_fmap ->%list_elem_of_singleton. by destruct (He e H) as (_ & ? & _).
  - rewrite total_insert by done. cbn. rewrite bool_decide_eq_false_2 by (intros H%Hcl; lia). lia.
Qed.

Lemma exact_wake s cs t i w :
  exact (World s cs) -> cs !! t = Some (Waits i w) -> e_ready w ∈ closed s ->
  (forall e, e ∈ waiters s -> e_ready e ∉ closed s) ->
  exact (World s (<[t := Holds (e_n w)]> cs)).
Proof.
  intros [[Hsz Himp Hones Hasl Hlist Hord Htot] Hbusy] Ht Hc Hnc. cbn in *. split; [|done]. constructor; cbn; try done.
  - apply map_Forall_insert_2; [|done]. exact (Hones _ _ Ht).
  - intros e H. destruct (Hasl e H) as [? [t' Ht']]. split; [done|]. exists t'. rewrite lookup_insert_ne; [done|].
    intros <-. assert (w = e) as -> by congruence. by apply (Hnc e).
  - intros t' i' w' [[_ [=]]|[_ H]]%lookup_insert_Some. by apply (Hlist t').
  - rewrite (total_replace _ _ _ _ _ Ht); [done|]. cbn. by rewrite bool_decide_eq_true_2.
Qed.

Lemma sorted_fmap_filter {A B} (R : B -> B -> Prop) (f : A -> B) (P : A -> Prop) `{!forall x, Decision (P x)} l :
  StronglySorted R (f <$> l) -> StronglySorted R (f <$> filter P l).
Proof.
  induction l as [|x l IH]; cbn [fmap list_fmap]; [done|]. intros [Hs Hx]%StronglySorted_inv. rewrite filter_cons.
  case_decide; [|auto]. cbn. constructor; [auto|]. rewrite Forall_forall in *. intros y (z & -> & Hz)%list_elem_of_fmap.
  apply Hx, list_elem_of_fmap_2. by apply list_elem_of_filter in Hz as [_ ?].
Qed.

Lemma exact_cancel b s cs t i w s' :
  safe b (World s cs) -> exact (World s cs) -> cs !! t = Some (Waits i w) -> Acquire_cancel i w s = (s', false) ->
  exact (World s' (delete t cs)).
Proof.
  intros Hsafe [[Hsz Himp Hones Hasl Hlist Hord Htot] Hbusy] Ht E. unfold Acquire_cancel in E. case_bool_decide as Hc; [done|].
  destruct (Hlist _ _ _ Ht) as [-> [?|Hw]]; [done|]. injection E as <-.
  destruct s as [sz c ws imp cl fr]. destruct Hsafe as [_ _ _ _ _ _ _ _ _ Hown]. cbn in *. subst imp.
  assert (Hid : forall e, e ∈ ws -> e_id e = e_id w -> e = w).
  { intros e H Heq. destruct (Hasl e H) as [He [t' Ht']], (Hasl w Hw) as [Hew _].
    assert (t' = t) as ->; [|congruence]. apply (Hown t' t e w); [by exists false|by exists false|congruence]. }
  split; [constructor; cbn; try done|].
  - by apply map_Forall_delete.
  - intros e [Hne H]%list_elem_of_filter. destruct (Hasl e H) as [? [t' Ht']]. split; [done|]. exists t'.
    rewrite lookup_delete_ne; [done|]. intros <-. congruence.
  - intros t' i' w' [Hne H]%lookup_delete_Some. destruct (Hlist _ _ _ H) as [? [?|Hin]]; (split; [done|]); [by left|right].
    apply list_elem_of_filter. split; [|done]. intros Heq. apply Hid in Heq; [|done]. subst w'. apply Hne.
    apply (Hown t t' w w); [by exists false|by exists i'|done].
  - by apply sorted_fmap_filter.
  - rewrite (total_delete _ _ _ _ Ht) in Htot. cbn in Htot. rewrite bool_decide_eq_false_2 in Htot by done. lia.
  - intros _. apply Hbusy. cbn. intros ->. by apply not_elem_of_nil in Hw.
Qed.

Lemma exact_release b s cs t n s' :
  safe b (World s cs) -> exact (World s cs) -> cs !! t = Some (Holds n) -> Release n s = Some s' ->
  exact (World s' (delete t cs)).
Proof.
  intros Hsafe [[Hsz Himp Hones Hasl Hlist Hord Htot] Hbusy] Ht E. unfold Release in E. case_match eqn:Hpos; [done|].
  injection E as <-. eapply serve_all_exact.
  - destruct s as [sz c ws imp cl fr]. pose proof Hsafe as [? ? Htot' Hu _ _ _ _ _ _]. cbn in *.
    eapply safe_fewer; [exact Hsafe|apply sleeps_delete| | |by apply map_Forall_delete].
    + rewrite (total_delete _ _ _ _ Ht) in Htot'. cbn in Htot'. lia.
    + specialize (Hu t _ Ht). cbn in Hu. lia.
  - constructor; cbn in *; try done.
    + by apply map_Forall_delete.
    + intros e H. destruct (Hasl e H) as [? [t' Ht']]. split; [done|]. exists t'. rewrite lookup_delete_ne by congruence. done.
    + intros t' i w [_ H]%lookup_delete_Some. by apply (Hlist t').
    + rewrite (total_delete _ _ _ _ Ht) in Htot. cbn in Htot. lia.
Qed.

Lemma rehome_none p l fr : (forall e, e ∈ l -> p e = false) -> rehome p l fr = (l, [], fr).
Proof.
  induction l as [|e l IH]; intros H; cbn; [done|]. rewrite (H e) by set_solver. rewrite IH by set_solver. done.
Qed.

Lemma exact_resize b s cs n s' :
  safe b (World s cs) -> exact (World s cs) -> 1 <= n <= b -> Resize n s = Some s' -> exact (World s' cs).
Proof.
  intros Hsafe [[Hsz Himp Hones Hasl Hlist Hord Htot] _] Hn E. destruct s as [sz c ws imp cl fr]. cbn in *. subst imp.
  unfold Resize in E. destruct (Z.ltb_spec n 0) as [|Hpos]; [done|]. cbn in E. rewrite app_nil_r in E.
  rewrite rehome_none in E.
  2:{ intros e Hin. destruct (Hasl e Hin) as [_ [t Ht]]. specialize (Hones _ _ Ht). cbn in Hones. apply Z.ltb_ge. lia. }
  injection E as <-. eapply serve_all_exact.
  - eapply safe_lists; [exact Hsafe|done|lia|lia].
  - constructor; cbn; (done || lia).
Qed.

Lemma exact_step b x x' : step_one x x' -> step_le b x x' -> safe b x -> exact x -> exact x'.
Proof.
  intros [Hstep [Hone Hones']] [_ Hb] H Hex. destruct Hstep as
    [s cs t n s' Ht Hn E|s cs t n s' i w Ht Hn E|s cs t i w Ht Hc|s cs t i w s' Ht E|s cs t i w s' Ht E|s cs t n s' c Ht Hn E|s cs t n s' Ht E|s cs n s' E].
  - unfold Acquire_enter in E. case_match eqn:Hr; [|case_match; done]. injection E as <-.
    apply andb_true_iff in Hr as [_ Hr]. apply exact_enter_now; try done.
    exact (Hones' t (Holds n) (lookup_insert_eq _ _ _)).
  - pose proof (Hones' t _ (lookup_insert_eq _ _ _)) as H1.
    assert (n = 1) as -> by (unfold Acquire_enter in E; repeat case_match; simplify_eq; done).
    unfold Acquire_enter in E. case_match eqn:Hr; [done|]. destruct Hex as [Hex0 Hbusy]. pose proof Hex0 as [? Himp _ _ _ _ _].
    destruct s as [sz c ws imp cl fr]. cbn in *. subst imp.
    destruct (Z.ltb_spec sz 1); [lia|]. injection E as <- <- <-. eapply exact_sleep; [exact H|by split|done|].
    intros ->. cbn in Hr. rewrite andb_true_r in Hr. apply Z.leb_gt in Hr. lia.
  - eapply exact_wake; [done..|]. intros e He. by apply (sf_elems b _ H), elem_of_app; left.
  - unfold Acquire_cancel in E. case_bool_decide as Hc; [|case_match; done]. injection E as <-.
    eapply exact_wake; [done..|]. intros e He. by apply (sf_elems b _ H), elem_of_app; left.
  - by eapply exact_cancel.
  - unfold TryAcquire in E. destruct (_ && _) eqn:Hr; [|done]. injection E as <- _.
    apply andb_true_iff in Hr as [_ Hr]. apply exact_enter_now; try done.
    exact (Hones' t (Holds n) (lookup_insert_eq _ _ _)).
  - by eapply exact_release.
  - destruct (Resize_size n s s' E) as [Hs _]. cbn in *. eapply exact_resize; [done..| |done]. lia.
Qed.

(** The steps of a limiter's callers: limits from 1 to the largest [int64]. *)
Definition step_lim (x x' : world) : Prop := step_one x x' /\ step_le int_max x x'.

Lemma exact_open n : 1 <= n -> exact (wopen n).
Proof.
  intros Hn. split; [|by intros []]. constructor; cbn; try done.
  - intros e []%not_elem_of_nil.
  - constructor.
Qed.

(** Serving from a non-empty list with room for its head closes the head's channel. *)
Lemma serve_head sz c e ws cl : ~ sz - c < e_n e -> e_ready e ∈ (serve sz c (e :: ws) cl).2.
Proof.
  assert (Hmono : forall ws c cl, cl ⊆ (serve sz c ws cl).2).
  { clear. induction ws as [|e ws IH]; intros c cl; cbn; [done|]. case_match; [done|].
    etrans; [|apply IH]. apply union_subseteq_r. }
  intros H. cbn. destruct (Z.ltb_spec (sz - c) (e_n e)); [lia|].
  apply (Hmono ws (c + e_n e) ({[e_ready e]} ∪ cl)), elem_of_union_l, elem_of_singleton_2, eq_refl.
Qed.

Lemma Release_head s n e ws s' :
  waiters s = e :: ws -> e_n e <= size s - (cur s - n) -> Release n s = Some s' -> e_ready e ∈ closed s'.
Proof.
  unfold Release. intros Hws Hroom. case_match; [done|]. intros [= <-]. unfold serve_all. cbn [waiters size cur closed].
  rewrite Hws. pose proof (serve_head (size s) (cur s - n) e ws (closed s)) as Hh.
  destruct (serve _ _ _ _) as [[c' ws'] cl']. cbn in *. apply Hh. lia.
Qed.

(** ** Theorems *)

(** Whatever callers do and however the limit is changed up to [b], the units
    that callers hold or have been granted are at most the recorded [cur], which
    never exceeds [b]; and a caller that holds units can give them back without the
    panic of a bad release. *)
Theorem semaphore_safe b n x : 0 <= n <= b -> rtc (step_le b) (wopen n) x ->
  0 <= total (closed (sem_of x)) (callers x) <= cur (sem_of x) /\ cur (sem_of x) <= b /\
  (forall t k, callers x !! t = Some (Holds k) -> Release k (sem_of x) <> None).
Proof.
  intros Hn Hrun. assert (H : safe b x).
  { eapply (rtc_preserves (step_le b) (safe b)); [apply safe_step|exact Hrun|by apply safe_open]. }
  split_and!; [|by destruct H..|].
  - apply total_nonneg, (sf_units b x H).
  - intros t k. by eapply safe_can_release.
Qed.

(** When every caller asks for one unit and the limit stays at least one, the
    count is exact: it is the number of callers that hold their unit or have been
    granted it; while somebody waits no unit is idle; callers wait in the order in
    which they came; and giving a unit back wakes the one that waits longest unless
    the limit was lowered below the units still in use. *)
Theorem limiter_exact n x : 1 <= n <= int_max -> rtc step_lim (wopen n) x ->
  GetCurrent (sem_of x) = total (closed (sem_of x)) (callers x) /\
  (forall t i w, callers x !! t = Some (Waits i w) -> e_ready w ∉ closed (sem_of x) ->
     w ∈ waiters (sem_of x) /\ Size (sem_of x) <= GetCurrent (sem_of x)) /\
  StronglySorted lt (e_ready <$> waiters (sem_of x)) /\
  (forall t e ws s', callers x !! t = Some (Holds 1) -> waiters (sem_of x) = e :: ws -> cur (sem_of x) <= size (sem_of x) ->
     Release 1 (sem_of x) = Some s' -> e_ready e ∈ closed s').
Proof.
  intros Hn Hrun. assert (H : safe int_max x /\ exact x).
  { eapply (rtc_preserves step_lim (fun x => safe int_max x /\ exact x)); [|exact Hrun|].
    - intros y y' [H1 H2] [Hs He]. split; [by eapply safe_step|by eapply exact_step].
    - split; [apply safe_open; lia|apply exact_open; lia]. }
  destruct H as [_ [[Hsz Himp Hones Hasl Hlist Hord Htot] Hbusy]]. split_and!; [done| |done|].
  - intros t i w Ht Hnc. destruct (Hlist _ _ _ Ht) as [_ [?|Hw]]; [done|]. split; [done|].
    apply Hbusy. intros Hnil. rewrite Hnil in Hw. by apply not_elem_of_nil in Hw.
  - intros t e ws s' Ht Hws Hroom. apply (Release_head _ _ e ws); [done|].
    destruct (Hasl e) as [_ [t' Ht']]; [rewrite Hws; set_solver|]. pose proof (Hones _ _ Ht') as H1. cbn in H1. lia.
Qed.

(** A run used below: one caller holds the only unit, the next sleeps. *)
Abbreviation one_held := (World (MkWeighted 1 1 [] [] ∅ 0) {[0%nat := Holds 1]}).
Abbreviation one_asleep := (World (MkWeighted 1 1 [MkElem 0 1 0] [] ∅ 1) (<[1%nat := Waits false (MkElem 0 1 0)]> {[0%nat := Holds 1]})).

Lemma held_then_asleep : step (wopen 1) one_held /\ step one_held one_asleep.
Proof.
  split.
  - apply (st_acquire (NewWeighted 1) ∅ 0 1); [done|lia|done].
  - by apply (st_sleep (MkWeighted 1 1 [] [] ∅ 0) _ 1 1 _ false (MkElem 0 1 0)).
Qed.

Lemma semaphore_safe_witness : cur (sem_of one_asleep) <= 1.
Proof.
  destruct held_then_asleep as [H1 H2].
  apply (semaphore_safe 1 1 one_asleep); [lia|].
  apply (rtc_l _ _ one_held); [by split; [exact H1|]|]. apply rtc_once. by split; [exact H2|].
Defined.

Lemma limiter_exact_witness : GetCurrent (sem_of one_asleep) = total (closed (sem_of one_asleep)) (callers one_asleep).
Proof.
  destruct held_then_asleep as [H1 H2].
  apply (limiter_exact 1 one_asleep); [by unfold int_max|].
  apply (rtc_l _ _ one_held); [|apply rtc_once]; (split; [split_and!|split]); try done.
  - by apply map_Forall_singleton.
  - by apply map_Forall_insert_2; [|apply map_Forall_singleton].
Defined.

(** ** What the moves of [Resize] lose *)

(** A waiter that a change of the limit moved to the other list is not removed when
    its caller gives up, since [list.Remove] is called with the element it had
    before: the unit is later granted to nobody, and with a limit of one no caller
    gets in any more. *)
Theorem resize_leaks_unit :
  exists x, rtc (step_le 1) (wopen 1) x /\ callers x = ∅ /\ GetCurrent (sem_of x) = 1 /\ (TryAcquire 1 (sem_of x)).2.2 = false.
Proof.
  destruct held_then_asleep as [H1 H2].
  exists (World (MkWeighted 1 1 [] [] {[0%nat]} 3) ∅). split_and!; try done.
  apply (rtc_l _ _ one_held); [by split; [exact H1|]|].
  apply (rtc_l _ _ one_asleep); [by split; [exact H2|]|].
  apply (rtc_l _ _ (World (MkWeighted 0 1 [] [MkElem 1 1 0] ∅ 2) (callers one_asleep))).
  { split; [|done]. by apply (st_resize _ _ 0). }
  apply (rtc_l _ _ (World (MkWeighted 0 1 [] [MkElem 1 1 0] ∅ 2) {[0%nat := Holds 1]})).
  { split; [|done].
    pose proof (st_cancel (MkWeighted 0 1 [] [MkElem 1 1 0] ∅ 2) (callers one_asleep) 1 false (MkElem 0 1 0) _ eq_refl eq_refl) as Hc.
    cbn [callers] in Hc. by rewrite delete_insert_id in Hc by done. }
  apply (rtc_l _ _ (World (MkWeighted 1 1 [MkElem 2 1 0] [] ∅ 3) {[0%nat := Holds 1]})).
  { split; [|done]. by apply (st_resize _ _ 1). }
  apply rtc_once. split; [|done].
  pose proof (st_release (MkWeighted 1 1 [MkElem 2 1 0] [] ∅ 3) {[0%nat := Holds 1]} 0 1 _ eq_refl eq_refl) as Hr.
  by rewrite delete_singleton_eq in Hr.
Qed.

(** A caller that gives up does not let the next one in: with two units free, a
    caller that asks for one keeps waiting. *)
Theorem cancel_wakes_nobody :
  let s := MkWeighted 3 1 [MkElem 0 3 0; MkElem 1 1 1] [] ∅ 2 in
  Acquire_cancel false (MkElem 0 3 0) s = (MkWeighted 3 1 [MkElem 1 1 1] [] ∅ 2, false).
Proof. reflexivity. Qed.

(** The peak of a limiter without a limit is never recorded. *)
Theorem unlimited_peak_zero limit l : limit <= 0 -> peak l = MkPeak limit 0 -> sem l = None -> 0 <= req l ->
  peak (Limiter_TryAcquire l).1 = MkPeak limit 0.
Proof.
  intros Hl Hp Hs Hr. unfold Limiter_TryAcquire. rewrite Hs, Hp. unfold Peak_Record. cbn.
  destruct (Z.leb_spec (req l + 1) limit); [lia|]. by rewrite andb_false_r.
Qed.

(** [Acquire] and [Release] do not match on such a limiter. *)
Example unlimited_acquire_release : forall limit, limit <= 0 ->
  Current <$> Limiter_Release (Limiter_Acquire_enter (NewLimiter limit)).1 = Some (-1).
Proof. intros limit H. unfold NewLimiter. by destruct (Z.ltb_spec 0 limit); [lia|]. Qed.
