(* ===== verification/CletLocks.v ===== *)
(** * Locks by key
    (Cubelet/internal/kmutex/kmutex.go, Cubelet/pkg/multilock: reflock.go, multilock.go)

    [keyMutex] keeps one lock object per key that somebody holds or waits for.  A
    caller finds the object under the mutex [mu] and counts itself in, sleeps on the
    object outside of [mu], and counts itself out under [mu] again, so lock objects
    live on a heap and callers keep pointers to them.

    The lock object is a semaphore of golang.org/x/sync of size one, code that is not
    part of the repository: it is the parameter [Sem1], with what its documentation
    promises as [Sem1Laws]. *)
From S2P Require Import Prelude.

Open Scope string_scope.
Open Scope Z_scope.

(** ** A semaphore of one unit *)

(** [s_acquire] is what [Acquire] does before it sleeps: [true] when the unit was
    free.  [s_cancel] is what it does when its context ends: [true] when the unit came
    in time.  [s_release] without a holder panics. *)
Class Sem1 : Type := {
  sem1 : Type;
  s_new : sem1;
  s_acquire : nat -> sem1 -> sem1 * bool;
  s_cancel : nat -> sem1 -> sem1 * bool;
  s_release : sem1 -> option sem1;
  s_owner : sem1 -> option nat;
  s_waiting : sem1 -> gset nat;
}.

Class Sem1Laws (SM : Sem1) : Prop := {
  sl_new : s_owner s_new = None /\ s_waiting s_new = ∅;
  sl_acquire_now c s s' : s_acquire c s = (s', true) ->
    s_owner s = None /\ s_owner s' = Some c /\ s_waiting s' = s_waiting s;
  sl_acquire_queue c s s' : s_acquire c s = (s', false) ->
    s_owner s <> None /\ s_owner s' = s_owner s /\ s_waiting s' = {[c]} ∪ s_waiting s;
  sl_cancel_late c s s' : s_cancel c s = (s', true) -> s_owner s = Some c /\ s' = s;
  sl_cancel c s s' : s_owner s <> None -> s_cancel c s = (s', false) ->
    s_owner s <> Some c /\ s_owner s' = s_owner s /\ s_waiting s' = s_waiting s ∖ {[c]};
  sl_release_panics s : s_release s = None <-> s_owner s = None;
  sl_release s s' : s_release s = Some s' ->
    (s_waiting s = ∅ /\ s_owner s' = None /\ s_waiting s' = ∅) \/
    (exists c, c ∈ s_waiting s /\ s_owner s' = Some c /\ s_waiting s' = s_waiting s ∖ {[c]});
}.

Section kmutex.
Context {SM : Sem1}.

Record klock : Type := MkKlock { Weighted : sem1; ref : Z }.

(** [locks] maps keys to objects; [heap] holds the objects. *)
Record keyMutex : Type := MkKM { locks : gmap string nat; heap : gmap nat klock; next : nat }.

Definition newKeyMutex : keyMutex := MkKM ∅ ∅ 0.

Definition set_klock (l : nat) (k : klock) (km : keyMutex) : keyMutex := MkKM (locks km) (<[l := k]> (heap km)) (next km).
Definition drop_key (key : string) (km : keyMutex) : keyMutex := MkKM (delete key (locks km)) (heap km) (next km).

(** [Lock] until it leaves [mu] for the first time: the object of the key, counted up. *)
Definition Lock_enter (key : string) (km : keyMutex) : keyMutex * nat :=
  match locks km !! key ≫= fun l => (fun k => (l, k)) <$> heap km !! l with
  | Some (l, k) => (set_klock l (MkKlock (Weighted k) (ref k + 1)) km, l)
  | None => (MkKM (<[key := next km]> (locks km)) (<[next km := MkKlock s_new 1]> (heap km)) (S (next km)), next km)
  end.

(** [Lock] after a failed [Acquire] on the object [l]; [None] is the panic. *)
Definition Lock_fail (key : string) (l : nat) (km : keyMutex) : option keyMutex :=
  k ← heap km !! l;
  let r := ref k - 1 in
  let km' := set_klock l (MkKlock (Weighted k) r) km in
  if r <? 0 then None else Some (if r =? 0 then drop_key key km' else km').

(** [None]: the key is not locked, or the semaphore or the count underflows. *)
Definition Unlock (key : string) (km : keyMutex) : option keyMutex :=
  l ← locks km !! key;
  k ← heap km !! l;
  s ← s_release (Weighted k);
  let r := ref k - 1 in
  let km' := set_klock l (MkKlock s r) km in
  if r <? 0 then None else Some (if r =? 0 then drop_key key km' else km').

(** ** Callers *)

Inductive phase : Type := Enters | Waits | Fails | Holds.

#[local] Instance phase_eq_dec : EqDecision phase.
Proof. solve_decision. Defined.

(** Where a caller is: the key, the object it found, and how far it got. *)
Record caller : Type := MkCaller { c_key : string; c_lock : nat; c_phase : phase }.

Record kworld : Type := KWorld { km_of : keyMutex; callers : gmap nat caller }.

Definition kopen : kworld := KWorld newKeyMutex ∅.

Inductive kstep : kworld -> kworld -> Prop :=
  | ks_enter km cs t key km' l : cs !! t = None -> Lock_enter key km = (km', l) ->
      kstep (KWorld km cs) (KWorld km' (<[t := MkCaller key l Enters]> cs))
  | ks_acquire km cs t key l k s b : cs !! t = Some (MkCaller key l Enters) -> heap km !! l = Some k ->
      s_acquire t (Weighted k) = (s, b) ->
      kstep (KWorld km cs) (KWorld (set_klock l (MkKlock s (ref k)) km) (<[t := MkCaller key l (if b then Holds else Waits)]> cs))
  | ks_refused km cs t key l : cs !! t = Some (MkCaller key l Enters) ->
      kstep (KWorld km cs) (KWorld km (<[t := MkCaller key l Fails]> cs))
  | ks_wake km cs t key l k : cs !! t = Some (MkCaller key l Waits) -> heap km !! l = Some k ->
      s_owner (Weighted k) = Some t ->
      kstep (KWorld km cs) (KWorld km (<[t := MkCaller key l Holds]> cs))
  | ks_cancel km cs t key l k s b : cs !! t = Some (MkCaller key l Waits) -> heap km !! l = Some k ->
      s_cancel t (Weighted k) = (s, b) ->
      kstep (KWorld km cs) (KWorld (set_klock l (MkKlock s (ref k)) km) (<[t := MkCaller key l (if b then Holds else Fails)]> cs))
  | ks_fail km cs t key l km' : cs !! t = Some (MkCaller key l Fails) -> Lock_fail key l km = Some km' ->
      kstep (KWorld km cs) (KWorld km' (delete t cs))
  | ks_unlock km cs t key l km' : cs !! t = Some (MkCaller key l Holds) -> Unlock key km = Some km' ->
      kstep (KWorld km cs) (KWorld km' (delete t cs)).

(** ** The invariant *)

(** How many callers are concerned with a key. *)
Definition at_key (key : string) (c : caller) : bool := bool_decide (c_key c = key).
Definition count (key : string) (cs : gmap nat caller) : Z :=
  map_fold (fun _ c acc => (if at_key key c then 1 else 0) + acc) 0 cs.

Lemma count_insert key cs t c : cs !! t = None -> count key (<[t := c]> cs) = (if at_key key c then 1 else 0) + count key cs.
Proof. intros. unfold count. rewrite map_fold_insert_L; [done|intros; repeat case_match; lia|done]. Qed.

Lemma count_delete key cs t c : cs !! t = Some c -> count key cs = (if at_key key c then 1 else 0) + count key (delete t cs).
Proof. intros. unfold count. rewrite (map_fold_delete_L _ 0 t c); [done|intros; repeat case_match; lia|done]. Qed.

Lemma count_replace key cs t c c' : cs !! t = Some c -> c_key c' = c_key c -> count key (<[t := c']> cs) = count key cs.
Proof.
  intros Ht Hk. rewrite <-(insert_delete_eq cs), count_insert by apply lookup_delete_eq.
  rewrite (count_delete key cs t c Ht). unfold at_key. by rewrite Hk.
Qed.

Lemma count_nonneg key cs : 0 <= count key cs.
Proof.
  unfold count. induction cs as [|t c cs Ht IH] using map_ind; [done|].
  rewrite map_fold_insert_L by (done || (intros; repeat case_match; lia)). case_match; lia.
Qed.

Lemma count_zero key cs : count key cs = 0 <-> forall t c, cs !! t = Some c -> c_key c <> key.
Proof.
  split.
  - intros H t c Ht Hk. pose proof (count_nonneg key (delete t cs)). rewrite (count_delete key cs t c Ht) in H.
    unfold at_key in H. rewrite bool_decide_eq_true_2 in H by done. lia.
  - intros H. unfold count. induction cs as [|t c cs Ht IH] using map_ind; [done|].
    rewrite map_fold_insert_L by (done || (intros; repeat case_match; lia)).
    unfold at_key at 1. rewrite bool_decide_eq_false_2 by (apply (H t), lookup_insert_eq). rewrite IH; [lia|].
    intros t' c' Hc. apply (H t'). rewrite lookup_insert_ne; [done|congruence].
Qed.

(** What the object [k] of [key] says about the callers. *)
Record klock_ok (cs : gmap nat caller) (key : string) (k : klock) : Prop := MkKok {
  ko_ref : ref k = count key cs;
  ko_pos : 0 < ref k;
  ko_owner : forall t, s_owner (Weighted k) = Some t -> exists l p, cs !! t = Some (MkCaller key l p) /\ (p = Holds \/ p = Waits);
  ko_holds : forall t l, cs !! t = Some (MkCaller key l Holds) -> s_owner (Weighted k) = Some t;
  ko_waiting : forall t, t ∈ s_waiting (Weighted k) -> s_owner (Weighted k) <> Some t /\ exists l, cs !! t = Some (MkCaller key l Waits);
  ko_waits : forall t l, cs !! t = Some (MkCaller key l Waits) -> t ∈ s_waiting (Weighted k) \/ s_owner (Weighted k) = Some t;
  ko_busy : s_waiting (Weighted k) <> ∅ -> s_owner (Weighted k) <> None;
}.

Record kinv (x : kworld) : Prop := MkKinv {
  ki_found : forall t c, callers x !! t = Some c -> locks (km_of x) !! c_key c = Some (c_lock c);
  ki_locks : forall key l, locks (km_of x) !! key = Some l ->
    (l < next (km_of x))%nat /\ exists k, heap (km_of x) !! l = Some k /\ klock_ok (callers x) key k;
  ki_inj : forall key key' l, locks (km_of x) !! key = Some l -> locks (km_of x) !! key' = Some l -> key = key';
}.

(** [cs'] differs from [cs] only in callers concerned with [key]. *)
Definition only_at (key : string) (cs cs' : gmap nat caller) : Prop :=
  forall t c, c_key c <> key -> cs !! t = Some c <-> cs' !! t = Some c.

Lemma count_only_at key key' cs cs' : only_at key cs cs' -> key' <> key -> count key' cs' = count key' cs.
Proof.
  revert cs'. induction cs as [|t c cs Ht IH] using map_ind; intros cs' H Hne.
  - apply count_zero. intros t c Hc Hk. apply (H t c) in Hc; [|congruence]. done.
  - rewrite count_insert by done. unfold at_key. case_bool_decide as Hk.
    + assert (Hc' : cs' !! t = Some c) by (apply H; [congruence|apply lookup_insert_eq]).
      rewrite (count_delete key' cs' t c Hc'). unfold at_key. rewrite bool_decide_eq_true_2 by done. f_equal.
      apply IH; [|done]. intros t' c' Hc. specialize (H t' c' Hc). destruct (decide (t' = t)) as [->|Hn].
      * rewrite lookup_delete_eq, Ht. done.
      * by rewrite lookup_delete_ne, <-H, lookup_insert_ne by done.
    + rewrite Z.add_0_l. destruct (decide (c_key c = key)) as [Hck|Hck].
      * apply IH; [|done]. intros t' c' Hc. rewrite <-(H t' c' Hc). destruct (decide (t' = t)) as [->|Hn].
        -- rewrite lookup_insert_eq, Ht. split; [done|]. intros [= <-]. congruence.
        -- by rewrite lookup_insert_ne.
      * assert (Hc' : cs' !! t = Some c) by (apply H; [done|apply lookup_insert_eq]).
        rewrite (count_delete key' cs' t c Hc'). unfold at_key. rewrite bool_decide_eq_false_2 by done.
        apply IH; [|done]. intros t' c' Hc. specialize (H t' c' Hc). destruct (decide (t' = t)) as [->|Hn].
        -- rewrite lookup_delete_eq, Ht. done.
        -- by rewrite lookup_delete_ne, <-H, lookup_insert_ne by done.
Qed.

Lemma klock_ok_frame key key' cs cs' k :
  only_at key cs cs' -> key' <> key -> klock_ok cs key' k -> klock_ok cs' key' k.
Proof.
  intros Ho Hne [Href Hpos Hown Hh Hw Hws Hb].
  assert (HT : forall t l p, cs !! t = Some (MkCaller key' l p) <-> cs' !! t = Some (MkCaller key' l p)) by (intros; by apply Ho).
  constructor; try done.
  - by rewrite (count_only_at key key' cs cs').
  - intros t H. destruct (Hown t H) as (l & p & Hc & Hp). exists l, p. by rewrite <-HT.
  - intros t l H. apply (Hh t l). by rewrite HT.
  - intros t H. destruct (Hw t H) as (? & l & Hc). split; [done|]. exists l. by rewrite <-HT.
  - intros t l H. apply (Hws t l). by rewrite HT.
Qed.

(** A step at the object of one key. *)
Lemma kinv_at key l k' km cs cs' :
  kinv (KWorld km cs) -> locks km !! key = Some l -> only_at key cs cs' ->
  (forall t c, cs' !! t = Some c -> cs !! t = Some c \/ (c_key c = key /\ c_lock c = l)) ->
  klock_ok cs' key k' -> kinv (KWorld (set_klock l k' km) cs').
Proof.
  intros [Hf Hl Hi] Hkey Ho Hnew Hok. constructor; cbn in *; [| |done].
  - intros t c [Hc|[-> ->]]%Hnew; [by apply (Hf t)|done].
  - intros key1 l1 H1. destruct (Hl key1 l1 H1) as [Hlt (k1 & Hk1 & Hok1)]. split; [done|].
    destruct (decide (key1 = key)) as [->|Hne].
    + assert (l1 = l) as -> by congruence. exists k'. split; [apply lookup_insert_eq|done].
    + exists k1. split; [|by eapply klock_ok_frame]. rewrite lookup_insert_ne; [done|]. intros <-. apply Hne. by eapply Hi.
Qed.

(** A step after which nobody is concerned with the key. *)
Lemma kinv_drop key l k' km cs cs' :
  kinv (KWorld km cs) -> locks km !! key = Some l -> only_at key cs cs' ->
  (forall t c, cs' !! t = Some c -> cs !! t = Some c) -> count key cs' = 0 ->
  kinv (KWorld (drop_key key (set_klock l k' km)) cs').
Proof.
  intros [Hf Hl Hi] Hkey Ho Hnew Hz. pose proof (proj1 (count_zero key cs') Hz) as Hgone. constructor; cbn in *.
  - intros t c Hc. rewrite lookup_delete_ne by (intros H; by apply (Hgone t c Hc)). by apply (Hf t), Hnew.
  - intros key1 l1 [Hne H1]%lookup_delete_Some. destruct (Hl key1 l1 H1) as [Hlt (k1 & Hk1 & Hok1)]. split; [done|].
    exists k1. split; [|by eapply klock_ok_frame]. rewrite lookup_insert_ne; [done|]. intros <-. apply Hne. by eapply Hi.
  - intros key1 key2 l1 [_ H1]%lookup_delete_Some [_ H2]%lookup_delete_Some. by eapply Hi.
Qed.

Lemma only_at_insert key cs t c : c_key c = key -> (forall c0, cs !! t = Some c0 -> c_key c0 = key) -> only_at key cs (<[t := c]> cs).
Proof.
  intros Hc Hold t' c' Hne. destruct (decide (t' = t)) as [->|Hn]; [|by rewrite lookup_insert_ne].
  rewrite lookup_insert_eq. split; [intros H; apply Hold in H; congruence|intros [= <-]; congruence].
Qed.

Lemma only_at_delete key cs t c : cs !! t = Some c -> c_key c = key -> only_at key cs (delete t cs).
Proof.
  intros Ht Hc t' c' Hne. destruct (decide (t' = t)) as [->|Hn]; [|by rewrite lookup_delete_ne].
  rewrite lookup_delete_eq. split; [intros H; congruence|done].
Qed.

Lemma lookup_new (cs : gmap nat caller) t c t' c' key l : c_key c = key -> c_lock c = l ->
  <[t := c]> cs !! t' = Some c' -> cs !! t' = Some c' \/ (c_key c' = key /\ c_lock c' = l).
Proof. intros Hk Hl [[<- <-]|[_ H]]%lookup_insert_Some; [by right|by left]. Qed.

(** The object a caller found, and what is known of it. *)
Lemma kinv_caller x t key l p : kinv x -> callers x !! t = Some (MkCaller key l p) ->
  locks (km_of x) !! key = Some l /\ exists k, heap (km_of x) !! l = Some k /\ klock_ok (callers x) key k.
Proof. intros [Hf Hl _] Ht. pose proof (Hf t _ Ht) as Hk. cbn in Hk. split; [done|]. by apply Hl. Qed.

(** ** Every step keeps the invariant *)

Context {SL : Sem1Laws SM}.

Lemma klock_ok_enter cs t key l k : cs !! t = None -> klock_ok cs key k ->
  klock_ok (<[t := MkCaller key l Enters]> cs) key (MkKlock (Weighted k) (ref k + 1)).
Proof.
  intros Ht [Href Hpos Hown Hh Hw Hws Hb]. constructor; cbn in *; try done; try lia.
  - rewrite count_insert by done. unfold at_key. cbn. rewrite bool_decide_eq_true_2 by done. lia.
  - intros t' H. destruct (Hown t' H) as (l' & p & Hc & Hp). exists l', p. rewrite lookup_insert_ne by congruence. done.
  - intros t' l' [[_ [=]]|[_ H]]%lookup_insert_Some. by eapply Hh.
  - intros t' H. destruct (Hw t' H) as (? & l' & Hc). split; [done|]. exists l'. rewrite lookup_insert_ne by congruence. done.
  - intros t' l' [[_ [=]]|[_ H]]%lookup_insert_Some. by eapply Hws.
Qed.

Lemma klock_ok_new cs t key l : cs !! t = None -> count key cs = 0 ->
  klock_ok (<[t := MkCaller key l Enters]> cs) key (MkKlock s_new 1).
Proof.
  destruct sl_new as [Ho Hw]. intros Ht Hz. pose proof (proj1 (count_zero key cs) Hz) as Hgone. constructor; cbn in *; try done.
  - rewrite count_insert by done. unfold at_key. cbn. rewrite bool_decide_eq_true_2 by done. lia.
  - intros t'. by rewrite Ho.
  - intros t' l' [[_ [=]]|[_ H]]%lookup_insert_Some. by apply Hgone in H.
  - intros t'. by rewrite Hw.
  - intros t' l' [[_ [=]]|[_ H]]%lookup_insert_Some. by apply Hgone in H.
Qed.

(** A caller changes its phase: what has to be said of the semaphore. *)
Lemma klock_ok_phase cs t key l p p' k s :
  klock_ok cs key k -> cs !! t = Some (MkCaller key l p) ->
  (forall u, s_owner s = Some u -> (u = t /\ (p' = Holds \/ p' = Waits)) \/ (u <> t /\ s_owner (Weighted k) = Some u)) ->
  (forall u, u ∈ s_waiting s -> s_owner s <> Some u /\ ((u = t /\ p' = Waits) \/ (u <> t /\ u ∈ s_waiting (Weighted k)))) ->
  (p' = Holds -> s_owner s = Some t) -> (p' = Waits -> t ∈ s_waiting s \/ s_owner s = Some t) ->
  (forall u, u <> t -> s_owner (Weighted k) = Some u -> s_owner s = Some u) ->
  (forall u, u <> t -> u ∈ s_waiting (Weighted k) -> u ∈ s_waiting s) ->
  (s_waiting s <> ∅ -> s_owner s <> None) ->
  klock_ok (<[t := MkCaller key l p']> cs) key (MkKlock s (ref k)).
Proof.
  intros [Href Hpos Hown Hh Hw Hws Hb] Ht Ho Hwt Hp1 Hp2 Hko Hkw Hbusy. constructor; cbn; try done.
  - by rewrite (count_replace key cs t _ _ Ht).
  - intros u [[-> Hp]|[Hne Hu]]%Ho; [exists l, p'; by rewrite lookup_insert_eq|].
    rewrite lookup_insert_ne by done. by apply Hown.
  - intros u l' [[<- [= <- Hp]]|[Hne Hu]]%lookup_insert_Some; [by apply Hp1|]. apply Hko; [done|]. by eapply Hh.
  - intros u [? [[-> ->]|[Hne Hu]]]%Hwt; (split; [done|]); [exists l; apply lookup_insert_eq|].
    rewrite lookup_insert_ne by done. by destruct (Hw u Hu) as [_ ?].
  - intros u l' [[<- [= <- Hp]]|[Hne Hu]]%lookup_insert_Some; [by apply Hp2|]. destruct (Hws u l' Hu) as [H|H]; [left|right]; auto.
Qed.

Lemma klock_ok_leave cs t key l p k s :
  klock_ok cs key k -> cs !! t = Some (MkCaller key l p) -> ref k <> 1 ->
  (forall u, s_owner s = Some u -> u <> t /\ (s_owner (Weighted k) = Some u \/ u ∈ s_waiting (Weighted k))) ->
  (forall u, u ∈ s_waiting s -> u <> t /\ u ∈ s_waiting (Weighted k) /\ s_owner s <> Some u) ->
  (forall u, u <> t -> s_owner (Weighted k) = Some u -> s_owner s = Some u) ->
  (forall u, u <> t -> u ∈ s_waiting (Weighted k) -> u ∈ s_waiting s \/ s_owner s = Some u) ->
  (s_waiting s <> ∅ -> s_owner s <> None) ->
  klock_ok (delete t cs) key (MkKlock s (ref k - 1)).
Proof.
  intros [Href Hpos Hown Hh Hw Hws Hb] Ht Href1 Ho Hwt Hko Hkw Hbusy. constructor; cbn; try done; try lia.
  - rewrite (count_delete key cs t _ Ht) in Href. unfold at_key in Href. cbn in Href. rewrite bool_decide_eq_true_2 in Href by done. lia.
  - intros u [Hne [Hu|Hu]]%Ho; rewrite lookup_delete_ne by done; [by apply Hown|]. destruct (Hw u Hu) as (_ & l' & ?). eauto.
  - intros u l' [Hne Hu]%lookup_delete_Some. apply Hko; [done|]. by eapply Hh.
  - intros u (Hne & Hu & ?)%Hwt. split; [done|]. rewrite lookup_delete_ne by done. by destruct (Hw u Hu) as [_ ?].
  - intros u l' [Hne Hu]%lookup_delete_Some. destruct (Hws u l' Hu) as [H|H]; [by apply Hkw|right; auto].
Qed.

Lemma kinv_phase km cs t key l p p' k s :
  kinv (KWorld km cs) -> cs !! t = Some (MkCaller key l p) -> locks km !! key = Some l ->
  klock_ok (<[t := MkCaller key l p']> cs) key (MkKlock s (ref k)) ->
  kinv (KWorld (set_klock l (MkKlock s (ref k)) km) (<[t := MkCaller key l p']> cs)).
Proof.
  intros Hinv Ht Hl Hok. eapply kinv_at; [exact Hinv|done| | |exact Hok].
  - apply only_at_insert; [done|]. intros c0 H. by simplify_eq.
  - intros t' c'. by apply lookup_new.
Qed.

(** Counting a caller out, with or without the removal of the entry. *)
Lemma kinv_leave km cs t key l p k s :
  kinv (KWorld km cs) -> cs !! t = Some (MkCaller key l p) -> locks km !! key = Some l -> klock_ok cs key k ->
  (ref k <> 1 -> klock_ok (delete t cs) key (MkKlock s (ref k - 1))) ->
  let km' := set_klock l (MkKlock s (ref k - 1)) km in
  kinv (KWorld (if ref k - 1 =? 0 then drop_key key km' else km') (delete t cs)).
Proof.
  intros Hinv Ht Hl Hok Hrest. cbn. pose proof (ko_ref _ _ _ Hok) as Href.
  rewrite (count_delete key cs t _ Ht) in Href. unfold at_key in Href. cbn in Href. rewrite bool_decide_eq_true_2 in Href by done.
  assert (Ho : only_at key cs (delete t cs)) by by eapply only_at_delete.
  destruct (Z.eqb_spec (ref k - 1) 0).
  - eapply kinv_drop; [exact Hinv|done|done| |lia]. by intros t' c' [_ ?]%lookup_delete_Some.
  - eapply kinv_at; [exact Hinv|done|done| |apply Hrest; lia]. intros t' c' [_ ?]%lookup_delete_Some. by left.
Qed.

Lemma kinv_enter km cs t key km' l : kinv (KWorld km cs) -> cs !! t = None -> Lock_enter key km = (km', l) ->
  kinv (KWorld km' (<[t := MkCaller key l Enters]> cs)).
Proof.
  intros Hinv Ht E. unfold Lock_enter in E. destruct (locks km !! key) as [l0|] eqn:Hl; cbn in E.
  - destruct (ki_locks _ Hinv key l0 Hl) as [_ (k & Hk & Hok)]. cbn in Hk. rewrite Hk in E. cbn in E. injection E as <- <-.
    eapply kinv_at; [exact Hinv|done| | |by apply klock_ok_enter].
    + apply only_at_insert; [done|]. intros c0 H. congruence.
    + intros t' c'. by apply lookup_new.
  - injection E as <- <-. destruct Hinv as [Hf Hlk Hi]. cbn in *.
    assert (Hno : forall t c, cs !! t = Some c -> c_key c <> key) by (intros t' c Hc Hkey; specialize (Hf t' c Hc); congruence).
    assert (Ho : only_at key cs (<[t := MkCaller key (next km) Enters]> cs)) by (apply only_at_insert; [done|congruence]).
    constructor; cbn.
    + intros t' c [[<- <-]|[_ Hc]]%lookup_insert_Some; [apply lookup_insert_eq|]. pose proof (Hno _ _ Hc).
      rewrite lookup_insert_ne by done. by apply (Hf t').
    + intros key1 l1 [[<- <-]|[Hne H1]]%lookup_insert_Some.
      * split; [lia|]. eexists. split; [apply lookup_insert_eq|]. apply klock_ok_new; [done|by apply count_zero].
      * destruct (Hlk key1 l1 H1) as [Hlt (k1 & Hk1 & Hok1)]. split; [lia|]. exists k1.
        rewrite lookup_insert_ne by lia. split; [done|]. by eapply klock_ok_frame.
    + intros key1 key2 l1 [[<- <-]|[? H1]]%lookup_insert_Some [[<- H2]|[? H2]]%lookup_insert_Some; try done.
      * apply Hlk in H2 as [? _]. lia.
      * subst l1. apply Hlk in H1 as [? _]. lia.
      * by eapply Hi.
Qed.

(** A caller that only entered or failed is unknown to the semaphore. *)
Lemma klock_ok_idle cs t key l p k :
  klock_ok cs key k -> cs !! t = Some (MkCaller key l p) -> p = Enters \/ p = Fails ->
  s_owner (Weighted k) <> Some t /\ t ∉ s_waiting (Weighted k).
Proof.
  intros [_ _ Hown _ Hw _ _] Ht Hp. split.
  - intros (l' & p' & H & Hp')%Hown. simplify_eq. naive_solver.
  - intros (_ & l' & H)%Hw. simplify_eq. naive_solver.
Qed.

Lemma kinv_acquire km cs t key l k s b :
  kinv (KWorld km cs) -> cs !! t = Some (MkCaller key l Enters) -> heap km !! l = Some k -> s_acquire t (Weighted k) = (s, b) ->
  kinv (KWorld (set_klock l (MkKlock s (ref k)) km) (<[t := MkCaller key l (if b then Holds else Waits)]> cs)).
Proof.
  intros Hinv Ht Hk E. destruct (kinv_caller _ _ _ _ _ Hinv Ht) as [Hl (k' & Hk' & Hok)]. cbn in *. simplify_eq.
  destruct (klock_ok_idle _ _ _ _ _ _ Hok Ht ltac:(by left)) as [Hno Hnw]. pose proof (ko_waiting _ _ _ Hok) as Hwt.
  pose proof (ko_busy _ _ _ Hok) as Hb.
  eapply kinv_phase; [exact Hinv|exact Ht|done|]. destruct b.
  - apply sl_acquire_now in E as (E1 & E2 & E3). eapply klock_ok_phase; [exact Hok|exact Ht|..]; rewrite ?E2, ?E3; try done.
    + intros u [= <-]. left. naive_solver.
    + intros u Hu. split; [congruence|]. right. split; [congruence|done].
    + intros u _ H. congruence.
  - apply sl_acquire_queue in E as (E1 & E2 & E3). eapply klock_ok_phase; [exact Hok|exact Ht|..]; rewrite ?E2, ?E3; try done.
    + intros u H. right. split; [congruence|done].
    + intros u [->%elem_of_singleton|Hu]%elem_of_union; [by split; [|left]|]. split; [by apply Hwt|].
      right. split; [congruence|done].
    + intros _. left. set_solver.
    + set_solver.
Qed.

Lemma set_klock_id l k km : heap km !! l = Some k -> set_klock l k km = km.
Proof. intros H. unfold set_klock. rewrite insert_id by done. by destruct km. Qed.

Lemma klock_eta k : MkKlock (Weighted k) (ref k) = k.
Proof. by destruct k. Qed.

Lemma kinv_same km cs t key l p p' k :
  kinv (KWorld km cs) -> cs !! t = Some (MkCaller key l p) -> heap km !! l = Some k ->
  (klock_ok cs key k -> klock_ok (<[t := MkCaller key l p']> cs) key (MkKlock (Weighted k) (ref k))) ->
  kinv (KWorld km (<[t := MkCaller key l p']> cs)).
Proof.
  intros Hinv Ht Hk Hstep. destruct (kinv_caller _ _ _ _ _ Hinv Ht) as [Hl (k' & Hk' & Hok)]. cbn in *. simplify_eq.
  rewrite <-(set_klock_id l k km Hk), <-(klock_eta k) at 1. eapply kinv_phase; [exact Hinv|exact Ht|done|]. auto.
Qed.

Lemma kinv_refused km cs t key l :
  kinv (KWorld km cs) -> cs !! t = Some (MkCaller key l Enters) -> kinv (KWorld km (<[t := MkCaller key l Fails]> cs)).
Proof.
  intros Hinv Ht. destruct (kinv_caller _ _ _ _ _ Hinv Ht) as [_ (k & Hk & _)]. cbn in *.
  eapply kinv_same; [exact Hinv|exact Ht|exact Hk|]. intros Hok.
  destruct (klock_ok_idle _ _ _ _ _ _ Hok Ht ltac:(by left)) as [Hno Hnw]. pose proof (ko_waiting _ _ _ Hok) as Hwt.
  eapply klock_ok_phase; [exact Hok|exact Ht|..]; try done.
  - intros u H. right. split; [congruence|done].
  - intros u H. split; [by apply Hwt|]. right. split; [congruence|done].
  - by apply (ko_busy _ _ _ Hok).
Qed.

Lemma kinv_granted km cs t key l k :
  kinv (KWorld km cs) -> cs !! t = Some (MkCaller key l Waits) -> heap km !! l = Some k -> s_owner (Weighted k) = Some t ->
  kinv (KWorld km (<[t := MkCaller key l Holds]> cs)).
Proof.
  intros Hinv Ht Hk Ho. eapply kinv_same; [exact Hinv|exact Ht|exact Hk|]. intros Hok.
  pose proof (ko_waiting _ _ _ Hok) as Hwt. eapply klock_ok_phase; [exact Hok|exact Ht|..]; try done.
  - intros u H. left. split; [congruence|by left].
  - intros u H. destruct (Hwt u H) as [? _]. split; [done|]. right. split; [congruence|done].
  - by apply (ko_busy _ _ _ Hok).
Qed.

Lemma kinv_cancel km cs t key l k s b :
  kinv (KWorld km cs) -> cs !! t = Some (MkCaller key l Waits) -> heap km !! l = Some k -> s_cancel t (Weighted k) = (s, b) ->
  kinv (KWorld (set_klock l (MkKlock s (ref k)) km) (<[t := MkCaller key l (if b then Holds else Fails)]> cs)).
Proof.
  intros Hinv Ht Hk E. destruct b.
  - apply sl_cancel_late in E as [E ->]. rewrite klock_eta, set_klock_id by done. by eapply kinv_granted.
  - destruct (kinv_caller _ _ _ _ _ Hinv Ht) as [Hl (k' & Hk' & Hok)]. cbn in *. simplify_eq.
    pose proof (ko_waiting _ _ _ Hok) as Hwt. pose proof (ko_waits _ _ _ Hok t l Ht) as Hws. pose proof (ko_busy _ _ _ Hok) as Hb.
    assert (Hsome : s_owner (Weighted k) <> None).
    { destruct Hws as [H|H]; [apply Hb; set_solver|congruence]. }
    apply sl_cancel in E as (E1 & E2 & E3); [|done].
    eapply kinv_phase; [exact Hinv|exact Ht|done|]. eapply klock_ok_phase; [exact Hok|exact Ht|..]; rewrite ?E2, ?E3; try done.
    + intros u H. right. split; [congruence|done].
    + intros u [Hu Hne]%elem_of_difference. split; [by apply Hwt|]. right. set_solver.
    + set_solver.
Qed.

Lemma kinv_fail km cs t key l km' :
  kinv (KWorld km cs) -> cs !! t = Some (MkCaller key l Fails) -> Lock_fail key l km = Some km' ->
  kinv (KWorld km' (delete t cs)).
Proof.
  intros Hinv Ht E. destruct (kinv_caller _ _ _ _ _ Hinv Ht) as [Hl (k & Hk & Hok)]. cbn in *.
  unfold Lock_fail in E. rewrite Hk in E. cbn in E. case_match eqn:Hneg; [done|]. injection E as <-.
  destruct (klock_ok_idle _ _ _ _ _ _ Hok Ht ltac:(by right)) as [Hno Hnw]. pose proof (ko_waiting _ _ _ Hok) as Hwt.
  eapply kinv_leave; [exact Hinv|exact Ht|done|exact Hok|]. intros Hr.
  eapply klock_ok_leave; [exact Hok|exact Ht|done|..]; try done.
  - intros u H. split; [congruence|by left].
  - intros u H. split_and!; [congruence|done|by apply Hwt].
  - intros u _ H. by left.
  - apply (ko_busy _ _ _ Hok).
Qed.

Lemma kinv_unlock km cs t key l km' :
  kinv (KWorld km cs) -> cs !! t = Some (MkCaller key l Holds) -> Unlock key km = Some km' ->
  kinv (KWorld km' (delete t cs)).
Proof.
  intros Hinv Ht E. destruct (kinv_caller _ _ _ _ _ Hinv Ht) as [Hl (k & Hk & Hok)]. cbn in *.
  unfold Unlock in E. rewrite Hl in E. cbn in E. rewrite Hk in E. cbn in E.
  destruct (s_release (Weighted k)) as [s|] eqn:Er; [|done]. cbn in E. case_match eqn:Hneg; [done|]. injection E as <-.
  pose proof (ko_holds _ _ _ Hok t l Ht) as Ho. pose proof (ko_waiting _ _ _ Hok) as Hwt.
  eapply kinv_leave; [exact Hinv|exact Ht|done|exact Hok|]. intros Hr.
  apply sl_release in Er as [(E1 & E2 & E3)|(c & E1 & E2 & E3)];
    (eapply klock_ok_leave; [exact Hok|exact Ht|done|..]); rewrite ?E1, ?E2, ?E3; try done.
  - intros u Hne H. congruence.
  - intros u [= <-]. destruct (Hwt c E1) as [? _]. split; [congruence|by right].
  - intros u [Hu Hne]%elem_of_difference. destruct (Hwt u Hu) as [? _]. split_and!; [congruence|done|].
    intros [= ->]. by apply Hne, elem_of_singleton.
  - intros u Hne H. congruence.
  - intros u Hne H. destruct (decide (u = c)) as [->|]; [by right|left].
    apply elem_of_difference. by rewrite elem_of_singleton.
Qed.

Lemma kinv_step x x' : kstep x x' -> kinv x -> kinv x'.
Proof.
  destruct 1; eauto using kinv_enter, kinv_acquire, kinv_refused, kinv_granted, kinv_cancel, kinv_fail, kinv_unlock.
Qed.

Lemma kinv_open : kinv kopen.
Proof. by constructor. Qed.

Lemma kinv_reachable x : rtc kstep kopen x -> kinv x.
Proof. intros H. eapply (rtc_preserves kstep kinv); [apply kinv_step|exact H|apply kinv_open]. Qed.

(** C21: in every interleaving of callers that lock, wait, give up and unlock, at most
    one caller holds a key; the table has an entry for exactly the keys that somebody
    holds, waits for or is about to give up; neither [Unlock] by the holder nor the
    failing [Lock] panics; and while somebody waits for a key, somebody holds it or
    has just been granted it. *)
Theorem keyed_lock_exclusive x : rtc kstep kopen x ->
  (forall t t' key l l', callers x !! t = Some (MkCaller key l Holds) -> callers x !! t' = Some (MkCaller key l' Holds) -> t = t') /\
  (forall key, is_Some (locks (km_of x) !! key) <-> exists t c, callers x !! t = Some c /\ c_key c = key) /\
  (forall t key l, callers x !! t = Some (MkCaller key l Holds) -> Unlock key (km_of x) <> None) /\
  (forall t key l, callers x !! t = Some (MkCaller key l Fails) -> Lock_fail key l (km_of x) <> None) /\
  (forall t key l, callers x !! t = Some (MkCaller key l Waits) ->
     exists u k p, heap (km_of x) !! l = Some k /\ s_owner (Weighted k) = Some u /\
       callers x !! u = Some (MkCaller key l p) /\ (p = Holds \/ p = Waits)).
Proof.
  intros H%kinv_reachable. split_and!.
  - intros t t' key l l' Ht Ht'. destruct (kinv_caller _ _ _ _ _ H Ht) as [_ (k & _ & Hok)].
    apply (ko_holds _ _ _ Hok) in Ht, Ht'. congruence.
  - intros key. split.
    + intros [l Hl]. destruct (ki_locks _ H _ _ Hl) as [_ (k & _ & Hok)].
      destruct (decide (map_Exists (fun _ c => c_key c = key) (callers x))) as [(t & c & ?)|Hno]; [eauto|exfalso].
      pose proof (ko_pos _ _ _ Hok) as Hp. rewrite (ko_ref _ _ _ Hok), (proj2 (count_zero key (callers x))) in Hp; [lia|].
      intros t c Hc Hk. apply Hno. by exists t, c.
    + intros (t & c & Hc & <-). rewrite (ki_found _ H _ _ Hc). eauto.
  - intros t key l Ht. destruct (kinv_caller _ _ _ _ _ H Ht) as [Hl (k & Hk & Hok)]. unfold Unlock. rewrite Hl. cbn. rewrite Hk. cbn.
    destruct (s_release (Weighted k)) as [s|] eqn:Er; cbn.
    + pose proof (ko_pos _ _ _ Hok). by destruct (Z.ltb_spec (ref k - 1) 0); [lia|].
    + apply sl_release_panics in Er. rewrite (ko_holds _ _ _ Hok _ _ Ht) in Er. done.
  - intros t key l Ht. destruct (kinv_caller _ _ _ _ _ H Ht) as [_ (k & Hk & Hok)]. unfold Lock_fail. rewrite Hk. cbn.
    pose proof (ko_pos _ _ _ Hok). by destruct (Z.ltb_spec (ref k - 1) 0); [lia|].
  - intros t key l Ht. destruct (kinv_caller _ _ _ _ _ H Ht) as [Hl (k & Hk & Hok)].
    assert (exists u, s_owner (Weighted k) = Some u) as [u Hu].
    { destruct (s_owner (Weighted k)) as [u|] eqn:Ho; [eauto|]. exfalso.
      destruct (ko_waits _ _ _ Hok t l Ht) as [Hw|?]; [|congruence]. apply (ko_busy _ _ _ Hok); [|done].
      intros E. rewrite E in Hw. by apply not_elem_of_empty in Hw. }
    destruct (ko_owner _ _ _ Hok u Hu) as (l' & p & Hc & Hp). exists u, k, p. split_and!; try done.
    pose proof (ki_found _ H _ _ Hc) as Hl'. cbn in Hl'. congruence.
Qed.

End kmutex.

Arguments klock _ : clear implicits.
Arguments keyMutex _ : clear implicits.

(** A semaphore that keeps its promises: a queue served in order. *)
Definition fifo_sem : Sem1 := {|
  sem1 := option nat * list nat;
  s_new := (None, []);
  s_acquire c s := match s.1 with None => ((Some c, s.2), true) | Some o => ((Some o, (s.2 ++ [c])%list), false) end;
  s_cancel c s := if decide (s.1 = Some c) then (s, true) else ((s.1, filter (fun d => d <> c) s.2), false);
  s_release s := match s.1, s.2 with
    | None, _ => None
    | Some _, [] => Some (None, [])
    | Some _, c :: q => Some (Some c, filter (fun d => d <> c) q)
    end;
  s_owner s := s.1;
  s_waiting s := list_to_set s.2;
|}.

Lemma fifo_filter (c : nat) (q : list nat) : list_to_set (filter (fun d => d <> c) q) = (list_to_set q ∖ {[c]} : gset nat).
Proof.
  apply set_eq. intros x. rewrite elem_of_list_to_set, list_elem_of_filter, elem_of_difference, elem_of_list_to_set, elem_of_singleton.
  tauto.
Qed.

#[export] Instance fifo_laws : Sem1Laws fifo_sem.
Proof.
  constructor; cbn.
  - done.
  - intros c [[o|] q] s'; cbn; intros; by simplify_eq.
  - intros c [[o|] q] s'; cbn; intros; simplify_eq. split_and!; [done|done|set_solver].
  - intros c s s' H. case_decide; by simplify_eq.
  - intros c [o q] s' Ho H. case_decide; simplify_eq. split_and!; [done|done|apply fifo_filter].
  - intros [[o|] [|c q]]; cbn; naive_solver.
  - intros [[o|] [|c q]] s' [= <-]; cbn; [by left|right]. exists c. split_and!; [set_solver|done|].
    rewrite fifo_filter. set_solver.
Qed.

Abbreviation fs o q := ((o : option nat, q : list nat) : @sem1 fifo_sem).

(** Two callers of one key, the second asleep. *)
Abbreviation key_taken := (@KWorld fifo_sem
  (@MkKM fifo_sem {["k" := 0%nat]} {[0%nat := @MkKlock fifo_sem (fs (Some 0%nat) [1%nat]) 2]} 1)
  (<[1%nat := MkCaller "k" 0 Waits]> {[0%nat := MkCaller "k" 0 Holds]})).

Lemma keyed_lock_exclusive_witness : exists u k p, heap (km_of key_taken) !! 0%nat = Some k /\ s_owner (Weighted k) = Some u /\
  callers key_taken !! u = Some (MkCaller "k" 0 p) /\ (p = Holds \/ p = Waits).
Proof.
  apply (keyed_lock_exclusive key_taken) with (t := 1%nat); [|done].
  apply (rtc_l _ _ (@KWorld fifo_sem (@MkKM fifo_sem {["k" := 0%nat]} {[0%nat := @MkKlock fifo_sem (fs None []) 1]} 1)
    {[0%nat := MkCaller "k" 0 Enters]})); [by apply (ks_enter _ ∅ 0 "k")|].
  apply (rtc_l _ _ (@KWorld fifo_sem (@MkKM fifo_sem {["k" := 0%nat]} {[0%nat := @MkKlock fifo_sem (fs (Some 0%nat) []) 1]} 1)
    {[0%nat := MkCaller "k" 0 Holds]})).
  { exact (ks_acquire (SM := fifo_sem) (MkKM {["k" := 0%nat]} {[0%nat := MkKlock (fs None []) 1]} 1)
      {[0%nat := MkCaller "k" 0 Enters]} 0 "k" 0 _ (fs (Some 0%nat) []) true eq_refl eq_refl eq_refl). }
  apply (rtc_l _ _ (@KWorld fifo_sem (@MkKM fifo_sem {["k" := 0%nat]} {[0%nat := @MkKlock fifo_sem (fs (Some 0%nat) []) 2]} 1)
    (<[1%nat := MkCaller "k" 0 Enters]> {[0%nat := MkCaller "k" 0 Holds]}))); [by apply (ks_enter _ _ 1 "k")|].
  apply rtc_once.
  exact (ks_acquire (SM := fifo_sem) (MkKM {["k" := 0%nat]} {[0%nat := MkKlock (fs (Some 0%nat) []) 2]} 1)
      (<[1%nat := MkCaller "k" 0 Enters]> {[0%nat := MkCaller "k" 0 Holds]}) 1 "k" 0 _ (fs (Some 0%nat) [1%nat]) false eq_refl eq_refl eq_refl).
Defined.

(** ** The lock by key that counts without a mutex (reflock.go) *)

Module RefCount.

Record countRefLock : Type := MkCount { mu : bool; count : Z }.
Record RefCountLock : Type := MkRefs { activeLocks : gmap string nat; objects : gmap nat countRefLock; fresh : nat }.

Definition NewRefCountLock : RefCountLock := MkRefs ∅ ∅ 0.

(** [LoadOrStore] of a new object. *)
Definition load_or_store (key : string) (r : RefCountLock) : RefCountLock * nat :=
  match activeLocks r !! key with
  | Some p => (r, p)
  | None => (MkRefs (<[key := fresh r]> (activeLocks r)) (<[fresh r := MkCount false 0]> (objects r)) (S (fresh r)), fresh r)
  end.

Definition add_count (d : Z) (p : nat) (r : RefCountLock) : RefCountLock :=
  MkRefs (activeLocks r) (alter (fun o => MkCount (mu o) (count o + d)) p (objects r)) (fresh r).

(** [None]: the mutex is taken, the caller would sleep. *)
Definition mu_lock (p : nat) (r : RefCountLock) : option RefCountLock :=
  o ← objects r !! p;
  if mu o then None else Some (MkRefs (activeLocks r) (<[p := MkCount true (count o)]> (objects r)) (fresh r)).

(** [None]: unlock of an unlocked mutex, a fatal error. *)
Definition mu_unlock (p : nat) (r : RefCountLock) : option RefCountLock :=
  o ← objects r !! p;
  if mu o then Some (MkRefs (activeLocks r) (<[p := MkCount false (count o)]> (objects r)) (fresh r)) else None.

Definition remove_key (key : string) (r : RefCountLock) : RefCountLock :=
  MkRefs (delete key (activeLocks r)) (objects r) (fresh r).

Definition count_of (p : nat) (r : RefCountLock) : Z := match objects r !! p with Some o => count o | None => 0 end.

(** Both operations without interruption. *)
Definition rc_Lock (key : string) (r : RefCountLock) : option RefCountLock :=
  let '(r1, p) := load_or_store key r in mu_lock p (add_count 1 p r1).

Definition rc_Unlock (key : string) (r : RefCountLock) : option RefCountLock :=
  let '(r1, p) := load_or_store key r in
  r2 ← mu_unlock p r1;
  let r3 := add_count (-1) p r2 in
  Some (if count_of p r3 <=? 0 then remove_key key r3 else r3).

(** Alone, a caller locks, excludes the next one, and leaves no entry behind. *)
Lemma lock_alone key : exists r, rc_Lock key NewRefCountLock = Some r /\ rc_Lock key r = None /\
  exists r', rc_Unlock key r = Some r' /\ activeLocks r' = ∅.
Proof.
  exists (MkRefs {[key := 0%nat]} {[0%nat := MkCount true 1]} 1). split; [done|].
  unfold rc_Lock, rc_Unlock, load_or_store. cbn [activeLocks]. rewrite lookup_singleton_eq. split; [done|].
  exists (remove_key key (MkRefs {[key := 0%nat]} {[0%nat := MkCount false 0]} 1)). split; [done|]. apply delete_singleton_eq.
Qed.

(** The count and the removal are separate steps: a caller that finds the object
    while its holder leaves takes a lock that is then removed, and the next caller
    takes another one.  Two callers hold the key. *)
Theorem count_does_not_exclude key :
  exists r1 p r2 r3 r4 r5,
    rc_Lock key NewRefCountLock = Some r1 /\          (* A holds *)
    mu_unlock p r1 = Some r2 /\                     (* A leaves: unlocks, counts itself out *)
    load_or_store key (add_count (-1) p r2) = (add_count (-1) p r2, p) /\ count_of p (add_count (-1) p r2) <= 0 /\
    mu_lock p (add_count 1 p (add_count (-1) p r2)) = Some r3 /\   (* B holds [p] *)
    rc_Lock key (remove_key key r3) = Some r4 /\      (* A removes the entry; C locks *)
    activeLocks r4 !! key = Some r5 /\ r5 <> p /\
    mu <$> objects r4 !! p = Some true /\ mu <$> objects r4 !! r5 = Some true.
Proof.
  exists (MkRefs {[key := 0%nat]} {[0%nat := MkCount true 1]} 1), 0%nat, (MkRefs {[key := 0%nat]} {[0%nat := MkCount false 1]} 1),
    (MkRefs {[key := 0%nat]} {[0%nat := MkCount true 1]} 1),
    (MkRefs {[key := 1%nat]} (<[1%nat := MkCount true 1]> {[0%nat := MkCount true 1]}) 2), 1%nat.
  split_and!; try done.
  - unfold load_or_store. cbn [activeLocks add_count]. by rewrite lookup_singleton_eq.
  - unfold rc_Lock, load_or_store, remove_key. cbn. by rewrite delete_singleton_eq.
  - cbn. apply lookup_singleton_eq.
Qed.

End RefCount.

(** ** Read-write locks by key that expire (multilock.go) *)

Module Multi.

Record Options : Type := MkOptions { CheckInterval : Z; ExpiredInSecond : Z }.
Definition NewMultiLockOptions : Options := MkOptions (10 * second) 3600.

Record rwLock : Type := MkRw { writer : bool; readers : nat; updateAt : Z }.
Record MultiLock : Type := MkMulti { table : gmap string nat; objects : gmap nat rwLock; fresh : nat; options : Options }.

Definition NewMultiLock (o : option Options) : MultiLock := MkMulti ∅ ∅ 0 (default NewMultiLockOptions o).

(** [now] in seconds. *)
Definition ml_Get (now : Z) (key : string) (m : MultiLock) : MultiLock * nat :=
  match table m !! key with
  | Some p => (m, p)
  | None => (MkMulti (<[key := fresh m]> (table m)) (<[fresh m := MkRw false 0 now]> (objects m)) (S (fresh m)) (options m), fresh m)
  end.

Definition set_object (p : nat) (o : rwLock) (m : MultiLock) : MultiLock :=
  MkMulti (table m) (<[p := o]> (objects m)) (fresh m) (options m).

(** [None]: the caller would sleep. *)
Definition ml_Lock (p : nat) (m : MultiLock) : option MultiLock :=
  o ← objects m !! p;
  if writer o || negb (readers o =? 0)%nat then None else Some (set_object p (MkRw true 0 (updateAt o)) m).
Definition ml_RLock (p : nat) (m : MultiLock) : option MultiLock :=
  o ← objects m !! p;
  if writer o then None else Some (set_object p (MkRw false (S (readers o)) (updateAt o)) m).
Definition ml_LockAt (now : Z) (p : nat) (m : MultiLock) : option MultiLock :=
  m' ← ml_RLock p m;
  o ← objects m' !! p;
  Some (set_object p (MkRw (writer o) (readers o) now) m').
Definition ml_RUnlock (p : nat) (m : MultiLock) : option MultiLock :=
  o ← objects m !! p;
  match readers o with O => None | S n => Some (set_object p (MkRw (writer o) n (updateAt o)) m) end.
Definition UnlockAt := ml_RUnlock.
Definition ml_Unlock (p : nat) (m : MultiLock) : option MultiLock :=
  o ← objects m !! p;
  if writer o then Some (set_object p (MkRw false (readers o) (updateAt o)) m) else None.

Definition is_expired (now : Z) (m : MultiLock) (o : rwLock) : bool := ExpiredInSecond (options m) <? now - updateAt o.

(** One call of the function [Range] gets in [loop]: the check with a read lock, the
    second check and the removal with the write lock.  [None]: it sleeps. *)
Definition loop_visit (now now' : Z) (key : string) (p : nat) (m : MultiLock) : option MultiLock :=
  m1 ← ml_RLock p m;
  o ← objects m1 !! p;
  m2 ← ml_RUnlock p m1;
  if is_expired now m1 o then
    m3 ← ml_Lock p m2;
    o3 ← objects m3 !! p;
    let m4 := if is_expired now' m3 o3 then MkMulti (delete key (table m3)) (objects m3) (fresh m3) (options m3) else m3 in
    ml_Unlock p m4
  else Some m2.

Lemma RLock_RUnlock p m o : objects m !! p = Some o -> writer o = false ->
  exists m1, ml_RLock p m = Some m1 /\ objects m1 !! p = Some (MkRw false (S (readers o)) (updateAt o)) /\ ml_RUnlock p m1 = Some m /\
    options m1 = options m.
Proof.
  intros Ho Hw. unfold ml_RLock, ml_RUnlock. rewrite Ho. cbn. rewrite Hw. eexists. split; [done|]. cbn. rewrite lookup_insert_eq. cbn.
  split_and!; try done. unfold set_object. cbn. rewrite insert_insert_eq, insert_id; [by destruct m|].
  destruct o. cbn in *. congruence.
Qed.

(** A lock taken within the time to expire keeps its entry. *)
Theorem recent_lock_kept now now' key p m o m' :
  objects m !! p = Some o -> now - updateAt o <= ExpiredInSecond (options m) ->
  loop_visit now now' key p m = Some m' -> m' = m.
Proof.
  intros Ho Hrec. unfold loop_visit. destruct (writer o) eqn:Hw.
  { unfold ml_RLock. rewrite Ho. cbn. by rewrite Hw. }
  destruct (RLock_RUnlock p m o Ho Hw) as (m1 & E1 & E2 & E3 & E4). rewrite E1. cbn. rewrite E2. cbn. rewrite E3. cbn.
  unfold is_expired at 1. rewrite E4. cbn. destruct (Z.ltb_spec (ExpiredInSecond (options m)) (now - updateAt o)); [lia|]. congruence.
Qed.

(** Between [Get] and [Lock] the entry can expire: the caller then locks an object
    nobody else finds, and the next caller locks another one for the same key. *)
Theorem expired_lock_split key :
  let '(m0, p) := ml_Get 0 key (NewMultiLock None) in
  exists m1 m2 m3 q m4,
    loop_visit 3601 3601 key p m0 = Some m1 /\ ml_Lock p m1 = Some m2 /\
    ml_Get 3601 key m2 = (m3, q) /\ q <> p /\ ml_Lock q m3 = Some m4 /\
    writer <$> objects m4 !! p = Some true /\ writer <$> objects m4 !! q = Some true.
Proof.
  cbn.
  exists (MkMulti ∅ {[0%nat := MkRw false 0 0]} 1 NewMultiLockOptions), (MkMulti ∅ {[0%nat := MkRw true 0 0]} 1 NewMultiLockOptions),
    (MkMulti {[key := 1%nat]} (<[1%nat := MkRw false 0 3601]> {[0%nat := MkRw true 0 0]}) 2 NewMultiLockOptions), 1%nat,
    (MkMulti {[key := 1%nat]} (<[1%nat := MkRw true 0 3601]> {[0%nat := MkRw true 0 0]}) 2 NewMultiLockOptions).
  split_and!; try done.
  exact (f_equal (fun t => Some (MkMulti t {[0%nat := MkRw false 0 0]} 1 NewMultiLockOptions)) (delete_singleton_eq key 0%nat)).
Qed.

End Multi.
