(* ===== verification/CletFlow.v ===== *)
(** * The workflow engine of the Cubelet
    (Cubelet/plugins/workflow/engine.go, plugins/workflow/plugin/plugin.go)

    A request to create or destroy a sandbox runs the steps of a workflow one after
    the other; the actions of a step (network, storage, control group, sandbox ...)
    run at the same time.  A failed creation is undone by the workflow that destroys,
    a failed destruction is handed to the clean-up flow.

    The actions are code behind the interface [Flow]: they act on a state [W] and
    return, fail or panic.  The actions of a step are taken in the order in which they
    end, an argument; whether the context has ended, at which point, is one too. *)
From S2P Require Import Prelude GoStrings CletSem.

Open Scope string_scope.
Open Scope Z_scope.

(** ** Errors *)

Definition ErrorCode_Unknown : Z := -1.
Definition ErrorCode_ConcurrentFailed : Z := 130513.
Definition ErrorCode_PreConditionFailed : Z := 130568.

Inductive ctx_error : Type := Canceled | DeadlineExceeded.

(** An error of the package [ret] has a code; others have none. *)
Inductive error : Type :=
  | RetError (code : Z) (msg : string)
  | PlainError (msg : string)
  | CtxError (c : ctx_error).

#[export] Instance ctx_error_eq_dec : EqDecision ctx_error.
Proof. solve_decision. Defined.
#[export] Instance error_eq_dec : EqDecision error.
Proof. solve_decision. Defined.

Definition IsErrorCode (e : error) (c : Z) : bool := match e with RetError code _ => code =? c | _ => false end.

(** ** Requests *)

Record CreateContext : Type := MkCreate { c_SandboxID : string; Failover : bool }.

(** [with_failover] and [with_created] are the values put into the context. *)
Record DestroyContext : Type := MkDestroy {
  d_SandboxID : string; IsRollBack : bool; d_RequestID : string; with_failover : bool; with_created : bool;
}.

Definition flow_init : string := "init".
Definition flow_create : string := "create".
Definition flow_destroy : string := "destroy".
Definition flow_cleanup : string := "cleanup".
Definition LimiterId : string := "workflow-limiter".
Definition WorkflowID : string := "workflow".

(** What is done, with its argument: the string [do] and the argument [opts] of [run],
    which always belong together. *)
Inductive op : Type :=
  | OpInit
  | OpCreate (c : CreateContext)
  | OpDestroy (d : DestroyContext)
  | OpCleanup (sandbox : option string).

Definition op_name (o : op) : string :=
  match o with OpInit => flow_init | OpCreate _ => flow_create | OpDestroy _ => flow_destroy | OpCleanup _ => flow_cleanup end.

Section engine.
Context {W : Type}.

Inductive outcome : Type := Returns (e : option error) | Panics (msg : string).

(** An action sees whether its context has ended. *)
Definition action : Type := bool -> W -> W * outcome.

Record Flow : Type := MkFlow {
  ID : string; Init : action; Create : CreateContext -> action; Destroy : DestroyContext -> action;
  CleanUp : option string -> action;
}.

Record Step : Type := MkStep { s_Name : string; Actions : list Flow }.
Record Workflow : Type := MkWorkflow { Name : string; MaxConcurrent : Z; w_Limiter : Limiter; Steps : list Step }.
Record Engine : Type := MkEngine { workflows : gmap string Workflow; cleanupFlow : option Flow }.

Definition AppendFlow (f : Flow) (s : Step) : Step := MkStep (s_Name s) (Actions s ++ [f]).
Definition AppendStep (s : Step) (w : Workflow) : Workflow := MkWorkflow (Name w) (MaxConcurrent w) (w_Limiter w) (Steps w ++ [s]).
Definition AddFlow (k : string) (f : Workflow) (e : Engine) : Engine := MkEngine (<[k := f]> (workflows e)) (cleanupFlow e).
Definition AddCleaupFlow (f : Flow) (e : Engine) : Engine := MkEngine (workflows e) (Some f).

Definition with_limiter (l : Limiter) (w : Workflow) : Workflow := MkWorkflow (Name w) (MaxConcurrent w) l (Steps w).

(** [None] is the panic of the semaphore. *)
Definition SetLimit (limit : Z) (w : Workflow) : option Workflow :=
  let w' := MkWorkflow (Name w) limit (w_Limiter w) (Steps w) in
  let oldLimit := Limiter_Limit (w_Limiter w) in
  if oldLimit <? 0 then Some w'
  else if negb (oldLimit =? limit) then l ← Limiter_SetLimit limit (w_Limiter w); Some (with_limiter l w')
  else Some w'.

Definition SetFlowLimit (name : string) (limit : Z) (e : Engine) : option Engine :=
  match workflows e !! name with
  | None => Some e
  | Some w => w' ← SetLimit limit w; Some (MkEngine (<[name := w']> (workflows e)) (cleanupFlow e))
  end.

Definition GetFlowOnFlyingRequests (name : string) (e : Engine) : Z :=
  match workflows e !! name with Some w => Current (w_Limiter w) | None => 0 end.

Definition GetFlowPeakRequests (name : string) (e : Engine) : Z * Engine :=
  match workflows e !! name with
  | Some w => let '(p, l) := Peak (w_Limiter w) in (p, MkEngine (<[name := with_limiter l w]> (workflows e)) (cleanupFlow e))
  | None => (0, e)
  end.

(** ** Steps *)

(** What a run does besides acting on [W]: the actions called, the metrics recorded,
    the calls of the clean-up flow. *)
Inductive event : Type :=
  | Called (id : string) (o : op)
  | Recorded (id : string) (err : option error)
  | Cleaned (sandbox : string).

Definition call (f : Flow) (o : op) : action :=
  match o with
  | OpInit => Init f
  | OpCreate c => Create f c
  | OpDestroy d => Destroy f d
  | OpCleanup s => CleanUp f s
  end.

(** The metrics recorded before and, if the action did not panic, after an action. *)
Definition metrics_before (o : op) : list event :=
  match o with OpCreate _ | OpDestroy _ => [Recorded WorkflowID None] | _ => [] end.
Definition metrics_after (o : op) (id : string) (err : option error) : list event :=
  match o with OpCleanup _ => [] | _ => [Recorded id err] end.

(** The function an action's goroutine runs: a panic becomes an error. *)
Definition run_action (o : op) (f : Flow) (ended : bool) (w : W) : W * option error * list event :=
  let '(w', out) := call f o ended w in
  match out with
  | Returns err => (w', err, metrics_before o ++ [Called (ID f) o] ++ metrics_after o (ID f) err)
  | Panics m => (w', Some (RetError ErrorCode_Unknown ("flow[" +:+ ID f +:+ "] do " +:+ op_name o +:+ " panic :" +:+ m)),
                 metrics_before o ++ [Called (ID f) o])
  end%list.

(** The goroutines of an error group, in the order in which they end: the first error
    is the group's, and it ends the context of the others. *)
Fixpoint run_group (o : op) (fs : list Flow) (ended : bool) (w : W) : W * option error * list event :=
  match fs with
  | [] => (w, None, [])
  | f :: fs' =>
      let '(w1, err, ev1) := run_action o f ended w in
      let '(w2, err', ev2) := run_group o fs' (ended || if err then true else false) w1 in
      (w2, match err with Some x => Some x | None => err' end, ev1 ++ ev2)%list
  end.

(** The circumstances of a run: the trace information of the context, the order in
    which the actions of the [i]-th step end, whether the context ends during the
    [i]-th step, what is seen of it after that step, and whether it has ended when the
    clean-up flow is called. *)
Record circumstances : Type := MkEnv {
  has_trace : bool; order : nat -> list Flow -> list Flow; during : nat -> bool; ctx_after : nat -> option ctx_error;
  cleanup_ended : bool;
}.

Definition parallelRunSteps (env : circumstances) (o : op) (i : nat) (st : Step) (w : W) : W * option error * list event :=
  if has_trace env then run_group o (order env i (Actions st)) (during env i) w
  else (w, Some (PlainError "missing trace info in context"), []).

(** How the loop over the steps ends. *)
Inductive exit : Type := AllDone | StepFailed (e : error) | CtxEnded (c : ctx_error).

Fixpoint run_steps (env : circumstances) (o : op) (i : nat) (steps : list Step) (w : W) : W * exit * list event :=
  match steps with
  | [] => (w, AllDone, [])
  | st :: steps' =>
      let '(w1, err, ev1) := parallelRunSteps env o i st w in
      match err with
      | Some e => (w1, StepFailed e, ev1)
      | None =>
          match ctx_after env i with
          | Some c => (w1, CtxEnded c, ev1)
          | None => let '(w2, x, ev2) := run_steps env o (S i) steps' w1 in (w2, x, ev1 ++ ev2)%list
          end
      end
  end.

(** ** Runs *)

(** The clean-up flow's [Create], for the sandbox; a panic is not caught. *)
Definition cleanUp (sandbox : string) (ended : bool) (e : Engine) (w : W) : W * bool * list event :=
  match cleanupFlow e with
  | None => (w, true, [])
  | Some f =>
      let '(w', out) := Create f (MkCreate sandbox false) ended w in
      (w', match out with Returns _ => true | Panics _ => false end, [Cleaned sandbox])
  end.

(** [Crash]: a panic that leaves [run]. *)
Inductive result : Type := Ret (err : option error) | Crash.

Record run_end : Type := MkEnd { r_result : result; r_failover : bool; r_events : list event }.

(** The entry: the limiter. *)
Definition begin_flow (name : string) (e : Engine) : Engine * option error :=
  match workflows e !! name with
  | None => (e, Some (PlainError ("flow " +:+ name +:+ " not implemented")))
  | Some fl =>
      let '(l, ok) := Limiter_TryAcquire (w_Limiter fl) in
      (MkEngine (<[name := with_limiter l fl]> (workflows e)) (cleanupFlow e),
       if ok then None else Some (RetError ErrorCode_ConcurrentFailed ("flow [" +:+ Name fl +:+ "] exceed limited")))
  end.

(** The deferred release; [None] is the panic of the semaphore. *)
Definition end_flow (name : string) (e : Engine) : option Engine :=
  fl ← workflows e !! name;
  l ← Limiter_Release (w_Limiter fl);
  Some (MkEngine (<[name := with_limiter l fl]> (workflows e)) (cleanupFlow e)).

Definition limiter_metric (o : op) : list event :=
  match o with OpCreate _ | OpDestroy _ => [Recorded LimiterId None] | _ => [] end.

Definition wants_failover (o : op) : bool := match o with OpCreate c => Failover c | _ => false end.

(** What [run] does between the limiter and the release. *)
Definition run_body (env : circumstances) (o : op) (e : Engine) (steps : list Step) (w : W) : W * run_end :=
  let '(w1, x, ev) := run_steps env o 0 steps w in
  match x with
  | AllDone => (w1, MkEnd (Ret None) false ev)
  | CtxEnded c => (w1, MkEnd (Ret (Some (CtxError c))) (wants_failover o) ev)
  | StepFailed err =>
      if IsErrorCode err ErrorCode_PreConditionFailed then (w1, MkEnd (Ret (Some err)) false ev)
      else match o with
      | OpDestroy d =>
          let '(w2, ok, ev') := cleanUp (d_SandboxID d) (cleanup_ended env) e w1 in
          (w2, MkEnd (if ok then Ret (Some err) else Crash) false (ev ++ ev'))
      | _ => (w1, MkEnd (Ret (Some err)) (wants_failover o) ev)
      end
  end%list.

Definition run (env : circumstances) (o : op) (e : Engine) (w : W) : Engine * W * run_end :=
  let '(e1, rejected) := begin_flow (op_name o) e in
  match rejected with
  | Some err => (e1, w, MkEnd (Ret (Some err)) false [])
  | None =>
      let steps := match workflows e !! op_name o with Some fl => Steps fl | None => [] end in
      let '(w1, r) := run_body env o e1 steps w in
      let r' := MkEnd (r_result r) (r_failover r) (limiter_metric o ++ r_events r) in
      match end_flow (op_name o) e1 with
      | Some e2 => (e2, w1, r')
      | None => (e1, w1, MkEnd Crash (r_failover r') (r_events r'))
      end
  end%list.

(** [failover], with the namespace, the trace's request and whether the box was
    created as read from the context of the creation.  A panic of [Destroy] is caught
    and counts as an error; a panic of the clean-up is not. *)
Definition failover (env : circumstances) (namespace : bool) (request : option string) (created : bool) (c : CreateContext)
    (e : Engine) (w : W) : Engine * W * run_end :=
  match namespace, request with
  | true, Some rid =>
      let d := MkDestroy (c_SandboxID c) true rid true created in
      let '(e1, w1, r) := run env (OpDestroy d) e w in
      match r_result r with
      | Ret None => (e1, w1, r)
      | _ =>
          let '(w2, ok, ev) := cleanUp (c_SandboxID c) (cleanup_ended env) e1 w1 in
          (e1, w2, MkEnd (if ok then r_result r else Crash) false (r_events r ++ ev)%list)
      end
  | _, _ => (e, w, MkEnd (Ret None) false [])
  end.

(** ** The order of the steps *)

Definition is_call (ev : event) : bool := match ev with Called _ _ => true | _ => false end.
Definition calls (evs : list event) : list event := filter (fun ev => is_call ev = true) evs.

#[local] Arguments calls : simpl never.

Lemma calls_app l k : calls (l ++ k)%list = (calls l ++ calls k)%list.
Proof. apply filter_app. Qed.

Lemma run_action_calls o f ended w : calls (run_action o f ended w).2 = [Called (ID f) o].
Proof. unfold run_action. destruct (call f o ended w) as [w' [err|m]]; by destruct o. Qed.

Lemma run_group_calls o fs : forall ended w, calls (run_group o fs ended w).2 = (fun f => Called (ID f) o) <$> fs.
Proof.
  induction fs as [|f fs IH]; intros ended w; cbn; [done|].
  pose proof (run_action_calls o f ended w) as Hf. destruct (run_action o f ended w) as [[w1 err] ev1]. cbn in *.
  specialize (IH (ended || if err then true else false)%bool w1). destruct (run_group _ _ _ _) as [[w2 err'] ev2]. cbn in *.
  by rewrite calls_app, Hf, IH.
Qed.

(** The actions of steps in the order in which they end. *)
Fixpoint in_order (env : circumstances) (i : nat) (steps : list Step) : list Flow :=
  match steps with [] => [] | st :: steps' => order env i (Actions st) ++ in_order env (S i) steps' end%list.

(** Steps that all end without an error, the context still open. *)
Inductive completes (env : circumstances) (o : op) : nat -> list Step -> W -> W -> list event -> Prop :=
  | co_nil i w : completes env o i [] w w []
  | co_step i st steps w w1 w2 ev1 ev2 :
      parallelRunSteps env o i st w = (w1, None, ev1) -> ctx_after env i = None ->
      completes env o (S i) steps w1 w2 ev2 -> completes env o i (st :: steps) w w2 (ev1 ++ ev2)%list.

(** Where a run of the steps stopped: after [pre], in or after the step [st]. *)
Definition stops (env : circumstances) (o : op) (i : nat) (steps : list Step) (w w' : W) (ev : list event) (err : option error)
    (ctx : option ctx_error) : Prop :=
  exists pre st post w1 ev1 ev2, steps = (pre ++ st :: post)%list /\ completes env o i pre w w1 ev1 /\
    parallelRunSteps env o (i + length pre) st w1 = (w', err, ev2) /\ ev = (ev1 ++ ev2)%list /\
    (err = None -> ctx_after env (i + length pre) = ctx).

Lemma stops_step env o i st steps w w1 w2 ev1 ev2 err ctx :
  parallelRunSteps env o i st w = (w1, None, ev1) -> ctx_after env i = None ->
  stops env o (S i) steps w1 w2 ev2 err ctx -> stops env o i (st :: steps) w w2 (ev1 ++ ev2)%list err ctx.
Proof.
  intros E1 E2 (pre & st' & post & w0 & evp & evs & -> & Hc & Hp & -> & Hx).
  exists (st :: pre), st', post, w0, (ev1 ++ evp)%list, evs. cbn [length]. rewrite <-plus_n_Sm. cbn in Hp, Hx.
  split_and!; [done|by eapply co_step|done|by rewrite app_assoc|done].
Qed.

(** A run of the steps either completes them all or stops at the first step that
    fails or after which the context has ended. *)
Lemma run_steps_exact env o steps : forall i w w' x ev, run_steps env o i steps w = (w', x, ev) ->
  match x with
  | AllDone => completes env o i steps w w' ev
  | StepFailed e => stops env o i steps w w' ev (Some e) None
  | CtxEnded c => stops env o i steps w w' ev None (Some c)
  end.
Proof.
  induction steps as [|st steps IH]; intros i w w' x ev; cbn; [intros [= <- <- <-]; constructor|].
  destruct (parallelRunSteps env o i st w) as [[w1 [e|]] ev1] eqn:E1.
  - intros [= <- <- <-]. exists [], st, steps, w, [], ev1. cbn. rewrite Nat.add_0_r. split_and!; try done. constructor.
  - destruct (ctx_after env i) as [c|] eqn:E2.
    + intros [= <- <- <-]. exists [], st, steps, w, [], ev1. cbn. rewrite Nat.add_0_r. split_and!; try done. constructor.
    + destruct (run_steps env o (S i) steps w1) as [[w2 x'] ev2] eqn:E3. intros [= <- <- <-].
      specialize (IH _ _ _ _ _ E3). destruct x'; [by eapply co_step|by eapply stops_step..].
Qed.

Lemma parallel_calls env o i st w : has_trace env = true ->
  calls (parallelRunSteps env o i st w).2 = (fun f => Called (ID f) o) <$> order env i (Actions st).
Proof. intros Ht. unfold parallelRunSteps. rewrite Ht. apply run_group_calls. Qed.

Lemma completes_calls env o i steps w w' ev : has_trace env = true -> completes env o i steps w w' ev ->
  calls ev = (fun f => Called (ID f) o) <$> in_order env i steps.
Proof.
  intros Ht. induction 1 as [|i st steps w w1 w2 ev1 ev2 E1 _ _ IH]; [done|].
  pose proof (parallel_calls env o i st w Ht) as Hp. rewrite E1 in Hp. cbn in Hp |- *. by rewrite calls_app, fmap_app, Hp, IH.
Qed.

Lemma in_order_app env i l k : in_order env i (l ++ k)%list = (in_order env i l ++ in_order env (i + length l) k)%list.
Proof.
  revert i. induction l as [|st l IH]; intros i; cbn; [by rewrite Nat.add_0_r|].
  by rewrite IH, app_assoc, <-plus_n_Sm.
Qed.

(** A stopped run called the actions of the steps up to where it stopped. *)
Lemma stops_calls env o i steps w w' ev err ctx : has_trace env = true -> stops env o i steps w w' ev err ctx ->
  exists k, (0 < k <= length steps)%nat /\ calls ev = (fun f => Called (ID f) o) <$> in_order env i (take k steps).
Proof.
  intros Ht (pre & st & post & w1 & ev1 & ev2 & -> & Hc & Hp & -> & _). exists (S (length pre)).
  split; [rewrite length_app; cbn; lia|]. rewrite calls_app, (completes_calls _ _ _ _ _ _ _ Ht Hc).
  pose proof (parallel_calls env o (i + length pre) st w1 Ht) as H2. rewrite Hp in H2. cbn [snd] in H2. rewrite H2.
  rewrite <-Nat.add_1_r, take_app_add. cbn. rewrite in_order_app. cbn. by rewrite app_nil_r, fmap_app.
Qed.
(** ** What a run leaves of the engine *)

(** Runs change limiters only. *)
Definition same_flows (e e' : Engine) : Prop :=
  cleanupFlow e' = cleanupFlow e /\ forall name, Steps <$> workflows e' !! name = Steps <$> workflows e !! name.

#[local] Instance same_flows_preorder : PreOrder same_flows.
Proof.
  split; [by split|]. intros e1 e2 e3 [H1 H2] [H3 H4]. split; [congruence|]. intros name. by rewrite H4.
Qed.

Lemma same_flows_limiter name fl l e : workflows e !! name = Some fl ->
  same_flows e (MkEngine (<[name := with_limiter l fl]> (workflows e)) (cleanupFlow e)).
Proof.
  intros Hfl. split; [done|]. intros n. cbn. destruct (decide (n = name)) as [->|].
  - by rewrite lookup_insert_eq, Hfl.
  - by rewrite lookup_insert_ne.
Qed.

Lemma begin_flow_same name e : same_flows e (begin_flow name e).1.
Proof.
  unfold begin_flow. destruct (workflows e !! name) as [fl|] eqn:Hfl; [|done].
  destruct (Limiter_TryAcquire _) as [l ok]. by apply same_flows_limiter.
Qed.

Lemma end_flow_same name e e' : end_flow name e = Some e' -> same_flows e e'.
Proof.
  unfold end_flow. destruct (workflows e !! name) as [fl|] eqn:Hfl; [|done]. cbn.
  destruct (Limiter_Release _) as [l|]; [|done]. intros [= <-]. by apply same_flows_limiter.
Qed.

(** A run is rejected by the limiter or the table, or executes the flow's steps. *)
Lemma run_cases env o e w e' w' r : run env o e w = (e', w', r) ->
  same_flows e e' /\
  ((exists err, (begin_flow (op_name o) e).2 = Some err /\ w' = w /\ r = MkEnd (Ret (Some err)) false []) \/
   exists fl rb, (begin_flow (op_name o) e).2 = None /\ workflows e !! op_name o = Some fl /\
     run_body env o (begin_flow (op_name o) e).1 (Steps fl) w = (w', rb) /\
     r_failover r = r_failover rb /\ r_events r = (limiter_metric o ++ r_events rb)%list /\
     (r_result r = r_result rb \/ r_result r = Crash)).
Proof.
  unfold run. pose proof (begin_flow_same (op_name o) e) as Hs. destruct (begin_flow (op_name o) e) as [e1 [err|]] eqn:Hb; cbn in *.
  { intros [= <- <- <-]. split; [done|]. left. eauto. }
  destruct (workflows e !! op_name o) as [fl|] eqn:Hfl.
  2:{ unfold begin_flow in Hb. by rewrite Hfl in Hb. }
  destruct (run_body env o e1 (Steps fl) w) as [w1 rb] eqn:Hrb.
  destruct (end_flow (op_name o) e1) as [e2|] eqn:He.
  - intros [= <- <- <-]. split; [by etrans; [|eapply end_flow_same]|]. right. exists fl, rb. split_and!; try done. by left.
  - intros [= <- <- <-]. split; [done|]. right. exists fl, rb. split_and!; try done. by right.
Qed.

Lemma calls_limiter o : calls (limiter_metric o) = [].
Proof. by destruct o. Qed.

Lemma calls_cleanUp sandbox ended e w : calls (cleanUp sandbox ended e w).2 = [].
Proof. unfold cleanUp. destruct (cleanupFlow e); [|done]. by destruct (Create _ _ _ _). Qed.

Lemma run_body_calls env o e steps w w' rb : has_trace env = true -> run_body env o e steps w = (w', rb) ->
  exists k, (k <= length steps)%nat /\ calls (r_events rb) = (fun f => Called (ID f) o) <$> in_order env 0 (take k steps) /\
    (r_result rb = Ret None -> k = length steps).
Proof.
  intros Ht. unfold run_body. destruct (run_steps env o 0 steps w) as [[w1 x] ev] eqn:E. apply run_steps_exact in E.
  destruct x as [|err|c].
  - intros [= <- <-]. exists (length steps). rewrite firstn_all. split_and!; [done| |done]. by eapply completes_calls.
  - apply (stops_calls _ _ _ _ _ _ _ _ _ Ht) in E as (k & Hk & Hc).
    case_match; [intros [= <- <-]; exists k; split_and!; (done || lia)|].
    destruct o as [| |d|]; try (intros [= <- <-]; exists k; split_and!; (done || lia)).
    pose proof (calls_cleanUp (d_SandboxID d) (cleanup_ended env) e w1) as Hcl. destruct (cleanUp _ _ _ _) as [[w2 ok] ev'].
    intros [= <- <-]. exists k. cbn in *. rewrite calls_app, Hcl, app_nil_r. split_and!; [lia|done|by destruct ok].
  - apply (stops_calls _ _ _ _ _ _ _ _ _ Ht) in E as (k & Hk & Hc).
    intros [= <- <-]. exists k. split_and!; (done || lia).
Qed.

Lemma run_succeeds env o e w e' w' r : run env o e w = (e', w', r) -> r_result r = Ret None ->
  exists fl ev, workflows e !! op_name o = Some fl /\ completes env o 0 (Steps fl) w w' ev.
Proof.
  intros (_ & [(err & _ & _ & ->)|(fl & rb & _ & Hfl & Hrb & _ & _ & [Hr|Hr])])%run_cases Hnone; [done| |congruence].
  rewrite Hnone in Hr. unfold run_body in Hrb. destruct (run_steps env o 0 (Steps fl) w) as [[w1 x] ev] eqn:E.
  apply run_steps_exact in E. destruct x as [|err|c].
  - injection Hrb as <- <-. eauto.
  - case_match; [by injection Hrb as _ <-|]. destruct o as [| |d|]; try by injection Hrb as _ <-.
    destruct (cleanUp _ _ _ _) as [[w2 [|]] ev']; by injection Hrb as _ <-.
  - by injection Hrb as _ <-.
Qed.

(** C22: a run of a workflow calls the actions of its first steps, each action exactly
    once and a step only after the one before it is complete; it reports success only
    when the actions of all steps were called.  A request the limiter or the table of
    flows rejects calls nothing. *)
Theorem run_calls_steps_in_order env o e w e' w' r :
  has_trace env = true -> run env o e w = (e', w', r) ->
  ((begin_flow (op_name o) e).2 <> None /\ w' = w /\ r_events r = [] /\ r_result r <> Ret None) \/
  exists fl k, workflows e !! op_name o = Some fl /\ (k <= length (Steps fl))%nat /\
    calls (r_events r) = (fun f => Called (ID f) o) <$> in_order env 0 (take k (Steps fl)) /\
    (r_result r = Ret None -> k = length (Steps fl)).
Proof.
  intros Ht (_ & [(err & Hb & -> & ->)|(fl & rb & _ & Hfl & Hrb & _ & Hev & Hres)])%run_cases; [left|right].
  - rewrite Hb. by split_and!.
  - destruct (run_body_calls _ _ _ _ _ _ _ Ht Hrb) as (k & Hk & Hc & Hr). exists fl, k. split_and!; try done.
    + by rewrite Hev, calls_app, calls_limiter.
    + intros H. apply Hr. destruct Hres as [Hres|Hres]; congruence.
Qed.

Lemma cleanUp_cleans sandbox ended e w f : cleanupFlow e = Some f -> Cleaned sandbox ∈ (cleanUp sandbox ended e w).2.
Proof. intros H. unfold cleanUp. rewrite H. destruct (Create _ _ _ _). by apply list_elem_of_singleton. Qed.

(** C7: a creation with fail-over that was admitted and returned an error other than a
    failed precondition starts the fail-over; and the fail-over either completes every
    step of the flow that destroys, for the same sandbox and marked as a roll-back, or
    hands the sandbox to the clean-up flow. *)
Theorem failed_create_undone env env' c rid created e w e1 w1 r1 err e2 w2 r2 f :
  Failover c = true -> cleanupFlow e = Some f ->
  run env (OpCreate c) e w = (e1, w1, r1) -> (begin_flow flow_create e).2 = None ->
  r_result r1 = Ret (Some err) -> IsErrorCode err ErrorCode_PreConditionFailed = false ->
  failover env' true (Some rid) created c e1 w1 = (e2, w2, r2) ->
  r_failover r1 = true /\
  ((exists fl ev, workflows e1 !! flow_destroy = Some fl /\
     completes env' (OpDestroy (MkDestroy (c_SandboxID c) true rid true created)) 0 (Steps fl) w1 w2 ev) \/
   Cleaned (c_SandboxID c) ∈ r_events r2).
Proof.
  intros Hfo Hcf Hrun Hadm Herr Hpre Hf. split.
  - apply run_cases in Hrun as (_ & [(err' & Hb & _)|(fl & rb & _ & _ & Hrb & -> & _ & [Hr|Hr])]); [cbn in Hb; congruence| |congruence].
    rewrite Herr in Hr. unfold run_body in Hrb. destruct (run_steps _ _ _ _ _) as [[w' x] ev]. destruct x as [|e'|c'].
    + injection Hrb as _ <-. done.
    + case_match; injection Hrb as _ <-; cbn in *; [congruence|done].
    + by injection Hrb as _ <-.
  - unfold failover in Hf. apply run_cases in Hrun as [[Hs _] _]. rewrite Hcf in Hs.
    destruct (run env' (OpDestroy _) e1 w1) as [[e3 w3] r3] eqn:Hd. pose proof Hd as [[Hs' _] _]%run_cases. rewrite Hs in Hs'.
    pose proof (cleanUp_cleans (c_SandboxID c) (cleanup_ended env') e3 w3 f Hs') as Hcl.
    destruct (r_result r3) as [[err3|]|] eqn:Hr3.
    + destruct (cleanUp _ _ _ _) as [[w4 ok] ev]. injection Hf as _ _ <-. right. cbn in *. apply elem_of_app. by right.
    + injection Hf as _ <- _. left. exact (run_succeeds _ _ _ _ _ _ _ Hd Hr3).
    + destruct (cleanUp _ _ _ _) as [[w4 ok] ev]. injection Hf as _ _ <-. right. cbn in *. apply elem_of_app. by right.
Qed.
(** ** Requests in flight *)

(** The engine and the flows of the requests that run. *)
Record flights : Type := MkFlights { engine_of : Engine; running : gmap nat string }.

Inductive fstep : flights -> flights -> Prop :=
  | fs_begin e rs t name e' : rs !! t = None -> begin_flow name e = (e', None) ->
      fstep (MkFlights e rs) (MkFlights e' (<[t := name]> rs))
  | fs_rejected e rs name e' err : begin_flow name e = (e', Some err) -> fstep (MkFlights e rs) (MkFlights e' rs)
  | fs_end e rs t name e' : rs !! t = Some name -> end_flow name e = Some e' ->
      fstep (MkFlights e rs) (MkFlights e' (delete t rs))
  | fs_limit e rs name limit e' : SetFlowLimit name limit e = Some e' -> fstep (MkFlights e rs) (MkFlights e' rs)
  | fs_peak e rs name : fstep (MkFlights e rs) (MkFlights (GetFlowPeakRequests name e).2 rs).

Definition in_flight (name : string) (rs : gmap nat string) : Z :=
  map_fold (fun _ n acc => (if bool_decide (n = name) then 1 else 0) + acc) 0 rs.

Lemma in_flight_insert name rs t n : rs !! t = None ->
  in_flight name (<[t := n]> rs) = (if bool_decide (n = name) then 1 else 0) + in_flight name rs.
Proof. intros. unfold in_flight. rewrite map_fold_insert_L; [done|intros; repeat case_match; lia|done]. Qed.

Lemma in_flight_delete name rs t n : rs !! t = Some n ->
  in_flight name rs = (if bool_decide (n = name) then 1 else 0) + in_flight name (delete t rs).
Proof. intros. unfold in_flight. rewrite (map_fold_delete_L _ 0 t n); [done|intros; repeat case_match; lia|done]. Qed.

Lemma in_flight_nonneg name rs : 0 <= in_flight name rs.
Proof.
  unfold in_flight. induction rs as [|t n rs Ht IH] using map_ind; [done|].
  rewrite map_fold_insert_L by (done || (intros; repeat case_match; lia)). case_match; lia.
Qed.

(** A limiter nobody sleeps on, with [c] requests. *)
Definition lim_count (l : Limiter) (c : Z) : Prop :=
  match sem l with
  | None => req l = c
  | Some s => cur s = c /\ waiters s = [] /\ impossibleWaiters s = [] /\ 0 <= size s
  end.

Lemma lim_count_new limit : lim_count (NewLimiter limit) 0.
Proof. unfold lim_count, NewLimiter. destruct (Z.ltb_spec 0 limit); cbn; [|done]. split_and!; (done || lia). Qed.

Lemma lim_count_try l c l' ok : lim_count l c -> Limiter_TryAcquire l = (l', ok) ->
  lim_count l' (if ok then c + 1 else c) /\ (ok = true <-> match sem l with None => True | Some s => c < size s end).
Proof.
  unfold lim_count, Limiter_TryAcquire. destruct (sem l) as [s|].
  - intros (<- & Hw & Hi & Hsz). unfold TryAcquire. rewrite Hw. cbn. rewrite andb_true_r.
    destruct (Z.leb_spec 1 (size s - cur s)); intros [= <- <-]; cbn; (split; [done|]); split; (done || lia).
  - intros <- [= <- <-]. done.
Qed.

Lemma lim_count_release l c : lim_count l c -> 0 < c -> exists l', Limiter_Release l = Some l' /\ lim_count l' (c - 1).
Proof.
  unfold lim_count, Limiter_Release. destruct (sem l) as [s|].
  - intros (<- & Hw & Hi & Hsz) Hc. unfold Release. destruct (Z.ltb_spec (cur s - 1) 0); [lia|]. cbn.
    unfold serve_all. cbn. rewrite Hw. cbn. eexists. split; [done|]. done.
  - intros <- Hc. eexists. split; [done|]. done.
Qed.

Lemma lim_count_limit l c limit l' : lim_count l c -> Limiter_SetLimit limit l = Some l' -> lim_count l' c.
Proof.
  unfold lim_count, Limiter_SetLimit. destruct (sem l) as [s|].
  - intros (Hc & Hw & Hi & Hsz). unfold Resize. destruct (Z.ltb_spec limit 0); [done|]. rewrite Hw, Hi. cbn.
    unfold serve_all. cbn. by intros [= <-].
  - by intros Hc [= <-].
Qed.

Definition flights_ok (x : flights) : Prop :=
  (forall name fl, workflows (engine_of x) !! name = Some fl -> lim_count (w_Limiter fl) (in_flight name (running x))) /\
  (forall t name, running x !! t = Some name -> is_Some (workflows (engine_of x) !! name)).

(** A step that replaces one flow by one whose count is right. *)
Lemma flights_ok_set e rs rs' name fl fl' :
  flights_ok (MkFlights e rs) -> workflows e !! name = Some fl ->
  lim_count (w_Limiter fl') (in_flight name rs') ->
  (forall n, n <> name -> in_flight n rs' = in_flight n rs) ->
  (forall t n, rs' !! t = Some n -> n = name \/ rs !! t = Some n) ->
  flights_ok (MkFlights (MkEngine (<[name := fl']> (workflows e)) (cleanupFlow e)) rs').
Proof.
  intros [H1 H2] Hfl Hc Hother Hrs. split; cbn in *.
  - intros n f [[<- <-]|[Hne Hf]]%lookup_insert_Some; [done|]. rewrite Hother by done. by apply H1.
  - intros t n Ht. destruct (decide (n = name)) as [->|Hne]; [rewrite lookup_insert_eq; eauto|].
    rewrite lookup_insert_ne by done. destruct (Hrs t n Ht) as [?|?]; [done|]. by eapply H2.
Qed.

Lemma flights_ok_begin e rs t name : flights_ok (MkFlights e rs) -> rs !! t = None ->
  flights_ok (MkFlights (begin_flow name e).1 (if (begin_flow name e).2 then rs else <[t := name]> rs)).
Proof.
  intros H Ht. unfold begin_flow. destruct (workflows e !! name) as [fl|] eqn:Hfl; [|done].
  pose proof (proj1 H name fl Hfl) as Hc. cbn in Hc. destruct (Limiter_TryAcquire (w_Limiter fl)) as [l ok] eqn:E.
  destruct (lim_count_try _ _ _ _ Hc E) as [Hc' _].
  destruct ok; cbn; (eapply flights_ok_set; [exact H|done|cbn| |]).
  - rewrite in_flight_insert, bool_decide_eq_true_2 by done. by rewrite Z.add_comm.
  - intros n Hne. rewrite in_flight_insert, bool_decide_eq_false_2 by done. done.
  - intros t' n [[_ <-]|[_ ?]]%lookup_insert_Some; [by left|by right].
  - done.
  - done.
  - by right.
Qed.

(** The release of a request that runs does not panic. *)
Lemma flights_ok_end e rs t name : flights_ok (MkFlights e rs) -> rs !! t = Some name ->
  exists e', end_flow name e = Some e' /\ flights_ok (MkFlights e' (delete t rs)).
Proof.
  intros H Ht. destruct (proj2 H t name Ht) as [fl Hfl]. cbn in Hfl. pose proof (proj1 H name fl Hfl) as Hc. cbn in Hc.
  pose proof (in_flight_delete name rs t name Ht) as Hd. rewrite bool_decide_eq_true_2 in Hd by done.
  pose proof (in_flight_nonneg name (delete t rs)).
  destruct (lim_count_release _ _ Hc) as (l & El & Hl); [lia|].
  unfold end_flow. rewrite Hfl. cbn. rewrite El. cbn. eexists. split; [done|].
  eapply flights_ok_set; [exact H|done|cbn| |].
  - by replace (in_flight name (delete t rs)) with (in_flight name rs - 1) by lia.
  - intros n Hne. rewrite (in_flight_delete n rs t name Ht), bool_decide_eq_false_2 by done. done.
  - intros t' n [_ ?]%lookup_delete_Some. by right.
Qed.

Lemma flights_ok_limit e rs name limit e' : flights_ok (MkFlights e rs) -> SetFlowLimit name limit e = Some e' ->
  flights_ok (MkFlights e' rs).
Proof.
  intros H. unfold SetFlowLimit. destruct (workflows e !! name) as [fl|] eqn:Hfl; [|by intros [= <-]].
  pose proof (proj1 H name fl Hfl) as Hc. cbn in Hc. unfold SetLimit.
  destruct (Limiter_Limit _ <? 0); cbn.
  { intros [= <-]. by eapply flights_ok_set; [exact H|done|done|done|by right]. }
  destruct (negb _); cbn.
  - destruct (Limiter_SetLimit limit (w_Limiter fl)) as [l|] eqn:El; [|done]. cbn. intros [= <-].
    pose proof (lim_count_limit _ _ _ _ Hc El). by eapply flights_ok_set; [exact H|done|done|done|by right].
  - intros [= <-]. by eapply flights_ok_set; [exact H|done|done|done|by right].
Qed.

Lemma flights_ok_step x x' : fstep x x' -> flights_ok x -> flights_ok x'.
Proof.
  intros Hstep H. destruct Hstep as [e rs t name e' Ht E|e rs name e' err E|e rs t name e' Ht E|e rs name limit e' E|e rs name].
  - pose proof (flights_ok_begin e rs t name H Ht) as Hb. by rewrite E in Hb.
  - set (t := fresh (dom rs : gset nat)). assert (Ht : rs !! t = None) by apply not_elem_of_dom, is_fresh. pose proof (flights_ok_begin e rs t name H Ht) as Hb. by rewrite E in Hb.
  - destruct (flights_ok_end e rs t name H Ht) as (e'' & E' & ?). congruence.
  - by eapply flights_ok_limit.
  - unfold GetFlowPeakRequests. destruct (workflows e !! name) as [fl|] eqn:Hfl; [|done]. cbn.
    eapply flights_ok_set; [exact H|done| |done|by right]. exact (proj1 H name fl Hfl).
Qed.
(** A new engine: limiters without requests. *)
Definition idle (e : Engine) : Prop := forall name fl, workflows e !! name = Some fl -> lim_count (w_Limiter fl) 0.

(** Whatever requests begin, end and are rejected and however the limits of flows
    are changed, the number of requests the engine reports for a flow is the number
    that run; a request is admitted exactly when the flow exists and, unless it has no
    limit, fewer run than its limit; and ending a request never panics. *)
Theorem in_flight_exact e x : idle e -> rtc fstep (MkFlights e ∅) x ->
  (forall name, is_Some (workflows (engine_of x) !! name) ->
     GetFlowOnFlyingRequests name (engine_of x) = in_flight name (running x)) /\
  (forall name, (begin_flow name (engine_of x)).2 = None <->
     exists fl, workflows (engine_of x) !! name = Some fl /\
       (Limiter_Limit (w_Limiter fl) = -1 \/ in_flight name (running x) < Limiter_Limit (w_Limiter fl))) /\
  (forall t name, running x !! t = Some name -> end_flow name (engine_of x) <> None).
Proof.
  intros Hidle Hrun. assert (H : flights_ok x).
  { eapply (rtc_preserves fstep flights_ok); [apply flights_ok_step|exact Hrun|]. by split. }
  destruct x as [e' rs]. split_and!; cbn.
  - intros name [fl Hfl]. pose proof (proj1 H name fl Hfl) as Hc. unfold GetFlowOnFlyingRequests. rewrite Hfl.
    unfold lim_count, Current, GetCurrent in *. cbn in Hc. destruct (sem (w_Limiter fl)); by (destruct Hc || idtac).
  - intros name. unfold begin_flow. destruct (workflows e' !! name) as [fl|] eqn:Hfl.
    2:{ split; [done|]. by intros (fl & ? & _). }
    pose proof (proj1 H name fl Hfl) as Hc. cbn in Hc. destruct (Limiter_TryAcquire (w_Limiter fl)) as [l ok] eqn:E.
    destruct (lim_count_try _ _ _ _ Hc E) as [_ Hok]. pose proof (in_flight_nonneg name rs). unfold Limiter_Limit, Size, lim_count in *. split.
    + intros Hn. exists fl. split; [done|]. destruct ok; [|done]. destruct (sem (w_Limiter fl)); [right|by left]. by apply Hok.
    + intros (fl' & [= <-] & Hl). destruct ok; [done|]. destruct (sem (w_Limiter fl)) as [s|].
      * enough (false = true) by done. apply Hok. lia.
      * enough (false = true) by done. by apply Hok.
  - intros t name Ht. destruct (flights_ok_end e' rs t name H Ht) as (e'' & E & _). by rewrite E.
Qed.

(** ** The engine's configuration (plugin.go) *)

(** A plugin of the Cubelet: a flow, nothing, or something else; an entry of a step is a
    string or another value. *)
Inductive plugin : Type := PFlow (f : Flow) | PNil | POther.

Record flow_conf : Type := MkConf { conf_MaxConcurrent : Z; conf_Actions : list (list (option string)) }.

Definition flow_error (k : string) (i : nat) (what : string) : string := "flow:" +:+ k +:+ " step " +:+ pretty i +:+ what.

Fixpoint build_step (mPlugins : gmap string plugin) (k : string) (i : nat) (step : list (option string)) : res (list Flow) :=
  match step with
  | [] => Ok []
  | None :: _ => Err (flow_error k i " invalid action name(string)")
  | Some name :: rest =>
      match mPlugins !! name with
      | None => Err (flow_error k i (" no such action(plugin) " +:+ name))
      | Some PNil => build_step mPlugins k i rest
      | Some POther => Err (flow_error k i (" action(plugin) " +:+ name +:+ " is not a valid Flow"))
      | Some (PFlow f) => let! fs := build_step mPlugins k i rest in Ok (f :: fs)
      end
  end.

Fixpoint build_steps (mPlugins : gmap string plugin) (k : string) (i : nat) (steps : list (list (option string))) : res (list Step) :=
  match steps with
  | [] => Ok []
  | step :: rest =>
      let! fs := build_step mPlugins k i step in
      match fs with
      | [] => Err (flow_error k i " no actions")
      | _ => let! sts := build_steps mPlugins k (S i) rest in Ok (MkStep (Join (ID <$> fs) "#") fs :: sts)
      end
  end.

Definition build_flow (mPlugins : gmap string plugin) (k : string) (s : flow_conf) : res Workflow :=
  let! sts := build_steps mPlugins k 0 (conf_Actions s) in
  match sts with
  | [] => Err ("flow:" +:+ k +:+ " no steps")
  | _ => Ok (MkWorkflow k (conf_MaxConcurrent s) (NewLimiter (conf_MaxConcurrent s)) sts)
  end.

(** The flows in the order the map is ranged over; the plugin [cleanup] must be a flow
    ([POther] and [PNil] panic in the type assertion). *)
Fixpoint build_flows (mPlugins : gmap string plugin) (flows : list (string * flow_conf)) (e : Engine) : res Engine :=
  match flows with
  | [] => Ok e
  | (k, s) :: rest => let! fl := build_flow mPlugins k s in build_flows mPlugins rest (AddFlow k fl e)
  end.

Definition GCID : string := "cleanup".

Definition InitFn (mPlugins : gmap string plugin) (flows : list (string * flow_conf)) : option (res Engine) :=
  match build_flows mPlugins flows (MkEngine ∅ None) with
  | Err m => Some (Err m)
  | Ok e =>
      match mPlugins !! GCID with
      | None => Some (Err ("no such flow " +:+ GCID +:+ " registered"))
      | Some (PFlow f) => Some (Ok (AddCleaupFlow f e))
      | Some _ => None
      end
  end.

(** What the configuration promises of an engine it was accepted for. *)
Definition engine_wf (e : Engine) : Prop :=
  forall name fl, workflows e !! name = Some fl ->
    Name fl = name /\ Steps fl <> [] /\ Forall (fun st => Actions st <> []) (Steps fl) /\ w_Limiter fl = NewLimiter (MaxConcurrent fl).

Lemma build_steps_nonempty mPlugins k steps : forall i sts, build_steps mPlugins k i steps = Ok sts ->
  Forall (fun st => Actions st <> []) sts.
Proof.
  induction steps as [|step steps IH]; intros i sts; cbn; [by intros [= <-]|].
  intros (fs & _ & H)%rbind_ok. destruct fs as [|f fs]; [done|]. apply rbind_ok in H as (sts' & H & [= <-]).
  constructor; [done|by eapply IH].
Qed.

Lemma build_flows_wf mPlugins flows : forall e e', build_flows mPlugins flows e = Ok e' -> engine_wf e -> engine_wf e'.
Proof.
  induction flows as [|[k s] flows IH]; intros e e'; cbn; [by intros [= <-]|].
  intros (fl & Hfl & H)%rbind_ok Hwf. eapply IH; [exact H|]. intros name f. cbn.
  intros [[<- <-]|[_ Hf]]%lookup_insert_Some; [|by apply Hwf].
  unfold build_flow in Hfl. apply rbind_ok in Hfl as (sts & Hs & Hm). destruct sts as [|st sts]; [done|]. injection Hm as <-.
  split_and!; [done|done|by eapply build_steps_nonempty|done].
Qed.

Lemma configured_engine_idle mPlugins flows e : InitFn mPlugins flows = Some (Ok e) -> engine_wf e /\ idle e.
Proof.
  unfold InitFn. destruct (build_flows mPlugins flows (MkEngine ∅ None)) as [e0|] eqn:E; [|done].
  destruct (mPlugins !! GCID) as [[f| |]|]; try done. intros [= <-].
  assert (Hwf : engine_wf e0) by (eapply build_flows_wf; [exact E|]; by intros name fl).
  split; [done|]. intros name fl Hfl. destruct (Hwf name fl Hfl) as (_ & _ & _ & ->). apply lim_count_new.
Qed.

(** C40: an engine the configuration is accepted for has the clean-up flow; each of
    its flows bears its name and has steps, each with actions; and its limiters count
    no requests, so that the requests in flight are counted exactly from the start. *)
Theorem configured_engine_ready mPlugins flows e : InitFn mPlugins flows = Some (Ok e) ->
  engine_wf e /\ is_Some (cleanupFlow e) /\ idle e.
Proof.
  intros H. destruct (configured_engine_idle _ _ _ H) as [Hwf Hidle]. split_and!; [done| |done].
  unfold InitFn in H. destruct (build_flows _ _ _) as [e0|]; [|done].
  destruct (mPlugins !! GCID) as [[f| |]|]; try done. injection H as <-. by eexists.
Qed.

End engine.

Arguments Flow _ : clear implicits.
Arguments Step _ : clear implicits.
Arguments Engine _ : clear implicits.
Arguments circumstances _ : clear implicits.

(** ** A small engine: the state is the list of what exists *)

Section example.

(** An action that adds a thing when it creates and removes it when it destroys. *)
Definition maker (name : string) (fails : bool) : Flow (list string) :=
  MkFlow name (fun _ w => (w, Returns None))
    (fun _ _ w => if fails then (w, Returns (Some (PlainError "broken"))) else (name :: w, Returns None))
    (fun _ _ w => (filter (fun x => x <> name) w, Returns None))
    (fun _ _ w => (w, Returns None)).

Definition small_plugins : gmap string (plugin (W := list string)) :=
  list_to_map [("network", PFlow (maker "network" false)); ("storage", PFlow (maker "storage" false));
    ("box", PFlow (maker "box" true)); ("cleanup", PFlow (maker "cleanup" false))].

Definition small_conf : list (string * flow_conf) :=
  [("create", MkConf 2 [[Some "network"; Some "storage"]; [Some "box"]]);
   ("destroy", MkConf 0 [[Some "box"]; [Some "storage"; Some "network"]])].

Definition small_engine : Engine (list string) :=
  match InitFn small_plugins small_conf with Some (Ok e) => e | _ => MkEngine ∅ None end.

Definition calm : circumstances (list string) := MkEnv true (fun _ fs => fs) (fun _ => false) (fun _ => None) false.

Abbreviation small_run := (run calm (OpCreate (MkCreate "sb" true)) small_engine []).
Abbreviation small_failover := (failover calm true (Some "r1") false (MkCreate "sb" true) small_run.1.1 small_run.1.2).

Lemma run_calls_steps_in_order_witness :
  exists fl k, workflows small_engine !! "create" = Some fl /\ (k <= length (Steps fl))%nat /\
    calls (r_events small_run.2) =
      (fun f => Called (ID f) (OpCreate (MkCreate "sb" true))) <$> in_order calm 0 (take k (Steps fl)).
Proof.
  destruct (run_calls_steps_in_order calm (OpCreate (MkCreate "sb" true)) small_engine [] small_run.1.1 small_run.1.2 small_run.2)
    as [(H & _)|(fl & k & H1 & H2 & H3 & _)]; [reflexivity|by vm_compute| |].
  - exfalso. apply H. by vm_compute.
  - by exists fl, k.
Defined.

Lemma failed_create_undone_witness : r_failover small_run.2 = true.
Proof.
  apply (failed_create_undone calm calm (MkCreate "sb" true) "r1" false small_engine [] small_run.1.1 small_run.1.2 small_run.2
    (PlainError "broken") small_failover.1.1 small_failover.1.2 small_failover.2 (maker "cleanup" false)); by vm_compute.
Defined.

Lemma in_flight_exact_witness :
  GetFlowOnFlyingRequests "create" (begin_flow "create" small_engine).1 = in_flight "create" {[0%nat := "create"]}.
Proof.
  destruct (in_flight_exact small_engine (MkFlights (begin_flow "create" small_engine).1 {[0%nat := "create"]})) as [H _].
  - intros name fl. apply (configured_engine_idle small_plugins small_conf). by vm_compute.
  - apply rtc_once, (fs_begin small_engine ∅ 0 "create"); [done|by vm_compute].
  - apply (H "create"). vm_compute. by eexists.
Defined.

Lemma configured_engine_ready_witness : engine_wf small_engine.
Proof. apply (configured_engine_ready small_plugins small_conf). by vm_compute. Defined.

End example.
