(* ===== verification/CletEgress.v ===== *)
(** * The egress policy of a sandbox and its name servers
    (Cubelet/network/plugin_tap.go lines 523-870, Cubelet/pkg/container/netfile/netfile.go)

    A request to create a sandbox carries the networks the sandbox may reach, lists of
    addresses, networks and domains and rules on names.  A rule on a name only works
    when the sandbox can ask its name servers, so their addresses are added to the
    networks it may reach; the same servers are written into its resolv.conf. *)
From S2P Require Import Prelude GoStrings NetIP.
From Stdlib Require Import Ascii.

Open Scope string_scope.
Open Scope Z_scope.

(** ** Policies *)

Record EgressRuleMatch : Type := MkMatch {
  SNI : option string; Host : option string; Method : list string; Path : option string; Scheme : option string;
}.
Record EgressRuleInject : Type := MkInject { Header : string; Secret : string; Format : option string }.
Record EgressRuleAction : Type := MkAction { Allow : bool; Audit : option string; Inject : list (option EgressRuleInject) }.
Record EgressRule : Type := MkRule { r_Name : string; Match : option EgressRuleMatch; Action : option EgressRuleAction }.

(** The policy of the request and the one sent to the network agent have the same
    fields; a rule can be [nil]. *)
Record CubeNetworkConfig : Type := MkNet {
  AllowInternetAccess : option bool; AllowOut : list string; DenyOut : list string; Rules : list (option EgressRule);
}.

Definition mapRunRequestEgressRuleMatch (m : option EgressRuleMatch) : option EgressRuleMatch := m.

(** The value of a rule without [nil] headers. *)
Definition mapRunRequestEgressRuleAction (a : option EgressRuleAction) : option EgressRuleAction :=
  match a with
  | None => None
  | Some x => Some (MkAction (Allow x) (Audit x) (Some <$> omap id (Inject x)))
  end.

Definition mapRunRequestEgressRules (rules : list (option EgressRule)) : list (option EgressRule) :=
  (fun r => Some (MkRule (r_Name r) (mapRunRequestEgressRuleMatch (Match r)) (mapRunRequestEgressRuleAction (Action r))))
    <$> omap id rules.

Definition mapRunRequestCubeNetworkConfig (c : CubeNetworkConfig) : CubeNetworkConfig :=
  MkNet (AllowInternetAccess c) (AllowOut c) (DenyOut c) (mapRunRequestEgressRules (Rules c)).

Definition BlockAll : string := "cube.master.network.policy.block_all".
Definition AllowPublicServices : string := "cube.master.network.policy.allow_public_services".
Definition PolicyDefault : string := "cube.master.network.policy.default".

Definition internet (b : bool) : CubeNetworkConfig := MkNet (Some b) [] [] [].

Definition buildLegacyNetworkAgentCubeNetworkConfig (annotations : gmap string string) : option CubeNetworkConfig :=
  if bool_decide (annotations = ∅) then None
  else if bool_decide (annotations !! BlockAll = Some "true") then Some (internet false)
  else if bool_decide (annotations !! AllowPublicServices = Some "true") then Some (internet true)
  else if bool_decide (annotations !! PolicyDefault = Some "true") then Some (internet true)
  else None.

(** The parts of a request used here. *)
Record RunCubeSandboxRequest : Type := MkReq {
  r_Annotations : gmap string string; r_CubeNetworkConfig : option CubeNetworkConfig;
  r_DnsServers : list (list string);  (* of each container *)
}.

Definition buildNetworkAgentCubeNetworkConfig (request : option RunCubeSandboxRequest) : option CubeNetworkConfig :=
  match request with
  | None => None
  | Some r =>
      match r_CubeNetworkConfig r with
      | Some c => Some (mapRunRequestCubeNetworkConfig c)
      | None => buildLegacyNetworkAgentCubeNetworkConfig (r_Annotations r)
      end
  end.

(** ** Names and addresses *)

(** [dtoi] of package net: the digits at the front, below 0xFFFFFF. *)
Fixpoint dtoi (s : string) (n : Z) : option (Z * string) :=
  match s with
  | String c rest => if is_digit c then let n' := n * 10 + digit_val c in if 16777215 <=? n' then None else dtoi rest n' else Some (n, s)
  | EmptyString => Some (n, s)
  end.

(** [net.ParseCIDR]: the address and the length of the prefix. *)
Definition ParseCIDR (s : string) : option (IP * Z) :=
  match Cut s "/" with
  | None => None
  | Some (addr, mask) =>
      match ParseIP addr, dtoi mask 0 with
      | Some ip, Some (n, EmptyString) =>
          let bits := if index_any addr ":"%char then 128 else 32 in
          if bool_decide (mask = "") || (bits <? n) then None else Some (ip, n)
      | _, _ => None
      end
  end.

Definition is_v4 (ip : option IP) : bool := match ip with Some a => bool_decide (is_Some (To4 a)) | None => false end.

Definition isIPv4NetworkTarget (target : string) : bool :=
  if Contains target "/" then is_v4 (fst <$> ParseCIDR target) else is_v4 (ParseIP target).

Definition isDottedDecimalLikeTarget (target : string) : bool :=
  let parts := Split (TrimSuffix target ".") "."%char in
  (length parts =? 4)%nat && forallb (fun p => negb (bool_decide (p = "")) && str_all is_digit p) parts.

Definition label_char (a : ascii) : bool := is_lower a || is_digit a || bool_decide (a = "-"%char).

(** The characters of a label from the [i]-th on, [n] its length. *)
Fixpoint label_ok (i n : nat) (s : string) : bool :=
  match s with
  | EmptyString => true
  | String a rest =>
      label_char a && negb (bool_decide (a = "-"%char) && ((i =? 0)%nat || (i =? n - 1)%nat)) && label_ok (S i) n rest
  end.

Definition valid_label (l : string) : bool :=
  negb (bool_decide (l = "")) && (String.length l <=? 63)%nat && label_ok 0 (String.length l) l.

Definition isValidDNSDomainTarget (domain : string) : bool :=
  if bool_decide (domain = "") || (254 <=? String.length domain)%nat then false
  else if HasPrefix domain "*." then forallb valid_label (Split (str_drop 2 domain) "."%char)
  else if Contains domain "*" then false
  else forallb valid_label (Split domain "."%char).

Section targets.
Context `{GoRuntime}.

Definition isDNSAllowDomainTarget (target : string) : bool :=
  isValidDNSDomainTarget (ToLower (TrimSuffix (TrimSpace target) ".")).

Definition isL7DomainTarget (raw : string) : bool :=
  let domain := ToLower (TrimSuffix (TrimSpace raw) ".") in
  if isDottedDecimalLikeTarget domain then false else isValidDNSDomainTarget domain.

Definition isL7HostDomainTarget (raw : string) : bool :=
  let target := TrimSpace raw in
  if bool_decide (target = "") then false
  else
    let target := match SplitHostPort target with Some host => host | None => target end in
    if bool_decide (is_Some (ParseIP target)) then false
    else if Contains target "/" then false
    else if isDottedDecimalLikeTarget target then false
    else isL7DomainTarget target.

Definition hasL7DomainRuleTarget (rules : list (option EgressRule)) : bool :=
  existsb (fun r =>
    match r ≫= Match with
    | None => false
    | Some m => match SNI m with Some s => isL7DomainTarget s | None => false end ||
                match Host m with Some h => isL7HostDomainTarget h | None => false end
    end) rules.

Definition isAllowOutDomainTarget (raw : string) : bool :=
  let target := TrimSpace raw in
  if bool_decide (target = "") then false
  else if isIPv4NetworkTarget target then false
  else if Contains target "/" then false
  else if bool_decide (is_Some (ParseIP target)) || isDottedDecimalLikeTarget target then false
  else isDNSAllowDomainTarget target.

Definition shouldAppendDNSAllowOut (cfg : option CubeNetworkConfig) : bool :=
  match cfg with
  | None => false
  | Some c => existsb isAllowOutDomainTarget (AllowOut c) || hasL7DomainRuleTarget (Rules c)
  end.

(** ** The name servers in the policy *)

(** The text of an IPv4 address: [IP.String] of four bytes. *)
Definition v4_text (b : list Z) : string := dotted (byte_at b 0) (byte_at b 1) (byte_at b 2) (byte_at b 3).

Definition dnsServerToCIDR (ip : string) : option string :=
  match ParseIP (TrimSpace ip) with
  | None => None
  | Some a => match To4 a with Some b => Some (v4_text b +:+ "/32") | None => None end
  end.

(** The loop of [appendUniqueString] over [extra], with what was seen. *)
Fixpoint append_new (seen : gset string) (extra : list string) : list string :=
  match extra with
  | [] => []
  | item :: rest =>
      if bool_decide (item = "") || bool_decide (item ∈ seen) then append_new seen rest
      else item :: append_new ({[item]} ∪ seen) rest
  end.

Definition appendUniqueString (base extra : list string) : list string := (base ++ append_new (list_to_set base) extra)%list.

Definition mergeDNSAllowOutCIDRs (cfg : option CubeNetworkConfig) (dnsServers : list string) : option CubeNetworkConfig * list string :=
  if negb (shouldAppendDNSAllowOut cfg) || (length dnsServers =? 0)%nat then (cfg, [])
  else
    let out := default (MkNet None [] [] []) cfg in
    let cidrs := omap dnsServerToCIDR dnsServers in
    (Some (MkNet (AllowInternetAccess out) (appendUniqueString (AllowOut out) cidrs) (DenyOut out) (Rules out)), cidrs).

End targets.

(** ** The name servers of a sandbox *)

Fixpoint dns_of (servers : list string) (seen : gset string) : res (list string) :=
  match servers with
  | [] => Ok []
  | s :: rest =>
      let server := TrimSpace s in
      if bool_decide (server = "") then dns_of rest seen
      else if bool_decide (ParseIP server = None) then Err ("invalid dns " +:+ server)
      else if bool_decide (server ∈ seen) then dns_of rest seen
      else let! l := dns_of rest ({[server]} ∪ seen) in Ok (server :: l)
  end.

Definition requestDNSServers (req : option RunCubeSandboxRequest) : res (list string) :=
  match req with None => Ok [] | Some r => dns_of (concat (r_DnsServers r)) ∅ end.

Definition defaultDNSIP : string := "119.29.29.29".

(** [sort.Slice] by [<] on strings. *)
Definition sort_strings (l : list string) : list string := merge_sort String.le l.

(** [defaults] are the configured servers. *)
Definition ResolveEffectiveDNSServers (defaults : list string) (req : option RunCubeSandboxRequest) : res (list string) :=
  let! dns := requestDNSServers req in
  let dns := if (length dns =? 0)%nat then defaults else dns in
  let dns := if (length dns =? 0)%nat then [defaultDNSIP] else dns in
  Ok (sort_strings dns).

Fixpoint resolv_lines (dns : list string) : res string :=
  match dns with
  | [] => Ok ""
  | entry :: rest =>
      if bool_decide (ParseIP entry = None) then Err ("invalid dns " +:+ entry)
      else let! t := resolv_lines rest in Ok ("nameserver " +:+ entry +:+ "
" +:+ t)
  end.

Definition genResolvContent (defaults dns : list string) : res string :=
  let! dns := if (length dns =? 0)%nat then ResolveEffectiveDNSServers defaults None else Ok dns in
  resolv_lines (sort_strings dns).

(** ** Lemmas *)

Lemma append_new_spec extra : forall seen,
  NoDup (append_new seen extra) /\
  (forall x, x ∈ append_new seen extra <-> x ∈ extra /\ x <> "" /\ x ∉ seen).
Proof.
  induction extra as [|item rest IH]; intros seen; cbn [append_new].
  - split; [constructor|]. intros x. set_solver.
  - destruct (bool_decide_reflect (item = "")) as [->|Hne]; cbn [orb].
    { destruct (IH seen) as [IH1 IH2]. split; [done|]. intros x. rewrite IH2, elem_of_cons. naive_solver. }
    destruct (bool_decide_reflect (item ∈ seen)) as [Hin|Hnin].
    { destruct (IH seen) as [IH1 IH2]. split; [done|]. intros x. rewrite IH2, elem_of_cons. naive_solver. }
    destruct (IH ({[item]} ∪ seen)) as [IH1 IH2]. split.
    + apply NoDup_cons. split; [|done]. rewrite IH2. set_solver.
    + intros x. rewrite !elem_of_cons, IH2, elem_of_union, elem_of_singleton. destruct (decide (x = item)); naive_solver.
Qed.

Lemma v4_text_ne b t : v4_text b +:+ String "/"%char t <> "".
Proof. unfold v4_text, dotted. by destruct (pretty (byte_at b 0)). Qed.

Lemma dnsServerToCIDR_ne s x : dnsServerToCIDR s = Some x -> x <> "".
Proof. unfold dnsServerToCIDR. destruct (ParseIP _) as [a|]; [|done]. destruct (To4 a); [|done]. intros [= <-]. apply v4_text_ne. Qed.

Lemma dnsServerToCIDR_Some s x : dnsServerToCIDR s = Some x <->
  exists ip b, ParseIP (TrimSpace s) = Some ip /\ To4 ip = Some b /\ x = v4_text b +:+ "/32".
Proof.
  unfold dnsServerToCIDR. destruct (ParseIP (TrimSpace s)) as [ip|]; [|naive_solver].
  destruct (To4 ip) as [b|] eqn:E; [|naive_solver]. split; [intros [= <-]; eauto|]. intros (? & ? & [= <-] & ? & ->). congruence.
Qed.

(** *** Labels *)

Fixpoint last_char (s : string) : option ascii :=
  match s with EmptyString => None | String a EmptyString => Some a | String _ s' => last_char s' end.

Lemma label_ok_spec s : forall i n, (n = i + String.length s)%nat ->
  label_ok i n s = true <-> str_all label_char s = true /\ (i = 0%nat -> forall r, s <> String "-"%char r) /\ last_char s <> Some "-"%char.
Proof.
  induction s as [|a s IH]; intros i n Hn; cbn [label_ok str_all last_char]; [naive_solver|].
  rewrite !andb_true_iff, negb_true_iff, (IH (S i) n) by (cbn in Hn; lia).
  assert (Hlast : (i =? n - 1)%nat = true <-> s = EmptyString).
  { rewrite Nat.eqb_eq. cbn in Hn. destruct s; cbn in *; split; intros; (done || lia). }
  destruct (bool_decide_reflect (a = "-"%char)) as [->|Ha]; cbn [andb].
  - destruct (Nat.eqb_spec i 0) as [->|Hi]; cbn [orb].
    + split; [by intros [[_ [=]] _]|]. intros (_ & Hf & _). by destruct (Hf eq_refl s).
    + destruct (i =? n - 1)%nat eqn:E.
      * assert (s = "") as -> by by apply Hlast. split; [by intros [[_ [=]] _]|]. intros (_ & _ & Hl). done.
      * assert (s <> "") by (intros Hs%Hlast; congruence). destruct s as [|b s]; [done|]. naive_solver.
  - destruct s as [|b s].
    + cbn. split; [|naive_solver]. intros [[? _] _]. split_and!; [done|done|congruence|congruence].
    + split; [|naive_solver]. intros [[? _] (? & ? & ?)]. split_and!; [done|done|congruence|done].
Qed.

(** A label: 1 to 63 letters, digits and hyphens, no hyphen at either end. *)
Definition label (l : string) : Prop :=
  (1 <= String.length l <= 63)%nat /\ str_all label_char l = true /\ (forall r, l <> String "-"%char r) /\ last_char l <> Some "-"%char.

Lemma valid_label_iff l : valid_label l = true <-> label l.
Proof.
  unfold valid_label, label. rewrite !andb_true_iff, negb_true_iff, bool_decide_eq_false, Nat.leb_le, label_ok_spec by lia.
  assert (l <> "" <-> (1 <= String.length l)%nat) as -> by (destruct l; cbn; split; intros; (done || lia)).
  naive_solver.
Qed.

Lemma label_no_char l c : label l -> label_char c = false -> index_any l c = false.
Proof. intros (_ & H & _) Hc. by eapply index_any_all. Qed.

Lemma forallb_valid_labels ls : forallb valid_label ls = true <-> Forall label ls.
Proof.
  rewrite forallb_forall, Forall_forall. setoid_rewrite <-valid_label_iff. by setoid_rewrite <-list_elem_of_In.
Qed.

(** The labels of a name, and the name of labels. *)
Lemma split_labels d : forallb valid_label (Split d "."%char) = true <->
  exists ls, ls <> [] /\ Forall label ls /\ d = Join ls ".".
Proof.
  rewrite forallb_valid_labels. split.
  - intros H. exists (Split d "."%char). split_and!; [apply Split_ne|done|by rewrite Join_Split].
  - intros (ls & Hne & Hls & ->). rewrite Split_Join; [done|done|].
    eapply Forall_impl; [exact Hls|]. intros l Hl. by apply label_no_char.
Qed.

Lemma Join_no_star ls : Forall label ls -> index_any (Join ls ".") "*"%char = false.
Proof.
  induction ls as [|l [|l2 ls] IH]; [done| |].
  - intros [Hl _]%Forall_cons. by apply label_no_char.
  - intros [Hl Hls]%Forall_cons. rewrite Join_cons by done. change (String "."%char ?t) with ("." +:+ t).
    rewrite !index_any_app, IH by done. rewrite (label_no_char l) by done. done.
Qed.

Lemma star_prefix s : HasPrefix s "*." = true <-> exists r, s = "*." +:+ r.
Proof. apply prefix_spec. Qed.

(** ** Theorems *)

(** A name is accepted as the target of a rule exactly when it has fewer than 254
    characters and is one or more labels joined by dots, with at most one wildcard,
    as the first label. *)
Theorem domain_target_iff d : isValidDNSDomainTarget d = true <->
  (String.length d < 254)%nat /\ exists ls, ls <> [] /\ Forall label ls /\ (d = Join ls "." \/ d = "*." +:+ Join ls ".").
Proof.
  unfold isValidDNSDomainTarget. destruct (bool_decide_reflect (d = "")) as [->|Hne]; cbn [orb].
  { split; [done|]. intros (_ & ls & Hls & HF & [E|E]); [|done]. destruct ls as [|l ls]; [done|].
    apply Forall_cons in HF as [(Hl & _) _]. destruct ls; [destruct l; [cbn in Hl; lia|done]|].
    rewrite Join_cons in E by done. by destruct l. }
  destruct (Nat.leb_spec 254 (String.length d)) as [Hlen|Hlen]; [split; [done|]; intros [? _]; lia|].
  destruct (HasPrefix d "*.") eqn:Hp.
  - apply star_prefix in Hp as [r ->]. change (str_drop 2 ("*." +:+ r)) with r. rewrite split_labels. split.
    + intros (ls & ? & ? & ->). split; [done|]. exists ls. eauto.
    + intros (_ & ls & Hls & HF & [E|E]).
      * pose proof (Join_no_star ls HF) as Hs. rewrite <-E in Hs. done.
      * exists ls. split_and!; [done|done|]. by injection E.
  - destruct (Contains d "*") eqn:Hc.
    + split; [done|]. intros (_ & ls & Hls & HF & [E|E]).
      * change "*" with (String "*"%char "") in Hc. rewrite Contains_byte, E, Join_no_star in Hc by done. done.
      * assert (HasPrefix d "*." = true) by (apply star_prefix; eauto). congruence.
    + rewrite split_labels. split.
      * intros (ls & ? & ? & ->). split; [done|]. exists ls. eauto.
      * intros (_ & ls & Hls & HF & [E|E]); [eauto|]. assert (HasPrefix d "*." = true) by (apply star_prefix; eauto). congruence.
Qed.

Section policy.
Context `{GoRuntime}.

Lemma merge_cases c dns out cidrs : mergeDNSAllowOutCIDRs (Some c) dns = (Some out, cidrs) ->
  (out = c /\ (shouldAppendDNSAllowOut (Some c) = false \/ dns = [])) \/
  (shouldAppendDNSAllowOut (Some c) = true /\
   out = MkNet (AllowInternetAccess c) (appendUniqueString (AllowOut c) (omap dnsServerToCIDR dns)) (DenyOut c) (Rules c)).
Proof.
  unfold mergeDNSAllowOutCIDRs. destruct (shouldAppendDNSAllowOut (Some c)) eqn:Hs; cbn [negb orb].
  - destruct dns as [|s dns]; cbn [length Nat.eqb]; intros [= <- <-]; [left|right]; eauto.
  - intros [= <- <-]. left. eauto.
Qed.

(** Every IPv4 server of a policy that names a domain is allowed. *)
Lemma merge_allows c dns out cidrs s ip b : mergeDNSAllowOutCIDRs (Some c) dns = (Some out, cidrs) ->
  shouldAppendDNSAllowOut (Some c) = true -> s ∈ dns -> ParseIP (TrimSpace s) = Some ip -> To4 ip = Some b ->
  v4_text b +:+ "/32" ∈ AllowOut out.
Proof.
  intros [[-> [?| ->]]|[_ ->]]%merge_cases Hs Hin Hp H4; [congruence|by apply not_elem_of_nil in Hin|].
  cbn [AllowOut]. unfold appendUniqueString. apply elem_of_app.
  destruct (append_new_spec (omap dnsServerToCIDR dns) (list_to_set (AllowOut c))) as [_ Hnew].
  destruct (decide (v4_text b +:+ "/32" ∈ AllowOut c)) as [|Hn]; [by left|right].
  apply Hnew. rewrite elem_of_list_to_set. split_and!; [|apply v4_text_ne|done].
  apply list_elem_of_omap. exists s. split; [done|]. apply dnsServerToCIDR_Some. eauto.
Qed.

(** Adding the name servers to a policy leaves the networks it denies, its rules
    and its stance on the Internet alone and keeps what it allows, in order; each
    network it adds is the single IPv4 address of one of the servers, added once and
    only if it was missing; if the policy names no domain, nothing is added; if it
    does, every IPv4 server is allowed. *)
Theorem dns_servers_added_exactly c dns out cidrs : mergeDNSAllowOutCIDRs (Some c) dns = (Some out, cidrs) ->
  AllowInternetAccess out = AllowInternetAccess c /\ DenyOut out = DenyOut c /\ Rules out = Rules c /\
  exists new, AllowOut out = (AllowOut c ++ new)%list /\ NoDup new /\
    (forall x, x ∈ new -> x ∉ AllowOut c /\ shouldAppendDNSAllowOut (Some c) = true /\
       exists s ip b, s ∈ dns /\ ParseIP (TrimSpace s) = Some ip /\ To4 ip = Some b /\ x = v4_text b +:+ "/32") /\
    (shouldAppendDNSAllowOut (Some c) = true -> forall s ip b, s ∈ dns -> ParseIP (TrimSpace s) = Some ip -> To4 ip = Some b ->
       v4_text b +:+ "/32" ∈ AllowOut out).
Proof.
  intros Hm. pose proof Hm as [[-> Hno]|[Hs ->]]%merge_cases.
  - split_and!; try done. exists []. rewrite app_nil_r. split_and!; [done|constructor|set_solver|].
    intros Hs s ip b. by apply (merge_allows _ _ _ _ _ _ _ Hm).
  - cbn [AllowInternetAccess DenyOut Rules]. split_and!; try done.
    destruct (append_new_spec (omap dnsServerToCIDR dns) (list_to_set (AllowOut c))) as [Hnd Hnew].
    exists (append_new (list_to_set (AllowOut c)) (omap dnsServerToCIDR dns)). split_and!; [done|done| |].
    + intros x (Hx & _ & Hn)%Hnew. rewrite elem_of_list_to_set in Hn. split_and!; [done|done|].
      apply list_elem_of_omap in Hx as (s & Hin & (ip & b & ? & ? & ->)%dnsServerToCIDR_Some). eauto 10.
    + intros _ s ip b. by apply (merge_allows _ _ _ _ _ _ _ Hm).
Qed.

(** *** The servers of a request *)

Lemma dns_of_valid servers : forall seen l, dns_of servers seen = Ok l -> Forall (fun s => is_Some (ParseIP s)) l.
Proof.
  induction servers as [|s rest IH]; intros seen l; cbn [dns_of]; [by intros [= <-]|].
  case_bool_decide; [by apply IH|]. case_bool_decide as Hp; [done|]. case_bool_decide; [by apply IH|].
  intros (l' & Hl & [= <-])%rbind_ok. constructor; [|by eapply IH]. by destruct (ParseIP (TrimSpace s)).
Qed.

Lemma resolv_lines_ok dns t : resolv_lines dns = Ok t ->
  t = String.concat "" ((fun s => "nameserver " +:+ s +:+ "
") <$> dns) /\ Forall (fun s => is_Some (ParseIP s)) dns.
Proof.
  revert t. induction dns as [|s dns IH]; intros t; cbn [resolv_lines]; [by intros [= <-]|].
  case_bool_decide as Hp; [done|]. intros (t' & Ht & [= <-])%rbind_ok. destruct (IH t' Ht) as [-> HF].
  split; [|constructor; [by destruct (ParseIP s)|done]].
  destruct dns; cbn; by rewrite ?app_assoc_str, ?app_nil_r_str.
Qed.

Lemma sort_strings_idem l : sort_strings (sort_strings l) = sort_strings l.
Proof.
  unfold sort_strings. apply (StronglySorted_unique String.le); [apply StronglySorted_merge_sort; apply _..|].
  by rewrite merge_sort_Permutation.
Qed.

Lemma ResolveEffectiveDNSServers_cases defaults req dns : ResolveEffectiveDNSServers defaults req = Ok dns ->
  dns <> [] /\ sort_strings dns = dns /\
  exists l, requestDNSServers req = Ok l /\
    dns ≡ₚ (if (length l =? 0)%nat then if (length defaults =? 0)%nat then [defaultDNSIP] else defaults else l).
Proof.
  unfold ResolveEffectiveDNSServers. intros (l & Hl & [= <-])%rbind_ok.
  set (d := if (length (if (length l =? 0)%nat then defaults else l) =? 0)%nat then [defaultDNSIP] else if (length l =? 0)%nat then defaults else l).
  assert (Hd : d = if (length l =? 0)%nat then if (length defaults =? 0)%nat then [defaultDNSIP] else defaults else l).
  { unfold d. destruct l; cbn; [|done]. by destruct defaults. }
  assert (Hne : d <> []) by (rewrite Hd; destruct l; [destruct defaults|]; done).
  pose proof (merge_sort_Permutation String.le d) as Hperm. change (merge_sort String.le d) with (sort_strings d) in Hperm.
  split_and!.
  - intros E. rewrite E in Hperm. by apply Permutation_nil_l in Hperm.
  - apply sort_strings_idem.
  - exists l. split; [done|]. by rewrite Hperm, Hd.
Qed.

(** The name servers written into a sandbox's resolv.conf are the effective ones,
    in sorted order: those its containers ask for, else the configured ones, else the
    built-in one, all of them addresses; and when the sandbox's policy names a domain,
    each of them that is an IPv4 address is among the networks it may reach. *)
Theorem nameservers_reachable defaults r dns text c out cidrs :
  ResolveEffectiveDNSServers defaults (Some r) = Ok dns -> genResolvContent defaults dns = Ok text ->
  buildNetworkAgentCubeNetworkConfig (Some r) = Some c -> mergeDNSAllowOutCIDRs (Some c) dns = (Some out, cidrs) ->
  (exists l, requestDNSServers (Some r) = Ok l /\
     dns ≡ₚ (if (length l =? 0)%nat then if (length defaults =? 0)%nat then [defaultDNSIP] else defaults else l)) /\
  text = String.concat "" ((fun s => "nameserver " +:+ s +:+ "
") <$> dns) /\
  Forall (fun s => is_Some (ParseIP s)) dns /\
  (shouldAppendDNSAllowOut (Some c) = true ->
   forall s ip b, s ∈ dns -> ParseIP (TrimSpace s) = Some ip -> To4 ip = Some b -> v4_text b +:+ "/32" ∈ AllowOut out).
Proof.
  intros (Hne & Hsort & Hl)%ResolveEffectiveDNSServers_cases Hgen _ Hm. split; [done|].
  unfold genResolvContent in Hgen. destruct dns as [|s0 dns]; [done|]. cbn [length Nat.eqb rbind] in Hgen. rewrite Hsort in Hgen.
  destruct (resolv_lines_ok _ _ Hgen) as [-> HF]. split_and!; [done|done|].
  intros Hs s ip b. by apply (merge_allows _ _ _ _ _ _ _ Hm).
Qed.

End policy.

(** The annotation that blocks everything wins over the two that open. *)
Lemma legacy_block_all annotations : annotations !! BlockAll = Some "true" ->
  buildLegacyNetworkAgentCubeNetworkConfig annotations = Some (internet false).
Proof.
  intros Hb. unfold buildLegacyNetworkAgentCubeNetworkConfig. rewrite bool_decide_eq_false_2 by (intros ->; done).
  by rewrite bool_decide_eq_true_2.
Qed.

(** A policy with a domain, and the name servers of its sandbox. *)
Abbreviation demo_req := (MkReq ∅ (Some (MkNet None ["*.example.com"] [] [])) [["10.0.0.2"; " 10.0.0.2 "]; ["::1"]]).
Abbreviation demo_conf := (MkNet None ["*.example.com"] [] []).

Lemma dns_servers_added_exactly_witness :
  DenyOut (MkNet None ["*.example.com"; "10.0.0.2/32"] [] []) = [].
Proof.
  apply (dns_servers_added_exactly (H := demo_runtime) demo_conf ["10.0.0.2"; "::1"] _ ["10.0.0.2/32"]). by vm_compute.
Defined.

Lemma nameservers_reachable_witness : "10.0.0.2/32" ∈ AllowOut (MkNet None ["*.example.com"; "10.0.0.2/32"] [] []).
Proof.
  apply (nameservers_reachable (H := demo_runtime) [] demo_req ["10.0.0.2"; "::1"] "nameserver 10.0.0.2
nameserver ::1
" demo_conf (MkNet None ["*.example.com"; "10.0.0.2/32"] [] []) ["10.0.0.2/32"]
    ltac:(by vm_compute) ltac:(by vm_compute) ltac:(by vm_compute) ltac:(by vm_compute))
    with (s := "10.0.0.2") (ip := v4_mapped [10; 0; 0; 2]) (b := [10; 0; 0; 2]); try by vm_compute.
  by left.
Defined.
