(* ===== verification/CletNet.v ===== *)
(** * The network of a sandbox on its node
    (Cubelet/network: plugin.go, plugin_tap.go, proto/network.go;
    Cubelet/pkg/store/network/store.go; Cubelet/services/server/tap_provider.go)

    The network plugin asks the network agent for a network, gets the file of its tap
    device, keeps it for the shim of the sandbox to fetch, and records the allocation in
    memory and in a [CubeStore].  Destroying releases the network and closes the file.

    The network agent, the kernel and the JSON library are not part of the repository:
    their answers are arguments of the operations, a file is its number, and the text
    of an allocation is made by [AllocCodec].  [granted] records what the agent said:
    the networks it granted and has not said it released. *)
From S2P Require Import Prelude GoStrings NetIP CletStore CletEgress.
From Stdlib Require Import Ascii.

Open Scope string_scope.
Open Scope Z_scope.

(** ** Data *)

Record PortMapping : Type := MkPort { HostPort : Z; ContainerPort : Z }.
Record MVMIp : Type := MkMvmIp { ip_IP : string; ip_Mask : Z }.
Record QosConfig : Type := MkQos { BwSize : Z; BwOneTimeBurst : Z; BwRefillTime : Z; OpsSize : Z; OpsOneTimeBurst : Z; OpsRefillTime : Z }.
Record Interface : Type := MkIf {
  i_Name : string; IPAddr : list Z; GuestName : string; Mac : string; Mtu : Z; i_IP : string; i_Mask : Z; IPs : list MVMIp;
  Qos : option QosConfig;
}.
Record Route : Type := MkRoute { Dest : string; r_Gateway : string; Source : string; r_Device : string }.
Record ARP : Type := MkArp { DestIP : string; a_Device : string; LlAddr : string }.
Record ShimNetReq : Type := MkShim { Interfaces : list Interface; Routes : list Route; ARPs : list ARP; PortMappings : list PortMapping }.

(** The messages of the agent. *)
Record AgentInterface : Type := MkAIf { ai_Name : string; ai_MAC : string; ai_MTU : Z; ai_IPs : list string; ai_Gateway : string }.
Record AgentRoute : Type := MkARoute { ar_Destination : string; ar_Gateway : string; ar_Device : string }.
Record ARPNeighbor : Type := MkANeigh { an_IP : string; an_MAC : string; an_Device : string }.
Record AgentPort : Type := MkAPort { ap_Protocol : string; ap_HostIP : string; ap_HostPort : Z; ap_ContainerPort : Z }.
Record EnsureNetworkRequest : Type := MkEnsure {
  er_SandboxID : string; er_IdempotencyKey : string; er_Interfaces : list AgentInterface; er_Routes : list AgentRoute;
  er_ARPNeighbors : list ARPNeighbor; er_PortMappings : list AgentPort; er_CubeNetworkConfig : option CubeNetworkConfig;
  er_PersistMetadata : gmap string string;
}.
Record EnsureNetworkResponse : Type := MkEnsured {
  ep_Interfaces : list AgentInterface; ep_Routes : list AgentRoute; ep_ARPNeighbors : list ARPNeighbor; ep_PortMappings : list AgentPort;
  ep_PersistMetadata : gmap string string;
}.

Record Config : Type := MkConfig {
  MVMInnerIP : string; MVMMacAddr : string; MvmGwDestIP : string; MvmGwMacAddr : string; MvmMask : Z; MvmMtu : Z;
}.

Definition eth0 : string := "eth0".

(** Conversions to narrower integers. *)
Definition uint16 (z : Z) : Z := z `mod` 2 ^ 16.
Definition int32 (z : Z) : Z := (z + 2 ^ 31) `mod` 2 ^ 32 - 2 ^ 31.

(** ** The text of an address: [IP.String] *)

Definition hex_digit (n : Z) : ascii := ascii_of_N (Z.to_N (if n <? 10 then 48 + n else 87 + n)).
Fixpoint hex_text (fuel : nat) (n : Z) (acc : string) : string :=
  match fuel with
  | O => acc
  | S fuel => let acc := String (hex_digit (n `mod` 16)) acc in if n <? 16 then acc else hex_text fuel (n `div` 16) acc
  end.

(** The eight groups of 16 bits. *)
Fixpoint groups (b : list Z) : list Z := match b with x :: y :: b' => (x * 256 + y) :: groups b' | _ => [] end.

(** The number of zeros at the front. *)
Fixpoint zeros (g : list Z) : nat := match g with 0 :: g' => S (zeros g') | _ => O end.

(** The first longest run of at least two zero groups: where it starts and ends. *)
Fixpoint zero_run (i : nat) (g : list Z) (best : option (nat * nat)) : option (nat * nat) :=
  match g with
  | [] => best
  | _ :: g' =>
      let l := zeros g in
      let better := match best with Some (s, e) => (e - s <? l)%nat | None => (2 <=? l)%nat end in
      zero_run (S i) g' (if better then Some (i, (i + l)%nat) else best)
  end.

Definition hex_groups (g : list Z) : string := Join ((fun n => hex_text 4 n "") <$> g) ":".

Definition IP_String (ip : list Z) : string :=
  match if (length ip =? 4)%nat then Some ip else To4 ip with
  | Some b => v4_text b
  | None =>
      let g := groups ip in
      match zero_run 0 g None with
      | None => hex_groups g
      | Some (s, e) => hex_groups (take s g) +:+ "::" +:+ hex_groups (drop e g)
      end
  end.

Example ip_text_1 : IP_String <$> ParseIP "2001:0db8:0:0::1" = Some "2001:db8::1".
Proof. by vm_compute. Qed.
Example ip_text_2 : IP_String <$> ParseIP "::ffff:10.1.2.3" = Some "10.1.2.3".
Proof. by vm_compute. Qed.
Example ip_text_3 : IP_String <$> ParseIP "fe80:0:0:1:0:0:0:0" = Some "fe80:0:0:1::".
Proof. by vm_compute. Qed.

(** ** Requests and answers *)

Definition SandboxIP (r : ShimNetReq) : string := match Interfaces r with i :: _ => IP_String (IPAddr i) | [] => "" end.
Definition GatewayIP (r : ShimNetReq) : string := match Routes r with x :: _ => r_Gateway x | [] => "" end.

(** The base64 text of the raw metadata is a parameter of the map. *)
Definition buildPersistMetadataMap (raw_b64 : string) (shimReq : option ShimNetReq) : gmap string string :=
  let meta := {["shim_req_metadata_b64" := raw_b64]} in
  match shimReq with
  | None => meta
  | Some r =>
      let meta := if bool_decide (SandboxIP r = "") then meta else <["sandbox_ip" := SandboxIP r]> meta in
      if bool_decide (GatewayIP r = "") then meta else <["gateway_ip" := GatewayIP r]> meta
  end.

(** The exposed ports as 16-bit numbers; they are ranged over in any order. *)
Definition port_set (exposedPorts : list Z) : gset Z := list_to_set (uint16 <$> exposedPorts).

Definition buildEnsureNetworkRequestFromIntent (conf : Config) (sandboxID requestID : string) (exposedPorts : list Z) (has_qos : bool)
    (cubeNetworkConfig : option CubeNetworkConfig) : EnsureNetworkRequest :=
  let meta := buildPersistMetadataMap "" None in
  let meta := <["mvm_inner_ip" := MVMInnerIP conf]> (<["gateway_ip" := MvmGwDestIP conf]> meta) in
  let meta := if has_qos then <["qos_enabled" := "true"]> meta else meta in
  MkEnsure sandboxID requestID
    [MkAIf "" (MVMMacAddr conf) (int32 (MvmMtu conf)) [MVMInnerIP conf +:+ "/" +:+ pretty (MvmMask conf)] (MvmGwDestIP conf)]
    [MkARoute "" (MvmGwDestIP conf) eth0]
    [MkANeigh (MvmGwDestIP conf) (MvmGwMacAddr conf) eth0]
    ((fun p => MkAPort "tcp" "127.0.0.1" 0 p) <$> elements (port_set exposedPorts))
    cubeNetworkConfig meta.

Fixpoint parse_cidrs (ips : list string) : res (list MVMIp) :=
  match ips with
  | [] => Ok []
  | cidr :: rest =>
      match ParseCIDR cidr with
      | None => Err ("parse interface cidr " +:+ cidr)
      | Some (ip, mask) => let! l := parse_cidrs rest in Ok (MkMvmIp (IP_String ip) mask :: l)
      end
  end.

Definition buildShimNetReqFromEnsureResponse (conf : Config) (resp : option EnsureNetworkResponse) : res ShimNetReq :=
  match resp with
  | None => Err "network-agent response is nil"
  | Some resp =>
      match ep_Interfaces resp with
      | [] => Err "network-agent returned no interfaces"
      | intf :: _ =>
          match ParseIP (default "" (ep_PersistMetadata resp !! "sandbox_ip")) ≫= To4 with
          | None => Err "network-agent response missing sandbox_ip"
          | Some b =>
              let! mvmIPs := parse_cidrs (ai_IPs intf) in
              let '(legacyIP, legacyMask) :=
                match mvmIPs with m :: _ => (ip_IP m, ip_Mask m) | [] => (MVMInnerIP conf, MvmMask conf) end in
              let routes := (fun r => MkRoute (ar_Destination r) (ar_Gateway r) legacyIP (ar_Device r)) <$> ep_Routes resp in
              let arps := (fun a => MkArp (an_IP a) (an_Device a) (an_MAC a)) <$> ep_ARPNeighbors resp in
              Ok (MkShim [MkIf (ai_Name intf) b eth0 (ai_MAC intf) (ai_MTU intf) legacyIP legacyMask mvmIPs None]
                (match routes with [] => [MkRoute "" (MvmGwDestIP conf) legacyIP eth0] | _ => routes end)
                (match arps with [] => [MkArp (MvmGwDestIP conf) eth0 (MvmGwMacAddr conf)] | _ => arps end)
                ((fun p => MkPort (uint16 (ap_HostPort p)) (uint16 (ap_ContainerPort p))) <$> ep_PortMappings resp))
          end
      end
  end.

(** ** Failures of the agent *)

(** The error of a call: a gRPC status with its code and the name of the code, or another error, with whether it
    is the end of a deadline. *)
Inductive agent_error : Type := Status (code : Z) (text msg : string) | OtherError (deadline : bool) (msg : string).

Definition codes_DeadlineExceeded : Z := 4.
Definition codes_Unavailable : Z := 14.

Section failures.
Context `{GoRuntime}.

Definition classifyNetworkAgentFailureClass (err : agent_error) : string :=
  match err with
  | Status code _ _ =>
      if code =? codes_Unavailable then "connect" else if code =? codes_DeadlineExceeded then "timeout" else "business"
  | OtherError true _ => "timeout"
  | OtherError false msg =>
      let errStr := ToLower msg in
      if Contains errStr "deadline exceeded" || Contains errStr "i/o timeout" || Contains errStr "context deadline exceeded" then "timeout"
      else if Contains errStr "connection refused" || Contains errStr "connection reset" || Contains errStr "no such file or directory" ||
              Contains errStr "transport is closing" then "connect"
      else "business"
  end.

End failures.

(** ** The state of the plugin *)

Record Tap : Type := MkTap { Index : Z; t_Name : string; t_IP : list Z; File : option nat; t_Ports : gmap Z Z }.
Record MvmNet : Type := MkMvm { n_ID : string; n_Tap : Tap }.
Record NetworkAllocation : Type := MkAlloc { al_SandboxID : string; al_NetworkType : string; al_Persistent : string; al_Timestamp : Z }.

(** The JSON texts: of an allocation, and of the metadata that keeps the address. *)
Class AllocCodec : Type := {
  al_marshal : NetworkAllocation -> string;
  al_unmarshal : string -> option NetworkAllocation;
  al_round_trip : forall a, al_unmarshal (al_marshal a) = Some a;
  md_marshal : string -> string;
  md_base64 : string -> string;
}.

Definition NetworkType_tap : string := "tap".
Definition DBBucketNetwork : string := "network/v1".

(** Nets are heap objects that both tables point to.  [open] are the files the process
    has open; [failures] counts by class, modulo 2^64. *)
Record node : Type := MkNode {
  ID2MvmNet : gmap string nat; Name2MvmNet : gmap string nat; nets : gmap nat MvmNet; next_net : nat; open : gset nat;
  idToAlloc : gmap string NetworkAllocation; net_db : CubeStore; failures : gmap string Z; granted : gset string;
}.

Definition with_tables ids names ns nx (s : node) : node :=
  MkNode ids names ns nx (open s) (idToAlloc s) (net_db s) (failures s) (granted s).
Definition with_open o (s : node) : node :=
  MkNode (ID2MvmNet s) (Name2MvmNet s) (nets s) (next_net s) o (idToAlloc s) (net_db s) (failures s) (granted s).
Definition with_allocs a d (s : node) : node :=
  MkNode (ID2MvmNet s) (Name2MvmNet s) (nets s) (next_net s) (open s) a d (failures s) (granted s).
Definition with_granted g (s : node) : node :=
  MkNode (ID2MvmNet s) (Name2MvmNet s) (nets s) (next_net s) (open s) (idToAlloc s) (net_db s) (failures s) g.
Definition with_failures f (s : node) : node :=
  MkNode (ID2MvmNet s) (Name2MvmNet s) (nets s) (next_net s) (open s) (idToAlloc s) (net_db s) f (granted s).

(** ** Taps *)

Definition loadNet (sandboxID : string) (s : node) : option (nat * MvmNet) :=
  p ← ID2MvmNet s !! sandboxID; n ← nets s !! p; Some (p, n).

Definition storeNet (n : MvmNet) (s : node) : node :=
  with_tables (<[n_ID n := next_net s]> (ID2MvmNet s)) (<[t_Name (n_Tap n) := next_net s]> (Name2MvmNet s))
    (<[next_net s := n]> (nets s)) (S (next_net s)) s.

Definition delNet (n : MvmNet) (s : node) : node :=
  with_tables (delete (n_ID n) (ID2MvmNet s)) (delete (t_Name (n_Tap n)) (Name2MvmNet s)) (nets s) (next_net s) s.

Definition close_file (f : option nat) (s : node) : node :=
  match f with Some fd => with_open (open s ∖ {[fd]}) s | None => s end.

(** [SetPortMappings]: by container port, the last one counts. *)
Definition SetPortMappings (m : list PortMapping) : gmap Z Z := foldl (fun acc v => <[ContainerPort v := HostPort v]> acc) ∅ m.

(** [tapfile] is the answer of the agent's tap socket: a file, open from then on, and the
    index of the device; [link] the look-up of the device by name. *)
Definition registerNetworkAgentTapForPool (sandboxID : string) (shimReq : ShimNetReq) (tapfile : res (nat * Z)) (link : res Z) (s : node) :
    node * option string :=
  match Interfaces shimReq with
  | [] => (s, Some "shim network interfaces are empty")
  | intf :: _ =>
      if bool_decide (i_Name intf = "") then (s, Some "shim network tap name is empty")
      else if bool_decide (IPAddr intf = []) then (s, Some "shim network sandbox ip is empty")
      else match tapfile with
      | Err m => (s, Some ("request original tap fd for " +:+ i_Name intf +:+ ": " +:+ m))
      | Ok (file, ifindex) =>
          let s := with_open ({[file]} ∪ open s) s in
          match if ifindex <=? 0 then link else Ok ifindex with
          | Err m => (close_file (Some file) s, Some ("lookup tap link " +:+ i_Name intf +:+ ": " +:+ m))
          | Ok ifindex =>
              let tap := MkTap ifindex (i_Name intf) (IPAddr intf) (Some file) (SetPortMappings (PortMappings shimReq)) in
              let s :=
                match loadNet sandboxID s with
                | None => s
                | Some (_, old) =>
                    let s := delNet old s in
                    if bool_decide (File (n_Tap old) = Some file) then s else close_file (File (n_Tap old)) s
                end in
              (storeNet (MkMvm sandboxID tap) s, None)
          end
      end
  end.

Definition unregisterNetworkAgentTapForPool (sandboxID : string) (s : node) : node :=
  match loadNet sandboxID s with
  | None => s
  | Some (p, n) =>
      let s := delNet n s in
      match File (n_Tap n) with
      | None => s
      | Some fd =>
          let t := n_Tap n in
          let s := close_file (Some fd) s in
          with_tables (ID2MvmNet s) (Name2MvmNet s)
            (<[p := MkMvm (n_ID n) (MkTap (Index t) (t_Name t) (t_IP t) None (t_Ports t))]> (nets s)) (next_net s) s
      end
  end.

(** What the shim of a sandbox is given for the name of a tap and its sandbox. *)
Inductive tap_answer : Type := CannotFindDevice | TapDoesNotMatchId | TapFile (f : option nat).

Definition matchTapFd (name sandboxId : string) (s : node) : tap_answer :=
  match Name2MvmNet s !! name ≫= fun p => nets s !! p with
  | None => CannotFindDevice
  | Some n => if bool_decide (n_ID n = sandboxId) then TapFile (File (n_Tap n)) else TapDoesNotMatchId
  end.

(** ** Creating and destroying *)

(** An error with its code. *)
Record net_error : Type := NetErr { ne_code : Z; ne_msg : string }.

Definition ErrorCode_InvalidParamFormat : Z := 130483.
Definition ErrorCode_CreateNetworkFailed : Z := 130547.
Definition ErrorCode_UpdateLocalMetaDataFailed : Z := 130553.
Definition ErrorCode_DestroyNetworkFailed : Z := 130564.
Definition ErrorCode_PreConditionFailed : Z := 130568.

(** A creation: the request and the answers it gets from the agent, the kernel and the
    store. *)
Record create_in : Type := MkCreateIn {
  ci_SandboxID : string; ci_RequestID : string; ci_IsCreateSnapshot : bool; ci_NetworkType : string; ci_ExposedPorts : list Z;
  ci_request : RunCubeSandboxRequest; ci_defaults : list string;
  ci_netreq : res (option QosConfig);                 (* the decoded annotation *)
  ci_ensure : EnsureNetworkRequest -> EnsureNetworkResponse + agent_error;
  ci_tapfile : res (nat * Z); ci_link : res Z;
  ci_release : option agent_error;                    (* the release of a roll-back *)
  ci_now : Z; ci_io : option string;
}.

Record destroy_in : Type := MkDestroyIn { di_SandboxID : string; di_release : option agent_error; di_io : option string }.

Section plugin.
Context {GR : GoRuntime} {AC : AllocCodec} (conf : Config).

Definition recordNetworkAgentFailure (err : agent_error) (s : node) : node :=
  with_failures (alter (fun n => (n + 1) `mod` 2 ^ 64) (classifyNetworkAgentFailureClass err) (failures s)) s.

Definition classifyNetworkAgentError (err : agent_error) : string :=
  match err with Status _ text msg => "grpc_code=" +:+ text +:+ " grpc_msg=" +:+ msg | OtherError _ msg => msg end.

(** A release that succeeds. *)
Definition release (id : string) (r : option agent_error) (s : node) : node :=
  match r with None => with_granted (granted s ∖ {[id]}) s | Some _ => s end.

Definition set_qos (q : option QosConfig) (r : ShimNetReq) : ShimNetReq :=
  match q, Interfaces r with
  | Some q, i :: rest =>
      MkShim (MkIf (i_Name i) (IPAddr i) (GuestName i) (Mac i) (Mtu i) (i_IP i) (i_Mask i) (IPs i) (Some q) :: rest)
        (Routes r) (ARPs r) (PortMappings r)
  | _, _ => r
  end.

(** The function deferred once the network is granted. *)
Definition rollback (inp : create_in) (s : node) : node :=
  unregisterNetworkAgentTapForPool (ci_SandboxID inp) (release (ci_SandboxID inp) (ci_release inp) s).

Definition tap_Create (inp : create_in) (s : node) : node * (ShimNetReq + net_error) :=
  match ci_netreq inp with
  | Err m => (s, inr (NetErr ErrorCode_InvalidParamFormat ("decode network params failed: " +:+ m)))
  | Ok qos =>
      let before := buildNetworkAgentCubeNetworkConfig (Some (ci_request inp)) in
      match ResolveEffectiveDNSServers (ci_defaults inp) (Some (ci_request inp)) with
      | Err m => (s, inr (NetErr ErrorCode_InvalidParamFormat ("resolve effective dns servers failed: " +:+ m)))
      | Ok dns =>
          let '(policy, _) := mergeDNSAllowOutCIDRs before dns in
          let req := buildEnsureNetworkRequestFromIntent conf (ci_SandboxID inp) (ci_RequestID inp) (ci_ExposedPorts inp)
                       (bool_decide (is_Some qos)) policy in
          match ci_ensure inp req with
          | inr e => (recordNetworkAgentFailure e s,
                      inr (NetErr ErrorCode_CreateNetworkFailed ("network-agent EnsureNetwork failed: " +:+ classifyNetworkAgentError e)))
          | inl resp =>
              let s := with_granted ({[ci_SandboxID inp]} ∪ granted s) s in
              match buildShimNetReqFromEnsureResponse conf (Some resp) with
              | Err m => (rollback inp s, inr (NetErr ErrorCode_CreateNetworkFailed ("build shim req from network-agent response failed: " +:+ m)))
              | Ok shim =>
                  match registerNetworkAgentTapForPool (ci_SandboxID inp) shim (ci_tapfile inp) (ci_link inp) s with
                  | (s, Some m) => (rollback inp s, inr (NetErr ErrorCode_CreateNetworkFailed ("register network-agent tap for pool failed: " +:+ m)))
                  | (s, None) => (s, inl (set_qos qos shim))
                  end
              end
          end
      end
  end.

(** [Store.Add] and [Store.Sync]. *)
Definition Sync (io : option string) (id : string) (s : node) : node * option string :=
  match idToAlloc s !! id with
  | None => (s, Some ErrorKeyNotFound)
  | Some a => let '(err, d) := Set_ io DBBucketNetwork id (al_marshal a) (net_db s) in (with_allocs (idToAlloc s) d s, err)
  end.

Definition DeleteSync (io : option string) (id : string) (s : node) : node * option string :=
  let '(err, d) := Delete io DBBucketNetwork id (net_db s) in
  let s := with_allocs (idToAlloc s) d s in
  match err with
  | Some e => if bool_decide (e = ErrorKeyNotFound) || bool_decide (e = ErrorBucketNotFound)
              then (with_allocs (delete id (idToAlloc s)) (net_db s) s, None) else (s, Some e)
  | None => (with_allocs (delete id (idToAlloc s)) (net_db s) s, None)
  end.

Definition Create (inp : create_in) (s : node) : node * (ShimNetReq + net_error) :=
  let id := ci_SandboxID inp in
  if ci_IsCreateSnapshot inp && bool_decide (al_SandboxID <$> idToAlloc s !! id = Some id)
  then (s, inr (NetErr ErrorCode_PreConditionFailed "already exists"))
  else if negb (bool_decide (ci_NetworkType inp = NetworkType_tap))
  then (s, inr (NetErr ErrorCode_InvalidParamFormat ("invalid network type " +:+ ci_NetworkType inp)))
  else
    match tap_Create inp s with
    | (s, inr e) => (s, inr e)
    | (s, inl shim) =>
        let a := MkAlloc id (ci_NetworkType inp) (md_marshal (SandboxIP shim)) (ci_now inp) in
        let s := with_allocs (<[id := a]> (idToAlloc s)) (net_db s) s in
        match Sync (ci_io inp) id s with
        | (s, Some m) => (s, inr (NetErr ErrorCode_UpdateLocalMetaDataFailed m))
        | (s, None) => (s, inl shim)
        end
    end.

(** [tapPlugin.Destroy], under the lock of the sandbox. *)
Definition tap_Destroy (inp : destroy_in) (s : node) : node * option net_error :=
  let id := di_SandboxID inp in
  match loadNet id s with
  | None => (s, None)
  | Some _ =>
      match idToAlloc s !! id with
      | None => (s, None)
      | Some _ =>
          match di_release inp with
          | Some e => (recordNetworkAgentFailure e s,
                       Some (NetErr ErrorCode_DestroyNetworkFailed ("network-agent ReleaseNetwork failed: " +:+ classifyNetworkAgentError e)))
          | None => (unregisterNetworkAgentTapForPool id (release id None s), None)
          end
      end
  end.

Definition Destroy (inp : destroy_in) (s : node) : node * option net_error :=
  let id := di_SandboxID inp in
  match idToAlloc s !! id with
  | None => (s, None)
  | Some a =>
      if negb (bool_decide (al_NetworkType a = NetworkType_tap))
      then (s, Some (NetErr ErrorCode_InvalidParamFormat ("invalid network type " +:+ al_NetworkType a)))
      else match tap_Destroy inp s with
      | (s, Some e) => (s, Some (NetErr ErrorCode_DestroyNetworkFailed (ne_msg e)))
      | (s, None) =>
          match DeleteSync (di_io inp) id s with
          | (s, Some m) => (s, Some (NetErr ErrorCode_UpdateLocalMetaDataFailed m))
          | (s, None) => (s, None)
          end
      end
  end.

(** [CleanUp] destroys, unless there is no argument. *)
Definition CleanUp (inp : option destroy_in) (s : node) : node * option net_error :=
  match inp with None => (s, None) | Some d => Destroy d s end.

(** ** Starting *)

(** Every text of the bucket must be an allocation of a tap. *)
Definition recover_one (t : string) : option NetworkAllocation :=
  a ← al_unmarshal t; if bool_decide (al_NetworkType a = NetworkType_tap) then Some a else None.

Definition RecoverFromDB (order : list Z) (d : CubeStore) : option (gmap string NetworkAllocation) :=
  let all := ReadAll order DBBucketNetwork d in
  if bool_decide (map_Forall (fun _ t => is_Some (recover_one t)) all) then Some (omap recover_one all) else None.

(** A new process: no taps, the allocations of the store; what the agent granted is
    still granted.  The counters start at zero. *)
Definition start (order : list Z) (d : CubeStore) (g : gset string) : option node :=
  allocs ← RecoverFromDB order d;
  Some (MkNode ∅ ∅ ∅ 0 ∅ allocs d (list_to_map [("connect", 0); ("timeout", 0); ("business", 0)]) g).

Definition restart (order : list Z) (s : node) : option node := start order (net_db s) (granted s).

End plugin.

(** ** The invariant of taps *)

(** A sandbox's registration. *)
Definition registered (s : node) (id : string) (p : nat) (n : MvmNet) : Prop := ID2MvmNet s !! id = Some p /\ nets s !! p = Some n.

Record taps_ok (s : node) : Prop := MkTapsOk {
  to_net : forall id p, ID2MvmNet s !! id = Some p -> exists n fd, nets s !! p = Some n /\ n_ID n = id /\
    File (n_Tap n) = Some fd /\ fd ∈ open s /\ Name2MvmNet s !! t_Name (n_Tap n) = Some p;
  to_name : forall nm p, Name2MvmNet s !! nm = Some p -> exists id n, registered s id p n /\ t_Name (n_Tap n) = nm;
  to_open : forall fd, fd ∈ open s -> exists id p n, registered s id p n /\ File (n_Tap n) = Some fd;
  to_files : forall id id' p p' n n' fd, registered s id p n -> registered s id' p' n' ->
    File (n_Tap n) = Some fd -> File (n_Tap n') = Some fd -> id = id';
  to_fresh : forall p n, nets s !! p = Some n -> (p < next_net s)%nat;
}.

Lemma registered_load s id : taps_ok s -> is_Some (ID2MvmNet s !! id) -> exists p n, loadNet id s = Some (p, n) /\ registered s id p n.
Proof.
  intros H [p Hp]. destruct (to_net s H id p Hp) as (n & fd & Hn & _). exists p, n. unfold loadNet. rewrite Hp. cbn. by rewrite Hn.
Qed.

(** The tables without a sandbox, its file closed. *)
Definition forget (id : string) (p : nat) (n : MvmNet) (s : node) : node := close_file (File (n_Tap n)) (delNet n s).

Lemma forget_ok s id p n : taps_ok s -> registered s id p n -> taps_ok (forget id p n s).
Proof.
  intros H [Hp Hn]. destruct (to_net s H id p Hp) as (n' & fd & Hn' & Hid & Hf & Ho & Hnm). simplify_eq.
  unfold forget, close_file. rewrite Hf. constructor; cbn.
  - intros id' p' [Hne Hp']%lookup_delete_Some. destruct (to_net s H id' p' Hp') as (n2 & fd2 & Hn2 & Hid2 & Hf2 & Ho2 & Hnm2).
    exists n2, fd2. split_and!; [done|done|done| |].
    + apply elem_of_difference. split; [done|]. intros ->%elem_of_singleton. apply Hne.
      by apply (to_files s H (n_ID n) id' p p' n n2 fd).
    + rewrite lookup_delete_ne; [done|]. intros Heq. rewrite <-Heq in Hnm2. congruence.
  - intros nm p' [Hne Hp']%lookup_delete_Some. destruct (to_name s H nm p' Hp') as (id' & n2 & [Hi2 Hn2] & <-).
    exists id', n2. split; [|done]. split; cbn; [|done]. rewrite lookup_delete_ne; [done|].
    intros Heq. rewrite <-Heq in Hi2. simplify_eq.
  - intros fd' [Hin Hne]%elem_of_difference. destruct (to_open s H fd' Hin) as (id' & p' & n2 & [Hi2 Hn2] & Hf2).
    exists id', p', n2. split; [|done]. split; cbn; [|done]. rewrite lookup_delete_ne; [done|].
    intros Heq. apply Hne. rewrite <-Heq in Hi2. simplify_eq. by apply elem_of_singleton.
  - unfold registered. cbn. intros id1 id2 p1 p2 n1 n2 fd' [[_ H1]%lookup_delete_Some H1'] [[_ H2]%lookup_delete_Some H2'].
    by apply (to_files s H id1 id2 p1 p2 n1 n2 fd').
  - apply (to_fresh s H).
Qed.

Lemma forget_dom id p n s : n_ID n = id -> dom (ID2MvmNet (forget id p n s)) = dom (ID2MvmNet s) ∖ {[id]}.
Proof. intros <-. unfold forget, close_file. destruct (File _); cbn; apply dom_delete_L. Qed.

(** The object of a forgotten net may change. *)
Lemma taps_ok_dead s p n : taps_ok s -> (forall id, ID2MvmNet s !! id <> Some p) -> (p < next_net s)%nat ->
  taps_ok (with_tables (ID2MvmNet s) (Name2MvmNet s) (<[p := n]> (nets s)) (next_net s) s).
Proof.
  intros H Hdead Hlt. assert (Hreg : forall id p' n', registered (with_tables (ID2MvmNet s) (Name2MvmNet s) (<[p := n]> (nets s)) (next_net s) s) id p' n'
    <-> registered s id p' n').
  { intros id p' n'. unfold registered. cbn. destruct (decide (p' = p)) as [->|Hne]; [|by rewrite lookup_insert_ne].
    split; intros [Hi _]; by apply Hdead in Hi. }
  constructor.
  - cbn. intros id p' Hp'. destruct (to_net s H id p' Hp') as (n2 & fd & ?). exists n2, fd.
    rewrite lookup_insert_ne; [done|]. intros <-. by apply Hdead in Hp'.
  - cbn. intros nm p' Hp'. destruct (to_name s H nm p' Hp') as (id & n2 & Hr & ?). exists id, n2. by rewrite Hreg.
  - cbn. intros fd Hin. destruct (to_open s H fd Hin) as (id & p' & n2 & Hr & ?). exists id, p', n2. by rewrite Hreg.
  - intros id id' p1 p2 n1 n2 fd. rewrite !Hreg. by apply (to_files s H).
  - cbn. intros p' n' [[<- _]|[_ ?]]%lookup_insert_Some; [done|]. by eapply (to_fresh s H).
Qed.

Lemma unregister_ok id s : taps_ok s ->
  taps_ok (unregisterNetworkAgentTapForPool id s) /\
  dom (ID2MvmNet (unregisterNetworkAgentTapForPool id s)) = dom (ID2MvmNet s) ∖ {[id]} /\
  idToAlloc (unregisterNetworkAgentTapForPool id s) = idToAlloc s /\ granted (unregisterNetworkAgentTapForPool id s) = granted s /\
  net_db (unregisterNetworkAgentTapForPool id s) = net_db s.
Proof.
  intros H. unfold unregisterNetworkAgentTapForPool. destruct (ID2MvmNet s !! id) as [p|] eqn:Hp.
  - destruct (to_net s H id p Hp) as (n & fd & Hn & Hid & Hf & _). unfold loadNet. rewrite Hp. cbn. rewrite Hn. cbn. rewrite Hf.
    pose proof (forget_ok s id p n H (conj Hp Hn)) as Hok. pose proof (forget_dom id p n s Hid) as Hd.
    unfold forget in Hok, Hd. rewrite Hf in Hok, Hd. split_and!; try done.
    apply (taps_ok_dead (close_file (Some fd) (delNet n s)) p); [exact Hok| |by apply (to_fresh s H p n)].
    cbn. intros id' [Hne Hp']%lookup_delete_Some. destruct (to_net s H id' p Hp') as (n' & ? & ? & <- & _). congruence.
  - unfold loadNet. rewrite Hp. cbn. split_and!; try done. apply not_elem_of_dom in Hp. set_solver.
Qed.

(** Adding a sandbox with a new file and a name nobody uses. *)
Lemma storeNet_ok id tap fd s : taps_ok s -> ID2MvmNet s !! id = None -> File tap = Some fd -> fd ∉ open s ->
  Name2MvmNet s !! t_Name tap = None -> taps_ok (storeNet (MkMvm id tap) (with_open ({[fd]} ∪ open s) s)).
Proof.
  intros H Hid Hf Ho Hnm.
  assert (Hnew : forall p n, nets s !! p = Some n -> p <> next_net s) by (intros p n Hp%(to_fresh s H); lia).
  assert (Hreg : forall id' p n, registered (storeNet (MkMvm id tap) (with_open ({[fd]} ∪ open s) s)) id' p n <->
    (id' = id /\ p = next_net s /\ n = MkMvm id tap) \/ (id' <> id /\ registered s id' p n)).
  { intros id' p n. unfold registered. cbn. rewrite !lookup_insert_Some. split.
    - intros [[[<- <-]|[Hne Hi]] [[Hp <-]|[Hp Hn]]]; [by left|done| |right; done].
      exfalso. destruct (to_net s H _ _ Hi) as (n2 & ? & Hn2 & _). by apply Hnew in Hn2.
    - intros [(-> & -> & ->)|(Hne & Hi & Hn)]; [naive_solver|]. pose proof (Hnew _ _ Hn). naive_solver. }
  constructor.
  - cbn. intros id' p Hp. apply lookup_insert_Some in Hp as [[<- <-]|[Hne Hp]].
    + exists (MkMvm id tap), fd. rewrite !lookup_insert_eq. split_and!; try done. set_solver.
    + destruct (to_net s H id' p Hp) as (n & fd' & Hn & ? & ? & ? & Hname). exists n, fd'. pose proof (Hnew _ _ Hn).
      rewrite !lookup_insert_ne by (done || congruence). split_and!; try done. set_solver.
  - cbn. intros nm p Hp. apply lookup_insert_Some in Hp as [[<- <-]|[Hne Hp]].
    + exists id, (MkMvm id tap). split; [|done]. apply Hreg. by left.
    + destruct (to_name s H nm p Hp) as (id' & n & Hr & ?). exists id', n. split; [|done]. apply Hreg. right.
      split; [|done]. intros ->. destruct Hr. congruence.
  - cbn. intros fd' [->%elem_of_singleton|Hin]%elem_of_union.
    + exists id, (next_net s), (MkMvm id tap). split; [|done]. apply Hreg. by left.
    + destruct (to_open s H fd' Hin) as (id' & p & n & Hr & ?). exists id', p, n. split; [|done]. apply Hreg. right.
      split; [|done]. intros ->. destruct Hr. congruence.
  - intros id1 id2 p1 p2 n1 n2 fd' [(-> & -> & ->)|(Hne1 & Hr1)]%Hreg [(-> & -> & ->)|(Hne2 & Hr2)]%Hreg; cbn; intros F1 F2; try done.
    + destruct Hr2 as [Hi Hn]. destruct (to_net s H _ _ Hi) as (n' & ? & ? & ? & ? & ? & ?). simplify_eq.
    + destruct Hr1 as [Hi Hn]. destruct (to_net s H _ _ Hi) as (n' & ? & ? & ? & ? & ? & ?). simplify_eq.
    + by apply (to_files s H id1 id2 p1 p2 n1 n2 fd').
  - cbn. intros p n [[<- _]|[_ Hp]]%lookup_insert_Some; [lia|]. apply (to_fresh s H) in Hp. lia.
Qed.

Lemma with_open_id s : with_open (open s) s = s.
Proof. by destruct s. Qed.

Lemma forget_name s id p n nm : taps_ok s -> registered s id p n ->
  (forall q m, Name2MvmNet s !! nm = Some q -> nets s !! q = Some m -> n_ID m = id) -> Name2MvmNet (forget id p n s) !! nm = None.
Proof.
  intros H [Hp Hn] Hfree. unfold forget, close_file. assert (Hgoal : delete (t_Name (n_Tap n)) (Name2MvmNet s) !! nm = None).
  { destruct (decide (nm = t_Name (n_Tap n))) as [->|Hne]; [apply lookup_delete_eq|]. rewrite lookup_delete_ne by done.
    destruct (Name2MvmNet s !! nm) as [q|] eqn:Hq; [|done]. destruct (to_name s H nm q Hq) as (id' & m & [Hi Hm] & Hnm).
    pose proof (Hfree q m eq_refl Hm) as Hid. destruct (to_net s H id' q Hi) as (m' & ? & ? & <- & _). simplify_eq. }
  by destruct (File _).
Qed.

Lemma register_ok id shim tapfile link s s' err :
  taps_ok s -> (forall fd ix, tapfile = Ok (fd, ix) -> fd ∉ open s) ->
  (forall intf rest p n, Interfaces shim = intf :: rest -> Name2MvmNet s !! i_Name intf = Some p -> nets s !! p = Some n -> n_ID n = id) ->
  registerNetworkAgentTapForPool id shim tapfile link s = (s', err) ->
  taps_ok s' /\ idToAlloc s' = idToAlloc s /\ granted s' = granted s /\ net_db s' = net_db s /\
  dom (ID2MvmNet s') = (if err then dom (ID2MvmNet s) else {[id]} ∪ dom (ID2MvmNet s)).
Proof.
  intros H Hfd Hname. unfold registerNetworkAgentTapForPool. destruct (Interfaces shim) as [|intf rest]; [by intros [= <- <-]|].
  case_bool_decide; [by intros [= <- <-]|]. case_bool_decide; [by intros [= <- <-]|].
  destruct tapfile as [[fd ix]|m]; [|by intros [= <- <-]]. specialize (Hfd fd ix eq_refl).
  specialize (Hname intf rest). destruct (if ix <=? 0 then link else Ok ix) as [ix'|m].
  2:{ intros [= <- <-]. cbn. replace (({[fd]} ∪ open s) ∖ {[fd]}) with (open s) by set_solver.
      change (with_open (open s) (with_open ({[fd]} ∪ open s) s)) with (with_open (open s) s). by rewrite with_open_id. }
  set (tap := MkTap ix' (i_Name intf) (IPAddr intf) (Some fd) (SetPortMappings (PortMappings shim))).
  intros [= <- <-]. destruct (ID2MvmNet s !! id) as [p|] eqn:Hp; unfold loadNet; cbn; rewrite Hp; cbn.
  - destruct (to_net s H id p Hp) as (old & ofd & Hold & Hid & Hof & Hoo & _). rewrite Hold. cbn.
    rewrite Hof, bool_decide_eq_false_2 by congruence.
    pose proof (forget_ok s id p old H (conj Hp Hold)) as Hok. pose proof (forget_dom id p old s Hid) as Hd.
    pose proof (forget_name s id p old (i_Name intf) H (conj Hp Hold) (fun q m => Hname q m eq_refl)) as Hnm.
    assert (Hs : storeNet (MkMvm id tap) (close_file (Some ofd) (delNet old (with_open ({[fd]} ∪ open s) s))) =
                 storeNet (MkMvm id tap) (with_open ({[fd]} ∪ open (forget id p old s)) (forget id p old s))).
    { unfold forget. rewrite Hof. unfold storeNet, close_file, with_open, with_tables, delNet. cbn. f_equal. set_solver. }
    rewrite Hs. assert (Hgone : ID2MvmNet (forget id p old s) !! id = None) by (apply not_elem_of_dom; rewrite Hd; set_solver).
    split_and!; [|done|done|done|].
    + apply storeNet_ok; [exact Hok|exact Hgone|done| |exact Hnm]. unfold forget. rewrite Hof. cbn. set_solver.
    + cbn. rewrite dom_insert_L, dom_delete_L, Hid. apply set_eq. intros x. destruct (decide (x = id)); set_solver.
  - split_and!; try done; [|cbn; by rewrite dom_insert_L].
    apply (storeNet_ok id tap fd s H Hp eq_refl Hfd).
    destruct (Name2MvmNet s !! i_Name intf) as [q|] eqn:Hq; [exfalso|done].
    destruct (to_name s H _ q Hq) as (id' & m & [Hi Hm] & _). pose proof (Hname q m eq_refl eq_refl Hm) as Hid.
    destruct (to_net s H id' q Hi) as (m' & ? & ? & <- & _). simplify_eq.
Qed.

(** ** Histories *)

Section histories.
Context {GR : GoRuntime} {AC : AllocCodec} (conf : Config).

(** What the kernel and the agent promise: a file handed out is not one that is open,
    and the tap of a network is not the tap of another sandbox. *)
Definition plausible (inp : create_in) (s : node) : Prop :=
  (forall fd ix, ci_tapfile inp = Ok (fd, ix) -> fd ∉ open s) /\
  (forall req resp intf rest p n, ci_ensure inp req = inl resp -> ep_Interfaces resp = intf :: rest ->
     Name2MvmNet s !! ai_Name intf = Some p -> nets s !! p = Some n -> n_ID n = ci_SandboxID inp).

Inductive nstep : node -> node -> Prop :=
  | ns_create inp s : plausible inp s -> nstep s (Create conf inp s).1
  | ns_destroy inp s : nstep s (Destroy inp s).1
  | ns_cleanup inp s : nstep s (CleanUp inp s).1.

(** The same without failed releases of roll-backs and without errors of the store. *)
Inductive nstep_released : node -> node -> Prop :=
  | nr_create inp s : plausible inp s -> ci_release inp = None -> nstep_released s (Create conf inp s).1
  | nr_destroy inp s : nstep_released s (Destroy inp s).1.

(** The network of every granted sandbox is registered and recorded; no bucket of the
    store is nested in another. *)
Definition tracked (s : node) : Prop :=
  granted s = dom (ID2MvmNet s) /\ dom (ID2MvmNet s) ⊆ dom (idToAlloc s) /\
  map_Forall (fun _ a => al_NetworkType a = NetworkType_tap) (idToAlloc s) /\ flat_ok (net_db s).

Lemma shim_name resp shim : buildShimNetReqFromEnsureResponse conf (Some resp) = Ok shim ->
  exists intf rest, ep_Interfaces resp = intf :: rest /\ exists i, Interfaces shim = [i] /\ i_Name i = ai_Name intf.
Proof.
  unfold buildShimNetReqFromEnsureResponse. destruct (ep_Interfaces resp) as [|intf rest]; [done|].
  destruct (_ ≫= To4) as [b|]; [|done]. intros (ips & _ & E)%rbind_ok. exists intf, rest. split; [done|].
  destruct ips; injection E as <-; eauto.
Qed.

Lemma rollback_ok inp s s2 :
  taps_ok s2 -> idToAlloc s2 = idToAlloc s -> net_db s2 = net_db s -> granted s2 = {[ci_SandboxID inp]} ∪ granted s ->
  dom (ID2MvmNet s2) = dom (ID2MvmNet s) ->
  taps_ok (rollback inp s2) /\ idToAlloc (rollback inp s2) = idToAlloc s /\ net_db (rollback inp s2) = net_db s /\
  dom (ID2MvmNet (rollback inp s2)) = dom (ID2MvmNet s) ∖ {[ci_SandboxID inp]} /\
  (ci_release inp = None -> granted (rollback inp s2) = granted s ∖ {[ci_SandboxID inp]}).
Proof.
  intros H2 Ha Hd Hg Hi. unfold rollback.
  assert (H3 : taps_ok (release (ci_SandboxID inp) (ci_release inp) s2)).
  { unfold release. destruct (ci_release inp); [done|]. destruct H2; by constructor. }
  destruct (unregister_ok (ci_SandboxID inp) _ H3) as (U1 & U2 & U3 & U4 & U5).
  split_and!; [done|rewrite U3|rewrite U5|rewrite U2|intros Hr; rewrite U4]; unfold release.
  - by destruct (ci_release inp).
  - by destruct (ci_release inp).
  - destruct (ci_release inp); cbn; by rewrite Hi.
  - rewrite Hr. cbn. rewrite Hg. set_solver.
Qed.

(** What a creation does to the registration: on success the sandbox is registered and
    granted; on failure after the grant it is neither, if the release succeeds. *)
Lemma tap_Create_cases inp s s' r : taps_ok s -> plausible inp s -> tap_Create conf inp s = (s', r) ->
  taps_ok s' /\ idToAlloc s' = idToAlloc s /\ net_db s' = net_db s /\
  match r with
  | inl shim => dom (ID2MvmNet s') = {[ci_SandboxID inp]} ∪ dom (ID2MvmNet s) /\ granted s' = {[ci_SandboxID inp]} ∪ granted s
  | inr _ =>
      (ID2MvmNet s' = ID2MvmNet s /\ granted s' = granted s) \/
      (dom (ID2MvmNet s') = dom (ID2MvmNet s) ∖ {[ci_SandboxID inp]} /\
       (ci_release inp = None -> granted s' = granted s ∖ {[ci_SandboxID inp]}))
  end.
Proof.
  intros H [Hfd Hname] E. unfold tap_Create in E. destruct (ci_netreq inp) as [qos|m]; [|injection E as <- <-; eauto 10].
  destruct (ResolveEffectiveDNSServers _ _) as [dns|m]; [|injection E as <- <-; eauto 10].
  destruct (mergeDNSAllowOutCIDRs _ _) as [policy cidrs].
  destruct (ci_ensure inp _) as [resp|e] eqn:Hens.
  2:{ injection E as <- <-. split_and!; [|done|done|by left]. destruct H; by constructor. }
  set (s1 := with_granted ({[ci_SandboxID inp]} ∪ granted s) s) in E.
  assert (H1 : taps_ok s1) by (destruct H; by constructor).
  destruct (buildShimNetReqFromEnsureResponse conf (Some resp)) as [shim|m] eqn:Hshim.
  2:{ injection E as <- <-. destruct (rollback_ok inp s s1) as (R1 & R2 & R3 & R4 & R5); try done. split_and!; try done. by right. }
  destruct (shim_name resp shim Hshim) as (intf & rest & Hif & i & Hi & Hin).
  destruct (registerNetworkAgentTapForPool _ _ _ _ _) as [s2 [m|]] eqn:Hreg.
  - apply register_ok in Hreg as (R1 & R2 & R3 & R4 & R5); [|done|done|].
    2:{ intros i' rest' p n Hi' Hq Hn. rewrite Hi in Hi'. injection Hi' as <- _. rewrite Hin in Hq. by eapply Hname. }
    injection E as <- <-. destruct (rollback_ok inp s s2) as (R1' & R2' & R3' & R4' & R5'); try done. split_and!; try done. by right.
  - apply register_ok in Hreg as (R1 & R2 & R3 & R4 & R5); [|done|done|].
    2:{ intros i' rest' p n Hi' Hq Hn. rewrite Hi in Hi'. injection Hi' as <- _. rewrite Hin in Hq. by eapply Hname. }
    injection E as <- <-. by split_and!.
Qed.

(** Changes that leave the taps alone. *)
Lemma taps_ok_same s s' : ID2MvmNet s' = ID2MvmNet s -> Name2MvmNet s' = Name2MvmNet s -> nets s' = nets s -> next_net s' = next_net s ->
  open s' = open s -> taps_ok s -> taps_ok s'.
Proof.
  destruct s, s'. cbn. intros -> -> -> -> -> [H1 H2 H3 H4 H5]. by constructor.
Qed.

Lemma DeleteSync_cases io id s s' err : DeleteSync io id s = (s', err) ->
  (forall s0, taps_ok s0 -> s0 = s -> taps_ok s') /\ ID2MvmNet s' = ID2MvmNet s /\ granted s' = granted s /\ open s' = open s /\
  idToAlloc s' = (if err then idToAlloc s else delete id (idToAlloc s)) /\
  (flat_ok (net_db s) -> flat_ok (net_db s') /\ (io = None -> err = None)).
Proof.
  unfold DeleteSync. pose proof (Delete_keeps_flat io DBBucketNetwork id (net_db s)) as Hfl.
  destruct (Delete io DBBucketNetwork id (net_db s)) as [e d] eqn:E. cbn [snd] in Hfl.
  assert (Hio : flat_ok (net_db s) -> io = None -> e = None \/ e = Some ErrorBucketNotFound).
  { intros Hf ->. destruct (Delete_flat DBBucketNetwork id (net_db s) Hf) as (e' & d' & E' & He & _). rewrite E' in E. injection E as -> ->. done. }
  assert (Hcase : forall a d', (forall s0, taps_ok s0 -> s0 = s -> taps_ok (with_allocs a d' s))).
  { intros a d' s0 H0 ->. by eapply taps_ok_same; [..|exact H0]. }
  destruct e as [e|].
  - case_match eqn:Hb; intros [= <- <-]; split_and!; try done.
    + intros s0 H0 ->. by eapply taps_ok_same; [..|exact H0].
    + intros Hf. split; [by apply Hfl|done].
    + apply Hcase.
    + intros Hf. split; [by apply Hfl|]. intros Hn. destruct (Hio Hf Hn) as [?|[= ->]]; [done|]. done.
  - intros [= <- <-]. split_and!; try done; [|intros Hf; split; [by apply Hfl|done]]. intros s0 H0 ->. by eapply taps_ok_same; [..|exact H0].
Qed.

Lemma Sync_cases io id s s' err : Sync io id s = (s', err) -> exists d, s' = with_allocs (idToAlloc s) d s /\ (flat_ok (net_db s) -> flat_ok d).
Proof.
  unfold Sync. destruct (idToAlloc s !! id) as [a|]; [|intros [= <- <-]; exists (net_db s); by destruct s].
  pose proof (Set_keeps_flat io DBBucketNetwork id (al_marshal a) (net_db s)) as Hfl.
  destruct (Set_ _ _ _ _ _) as [e d]. intros [= <- <-]. by exists d.
Qed.

Lemma Create_cases inp s : taps_ok s -> plausible inp s ->
  taps_ok (Create conf inp s).1 /\ (tracked s -> ci_release inp = None -> tracked (Create conf inp s).1).
Proof.
  intros H Hp. unfold Create. destruct (_ && _); [done|]. destruct (negb _) eqn:Htype; [done|].
  apply negb_false_iff, bool_decide_eq_true in Htype.
  destruct (tap_Create conf inp s) as [s1 [shim|e]] eqn:E; destruct (tap_Create_cases _ _ _ _ H Hp E) as (T1 & T2 & T3 & T4).
  - destruct T4 as [T4 T5]. set (a := MkAlloc _ _ _ _).
    destruct (Sync (ci_io inp) _ _) as [s2 err] eqn:Es. apply Sync_cases in Es as (d & -> & Hd). cbn [net_db with_allocs] in Hd. rewrite T3 in Hd.
    assert (Hs2 : taps_ok (with_allocs (<[ci_SandboxID inp := a]> (idToAlloc s1)) d s1) /\
                  (tracked s -> tracked (with_allocs (<[ci_SandboxID inp := a]> (idToAlloc s1)) d s1))).
    { split; [by eapply (taps_ok_same s1)|]. intros (G1 & G2 & G3 & G4). unfold tracked. cbn. rewrite T4, T5, G1, T2, dom_insert_L.
      split_and!; [done|set_solver|by apply map_Forall_insert_2|by apply Hd]. }
    destruct Hs2 as [A1 A2]. by destruct err; split; [exact A1|auto|exact A1|auto].
  - split; [done|]. intros (G1 & G2 & G3 & G4) Hr. unfold tracked. cbn. rewrite T2, T3.
    destruct T4 as [[-> ->]|[-> ->]]; [done| |done]. rewrite G1. split_and!; [done|set_solver|done|done].
Qed.

Lemma Destroy_cases inp s : taps_ok s -> taps_ok (Destroy inp s).1 /\ (tracked s -> tracked (Destroy inp s).1).
Proof.
  intros H. unfold Destroy. set (id := di_SandboxID inp). destruct (idToAlloc s !! id) as [a|] eqn:Ha; [|done].
  destruct (negb _); [done|]. unfold tap_Destroy. fold id.
  assert (Hgone : forall s1, taps_ok s1 -> id ∉ dom (ID2MvmNet s1) ->
    taps_ok (match DeleteSync (di_io inp) id s1 with
      | (s2, Some m) => (s2, Some (NetErr ErrorCode_UpdateLocalMetaDataFailed m)) | (s2, None) => (s2, None) end).1 /\
    (tracked s1 -> tracked (match DeleteSync (di_io inp) id s1 with
      | (s2, Some m) => (s2, Some (NetErr ErrorCode_UpdateLocalMetaDataFailed m)) | (s2, None) => (s2, None) end).1)).
  { intros s1 H1 Hid. destruct (DeleteSync (di_io inp) id s1) as [s2 err] eqn:E.
    destruct (DeleteSync_cases _ _ _ _ _ E) as (D1 & D2 & D3 & D4 & D5 & D6). destruct err; cbn; (split; [by eapply D1|]).
    - intros (G1 & G2 & G3 & G4). unfold tracked. rewrite D2, D3, D5. split_and!; [done..|by apply D6].
    - intros (G1 & G2 & G3 & G4). unfold tracked. rewrite D2, D3, D5. split_and!; [done| |by apply map_Forall_delete|by apply D6].
      rewrite dom_delete_L. set_solver. }
  destruct (ID2MvmNet s !! id) as [p|] eqn:Hp.
  - destruct (registered_load s id H ltac:(by rewrite Hp)) as (p' & n & -> & _). rewrite Ha.
    destruct (di_release inp) as [e|]; cbn.
    + split; [by eapply (taps_ok_same s)|done].
    + assert (H1 : taps_ok (release id None s)) by by eapply (taps_ok_same s).
      destruct (unregister_ok id _ H1) as (U1 & U2 & U3 & U4 & U5).
      destruct (Hgone (unregisterNetworkAgentTapForPool id (release id None s)) U1 ltac:(rewrite U2; set_solver)) as [R1 R2].
      split; [exact R1|]. intros (G1 & G2 & G3 & G4). apply R2. unfold tracked. rewrite U2, U3, U4, U5. cbn. rewrite G1.
      split_and!; [done|set_solver|done|done].
  - unfold loadNet. rewrite Hp. cbn. apply Hgone; [done|]. by apply not_elem_of_dom.
Qed.

Lemma start_ok order d g s : start order d g = Some s ->
  taps_ok s /\ ID2MvmNet s = ∅ /\ granted s = g /\ map_Forall (fun _ a => al_NetworkType a = NetworkType_tap) (idToAlloc s).
Proof.
  unfold start, RecoverFromDB. case_bool_decide; [|done]. cbn. intros [= <-]. split_and!; [|done|done|].
  - constructor; cbn.
    + by intros id p Hp.
    + by intros nm p Hp.
    + intros fd []%not_elem_of_empty.
    + by intros id id' p p' n n' fd [Hi _].
    + by intros p n Hp.
  - cbn. intros id a. rewrite lookup_omap. intros (t & _ & Ht)%bind_Some. unfold recover_one in Ht.
    apply bind_Some in Ht as (a' & _ & Ht). case_bool_decide; by simplify_eq.
Qed.

Lemma taps_ok_step s s' : nstep s s' -> taps_ok s -> taps_ok s'.
Proof.
  intros [inp s0 Hp|inp s0|[inp|] s0] H; [by apply Create_cases|by apply Destroy_cases|by apply Destroy_cases|done].
Qed.

(** C8: however sandboxes are created, destroyed and cleaned up, and whatever fails:
    the shim that asks for a tap by name and sandbox is given a file only if that
    sandbox is registered with that tap, the file is open and no other sandbox has it;
    and every file the plugin has open can be fetched so, none is lost. *)
Theorem tap_files_served_to_owner order d g s0 s : start order d g = Some s0 -> rtc nstep s0 s ->
  (forall name id f, matchTapFd name id s = TapFile f -> exists fd p n, f = Some fd /\ fd ∈ open s /\ registered s id p n /\
     t_Name (n_Tap n) = name /\ File (n_Tap n) = Some fd /\
     (forall id' p' n', registered s id' p' n' -> File (n_Tap n') = Some fd -> id' = id)) /\
  (forall fd, fd ∈ open s -> exists id name, matchTapFd name id s = TapFile (Some fd)).
Proof.
  intros Hs Hrun. assert (H : taps_ok s).
  { eapply (rtc_preserves nstep taps_ok); [apply taps_ok_step|exact Hrun|]. by apply start_ok in Hs as [? _]. }
  unfold matchTapFd. split.
  - intros name id f. destruct (Name2MvmNet s !! name) as [p|] eqn:Hp; [|done]. cbn.
    destruct (to_name s H name p Hp) as (id' & n & [Hi Hn] & Hnm). rewrite Hn. case_bool_decide as Hid; [|done]. intros [= <-].
    destruct (to_net s H id' p Hi) as (n' & fd & Hn' & Hid' & Hf & Ho & _). simplify_eq.
    exists fd, p, n. split_and!; try done. intros id' p' n' Hr Hf'. symmetry. by apply (to_files s H (n_ID n) id' p p' n n' fd).
  - intros fd Hin. destruct (to_open s H fd Hin) as (id & p & n & [Hi Hn] & Hf). exists id, (t_Name (n_Tap n)).
    destruct (to_net s H id p Hi) as (n' & fd' & Hn' & Hid & _ & _ & Hnm). simplify_eq. rewrite Hnm. cbn. rewrite Hn.
    rewrite bool_decide_eq_true_2 by done. by rewrite Hf.
Qed.

Lemma tracked_step s s' : nstep_released s s' -> taps_ok s /\ tracked s -> taps_ok s' /\ tracked s'.
Proof.
  intros [inp s0 Hp Hr|inp s0] [H Ht].
  - destruct (Create_cases inp s0 H Hp) as [A B]. auto.
  - destruct (Destroy_cases inp s0 H) as [A B]. auto.
Qed.

(** A destruction that meets no failure. *)
Lemma Destroy_releases s id : taps_ok s -> tracked s -> id ∈ granted s ->
  exists s', Destroy (MkDestroyIn id None None) s = (s', None) /\ granted s' = granted s ∖ {[id]} /\
    ID2MvmNet s' !! id = None /\ idToAlloc s' !! id = None.
Proof.
  intros H (G1 & G2 & G3 & G4) Hin. rewrite G1 in Hin.
  assert (Ha : is_Some (idToAlloc s !! id)) by (apply elem_of_dom; set_solver). destruct Ha as [a Ha].
  unfold Destroy. cbn [di_SandboxID]. rewrite Ha, bool_decide_eq_true_2 by by apply (G3 id). cbn [negb].
  unfold tap_Destroy. cbn [di_SandboxID di_release di_io].
  destruct (registered_load s id H ltac:(by apply elem_of_dom)) as (p & n & -> & _). rewrite Ha.
  assert (H1 : taps_ok (release id None s)) by by eapply (taps_ok_same s).
  destruct (unregister_ok id _ H1) as (U1 & U2 & U3 & U4 & U5).
  destruct (DeleteSync None id (unregisterNetworkAgentTapForPool id (release id None s))) as [s' err] eqn:E.
  destruct (DeleteSync_cases _ _ _ _ _ E) as (_ & D2 & D3 & _ & D5 & D6). rewrite U5 in D6. rewrite (proj2 (D6 G4) eq_refl) in *.
  exists s'. split_and!; [done|by rewrite D3, U4| |].
  - apply not_elem_of_dom. rewrite D2, U2. set_solver.
  - rewrite D5. apply lookup_delete_eq.
Qed.


(** After a restart of the Cubelet no tap is registered, and a destruction of a
    sandbox created before returns without a word to the agent: whatever it answers,
    the network stays granted, and its record is gone. *)
Theorem restart_forgets_networks order s s' id rel : flat_ok (net_db s) -> restart order s = Some s' -> id ∈ granted s ->
  id ∈ granted (Destroy (MkDestroyIn id rel None) s').1 /\ (Destroy (MkDestroyIn id rel None) s').2 = None /\
  idToAlloc (Destroy (MkDestroyIn id rel None) s').1 !! id = None.
Proof.
  intros Hfl Hr Hin. assert (Hdb : net_db s' = net_db s) by (unfold restart, start in Hr; by apply bind_Some in Hr as (al & _ & [= <-])).
  destruct (start_ok _ _ _ _ Hr) as (_ & Hempty & Hg & Htap). unfold Destroy. cbn [di_SandboxID].
  destruct (idToAlloc s' !! id) as [a|] eqn:Ha; [|cbn; rewrite Hg; by split_and!].
  rewrite bool_decide_eq_true_2 by by apply (Htap id). cbn [negb]. unfold tap_Destroy, loadNet. cbn [di_SandboxID di_io].
  rewrite Hempty, lookup_empty. cbn [mbind option_bind].
  destruct (DeleteSync None id s') as [s2 err] eqn:E. destruct (DeleteSync_cases _ _ _ _ _ E) as (_ & _ & D3 & _ & D5 & D6).
  rewrite Hdb in D6. rewrite (proj2 (D6 Hfl) eq_refl) in *. cbn. rewrite D3, D5, Hg. split_and!; [done|done|apply lookup_delete_eq].
Qed.

(** ** What a restart keeps *)

(** Steps without errors of the store. *)
Inductive nstep_saved : node -> node -> Prop :=
  | nv_create inp s : plausible inp s -> ci_io inp = None -> nstep_saved s (Create conf inp s).1
  | nv_destroy inp s : di_io inp = None -> nstep_saved s (Destroy inp s).1.

Record saved (num : Z) (s : node) : Prop := MkSaved {
  sv_ok : flat_ok (net_db s);
  sv_num : poolNum (net_db s) = num;
  sv_view : forall id, view (net_db s) [DBBucketNetwork] id = al_marshal <$> idToAlloc s !! id;
  sv_taps : map_Forall (fun _ a => al_NetworkType a = NetworkType_tap) (idToAlloc s);
}.

Lemma saved_same num s s' : idToAlloc s' = idToAlloc s -> net_db s' = net_db s -> saved num s -> saved num s'.
Proof. destruct s, s'. cbn. intros -> -> [H1 H2 H3 H4]. by constructor. Qed.

Lemma saved_insert num s id a : saved num s -> al_NetworkType a = NetworkType_tap ->
  saved num (Sync None id (with_allocs (<[id := a]> (idToAlloc s)) (net_db s) s)).1.
Proof.
  intros [H1 H2 H3 H4] Ht. unfold Sync. cbn [idToAlloc with_allocs net_db]. rewrite lookup_insert_eq.
  destruct (Set_flat None DBBucketNetwork id (al_marshal a) (net_db s) H1) as (d & -> & F1 & F2 & Hv).
  constructor; cbn; [exact F1|by rewrite F2| |by apply map_Forall_insert_2].
  intros id'. rewrite Hv. case_bool_decide as Hb.
  - destruct Hb as [_ ->]. by rewrite lookup_insert_eq.
  - rewrite lookup_insert_ne by (intros <-; tauto). apply H3.
Qed.

Lemma saved_delete num s id : saved num s -> saved num (DeleteSync None id s).1.
Proof.
  intros [H1 H2 H3 H4]. unfold DeleteSync.
  destruct (Delete_flat DBBucketNetwork id (net_db s) H1) as (e & d & -> & He & _ & F1 & F2 & Hv).
  assert (Hs : saved num (with_allocs (delete id (idToAlloc s)) d s)).
  { constructor; cbn; [exact F1|by rewrite F2| |by apply map_Forall_delete]. intros id'. rewrite Hv. case_bool_decide as Hb.
    - destruct Hb as [_ ->]. by rewrite lookup_delete_eq.
    - rewrite lookup_delete_ne by (intros <-; tauto). apply H3. }
  destruct He as [->| ->]; [exact Hs|]. rewrite bool_decide_eq_false_2, bool_decide_eq_true_2 by done. exact Hs.
Qed.

Lemma saved_step num s s' : nstep_saved s s' -> taps_ok s /\ saved num s -> taps_ok s' /\ saved num s'.
Proof.
  intros [inp s0 Hp Hio|inp s0 Hio] [H Hs].
  - split; [by apply Create_cases|]. unfold Create. destruct (_ && _); [done|]. destruct (negb _) eqn:Htype; [done|].
    apply negb_false_iff, bool_decide_eq_true in Htype.
    destruct (tap_Create conf inp s0) as [s1 [shim|e]] eqn:E; destruct (tap_Create_cases _ _ _ _ H Hp E) as (_ & T2 & T3 & _).
    + pose proof (saved_same num s0 s1 T2 T3 Hs) as Hs1. rewrite Hio.
      pose proof (saved_insert num s1 (ci_SandboxID inp)
        (MkAlloc (ci_SandboxID inp) (ci_NetworkType inp) (md_marshal (SandboxIP shim)) (ci_now inp)) Hs1 Htype) as Hi.
      destruct (Sync None _ _) as [s2 [m|]]; exact Hi.
    + exact (saved_same num s0 s1 T2 T3 Hs).
  - split; [by apply Destroy_cases|]. unfold Destroy. destruct (idToAlloc s0 !! _) as [a|] eqn:Ha; [|done]. destruct (negb _); [done|].
    assert (Hfin : forall s1, saved num s1 -> saved num (match DeleteSync (di_io inp) (di_SandboxID inp) s1 with
      | (s2, Some m) => (s2, Some (NetErr ErrorCode_UpdateLocalMetaDataFailed m)) | (s2, None) => (s2, None) end).1).
    { intros s1 H1. rewrite Hio. pose proof (saved_delete num s1 (di_SandboxID inp) H1) as Hd. by destruct (DeleteSync None _ _) as [s2 [m|]]. }
    unfold tap_Destroy. destruct (loadNet _ s0) as [[p n]|]; [|by apply Hfin]. rewrite Ha.
    destruct (di_release inp) as [e|]; [by apply (saved_same num s0)|]. apply Hfin.
    assert (H1 : taps_ok (release (di_SandboxID inp) None s0)) by by eapply (taps_ok_same s0).
    destruct (unregister_ok (di_SandboxID inp) _ H1) as (_ & _ & U3 & _ & U5). exact (saved_same num s0 _ U3 U5 Hs).
Qed.

(** C31: without errors of the store, a restart finds the allocations as they were: the
    plugin starts again, and every sandbox created and not destroyed has its record,
    in whatever order the files of the store are read. *)
Theorem restart_keeps_allocations num order s0 s :
  0 <= num -> start (seqZ 0 num) (NewCubeStoreExt num) ∅ = Some s0 -> rtc nstep_saved s0 s ->
  (forall i, 0 <= i < num -> i ∈ order) -> exists s', restart order s = Some s' /\ idToAlloc s' = idToAlloc s.
Proof.
  intros Hn Hs Hrun Hord. assert (H : taps_ok s /\ saved num s).
  { eapply (rtc_preserves nstep_saved (fun s => taps_ok s /\ saved num s)); [apply saved_step|exact Hrun|].
    destruct (start_ok _ _ _ _ Hs) as (A & _ & _ & D). split; [done|]. destruct (new_store_flat num Hn) as [N1 N2].
    assert (Hr : ReadAll (seqZ 0 num) DBBucketNetwork (NewCubeStoreExt num) = ∅).
    { apply map_empty. intros id. rewrite ReadAll_flat; [apply N2|done|].
      intros i Hi. apply elem_of_seqZ. cbn in Hi. lia. }
    unfold start, RecoverFromDB in Hs. rewrite Hr in Hs. rewrite bool_decide_eq_true_2 in Hs by done. cbn in Hs. injection Hs as <-.
    constructor; [done|done| |done]. intros id. cbn [net_db idToAlloc]. by rewrite N2, omap_empty, lookup_empty. }
  destruct H as [_ [H1 H2 H3 H4]].
  assert (Hread : forall id, ReadAll order DBBucketNetwork (net_db s) !! id = al_marshal <$> idToAlloc s !! id).
  { intros id. rewrite ReadAll_flat, H3; [done|done|]. intros i Hi. apply Hord. lia. }
  assert (Hone : forall id a, idToAlloc s !! id = Some a -> recover_one (al_marshal a) = Some a).
  { intros id a Ha. unfold recover_one. rewrite al_round_trip. cbn. by rewrite bool_decide_eq_true_2 by by apply (H4 id). }
  unfold restart, start, RecoverFromDB. rewrite bool_decide_eq_true_2.
  2:{ intros id t. rewrite Hread. intros (a & Ha & ->)%fmap_Some. rewrite (Hone id a Ha). by eexists. }
  eexists. split; [done|]. cbn. apply map_eq. intros id. rewrite lookup_omap, Hread.
  destruct (idToAlloc s !! id) as [a|] eqn:Ha; [|done]. cbn. by apply (Hone id).
Qed.

End histories.

(** ** A small node *)

Section example.

#[local] Instance alloc_eq_dec : EqDecision NetworkAllocation.
Proof. solve_decision. Defined.

#[local] Instance alloc_countable : Countable NetworkAllocation.
Proof.
  apply (inj_countable' (fun a => (al_SandboxID a, al_NetworkType a, al_Persistent a, al_Timestamp a))
    (fun '(a, b, c, d) => MkAlloc a b c d)). by intros [].
Defined.

(** A text of an allocation: the number that encodes it. *)
Lemma number_text (a : NetworkAllocation) : decode (Z.to_pos (dec_value (pretty (Z.pos (encode a))) 0)) = Some a.
Proof. destruct (pretty_nonneg (Z.pos (encode a)) ltac:(lia)) as [-> _]. apply decode_encode. Qed.

#[local] Instance number_codec : AllocCodec := {|
  al_marshal a := pretty (Z.pos (encode a));
  al_unmarshal t := decode (Z.to_pos (dec_value t 0));
  al_round_trip := number_text;
  md_marshal t := t;
  md_base64 t := t;
|}.

#[local] Existing Instance demo_runtime.

Definition demo_config : Config := MkConfig "169.254.68.6" "20:90:6f:fc:fc:fc" "169.254.68.5" "20:90:6f:cf:cf:cf" 30 1300.

Definition demo_answer : EnsureNetworkResponse :=
  MkEnsured [MkAIf "z192.168.0.2" "20:90:6f:fc:fc:fc" 1300 ["169.254.68.6/30"] "169.254.68.5"] [] [] [MkAPort "tcp" "127.0.0.1" 20000 80]
    {["sandbox_ip" := "192.168.0.2"]}.

Definition demo_create : create_in :=
  MkCreateIn "sb" "r" false "tap" [80] (MkReq ∅ None []) [] (Ok None) (fun _ => inl demo_answer) (Ok (7%nat, 3)) (Err "") None 0 None.

Definition demo_node : node := MkNode ∅ ∅ ∅ 0 ∅ ∅ (NewCubeStoreExt 2) (list_to_map [("connect", 0); ("timeout", 0); ("business", 0)]) ∅.

Lemma demo_start : start (seqZ 0 2) (NewCubeStoreExt 2) ∅ = Some demo_node.
Proof. by vm_compute. Qed.

Lemma demo_plausible : plausible demo_create demo_node.
Proof. split; [intros fd ix _; apply not_elem_of_empty|]. intros req resp intf rest p n _ _ Hp. by vm_compute in Hp. Qed.

Abbreviation after_create := (Create demo_config demo_create demo_node).1.

Lemma tap_files_served_to_owner_witness : exists fd, TapFile (Some 7%nat) = TapFile (Some fd) /\ fd ∈ open after_create.
Proof.
  destruct (tap_files_served_to_owner demo_config (seqZ 0 2) (NewCubeStoreExt 2) ∅ demo_node after_create) as [H _].
  - apply demo_start.
  - apply rtc_once, ns_create, demo_plausible.
  - destruct (H "z192.168.0.2" "sb" (Some 7%nat)) as (fd & p & n & E & Ho & _); [by vm_compute|]. exists fd. exact (conj (f_equal TapFile E) Ho).
Defined.


Lemma restart_keeps_allocations_witness :
  exists s', restart (seqZ 0 2) after_create = Some s' /\ idToAlloc s' = idToAlloc after_create.
Proof.
  apply (restart_keeps_allocations demo_config 2 (seqZ 0 2) demo_node after_create); [lia|apply demo_start| |].
  - apply rtc_once, nv_create; [apply demo_plausible|done].
  - intros i Hi. apply elem_of_seqZ. lia.
Defined.

End example.
